(* ===== verification/_CoqProject ===== *)
-Q . S2P
Prelude.v
PyDict.v
PyStr.v
PyDatetime.v
StorageBase.v
Types.v
MemoryState.v
MemoryInv.v
MemoryProofs.v
SqliteState.v
SqliteSchema.v
SqliteRows.v
SqliteProofs.v
StateRefinement.v
IpAddress.v
PublicEgress.v
PyUrl.v
EgressProxy.v
EgressProxyProofs.v
EgressSession.v
EgressSessionProofs.v
EgressRelay.v
IpNetwork.v
NetworkSettings.v
Env.v
ConfigValidation.v
Channel.v
Streaming.v
PyHoare.v
StateProtocol.v
StateProtocolMemory.v
Backends.v
EgressController.v
ManagerState.v
ManagerHelpers.v
ManagerRuntime.v
ManagerCreate.v
ManagerLifecycle.v
ManagerFrames.v
ManagerCreateProofs.v
ManagerPublic.v
ManagerRuns.v
OpGuard.v
Leftovers.v
SnapshotStore.v
Snapshots.v
SnapshotRestore.v
SnapshotFrames.v
RestoreProofs.v
RestoreOutcome.v
SnapshotProofs.v
SnapshotStatus.v
SnapshotDemo.v
CrashProg.v
LiveWorld.v
QmpClient.v
LiveBackup.v
LiveReconcile.v
LiveFrames.v
LiveConfined.v
LiveInv.v
LiveCapture.v
LiveDemo.v
Nft.v
NftListing.v
HostNetwork.v
NftTables.v
HostNetworkProofs.v
NetworkPolicy.v
NetworkOps.v
NftCleanup.v
BootArgs.v
GuestPlatforms.v
QemuArgs.v
QemuCommand.v
QemuLaunch.v
QemuProofs.v
ImageCache.v
ImageProofs.v
ImageCatalog.v
