(* ===== verification/Prelude.v ===== *)
(** * Celesto: a verification development

    Celesto runs computers (micro virtual machines) on a host: it records them
    in a state manager, leases addresses, ports and interfaces to them, limits
    what their network may reach, and talks to their guests.  This library
    models the parts that keep that state and enforce those limits, as
    executable definitions translated from the Python sources under
    [src/src/celesto], and proves what makes them correct.

    ** Conventions

    A Python call returns an [outcome]: a value or the exception it raised
    ([exn], one constructor per class).  A method of a mutable object is
    [py S A := S → S * outcome A]; an exception does not undo the changes made
    before it.  A dictionary is an association list in insertion order
    ([PyDict]), a text a [string] of ASCII characters, an integer a [Z].  The
    environment is an argument or part of the state: the clock, the resolver,
    the file system, the platform, the sockets, and the failures of external
    calls, which are read from a script so that every theorem covers every
    pattern of failures.  Locks are exclusive, so a method body under its lock
    is one step; the processes that share a lock directory interleave.

    ** Files

    Standard library: [PyDict] (dict), [PyStr] (str), [PyDatetime]
    (isoformat), [IpAddress] and [IpNetwork] (ipaddress), [PyUrl]
    (urllib.parse, base64).

    Data and validation: [Types] (types.py: models and enumerations),
    [ConfigValidation] (types.py: validators of VMConfig, NetworkConfig and
    their parts), [NetworkSettings] (InternetSettings and _network_policy.py).

    State managers: [StorageBase] (storage/_base.py), [MemoryState],
    [MemoryInv] and [MemoryProofs] (storage/_memory.py: operations,
    invariant, theorems, several processes over one lock directory),
    [SqliteState], [SqliteSchema], [SqliteRows] and [SqliteProofs]
    (cli/_sqlite.py: tables, operations and what fails on their connections,
    constraints and transactions, row encoding, theorems), [StateRefinement]
    (on computer records the second answers like the first),
    [StateProtocol] (storage/_protocol.py: the interface as a class with laws
    over an abstract inventory) and [StateProtocolMemory] (the in-memory
    manager satisfies them).

    Public egress: [PublicEgress] (host/_public_egress.py), [EgressProxy] and
    [EgressProxyProofs] (host/_public_egress_proxy.py), [EgressSession],
    [EgressSessionProofs] and [EgressController]
    (host/_public_egress_session.py; a session's methods spare the other
    sessions), [EgressRelay] (host/_public_egress_relay.py).

    Computer lifecycle: [PyHoare] (a weakest-precondition logic for [py]),
    [Backends] (runtime/backends.py), [ManagerState] (the state of
    CelestoManager and its environment), [ManagerHelpers] and [ManagerCreate]
    (vm.py: resolution, reservations, disks, create and the cleanups),
    [ManagerRuntime] (runtime/qemu.py, firecracker.py, libkrun.py, vz.py: the
    processes), [ManagerLifecycle] (vm.py: start, stop, pause, resume, delete,
    refresh_status, reconcile, close; a concrete environment),
    [ManagerFrames], [ManagerCreateProofs], [ManagerPublic] and [ManagerRuns]
    (what each operation preserves, create and the port search, public guests,
    whole runs), [OpGuard] (vm.py: _vm_operation_guard and close
    under several threads), [Leftovers] (vm.py: finding and pruning files whose
    computer is gone).

    Snapshots: [SnapshotStore] (the snapshot records of the state manager
    interface, as a class with laws), [Snapshots] (vm.py: create_snapshot,
    delete_snapshot, list_snapshots and what they call), [SnapshotRestore]
    (vm.py: restore_snapshot), [SnapshotFrames] (what their steps preserve),
    [RestoreProofs], [RestoreOutcome], [SnapshotProofs] and [SnapshotStatus]
    (theorems), [SnapshotDemo] (a concrete environment and the runs that
    exercise the theorems).

    Live backups: [CrashProg] (programs as trees of effects, killed after any
    number of them, and their logic), [LiveWorld] (QEMU as a class with laws,
    the snapshot folders, the host), [QmpClient] (qmp.py), [LiveBackup]
    (runtime/qemu.py: _create_live_disk_snapshot, _cleanup_live_backup),
    [LiveReconcile] (runtime/qemu.py: reconcile_live_backups), [LiveFrames]
    (what effects change, the program's names), [LiveConfined], [LiveInv] and
    [LiveCapture] (theorems, whole histories), [LiveDemo] (a scripted QEMU that
    keeps the laws, and runs).

    Image cache: [ImageCache] (images/manager.py, images/published.py and the
    unpacking of host/disk.py, as programs over names and inodes), [ImageProofs]
    (what a process relies on while others run, and the parts under it),
    [ImageCatalog] (the catalogs, theorems, runs).

    Command lines: [BootArgs] (vm.py: the kernel arguments),
    [GuestPlatforms] (runtime/guest_platforms.py), [QemuArgs] and
    [QemuCommand] (runtime/qemu_args.py: the parts and build_qemu_argv, and a
    reader of QEMU's arguments), [QemuLaunch] and [QemuProofs] (the machine
    that reader finds, theorems).

    Host firewall: [Nft] (the nftables language the program writes: scripts,
    rule sets, verdicts on packets), [NftListing] (the parsers of nft's
    listings in host/network.py), [HostNetwork] (host/network.py: the
    operations of NetworkManager that program nftables), [NftTables] (nft's
    listings and their round trip), [HostNetworkProofs], [NetworkPolicy] and
    [NetworkOps] (what a policy script does to packets, what a policy call
    enforces, sequences of operations), [NftCleanup] (removing rules by their
    comment).

    Guests: [Env] (env.py), [Channel] (comm/select.py), [Streaming]
    (_streaming.py).

    ** How the parts interact

    The lifecycle code asks a state manager for records and leases.  Its
    theorems are proved against the class [StateManagerLaws], of which the
    in-memory manager is an instance; [StateRefinement] shows that the SQLite
    manager, while its connections work, answers like the in-memory one for
    computer records.  What the lifecycle asks of the
    machine (processes, disks, network tools, sockets) is answered by a record
    of functions of the call number ([menv]), so a theorem over every [menv]
    covers every pattern of failures and of outside events between calls.
    Snapshots extend that record with the answers about snapshot folders, disk
    copies and captures ([senv]), use the lifecycle's own operations, and ask
    the inventory through the class [SnapshotLaws]; restoring carries its local
    variables in a record ([rprog]) because its handlers read what the
    interrupted body had assigned.  A live backup is a program over QEMU's
    monitor, the snapshot folder and qemu-img; its theorems are proved against
    the class [QemuLaws], where an error leaves open whether the command was
    carried out and a finished job has written what its mode and source say (a
    whole copy or the changes since a bitmap), and hold at every point where
    the process can be killed.  The
    image cache uses the same programs for processes that take turns on one
    cache: a process keeps its temporary files and the files that are good, and
    the theorems are proved for one process against what the others may do.  A
    computer's [VMConfig] is
    validated when it is described and again whenever it is read back;
    [ConfigValidation] shows what the second pass may change: the paths of
    shared folders are resolved again.  Its
    [InternetSettings] are checked against what the host can enforce
    ([NetworkSettings]).  In public mode an [EgressSession] starts a proxy and,
    for TAP guests, a firewall policy before the guest; the proxy serves
    clients with [EgressProxy], which connects only as [PublicEgress] decides.
    The firewall operations are modelled as programs over a rule set that any
    command may fail to change; nft's listings are the environment's, with
    their documented layout as the law [FaithfulListing] the cleanups rely on.
    Environment
    variables reach a guest through the interface [EnvChannel] of
    [Env], whose laws the client's theorems assume and its instances prove.

    ** What the theorems show

    Resource exclusivity: no two computers hold one address, port, context id
    or interface, within a manager and across processes; allocation returns the
    lowest free value; reconciliation marks exactly the stale computers.
    Database: the manager's own checks refuse a duplicate before a constraint
    of the schema would; a call that raises, whatever failed, leaves the tables
    unchanged or, when only reading an update back failed, with the complete
    update.  Egress: only public addresses
    are connected to, exactly those outside the listed ranges are public,
    parsing does not depend on chunking, and a forwarded request reparses.
    Sessions: a guest never starts without its proxy and policy, no proxy or
    policy is forgotten, a policy outlives its interface.  Lifecycle: create
    stores one computer, with the network that was reserved for it, or leaves
    the inventory as it was, delete leaves nothing of the computer, a running
    public-only guest always has its proxy, even when it cannot be killed, the
    port search ends, threads never run two of start, stop and delete on one
    computer and closing waits for them; automatic backend selection is exact;
    pruning removes only disks of computers nobody knows and no running command
    names, and logs of computers nobody knows.
    Snapshots: taking one stores exactly one record and touches no other
    computer, deleting one removes exactly that record, the recorded status
    says whether the computer runs again, a failed restore never loses the
    disk it replaces (and puts it back when unlinking and renaming work), and
    a successful one leaves the computer recorded with the leases it needs.
    Live backups: an image under its final name holds what the name says, the
    whole disk or the changes of its increment, in every
    history of captures, recoveries and kills; a capture accounts for the node
    it attaches; a recovery touches only what it may and
    detaches every node it owns.  Image cache: whatever processes share a cache,
    in any order, a kernel or root disk a call returned is and stays what its pin
    says, and is reused by the next call without a download.  Command lines: QEMU
    receives exactly the network, the disks and the boot arguments of the
    configuration when its values contain no option separator where the code
    does not escape one (an address that does adds options).  Relay: every byte arrives, in order,
    before a direction is closed, whichever call fails.
    Firewall: a network policy passes exactly the packets it allows and leaves
    other interfaces alone, it stays in force through every other operation
    and failure, what the program wrote it finds again in nft's listing, and a
    computer's port forwards are removed exactly when no command fails.
    Validation: stored ranges allow exactly the addresses given, accepted
    configurations are bootable, and reading one back changes at most the
    resolved paths.  Guest environment: quoting and the script round trip, and
    the operations refine a finite map, with a failed write leaving the old or
    the complete new file.  Streams: line splitting does not depend on chunking
    and no line longer than its limit is accepted.

    The conditions under which a theorem holds are in its statement and its
    comment; where the program itself can break one, the case is an example
    or a lemma beside the theorem.

    ** Fuel and bounds

    Loops over data are structural.  Six loops carry fuel.  The copy of a
    disk's backing chain recurses in Python too, and gives up at the
    interpreter's recursion limit, which is its fuel here.  The others are
    proved to have enough: the walk along backing disks in [ManagerHelpers] (one step per
    file of the folder, since a file is followed once), the search for an SSH port (one round per port of the pool and
    one to report that none is left, since every round excludes a port), the merging loop of [IpNetwork] (twice the number of networks,
    since each turn removes a pending network or a merged one), the range
    summary (the length of the range) and the chunk loops of [Streaming] and
    [EgressProxy] (the bytes at hand).  Ports, prefix lengths, sizes and
    limits are the constants of the sources.

    ** Not modelled

    Of vm.py, the asynchronous twins of the lifecycle methods, the locks on
    snapshot folders, and the disk tools (their results are the environment's answers);
    of the runtime adapters, the files of the Firecracker and libkrun
    configurations, and the vsock and swtpm side processes, whose effects are
    part of the environment's answer to spawning and booting a guest.  Of
    host/network.py, interface and bridge set-up through ip and sysctl, name
    resolution, and the asynchronous twins.  Of the images, their building, those of S3
    buckets, the choice of the cache directory, and processes with different
    catalogs on one cache.  The facade, the command line, the servers, and the
    generated cloud client.  JSON texts are encoded by codecs that are
    arguments with round-trip laws ([SqliteRows]).  Threads inside the proxy,
    timeouts, log handles and logging are left out.

    ** Plan

    Next: the asynchronous twins and their agreement with the synchronous
    methods; the SQLite manager as an instance of the interface; SSE assembly
    with a JSON model; browser session configuration; naming. *)
From stdpp Require Export base tactics list gmap sets strings pretty numbers relations.
From stdpp Require Import options.
From Stdlib Require Export ZArith Lia.

Declare Scope py_scope.
Delimit Scope py_scope with py.
Open Scope py_scope.

(** ** Exceptions

    One constructor per exception class the modelled code raises.  The payload
    is the message, or the identifier the class formats into its message. *)
Inductive exn :=
| ValueError (msg : string)
| TypeErrorExn (msg : string)
| OSErrorExn (msg : string)
| RuntimeErrorExn (msg : string)
| NotImplementedErrorExn (msg : string)
| AssertionErrorExn (msg : string)
| CelestoError (msg : string)
| CleanupPendingError (msg : string)
| ValidationError (msg : string)
| NetworkError (msg : string)
| BridgeTapOwnershipError (msg : string)
| VMAlreadyExistsError (vm_id : string)
| VMNotFoundError (vm_id : string)
| SnapshotAlreadyExistsError (snapshot_id : string)
| SnapshotNotFoundError (snapshot_id : string)
| BrowserSessionAlreadyExistsError (session_id : string)
| BrowserSessionNotFoundError (session_id : string)
| IntegrityError (constraint : string)
| OperationalError (msg : string)
| ProxyRequestError (status : Z) (reason : string)
| ExceptionGroupExn (msg : string).

#[global] Instance exn_eq_dec : EqDecision exn.
Proof. solve_decision. Defined.

(** [outcome A] is what a call returns: a value, or the exception it raised. *)
Inductive outcome (A : Type) :=
| Ret (a : A)
| Raise (e : exn).
Arguments Ret {A} a.
Arguments Raise {A} e.

#[global] Instance outcome_eq_dec {A} `{EqDecision A} : EqDecision (outcome A).
Proof. solve_decision. Defined.

#[global] Instance outcome_ret : MRet outcome := @Ret.
#[global] Instance outcome_bind : MBind outcome := λ A B f m,
  match m with Ret a => f a | Raise e => Raise e end.
#[global] Instance outcome_fmap : FMap outcome := λ A B f m,
  match m with Ret a => Ret (f a) | Raise e => Raise e end.

Definition raised {A} (o : outcome A) : bool :=
  match o with Ret _ => false | Raise _ => true end.

(** [guard_raise c e] is the statement [if c: raise e]. *)
Definition guard_raise (c : bool) (e : exn) : outcome unit :=
  if c then Raise e else Ret tt.

(** ** Stateful code

    A method of a mutable object is a function from the state before the call
    to the state after it and the outcome; an exception does not undo the
    assignments made before it. *)
Definition py (S A : Type) : Type := S → S * outcome A.

Definition py_return {S A} (a : A) : py S A := λ s, (s, Ret a).
Definition py_bind {S A B} (m : py S A) (f : A → py S B) : py S B := λ s,
  match m s with
  | (s', Ret a) => f a s'
  | (s', Raise e) => (s', Raise e)
  end.
Notation "'let!' x := m 'in' k" := (py_bind m (λ x, k))
  (at level 10, x binder, m at level 100, k at level 200,
   format "'[v' 'let!'  x  :=  m  'in' '/' k ']'") : py_scope.
Notation "'do!' m 'in' k" := (py_bind m (λ _, k))
  (at level 10, m at level 100, k at level 200,
   format "'[v' 'do!'  m  'in' '/' k ']'") : py_scope.

Definition py_get {S} : py S S := λ s, (s, Ret s).
Definition py_modify {S} (f : S → S) : py S unit := λ s, (f s, Ret tt).
Definition py_raise {S A} (e : exn) : py S A := λ s, (s, Raise e).
Definition py_lift {S A} (o : outcome A) : py S A := λ s, (s, o).

(** [try body except Exception as e: handler(e)]. *)
Definition py_try {S A} (body : py S A) (handler : exn → py S A) : py S A := λ s,
  match body s with
  | (s', Ret a) => (s', Ret a)
  | (s', Raise e) => handler e s'
  end.

(** The state after a call, and its outcome. *)
Definition final {S A} (p : S * outcome A) : S := p.1.
Definition result {S A} (p : S * outcome A) : outcome A := p.2.

(** Truthiness of an optional string: [None] and [""] are false. *)
Definition truthy_str (o : option string) : bool :=
  match o with Some s => negb (String.eqb s "") | None => false end.

Definition is_some {A} (o : option A) : bool :=
  match o with Some _ => true | None => false end.

(** ** Tactics *)

(** Case analysis on every [match]/[if] that a hypothesis or the goal is stuck
    on, closing contradictory branches. *)
Ltac py_destruct :=
  repeat match goal with
  | H : (_, _) = (_, _) |- _ => injection H as ? ?; subst
  | H : Ret _ = Ret _ |- _ => injection H as ?; subst
  | H : Raise _ = Raise _ |- _ => injection H as ?; subst
  | H : Ret _ = Raise _ |- _ => discriminate H
  | H : Raise _ = Ret _ |- _ => discriminate H
  | H : context [match ?x with _ => _ end] |- _ => destruct x eqn:?; simplify_eq/=
  | |- context [match ?x with _ => _ end] => destruct x eqn:?; simplify_eq/=
  end.

Ltac bool_hyps :=
  repeat match goal with
  | H : (_ && _)%bool = true |- _ => apply andb_true_iff in H as [? ?]
  | H : (_ || _)%bool = false |- _ => apply orb_false_iff in H as [? ?]
  | H : negb _ = true |- _ => apply negb_true_iff in H
  | H : negb _ = false |- _ => apply negb_false_iff in H
  | H : bool_decide _ = true |- _ => apply bool_decide_eq_true in H
  | H : bool_decide _ = false |- _ => apply bool_decide_eq_false in H
  | H : (_ <? _)%Z = true |- _ => apply Z.ltb_lt in H
  | H : (_ <? _)%Z = false |- _ => apply Z.ltb_ge in H
  | H : (_ <=? _)%Z = true |- _ => apply Z.leb_le in H
  | H : (_ <=? _)%Z = false |- _ => apply Z.leb_gt in H
  | H : (_ =? _)%Z = true |- _ => apply Z.eqb_eq in H
  | H : (_ =? _)%Z = false |- _ => apply Z.eqb_neq in H
  | H : String.eqb _ _ = true |- _ => apply String.eqb_eq in H
  | H : String.eqb _ _ = false |- _ => apply String.eqb_neq in H
  end.

(** ** Hint databases *)
Create HintDb celesto discriminated.
