(* ===== verification/PyDict.v ===== *)
(** * Python dictionaries

    A [dict] iterates in insertion order: assigning to an existing key keeps
    its position, a new key goes to the end, and a key that is deleted and set
    again goes to the end.  [dict K V] is the list of items in that order;
    [keys_ok] (no key twice) is the invariant every operation preserves, and
    [dmap] is the finite map a dictionary denotes. *)
From S2P Require Import Prelude.
From stdpp Require Import options.

Abbreviation dict K V := (list (K * V)) (only parsing).

Section dict.
Context {K : Type} `{Countable K} {V : Type}.
Implicit Types (d : list (K * V)) (k : K) (v : V).

(** [d.get(k)] *)
Fixpoint dget (k : K) (d : list (K * V)) : option V :=
  match d with
  | [] => None
  | (k', v) :: d' => if decide (k' = k) then Some v else dget k d'
  end.

(** [d[k] = v] *)
Fixpoint dset (k : K) (v : V) (d : list (K * V)) : list (K * V) :=
  match d with
  | [] => [(k, v)]
  | (k', v') :: d' => if decide (k' = k) then (k', v) :: d' else (k', v') :: dset k v d'
  end.

(** [d.pop(k, None)], the dictionary part *)
Fixpoint ddel (k : K) (d : list (K * V)) : list (K * V) :=
  match d with
  | [] => []
  | (k', v') :: d' => if decide (k' = k) then d' else (k', v') :: ddel k d'
  end.

(** [k in d] *)
Definition dmem (k : K) (d : list (K * V)) : bool := is_some (dget k d).

(** [list(d.values())] and [list(d)] *)
Definition dvalues (d : list (K * V)) : list V := d.*2.
Definition dkeys (d : list (K * V)) : list K := d.*1.

Definition keys_ok (d : list (K * V)) : Prop := NoDup d.*1.
Definition dmap (d : list (K * V)) : gmap K V := list_to_map d.

Lemma dget_lookup d k : dmap d !! k = dget k d.
Proof.
  unfold dmap. induction d as [|[k' v] d IH]; simpl; [apply lookup_empty|].
  rewrite lookup_insert. by case_decide.
Qed.

Lemma dget_dset_eq k v d : dget k (dset k v d) = Some v.
Proof.
  induction d as [|[k' v'] d IH]; simpl; [by case_decide|].
  destruct (decide (k' = k)) as [->|Hne]; simpl; [by case_decide|].
  by case_decide.
Qed.

Lemma dget_dset_ne k k' v d : k ≠ k' → dget k' (dset k v d) = dget k' d.
Proof.
  intros Hne. induction d as [|[k0 v0] d IH]; simpl; [by case_decide|].
  repeat (case_decide; simplify_eq/=); done.
Qed.

Lemma dget_dset k k' v d :
  dget k' (dset k v d) = if decide (k = k') then Some v else dget k' d.
Proof. case_decide; subst; [apply dget_dset_eq | by apply dget_dset_ne]. Qed.

Lemma dget_ddel_ne k k' d : k ≠ k' → dget k' (ddel k d) = dget k' d.
Proof.
  intros Hne. induction d as [|[k0 v0] d IH]; simpl; [done|].
  repeat (case_decide; simplify_eq/=); done.
Qed.

Lemma dget_notin k d : k ∉ d.*1 → dget k d = None.
Proof.
  induction d as [|[k0 v0] d IH]; simpl; [done|].
  rewrite not_elem_of_cons. intros [??]. case_decide; [congruence|auto].
Qed.

Lemma dget_ddel_eq k d : keys_ok d → dget k (ddel k d) = None.
Proof.
  unfold keys_ok. induction d as [|[k0 v0] d IH]; simpl; [done|].
  rewrite NoDup_cons. intros [Hk0 Hd].
  case_decide; subst; [by apply dget_notin|]. simpl. case_decide; [done|auto].
Qed.

Lemma dget_ddel k k' d :
  keys_ok d → dget k' (ddel k d) = if decide (k = k') then None else dget k' d.
Proof. intros. case_decide; subst; [by apply dget_ddel_eq | by apply dget_ddel_ne]. Qed.

Lemma dget_Some_elem k v d : dget k d = Some v → (k, v) ∈ d.
Proof.
  induction d as [|[k0 v0] d IH]; simpl; [done|].
  case_decide; intros ?; simplify_eq; [by left|right; auto].
Qed.

Lemma elem_dget k v d : keys_ok d → (k, v) ∈ d → dget k d = Some v.
Proof.
  unfold keys_ok. induction d as [|[k0 v0] d IH]; simpl; [by rewrite elem_of_nil|].
  rewrite NoDup_cons, elem_of_cons. intros [Hk0 Hd] [?|Hin]; simplify_eq.
  - by case_decide.
  - case_decide; subst; [|auto].
    contradict Hk0. apply list_elem_of_fmap. by exists (k, v).
Qed.

Lemma dvalues_elem v d : keys_ok d → v ∈ dvalues d ↔ ∃ k, dget k d = Some v.
Proof.
  intros Hok. unfold dvalues. rewrite list_elem_of_fmap. split.
  - intros ([k v'] & -> & Hin). exists k. by apply elem_dget.
  - intros [k Hk]. exists (k, v). split; [done|]. by apply dget_Some_elem.
Qed.

Lemma dkeys_elem k d : k ∈ dkeys d ↔ is_Some (dget k d).
Proof.
  unfold dkeys. split.
  - induction d as [|[k0 v0] d IH]; simpl; [by rewrite elem_of_nil|].
    rewrite elem_of_cons. intros [->|?]; case_decide; eauto; done.
  - intros [v Hv]. apply list_elem_of_fmap. exists (k, v).
    split; [done|]. by apply dget_Some_elem.
Qed.

Lemma dset_keys k v d :
  (dset k v d).*1 = if decide (k ∈ d.*1) then d.*1 else d.*1 ++ [k].
Proof.
  induction d as [|[k0 v0] d IH]; csimpl; [done|].
  destruct (decide (k0 = k)) as [->|Hne]; csimpl.
  - rewrite decide_True; [done|by left].
  - rewrite IH. destruct (decide (k ∈ d.*1)) as [Hin|Hnin].
    + rewrite decide_True; [done|by right].
    + rewrite decide_False; [done|]. rewrite not_elem_of_cons. naive_solver.
Qed.

Lemma ddel_sub k k' d : k' ∈ (ddel k d).*1 → k' ∈ d.*1.
Proof.
  induction d as [|[k0 v0] d IH]; csimpl; [done|]. case_decide; csimpl.
  - by right.
  - rewrite !elem_of_cons. naive_solver.
Qed.

Lemma keys_ok_nil : keys_ok [].
Proof. constructor. Qed.

Lemma keys_ok_dset k v d : keys_ok d → keys_ok (dset k v d).
Proof.
  unfold keys_ok. rewrite dset_keys. case_decide; [done|]. intros Hd.
  rewrite NoDup_app. split_and!; [done| |apply NoDup_singleton].
  intros x Hx Hx'. apply list_elem_of_singleton in Hx'. congruence.
Qed.

Lemma keys_ok_ddel k d : keys_ok d → keys_ok (ddel k d).
Proof.
  unfold keys_ok. induction d as [|[k0 v0] d IH]; simpl; [done|].
  rewrite NoDup_cons. intros [Hk0 Hd]. case_decide; [done|]. simpl.
  rewrite NoDup_cons. split; [|auto]. intros ?. apply Hk0. by eapply ddel_sub.
Qed.

Lemma dmap_dset k v d : dmap (dset k v d) = <[k := v]> (dmap d).
Proof. apply map_eq. intros i. by rewrite lookup_insert, !dget_lookup, dget_dset. Qed.

Lemma dmap_ddel k d : keys_ok d → dmap (ddel k d) = delete k (dmap d).
Proof. intros. apply map_eq. intros i. by rewrite lookup_delete, !dget_lookup, dget_ddel. Qed.

Lemma dset_existing_order k v d : is_Some (dget k d) → dkeys (dset k v d) = dkeys d.
Proof.
  intros Hk%dkeys_elem. unfold dkeys in *. rewrite dset_keys. by rewrite decide_True.
Qed.

Lemma dset_fresh k v d : dget k d = None → dset k v d = d ++ [(k, v)].
Proof.
  induction d as [|[k0 v0] d IH]; simpl; [done|]. case_decide; [done|].
  intros. by rewrite IH.
Qed.

Lemma ddel_absent k d : dget k d = None → ddel k d = d.
Proof.
  induction d as [|[k0 v0] d IH]; simpl; [done|]. case_decide; [done|].
  intros. by rewrite IH.
Qed.

(** A dictionary is determined by its keys in order and its lookups. *)
Lemma dict_ext d1 d2 :
  keys_ok d1 → dkeys d1 = dkeys d2 → (∀ k, dget k d1 = dget k d2) → d1 = d2.
Proof.
  unfold keys_ok, dkeys. revert d2. induction d1 as [|[k1 v1] d1 IH]; intros [|[k2 v2] d2];
    csimpl; try done.
  rewrite NoDup_cons. intros [Hk Hd] Heq Hget. injection Heq as -> Heq.
  pose proof (Hget k2) as Hv. simpl in Hv. rewrite !decide_True in Hv by done.
  injection Hv as ->. f_equal. apply IH; [done|done|]. intros k.
  destruct (decide (k2 = k)) as [->|Hne].
  - rewrite !dget_notin; [done| |done]. by rewrite <-Heq.
  - specialize (Hget k). simpl in Hget. by rewrite !decide_False in Hget.
Qed.

Lemma dget_fmap (f : V → V) k d : dget k (prod_map id f <$> d) = f <$> dget k d.
Proof. induction d as [|[k0 v0] d IH]; csimpl; [done|]. by case_decide. Qed.

Lemma dkeys_fmap (f : V → V) d : dkeys (prod_map id f <$> d) = dkeys d.
Proof. unfold dkeys. rewrite <-list_fmap_compose. by apply list_fmap_ext. Qed.

(** No two keys of the dictionary have the same [f]-value. *)
Definition injective_on {B} (f : V → B) (d : list (K * V)) : Prop :=
  ∀ k1 k2 v1 v2, dget k1 d = Some v1 → dget k2 d = Some v2 → f v1 = f v2 → k1 = k2.

Lemma injective_on_nil {B} (f : V → B) : injective_on f [].
Proof. intros ????. done. Qed.

Lemma injective_on_ddel {B} (f : V → B) k d :
  keys_ok d → injective_on f d → injective_on f (ddel k d).
Proof.
  intros Hok Hinj k1 k2 v1 v2. rewrite !dget_ddel by done.
  repeat case_decide; naive_solver.
Qed.

Lemma injective_on_dset {B} (f : V → B) k v d :
  injective_on f d → (∀ k' v', k' ≠ k → dget k' d = Some v' → f v' ≠ f v) →
  injective_on f (dset k v d).
Proof.
  intros Hinj Hfresh k1 k2 v1 v2. rewrite !dget_dset.
  repeat case_decide; intros; simplify_eq; eauto.
  - exfalso. eapply Hfresh; eauto.
  - exfalso. eapply (Hfresh k1); eauto.
Qed.

(** Replacing a value by one with the same [f]-image keeps injectivity. *)
Lemma injective_on_dset_same {B} (f : V → B) k v v0 d :
  injective_on f d → dget k d = Some v0 → f v0 = f v → injective_on f (dset k v d).
Proof.
  intros Hinj Hk Hf. apply injective_on_dset; [done|].
  intros k' v' Hne Hk' Heq. apply Hne. eapply Hinj; eauto. congruence.
Qed.
End dict.

#[export] Hint Resolve keys_ok_nil keys_ok_dset keys_ok_ddel : celesto.
#[export] Hint Resolve injective_on_nil injective_on_ddel : celesto.
