(* ===== verification/PyStr.v ===== *)
(** * Python text

    The [str] and [bytes] operations the modelled code uses.  A [str] is a
    [string] of ASCII characters; every text the modelled code inspects
    character by character (addresses, host names, headers, identifiers) is
    either ASCII or rejected for not being so. *)
From S2P Require Import Prelude.
From stdpp Require Import options.
From Stdlib Require Import Ascii.

Abbreviation char := ascii.

Definition code (c : ascii) : Z := Z.of_N (N_of_ascii c).

Definition is_digit (c : ascii) : bool := (48 <=? code c)%Z && (code c <=? 57)%Z.
Definition is_upper (c : ascii) : bool := (65 <=? code c)%Z && (code c <=? 90)%Z.
Definition is_lower (c : ascii) : bool := (97 <=? code c)%Z && (code c <=? 122)%Z.
Definition is_alpha (c : ascii) : bool := is_upper c || is_lower c.

(** [str.isspace] on ASCII: tab to carriage return, the four separators
    0x1c-0x1f, and the space. *)
Definition is_space (c : ascii) : bool :=
  ((9 <=? code c)%Z && (code c <=? 13)%Z) || ((28 <=? code c)%Z && (code c <=? 32)%Z).

Definition to_lower (c : ascii) : ascii :=
  if is_upper c then ascii_of_N (N_of_ascii c + 32) else c.
Definition to_upper (c : ascii) : ascii :=
  if is_lower c then ascii_of_N (N_of_ascii c - 32) else c.

Fixpoint str_map (f : ascii → ascii) (s : string) : string :=
  match s with "" => "" | String c s' => String (f c) (str_map f s') end.
Fixpoint str_all (p : ascii → bool) (s : string) : bool :=
  match s with "" => true | String c s' => p c && str_all p s' end.
Definition str_any (p : ascii → bool) (s : string) : bool := negb (str_all (λ c, negb (p c)) s).

Definition lower : string → string := str_map to_lower.
Definition upper : string → string := str_map to_upper.

Fixpoint lstrip_while (p : ascii → bool) (s : string) : string :=
  match s with
  | "" => ""
  | String c s' => if p c then lstrip_while p s' else s
  end.
Fixpoint rstrip_while (p : ascii → bool) (s : string) : string :=
  match s with
  | "" => ""
  | String c s' =>
      match rstrip_while p s' with
      | "" => if p c then "" else String c ""
      | r => String c r
      end
  end.

(** [s.strip()] and [s.rstrip(".")] *)
Definition strip (s : string) : string := rstrip_while is_space (lstrip_while is_space s).
Definition rstrip_char (c : ascii) : string → string := rstrip_while (Ascii.eqb c).

Definition contains_char (c : ascii) (s : string) : bool := str_any (Ascii.eqb c) s.
Definition startswith (prefix s : string) : bool := String.prefix prefix s.
Fixpoint last_char (s : string) : option ascii :=
  match s with
  | "" => None
  | String c "" => Some c
  | String _ s' => last_char s'
  end.
(** [s.endswith(c)] for a one-character suffix. *)
Definition endswith_char (c : ascii) (s : string) : bool :=
  match last_char s with Some c' => Ascii.eqb c c' | None => false end.

(** [s.split(sep)] for a one-character separator: never the empty list. *)
Fixpoint str_split (sep : ascii) (s : string) : list string :=
  match s with
  | "" => [""]
  | String c s' =>
      if Ascii.eqb c sep then "" :: str_split sep s'
      else match str_split sep s' with
           | [] => [String c ""]
           | w :: ws => String c w :: ws
           end
  end.

(** [sep.join(ws)] *)
Fixpoint str_join (sep : string) (ws : list string) : string :=
  match ws with
  | [] => ""
  | [w] => w
  | w :: ws' => w +:+ sep +:+ str_join sep ws'
  end.

(** [substring in s] *)
Fixpoint contains (sub s : string) : bool :=
  String.prefix sub s || match s with "" => false | String _ s' => contains sub s' end.

(** The order of [sorted] on texts: code points, left to right. *)
Definition str_le (x y : string) : Prop := String.leb x y = true.
#[global] Instance str_le_dec : RelDecision str_le.
Proof. intros x y. unfold str_le. apply _. Defined.

(** [s.rsplit(sep, 1)[0]] *)
Fixpoint rsplit_head (sep : ascii) (s : string) : string :=
  match s with
  | "" => ""
  | String c s' => if Ascii.eqb c sep && negb (contains_char sep s') then "" else String c (rsplit_head sep s')
  end.

(** Decimal digits.  [parse_dec] is [int(s)] for a non-empty string of ASCII
    digits; [dec n] is [str(n)]. *)
Definition digit_value (c : ascii) : Z := (code c - 48)%Z.
Fixpoint parse_digits (acc : Z) (s : string) : option Z :=
  match s with
  | "" => Some acc
  | String c s' =>
      if is_digit c then parse_digits (acc * 10 + digit_value c)%Z s' else None
  end.
Definition parse_dec (s : string) : option Z :=
  match s with "" => None | _ => parse_digits 0 s end.

Definition dec (n : Z) : string := pretty n.

(** [repr] of a string: single quotes unless the text has a single quote and
    no double quote; backslash, control and non-ASCII characters escaped. *)
Definition squote : ascii := "'"%char.
Definition dquote : ascii := Ascii.ascii_of_nat 34.
Definition backslash : ascii := Ascii.ascii_of_nat 92.
Definition hex_digit (n : Z) : ascii :=
  ascii_of_N (Z.to_N (if (n <? 10)%Z then n + 48 else n + 87)%Z).
Definition repr_char (q c : ascii) : string :=
  if Ascii.eqb c q || Ascii.eqb c backslash then String backslash (String c "")
  else if (code c =? 9)%Z then String backslash "t"
  else if (code c =? 10)%Z then String backslash "n"
  else if (code c =? 13)%Z then String backslash "r"
  else if (code c <? 32)%Z || (126 <? code c)%Z then
    String backslash (String "x"%char
      (String (hex_digit (code c / 16)) (String (hex_digit (code c mod 16)) "")))
  else String c "".
Fixpoint repr_body (q : ascii) (s : string) : string :=
  match s with "" => "" | String c s' => repr_char q c +:+ repr_body q s' end.
Definition repr (s : string) : string :=
  let q := if contains_char squote s && negb (contains_char dquote s) then dquote else squote in
  String q (repr_body q s +:+ String q "").

(** ** Lemmas *)

Lemma string_app_assoc (a b c : string) : (a +:+ b) +:+ c = a +:+ (b +:+ c).
Proof.
  induction a as [|x a IH]; [done|].
  change (String x ((a +:+ b) +:+ c) = String x (a +:+ (b +:+ c))). by rewrite IH.
Qed.

Lemma startswith_app p s : startswith p (p +:+ s) = true.
Proof.
  unfold startswith. induction p as [|c p IH]; [by destruct s|].
  change (String c p +:+ s) with (String c (p +:+ s)). cbn [String.prefix]. by destruct (ascii_dec c c).
Qed.

Lemma startswith_inv p s : startswith p s = true → ∃ t, s = p +:+ t.
Proof.
  unfold startswith. revert s. induction p as [|c p IH]; intros s H; [by exists s|].
  destruct s as [|c' s]; [done|]. cbn [String.prefix] in H. destruct (ascii_dec c c') as [->|]; [|done].
  destruct (IH s H) as [t ->]. by exists t.
Qed.
Lemma substring_after p t n : String.length t ≤ n → String.substring (String.length p) n (p +:+ t) = t.
Proof.
  revert n. induction p as [|c p IH]; intros n Hn; [|by apply IH].
  change ("" +:+ t) with t. revert n Hn. induction t as [|c t IHt]; intros [|n] Hn; simpl in *; try done; [lia|].
  f_equal. apply (IHt n). lia.
Qed.

Lemma string_length_app (s t : string) :
  String.length (s +:+ t) = String.length s + String.length t.
Proof.
  induction s as [|c s IH]; [done|].
  change (String c s +:+ t) with (String c (s +:+ t)). simpl. by rewrite IH.
Qed.

Lemma str_app_inv_r (a b c : string) : a +:+ c = b +:+ c → a = b.
Proof.
  revert b. induction a as [|x a IH]; intros [|y b] E; [done|..].
  - apply (f_equal String.length) in E. rewrite !string_length_app in E. simpl in E. lia.
  - apply (f_equal String.length) in E. rewrite !string_length_app in E. simpl in E. lia.
  - injection E as -> E. f_equal. by apply IH.
Qed.
Lemma str_app_inv_l (c a b : string) : c +:+ a = c +:+ b → a = b.
Proof. induction c as [|x c IH]; [done|]. intros [= E]. by apply IH. Qed.
Lemma last_char_app a b : b ≠ "" → last_char (a +:+ b) = last_char b.
Proof.
  intros Hb. induction a as [|x a IH]; [done|]. change (String x a +:+ b) with (String x (a +:+ b)). simpl. rewrite IH.
  destruct a; [by destruct b|done].
Qed.
Lemma str_split_nonempty sep s : str_split sep s ≠ [].
Proof. destruct s as [|c s]; simpl; [done|]. by destruct (Ascii.eqb c sep), (str_split sep s). Qed.

Lemma str_split_app sep w s :
  contains_char sep w = false →
  str_split sep (w +:+ String sep s) = w :: str_split sep s.
Proof.
  unfold contains_char, str_any. rewrite negb_false_iff.
  induction w as [|c w IH]; simpl.
  - intros _. change ("" +:+ String sep s) with (String sep s). simpl.
    by rewrite Ascii.eqb_refl.
  - rewrite andb_true_iff, negb_true_iff, Ascii.eqb_neq. intros [Hne Hw].
    change (String c w +:+ String sep s) with (String c (w +:+ String sep s)). simpl.
    destruct (Ascii.eqb_spec c sep); [congruence|]. by rewrite IH.
Qed.

Lemma str_split_single sep w : contains_char sep w = false → str_split sep w = [w].
Proof.
  unfold contains_char, str_any. rewrite negb_false_iff.
  induction w as [|c w IH]; simpl; [done|].
  rewrite andb_true_iff, negb_true_iff, Ascii.eqb_neq. intros [Hne Hw].
  destruct (Ascii.eqb_spec c sep); [congruence|]. by rewrite IH.
Qed.

Lemma str_join_split sep s : str_join (String sep "") (str_split sep s) = s.
Proof.
  induction s as [|c s IH]; [done|]. simpl. pose proof (str_split_nonempty sep s).
  destruct (Ascii.eqb_spec c sep) as [->|Hne].
  - destruct (str_split sep s) as [|w ws] eqn:E; [done|]. by rewrite <-IH.
  - destruct (str_split sep s) as [|w ws]; [done|]. rewrite <-IH. by destruct ws.
Qed.

Lemma parse_digits_bound s acc v :
  (0 ≤ acc)%Z → parse_digits acc s = Some v → (acc ≤ v)%Z.
Proof.
  revert acc. induction s as [|c s IH]; simpl; intros acc Hacc; [naive_solver lia|].
  destruct (is_digit c) eqn:Hd; [|done]. intros Hp.
  unfold is_digit in Hd. bool_hyps. apply IH in Hp; unfold digit_value in *; lia.
Qed.

Lemma parse_dec_nonneg s v : parse_dec s = Some v → (0 ≤ v)%Z.
Proof. destruct s; [done|]. apply parse_digits_bound. lia. Qed.

Definition digit_chars : list ascii := ["0";"1";"2";"3";"4";"5";"6";"7";"8";"9"]%char.

Lemma is_digit_elem c : is_digit c = true → c ∈ digit_chars.
Proof.
  intros Hd. apply (bool_decide_eq_true (c ∈ digit_chars)). revert Hd.
  destruct c as [[] [] [] [] [] [] [] []]; vm_compute; congruence.
Qed.

Lemma str_all_app p a b : str_all p (a +:+ b) = str_all p a && str_all p b.
Proof.
  induction a as [|c a IH]; [done|]. change (String c a +:+ b) with (String c (a +:+ b)).
  cbn [str_all]. by rewrite IH, andb_assoc.
Qed.

(** A text without white space is its own [strip]. *)
Lemma rstrip_while_none p s : str_all (λ c, negb (p c)) s = true → rstrip_while p s = s.
Proof.
  induction s as [|c s IH]; [done|]. cbn [str_all rstrip_while]. rewrite andb_true_iff, negb_true_iff.
  intros [Hc Hs]. rewrite IH, Hc by done. by destruct s.
Qed.
Lemma lstrip_while_none p s : str_all (λ c, negb (p c)) s = true → lstrip_while p s = s.
Proof.
  destruct s as [|c s]; [done|]. cbn [str_all lstrip_while]. rewrite andb_true_iff, negb_true_iff.
  by intros [-> _].
Qed.
Lemma strip_none s : str_all (λ c, negb (is_space c)) s = true → strip s = s.
Proof. intros H. unfold strip. by rewrite lstrip_while_none, rstrip_while_none by (try rewrite lstrip_while_none; done). Qed.

Lemma rstrip_while_twice p s : rstrip_while p (rstrip_while p s) = rstrip_while p s.
Proof.
  induction s as [|c s IH]; [done|]. cbn [rstrip_while]. destruct (rstrip_while p s) as [|d r] eqn:E.
  - destruct (p c) eqn:Hc; [done|]. cbn [rstrip_while]. by rewrite Hc.
  - cbn [rstrip_while] in *. by rewrite IH.
Qed.
Lemma strip_twice s : strip (strip s) = strip s.
Proof.
  unfold strip. assert (∀ t, lstrip_while is_space t = t →
    lstrip_while is_space (rstrip_while is_space t) = rstrip_while is_space t) as H.
  { intros [|c t]; [done|]. cbn [lstrip_while rstrip_while]. destruct (is_space c) eqn:Hc.
    - intros Ht. exfalso. assert (∀ u, String.length (lstrip_while is_space u) ≤ String.length u) as Hl.
      { induction u as [|d u IH]; [done|]. cbn [lstrip_while]. destruct (is_space d); simpl; lia. }
      specialize (Hl t). rewrite Ht in Hl. simpl in Hl. lia.
    - intros _. destruct (rstrip_while is_space t); cbn [lstrip_while]; by rewrite Hc. }
  rewrite H, rstrip_while_twice; [done|].
  induction s as [|c s IH]; [done|]. cbn [lstrip_while]. destruct (is_space c) eqn:Hc; [done|].
  cbn [lstrip_while]. by rewrite Hc.
Qed.

(** ** Decimal texts of natural numbers *)
Lemma pretty_digit d : (d < 10)%N → is_digit (pretty_N_char d) = true ∧ digit_value (pretty_N_char d) = Z.of_N d.
Proof.
  intros Hd. assert (d ∈ [0; 1; 2; 3; 4; 5; 6; 7; 8; 9]%N) as H by (rewrite !elem_of_cons; lia).
  revert H. rewrite !elem_of_cons. by intros [-> | [-> | [-> | [-> | [-> | [-> | [-> | [-> | [-> | [-> | ?%not_elem_of_nil]]]]]]]]]].
Qed.
Lemma pretty_go_digits x s :
  str_all is_digit (pretty_N_go x s) = str_all is_digit s
  ∧ parse_digits 0 (pretty_N_go x s) = parse_digits (Z.of_N x) s.
Proof.
  revert s. induction (N.lt_wf_0 x) as [x _ IH]. intros s. destruct (decide (x = 0)%N) as [->|Hx].
  { by rewrite pretty_N_go_0. }
  rewrite pretty_N_go_step by lia. destruct (IH (x `div` 10)%N) with (s := String (pretty_N_char (x `mod` 10)) s) as [-> ->];
    [apply N.div_lt; lia|].
  destruct (pretty_digit (x `mod` 10)) as [Hd Hv]; [apply N.mod_lt; lia|]. cbn [str_all parse_digits]. rewrite Hd, Hv.
  split; [done|]. f_equal. rewrite N2Z.inj_div, N2Z.inj_mod. pose proof (Z.div_mod (Z.of_N x) 10). lia.
Qed.
Lemma dec_nat n : (0 ≤ n)%Z → str_all is_digit (dec n) = true ∧ parse_dec (dec n) = Some n ∧ dec n ≠ "".
Proof.
  intros Hn. destruct n as [|x|]; [done| |lia].
  change (dec (Z.pos x)) with (pretty_N_go (N.pos x) ""). destruct (pretty_go_digits (N.pos x) "") as [H1 H2].
  assert (pretty_N_go (N.pos x) "" ≠ "") as Hne.
  { intros He. rewrite He in H2. discriminate H2. }
  split; [by rewrite H1|]. split; [|done]. unfold parse_dec. by destruct (pretty_N_go (N.pos x) "").
Qed.
