(* ===== verification/PyDatetime.v ===== *)
(** * datetime.isoformat and datetime.fromisoformat

    The database stores times as ISO 8601 text.  [datetime] carries the fields
    of Python's class, [isoformat] is its method, and [fromisoformat] reads the
    texts [isoformat] produces (the only ones the program ever stores), with
    the range checks of the [datetime] constructor. *)
From S2P Require Import Prelude PyStr.
From stdpp Require Import options.
From Stdlib Require Import Ascii.

(** [dt_offset] is the UTC offset in minutes, absent for a naive time. *)
Record datetime := {
  dt_year : Z; dt_month : Z; dt_day : Z;
  dt_hour : Z; dt_minute : Z; dt_second : Z; dt_microsecond : Z;
  dt_offset : option Z }.

#[global] Instance datetime_eq_dec : EqDecision datetime.
Proof. solve_decision. Defined.

Definition is_leap (y : Z) : bool :=
  (y mod 4 =? 0)%Z && (negb (y mod 100 =? 0)%Z || (y mod 400 =? 0)%Z).
Definition days_in_month (y m : Z) : Z :=
  if (m =? 2)%Z then if is_leap y then 29 else 28
  else if bool_decide (m ∈ [4; 6; 9; 11]%Z) then 30 else 31.

(** The checks of the constructor. *)
Definition datetime_ok (d : datetime) : bool :=
  (1 <=? dt_year d)%Z && (dt_year d <=? 9999)%Z
  && (1 <=? dt_month d)%Z && (dt_month d <=? 12)%Z
  && (1 <=? dt_day d)%Z && (dt_day d <=? days_in_month (dt_year d) (dt_month d))%Z
  && (0 <=? dt_hour d)%Z && (dt_hour d <=? 23)%Z
  && (0 <=? dt_minute d)%Z && (dt_minute d <=? 59)%Z
  && (0 <=? dt_second d)%Z && (dt_second d <=? 59)%Z
  && (0 <=? dt_microsecond d)%Z && (dt_microsecond d <=? 999999)%Z
  && match dt_offset d with None => true | Some o => (Z.abs o <? 1440)%Z end.

Definition digit_char (n : Z) : ascii := ascii_of_N (Z.to_N (n + 48)).
Definition pad2 (n : Z) : string :=
  String (digit_char (n / 10)) (String (digit_char (n mod 10)) "").

Definition offset_text (o : option Z) : string :=
  match o with
  | None => ""
  | Some o => (if (o <? 0)%Z then "-" else "+")
              +:+ pad2 (Z.abs o / 60) +:+ ":" +:+ pad2 (Z.abs o mod 60)
  end.
Definition fraction_text (us : Z) : string :=
  if (us =? 0)%Z then ""
  else "." +:+ pad2 (us / 10000) +:+ pad2 (us / 100 mod 100) +:+ pad2 (us mod 100).

Definition isoformat (d : datetime) : string :=
  pad2 (dt_year d / 100) +:+ pad2 (dt_year d mod 100) +:+ "-" +:+ pad2 (dt_month d)
  +:+ "-" +:+ pad2 (dt_day d) +:+ "T" +:+ pad2 (dt_hour d) +:+ ":" +:+ pad2 (dt_minute d)
  +:+ ":" +:+ pad2 (dt_second d) +:+ fraction_text (dt_microsecond d)
  +:+ offset_text (dt_offset d).

(** Readers: two digits, one expected character. *)
Definition read2 (s : string) : option (Z * string) :=
  match s with
  | String a (String b s') =>
      if is_digit a && is_digit b
      then Some ((digit_value a * 10 + digit_value b)%Z, s') else None
  | _ => None
  end.
Definition read_char (c : ascii) (s : string) : option string :=
  match s with
  | String a s' => if Ascii.eqb a c then Some s' else None
  | "" => None
  end.

Definition read_fraction (s : string) : option (Z * string) :=
  match read_char "."%char s with
  | None => Some (0%Z, s)
  | Some s =>
      '(a, s) ← read2 s; '(b, s) ← read2 s; '(c, s) ← read2 s;
      Some ((a * 10000 + b * 100 + c)%Z, s)
  end.
Definition read_offset (s : string) : option (option Z) :=
  match s with
  | "" => Some None
  | String sign s =>
      if Ascii.eqb sign "+"%char || Ascii.eqb sign "-"%char then
        '(h, s) ← read2 s; s ← read_char ":"%char s; '(m, s) ← read2 s;
        if String.eqb s "" && (m <? 60)%Z
        then Some (Some ((if Ascii.eqb sign "-"%char then -1 else 1) * (h * 60 + m))%Z)
        else None
      else None
  end.

Definition read_datetime (s : string) : option datetime :=
  '(y1, s) ← read2 s; '(y2, s) ← read2 s; s ← read_char "-"%char s;
  '(mo, s) ← read2 s; s ← read_char "-"%char s; '(d, s) ← read2 s;
  s ← read_char "T"%char s; '(h, s) ← read2 s; s ← read_char ":"%char s;
  '(mi, s) ← read2 s; s ← read_char ":"%char s; '(sec, s) ← read2 s;
  '(us, s) ← read_fraction s; o ← read_offset s;
  Some {| dt_year := y1 * 100 + y2; dt_month := mo; dt_day := d; dt_hour := h;
          dt_minute := mi; dt_second := sec; dt_microsecond := us; dt_offset := o |}.

Definition fromisoformat (s : string) : outcome datetime :=
  match read_datetime s with
  | Some d => if datetime_ok d then Ret d else Raise (ValueError "Invalid isoformat string")
  | None => Raise (ValueError "Invalid isoformat string")
  end.

(** ** Round trip *)

Lemma pad2_table :
  forallb (λ n, bool_decide (read2 (pad2 n) = Some (n, "")) && negb (String.eqb (pad2 n) ""))
    (seqZ 0 100) = true.
Proof. vm_compute. reflexivity. Qed.

Lemma read2_pad2 n s : (0 ≤ n < 100)%Z → read2 (pad2 n +:+ s) = Some (n, s).
Proof.
  intros Hn. pose proof pad2_table as Ht. rewrite forallb_forall in Ht.
  assert (In n (seqZ 0 100)) as Hin by (apply list_elem_of_In, elem_of_seqZ; lia).
  specialize (Ht n Hin). bool_hyps. unfold pad2 in *.
  generalize dependent (digit_char (n / 10)). generalize dependent (digit_char (n mod 10)).
  intros b a Hr _. change (String a (String b "") +:+ s) with (String a (String b s)).
  unfold read2 in *. destruct (is_digit a && is_digit b); simplify_eq. done.
Qed.

Lemma read_char_same c s : read_char c (String c "" +:+ s) = Some s.
Proof.
  change (String c "" +:+ s) with (String c s). simpl. by rewrite Ascii.eqb_refl.
Qed.

Lemma read_fraction_text us o :
  (0 ≤ us ≤ 999999)%Z →
  read_fraction (fraction_text us +:+ offset_text o) = Some (us, offset_text o).
Proof.
  intros Hus. unfold fraction_text, read_fraction.
  destruct (Z.eqb_spec us 0) as [->|Hne].
  - change ("" +:+ offset_text o) with (offset_text o).
    destruct o as [o|]; [|done]. unfold offset_text. by destruct (o <? 0)%Z.
  - rewrite !string_app_assoc, read_char_same, read2_pad2; cbn [mbind option_bind].
    2:{ split; [apply Z.div_pos|apply Z.div_lt_upper_bound]; lia. }
    rewrite read2_pad2; cbn [mbind option_bind]. 2:{ apply Z.mod_pos_bound. lia. }
    rewrite read2_pad2; cbn [mbind option_bind]. 2:{ apply Z.mod_pos_bound. lia. }
    do 2 f_equal. pose proof (Z.div_mod us 100). pose proof (Z.div_mod (us / 100) 100).
    rewrite Z.div_div in * by lia. change (100 * 100)%Z with 10000%Z in *. lia.
Qed.

Lemma read_offset_text o :
  match o with None => True | Some o => (Z.abs o < 1440)%Z end →
  read_offset (offset_text o) = Some o.
Proof.
  destruct o as [o|]; [|done]. intros Ho. unfold offset_text.
  assert (0 ≤ Z.abs o / 60 < 100)%Z as Hh.
  { split; [apply Z.div_pos|apply Z.div_lt_upper_bound]; lia. }
  pose proof (Z.mod_pos_bound (Z.abs o) 60 ltac:(lia)) as Hm.
  assert (∀ sg : ascii, read_offset (String sg "" +:+ pad2 (Z.abs o / 60) +:+ ":"
            +:+ pad2 (Z.abs o mod 60))
          = if Ascii.eqb sg "+"%char || Ascii.eqb sg "-"%char
            then Some (Some ((if Ascii.eqb sg "-"%char then -1 else 1) * Z.abs o)%Z) else None)
    as Hread.
  { intros sg. set (t := pad2 (Z.abs o / 60) +:+ ":" +:+ pad2 (Z.abs o mod 60)).
    change (String sg "" +:+ t) with (String sg t). unfold read_offset. subst t.
    destruct (_ || _); [|done].
    rewrite read2_pad2 by done. cbn [mbind option_bind]. rewrite read_char_same.
    cbn [mbind option_bind].
    replace (pad2 (Z.abs o mod 60)) with (pad2 (Z.abs o mod 60) +:+ "") by done.
    rewrite read2_pad2 by lia. cbn [mbind option_bind].
    rewrite (proj2 (Z.ltb_lt _ 60)) by lia. simpl.
    do 3 f_equal. pose proof (Z.div_mod (Z.abs o) 60). lia. }
  destruct (Z.ltb_spec o 0); rewrite Hread; simpl; do 2 f_equal; lia.
Qed.

(** Reading back the text of a time gives the time. *)
Lemma fromisoformat_isoformat d :
  datetime_ok d = true → fromisoformat (isoformat d) = Ret d.
Proof.
  intros Hok. pose proof Hok as Hok'. unfold datetime_ok in Hok'. bool_hyps.
  assert (days_in_month (dt_year d) (dt_month d) ≤ 31)%Z as Hdays.
  { unfold days_in_month. repeat case_match; lia. }
  assert (read_datetime (isoformat d) = Some d) as Hread.
  { unfold read_datetime, isoformat.
    repeat (rewrite read2_pad2
              by (first [ apply Z.mod_pos_bound; lia
                        | split; [apply Z.div_pos|apply Z.div_lt_upper_bound]; lia | lia ]);
            cbn [mbind option_bind]; try (rewrite read_char_same; cbn [mbind option_bind])).
    rewrite read_fraction_text by lia. cbn [mbind option_bind]. rewrite read_offset_text.
    2:{ destruct (dt_offset d); bool_hyps; done. }
    cbn [mbind option_bind]. f_equal. destruct d; simpl in *. f_equal.
    pose proof (Z.div_mod dt_year0 100). lia. }
  unfold fromisoformat. by rewrite Hread, Hok.
Qed.

Lemma isoformat_nonempty d : isoformat d ≠ "".
Proof. unfold isoformat, pad2. done. Qed.
