(* ===== verification/StorageBase.v ===== *)
(** * storage/_base.py: allocation pools and guest addresses

    The constants of the IP, SSH-port and vsock-CID pools, and the two
    conversions between a pool index and a dotted-quad guest address.  The
    theorems show that the conversions are inverse bijections between the
    indices 0..65535 and the addresses [ip_to_pool_index] accepts, so a lease
    tracked by its address string is also unique by index. *)
From S2P Require Import Prelude PyStr.
From stdpp Require Import options.
From Stdlib Require Import Ascii.

Definition IP_POOL_START : Z := 2.
Definition IP_POOL_END : Z := 65534.
Definition SSH_PORT_START : Z := 2200.
Definition SSH_PORT_END : Z := 65535.
Definition VSOCK_CID_START : Z := 3.
Definition VSOCK_CID_END : Z := 1000000.

(** [range(lo, hi + 1)] *)
Fixpoint zcount (lo : Z) (n : nat) : list Z :=
  match n with 0 => [] | S n' => lo :: zcount (lo + 1) n' end.
Definition zrange (lo hi : Z) : list Z := zcount lo (Z.to_nat (hi + 1 - lo)).

Definition ip_text (index : Z) : string :=
  "172.16." +:+ dec (Z.shiftr index 8) +:+ "." +:+ dec (Z.land index 255).

Definition pool_index_to_ip (index : Z) : outcome string :=
  if (index <? 0)%Z || (65535 <? index)%Z
  then Raise (ValueError ("pool index out of range: " +:+ dec index))
  else Ret (ip_text index).

(** The regular expression [(?:0|[1-9][0-9]{0,2})\Z]. *)
Definition canonical_octet (s : string) : bool :=
  match s with
  | "" => false
  | String c s' =>
      (Ascii.eqb c "0"%char && String.eqb s' "")
      || (is_digit c && negb (Ascii.eqb c "0"%char)
          && str_all is_digit s' && (Z.of_nat (String.length s') <=? 2)%Z)
  end.

Definition octet_value (s : string) : Z := default 0%Z (parse_dec s).
Definition octet_ok (v : Z) : bool := (0 <=? v)%Z && (v <=? 255)%Z.

Definition ip_to_pool_index (ip : string) : outcome Z :=
  match str_split "."%char ip with
  | [p1; p2; p3; p4] =>
      if negb (forallb canonical_octet [p1; p2; p3; p4])
      then Raise (ValueError ("invalid IPv4 address: " +:+ repr ip))
      else
        let first := octet_value p1 in let second := octet_value p2 in
        let third := octet_value p3 in let fourth := octet_value p4 in
        if negb (forallb octet_ok [first; second; third; fourth])
        then Raise (ValueError ("invalid IPv4 address: " +:+ repr ip))
        else if negb ((first =? 172)%Z && (second =? 16)%Z)
        then Raise (ValueError (repr ip +:+ " is outside the 172.16.0.0/16 pool"))
        else Ret (Z.lor (Z.shiftl third 8) fourth)
  | _ => Raise (ValueError ("invalid IPv4 address: " +:+ repr ip))
  end.

(** ** Octets *)

Definition octets : list Z := zrange 0 255.

Lemma zrange_seqZ lo hi : zrange lo hi = seqZ lo (hi + 1 - lo).
Proof.
  unfold zrange. remember (Z.to_nat (hi + 1 - lo)) as n eqn:Hn. revert lo Hn.
  induction n as [|n IH]; intros lo Hn; simpl; [by rewrite seqZ_nil by lia|].
  rewrite (seqZ_cons lo) by lia. f_equal. rewrite IH by lia. f_equal; lia.
Qed.
Lemma zrange_elem lo hi i : i ∈ zrange lo hi ↔ (lo ≤ i ≤ hi)%Z.
Proof. rewrite zrange_seqZ, elem_of_seqZ. lia. Qed.

Lemma octet_table :
  forallb (λ v, canonical_octet (dec v) && (octet_value (dec v) =? v)%Z
                && negb (contains_char "."%char (dec v))) octets = true.
Proof. vm_compute. reflexivity. Qed.

Lemma octet_facts v :
  (0 ≤ v ≤ 255)%Z →
  canonical_octet (dec v) = true ∧ octet_value (dec v) = v
  ∧ contains_char "."%char (dec v) = false.
Proof.
  intros Hv. pose proof octet_table as Ht. rewrite forallb_forall in Ht.
  specialize (Ht v). rewrite <-list_elem_of_In in Ht. unfold octets in Ht.
  rewrite zrange_elem in Ht. specialize (Ht Hv). bool_hyps. done.
Qed.

Definition short_digit_strings : list string :=
  let one := map (λ a, String a "") digit_chars in
  let two := flat_map (λ a, map (String a) one) digit_chars in
  one ++ two ++ flat_map (λ a, map (String a) two) digit_chars.

Lemma short_digit_table :
  forallb (λ s, implb (canonical_octet s) (String.eqb (dec (octet_value s)) s))
    short_digit_strings = true.
Proof. vm_compute. reflexivity. Qed.

Lemma canonical_short s : canonical_octet s = true → s ∈ short_digit_strings.
Proof.
  assert (∀ c, is_digit c = true → In c digit_chars) as Hin.
  { intros c Hc. apply list_elem_of_In. by apply is_digit_elem. }
  rewrite list_elem_of_In. unfold short_digit_strings. rewrite !in_app_iff, !in_flat_map.
  destruct s as [|a s]; simpl canonical_octet; [done|]. intros Hcan.
  assert (is_digit a = true ∧ str_all is_digit s = true ∧ String.length s ≤ 2) as (Ha & Hs & Hl).
  { apply orb_true_iff in Hcan as [Hz|Hnz]; bool_hyps; [|naive_solver lia].
    destruct (Ascii.eqb_spec a "0"%char); [|done]. subst. naive_solver (simpl; lia). }
  destruct s as [|b s]; [left; apply in_map_iff; eauto|].
  simpl in Hs. apply andb_true_iff in Hs as [Hb Hs].
  assert (In (String b "") (map (λ c, String c "") digit_chars)) as Hone by (apply in_map_iff; eauto).
  destruct s as [|c s]; [right; left; exists a; rewrite in_map_iff; eauto|].
  simpl in Hs. apply andb_true_iff in Hs as [Hc _].
  destruct s as [|d s]; [|simpl in Hl; lia].
  right; right. exists a. split; [auto|]. apply in_map_iff. eexists. split; [done|].
  apply in_flat_map. exists b. split; [auto|]. apply in_map_iff.
  eexists. split; [done|]. apply in_map_iff. eauto.
Qed.

(** The canonical spelling of an octet is the decimal rendering of its value. *)
Lemma canonical_octet_dec s : canonical_octet s = true → dec (octet_value s) = s.
Proof.
  intros Hc. pose proof (canonical_short s Hc) as Hin. rewrite list_elem_of_In in Hin.
  pose proof short_digit_table as Ht. rewrite forallb_forall in Ht.
  specialize (Ht s Hin). rewrite Hc in Ht. by apply String.eqb_eq in Ht.
Qed.

(** ** Index arithmetic *)

Lemma index_high_bound i : (0 ≤ i ≤ 65535)%Z → (0 ≤ Z.shiftr i 8 ≤ 255)%Z.
Proof.
  intros Hi. rewrite Z.shiftr_div_pow2 by lia. change (2 ^ 8)%Z with 256%Z.
  split; [apply Z.div_pos; lia|].
  enough (i / 256 < 256)%Z by lia. apply Z.div_lt_upper_bound; lia.
Qed.

Lemma index_low_eq i : Z.land i 255 = (i mod 256)%Z.
Proof. change 255%Z with (Z.ones 8). by rewrite Z.land_ones. Qed.

Lemma index_low_bound i : (0 ≤ Z.land i 255 ≤ 255)%Z.
Proof. rewrite index_low_eq. pose proof (Z.mod_pos_bound i 256). lia. Qed.

Lemma join_octets hi lo :
  (0 ≤ hi)%Z → (0 ≤ lo ≤ 255)%Z → Z.lor (Z.shiftl hi 8) lo = (hi * 256 + lo)%Z.
Proof.
  intros Hhi Hlo.
  assert (Z.land (Z.shiftl hi 8) lo = 0%Z) as Hland.
  { apply Z.bits_inj'. intros n Hn. rewrite Z.land_spec, Z.bits_0.
    destruct (Z.ltb_spec n 8).
    - by rewrite Z.shiftl_spec_low.
    - rewrite (Z.bits_above_log2 lo); [apply andb_false_r|lia|].
      destruct (Z.eq_dec lo 0) as [->|]; [simpl; lia|].
      enough (Z.log2 lo < 8)%Z by lia. apply Z.log2_lt_pow2; lia. }
  rewrite <-Z.lxor_lor, <-Z.add_nocarry_lxor by done.
  by rewrite Z.shiftl_mul_pow2.
Qed.

Lemma join_index i : (0 ≤ i)%Z → Z.lor (Z.shiftl (Z.shiftr i 8) 8) (Z.land i 255) = i.
Proof.
  intros Hi. rewrite join_octets; [|by apply Z.shiftr_nonneg|apply index_low_bound].
  rewrite index_low_eq, Z.shiftr_div_pow2 by lia. change (2 ^ 8)%Z with 256%Z.
  rewrite (Z.div_mod i 256) at 3 by lia. lia.
Qed.

Lemma ip_text_split i :
  (0 ≤ i ≤ 65535)%Z →
  str_split "."%char (ip_text i) = ["172"; "16"; dec (Z.shiftr i 8); dec (Z.land i 255)].
Proof.
  intros Hi. destruct (octet_facts _ (index_high_bound i Hi)) as (_ & _ & Hh).
  destruct (octet_facts _ (index_low_bound i)) as (_ & _ & Hl).
  unfold ip_text.
  change ("172.16." +:+ ?s) with ("172" +:+ String "."%char ("16" +:+ String "."%char s)).
  rewrite !str_split_app by done.
  change ("." +:+ ?s) with (String "."%char s).
  by rewrite str_split_app, str_split_single by done.
Qed.

Lemma pool_index_to_ip_ok i : (0 ≤ i ≤ 65535)%Z → pool_index_to_ip i = Ret (ip_text i).
Proof.
  intros Hi. unfold pool_index_to_ip.
  destruct (Z.ltb_spec i 0), (Z.ltb_spec 65535 i); simpl; try done; lia.
Qed.

Lemma ip_to_pool_index_text i : (0 ≤ i ≤ 65535)%Z → ip_to_pool_index (ip_text i) = Ret i.
Proof.
  intros Hi. unfold ip_to_pool_index. rewrite ip_text_split by done.
  destruct (octet_facts _ (index_high_bound i Hi)) as (Hch & Hvh & _).
  destruct (octet_facts _ (index_low_bound i)) as (Hcl & Hvl & _).
  simpl forallb. rewrite Hch, Hcl, Hvh, Hvl. simpl.
  pose proof (index_high_bound i Hi). pose proof (index_low_bound i).
  assert (octet_ok (Z.shiftr i 8) = true ∧ octet_ok (Z.land i 255) = true) as [-> ->].
  { unfold octet_ok. lia. }
  simpl. f_equal. apply join_index. lia.
Qed.

(** What acceptance means: the four canonical octets 172, 16, hi, lo. *)
Lemma ip_to_pool_index_inv ip i :
  ip_to_pool_index ip = Ret i → (0 ≤ i ≤ 65535)%Z ∧ ip = ip_text i.
Proof.
  unfold ip_to_pool_index. intros Hip. pose proof (str_join_split "."%char ip) as Hjoin.
  destruct (str_split "."%char ip) as [|p1 [|p2 [|p3 [|p4 [|? ?]]]]]; try done.
  destruct (forallb canonical_octet _) eqn:Hc; simpl in Hip; [|done].
  destruct (octet_ok (octet_value p1) && _) eqn:Ho; simpl in Hip; [|done].
  destruct ((octet_value p1 =? 172)%Z && _) eqn:He; simpl in Hip; [|done].
  simpl in Hc. bool_hyps. injection Hip as <-.
  repeat match goal with
  | H : canonical_octet ?p = true |- _ => apply canonical_octet_dec in H
  end.
  unfold octet_ok in *. bool_hyps.
  set (hi := octet_value p3) in *. set (lo := octet_value p4) in *.
  rewrite join_octets by lia. split; [lia|].
  assert (Z.shiftr (hi * 256 + lo) 8 = hi) as Hhi.
  { rewrite Z.shiftr_div_pow2 by lia. change (2 ^ 8)%Z with 256%Z.
    rewrite Z.div_add_l by lia. rewrite Z.div_small by lia. lia. }
  assert (Z.land (hi * 256 + lo) 255 = lo) as Hlo.
  { rewrite index_low_eq, Z.add_comm, Z.mod_add, Z.mod_small by lia. done. }
  unfold ip_text. rewrite Hhi, Hlo.
  assert (dec 172 = "172" ∧ dec 16 = "16") as [??] by by vm_compute.
  rewrite <-Hjoin. replace p1 with "172" by congruence. replace p2 with "16" by congruence.
  replace (dec hi) with p3 by congruence. replace (dec lo) with p4 by congruence.
  reflexivity.
Qed.

(** The pool conversions are inverse bijections: every index in 0..65535
    renders to an address that reads back as that index, and every address
    string [ip_to_pool_index] accepts is the rendering of the index it
    returns, so two accepted strings with one index are the same string. *)
Theorem pool_index_bijection :
  (∀ i, (0 ≤ i ≤ 65535)%Z →
     ∃ ip, pool_index_to_ip i = Ret ip ∧ ip_to_pool_index ip = Ret i)
  ∧ (∀ ip i, ip_to_pool_index ip = Ret i → pool_index_to_ip i = Ret ip)
  ∧ (∀ ip1 ip2 i, ip_to_pool_index ip1 = Ret i → ip_to_pool_index ip2 = Ret i → ip1 = ip2).
Proof.
  split_and!.
  - intros i Hi. exists (ip_text i). auto using pool_index_to_ip_ok, ip_to_pool_index_text.
  - intros ip i [Hi ->]%ip_to_pool_index_inv. by apply pool_index_to_ip_ok.
  - intros ip1 ip2 i [_ ->]%ip_to_pool_index_inv [_ ->]%ip_to_pool_index_inv. done.
Qed.

(** The addresses of the IP pool, in allocation order. *)
Lemma ip_text_inj i j :
  (0 ≤ i ≤ 65535)%Z → (0 ≤ j ≤ 65535)%Z → ip_text i = ip_text j → i = j.
Proof.
  intros Hi Hj Heq. pose proof (ip_to_pool_index_text i Hi) as H1.
  rewrite Heq, ip_to_pool_index_text in H1 by done. congruence.
Qed.

(** ** Searching a pool from its start *)

Lemma find_zrange {A} (p : A → bool) (f : Z → A) lo n :
  (∀ i, (lo ≤ i < lo + Z.of_nat n)%Z → p (f i) = false)
    ∧ List.find p (f <$> seqZ lo (Z.of_nat n)) = None
  ∨ ∃ i, (lo ≤ i < lo + Z.of_nat n)%Z ∧ p (f i) = true
      ∧ (∀ j, (lo ≤ j < i)%Z → p (f j) = false)
      ∧ List.find p (f <$> seqZ lo (Z.of_nat n)) = Some (f i).
Proof.
  revert lo. induction n as [|n IH]; intros lo.
  { left. split; [lia|done]. }
  rewrite seqZ_cons by lia. csimpl.
  replace (Z.pred (Z.of_nat (S n))) with (Z.of_nat n) by lia.
  destruct (p (f lo)) eqn:Hp.
  - right. exists lo. split_and!; [lia|lia|done|lia|done].
  - destruct (IH (Z.succ lo)) as [[Hnone Hf]|(i & Hi & Hpi & Hlow & Hf)].
    + left. split; [|done]. intros i Hi. destruct (decide (i = lo)); subst; [done|].
      apply Hnone. lia.
    + right. exists i. split_and!; [lia|lia|done| |done]. intros j Hj.
      destruct (decide (j = lo)); subst; [done|]. apply Hlow. lia.
Qed.

Lemma zrange_nat lo hi : (lo ≤ hi)%Z → zrange lo hi = seqZ lo (Z.of_nat (Z.to_nat (hi + 1 - lo))).
Proof. intros. rewrite zrange_seqZ. by rewrite Z2Nat.id by lia. Qed.
