(* ===== verification/Types.v ===== *)
(** * types.py: the data model

    The enumerations and Pydantic models of [celesto.types] that the modelled
    components store and exchange.  A [Path] is its text; a model's fields keep their source names
    (prefixed by the model where two models share one). *)
From S2P Require Import Prelude PyStr.
From S2P Require Export PyDatetime.
From Stdlib Require Import Ascii.
From stdpp Require Import options.

Abbreviation path := string.


Inductive VMState := CREATED | RUNNING | PAUSED | STOPPED | ERROR.
#[global] Instance VMState_eq_dec : EqDecision VMState.
Proof. solve_decision. Defined.

(** [status.value] *)
Definition VMState_value (s : VMState) : string :=
  match s with
  | CREATED => "created" | RUNNING => "running" | PAUSED => "paused"
  | STOPPED => "stopped" | ERROR => "error"
  end.

(** [VMState(value)]: the member with that value, or a [ValueError]. *)
Definition VMState_of_value (v : string) : outcome VMState :=
  if String.eqb v "created" then Ret CREATED
  else if String.eqb v "running" then Ret RUNNING
  else if String.eqb v "paused" then Ret PAUSED
  else if String.eqb v "stopped" then Ret STOPPED
  else if String.eqb v "error" then Ret ERROR
  else Raise (ValueError "not a valid VMState").

Inductive BrowserSessionState :=
| BS_CREATED | BS_STARTING | BS_READY | BS_STOPPING | BS_ERROR | BS_DELETED.
#[global] Instance BrowserSessionState_eq_dec : EqDecision BrowserSessionState.
Proof. solve_decision. Defined.

Definition BrowserSessionState_value (s : BrowserSessionState) : string :=
  match s with
  | BS_CREATED => "created" | BS_STARTING => "starting" | BS_READY => "ready"
  | BS_STOPPING => "stopping" | BS_ERROR => "error" | BS_DELETED => "deleted"
  end.

Definition BrowserSessionState_of_value (v : string) : outcome BrowserSessionState :=
  if String.eqb v "created" then Ret BS_CREATED
  else if String.eqb v "starting" then Ret BS_STARTING
  else if String.eqb v "ready" then Ret BS_READY
  else if String.eqb v "stopping" then Ret BS_STOPPING
  else if String.eqb v "error" then Ret BS_ERROR
  else if String.eqb v "deleted" then Ret BS_DELETED
  else Raise (ValueError "not a valid BrowserSessionState").

Inductive GuestOS := ALPINE | UBUNTU | WINDOWS | MACOS.
#[global] Instance GuestOS_eq_dec : EqDecision GuestOS.
Proof. solve_decision. Defined.

Inductive RootfsFormat := raw_ext4 | rootfs_qcow2.
#[global] Instance RootfsFormat_eq_dec : EqDecision RootfsFormat.
Proof. solve_decision. Defined.
Inductive QemuDiskFormat := disk_raw | disk_qcow2.
Inductive QemuMachine := machine_auto | machine_q35 | machine_microvm.
Inductive SnapshotType := FULL | DIFF | DISK.
#[global] Instance SnapshotType_eq_dec : EqDecision SnapshotType.
Proof. solve_decision. Defined.
Definition SnapshotType_value (s : SnapshotType) : string :=
  match s with FULL => "full" | DIFF => "diff" | DISK => "disk" end.
Definition SnapshotType_of_value (v : string) : outcome SnapshotType :=
  if String.eqb v "full" then Ret FULL
  else if String.eqb v "diff" then Ret DIFF
  else if String.eqb v "disk" then Ret DISK
  else Raise (ValueError "not a valid SnapshotType").
Inductive boot_mode_t := direct_kernel | firmware | platform.
#[global] Instance boot_mode_eq_dec : EqDecision boot_mode_t.
Proof. solve_decision. Defined.
Inductive qemu_network_t := slirp | tap.
#[global] Instance qemu_network_eq_dec : EqDecision qemu_network_t.
Proof. solve_decision. Defined.
Inductive disk_mode_t := isolated | shared.
Inductive CommChannelKind := ssh | vsock.
#[global] Instance CommChannelKind_eq_dec : EqDecision CommChannelKind.
Proof. solve_decision. Defined.
Inductive net_mode := nat_mode | bridge_mode.
#[global] Instance net_mode_eq_dec : EqDecision net_mode.
Proof. solve_decision. Defined.

Record PortForwardConfig := {
  pf_host_port : Z;
  pf_guest_port : Z;
  pf_host_address : string }.

Record VsockConfig := {
  guest_cid : Z;
  uds_path : option string }.

Record WorkspaceMount := {
  wm_host_path : path;
  wm_guest_path : string;
  mount_tag : option string;
  writable : bool }.

Record MacOSMachineConfig := {
  base_image : string;
  manifest_path : path;
  bundle_path : path;
  guest_version : string;
  guest_build : option string;
  mac_disk_size_mib : Z;
  display_width : Z;
  display_height : Z;
  ssh_user : string;
  clipboard : bool }.

Record DesktopEndpoint := {
  de_host : string;
  de_port : Z;
  de_width : option Z;
  de_height : option Z }.

Inductive internet_mode := open_mode | off_mode | restricted_mode | public_mode.
#[global] Instance internet_mode_eq_dec : EqDecision internet_mode.
Proof. solve_decision. Defined.

Record InternetSettings := {
  is_mode : option internet_mode;
  allowed_cidrs : list string;
  allowed_domains : list string;
  allowed_http_methods : list string }.

Record NetworkAttachmentConfig := {
  na_mode : net_mode;
  na_bridge : option string }.

Record VMConfig := {
  vm_id : string;
  preset : option string;
  vcpu_count : Z;
  memory : Z;
  guest_os : GuestOS;
  boot_mode : boot_mode_t;
  kernel_path : option path;
  initrd_path : option path;
  rootfs_path : option path;
  rootfs_format : option RootfsFormat;
  macos_machine : option MacOSMachineConfig;
  extra_drives : list path;
  boot_args : string;
  ssh_capable : bool;
  backend : option string;
  qemu_network : qemu_network_t;
  qemu_machine : QemuMachine;
  disk_mode : disk_mode_t;
  disk_size_mib : option Z;
  grow_filesystem : bool;
  retain_disk_on_delete : bool;
  env_vars : list (string * string);
  network_rate_limit_mbps : option Z;
  port_forwards : list PortForwardConfig;
  vsock_config : option VsockConfig;
  comm_channel : option CommChannelKind;
  internet_settings : option InternetSettings;
  workspace_mounts : list WorkspaceMount;
  ssh_public_key : option string;
  guest_managed_networking : bool;
  network_attachment : NetworkAttachmentConfig }.

Record NetworkConfig := {
  guest_ip : option string;
  gateway_ip : option string;
  netmask : option string;
  tap_device : string;
  guest_mac : string;
  ssh_host_port : option Z;
  egress_proxy_host_port : option Z;
  nc_mode : net_mode;
  nc_bridge : option string }.

Record VMInfo := {
  vi_vm_id : string;
  status : VMState;
  config : VMConfig;
  network : option NetworkConfig;
  pid : option Z;
  control_socket_path : option path;
  vsock_uds_path : option path;
  display : option DesktopEndpoint }.

Record SnapshotArtifacts := {
  state_path : option path;
  memory_path : option path;
  disk_path : path }.

Record SnapshotInfo := {
  snapshot_id : string;
  si_vm_id : string;
  si_backend : string;
  artifacts : SnapshotArtifacts;
  si_vm_config : VMConfig;
  si_network_config : NetworkConfig;
  created_at : datetime;
  snapshot_type : SnapshotType;
  artifact_kind : option string;
  virtual_size_bytes : option Z;
  changed_bytes : option Z;
  bitmap_granularity_bytes : option Z;
  bitmap_name : option string;
  restored : bool;
  restored_vm_id : option string }.

Record BrowserSessionInfo := {
  session_id : string;
  bs_vm_id : string;
  bs_status : BrowserSessionState;
  cdp_url : option string;
  live_url : option string;
  vnc_url : option string;
  debug_port : option Z;
  vnc_port : option Z;
  profile_id : option string;
  expires_at : option datetime;
  artifacts_dir : option path }.

Inductive bs_backend_t := bsb_firecracker | bsb_qemu | bsb_libkrun | bsb_auto.
Inductive bs_mode_t := headless | live | desktop | computer.
#[global] Instance bs_mode_eq_dec : EqDecision bs_mode_t.
Proof. solve_decision. Defined.
Inductive profile_mode_t := ephemeral | persistent.
#[global] Instance profile_mode_eq_dec : EqDecision profile_mode_t.
Proof. solve_decision. Defined.

Record BrowserViewport := { vp_width : Z; vp_height : Z }.

Record BrowserSessionConfig := {
  bc_session_id : option string;
  bc_backend : bs_backend_t;
  bc_mode : bs_mode_t;
  profile_mode : profile_mode_t;
  bc_profile_id : option string;
  timeout_minutes : Z;
  viewport_width : Z;
  viewport_height : Z;
  viewport : option BrowserViewport;
  record_video : bool;
  allow_downloads : bool;
  bc_internet_settings : option InternetSettings;
  network_policy_id : option string;
  bc_env_vars : list (string * string);
  bc_workspace_mounts : list WorkspaceMount;
  mem_size_mib : Z;
  bc_disk_size_mib : Z }.

(** Enum values identify the member. *)
Lemma VMState_of_value_value s : VMState_of_value (VMState_value s) = Ret s.
Proof. by destruct s. Qed.
Lemma VMState_of_value_inv v s : VMState_of_value v = Ret s → v = VMState_value s.
Proof.
  unfold VMState_of_value.
  repeat match goal with |- context [String.eqb v ?x] => destruct (String.eqb_spec v x) end;
  intros [= <-]; done.
Qed.
Lemma BrowserSessionState_of_value_value s :
  BrowserSessionState_of_value (BrowserSessionState_value s) = Ret s.
Proof. by destruct s. Qed.
Lemma VMState_value_inj s1 s2 : VMState_value s1 = VMState_value s2 → s1 = s2.
Proof. by destruct s1, s2. Qed.
Lemma BrowserSessionState_value_inj s1 s2 :
  BrowserSessionState_value s1 = BrowserSessionState_value s2 → s1 = s2.
Proof. by destruct s1, s2. Qed.

Lemma SnapshotType_of_value_value s : SnapshotType_of_value (SnapshotType_value s) = Ret s.
Proof. by destruct s. Qed.

(** [_IDENTIFIER_PATTERN]: one lower-case letter or digit, or up to 64
    characters of [a-z0-9_-] that begin and end with one. *)
Definition is_alnum_lower (c : ascii) : bool := is_lower c || is_digit c.
Definition identifier_ok (s : string) : bool :=
  match s, last_char s with
  | String c _, Some d =>
      is_alnum_lower c && is_alnum_lower d
      && str_all (λ x, is_alnum_lower x || Ascii.eqb x "_"%char || Ascii.eqb x "-"%char) s
      && (Z.of_nat (String.length s) <=? 64)%Z
  | _, _ => false
  end.

(** ** [model_copy(update=...)] *)

Definition vi_set_status (v : VMState) (i : VMInfo) : VMInfo :=
  {| vi_vm_id := vi_vm_id i; status := v; config := config i; network := network i;
     pid := pid i; control_socket_path := control_socket_path i;
     vsock_uds_path := vsock_uds_path i; display := display i |}.
Definition vi_set_pid (v : option Z) (i : VMInfo) : VMInfo :=
  {| vi_vm_id := vi_vm_id i; status := status i; config := config i; network := network i;
     pid := v; control_socket_path := control_socket_path i;
     vsock_uds_path := vsock_uds_path i; display := display i |}.

(** [VMInfo(vm_id=..., status=..., config=...)] *)
Definition vi_new (id : string) (st : VMState) (c : VMConfig) : VMInfo :=
  {| vi_vm_id := id; status := st; config := c; network := None; pid := None;
     control_socket_path := None; vsock_uds_path := None; display := None |}.

(** [VMConfig(vm_id=id)] with every other field at its declared default. *)
Definition VMConfig_defaults (id : string) : VMConfig :=
  {| vm_id := id; preset := None; vcpu_count := 2; memory := 512; guest_os := ALPINE;
     boot_mode := direct_kernel; kernel_path := None; initrd_path := None;
     rootfs_path := None; rootfs_format := None; macos_machine := None; extra_drives := [];
     boot_args := "console=ttyS0 reboot=k panic=1 pci=off"; ssh_capable := false;
     backend := None; qemu_network := slirp; qemu_machine := machine_auto;
     disk_mode := isolated; disk_size_mib := None; grow_filesystem := false;
     retain_disk_on_delete := false; env_vars := []; network_rate_limit_mbps := None;
     port_forwards := []; vsock_config := None; comm_channel := None;
     internet_settings := None; workspace_mounts := []; ssh_public_key := None;
     guest_managed_networking := false;
     network_attachment := {| na_mode := nat_mode; na_bridge := None |} |}.
