(* ===== verification/MemoryState.v ===== *)
(** * storage/_memory.py: the process-local state manager

    [MemoryStateManager] keeps eight dictionaries and a table of advisory
    locks.  A lock is the flock of a file [<kind>-<value>.lock] under the data
    directory, so it is shared with every other process of the machine: the
    model's state is the manager's own [MemState] paired with the set of lock
    names that are held by any open file.  Environment inputs (the host's
    interface names, random tokens, the answer of [os.kill]) are arguments of
    the operations that read them. *)
From S2P Require Import Prelude PyDict PyStr StorageBase Types.
From stdpp Require Import options.

(** The four kinds of claimed resources, with the prefix of their lock file. *)
Inductive kind := K_ip | K_ssh | K_vsock | K_tap.
#[global] Instance kind_eq_dec : EqDecision kind.
Proof. solve_decision. Defined.
#[global] Instance kind_countable : Countable kind.
Proof.
  refine (inj_countable
    (λ k, match k with K_ip => 0 | K_ssh => 1 | K_vsock => 2 | K_tap => 3 end)
    (λ n, match n with
          | 0 => Some K_ip | 1 => Some K_ssh | 2 => Some K_vsock | _ => Some K_tap
          end) _).
  by intros [].
Defined.

Definition kind_name (k : kind) : string :=
  match k with K_ip => "ip" | K_ssh => "ssh" | K_vsock => "vsock" | K_tap => "tap" end.

Definition lock_name (k : kind) (value : string) : string :=
  kind_name k +:+ "-" +:+ value +:+ ".lock".

Record MemState := {
  m_claims : dict (kind * string) string;
  m_vms : dict string VMInfo;
  m_ip_leases : dict string (string * string);
  m_ssh_ports : dict string Z;
  m_vsock_cids : dict string Z;
  m_tap_allocations : dict string (string * string * option string);
  m_snapshots : dict string SnapshotInfo;
  m_browser_sessions : dict string BrowserSessionInfo;
  m_browser_configs : dict string BrowserSessionConfig }.

Definition mem_init : MemState :=
  {| m_claims := []; m_vms := []; m_ip_leases := []; m_ssh_ports := []; m_vsock_cids := [];
     m_tap_allocations := []; m_snapshots := []; m_browser_sessions := [];
     m_browser_configs := [] |}.

Definition set_claims (x : dict (kind * string) string) (m : MemState) : MemState :=
  {| m_claims := x; m_vms := m_vms m; m_ip_leases := m_ip_leases m;
     m_ssh_ports := m_ssh_ports m; m_vsock_cids := m_vsock_cids m;
     m_tap_allocations := m_tap_allocations m; m_snapshots := m_snapshots m;
     m_browser_sessions := m_browser_sessions m; m_browser_configs := m_browser_configs m |}.
Definition set_vms (x : dict string VMInfo) (m : MemState) : MemState :=
  {| m_claims := m_claims m; m_vms := x; m_ip_leases := m_ip_leases m;
     m_ssh_ports := m_ssh_ports m; m_vsock_cids := m_vsock_cids m;
     m_tap_allocations := m_tap_allocations m; m_snapshots := m_snapshots m;
     m_browser_sessions := m_browser_sessions m; m_browser_configs := m_browser_configs m |}.
Definition set_ip_leases (x : dict string (string * string)) (m : MemState) : MemState :=
  {| m_claims := m_claims m; m_vms := m_vms m; m_ip_leases := x;
     m_ssh_ports := m_ssh_ports m; m_vsock_cids := m_vsock_cids m;
     m_tap_allocations := m_tap_allocations m; m_snapshots := m_snapshots m;
     m_browser_sessions := m_browser_sessions m; m_browser_configs := m_browser_configs m |}.
Definition set_ssh_ports (x : dict string Z) (m : MemState) : MemState :=
  {| m_claims := m_claims m; m_vms := m_vms m; m_ip_leases := m_ip_leases m;
     m_ssh_ports := x; m_vsock_cids := m_vsock_cids m;
     m_tap_allocations := m_tap_allocations m; m_snapshots := m_snapshots m;
     m_browser_sessions := m_browser_sessions m; m_browser_configs := m_browser_configs m |}.
Definition set_vsock_cids (x : dict string Z) (m : MemState) : MemState :=
  {| m_claims := m_claims m; m_vms := m_vms m; m_ip_leases := m_ip_leases m;
     m_ssh_ports := m_ssh_ports m; m_vsock_cids := x;
     m_tap_allocations := m_tap_allocations m; m_snapshots := m_snapshots m;
     m_browser_sessions := m_browser_sessions m; m_browser_configs := m_browser_configs m |}.
Definition set_taps (x : dict string (string * string * option string)) (m : MemState) : MemState :=
  {| m_claims := m_claims m; m_vms := m_vms m; m_ip_leases := m_ip_leases m;
     m_ssh_ports := m_ssh_ports m; m_vsock_cids := m_vsock_cids m;
     m_tap_allocations := x; m_snapshots := m_snapshots m;
     m_browser_sessions := m_browser_sessions m; m_browser_configs := m_browser_configs m |}.
Definition set_snapshots (x : dict string SnapshotInfo) (m : MemState) : MemState :=
  {| m_claims := m_claims m; m_vms := m_vms m; m_ip_leases := m_ip_leases m;
     m_ssh_ports := m_ssh_ports m; m_vsock_cids := m_vsock_cids m;
     m_tap_allocations := m_tap_allocations m; m_snapshots := x;
     m_browser_sessions := m_browser_sessions m; m_browser_configs := m_browser_configs m |}.
Definition set_browsers (x : dict string BrowserSessionInfo)
    (y : dict string BrowserSessionConfig) (m : MemState) : MemState :=
  {| m_claims := m_claims m; m_vms := m_vms m; m_ip_leases := m_ip_leases m;
     m_ssh_ports := m_ssh_ports m; m_vsock_cids := m_vsock_cids m;
     m_tap_allocations := m_tap_allocations m; m_snapshots := m_snapshots m;
     m_browser_sessions := x; m_browser_configs := y |}.

(** A manager together with the machine's held locks. *)
Definition MS : Type := MemState * gset string.
Definition upd (f : MemState → MemState) (s : MS) : MS := (f s.1, s.2).

(** What a liveness probe [os.kill(pid, 0)] can answer. *)
Inductive kill_result := Kill_ok | Kill_ProcessLookupError | Kill_PermissionError.

(** ** Field updates of [update_vm] *)
Record vm_update := {
  u_status : option VMState;
  u_config : option VMConfig;
  u_network : option NetworkConfig;
  u_pid : option Z;
  u_control_socket_path : option path;
  u_display : option DesktopEndpoint;
  u_clear_pid : bool;
  u_clear_socket_path : bool;
  u_clear_display : bool }.

(** [x if x is not None else (None if clear else current)] *)
Definition set_or_clear {A} (x : option A) (clear : bool) (current : option A) : option A :=
  match x with Some _ => x | None => if clear then None else current end.

Definition apply_vm_update (u : vm_update) (i : VMInfo) : VMInfo :=
  {| vi_vm_id := vi_vm_id i;
     status := default (status i) (u_status u);
     config := default (config i) (u_config u);
     network := set_or_clear (u_network u) false (network i);
     pid := set_or_clear (u_pid u) (u_clear_pid u) (pid i);
     control_socket_path :=
       set_or_clear (u_control_socket_path u) (u_clear_socket_path u) (control_socket_path i);
     vsock_uds_path := vsock_uds_path i;
     display := set_or_clear (u_display u) (u_clear_display u) (display i) |}.

Record browser_update := {
  b_status : option BrowserSessionState;
  b_clear_endpoints : bool;
  b_cdp_url : option string;
  b_live_url : option string;
  b_vnc_url : option string;
  b_debug_port : option Z;
  b_vnc_port : option Z;
  b_profile_id : option string;
  b_expires_at : option datetime;
  b_artifacts_dir : option path;
  b_config : option BrowserSessionConfig }.

Definition apply_browser_update (u : browser_update) (i : BrowserSessionInfo) : BrowserSessionInfo :=
  let clear := b_clear_endpoints u in
  {| session_id := session_id i; bs_vm_id := bs_vm_id i;
     bs_status := default (bs_status i) (b_status u);
     cdp_url := set_or_clear (b_cdp_url u) clear (cdp_url i);
     live_url := set_or_clear (b_live_url u) clear (live_url i);
     vnc_url := set_or_clear (b_vnc_url u) clear (vnc_url i);
     debug_port := set_or_clear (b_debug_port u) clear (debug_port i);
     vnc_port := set_or_clear (b_vnc_port u) clear (vnc_port i);
     profile_id := set_or_clear (b_profile_id u) false (profile_id i);
     expires_at := set_or_clear (b_expires_at u) false (expires_at i);
     artifacts_dir := set_or_clear (b_artifacts_dir u) false (artifacts_dir i) |}.

Definition mark_restored (restored_vm : string) (i : SnapshotInfo) : SnapshotInfo :=
  {| snapshot_id := snapshot_id i; si_vm_id := si_vm_id i; si_backend := si_backend i;
     artifacts := artifacts i; si_vm_config := si_vm_config i;
     si_network_config := si_network_config i; created_at := created_at i;
     snapshot_type := snapshot_type i; artifact_kind := artifact_kind i;
     virtual_size_bytes := virtual_size_bytes i; changed_bytes := changed_bytes i;
     bitmap_granularity_bytes := bitmap_granularity_bytes i; bitmap_name := bitmap_name i;
     restored := true; restored_vm_id := Some restored_vm |}.

Section manager.
(** Whether the platform has [fcntl], and how opening a lock file can fail. *)
Context (fcntl : bool) (open_error : string → option exn).

Definition _try_claim (k : kind) (vm : string) (value : string) : py MS bool := λ s,
  if dmem (k, vm) (m_claims s.1) then (s, Ret true)
  else if negb fcntl then (s, Ret true)
  else
    let name := lock_name k value in
    match open_error name with
    | Some e => (s, Raise e)
    | None =>
        if bool_decide (name ∈ s.2) then (s, Ret false)
        else ((set_claims (dset (k, vm) name (m_claims s.1)) s.1, {[name]} ∪ s.2), Ret true)
    end.

Definition _release_claim (k : kind) (vm : string) (s : MS) : MS :=
  match dget (k, vm) (m_claims s.1) with
  | None => s
  | Some name => (set_claims (ddel (k, vm) (m_claims s.1)) s.1, s.2 ∖ {[name]})
  end.

(** *** Computers *)
Definition create_vm (c : VMConfig) : py MS VMInfo := λ s,
  if dmem (vm_id c) (m_vms s.1) then (s, Raise (VMAlreadyExistsError (vm_id c)))
  else let info := vi_new (vm_id c) CREATED c in
       (upd (set_vms (dset (vm_id c) info (m_vms s.1))) s, Ret info).

Definition get_vm (vm : string) : py MS VMInfo := λ s,
  match dget vm (m_vms s.1) with
  | Some info => (s, Ret info)
  | None => (s, Raise (VMNotFoundError vm))
  end.

Definition update_vm (vm : string) (u : vm_update) : py MS VMInfo :=
  let! current := get_vm vm in
  let updated := apply_vm_update u current in
  λ s, (upd (set_vms (dset vm updated (m_vms s.1))) s, Ret updated).

Definition delete_vm (vm : string) : py MS unit := λ s,
  if negb (dmem vm (m_vms s.1)) then (s, Raise (VMNotFoundError vm))
  else
    let s1 := upd (λ m, set_vms (ddel vm (m_vms m)) m) s in
    let s2 := upd (λ m, set_ip_leases (ddel vm (m_ip_leases m)) m) s1 in
    let s3 := upd (λ m, set_ssh_ports (ddel vm (m_ssh_ports m)) m) s2 in
    let s4 := upd (λ m, set_vsock_cids (ddel vm (m_vsock_cids m)) m) s3 in
    let s5 := upd (λ m, set_taps (ddel vm (m_tap_allocations m)) m) s4 in
    (fold_left (λ s k, _release_claim k vm s) [K_ip; K_ssh; K_vsock; K_tap] s5, Ret tt).

Definition list_vms (st : option VMState) : py MS (list VMInfo) := λ s,
  let values := dvalues (m_vms s.1) in
  (s, Ret (match st with
           | None => values
           | Some st => filter (λ i, status i = st) values
           end)).

(** *** IP leases.  [ifs] is [_host_interface_names()]. *)
Definition ip_candidates (requested : option string) : list string :=
  match requested with
  | Some ip => [ip]
  | None => ip_text <$> zrange IP_POOL_START IP_POOL_END
  end.

Fixpoint ip_loop (vm tap : string) (used ifs : list string) (cands : list string)
    : py MS (option string) := λ s,
  match cands with
  | [] => (s, Ret None)
  | ip :: cands' =>
      if bool_decide (ip ∈ used) then ip_loop vm tap used ifs cands' s
      else match ip_to_pool_index ip with
      | Raise _ => ip_loop vm tap used ifs cands' s
      | Ret index =>
          if bool_decide ("tap" +:+ dec index ∈ ifs) then ip_loop vm tap used ifs cands' s
          else match _try_claim K_ip vm ip s with
          | (s', Raise e) => (s', Raise e)
          | (s', Ret false) => ip_loop vm tap used ifs cands' s'
          | (s', Ret true) =>
              (upd (λ m, set_ip_leases (dset vm (ip, tap) (m_ip_leases m)) m) s', Ret (Some ip))
          end
      end
  end.

Definition allocate_ip (vm tap : string) (requested : option string) (ifs : list string)
    : py MS string := λ s,
  match dget vm (m_ip_leases s.1) with
  | Some (ip, _) =>
      match requested with
      | Some r => if negb (String.eqb r ip)
                  then (s, Raise (NetworkError ("Computer " +:+ vm +:+ " already has IP " +:+ ip
                                                 +:+ ", cannot reserve " +:+ r)))
                  else (s, Ret ip)
      | None => (s, Ret ip)
      end
  | None =>
      let used := (dvalues (m_ip_leases s.1)).*1 in
      match ip_loop vm tap used ifs (ip_candidates requested) s with
      | (s', Raise e) => (s', Raise e)
      | (s', Ret (Some ip)) => (s', Ret ip)
      | (s', Ret None) =>
          (s', Raise (NetworkError
                 (match requested with
                  | Some r => "Requested IP address " +:+ r +:+ " is not available"
                  | None => "No IP addresses available in pool"
                  end)))
      end
  end.

Definition release_ip (vm : string) (s : MS) : MS :=
  _release_claim K_ip vm (upd (λ m, set_ip_leases (ddel vm (m_ip_leases m)) m) s).

Definition get_ip_lease (vm : string) (s : MS) : option (string * string) :=
  dget vm (m_ip_leases s.1).

Definition update_ip_lease_tap (vm tap : string) (s : MS) : MS :=
  match dget vm (m_ip_leases s.1) with
  | Some (ip, _) => upd (λ m, set_ip_leases (dset vm (ip, tap) (m_ip_leases m)) m) s
  | None => s
  end.

(** *** SSH ports and vsock CIDs: the loop the two share. *)
Fixpoint int_loop (k : kind) (set : Z → MemState → MemState) (vm : string) (used : list Z)
    (cands : list Z) : py MS (option Z) := λ s,
  match cands with
  | [] => (s, Ret None)
  | c :: cands' =>
      if bool_decide (c ∈ used) then int_loop k set vm used cands' s
      else match _try_claim k vm (dec c) s with
      | (s', Raise e) => (s', Raise e)
      | (s', Ret false) => int_loop k set vm used cands' s'
      | (s', Ret true) => (upd (set c) s', Ret (Some c))
      end
  end.

Definition set_port (vm : string) (c : Z) (m : MemState) : MemState :=
  set_ssh_ports (dset vm c (m_ssh_ports m)) m.
Definition set_cid (vm : string) (c : Z) (m : MemState) : MemState :=
  set_vsock_cids (dset vm c (m_vsock_cids m)) m.

Definition reserve_ssh_port (vm : string) (guest_port : Z) (host_port : option Z)
    (excluded : option (list Z)) : py MS Z := λ s,
  if match host_port with Some p => (p <? 1)%Z || (65535 <? p)%Z | None => false end
  then (s, Raise (ValueError "host_port must be 1-65535"))
  else match dget vm (m_ssh_ports s.1) with
  | Some existing =>
      match host_port with
      | Some p => if negb (p =? existing)%Z
                  then (s, Raise (NetworkError ("Computer " +:+ vm +:+ " already has SSH host port "
                                    +:+ dec existing +:+ ", cannot reserve " +:+ dec p)))
                  else (s, Ret existing)
      | None => (s, Ret existing)
      end
  | None =>
      let used := dvalues (m_ssh_ports s.1) ++ default [] excluded in
      let cands := match host_port with
                   | Some p => [p]
                   | None => zrange SSH_PORT_START SSH_PORT_END
                   end in
      match int_loop K_ssh (set_port vm) vm used cands s with
      | (s', Raise e) => (s', Raise e)
      | (s', Ret (Some c)) => (s', Ret c)
      | (s', Ret None) =>
          (s', Raise (NetworkError
                 (match host_port with
                  | Some p => "Requested SSH host port " +:+ dec p +:+ " is not available"
                  | None => "No SSH host ports available in pool"
                  end)))
      end
  end.

Definition get_ssh_port (vm : string) (s : MS) : option Z := dget vm (m_ssh_ports s.1).
Definition release_ssh_port (vm : string) (s : MS) : MS :=
  _release_claim K_ssh vm (upd (λ m, set_ssh_ports (ddel vm (m_ssh_ports m)) m) s).

Definition reserve_vsock_cid (vm : string) (guest_cid : option Z) : py MS Z := λ s,
  match dget vm (m_vsock_cids s.1) with
  | Some existing =>
      match guest_cid with
      | Some c => if negb (c =? existing)%Z
                  then (s, Raise (NetworkError ("Computer " +:+ vm +:+ " already has vsock CID "
                                    +:+ dec existing +:+ ", cannot reserve " +:+ dec c)))
                  else (s, Ret existing)
      | None => (s, Ret existing)
      end
  | None =>
      let used := dvalues (m_vsock_cids s.1) in
      let cands := match guest_cid with
                   | Some c => [c]
                   | None => zrange VSOCK_CID_START VSOCK_CID_END
                   end in
      match int_loop K_vsock (set_cid vm) vm used cands s with
      | (s', Raise e) => (s', Raise e)
      | (s', Ret (Some c)) => (s', Ret c)
      | (s', Ret None) =>
          (s', Raise (NetworkError
                 (match guest_cid with
                  | Some c => "Requested vsock CID " +:+ dec c +:+ " is not available"
                  | None => "No vsock CIDs available in pool"
                  end)))
      end
  end.

Definition get_vsock_cid (vm : string) (s : MS) : option Z := dget vm (m_vsock_cids s.1).
Definition release_vsock_cid (vm : string) (s : MS) : MS :=
  _release_claim K_vsock vm (upd (λ m, set_vsock_cids (ddel vm (m_vsock_cids m)) m) s).

(** *** TAP names.  [tokens i] is the [i]-th [secrets.token_hex(4)]. *)
Fixpoint tap_search (tokens : nat → string) (used : list string) (i fuel : nat) : option string :=
  match fuel with
  | 0 => None
  | S fuel' =>
      let name := "svmb" +:+ tokens i in
      if bool_decide (name ∈ used) then tap_search tokens used (S i) fuel' else Some name
  end.

Definition claim_tap (vm mode : string) (bridge : option string) (name : string)
    : py MS string := λ s,
  match _try_claim K_tap vm name s with
  | (s', Raise e) => (s', Raise e)
  | (s', Ret false) =>
      (s', Raise (NetworkError ("TAP device name '" +:+ name +:+ "' is already reserved")))
  | (s', Ret true) =>
      (upd (λ m, set_taps (dset vm (name, mode, bridge) (m_tap_allocations m)) m) s', Ret name)
  end.

Definition reserve_tap_name (vm mode : string) (bridge requested : option string)
    (ifs : list string) (tokens : nat → string) : py MS string := λ s,
  match dget vm (m_tap_allocations s.1) with
  | Some (name, existing_mode, existing_bridge) =>
      if negb (String.eqb existing_mode mode)
         || negb (bool_decide (existing_bridge = bridge))
         || match requested with Some r => negb (String.eqb r name) | None => false end
      then (s, Raise (NetworkError ("Computer '" +:+ vm +:+ "' already reserves TAP '"
                                     +:+ name +:+ "'.")))
      else (s, Ret name)
  | None =>
      let used := (λ a : string * string * option string, a.1.1)
                    <$> dvalues (m_tap_allocations s.1) in
      let used := used ++ ifs in
      match requested with
      | Some r =>
          if bool_decide (r ∈ used)
          then (s, Raise (NetworkError ("TAP device name '" +:+ r +:+ "' is already reserved")))
          else claim_tap vm mode bridge r s
      | None =>
          match tap_search tokens used 0 100 with
          | None => (s, Raise (NetworkError "Could not find a free TAP device name"))
          | Some name => claim_tap vm mode bridge name s
          end
      end
  end.

Definition get_tap_allocation (vm : string) (s : MS) : option (string * string * option string) :=
  dget vm (m_tap_allocations s.1).
Definition release_tap_name (vm : string) (s : MS) : MS :=
  _release_claim K_tap vm (upd (λ m, set_taps (ddel vm (m_tap_allocations m)) m) s).

(** *** Snapshots *)
Definition create_snapshot (i : SnapshotInfo) : py MS SnapshotInfo := λ s,
  if dmem (snapshot_id i) (m_snapshots s.1)
  then (s, Raise (SnapshotAlreadyExistsError (snapshot_id i)))
  else (upd (λ m, set_snapshots (dset (snapshot_id i) i (m_snapshots m)) m) s, Ret i).

Definition get_snapshot (sid : string) : py MS SnapshotInfo := λ s,
  match dget sid (m_snapshots s.1) with
  | Some i => (s, Ret i)
  | None => (s, Raise (SnapshotNotFoundError sid))
  end.

Definition list_snapshots (vm : option string) : py MS (list SnapshotInfo) := λ s,
  let values := dvalues (m_snapshots s.1) in
  (s, Ret (match vm with
           | None => values
           | Some vm => filter (λ i, si_vm_id i = vm) values
           end)).

Definition mark_snapshot_restored (sid restored_vm : string) : py MS SnapshotInfo :=
  let! current := get_snapshot sid in
  let info := mark_restored restored_vm current in
  λ s, (upd (λ m, set_snapshots (dset sid info (m_snapshots m)) m) s, Ret info).

Definition delete_snapshot (sid : string) : py MS unit := λ s,
  match dget sid (m_snapshots s.1) with
  | None => (s, Raise (SnapshotNotFoundError sid))
  | Some _ => (upd (λ m, set_snapshots (ddel sid (m_snapshots m)) m) s, Ret tt)
  end.

(** *** Browser sessions *)
Definition create_browser_session (i : BrowserSessionInfo) (c : BrowserSessionConfig)
    : py MS BrowserSessionInfo := λ s,
  if dmem (session_id i) (m_browser_sessions s.1)
  then (s, Raise (BrowserSessionAlreadyExistsError (session_id i)))
  else (upd (λ m, set_browsers (dset (session_id i) i (m_browser_sessions m))
                    (dset (session_id i) c (m_browser_configs m)) m) s, Ret i).

Definition get_browser_session (sid : string) : py MS BrowserSessionInfo := λ s,
  match dget sid (m_browser_sessions s.1) with
  | Some i => (s, Ret i)
  | None => (s, Raise (BrowserSessionNotFoundError sid))
  end.

Definition get_browser_session_config (sid : string) : py MS BrowserSessionConfig := λ s,
  match dget sid (m_browser_configs s.1) with
  | Some c => (s, Ret c)
  | None => (s, Raise (BrowserSessionNotFoundError sid))
  end.

Definition update_browser_session (sid : string) (u : browser_update)
    : py MS BrowserSessionInfo :=
  let! current := get_browser_session sid in
  let updated := apply_browser_update u current in
  λ s, (upd (λ m, set_browsers (dset sid updated (m_browser_sessions m))
               (match b_config u with
                | Some c => dset sid c (m_browser_configs m)
                | None => m_browser_configs m
                end) m) s, Ret updated).

Definition delete_browser_session (sid : string) : py MS unit := λ s,
  match dget sid (m_browser_sessions s.1) with
  | None => (s, Raise (BrowserSessionNotFoundError sid))
  | Some _ => (upd (λ m, set_browsers (ddel sid (m_browser_sessions m))
                           (ddel sid (m_browser_configs m)) m) s, Ret tt)
  end.

Definition list_browser_sessions (st : option BrowserSessionState)
    : py MS (list BrowserSessionInfo) := λ s,
  let values := dvalues (m_browser_sessions s.1) in
  (s, Ret (match st with
           | None => values
           | Some st => filter (λ i, bs_status i = st) values
           end)).

(** *** Reconciliation.  [kill pid] answers [os.kill(pid, 0)]. *)
Definition is_live_status (st : VMState) : bool :=
  match st with RUNNING | PAUSED => true | _ => false end.

Definition is_stale (kill : Z → kill_result) (i : VMInfo) : bool :=
  is_live_status (status i) &&
  match pid i with
  | None => true
  | Some p => (p <=? 0)%Z ||
      match kill p with
      | Kill_ProcessLookupError => true
      | Kill_ok | Kill_PermissionError => false
      end
  end.

Definition mark_error (i : VMInfo) : VMInfo := vi_set_pid None (vi_set_status ERROR i).

Definition reconcile (kill : Z → kill_result) : py MS (list string) := λ s,
  let stale := dkeys (filter (λ kv, is_stale kill kv.2 = true) (m_vms s.1)) in
  let mark vms vm := match dget vm vms with
                     | Some i => dset vm (mark_error i) vms
                     | None => vms
                     end in
  (upd (λ m, set_vms (fold_left mark stale (m_vms m)) m) s, Ret stale).
End manager.

(** [close] releases nothing. *)
Definition close (s : MS) : MS := s.

(** [MemoryStateManager(data_dir)] *)
Definition new_manager (data_dir : option path) : outcome MemState :=
  match data_dir with
  | None => Raise (ValueError "data_dir is required for secure resource locks")
  | Some _ => Ret mem_init
  end.
