(* ===== verification/MemoryInv.v ===== *)
(** * The resource ledger of the memory state manager

    [held m k vm] is the value of kind [k] that computer [vm] holds in
    manager [m].  [res_wf] is the invariant that ties it to the lock table:
    every held value is locked under its own name, and no value is held twice.
    [data_wf] is the invariant of the remaining dictionaries.  Every operation
    of the manager preserves both, and changes the machine's lock set only by
    locks it took or owned ([own_locks]). *)
From S2P Require Import Prelude PyDict PyStr StorageBase Types MemoryState.
From stdpp Require Import options.

Definition tap_of (a : string * string * option string) : string := a.1.1.

Definition held (m : MemState) (k : kind) (vm : string) : option string :=
  match k with
  | K_ip => fst <$> dget vm (m_ip_leases m)
  | K_ssh => dec <$> dget vm (m_ssh_ports m)
  | K_vsock => dec <$> dget vm (m_vsock_cids m)
  | K_tap => tap_of <$> dget vm (m_tap_allocations m)
  end.

Record res_wf (fcntl : bool) (m : MemState) : Prop := {
  res_keys : keys_ok (m_claims m);
  res_ip_keys : keys_ok (m_ip_leases m);
  res_ssh_keys : keys_ok (m_ssh_ports m);
  res_vsock_keys : keys_ok (m_vsock_cids m);
  res_tap_keys : keys_ok (m_tap_allocations m);
  res_claims : ∀ k vm, dget (k, vm) (m_claims m)
                       = if fcntl then lock_name k <$> held m k vm else None;
  res_unique : ∀ k vm1 vm2 v, held m k vm1 = Some v → held m k vm2 = Some v → vm1 = vm2 }.

Record data_wf (m : MemState) : Prop := {
  data_vm_keys : keys_ok (m_vms m);
  data_snapshot_keys : keys_ok (m_snapshots m);
  data_browser_keys : keys_ok (m_browser_sessions m);
  data_config_keys : keys_ok (m_browser_configs m);
  data_vm_ids : ∀ vm i, dget vm (m_vms m) = Some i → vi_vm_id i = vm;
  data_snapshot_ids : ∀ sid i, dget sid (m_snapshots m) = Some i → snapshot_id i = sid;
  data_browser_ids : ∀ sid i, dget sid (m_browser_sessions m) = Some i → session_id i = sid;
  data_configs : ∀ sid, is_Some (dget sid (m_browser_sessions m))
                        ↔ is_Some (dget sid (m_browser_configs m));
  data_ips : ∀ vm l, dget vm (m_ip_leases m) = Some l → ∃ i, ip_to_pool_index l.1 = Ret i;
  data_ports : ∀ vm p, dget vm (m_ssh_ports m) = Some p → (1 ≤ p ≤ 65535)%Z }.

(** How an operation moves the machine's lock set from [L] to [L']. *)
Record own_locks (m : MemState) (L : gset string) (m' : MemState) (L' : gset string) : Prop := {
  own_held : ∀ key name, dget key (m_claims m') = Some name → name ∈ L';
  own_new : ∀ key name, dget key (m_claims m') = Some name →
              (∃ key', dget key' (m_claims m) = Some name) ∨ name ∉ L;
  own_gone : ∀ name, name ∈ L → name ∉ L' → ∃ key, dget key (m_claims m) = Some name }.

Definition locked_in (m : MemState) (L : gset string) : Prop :=
  ∀ key name, dget key (m_claims m) = Some name → name ∈ L.

(** ** Lock names *)

Lemma string_app_inj_l (s t1 t2 : string) : s +:+ t1 = s +:+ t2 → t1 = t2.
Proof. apply (inj (String.append s)). Qed.

Lemma string_app_inj_r (s1 s2 t : string) : s1 +:+ t = s2 +:+ t → s1 = s2.
Proof.
  revert s2. induction s1 as [|c1 s1 IH]; intros [|c2 s2] Heq; [done| | |].
  - apply (f_equal String.length) in Heq. rewrite !string_length_app in Heq. simpl in Heq. lia.
  - apply (f_equal String.length) in Heq. rewrite !string_length_app in Heq. simpl in Heq. lia.
  - change (String c1 (s1 +:+ t) = String c2 (s2 +:+ t)) in Heq.
    injection Heq as -> Heq. f_equal. by apply IH.
Qed.

Lemma lock_name_inj k1 k2 v1 v2 : lock_name k1 v1 = lock_name k2 v2 → k1 = k2 ∧ v1 = v2.
Proof.
  unfold lock_name. intros Heq.
  assert (k1 = k2) as <-.
  { destruct k1, k2; try done; vm_compute in Heq; congruence. }
  split; [done|].
  do 2 apply string_app_inj_l in Heq. by eapply string_app_inj_r.
Qed.

Lemma claims_inj fc m key1 key2 name :
  res_wf fc m → dget key1 (m_claims m) = Some name → dget key2 (m_claims m) = Some name →
  key1 = key2.
Proof.
  intros Hwf. destruct key1 as [k1 vm1], key2 as [k2 vm2].
  rewrite !(res_claims _ _ Hwf). destruct fc; [|done].
  rewrite !fmap_Some. intros (v1 & H1 & ->) (v2 & H2 & [-> ->]%lock_name_inj).
  f_equal. eapply res_unique; eauto.
Qed.

(** ** Frames *)

(** Same resources, same claims. *)
Definition same_res (m m' : MemState) : Prop :=
  m_claims m' = m_claims m ∧ m_ip_leases m' = m_ip_leases m ∧ m_ssh_ports m' = m_ssh_ports m
  ∧ m_vsock_cids m' = m_vsock_cids m ∧ m_tap_allocations m' = m_tap_allocations m.

Definition same_data (m m' : MemState) : Prop :=
  m_vms m' = m_vms m ∧ m_snapshots m' = m_snapshots m
  ∧ m_browser_sessions m' = m_browser_sessions m ∧ m_browser_configs m' = m_browser_configs m.

Lemma same_res_wf fc m m' : same_res m m' → res_wf fc m → res_wf fc m'.
Proof.
  destruct m, m'. intros (?&?&?&?&?) [????? Hc Hu]. simpl in *. subst.
  constructor; simpl; auto.
Qed.

Lemma own_locks_refl m L m' : m_claims m' = m_claims m → locked_in m L → own_locks m L m' L.
Proof. intros Hc HL. constructor; rewrite ?Hc; eauto. done. Qed.

Lemma own_locks_locked_in m L m' L' : own_locks m L m' L' → locked_in m' L'.
Proof. intros [??]. done. Qed.

(** ** Taking a resource *)

(** [m'] is [m] with value [v] of kind [k] given to [vm]. *)
Definition acquired (fc : bool) (k : kind) (vm v : string) (m m' : MemState) : Prop :=
  (∀ k' vm', held m' k' vm' = if decide ((k', vm') = (k, vm)) then Some v else held m k' vm')
  ∧ m_claims m' = (if fc then dset (k, vm) (lock_name k v) (m_claims m) else m_claims m)
  ∧ keys_ok (m_ip_leases m') ∧ keys_ok (m_ssh_ports m') ∧ keys_ok (m_vsock_cids m')
  ∧ keys_ok (m_tap_allocations m').

Lemma acquired_wf fc k vm v m m' :
  res_wf fc m → held m k vm = None → (∀ vm', held m k vm' ≠ Some v) →
  acquired fc k vm v m m' → res_wf fc m'.
Proof.
  intros Hwf Hnone Hfresh (Hheld & Hclaims & Hk1 & Hk2 & Hk3 & Hk4). constructor; auto.
  - rewrite Hclaims. pose proof (res_keys _ _ Hwf). destruct fc; auto using keys_ok_dset.
  - intros k' vm'. rewrite Hclaims, Hheld. pose proof (res_claims _ _ Hwf k' vm') as Hc.
    destruct fc; [|done]. rewrite dget_dset.
    repeat case_decide; simplify_eq; done.
  - intros k' vm1 vm2 v'. rewrite !Hheld.
    repeat case_decide; simplify_eq; try naive_solver. by eapply res_unique.
Qed.

Lemma acquired_own fc k vm v m m' L :
  res_wf fc m → held m k vm = None → locked_in m L → (fc = true → lock_name k v ∉ L) →
  acquired fc k vm v m m' →
  own_locks m L m' (if fc then {[lock_name k v]} ∪ L else L).
Proof.
  intros Hwf Hnone HL Hfree (_ & Hclaims & _). destruct fc; [|by apply own_locks_refl].
  constructor; rewrite ?Hclaims.
  - intros key name. rewrite dget_dset. case_decide; intros; simplify_eq; [set_solver|].
    apply elem_of_union_r. by eapply HL.
  - intros key name. rewrite dget_dset. case_decide; intros; simplify_eq; eauto.
  - set_solver.
Qed.

(** ** Giving a resource back *)

Definition drop (k : kind) (vm : string) (m : MemState) : MemState :=
  match k with
  | K_ip => set_ip_leases (ddel vm (m_ip_leases m)) m
  | K_ssh => set_ssh_ports (ddel vm (m_ssh_ports m)) m
  | K_vsock => set_vsock_cids (ddel vm (m_vsock_cids m)) m
  | K_tap => set_taps (ddel vm (m_tap_allocations m)) m
  end.

Definition release (k : kind) (vm : string) (s : MS) : MS := _release_claim k vm (upd (drop k vm) s).

Lemma held_drop fc m k vm k' vm' :
  res_wf fc m →
  held (drop k vm m) k' vm' = if decide ((k', vm') = (k, vm)) then None else held m k' vm'.
Proof.
  intros []. destruct k, k'; simpl; rewrite ?dget_ddel by done;
    repeat case_decide; simplify_eq; done.
Qed.

Lemma drop_claims k vm m : m_claims (drop k vm m) = m_claims m.
Proof. by destruct k. Qed.

Lemma held_set_claims x m : held (set_claims x m) = held m.
Proof. done. Qed.

Lemma release_spec fc k vm m L :
  res_wf fc m →
  ∃ m' L', release k vm (m, L) = (m', L')
    ∧ m_claims m' = ddel (k, vm) (m_claims m)
    ∧ L' = match dget (k, vm) (m_claims m) with Some name => L ∖ {[name]} | None => L end
    ∧ (∀ k' vm', held m' k' vm' = held (drop k vm m) k' vm')
    ∧ same_data m m'
    ∧ m_ip_leases m' = m_ip_leases (drop k vm m) ∧ m_ssh_ports m' = m_ssh_ports (drop k vm m)
    ∧ m_vsock_cids m' = m_vsock_cids (drop k vm m)
    ∧ m_tap_allocations m' = m_tap_allocations (drop k vm m).
Proof.
  intros Hwf. unfold release, _release_claim, upd. simpl. rewrite drop_claims.
  destruct (dget (k, vm) (m_claims m)) as [name|] eqn:Hc.
  - eexists _, _. split; [done|]. simpl. by destruct k.
  - exists (drop k vm m), L. rewrite drop_claims, ddel_absent by done. by destruct k.
Qed.

Lemma keys_ok_drop fc k vm m :
  res_wf fc m →
  keys_ok (m_ip_leases (drop k vm m)) ∧ keys_ok (m_ssh_ports (drop k vm m))
  ∧ keys_ok (m_vsock_cids (drop k vm m)) ∧ keys_ok (m_tap_allocations (drop k vm m)).
Proof. intros []. destruct k; simpl; auto using keys_ok_ddel. Qed.

Lemma release_wf fc k vm m L m' L' :
  res_wf fc m → release k vm (m, L) = (m', L') → res_wf fc m'.
Proof.
  intros Hwf Heq.
  destruct (release_spec fc k vm m L Hwf)
    as (m0 & L0 & Heq0 & Hc & _ & Hh & _ & H1 & H2 & H3 & H4).
  rewrite Heq in Heq0. simplify_eq.
  destruct (keys_ok_drop fc k vm m Hwf) as (?&?&?&?).
  constructor; rewrite ?H1, ?H2, ?H3, ?H4, ?Hc; auto.
  - by apply keys_ok_ddel, (res_keys _ _ Hwf).
  - intros k' vm'. rewrite dget_ddel by (by eapply res_keys).
    rewrite Hh, (held_drop fc) by done. pose proof (res_claims _ _ Hwf k' vm') as Hcl.
    repeat case_decide; simplify_eq; [by destruct fc|done].
  - intros k' vm1 vm2 v. rewrite !Hh, !(held_drop fc) by done.
    repeat case_decide; try done. by eapply res_unique.
Qed.

Lemma release_own fc k vm m L m' L' :
  res_wf fc m → locked_in m L → release k vm (m, L) = (m', L') → own_locks m L m' L'.
Proof.
  intros Hwf HL Heq.
  destruct (release_spec fc k vm m L Hwf) as (m0 & L0 & Heq0 & Hc & HL' & _).
  rewrite Heq in Heq0. simplify_eq.
  assert (keys_ok (m_claims m)) as Hk by by eapply res_keys.
  constructor; rewrite ?Hc.
  - intros key name. rewrite dget_ddel by done. case_decide; [done|]. intros Hkey.
    destruct (dget (k, vm) (m_claims m)) as [n|] eqn:Hn; [|eauto].
    apply elem_of_difference. split; [eauto|]. intros ->%elem_of_singleton.
    eapply claims_inj in Hn; [|done|exact Hkey]. congruence.
  - intros key name. rewrite dget_ddel by done. case_decide; [done|]. eauto.
  - intros name Hin Hout. destruct (dget (k, vm) (m_claims m)) as [n|] eqn:Hn; [|done].
    exists (k, vm). rewrite Hn. f_equal. destruct (decide (n = name)); [done|set_solver].
Qed.

(** [own_locks] composes along a sequence of operations. *)
Lemma own_locks_trans m1 L1 m2 L2 m3 L3 :
  own_locks m1 L1 m2 L2 → own_locks m2 L2 m3 L3 → own_locks m1 L1 m3 L3.
Proof.
  intros [Ha1 Ha2 Ha3] [Hb1 Hb2 Hb3]. constructor; [done| |].
  - intros key name Hk. destruct (decide (name ∈ L1)) as [Hin1|]; [|by right]. left.
    destruct (decide (name ∈ L2)) as [Hin2|]; [|eauto].
    destruct (Hb2 _ _ Hk) as [[key' H2]|]; [|done]. destruct (Ha2 _ _ H2); naive_solver.
  - intros name Hin Hout. destruct (decide (name ∈ L2)) as [Hin2|]; [|eauto].
    destruct (Hb3 _ Hin2 Hout) as [key Hkey]. destruct (Ha2 _ _ Hkey); naive_solver.
Qed.

(** ** The invariant of a manager on a machine *)
Record good (fc : bool) (s : MS) : Prop := {
  good_res : res_wf fc s.1;
  good_data : data_wf s.1;
  good_locks : locked_in s.1 s.2 }.

(** What every operation guarantees of the state it leaves. *)
Record op_ok (fc : bool) (s s' : MS) : Prop := {
  op_good : good fc s';
  op_own : own_locks s.1 s.2 s'.1 s'.2 }.

Lemma mem_init_good fc L : good fc (mem_init, L).
Proof.
  split; simpl; [|split; simpl; try apply keys_ok_nil; naive_solver|done].
  split; simpl; try apply keys_ok_nil; [|by destruct k].
  intros [] ?; simpl; by destruct fc.
Qed.

Lemma op_ok_refl fc s : good fc s → op_ok fc s s.
Proof. intros []. split; [by split|by apply own_locks_refl]. Qed.

Lemma op_ok_trans fc s1 s2 s3 : op_ok fc s1 s2 → op_ok fc s2 s3 → op_ok fc s1 s3.
Proof. intros [] []. split; [done|]. by eapply own_locks_trans. Qed.

Lemma op_ok_own fc m L m' L' :
  res_wf fc m' → data_wf m' → own_locks m L m' L' → op_ok fc (m, L) (m', L').
Proof. intros. split; [split; simpl; eauto using own_locks_locked_in|done]. Qed.

(** An operation that leaves resources and claims alone. *)
Lemma op_ok_data fc m L m' :
  good fc (m, L) → same_res m m' → data_wf m' → op_ok fc (m, L) (m', L).
Proof.
  intros [] Hsame ?. apply op_ok_own; [by eapply same_res_wf|done|].
  apply own_locks_refl; [by destruct Hsame|done].
Qed.

(** An operation that leaves the records alone keeps [data_wf], if the new
    leases are valid. *)
Lemma data_wf_leases m m' :
  data_wf m → same_data m m' →
  (∀ vm l, dget vm (m_ip_leases m') = Some l → ∃ i, ip_to_pool_index l.1 = Ret i) →
  (∀ vm p, dget vm (m_ssh_ports m') = Some p → (1 ≤ p ≤ 65535)%Z) → data_wf m'.
Proof. destruct m, m'. intros [] (?&?&?&?) ??. simpl in *. subst. by constructor. Qed.

Lemma release_ok fc k vm s : good fc s → op_ok fc s (release k vm s).
Proof.
  destruct s as [m L]. intros [Hres Hdata HL]. simpl in *.
  destruct (release_spec fc k vm m L Hres) as (m' & L' & Heq & _ & _ & _ & Hd & H1 & H2 & _).
  rewrite Heq. apply op_ok_own; [by eapply release_wf| |by eapply release_own].
  eapply data_wf_leases; [done|done|..]; destruct Hdata, Hres.
  - intros vm' l. rewrite H1. destruct k; simpl; rewrite ?dget_ddel by done;
      try case_decide; naive_solver.
  - intros vm' p. rewrite H2. destruct k; simpl; rewrite ?dget_ddel by done;
      try case_decide; naive_solver.
Qed.

(** A held value is among the manager's own values. *)
Lemma held_ip_values m vm ip :
  held m K_ip vm = Some ip → ip ∈ (dvalues (m_ip_leases m)).*1.
Proof.
  simpl. rewrite fmap_Some. intros (l & Hl & ->). apply list_elem_of_fmap. exists l.
  split; [done|]. apply list_elem_of_fmap. exists (vm, l). split; [done|].
  by apply dget_Some_elem.
Qed.

Lemma held_int_values (d : dict string Z) vm c :
  dec <$> dget vm d = Some (dec c) → c ∈ dvalues d.
Proof.
  rewrite fmap_Some. intros (c' & Hc & Heq). apply (inj pretty) in Heq as ->.
  apply list_elem_of_fmap. exists (vm, c'). split; [done|]. by apply dget_Some_elem.
Qed.

Lemma held_tap_values m vm n :
  held m K_tap vm = Some n → n ∈ tap_of <$> dvalues (m_tap_allocations m).
Proof.
  simpl. rewrite fmap_Some. intros (l & Hl & ->). apply list_elem_of_fmap. exists l.
  split; [done|]. apply list_elem_of_fmap. exists (vm, l). split; [done|].
  by apply dget_Some_elem.
Qed.

Section ops.
Context (fc : bool) (open_error : string → option exn).
Local Abbreviation try_claim := (_try_claim fc open_error).

(** [_try_claim] on a resource the computer does not hold: it takes the lock
    if nobody has it, and otherwise changes nothing. *)
Lemma try_claim_spec k vm v m L s' r :
  res_wf fc m → held m k vm = None → try_claim k vm v (m, L) = (s', r) →
  (r = Ret true ∧ (fc = true → lock_name k v ∉ L)
   ∧ s' = (if fc then set_claims (dset (k, vm) (lock_name k v) (m_claims m)) m else m,
           if fc then {[lock_name k v]} ∪ L else L))
  ∨ (r ≠ Ret true ∧ s' = (m, L)).
Proof.
  intros Hwf Hnone. unfold _try_claim. simpl.
  assert (dmem (k, vm) (m_claims m) = false) as ->.
  { unfold dmem. rewrite (res_claims _ _ Hwf), Hnone. by destruct fc. }
  destruct fc; simpl.
  - destruct (open_error _); [naive_solver|]. case_bool_decide; naive_solver.
  - naive_solver.
Qed.

(** The state right after a successful claim. *)
Definition claimed (k : kind) (vm v : string) (m : MemState) : MemState :=
  if fc then set_claims (dset (k, vm) (lock_name k v) (m_claims m)) m else m.
Definition claimed_locks (k : kind) (v : string) (L : gset string) : gset string :=
  if fc then {[lock_name k v]} ∪ L else L.

(** Storing a value after its claim succeeded. *)
Lemma claimed_store_ok k vm v m L (store : MemState → MemState) :
  good fc (m, L) → held m k vm = None → (∀ vm', held m k vm' ≠ Some v) →
  (fc = true → lock_name k v ∉ L) →
  acquired fc k vm v m (store (claimed k vm v m)) → data_wf (store (claimed k vm v m)) →
  op_ok fc (m, L) (store (claimed k vm v m), claimed_locks k v L).
Proof.
  intros [] ?????. apply op_ok_own; [by eapply acquired_wf|done|]. by eapply acquired_own.
Qed.

Lemma claimed_keys k vm v m :
  m_ip_leases (claimed k vm v m) = m_ip_leases m ∧ m_ssh_ports (claimed k vm v m) = m_ssh_ports m
  ∧ m_vsock_cids (claimed k vm v m) = m_vsock_cids m
  ∧ m_tap_allocations (claimed k vm v m) = m_tap_allocations m
  ∧ same_data m (claimed k vm v m)
  ∧ m_claims (claimed k vm v m)
    = (if fc then dset (k, vm) (lock_name k v) (m_claims m) else m_claims m).
Proof. unfold claimed, same_data. by destruct fc. Qed.
End ops.
