(* ===== verification/MemoryProofs.v ===== *)
(** * Correctness of the memory state manager

    Every operation preserves the manager's invariant ([manager_preserves]);
    the allocators return the first available value of their pool; processes
    that share a data directory never hold the same resource
    ([cross_process_exclusion]); reconciliation demotes exactly the computers
    whose process is gone. *)
From S2P Require Import Prelude PyDict PyStr StorageBase Types MemoryState MemoryInv.
From stdpp Require Import options.

Section preserve.
Context (fc : bool).
Implicit Types (s : MS) (m : MemState) (L : gset string).

(** *** The three storing shapes *)

(** The store adds one entry to one dictionary of a freshly claimed state. *)
Ltac solve_acquired Hg H1 H2 H3 H4 :=
  destruct Hg as [[] _ _]; simpl in *;
  split_and!; simpl; rewrite ?H1, ?H2, ?H3, ?H4; auto using keys_ok_dset;
  intros [] ?; simpl; rewrite ?H1, ?H2, ?H3, ?H4, ?dget_dset;
  repeat case_decide; simplify_eq; done.
Ltac solve_data Hg H1 H2 :=
  destruct Hg as [_ Hd _]; eapply data_wf_leases; [exact Hd|done|..]; destruct Hd; simpl;
  intros ? ?; rewrite ?H1, ?H2, ?dget_dset; try case_decide; naive_solver.

Lemma store_ip_ok vm ip tap m L i :
  good fc (m, L) → held m K_ip vm = None → ip ∉ (dvalues (m_ip_leases m)).*1 →
  ip_to_pool_index ip = Ret i → (fc = true → lock_name K_ip ip ∉ L) →
  op_ok fc (m, L)
    (set_ip_leases (dset vm (ip, tap) (m_ip_leases (claimed fc K_ip vm ip m)))
       (claimed fc K_ip vm ip m), claimed_locks fc K_ip ip L).
Proof.
  intros Hg Hn Hf Hi Hlk. destruct (claimed_keys fc K_ip vm ip m) as (H1&H2&H3&H4&H5&H6).
  apply (claimed_store_ok fc K_ip vm ip m L
           (λ m0, set_ip_leases (dset vm (ip, tap) (m_ip_leases m0)) m0)); auto.
  - intros vm' Hh. apply Hf. by eapply held_ip_values.
  - solve_acquired Hg H1 H2 H3 H4.
  - solve_data Hg H1 H2.
Qed.

Lemma store_port_ok vm p m L :
  good fc (m, L) → held m K_ssh vm = None → p ∉ dvalues (m_ssh_ports m) →
  (1 ≤ p ≤ 65535)%Z → (fc = true → lock_name K_ssh (dec p) ∉ L) →
  op_ok fc (m, L) (set_port vm p (claimed fc K_ssh vm (dec p) m), claimed_locks fc K_ssh (dec p) L).
Proof.
  intros Hg Hn Hf Hp Hlk. destruct (claimed_keys fc K_ssh vm (dec p) m) as (H1&H2&H3&H4&H5&H6).
  apply (claimed_store_ok fc K_ssh vm (dec p) m L (set_port vm p)); auto.
  - intros vm' Hh. apply Hf. by eapply held_int_values.
  - solve_acquired Hg H1 H2 H3 H4.
  - solve_data Hg H1 H2.
Qed.

Lemma store_cid_ok vm c m L :
  good fc (m, L) → held m K_vsock vm = None → c ∉ dvalues (m_vsock_cids m) →
  (fc = true → lock_name K_vsock (dec c) ∉ L) →
  op_ok fc (m, L) (set_cid vm c (claimed fc K_vsock vm (dec c) m), claimed_locks fc K_vsock (dec c) L).
Proof.
  intros Hg Hn Hf Hlk. destruct (claimed_keys fc K_vsock vm (dec c) m) as (H1&H2&H3&H4&H5&H6).
  apply (claimed_store_ok fc K_vsock vm (dec c) m L (set_cid vm c)); auto.
  - intros vm' Hh. apply Hf. by eapply held_int_values.
  - solve_acquired Hg H1 H2 H3 H4.
  - solve_data Hg H1 H2.
Qed.

Lemma store_tap_ok vm n mode bridge m L :
  good fc (m, L) → held m K_tap vm = None → n ∉ tap_of <$> dvalues (m_tap_allocations m) →
  (fc = true → lock_name K_tap n ∉ L) →
  op_ok fc (m, L)
    (set_taps (dset vm (n, mode, bridge) (m_tap_allocations (claimed fc K_tap vm n m)))
       (claimed fc K_tap vm n m), claimed_locks fc K_tap n L).
Proof.
  intros Hg Hn Hf Hlk. destruct (claimed_keys fc K_tap vm n m) as (H1&H2&H3&H4&H5&H6).
  apply (claimed_store_ok fc K_tap vm n m L
           (λ m0, set_taps (dset vm (n, mode, bridge) (m_tap_allocations m0)) m0)); auto.
  - intros vm' Hh. apply Hf. by eapply held_tap_values.
  - solve_acquired Hg H1 H2 H3 H4.
  - solve_data Hg H1 H2.
Qed.
End preserve.

Lemma tap_search_fresh tokens used i fuel n :
  tap_search tokens used i fuel = Some n → n ∉ used.
Proof.
  revert i. induction fuel as [|fuel IH]; simpl; intros i; [done|].
  case_bool_decide; [apply IH|]. naive_solver.
Qed.

Section operations.
Context (fc : bool) (open_error : string → option exn).
Implicit Types (s : MS) (m : MemState) (L : gset string).

(** *** Loops over candidates *)

(** What a candidate loop does: nothing, or the store of the candidate it
    returns. *)
Lemma ip_loop_ok vm tap used ifs cands m L s' r :
  good fc (m, L) → held m K_ip vm = None → used = (dvalues (m_ip_leases m)).*1 →
  ip_loop fc open_error vm tap used ifs cands (m, L) = (s', r) →
  op_ok fc (m, L) s' ∧ (∀ ip, r = Ret (Some ip) → dget vm (m_ip_leases s'.1) = Some (ip, tap)).
Proof.
  intros Hg Hn Hu. revert s' r. induction cands as [|ip cands IH]; simpl; intros s' r.
  { intros ?; simplify_eq. split; [by apply op_ok_refl|done]. }
  case_bool_decide as Hused; [apply IH|].
  destruct (ip_to_pool_index ip) as [i|] eqn:Hi; [|apply IH].
  case_bool_decide as Hif; [apply IH|].
  destruct (_try_claim fc open_error K_ip vm ip (m, L)) as [s1 r1] eqn:Ht.
  destruct (try_claim_spec _ _ _ _ _ _ _ _ _ (good_res _ _ Hg) Hn Ht) as [(->&Hlk&->)|[Hr ->]].
  - intros ?; simplify_eq. split.
    + by eapply (store_ip_ok fc vm ip tap m L i).
    + intros ip' ?. simplify_eq/=. by rewrite dget_dset_eq.
  - destruct r1 as [[]|]; [done|apply IH|]. intros ?; simplify_eq.
    split; [by apply op_ok_refl|done].
Qed.

Lemma allocate_ip_ok vm tap req ifs s s' r :
  good fc s → allocate_ip fc open_error vm tap req ifs s = (s', r) → op_ok fc s s'.
Proof.
  destruct s as [m L]. intros Hg. unfold allocate_ip. simpl.
  destruct (dget vm (m_ip_leases m)) as [[ip t]|] eqn:Hl.
  { destruct req as [q|]; [destruct (negb (q =? ip)%string)|];
      intros; simplify_eq; by apply op_ok_refl. }
  destruct (ip_loop _ _ _ _ _ _ _ _) as [s1 r1] eqn:Hloop.
  apply ip_loop_ok in Hloop as [Hok _]; [|done|simpl; by rewrite Hl|done].
  destruct r1 as [[ip|]|]; intros; by simplify_eq.
Qed.

(** The shared integer loop, for a store that meets its specification. *)
Lemma int_loop_ok k store vm used cands m L s' r :
  good fc (m, L) → held m k vm = None →
  (∀ c, c ∈ cands → c ∉ used → (fc = true → lock_name k (dec c) ∉ L) →
     op_ok fc (m, L) (store c (claimed fc k vm (dec c) m), claimed_locks fc k (dec c) L)) →
  int_loop fc open_error k store vm used cands (m, L) = (s', r) → op_ok fc (m, L) s'.
Proof.
  intros Hg Hn. revert s' r. induction cands as [|c cands IH]; simpl; intros s' r Hst.
  { intros ?; simplify_eq. by apply op_ok_refl. }
  assert (∀ c', c' ∈ cands → c' ∉ used → (fc = true → lock_name k (dec c') ∉ L) →
     op_ok fc (m, L) (store c' (claimed fc k vm (dec c') m), claimed_locks fc k (dec c') L)) as Hst'.
  { intros. apply Hst; auto. by right. }
  case_bool_decide as Hused; [by apply IH|].
  destruct (_try_claim fc open_error k vm (dec c) (m, L)) as [s1 r1] eqn:Ht.
  destruct (try_claim_spec _ _ _ _ _ _ _ _ _ (good_res _ _ Hg) Hn Ht) as [(->&Hlk&->)|[Hr ->]].
  - intros ?; simplify_eq. apply Hst; auto. by left.
  - destruct r1 as [[]|]; [done|by apply IH|]. intros ?; simplify_eq. by apply op_ok_refl.
Qed.

Lemma reserve_ssh_port_ok vm gp hp ex s s' r :
  good fc s → reserve_ssh_port fc open_error vm gp hp ex s = (s', r) → op_ok fc s s'.
Proof.
  destruct s as [m L]. intros Hg. unfold reserve_ssh_port. cbn [fst].
  destruct (match hp with Some _ => _ | None => _ end) eqn:Hrange.
  { intros; simplify_eq. by apply op_ok_refl. }
  destruct (dget vm (m_ssh_ports m)) as [p|] eqn:Hl.
  { destruct hp as [q|]; [destruct (negb (q =? p)%Z)|];
      intros; simplify_eq; by apply op_ok_refl. }
  destruct (int_loop _ _ _ _ _ _ _ _) as [s1 r1] eqn:Hloop.
  apply int_loop_ok in Hloop; [|done|simpl; by rewrite Hl|].
  { destruct r1 as [[p|]|]; intros; by simplify_eq. }
  intros c Hc Hu Hlk. apply store_port_ok; [done|simpl; by rewrite Hl|set_solver| |done].
  destruct hp as [q|].
  - apply list_elem_of_singleton in Hc as ->. bool_hyps. lia.
  - apply zrange_elem in Hc. unfold SSH_PORT_START, SSH_PORT_END in Hc. lia.
Qed.

Lemma reserve_vsock_cid_ok vm cid s s' r :
  good fc s → reserve_vsock_cid fc open_error vm cid s = (s', r) → op_ok fc s s'.
Proof.
  destruct s as [m L]. intros Hg. unfold reserve_vsock_cid. cbn [fst].
  destruct (dget vm (m_vsock_cids m)) as [p|] eqn:Hl.
  { destruct cid as [q|]; [destruct (negb (q =? p)%Z)|];
      intros; simplify_eq; by apply op_ok_refl. }
  destruct (int_loop _ _ _ _ _ _ _ _) as [s1 r1] eqn:Hloop.
  apply int_loop_ok in Hloop; [|done|simpl; by rewrite Hl|].
  { destruct r1 as [[p|]|]; intros; by simplify_eq. }
  intros c Hc Hu Hlk. apply store_cid_ok; [done|simpl; by rewrite Hl|done|done].
Qed.

Lemma claim_tap_ok vm mode bridge n m L s' r :
  good fc (m, L) → held m K_tap vm = None → n ∉ tap_of <$> dvalues (m_tap_allocations m) →
  claim_tap fc open_error vm mode bridge n (m, L) = (s', r) → op_ok fc (m, L) s'.
Proof.
  intros Hg Hn Hf. unfold claim_tap.
  destruct (_try_claim fc open_error K_tap vm n (m, L)) as [s1 r1] eqn:Ht.
  destruct (try_claim_spec _ _ _ _ _ _ _ _ _ (good_res _ _ Hg) Hn Ht) as [(->&Hlk&->)|[Hr ->]].
  - intros ?; simplify_eq. by apply store_tap_ok.
  - destruct r1 as [[]|]; [done| |]; intros ?; simplify_eq; by apply op_ok_refl.
Qed.

Lemma reserve_tap_name_ok vm mode bridge req ifs tokens s s' r :
  good fc s → reserve_tap_name fc open_error vm mode bridge req ifs tokens s = (s', r) →
  op_ok fc s s'.
Proof.
  destruct s as [m L]. intros Hg. unfold reserve_tap_name. cbn [fst].
  destruct (dget vm (m_tap_allocations m)) as [[[n md] br]|] eqn:Hl.
  { destruct (_ || _); intros; simplify_eq; by apply op_ok_refl. }
  destruct req as [q|].
  - case_bool_decide as Hu; [intros; simplify_eq; by apply op_ok_refl|].
    apply claim_tap_ok; [done|simpl; by rewrite Hl|]. rewrite elem_of_app in Hu. tauto.
  - destruct (tap_search _ _ _ _) as [n|] eqn:Hs; [|intros; simplify_eq; by apply op_ok_refl].
    apply tap_search_fresh in Hs. rewrite elem_of_app in Hs.
    apply claim_tap_ok; [done|simpl; by rewrite Hl|tauto].
Qed.
End operations.

(** *** Operations on records *)

Lemma same_res_vms x m : same_res m (set_vms x m).
Proof. done. Qed.

Lemma data_wf_vms m x :
  data_wf m → keys_ok x → (∀ vm i, dget vm x = Some i → vi_vm_id i = vm) → data_wf (set_vms x m).
Proof. intros [] ??. by constructor. Qed.

Lemma data_wf_snapshots m x :
  data_wf m → keys_ok x → (∀ sid i, dget sid x = Some i → snapshot_id i = sid) →
  data_wf (set_snapshots x m).
Proof. intros [] ??. by constructor. Qed.

Lemma data_wf_browsers m x y :
  data_wf m → keys_ok x → keys_ok y → (∀ sid i, dget sid x = Some i → session_id i = sid) →
  (∀ sid, is_Some (dget sid x) ↔ is_Some (dget sid y)) → data_wf (set_browsers x y m).
Proof. intros [] ????. by constructor. Qed.

Lemma apply_vm_update_id u i : vi_vm_id (apply_vm_update u i) = vi_vm_id i.
Proof. done. Qed.

Lemma create_vm_ok fc c s s' r : good fc s → create_vm c s = (s', r) → op_ok fc s s'.
Proof.
  destruct s as [m L]. intros Hg. unfold create_vm. simpl.
  destruct (dmem _ _) eqn:Hm; intros; simplify_eq; [by apply op_ok_refl|].
  apply op_ok_data; [done|done|]. destruct Hg as [_ Hd _].
  apply data_wf_vms; [done|destruct Hd; auto using keys_ok_dset|].
  intros vm i. rewrite dget_dset. case_decide; [naive_solver|]. by apply data_vm_ids.
Qed.

Lemma update_vm_ok fc vm u s s' r : good fc s → update_vm vm u s = (s', r) → op_ok fc s s'.
Proof.
  destruct s as [m L]. intros Hg. unfold update_vm, py_bind, get_vm. simpl.
  destruct (dget vm (m_vms m)) as [i|] eqn:Hm; intros; simplify_eq; [|by apply op_ok_refl].
  apply op_ok_data; [done|done|]. destruct Hg as [_ Hd _].
  apply data_wf_vms; [done|destruct Hd; auto using keys_ok_dset|].
  intros vm' i'. rewrite dget_dset.
  case_decide; [intros; simplify_eq/=|]; by apply (data_vm_ids _ Hd).
Qed.

Lemma set_vms_ddel_ok fc vm s :
  good fc s → op_ok fc s (upd (λ m, set_vms (ddel vm (m_vms m)) m) s).
Proof.
  destruct s as [m L]. intros Hg. apply op_ok_data; [done|done|]. destruct Hg as [_ Hd _].
  apply data_wf_vms; [done|destruct Hd; auto using keys_ok_ddel|]. simpl.
  intros vm' i'. rewrite dget_ddel by (by destruct Hd). case_decide; [done|].
  by apply data_vm_ids.
Qed.

Lemma release_claim_drop k vm k' vm' s :
  _release_claim k vm (upd (drop k' vm') s) = upd (drop k' vm') (_release_claim k vm s).
Proof.
  destruct s as [m L]. unfold _release_claim, upd. simpl. rewrite drop_claims.
  destruct (dget (k, vm) (m_claims m)); by destruct k'.
Qed.

(** [delete_vm] drops the record and then releases the four resources. *)
Lemma delete_vm_eq vm s :
  dmem vm (m_vms s.1) = true →
  delete_vm vm s
  = (release K_tap vm (release K_vsock vm (release K_ssh vm (release K_ip vm
       (upd (λ m, set_vms (ddel vm (m_vms m)) m) s)))), Ret tt).
Proof.
  unfold delete_vm. intros Hm. rewrite Hm. simpl negb. cbv iota zeta.
  set (s0 := upd (λ m, set_vms (ddel vm (m_vms m)) m) s).
  assert (fold_left (λ s k, _release_claim k vm s) [K_ip; K_ssh; K_vsock; K_tap]
            (upd (drop K_tap vm) (upd (drop K_vsock vm) (upd (drop K_ssh vm) (upd (drop K_ip vm) s0))))
          = release K_tap vm (release K_vsock vm (release K_ssh vm (release K_ip vm s0)))) as Heq.
  { unfold release. cbn [fold_left]. by rewrite !release_claim_drop. }
  rewrite <-Heq. done.
Qed.

Lemma delete_vm_ok fc vm s s' r : good fc s → delete_vm vm s = (s', r) → op_ok fc s s'.
Proof.
  intros Hg. destruct (dmem vm (m_vms s.1)) eqn:Hm.
  - rewrite delete_vm_eq by done. intros; simplify_eq.
    do 4 (eapply op_ok_trans; [|apply release_ok]).
    all: eauto using set_vms_ddel_ok, release_ok, op_good.
  - unfold delete_vm. rewrite Hm. intros; simplify_eq/=. by apply op_ok_refl.
Qed.

Lemma update_ip_lease_tap_ok fc vm tap s : good fc s → op_ok fc s (update_ip_lease_tap vm tap s).
Proof.
  destruct s as [m L]. intros Hg. unfold update_ip_lease_tap. simpl.
  destruct (dget vm (m_ip_leases m)) as [[ip t]|] eqn:Hl; [|by apply op_ok_refl].
  assert (∀ k vm', held (set_ip_leases (dset vm (ip, tap) (m_ip_leases m)) m) k vm'
                   = held m k vm') as Hh.
  { intros [] vm'; simpl; try done. rewrite dget_dset. case_decide; subst; [by rewrite Hl|done]. }
  destruct Hg as [[????? Hc Hu] Hd HL]. apply op_ok_own.
  - constructor; simpl; auto using keys_ok_dset.
    + intros. by rewrite Hh.
    + intros k vm1 vm2 v. rewrite !Hh. apply Hu.
  - eapply data_wf_leases; [exact Hd|done|..]; simpl; intros vm' l.
    + rewrite dget_dset. case_decide; [|by apply data_ips].
      intros; simplify_eq. by eapply (data_ips _ Hd vm' (ip, t)).
    + by apply data_ports.
  - by apply own_locks_refl.
Qed.

Lemma snapshot_store_ok fc sid i s :
  good fc s → snapshot_id i = sid →
  op_ok fc s (upd (λ m, set_snapshots (dset sid i (m_snapshots m)) m) s).
Proof.
  destruct s as [m L]. intros Hg Hi. apply op_ok_data; [done|done|]. destruct Hg as [_ Hd _].
  apply data_wf_snapshots; [done|destruct Hd; auto using keys_ok_dset|].
  intros sid' i'. rewrite dget_dset. case_decide; [naive_solver|]. by apply data_snapshot_ids.
Qed.

Lemma create_snapshot_ok fc i s s' r : good fc s → create_snapshot i s = (s', r) → op_ok fc s s'.
Proof.
  intros Hg. unfold create_snapshot.
  destruct (dmem _ _); intros; simplify_eq; [by apply op_ok_refl|by apply snapshot_store_ok].
Qed.

Lemma mark_snapshot_restored_ok fc sid vm s s' r :
  good fc s → mark_snapshot_restored sid vm s = (s', r) → op_ok fc s s'.
Proof.
  intros Hg. unfold mark_snapshot_restored, py_bind, get_snapshot.
  destruct (dget sid (m_snapshots s.1)) as [i|] eqn:Hi; intros; simplify_eq.
  - apply snapshot_store_ok; [done|]. simpl. by eapply (data_snapshot_ids _ (good_data _ _ Hg)).
  - by apply op_ok_refl.
Qed.

Lemma delete_snapshot_ok fc sid s s' r : good fc s → delete_snapshot sid s = (s', r) → op_ok fc s s'.
Proof.
  destruct s as [m L]. intros Hg. unfold delete_snapshot. simpl.
  destruct (dget sid (m_snapshots m)); intros; simplify_eq; [|by apply op_ok_refl].
  apply op_ok_data; [done|done|]. destruct Hg as [_ Hd _].
  apply data_wf_snapshots; [done|destruct Hd; auto using keys_ok_ddel|].
  intros sid' i'. simpl. rewrite dget_ddel by (by destruct Hd). case_decide; [done|].
  by apply data_snapshot_ids.
Qed.

(** *** Browser sessions *)
Lemma create_browser_session_ok fc i c s s' r :
  good fc s → create_browser_session i c s = (s', r) → op_ok fc s s'.
Proof.
  destruct s as [m L]. intros Hg. unfold create_browser_session. simpl.
  destruct (dmem _ _); intros; simplify_eq; [by apply op_ok_refl|].
  apply op_ok_data; [done|done|]. destruct Hg as [_ Hd _]. simpl in *.
  apply data_wf_browsers; [done|destruct Hd; auto using keys_ok_dset..| |].
  - intros sid i'. rewrite dget_dset. case_decide; [naive_solver|]. by apply data_browser_ids.
  - intros sid. rewrite !dget_dset. case_decide; [by split; eauto|]. by apply data_configs.
Qed.

Lemma update_browser_session_ok fc sid u s s' r :
  good fc s → update_browser_session sid u s = (s', r) → op_ok fc s s'.
Proof.
  destruct s as [m L]. intros Hg. unfold update_browser_session, py_bind, get_browser_session.
  simpl. destruct (dget sid (m_browser_sessions m)) as [i|] eqn:Hi; intros; simplify_eq;
    [|by apply op_ok_refl].
  apply op_ok_data; [done|done|]. destruct Hg as [_ Hd _]. simpl in *.
  apply data_wf_browsers; [done|destruct Hd; auto using keys_ok_dset| | |].
  - destruct (b_config u), Hd; auto using keys_ok_dset.
  - intros sid' i'. rewrite dget_dset.
    case_decide; [intros; simplify_eq/=|]; by apply (data_browser_ids _ Hd).
  - intros sid'. pose proof (data_configs _ Hd sid') as Hc. rewrite dget_dset.
    destruct (b_config u); rewrite ?dget_dset; case_decide; subst; [by split; eauto|done| |done].
    rewrite <-Hc, Hi. by split; eauto.
Qed.

Lemma delete_browser_session_ok fc sid s s' r :
  good fc s → delete_browser_session sid s = (s', r) → op_ok fc s s'.
Proof.
  destruct s as [m L]. intros Hg. unfold delete_browser_session. simpl.
  destruct (dget sid (m_browser_sessions m)); intros; simplify_eq; [|by apply op_ok_refl].
  apply op_ok_data; [done|done|]. destruct Hg as [_ Hd _]. simpl in *.
  apply data_wf_browsers; [done|destruct Hd; auto using keys_ok_ddel..| |].
  - intros sid' i'. rewrite dget_ddel by (by destruct Hd). case_decide; [done|].
    by apply data_browser_ids.
  - intros sid'. rewrite !dget_ddel by (by destruct Hd).
    case_decide; [by split; intros []|]. by apply data_configs.
Qed.

(** *** Reconciliation *)
Definition reconciled (kill : Z → kill_result) (i : VMInfo) : VMInfo :=
  if is_stale kill i then mark_error i else i.

Definition mark_step (vms : dict string VMInfo) (vm : string) : dict string VMInfo :=
  match dget vm vms with Some i => dset vm (mark_error i) vms | None => vms end.

Lemma mark_step_get vms vm vm' :
  dget vm' (mark_step vms vm)
  = if decide (vm = vm') then mark_error <$> dget vm' vms else dget vm' vms.
Proof.
  unfold mark_step. destruct (dget vm vms) as [i|] eqn:Hi.
  - rewrite dget_dset. case_decide; subst; [by rewrite Hi|done].
  - case_decide; subst; [by rewrite Hi|done].
Qed.

Lemma mark_fold_get stale vms vm :
  dget vm (fold_left mark_step stale vms)
  = if decide (vm ∈ stale) then mark_error <$> dget vm vms else dget vm vms.
Proof.
  revert vms. induction stale as [|k stale IH]; intros vms; cbn [fold_left].
  { case_decide; [set_solver|done]. }
  rewrite IH, mark_step_get.
  repeat case_decide; subst; try done; try set_solver. by destruct (dget vm vms).
Qed.

Lemma mark_fold_keys stale (vms : dict string VMInfo) :
  keys_ok vms → dkeys (fold_left mark_step stale vms) = dkeys vms.
Proof.
  revert vms. induction stale as [|k stale IH]; intros vms Hok; simpl; [done|].
  assert (dkeys (mark_step vms k) = dkeys vms) as Hk.
  { unfold mark_step. destruct (dget k vms) eqn:E; [|done]. apply dset_existing_order. eauto. }
  rewrite IH; [done|]. unfold keys_ok, dkeys in *. by rewrite Hk.
Qed.

Lemma stale_elem kill (vms : dict string VMInfo) vm :
  keys_ok vms →
  vm ∈ dkeys (filter (λ kv, is_stale kill kv.2 = true) vms)
  ↔ ∃ i, dget vm vms = Some i ∧ is_stale kill i = true.
Proof.
  intros Hok. unfold dkeys. rewrite list_elem_of_fmap. split.
  - intros ([k i] & -> & [Hst Hin]%list_elem_of_filter). exists i. split; [by apply elem_dget|done].
  - intros (i & Hi & Hst). exists (vm, i). split; [done|]. apply list_elem_of_filter.
    split; [done|by apply dget_Some_elem].
Qed.

Lemma reconcile_vms kill (vms : dict string VMInfo) :
  keys_ok vms →
  fold_left mark_step (dkeys (filter (λ kv, is_stale kill kv.2 = true) vms)) vms
  = (prod_map id (reconciled kill) <$> vms).
Proof.
  intros Hok. apply dict_ext.
  - unfold keys_ok. change (NoDup (dkeys (fold_left mark_step
      (dkeys (filter (λ kv, is_stale kill kv.2 = true) vms)) vms))).
    by rewrite mark_fold_keys.
  - by rewrite dkeys_fmap, mark_fold_keys.
  - intros vm. rewrite mark_fold_get, dget_fmap. unfold reconciled.
    pose proof (stale_elem kill vms vm Hok) as Hel.
    case_decide as Hin; rewrite Hel in Hin; destruct (dget vm vms) as [i|] eqn:Hi; csimpl; try done.
    + destruct Hin as (? & ? & Hst). simplify_eq. by rewrite Hst.
    + destruct (is_stale kill i) eqn:Hst; [|done]. exfalso. eauto.
Qed.

Lemma reconcile_eq fc kill s :
  good fc s →
  reconcile kill s
  = (upd (set_vms (prod_map id (reconciled kill) <$> m_vms s.1)) s,
     Ret (dkeys (filter (λ kv, is_stale kill kv.2 = true) (m_vms s.1)))).
Proof.
  intros [_ Hd _]. unfold reconcile, upd. destruct s as [m L]. simpl in *.
  fold mark_step. rewrite reconcile_vms; [done|]. by destruct Hd.
Qed.

Lemma reconcile_ok fc kill s s' r : good fc s → reconcile kill s = (s', r) → op_ok fc s s'.
Proof.
  intros Hg. rewrite (reconcile_eq fc) by done. intros; simplify_eq.
  destruct s as [m L]. apply op_ok_data; [done|done|]. destruct Hg as [_ Hd _]. simpl in *.
  apply data_wf_vms; [done| |].
  - pose proof (data_vm_keys _ Hd) as Hk. unfold keys_ok in *.
    pose proof (dkeys_fmap (reconciled kill) (m_vms m)) as Hf. unfold dkeys in Hf. by rewrite Hf.
  - intros vm i. rewrite dget_fmap, fmap_Some. intros (i0 & Hi0 & ->).
    unfold reconciled. destruct (is_stale kill i0); simpl; by apply (data_vm_ids _ Hd).
Qed.

(** ** Steps of a manager: one state-changing call *)
Section steps.
Context (fc : bool) (open_error : string → option exn).

Inductive mstep : MS → MS → Prop :=
| st_create_vm c s s' r : create_vm c s = (s', r) → mstep s s'
| st_update_vm vm u s s' r : update_vm vm u s = (s', r) → mstep s s'
| st_delete_vm vm s s' r : delete_vm vm s = (s', r) → mstep s s'
| st_allocate_ip vm tap req ifs s s' r :
    allocate_ip fc open_error vm tap req ifs s = (s', r) → mstep s s'
| st_release_ip vm s : mstep s (release_ip vm s)
| st_update_ip_lease_tap vm tap s : mstep s (update_ip_lease_tap vm tap s)
| st_reserve_ssh_port vm gp hp ex s s' r :
    reserve_ssh_port fc open_error vm gp hp ex s = (s', r) → mstep s s'
| st_release_ssh_port vm s : mstep s (release_ssh_port vm s)
| st_reserve_vsock_cid vm cid s s' r :
    reserve_vsock_cid fc open_error vm cid s = (s', r) → mstep s s'
| st_release_vsock_cid vm s : mstep s (release_vsock_cid vm s)
| st_reserve_tap_name vm mode br req ifs tokens s s' r :
    reserve_tap_name fc open_error vm mode br req ifs tokens s = (s', r) → mstep s s'
| st_release_tap_name vm s : mstep s (release_tap_name vm s)
| st_create_snapshot i s s' r : create_snapshot i s = (s', r) → mstep s s'
| st_mark_snapshot_restored sid vm s s' r :
    mark_snapshot_restored sid vm s = (s', r) → mstep s s'
| st_delete_snapshot sid s s' r : delete_snapshot sid s = (s', r) → mstep s s'
| st_create_browser_session i c s s' r : create_browser_session i c s = (s', r) → mstep s s'
| st_update_browser_session sid u s s' r :
    update_browser_session sid u s = (s', r) → mstep s s'
| st_delete_browser_session sid s s' r : delete_browser_session sid s = (s', r) → mstep s s'
| st_reconcile kill s s' r : reconcile kill s = (s', r) → mstep s s'.

Lemma mstep_ok s s' : good fc s → mstep s s' → op_ok fc s s'.
Proof.
  intros Hg Hst. revert Hg.
  destruct Hst; intros Hg; eauto using create_vm_ok, update_vm_ok, delete_vm_ok, allocate_ip_ok,
    reserve_ssh_port_ok, reserve_vsock_cid_ok, reserve_tap_name_ok, create_snapshot_ok,
    mark_snapshot_restored_ok, delete_snapshot_ok, create_browser_session_ok,
    update_browser_session_ok, delete_browser_session_ok, reconcile_ok, update_ip_lease_tap_ok.
  all: match goal with
       | |- op_ok _ _ (release_ip ?vm _) => apply (release_ok fc K_ip vm)
       | |- op_ok _ _ (release_ssh_port ?vm _) => apply (release_ok fc K_ssh vm)
       | |- op_ok _ _ (release_vsock_cid ?vm _) => apply (release_ok fc K_vsock vm)
       | |- op_ok _ _ (release_tap_name ?vm _) => apply (release_ok fc K_tap vm)
       end; done.
Qed.

Lemma msteps_good s s' : good fc s → rtc mstep s s' → good fc s'.
Proof. intros Hg Hst. induction Hst; [done|]. apply IHHst. by apply (op_good fc x), mstep_ok. Qed.
End steps.

(** C1: Whatever sequence of operations a fresh manager serves, on a machine
    with any locks already held, it never has one IP address, SSH port, vsock
    CID or TAP name leased to two computers; every leased address is a
    canonical pool address and every leased port a TCP port; records sit
    under their own identifier; with [fcntl], the claims are exactly the locks
    of the leased values and all of them are held. *)
Theorem manager_invariant fc open_error L s :
  rtc (mstep fc open_error) (mem_init, L) s →
  (∀ k vm1 vm2 v, held s.1 k vm1 = Some v → held s.1 k vm2 = Some v → vm1 = vm2)
  ∧ (∀ vm l, dget vm (m_ip_leases s.1) = Some l → ∃ i, ip_to_pool_index l.1 = Ret i)
  ∧ (∀ vm p, dget vm (m_ssh_ports s.1) = Some p → (1 ≤ p ≤ 65535)%Z)
  ∧ (∀ vm i, dget vm (m_vms s.1) = Some i → vi_vm_id i = vm)
  ∧ (∀ k vm, dget (k, vm) (m_claims s.1) = if fc then lock_name k <$> held s.1 k vm else None)
  ∧ (∀ key name, dget key (m_claims s.1) = Some name → name ∈ s.2).
Proof.
  intros Hst. apply msteps_good in Hst as [[] [] HL]; [|apply mem_init_good].
  split_and!; eauto.
Qed.

(** A concrete run: on a machine where another process holds the lock of
    172.16.0.3, computer [b] is refused that address and then gets the next. *)
Definition demo_alloc (vm ip : string) : MS → MS * outcome string :=
  allocate_ip true (λ _, None) vm "tap" (Some ip) [].
Definition demo_0 : MS := (mem_init, {["ip-172.16.0.3.lock"]}).
Definition demo_1 : MS := (demo_alloc "a" "172.16.0.2" demo_0).1.
Definition demo_2 : MS := (demo_alloc "b" "172.16.0.3" demo_1).1.
Definition demo_3 : MS := (demo_alloc "b" "172.16.0.4" demo_2).1.

Lemma demo_reachable : rtc (mstep true (λ _, None)) demo_0 demo_3.
Proof.
  eapply rtc_l; [eapply (st_allocate_ip _ _ "a" "tap" (Some "172.16.0.2") []), surjective_pairing|].
  eapply rtc_l; [eapply (st_allocate_ip _ _ "b" "tap" (Some "172.16.0.3") []), surjective_pairing|].
  eapply rtc_once. eapply (st_allocate_ip _ _ "b" "tap" (Some "172.16.0.4") []), surjective_pairing.
Qed.

Lemma manager_invariant_witness :
  dget "a" (m_ip_leases demo_3.1) = Some ("172.16.0.2", "tap")
  ∧ dget "b" (m_ip_leases demo_3.1) = Some ("172.16.0.4", "tap")
  ∧ (demo_alloc "b" "172.16.0.3" demo_1).2
    = Raise (NetworkError "Requested IP address 172.16.0.3 is not available")
  ∧ (∀ k vm1 vm2 v, held demo_3.1 k vm1 = Some v → held demo_3.1 k vm2 = Some v → vm1 = vm2).
Proof.
  split_and!; [vm_compute; reflexivity..|].
  exact (proj1 (manager_invariant true (λ _, None) _ _ demo_reachable)).
Defined.

(** What reconciliation looks for, in the words of the code's comment: a
    running or paused computer whose pid is no process. *)
Definition dead_process (kill : Z → kill_result) (i : VMInfo) : Prop :=
  (status i = RUNNING ∨ status i = PAUSED) ∧
  (pid i = None ∨ ∃ p, pid i = Some p ∧ ((p ≤ 0)%Z ∨ kill p = Kill_ProcessLookupError)).

Lemma is_stale_dead kill i : is_stale kill i = true ↔ dead_process kill i.
Proof.
  unfold is_stale, dead_process. rewrite andb_true_iff. split.
  - intros [Hl Hp]. split; [by destruct (status i); auto|].
    destruct (pid i) as [p|]; [|by left]. right. exists p. split; [done|].
    apply orb_true_iff in Hp as [Hp%Z.leb_le|Hp]; [by left|right]. by destruct (kill p).
  - intros [Hl Hp]. split; [by destruct Hl as [-> | ->]|].
    destruct Hp as [->|(p & -> & [Hp| ->])]; [done| |by rewrite orb_true_r].
    by rewrite (proj2 (Z.leb_le _ _) Hp).
Qed.

(** Reconciliation rewrites the inventory entry by entry: an entry whose
    status is running or paused and whose pid is missing, non-positive or gone
    becomes an error entry without pid; every other entry is unchanged; order
    and identifiers are kept, nothing but the inventory changes, and exactly
    the changed computers are returned, in inventory order. *)
Theorem reconcile_exact fc kill s :
  good fc s →
  ∃ vms stale, reconcile kill s = (upd (set_vms vms) s, Ret stale)
    ∧ dkeys vms = dkeys (m_vms s.1)
    ∧ sublist stale (dkeys vms)
    ∧ ∀ vm i, dget vm (m_vms s.1) = Some i →
        (dead_process kill i ∧ vm ∈ stale
          ∧ dget vm vms = Some (vi_set_pid None (vi_set_status ERROR i)))
        ∨ (¬ dead_process kill i ∧ vm ∉ stale ∧ dget vm vms = Some i).
Proof.
  intros Hg. eexists _, _. split; [by apply (reconcile_eq fc)|].
  pose proof (data_vm_keys _ (good_data _ _ Hg)) as Hok.
  rewrite dkeys_fmap. split_and!; [done| |].
  - apply fmap_sublist, sublist_filter.
  - intros vm i Hi. rewrite stale_elem, dget_fmap, Hi by done. unfold reconciled. simpl.
    rewrite <-is_stale_dead. destruct (is_stale kill i) eqn:E; [left|right].
    + split_and!; [done|by exists i|done].
    + split_and!; [done| |done]. intros (i' & Hi' & E'). congruence.
Qed.

Lemma reconcile_exact_witness :
  let dead := vi_set_pid (Some 7%Z)
                (vi_set_status RUNNING (vi_new "a" CREATED (VMConfig_defaults "a"))) in
  let s : MS := (set_vms [("a", dead)] mem_init, ∅) in
  dget "a" (m_vms (reconcile (λ _, Kill_ProcessLookupError) s).1.1) = Some (mark_error dead)
  ∧ dead_process (λ _, Kill_ProcessLookupError) dead.
Proof.
  cbv zeta.
  destruct (reconcile_exact true (λ _, Kill_ProcessLookupError)
    (set_vms [("a", vi_set_pid (Some 7%Z)
                (vi_set_status RUNNING (vi_new "a" CREATED (VMConfig_defaults "a"))))] mem_init, ∅))
    as (vms & stale & -> & _ & _ & Hall).
  - destruct (mem_init_good true ∅) as [Hr Hd HL].
    split; [exact (same_res_wf _ _ _ (same_res_vms _ _) Hr)| |exact HL].
    apply data_wf_vms; [exact Hd| |].
    + unfold keys_ok. simpl. apply NoDup_singleton.
    + intros vm i. simpl. case_decide; intros; by simplify_eq.
  - destruct (Hall "a" _ eq_refl) as [(Hdead & _ & E)|(Hlive & _)]; [by split|].
    destruct Hlive. split; [by left|]. right. eauto.
Defined.

(** ** What the allocators return *)

Section allocation.
Context (fc : bool) (open_error : string → option exn).
Hypothesis lock_files_open : ∀ name, open_error name = None.

Definition lock_free (k : kind) (v : string) (L : gset string) : bool :=
  negb fc || negb (bool_decide (lock_name k v ∈ L)).

(** An address the loop may hand out: not leased here, a pool address whose
    TAP name is no host interface, and not locked by another process. *)
Definition ip_available (used ifs : list string) (L : gset string) (ip : string) : bool :=
  negb (bool_decide (ip ∈ used))
  && match ip_to_pool_index ip with
     | Ret i => negb (bool_decide ("tap" +:+ dec i ∈ ifs))
     | Raise _ => false
     end
  && lock_free K_ip ip L.

Lemma try_claim_total k vm v m L :
  dmem (k, vm) (m_claims m) = false →
  _try_claim fc open_error k vm v (m, L)
  = if lock_free k v L then ((claimed fc k vm v m, claimed_locks fc k v L), Ret true)
    else ((m, L), Ret false).
Proof using lock_files_open.
  intros Hm. unfold _try_claim, lock_free, claimed, claimed_locks. simpl. rewrite Hm.
  destruct fc; simpl; [|done]. rewrite lock_files_open. by case_bool_decide.
Qed.

Lemma ip_loop_find vm tap used ifs cands m L :
  dmem (K_ip, vm) (m_claims m) = false →
  ip_loop fc open_error vm tap used ifs cands (m, L)
  = match List.find (ip_available used ifs L) cands with
    | Some ip => ((set_ip_leases (dset vm (ip, tap) (m_ip_leases m)) (claimed fc K_ip vm ip m),
                   claimed_locks fc K_ip ip L), Ret (Some ip))
    | None => ((m, L), Ret None)
    end.
Proof using lock_files_open.
  intros Hm. induction cands as [|ip cands IH]; simpl; [done|].
  unfold ip_available at 1. case_bool_decide; simpl; [done|].
  destruct (ip_to_pool_index ip); simpl; [|done]. case_bool_decide; simpl; [done|].
  rewrite try_claim_total by done. destruct (lock_free K_ip ip L); [|done].
  destruct (claimed_keys fc K_ip vm ip m) as (H1 & _). unfold upd. simpl. by rewrite H1.
Qed.
End allocation.

(** Without a request, [allocate_ip] gives a computer that has no lease
    the lowest address of the pool that is neither leased, nor bound to a host
    interface, nor locked by another process, and records the lease; it
    raises, changing nothing, exactly when the pool has no such address. *)
Theorem allocate_ip_lowest fc open_error vm tap ifs m L :
  (∀ name, open_error name = None) → res_wf fc m → dget vm (m_ip_leases m) = None →
  let free i := ip_available fc ((dvalues (m_ip_leases m)).*1) ifs L (ip_text i) in
  let r := allocate_ip fc open_error vm tap None ifs (m, L) in
  (∃ i, (IP_POOL_START ≤ i ≤ IP_POOL_END)%Z ∧ free i = true
      ∧ (∀ j, (IP_POOL_START ≤ j < i)%Z → free j = false)
      ∧ r.2 = Ret (ip_text i) ∧ get_ip_lease vm r.1 = Some (ip_text i, tap)
      ∧ r.1.2 = claimed_locks fc K_ip (ip_text i) L)
  ∨ ((∀ i, (IP_POOL_START ≤ i ≤ IP_POOL_END)%Z → free i = false)
      ∧ r = ((m, L), Raise (NetworkError "No IP addresses available in pool"))).
Proof.
  intros Hopen Hwf Hnone. cbv zeta. unfold allocate_ip. cbn [fst]. rewrite Hnone.
  rewrite ip_loop_find; [|done|].
  2: { unfold dmem. rewrite (res_claims _ _ Hwf). simpl. rewrite Hnone. by destruct fc. }
  unfold ip_candidates. rewrite zrange_nat by done.
  set (p := ip_available _ _ _ _).
  destruct (find_zrange p ip_text IP_POOL_START (Z.to_nat (IP_POOL_END + 1 - IP_POOL_START)))
    as [[Hno ->]|(i & Hi & Hp & Hlow & ->)].
  - right. split; [|done]. intros i Hi. apply Hno. unfold IP_POOL_START, IP_POOL_END in *. lia.
  - left. exists i. split_and!; try done.
    + unfold IP_POOL_START in *. lia.
    + unfold IP_POOL_START, IP_POOL_END in *. lia.
    + unfold get_ip_lease. simpl. apply dget_dset_eq.
Qed.

Lemma allocate_ip_lowest_witness :
  (allocate_ip true (λ _, None) "a" "tap3" None [] (mem_init, {["ip-172.16.0.2.lock"]})).2
  = Ret "172.16.0.3".
Proof.
  destruct (allocate_ip_lowest true (λ _, None) "a" "tap3" [] mem_init {["ip-172.16.0.2.lock"]})
    as [(i & Hi & Hfree & Hlow & Hr & _)|[Hno _]]; [done|apply (mem_init_good true ∅)|done| |].
  - destruct (decide (i = 2%Z)) as [->|]; [by vm_compute in Hfree|].
    destruct (decide (i = 3%Z)) as [->|]; [exact Hr|].
    assert (IP_POOL_START ≤ 3 < i)%Z as H3 by (unfold IP_POOL_START in *; lia).
    specialize (Hlow 3%Z H3). by vm_compute in Hlow.
  - assert (IP_POOL_START ≤ 3 ≤ IP_POOL_END)%Z as H3 by (unfold IP_POOL_START, IP_POOL_END; lia).
    specialize (Hno 3%Z H3). by vm_compute in Hno.
Defined.

(** The integer pools, with the same loop. *)
Lemma int_loop_find fc open_error k store vm used cands m L :
  (∀ name, open_error name = None) → dmem (k, vm) (m_claims m) = false →
  int_loop fc open_error k store vm used cands (m, L)
  = match List.find (λ c, negb (bool_decide (c ∈ used)) && lock_free fc k (dec c) L) cands with
    | Some c => ((store c (claimed fc k vm (dec c) m), claimed_locks fc k (dec c) L), Ret (Some c))
    | None => ((m, L), Ret None)
    end.
Proof.
  intros Hopen Hm. induction cands as [|c cands IH]; simpl; [done|].
  case_bool_decide; simpl; [done|].
  rewrite try_claim_total by done. by destruct (lock_free fc k (dec c) L).
Qed.

Lemma reserve_ssh_port_eq fc open_error vm gp ex m L :
  (∀ name, open_error name = None) → res_wf fc m → dget vm (m_ssh_ports m) = None →
  let used := dvalues (m_ssh_ports m) ++ default [] ex in
  reserve_ssh_port fc open_error vm gp None ex (m, L)
  = match List.find (λ c, negb (bool_decide (c ∈ used)) && lock_free fc K_ssh (dec c) L)
            (id <$> zrange SSH_PORT_START SSH_PORT_END) with
    | Some c => ((set_port vm c (claimed fc K_ssh vm (dec c) m),
                  claimed_locks fc K_ssh (dec c) L), Ret c)
    | None => ((m, L), Raise (NetworkError "No SSH host ports available in pool"))
    end.
Proof.
  intros Hopen Hwf Hnone used. unfold reserve_ssh_port. cbn [fst]. rewrite Hnone.
  rewrite int_loop_find; [|done|].
  2: { unfold dmem. rewrite (res_claims _ _ Hwf). simpl. rewrite Hnone. by destruct fc. }
  rewrite list_fmap_id. by destruct (List.find _ _).
Qed.

(** [reserve_ssh_port] without a request returns the lowest port from 2200
    up that is not leased, not excluded and not locked by another process, and
    raises, changing nothing, exactly when there is none; a port outside
    1..65535 is rejected before anything is looked up, and a computer that has
    a port gets it back. *)
Theorem reserve_ssh_port_lowest fc open_error vm gp ex m L :
  (∀ name, open_error name = None) → res_wf fc m → dget vm (m_ssh_ports m) = None →
  let free c := negb (bool_decide (c ∈ dvalues (m_ssh_ports m) ++ default [] ex))
                && lock_free fc K_ssh (dec c) L in
  let r := reserve_ssh_port fc open_error vm gp None ex (m, L) in
  ((∃ c, (SSH_PORT_START ≤ c ≤ SSH_PORT_END)%Z ∧ free c = true
      ∧ (∀ j, (SSH_PORT_START ≤ j < c)%Z → free j = false)
      ∧ r.2 = Ret c ∧ get_ssh_port vm r.1 = Some c
      ∧ (reserve_ssh_port fc open_error vm gp None ex r.1).2 = Ret c)
   ∨ ((∀ c, (SSH_PORT_START ≤ c ≤ SSH_PORT_END)%Z → free c = false)
      ∧ r = ((m, L), Raise (NetworkError "No SSH host ports available in pool"))))
  ∧ (∀ p s, ¬ (1 ≤ p ≤ 65535)%Z →
       reserve_ssh_port fc open_error vm gp (Some p) ex s
       = (s, Raise (ValueError "host_port must be 1-65535"))).
Proof.
  intros Hopen Hwf Hnone. cbv zeta. split.
  2: { intros p s Hp. unfold reserve_ssh_port.
       destruct (Z.ltb_spec p 1), (Z.ltb_spec 65535 p); simpl; try done; lia. }
  rewrite reserve_ssh_port_eq by done. rewrite zrange_nat by done.
  set (p := λ c, negb _ && _).
  destruct (find_zrange p id SSH_PORT_START (Z.to_nat (SSH_PORT_END + 1 - SSH_PORT_START)))
    as [[Hno ->]|(i & Hi & Hp & Hlow & ->)].
  - right. split; [|done]. intros i Hi. apply Hno. unfold SSH_PORT_START, SSH_PORT_END in *. lia.
  - left. exists i. cbn [fst snd id].
    split_and!; [unfold SSH_PORT_START in *; lia|unfold SSH_PORT_START, SSH_PORT_END in *; lia
      |exact Hp|exact Hlow|reflexivity| |].
    + unfold get_ssh_port. apply dget_dset_eq.
    + unfold reserve_ssh_port. cbn [fst set_port set_ssh_ports m_ssh_ports].
      by rewrite dget_dset_eq.
Qed.

Lemma reserve_ssh_port_lowest_witness :
  (reserve_ssh_port true (λ _, None) "a" 22 None (Some [2200%Z]) (mem_init, ∅)).2 = Ret 2201%Z.
Proof.
  destruct (reserve_ssh_port_lowest true (λ _, None) "a" 22 (Some [2200%Z]) mem_init ∅)
    as [[(c & Hc & Hfree & Hlow & Hr & _)|[Hno _]] _]; [done|apply (mem_init_good true ∅)|done| |].
  - destruct (decide (c = 2200%Z)) as [->|]; [by vm_compute in Hfree|].
    destruct (decide (c = 2201%Z)) as [->|]; [exact Hr|].
    assert (SSH_PORT_START ≤ 2201 < c)%Z as H3 by (unfold SSH_PORT_START in *; lia).
    specialize (Hlow 2201%Z H3). by vm_compute in Hlow.
  - assert (SSH_PORT_START ≤ 2201 ≤ SSH_PORT_END)%Z as H3
      by (unfold SSH_PORT_START, SSH_PORT_END; lia).
    specialize (Hno 2201%Z H3). by vm_compute in Hno.
Defined.

(** * Managers of several processes sharing one data directory

    Each process has its own [MemoryStateManager]; the lock files are common.
    A machine step is one operation of one process, the start of a process, or
    the end of one (the kernel then closes its files, which drops its locks).
    [machine_wf] (the claims of two processes are disjoint sets of held locks)
    is preserved by every step, and so no two computers of the machine ever
    share a resource. *)
Record machine := { procs : gmap nat MemState; mlocks : gset string }.

Definition claim_names (m : MemState) : gset string := list_to_set (dvalues (m_claims m)).

Section machine.
Context (open_error : string → option exn).

Inductive machine_step : machine → machine → Prop :=
| mc_spawn p mc :
    procs mc !! p = None →
    machine_step mc {| procs := <[p := mem_init]> (procs mc); mlocks := mlocks mc |}
| mc_op p mc m m' L' :
    procs mc !! p = Some m → mstep true open_error (m, mlocks mc) (m', L') →
    machine_step mc {| procs := <[p := m']> (procs mc); mlocks := L' |}
| mc_exit p mc m :
    procs mc !! p = Some m →
    machine_step mc {| procs := delete p (procs mc); mlocks := mlocks mc ∖ claim_names m |}.

Record machine_wf (mc : machine) : Prop := {
  mw_good : ∀ p m, procs mc !! p = Some m → good true (m, mlocks mc);
  mw_disjoint : ∀ p1 p2 m1 m2 k1 k2 name,
    procs mc !! p1 = Some m1 → procs mc !! p2 = Some m2 →
    dget k1 (m_claims m1) = Some name → dget k2 (m_claims m2) = Some name → p1 = p2 }.

Lemma claim_names_elem m name :
  keys_ok (m_claims m) → name ∈ claim_names m ↔ ∃ key, dget key (m_claims m) = Some name.
Proof. intros Hk. unfold claim_names. rewrite elem_of_list_to_set. by apply dvalues_elem. Qed.

(** A process whose claims do not meet the released locks keeps them. *)
Lemma good_locks_other m L L' :
  good true (m, L) → (∀ key name, dget key (m_claims m) = Some name → name ∈ L') →
  good true (m, L').
Proof. intros [] ?. by split. Qed.

Lemma spawn_wf p mc :
  procs mc !! p = None → machine_wf mc →
  machine_wf {| procs := <[p := mem_init]> (procs mc); mlocks := mlocks mc |}.
Proof.
  intros Hp [Hg Hd]. split; simpl.
  - intros p' m. rewrite lookup_insert. case_decide; [|apply Hg].
    intros ?; simplify_eq. apply mem_init_good.
  - intros p1 p2 m1 m2 k1 k2 name. rewrite !lookup_insert.
    repeat case_decide; intros; simplify_eq/=; eauto.
Qed.

Lemma op_wf p mc m m' L' :
  procs mc !! p = Some m → op_ok true (m, mlocks mc) (m', L') → machine_wf mc →
  machine_wf {| procs := <[p := m']> (procs mc); mlocks := L' |}.
Proof.
  intros Hp [Hg' [Hheld Hnew Hgone]] [Hg Hd]. simpl in *.
  assert (∀ p2 m2 k2 k1 name, p2 ≠ p → procs mc !! p2 = Some m2 →
            dget k2 (m_claims m2) = Some name → dget k1 (m_claims m') = Some name → False) as Hx.
  { intros p2 m2 k2 k1 name Hne Hm2 Hk2 Hk1. destruct (Hnew _ _ Hk1) as [[k' Hk']|Hout].
    - apply Hne. eauto.
    - apply Hout. by eapply (good_locks _ _ (Hg _ _ Hm2)). }
  split; simpl.
  - intros p2 m2. rewrite lookup_insert. case_decide as Heq; [by intros; simplify_eq|].
    intros Hm2. eapply good_locks_other; [by eapply Hg|]. intros key name Hk.
    destruct (decide (name ∈ L')) as [|Hout]; [done|]. exfalso.
    destruct (Hgone name) as [key' Hk']; [by eapply (good_locks _ _ (Hg _ _ Hm2))|done|].
    apply Heq. eauto.
  - intros p1 p2 m1 m2 k1 k2 name. rewrite !lookup_insert.
    repeat case_decide; intros; simplify_eq; eauto; exfalso; eauto.
Qed.

Lemma exit_wf p mc m :
  procs mc !! p = Some m → machine_wf mc →
  machine_wf {| procs := delete p (procs mc); mlocks := mlocks mc ∖ claim_names m |}.
Proof.
  intros Hp [Hg Hd]. split; simpl.
  - intros p2 m2. rewrite lookup_delete. case_decide as Heq; [done|]. intros Hm2.
    eapply good_locks_other; [by eapply Hg|]. intros key name Hk.
    apply elem_of_difference. split; [by eapply (good_locks _ _ (Hg _ _ Hm2))|].
    rewrite claim_names_elem by apply (res_keys _ _ (good_res _ _ (Hg _ _ Hp))).
    intros [key' Hk']. apply Heq. eauto.
  - intros p1 p2 m1 m2 k1 k2 name. rewrite !lookup_delete.
    repeat case_decide; try done. eauto.
Qed.

Lemma machine_step_wf mc mc' : machine_wf mc → machine_step mc mc' → machine_wf mc'.
Proof.
  intros Hwf Hst. revert Hwf. destruct Hst as [p mc Hp|p mc m m' L' Hp Hst|p mc m Hp]; intros Hwf.
  - by apply spawn_wf.
  - apply op_wf with m; [done| |done]. eapply mstep_ok; [by apply (mw_good _ Hwf p)|done].
  - by apply exit_wf.
Qed.

Lemma machine_steps_wf mc mc' : machine_wf mc → rtc machine_step mc mc' → machine_wf mc'.
Proof. intros Hwf Hst. induction Hst; [done|]. eauto using machine_step_wf. Qed.

Lemma machine_init_wf L : machine_wf {| procs := ∅; mlocks := L |}.
Proof. split; simpl; intros *; rewrite lookup_empty; done. Qed.

(** Exclusion, from the invariant. *)
Lemma machine_exclusive mc p1 p2 m1 m2 k vm1 vm2 v :
  machine_wf mc → procs mc !! p1 = Some m1 → procs mc !! p2 = Some m2 →
  held m1 k vm1 = Some v → held m2 k vm2 = Some v → p1 = p2 ∧ vm1 = vm2.
Proof.
  intros [Hg Hd] Hp1 Hp2 H1 H2.
  assert (res_wf true m1) as R1 by exact (good_res _ _ (Hg _ _ Hp1)).
  assert (res_wf true m2) as R2 by exact (good_res _ _ (Hg _ _ Hp2)).
  assert (p1 = p2) as <-.
  { eapply (Hd p1 p2 m1 m2 (k, vm1) (k, vm2) (lock_name k v)); try done.
    - by rewrite (res_claims _ _ R1), H1.
    - by rewrite (res_claims _ _ R2), H2. }
  simplify_eq. split; [done|]. by eapply (res_unique _ _ R1).
Qed.
End machine.

(** C2: On a machine where every process serializes its claims through the
    lock files, starting with no process and any stale lock files held by
    others, no reachable state has one IP address, SSH port, vsock CID or TAP
    name held by two computers, whichever processes manage them. *)
Theorem cross_process_exclusion open_error L mc p1 p2 m1 m2 k vm1 vm2 v :
  rtc (machine_step open_error) {| procs := ∅; mlocks := L |} mc →
  procs mc !! p1 = Some m1 → procs mc !! p2 = Some m2 →
  held m1 k vm1 = Some v → held m2 k vm2 = Some v → p1 = p2 ∧ vm1 = vm2.
Proof. intros Hst. eapply machine_exclusive, machine_steps_wf; eauto using machine_init_wf. Qed.


(** Two processes on one machine: the second is refused the first one's port
    and then takes another. *)
Definition ask (vm : string) (port : Z) : MS → MS * outcome Z :=
  reserve_ssh_port true (λ _, None) vm 22 (Some port) None.
Definition mc0 : machine := {| procs := ∅; mlocks := ∅ |}.
Definition mc1 : machine := {| procs := <[0 := mem_init]> (procs mc0); mlocks := mlocks mc0 |}.
Definition mc2 : machine := {| procs := <[1 := mem_init]> (procs mc1); mlocks := mlocks mc1 |}.
Definition s3 : MS := (ask "a" 2200 (mem_init, mlocks mc2)).1.
Definition mc3 : machine := {| procs := <[0 := s3.1]> (procs mc2); mlocks := s3.2 |}.
Definition s4 : MS := (ask "b" 2200 (mem_init, mlocks mc3)).1.
Definition mc4 : machine := {| procs := <[1 := s4.1]> (procs mc3); mlocks := s4.2 |}.
Definition s5 : MS := (ask "b" 2201 (s4.1, mlocks mc4)).1.
Definition two_procs : machine := {| procs := <[1 := s5.1]> (procs mc4); mlocks := s5.2 |}.

Lemma ask_step vm port s : mstep true (λ _, None) s ((ask vm port s).1.1, (ask vm port s).1.2).
Proof.
  destruct (ask vm port s) as [[m L] r] eqn:E. simpl.
  by eapply (st_reserve_ssh_port _ _ vm 22 (Some port) None).
Qed.

Lemma two_procs_reachable : rtc (machine_step (λ _, None)) mc0 two_procs.
Proof.
  apply (rtc_l _ mc0 mc1); [by apply (mc_spawn _ 0 mc0)|].
  apply (rtc_l _ mc1 mc2); [by apply (mc_spawn _ 1 mc1)|].
  apply (rtc_l _ mc2 mc3); [apply (mc_op _ 0 mc2 mem_init); [done|apply ask_step]|].
  apply (rtc_l _ mc3 mc4); [apply (mc_op _ 1 mc3 mem_init); [done|apply ask_step]|].
  apply (rtc_l _ mc4 two_procs); [apply (mc_op _ 1 mc4 s4.1); [done|apply ask_step]|].
  apply rtc_refl.
Qed.

Lemma cross_process_exclusion_witness :
  procs two_procs !! 0 = Some s3.1 ∧ held s3.1 K_ssh "a" = Some "2200"
  ∧ procs two_procs !! 1 = Some s5.1 ∧ held s5.1 K_ssh "b" = Some "2201"
  ∧ (∀ p m vm, procs two_procs !! p = Some m → held m K_ssh vm = Some "2200" → p = 0 ∧ vm = "a").
Proof.
  assert (procs two_procs !! 0 = Some s3.1) as H0 by reflexivity.
  assert (held s3.1 K_ssh "a" = Some "2200") as Ha by (vm_compute; reflexivity).
  split_and!; [done|done|reflexivity|vm_compute; reflexivity|].
  intros p m vm Hp Hh.
  exact (cross_process_exclusion (λ _, None) ∅ two_procs p 0 m s3.1 K_ssh vm "a" "2200"
           two_procs_reachable Hp H0 Hh Ha).
Defined.
