(* ===== verification/SqliteState.v ===== *)
(** * cli/_sqlite.py: the database-backed state manager

    [SQLiteStateManager] keeps seven tables.  A table is the list of its rows
    in rowid order, keyed by its PRIMARY KEY; [insert] checks the PRIMARY KEY,
    UNIQUE and FOREIGN KEY constraints of [_init_schema] and raises
    [IntegrityError] as SQLite does; deleting a computer cascades.  Every
    block of statements runs in a [_get_connection] transaction, which is
    rolled back when its body or its commit raises; what the file system and
    SQLite answer on a connection is an argument of the operation (a [conn]).
    The calls that update a row and read it back use two connections, one
    after the other.  JSON columns go through Pydantic ([model_dump_json] and
    [model_validate_json]), a third-party library: a [codec] is an argument of
    the model.  [now] is the clock reading of the call. *)
From S2P Require Import Prelude PyDict PyStr StorageBase Types MemoryState.
From stdpp Require Import options.

(** ** Pydantic models as JSON text *)
Record codec (A : Type) := {
  dump : A → string;
  load : string → outcome A }.
Arguments dump {A}.
Arguments load {A}.

(** What the code relies on: the text of a valid instance is not empty and
    validates back to the instance. *)
Definition codec_ok {A} (c : codec A) (valid : A → Prop) : Prop :=
  ∀ a, valid a → load c (dump c a) = Ret a ∧ dump c a ≠ "".

Record codecs := {
  j_config : codec VMConfig;
  j_network : codec NetworkConfig;
  j_display : codec DesktopEndpoint;
  j_artifacts : codec SnapshotArtifacts;
  j_browser : codec BrowserSessionConfig }.

(** ** Tables *)
Record vm_row := {
  r_status : string;
  r_config : string;
  r_network : option string;
  r_pid : option Z;
  r_socket_path : option string;
  r_display : option string;
  r_created_at : string;
  r_updated_at : string }.
Record lease_row := { l_vm_id : string; l_tap_device : string; l_created_at : string }.
Record forward_row := { f_host_port : Z; f_guest_port : Z; f_created_at : string }.
Record cid_row := { c_guest_cid : Z; c_created_at : string }.
Record tap_row := {
  t_tap_device : string; t_mode : string; t_bridge_name : option string; t_created_at : string }.
Record browser_row := {
  w_vm_id : string;
  w_config : string;
  w_status : string;
  w_cdp_url : option string;
  w_live_url : option string;
  w_vnc_url : option string;
  w_debug_port : option Z;
  w_vnc_port : option Z;
  w_profile_id : option string;
  w_expires_at : option string;
  w_artifacts_dir : option string;
  w_created_at : string;
  w_updated_at : string }.
Record snapshot_row := {
  s_vm_id : string;
  s_snapshot_path : string;
  s_mem_file_path : string;
  s_disk_path : string;
  s_backend : option string;
  s_artifacts : option string;
  s_vm_config : string;
  s_network_config : string;
  s_created_at : string;
  s_snapshot_type : option string;
  s_artifact_kind : option string;
  s_virtual_size_bytes : option Z;
  s_changed_bytes : option Z;
  s_bitmap_granularity_bytes : option Z;
  s_bitmap_name : option string;
  s_restored : Z;
  s_restored_vm_id : option string }.

Record DB := {
  t_vms : dict string vm_row;
  t_ip_leases : dict string lease_row;
  t_ssh_forwards : dict string forward_row;
  t_vsock_cids : dict string cid_row;
  t_tap_allocations : dict string tap_row;
  t_browser_sessions : dict string browser_row;
  t_snapshots : dict string snapshot_row }.

Definition db_init : DB :=
  {| t_vms := []; t_ip_leases := []; t_ssh_forwards := []; t_vsock_cids := [];
     t_tap_allocations := []; t_browser_sessions := []; t_snapshots := [] |}.

Definition with_vms x (d : DB) : DB :=
  {| t_vms := x; t_ip_leases := t_ip_leases d; t_ssh_forwards := t_ssh_forwards d;
     t_vsock_cids := t_vsock_cids d; t_tap_allocations := t_tap_allocations d;
     t_browser_sessions := t_browser_sessions d; t_snapshots := t_snapshots d |}.
Definition with_leases x (d : DB) : DB :=
  {| t_vms := t_vms d; t_ip_leases := x; t_ssh_forwards := t_ssh_forwards d;
     t_vsock_cids := t_vsock_cids d; t_tap_allocations := t_tap_allocations d;
     t_browser_sessions := t_browser_sessions d; t_snapshots := t_snapshots d |}.
Definition with_forwards x (d : DB) : DB :=
  {| t_vms := t_vms d; t_ip_leases := t_ip_leases d; t_ssh_forwards := x;
     t_vsock_cids := t_vsock_cids d; t_tap_allocations := t_tap_allocations d;
     t_browser_sessions := t_browser_sessions d; t_snapshots := t_snapshots d |}.
Definition with_cids x (d : DB) : DB :=
  {| t_vms := t_vms d; t_ip_leases := t_ip_leases d; t_ssh_forwards := t_ssh_forwards d;
     t_vsock_cids := x; t_tap_allocations := t_tap_allocations d;
     t_browser_sessions := t_browser_sessions d; t_snapshots := t_snapshots d |}.
Definition with_taps x (d : DB) : DB :=
  {| t_vms := t_vms d; t_ip_leases := t_ip_leases d; t_ssh_forwards := t_ssh_forwards d;
     t_vsock_cids := t_vsock_cids d; t_tap_allocations := x;
     t_browser_sessions := t_browser_sessions d; t_snapshots := t_snapshots d |}.
Definition with_sessions x (d : DB) : DB :=
  {| t_vms := t_vms d; t_ip_leases := t_ip_leases d; t_ssh_forwards := t_ssh_forwards d;
     t_vsock_cids := t_vsock_cids d; t_tap_allocations := t_tap_allocations d;
     t_browser_sessions := x; t_snapshots := t_snapshots d |}.
Definition with_snapshots x (d : DB) : DB :=
  {| t_vms := t_vms d; t_ip_leases := t_ip_leases d; t_ssh_forwards := t_ssh_forwards d;
     t_vsock_cids := t_vsock_cids d; t_tap_allocations := t_tap_allocations d;
     t_browser_sessions := t_browser_sessions d; t_snapshots := x |}.

(** ** Statements *)

(** A row of a table with key [k] whose [f] column equals [v]. *)
Definition where_row {R B} `{EqDecision B} (f : R → B) (v : B) (t : list (string * R))
    : option (string * R) := list_find (λ kr, f kr.2 = v) t ≫= λ ikr, Some ikr.2.
Definition delete_where {R B} `{EqDecision B} (f : R → B) (v : B) (t : list (string * R))
    : list (string * R) := filter (λ kr, f kr.2 ≠ v) t.
(** The rows of a table whose UNIQUE column [f] holds [v]. *)
Definition column_has {R B} `{EqDecision B} (f : R → B) (v : B) (t : list (string * R)) : bool :=
  is_some (where_row f v t).

Definition unique_error (column : string) : exn :=
  IntegrityError ("UNIQUE constraint failed: " +:+ column).
Definition foreign_key_error : exn := IntegrityError "FOREIGN KEY constraint failed".

(** [INSERT INTO ...] for each table. *)
Definition insert_vm (id : string) (r : vm_row) : py DB unit := λ d,
  if dmem id (t_vms d) then (d, Raise (unique_error "vms.id"))
  else (with_vms (dset id r (t_vms d)) d, Ret tt).
Definition insert_lease (ip : string) (r : lease_row) : py DB unit := λ d,
  if dmem ip (t_ip_leases d) then (d, Raise (unique_error "ip_leases.ip"))
  else if column_has l_vm_id (l_vm_id r) (t_ip_leases d)
  then (d, Raise (unique_error "ip_leases.vm_id"))
  else if negb (dmem (l_vm_id r) (t_vms d)) then (d, Raise foreign_key_error)
  else (with_leases (dset ip r (t_ip_leases d)) d, Ret tt).
Definition insert_forward (vm : string) (r : forward_row) : py DB unit := λ d,
  if dmem vm (t_ssh_forwards d) then (d, Raise (unique_error "ssh_forwards.vm_id"))
  else if column_has f_host_port (f_host_port r) (t_ssh_forwards d)
  then (d, Raise (unique_error "ssh_forwards.host_port"))
  else if negb (dmem vm (t_vms d)) then (d, Raise foreign_key_error)
  else (with_forwards (dset vm r (t_ssh_forwards d)) d, Ret tt).
Definition insert_cid (vm : string) (r : cid_row) : py DB unit := λ d,
  if dmem vm (t_vsock_cids d) then (d, Raise (unique_error "vsock_cids.vm_id"))
  else if column_has c_guest_cid (c_guest_cid r) (t_vsock_cids d)
  then (d, Raise (unique_error "vsock_cids.guest_cid"))
  else if negb (dmem vm (t_vms d)) then (d, Raise foreign_key_error)
  else (with_cids (dset vm r (t_vsock_cids d)) d, Ret tt).
Definition insert_tap (vm : string) (r : tap_row) : py DB unit := λ d,
  if dmem vm (t_tap_allocations d) then (d, Raise (unique_error "tap_allocations.vm_id"))
  else if column_has t_tap_device (t_tap_device r) (t_tap_allocations d)
  then (d, Raise (unique_error "tap_allocations.tap_device"))
  else if negb (dmem vm (t_vms d)) then (d, Raise foreign_key_error)
  else (with_taps (dset vm r (t_tap_allocations d)) d, Ret tt).
Definition insert_session (sid : string) (r : browser_row) : py DB unit := λ d,
  if dmem sid (t_browser_sessions d) then (d, Raise (unique_error "browser_sessions.session_id"))
  else if column_has w_vm_id (w_vm_id r) (t_browser_sessions d)
  then (d, Raise (unique_error "browser_sessions.vm_id"))
  else (with_sessions (dset sid r (t_browser_sessions d)) d, Ret tt).
Definition insert_snapshot (sid : string) (r : snapshot_row) : py DB unit := λ d,
  if dmem sid (t_snapshots d) then (d, Raise (unique_error "snapshots.snapshot_id"))
  else (with_snapshots (dset sid r (t_snapshots d)) d, Ret tt).

(** [DELETE FROM vms WHERE id = ?] with its ON DELETE CASCADE. *)
Definition delete_vm_rows (vm : string) (d : DB) : DB :=
  {| t_vms := ddel vm (t_vms d);
     t_ip_leases := delete_where l_vm_id vm (t_ip_leases d);
     t_ssh_forwards := ddel vm (t_ssh_forwards d);
     t_vsock_cids := ddel vm (t_vsock_cids d);
     t_tap_allocations := ddel vm (t_tap_allocations d);
     t_browser_sessions := t_browser_sessions d;
     t_snapshots := t_snapshots d |}.

(** [ORDER BY key]: text compared byte by byte, ties in the order in which the
    rows were visited. *)
Fixpoint order_insert {R} (key : R → string) (r : R) (rs : list R) : list R :=
  match rs with
  | [] => [r]
  | r' :: rs' =>
      if String.leb (key r) (key r') then r :: r' :: rs' else r' :: order_insert key r rs'
  end.
Definition order_by {R} (key : R → string) (rs : list R) : list R :=
  foldr (order_insert key) [] rs.

(** What happens on one connection: the exception, if any, of getting it ready
    ([_secure_inventory], [connect], the PRAGMAs, [BEGIN]), of a statement of
    the body, of [commit] and of [rollback]; and the order in which a SELECT
    without ORDER BY visits rows. *)
Record conn := {
  k_open : option exn;
  k_statement : option exn;
  k_commit : option exn;
  k_rollback : option exn;
  k_scan : ∀ R, list R → list R }.
Arguments k_scan _ {R}.

(** A transaction: committed when the body returns; rolled back when the body,
    one of its statements or the commit raises (a failing rollback raises in
    its place, and closing the connection drops the transaction). *)
Definition _get_connection {A} (K : conn) (body : py DB A) : py DB A := λ d,
  match k_open K with
  | Some e => (d, Raise e)
  | None =>
      let '(d', r) := match k_statement K with
                      | Some e => (d, Raise e)
                      | None => body d
                      end in
      let r := match r, k_commit K with Ret _, Some e => Raise e | _, _ => r end in
      match r with
      | Ret a => (d', Ret a)
      | Raise e => (d, Raise (default e (k_rollback K)))
      end
  end.

(** [fetchone] and [fetchall]: the rows are read in one transaction and the
    answer [k] is computed from them after it. *)
Definition fetching {A B} (K : conn) (query : DB → A) (k : A → py DB B) : py DB B :=
  py_bind (_get_connection K (λ d, (d, Ret (query d)))) k.

(** [if not s: raise ValueError("... cannot be empty")] before [k]. *)
Definition nonempty {A} (what s : string) (k : py DB A) : py DB A := λ d,
  if String.eqb s "" then (d, Raise (ValueError (what +:+ " cannot be empty"))) else k d.

Definition now_iso (now : datetime) : string := isoformat now.

Section manager.
Context (J : codecs).

Definition vm_config_from_json (raw : string) : outcome VMConfig := load (j_config J) raw.

(** [load(text) if text else None] *)
Definition load_optional {A} (c : codec A) (text : option string) : outcome (option A) :=
  match text with
  | None => Ret None
  | Some "" => Ret None
  | Some t => Some <$> load c t
  end.
(** [Path(text) if text else None] *)
Definition path_or_none (text : option string) : option path :=
  match text with Some "" => None | _ => text end.

(** [[read(row) for row in rows]] *)
Definition read_rows {R A} (read : string → R → outcome A) (rows : list (string * R))
    : outcome (list A) :=
  foldr (λ kr acc, i ← read kr.1 kr.2; infos ← acc; mret (i :: infos)) (Ret []) rows.

(** ** Computers *)
Definition vm_of_row (id : string) (r : vm_row) : outcome VMInfo :=
  config ← vm_config_from_json (r_config r);
  network ← load_optional (j_network J) (r_network r);
  display ← load_optional (j_display J) (r_display r);
  status ← VMState_of_value (r_status r);
  mret {| vi_vm_id := id; status := status; config := config; network := network;
          pid := r_pid r; control_socket_path := path_or_none (r_socket_path r);
          vsock_uds_path := None; display := display |}.

Definition create_vm (K : conn) (now : datetime) (c : VMConfig) : py DB VMInfo :=
  let now := now_iso now in
  do! _get_connection K (
    let! d := py_get in
    if dmem (vm_id c) (t_vms d) then py_raise (VMAlreadyExistsError (vm_id c))
    else insert_vm (vm_id c)
           {| r_status := VMState_value CREATED; r_config := dump (j_config J) c;
              r_network := None; r_pid := None; r_socket_path := None; r_display := None;
              r_created_at := now; r_updated_at := now |}) in
  py_return (vi_new (vm_id c) CREATED c).

Definition get_vm (K : conn) (vm : string) : py DB VMInfo :=
  nonempty "vm_id" vm (fetching K (λ d, dget vm (t_vms d)) (λ row,
    match row with
    | None => py_raise (VMNotFoundError vm)
    | Some r => py_lift (vm_of_row vm r)
    end)).

(** The columns the assembled [UPDATE vms SET ...] assigns. *)
Definition update_vm_row (now : string) (u : vm_update) (r : vm_row) : vm_row :=
  {| r_status := default (r_status r) (VMState_value <$> u_status u);
     r_config := default (r_config r) (dump (j_config J) <$> u_config u);
     r_network := set_or_clear (dump (j_network J) <$> u_network u) false (r_network r);
     r_pid := set_or_clear (u_pid u) (u_clear_pid u) (r_pid r);
     r_socket_path :=
       set_or_clear (u_control_socket_path u) (u_clear_socket_path u) (r_socket_path r);
     r_display := set_or_clear (dump (j_display J) <$> u_display u) (u_clear_display u)
                    (r_display r);
     r_created_at := r_created_at r; r_updated_at := now |}.

Definition update_vm (K K' : conn) (now : datetime) (vm : string) (u : vm_update) : py DB VMInfo :=
  nonempty "vm_id" vm (
    do! _get_connection K (λ d,
      match dget vm (t_vms d) with
      | None => (d, Raise (VMNotFoundError vm))
      | Some r => (with_vms (dset vm (update_vm_row (now_iso now) u r) (t_vms d)) d, Ret tt)
      end) in
    get_vm K' vm).

Definition delete_vm (K : conn) (vm : string) : py DB unit :=
  nonempty "vm_id" vm (_get_connection K (λ d,
    if negb (dmem vm (t_vms d)) then (d, Raise (VMNotFoundError vm))
    else (delete_vm_rows vm d, Ret tt))).

Definition list_vms (K : conn) (st : option VMState) : py DB (list VMInfo) :=
  fetching K (λ d,
    let rows := match st with
                | Some st => filter (λ kr, r_status kr.2 = VMState_value st) (t_vms d)
                | None => t_vms d
                end in
    order_by (λ kr, r_created_at kr.2) (k_scan K rows)) (λ rows,
    py_lift (read_rows vm_of_row rows)).

(** ** IP leases *)
Definition first_free {B} `{EqDecision B} (used : list B) (cands : list B) : option B :=
  List.find (λ c, negb (bool_decide (c ∈ used))) cands.

Definition allocate_ip (K : conn) (now : datetime) (vm tap : string) (requested : option string)
    : py DB string :=
  nonempty "vm_id" vm (nonempty "tap_device" tap (
    let now := now_iso now in
    let requested := if truthy_str requested then requested else None in
    let! found := _get_connection K (λ d,
      match where_row l_vm_id vm (t_ip_leases d) with
      | Some (existing_ip, _) =>
          match requested with
          | Some r =>
              if negb (String.eqb existing_ip r)
              then (d, Raise (NetworkError ("Computer " +:+ vm +:+ " already has IP "
                                +:+ existing_ip +:+ ", cannot reserve " +:+ r)))
              else (d, Ret (Some existing_ip))
          | None => (d, Ret (Some existing_ip))
          end
      | None =>
          let cands := match requested with
                       | Some r => [r]
                       | None => ip_text <$> zrange IP_POOL_START IP_POOL_END
                       end in
          match first_free (dkeys (t_ip_leases d)) cands with
          | None => (d, Ret None)
          | Some ip =>
              (do! insert_lease ip {| l_vm_id := vm; l_tap_device := tap; l_created_at := now |} in
               py_return (Some ip)) d
          end
      end) in
    match found with
    | Some ip => py_return ip
    | None =>
        py_raise (NetworkError
          (match requested with
           | Some r => "Requested IP address " +:+ r +:+ " is not available"
           | None => "No IP addresses available in pool"
           end))
    end)).

Definition release_ip (K : conn) (vm : string) : py DB unit :=
  nonempty "vm_id" vm (_get_connection K (λ d,
    (with_leases (delete_where l_vm_id vm (t_ip_leases d)) d, Ret tt))).

Definition get_ip_lease (K : conn) (vm : string) : py DB (option (string * string)) :=
  nonempty "vm_id" vm (fetching K (λ d,
    (λ kr, (kr.1, l_tap_device kr.2)) <$> where_row l_vm_id vm (t_ip_leases d)) py_return).

Definition set_lease_tap (vm tap : string) (r : lease_row) : lease_row :=
  if decide (l_vm_id r = vm)
  then {| l_vm_id := l_vm_id r; l_tap_device := tap; l_created_at := l_created_at r |} else r.

Definition update_ip_lease_tap (K : conn) (vm tap : string) : py DB unit :=
  nonempty "vm_id" vm (nonempty "tap_device" tap (_get_connection K (λ d,
    (with_leases (prod_map id (set_lease_tap vm tap) <$> t_ip_leases d) d, Ret tt)))).

(** ** SSH ports *)
Definition reserve_ssh_port (K : conn) (now : datetime) (vm : string) (guest_port : Z)
    (host_port : option Z) (excluded : option (list Z)) : py DB Z :=
  nonempty "vm_id" vm (
    if (guest_port <? 1)%Z || (65535 <? guest_port)%Z
    then py_raise (ValueError "guest_port must be 1-65535")
    else if match host_port with Some p => (p <? 1)%Z || (65535 <? p)%Z | None => false end
    then py_raise (ValueError "host_port must be 1-65535")
    else
    let now := now_iso now in
    let! found := _get_connection K (λ d,
      match dget vm (t_ssh_forwards d) with
      | Some r =>
          let existing := f_host_port r in
          match host_port with
          | Some p =>
              if negb (existing =? p)%Z
              then (d, Raise (NetworkError ("Computer " +:+ vm +:+ " already has SSH host port "
                                +:+ dec existing +:+ ", cannot reserve " +:+ dec p)))
              else (d, Ret (Some existing))
          | None => (d, Ret (Some existing))
          end
      | None =>
          let used := (f_host_port <$> dvalues (t_ssh_forwards d)) ++ default [] excluded in
          let cands := match host_port with
                       | Some p => [p]
                       | None => zrange SSH_PORT_START SSH_PORT_END
                       end in
          match first_free used cands with
          | None => (d, Ret None)
          | Some p =>
              (do! insert_forward vm
                     {| f_host_port := p; f_guest_port := guest_port; f_created_at := now |} in
               py_return (Some p)) d
          end
      end) in
    match found with
    | Some p => py_return p
    | None =>
        py_raise (NetworkError
          (match host_port with
           | Some p => "Requested SSH host port " +:+ dec p +:+ " is not available"
           | None => "No SSH host ports available in pool"
           end))
    end).

Definition get_ssh_port (K : conn) (vm : string) : py DB (option Z) :=
  nonempty "vm_id" vm
    (fetching K (λ d, f_host_port <$> dget vm (t_ssh_forwards d)) py_return).

Definition release_ssh_port (K : conn) (vm : string) : py DB unit :=
  nonempty "vm_id" vm (_get_connection K (λ d,
    (with_forwards (ddel vm (t_ssh_forwards d)) d, Ret tt))).

(** ** vsock CIDs *)
Definition reserve_vsock_cid (K : conn) (now : datetime) (vm : string) (guest_cid : option Z) : py DB Z :=
  nonempty "vm_id" vm (
    if match guest_cid with
       | Some c => negb ((VSOCK_CID_START <=? c)%Z && (c <=? VSOCK_CID_END)%Z)
       | None => false
       end
    then py_raise (ValueError ("guest_cid must be between " +:+ dec VSOCK_CID_START +:+ " and "
                               +:+ dec VSOCK_CID_END))
    else
    let now := now_iso now in
    let! found := _get_connection K (λ d,
      match dget vm (t_vsock_cids d) with
      | Some r =>
          let existing := c_guest_cid r in
          match guest_cid with
          | Some c =>
              if negb (existing =? c)%Z
              then (d, Raise (NetworkError ("Computer " +:+ vm +:+ " already has vsock CID "
                                +:+ dec existing +:+ ", cannot reserve " +:+ dec c)))
              else (d, Ret (Some existing))
          | None => (d, Ret (Some existing))
          end
      | None =>
          let used := c_guest_cid <$> dvalues (t_vsock_cids d) in
          let cands := match guest_cid with
                       | Some c => [c]
                       | None => zrange VSOCK_CID_START VSOCK_CID_END
                       end in
          match first_free used cands with
          | None => (d, Ret None)
          | Some c =>
              (do! insert_cid vm {| c_guest_cid := c; c_created_at := now |} in
               py_return (Some c)) d
          end
      end) in
    match found with
    | Some c => py_return c
    | None =>
        py_raise (NetworkError
          (match guest_cid with
           | Some c => "Requested vsock CID " +:+ dec c +:+ " is not available"
           | None => "No vsock CIDs available in pool"
           end))
    end).

Definition get_vsock_cid (K : conn) (vm : string) : py DB (option Z) :=
  nonempty "vm_id" vm
    (fetching K (λ d, c_guest_cid <$> dget vm (t_vsock_cids d)) py_return).

Definition release_vsock_cid (K : conn) (vm : string) : py DB unit :=
  nonempty "vm_id" vm (_get_connection K (λ d,
    (with_cids (ddel vm (t_vsock_cids d)) d, Ret tt))).

(** ** TAP names.  [tokens i] is the [i]-th [secrets.token_hex(4)]. *)
Definition reserve_tap_name (K : conn) (now : datetime) (vm mode : string)
    (bridge requested : option string) (tokens : nat → string) : py DB string :=
  nonempty "vm_id" vm (
    if negb (String.eqb mode "nat" || String.eqb mode "bridge")
    then py_raise (ValueError ("mode must be 'nat' or 'bridge', got " +:+ repr mode))
    else
    let now := now_iso now in
    _get_connection K (λ d,
      match dget vm (t_tap_allocations d) with
      | Some r =>
          let existing := t_tap_device r in
          if negb (String.eqb (t_mode r) mode)
             || negb (bool_decide (t_bridge_name r = bridge))
             || match requested with Some q => negb (String.eqb q existing) | None => false end
          then (d, Raise (NetworkError
                 ("Computer '" +:+ vm +:+ "' already reserves TAP '" +:+ existing +:+ "' for "
                  +:+ t_mode r +:+ " networking; run 'celesto computer delete " +:+ vm
                  +:+ "' before changing its network attachment.")))
          else (d, Ret existing)
      | None =>
          let store name :=
            do! insert_tap vm {| t_tap_device := name; t_mode := mode;
                                 t_bridge_name := bridge; t_created_at := now |} in
            py_return name in
          if truthy_str requested then
            let name := default "" requested in
            if column_has t_tap_device name (t_tap_allocations d)
            then (d, Raise (NetworkError ("TAP device name '" +:+ name +:+ "' is already reserved")))
            else store name d
          else
            match tap_search tokens (t_tap_device <$> dvalues (t_tap_allocations d)) 0 100 with
            | None => (d, Raise (NetworkError "Could not find a free TAP device name"))
            | Some name => store name d
            end
      end)).

Definition get_tap_allocation (K : conn) (vm : string) : py DB (option (string * string * option string)) :=
  nonempty "vm_id" vm (fetching K (λ d,
    (λ r, (t_tap_device r, t_mode r, t_bridge_name r))
      <$> dget vm (t_tap_allocations d)) py_return).

Definition release_tap_name (K : conn) (vm : string) : py DB unit :=
  nonempty "vm_id" vm (_get_connection K (λ d,
    (with_taps (ddel vm (t_tap_allocations d)) d, Ret tt))).

(** ** Snapshots *)
Definition path_text (p : option path) : string := default "" p.

Definition snapshot_row_of (i : SnapshotInfo) : snapshot_row :=
  {| s_vm_id := si_vm_id i;
     s_snapshot_path := path_text (state_path (artifacts i));
     s_mem_file_path := path_text (memory_path (artifacts i));
     s_disk_path := disk_path (artifacts i);
     s_backend := Some (si_backend i);
     s_artifacts := Some (dump (j_artifacts J) (artifacts i));
     s_vm_config := dump (j_config J) (si_vm_config i);
     s_network_config := dump (j_network J) (si_network_config i);
     s_created_at := isoformat (created_at i);
     s_snapshot_type := Some (SnapshotType_value (snapshot_type i));
     s_artifact_kind := artifact_kind i;
     s_virtual_size_bytes := virtual_size_bytes i;
     s_changed_bytes := changed_bytes i;
     s_bitmap_granularity_bytes := bitmap_granularity_bytes i;
     s_bitmap_name := bitmap_name i;
     s_restored := if restored i then 1 else 0;
     s_restored_vm_id := restored_vm_id i |}.

(** [optional_int(name, positive=...)] on an INTEGER column *)
Definition optional_int (v : option Z) (positive : bool) : option Z :=
  match v with
  | None => None
  | Some n => if (n <? (if positive then 1 else 0))%Z then None else Some n
  end.

Definition is_backend_literal (b : string) : bool :=
  bool_decide (b ∈ ["firecracker"; "qemu"; "libkrun"]).

Definition snapshot_info_from_row (sid : string) (r : snapshot_row) : outcome SnapshotInfo :=
  let backend := if truthy_str (s_backend r) then default "" (s_backend r) else "firecracker" in
  artifacts ← (if truthy_str (s_artifacts r)
               then load (j_artifacts J) (default "" (s_artifacts r))
               else Ret {| state_path := path_or_none (Some (s_snapshot_path r));
                           memory_path := path_or_none (Some (s_mem_file_path r));
                           disk_path := s_disk_path r |});
  let snapshot_type :=
    if truthy_str (s_snapshot_type r)
    then match SnapshotType_of_value (default "" (s_snapshot_type r)) with
         | Ret t => t | Raise _ => FULL end
    else FULL in
  let artifact_kind :=
    if bool_decide (s_artifact_kind r ∈ [Some "full"; Some "incremental"])
    then s_artifact_kind r else None in
  vm_config ← vm_config_from_json (s_vm_config r);
  network_config ← load (j_network J) (s_network_config r);
  created ← fromisoformat (s_created_at r);
  if negb (identifier_ok sid) || negb (identifier_ok (s_vm_id r))
     || negb (is_backend_literal backend)
  then Raise (ValueError "validation error for SnapshotInfo")
  else mret {| snapshot_id := sid; si_vm_id := s_vm_id r; si_backend := backend;
          artifacts := artifacts; si_vm_config := vm_config;
          si_network_config := network_config; created_at := created;
          snapshot_type := snapshot_type; artifact_kind := artifact_kind;
          virtual_size_bytes := optional_int (s_virtual_size_bytes r) true;
          changed_bytes := optional_int (s_changed_bytes r) false;
          bitmap_granularity_bytes := optional_int (s_bitmap_granularity_bytes r) true;
          bitmap_name := s_bitmap_name r;
          restored := negb (s_restored r =? 0)%Z; restored_vm_id := s_restored_vm_id r |}.

Definition create_snapshot (K : conn) (i : SnapshotInfo) : py DB SnapshotInfo :=
  do! _get_connection K (
    let! d := py_get in
    if dmem (snapshot_id i) (t_snapshots d)
    then py_raise (SnapshotAlreadyExistsError (snapshot_id i))
    else insert_snapshot (snapshot_id i) (snapshot_row_of i)) in
  py_return i.

Definition get_snapshot (K : conn) (sid : string) : py DB SnapshotInfo :=
  nonempty "snapshot_id" sid (fetching K (λ d, dget sid (t_snapshots d)) (λ row,
    match row with
    | None => py_raise (SnapshotNotFoundError sid)
    | Some r => py_lift (snapshot_info_from_row sid r)
    end)).

Definition list_snapshots (K : conn) (vm : option string) : py DB (list SnapshotInfo) :=
  fetching K (λ d,
    let rows := if truthy_str vm
                then filter (λ kr, s_vm_id kr.2 = default "" vm) (t_snapshots d)
                else t_snapshots d in
    order_by (λ kr, s_created_at kr.2) (k_scan K rows)) (λ rows,
    py_lift (read_rows snapshot_info_from_row rows)).

Definition set_restored (restored_vm : string) (r : snapshot_row) : snapshot_row :=
  {| s_vm_id := s_vm_id r; s_snapshot_path := s_snapshot_path r;
     s_mem_file_path := s_mem_file_path r; s_disk_path := s_disk_path r;
     s_backend := s_backend r; s_artifacts := s_artifacts r; s_vm_config := s_vm_config r;
     s_network_config := s_network_config r; s_created_at := s_created_at r;
     s_snapshot_type := s_snapshot_type r; s_artifact_kind := s_artifact_kind r;
     s_virtual_size_bytes := s_virtual_size_bytes r; s_changed_bytes := s_changed_bytes r;
     s_bitmap_granularity_bytes := s_bitmap_granularity_bytes r;
     s_bitmap_name := s_bitmap_name r; s_restored := 1; s_restored_vm_id := Some restored_vm |}.

Definition mark_snapshot_restored (K K' : conn) (sid restored_vm : string) : py DB SnapshotInfo :=
  nonempty "snapshot_id" sid (nonempty "restored_vm_id" restored_vm (
    do! _get_connection K (λ d,
      match dget sid (t_snapshots d) with
      | None => (d, Raise (SnapshotNotFoundError sid))
      | Some r => (with_snapshots (dset sid (set_restored restored_vm r) (t_snapshots d)) d, Ret tt)
      end) in
    get_snapshot K' sid)).

Definition delete_snapshot (K : conn) (sid : string) : py DB unit :=
  nonempty "snapshot_id" sid (_get_connection K (λ d,
    if negb (dmem sid (t_snapshots d)) then (d, Raise (SnapshotNotFoundError sid))
    else (with_snapshots (ddel sid (t_snapshots d)) d, Ret tt))).

(** ** Browser sessions *)
Definition browser_row_of (now : string) (i : BrowserSessionInfo) (c : BrowserSessionConfig)
    : browser_row :=
  {| w_vm_id := bs_vm_id i; w_config := dump (j_browser J) c;
     w_status := BrowserSessionState_value (bs_status i);
     w_cdp_url := cdp_url i; w_live_url := live_url i; w_vnc_url := vnc_url i;
     w_debug_port := debug_port i; w_vnc_port := vnc_port i; w_profile_id := profile_id i;
     w_expires_at := isoformat <$> expires_at i; w_artifacts_dir := artifacts_dir i;
     w_created_at := now; w_updated_at := now |}.

Definition browser_session_info_from_row (sid : string) (r : browser_row)
    : outcome BrowserSessionInfo :=
  expires ← (if truthy_str (w_expires_at r)
             then Some <$> fromisoformat (default "" (w_expires_at r)) else Ret None);
  status ← BrowserSessionState_of_value (w_status r);
  mret {| session_id := sid; bs_vm_id := w_vm_id r; bs_status := status;
          cdp_url := w_cdp_url r; live_url := w_live_url r; vnc_url := w_vnc_url r;
          debug_port := w_debug_port r; vnc_port := w_vnc_port r; profile_id := w_profile_id r;
          expires_at := expires; artifacts_dir := path_or_none (w_artifacts_dir r) |}.

Definition create_browser_session (K : conn) (now : datetime) (i : BrowserSessionInfo)
    (c : BrowserSessionConfig) : py DB BrowserSessionInfo :=
  let now := now_iso now in
  do! _get_connection K (
    let! d := py_get in
    if dmem (session_id i) (t_browser_sessions d)
    then py_raise (BrowserSessionAlreadyExistsError (session_id i))
    else insert_session (session_id i) (browser_row_of now i c)) in
  py_return i.

Definition get_browser_session (K : conn) (sid : string) : py DB BrowserSessionInfo :=
  nonempty "session_id" sid (fetching K (λ d, dget sid (t_browser_sessions d)) (λ row,
    match row with
    | None => py_raise (BrowserSessionNotFoundError sid)
    | Some r => py_lift (browser_session_info_from_row sid r)
    end)).

Definition get_browser_session_config (K : conn) (sid : string) : py DB BrowserSessionConfig :=
  nonempty "session_id" sid (fetching K (λ d, dget sid (t_browser_sessions d)) (λ row,
    match row with
    | None => py_raise (BrowserSessionNotFoundError sid)
    | Some r => py_lift (load (j_browser J) (w_config r))
    end)).

(** The columns the assembled [UPDATE browser_sessions SET ...] assigns: with
    [clear_endpoints], an endpoint column is assigned NULL first, and SQLite
    keeps the rightmost assignment of a column. *)
Definition update_browser_row (now : string) (u : browser_update) (r : browser_row) : browser_row :=
  let clear := b_clear_endpoints u in
  {| w_vm_id := w_vm_id r;
     w_config := default (w_config r) (dump (j_browser J) <$> b_config u);
     w_status := default (w_status r) (BrowserSessionState_value <$> b_status u);
     w_cdp_url := set_or_clear (b_cdp_url u) clear (w_cdp_url r);
     w_live_url := set_or_clear (b_live_url u) clear (w_live_url r);
     w_vnc_url := set_or_clear (b_vnc_url u) clear (w_vnc_url r);
     w_debug_port := set_or_clear (b_debug_port u) clear (w_debug_port r);
     w_vnc_port := set_or_clear (b_vnc_port u) clear (w_vnc_port r);
     w_profile_id := set_or_clear (b_profile_id u) false (w_profile_id r);
     w_expires_at := set_or_clear (isoformat <$> b_expires_at u) false (w_expires_at r);
     w_artifacts_dir := set_or_clear (b_artifacts_dir u) false (w_artifacts_dir r);
     w_created_at := w_created_at r; w_updated_at := now |}.

Definition update_browser_session (K K' : conn) (now : datetime) (sid : string) (u : browser_update)
    : py DB BrowserSessionInfo :=
  nonempty "session_id" sid (
    do! _get_connection K (λ d,
      match dget sid (t_browser_sessions d) with
      | None => (d, Raise (BrowserSessionNotFoundError sid))
      | Some r => (with_sessions (dset sid (update_browser_row (now_iso now) u r)
                                    (t_browser_sessions d)) d, Ret tt)
      end) in
    get_browser_session K' sid).

Definition delete_browser_session (K : conn) (sid : string) : py DB unit :=
  nonempty "session_id" sid (_get_connection K (λ d,
    if negb (dmem sid (t_browser_sessions d)) then (d, Raise (BrowserSessionNotFoundError sid))
    else (with_sessions (ddel sid (t_browser_sessions d)) d, Ret tt))).

Definition list_browser_sessions (K : conn) (st : option BrowserSessionState)
    : py DB (list BrowserSessionInfo) :=
  fetching K (λ d,
    let rows := match st with
                | Some st => filter (λ kr, w_status kr.2 = BrowserSessionState_value st)
                               (t_browser_sessions d)
                | None => t_browser_sessions d
                end in
    order_by (λ kr, w_created_at kr.2) (k_scan K rows)) (λ rows,
    py_lift (read_rows browser_session_info_from_row rows)).

(** ** Reconciliation *)
Definition row_is_stale (kill : Z → kill_result) (r : vm_row) : bool :=
  bool_decide (r_status r ∈ [VMState_value RUNNING; VMState_value PAUSED]) &&
  match r_pid r with
  | None => true
  | Some p => (p <=? 0)%Z ||
      match kill p with
      | Kill_ProcessLookupError => true
      | Kill_ok | Kill_PermissionError => false
      end
  end.

Definition mark_error_row (now : string) (r : vm_row) : vm_row :=
  {| r_status := VMState_value ERROR; r_config := r_config r; r_network := r_network r;
     r_pid := None; r_socket_path := r_socket_path r; r_display := r_display r;
     r_created_at := r_created_at r; r_updated_at := now |}.

Definition reconcile (K : conn) (now : datetime) (kill : Z → kill_result) : py DB (list string) :=
  _get_connection K (λ d,
    let stale := dkeys (filter (λ kr, row_is_stale kill kr.2 = true) (k_scan K (t_vms d))) in
    let mark vms vm := match dget vm vms with
                       | Some r => dset vm (mark_error_row (now_iso now) r) vms
                       | None => vms
                       end in
    (with_vms (fold_left mark stale (t_vms d)) d, Ret stale)).
End manager.
