(* ===== verification/SqliteSchema.v ===== *)
(** * The schema invariant of the database

    [schema_ok] is what the PRIMARY KEY, UNIQUE and FOREIGN KEY declarations of
    [_init_schema] promise.  It holds initially and every operation preserves
    it, whatever fails on its connections; a transaction that raises leaves
    every table as it was. *)
From S2P Require Import Prelude PyDict PyStr StorageBase Types MemoryState SqliteState.
From stdpp Require Import options.

(** ** Queries *)
Section queries.
Context {R B : Type} `{EqDecision B} (f : R → B).
Implicit Types (t : list (string * R)).

Lemma keys_sublist (t1 t2 : list (string * R)) : t1 `sublist_of` t2 → t1.*1 `sublist_of` t2.*1.
Proof. induction 1; csimpl; by constructor. Qed.

Lemma where_row_Some v t k r :
  keys_ok t → where_row f v t = Some (k, r) → dget k t = Some r ∧ f r = v.
Proof.
  unfold where_row. intros Hok. rewrite bind_Some. intros ([i kr] & Hf & [= ->]).
  apply list_find_Some in Hf as (Hl & Hv & _). split; [|done].
  apply elem_dget; [done|]. by eapply list_elem_of_lookup_2.
Qed.

Lemma where_row_None v t :
  where_row f v t = None → ∀ k r, dget k t = Some r → f r ≠ v.
Proof.
  unfold where_row. destruct (list_find _ t) as [[i kr]|] eqn:Hf; [done|].
  intros _ k r Hk Hv. apply list_find_None in Hf. rewrite Forall_forall in Hf.
  apply dget_Some_elem in Hk. by apply (Hf (k, r) Hk).
Qed.

Lemma where_row_intro v t k r :
  keys_ok t → injective_on f t → dget k t = Some r → f r = v → where_row f v t = Some (k, r).
Proof.
  intros Hok Hinj Hk Hv. destruct (where_row f v t) as [[k' r']|] eqn:Hw.
  - apply where_row_Some in Hw as [Hk' Hv']; [|done].
    assert (k = k') as <- by (eapply Hinj; eauto; congruence). congruence.
  - exfalso. eapply where_row_None; eauto.
Qed.

Lemma column_has_false v t :
  column_has f v t = false → ∀ k r, dget k t = Some r → f r ≠ v.
Proof.
  unfold column_has, is_some. destruct (where_row f v t) eqn:Hw; [done|].
  intros _. by apply where_row_None.
Qed.

Lemma delete_where_keys_ok v t : keys_ok t → keys_ok (delete_where f v t).
Proof. unfold keys_ok. intros ?. eapply sublist_NoDup; [done|]. apply keys_sublist, sublist_filter. Qed.

Lemma dget_delete_where v t k :
  keys_ok t →
  dget k (delete_where f v t) = match dget k t with
                                | Some r => if decide (f r = v) then None else Some r
                                | None => None
                                end.
Proof.
  unfold delete_where, keys_ok. induction t as [|[k0 r0] t IH]; [done|].
  rewrite fmap_cons, NoDup_cons, filter_cons. intros [Hk0 Hok]. simpl in Hk0.
  cbn [dget fst snd]. destruct (decide (f r0 ≠ v)) as [Hne|Heq]; cbn [dget].
  - destruct (decide (k0 = k)) as [->|]; [by rewrite decide_False|auto].
  - destruct (decide (k0 = k)) as [->|]; [|auto].
    rewrite decide_True by (by destruct (decide (f r0 = v))).
    apply dget_notin. intros Hin. apply Hk0.
    eapply elem_of_sublist; [exact Hin|]. apply keys_sublist, sublist_filter.
Qed.
End queries.

(** ** Tables *)

(** No key twice, no value of the UNIQUE column [f] twice. *)
Record table_ok {R B} (f : R → B) (t : dict string R) : Prop := {
  tbl_keys : keys_ok t;
  tbl_unique : injective_on f t }.

(** FOREIGN KEY ([owner]) REFERENCES vms(id). *)
Definition fk_ok {R} (owner : string → R → string) (vms : dict string vm_row)
    (t : dict string R) : Prop :=
  ∀ k r, dget k t = Some r → is_Some (dget (owner k r) vms).

Definition own_key {R} (k : string) (_ : R) : string := k.

Record schema_ok (d : DB) : Prop := {
  sk_vms : keys_ok (t_vms d);
  sk_snapshots : keys_ok (t_snapshots d);
  sk_leases : table_ok l_vm_id (t_ip_leases d);
  sk_forwards : table_ok f_host_port (t_ssh_forwards d);
  sk_cids : table_ok c_guest_cid (t_vsock_cids d);
  sk_taps : table_ok t_tap_device (t_tap_allocations d);
  sk_sessions : table_ok w_vm_id (t_browser_sessions d);
  fk_leases : fk_ok (λ _, l_vm_id) (t_vms d) (t_ip_leases d);
  fk_forwards : fk_ok own_key (t_vms d) (t_ssh_forwards d);
  fk_cids : fk_ok own_key (t_vms d) (t_vsock_cids d);
  fk_taps : fk_ok own_key (t_vms d) (t_tap_allocations d) }.

Section table.
Context {R B : Type} `{EqDecision B}.
Implicit Types (f : R → B) (t : list (string * R)).

Lemma table_ok_nil f : table_ok f [].
Proof. split; auto with celesto. Qed.

Lemma table_ok_insert f t k r :
  table_ok f t → column_has f (f r) t = false → table_ok f (dset k r t).
Proof.
  intros [Hk Hu] Hc. split; [auto with celesto|].
  apply injective_on_dset; [done|]. intros k' r' _ Hr'. by eapply column_has_false.
Qed.

Lemma table_ok_same f t k r r0 :
  table_ok f t → dget k t = Some r0 → f r0 = f r → table_ok f (dset k r t).
Proof. intros [Hk Hu] ??. split; [auto with celesto|]. by eapply injective_on_dset_same. Qed.

Lemma table_ok_ddel f t k : table_ok f t → table_ok f (ddel k t).
Proof. intros [Hk Hu]. split; auto with celesto. Qed.

Lemma table_ok_delete_where f {C} `{EqDecision C} (g : R → C) (v : C) t :
  table_ok f t → table_ok f (delete_where g v t).
Proof.
  intros [Hk Hu]. split; [by apply delete_where_keys_ok|].
  intros k1 k2 r1 r2. rewrite !dget_delete_where by done.
  repeat case_match; intros; simplify_eq; eauto.
Qed.

Lemma table_ok_fmap f (h : R → R) t :
  (∀ r, f (h r) = f r) → table_ok f t → table_ok f (prod_map id h <$> t).
Proof.
  intros Hf [Hk Hu]. split.
  - unfold keys_ok. change (keys_ok (prod_map id h <$> t)). unfold keys_ok.
    pose proof (dkeys_fmap h t) as E. unfold dkeys in E. by rewrite E.
  - intros k1 k2 r1 r2. rewrite !dget_fmap, !fmap_Some.
    intros (x1 & ? & ->) (x2 & ? & ->). rewrite !Hf. by apply Hu.
Qed.

Lemma fk_ok_insert owner vms t k r :
  fk_ok owner vms t → is_Some (dget (owner k r) vms) → fk_ok owner vms (dset k r t).
Proof. intros Ht Hr k' r'. rewrite dget_dset. case_decide; intros; simplify_eq; eauto. Qed.

Lemma fk_ok_ddel owner vms t k : keys_ok t → fk_ok owner vms t → fk_ok owner vms (ddel k t).
Proof. intros Hk Ht k' r'. rewrite dget_ddel by done. case_decide; [done|eauto]. Qed.

Lemma fk_ok_delete_where owner vms {C} `{EqDecision C} (g : R → C) (v : C) t :
  keys_ok t → fk_ok owner vms t → fk_ok owner vms (delete_where g v t).
Proof.
  intros Hk Ht k' r'. rewrite dget_delete_where by done.
  repeat case_match; intros; simplify_eq; eauto.
Qed.

(** References survive a change of the referenced table that keeps its keys,
    and the removal of a computer together with the rows that name it. *)
Lemma fk_ok_vms owner vms vms' t :
  (∀ k, is_Some (dget k vms) → is_Some (dget k vms')) → fk_ok owner vms t → fk_ok owner vms' t.
Proof. intros Hv Ht k r Hk. eauto. Qed.

Lemma fk_ok_cascade owner vms vm t t' :
  keys_ok vms → fk_ok owner vms t →
  (∀ k r, dget k t' = Some r → dget k t = Some r ∧ owner k r ≠ vm) →
  fk_ok owner (ddel vm vms) t'.
Proof.
  intros Hk Ht Ht' k r Hr. apply Ht' in Hr as [Hr Hne]. rewrite dget_ddel by done.
  rewrite decide_False by done. eauto.
Qed.
End table.

#[export] Hint Resolve table_ok_nil table_ok_ddel table_ok_delete_where fk_ok_ddel
  fk_ok_delete_where tbl_keys : celesto.

Lemma dset_keeps {V} (k k' : string) (v : V) (t : dict string V) :
  is_Some (dget k' t) → is_Some (dget k' (dset k v t)).
Proof. intros ?. rewrite dget_dset. by case_decide. Qed.

Lemma db_init_schema : schema_ok db_init.
Proof. split; simpl; auto with celesto; intros k r; done. Qed.

(** Replacing a row of [vms], or adding one, keeps the schema. *)
Lemma schema_with_vms d vms' :
  schema_ok d → keys_ok vms' → (∀ k, is_Some (dget k (t_vms d)) → is_Some (dget k vms')) →
  schema_ok (with_vms vms' d).
Proof. intros [] ??. split; simpl; eauto using fk_ok_vms. Qed.

Lemma schema_delete_vm d vm : schema_ok d → schema_ok (delete_vm_rows vm d).
Proof.
  intros []. split; simpl; auto with celesto.
  - eapply fk_ok_cascade; eauto. intros k r. rewrite dget_delete_where by eauto with celesto.
    repeat case_match; intros; simplify_eq; eauto.
  - eapply fk_ok_cascade; eauto. intros k r. rewrite dget_ddel by eauto with celesto.
    case_decide; unfold own_key; eauto; done.
  - eapply fk_ok_cascade; eauto. intros k r. rewrite dget_ddel by eauto with celesto.
    case_decide; unfold own_key; eauto; done.
  - eapply fk_ok_cascade; eauto. intros k r. rewrite dget_ddel by eauto with celesto.
    case_decide; unfold own_key; eauto; done.
Qed.

(** ** Operations *)

(** [m] keeps the schema; [m] raises only with the database unchanged. *)
Definition preserves {A} (m : py DB A) : Prop :=
  ∀ d d' r, schema_ok d → m d = (d', r) → schema_ok d'.
Definition atomic {A} (m : py DB A) : Prop :=
  ∀ d d' e, m d = (d', Raise e) → d' = d.
(** [m] only reads. *)
Definition pure {A} (m : py DB A) : Prop := ∀ d, (m d).1 = d.

Lemma pure_preserves {A} (m : py DB A) : pure m → preserves m.
Proof. intros Hp d d' r Hd Hm. specialize (Hp d). rewrite Hm in Hp. by subst. Qed.
Lemma pure_atomic {A} (m : py DB A) : pure m → atomic m.
Proof. intros Hp d d' r Hm. specialize (Hp d). by rewrite Hm in Hp. Qed.
Lemma pure_raise {A} e : pure (@py_raise DB A e).
Proof. done. Qed.
Lemma pure_return {A} (a : A) : pure (py_return a).
Proof. done. Qed.

(** Nothing fails before, in or at the end of the transaction; or in its
    rollback either. *)
Definition commits (K : conn) : Prop :=
  k_open K = None ∧ k_statement K = None ∧ k_commit K = None.
Definition working (K : conn) : Prop := commits K ∧ k_rollback K = None.

(** A transaction either raises and changes nothing, or its body ran to the
    end and was committed. *)
Lemma tx_cases {A} K (m : py DB A) d d' r :
  _get_connection K m d = (d', r) →
  (d' = d ∧ ∃ e, r = Raise e) ∨ (commits K ∧ m d = (d', r) ∧ ∃ a, r = Ret a).
Proof.
  unfold _get_connection, commits. destruct (k_open K), (k_statement K), (k_commit K); simpl;
    try (intros [= <- <-]; by eauto);
    destruct (m d) as [d1 [a|er]]; intros [= <- <-]; eauto 10.
Qed.
Lemma tx_commits {A} K (m : py DB A) d d' a :
  commits K → m d = (d', Ret a) → _get_connection K m d = (d', Ret a).
Proof. intros (Ho & Hs & Hc) Hm. unfold _get_connection. by rewrite Ho, Hs, Hm, Hc. Qed.
Lemma tx_working {A} K (m : py DB A) d :
  working K → _get_connection K m d
              = match m d with (d', Ret a) => (d', Ret a) | (_, Raise e) => (d, Raise e) end.
Proof.
  intros [(Ho & Hs & Hc) Hr]. unfold _get_connection. rewrite Ho, Hs, Hc, Hr.
  by destruct (m d) as [d1 []].
Qed.

Lemma preserves_tx {A} K (m : py DB A) : preserves m → preserves (_get_connection K m).
Proof. intros Hm d d' r Hd [[-> _]|(_ & E & _)]%tx_cases; eauto. Qed.
Lemma atomic_tx {A} K (m : py DB A) : atomic (_get_connection K m).
Proof. intros d d' e [[-> _]|(_ & _ & a & ?)]%tx_cases; done. Qed.
Lemma pure_tx {A} K (m : py DB A) : pure m → pure (_get_connection K m).
Proof.
  intros Hm d. destruct (_get_connection K m d) as [d' r] eqn:E.
  apply tx_cases in E as [[-> _]|(_ & E & _)]; [done|]. specialize (Hm d). by rewrite E in Hm.
Qed.
Lemma pure_bind {A B} (m : py DB A) (k : A → py DB B) :
  pure m → (∀ a, pure (k a)) → pure (py_bind m k).
Proof.
  intros Hm Hk d. specialize (Hm d). unfold py_bind. destruct (m d) as [d1 [a|e]]; simpl in *; [|done].
  subst. apply Hk.
Qed.
Lemma pure_fetching {A B} K (q : DB → A) (k : A → py DB B) :
  (∀ a, pure (k a)) → pure (fetching K q k).
Proof. intros Hk. apply pure_bind; [by apply pure_tx|done]. Qed.

Lemma preserves_nonempty {A} w s (m : py DB A) : preserves m → preserves (nonempty w s m).
Proof. unfold nonempty. intros Hm d d' r Hd. case_match; [naive_solver|eauto]. Qed.
Lemma atomic_nonempty {A} w s (m : py DB A) : atomic m → atomic (nonempty w s m).
Proof. unfold nonempty. intros Hm d d' r. case_match; [naive_solver|eauto]. Qed.
Lemma pure_nonempty {A} w s (m : py DB A) : pure m → pure (nonempty w s m).
Proof. unfold nonempty. intros Hm d. case_match; [done|eauto]. Qed.

Lemma preserves_bind {A B} (m : py DB A) (k : A → py DB B) :
  preserves m → (∀ a, preserves (k a)) → preserves (py_bind m k).
Proof.
  unfold py_bind. intros Hm Hk d d' r Hd. destruct (m d) as [d1 [a|e]] eqn:E.
  - intros Hkd. eapply (Hk a); [|done]. by eapply Hm.
  - intros [= <- <-]. by eapply Hm.
Qed.
Lemma atomic_bind {A B} (m : py DB A) (k : A → py DB B) :
  atomic m → (∀ a d d1 d2 e, m d = (d1, Ret a) → k a d1 = (d2, Raise e) → d2 = d) →
  atomic (py_bind m k).
Proof.
  unfold py_bind. intros Hm Hk d d' e. destruct (m d) as [d1 [a|e1]] eqn:E; [eauto|].
  intros [= <- <-]. eauto.
Qed.

#[export] Hint Resolve pure_preserves pure_atomic pure_raise pure_return preserves_tx atomic_tx
  preserves_nonempty atomic_nonempty pure_nonempty preserves_bind : celesto.

(** Only the named table changes. *)
Lemma schema_with_leases d x :
  schema_ok d → table_ok l_vm_id x → fk_ok (λ _, l_vm_id) (t_vms d) x →
  schema_ok (with_leases x d).
Proof. intros []. by split. Qed.
Lemma schema_with_forwards d x :
  schema_ok d → table_ok f_host_port x → fk_ok own_key (t_vms d) x → schema_ok (with_forwards x d).
Proof. intros []. by split. Qed.
Lemma schema_with_cids d x :
  schema_ok d → table_ok c_guest_cid x → fk_ok own_key (t_vms d) x → schema_ok (with_cids x d).
Proof. intros []. by split. Qed.
Lemma schema_with_taps d x :
  schema_ok d → table_ok t_tap_device x → fk_ok own_key (t_vms d) x → schema_ok (with_taps x d).
Proof. intros []. by split. Qed.
Lemma schema_with_sessions d x :
  schema_ok d → table_ok w_vm_id x → schema_ok (with_sessions x d).
Proof. intros []. by split. Qed.
Lemma schema_with_snapshots d x : schema_ok d → keys_ok x → schema_ok (with_snapshots x d).
Proof. intros []. by split. Qed.

#[export] Hint Resolve schema_with_leases schema_with_forwards schema_with_cids schema_with_taps
  schema_with_sessions schema_with_snapshots table_ok_insert fk_ok_insert
  sk_vms sk_snapshots sk_leases sk_forwards sk_cids sk_taps sk_sessions
  fk_leases fk_forwards fk_cids fk_taps : celesto.

Lemma dmem_true {V} (k : string) (t : dict string V) : dmem k t = true → is_Some (dget k t).
Proof. unfold dmem. destruct (dget k t); [eauto|done]. Qed.
Lemma dmem_false {V} (k : string) (t : dict string V) : dmem k t = false → dget k t = None.
Proof. unfold dmem. by destruct (dget k t). Qed.

(** Runs the insertion of one row and discharges its constraints. *)
Ltac solve_insert f schema :=
  intros d d' res Hd; unfold f; repeat (case_match; [naive_solver|]); intros [= <- <-]; bool_hyps;
  apply schema; [done | try (eapply table_ok_insert); eauto with celesto |..];
  try (apply fk_ok_insert; [eauto with celesto | by apply dmem_true]).

Lemma insert_vm_preserves id r : preserves (insert_vm id r).
Proof.
  intros d d' r' Hd. unfold insert_vm. case_match; [naive_solver|]. intros [= <- <-].
  apply schema_with_vms; eauto using dset_keeps with celesto.
Qed.
Lemma insert_lease_preserves ip r : preserves (insert_lease ip r).
Proof. solve_insert insert_lease schema_with_leases. Qed.
Lemma insert_forward_preserves vm r : preserves (insert_forward vm r).
Proof. solve_insert insert_forward schema_with_forwards. Qed.
Lemma insert_cid_preserves vm r : preserves (insert_cid vm r).
Proof. solve_insert insert_cid schema_with_cids. Qed.
Lemma insert_tap_preserves vm r : preserves (insert_tap vm r).
Proof. solve_insert insert_tap schema_with_taps. Qed.
Lemma insert_session_preserves sid r : preserves (insert_session sid r).
Proof. solve_insert insert_session schema_with_sessions. Qed.
Lemma insert_snapshot_preserves sid r : preserves (insert_snapshot sid r).
Proof.
  intros d d' res Hd. unfold insert_snapshot. case_match; [naive_solver|]. intros [= <- <-].
  apply schema_with_snapshots; [done|]. apply keys_ok_dset, Hd.
Qed.
#[export] Hint Resolve insert_vm_preserves insert_lease_preserves insert_forward_preserves
  insert_cid_preserves insert_tap_preserves insert_session_preserves
  insert_snapshot_preserves : celesto.

Ltac case_free := cbv zeta;
  match goal with |- context [@first_free ?B ?D ?u ?c] => destruct (@first_free B D u c) end.

Section ops.
Context (J : codecs).

Lemma get_vm_pure K vm : pure (get_vm J K vm).
Proof. apply pure_nonempty, pure_fetching. by intros []. Qed.
Lemma get_snapshot_pure K sid : pure (get_snapshot J K sid).
Proof. apply pure_nonempty, pure_fetching. by intros []. Qed.
Lemma get_browser_session_pure K sid : pure (get_browser_session K sid).
Proof. apply pure_nonempty, pure_fetching. by intros []. Qed.

Lemma create_vm_preserves K now c : preserves (create_vm J K now c).
Proof.
  apply preserves_bind; [|auto with celesto]. apply preserves_tx. intros d d' r Hd.
  unfold py_bind, py_get, py_raise. simpl. destruct (dmem _ _); [naive_solver|].
  by apply insert_vm_preserves.
Qed.
Lemma create_vm_atomic K now c : atomic (create_vm J K now c).
Proof. apply atomic_bind; [auto with celesto|]. naive_solver. Qed.

Lemma update_vm_preserves K K' now vm u : preserves (update_vm J K K' now vm u).
Proof.
  apply preserves_nonempty, preserves_bind; [|auto using get_vm_pure with celesto].
  apply preserves_tx. intros d d' r Hd. case_match; [|naive_solver]. intros [= <- <-].
  apply schema_with_vms; eauto using dset_keeps with celesto.
Qed.

Lemma delete_vm_preserves K vm : preserves (delete_vm K vm).
Proof.
  apply preserves_nonempty, preserves_tx. intros d d' r Hd.
  case_match; [naive_solver|]. intros [= <- <-]. by apply schema_delete_vm.
Qed.
Lemma delete_vm_atomic K vm : atomic (delete_vm K vm).
Proof. unfold delete_vm. auto with celesto. Qed.

(** The reservation operations: a transaction that answers [None] when the
    pool is exhausted, followed by the exception for that case. *)
Lemma reserve_preserves {A} K (m : py DB (option A)) (e : exn) :
  preserves m → preserves (py_bind (_get_connection K m) (λ found,
    match found with Some a => py_return a | None => py_raise e end)).
Proof. intros Hm. apply preserves_bind; [auto with celesto|]. intros []; auto with celesto. Qed.
Lemma reserve_atomic {A} K (m : py DB (option A)) (e : exn) :
  (∀ d d', m d = (d', Ret None) → d' = d) →
  atomic (py_bind (_get_connection K m) (λ found,
    match found with Some a => py_return a | None => py_raise e end)).
Proof.
  intros Hm. apply atomic_bind; [apply atomic_tx|]. intros [a|] d d1 d2 e' Htx; [done|].
  intros [= <- _]. apply tx_cases in Htx as [[-> _]|(_ & E & _)]; eauto.
Qed.

Lemma allocate_ip_preserves K now vm tap req : preserves (allocate_ip K now vm tap req).
Proof.
  apply preserves_nonempty, preserves_nonempty, reserve_preserves. intros d d' r Hd.
  cbv zeta. case_match; [by repeat case_match; intros; simplify_eq|].
  case_free; [|by intros; simplify_eq].
  apply preserves_bind; [apply insert_lease_preserves|auto with celesto|done].
Qed.
Lemma allocate_ip_atomic K now vm tap req : atomic (allocate_ip K now vm tap req).
Proof.
  apply atomic_nonempty, atomic_nonempty, reserve_atomic. intros d d'.
  cbv zeta. case_match; [by repeat case_match; intros; simplify_eq|].
  case_free; [|by intros; simplify_eq].
  unfold py_bind, py_return. by repeat case_match; intros; simplify_eq.
Qed.

Lemma reserve_ssh_port_preserves K now vm gp hp ex : preserves (reserve_ssh_port K now vm gp hp ex).
Proof.
  apply preserves_nonempty. case_match; [auto with celesto|].
  destruct (match hp with Some _ => _ | None => _ end); [auto with celesto|].
  apply reserve_preserves. intros d d' r Hd.
  cbv zeta. case_match; [by repeat case_match; intros; simplify_eq|].
  case_free; [|by intros; simplify_eq].
  apply preserves_bind; [apply insert_forward_preserves|auto with celesto|done].
Qed.
Lemma reserve_ssh_port_atomic K now vm gp hp ex : atomic (reserve_ssh_port K now vm gp hp ex).
Proof.
  apply atomic_nonempty. case_match; [auto with celesto|].
  destruct (match hp with Some _ => _ | None => _ end); [auto with celesto|].
  apply reserve_atomic. intros d d'.
  cbv zeta. case_match; [by repeat case_match; intros; simplify_eq|].
  case_free; [|by intros; simplify_eq].
  unfold py_bind, py_return. by repeat case_match; intros; simplify_eq.
Qed.

Lemma reserve_vsock_cid_preserves K now vm cid : preserves (reserve_vsock_cid K now vm cid).
Proof.
  apply preserves_nonempty.
  destruct (match cid with Some _ => _ | None => _ end); [auto with celesto|].
  apply reserve_preserves. intros d d' r Hd.
  cbv zeta. case_match; [by repeat case_match; intros; simplify_eq|].
  case_free; [|by intros; simplify_eq].
  apply preserves_bind; [apply insert_cid_preserves|auto with celesto|done].
Qed.
Lemma reserve_vsock_cid_atomic K now vm cid : atomic (reserve_vsock_cid K now vm cid).
Proof.
  apply atomic_nonempty.
  destruct (match cid with Some _ => _ | None => _ end); [auto with celesto|].
  apply reserve_atomic. intros d d'.
  cbv zeta. case_match; [by repeat case_match; intros; simplify_eq|].
  case_free; [|by intros; simplify_eq].
  unfold py_bind, py_return. by repeat case_match; intros; simplify_eq.
Qed.

Lemma reserve_tap_name_preserves K now vm mode br req tokens :
  preserves (reserve_tap_name K now vm mode br req tokens).
Proof.
  apply preserves_nonempty. case_match; [auto with celesto|]. apply preserves_tx.
  intros d d' r Hd. cbv zeta. case_match; [by case_match; intros; simplify_eq|].
  assert (∀ name, preserves (do! insert_tap vm {| t_tap_device := name; t_mode := mode;
            t_bridge_name := br; t_created_at := now_iso now |} in py_return name)) as Hs.
  { intros name. apply preserves_bind; auto with celesto. }
  repeat case_match; first [by intros; simplify_eq|by apply Hs].
Qed.
Lemma reserve_tap_name_atomic K now vm mode br req tokens :
  atomic (reserve_tap_name K now vm mode br req tokens).
Proof. apply atomic_nonempty. case_match; auto with celesto. Qed.
End ops.
