(* ===== verification/SqliteRows.v ===== *)
(** * Stored rows and the values they stand for

    A row of [vms], [snapshots] or [browser_sessions] is text; the operations
    read it back as a model instance.  [rows_ok] says that every stored row
    reads back.  The row written for a value reads back as the value, and an
    UPDATE of a row is the update of the value, field by field. *)
From S2P Require Import Prelude PyDict PyStr StorageBase Types MemoryState SqliteState SqliteSchema.
From stdpp Require Import options.

(** The instances each codec round-trips. *)
Record valids := {
  v_config : VMConfig → Prop;
  v_network : NetworkConfig → Prop;
  v_display : DesktopEndpoint → Prop;
  v_artifacts : SnapshotArtifacts → Prop;
  v_browser : BrowserSessionConfig → Prop }.

Record codecs_ok (J : codecs) (V : valids) : Prop := {
  jo_config : codec_ok (j_config J) (v_config V);
  jo_network : codec_ok (j_network J) (v_network V);
  jo_display : codec_ok (j_display J) (v_display V);
  jo_artifacts : codec_ok (j_artifacts J) (v_artifacts V);
  jo_browser : codec_ok (j_browser J) (v_browser V) }.

(** Inputs the operations accept: model instances are valid, the text of a
    path is not empty, times are in range. *)
Definition opt_all {A} (P : A → Prop) (o : option A) : Prop := ∀ a, o = Some a → P a.

Record update_valid (V : valids) (u : vm_update) : Prop := {
  uv_config : opt_all (v_config V) (u_config u);
  uv_network : opt_all (v_network V) (u_network u);
  uv_display : opt_all (v_display V) (u_display u);
  uv_socket : u_control_socket_path u ≠ Some "" }.

Record snapshot_valid (V : valids) (i : SnapshotInfo) : Prop := {
  sv_id : identifier_ok (snapshot_id i) = true;
  sv_vm_id : identifier_ok (si_vm_id i) = true;
  sv_backend : is_backend_literal (si_backend i) = true;
  sv_artifacts : v_artifacts V (artifacts i);
  sv_config : v_config V (si_vm_config i);
  sv_network : v_network V (si_network_config i);
  sv_created : datetime_ok (created_at i) = true;
  sv_kind : artifact_kind i ∈ [None; Some "full"; Some "incremental"];
  sv_size : opt_all (λ n, 1 ≤ n)%Z (virtual_size_bytes i);
  sv_changed : opt_all (λ n, 0 ≤ n)%Z (changed_bytes i);
  sv_granularity : opt_all (λ n, 1 ≤ n)%Z (bitmap_granularity_bytes i) }.

Record session_valid (i : BrowserSessionInfo) : Prop := {
  bv_expires : opt_all (λ d, datetime_ok d = true) (expires_at i);
  bv_dir : artifacts_dir i ≠ Some "" }.

Record session_update_valid (V : valids) (u : browser_update) : Prop := {
  buv_expires : opt_all (λ d, datetime_ok d = true) (b_expires_at u);
  buv_dir : b_artifacts_dir u ≠ Some "";
  buv_config : opt_all (v_browser V) (b_config u) }.

Section rows.
Context (J : codecs) (V : valids).

(** ** Reading a column *)

Lemma load_optional_set {A} (c : codec A) (valid : A → Prop) (new : option A) clear old x :
  codec_ok c valid → opt_all valid new → load_optional c old = Ret x →
  load_optional c (set_or_clear (dump c <$> new) clear old) = Ret (set_or_clear new clear x).
Proof.
  intros Hc Hnew Hold. destruct new as [a|]; simpl.
  - destruct (Hc a) as [Hl Hne]; [by apply Hnew|].
    destruct (dump c a) eqn:E; [done|]. simpl. by rewrite Hl.
  - by destruct clear.
Qed.

Lemma path_or_none_set (new : option path) clear old :
  new ≠ Some "" →
  path_or_none (set_or_clear new clear old) = set_or_clear new clear (path_or_none old).
Proof. intros Hne. destruct new as [[|]|]; simpl; [done|done|]. by destruct clear. Qed.

(** ** Computers *)

Lemma vm_of_row_Ret id r i :
  vm_of_row J id r = Ret i ↔
  load (j_config J) (r_config r) = Ret (config i)
  ∧ load_optional (j_network J) (r_network r) = Ret (network i)
  ∧ load_optional (j_display J) (r_display r) = Ret (display i)
  ∧ VMState_of_value (r_status r) = Ret (status i)
  ∧ vi_vm_id i = id ∧ pid i = r_pid r
  ∧ control_socket_path i = path_or_none (r_socket_path r) ∧ vsock_uds_path i = None.
Proof.
  unfold vm_of_row, vm_config_from_json. split.
  - intros H. destruct (load (j_config J) _); [|done]. simpl in H.
    destruct (load_optional (j_network J) _); [|done]. simpl in H.
    destruct (load_optional (j_display J) _); [|done]. simpl in H.
    destruct (VMState_of_value _); [|done]. simpl in H. by injection H as <-.
  - intros (-> & -> & -> & -> & <- & Hp & Hs & Hv). simpl. unfold mret, outcome_ret. f_equal.
    destruct i; simpl in *. by subst.
Qed.

Lemma vm_of_row_new now c :
  codecs_ok J V → v_config V c →
  vm_of_row J (vm_id c)
    {| r_status := VMState_value CREATED; r_config := dump (j_config J) c;
       r_network := None; r_pid := None; r_socket_path := None; r_display := None;
       r_created_at := now; r_updated_at := now |} = Ret (vi_new (vm_id c) CREATED c).
Proof.
  intros HJ Hc. apply vm_of_row_Ret. simpl. split_and!; try done. by apply (jo_config _ _ HJ).
Qed.

(** An UPDATE of the row is [update_vm]'s change of the value. *)
Lemma vm_of_row_update now id r i u :
  codecs_ok J V → update_valid V u → vm_of_row J id r = Ret i →
  vm_of_row J id (update_vm_row J now u r) = Ret (apply_vm_update u i).
Proof.
  intros HJ Hu. rewrite !vm_of_row_Ret. intros (Hc & Hn & Hd & Hs & Hid & Hp & Hsock & Hv).
  simpl. split_and!.
  - destruct (u_config u) as [c|] eqn:E; simpl; [|done].
    apply (jo_config _ _ HJ). by apply (uv_config _ _ Hu).
  - eapply load_optional_set; eauto using jo_network, uv_network.
  - eapply load_optional_set; eauto using jo_display, uv_display.
  - destruct (u_status u); simpl; [apply VMState_of_value_value|done].
  - done.
  - by rewrite Hp.
  - rewrite Hsock. symmetry. apply path_or_none_set, Hu.
  - done.
Qed.

Lemma vm_of_row_error now id r i :
  vm_of_row J id r = Ret i →
  vm_of_row J id (mark_error_row now r) = Ret (mark_error i).
Proof. rewrite !vm_of_row_Ret. simpl. naive_solver. Qed.

(** The staleness test reads the same in a row as in the value. *)
Lemma row_is_stale_spec kill id r i :
  vm_of_row J id r = Ret i → row_is_stale kill r = is_stale kill i.
Proof.
  rewrite vm_of_row_Ret. intros (_ & _ & _ & Hs & _ & Hp & _). unfold row_is_stale, is_stale.
  rewrite Hp. f_equal. apply VMState_of_value_inv in Hs as ->. by destruct (status i).
Qed.

(** ** Snapshots *)

Lemma optional_int_id v (positive : bool) :
  opt_all (λ n, (if positive then 1 else 0) ≤ n)%Z v → optional_int v positive = v.
Proof.
  destruct v as [n|]; [|done]. intros Hn. specialize (Hn n eq_refl). simpl in *.
  by rewrite (proj2 (Z.ltb_ge _ _)).
Qed.

Lemma snapshot_row_roundtrip i :
  codecs_ok J V → snapshot_valid V i →
  snapshot_info_from_row J (snapshot_id i) (snapshot_row_of J i) = Ret i.
Proof.
  intros HJ Hi. unfold snapshot_info_from_row, vm_config_from_json. simpl.
  destruct (jo_artifacts _ _ HJ (artifacts i) (sv_artifacts _ _ Hi)) as [Hla Hne].
  destruct (String.eqb_spec (dump (j_artifacts J) (artifacts i)) ""); [done|]. simpl.
  rewrite Hla. simpl.
  rewrite (proj1 (jo_config _ _ HJ _ (sv_config _ _ Hi))). simpl.
  rewrite (proj1 (jo_network _ _ HJ _ (sv_network _ _ Hi))). simpl.
  rewrite fromisoformat_isoformat by apply Hi. simpl.
  assert (String.eqb (si_backend i) "" = false) as Hb.
  { pose proof (sv_backend _ _ Hi) as Hb. unfold is_backend_literal in Hb. bool_hyps.
    by destruct (String.eqb_spec (si_backend i) "") as [E|]; [rewrite E in Hb|]; set_solver. }
  rewrite Hb. simpl. rewrite (sv_id _ _ Hi), (sv_vm_id _ _ Hi), (sv_backend _ _ Hi). simpl.
  unfold mret, outcome_ret. f_equal.
  assert (∀ t, String.eqb (SnapshotType_value t) "" = false) as Ht by (by intros []).
  rewrite Ht. simpl. rewrite SnapshotType_of_value_value.
  rewrite !optional_int_id; [|apply Hi..].
  assert ((if bool_decide (artifact_kind i ∈ [Some "full"; Some "incremental"])
           then artifact_kind i else None) = artifact_kind i) as Hk.
  { pose proof (sv_kind _ _ Hi) as Hk. rewrite !elem_of_cons in Hk.
    destruct Hk as [->|[->|[->|[]%elem_of_nil]]]; by vm_compute. }
  rewrite Hk. destruct i; simpl. f_equal. by destruct restored.
Qed.

Lemma snapshot_row_restored sid r i vm :
  snapshot_info_from_row J sid r = Ret i →
  snapshot_info_from_row J sid (set_restored vm r) = Ret (mark_restored vm i).
Proof.
  unfold snapshot_info_from_row. simpl. intros H.
  destruct (if truthy_str (s_artifacts r) then _ else _) as [a|]; [|done]. simpl in *.
  destruct (vm_config_from_json J (s_vm_config r)) as [c|]; [|done]. simpl in *.
  destruct (load (j_network J) (s_network_config r)) as [n|]; [|done]. simpl in *.
  destruct (fromisoformat (s_created_at r)) as [t|]; [|done]. simpl in *.
  destruct (_ || _ || _); [done|]. injection H as <-. done.
Qed.

(** ** Browser sessions *)

Lemma session_row_Ret sid r i :
  browser_session_info_from_row sid r = Ret i ↔
  (if truthy_str (w_expires_at r)
   then Some <$> fromisoformat (default "" (w_expires_at r)) else Ret None) = Ret (expires_at i)
  ∧ BrowserSessionState_of_value (w_status r) = Ret (bs_status i)
  ∧ session_id i = sid ∧ bs_vm_id i = w_vm_id r ∧ cdp_url i = w_cdp_url r
  ∧ live_url i = w_live_url r ∧ vnc_url i = w_vnc_url r ∧ debug_port i = w_debug_port r
  ∧ vnc_port i = w_vnc_port r ∧ profile_id i = w_profile_id r
  ∧ artifacts_dir i = path_or_none (w_artifacts_dir r).
Proof.
  unfold browser_session_info_from_row. split.
  - intros H. destruct (if truthy_str _ then _ else _); [|done]. simpl in H.
    destruct (BrowserSessionState_of_value _); [|done]. simpl in H. by injection H as <-.
  - intros (-> & -> & <- & H). simpl. unfold mret, outcome_ret. f_equal.
    destruct i; simpl in *. destruct_and!. by subst.
Qed.

Lemma expires_roundtrip (e : option datetime) :
  opt_all (λ d, datetime_ok d = true) e →
  (if truthy_str (isoformat <$> e)
   then Some <$> fromisoformat (default "" (isoformat <$> e)) else Ret None) = Ret e.
Proof.
  destruct e as [d|]; [|done]. intros Hd. specialize (Hd d eq_refl). simpl.
  destruct (String.eqb_spec (isoformat d) "") as [E|]; [by destruct (isoformat_nonempty d)|].
  simpl. by rewrite fromisoformat_isoformat.
Qed.

Lemma session_row_roundtrip now i c :
  session_valid i →
  browser_session_info_from_row (session_id i) (browser_row_of J now i c) = Ret i.
Proof.
  intros Hi. apply session_row_Ret. simpl. split_and!; try done.
  - apply expires_roundtrip, Hi.
  - apply BrowserSessionState_of_value_value.
  - destruct (artifacts_dir i) as [[|]|] eqn:E; try done. by destruct (bv_dir _ Hi).
Qed.

Lemma session_row_update now sid r i u :
  session_update_valid V u → browser_session_info_from_row sid r = Ret i →
  browser_session_info_from_row sid (update_browser_row J now u r) = Ret (apply_browser_update u i).
Proof.
  intros Hu. rewrite !session_row_Ret. intros (He & Hs & Hrest). simpl. destruct_and!.
  split_and!; try congruence.
  - destruct (b_expires_at u) as [d|] eqn:E; simpl; [|done].
    apply (expires_roundtrip (Some d)). rewrite <-E. apply Hu.
  - destruct (b_status u); simpl; [apply BrowserSessionState_of_value_value|done].
  - match goal with H : artifacts_dir i = _ |- _ => rewrite H end.
    symmetry. apply path_or_none_set, Hu.
Qed.
End rows.
