(* ===== verification/SqliteProofs.v ===== *)
(** * Correctness of the database-backed state manager

    The schema and the readability of every row are invariants of the
    manager's operations, whatever fails on their connections; the manager's
    own checks come before the schema's constraints; a call that raises leaves
    the database as it was, or with the complete update when only reading it
    back failed; and the reservation operations hand out the lowest free
    value. *)
From S2P Require Import Prelude PyDict PyStr StorageBase Types MemoryState MemoryProofs.
From S2P Require Import SqliteState SqliteSchema SqliteRows.
From stdpp Require Import options.

(** ** Remaining schema lemmas *)

Section schema.
Context (J : codecs).

Lemma release_ip_preserves K vm : preserves (release_ip K vm).
Proof.
  apply preserves_nonempty, preserves_tx. intros d d' r Hd [= <- <-].
  apply schema_with_leases; eauto with celesto.
Qed.
Lemma release_ssh_port_preserves K vm : preserves (release_ssh_port K vm).
Proof.
  apply preserves_nonempty, preserves_tx. intros d d' r Hd [= <- <-].
  apply schema_with_forwards; eauto with celesto.
Qed.
Lemma release_vsock_cid_preserves K vm : preserves (release_vsock_cid K vm).
Proof.
  apply preserves_nonempty, preserves_tx. intros d d' r Hd [= <- <-].
  apply schema_with_cids; eauto with celesto.
Qed.
Lemma release_tap_name_preserves K vm : preserves (release_tap_name K vm).
Proof.
  apply preserves_nonempty, preserves_tx. intros d d' r Hd [= <- <-].
  apply schema_with_taps; eauto with celesto.
Qed.

Lemma set_lease_tap_vm vm tap r : l_vm_id (set_lease_tap vm tap r) = l_vm_id r.
Proof. unfold set_lease_tap. by case_decide. Qed.

Lemma update_ip_lease_tap_preserves K vm tap : preserves (update_ip_lease_tap K vm tap).
Proof.
  apply preserves_nonempty, preserves_nonempty, preserves_tx. intros d d' r Hd [= <- <-].
  apply schema_with_leases; [done| |].
  - apply table_ok_fmap; [apply set_lease_tap_vm|apply Hd].
  - intros k x. rewrite dget_fmap, fmap_Some. intros (x0 & Hx & ->).
    rewrite set_lease_tap_vm. by apply (fk_leases _ Hd k).
Qed.

Lemma create_snapshot_preserves K i : preserves (create_snapshot J K i).
Proof.
  apply preserves_bind; [|auto with celesto]. apply preserves_tx. intros d d' r Hd.
  unfold py_bind, py_get, py_raise. simpl. destruct (dmem _ _); [naive_solver|].
  by apply insert_snapshot_preserves.
Qed.
Lemma mark_snapshot_restored_preserves K K' sid vm : preserves (mark_snapshot_restored J K K' sid vm).
Proof.
  apply preserves_nonempty, preserves_nonempty, preserves_bind;
    [|auto using get_snapshot_pure with celesto].
  apply preserves_tx. intros d d' r Hd. case_match; [|naive_solver]. intros [= <- <-].
  apply schema_with_snapshots; [done|]. apply keys_ok_dset, Hd.
Qed.
Lemma delete_snapshot_preserves K sid : preserves (delete_snapshot K sid).
Proof.
  apply preserves_nonempty, preserves_tx. intros d d' r Hd. case_match; [naive_solver|].
  intros [= <- <-]. apply schema_with_snapshots; [done|]. apply keys_ok_ddel, Hd.
Qed.

Lemma create_browser_session_preserves K now i c : preserves (create_browser_session J K now i c).
Proof.
  apply preserves_bind; [|auto with celesto]. apply preserves_tx. intros d d' r Hd.
  unfold py_bind, py_get, py_raise. simpl. destruct (dmem _ _); [naive_solver|].
  by apply insert_session_preserves.
Qed.
Lemma update_browser_session_preserves K K' now sid u : preserves (update_browser_session J K K' now sid u).
Proof.
  apply preserves_nonempty, preserves_bind; [|auto using get_browser_session_pure with celesto].
  apply preserves_tx. intros d d' r Hd. case_match; [|naive_solver]. intros [= <- <-].
  apply schema_with_sessions; [done|]. eapply table_ok_same; [apply Hd|done|done].
Qed.
Lemma delete_browser_session_preserves K sid : preserves (delete_browser_session K sid).
Proof.
  apply preserves_nonempty, preserves_tx. intros d d' r Hd. case_match; [naive_solver|].
  intros [= <- <-]. apply schema_with_sessions; [done|]. apply table_ok_ddel, Hd.
Qed.

Definition mark_row (now : string) (vms : dict string vm_row) (vm : string) : dict string vm_row :=
  match dget vm vms with Some r => dset vm (mark_error_row now r) vms | None => vms end.

Lemma mark_rows_keys now stale vms :
  keys_ok vms → keys_ok (fold_left (mark_row now) stale vms)
  ∧ ∀ k, is_Some (dget k vms) → is_Some (dget k (fold_left (mark_row now) stale vms)).
Proof.
  revert vms. induction stale as [|vm stale IH]; intros vms Hok; simpl; [done|].
  assert (keys_ok (mark_row now vms vm)) as Hok'.
  { unfold mark_row. case_match; auto with celesto. }
  destruct (IH _ Hok') as [H1 H2]. split; [done|]. intros k Hk. apply H2.
  unfold mark_row. case_match; auto using dset_keeps.
Qed.

Lemma reconcile_preserves K now kill : preserves (reconcile K now kill).
Proof.
  apply preserves_tx. intros d d' r Hd [= <- <-].
  destruct (mark_rows_keys (now_iso now)
              (dkeys (filter (λ kr, row_is_stale kill kr.2 = true) (k_scan K (t_vms d))))
              (t_vms d)) as [H1 H2];
    [apply Hd|].
  by apply schema_with_vms.
Qed.
End schema.

(** ** Readable rows *)

Section rows.
Context (J : codecs).

Definition vm_readable (kr : string * vm_row) : Prop := ∃ i, vm_of_row J kr.1 kr.2 = Ret i.
Definition snapshot_readable (kr : string * snapshot_row) : Prop :=
  ∃ i, snapshot_info_from_row J kr.1 kr.2 = Ret i.
Definition session_readable (kr : string * browser_row) : Prop :=
  (∃ i, browser_session_info_from_row kr.1 kr.2 = Ret i)
  ∧ ∃ c, load (j_browser J) (w_config kr.2) = Ret c.

Record rows_ok (d : DB) : Prop := {
  ro_vms : Forall vm_readable (t_vms d);
  ro_snapshots : Forall snapshot_readable (t_snapshots d);
  ro_sessions : Forall session_readable (t_browser_sessions d) }.

Lemma Forall_dset {R} (P : string * R → Prop) k r (t : list (string * R)) :
  Forall P t → P (k, r) → Forall P (dset k r t).
Proof.
  intros Ht Hr. induction Ht as [|[k0 r0] t Hp Ht IH]; simpl; [by constructor|].
  case_decide; subst; by constructor.
Qed.
Lemma Forall_ddel {R} (P : string * R → Prop) k (t : list (string * R)) :
  Forall P t → Forall P (ddel k t).
Proof.
  induction 1 as [|[k0 r0] t Hp Ht IH]; simpl; [by constructor|]. case_decide; [done|by constructor].
Qed.
Lemma Forall_dget {R} (P : string * R → Prop) k r (t : list (string * R)) :
  Forall P t → dget k t = Some r → P (k, r).
Proof. rewrite Forall_forall. intros Ht Hk. by apply Ht, dget_Some_elem. Qed.

(** [m] leaves the tables of readable rows alone. *)
Definition frames {A} (m : py DB A) : Prop :=
  ∀ d, t_vms (m d).1 = t_vms d ∧ t_snapshots (m d).1 = t_snapshots d
       ∧ t_browser_sessions (m d).1 = t_browser_sessions d.
Definition keeps_rows {A} (m : py DB A) : Prop :=
  ∀ d d' r, rows_ok d → m d = (d', r) → rows_ok d'.

Lemma frames_keeps {A} (m : py DB A) : frames m → keeps_rows m.
Proof.
  intros Hf d d' r [] Hm. specialize (Hf d). rewrite Hm in Hf. simpl in Hf.
  destruct Hf as (H1 & H2 & H3). by split; rewrite ?H1, ?H2, ?H3.
Qed.
Lemma frames_tx {A} K (m : py DB A) : frames m → frames (_get_connection K m).
Proof.
  intros Hm d. destruct (_get_connection K m d) as [d' r] eqn:E.
  apply tx_cases in E as [[-> _]|(_ & E & _)]; [done|]. specialize (Hm d). by rewrite E in Hm.
Qed.
Lemma frames_nonempty {A} w s (m : py DB A) : frames m → frames (nonempty w s m).
Proof. intros Hm d. specialize (Hm d). unfold nonempty. by case_match. Qed.
Lemma frames_bind {A B} (m : py DB A) (k : A → py DB B) :
  frames m → (∀ a, frames (k a)) → frames (py_bind m k).
Proof.
  intros Hm Hk d. specialize (Hm d). unfold py_bind. destruct (m d) as [d1 [a|e]]; simpl in *; [|done].
  destruct (Hk a d1) as (-> & -> & ->). done.
Qed.
Lemma frames_pure {A} (m : py DB A) : pure m → frames m.
Proof. intros Hp d. by rewrite Hp. Qed.

Lemma keeps_tx {A} K (m : py DB A) : keeps_rows m → keeps_rows (_get_connection K m).
Proof. intros Hm d d' r Hd [[-> _]|(_ & E & _)]%tx_cases; eauto. Qed.
Lemma keeps_nonempty {A} w s (m : py DB A) : keeps_rows m → keeps_rows (nonempty w s m).
Proof. intros Hm d d' r Hd. unfold nonempty. case_match; [naive_solver|eauto]. Qed.
Lemma rows_keep_bind {A B} (m : py DB A) (k : A → py DB B) :
  keeps_rows m → (∀ a, pure (k a)) → keeps_rows (py_bind m k).
Proof.
  intros Hm Hk d d' r Hd. unfold py_bind. destruct (m d) as [d1 [a|e]] eqn:E.
  - intros Hkd. specialize (Hk a d1). rewrite Hkd in Hk. simpl in Hk. subst. eauto.
  - intros [= <- <-]. eauto.
Qed.
End rows.

#[export] Hint Resolve frames_tx frames_nonempty frames_pure pure_nonempty pure_raise
  pure_return : celesto.

Ltac solve_frames := repeat (case_match; simpl; try done).

Lemma insert_lease_frames ip r : frames (insert_lease ip r).
Proof. intros d. unfold insert_lease. solve_frames. Qed.
Lemma insert_forward_frames vm r : frames (insert_forward vm r).
Proof. intros d. unfold insert_forward. solve_frames. Qed.
Lemma insert_cid_frames vm r : frames (insert_cid vm r).
Proof. intros d. unfold insert_cid. solve_frames. Qed.
Lemma insert_tap_frames vm r : frames (insert_tap vm r).
Proof. intros d. unfold insert_tap. solve_frames. Qed.

Lemma reserve_frames {A} K (m : py DB (option A)) (e : exn) :
  frames m → frames (py_bind (_get_connection K m) (λ found,
    match found with Some a => py_return a | None => py_raise e end)).
Proof. intros Hm. apply frames_bind; [auto with celesto|]. intros []; auto with celesto. Qed.

Lemma store_frames {A} (m : py DB unit) (a : A) d :
  frames m → t_vms ((do! m in py_return a) d).1 = t_vms d
  ∧ t_snapshots ((do! m in py_return a) d).1 = t_snapshots d
  ∧ t_browser_sessions ((do! m in py_return a) d).1 = t_browser_sessions d.
Proof. intros Hm. apply frames_bind; auto with celesto. Qed.

Lemma allocate_ip_frames K now vm tap req : frames (allocate_ip K now vm tap req).
Proof.
  apply frames_nonempty, frames_nonempty, reserve_frames. intros d. cbv zeta.
  case_match; [by repeat case_match|]. case_free; [|done].
  apply store_frames. apply insert_lease_frames.
Qed.
Lemma reserve_ssh_port_frames K now vm gp hp ex : frames (reserve_ssh_port K now vm gp hp ex).
Proof.
  apply frames_nonempty. case_match; [auto with celesto|].
  destruct (match hp with Some _ => _ | None => _ end); [auto with celesto|].
  apply reserve_frames. intros d. cbv zeta.
  case_match; [by repeat case_match|]. case_free; [|done].
  apply store_frames. apply insert_forward_frames.
Qed.
Lemma reserve_vsock_cid_frames K now vm cid : frames (reserve_vsock_cid K now vm cid).
Proof.
  apply frames_nonempty. destruct (match cid with Some _ => _ | None => _ end); [auto with celesto|].
  apply reserve_frames. intros d. cbv zeta.
  case_match; [by repeat case_match|]. case_free; [|done].
  apply store_frames. apply insert_cid_frames.
Qed.
Lemma reserve_tap_name_frames K now vm mode br req tokens :
  frames (reserve_tap_name K now vm mode br req tokens).
Proof.
  apply frames_nonempty. case_match; [auto with celesto|]. apply frames_tx. intros d. cbv zeta.
  case_match; [by case_match|].
  repeat case_match; try done; apply store_frames; apply insert_tap_frames.
Qed.

(** ** Single transactions are atomic *)

Lemma release_ip_atomic K vm : atomic (release_ip K vm).
Proof. unfold release_ip. auto using atomic_nonempty, atomic_tx. Qed.
Lemma release_ssh_port_atomic K vm : atomic (release_ssh_port K vm).
Proof. unfold release_ssh_port. auto using atomic_nonempty, atomic_tx. Qed.
Lemma release_vsock_cid_atomic K vm : atomic (release_vsock_cid K vm).
Proof. unfold release_vsock_cid. auto using atomic_nonempty, atomic_tx. Qed.
Lemma release_tap_name_atomic K vm : atomic (release_tap_name K vm).
Proof. unfold release_tap_name. auto using atomic_nonempty, atomic_tx. Qed.
Lemma update_ip_lease_tap_atomic K vm tap : atomic (update_ip_lease_tap K vm tap).
Proof. unfold update_ip_lease_tap. auto using atomic_nonempty, atomic_tx. Qed.
Lemma delete_snapshot_atomic K sid : atomic (delete_snapshot K sid).
Proof. unfold delete_snapshot. auto using atomic_nonempty, atomic_tx. Qed.
Lemma delete_browser_session_atomic K sid : atomic (delete_browser_session K sid).
Proof. unfold delete_browser_session. auto using atomic_nonempty, atomic_tx. Qed.
Lemma reconcile_atomic K now kill : atomic (reconcile K now kill).
Proof. apply atomic_tx. Qed.
Lemma create_snapshot_atomic J K i : atomic (create_snapshot J K i).
Proof. apply atomic_bind; [apply atomic_tx|]. naive_solver. Qed.
Lemma create_browser_session_atomic J K now i c : atomic (create_browser_session J K now i c).
Proof. apply atomic_bind; [apply atomic_tx|]. naive_solver. Qed.

(** ** Operations on readable rows *)

Section keeps.
Context (J : codecs) (V : valids) (HJ : codecs_ok J V).

Lemma create_vm_keeps K now c : v_config V c → keeps_rows J (create_vm J K now c).
Proof using HJ.
  intros Hc. apply rows_keep_bind; [|auto with celesto]. apply keeps_tx. intros d d' r [Hv Hs Hw].
  unfold py_bind, py_get, py_raise, insert_vm. simpl.
  repeat case_match; intros; simplify_eq; split; simpl; try done.
  apply Forall_dset; [done|]. eexists. by eapply vm_of_row_new.
Qed.

Lemma update_vm_keeps K K' now vm u : update_valid V u → keeps_rows J (update_vm J K K' now vm u).
Proof using HJ.
  intros Hu. apply keeps_nonempty, rows_keep_bind; [|auto using get_vm_pure].
  apply keeps_tx. intros d d' r [Hv Hs Hw]. case_match eqn:Hr; intros; simplify_eq; split; simpl; try done.
  apply Forall_dset; [done|]. destruct (Forall_dget _ _ _ _ Hv Hr) as [i Hi].
  eexists. by eapply vm_of_row_update.
Qed.

Lemma delete_vm_keeps K vm : keeps_rows J (delete_vm K vm).
Proof using.
  apply keeps_nonempty, keeps_tx. intros d d' r [Hv Hs Hw]. case_match; intros; simplify_eq; [by split|].
  split; simpl; [by apply Forall_ddel|done|done].
Qed.

Lemma create_snapshot_keeps K i : snapshot_valid V i → keeps_rows J (create_snapshot J K i).
Proof using HJ.
  intros Hi. apply rows_keep_bind; [|auto with celesto]. apply keeps_tx. intros d d' r [Hv Hs Hw].
  unfold py_bind, py_get, py_raise, insert_snapshot. simpl.
  repeat case_match; intros; simplify_eq; split; simpl; try done.
  apply Forall_dset; [done|]. eexists. by eapply snapshot_row_roundtrip.
Qed.

Lemma mark_snapshot_restored_keeps K K' sid vm : keeps_rows J (mark_snapshot_restored J K K' sid vm).
Proof using.
  apply keeps_nonempty, keeps_nonempty, rows_keep_bind; [|auto using get_snapshot_pure].
  apply keeps_tx. intros d d' r [Hv Hs Hw]. case_match eqn:Hr; intros; simplify_eq; split; simpl; try done.
  apply Forall_dset; [done|]. destruct (Forall_dget _ _ _ _ Hs Hr) as [i Hi].
  eexists. by eapply snapshot_row_restored.
Qed.

Lemma delete_snapshot_keeps K sid : keeps_rows J (delete_snapshot K sid).
Proof using.
  apply keeps_nonempty, keeps_tx. intros d d' r [Hv Hs Hw]. case_match; intros; simplify_eq; [by split|].
  split; simpl; [done|by apply Forall_ddel|done].
Qed.

Lemma create_browser_session_keeps K now i c :
  session_valid i → v_browser V c → keeps_rows J (create_browser_session J K now i c).
Proof using HJ.
  intros Hi Hc. apply rows_keep_bind; [|auto with celesto]. apply keeps_tx. intros d d' r [Hv Hs Hw].
  unfold py_bind, py_get, py_raise, insert_session. simpl.
  repeat case_match; intros; simplify_eq; split; simpl; try done.
  apply Forall_dset; [done|]. split; [eexists; by eapply session_row_roundtrip|].
  exists c. by apply (jo_browser _ _ HJ).
Qed.

Lemma update_browser_session_keeps K K' now sid u :
  session_update_valid V u → keeps_rows J (update_browser_session J K K' now sid u).
Proof using HJ.
  intros Hu. apply keeps_nonempty, rows_keep_bind; [|auto using get_browser_session_pure].
  apply keeps_tx. intros d d' r [Hv Hs Hw]. case_match eqn:Hr; intros; simplify_eq; split; simpl; try done.
  apply Forall_dset; [done|]. destruct (Forall_dget _ _ _ _ Hw Hr) as [[i Hi] [c Hc]].
  split; [eexists; by eapply session_row_update|]. simpl in *.
  destruct (b_config u) as [c'|] eqn:E; simpl; [|eauto].
  exists c'. apply (jo_browser _ _ HJ). by apply (buv_config _ _ Hu).
Qed.

Lemma delete_browser_session_keeps K sid : keeps_rows J (delete_browser_session K sid).
Proof using.
  apply keeps_nonempty, keeps_tx. intros d d' r [Hv Hs Hw]. case_match; intros; simplify_eq; [by split|].
  split; simpl; [done|done|by apply Forall_ddel].
Qed.

Lemma mark_rows_readable now stale vms :
  Forall (vm_readable J) vms → Forall (vm_readable J) (fold_left (mark_row now) stale vms).
Proof using.
  revert vms. induction stale as [|vm stale IH]; intros vms Hv; simpl; [done|]. apply IH.
  unfold mark_row. case_match eqn:Hr; [|done]. apply Forall_dset; [done|].
  destruct (Forall_dget _ _ _ _ Hv Hr) as [i Hi]. eexists. by eapply vm_of_row_error.
Qed.

Lemma reconcile_keeps K now kill : keeps_rows J (reconcile K now kill).
Proof using.
  apply keeps_tx. intros d d' r [Hv Hs Hw] [= <- <-]. split; simpl; [|done|done].
  by apply mark_rows_readable.
Qed.

(** ** Calls that update a row and read it back

    The UPDATE is committed before the row is read over a second connection.
    The row it reads is readable, so the call raises with the update in place
    only when that second connection fails. *)

(** Every statement works and rows are visited in the order of the table. *)
Definition calm : conn :=
  {| k_open := None; k_statement := None; k_commit := None; k_rollback := None;
     k_scan := λ _ rows, rows |}.

Lemma fetching_commits {A B} K (q : DB → A) (k : A → py DB B) d :
  commits K → fetching K q k d = k (q d) d.
Proof using.
  intros HK. unfold fetching, py_bind.
  by rewrite (tx_commits K (λ d, (d, Ret (q d))) d d (q d)).
Qed.

Lemma get_vm_reads K vm r i d :
  commits K → vm ≠ "" → dget vm (t_vms d) = Some r → vm_of_row J vm r = Ret i →
  get_vm J K vm d = (d, Ret i).
Proof using.
  intros HK Hvm Hr Hi. unfold get_vm, nonempty. rewrite (proj2 (String.eqb_neq vm "")) by done.
  rewrite fetching_commits, Hr by done. unfold py_lift. by rewrite Hi.
Qed.
Lemma get_snapshot_reads K sid r i d :
  commits K → sid ≠ "" → dget sid (t_snapshots d) = Some r →
  snapshot_info_from_row J sid r = Ret i → get_snapshot J K sid d = (d, Ret i).
Proof using.
  intros HK Hvm Hr Hi. unfold get_snapshot, nonempty.
  rewrite (proj2 (String.eqb_neq sid "")) by done.
  rewrite fetching_commits, Hr by done. unfold py_lift. by rewrite Hi.
Qed.
Lemma get_browser_session_reads K sid r i d :
  commits K → sid ≠ "" → dget sid (t_browser_sessions d) = Some r →
  browser_session_info_from_row sid r = Ret i → get_browser_session K sid d = (d, Ret i).
Proof using.
  intros HK Hvm Hr Hi. unfold get_browser_session, nonempty.
  rewrite (proj2 (String.eqb_neq sid "")) by done.
  rewrite fetching_commits, Hr by done. unfold py_lift. by rewrite Hi.
Qed.

(** A transaction [m] followed by the read [k]: when it raises, either nothing
    changed, or [m] was committed and the connection [K'] of the read failed. *)
Lemma update_then_read {A} K K' (m : py DB unit) (k : conn → py DB A) d d' e :
  (do! _get_connection K m in k K') d = (d', Raise e) → (∀ K, pure (k K)) →
  (∀ d1 K, m d = (d1, Ret tt) → commits K → ∃ a, k K d1 = (d1, Ret a)) →
  d' = d ∨ ¬ commits K' ∧ d' = ((do! _get_connection calm m in k calm) d).1.
Proof using.
  unfold py_bind. destruct (_get_connection K m d) as [d1 r] eqn:E.
  apply tx_cases in E as [[-> [e1 ->]]|(HK & E & a & ->)]; [naive_solver|]. destruct a.
  intros Hk Hp Hread. right. pose proof (Hp K' d1) as Hp1. rewrite Hk in Hp1. simpl in Hp1. subst.
  rewrite (tx_commits calm m d d1 tt) by done. rewrite Hp. split; [|done]. intros HK'.
  destruct (Hread d1 K' E HK') as [a Ha]. by rewrite Ha in Hk.
Qed.

Lemma update_vm_atomic K K' now vm u d d' e :
  update_valid V u → rows_ok J d → update_vm J K K' now vm u d = (d', Raise e) →
  d' = d ∨ ¬ commits K' ∧ d' = (update_vm J calm calm now vm u d).1.
Proof using HJ.
  intros Hu [Hv _ _]. unfold update_vm, nonempty. case_match eqn:Hvm; [naive_solver|].
  intros Hm. apply (update_then_read K K' _ (λ K, get_vm J K vm) d d' e Hm);
    [intros; apply get_vm_pure|].
  intros d1 K1. destruct (dget vm (t_vms d)) as [r|] eqn:Hr; [|done]. intros [= <-] HK1.
  destruct (Forall_dget _ _ _ _ Hv Hr) as [i Hi]. eexists. eapply get_vm_reads; [done| | |].
  - by apply String.eqb_neq.
  - simpl. apply dget_dset_eq.
  - by eapply vm_of_row_update.
Qed.

Lemma mark_snapshot_restored_atomic K K' sid vm d d' e :
  rows_ok J d → mark_snapshot_restored J K K' sid vm d = (d', Raise e) →
  d' = d ∨ ¬ commits K' ∧ d' = (mark_snapshot_restored J calm calm sid vm d).1.
Proof using.
  intros [_ Hs _]. unfold mark_snapshot_restored, nonempty.
  case_match eqn:Hsid; [naive_solver|]. case_match; [naive_solver|].
  intros Hm. apply (update_then_read K K' _ (λ K, get_snapshot J K sid) d d' e Hm);
    [intros; apply get_snapshot_pure|].
  intros d1 K1. destruct (dget sid (t_snapshots d)) as [r|] eqn:Hr; [|done]. intros [= <-] HK1.
  destruct (Forall_dget _ _ _ _ Hs Hr) as [i Hi]. eexists. eapply get_snapshot_reads; [done| | |].
  - by apply String.eqb_neq.
  - simpl. apply dget_dset_eq.
  - by eapply snapshot_row_restored.
Qed.

Lemma update_browser_session_atomic K K' now sid u d d' e :
  session_update_valid V u → rows_ok J d →
  update_browser_session J K K' now sid u d = (d', Raise e) →
  d' = d ∨ ¬ commits K' ∧ d' = (update_browser_session J calm calm now sid u d).1.
Proof using.
  intros Hu [_ _ Hw]. unfold update_browser_session, nonempty. case_match eqn:Hsid; [naive_solver|].
  intros Hm. apply (update_then_read K K' _ (λ K, get_browser_session K sid) d d' e Hm);
    [intros; apply get_browser_session_pure|].
  intros d1 K1. destruct (dget sid (t_browser_sessions d)) as [r|] eqn:Hr; [|done].
  intros [= <-] HK1. destruct (Forall_dget _ _ _ _ Hw Hr) as [[i Hi] _]. eexists.
  eapply get_browser_session_reads; [done| | |].
  - by apply String.eqb_neq.
  - simpl. apply dget_dset_eq.
  - by eapply session_row_update.
Qed.

(** ** The calls of the manager *)

Inductive sql_call :=
| CallCreateVm (now : datetime) (c : VMConfig)
| CallGetVm (vm : string)
| CallUpdateVm (now : datetime) (vm : string) (u : vm_update)
| CallDeleteVm (vm : string)
| CallListVms (st : option VMState)
| CallAllocateIp (now : datetime) (vm tap : string) (requested : option string)
| CallReleaseIp (vm : string)
| CallGetIpLease (vm : string)
| CallUpdateIpLeaseTap (vm tap : string)
| CallReserveSshPort (now : datetime) (vm : string) (guest_port : Z) (host_port : option Z)
    (excluded : option (list Z))
| CallGetSshPort (vm : string)
| CallReleaseSshPort (vm : string)
| CallReserveVsockCid (now : datetime) (vm : string) (guest_cid : option Z)
| CallGetVsockCid (vm : string)
| CallReleaseVsockCid (vm : string)
| CallReserveTapName (now : datetime) (vm mode : string) (bridge requested : option string)
    (tokens : nat → string)
| CallGetTapAllocation (vm : string)
| CallReleaseTapName (vm : string)
| CallCreateSnapshot (i : SnapshotInfo)
| CallGetSnapshot (sid : string)
| CallListSnapshots (vm : option string)
| CallMarkSnapshotRestored (sid vm : string)
| CallDeleteSnapshot (sid : string)
| CallCreateBrowserSession (now : datetime) (i : BrowserSessionInfo) (c : BrowserSessionConfig)
| CallGetBrowserSession (sid : string)
| CallGetBrowserSessionConfig (sid : string)
| CallUpdateBrowserSession (now : datetime) (sid : string) (u : browser_update)
| CallDeleteBrowserSession (sid : string)
| CallListBrowserSessions (st : option BrowserSessionState)
| CallReconcile (now : datetime) (kill : Z → kill_result).

(** The model instances a call is given are valid. *)
Definition call_valid (call : sql_call) : Prop :=
  match call with
  | CallCreateVm _ c => v_config V c
  | CallUpdateVm _ _ u => update_valid V u
  | CallCreateSnapshot i => snapshot_valid V i
  | CallCreateBrowserSession _ i c => session_valid i ∧ v_browser V c
  | CallUpdateBrowserSession _ _ u => session_update_valid V u
  | _ => True
  end.

(** The calls that read back what they wrote, over a second connection. *)
Definition reads_back (call : sql_call) : bool :=
  match call with
  | CallUpdateVm _ _ _ | CallMarkSnapshotRestored _ _ | CallUpdateBrowserSession _ _ _ => true
  | _ => false
  end.

Definition void {A} (m : py DB A) : py DB unit := do! m in py_return tt.

(** The call on connection [K], and [K'] when it opens a second one. *)
Definition sql_do (K K' : conn) (call : sql_call) : py DB unit :=
  match call with
  | CallCreateVm now c => void (create_vm J K now c)
  | CallGetVm vm => void (get_vm J K vm)
  | CallUpdateVm now vm u => void (update_vm J K K' now vm u)
  | CallDeleteVm vm => delete_vm K vm
  | CallListVms st => void (list_vms J K st)
  | CallAllocateIp now vm dev requested => void (allocate_ip K now vm dev requested)
  | CallReleaseIp vm => release_ip K vm
  | CallGetIpLease vm => void (get_ip_lease K vm)
  | CallUpdateIpLeaseTap vm dev => update_ip_lease_tap K vm dev
  | CallReserveSshPort now vm gp hp ex => void (reserve_ssh_port K now vm gp hp ex)
  | CallGetSshPort vm => void (get_ssh_port K vm)
  | CallReleaseSshPort vm => release_ssh_port K vm
  | CallReserveVsockCid now vm cid => void (reserve_vsock_cid K now vm cid)
  | CallGetVsockCid vm => void (get_vsock_cid K vm)
  | CallReleaseVsockCid vm => release_vsock_cid K vm
  | CallReserveTapName now vm mode br req tokens =>
      void (reserve_tap_name K now vm mode br req tokens)
  | CallGetTapAllocation vm => void (get_tap_allocation K vm)
  | CallReleaseTapName vm => release_tap_name K vm
  | CallCreateSnapshot i => void (create_snapshot J K i)
  | CallGetSnapshot sid => void (get_snapshot J K sid)
  | CallListSnapshots vm => void (list_snapshots J K vm)
  | CallMarkSnapshotRestored sid vm => void (mark_snapshot_restored J K K' sid vm)
  | CallDeleteSnapshot sid => delete_snapshot K sid
  | CallCreateBrowserSession now i c => void (create_browser_session J K now i c)
  | CallGetBrowserSession sid => void (get_browser_session K sid)
  | CallGetBrowserSessionConfig sid => void (get_browser_session_config J K sid)
  | CallUpdateBrowserSession now sid u => void (update_browser_session J K K' now sid u)
  | CallDeleteBrowserSession sid => delete_browser_session K sid
  | CallListBrowserSessions st => void (list_browser_sessions K st)
  | CallReconcile now kill => void (reconcile K now kill)
  end.

(** One call, whatever its connections do. *)
Definition sql_reach : relation DB := λ d d',
  ∃ K K' call, call_valid call ∧ d' = (sql_do K K' call d).1.

Lemma void_inv {A} (m : py DB A) d d' r :
  void m d = (d', r) → ∃ r0, m d = (d', r0) ∧ raised r0 = raised r.
Proof using. unfold void, py_bind. destruct (m d) as [d1 []]; intros [= <- <-]; eauto. Qed.
Lemma void_state {A} (m : py DB A) d : (void m d).1 = (m d).1.
Proof using. unfold void, py_bind. by destruct (m d) as [d1 []]. Qed.
Lemma void_raises {A} (m : py DB A) d d' e : void m d = (d', Raise e) → m d = (d', Raise e).
Proof using. unfold void, py_bind. by destruct (m d) as [d1 []]; intros [= <- <-]. Qed.
Lemma preserves_void {A} (m : py DB A) : preserves m → preserves (void m).
Proof using. intros Hm d d' r Hd (r0 & E & _)%void_inv. eauto. Qed.
Lemma keeps_void {A} (m : py DB A) : keeps_rows J m → keeps_rows J (void m).
Proof using. intros Hm d d' r Hd (r0 & E & _)%void_inv. eauto. Qed.
Lemma atomic_void {A} (m : py DB A) : atomic m → atomic (void m).
Proof using. intros Hm d d' e E%void_raises. eauto. Qed.

(** The calls that only read. *)
Definition reads (call : sql_call) : bool :=
  match call with
  | CallGetVm _ | CallListVms _ | CallGetIpLease _ | CallGetSshPort _ | CallGetVsockCid _
  | CallGetTapAllocation _ | CallGetSnapshot _ | CallListSnapshots _ | CallGetBrowserSession _
  | CallGetBrowserSessionConfig _ | CallListBrowserSessions _ => true
  | _ => false
  end.

Lemma reads_pure K K' call : reads call = true → pure (sql_do K K' call).
Proof using.
  destruct call; try done; intros _ d; cbn [sql_do]; rewrite void_state; revert d;
    repeat apply pure_nonempty; apply pure_fetching; try done; by intros [].
Qed.

Lemma sql_do_schema K K' call : preserves (sql_do K K' call).
Proof using.
  destruct (reads call) eqn:Hr; [by apply pure_preserves, reads_pure|].
  destruct call; try discriminate Hr; clear Hr; cbn [sql_do]; try apply preserves_void.
  - apply create_vm_preserves.
  - apply update_vm_preserves.
  - apply delete_vm_preserves.
  - apply allocate_ip_preserves.
  - apply release_ip_preserves.
  - apply update_ip_lease_tap_preserves.
  - apply reserve_ssh_port_preserves.
  - apply release_ssh_port_preserves.
  - apply reserve_vsock_cid_preserves.
  - apply release_vsock_cid_preserves.
  - apply reserve_tap_name_preserves.
  - apply release_tap_name_preserves.
  - apply create_snapshot_preserves.
  - apply mark_snapshot_restored_preserves.
  - apply delete_snapshot_preserves.
  - apply create_browser_session_preserves.
  - apply update_browser_session_preserves.
  - apply delete_browser_session_preserves.
  - apply reconcile_preserves.
Qed.

Lemma sql_do_rows K K' call : call_valid call → keeps_rows J (sql_do K K' call).
Proof using HJ.
  destruct (reads call) eqn:Hr; [intros _; by apply frames_keeps, frames_pure, reads_pure|].
  destruct call; try discriminate Hr; clear Hr; cbn [sql_do call_valid]; intros Hv;
    try apply keeps_void.
  - by apply create_vm_keeps.
  - by apply update_vm_keeps.
  - apply delete_vm_keeps.
  - apply frames_keeps, allocate_ip_frames.
  - by apply frames_keeps, frames_nonempty, frames_tx.
  - by apply frames_keeps, frames_nonempty, frames_nonempty, frames_tx.
  - apply frames_keeps, reserve_ssh_port_frames.
  - by apply frames_keeps, frames_nonempty, frames_tx.
  - apply frames_keeps, reserve_vsock_cid_frames.
  - by apply frames_keeps, frames_nonempty, frames_tx.
  - apply frames_keeps, reserve_tap_name_frames.
  - by apply frames_keeps, frames_nonempty, frames_tx.
  - by apply create_snapshot_keeps.
  - apply mark_snapshot_restored_keeps.
  - apply delete_snapshot_keeps.
  - destruct Hv. by apply create_browser_session_keeps.
  - by apply update_browser_session_keeps.
  - apply delete_browser_session_keeps.
  - apply reconcile_keeps.
Qed.

Lemma sql_reach_inv d : rtc sql_reach db_init d → schema_ok d ∧ rows_ok J d.
Proof using HJ.
  intros Hst. assert (∀ d0, rtc sql_reach d0 d → schema_ok d0 ∧ rows_ok J d0 →
    schema_ok d ∧ rows_ok J d) as Hgen.
  { clear Hst. induction 1 as [|d1 d2 d3 (K & K' & call & Hv & ->) _ IH]; [done|]. intros [].
    apply IH. destruct (sql_do K K' call d1) as [d2 r] eqn:E.
    split; [by eapply sql_do_schema|by eapply (sql_do_rows K K' call Hv)]. }
  apply (Hgen _ Hst). split; [apply db_init_schema|]. split; simpl; constructor.
Qed.

Lemma sql_do_atomic K K' call d d' e :
  call_valid call → rows_ok J d → sql_do K K' call d = (d', Raise e) →
  d' = d ∨ reads_back call = true ∧ ¬ commits K' ∧ d' = (sql_do calm calm call d).1.
Proof using HJ.
  intros Hv Hd. destruct (reads call) eqn:Hr; [intros E; left; by eapply pure_atomic, E; apply reads_pure|].
  destruct call; try discriminate Hr; clear Hr; cbn [sql_do call_valid reads_back] in *;
    rewrite ?void_state; intros E; try apply void_raises in E.
  - left. by eapply create_vm_atomic.
  - apply update_vm_atomic in E; naive_solver.
  - left. by eapply delete_vm_atomic.
  - left. by eapply allocate_ip_atomic.
  - left. by eapply release_ip_atomic.
  - left. by eapply update_ip_lease_tap_atomic.
  - left. by eapply reserve_ssh_port_atomic.
  - left. by eapply release_ssh_port_atomic.
  - left. by eapply reserve_vsock_cid_atomic.
  - left. by eapply release_vsock_cid_atomic.
  - left. by eapply reserve_tap_name_atomic.
  - left. by eapply release_tap_name_atomic.
  - left. by eapply create_snapshot_atomic.
  - apply mark_snapshot_restored_atomic in E; naive_solver.
  - left. by eapply delete_snapshot_atomic.
  - left. by eapply create_browser_session_atomic.
  - apply update_browser_session_atomic in E; naive_solver.
  - left. by eapply delete_browser_session_atomic.
  - left. by eapply reconcile_atomic.
Qed.

(** ** The code's own checks come before the constraints *)

(** [m] on [d] raises [IntegrityError] only with a message in [Q]. *)
Definition integrity {A} (m : py DB A) (d : DB) (Q : string → Prop) : Prop :=
  ∀ d' msg, m d = (d', Raise (IntegrityError msg)) → Q msg.

Lemma integrity_nonempty {A} w s (m : py DB A) d Q : integrity m d Q → integrity (nonempty w s m) d Q.
Proof using. intros Hm d' msg. unfold nonempty. case_match; [done|]. apply Hm. Qed.
Lemma integrity_tx {A} K (m : py DB A) d Q :
  working K → integrity m d Q → integrity (_get_connection K m) d Q.
Proof using.
  intros HK Hm d' msg. rewrite tx_working by done. destruct (m d) as [d1 [a|e]] eqn:E; [done|].
  intros [= <- ->]. by eapply Hm.
Qed.
Lemma integrity_bind {A B} (m : py DB A) (k : A → py DB B) d Q :
  integrity m d Q → (∀ a d1, m d = (d1, Ret a) → integrity (k a) d1 Q) →
  integrity (py_bind m k) d Q.
Proof using.
  intros Hm Hk d' msg. unfold py_bind. destruct (m d) as [d1 [a|e]] eqn:E; [by apply Hk|].
  intros [= <- ->]. by eapply Hm.
Qed.
Lemma integrity_void {A} (m : py DB A) d Q : integrity m d Q → integrity (void m) d Q.
Proof using. intros Hm d' msg E%void_raises. by eapply Hm. Qed.
Lemma integrity_fetching {A B} K (q : DB → A) (k : A → py DB B) d Q :
  commits K → integrity (k (q d)) d Q → integrity (fetching K q k) d Q.
Proof using. intros HK Hk d' msg. rewrite fetching_commits by done. apply Hk. Qed.
Lemma integrity_reserve {A} K (m : py DB (option A)) e d Q :
  working K → integrity m d Q → (∀ msg, e ≠ IntegrityError msg) →
  integrity (py_bind (_get_connection K m) (λ found,
    match found with Some a => py_return a | None => py_raise e end)) d Q.
Proof using.
  intros HK Hm He. apply integrity_bind; [by apply integrity_tx|].
  intros [a|] d1 _ d' msg; [done|]. intros [= <- E]. by apply He in E.
Qed.

(** What is left for a constraint to refuse: a reservation for a computer that
    has no row, and a second browser session of a computer. *)
Definition refused (d : DB) (call : sql_call) (msg : string) : Prop :=
  match call with
  | CallAllocateIp _ vm _ _ | CallReserveSshPort _ vm _ _ _ | CallReserveVsockCid _ vm _
  | CallReserveTapName _ vm _ _ _ _ =>
      IntegrityError msg = foreign_key_error ∧ dget vm (t_vms d) = None
  | CallCreateBrowserSession _ i _ =>
      IntegrityError msg = unique_error "browser_sessions.vm_id"
      ∧ ∃ sid r, (sid, r) ∈ t_browser_sessions d ∧ w_vm_id r = bs_vm_id i
  | _ => False
  end.
(** *** Reading rows *)

(** Every row of the table is visited, each once. *)
Definition scan_ok (K : conn) : Prop := ∀ R (rows : list R), k_scan K rows ≡ₚ rows.

Lemma order_insert_perm {R} (key : R → string) r rs : order_insert key r rs ≡ₚ r :: rs.
Proof using.
  induction rs as [|r' rs IH]; simpl; [done|]. case_match; [done|]. rewrite IH. by constructor.
Qed.
Lemma order_by_perm {R} (key : R → string) rs : order_by key rs ≡ₚ rs.
Proof using. induction rs as [|r rs IH]; simpl; [done|]. by rewrite order_insert_perm, IH. Qed.

Lemma read_rows_ok {R A} (read : string → R → outcome A) rows :
  Forall (λ kr, ∃ i, read kr.1 kr.2 = Ret i) rows → ∃ infos, read_rows read rows = Ret infos.
Proof using.
  induction 1 as [|kr rows [i Hi] _ [infos IH]]; [by exists []|]. exists (i :: infos).
  unfold read_rows in *. simpl. by rewrite Hi, IH.
Qed.

Lemma list_rows_integrity {R A} K (key : string * R → string) (read : string → R → outcome A)
    (rows : DB → list (string * R)) d Q :
  working K → scan_ok K → Forall (λ kr, ∃ i, read kr.1 kr.2 = Ret i) (rows d) →
  integrity (fetching K (λ d, order_by key (k_scan K (rows d)))
               (λ rs, py_lift (read_rows read rs))) d Q.
Proof using.
  intros [HK _] Hs Hrows. apply integrity_fetching; [done|]. intros d' msg.
  destruct (read_rows_ok read (order_by key (k_scan K (rows d)))) as [infos E].
  - by rewrite order_by_perm, (Hs _ (rows d)).
  - unfold py_lift. by rewrite E.
Qed.

Lemma Forall_filtered {A} (P Q : A → Prop) `{∀ x, Decision (Q x)} (l : list A) :
  Forall P l → Forall P (filter Q l).
Proof using.
  rewrite !Forall_forall. intros Hl x Hx. apply list_elem_of_filter in Hx as [_ Hx]. eauto.
Qed.

Lemma reads_integrity K K' call d Q :
  working K → scan_ok K → rows_ok J d → reads call = true → integrity (sql_do K K' call) d Q.
Proof using.
  intros HK Hs [Hv Hsn Hw]. pose proof HK as [HC _].
  destruct call; try done; intros _; cbn [sql_do]; apply integrity_void;
    repeat apply integrity_nonempty;
    try (apply integrity_fetching; [done|]; done).
  - apply integrity_fetching; [done|]. destruct (dget vm (t_vms d)) eqn:E; [|done].
    destruct (Forall_dget _ _ _ _ Hv E) as [i Hi]. intros d' msg. unfold py_lift. simpl in Hi. by rewrite Hi.
  - apply list_rows_integrity; [done|done|]. case_match; [by apply Forall_filtered|done].
  - apply integrity_fetching; [done|]. destruct (dget sid (t_snapshots d)) eqn:E; [|done].
    destruct (Forall_dget _ _ _ _ Hsn E) as [i Hi]. intros d' msg. unfold py_lift. simpl in Hi. by rewrite Hi.
  - apply list_rows_integrity; [done|done|]. case_match; [by apply Forall_filtered|done].
  - apply integrity_fetching; [done|]. destruct (dget sid (t_browser_sessions d)) eqn:E; [|done].
    destruct (Forall_dget _ _ _ _ Hw E) as [[i Hi] _]. intros d' msg. unfold py_lift. simpl in Hi. by rewrite Hi.
  - apply integrity_fetching; [done|]. destruct (dget sid (t_browser_sessions d)) eqn:E; [|done].
    destruct (Forall_dget _ _ _ _ Hw E) as [_ [c Hc]]. intros d' msg. unfold py_lift. simpl in Hc. by rewrite Hc.
  - apply (list_rows_integrity K (λ kr, w_created_at kr.2) browser_session_info_from_row
             (λ d, match st with Some st => _ | None => _ end)); [done|done|].
    assert (Forall (λ kr, ∃ i, browser_session_info_from_row kr.1 kr.2 = Ret i)
              (t_browser_sessions d)) as Hw'.
    { eapply Forall_impl; [exact Hw|]. intros kr [Hi _]. exact Hi. }
    case_match; [by apply Forall_filtered|done].
Qed.

(** *** Reservations *)

Lemma first_free_fresh {B} `{EqDecision B} (used cands : list B) c :
  first_free used cands = Some c → c ∉ used.
Proof using.
  unfold first_free. intros Hf. apply List.find_some in Hf as [_ Hf]. by bool_hyps.
Qed.
Lemma column_fresh {R B} `{EqDecision B} (f : R → B) v (t : dict string R) :
  v ∉ f <$> dvalues t → column_has f v t = false.
Proof using.
  intros Hv. unfold column_has, where_row, is_some. destruct (list_find _ t) as [[i kr]|] eqn:Hf; [|done].
  apply list_find_Some in Hf as (Hl & Hr & _). destruct Hv. rewrite <-Hr. unfold dvalues.
  apply list_elem_of_fmap_2, list_elem_of_fmap_2. by eapply list_elem_of_lookup_2.
Qed.

Lemma store_integrity {A} (m : py DB unit) (a : A) d Q :
  integrity m d Q → integrity (do! m in py_return a) d Q.
Proof using. intros Hm. by apply integrity_bind. Qed.

Lemma fk_only vm d :
  negb (dmem vm (t_vms d)) = true →
  IntegrityError "FOREIGN KEY constraint failed" = foreign_key_error ∧ dget vm (t_vms d) = None.
Proof using. intros Hm. split; [done|]. apply dmem_false. by destruct (dmem _ _). Qed.

Lemma allocate_ip_integrity K now vm dev req d :
  working K → integrity (allocate_ip K now vm dev req) d
    (λ msg, IntegrityError msg = foreign_key_error ∧ dget vm (t_vms d) = None).
Proof using.
  intros HK. apply integrity_nonempty, integrity_nonempty, integrity_reserve; [done| |done].
  intros d' msg. cbv zeta.
  destruct (where_row l_vm_id vm (t_ip_leases d)) as [[ip r]|] eqn:Hw; [by repeat case_match|].
  case_match eqn:Hf; [|done]. apply first_free_fresh in Hf. revert d' msg.
  apply store_integrity. intros d' msg. unfold insert_lease, column_has. cbn [l_vm_id].
  unfold dmem at 1. rewrite dget_notin, Hw by done. cbn [is_some].
  destruct (negb (dmem vm (t_vms d))) eqn:Hm; [|done]. intros [= <- <-].
  by apply fk_only.
Qed.
Lemma reserve_ssh_port_integrity K now vm gp hp ex d :
  working K → integrity (reserve_ssh_port K now vm gp hp ex) d
    (λ msg, IntegrityError msg = foreign_key_error ∧ dget vm (t_vms d) = None).
Proof using.
  intros HK. apply integrity_nonempty. case_match; [done|].
  destruct (match hp with Some _ => _ | None => _ end); [done|].
  apply integrity_reserve; [done| |done]. intros d' msg. cbv zeta.
  destruct (dget vm (t_ssh_forwards d)) eqn:Hg; [by repeat case_match|].
  case_match eqn:Hf; [|done]. apply first_free_fresh in Hf. rewrite elem_of_app in Hf. revert d' msg.
  apply store_integrity. intros d' msg. unfold insert_forward. cbn [f_host_port].
  unfold dmem at 1. rewrite Hg, column_fresh by tauto. cbn [is_some].
  destruct (negb (dmem vm (t_vms d))) eqn:Hm; [|done]. intros [= <- <-].
  by apply fk_only.
Qed.
Lemma reserve_vsock_cid_integrity K now vm cid d :
  working K → integrity (reserve_vsock_cid K now vm cid) d
    (λ msg, IntegrityError msg = foreign_key_error ∧ dget vm (t_vms d) = None).
Proof using.
  intros HK. apply integrity_nonempty.
  destruct (match cid with Some _ => _ | None => _ end); [done|].
  apply integrity_reserve; [done| |done]. intros d' msg. cbv zeta.
  destruct (dget vm (t_vsock_cids d)) eqn:Hg; [by repeat case_match|].
  case_match eqn:Hf; [|done]. apply first_free_fresh in Hf. revert d' msg.
  apply store_integrity. intros d' msg. unfold insert_cid. cbn [c_guest_cid].
  unfold dmem at 1. rewrite Hg, column_fresh by done. cbn [is_some].
  destruct (negb (dmem vm (t_vms d))) eqn:Hm; [|done]. intros [= <- <-].
  by apply fk_only.
Qed.
Lemma insert_tap_integrity vm r d :
  dget vm (t_tap_allocations d) = None →
  column_has t_tap_device (t_tap_device r) (t_tap_allocations d) = false →
  integrity (do! insert_tap vm r in py_return (t_tap_device r)) d
    (λ msg, IntegrityError msg = foreign_key_error ∧ dget vm (t_vms d) = None).
Proof using.
  intros Hg Hc. apply store_integrity. intros d' msg. unfold insert_tap. unfold dmem at 1.
  rewrite Hg, Hc. cbn [is_some]. destruct (negb (dmem vm (t_vms d))) eqn:Hm; [|done]. intros [= <- <-].
  by apply fk_only.
Qed.
Lemma reserve_tap_name_integrity K now vm mode br req tokens d :
  working K → integrity (reserve_tap_name K now vm mode br req tokens) d
    (λ msg, IntegrityError msg = foreign_key_error ∧ dget vm (t_vms d) = None).
Proof using.
  intros HK. apply integrity_nonempty. case_match; [done|]. apply integrity_tx; [done|].
  intros d' msg. cbv zeta. destruct (dget vm (t_tap_allocations d)) eqn:Hg; [by case_match|].
  case_match.
  - case_match eqn:Hc; [done|]. by apply (insert_tap_integrity vm {| t_tap_device := _ |}).
  - case_match eqn:Hf; [|done]. apply tap_search_fresh, column_fresh in Hf.
    by apply (insert_tap_integrity vm {| t_tap_device := _ |}).
Qed.

(** *** Every call *)

Lemma update_integrity {A} K (m : py DB unit) (k : py DB A) d Q :
  working K → integrity m d Q → (∀ d1, m d = (d1, Ret tt) → ∃ a, k d1 = (d1, Ret a)) →
  integrity (do! _get_connection K m in k) d Q.
Proof using.
  intros HK Hm Hk. apply integrity_bind; [by apply integrity_tx|]. intros [] d1.
  rewrite tx_working by done. destruct (m d) as [d2 [[]|e]]; [|done]. intros [= <-].
  destruct (Hk d2) as [a Ha]; [done|]. intros d' msg. by rewrite Ha.
Qed.

Lemma reads_back_integrity K K' call d Q :
  working K → working K' → rows_ok J d → call_valid call → reads_back call = true →
  integrity (sql_do K K' call) d Q.
Proof using HJ.
  intros HK [HK' _] [Hv Hs Hw] Hc. destruct call; try done; intros _; cbn [sql_do call_valid] in *;
    apply integrity_void.
  - intros d' msg. unfold update_vm, nonempty. case_match eqn:Hvm; [done|]. revert d' msg.
    apply update_integrity; [done|by intros d' msg; case_match|]. intros d1.
    destruct (dget vm (t_vms d)) as [r|] eqn:Hr; [|done]. intros [= <-].
    destruct (Forall_dget _ _ _ _ Hv Hr) as [i Hi]. eexists. eapply get_vm_reads; [done| | |].
    + by apply String.eqb_neq.
    + simpl. apply dget_dset_eq.
    + by eapply vm_of_row_update.
  - intros d' msg. unfold mark_snapshot_restored, nonempty. case_match eqn:Hsid; [done|].
    case_match; [done|]. revert d' msg.
    apply update_integrity; [done|by intros d' msg; case_match|]. intros d1.
    destruct (dget sid (t_snapshots d)) as [r|] eqn:Hr; [|done]. intros [= <-].
    destruct (Forall_dget _ _ _ _ Hs Hr) as [i Hi]. eexists. eapply get_snapshot_reads; [done| | |].
    + by apply String.eqb_neq.
    + simpl. apply dget_dset_eq.
    + by eapply snapshot_row_restored.
  - intros d' msg. unfold update_browser_session, nonempty. case_match eqn:Hsid; [done|]. revert d' msg.
    apply update_integrity; [done|by intros d' msg; case_match|]. intros d1.
    destruct (dget sid (t_browser_sessions d)) as [r|] eqn:Hr; [|done]. intros [= <-].
    destruct (Forall_dget _ _ _ _ Hw Hr) as [[i Hi] _]. eexists.
    eapply get_browser_session_reads; [done| | |].
    + by apply String.eqb_neq.
    + simpl. apply dget_dset_eq.
    + by eapply session_row_update.
Qed.

Lemma sql_do_integrity K K' call d :
  working K → working K' → scan_ok K → rows_ok J d → call_valid call →
  integrity (sql_do K K' call) d (refused d call).
Proof using HJ.
  intros HK HK' Hs Hd Hv. destruct (reads call) eqn:Hr; [by apply reads_integrity|].
  destruct (reads_back call) eqn:Hb; [by apply reads_back_integrity|].
  destruct call; try discriminate Hr; try discriminate Hb; clear Hr Hb; cbn [sql_do refused];
    try apply integrity_void; try (by apply allocate_ip_integrity);
    try (by apply reserve_ssh_port_integrity); try (by apply reserve_vsock_cid_integrity);
    try (by apply reserve_tap_name_integrity); repeat apply integrity_nonempty;
    try (apply integrity_tx; [done|]; intros d' msg; by repeat case_match).
  - apply integrity_bind; [|done]. apply integrity_tx; [done|]. intros d' msg.
    unfold py_bind, py_get, insert_vm. by destruct (dmem _ _) eqn:E; rewrite ?E.
  - apply integrity_bind; [|done]. apply integrity_tx; [done|]. intros d' msg.
    unfold py_bind, py_get, insert_snapshot. by destruct (dmem _ _) eqn:E; rewrite ?E.
  - apply integrity_bind; [|done]. apply integrity_tx; [done|]. intros d' msg.
    unfold py_bind, py_get, insert_session. destruct (dmem _ _) eqn:E; rewrite ?E; [done|].
    destruct (column_has _ _ _) eqn:Hc; [|done]. intros [= <- <-]. split; [done|].
    unfold column_has, is_some, where_row in Hc.
    destruct (list_find _ _) as [[n [sid r]]|] eqn:Hf; [|done].
    apply list_find_Some in Hf as (Hl & Hr & _). exists sid, r. split; [|done].
    by eapply list_elem_of_lookup_2.
Qed.
End keeps.

(** C27: The manager's own checks come before the constraints of the schema: on
    a database reached by any sequence of calls (with any failures of their
    connections), a call whose connections work raises [IntegrityError] only
    for a reservation on behalf of a computer that has no row, or for a browser
    session of a computer that has one already.  No primary key, lease, host
    port, vsock CID or TAP name the manager chooses or accepts is ever refused
    as a duplicate.  Conditions: the model instances the calls are given
    round-trip through their JSON text, and a SELECT visits every row once. *)
Theorem sqlite_checks_before_constraints J V K K' call d d' msg :
  codecs_ok J V → rtc (sql_reach J V) db_init d → call_valid V call →
  working K → working K' → scan_ok K →
  sql_do J K K' call d = (d', Raise (IntegrityError msg)) → refused d call msg.
Proof.
  intros HJ Hd Hv HK HK' Hs. eapply (sql_do_integrity J V HJ); [done..|by apply (sql_reach_inv J V)|done].
Qed.

(** C28: Whatever fails on its connections, a call that raises leaves every
    table of a reachable database as it was, with one exception: [update_vm],
    [mark_snapshot_restored] and [update_browser_session] commit and then read
    the row back over a second connection, and when that connection fails the
    tables hold the complete update, exactly as if the call had returned.
    Nothing is ever half written.  Condition: the model instances the calls
    are given round-trip through their JSON text. *)
Theorem sqlite_atomic J V K K' call d d' e :
  codecs_ok J V → rtc (sql_reach J V) db_init d → call_valid V call →
  sql_do J K K' call d = (d', Raise e) →
  d' = d ∨ reads_back call = true ∧ ¬ commits K' ∧ d' = (sql_do J calm calm call d).1.
Proof. intros HJ Hd Hv. eapply (sql_do_atomic J V HJ); [done|]. by apply (sql_reach_inv J V). Qed.

(** *** A concrete codec and run *)

(** Configurations with defaults are identified by their [vm_id]; one network,
    one set of artifacts and one browser configuration are in use. *)
Definition config_codec : codec VMConfig :=
  {| dump := vm_id; load := λ s, Ret (VMConfig_defaults s) |}.
Definition const_codec {A} (a : A) : codec A := {| dump := λ _, "{}"; load := λ _, Ret a |}.

Definition demo_network : NetworkConfig :=
  {| guest_ip := Some "172.16.0.2"; gateway_ip := Some "172.16.0.1";
     netmask := Some "255.255.0.0"; tap_device := "tap2"; guest_mac := "AA:FC:00:00:00:02";
     ssh_host_port := None; egress_proxy_host_port := None; nc_mode := nat_mode;
     nc_bridge := None |}.
Definition demo_artifacts : SnapshotArtifacts :=
  {| state_path := Some "/s/state"; memory_path := None; disk_path := "/s/disk" |}.
Definition demo_display : DesktopEndpoint :=
  {| de_host := "127.0.0.1"; de_port := 5901; de_width := None; de_height := None |}.
Definition demo_browser : BrowserSessionConfig :=
  {| bc_session_id := None; bc_backend := bsb_auto; bc_mode := live; profile_mode := ephemeral;
     bc_profile_id := None; timeout_minutes := 30; viewport_width := 1280;
     viewport_height := 720; viewport := None; record_video := false; allow_downloads := true;
     bc_internet_settings := None; network_policy_id := None; bc_env_vars := [];
     bc_workspace_mounts := []; mem_size_mib := 2048; bc_disk_size_mib := 4096 |}.

Definition demo_codecs : codecs :=
  {| j_config := config_codec; j_network := const_codec demo_network;
     j_display := const_codec demo_display; j_artifacts := const_codec demo_artifacts;
     j_browser := const_codec demo_browser |}.
Definition demo_valids : valids :=
  {| v_config := λ c, c = VMConfig_defaults (vm_id c) ∧ vm_id c ≠ "";
     v_network := λ n, n = demo_network; v_display := λ x, x = demo_display;
     v_artifacts := λ a, a = demo_artifacts; v_browser := λ b, b = demo_browser |}.

Lemma demo_codecs_ok : codecs_ok demo_codecs demo_valids.
Proof.
  split; [|by intros ? ->..]. intros c [Hc Hne]. split; [|done]. simpl. by rewrite <-Hc.
Qed.

Definition demo_now : datetime :=
  {| dt_year := 2026; dt_month := 5; dt_day := 1; dt_hour := 9; dt_minute := 30;
     dt_second := 0; dt_microsecond := 250000; dt_offset := Some 0%Z |}.
Definition sdb_1 : DB := (create_vm demo_codecs calm demo_now (VMConfig_defaults "a") db_init).1.
Definition sdb_2 : DB := (reserve_ssh_port calm demo_now "a" 22 (Some 2222%Z) None sdb_1).1.

Lemma sdb_2_reachable : rtc (sql_reach demo_codecs demo_valids) db_init sdb_2.
Proof.
  eapply rtc_l.
  { exists calm, calm, (CallCreateVm demo_now (VMConfig_defaults "a")). split; [done|].
    vm_compute. reflexivity. }
  apply rtc_once. exists calm, calm, (CallReserveSshPort demo_now "a" 22 (Some 2222%Z) None).
  split; [done|]. vm_compute. reflexivity.
Qed.

(** A port for a computer that is not stored. *)
Definition stray_call : sql_call := CallReserveSshPort demo_now "b" 22 (Some 2300%Z) None.

Lemma sqlite_checks_before_constraints_witness :
  (sql_do demo_codecs calm calm stray_call sdb_2).2 = Raise foreign_key_error
  ∧ refused sdb_2 stray_call "FOREIGN KEY constraint failed".
Proof.
  split; [vm_compute; reflexivity|].
  apply (sqlite_checks_before_constraints demo_codecs demo_valids calm calm stray_call sdb_2 sdb_2
           "FOREIGN KEY constraint failed" demo_codecs_ok sdb_2_reachable I); [done|done| |].
  - intros R rows. reflexivity.
  - vm_compute. reflexivity.
Defined.

(** The disk is full at the commit; and the second connection of an update
    finds the database locked. *)
Definition full_disk : conn :=
  {| k_open := None; k_statement := None; k_commit := Some (OperationalError "database or disk is full");
     k_rollback := None; k_scan := λ _ rows, rows |}.
Definition locked : conn :=
  {| k_open := Some (OperationalError "database is locked"); k_statement := None; k_commit := None;
     k_rollback := None; k_scan := λ _ rows, rows |}.
Definition stop_update : vm_update :=
  {| u_status := Some STOPPED; u_config := None; u_network := None; u_pid := None;
     u_control_socket_path := None; u_display := None; u_clear_pid := true;
     u_clear_socket_path := true; u_clear_display := true |}.
Lemma stop_update_valid : update_valid demo_valids stop_update.
Proof. by split. Qed.

Lemma sqlite_atomic_witness :
  (sql_do demo_codecs full_disk calm (CallUpdateVm demo_now "a" stop_update) sdb_2).1 = sdb_2
  ∧ (sql_do demo_codecs calm locked (CallUpdateVm demo_now "a" stop_update) sdb_2).2
    = Raise (OperationalError "database is locked")
  ∧ (sql_do demo_codecs calm locked (CallUpdateVm demo_now "a" stop_update) sdb_2).1
    = (sql_do demo_codecs calm calm (CallUpdateVm demo_now "a" stop_update) sdb_2).1.
Proof.
  split_and!; [|vm_compute; reflexivity|].
  - destruct (sqlite_atomic demo_codecs demo_valids full_disk calm
                (CallUpdateVm demo_now "a" stop_update) sdb_2 sdb_2
                (OperationalError "database or disk is full") demo_codecs_ok sdb_2_reachable
                stop_update_valid) as [_|(_ & Hc & _)];
      [vm_compute; reflexivity|vm_compute; reflexivity|by destruct Hc].
  - destruct (sqlite_atomic demo_codecs demo_valids calm locked
                (CallUpdateVm demo_now "a" stop_update) sdb_2 _ (OperationalError "database is locked")
                demo_codecs_ok sdb_2_reachable stop_update_valid
                ltac:(vm_compute; reflexivity)) as [Hsame|(_ & _ & Hd)].
    + vm_compute in Hsame. discriminate Hsame.
    + vm_compute. reflexivity.
Defined.

(** ** Functional behaviour *)

Lemma first_free_zrange {B} `{EqDecision B} (used : list B) (f : Z → B) lo hi :
  (lo ≤ hi)%Z →
  (∃ i, (lo ≤ i ≤ hi)%Z ∧ (f i ∉ used) ∧ (∀ j, (lo ≤ j < i)%Z → f j ∈ used)
      ∧ first_free used (f <$> zrange lo hi) = Some (f i))
  ∨ ((∀ i, (lo ≤ i ≤ hi)%Z → f i ∈ used) ∧ first_free used (f <$> zrange lo hi) = None).
Proof.
  intros Hle. unfold first_free. rewrite zrange_nat by done.
  destruct (find_zrange (λ c, negb (bool_decide (c ∈ used))) f lo (Z.to_nat (hi + 1 - lo)))
    as [[Hno ->]|(i & Hi & Hp & Hlow & ->)].
  - right. split; [|done]. intros i Hi. specialize (Hno i). bool_hyps.
    assert (negb (bool_decide (f i ∈ used)) = false) as H by (apply Hno; lia). by bool_hyps.
  - left. exists i. bool_hyps. split_and!; [lia|lia|done| |done].
    intros j Hj. specialize (Hlow j Hj). by bool_hyps.
Qed.

Lemma insert_lease_fresh d ip r :
  schema_ok d → ip ∉ dkeys (t_ip_leases d) → where_row l_vm_id (l_vm_id r) (t_ip_leases d) = None →
  is_Some (dget (l_vm_id r) (t_vms d)) →
  insert_lease ip r d = (with_leases (t_ip_leases d ++ [(ip, r)]) d, Ret tt).
Proof.
  intros Hd Hip Hw [x Hx]. unfold insert_lease, column_has, dmem. rewrite Hw, Hx.
  rewrite (dget_notin ip) by done. simpl. by rewrite dset_fresh by (by apply dget_notin).
Qed.

(** For a stored computer without a lease, [allocate_ip] with no request, on a
    connection that works, appends a lease for the lowest address of the pool that no computer holds
    and returns it; when all 65533 are leased it raises and changes nothing. *)
Theorem sqlite_allocate_ip_lowest K now vm tap d :
  working K → schema_ok d → vm ≠ "" → tap ≠ "" → is_Some (dget vm (t_vms d)) →
  where_row l_vm_id vm (t_ip_leases d) = None →
  let row := {| l_vm_id := vm; l_tap_device := tap; l_created_at := now_iso now |} in
  let leased i := ip_text i ∈ dkeys (t_ip_leases d) in
  (∃ i, (IP_POOL_START ≤ i ≤ IP_POOL_END)%Z ∧ ¬ leased i
      ∧ (∀ j, (IP_POOL_START ≤ j < i)%Z → leased j)
      ∧ allocate_ip K now vm tap None d
        = (with_leases (t_ip_leases d ++ [(ip_text i, row)]) d, Ret (ip_text i)))
  ∨ ((∀ i, (IP_POOL_START ≤ i ≤ IP_POOL_END)%Z → leased i)
     ∧ allocate_ip K now vm tap None d
       = (d, Raise (NetworkError "No IP addresses available in pool"))).
Proof.
  intros HK Hd Hvm Htap Hv Hw. cbv zeta.
  unfold allocate_ip, nonempty, py_bind. cbn [truthy_str].
  rewrite (proj2 (String.eqb_neq vm "")), (proj2 (String.eqb_neq tap "")) by done.
  rewrite tx_working, Hw by done.
  destruct (first_free_zrange (dkeys (t_ip_leases d)) ip_text IP_POOL_START IP_POOL_END)
    as [(i & Hi & Hfree & Hlow & ->)|[Hall ->]]; [done|left|right; exact (conj Hall eq_refl)].
  exists i. split_and!; [lia|lia|done|done|]. by rewrite insert_lease_fresh.
Qed.

Lemma sqlite_allocate_ip_lowest_witness :
  (allocate_ip calm demo_now "a" "tap2" None sdb_2).2 = Ret "172.16.0.2".
Proof.
  destruct (sqlite_allocate_ip_lowest calm demo_now "a" "tap2" sdb_2)
    as [(i & Hi & Hf & Hlow & E)|[Hall _]].
  - done.
  - apply (sql_reach_inv _ _ demo_codecs_ok _ sdb_2_reachable).
  - done.
  - done.
  - vm_compute. eauto.
  - reflexivity.
  - rewrite E. simpl. destruct (decide (i = 2)%Z) as [->|Hne]; [reflexivity|].
    assert (IP_POOL_START ≤ 2 < i)%Z as H2 by (unfold IP_POOL_START in *; lia).
    specialize (Hlow 2%Z H2). by apply elem_of_nil in Hlow.
  - assert (IP_POOL_START ≤ 2 ≤ IP_POOL_END)%Z as H2 by (unfold IP_POOL_START, IP_POOL_END; lia).
    specialize (Hall 2%Z H2). by apply elem_of_nil in Hall.
Defined.

(** ** A limit of the code *)

(** A requested address is leased without a check that it is one. *)
Lemma sqlite_leases_malformed_ip :
  (allocate_ip calm demo_now "a" "tap2" (Some "not-an-address") sdb_2).2 = Ret "not-an-address".
Proof. vm_compute. reflexivity. Qed.
