(* ===== verification/StateRefinement.v ===== *)
(** * One inventory, two state managers

    [StateManagerProtocol] has two implementations: the dictionaries of
    [MemoryStateManager] and the rows of [SQLiteStateManager].  For the
    computer records, any sequence of calls whose connections work gets the
    same answers from both: the same values and the same exceptions, call by
    call; the identifiers [reconcile] returns are the same up to the order in
    which SQLite visits the rows. *)
From S2P Require Import Prelude PyDict PyStr StorageBase Types MemoryState.
From S2P Require Import SqliteState SqliteSchema SqliteRows SqliteProofs.
From stdpp Require Import options.
From stdpp Require Import sorting.

(** A row stands for the entry of the dictionary at the same position. *)
Definition row_rel (J : codecs) (kr : string * vm_row) (ki : string * VMInfo) : Prop :=
  kr.1 = ki.1 ∧ vm_of_row J kr.1 kr.2 = Ret ki.2.
Definition vms_rel (J : codecs) : list (string * vm_row) → list (string * VMInfo) → Prop :=
  Forall2 (row_rel J).

Section rel.
Context (J : codecs).

Lemma vms_rel_dget t m k :
  vms_rel J t m →
  match dget k t, dget k m with
  | Some r, Some i => vm_of_row J k r = Ret i
  | None, None => True
  | _, _ => False
  end.
Proof.
  induction 1 as [|[k1 r] [k2 i] t m [Hk Hr] _ IH]; simpl in *; [done|]. subst.
  case_decide; subst; done.
Qed.

Lemma vms_rel_dset t m k r i :
  vms_rel J t m → vm_of_row J k r = Ret i → vms_rel J (dset k r t) (dset k i m).
Proof.
  intros Ht Hr. induction Ht as [|[k1 r1] [k2 i2] t m [Hk H1] Ht IH]; simpl in *.
  - by repeat constructor.
  - subst. case_decide; subst; by constructor.
Qed.

Lemma vms_rel_ddel t m k : vms_rel J t m → vms_rel J (ddel k t) (ddel k m).
Proof.
  induction 1 as [|[k1 r1] [k2 i2] t m [Hk H1] Ht IH]; simpl in *; [constructor|].
  subst. case_decide; subst; [done|by constructor].
Qed.

Lemma vms_rel_keys t m : vms_rel J t m → dkeys t = dkeys m.
Proof.
  unfold dkeys. induction 1 as [|[k1 r1] [k2 i2] t m [Hk _] _ IH]; csimpl in *; [done|]. congruence.
Qed.

Lemma vms_rel_filter (P : string * vm_row → Prop) (Q : string * VMInfo → Prop)
    `{∀ x, Decision (P x)} `{∀ x, Decision (Q x)} (t : list (string * vm_row)) (m : list (string * VMInfo)) :
  (∀ kr ki, row_rel J kr ki → P kr ↔ Q ki) → vms_rel J t m → vms_rel J (filter P t) (filter Q m).
Proof.
  intros HPQ. induction 1 as [|kr ki t m Hk _ IH]; [constructor|].
  rewrite !filter_cons. specialize (HPQ kr ki Hk).
  destruct (decide (P kr)), (decide (Q ki)); try tauto; by constructor.
Qed.

Lemma vms_rel_stale kill (t : list (string * vm_row)) (m : list (string * VMInfo)) :
  vms_rel J t m →
  dkeys (filter (λ kr, row_is_stale kill kr.2 = true) t)
  = dkeys (filter (λ ki, is_stale kill ki.2 = true) m).
Proof.
  intros Ht. apply vms_rel_keys, vms_rel_filter; [|done].
  intros kr ki [Hk Hr]. by rewrite (row_is_stale_spec J kill kr.1 kr.2 ki.2).
Qed.

Lemma vms_rel_marks now stale t m :
  vms_rel J t m →
  vms_rel J (fold_left (mark_row now) stale t)
    (fold_left (λ vms vm, match dget vm vms with
                          | Some i => dset vm (mark_error i) vms | None => vms end) stale m).
Proof.
  revert t m. induction stale as [|vm stale IH]; intros t m Ht; simpl; [done|]. apply IH.
  unfold mark_row. pose proof (vms_rel_dget t m vm Ht) as Hg.
  destruct (dget vm t), (dget vm m); try done.
  by apply vms_rel_dset, vm_of_row_error.
Qed.

Lemma vms_rel_read t m :
  vms_rel J t m →
  read_rows (vm_of_row J) t = Ret (dvalues m).
Proof.
  unfold dvalues, read_rows. induction 1 as [|[k1 r1] [k2 i2] t m [_ Hr] _ IH]; csimpl in *; [done|].
  rewrite Hr. simpl. by rewrite IH.
Qed.
End rel.

(** ** Rows in creation order *)
Section order.
Context {R : Type} (key : R → string).

Definition text_lt (a b : string) : Prop := String.leb a b = true ∧ a ≠ b.
Definition key_lt (a b : R) : Prop := text_lt (key a) (key b).

Lemma order_insert_place (l1 l2 : list R) r :
  Forall (λ a, key_lt a r) l1 → Forall (key_lt r) l2 →
  order_insert key r (l1 ++ l2) = l1 ++ r :: l2.
Proof.
  intros H1 H2. induction H1 as [|a l1 [Hle Hne] _ IH]; simpl.
  - destruct l2 as [|b l2]; [done|]. inversion H2 as [|?? [Hb _]]; subst. simpl. by rewrite Hb.
  - destruct (String.leb (key r) (key a)) eqn:E; [|by rewrite IH].
    by destruct (Hne (String.leb_antisym _ _ Hle E)).
Qed.

(** [ORDER BY] over distinct keys: the answer does not depend on the order in
    which the rows are visited. *)
Lemma order_by_strict (rs rs' : list R) :
  rs' ≡ₚ rs → StronglySorted key_lt rs → order_by key rs' = rs.
Proof.
  revert rs. induction rs' as [|r rs' IH]; intros rs Hp Hs; [by apply Permutation_nil in Hp|].
  assert (r ∈ rs) as Hr by (rewrite <-Hp; by left).
  apply list_elem_of_split in Hr as (l1 & l2 & ->).
  rewrite <-Permutation_middle in Hp. apply (inj (r ::.)) in Hp.
  apply StronglySorted_app in Hs as (Hlt & Hs1 & Hs2). inversion Hs2 as [|?? Hs3 Hr2]; subst.
  cbn [order_by foldr]. fold (order_by key rs'). rewrite (IH (l1 ++ l2) Hp).
  - apply order_insert_place; [|done]. apply Forall_forall. intros a Ha.
    apply Hlt; [done|by left].
  - apply StronglySorted_app. split_and!; [|done|done].
    intros a b Ha Hb. apply Hlt; [done|by right].
Qed.

Lemma sorted_sublist (rs1 rs2 : list R) :
  rs1 `sublist_of` rs2 → StronglySorted key_lt rs2 → StronglySorted key_lt rs1.
Proof.
  induction 1 as [|r rs1 rs2 Hsub IH|r rs1 rs2 Hsub IH]; [done| |].
  - inversion 1 as [|?? Hs Hr]; subst. constructor; [by apply IH|].
    rewrite Forall_forall in *. intros x Hx. by apply Hr, (elem_of_sublist rs1).
  - inversion 1; subst. by apply IH.
Qed.

Lemma sorted_snoc (rs : list R) r :
  StronglySorted key_lt rs → Forall (λ r', key_lt r' r) rs → StronglySorted key_lt (rs ++ [r]).
Proof.
  induction 1 as [|r0 rs Hs IH Hr]; intros Hall; simpl; [by repeat constructor|].
  inversion Hall; subst. constructor; [by apply IH|]. apply Forall_app. by rewrite Forall_singleton.
Qed.
End order.

Definition created (kr : string * vm_row) : string := r_created_at kr.2.

Lemma created_dset (k : string) (r : vm_row) (t : list (string * vm_row)) :
  (∀ r0, dget k t = Some r0 → r_created_at r = r_created_at r0) → is_Some (dget k t) →
  created <$> dset k r t = created <$> t.
Proof.
  induction t as [|[k0 r0] t IH]; simpl; intros Hc Hk; [by destruct Hk|].
  case_decide; subst; csimpl.
  - unfold created at 1 3. simpl. by rewrite (Hc r0).
  - by rewrite IH.
Qed.

(** [created] alone decides whether the rows are in order. *)
Lemma sorted_created (t1 t2 : list (string * vm_row)) :
  created <$> t1 = created <$> t2 → StronglySorted (key_lt created) t1 →
  StronglySorted (key_lt created) t2.
Proof.
  revert t2. induction t1 as [|x t1 IH]; intros [|y t2]; csimpl; try done.
  intros Heq Hs. inversion Hs as [|?? Hs1 Hall]; subst.
  assert (created x = created y ∧ created <$> t1 = created <$> t2) as [Hxy Ht].
  { by injection Heq. }
  constructor; [by apply IH|].
  rewrite Forall_forall in *. intros z Hz. unfold key_lt. rewrite <-Hxy.
  assert (created z ∈ created <$> t1) as Hin by (rewrite Ht; by apply list_elem_of_fmap_2).
  apply list_elem_of_fmap in Hin as (w & -> & Hw). by apply Hall.
Qed.

(** ** Calls and answers *)
Inductive vm_op :=
| OpCreate (c : VMConfig)
| OpGet (vm : string)
| OpUpdate (vm : string) (u : vm_update)
| OpDelete (vm : string)
| OpList (st : option VMState)
| OpReconcile (kill : Z → kill_result).

Inductive answer :=
| AnsInfo (o : outcome VMInfo)
| AnsUnit (o : outcome unit)
| AnsList (o : outcome (list VMInfo))
| AnsIds (o : outcome (list string)).

Definition op_valid (V : valids) (op : vm_op) : Prop :=
  match op with
  | OpCreate c => v_config V c
  | OpGet vm | OpDelete vm => vm ≠ ""
  | OpUpdate vm u => vm ≠ "" ∧ update_valid V u
  | OpList _ | OpReconcile _ => True
  end.

Definition mem_exec (op : vm_op) (s : MS) : MS * answer :=
  match op with
  | OpCreate c => prod_map id AnsInfo (MemoryState.create_vm c s)
  | OpGet vm => prod_map id AnsInfo (MemoryState.get_vm vm s)
  | OpUpdate vm u => prod_map id AnsInfo (MemoryState.update_vm vm u s)
  | OpDelete vm => prod_map id AnsUnit (MemoryState.delete_vm vm s)
  | OpList st => prod_map id AnsList (MemoryState.list_vms st s)
  | OpReconcile kill => prod_map id AnsIds (MemoryState.reconcile kill s)
  end.

(** A call of the database-backed manager: the clock reading, the connection
    it opens and the one it opens to read back what it wrote. *)
Record vm_call := { vc_now : datetime; vc_conn : conn; vc_conn2 : conn; vc_op : vm_op }.

Definition sql_exec (J : codecs) (c : vm_call) (d : DB) : DB * answer :=
  let now := vc_now c in let K := vc_conn c in
  match vc_op c with
  | OpCreate c => prod_map id AnsInfo (create_vm J K now c d)
  | OpGet vm => prod_map id AnsInfo (get_vm J K vm d)
  | OpUpdate vm u => prod_map id AnsInfo (update_vm J K (vc_conn2 c) now vm u d)
  | OpDelete vm => prod_map id AnsUnit (delete_vm K vm d)
  | OpList st => prod_map id AnsList (list_vms J K st d)
  | OpReconcile kill => prod_map id AnsIds (reconcile K now kill d)
  end.

Fixpoint mem_run (ops : list vm_op) (s : MS) : list answer :=
  match ops with
  | [] => []
  | op :: ops' => let (s', a) := mem_exec op s in a :: mem_run ops' s'
  end.
Fixpoint sql_run (J : codecs) (calls : list vm_call) (d : DB) : list answer :=
  match calls with
  | [] => []
  | c :: calls' => let (d', a) := sql_exec J c d in a :: sql_run J calls' d'
  end.

(** The same answer; for [reconcile], the same identifiers in any order. *)
Definition same_answer (a b : answer) : Prop :=
  match a, b with
  | AnsIds (Ret x), AnsIds (Ret y) => x ≡ₚ y
  | _, _ => a = b
  end.

(** The connections of a call work and visit every row once; its argument is a
    non-empty identifier and round-trips through JSON. *)
Record call_ok (V : valids) (c : vm_call) : Prop := {
  co_conn : working (vc_conn c);
  co_conn2 : working (vc_conn2 c);
  co_scan : scan_ok (vc_conn c);
  co_op : op_valid V (vc_op c) }.

(** ** The simulation *)
Section sim.
Context (J : codecs) (V : valids) (HJ : codecs_ok J V).

(** The tables agree, and were created in order, at clock readings of [past]. *)
Record sim (past : list string) (d : DB) (s : MS) : Prop := {
  sim_rel : vms_rel J (t_vms d) (m_vms s.1);
  sim_order : StronglySorted (key_lt created) (t_vms d);
  sim_past : Forall (λ kr, created kr ∈ past) (t_vms d) }.

Lemma sim_past_eq (past : list string) t1 t2 :
  created <$> t1 = created <$> t2 → Forall (λ kr, created kr ∈ past) t1 →
  Forall (λ kr, created kr ∈ past) t2.
Proof using.
  intros Heq.
  change (Forall ((λ c, c ∈ past) ∘ created) t1 → Forall ((λ c, c ∈ past) ∘ created) t2).
  rewrite <-!Forall_fmap. by rewrite Heq.
Qed.

Lemma sim_mono past past' d s : past ⊆ past' → sim past d s → sim past' d s.
Proof using. intros Hp []. split; [done|done|]. eapply Forall_impl; [done|]. intros kr. apply Hp. Qed.

(** A change of the rows that keeps their creation times. *)
Lemma sim_rewrite past d s t m :
  sim past d s → vms_rel J t m → created <$> t_vms d = created <$> t →
  sim past (with_vms t d) (upd (set_vms m) s).
Proof using. intros [] Ht Hc. split; [done| |]; simpl; eauto using sorted_created, sim_past_eq. Qed.

Lemma release_claim_vms k vm s : m_vms (_release_claim k vm s).1 = m_vms s.1.
Proof using. unfold _release_claim. by case_match. Qed.

Lemma sim_create K past now d s c :
  working K → sim past d s → v_config V c → Forall (λ p, text_lt p (now_iso now)) past →
  let (d', a) := create_vm J K now c d in
  let (s', b) := MemoryState.create_vm c s in
  a = b ∧ sim (past ++ [now_iso now]) d' s'.
Proof using HJ.
  intros HK Hsim Hc Hnow. pose proof Hsim as [Hrel Hord Hpast].
  pose proof (vms_rel_dget J _ _ (vm_id c) Hrel) as Hg.
  unfold create_vm, MemoryState.create_vm, py_bind. rewrite tx_working by done.
  unfold py_get, py_raise, insert_vm, dmem. simpl. destruct (dget (vm_id c) (t_vms d)) eqn:Er, (dget (vm_id c) (m_vms s.1)) eqn:Ei; simpl; try done.
  - split; [done|]. eapply sim_mono; [|done]. set_solver.
  - rewrite Er. simpl. split; [done|]. split; simpl.
    + apply vms_rel_dset; [done|]. by eapply vm_of_row_new.
    + rewrite dset_fresh by done. apply sorted_snoc; [done|].
      apply Forall_forall. intros kr Hkr. rewrite Forall_forall in Hnow.
      rewrite Forall_forall in Hpast. apply (Hnow _ (Hpast _ Hkr)).
    + rewrite dset_fresh by done. apply Forall_app. split.
      * eapply Forall_impl; [done|]. simpl. set_solver.
      * repeat constructor. set_solver.
Qed.

Lemma sim_get K past d s vm :
  commits K → sim past d s → vm ≠ "" →
  (get_vm J K vm d).2 = (MemoryState.get_vm vm s).2
  ∧ (get_vm J K vm d).1 = d ∧ (MemoryState.get_vm vm s).1 = s.
Proof using.
  intros HK [Hrel _ _] Hvm. pose proof (vms_rel_dget J _ _ vm Hrel) as Hg.
  unfold get_vm, MemoryState.get_vm, nonempty.
  rewrite (proj2 (String.eqb_neq vm "")), fetching_commits by done.
  by destruct (dget vm (t_vms d)), (dget vm (m_vms s.1)); simpl.
Qed.

Lemma sim_update K K' past now d s vm u :
  working K → working K' → sim past d s → vm ≠ "" → update_valid V u →
  let (d', a) := update_vm J K K' now vm u d in
  let (s', b) := MemoryState.update_vm vm u s in
  a = b ∧ sim past d' s'.
Proof using HJ.
  intros HK HK' Hsim Hvm Hu. pose proof (sim_rel _ _ _ Hsim) as Hrel.
  pose proof (vms_rel_dget J _ _ vm Hrel) as Hg.
  unfold update_vm, MemoryState.update_vm, MemoryState.get_vm, nonempty.
  rewrite (proj2 (String.eqb_neq vm "")) by done. unfold py_bind. rewrite tx_working by done.
  destruct (dget vm (t_vms d)) as [r|] eqn:Er, (dget vm (m_vms s.1)) as [i|] eqn:Ei; simpl; try done.
  rewrite (get_vm_reads J K' vm (update_vm_row J (now_iso now) u r) (apply_vm_update u i));
    [|apply HK'|done|apply dget_dset_eq|by eapply vm_of_row_update]. split; [done|].
  apply sim_rewrite; [done| |].
  - apply vms_rel_dset; [done|]. by eapply vm_of_row_update.
  - symmetry. apply created_dset; [|eauto]. intros r0 Hr0. by simplify_eq.
Qed.

Lemma created_ddel k t : (ddel k t : list (string * vm_row)) `sublist_of` t.
Proof using.
  induction t as [|[k0 r0] t IH]; simpl; [done|].
  case_decide; [by apply sublist_cons|by apply sublist_skip].
Qed.

Lemma sim_delete K past d s vm :
  working K → sim past d s → vm ≠ "" →
  let (d', a) := delete_vm K vm d in
  let (s', b) := MemoryState.delete_vm vm s in
  a = b ∧ sim past d' s'.
Proof using.
  intros HK Hsim Hvm. pose proof Hsim as [Hrel Hord Hpast].
  pose proof (vms_rel_dget J _ _ vm Hrel) as Hg.
  unfold delete_vm, MemoryState.delete_vm, nonempty, dmem.
  rewrite (proj2 (String.eqb_neq vm "")), tx_working by done.
  destruct (dget vm (t_vms d)) as [r|] eqn:Er, (dget vm (m_vms s.1)) as [i|] eqn:Ei; simpl; try done.
  split; [done|]. split; simpl.
  - rewrite !release_claim_vms. simpl. by apply vms_rel_ddel.
  - eapply sorted_sublist; [apply created_ddel|done].
  - by apply Forall_ddel.
Qed.

Lemma filter_status_values st (m : list (string * VMInfo)) :
  (filter (λ ki, status ki.2 = st) m).*2 = filter (λ i, status i = st) m.*2.
Proof using.
  induction m as [|[k i] m IH]; [done|]. rewrite fmap_cons, !filter_cons. cbn [fst snd].
  case_decide; csimpl; by rewrite IH.
Qed.

Lemma sim_list K past d s st :
  working K → scan_ok K → sim past d s →
  list_vms J K st d = (d, (MemoryState.list_vms st s).2) ∧ (MemoryState.list_vms st s).1 = s.
Proof using.
  intros [HK _] Hscan [Hrel Hord Hpast]. split; [|done]. unfold list_vms, MemoryState.list_vms.
  rewrite fetching_commits by done. unfold py_lift. f_equal. destruct st as [st|].
  - rewrite (order_by_strict created (filter (λ kr, r_status kr.2 = VMState_value st) (t_vms d)));
      [|apply Hscan|eapply sorted_sublist; [apply sublist_filter|done]].
    rewrite (vms_rel_read J _ (filter (λ ki, status ki.2 = st) (m_vms s.1))).
    + simpl. f_equal. apply filter_status_values.
    + apply vms_rel_filter; [|done]. intros kr ki [_ Hr]. apply vm_of_row_Ret in Hr as (_ & _ & _ & Hs & _).
      split; intros He; [|].
      * rewrite He, VMState_of_value_value in Hs. by injection Hs as <-.
      * rewrite He in Hs. by apply VMState_of_value_inv.
  - rewrite (order_by_strict created (t_vms d)); [|apply Hscan|done]. by apply vms_rel_read.
Qed.

Lemma created_marks now stale t :
  created <$> fold_left (mark_row now) stale t = created <$> t.
Proof using.
  revert t. induction stale as [|vm stale IH]; intros t; simpl; [done|]. rewrite IH.
  unfold mark_row. destruct (dget vm t) eqn:E; [|done].
  apply created_dset; [|eauto]. intros r0 Hr0. by simplify_eq.
Qed.

(** Marking rows commutes, so the order in which they are marked is free. *)
Lemma dset_swap (a b : string) (x y : vm_row) (t : list (string * vm_row)) :
  a ≠ b → is_Some (dget a t) → is_Some (dget b t) →
  dset a x (dset b y t) = dset b y (dset a x t).
Proof using.
  intros Hab. induction t as [|[k r] t IH]; simpl; [by intros [? ?]|].
  destruct (decide (k = a)) as [Ha|Ha], (decide (k = b)) as [Hb|Hb]; [congruence| | |]; simpl.
  - by rewrite decide_True, decide_False by done.
  - by rewrite decide_False, decide_True by done.
  - rewrite !decide_False by done. intros H1 H2. by rewrite IH.
Qed.
Lemma mark_row_swap now t a b :
  mark_row now (mark_row now t a) b = mark_row now (mark_row now t b) a.
Proof using.
  destruct (decide (a = b)) as [->|Hab]; [done|]. unfold mark_row.
  destruct (dget a t) as [ra|] eqn:Ea, (dget b t) as [rb|] eqn:Eb;
    rewrite ?dget_dset_ne, ?Ea, ?Eb by done; try done.
  rewrite dset_swap; eauto.
Qed.
Lemma mark_rows_perm now stale1 stale2 t :
  stale1 ≡ₚ stale2 →
  fold_left (mark_row now) stale1 t = fold_left (mark_row now) stale2 t.
Proof using.
  intros Hp. revert t. induction Hp as [|x l1 l2 _ IH|x y l|l1 l2 l3 _ IH1 _ IH2]; intros t; simpl.
  - done.
  - apply IH.
  - by rewrite mark_row_swap.
  - by rewrite IH1, IH2.
Qed.

Lemma sim_reconcile K past now d s kill :
  working K → scan_ok K → sim past d s →
  let (d', a) := reconcile K now kill d in
  let (s', b) := MemoryState.reconcile kill s in
  same_answer (AnsIds a) (AnsIds b) ∧ sim past d' s'.
Proof using.
  intros HK Hscan Hsim. pose proof (sim_rel _ _ _ Hsim) as Hrel.
  unfold reconcile, MemoryState.reconcile. rewrite tx_working by done. cbv zeta.
  set (stale := dkeys (filter (λ kr, row_is_stale kill kr.2 = true) (k_scan K (t_vms d)))).
  assert (stale ≡ₚ dkeys (filter (λ ki, is_stale kill ki.2 = true) (m_vms s.1))) as Hp.
  { rewrite <-(vms_rel_stale J kill _ _ Hrel). unfold stale, dkeys. by rewrite (Hscan _ (t_vms d)). }
  fold (mark_row (now_iso now)). rewrite (mark_rows_perm (now_iso now) _ _ (t_vms d) Hp).
  split; [exact Hp|]. apply sim_rewrite; [done| |].
  - by apply (vms_rel_marks J (now_iso now)).
  - symmetry. apply (created_marks (now_iso now)).
Qed.

Lemma sim_step past c d s :
  sim past d s → call_ok V c → Forall (λ p, text_lt p (now_iso (vc_now c))) past →
  same_answer (sql_exec J c d).2 (mem_exec (vc_op c) s).2
  ∧ sim (past ++ [now_iso (vc_now c)]) (sql_exec J c d).1 (mem_exec (vc_op c) s).1.
Proof using HJ.
  intros Hsim [HK HK' Hscan Hop] Hnow. destruct c as [now K K' op]. cbn [vc_now vc_conn vc_conn2 vc_op] in *.
  assert (past ⊆ past ++ [now_iso now]) as Hsub by set_solver.
  assert (∀ d s, sim past d s → sim (past ++ [now_iso now]) d s) as Hmono by (intros; by eapply sim_mono).
  unfold sql_exec. cbn [vc_now vc_conn vc_conn2 vc_op].
  destruct op as [c|vm|vm u|vm|st|kill]; cbn [op_valid mem_exec] in *.
  - pose proof (sim_create K past now d s c HK Hsim Hop Hnow).
    destruct (create_vm _ _ _ _ _), (MemoryState.create_vm _ _). naive_solver.
  - destruct (sim_get K past d s vm) as (H1 & H2 & H3); [apply HK|done|done|].
    destruct (get_vm _ _ _ _), (MemoryState.get_vm _ _); simpl in *. subst.
    split; [done|by apply Hmono].
  - destruct Hop as [Hvm Hu]. pose proof (sim_update K K' past now d s vm u HK HK' Hsim Hvm Hu).
    destruct (update_vm _ _ _ _ _ _ _), (MemoryState.update_vm _ _ _).
    naive_solver.
  - pose proof (sim_delete K past d s vm HK Hsim Hop).
    destruct (delete_vm _ _ _), (MemoryState.delete_vm _ _). naive_solver.
  - destruct (sim_list K past d s st HK Hscan Hsim) as [-> H2].
    destruct (MemoryState.list_vms _ _); simpl in *. subst.
    split; [done|by apply Hmono].
  - pose proof (sim_reconcile K past now d s kill HK Hscan Hsim).
    destruct (reconcile _ _ _ _), (MemoryState.reconcile _ _). naive_solver.
Qed.

Definition clock_order (a b : vm_call) : Prop := text_lt (now_iso (vc_now a)) (now_iso (vc_now b)).

Lemma sim_runs past calls d s :
  sim past d s → StronglySorted clock_order calls → Forall (call_ok V) calls →
  Forall (λ c, Forall (λ p, text_lt p (now_iso (vc_now c))) past) calls →
  Forall2 same_answer (sql_run J calls d) (mem_run (vc_op <$> calls) s).
Proof using HJ.
  revert past d s. induction calls as [|c calls IH]; intros past d s Hsim Hs Hv Hp; [constructor|].
  inversion Hs as [|?? Hs' Hle]; inversion Hv; inversion Hp as [|?? Hp1 Hp2]; subst. csimpl.
  destruct (sim_step past c d s) as [Ha Hsim']; [done..|].
  destruct (sql_exec J c d), (mem_exec (vc_op c) s). simpl in *. constructor; [done|].
  eapply (IH (past ++ [now_iso (vc_now c)])); [done|done|done|].
  rewrite Forall_forall in Hle. rewrite Forall_forall in Hp2. apply Forall_forall.
  intros c' Hc. apply Forall_app. split; [by apply Hp2|]. repeat constructor; by apply Hle.
Qed.
End sim.

(** C29: The database-backed manager refines the in-memory one on computer
    records: for every sequence of create, get, update, delete, list and
    reconcile calls, a fresh database and a fresh in-memory manager give the
    same answers and raise the same exceptions, call by call; only the
    identifiers [reconcile] returns may come in another order, because its
    SELECT visits the rows in any order.  Conditions: every connection works
    and every SELECT visits each row once, the clock (as text) strictly
    increases from call to call, the computer named by a get, update or delete
    is not the empty string, and the model instances the calls are given
    round-trip through their JSON text. *)
Theorem sqlite_refines_memory J V L calls :
  codecs_ok J V → StronglySorted clock_order calls → Forall (call_ok V) calls →
  Forall2 same_answer (sql_run J calls db_init) (mem_run (vc_op <$> calls) (mem_init, L)).
Proof.
  intros HJ Hs Hv. eapply (sim_runs J V HJ []); [|done|done|].
  - split; simpl; constructor.
  - apply Forall_forall. intros c Hc. constructor.
Qed.

Definition demo_update : vm_update :=
  {| u_status := Some RUNNING; u_config := None; u_network := Some demo_network;
     u_pid := Some 41%Z; u_control_socket_path := Some "/run/a.sock"; u_display := None;
     u_clear_pid := false; u_clear_socket_path := false; u_clear_display := true |}.
(** The [n]-th second of the demo, rows visited last to first. *)
Definition demo_at (n : Z) : datetime :=
  {| dt_year := 2026; dt_month := 5; dt_day := 1; dt_hour := 9; dt_minute := 30;
     dt_second := n; dt_microsecond := 250000; dt_offset := Some 0%Z |}.
Definition backwards : conn :=
  {| k_open := None; k_statement := None; k_commit := None; k_rollback := None;
     k_scan := λ _ rows, rev rows |}.
Definition demo_call (n : Z) (op : vm_op) : vm_call :=
  {| vc_now := demo_at n; vc_conn := backwards; vc_conn2 := backwards; vc_op := op |}.
Definition demo_calls : list vm_call :=
  [demo_call 1 (OpCreate (VMConfig_defaults "a")); demo_call 2 (OpCreate (VMConfig_defaults "a"));
   demo_call 3 (OpCreate (VMConfig_defaults "b")); demo_call 4 (OpUpdate "b" demo_update);
   demo_call 5 (OpUpdate "a" demo_update);
   demo_call 6 (OpReconcile (λ _, Kill_ProcessLookupError)); demo_call 7 (OpList (Some ERROR));
   demo_call 8 (OpDelete "a"); demo_call 9 (OpGet "a")].

Lemma demo_call_ok n op : op_valid demo_valids op → call_ok demo_valids (demo_call n op).
Proof. intros Hop. split; [done|done| |done]. intros R rows. symmetry. apply Permutation_rev. Qed.

Lemma sqlite_refines_memory_witness :
  Forall2 same_answer (sql_run demo_codecs demo_calls db_init)
    (mem_run (vc_op <$> demo_calls) (mem_init, ∅))
  ∧ sql_run demo_codecs demo_calls db_init !! 5 = Some (AnsIds (Ret ["b"; "a"]))
  ∧ mem_run (vc_op <$> demo_calls) (mem_init, ∅) !! 5 = Some (AnsIds (Ret ["a"; "b"])).
Proof.
  split; [|split; vm_compute; reflexivity].
  apply (sqlite_refines_memory demo_codecs demo_valids ∅ demo_calls demo_codecs_ok).
  - unfold demo_calls. repeat constructor; by vm_compute.
  - repeat (apply List.Forall_cons; [apply demo_call_ok; simpl|]); try done.
    all: by split; [done|]; split; [done|by intros ? [= <-]|done|done].
Defined.
