(* ===== verification/IpAddress.v ===== *)
(** * The standard library's ipaddress module

    What [celesto] uses of it: parsing an address ([ip_address]) or a network
    ([ip_network]), membership ([address in network]), and the registry
    predicates ([is_private], [is_reserved], ...), with the tables of the
    current releases of every supported Python (3.11 and later).  The lemmas
    turn membership into interval arithmetic, and decide statements about all
    addresses at the boundaries of the intervals they mention. *)
From S2P Require Import Prelude PyStr.
From stdpp Require Import options.
From Stdlib Require Import Ascii.

(** [IPv4Address] and [IPv6Address] (with its scope id). *)
Inductive ip_addr :=
| V4 (n : Z)
| V6 (n : Z) (scope : option string).
#[global] Instance ip_addr_eq_dec : EqDecision ip_addr.
Proof. solve_decision. Defined.

Inductive ip_net :=
| N4 (base len : Z)
| N6 (base len : Z).

(** ** Parsing *)

Definition parse_octet (s : string) : option Z :=
  if String.eqb s "" then None
  else if negb (str_all is_digit s) then None
  else if (3 <? Z.of_nat (String.length s))%Z then None
  else if negb (String.eqb s "0") && startswith "0" s then None
  else match parse_dec s with
       | Some v => if (255 <? v)%Z then None else Some v
       | None => None
       end.

Definition parse_v4 (s : string) : option Z :=
  match str_split "."%char s with
  | [a; b; c; d] =>
      a ← parse_octet a; b ← parse_octet b; c ← parse_octet c; d ← parse_octet d;
      Some (((a * 256 + b) * 256 + c) * 256 + d)%Z
  | _ => None
  end.

Definition hex_value (c : ascii) : option Z :=
  if is_digit c then Some (code c - 48)%Z
  else if (97 <=? code c)%Z && (code c <=? 102)%Z then Some (code c - 87)%Z
  else if (65 <=? code c)%Z && (code c <=? 70)%Z then Some (code c - 55)%Z
  else None.
Fixpoint parse_hex (acc : Z) (s : string) : option Z :=
  match s with
  | "" => Some acc
  | String c s' => v ← hex_value c; parse_hex (acc * 16 + v)%Z s'
  end.
Definition parse_hextet (s : string) : option Z :=
  if String.eqb s "" || (4 <? Z.of_nat (String.length s))%Z then None else parse_hex 0 s.

(** The 16-bit groups of the text; a dotted-quad suffix gives two. *)
Definition v6_parts (s : string) : option (list (option Z * string)) :=
  let parts := str_split ":"%char s in
  let plain := map (λ p, (parse_hextet p, p)) in
  if (Z.of_nat (length parts) <? 3)%Z then None
  else match last parts with
  | Some p =>
      if contains_char "."%char p then
        match parse_v4 p with
        | Some n => Some (plain (removelast parts)
                          ++ [(Some (n / 65536)%Z, "x"); (Some (n mod 65536)%Z, "x")])
        | None => None
        end
      else Some (plain parts)
  | None => None
  end.

(** Indices of the empty parts that are not the first or the last. *)
Fixpoint inner_empty (i : nat) (parts : list (option Z * string)) : list nat :=
  match parts with
  | [] | [_] => []
  | (_, p) :: parts' =>
      (if String.eqb p "" && negb (Nat.eqb i 0) then [i] else []) ++ inner_empty (S i) parts'
  end.

Definition join_hextets (parts : list (option Z * string)) : option Z :=
  fold_left (λ acc p, acc ← acc; h ← p.1; Some (acc * 65536 + h)%Z) parts (Some 0%Z).

Definition first_empty (parts : list (option Z * string)) : bool :=
  match parts with (_, p) :: _ => String.eqb p "" | [] => false end.
Definition last_empty (parts : list (option Z * string)) : bool :=
  match last parts with Some (_, p) => String.eqb p "" | None => false end.

Definition parse_v6_int (s : string) : option Z :=
  parts ← (if String.eqb s "" then None else v6_parts s);
  let n := Z.of_nat (length parts) in
  if (9 <? n)%Z then None
  else match inner_empty 0 parts with
  | [] =>
      if negb (n =? 8)%Z || first_empty parts || last_empty parts then None
      else join_hextets parts
  | [skip] =>
      let lead := first_empty parts in
      let trail := last_empty parts in
      let hi := (skip - if lead then 1 else 0)%nat in
      let lo := (length parts - skip - 1 - if trail then 1 else 0)%nat in
      if (lead && negb (Nat.eqb hi 0)) || (trail && negb (Nat.eqb lo 0)) then None
      else if (8 - (Z.of_nat hi + Z.of_nat lo) <? 1)%Z then None
      else
        high ← join_hextets (take hi parts);
        low ← join_hextets (drop (length parts - lo) parts);
        Some (high * 2 ^ (16 * (8 - Z.of_nat hi)) + low)%Z
  | _ => None
  end.

(** [addr.partition('%')] *)
Fixpoint partition_char (sep : ascii) (s : string) : string * option string :=
  match s with
  | "" => ("", None)
  | String c s' =>
      if Ascii.eqb c sep then ("", Some s')
      else let (a, b) := partition_char sep s' in (String c a, b)
  end.

Definition parse_v6 (s : string) : option ip_addr :=
  if contains_char "/"%char s then None
  else match partition_char "%"%char s with
  | (a, None) => (λ n, V6 n None) <$> parse_v6_int a
  | (a, Some scope) =>
      if String.eqb scope "" || contains_char "%"%char scope then None
      else (λ n, V6 n (Some scope)) <$> parse_v6_int a
  end.

Definition ip_address (s : string) : outcome ip_addr :=
  match (if contains_char "/"%char s then None else parse_v4 s) with
  | Some n => Ret (V4 n)
  | None =>
      match parse_v6 s with
      | Some a => Ret a
      | None => Raise (ValueError (repr s +:+ " does not appear to be an IPv4 or IPv6 address"))
      end
  end.

(** [ip_network] of a literal the source spells, always ["address/length"]. *)
Definition ip_network (s : string) : option ip_net :=
  match str_split "/"%char s with
  | [a; l] =>
      l ← parse_dec l;
      match ip_address a with
      | Ret (V4 n) => Some (N4 n l)
      | Ret (V6 n None) => Some (N6 n l)
      | _ => None
      end
  | _ => None
  end.
Definition networks (l : list string) : list ip_net := omap ip_network l.

(** ** Membership *)

Definition netmask (width len : Z) : Z := (2 ^ width - 2 ^ (width - len))%Z.
Definition in_net (a : ip_addr) (net : ip_net) : bool :=
  match a, net with
  | V4 n, N4 base len => (Z.land n (netmask 32 len) =? base)%Z
  | V6 n _, N6 base len => (Z.land n (netmask 128 len) =? base)%Z
  | _, _ => false
  end.
Definition in_any (a : ip_addr) (nets : list ip_net) : bool := existsb (in_net a) nets.

(** ** The registries *)
Record ip_tables := {
  private4 : list ip_net; private4_exceptions : list ip_net;
  private6 : list ip_net; private6_exceptions : list ip_net }.

(** Releases since the special-purpose registries were corrected (3.11.10,
    3.12.4, 3.13). *)
Definition tables_current : ip_tables := Eval vm_compute in {|
  private4 := networks ["0.0.0.0/8"; "10.0.0.0/8"; "127.0.0.0/8"; "169.254.0.0/16";
    "172.16.0.0/12"; "192.0.0.0/24"; "192.0.0.170/31"; "192.0.2.0/24"; "192.168.0.0/16";
    "198.18.0.0/15"; "198.51.100.0/24"; "203.0.113.0/24"; "240.0.0.0/4"; "255.255.255.255/32"];
  private4_exceptions := networks ["192.0.0.9/32"; "192.0.0.10/32"];
  private6 := networks ["::1/128"; "::/128"; "::ffff:0:0/96"; "64:ff9b:1::/48"; "100::/64";
    "2001::/23"; "2001:db8::/32"; "2002::/16"; "fc00::/7"; "fe80::/10"];
  private6_exceptions := networks ["2001:1::1/128"; "2001:1::2/128"; "2001:3::/32";
    "2001:4:112::/48"; "2001:20::/28"; "2001:30::/28"] |}.

(** The first 3.11 and 3.12 releases. *)
Definition tables_3_11_0 : ip_tables := Eval vm_compute in {|
  private4 := networks ["0.0.0.0/8"; "10.0.0.0/8"; "127.0.0.0/8"; "169.254.0.0/16";
    "172.16.0.0/12"; "192.0.0.0/29"; "192.0.0.170/31"; "192.0.2.0/24"; "192.168.0.0/16";
    "198.18.0.0/15"; "198.51.100.0/24"; "203.0.113.0/24"; "240.0.0.0/4"; "255.255.255.255/32"];
  private4_exceptions := [];
  private6 := networks ["::1/128"; "::/128"; "::ffff:0:0/96"; "100::/64"; "2001::/23";
    "2001:2::/48"; "2001:db8::/32"; "2001:10::/28"; "fc00::/7"; "fe80::/10"];
  private6_exceptions := [] |}.

Definition reserved6 : list ip_net := Eval vm_compute in
  networks ["::/8"; "100::/8"; "200::/7"; "400::/6"; "800::/5"; "1000::/4"; "4000::/3";
    "6000::/3"; "8000::/3"; "a000::/3"; "c000::/3"; "e000::/4"; "f000::/5"; "f800::/6"; "fe00::/9"].
Definition net_list (s : string) : list ip_net := networks [s].
Definition reserved4 : list ip_net := Eval vm_compute in net_list "240.0.0.0/4".
Definition loopback4 : list ip_net := Eval vm_compute in net_list "127.0.0.0/8".
Definition linklocal : list ip_net := Eval vm_compute in networks ["169.254.0.0/16"; "fe80::/10"].
Definition sitelocal6 : list ip_net := Eval vm_compute in net_list "fec0::/10".
Definition multicast : list ip_net := Eval vm_compute in networks ["224.0.0.0/4"; "ff00::/8"].
Definition public4 : list ip_net := Eval vm_compute in net_list "100.64.0.0/10".

Definition ipv4_mapped (a : ip_addr) : option ip_addr :=
  match a with
  | V6 n _ => if (Z.shiftr n 32 =? 65535)%Z then Some (V4 (Z.land n (2 ^ 32 - 1))) else None
  | V4 _ => None
  end.
Definition is_unspecified (a : ip_addr) : bool := match a with V4 n | V6 n _ => (n =? 0)%Z end.
Definition is_loopback (a : ip_addr) : bool :=
  match a with V4 _ => in_any a loopback4 | V6 n _ => (n =? 1)%Z end.
Definition is_link_local (a : ip_addr) : bool := in_any a linklocal.
Definition is_site_local (a : ip_addr) : bool := in_any a sitelocal6.
Definition is_reserved (a : ip_addr) : bool :=
  match a with V4 _ => in_any a reserved4 | V6 _ _ => in_any a reserved6 end.
Definition is_multicast (a : ip_addr) : bool := in_any a multicast.

Section registry.
Context (T : ip_tables).
Definition is_private_plain (a : ip_addr) : bool :=
  match a with
  | V4 _ => in_any a (private4 T) && negb (in_any a (private4_exceptions T))
  | V6 _ _ => in_any a (private6 T) && negb (in_any a (private6_exceptions T))
  end.
Definition is_private (a : ip_addr) : bool :=
  match ipv4_mapped a with Some a' => is_private_plain a' | None => is_private_plain a end.
Definition is_global (a : ip_addr) : bool :=
  match a with
  | V4 _ => negb (in_any a public4) && negb (is_private a)
  | V6 _ _ => negb (is_private a)
  end.
End registry.

(** ** Statements about all addresses

    A condition on an address number built from intervals changes its value
    only at the bounds it mentions, so it holds everywhere if it holds there. *)
Inductive iexp :=
| IRange (lo hi : Z)   (** [lo <= n < hi] *)
| IConst (b : bool)
| INot (e : iexp)
| IAnd (e1 e2 : iexp)
| IOr (e1 e2 : iexp)
| IIff (e1 e2 : iexp).

Fixpoint ieval (e : iexp) (n : Z) : bool :=
  match e with
  | IRange lo hi => (lo <=? n)%Z && (n <? hi)%Z
  | IConst b => b
  | INot e => negb (ieval e n)
  | IAnd e1 e2 => ieval e1 n && ieval e2 n
  | IOr e1 e2 => ieval e1 n || ieval e2 n
  | IIff e1 e2 => Bool.eqb (ieval e1 n) (ieval e2 n)
  end.
Fixpoint ibounds (e : iexp) : list Z :=
  match e with
  | IRange lo hi => [lo; hi]
  | IConst _ => []
  | INot e => ibounds e
  | IAnd e1 e2 | IOr e1 e2 | IIff e1 e2 => ibounds e1 ++ ibounds e2
  end.
(** Holds at zero and at every bound that is an address number. *)
Definition icheck (e : iexp) : bool :=
  forallb (λ b, (b <? 0)%Z || ieval e b) (0%Z :: ibounds e).

Lemma ieval_ext e n m :
  (∀ b, b ∈ ibounds e → (b <=? n)%Z = (b <=? m)%Z) → ieval e n = ieval e m.
Proof.
  induction e as [lo hi|b|e IH|e1 IH1 e2 IH2|e1 IH1 e2 IH2|e1 IH1 e2 IH2]; simpl; intros Hb; try done.
  - rewrite (Hb lo) by set_solver. f_equal.
    assert ((hi <=? n)%Z = (hi <=? m)%Z) as Hh by (apply Hb; set_solver).
    by rewrite !Z.ltb_antisym, Hh.
  - by rewrite IH.
  - rewrite IH1, IH2; [done|set_solver..].
  - rewrite IH1, IH2; [done|set_solver..].
  - rewrite IH1, IH2; [done|set_solver..].
Qed.

(** The greatest of [0] and the elements of [l] that do not exceed [n]. *)
Definition floor_in (n : Z) (l : list Z) : Z :=
  fold_right (λ b acc, if (b <=? n)%Z then Z.max b acc else acc) 0%Z l.

Lemma floor_in_spec n l :
  (0 ≤ n)%Z →
  (0 ≤ floor_in n l ≤ n)%Z ∧ (floor_in n l = 0%Z ∨ floor_in n l ∈ l)
  ∧ ∀ b, b ∈ l → (b <=? n)%Z = (b <=? floor_in n l)%Z.
Proof.
  intros Hn. induction l as [|b l (Hr & Hin & Hb)]; simpl.
  { split_and!; [lia|lia|by left|]. intros b Hb. by apply elem_of_nil in Hb. }
  destruct (Z.leb_spec b n) as [Hle|Hgt].
  - split_and!; [lia|lia| |].
    + destruct (Z.max_spec b (floor_in n l)) as [[_ ->]|[_ ->]]; set_solver.
    + intros x [->|Hx]%elem_of_cons; [lia|]. specialize (Hb x Hx). lia.
  - split_and!; [lia|lia|set_solver|].
    intros x [->|Hx]%elem_of_cons; [lia|by apply Hb].
Qed.

Lemma icheck_sound e n : icheck e = true → (0 ≤ n)%Z → ieval e n = true.
Proof.
  unfold icheck. rewrite forallb_forall. intros Hc Hn.
  destruct (floor_in_spec n (ibounds e) Hn) as (Hr & Hin & Hb).
  rewrite (ieval_ext e n (floor_in n (ibounds e))) by done.
  assert (In (floor_in n (ibounds e)) (0%Z :: ibounds e)) as Hi.
  { simpl. rewrite <-list_elem_of_In. destruct Hin as [->|]; auto. }
  specialize (Hc _ Hi). apply orb_true_iff in Hc as [Hc|Hc]; [|done].
  apply Z.ltb_lt in Hc. lia.
Qed.

(** *** Networks as intervals *)

Definition net_aligned (width base len : Z) : bool :=
  (0 <=? len)%Z && (len <=? width)%Z && (0 <=? base)%Z && (base <? 2 ^ width)%Z
  && (base mod 2 ^ (width - len) =? 0)%Z.
Definition net_ok (net : ip_net) : bool :=
  match net with N4 b l => net_aligned 32 b l | N6 b l => net_aligned 128 b l end.

Lemma land_netmask n width len :
  (0 ≤ len ≤ width)%Z → (0 ≤ n < 2 ^ width)%Z →
  Z.land n (netmask width len) = (n / 2 ^ (width - len) * 2 ^ (width - len))%Z.
Proof.
  intros Hl Hn. unfold netmask. set (k := (width - len)%Z). assert (0 ≤ k ≤ width)%Z by lia.
  rewrite <-Z.shiftr_div_pow2, <-Z.shiftl_mul_pow2 by lia.
  replace (2 ^ width - 2 ^ k)%Z with (Z.shiftl (Z.ones (width - k)) k).
  2:{ rewrite Z.shiftl_mul_pow2, Z.ones_equiv by lia.
      replace (2 ^ width)%Z with (2 ^ (width - k) * 2 ^ k)%Z
        by (rewrite <-Z.pow_add_r by lia; f_equal; lia). lia. }
  apply Z.bits_inj'. intros i Hi. rewrite Z.land_spec.
  destruct (Z.ltb_spec i k).
  - rewrite !Z.shiftl_spec_low by lia. apply andb_false_r.
  - rewrite !Z.shiftl_spec by lia. rewrite Z.shiftr_spec by lia.
    replace (i - k + k)%Z with i by lia.
    destruct (Z.ltb_spec i width).
    + rewrite Z.ones_spec_low by lia. apply andb_true_r.
    + assert (Z.testbit n i = false) as ->; [|done].
      destruct (decide (n = 0)%Z) as [->|]; [apply Z.bits_0|].
      apply Z.bits_above_log2; [lia|].
      apply Z.lt_le_trans with width; [|lia]. apply Z.log2_lt_pow2; lia.
Qed.

Lemma land_netmask_range n width base len :
  net_aligned width base len = true → (0 ≤ n < 2 ^ width)%Z →
  (Z.land n (netmask width len) =? base)%Z = ieval (IRange base (base + 2 ^ (width - len))) n.
Proof.
  unfold net_aligned. intros Hal Hn. bool_hyps. rewrite land_netmask by lia.
  set (p := (2 ^ (width - len))%Z) in *. assert (0 < p)%Z as Hp by (apply Z.pow_pos_nonneg; lia).
  pose proof (Z.div_mod n p ltac:(lia)) as Hdn. pose proof (Z.mod_pos_bound n p Hp) as Hmn.
  pose proof (Z.div_mod base p ltac:(lia)) as Hdb.
  assert (base mod p = 0)%Z as Hbase by done. rewrite Hbase in Hdb.
  simpl. destruct (Z.eqb_spec (n / p * p) base) as [Heq|Hne]; symmetry.
  - apply andb_true_iff. rewrite Z.leb_le, Z.ltb_lt. lia.
  - apply andb_false_iff. rewrite Z.leb_gt, Z.ltb_ge.
    destruct (Z.lt_ge_cases n base); [by left|right].
    assert (base / p ≤ n / p)%Z by (apply Z.div_le_mono; lia).
    assert (base / p ≠ n / p)%Z as Hneq by (intros E; apply Hne; rewrite <-E; lia).
    assert (p * (base / p + 1) ≤ p * (n / p))%Z by (apply Z.mul_le_mono_nonneg_l; lia). lia.
Qed.

(** The interval expression of a set of networks, for either version. *)
Definition ranges4 (nets : list ip_net) : iexp :=
  fold_right (λ net e, match net with
                       | N4 b l => IOr (IRange b (b + 2 ^ (32 - l))%Z) e
                       | N6 _ _ => e end) (IConst false) nets.
Definition ranges6 (nets : list ip_net) : iexp :=
  fold_right (λ net e, match net with
                       | N6 b l => IOr (IRange b (b + 2 ^ (128 - l))%Z) e
                       | N4 _ _ => e end) (IConst false) nets.

Lemma in_any_ranges4 n nets :
  forallb net_ok nets = true → (0 ≤ n < 2 ^ 32)%Z →
  in_any (V4 n) nets = ieval (ranges4 nets) n.
Proof.
  intros Hok Hn. induction nets as [|[b l|b l] nets IH]; [done|..];
    simpl in Hok; apply andb_true_iff in Hok as [Hb Hok]; specialize (IH Hok).
  - cbn [in_any existsb ranges4 fold_right]. cbn [in_net]. rewrite land_netmask_range by done.
    cbn [ieval]. by f_equal.
  - exact IH.
Qed.

Lemma in_any_ranges6 n scope nets :
  forallb net_ok nets = true → (0 ≤ n < 2 ^ 128)%Z →
  in_any (V6 n scope) nets = ieval (ranges6 nets) n.
Proof.
  intros Hok Hn. induction nets as [|[b l|b l] nets IH]; [done|..];
    simpl in Hok; apply andb_true_iff in Hok as [Hb Hok]; specialize (IH Hok).
  - exact IH.
  - cbn [in_any existsb ranges6 fold_right]. cbn [in_net]. rewrite land_netmask_range by done.
    cbn [ieval]. by f_equal.
Qed.

(** ** Parsed addresses are in range *)
Definition addr_ok (a : ip_addr) : Prop :=
  match a with V4 n => (0 ≤ n < 2 ^ 32)%Z | V6 n _ => (0 ≤ n < 2 ^ 128)%Z end.

Lemma parse_octet_bound s v : parse_octet s = Some v → (0 ≤ v ≤ 255)%Z.
Proof.
  unfold parse_octet. repeat case_match; try done. intros [= <-]. bool_hyps.
  split; [by eapply parse_dec_nonneg|lia].
Qed.

Lemma parse_v4_bound s n : parse_v4 s = Some n → (0 ≤ n < 2 ^ 32)%Z.
Proof.
  unfold parse_v4. destruct (str_split _ s) as [|a [|b [|c [|d [|]]]]]; try done.
  rewrite bind_Some. intros (a' & Ha & H). rewrite bind_Some in H. destruct H as (b' & Hb & H).
  rewrite bind_Some in H. destruct H as (c' & Hc & H).
  rewrite bind_Some in H. destruct H as (d' & Hd & [= <-]).
  apply parse_octet_bound in Ha, Hb, Hc, Hd. lia.
Qed.

Lemma hex_value_bound c v : hex_value c = Some v → (0 ≤ v < 16)%Z.
Proof.
  unfold hex_value, is_digit. repeat case_match; try done; intros [= <-]; bool_hyps; lia.
Qed.

Lemma parse_hex_bound s acc v :
  (0 ≤ acc)%Z → parse_hex acc s = Some v →
  (0 ≤ v < (acc + 1) * 16 ^ Z.of_nat (String.length s))%Z.
Proof.
  revert acc. induction s as [|c s IH]; intros acc Hacc; cbn [parse_hex String.length].
  - intros [= <-]. change (Z.of_nat 0) with 0%Z. lia.
  - rewrite bind_Some. intros (h & Hh%hex_value_bound & Hp). apply IH in Hp; [|lia].
    rewrite Nat2Z.inj_succ, Z.pow_succ_r by lia.
    assert (0 < 16 ^ Z.of_nat (String.length s))%Z by (apply Z.pow_pos_nonneg; lia). nia.
Qed.

Lemma parse_hextet_bound s v : parse_hextet s = Some v → (0 ≤ v < 65536)%Z.
Proof.
  unfold parse_hextet. case_match eqn:E; [done|]. intros Hp. bool_hyps.
  apply parse_hex_bound in Hp; [|lia].
  assert (16 ^ Z.of_nat (String.length s) ≤ 16 ^ 4)%Z by (apply Z.pow_le_mono_r; lia). lia.
Qed.

Definition part_ok (p : option Z * string) : Prop := ∀ h, p.1 = Some h → (0 ≤ h < 65536)%Z.

Lemma v6_parts_ok s parts : v6_parts s = Some parts → Forall part_ok parts.
Proof.
  unfold v6_parts. assert (∀ l, Forall part_ok (map (λ p, (parse_hextet p, p)) l)) as Hp.
  { intros l. apply Forall_forall. intros x. rewrite list_elem_of_In, in_map_iff.
    intros (p & <- & _) h. apply parse_hextet_bound. }
  repeat case_match; try done; intros [= <-]; [|apply Hp].
  apply Forall_app. split; [apply Hp|].
  match goal with H : parse_v4 _ = Some ?n |- _ => apply parse_v4_bound in H; rename H into Hn end.
  apply Forall_cons; split; [|apply Forall_singleton]; intros h [= <-].
  - split; [apply Z.div_pos; lia|apply Z.div_lt_upper_bound; lia].
  - apply Z.mod_pos_bound. lia.
Qed.

Lemma join_hextets_from parts acc v :
  (0 ≤ acc)%Z → Forall part_ok parts →
  fold_left (λ acc p, acc ← acc; h ← p.1; Some (acc * 65536 + h)%Z) parts (Some acc) = Some v →
  (0 ≤ v < (acc + 1) * 65536 ^ Z.of_nat (length parts))%Z.
Proof.
  revert acc. induction parts as [|p parts IH]; intros acc Hacc Hok; cbn [fold_left length].
  - intros [= <-]. change (Z.of_nat 0) with 0%Z. lia.
  - inversion Hok as [|?? Hp Hok']; subst. cbn [mbind option_bind].
    destruct (p.1) as [h|] eqn:Eh; cbn [mbind option_bind].
    + specialize (Hp h Eh). intros Hf. apply IH in Hf; [|lia|done].
      rewrite Nat2Z.inj_succ, Z.pow_succ_r by lia.
      assert (0 < 65536 ^ Z.of_nat (length parts))%Z by (apply Z.pow_pos_nonneg; lia). nia.
    + intros Hf. exfalso. clear -Hf. induction parts as [|q parts IH]; [done|]. by apply IH.
Qed.

Lemma join_hextets_bound parts v :
  Forall part_ok parts → join_hextets parts = Some v →
  (0 ≤ v < 2 ^ (16 * Z.of_nat (length parts)))%Z.
Proof.
  intros Hok Hj. apply join_hextets_from in Hj; [|lia|done].
  rewrite Z.pow_mul_r by lia. change (2 ^ 16)%Z with 65536%Z. lia.
Qed.

Lemma parse_v6_int_bound s n : parse_v6_int s = Some n → (0 ≤ n < 2 ^ 128)%Z.
Proof.
  unfold parse_v6_int. rewrite bind_Some. intros (parts & Hparts & H).
  assert (Forall part_ok parts) as Hok by (destruct (String.eqb s ""); [done|by eapply v6_parts_ok]).
  destruct (9 <? _)%Z; [done|].
  destruct (inner_empty 0 parts) as [|skip [|]]; [| |done].
  - case_match eqn:E; [done|]. bool_hyps. apply join_hextets_bound in H; [|done].
    replace (16 * Z.of_nat (length parts))%Z with 128%Z in H by lia. done.
  - set (hi := (skip - _)%nat) in H. set (lo := (length parts - _ - _ - _)%nat) in H.
    cbv zeta in H. destruct (_ || _); [done|].
    destruct (Z.ltb_spec (8 - (Z.of_nat hi + Z.of_nat lo)) 1) as [|Hlen]; [done|].
    rewrite bind_Some in H. destruct H as (high & Hh & H).
    rewrite bind_Some in H. destruct H as (low & Hl & [= <-]).
    apply join_hextets_bound in Hh; [|by apply Forall_take].
    apply join_hextets_bound in Hl; [|by apply Forall_drop].
    rewrite length_take in Hh. rewrite length_drop in Hl.
    assert (2 ^ (16 * Z.of_nat (hi `min` length parts)) ≤ 2 ^ (16 * Z.of_nat hi))%Z
      by (apply Z.pow_le_mono_r; lia).
    assert (2 ^ (16 * Z.of_nat (length parts - (length parts - lo))) ≤ 2 ^ (16 * Z.of_nat lo))%Z
      by (apply Z.pow_le_mono_r; lia).
    assert (2 ^ (16 * Z.of_nat lo) ≤ 2 ^ (16 * (8 - Z.of_nat hi)))%Z
      by (apply Z.pow_le_mono_r; lia).
    assert (2 ^ 128 = 2 ^ (16 * Z.of_nat hi) * 2 ^ (16 * (8 - Z.of_nat hi)))%Z as ->
      by (rewrite <-Z.pow_add_r by lia; f_equal; lia).
    set (B := (2 ^ (16 * (8 - Z.of_nat hi)))%Z) in *. set (A := (2 ^ (16 * Z.of_nat hi))%Z) in *.
    assert ((high + 1) * B ≤ A * B)%Z by (apply Z.mul_le_mono_nonneg_r; lia).
    assert (0 ≤ high * B)%Z by (apply Z.mul_nonneg_nonneg; lia). lia.
Qed.

Lemma ip_address_ok s a : ip_address s = Ret a → addr_ok a.
Proof.
  unfold ip_address, parse_v6. destruct (contains_char "/"%char s); [done|].
  destruct (parse_v4 s) as [n|] eqn:E; [intros [= <-]; by eapply parse_v4_bound|].
  destruct (partition_char _ s) as [a' [scope|]].
  - destruct (_ || _); [done|]. destruct (parse_v6_int a') eqn:Ep; [|done]. intros [= <-].
    by eapply parse_v6_int_bound.
  - destruct (parse_v6_int a') eqn:Ep; [|done]. intros [= <-]. by eapply parse_v6_int_bound.
Qed.
