(* ===== verification/PublicEgress.v ===== *)
(** * host/_public_egress.py: the public-egress policy

    Which addresses count as public ([classify_public_address]) and how one
    connection attempt is decided ([decide_public_egress]).  The resolver is
    the environment's answer to [getaddrinfo]: a list of address texts, or an
    exception.  [T] is the version of the standard library's tables. *)
From S2P Require Import Prelude PyStr IpAddress.
From stdpp Require Import options.
From Stdlib Require Import Ascii.

Definition QEMU_PUBLIC_PROXY_GUEST_IP : string := "10.0.2.100".
Definition QEMU_PUBLIC_PROXY_GUEST_PORT : Z := 3128.

Inductive EgressTransport :=
| HTTP | HTTPS | WEBSOCKET | WEBSOCKET_SECURE | DIRECT_DNS | RAW_SOCKET.
#[global] Instance EgressTransport_eq_dec : EqDecision EgressTransport.
Proof. solve_decision. Defined.

Inductive EgressRequestKind := NAVIGATION | REDIRECT | SUBRESOURCE | SERVICE_WORKER | WEBSOCKET_KIND.

Inductive EgressBlockReason :=
| INVALID_TARGET | UNSUPPORTED_TRANSPORT | DNS_RESOLUTION_FAILED | NO_ADDRESSES
| MIXED_ADDRESS_SCOPE | IPV4_MAPPED | NETWORK_METADATA | UNSPECIFIED | LOOPBACK | LINK_LOCAL
| PRIVATE | SHARED | MULTICAST | RESERVED | NON_GLOBAL.
#[global] Instance EgressBlockReason_eq_dec : EqDecision EgressBlockReason.
Proof. solve_decision. Defined.

Record EgressRequest := {
  hostname : string;
  port : Z;
  transport : EgressTransport;
  request_kind : EgressRequestKind }.

Record AddressClassification := {
  address : ip_addr;
  allowed : bool;
  block_reason : option EgressBlockReason }.
#[global] Instance AddressClassification_eq_dec : EqDecision AddressClassification.
Proof. solve_decision. Defined.

Record ResolvedPublicEndpoint := {
  ep_hostname : string;
  ep_port : Z;
  resolved_addresses : list ip_addr;
  pinned_address : ip_addr }.

Record EgressDecision := {
  d_allowed : bool;
  endpoint : option ResolvedPublicEndpoint;
  d_block_reason : option EgressBlockReason;
  classifications : list AddressClassification }.

Definition _METADATA_NETWORKS : list ip_net := Eval vm_compute in
  networks ["169.254.169.254/32"; "169.254.170.2/32"; "100.100.100.200/32";
            "fd00:ec2::254/128"; "fe80::a9fe:a9fe/128"].
Definition _SHARED_ADDRESS_SPACE : list ip_net := Eval vm_compute in net_list "100.64.0.0/10".
Definition _NON_GLOBAL_NETWORKS : list ip_net := Eval vm_compute in
  networks ["192.0.0.0/24"; "192.0.2.0/24"; "192.88.99.0/24"; "198.18.0.0/15";
            "198.51.100.0/24"; "203.0.113.0/24"; "64:ff9b:1::/48"; "100::/64";
            "2001:db8::/32"; "2002::/16"].
Definition _GLOBAL_EXCEPTIONS : list ip_net := Eval vm_compute in
  networks ["192.0.0.9/32"; "192.0.0.10/32"].
Definition _PROXY_TRANSPORTS : list EgressTransport :=
  [HTTP; HTTPS; WEBSOCKET; WEBSOCKET_SECURE].

Definition _blocked (a : ip_addr) (reason : EgressBlockReason) : AddressClassification :=
  {| address := a; allowed := false; block_reason := Some reason |}.
Definition _denied (reason : EgressBlockReason) (cs : list AddressClassification)
    : EgressDecision :=
  {| d_allowed := false; endpoint := None; d_block_reason := Some reason; classifications := cs |}.

Definition is_v6 (a : ip_addr) : bool := match a with V6 _ _ => true | V4 _ => false end.

Section policy.
Context (T : ip_tables).

Definition classify_public_address (a : ip_addr) : AddressClassification :=
  if is_v6 a && is_some (ipv4_mapped a) then _blocked a IPV4_MAPPED
  else if in_any a _METADATA_NETWORKS then _blocked a NETWORK_METADATA
  else if is_unspecified a then _blocked a UNSPECIFIED
  else if is_loopback a then _blocked a LOOPBACK
  else if is_link_local a then _blocked a LINK_LOCAL
  else if is_v6 a && is_site_local a then _blocked a PRIVATE
  else if negb (is_v6 a) && in_any a _SHARED_ADDRESS_SPACE then _blocked a SHARED
  else if is_reserved a then _blocked a RESERVED
  else if is_private T a then _blocked a PRIVATE
  else if is_multicast a then _blocked a MULTICAST
  else if in_any a _NON_GLOBAL_NETWORKS && negb (in_any a _GLOBAL_EXCEPTIONS)
  then _blocked a NON_GLOBAL
  else if negb (is_global T a) then _blocked a NON_GLOBAL
  else {| address := a; allowed := true; block_reason := None |}.

(** ["/\\@?#\0"] *)
Definition forbidden_char (c : ascii) : bool :=
  bool_decide (code c ∈ [47; 92; 64; 63; 35; 0]%Z).

Fixpoint drop_last (s : string) : string :=
  match s with
  | "" => ""
  | String c "" => ""
  | String c s' => String c (drop_last s')
  end.

Definition _normalize_hostname (value : string) : option string :=
  let hostname := lower (strip value) in
  let hostname := if startswith "[" hostname && endswith_char "]"%char hostname
                  then match hostname with String _ s => drop_last s | "" => "" end
                  else hostname in
  if String.eqb hostname "" || contains_char "%"%char hostname || str_any is_space hostname
     || str_any forbidden_char hostname
  then None
  else let h := rstrip_char "."%char hostname in
       if String.eqb h "" then None else Some h.

(** The answer of [resolver.resolve]; the two exception classes it maps to a
    denial, any other propagates. *)
Definition caught (e : exn) : bool :=
  match e with OSErrorExn _ | ValueError _ => true | _ => false end.

(** The loop over the answers: unparsable text ends it with [None]. *)
Fixpoint classify_answers (seen : list ip_addr) (cs : list AddressClassification)
    (raw : list (outcome ip_addr)) : option (list AddressClassification) :=
  match raw with
  | [] => Some cs
  | Raise _ :: _ => None
  | Ret a :: raw' =>
      if bool_decide (a ∈ seen) then classify_answers seen cs raw'
      else classify_answers (a :: seen) (cs ++ [classify_public_address a]) raw'
  end.

(** The addresses to check: the literal itself (the code reads it back from its
    own text, which gives it again), or the resolver's answers, each read by
    [ip_address]. *)
Definition raw_addresses (resolve : string → Z → outcome (list string)) (h : string) (port : Z)
    : outcome (list (outcome ip_addr)) :=
  match ip_address h with
  | Ret literal => Ret [Ret literal]
  | Raise _ => match resolve h port with
               | Ret answers => Ret (ip_address <$> answers)
               | Raise e => Raise e
               end
  end.

Definition decide_public_egress (resolve : string → Z → outcome (list string))
    (request : EgressRequest) : outcome EgressDecision :=
  if negb (bool_decide (transport request ∈ _PROXY_TRANSPORTS))
  then Ret (_denied UNSUPPORTED_TRANSPORT [])
  else match _normalize_hostname (hostname request) with
  | None => Ret (_denied INVALID_TARGET [])
  | Some h =>
      if negb ((1 <=? port request)%Z && (port request <=? 65535)%Z)
      then Ret (_denied INVALID_TARGET [])
      else
        match raw_addresses resolve h (port request) with
        | Raise e => if caught e then Ret (_denied DNS_RESOLUTION_FAILED []) else Raise e
        | Ret raw =>
            match classify_answers [] [] raw with
            | None => Ret (_denied DNS_RESOLUTION_FAILED [])
            | Some [] => Ret (_denied NO_ADDRESSES [])
            | Some checked =>
                let ok := filter (λ c, allowed c = true) checked in
                let blocked := filter (λ c, allowed c = false) checked in
                match blocked with
                | b :: _ =>
                    Ret (_denied (if is_some (head ok) then MIXED_ADDRESS_SCOPE
                                  else default NON_GLOBAL (block_reason b)) checked)
                | [] =>
                    match ok with
                    | [] => Raise (ValueError "tuple index out of range")
                    | first :: _ =>
                        Ret {| d_allowed := true;
                               endpoint := Some {| ep_hostname := h; ep_port := port request;
                                                   resolved_addresses := address <$> ok;
                                                   pinned_address := address first |};
                               d_block_reason := None;
                               classifications := checked |}
                    end
                end
            end
        end
  end.
End policy.

(** ** What counts as public *)

Lemma policy_nets_ok :
  forallb net_ok (_METADATA_NETWORKS ++ _SHARED_ADDRESS_SPACE ++ _NON_GLOBAL_NETWORKS
    ++ _GLOBAL_EXCEPTIONS ++ linklocal ++ sitelocal6 ++ reserved4 ++ reserved6 ++ loopback4
    ++ multicast ++ public4) = true.
Proof. vm_compute. reflexivity. Qed.

Definition tables_ok (T : ip_tables) : bool :=
  forallb net_ok (private4 T ++ private4_exceptions T ++ private6 T ++ private6_exceptions T).

(** The policy as a condition on the address number. *)
Definition allowed4 (T : ip_tables) : iexp :=
  let blocked nets := ranges4 nets in
  fold_right (λ e acc, IAnd (INot e) acc) (IConst true)
    [blocked _METADATA_NETWORKS; IRange 0 1; blocked loopback4; blocked linklocal;
     blocked _SHARED_ADDRESS_SPACE; blocked reserved4;
     IAnd (blocked (private4 T)) (INot (blocked (private4_exceptions T)));
     blocked multicast;
     IAnd (blocked _NON_GLOBAL_NETWORKS) (INot (blocked _GLOBAL_EXCEPTIONS));
     INot (IAnd (INot (blocked public4))
             (INot (IAnd (blocked (private4 T)) (INot (blocked (private4_exceptions T))))))].

Definition allowed6 (T : ip_tables) : iexp :=
  let blocked nets := ranges6 nets in
  let private := IAnd (blocked (private6 T)) (INot (blocked (private6_exceptions T))) in
  fold_right (λ e acc, IAnd (INot e) acc) (IConst true)
    [IRange (65535 * 2 ^ 32) (65536 * 2 ^ 32); blocked _METADATA_NETWORKS; IRange 0 1;
     IRange 1 2; blocked linklocal; blocked sitelocal6; blocked reserved6; private;
     blocked multicast; IAnd (blocked _NON_GLOBAL_NETWORKS) (INot (blocked _GLOBAL_EXCEPTIONS));
     INot (INot private)].

Lemma range_eqb n k : (n =? k)%Z = ieval (IRange k (k + 1)) n.
Proof. simpl. destruct (Z.eqb_spec n k), (Z.leb_spec k n), (Z.ltb_spec n (k + 1)); simpl; lia. Qed.

Lemma mapped_range n : (Z.shiftr n 32 =? 65535)%Z = ieval (IRange (65535 * 2 ^ 32) (65536 * 2 ^ 32)) n.
Proof.
  rewrite Z.shiftr_div_pow2 by lia. cbn [ieval]. change (2 ^ 32)%Z with 4294967296%Z.
  pose proof (Z.div_mod n 4294967296). pose proof (Z.mod_pos_bound n 4294967296).
  destruct (Z.eqb_spec (n / 4294967296) 65535), (Z.leb_spec (65535 * 4294967296) n),
    (Z.ltb_spec n (65536 * 4294967296)); simpl; lia.
Qed.

(** Splits a successful check of a concatenation of network lists. *)
Ltac split_nets H := repeat rewrite forallb_app in H; bool_hyps.

Lemma if_blocked (b : bool) a r c :
  allowed (if b then _blocked a r else c) = negb b && allowed c.
Proof. by destruct b. Qed.

Lemma classify_allowed4 T n :
  tables_ok T = true → (0 ≤ n < 2 ^ 32)%Z →
  allowed (classify_public_address T (V4 n)) = ieval (allowed4 T) n.
Proof.
  intros HT Hn. pose proof policy_nets_ok as Hp. unfold tables_ok in HT. split_nets HT. split_nets Hp.
  unfold classify_public_address. rewrite !if_blocked.
  unfold is_private, is_global, is_private, is_link_local, is_multicast, ipv4_mapped, is_private_plain.
  cbn [is_v6 negb andb is_unspecified is_loopback is_reserved allowed].
  rewrite !in_any_ranges4 by done. rewrite (range_eqb n 0). reflexivity.
Qed.

Lemma classify_allowed6 T n scope :
  tables_ok T = true → (0 ≤ n < 2 ^ 128)%Z →
  allowed (classify_public_address T (V6 n scope)) = ieval (allowed6 T) n.
Proof.
  intros HT Hn. pose proof policy_nets_ok as Hp. unfold tables_ok in HT. split_nets HT. split_nets Hp.
  unfold classify_public_address. rewrite !if_blocked.
  unfold is_global, is_private, ipv4_mapped, is_private_plain, is_link_local, is_site_local, is_multicast.
  rewrite mapped_range. cbn [is_v6 negb andb is_unspecified is_loopback is_reserved allowed].
  unfold allowed6. cbv zeta. cbn [fold_right].
  destruct (ieval (IRange (65535 * 2 ^ 32) (65536 * 2 ^ 32)) n) eqn:Em; cbn [is_some].
  - cbn [negb andb]. cbn [ieval] in *. by rewrite Em.
  - rewrite !in_any_ranges6 by done. rewrite (range_eqb n 0), (range_eqb n 1).
    cbn [negb andb]. cbn [ieval] in *. rewrite Em. reflexivity.
Qed.

(** The public ranges, spelled out. *)
Definition ranges (l : list (Z * Z)) : iexp :=
  fold_right (λ r e, IOr (IRange r.1 r.2) e) (IConst false) l.
Definition q (a b c d : Z) : Z := (((a * 256 + b) * 256 + c) * 256 + d)%Z.

(** IPv4: everything outside these ranges, except two anycast addresses. *)
Definition special4 : list (Z * Z) :=
  [(q 0 0 0 0, q 1 0 0 0); (q 10 0 0 0, q 11 0 0 0); (q 100 64 0 0, q 100 128 0 0);
   (q 127 0 0 0, q 128 0 0 0); (q 169 254 0 0, q 169 255 0 0); (q 172 16 0 0, q 172 32 0 0);
   (q 192 0 0 0, q 192 0 1 0); (q 192 0 2 0, q 192 0 3 0); (q 192 88 99 0, q 192 88 100 0);
   (q 192 168 0 0, q 192 169 0 0); (q 198 18 0 0, q 198 20 0 0); (q 198 51 100 0, q 198 51 101 0);
   (q 203 0 113 0, q 203 0 114 0); (q 224 0 0 0, q 256 0 0 0)].
Definition public4_spec : iexp :=
  IOr (INot (ranges special4)) (IRange (q 192 0 0 9) (q 192 0 0 11)).

(** IPv6: the global unicast block 2000::/3 less the protocol assignments
    2001::/23 (with six registered exceptions), documentation and 6to4. *)
Definition hextet (h : Z) (e : Z) : Z := (h * 2 ^ (112 - 16 * e))%Z.
Definition at6 (a b c d : Z) : Z := (hextet a 0 + hextet b 1 + hextet c 2 + d)%Z.
Definition global6 : iexp := IRange (at6 0x2000 0 0 0) (at6 0x4000 0 0 0).
Definition special6 : list (Z * Z) :=
  [(at6 0x2001 0 0 0, at6 0x2001 0x200 0 0); (at6 0x2001 0xdb8 0 0, at6 0x2001 0xdb9 0 0);
   (at6 0x2002 0 0 0, at6 0x2003 0 0 0)].
Definition exceptions6 : list (Z * Z) :=
  [(at6 0x2001 1 0 1, at6 0x2001 1 0 3); (at6 0x2001 3 0 0, at6 0x2001 4 0 0);
   (at6 0x2001 4 0x112 0, at6 0x2001 4 0x113 0); (at6 0x2001 0x20 0 0, at6 0x2001 0x40 0 0)].
Definition public6_spec : iexp :=
  IAnd global6 (IOr (INot (ranges special6)) (ranges exceptions6)).

Lemma public4_check :
  icheck (IOr (INot (IRange 0 (2 ^ 32))) (IIff (allowed4 tables_current) public4_spec)) = true.
Proof. vm_compute. reflexivity. Qed.
Lemma public6_check :
  icheck (IOr (INot (IRange 0 (2 ^ 128))) (IIff (allowed6 tables_current) public6_spec)) = true.
Proof. vm_compute. reflexivity. Qed.

Lemma classify_public4 n :
  (0 ≤ n < 2 ^ 32)%Z →
  allowed (classify_public_address tables_current (V4 n)) = ieval public4_spec n.
Proof.
  intros Hn. rewrite classify_allowed4 by done.
  pose proof (icheck_sound _ n public4_check ltac:(lia)) as Hc. cbn [ieval] in Hc.
  rewrite (proj2 (Z.leb_le 0 n)), (proj2 (Z.ltb_lt n (2 ^ 32))) in Hc by lia.
  by apply eqb_prop in Hc.
Qed.

Lemma classify_public6 n scope :
  (0 ≤ n < 2 ^ 128)%Z →
  allowed (classify_public_address tables_current (V6 n scope)) = ieval public6_spec n.
Proof.
  intros Hn. rewrite classify_allowed6 by done.
  pose proof (icheck_sound _ n public6_check ltac:(lia)) as Hc. cbn [ieval] in Hc.
  rewrite (proj2 (Z.leb_le 0 n)), (proj2 (Z.ltb_lt n (2 ^ 128))) in Hc by lia.
  by apply eqb_prop in Hc.
Qed.

(** C30: The classification of every IPv4 and IPv6 address: an IPv4 address is
    allowed exactly outside the fourteen special-purpose blocks (or as one of
    the two anycast exceptions 192.0.0.9 and 192.0.0.10); an IPv6 address
    exactly inside 2000::/3 and outside 2001::/23 (less its registered
    exceptions), 2001:db8::/32 and 2002::/16. *)
Theorem classify_public_exact a :
  addr_ok a →
  allowed (classify_public_address tables_current a)
  = match a with V4 n => ieval public4_spec n | V6 n _ => ieval public6_spec n end.
Proof. destruct a; [apply classify_public4|apply classify_public6]. Qed.

Lemma classify_public_exact_witness :
  allowed (classify_public_address tables_current (V4 (q 8 8 8 8))) = true
  ∧ allowed (classify_public_address tables_current (V6 (at6 0x2606 0x4700 0 17) None)) = true
  ∧ allowed (classify_public_address tables_current (V4 (q 169 254 169 254))) = false.
Proof.
  split_and!; rewrite classify_public_exact; try reflexivity; vm_compute; split; congruence.
Defined.

Lemma stable4_check :
  icheck (IOr (INot (IRange 0 (2 ^ 32))) (IIff (allowed4 tables_3_11_0) (allowed4 tables_current)))
  = true.
Proof. vm_compute. reflexivity. Qed.
Lemma stable6_check :
  icheck (IOr (INot (IRange 0 (2 ^ 128)))
     (IIff (allowed6 tables_current) (IOr (allowed6 tables_3_11_0) (ranges exceptions6)))) = true.
Proof. vm_compute. reflexivity. Qed.
Lemma disjoint6_check :
  icheck (INot (IAnd (allowed6 tables_3_11_0) (ranges exceptions6))) = true.
Proof. vm_compute. reflexivity. Qed.

(** How far the classification depends on the Python version: for IPv4 it
    is the same under the first and the current tables; for IPv6 the current
    tables allow exactly the registered exceptions inside 2001::/23 in
    addition, and the first tables block every one of them. *)
Theorem classification_version_difference a :
  addr_ok a →
  let old := allowed (classify_public_address tables_3_11_0 a) in
  let new := allowed (classify_public_address tables_current a) in
  match a with
  | V4 _ => new = old
  | V6 n _ => new = old || ieval (ranges exceptions6) n
              ∧ (ieval (ranges exceptions6) n = true → old = false)
  end.
Proof.
  destruct a as [n|n scope]; intros Hn; cbv zeta.
  - rewrite !classify_allowed4 by done.
    pose proof (icheck_sound _ n stable4_check ltac:(simpl in *; lia)) as Hc.
    cbn [ieval addr_ok] in *.
    rewrite (proj2 (Z.leb_le 0 n)), (proj2 (Z.ltb_lt n (2 ^ 32))) in Hc by lia.
    symmetry. by apply eqb_prop in Hc.
  - rewrite !classify_allowed6 by done.
    pose proof (icheck_sound _ n stable6_check ltac:(simpl in *; lia)) as Hc.
    pose proof (icheck_sound _ n disjoint6_check ltac:(simpl in *; lia)) as Hd.
    cbn [addr_ok] in Hn. cbn [ieval] in Hc, Hd.
    rewrite (proj2 (Z.leb_le 0 n)), (proj2 (Z.ltb_lt n (2 ^ 128))) in Hc by lia.
    apply eqb_prop in Hc. split; [exact Hc|]. intros He. rewrite He in Hd.
    by destruct (ieval (allowed6 tables_3_11_0) n).
Qed.

(** 2001:20::1 (ORCHIDv2) is blocked by the first tables and allowed now. *)
Lemma classification_version_difference_witness :
  let a := V6 (at6 0x2001 0x20 0 1) None in
  allowed (classify_public_address tables_3_11_0 a) = false
  ∧ allowed (classify_public_address tables_current a) = true.
Proof.
  cbv zeta. pose proof (classification_version_difference (V6 (at6 0x2001 0x20 0 1) None)) as H.
  destruct H as [H1 H2]; [vm_compute; split; congruence|].
  split; [apply H2; reflexivity|]. rewrite H1, orb_true_iff. right. reflexivity.
Defined.

(** ** Decisions *)

(** The first occurrences of [l] that are not in [seen], in order. *)
Fixpoint fresh (seen l : list ip_addr) : list ip_addr :=
  match l with
  | [] => []
  | a :: l' => if bool_decide (a ∈ seen) then fresh seen l' else a :: fresh (a :: seen) l'
  end.

Lemma fresh_elem seen l a : a ∈ fresh seen l ↔ a ∈ l ∧ a ∉ seen.
Proof.
  revert seen. induction l as [|b l IH]; intros seen; simpl; [set_solver|].
  case_bool_decide; rewrite ?elem_of_cons, IH; [set_solver|].
  destruct (decide (a = b)); set_solver.
Qed.

Lemma classify_answers_ret T seen cs l :
  classify_answers T seen cs (Ret <$> l)
  = Some (cs ++ (classify_public_address T <$> fresh seen l)).
Proof.
  revert seen cs. induction l as [|a l IH]; intros seen cs; csimpl; [by rewrite app_nil_r|].
  case_bool_decide; [apply IH|]. rewrite IH. csimpl. by rewrite <-app_assoc.
Qed.

Lemma classify_answers_Some T seen cs raw cs' :
  classify_answers T seen cs raw = Some cs' →
  ∃ l, raw = Ret <$> l ∧ cs' = cs ++ (classify_public_address T <$> fresh seen l).
Proof.
  intros Hc. assert (∃ l, raw = Ret <$> l) as [l ->].
  { revert seen cs Hc. induction raw as [|[a|e] raw IH]; intros seen cs; simpl; [by exists []| |done].
    case_bool_decide; intros [l ->]%IH; by exists (a :: l). }
  exists l. split; [done|]. rewrite classify_answers_ret in Hc. congruence.
Qed.

Lemma classify_answers_None T seen cs raw :
  classify_answers T seen cs raw = None → ∃ e, Raise e ∈ raw.
Proof.
  revert seen cs. induction raw as [|[a|e] raw IH]; intros seen cs Hc; simpl in Hc; [done| |].
  - case_bool_decide; apply IH in Hc as [e He]; exists e; by right.
  - exists e. by left.
Qed.

Lemma classify_address T a : address (classify_public_address T a) = a.
Proof. unfold classify_public_address. by repeat case_match. Qed.

Lemma addresses_classify T (l : list ip_addr) : address <$> (classify_public_address T <$> l) = l.
Proof. induction l as [|a l IH]; csimpl; [done|]. by rewrite classify_address, IH. Qed.

Lemma filter_all {A} (P : A → Prop) `{∀ x, Decision (P x)} l : Forall P l → filter P l = l.
Proof.
  induction 1 as [|x l Hx _ IH]; [done|]. rewrite filter_cons, decide_True by done. by rewrite IH.
Qed.

Section decisions.
Context (T : ip_tables) (resolve : string → Z → outcome (list string)).

Definition public (a : ip_addr) : Prop := allowed (classify_public_address T a) = true.

(** The branch taken once the addresses are known. *)
Lemma decide_step req h raw :
  transport req ∈ _PROXY_TRANSPORTS → _normalize_hostname (hostname req) = Some h →
  (1 ≤ port req ≤ 65535)%Z → raw_addresses resolve h (port req) = Ret raw →
  match decide_public_egress T resolve req with
  | Raise _ => False
  | Ret d =>
      if d_allowed d then
        ∃ a l, raw = Ret <$> a :: l ∧ Forall public (a :: l)
          ∧ endpoint d = Some {| ep_hostname := h; ep_port := port req;
                                 resolved_addresses := fresh [] (a :: l); pinned_address := a |}
      else endpoint d = None ∧ (raw = [] ∨ ∃ x, x ∈ raw ∧ ∀ a, x = Ret a → ¬ public a)
  end.
Proof.
  intros Ht Hh Hp Hraw. unfold decide_public_egress. rewrite bool_decide_eq_true_2 by done.
  cbn [negb]. rewrite Hh, (proj2 (Z.leb_le 1 _)), (proj2 (Z.leb_le _ 65535)) by lia.
  cbn [andb negb]. rewrite Hraw.
  destruct (classify_answers T [] [] raw) as [cs|] eqn:Hc.
  2:{ split; [done|]. right. destruct (classify_answers_None T _ _ _ Hc) as [e He].
      exists (Raise e). split; [done|]. intros a [=]. }
  apply classify_answers_Some in Hc as (l & -> & ->). rewrite app_nil_l.
  destruct l as [|a l]; [simpl; auto|].
  destruct (decide (Forall public (a :: l))) as [Hall|Hnot].
  - assert (Forall (λ c, allowed c = true) (classify_public_address T <$> fresh [] (a :: l))) as Hok.
    { apply Forall_fmap, Forall_forall. intros x [Hx _]%fresh_elem. rewrite Forall_forall in Hall.
      by apply Hall. }
    replace (filter (λ c, allowed c = false) (classify_public_address T <$> fresh [] (a :: l)))
      with (@nil AddressClassification).
    2:{ symmetry. clear -Hok. induction Hok as [|c cs Hc _ IH]; [done|].
        rewrite filter_cons, decide_False by congruence. done. }
    rewrite filter_all by done. cbn [fresh fmap list_fmap].
    rewrite bool_decide_eq_false_2 by apply not_elem_of_nil. csimpl.
    exists a, l. split_and!; [done|done|]. by rewrite classify_address, addresses_classify.
  - assert (∃ x, x ∈ a :: l ∧ ¬ public x) as (x & Hx & Hpx).
    { apply not_Forall_Exists, Exists_exists in Hnot; [done|]. intros x. unfold public. apply _. }
    assert (classify_public_address T x
            ∈ filter (λ c, allowed c = false) (classify_public_address T <$> fresh [] (a :: l))) as Hin.
    { apply list_elem_of_filter. split; [by destruct (allowed (classify_public_address T x)) eqn:E|].
      apply list_elem_of_fmap_2, fresh_elem. split; [done|apply not_elem_of_nil]. }
    destruct (classify_public_address T <$> fresh [] (a :: l)) as [|c cs] eqn:Ecs.
    { by apply elem_of_nil in Hin. }
    destruct (filter (λ c, allowed c = false) (c :: cs)) as [|b bs]; [by apply elem_of_nil in Hin|].
    split; [done|]. right. exists (Ret x). split; [by apply list_elem_of_fmap_2|].
    by intros ? [= <-].
Qed.
End decisions.

(** What every allowed decision carries. *)
Lemma decide_allowed T resolve req d :
  decide_public_egress T resolve req = Ret d → d_allowed d = true →
  ∃ h a l, transport req ∈ _PROXY_TRANSPORTS ∧ _normalize_hostname (hostname req) = Some h
    ∧ (1 ≤ port req ≤ 65535)%Z ∧ raw_addresses resolve h (port req) = Ret (Ret <$> a :: l)
    ∧ Forall (public T) (a :: l)
    ∧ endpoint d = Some {| ep_hostname := h; ep_port := port req;
                           resolved_addresses := fresh [] (a :: l); pinned_address := a |}.
Proof.
  intros Hd Ha. pose proof Hd as Hd'. unfold decide_public_egress in Hd'.
  case_bool_decide as Ht; [|by simplify_eq/=]. simpl in Hd'.
  destruct (_normalize_hostname (hostname req)) as [h|] eqn:Hh; [|by simplify_eq/=].
  destruct ((1 <=? port req)%Z && (port req <=? 65535)%Z) eqn:Hp; [|by simplify_eq/=].
  simpl in Hd'. bool_hyps.
  destruct (raw_addresses resolve h (port req)) as [raw|e] eqn:Hraw.
  2:{ by destruct (caught e); simplify_eq/=. }
  pose proof (decide_step T resolve req h raw Ht Hh ltac:(lia) Hraw) as Hs.
  rewrite Hd, Ha in Hs. destruct Hs as (a & l & -> & Hall & Hep). by exists h, a, l.
Qed.

(** An allowed decision is safe to connect on: the request came over an
    HTTP or WebSocket transport to a valid host and port, the endpoint keeps
    that host and port, its pinned address is the first address checked, and
    every address the name resolved to (not only the pinned one) is public. *)
Theorem egress_pins_public T resolve req d :
  decide_public_egress T resolve req = Ret d → d_allowed d = true →
  ∃ h ep addrs, transport req ∈ _PROXY_TRANSPORTS
    ∧ _normalize_hostname (hostname req) = Some h ∧ (1 ≤ port req ≤ 65535)%Z
    ∧ raw_addresses resolve h (port req) = Ret (Ret <$> addrs)
    ∧ endpoint d = Some ep ∧ ep_hostname ep = h ∧ ep_port ep = port req
    ∧ head addrs = Some (pinned_address ep) ∧ head (resolved_addresses ep) = Some (pinned_address ep)
    ∧ (∀ a, a ∈ addrs ↔ a ∈ resolved_addresses ep)
    ∧ ∀ a, a ∈ addrs → allowed (classify_public_address T a) = true.
Proof.
  intros Hd Ha. destruct (decide_allowed T resolve req d Hd Ha)
    as (h & a & l & Ht & Hh & Hp & Hraw & Hall & Hep).
  eexists h, _, (a :: l). split_and!; try done; try lia.
  - intros x. change (x ∈ a :: l ↔ x ∈ fresh [] (a :: l)). rewrite fresh_elem. set_solver.
  - by rewrite Forall_forall in Hall.
Qed.

Definition web (host : string) : EgressRequest :=
  {| hostname := host; port := 443; transport := HTTPS; request_kind := NAVIGATION |}.
Definition answers (l : list string) : string → Z → outcome (list string) := λ _ _, Ret l.

Lemma egress_pins_public_witness :
  ∃ d ep, decide_public_egress tables_current (answers ["93.184.216.34"; "2606:2800:220:1::1"])
            (web " Example.COM. ") = Ret d
    ∧ endpoint d = Some ep ∧ ep_hostname ep = "example.com"
    ∧ pinned_address ep = V4 (q 93 184 216 34).
Proof.
  destruct (decide_public_egress tables_current (answers ["93.184.216.34"; "2606:2800:220:1::1"])
              (web " Example.COM. ")) as [d|] eqn:E; [|by vm_compute in E].
  destruct (egress_pins_public _ _ _ d E) as (h & ep & addrs & _ & Hh & _ & Hraw & Hep & <- & _ & Hpin & _).
  { vm_compute in E. by injection E as <-. }
  assert (ep_hostname ep = "example.com") as Hname.
  { assert (_normalize_hostname " Example.COM. " = Some "example.com") as Hn by reflexivity.
    change (hostname (web " Example.COM. ")) with " Example.COM. " in Hh. congruence. }
  exists d, ep. split_and!; [done|done|done|]. rewrite Hname in Hraw.
  assert (raw_addresses (answers ["93.184.216.34"; "2606:2800:220:1::1"]) "example.com" 443
          = Ret (Ret <$> [V4 (q 93 184 216 34); V6 (at6 0x2606 0x2800 0x220 (2 ^ 64 + 1)) None])) as Hr.
  { vm_compute. reflexivity. }
  change (port (web " Example.COM. ")) with 443%Z in Hraw. rewrite Hr in Hraw.
  destruct addrs as [|x addrs]; [done|]. simpl in Hpin. injection Hraw as <-. congruence.
Defined.

(** For a well-formed request, the policy always answers, and it allows
    the connection exactly when the name gave at least one address, every
    answer is an address, and every one of them is public: one private or
    malformed answer among public ones denies the whole connection. *)
Theorem egress_decision_exact T resolve req h raw :
  transport req ∈ _PROXY_TRANSPORTS → _normalize_hostname (hostname req) = Some h →
  (1 ≤ port req ≤ 65535)%Z → raw_addresses resolve h (port req) = Ret raw →
  ∃ d, decide_public_egress T resolve req = Ret d
    ∧ (d_allowed d = true ↔
         raw ≠ [] ∧ ∀ x, x ∈ raw → ∃ a, x = Ret a ∧ allowed (classify_public_address T a) = true).
Proof.
  intros Ht Hh Hp Hraw. pose proof (decide_step T resolve req h raw Ht Hh Hp Hraw) as Hs.
  destruct (decide_public_egress T resolve req) as [d|e]; [|done]. exists d. split; [done|].
  destruct (d_allowed d).
  - destruct Hs as (a & l & -> & Hall & _). split; [intros _|done]. split; [done|].
    intros x (b & -> & Hb)%list_elem_of_fmap. exists b. split; [done|].
    rewrite Forall_forall in Hall. by apply Hall.
  - destruct Hs as [_ [->|(x & Hx & Hbad)]]; split; try done.
    + by intros [].
    + intros [_ Hall]. destruct (Hall x Hx) as (a & -> & Ha). by destruct (Hbad a).
Qed.

(** A rebinding answer: one public and one link-local address. *)
Lemma egress_decision_exact_witness :
  ∃ d, decide_public_egress tables_current (answers ["93.184.216.34"; "169.254.169.254"])
         (web "example.com") = Ret d ∧ d_allowed d = false
       ∧ d_block_reason d = Some MIXED_ADDRESS_SCOPE.
Proof.
  destruct (egress_decision_exact tables_current (answers ["93.184.216.34"; "169.254.169.254"])
    (web "example.com") "example.com" [Ret (V4 (q 93 184 216 34)); Ret (V4 (q 169 254 169 254))])
    as (d & Hd & Hiff).
  - by repeat constructor.
  - reflexivity.
  - by vm_compute.
  - reflexivity.
  - exists d. split; [done|]. split.
    + destruct (d_allowed d); [|done]. destruct Hiff as [Hiff _]. destruct (Hiff eq_refl) as [_ Hall].
      destruct (Hall (Ret (V4 (q 169 254 169 254)))) as (a & [= <-] & Ha); [by right; left|].
      by vm_compute in Ha.
    + vm_compute in Hd. by injection Hd as <-.
Defined.

(** A request over another transport, to an invalid host or port, or to
    an address literal is decided without consulting the resolver; the first
    three kinds are always denied. *)
Theorem egress_resolves_only_names T req :
  transport req ∉ _PROXY_TRANSPORTS ∨ _normalize_hostname (hostname req) = None
  ∨ ¬ (1 ≤ port req ≤ 65535)%Z
  ∨ (∃ h a, _normalize_hostname (hostname req) = Some h ∧ ip_address h = Ret a) →
  ∃ d, (∀ resolve, decide_public_egress T resolve req = Ret d)
    ∧ (d_allowed d = true → ∃ h a, _normalize_hostname (hostname req) = Some h
         ∧ ip_address h = Ret a ∧ allowed (classify_public_address T a) = true).
Proof.
  intros Hreq. unfold decide_public_egress.
  case_bool_decide as Ht; simpl; [|eexists; by split].
  destruct (_normalize_hostname (hostname req)) as [h|] eqn:Hh; [|eexists; by split].
  destruct ((1 <=? port req)%Z && (port req <=? 65535)%Z) eqn:Hp; simpl; [|eexists; by split].
  bool_hyps. destruct Hreq as [?|[?|[?|(h' & a & [= <-] & Hlit)]]]; [done|done|lia|].
  unfold raw_addresses. rewrite Hlit. simpl.
  rewrite !filter_cons, !filter_nil.
  destruct (allowed (classify_public_address T a)) eqn:Ea.
  - rewrite decide_False, decide_True by done. eexists. split; [done|]. eauto.
  - rewrite decide_True, decide_False by done. eexists. by split.
Qed.

Lemma egress_resolves_only_names_witness :
  ∃ d, (∀ resolve, decide_public_egress tables_current resolve (web "[::1]") = Ret d)
       ∧ d_allowed d = false.
Proof.
  destruct (egress_resolves_only_names tables_current (web "[::1]")) as (d & Hd & Ha).
  - do 3 right. exists "::1", (V6 1 None). split; vm_compute; reflexivity.
  - exists d. split; [exact Hd|]. specialize (Hd (λ _ _, Ret [])). vm_compute in Hd. by injection Hd as <-.
Defined.
