(* ===== verification/PyUrl.v ===== *)
(** * urllib.parse.urlsplit and bytes helpers

    [urlsplit] with the properties of its result that the proxy reads
    ([hostname], [port], [username], [password]), for ASCII text, and the
    [bytes] methods the request parser uses.  Bytes are strings of 8-bit
    characters. *)
From S2P Require Import Prelude PyStr IpAddress.
From Stdlib Require Import Ascii.
From stdpp Require Import options.

(** ** Splitting *)

Fixpoint take_str (n : nat) (s : string) : string :=
  match n, s with
  | 0, _ | _, "" => ""
  | S n', String c s' => String c (take_str n' s')
  end.
Fixpoint drop_str (n : nat) (s : string) : string :=
  match n, s with
  | 0, _ => s
  | _, "" => ""
  | S n', String _ s' => drop_str n' s'
  end.

(** [s.partition(sep)] for a separator text: [None] when it does not occur. *)
Fixpoint split_once (sep s : string) : option (string * string) :=
  if String.prefix sep s then Some ("", drop_str (String.length sep) s)
  else match s with
       | "" => None
       | String c s' => match split_once sep s' with
                        | Some (a, b) => Some (String c a, b)
                        | None => None
                        end
       end.

(** [s.rpartition(c)]: the text before and after the last [c]. *)
Fixpoint rpartition_char (c : ascii) (s : string) : option string * string :=
  match s with
  | "" => (None, "")
  | String x s' =>
      match rpartition_char c s' with
      | (Some a, b) => (Some (String x a), b)
      | (None, b) => if Ascii.eqb x c then (Some "", s') else (None, String x b)
      end
  end.

(** [s.split(sep)] for a separator text; [fuel] bounds the number of parts. *)
Fixpoint split_all (fuel : nat) (sep s : string) : list string :=
  match fuel with
  | 0 => [s]
  | S fuel' => match split_once sep s with
               | Some (a, b) => a :: split_all fuel' sep b
               | None => [s]
               end
  end.
Definition split_text (sep s : string) : list string := split_all (String.length s) sep s.

(** [bytes.strip()]: tab to carriage return, and space. *)
Definition is_bytes_space (c : ascii) : bool :=
  ((9 <=? code c)%Z && (code c <=? 13)%Z) || (code c =? 32)%Z.
Definition bytes_strip (s : string) : string :=
  rstrip_while is_bytes_space (lstrip_while is_bytes_space s).

Definition is_ascii (s : string) : bool := str_all (λ c, (code c <? 128)%Z) s.
(** [s.decode("ascii")] *)
Definition decode_ascii (s : string) : option string := if is_ascii s then Some s else None.

(** [int(text)]: surrounding space, a sign, decimal digits with single
    underscores between them, at most 4300 digits. *)
Fixpoint int_digits (prev_digit : bool) (acc : Z) (count : Z) (s : string) : option (Z * Z) :=
  match s with
  | "" => if prev_digit then Some (acc, count) else None
  | String c s' =>
      if is_digit c then int_digits true (acc * 10 + digit_value c)%Z (count + 1)%Z s'
      else if Ascii.eqb c "_"%char && prev_digit then int_digits false acc count s'
      else None
  end.
Definition py_int (text : string) : option Z :=
  let s := bytes_strip text in
  let '(sign, body) := match s with
                       | String "+" s' => (1%Z, s')
                       | String "-" s' => ((-1)%Z, s')
                       | _ => (1%Z, s)
                       end in
  match int_digits false 0 0 body with
  | Some (v, count) => if (4300 <? count)%Z then None else Some (sign * v)%Z
  | None => None
  end.

(** ** URLs *)
Record SplitResult := {
  scheme : string;
  netloc : string;
  url_path : string;
  query : string;
  fragment : string }.

Definition is_c0_or_space (c : ascii) : bool := (code c <=? 32)%Z.
Definition is_unsafe_url_byte (c : ascii) : bool :=
  (code c =? 9)%Z || (code c =? 10)%Z || (code c =? 13)%Z.
Fixpoint remove_chars (p : ascii → bool) (s : string) : string :=
  match s with
  | "" => ""
  | String c s' => if p c then remove_chars p s' else String c (remove_chars p s')
  end.

Definition is_scheme_char (c : ascii) : bool :=
  is_alpha c || is_digit c || Ascii.eqb c "+"%char || Ascii.eqb c "-"%char || Ascii.eqb c "."%char.

(** [_splitnetloc(url, 2)] of the text after the slashes. *)
Fixpoint split_netloc (s : string) : string * string :=
  match s with
  | "" => ("", "")
  | String c s' =>
      if Ascii.eqb c "/"%char || Ascii.eqb c "?"%char || Ascii.eqb c "#"%char then ("", s)
      else let (a, b) := split_netloc s' in (String c a, b)
  end.

(** [\Av[a-fA-F0-9]+\..+\Z] *)
Definition is_hex (c : ascii) : bool := is_some (hex_value c).
Definition ipvfuture (s : string) : bool :=
  match partition_char "."%char s with
  | (String v hex, Some rest) =>
      Ascii.eqb v "v"%char && negb (String.eqb hex "") && str_all is_hex hex
      && negb (String.eqb rest "") && negb (contains_char (ascii_of_nat 10) rest)
  | _ => false
  end.

Definition check_bracketed_host (h : string) : bool :=
  if startswith "v" h then ipvfuture h
  else match ip_address h with Ret (V6 _ _) => true | _ => false end.

Definition hostinfo_text (n : string) : string := (rpartition_char "@"%char n).2.

Definition check_bracketed_netloc (n : string) : bool :=
  match partition_char "["%char (hostinfo_text n) with
  | (before, Some bracketed) =>
      let (h, port) := partition_char "]"%char bracketed in
      let port := default "" port in
      String.eqb before "" && (String.eqb port "" || startswith ":" port)
      && check_bracketed_host h
  | (_, None) => check_bracketed_host (partition_char ":"%char (hostinfo_text n)).1
  end.

(** The successive cuts of [urlsplit]: scheme, network location, and the text
    after the first [c]. *)
Definition cut_scheme (url : string) : string * string :=
  match partition_char ":"%char url with
  | (String c s as pre, Some rest) =>
      if is_alpha c && str_all is_scheme_char pre then (lower pre, rest) else ("", url)
  | _ => ("", url)
  end.
Definition cut_netloc (url : string) : string * string :=
  if startswith "//" url then split_netloc (drop_str 2 url) else ("", url).
Definition cut_after (c : ascii) (url : string) : string * string :=
  match partition_char c url with (a, Some f) => (a, f) | (a, None) => (a, "") end.

Definition urlsplit (url : string) : outcome SplitResult :=
  let url := remove_chars is_unsafe_url_byte (lstrip_while is_c0_or_space url) in
  let '(scheme, url) := cut_scheme url in
  let '(netloc, url) := cut_netloc url in
  let op := contains_char "["%char netloc in
  let cl := contains_char "]"%char netloc in
  if (op && negb cl) || (cl && negb op) || (op && cl && negb (check_bracketed_netloc netloc))
  then Raise (ValueError "Invalid IPv6 URL")
  else
    let '(url, fragment) := cut_after "#"%char url in
    let '(url, query) := cut_after "?"%char url in
    Ret {| scheme := scheme; netloc := netloc; url_path := url; query := query;
           fragment := fragment |}.

(** The properties of the result. *)
Definition hostinfo (r : SplitResult) : string * option string :=
  let text := hostinfo_text (netloc r) in
  let '(h, port) :=
    match partition_char "["%char text with
    | (_, Some bracketed) =>
        let (h, port) := partition_char "]"%char bracketed in
        (h, default "" (partition_char ":"%char (default "" port)).2)
    | (_, None) => let (h, port) := partition_char ":"%char text in (h, default "" port)
    end in
  (h, if String.eqb port "" then None else Some port).

Definition url_hostname (r : SplitResult) : option string :=
  let h := (hostinfo r).1 in
  if String.eqb h "" then None
  else match partition_char "%"%char h with
       | (a, Some zone) => Some (lower a +:+ "%" +:+ zone)
       | (a, None) => Some (lower a)
       end.

Definition url_port (r : SplitResult) : outcome (option Z) :=
  match (hostinfo r).2 with
  | None => Ret None
  | Some p =>
      if negb (str_all is_digit p) then Raise (ValueError "Port could not be cast to integer value")
      else match parse_dec p with
           | Some n => if (n <=? 65535)%Z && (Z.of_nat (String.length p) <=? 4300)%Z
                       then Ret (Some n) else Raise (ValueError "Port out of range 0-65535")
           | None => Raise (ValueError "Port could not be cast to integer value")
           end
  end.

Definition url_username (r : SplitResult) : option string :=
  match (rpartition_char "@"%char (netloc r)).1 with
  | Some info => Some (partition_char ":"%char info).1
  | None => None
  end.
Definition url_password (r : SplitResult) : option string :=
  match (rpartition_char "@"%char (netloc r)).1 with
  | Some info => (partition_char ":"%char info).2
  | None => None
  end.

(** ** Lemmas *)

Lemma str_app_nil_r (s : string) : s +:+ "" = s.
Proof. induction s as [|c s IH]; [done|]. change (String c (s +:+ "") = String c s). by rewrite IH. Qed.

Lemma take_drop_str n s : take_str n s +:+ drop_str n s = s.
Proof.
  revert s. induction n as [|n IH]; intros s; simpl; [done|]. destruct s as [|c s]; [done|].
  change (String c (take_str n s +:+ drop_str n s) = String c s). by rewrite IH.
Qed.

Lemma take_str_app n s t :
  n ≤ String.length s → take_str n (s +:+ t) = take_str n s.
Proof.
  revert s. induction n as [|n IH]; intros s Hl; [by destruct s|].
  destruct s as [|x s]; simpl in Hl; [lia|]. change (String x s +:+ t) with (String x (s +:+ t)).
  simpl. rewrite IH by lia. done.
Qed.
Lemma drop_str_app n s t :
  n ≤ String.length s → drop_str n (s +:+ t) = drop_str n s +:+ t.
Proof.
  revert s. induction n as [|n IH]; intros s Hl; [done|]. destruct s as [|x s]; simpl in Hl; [lia|].
  change (String x s +:+ t) with (String x (s +:+ t)). simpl. apply IH. lia.
Qed.

Lemma length_take_str n s : String.length (take_str n s) = Nat.min n (String.length s).
Proof. revert s. induction n as [|n IH]; intros [|c s]; simpl; auto. Qed.
Lemma length_drop_str n s : String.length (drop_str n s) = String.length s - n.
Proof. revert s. induction n as [|n IH]; intros [|c s]; simpl; auto. Qed.

Lemma length_str_app (a b : string) : String.length (a +:+ b) = String.length a + String.length b.
Proof.
  induction a as [|c a IH]; [done|].
  change (S (String.length (a +:+ b)) = S (String.length a) + String.length b). by rewrite IH.
Qed.

Lemma take_str_all n s : String.length s ≤ n → take_str n s = s.
Proof.
  revert n. induction s as [|c s IH]; intros [|n] H; simpl in *; [done..|lia|].
  by rewrite IH by lia.
Qed.
Lemma drop_str_all n s : String.length s ≤ n → drop_str n s = "".
Proof. revert n. induction s as [|c s IH]; intros [|n] H; simpl in *; [done..|lia|auto with lia]. Qed.

Lemma prefix_app (sep s t : string) : String.prefix sep s = true → String.prefix sep (s +:+ t) = true.
Proof.
  revert s. induction sep as [|c sep IH]; intros s; [by destruct (s +:+ t)|].
  destruct s as [|x s]; [done|]. change (String x s +:+ t) with (String x (s +:+ t)). simpl. destruct (ascii_dec c x); [apply IH|done].
Qed.

Lemma split_once_sound sep s a b : split_once sep s = Some (a, b) → s = a +:+ sep +:+ b.
Proof.
  revert a b. induction s as [|c s IH]; intros a b; cbn [split_once];
    destruct (String.prefix sep _) eqn:Hp.
  - intros [= <- <-]. destruct sep; [done|done].
  - done.
  - intros [= <- <-]. clear IH. revert Hp. generalize (String c s). clear. induction sep as [|x sep IH]; intros s Hp; [done|].
    destruct s as [|y s]; [done|]. simpl in Hp. destruct (ascii_dec x y); [|done]. subst.
    change (String y s = String y (sep +:+ drop_str (String.length sep) s)). f_equal. by apply IH.
  - destruct (split_once sep s) as [[a' b']|] eqn:E; [|done]. intros [= <- <-].
    change (String c s = String c (a' +:+ sep +:+ b')). f_equal. by apply IH.
Qed.

(** * base64.b64encode

    The standard alphabet with padding, and the decoder a reader of the text
    applies, with the proof that it gives the bytes back. *)
Definition byte_of (n : Z) : ascii := ascii_of_N (Z.to_N n).

Definition b64_char (n : Z) : ascii :=
  if (n <? 26)%Z then byte_of (65 + n)
  else if (n <? 52)%Z then byte_of (71 + n)
  else if (n <? 62)%Z then byte_of (n - 4)
  else if (n =? 62)%Z then "+"%char else "/"%char.
Definition b64_value (c : ascii) : Z :=
  if is_upper c then code c - 65
  else if is_lower c then code c - 71
  else if is_digit c then code c + 4
  else if Ascii.eqb c "+"%char then 62 else 63.

Fixpoint b64encode (s : string) : string :=
  match s with
  | "" => ""
  | String a "" =>
      String (b64_char (code a / 4)) (String (b64_char (code a mod 4 * 16)) "==")
  | String a (String b "") =>
      String (b64_char (code a / 4)) (String (b64_char (code a mod 4 * 16 + code b / 16))
        (String (b64_char (code b mod 16 * 4)) "="))
  | String a (String b (String c s')) =>
      String (b64_char (code a / 4)) (String (b64_char (code a mod 4 * 16 + code b / 16))
        (String (b64_char (code b mod 16 * 4 + code c / 64)) (String (b64_char (code c mod 64))
          (b64encode s'))))
  end%Z.

Fixpoint b64decode (s : string) : string :=
  match s with
  | String w (String x (String y (String z s'))) =>
      let a := byte_of (b64_value w * 4 + b64_value x / 16) in
      let b := byte_of (b64_value x mod 16 * 16 + b64_value y / 4) in
      let c := byte_of (b64_value y mod 4 * 64 + b64_value z) in
      if Ascii.eqb y "="%char then String a ""
      else if Ascii.eqb z "="%char then String a (String b "")
      else String a (String b (String c (b64decode s')))
  | _ => ""
  end%Z.

Lemma b64_table :
  forallb (λ n, (b64_value (b64_char n) =? n)%Z && negb (Ascii.eqb (b64_char n) "="%char)) (seqZ 0 64) = true.
Proof. vm_compute. reflexivity. Qed.
Lemma b64_value_char n :
  (0 ≤ n < 64)%Z → b64_value (b64_char n) = n ∧ Ascii.eqb (b64_char n) "="%char = false.
Proof.
  intros Hn. pose proof b64_table as Ht. rewrite forallb_forall in Ht. specialize (Ht n).
  rewrite <- list_elem_of_In, elem_of_seqZ in Ht. specialize (Ht ltac:(lia)). by bool_hyps.
Qed.

Lemma code_bound c : (0 ≤ code c < 256)%Z.
Proof. unfold code. pose proof (N_ascii_bounded c). lia. Qed.
Lemma byte_of_code c : byte_of (code c) = c.
Proof. unfold byte_of, code. by rewrite N2Z.id, ascii_N_embedding. Qed.

(** The four six-bit pieces of three bytes, and back. *)
Lemma sextets a b c :
  (0 ≤ a < 256 → 0 ≤ b < 256 → 0 ≤ c < 256 →
   0 ≤ a / 4 < 64 ∧ 0 ≤ a mod 4 * 16 + b / 16 < 64 ∧ 0 ≤ b mod 16 * 4 + c / 64 < 64 ∧ 0 ≤ c mod 64 < 64
   ∧ a / 4 * 4 + (a mod 4 * 16 + b / 16) / 16 = a
   ∧ (a mod 4 * 16 + b / 16) mod 16 * 16 + (b mod 16 * 4 + c / 64) / 4 = b
   ∧ (b mod 16 * 4 + c / 64) mod 4 * 64 + c mod 64 = c)%Z.
Proof. intros. Z.to_euclidean_division_equations. lia. Qed.

Lemma b64_roundtrip s : b64decode (b64encode s) = s.
Proof.
  assert (∀ n s, String.length s ≤ n → b64decode (b64encode s) = s) as H; [|by eapply H].
  clear s. induction n as [|n IH]; intros s Hs; [by destruct s; simpl in Hs; [|lia]|].
  destruct s as [|a [|b [|c s]]]; [done|..].
  - destruct (sextets (code a) 0 0 (code_bound a)) as (A & B & _ & _ & E & _); [lia..|].
    change (0 / 16)%Z with 0%Z in *. rewrite Z.add_0_r in *. cbn [b64encode b64decode].
    destruct (b64_value_char _ A) as [-> _], (b64_value_char _ B) as [-> _].
    change (Ascii.eqb "=" "=") with true. cbv match. by rewrite E, byte_of_code.
  - destruct (sextets (code a) (code b) 0 (code_bound a) (code_bound b)) as (A & B & C & _ & E & F & _); [lia|].
    change (0 / 64)%Z with 0%Z in *. rewrite (Z.add_0_r (code b mod 16 * 4)) in *. cbn [b64encode b64decode].
    destruct (b64_value_char _ A) as [-> _], (b64_value_char _ B) as [-> _], (b64_value_char _ C) as [-> ->].
    change (Ascii.eqb "=" "=") with true. cbv match. by rewrite E, F, !byte_of_code.
  - destruct (sextets _ _ _ (code_bound a) (code_bound b) (code_bound c)) as (A & B & C & D & E & F & G).
    cbn [b64encode b64decode].
    destruct (b64_value_char _ A) as [-> _], (b64_value_char _ B) as [-> _],
      (b64_value_char _ C) as [-> ->], (b64_value_char _ D) as [-> ->].
    cbv match. rewrite E, F, G, !byte_of_code. do 3 f_equal. apply IH. simpl in Hs. lia.
Qed.
