(* ===== verification/EgressProxy.v ===== *)
(** * host/_public_egress_proxy.py: the session's HTTP/CONNECT proxy

    One client connection is a function of the world it talks to: what [recv]
    returns on the client and the upstream socket, which sockets [select]
    reports, whether [sendall] and [connect] succeed.  [w_trace] records what
    the proxy did.  A chunk longer than the requested size is delivered in
    pieces, as a stream socket does; an exhausted script is a closed
    connection.  Loops over [recv] take fuel; [stream_size] is enough. *)
From S2P Require Import Prelude PyStr IpAddress PyUrl PublicEgress.
From stdpp Require Import options.
From Stdlib Require Import Ascii.

Definition _MAX_HEADER_BYTES : Z := 65536.
Definition _READ_CHUNK_BYTES : Z := 65536.
Definition _HTTPS_CONNECT_PORTS : list Z := [443%Z].

Inductive recv_item := Chunk (s : string) | RecvError.
Inductive event :=
| Connect (a : ip_addr) (port : Z)
| ToUpstream (s : string)
| ToClient (s : string).

Record world := {
  w_client : list recv_item;
  w_upstream : list recv_item;
  w_ready : list (bool * bool);
  w_sends : list bool;
  w_connect : ip_addr → Z → bool;
  w_trace : list event }.

Definition W := py world.

Definition set_client x (w : world) : world :=
  {| w_client := x; w_upstream := w_upstream w; w_ready := w_ready w; w_sends := w_sends w;
     w_connect := w_connect w; w_trace := w_trace w |}.
Definition set_upstream x (w : world) : world :=
  {| w_client := w_client w; w_upstream := x; w_ready := w_ready w; w_sends := w_sends w;
     w_connect := w_connect w; w_trace := w_trace w |}.
Definition set_ready x (w : world) : world :=
  {| w_client := w_client w; w_upstream := w_upstream w; w_ready := x; w_sends := w_sends w;
     w_connect := w_connect w; w_trace := w_trace w |}.
Definition set_sends x (w : world) : world :=
  {| w_client := w_client w; w_upstream := w_upstream w; w_ready := w_ready w; w_sends := x;
     w_connect := w_connect w; w_trace := w_trace w |}.
Definition log (e : event) (w : world) : world :=
  {| w_client := w_client w; w_upstream := w_upstream w; w_ready := w_ready w;
     w_sends := w_sends w; w_connect := w_connect w; w_trace := w_trace w ++ [e] |}.

(** ** Sockets *)

Definition crlf : string := String (ascii_of_nat 13) (String (ascii_of_nat 10) "").

(** [recv(n)] on a script: what it returns and what is left. *)
Definition recv_items (n : Z) (items : list recv_item) : list recv_item * outcome string :=
  match items with
  | [] => ([], Ret "")
  | RecvError :: items' => (items', Raise (OSErrorExn "recv"))
  | Chunk s :: items' =>
      if (Z.of_nat (String.length s) <=? n)%Z then (items', Ret s)
      else (Chunk (drop_str (Z.to_nat n) s) :: items', Ret (take_str (Z.to_nat n) s))
  end.
Definition recv_client (n : Z) : W string := λ w,
  let (items, r) := recv_items n (w_client w) in (set_client items w, r).
Definition recv_upstream (n : Z) : W string := λ w,
  let (items, r) := recv_items n (w_upstream w) in (set_upstream items w, r).

Definition sendall (e : event) : W unit := λ w,
  match w_sends w with
  | false :: rest => (set_sends rest w, Raise (OSErrorExn "sendall"))
  | true :: rest => (log e (set_sends rest w), Ret tt)
  | [] => (log e w, Ret tt)
  end.
Definition send_upstream (s : string) : W unit := sendall (ToUpstream s).
Definition send_client (s : string) : W unit := sendall (ToClient s).

(** A bound on the number of [recv] calls that return data or fail. *)
Definition item_size (i : recv_item) : nat :=
  match i with Chunk s => S (String.length s) | RecvError => 1 end.
Definition stream_size (items : list recv_item) : nat := sum_list (item_size <$> items).

(** ** Requests *)
Record ParsedRequest := {
  method : string;
  target : string;
  version : string;
  header_lines : list string;
  body_prefix : string }.

Definition BAD_REQUEST : Z := 400.
Definition FORBIDDEN : Z := 403.
Definition REQUEST_HEADER_FIELDS_TOO_LARGE : Z := 431.
Definition NOT_IMPLEMENTED : Z := 501.
Definition BAD_GATEWAY : Z := 502.
Definition phrase (status : Z) : string :=
  if (status =? 400)%Z then "Bad Request"
  else if (status =? 403)%Z then "Forbidden"
  else if (status =? 431)%Z then "Request Header Fields Too Large"
  else if (status =? 501)%Z then "Not Implemented"
  else "Bad Gateway".

(** [line.split(b":", 1)[0]] and [[1]] *)
Definition header_name (line : string) : string := (partition_char ":"%char line).1.
Definition header_value (line : string) : string := default "" (partition_char ":"%char line).2.

Definition headers (r : ParsedRequest) (name : string) : list string :=
  let prefix := lower name +:+ ":" in
  (λ line, bytes_strip (header_value line))
    <$> filter (λ line, startswith prefix (lower line) = true) (header_lines r).
Definition header (r : ParsedRequest) (name : string) : option string := head (headers r name).

(** [_HEADER_NAME] *)
Definition is_tchar (c : ascii) : bool :=
  is_alpha c || is_digit c
  || bool_decide (code c ∈ [33; 35; 36; 37; 38; 39; 42; 43; 45; 46; 94; 95; 96; 124; 126]%Z).
Definition header_name_ok (name : string) : bool :=
  negb (String.eqb name "") && str_all is_tchar name.

Definition is_bad_char (c : ascii) : bool := (code c =? 13)%Z || (code c =? 10)%Z.
Definition header_line_ok (line : string) : bool :=
  negb (startswith " " line || startswith (String (ascii_of_nat 9) "") line)
  && contains_char ":"%char line && header_name_ok (header_name line).

(** The bytes up to and beyond the blank line, parsed. *)
Definition parse_request (raw_headers body : string) : outcome ParsedRequest :=
  let lines := split_text crlf raw_headers in
  let invalid := Raise (ProxyRequestError BAD_REQUEST "Proxy request is invalid.") in
  if existsb (str_any is_bad_char) lines then invalid
  else match lines with
  | [] => invalid
  | first :: rest =>
      match partition_char " "%char first with
      | (method_raw, Some more) =>
          match partition_char " "%char more with
          | (target_raw, Some version_raw) =>
              match decode_ascii method_raw, decode_ascii target_raw, decode_ascii version_raw with
              | Some m, Some target, Some version =>
                  let method := upper m in
                  if String.eqb method "" || negb (startswith "HTTP/1." version) then invalid
                  else if negb (forallb header_line_ok rest)
                  then Raise (ProxyRequestError BAD_REQUEST "Proxy headers are invalid.")
                  else Ret {| method := method; target := target; version := version;
                              header_lines := rest; body_prefix := body |}
              | _, _, _ => invalid
              end
          | _ => invalid
          end
      | _ => invalid
      end
  end.

Definition blank_line : string := crlf +:+ crlf.

Fixpoint read_loop (fuel : nat) (buffer : string) : W (string * string) := λ w,
  match split_once blank_line buffer with
  | Some (h, b) => (w, Ret (h, b))
  | None =>
      match fuel with
      | 0 => (w, Raise (RuntimeErrorExn "out of fuel"))
      | S fuel' =>
          (let! chunk := recv_client _READ_CHUNK_BYTES in
           if String.eqb chunk ""
           then py_raise (ProxyRequestError BAD_REQUEST "Proxy request is incomplete.")
           else
             let buffer := buffer +:+ chunk in
             if (_MAX_HEADER_BYTES <? Z.of_nat (String.length buffer))%Z
             then py_raise (ProxyRequestError REQUEST_HEADER_FIELDS_TOO_LARGE "Headers are too large.")
             else read_loop fuel' buffer) w
      end
  end.

Definition _read_request : W ParsedRequest := λ w,
  (let! hb := read_loop (S (stream_size (w_client w))) "" in
   py_lift (parse_request hb.1 hb.2)) w.

Definition _parse_authority (authority : string) : outcome (string * Z) :=
  let invalid := Raise (ProxyRequestError BAD_REQUEST "CONNECT target is invalid.") in
  match urlsplit ("//" +:+ authority) with
  | Raise _ => invalid
  | Ret parsed =>
      match url_port parsed with
      | Raise _ => invalid
      | Ret port =>
          match url_hostname parsed, port, url_username parsed, url_password parsed with
          | Some h, Some p, None, None => Ret (h, p)
          | _, _, _, _ =>
              Raise (ProxyRequestError BAD_REQUEST "CONNECT target must include host and port.")
          end
      end
  end.

Definition _parse_absolute_http_target (target : string) : outcome (SplitResult * option Z) :=
  let invalid := Raise (ProxyRequestError BAD_REQUEST "Proxy target is invalid.") in
  match urlsplit target with
  | Raise _ => invalid
  | Ret parsed =>
      match url_port parsed with
      | Raise _ => invalid
      | Ret port =>
          if negb (String.eqb (lower (scheme parsed)) "http")
             || negb (is_some (url_hostname parsed))
             || is_some (url_username parsed) || is_some (url_password parsed)
             || negb (String.eqb (fragment parsed) "")
             || match port with
                | Some p => negb ((1 <=? p)%Z && (p <=? 65535)%Z)
                | None => false
                end
          then Raise (ProxyRequestError BAD_REQUEST "Proxy target must be an HTTP URL.")
          else Ret (parsed, port)
      end
  end.

(** [(request.header(b"upgrade") or b"").lower() == b"websocket"] *)
Definition is_websocket (r : ParsedRequest) : bool :=
  String.eqb (lower (default "" (header r "upgrade"))) "websocket".

Definition is_hop_header (line : string) : bool :=
  bool_decide (lower (bytes_strip (header_name line))
               ∈ ["proxy-authorization"; "proxy-connection"; "connection"]).

Definition origin_lines (r : ParsedRequest) (t : SplitResult) : list string :=
  let path := if String.eqb (url_path t) "" then "/" else url_path t in
  let path := if String.eqb (query t) "" then path else path +:+ "?" +:+ query t in
  [method r +:+ " " +:+ path +:+ " " +:+ version r]
  ++ filter (λ line, is_hop_header line = false) (header_lines r)
  ++ [if is_websocket r then "Connection: Upgrade" else "Connection: close"].

Definition _origin_form_request (r : ParsedRequest) (t : SplitResult) : string :=
  str_join crlf (origin_lines r t) +:+ crlf +:+ crlf +:+ body_prefix r.

Definition _request_body_remaining (r : ParsedRequest) : outcome Z :=
  let content_lengths := headers r "content-length" in
  match headers r "transfer-encoding" with
  | _ :: _ =>
      Raise (ProxyRequestError NOT_IMPLEMENTED "Chunked proxy requests are unsupported.")
  | [] =>
      match content_lengths with
      | _ :: _ :: _ => Raise (ProxyRequestError BAD_REQUEST "Content-Length is ambiguous.")
      | [] => Ret 0%Z
      | [v] =>
          match py_int v with
          | None => Raise (ProxyRequestError BAD_REQUEST "Content-Length is invalid.")
          | Some expected =>
              if (expected <? 0)%Z
              then Raise (ProxyRequestError BAD_REQUEST "Content-Length is invalid.")
              else
                let remaining := (expected - Z.of_nat (String.length (body_prefix r)))%Z in
                if (remaining <? 0)%Z
                then Raise (ProxyRequestError BAD_REQUEST "Request body is larger than declared.")
                else Ret remaining
          end
      end
  end.

Fixpoint forward_loop (fuel : nat) (remaining : Z) : W unit := λ w,
  if (remaining =? 0)%Z then (w, Ret tt)
  else match fuel with
  | 0 => (w, Raise (RuntimeErrorExn "out of fuel"))
  | S fuel' =>
      (let! chunk := recv_client (Z.min _READ_CHUNK_BYTES remaining) in
       if String.eqb chunk ""
       then py_raise (ProxyRequestError BAD_REQUEST "Proxy request body is incomplete.")
       else do! send_upstream chunk in
            forward_loop fuel' (remaining - Z.of_nat (String.length chunk))%Z) w
  end.
Definition _forward_request_body (remaining : Z) : W unit := λ w,
  forward_loop (S (stream_size (w_client w))) remaining w.

Fixpoint response_loop (fuel : nat) : W unit := λ w,
  match fuel with
  | 0 => (w, Raise (RuntimeErrorExn "out of fuel"))
  | S fuel' =>
      (let! chunk := recv_upstream _READ_CHUNK_BYTES in
       if String.eqb chunk "" then py_return tt
       else do! send_client chunk in response_loop fuel') w
  end.
Definition _relay_response : W unit := λ w, response_loop (S (stream_size (w_upstream w))) w.

(** One direction of the relay: [false] when the source has closed. *)
Definition relay_one (from_client : bool) : W bool :=
  let! data := (if from_client then recv_client _READ_CHUNK_BYTES
                else recv_upstream _READ_CHUNK_BYTES) in
  if String.eqb data "" then py_return false
  else do! (if from_client then send_upstream data else send_client data) in py_return true.

(** [select] answers with the sockets that are readable; none on idle timeout. *)
Fixpoint relay_loop (ready : list (bool * bool)) : W unit :=
  match ready with
  | [] => py_return tt
  | (l, r) :: ready' =>
      do! py_modify (set_ready ready') in
      if negb l && negb r then py_return tt
      else
        let! go := (if l then relay_one true else py_return true) in
        if negb go then py_return tt
        else
          let! go := (if r then relay_one false else py_return true) in
          if negb go then py_return tt else relay_loop ready'
  end.
Definition _relay_bidirectional : W unit := λ w, relay_loop (w_ready w) w.

Definition error_response (status : Z) (reason : string) : string :=
  "HTTP/1.1 " +:+ dec status +:+ " " +:+ phrase status +:+ crlf
  +:+ "Content-Type: text/plain; charset=utf-8" +:+ crlf
  +:+ "Content-Length: " +:+ dec (Z.of_nat (String.length reason)) +:+ crlf
  +:+ "Connection: close" +:+ crlf +:+ crlf +:+ reason.

(** [with suppress(OSError)]: the only exception a send raises. *)
Definition _send_error (status : Z) (reason : string) : W unit := λ w,
  ((send_client (error_response status reason) w).1, Ret tt).

Definition reason_value (r : EgressBlockReason) : string :=
  match r with
  | INVALID_TARGET => "invalid_target" | UNSUPPORTED_TRANSPORT => "unsupported_transport"
  | DNS_RESOLUTION_FAILED => "dns_resolution_failed" | NO_ADDRESSES => "no_addresses"
  | MIXED_ADDRESS_SCOPE => "mixed_address_scope" | IPV4_MAPPED => "ipv4_mapped"
  | NETWORK_METADATA => "network_metadata" | UNSPECIFIED => "unspecified"
  | LOOPBACK => "loopback" | LINK_LOCAL => "link_local" | PRIVATE => "private"
  | SHARED => "shared" | MULTICAST => "multicast" | RESERVED => "reserved"
  | NON_GLOBAL => "non_global"
  end.
Definition blocked_text (r : EgressBlockReason) : string :=
  "Connection blocked: " +:+ reason_value r +:+ ".".

Section proxy.
Context (T : ip_tables) (resolve : string → Z → outcome (list string)).

Definition _decide (r : EgressRequest) : outcome EgressDecision :=
  decide_public_egress T resolve r.

Definition _open_upstream (d : EgressDecision) : W unit := λ w,
  match d_allowed d, endpoint d with
  | true, Some ep =>
      if w_connect w (pinned_address ep) (ep_port ep)
      then (log (Connect (pinned_address ep) (ep_port ep)) w, Ret tt)
      else (w, Raise (ProxyRequestError BAD_GATEWAY "Upstream connection failed."))
  | _, _ => (w, Raise (ProxyRequestError FORBIDDEN
                   (blocked_text (default NON_GLOBAL (d_block_reason d)))))
  end.

Definition _handle_connect (r : ParsedRequest) : W unit :=
  let! hp := py_lift (_parse_authority (target r)) in
  if negb (bool_decide (hp.2 ∈ _HTTPS_CONNECT_PORTS))
  then py_raise (ProxyRequestError FORBIDDEN (blocked_text UNSUPPORTED_TRANSPORT))
  else
    let! decision := py_lift (_decide {| hostname := hp.1; port := hp.2; transport := HTTPS;
                                         request_kind := SUBRESOURCE |}) in
    do! _open_upstream decision in
    do! send_client ("HTTP/1.1 200 Connection Established" +:+ crlf +:+ crlf) in
    do! (if String.eqb (body_prefix r) "" then py_return tt else send_upstream (body_prefix r)) in
    _relay_bidirectional.

Definition _handle_http (r : ParsedRequest) : W unit :=
  let! parsed := py_lift (_parse_absolute_http_target (target r)) in
  let! remaining := py_lift (_request_body_remaining r) in
  match url_hostname parsed.1 with
  | None => py_raise (AssertionErrorExn "")
  | Some h =>
      let transport := if is_websocket r then WEBSOCKET else HTTP in
      let! decision := py_lift (_decide
        {| hostname := h;
           port := match parsed.2 with Some 0%Z | None => 80 | Some p => p end;
           transport := transport;
           request_kind := if is_websocket r then WEBSOCKET_KIND else SUBRESOURCE |}) in
      do! _open_upstream decision in
      do! send_upstream (_origin_form_request r parsed.1) in
      do! _forward_request_body remaining in
      if is_websocket r then _relay_bidirectional else _relay_response
  end.

Definition _handle_client : W unit :=
  py_try (let! r := _read_request in
          if String.eqb (method r) "CONNECT" then _handle_connect r else _handle_http r)
    (λ e, match e with
          | ProxyRequestError status reason => _send_error status reason
          | OSErrorExn _ => _send_error BAD_GATEWAY "Upstream connection failed."
          | e => py_raise e
          end).
End proxy.
