(* ===== verification/EgressProxyProofs.v ===== *)
(** * Correctness of the egress proxy

    A client, whatever bytes it sends, gets a connection only to a public
    address the policy approved, and nothing of it reaches any upstream before
    that; every failure becomes an error response.  Request heads parse the
    same however the bytes are cut into reads, and bodies are forwarded to the
    byte. *)
From S2P Require Import Prelude PyStr IpAddress PyUrl PublicEgress EgressProxy.
From stdpp Require Import options.
From Stdlib Require Import Ascii.

(** The exceptions [_handle_client] turns into a response. *)
Definition handled (e : exn) : Prop :=
  match e with ProxyRequestError _ _ | OSErrorExn _ => True | _ => False end.

(** [m] only adds events satisfying [P], and raises only handled exceptions. *)
Definition emits {A} (P : event → Prop) (m : W A) : Prop :=
  ∀ w, (∃ tr, w_trace (m w).1 = w_trace w ++ tr ∧ Forall P tr)
       ∧ ∀ e, (m w).2 = Raise e → handled e.
Definition quiet {A} (m : W A) : Prop := emits (λ _, False) m.

Definition no_connect (e : event) : Prop := match e with Connect _ _ => False | _ => True end.
Definition to_client (e : event) : Prop := match e with ToClient _ => True | _ => False end.

Lemma emits_mono {A} (P Q : event → Prop) (m : W A) :
  (∀ e, P e → Q e) → emits P m → emits Q m.
Proof.
  intros HPQ Hm w. destruct (Hm w) as [(tr & Htr & Hall) He]. split; [|done].
  exists tr. split; [done|]. eapply Forall_impl; eauto.
Qed.
Lemma quiet_emits {A} P (m : W A) : quiet m → emits P m.
Proof. by apply emits_mono. Qed.

Lemma emits_return {A} P (a : A) : emits P (py_return a).
Proof. intros w. split; [exists []; by rewrite app_nil_r|done]. Qed.
Lemma emits_raise {A} P e : handled e → emits P (@py_raise world A e).
Proof. intros He w. split; [exists []; by rewrite app_nil_r|]. by intros ? [= <-]. Qed.
Lemma emits_lift {A} P (o : outcome A) : (∀ e, o = Raise e → handled e) → emits P (py_lift o).
Proof. intros He w. split; [exists []; by rewrite app_nil_r|done]. Qed.

Lemma emits_bind_at {A B} P (m : W A) (k : A → W B) w :
  (∃ tr, w_trace (m w).1 = w_trace w ++ tr ∧ Forall P tr) ∧ (∀ e, (m w).2 = Raise e → handled e) →
  (∀ a, (m w).2 = Ret a →
    (∃ tr, w_trace (k a (m w).1).1 = w_trace (m w).1 ++ tr ∧ Forall P tr)
    ∧ ∀ e, (k a (m w).1).2 = Raise e → handled e) →
  (∃ tr, w_trace (py_bind m k w).1 = w_trace w ++ tr ∧ Forall P tr)
  ∧ ∀ e, (py_bind m k w).2 = Raise e → handled e.
Proof.
  unfold py_bind. intros [(tr & Htr & Hall) He] Hk. destruct (m w) as [w1 [a|e]]; simpl in *.
  - destruct (Hk a eq_refl) as [(tr' & Htr' & Hall') He']. split; [|done].
    exists (tr ++ tr'). rewrite Htr', Htr, app_assoc. split; [done|]. by apply Forall_app.
  - split; [by exists tr|]. intros e' [= <-]. by apply He.
Qed.
Lemma emits_bind {A B} P (m : W A) (k : A → W B) :
  emits P m → (∀ a, emits P (k a)) → emits P (py_bind m k).
Proof. intros Hm Hk w. apply emits_bind_at; [apply Hm|]. intros a _. apply Hk. Qed.

Create HintDb proxy discriminated.
#[export] Hint Resolve emits_return emits_raise : proxy.

(** ** Sockets *)

Lemma recv_items_handled n items e : (recv_items n items).2 = Raise e → handled e.
Proof. unfold recv_items. repeat case_match; naive_solver. Qed.

Lemma recv_client_quiet n : quiet (recv_client n).
Proof.
  intros w. unfold recv_client. pose proof (recv_items_handled n (w_client w)) as He.
  destruct (recv_items n (w_client w)) as [items r]. split; [|exact He].
  exists []. by rewrite app_nil_r.
Qed.
Lemma recv_upstream_quiet n : quiet (recv_upstream n).
Proof.
  intros w. unfold recv_upstream. pose proof (recv_items_handled n (w_upstream w)) as He.
  destruct (recv_items n (w_upstream w)) as [items r]. split; [|exact He].
  exists []. by rewrite app_nil_r.
Qed.

Lemma sendall_emits (P : event → Prop) e : P e → emits P (sendall e).
Proof.
  intros He w. unfold sendall. destruct (w_sends w) as [|[] rest]; simpl.
  - split; [exists [e]; by repeat constructor|done].
  - split; [exists [e]; by repeat constructor|done].
  - split; [exists []; by rewrite app_nil_r|]. by intros ? [= <-].
Qed.

(** A [recv] that returns data consumes the script. *)
Lemma recv_items_size n items :
  (1 ≤ n)%Z →
  match recv_items n items with
  | (items', Ret s) => s ≠ "" → stream_size items' + String.length s ≤ stream_size items
  | (items', Raise _) => stream_size items' ≤ stream_size items
  end.
Proof.
  intros Hn. unfold recv_items, stream_size. destruct items as [|[s|] items]; csimpl; [done| |lia].
  destruct (Z.leb_spec (Z.of_nat (String.length s)) n); csimpl; [lia|]. intros _.
  rewrite length_drop_str, length_take_str. lia.
Qed.

Lemma str_length_pos s : s ≠ "" → 1 ≤ String.length s.
Proof. destruct s; simpl; [done|lia]. Qed.

(** ** Loops *)

Lemma read_loop_quiet fuel buffer w :
  stream_size (w_client w) < fuel →
  (∃ tr, w_trace (read_loop fuel buffer w).1 = w_trace w ++ tr ∧ Forall (λ _, False) tr)
  ∧ ∀ e, (read_loop fuel buffer w).2 = Raise e → handled e.
Proof.
  revert buffer w. induction fuel as [|fuel IH]; intros buffer w Hf; [lia|]. cbn [read_loop].
  destruct (split_once blank_line buffer) as [[h b]|].
  { split; [exists []; by rewrite app_nil_r|done]. }
  apply emits_bind_at; [apply recv_client_quiet|]. intros s Hs.
  destruct (String.eqb_spec s "") as [->|Hne]; [by apply emits_raise|].
  destruct (_ <? _)%Z; [by apply emits_raise|]. apply IH.
  pose proof (recv_items_size _READ_CHUNK_BYTES (w_client w) ltac:(done)) as Hsz.
  unfold recv_client in *. destruct (recv_items _ _) as [items r]. simpl in *. subst r.
  specialize (Hsz Hne). pose proof (str_length_pos s Hne). lia.
Qed.

Lemma parse_request_handled h b e : parse_request h b = Raise e → handled e.
Proof. unfold parse_request. repeat case_match; naive_solver. Qed.

Lemma read_request_quiet : quiet _read_request.
Proof.
  intros w. unfold _read_request. apply emits_bind_at; [apply read_loop_quiet; lia|].
  intros [h b] _. apply emits_lift. apply parse_request_handled.
Qed.

Lemma forward_loop_emits fuel remaining w :
  stream_size (w_client w) < fuel → (0 ≤ remaining)%Z →
  (∃ tr, w_trace (forward_loop fuel remaining w).1 = w_trace w ++ tr ∧ Forall no_connect tr)
  ∧ ∀ e, (forward_loop fuel remaining w).2 = Raise e → handled e.
Proof.
  revert remaining w. induction fuel as [|fuel IH]; intros remaining w Hf Hr; [lia|].
  cbn [forward_loop]. destruct (Z.eqb_spec remaining 0) as [->|Hne].
  { split; [exists []; by rewrite app_nil_r|done]. }
  set (n := Z.min _READ_CHUNK_BYTES remaining).
  assert (1 ≤ n)%Z as Hn by (unfold n, _READ_CHUNK_BYTES; lia).
  pose proof (recv_items_size n (w_client w) Hn) as Hsz.
  assert (∀ s, (recv_client n w).2 = Ret s → (Z.of_nat (String.length s) ≤ remaining)%Z) as Hlen.
  { intros s. unfold recv_client, recv_items. subst n.
    destruct (w_client w) as [|[x|] items]; simpl; [intros [= <-]; simpl; lia| |done].
    destruct (Z.leb_spec (Z.of_nat (String.length x)) (Z.min _READ_CHUNK_BYTES remaining));
      intros [= <-]; [lia|]. rewrite length_take_str. lia. }
  apply emits_bind_at; [apply quiet_emits, recv_client_quiet|]. intros s Hs.
  destruct (String.eqb_spec s "") as [->|Hs']; [by apply emits_raise|].
  apply emits_bind_at; [by apply sendall_emits|]. intros [] _. apply IH.
  - unfold recv_client in *. destruct (recv_items n (w_client w)) as [items r]. simpl in *. subst r.
    specialize (Hsz Hs'). pose proof (str_length_pos s Hs').
    unfold send_upstream, sendall. simpl. repeat case_match; simpl; lia.
  - specialize (Hlen s Hs). lia.
Qed.

Lemma response_loop_emits fuel w :
  stream_size (w_upstream w) < fuel →
  (∃ tr, w_trace (response_loop fuel w).1 = w_trace w ++ tr ∧ Forall to_client tr)
  ∧ ∀ e, (response_loop fuel w).2 = Raise e → handled e.
Proof.
  revert w. induction fuel as [|fuel IH]; intros w Hf; [lia|]. cbn [response_loop].
  apply emits_bind_at; [apply quiet_emits, recv_upstream_quiet|]. intros s Hs.
  destruct (String.eqb_spec s "") as [->|Hs']; [apply emits_return|].
  apply emits_bind_at; [by apply sendall_emits|]. intros [] _. apply IH.
  pose proof (recv_items_size _READ_CHUNK_BYTES (w_upstream w) ltac:(done)) as Hsz.
  unfold recv_upstream in *. destruct (recv_items _ (w_upstream w)) as [items r]. simpl in *. subst r.
  specialize (Hsz Hs'). pose proof (str_length_pos s Hs').
  unfold send_client, sendall. simpl. repeat case_match; simpl; lia.
Qed.

Lemma relay_one_emits b : emits no_connect (relay_one b).
Proof.
  apply emits_bind.
  { destruct b; apply quiet_emits; [apply recv_client_quiet|apply recv_upstream_quiet]. }
  intros s. destruct (String.eqb s ""); [auto with proxy|].
  apply emits_bind; [destruct b; by apply sendall_emits|auto with proxy].
Qed.

Lemma relay_emits : emits no_connect _relay_bidirectional.
Proof.
  assert (∀ ready, emits no_connect (relay_loop ready)) as Hl; [|intros w; apply Hl].
  induction ready as [|[l r] ready IH]; simpl; [auto with proxy|].
  apply emits_bind. { intros w. split; [exists []; by rewrite app_nil_r|done]. }
  intros _. destruct (negb l && negb r); [auto with proxy|].
  apply emits_bind. { destruct l; auto using relay_one_emits with proxy. }
  intros []; simpl; [|auto with proxy].
  apply emits_bind. { destruct r; auto using relay_one_emits with proxy. }
  intros []; simpl; auto with proxy.
Qed.

(** ** Parsing failures are handled *)

Lemma parse_authority_handled s e : _parse_authority s = Raise e → handled e.
Proof. unfold _parse_authority. repeat case_match; naive_solver. Qed.
Lemma parse_target_handled s e : _parse_absolute_http_target s = Raise e → handled e.
Proof. unfold _parse_absolute_http_target. repeat case_match; naive_solver. Qed.
Lemma body_remaining_handled r e : _request_body_remaining r = Raise e → handled e.
Proof. unfold _request_body_remaining. repeat case_match; naive_solver. Qed.
Lemma body_remaining_nonneg r n : _request_body_remaining r = Ret n → (0 ≤ n)%Z.
Proof. unfold _request_body_remaining. repeat case_match; intros; simplify_eq; bool_hyps; lia. Qed.
Lemma parse_target_host s t : _parse_absolute_http_target s = Ret t → is_Some (url_hostname t.1).
Proof.
  unfold _parse_absolute_http_target. repeat case_match; intros; simplify_eq; bool_hyps; simpl;
  by destruct (url_hostname _).
Qed.

(** ** The handler *)

(** A trace that opens no upstream, or opens one for an allowed decision
    before anything is sent on it. *)
Definition approved (T : ip_tables) (resolve : string → Z → outcome (list string))
    (a : ip_addr) (p : Z) : Prop :=
  ∃ req d ep, decide_public_egress T resolve req = Ret d ∧ d_allowed d = true
    ∧ endpoint d = Some ep ∧ pinned_address ep = a ∧ ep_port ep = p ∧ port req = p.
Definition trace_shape T resolve (tr : list event) : Prop :=
  Forall to_client tr
  ∨ ∃ a p rest, tr = Connect a p :: rest ∧ Forall no_connect rest ∧ approved T resolve a p.

Section handler.
Context (T : ip_tables) (resolve : string → Z → outcome (list string)).
Hypothesis resolver_errors : ∀ h p e, resolve h p = Raise e → caught e = true.

Lemma decide_total req e : decide_public_egress T resolve req ≠ Raise e.
Proof using resolver_errors.
  intros Hd. pose proof Hd as Hd'. unfold decide_public_egress in Hd.
  case_bool_decide as Ht; [|done]. cbn [negb] in Hd.
  destruct (_normalize_hostname (hostname req)) as [h|] eqn:Hh; [|done].
  destruct ((1 <=? port req)%Z && (port req <=? 65535)%Z) eqn:Hp; [|done]. cbn [negb] in Hd.
  destruct (raw_addresses resolve h (port req)) as [raw|e'] eqn:Hraw.
  - bool_hyps. pose proof (decide_step T resolve req h raw Ht Hh ltac:(lia) Hraw) as Hs.
    by rewrite Hd' in Hs.
  - unfold raw_addresses in Hraw. destruct (ip_address h); [done|].
    destruct (resolve h (port req)) eqn:Hr; [done|]. simplify_eq.
    by rewrite (resolver_errors _ _ _ Hr) in Hd.
Qed.

(** Opening: nothing, or the approved connection. *)
Lemma open_upstream_shape req d w :
  decide_public_egress T resolve req = Ret d →
  match _open_upstream d w with
  | (w', Ret tt) => ∃ a p, w_trace w' = w_trace w ++ [Connect a p] ∧ approved T resolve a p
  | (w', Raise e) => w_trace w' = w_trace w ∧ handled e
  end.
Proof using.
  intros Hd. unfold _open_upstream. destruct (d_allowed d) eqn:Ha; [|done].
  destruct (endpoint d) as [ep|] eqn:Hep; [|done]. destruct (w_connect _ _ _); [|done].
  exists (pinned_address ep), (ep_port ep). split; [done|].
  destruct (decide_allowed T resolve req d Hd Ha) as (h & a & l & _ & _ & _ & _ & _ & Hep').
  rewrite Hep in Hep'. injection Hep' as ->. eexists req, d, _. split_and!; done.
Qed.

(** What a request handler does from an empty trace. *)
Definition handler_ok (m : W unit) : Prop :=
  ∀ w, w_trace w = [] →
    trace_shape T resolve (w_trace (m w).1) ∧ ∀ e, (m w).2 = Raise e → handled e.

Lemma handler_open req d (k : W unit) :
  decide_public_egress T resolve req = Ret d → emits no_connect k →
  handler_ok (do! _open_upstream d in k).
Proof using.
  intros Hd Hk w Hw. unfold py_bind. pose proof (open_upstream_shape req d w Hd) as Ho.
  destruct (_open_upstream d w) as [w' [[]|e]].
  - destruct Ho as (a & p & Htr & Hap). destruct (Hk w') as [(tr & Htr' & Hall) He].
    split; [|done]. right. exists a, p, tr. rewrite Htr', Htr, Hw. done.
  - destruct Ho as [Htr He]. simpl. split; [|by intros ? [= <-]]. left. by rewrite Htr, Hw.
Qed.

Lemma handler_bind {A} (m : W A) (k : A → W unit) :
  quiet m → (∀ w a, (m w).2 = Ret a → handler_ok (k a)) → handler_ok (py_bind m k).
Proof using.
  intros Hm Hk w Hw. unfold py_bind. destruct (Hm w) as [(tr & Htr & Hall) He].
  assert (tr = []) as -> by (by destruct Hall). rewrite app_nil_r in Htr.
  pose proof (Hk w) as Hk'. destruct (m w) as [w1 [a|e]]; simpl in *.
  - apply (Hk' a eq_refl). congruence.
  - split; [left; by rewrite Htr, Hw|]. intros e' [= <-]. by apply He.
Qed.

Lemma handler_raise e : handled e → handler_ok (py_raise e).
Proof using. intros He w Hw. split; [left; simpl; by rewrite Hw|]. by intros ? [= <-]. Qed.

Lemma lift_quiet {A} (o : outcome A) : (∀ e, o = Raise e → handled e) → quiet (py_lift o).
Proof using. apply emits_lift. Qed.
Lemma decide_quiet req : quiet (py_lift (_decide T resolve req)).
Proof using resolver_errors. apply lift_quiet. intros e He. by apply decide_total in He. Qed.

Lemma handle_connect_ok r : handler_ok (_handle_connect T resolve r).
Proof using resolver_errors.
  apply handler_bind; [apply lift_quiet, parse_authority_handled|]. intros _ [h p] _.
  case_bool_decide; simpl; [|by apply handler_raise].
  apply handler_bind; [apply decide_quiet|]. intros w0 d Hd.
  eapply handler_open; [exact Hd|]. apply emits_bind; [by apply sendall_emits|]. intros _.
  apply emits_bind; [|intros _; apply relay_emits].
  case_match; [auto with proxy|by apply sendall_emits].
Qed.

Lemma handle_http_ok r : handler_ok (_handle_http T resolve r).
Proof using resolver_errors.
  apply handler_bind; [apply lift_quiet, parse_target_handled|]. intros w1 t Ht.
  apply handler_bind; [apply lift_quiet, body_remaining_handled|]. intros w2 n Hn.
  simpl in Ht, Hn. destruct (parse_target_host _ _ Ht) as [h ->].
  apply handler_bind; [apply decide_quiet|]. intros w0 d Hd.
  eapply handler_open; [exact Hd|]. apply emits_bind; [by apply sendall_emits|]. intros _.
  apply emits_bind.
  { intros w. apply forward_loop_emits; [lia|]. by eapply body_remaining_nonneg. }
  intros _. destruct (is_websocket r); [apply relay_emits|].
  intros w. destruct (response_loop_emits (S (stream_size (w_upstream w))) w) as [(tr & Htr & Hall) He];
    [lia|].
  split; [|done]. exists tr. split; [done|]. eapply Forall_impl; [done|]. by intros [].
Qed.

Lemma send_error_trace status reason w :
  ∃ tr, w_trace (_send_error status reason w).1 = w_trace w ++ tr ∧ Forall to_client tr.
Proof using.
  destruct (sendall_emits to_client (ToClient (error_response status reason)) I w) as [H _].
  exact H.
Qed.

Lemma trace_shape_app tr tr' :
  trace_shape T resolve tr → Forall to_client tr' → trace_shape T resolve (tr ++ tr').
Proof using.
  intros [Hc|(a & p & rest & -> & Hr & Hap)] Ht'; [left; by apply Forall_app|right].
  exists a, p, (rest ++ tr'). split_and!; [done| |done]. apply Forall_app. split; [done|].
  eapply Forall_impl; [done|]. by intros [].
Qed.

Lemma handle_client_ok w :
  w_trace w = [] →
  (_handle_client T resolve w).2 = Ret tt
  ∧ trace_shape T resolve (w_trace (_handle_client T resolve w).1).
Proof using resolver_errors.
  intros Hw. unfold _handle_client, py_try.
  set (body := py_bind _ _). assert (handler_ok body) as Hb.
  { apply handler_bind; [apply read_request_quiet|]. intros _ r _.
    destruct (String.eqb (method r) "CONNECT"); [apply handle_connect_ok|apply handle_http_ok]. }
  destruct (Hb w Hw) as [Hshape He]. destruct (body w) as [w' [[]|e]]; [done|]. simpl in *.
  specialize (He e eq_refl).
  assert (∀ st re, (_send_error st re w').2 = Ret tt
    ∧ trace_shape T resolve (w_trace (_send_error st re w').1)) as Hs.
  { intros st re. split; [done|]. destruct (send_error_trace st re w') as (tr & -> & Htr).
    by apply trace_shape_app. }
  destruct e; try done; apply Hs.
Qed.
End handler.

(** C31: Whatever a client sends, and however reads, writes and connections
    fail, one connection is served without an exception escaping the handler,
    and what the proxy did is either only responses to the client, or a single
    connection, to the pinned public address of an allowed decision and before
    anything is sent upstream, followed by traffic on it. *)
Theorem proxy_connects_only_approved T resolve w :
  (∀ h p e, resolve h p = Raise e → caught e = true) → w_trace w = [] →
  let (w', r) := _handle_client T resolve w in
  r = Ret tt
  ∧ (Forall to_client (w_trace w')
     ∨ ∃ a p rest req d ep, w_trace w' = Connect a p :: rest ∧ Forall no_connect rest
         ∧ decide_public_egress T resolve req = Ret d ∧ endpoint d = Some ep
         ∧ pinned_address ep = a ∧ ep_port ep = p
         ∧ allowed (classify_public_address T a) = true ∧ (1 ≤ p ≤ 65535)%Z).
Proof.
  intros Hres Hw. destruct (handle_client_ok T resolve Hres w Hw) as [Hr Hs].
  destruct (_handle_client T resolve w) as [w' r]. simpl in *. split; [done|].
  destruct Hs as [Hc|(a & p & rest & Htr & Hrest & req & d & ep & Hd & Ha & Hep & Hpin & Hp & Hpr)];
    [by left|right].
  destruct (decide_allowed T resolve req d Hd Ha)
    as (h & a' & l & _ & _ & Hport & _ & Hall & Hep').
  exists a, p, rest, req, d, ep. rewrite Hep in Hep'. injection Hep' as ->. simpl in *. subst.
  inversion Hall; subst. split_and!; first [done|lia].
Qed.

(** [GET http://example.com/] over a link that closes after the response. *)
Definition get_request : string :=
  "GET http://example.com/a?b HTTP/1.1" +:+ crlf +:+ "Host: example.com" +:+ crlf
  +:+ "Proxy-Connection: keep-alive" +:+ crlf +:+ crlf.
Definition demo_world (reads : list recv_item) : world :=
  {| w_client := reads; w_upstream := [Chunk "OK"]; w_ready := []; w_sends := [];
     w_connect := λ _ _, true; w_trace := [] |}.

Lemma proxy_connects_only_approved_witness :
  let w := demo_world [Chunk (take_str 9 get_request); Chunk (drop_str 9 get_request)] in
  let r := _handle_client tables_current (answers ["93.184.216.34"]) w in
  head (w_trace r.1) = Some (Connect (V4 (q 93 184 216 34)) 80) ∧ r.2 = Ret tt
  ∧ (Forall to_client (w_trace r.1)
     ∨ ∃ a p rest req d ep, w_trace r.1 = Connect a p :: rest ∧ Forall no_connect rest
         ∧ decide_public_egress tables_current (answers ["93.184.216.34"]) req = Ret d
         ∧ endpoint d = Some ep ∧ pinned_address ep = a ∧ ep_port ep = p
         ∧ allowed (classify_public_address tables_current a) = true ∧ (1 ≤ p ≤ 65535)%Z).
Proof.
  cbv zeta. split; [vm_compute; reflexivity|].
  pose proof (proxy_connects_only_approved tables_current (answers ["93.184.216.34"])
    (demo_world [Chunk (take_str 9 get_request); Chunk (drop_str 9 get_request)])) as H.
  destruct (_handle_client _ _ _) as [w' r]. apply H; [|reflexivity]. done.
Defined.

(** ** Reads *)

Fixpoint str_concat (l : list string) : string :=
  match l with [] => "" | s :: l' => s +:+ str_concat l' end.

Lemma prefix_nil s : String.prefix "" s = true.
Proof. by destruct s. Qed.

Lemma prefix_app_long sep s t :
  String.length sep ≤ String.length s → String.prefix sep (s +:+ t) = String.prefix sep s.
Proof.
  revert s. induction sep as [|c sep IH]; intros s Hl; [by rewrite !prefix_nil|].
  destruct s as [|x s]; simpl in Hl; [lia|]. change (String x s +:+ t) with (String x (s +:+ t)).
  simpl. destruct (ascii_dec c x); [|done]. apply IH. lia.
Qed.

Lemma prefix_length sep s : String.prefix sep s = true → String.length sep ≤ String.length s.
Proof.
  revert s. induction sep as [|c sep IH]; intros s; simpl; [lia|]. destruct s as [|x s]; [done|].
  simpl. destruct (ascii_dec c x); [|done]. intros H%IH. lia.
Qed.

Lemma split_once_app sep s t a b :
  split_once sep s = Some (a, b) → split_once sep (s +:+ t) = Some (a, b +:+ t).
Proof.
  revert a b. induction s as [|c s IH]; intros a b Hs; cbn [split_once] in Hs.
  - destruct (String.prefix sep "") eqn:Hp; [|done]. injection Hs as <- <-.
    destruct sep; [|done]. change ("" +:+ t) with t. by destruct t.
  - pose proof (split_once_sound sep (String c s) a b) as Hsound.
    assert (String.length sep ≤ String.length (String c s)) as Hl.
    { rewrite (Hsound Hs), !length_str_app. lia. }
    change (String c s +:+ t) with (String c (s +:+ t)). cbn [split_once].
    rewrite <-(prefix_app_long sep (String c s) t) in Hs by done.
    change (String c s +:+ t) with (String c (s +:+ t)) in Hs.
    destruct (String.prefix sep (String c (s +:+ t))) eqn:Hp.
    + injection Hs as <- <-. change (String c (s +:+ t)) with (String c s +:+ t).
      by rewrite drop_str_app.
    + destruct (split_once sep s) as [[a' b']|] eqn:E; [|done]. injection Hs as <- <-.
      by rewrite (IH a' b').
Qed.

Lemma recv_whole n s items :
  (Z.of_nat (String.length s) ≤ n)%Z → recv_items n (Chunk s :: items) = (items, Ret s).
Proof. intros Hl. simpl. by rewrite (proj2 (Z.leb_le _ _) Hl). Qed.

Definition incomplete : exn := ProxyRequestError BAD_REQUEST "Proxy request is incomplete.".

(** The head of a byte string, read at once. *)
Definition head_spec (s : string) : outcome ParsedRequest :=
  match split_once blank_line s with
  | Some (h, b) => parse_request h b
  | None => Raise incomplete
  end.

Lemma read_loop_chunks fuel buffer l w :
  w_client w = Chunk <$> l → Forall (λ c, c ≠ "") l →
  (Z.of_nat (String.length (buffer +:+ str_concat l)) ≤ 65536)%Z → length l < fuel →
  match split_once blank_line (buffer +:+ str_concat l) with
  | Some (h, b) => ∃ b' l', read_loop fuel buffer w = (set_client (Chunk <$> l') w, Ret (h, b'))
                     ∧ b' +:+ str_concat l' = b
  | None => (read_loop fuel buffer w).2 = Raise incomplete
  end.
Proof.
  revert buffer l w. induction fuel as [|fuel IH]; intros buffer l w Hw Hne Hlen Hf; [lia|].
  cbn [read_loop]. destruct (split_once blank_line buffer) as [[h b]|] eqn:Hs.
  { rewrite (split_once_app _ _ _ _ _ Hs). exists b, l. rewrite <-Hw. split; [|done]. by destruct w. }
  destruct l as [|c l].
  { simpl. rewrite str_app_nil_r, Hs. unfold py_bind, recv_client. rewrite Hw. done. }
  inversion Hne as [|?? Hc Hne']; subst. simpl str_concat in *.
  rewrite <-string_app_assoc in *.
  assert (Z.of_nat (String.length (buffer +:+ c)) ≤ 65536)%Z as Hbc.
  { rewrite length_str_app in Hlen. lia. }
  unfold py_bind, recv_client. rewrite Hw. cbn [fmap list_fmap].
  rewrite recv_whole by (rewrite length_str_app in Hbc; unfold _READ_CHUNK_BYTES; lia).
  destruct (String.eqb_spec c ""); [done|].
  rewrite (proj2 (Z.ltb_ge _ _)) by (unfold _MAX_HEADER_BYTES; lia).
  specialize (IH (buffer +:+ c) l (set_client (Chunk <$> l) w) eq_refl Hne' Hlen ltac:(simpl in Hf; lia)).
  destruct (split_once blank_line ((buffer +:+ c) +:+ str_concat l)) as [[h b]|]; [|done].
  destruct IH as (b' & l' & -> & Hb). by exists b', l'.
Qed.

Lemma parse_request_body h b1 b2 :
  parse_request h b1
  = match parse_request h b2 with
    | Ret r => Ret {| method := method r; target := target r; version := version r;
                      header_lines := header_lines r; body_prefix := b1 |}
    | Raise e => Raise e
    end.
Proof. unfold parse_request. by repeat case_match. Qed.

Lemma length_stream (l : list string) : length l ≤ stream_size (Chunk <$> l).
Proof. unfold stream_size. induction l as [|c l IH]; csimpl; lia. Qed.

(** Up to the 64 KiB limit, parsing a request does not depend on how its
    bytes arrive: any sequence of non-empty reads gives the request, or the
    error, of the whole text, and the bytes after the head are neither lost
    nor repeated (those already read are the body prefix, the others are still
    to be read). *)
Theorem read_request_chunking l w :
  w_client w = Chunk <$> l → Forall (λ c, c ≠ "") l →
  (Z.of_nat (String.length (str_concat l)) ≤ _MAX_HEADER_BYTES)%Z →
  let (w', r) := _read_request w in
  match r, head_spec (str_concat l) with
  | Ret p, Ret p' =>
      method p = method p' ∧ target p = target p' ∧ version p = version p'
      ∧ header_lines p = header_lines p'
      ∧ ∃ l', w_client w' = Chunk <$> l' ∧ body_prefix p +:+ str_concat l' = body_prefix p'
  | Raise e, Raise e' => e = e'
  | _, _ => False
  end.
Proof.
  intros Hw Hne Hlen. unfold _read_request, py_bind, head_spec.
  pose proof (read_loop_chunks (S (stream_size (w_client w))) "" l w Hw Hne Hlen) as Hl.
  rewrite Hw in Hl. specialize (Hl ltac:(pose proof (length_stream l); lia)). rewrite <-Hw in Hl.
  change ("" +:+ str_concat l) with (str_concat l) in Hl.
  destruct (split_once blank_line (str_concat l)) as [[h b]|].
  - destruct Hl as (b' & l' & -> & <-). unfold py_lift. simpl.
    rewrite (parse_request_body h b' (b' +:+ str_concat l')).
    destruct (parse_request h (b' +:+ str_concat l')) as [p|e] eqn:E; [|done]. simpl.
    split_and!; try done. exists l'. split; [done|].
    rewrite (parse_request_body h _ "") in E. destruct (parse_request h ""); [|done].
    by injection E as <-.
  - destruct (read_loop _ "" w) as [w' r]. simpl in Hl. by rewrite Hl.
Qed.

Lemma read_request_chunking_witness :
  ∃ w' p, _read_request (demo_world (Chunk <$> [take_str 30 get_request; drop_str 30 get_request]))
    = (w', Ret p) ∧ target p = "http://example.com/a?b".
Proof.
  pose proof (read_request_chunking [take_str 30 get_request; drop_str 30 get_request]
    (demo_world (Chunk <$> [take_str 30 get_request; drop_str 30 get_request])) eq_refl) as H.
  destruct (_read_request _) as [w' r].
  assert (head_spec (str_concat [take_str 30 get_request; drop_str 30 get_request])
          = head_spec get_request) as Hh by (vm_compute; reflexivity).
  rewrite Hh in H.
  destruct (head_spec get_request) as [p'|] eqn:E; [|by vm_compute in E].
  destruct r as [p|e].
  - exists w', p. split; [done|]. destruct H as (_ & -> & _).
    + repeat constructor; by vm_compute.
    + vm_compute. congruence.
    + vm_compute in E. by injection E as <-.
  - exfalso. apply H; [repeat constructor; by vm_compute|vm_compute; congruence].
Defined.

(** The limit counts body bytes that arrive with the end of the head: a head
    of 46 bytes is refused as too large when its last bytes come with a full
    read of body, and accepted when it comes in one read. *)
Fixpoint repeat_char (n : nat) (c : ascii) : string :=
  match n with 0 => "" | S n' => String c (repeat_char n' c) end.
Definition small_head : string := "POST http://example.com/ HTTP/1.1" +:+ crlf +:+ "Host: a".
Lemma body_bytes_count_as_headers :
  let tail := blank_line +:+ repeat_char (Z.to_nat 65532) "x"%char in
  (_read_request (demo_world [Chunk small_head; Chunk tail])).2
    = Raise (ProxyRequestError REQUEST_HEADER_FIELDS_TOO_LARGE "Headers are too large.")
  ∧ raised (_read_request (demo_world [Chunk (small_head +:+ tail)])).2 = false.
Proof. vm_compute. split; reflexivity. Qed.

(** ** Bodies *)

Definition body_incomplete : exn :=
  ProxyRequestError BAD_REQUEST "Proxy request body is incomplete.".

Lemma take_str_past n s t :
  String.length s ≤ n → take_str n (s +:+ t) = s +:+ take_str (n - String.length s) t.
Proof.
  revert n. induction s as [|x s IH]; intros n Hl; simpl in Hl.
  - change ("" +:+ t) with t. simpl. by rewrite Nat.sub_0_r.
  - destruct n as [|n]; [lia|]. change (String x s +:+ t) with (String x (s +:+ t)).
    simpl. rewrite IH by lia. done.
Qed.
Lemma drop_str_past n s t :
  String.length s ≤ n → drop_str n (s +:+ t) = drop_str (n - String.length s) t.
Proof.
  revert n. induction s as [|x s IH]; intros n Hl; simpl in Hl.
  - change ("" +:+ t) with t. simpl. by rewrite Nat.sub_0_r.
  - destruct n as [|n]; [lia|]. change (String x s +:+ t) with (String x (s +:+ t)).
    simpl. apply IH. lia.
Qed.
Lemma drop_str_nonempty n s : n < String.length s → drop_str n s ≠ "".
Proof.
  intros Hl He. apply (f_equal String.length) in He. rewrite length_drop_str in He. simpl in He. lia.
Qed.

(** What one body transfer of [n] bytes does on a stream [l]. *)
Definition forwards (n : nat) (l : list string) (w w' : world) (r : outcome unit) : Prop :=
  ∃ pieces l', w_trace w' = w_trace w ++ (ToUpstream <$> pieces)
    ∧ str_concat pieces = take_str n (str_concat l)
    ∧ w_client w' = Chunk <$> l' ∧ str_concat l' = drop_str n (str_concat l)
    ∧ r = if decide (n ≤ String.length (str_concat l)) then Ret tt else Raise body_incomplete.

Lemma send_upstream_ok s w :
  w_sends w = [] → send_upstream s w = (log (ToUpstream s) w, Ret tt).
Proof. unfold send_upstream, sendall. by intros ->. Qed.

Lemma take_str_0 s : take_str 0 s = "".
Proof. by destruct s. Qed.

(** The transfer of [n] bytes is one read of [c] and the transfer of the rest. *)
Lemma forwards_cons n c l l0 w w1 w' r :
  str_concat l0 = c +:+ str_concat l → String.length c ≤ n →
  w_trace w1 = w_trace w ++ [ToUpstream c] →
  forwards (n - String.length c) l w1 w' r → forwards n l0 w w' r.
Proof.
  intros Hl Hc Htr (pieces & l' & Htr' & Hp & Hcl & Hl' & ->). exists (c :: pieces), l'.
  rewrite Hl. split_and!.
  - by rewrite Htr', Htr, <-app_assoc.
  - simpl. by rewrite Hp, take_str_past.
  - done.
  - by rewrite Hl', drop_str_past.
  - rewrite length_str_app. repeat case_decide; first [done|lia].
Qed.

Lemma forward_loop_exact fuel n l w :
  w_client w = Chunk <$> l → Forall (λ c, c ≠ "") l → w_sends w = [] →
  stream_size (w_client w) < fuel →
  let (w', r) := forward_loop fuel (Z.of_nat n) w in forwards n l w w' r.
Proof.
  revert n l w. induction fuel as [|fuel IH]; intros n l w Hw Hne Hs Hf; [lia|]. cbn [forward_loop].
  destruct (Z.eqb_spec (Z.of_nat n) 0) as [Hz|Hz].
  { assert (n = 0) as -> by lia. exists [], l.
    split_and!; [by rewrite app_nil_r|by rewrite take_str_0|done|done|done]. }
  unfold py_bind, recv_client. rewrite Hw. destruct l as [|c l]; csimpl.
  { exists [], []. split_and!; simpl;
      [by rewrite app_nil_r|by destruct n|done|by destruct n|by rewrite decide_False by lia]. }
  inversion Hne as [|?? Hc Hne']; subst. pose proof (str_length_pos c Hc) as Hcl.
  set (m := Z.min _READ_CHUNK_BYTES (Z.of_nat n)).
  assert (1 ≤ m ≤ Z.of_nat n)%Z as Hm by (unfold m, _READ_CHUNK_BYTES; lia). clearbody m.
  rewrite Hw in Hf. unfold stream_size in Hf. csimpl in Hf.
  destruct (Z.leb_spec (Z.of_nat (String.length c)) m) as [Hle|Hgt].
  - destruct (String.eqb_spec c ""); [done|]. rewrite send_upstream_ok by done.
    replace (Z.of_nat n - Z.of_nat (String.length c))%Z
      with (Z.of_nat (n - String.length c)) by lia.
    set (w1 := log (ToUpstream c) (set_client (Chunk <$> l) w)).
    specialize (IH (n - String.length c) l w1 eq_refl Hne' Hs). unfold stream_size in IH.
    assert (sum_list (item_size <$> w_client w1) < fuel) as Hf' by (simpl; lia).
    specialize (IH Hf'). destruct (forward_loop fuel _ w1) as [w' r].
    eapply (forwards_cons n c l (c :: l) w w1); [done|lia|done|done].
  - set (k := Z.to_nat m). assert (1 ≤ k < String.length c) as Hk by (unfold k; lia).
    assert (String.length (take_str k c) = k) as Hkl by (rewrite length_take_str; lia).
    destruct (String.eqb_spec (take_str k c) "") as [E|_].
    { rewrite E in Hkl. simpl in Hkl. lia. }
    rewrite send_upstream_ok by done. rewrite Hkl.
    replace (Z.of_nat n - Z.of_nat k)%Z with (Z.of_nat (n - k)) by (unfold k; lia).
    set (w1 := log (ToUpstream (take_str k c)) (set_client (Chunk (drop_str k c) :: (Chunk <$> l)) w)).
    specialize (IH (n - k) (drop_str k c :: l) w1 eq_refl).
    assert (Forall (λ c, c ≠ "") (drop_str k c :: l)) as Hne2.
    { constructor; [|done]. apply drop_str_nonempty. lia. }
    specialize (IH Hne2 Hs). unfold stream_size in IH.
    assert (sum_list (item_size <$> w_client w1) < fuel) as Hf'.
    { change (w_client w1) with (Chunk (drop_str k c) :: (Chunk <$> l)). csimpl.
      rewrite length_drop_str. lia. }
    specialize (IH Hf'). destruct (forward_loop fuel _ w1) as [w' r].
    eapply (forwards_cons n (take_str k c) (drop_str k c :: l) (c :: l) w w1); [|unfold k in *; lia|done|].
    + simpl. by rewrite <-string_app_assoc, take_drop_str.
    + by rewrite Hkl.
Qed.

(** Forwarding a request body of [n] declared bytes sends exactly the next
    [n] bytes of the client's stream, in order and regardless of how they
    arrive, leaves the rest unread, and reports an incomplete body exactly
    when the stream has fewer, after sending what there was. *)
Theorem forward_body_exact n l w :
  w_client w = Chunk <$> l → Forall (λ c, c ≠ "") l → w_sends w = [] →
  let (w', r) := _forward_request_body (Z.of_nat n) w in
  ∃ pieces l', w_trace w' = w_trace w ++ (ToUpstream <$> pieces)
    ∧ str_concat pieces = take_str n (str_concat l)
    ∧ w_client w' = Chunk <$> l' ∧ str_concat l' = drop_str n (str_concat l)
    ∧ r = if decide (n ≤ String.length (str_concat l)) then Ret tt else Raise body_incomplete.
Proof. intros Hw Hne Hs. apply forward_loop_exact; try done. lia. Qed.

Lemma forward_body_exact_witness :
  let (w', r) := _forward_request_body 5 (demo_world [Chunk "abc"; Chunk "defg"]) in
  r = Ret tt ∧ w_client w' = [Chunk "fg"].
Proof.
  pose proof (forward_body_exact 5 ["abc"; "defg"] (demo_world [Chunk "abc"; Chunk "defg"]) eq_refl) as H.
  change (Z.of_nat 5) with 5%Z in H.
  destruct (_forward_request_body 5 _) as [w' r] eqn:E.
  destruct H as (pieces & l' & _ & _ & _ & _ & ->); [by repeat constructor|done|].
  split; [reflexivity|]. vm_compute in E. by injection E as <-.
Defined.

(** ** Heads the proxy emits *)

Definition no_cr (s : string) : bool := negb (str_any is_bad_char s).
Definition cr : ascii := ascii_of_nat 13.

Lemma no_cr_cons c s : no_cr (String c s) = true ↔ is_bad_char c = false ∧ no_cr s = true.
Proof.
  unfold no_cr, str_any. rewrite !negb_involutive. simpl. rewrite andb_true_iff, negb_true_iff. done.
Qed.
Lemma no_cr_app s t : no_cr (s +:+ t) = no_cr s && no_cr t.
Proof.
  unfold no_cr, str_any. rewrite !negb_involutive.
  induction s as [|c s IH]; [done|].
  change (String c s +:+ t) with (String c (s +:+ t)). simpl. by rewrite IH, andb_assoc.
Qed.

Lemma prefix_cr sep c s : is_bad_char c = false → String.prefix (String cr sep) (String c s) = false.
Proof.
  intros Hc. cbn [String.prefix].
  destruct (ascii_dec cr c) as [<-|]; [by vm_compute in Hc|done].
Qed.

(** A separator that starts with CR is not found inside a line. *)
Lemma split_once_line sep w s :
  no_cr w = true →
  split_once (String cr sep) (w +:+ s)
  = match split_once (String cr sep) s with Some (a, b) => Some (w +:+ a, b) | None => None end.
Proof.
  induction w as [|c w IH]; intros Hw.
  - change ("" +:+ s) with s. by destruct (split_once _ s) as [[]|].
  - apply no_cr_cons in Hw as [Hc Hw]. change (String c w +:+ s) with (String c (w +:+ s)).
    cbn [split_once]. rewrite prefix_cr by done. rewrite IH by done.
    by destruct (split_once _ s) as [[]|].
Qed.

Lemma split_once_crlf w s :
  no_cr w = true →
  split_once crlf (w +:+ s)
  = match split_once crlf s with Some (a, b) => Some (w +:+ a, b) | None => None end.
Proof. apply (split_once_line (String (ascii_of_nat 10) "")). Qed.
Lemma split_once_blank w s :
  no_cr w = true →
  split_once blank_line (w +:+ s)
  = match split_once blank_line s with Some (a, b) => Some (w +:+ a, b) | None => None end.
Proof. apply (split_once_line (String (ascii_of_nat 10) crlf)). Qed.

Lemma split_once_here sep s : split_once sep (sep +:+ s) = Some ("", s).
Proof.
  assert (String.prefix sep (sep +:+ s) = true) as Hp.
  { apply prefix_app. induction sep as [|c sep IH]; [done|]. simpl. by destruct (ascii_dec c c). }
  assert (drop_str (String.length sep) (sep +:+ s) = s) as Hd.
  { rewrite drop_str_past by lia. by rewrite Nat.sub_diag. }
  destruct (sep +:+ s) eqn:E; cbn [split_once]; by rewrite Hp, Hd.
Qed.

Lemma split_lines ls fuel :
  ls ≠ [] → Forall (λ l, no_cr l = true) ls → length ls ≤ S fuel →
  split_all fuel crlf (str_join crlf ls) = ls.
Proof.
  revert fuel. induction ls as [|l ls IH]; intros fuel Hne Hall Hf; [done|].
  inversion Hall as [|?? Hl Hall']; subst. destruct ls as [|l2 ls].
  - cbn [str_join]. destruct fuel as [|fuel]; [done|]. cbn [split_all].
    pose proof (split_once_crlf l "" Hl) as Hn. rewrite str_app_nil_r in Hn. by rewrite Hn.
  - cbn [length] in Hf. destruct fuel as [|fuel]; [lia|].
    change (str_join crlf (l :: l2 :: ls)) with (l +:+ crlf +:+ str_join crlf (l2 :: ls)).
    cbn [split_all]. rewrite split_once_crlf by done. rewrite split_once_here, str_app_nil_r.
    f_equal. apply IH; [done|done|]. cbn [length]. lia.
Qed.

Lemma join_length (ls : list string) :
  length ls ≤ S (String.length (str_join crlf ls)).
Proof.
  induction ls as [|l ls IH]; [simpl; lia|]. destruct ls as [|l2 ls]; [simpl; lia|].
  change (str_join crlf (l :: l2 :: ls)) with (l +:+ crlf +:+ str_join crlf (l2 :: ls)).
  rewrite !length_str_app. cbn [length] in *. change (String.length crlf) with 2. lia.
Qed.

(** The blank line ends the head: it does not occur between non-empty lines. *)
Lemma split_head ls body :
  ls ≠ [] → Forall (λ l, no_cr l = true ∧ l ≠ "") ls →
  split_once blank_line (str_join crlf ls +:+ blank_line +:+ body) = Some (str_join crlf ls, body).
Proof.
  induction ls as [|l ls IH]; intros Hne Hall; [done|].
  inversion Hall as [|?? [Hl Hl0] Hall']; subst. destruct ls as [|l2 ls].
  - cbn [str_join]. rewrite split_once_blank by done. by rewrite split_once_here, str_app_nil_r.
  - change (str_join crlf (l :: l2 :: ls)) with (l +:+ crlf +:+ str_join crlf (l2 :: ls)).
    rewrite !string_app_assoc. rewrite split_once_blank by done.
    specialize (IH ltac:(done) Hall').
    assert (split_once blank_line (crlf +:+ str_join crlf (l2 :: ls) +:+ blank_line +:+ body)
            = Some (crlf +:+ str_join crlf (l2 :: ls), body)) as ->; [|done].
    inversion Hall' as [|?? [Hl2 Hl20] _]; subst. destruct l2 as [|x l2]; [done|].
    apply no_cr_cons in Hl2 as [Hx _].
    assert (∃ t, str_join crlf (String x l2 :: ls) = String x t) as [t Ht].
    { destruct ls; [by eexists|]. eexists. reflexivity. }
    rewrite Ht in *. change (String x t +:+ blank_line +:+ body) with (String x (t +:+ blank_line +:+ body)) in *.
    set (u := t +:+ blank_line +:+ body) in *.
    change (crlf +:+ String x u) with (String cr (String (ascii_of_nat 10) (String x u))).
    cbn [split_once].
    assert (String.prefix blank_line (String cr (String (ascii_of_nat 10) (String x u))) = false) as ->.
    { change (String.prefix crlf (String x u) = false). by apply prefix_cr. }
    assert (String.prefix blank_line (String (ascii_of_nat 10) (String x u)) = false) as ->; [done|].
    cbn [split_once] in IH. by rewrite IH.
Qed.

(** Characters of the parts of a text are characters of the text. *)
Section chars.
Context (p : ascii → bool).

Lemma all_app s t : str_all p (s +:+ t) = str_all p s && str_all p t.
Proof.
  induction s as [|c s IH]; [done|]. change (String c s +:+ t) with (String c (s +:+ t)).
  simpl. by rewrite IH, andb_assoc.
Qed.
Lemma all_lstrip q s : str_all p s = true → str_all p (lstrip_while q s) = true.
Proof. induction s as [|c s IH]; simpl; [done|]. intros H. case_match; bool_hyps; [auto|]. simpl. by rewrite H, H1. Qed.
Lemma all_remove q s : str_all p s = true → str_all p (remove_chars q s) = true.
Proof.
  induction s as [|c s IH]; simpl; [done|]. intros H. case_match; bool_hyps; [auto|].
  simpl. rewrite H. auto.
Qed.
Lemma all_drop n s : str_all p s = true → str_all p (drop_str n s) = true.
Proof.
  revert s. induction n as [|n IH]; intros [|c s]; simpl; try done. intros H. bool_hyps. auto.
Qed.
Lemma all_partition sep s :
  str_all p s = true →
  str_all p (partition_char sep s).1 = true
  ∧ ∀ r, (partition_char sep s).2 = Some r → str_all p r = true.
Proof.
  induction s as [|c s IH]; simpl; [done|]. intros H. bool_hyps. destruct (Ascii.eqb c sep); simpl.
  - split; [done|]. by intros r [= <-].
  - destruct IH as [IH1 IH2]; [done|]. destruct (partition_char sep s); simpl in *. by rewrite H, IH1.
Qed.
Lemma all_netloc s : str_all p s = true → str_all p (split_netloc s).2 = true.
Proof.
  induction s as [|c s IH]; simpl; [done|]. intros H. case_match.
  - done.
  - bool_hyps. destruct (split_netloc s). simpl in *. auto.
Qed.

Lemma all_cut_scheme s : str_all p s = true → str_all p (cut_scheme s).2 = true.
Proof.
  intros Hs. unfold cut_scheme. destruct (all_partition ":"%char s Hs) as [_ Hr].
  destruct (partition_char ":"%char s) as [[|c pre] [rest|]]; simpl in *; try done.
  case_match; simpl; auto.
Qed.
Lemma all_cut_netloc s : str_all p s = true → str_all p (cut_netloc s).2 = true.
Proof. intros Hs. unfold cut_netloc. case_match; [by apply all_netloc, all_drop|done]. Qed.
Lemma all_cut_after c s :
  str_all p s = true → str_all p (cut_after c s).1 = true ∧ str_all p (cut_after c s).2 = true.
Proof.
  intros Hs. unfold cut_after. destruct (all_partition c s Hs) as [Ha Hr].
  destruct (partition_char c s) as [a [f|]]; simpl in *; auto.
Qed.

Lemma all_urlsplit s t :
  str_all p s = true → urlsplit s = Ret t →
  str_all p (url_path t) = true ∧ str_all p (query t) = true.
Proof.
  intros Hs. unfold urlsplit.
  set (u0 := remove_chars _ _). assert (str_all p u0 = true) as H0 by (by apply all_remove, all_lstrip).
  apply all_cut_scheme in H0 as H1. destruct (cut_scheme u0) as [sch u1]. simpl in H1.
  apply all_cut_netloc in H1 as H2. destruct (cut_netloc u1) as [net u2]. simpl in H2.
  destruct (_ || _ || _); [done|].
  apply (all_cut_after "#"%char) in H2 as [H3 _]. destruct (cut_after _ u2) as [u3 frag]. simpl in H3.
  apply (all_cut_after "?"%char) in H3 as [H4 H5]. destruct (cut_after _ u3) as [u4 qs].
  by intros [= <-].
Qed.
End chars.

Lemma no_cr_all s : no_cr s = str_all (λ c, negb (is_bad_char c)) s.
Proof. unfold no_cr, str_any. by rewrite negb_involutive. Qed.

Lemma no_cr_upper s : no_cr s = true → no_cr (upper s) = true.
Proof.
  rewrite !no_cr_all. unfold upper. induction s as [|c s IH]; simpl; [done|].
  intros H. bool_hyps. rewrite IH by done. rewrite andb_true_r.
  unfold to_upper. destruct (is_lower c) eqn:El; [|by rewrite H].
  clear IH. destruct c as [[] [] [] [] [] [] [] []]; vm_compute in El |- *; congruence.
Qed.

(** What [parse_request] guarantees of the parts it returns. *)
Lemma parse_request_parts h b r :
  parse_request h b = Ret r →
  body_prefix r = b ∧ method r ≠ "" ∧ no_cr (method r) = true ∧ no_cr (target r) = true
  ∧ no_cr (version r) = true
  ∧ Forall (λ l, no_cr l = true ∧ header_line_ok l = true) (header_lines r).
Proof.
  unfold parse_request. destruct (existsb _ _) eqn:Hbad; [done|].
  destruct (split_text crlf h) as [|first rest]; [done|].
  simpl in Hbad. apply orb_false_iff in Hbad as [Hfirst Hrest].
  assert (no_cr first = true) as Hf by (unfold no_cr; by rewrite Hfirst).
  rewrite no_cr_all in Hf. destruct (all_partition _ " "%char first Hf) as [Hm Hmore].
  destruct (partition_char " "%char first) as [m [more|]]; [|done].
  destruct (all_partition _ " "%char more (Hmore _ eq_refl)) as [Ht Hv].
  destruct (partition_char " "%char more) as [t [v|]]; [|done]. simpl in *.
  specialize (Hv v eq_refl). unfold decode_ascii.
  destruct (is_ascii m), (is_ascii t), (is_ascii v); try done.
  destruct (_ || _) eqn:Hmv; [done|]. destruct (forallb header_line_ok rest) eqn:Hh; [|done].
  intros [= <-]. simpl. apply orb_false_iff in Hmv as [Hm0 _]. apply String.eqb_neq in Hm0.
  split_and!; try done.
  - apply no_cr_upper. by rewrite no_cr_all.
  - by rewrite no_cr_all.
  - by rewrite no_cr_all.
  - apply Forall_forall. intros l Hl. apply list_elem_of_In in Hl. rewrite forallb_forall in Hh.
    split; [|by apply Hh]. unfold no_cr. apply negb_true_iff.
    destruct (str_any is_bad_char l) eqn:E; [|done]. rewrite <-Hrest. symmetry.
    apply existsb_exists. eauto.
Qed.

Lemma header_line_nonempty l : header_line_ok l = true → l ≠ "".
Proof. intros H ->. by vm_compute in H. Qed.

Lemma origin_lines_ok h b r t :
  parse_request h b = Ret r → _parse_absolute_http_target (target r) = Ret t →
  Forall (λ l, no_cr l = true ∧ l ≠ "") (origin_lines r t.1).
Proof.
  intros Hr Ht. destruct (parse_request_parts _ _ _ Hr) as (_ & Hm0 & Hm & Htg & Hv & Hls).
  assert (no_cr (url_path t.1) = true ∧ no_cr (query t.1) = true) as [Hp Hq].
  { unfold _parse_absolute_http_target in Ht. rewrite no_cr_all in Htg.
    destruct (urlsplit (target r)) as [u|] eqn:Eu; [|done].
    destruct (all_urlsplit _ _ _ Htg Eu) as [Hp Hq]. rewrite !no_cr_all.
    destruct (url_port u); [|done]. case_match; [done|]. by simplify_eq/=. }
  unfold origin_lines. rewrite !Forall_app. split_and!.
  - constructor; [|constructor]. split; [|by destruct (method r)].
    rewrite !no_cr_app, Hm, Hv. repeat case_match; rewrite ?no_cr_app, ?Hp, ?Hq; done.
  - apply Forall_forall. intros l [_ Hl]%list_elem_of_filter. rewrite Forall_forall in Hls.
    destruct (Hls l Hl). split; [done|by apply header_line_nonempty].
  - constructor; [|constructor]. by destruct (is_websocket r).
Qed.

(** The head the proxy sends upstream says what it means: read back, its
    first blank line is its end, it splits into exactly the request line, the
    client's end-to-end header lines and one Connection line of the proxy's
    own, and no other hop-by-hop or Proxy header; a client cannot smuggle a
    line or a second request through it. *)
Theorem origin_form_reparses h b r t :
  parse_request h b = Ret r → _parse_absolute_http_target (target r) = Ret t →
  ∃ head, split_once blank_line (_origin_form_request r t.1) = Some (head, b)
    ∧ split_text crlf head = origin_lines r t.1
    ∧ filter (λ line, is_hop_header line = false) (tail (origin_lines r t.1))
      = filter (λ line, is_hop_header line = false) (header_lines r)
    ∧ filter (λ line, is_hop_header line = true) (tail (origin_lines r t.1))
      = [if is_websocket r then "Connection: Upgrade" else "Connection: close"].
Proof.
  intros Hr Ht. pose proof (origin_lines_ok _ _ _ _ Hr Ht) as Hok.
  destruct (parse_request_parts _ _ _ Hr) as (<- & _).
  exists (str_join crlf (origin_lines r t.1)). split_and!.
  - unfold _origin_form_request. rewrite <-(string_app_assoc crlf crlf).
    apply split_head; [done|exact Hok].
  - apply split_lines; [done| |apply join_length].
    eapply Forall_impl; [exact Hok|]. by intros l [].
  - simpl. rewrite filter_app. rewrite filter_all.
    + by destruct (is_websocket r); rewrite filter_cons, decide_False, filter_nil, app_nil_r.
    + apply Forall_forall. by intros l [? _]%list_elem_of_filter.
  - simpl. rewrite filter_app. replace (filter _ (filter _ _)) with (@nil string).
    + by destruct (is_websocket r).
    + symmetry. induction (header_lines r) as [|l ls IH]; [done|].
      rewrite filter_cons. case_decide as Hd; [|done]. rewrite filter_cons, decide_False by congruence.
      done.
Qed.

Lemma origin_form_reparses_witness :
  ∃ r t head, head_spec get_request = Ret r ∧ _parse_absolute_http_target (target r) = Ret t
    ∧ split_once blank_line (_origin_form_request r t.1) = Some (head, "")
    ∧ split_text crlf head = ["GET /a?b HTTP/1.1"; "Host: example.com"; "Connection: close"].
Proof.
  destruct (split_once blank_line get_request) as [[h b]|] eqn:Es; [|by vm_compute in Es].
  assert (b = "") as -> by (vm_compute in Es; congruence).
  destruct (head_spec get_request) as [r|] eqn:Er; [|by vm_compute in Er].
  destruct (_parse_absolute_http_target (target r)) as [t|] eqn:Et.
  2:{ exfalso. vm_compute in Er. injection Er as <-. by vm_compute in Et. }
  assert (parse_request h "" = Ret r) as Hp by (unfold head_spec in Er; by rewrite Es in Er).
  destruct (origin_form_reparses h "" r t Hp Et) as (head & H1 & H2 & _).
  exists r, t, head. split_and!; try done. rewrite H2.
  vm_compute in Er. injection Er as <-. vm_compute in Et. injection Et as <-.
  vm_compute. reflexivity.
Defined.
