(* ===== verification/EgressSession.v ===== *)
(** * host/_public_egress_session.py: one proxy and policy per guest

    [PublicEgressSession] owns a proxy and, for TAP guests, a firewall policy.
    The host it acts on is part of the state: which proxies are running, which
    TAP interfaces exist and which of them carry the policy.  Each external
    call (proxy factory, start and stop, policy install and removal, guest
    launch) succeeds or raises as [h_script] says; an exhausted script is
    success.  [h_log] records diagnostics and guest launches, the latter with
    what the host enforced at that moment. *)
From S2P Require Import Prelude PyDict PyStr Types.
From stdpp Require Import options.

Inductive PublicEgressGuestNetwork := qemu_slirp | guest_tap.
#[global] Instance guest_network_eq_dec : EqDecision PublicEgressGuestNetwork.
Proof. solve_decision. Defined.

Inductive PublicEgressFailureReason :=
| invalid_network | proxy_start_failed | policy_install_failed | guest_start_failed
| proxy_stopped | cleanup_failed.

Inductive PublicEgressSessionState := STOPPED_ | STARTING | READY | FAILED_CLOSED | DELETED.
#[global] Instance session_state_eq_dec : EqDecision PublicEgressSessionState.
Proof. solve_decision. Defined.

(** *** The host *)
Inductive log_entry :=
| Diag (sid : string) (st : PublicEgressSessionState) (reason : option PublicEgressFailureReason)
| Launch (sid : string) (proxy_running policy_active : bool).

Record host := {
  h_next : nat;
  h_running : gset nat;
  h_policies : gset string;
  h_taps : gset string;
  h_script : list bool;
  h_endpoint : nat → string * Z;
  h_log : list log_entry }.

Definition h_set_next x (h : host) : host :=
  {| h_next := x; h_running := h_running h; h_policies := h_policies h; h_taps := h_taps h;
     h_script := h_script h; h_endpoint := h_endpoint h; h_log := h_log h |}.
Definition h_set_running x (h : host) : host :=
  {| h_next := h_next h; h_running := x; h_policies := h_policies h; h_taps := h_taps h;
     h_script := h_script h; h_endpoint := h_endpoint h; h_log := h_log h |}.
Definition h_set_policies x (h : host) : host :=
  {| h_next := h_next h; h_running := h_running h; h_policies := x; h_taps := h_taps h;
     h_script := h_script h; h_endpoint := h_endpoint h; h_log := h_log h |}.
Definition h_set_taps x (h : host) : host :=
  {| h_next := h_next h; h_running := h_running h; h_policies := h_policies h; h_taps := x;
     h_script := h_script h; h_endpoint := h_endpoint h; h_log := h_log h |}.
Definition h_set_script x (h : host) : host :=
  {| h_next := h_next h; h_running := h_running h; h_policies := h_policies h; h_taps := h_taps h;
     h_script := x; h_endpoint := h_endpoint h; h_log := h_log h |}.
Definition h_add_log e (h : host) : host :=
  {| h_next := h_next h; h_running := h_running h; h_policies := h_policies h; h_taps := h_taps h;
     h_script := h_script h; h_endpoint := h_endpoint h; h_log := h_log h ++ [e] |}.

(** *** A session *)
Record Session := {
  session_name : string;
  guest_network : PublicEgressGuestNetwork;
  base_network : NetworkConfig;
  s_state : PublicEgressSessionState;
  s_proxy : option nat;
  active_network : option NetworkConfig;
  policy_installed : bool }.

Definition s_set_state x (s : Session) : Session :=
  {| session_name := session_name s; guest_network := guest_network s;
     base_network := base_network s; s_state := x; s_proxy := s_proxy s;
     active_network := active_network s; policy_installed := policy_installed s |}.
Definition s_set_proxy x (s : Session) : Session :=
  {| session_name := session_name s; guest_network := guest_network s;
     base_network := base_network s; s_state := s_state s; s_proxy := x;
     active_network := active_network s; policy_installed := policy_installed s |}.
Definition s_set_active x (s : Session) : Session :=
  {| session_name := session_name s; guest_network := guest_network s;
     base_network := base_network s; s_state := s_state s; s_proxy := s_proxy s;
     active_network := x; policy_installed := policy_installed s |}.
Definition s_set_policy x (s : Session) : Session :=
  {| session_name := session_name s; guest_network := guest_network s;
     base_network := base_network s; s_state := s_state s; s_proxy := s_proxy s;
     active_network := active_network s; policy_installed := x |}.

Definition SW : Type := host * Session.
Definition SE := py SW.

Definition on_host (f : host → host) (w : SW) : SW := (f w.1, w.2).
Definition on_session (f : Session → Session) (w : SW) : SW := (w.1, f w.2).
Definition modify_session (f : Session → Session) : SE unit := py_modify (on_session f).
Definition modify_host (f : host → host) : SE unit := py_modify (on_host f).

Definition PublicEgressSessionError (msg : string) : exn := NetworkError msg.
(** [raise PublicEgressSessionError(f"<pre>{self.session_id}<post>")] *)
Definition session_error {A} (pre post : string) : SE A := λ w,
  py_raise (PublicEgressSessionError (pre +:+ session_name w.2 +:+ post)) w.

(** The next external call: [true] when it succeeds. *)
Definition next_call : SE bool := λ w,
  match h_script w.1 with
  | [] => (w, Ret true)
  | b :: rest => (on_host (h_set_script rest) w, Ret b)
  end.

(** [proxy_factory(...)] *)
Definition new_proxy : SE nat :=
  let! ok := next_call in
  if ok then λ w, (on_host (h_set_next (S (h_next w.1))) w, Ret (h_next w.1))
  else py_raise (RuntimeErrorExn "proxy_factory").
(** [proxy.start()] *)
Definition proxy_start (p : nat) : SE (string * Z) :=
  let! ok := next_call in
  if ok then λ w, (on_host (λ h, h_set_running ({[p]} ∪ h_running h) h) w, Ret (h_endpoint w.1 p))
  else py_raise (OSErrorExn "proxy.start").
(** [proxy.stop()] *)
Definition proxy_stop (p : nat) : SE unit :=
  let! ok := next_call in
  if ok then modify_host (λ h, h_set_running (h_running h ∖ {[p]}) h)
  else py_raise (OSErrorExn "proxy.stop").
(** [apply_public_proxy_policy]: a failed transaction may be half applied, as
    the script's next bit says. *)
Definition apply_policy (tap : string) : SE unit :=
  let! ok := next_call in
  if ok then modify_host (λ h, h_set_policies ({[tap]} ∪ h_policies h) h)
  else
    let! partial := next_call in
    do! (if partial then modify_host (λ h, h_set_policies ({[tap]} ∪ h_policies h) h)
         else py_return tt) in
    py_raise (OSErrorExn "apply_public_proxy_policy").
(** [remove_network_policy] *)
Definition remove_policy (tap : string) : SE unit :=
  let! ok := next_call in
  if ok then modify_host (λ h, h_set_policies (h_policies h ∖ {[tap]}) h)
  else py_raise (OSErrorExn "remove_network_policy").

(** *** The methods *)
Definition _emit (reason : option PublicEgressFailureReason) : SE unit := λ w,
  (on_host (h_add_log (Diag (session_name w.2) (s_state w.2) reason)) w, Ret tt).
Definition _fail (st : PublicEgressSessionState) (reason : PublicEgressFailureReason) : SE unit :=
  do! modify_session (s_set_state st) in _emit (Some reason).

Definition _listen_host (s : Session) : outcome string :=
  let n := base_network s in
  if negb (bool_decide (nc_mode n = nat_mode))
  then Raise (ValueError "public egress requires managed NAT networking")
  else match guest_network s with
  | qemu_slirp => Ret "127.0.0.1"
  | guest_tap =>
      match guest_ip n, gateway_ip n with
      | Some _, Some gw =>
          if startswith "tap" (tap_device n) then Ret gw
          else Raise (ValueError "TAP public egress requires a managed TAP interface")
      | _, _ => Raise (ValueError "TAP public egress requires guest and gateway addresses")
      end
  end.

Definition _validate_endpoint (endpoint : string * Z) (listen_host : string) : outcome unit :=
  guard_raise (negb (String.eqb endpoint.1 listen_host)
               || negb ((1 <=? endpoint.2)%Z && (endpoint.2 <=? 65535)%Z))
    (ValueError "proxy returned an unexpected listener").

(** [{**base.model_dump(), "egress_proxy_host_port": port}], validated: the
    base network is a valid instance and the port is in range, so validation
    returns it as it is (lemma [with_proxy_port_valid] of ConfigValidation.v). *)
Definition with_proxy_port (port : Z) (n : NetworkConfig) : NetworkConfig :=
  {| guest_ip := guest_ip n; gateway_ip := gateway_ip n; netmask := netmask n;
     tap_device := tap_device n; guest_mac := guest_mac n; ssh_host_port := ssh_host_port n;
     egress_proxy_host_port := Some port; nc_mode := nc_mode n; nc_bridge := nc_bridge n |}.

Definition is_tap (s : Session) : bool :=
  match guest_network s with guest_tap => true | qemu_slirp => false end.

(** [_cleanup(mark_deleted=..., reason=...)] *)
Definition _cleanup (mark_deleted : bool) (reason : option PublicEgressFailureReason) : SE unit := λ w,
  if bool_decide (s_state w.2 = DELETED) then (w, Ret tt)
  else
    (let! failed :=
       match s_proxy w.2 with
       | None => py_return false
       | Some p =>
           py_try (do! proxy_stop p in do! modify_session (s_set_proxy None) in py_return false)
             (λ _, py_return true)
       end in
     if (failed : bool) then
       do! _fail FAILED_CLOSED cleanup_failed in
       session_error "Public-egress cleanup for '" "' was incomplete; retry stop."
     else
       do! modify_session (s_set_proxy None) in
       do! modify_session (λ s, if negb (is_tap s) || negb (policy_installed s)
                                then s_set_active None s else s) in
       do! modify_session (s_set_state (if mark_deleted then DELETED
                                        else if is_some reason then FAILED_CLOSED else STOPPED_)) in
       _emit reason) w.

Definition require_ready : SE NetworkConfig := λ w,
  match s_state w.2, s_proxy w.2, active_network w.2 with
  | READY, Some p, Some n =>
      if bool_decide (p ∈ h_running w.1) then (w, Ret n)
      else (do! _fail FAILED_CLOSED proxy_stopped in
            session_error "Public-egress proxy for '" "' stopped; stop it and retry.") w
  | _, _, _ =>
      session_error "Public-egress session '" "' is not ready; stop it and retry." w
  end.

(** The handler of a failed start, after the proxy was stopped or kept. *)
Definition start_failure {A} : SE A :=
  do! modify_session (λ s, if negb (policy_installed s) then s_set_active None s else s) in
  do! (λ w, if bool_decide (s_state w.2 = FAILED_CLOSED) then (w, Ret tt)
            else _fail FAILED_CLOSED proxy_start_failed w) in
  session_error "Public-egress proxy for '" "' could not start; stop it and retry.".

(** [try: proxy.stop()] in that handler: a proxy that does not stop is kept. *)
Definition stop_failed_proxy (p : nat) : SE unit :=
  py_try (do! proxy_stop p in modify_session (s_set_proxy None))
    (λ _, _fail FAILED_CLOSED cleanup_failed).

(** The [try] around the proxy's creation and start, and its handler. *)
Definition start_proxy (listen_host : string) : SE (string * Z) :=
  py_try
    (let! p := new_proxy in
     do! modify_session (s_set_proxy (Some p)) in
     py_try
       (let! endpoint := proxy_start p in
        do! py_lift (_validate_endpoint endpoint listen_host) in
        py_return endpoint)
       (λ e, do! stop_failed_proxy p in py_raise e))
    (λ _, start_failure).

(** The policy of a TAP guest, owned from the attempt on. *)
Definition install_tap_policy (tap : string) : SE unit :=
  do! modify_session (s_set_policy true) in
  py_try (apply_policy tap)
    (λ _,
       do! py_try (_cleanup false (Some policy_install_failed)) (λ _, py_return tt) in
       session_error "Public-egress policy for '"
                     "' could not be installed; stop it and retry.").

(** From [STARTING] on: proxy, metadata, TAP policy, [READY]. *)
Definition prepare_start (listen_host : string) : SE NetworkConfig :=
  do! modify_session (s_set_state STARTING) in
  do! _emit None in
  let! endpoint := start_proxy listen_host in
  let! w := py_get in
  let n := with_proxy_port endpoint.2 (base_network w.2) in
  do! modify_session (s_set_active (Some n)) in
  do! (if is_tap w.2 then install_tap_policy (tap_device n) else py_return tt) in
  do! modify_session (s_set_state READY) in
  do! _emit None in
  py_return n.

(** [prepare] of a session without a proxy. *)
Definition prepare_idle : SE NetworkConfig :=
  let! w := py_get in
  match _listen_host w.2 with
  | Raise _ =>
      do! _fail FAILED_CLOSED invalid_network in
      session_error "Public-egress network for '" "' is incomplete; recreate it."
  | Ret listen_host => prepare_start listen_host
  end.

Definition prepare : SE NetworkConfig := λ w,
  match s_state w.2 with
  | DELETED => session_error "Public-egress session '" "' was deleted; recreate it." w
  | READY => require_ready w
  | STARTING =>
      session_error "Public-egress session '" "' is already starting; retry shortly." w
  | FAILED_CLOSED => (do! _cleanup false None in prepare_idle) w
  | STOPPED_ => prepare_idle w
  end.

(** The guest's launch callback, with what the host enforces when it runs. *)
Definition launch_guest (n : NetworkConfig) : SE unit := λ w,
  let running := match s_proxy w.2 with
                 | Some p => bool_decide (p ∈ h_running w.1) | None => false end in
  let policy := negb (is_tap w.2) || bool_decide (tap_device n ∈ h_policies w.1) in
  (let! ok := next_call in
   if ok then py_return tt else py_raise (RuntimeErrorExn "launch_guest"))
    (on_host (h_add_log (Launch (session_name w.2) running policy)) w).

Definition launch : SE unit :=
  let! metadata := prepare in
  py_try (launch_guest metadata)
    (λ _, do! _cleanup false (Some guest_start_failed) in
          session_error "Guest '" "' could not start with public egress; stop it and retry.").

Definition stop : SE unit := _cleanup false None.
Definition delete : SE unit := _cleanup true None.
Definition restart : SE unit := do! stop in launch.

Definition cleanup_complete (s : Session) : bool := negb (policy_installed s).

Definition finalize_guest_teardown : SE unit := λ w,
  if negb (is_tap w.2) || negb (policy_installed w.2)
  then modify_session (s_set_active None) w
  else match active_network w.2 with
  | None =>
      (do! _emit (Some cleanup_failed) in
       session_error "Public-egress cleanup for '" "' is missing network state; retry guest teardown.") w
  | Some n =>
      if bool_decide (tap_device n ∈ h_taps w.1)
      then session_error "Guest network for '"
             "' still exists; stop the guest before finalizing public-egress cleanup." w
      else
        (do! py_try (remove_policy (tap_device n))
               (λ _, do! _emit (Some cleanup_failed) in
                     session_error "Public-egress cleanup for '" "' was incomplete; retry cleanup.") in
         do! modify_session (s_set_policy false) in
         modify_session (s_set_active None)) w
  end.

(** [PublicEgressSession(session_id, guest_network=..., network=...)] *)
Definition new_session (sid : string) (g : PublicEgressGuestNetwork) (n : NetworkConfig)
    : outcome Session :=
  if String.eqb sid "" then Raise (ValueError "session_id cannot be empty")
  else Ret {| session_name := sid; guest_network := g; base_network := n; s_state := STOPPED_;
              s_proxy := None; active_network := None; policy_installed := false |}.

(** *** [PublicEgressSessionController]

    The controller and its clients share the session objects, so a call
    through a handle updates the dictionary's entry in place. *)
Record controller := {
  c_host : host;
  c_sessions : dict string Session;
  c_closed : bool }.

Definition CE := py controller.

Definition c_set_sessions x (c : controller) : controller :=
  {| c_host := c_host c; c_sessions := x; c_closed := c_closed c |}.
Definition c_set_host x (c : controller) : controller :=
  {| c_host := x; c_sessions := c_sessions c; c_closed := c_closed c |}.
Definition c_set_closed x (c : controller) : controller :=
  {| c_host := c_host c; c_sessions := c_sessions c; c_closed := x |}.

(** A method call on the session object [s] stored under [sid]. *)
Definition on_entry {A} (sid : string) (s : Session) (m : SE A) : CE A := λ c,
  let '((h', s'), r) := m (c_host c, s) in
  ({| c_host := h'; c_sessions := dset sid s' (c_sessions c); c_closed := c_closed c |}, r).

Definition controller_create (sid : string) (g : PublicEgressGuestNetwork) (n : NetworkConfig)
    : CE Session := λ c,
  if c_closed c then
    (c, Raise (PublicEgressSessionError "Public-egress controller is stopped; create a new controller."))
  else if dmem sid (c_sessions c) then
    (c, Raise (PublicEgressSessionError
           ("Public-egress session '" +:+ sid +:+ "' already exists; reuse or delete it.")))
  else match new_session sid g n with
  | Raise e => (c, Raise e)
  | Ret s => (c_set_sessions (dset sid s (c_sessions c)) c, Ret s)
  end.

Definition controller_get (sid : string) : CE Session := λ c,
  match dget sid (c_sessions c) with
  | Some s => (c, Ret s)
  | None => (c, Raise (PublicEgressSessionError
                  ("Public-egress session '" +:+ sid +:+ "' was not found; recreate it.")))
  end.

Definition controller_call {A} (sid : string) (m : SE A) : CE A :=
  let! s := controller_get sid in on_entry sid s m.

Definition controller_stop (sid : string) : CE unit := controller_call sid stop.

(** [if self._sessions.get(id) is session and ...: self._sessions.pop(id)] *)
Definition pop_if (p : Session → bool) (sid : string) : CE unit := py_modify (λ c,
  match dget sid (c_sessions c) with
  | Some s => if p s then c_set_sessions (ddel sid (c_sessions c)) c else c
  | None => c
  end).

Definition controller_delete (sid : string) : CE unit := λ c,
  match dget sid (c_sessions c) with
  | None => (c, Ret tt)
  | Some s => (do! on_entry sid s delete in pop_if cleanup_complete sid) c
  end.

Definition controller_finalize_guest_teardown (sid : string) : CE unit :=
  do! controller_call sid finalize_guest_teardown in
  pop_if (λ s, bool_decide (s_state s = DELETED) && cleanup_complete s) sid.

(** The loop of [shutdown] over the sessions taken at its start. *)
Fixpoint shutdown_loop (sids : list string) : CE unit :=
  match sids with
  | [] => py_return tt
  | sid :: rest =>
      do! py_try (controller_delete sid) (λ _, py_return tt) in
      shutdown_loop rest
  end.

Definition controller_shutdown : CE unit := λ c,
  if c_closed c && bool_decide (c_sessions c = []) then (c, Ret tt)
  else shutdown_loop (dkeys (c_sessions c)) (c_set_closed true c).
