(* ===== verification/EgressSessionProofs.v ===== *)
(** * Invariants of public-egress sessions

    [sinv] ties a session to the host: a running proxy of the session is the
    one it holds, a policy on its TAP interface is never forgotten, and a
    session with usable metadata has its enforcement in place.  Every method
    preserves it, whatever external calls fail. *)
From S2P Require Import Prelude PyDict PyStr Types EgressSession.
From stdpp Require Import options.

Definition own_tap (s : Session) : string := tap_device (base_network s).

(** Every recorded guest launch happened with the proxy running and, for a TAP
    guest, with the policy on its interface. *)
Definition enforced (e : log_entry) : Prop :=
  match e with Launch _ running policy => running = true ∧ policy = true | Diag _ _ _ => True end.
Definition log_ok (h : host) : Prop := Forall enforced (h_log h).

(** [R] holds of the proxies that belong to other sessions of the host. *)
Record sinv (R : nat → Prop) (w : SW) : Prop := {
  i_policy_data : policy_installed w.2 = true → is_tap w.2 = true ∧ active_network w.2 ≠ None;
  i_active : ∀ n, active_network w.2 = Some n → tap_device n = own_tap w.2;
  i_ready : s_state w.2 = READY → ∀ n, active_network w.2 = Some n →
              is_tap w.2 = true → policy_installed w.2 = true ∧ own_tap w.2 ∈ h_policies w.1;
  i_ready_proxy : s_state w.2 = READY → s_proxy w.2 ≠ None;
  i_owned : ∀ p, p ∈ h_running w.1 → R p ∨ s_proxy w.2 = Some p;
  i_fresh : ∀ p, s_proxy w.2 = Some p → p < h_next w.1 ∧ ¬ R p;
  i_others : ∀ p, R p → p < h_next w.1;
  i_policy : is_tap w.2 = true → own_tap w.2 ∈ h_policies w.1 → policy_installed w.2 = true;
  i_idle : s_state w.2 = STOPPED_ ∨ s_state w.2 = DELETED → s_proxy w.2 = None;
  i_settled : s_state w.2 ≠ STARTING;
  i_log : log_ok w.1 }.

(** Same proxies, policies and interfaces; the log and script may differ. *)
Definition same_host (h h' : host) : Prop :=
  h_next h' = h_next h ∧ h_running h' = h_running h ∧ h_policies h' = h_policies h
  ∧ h_taps h' = h_taps h ∧ (log_ok h → log_ok h').

Lemma log_diag h sid st reason : log_ok h → log_ok (h_add_log (Diag sid st reason) h).
Proof. intros H. apply Forall_app_2; [exact H|]. by constructor. Qed.
#[local] Hint Resolve log_diag : core.

(** The sessions a successful cleanup leaves. *)
Definition cleaned (md : bool) (reason : option PublicEgressFailureReason) (s : Session) : Session :=
  let s := s_set_proxy None s in
  let s := if negb (is_tap s) || negb (policy_installed s) then s_set_active None s else s in
  s_set_state (if md then DELETED else if is_some reason then FAILED_CLOSED else STOPPED_) s.

Definition drop_proxy (s : Session) (R : gset nat) : gset nat :=
  match s_proxy s with Some p => R ∖ {[p]} | None => R end.

(** What [_cleanup] does to a session that is not deleted. *)
Lemma cleanup_spec md reason w :
  s_state w.2 ≠ DELETED →
  match _cleanup md reason w with
  | (w', Ret _) => w'.2 = cleaned md reason w.2
                   ∧ h_running w'.1 = drop_proxy w.2 (h_running w.1)
                   ∧ h_next w'.1 = h_next w.1 ∧ h_policies w'.1 = h_policies w.1
                   ∧ h_taps w'.1 = h_taps w.1 ∧ (log_ok w.1 → log_ok w'.1)
  | (w', Raise _) => w'.2 = s_set_state FAILED_CLOSED w.2 ∧ same_host w.1 w'.1
                     ∧ s_proxy w.2 ≠ None
  end.
Proof.
  intros Hs. unfold _cleanup. rewrite bool_decide_eq_false_2 by done.
  unfold cleaned, drop_proxy, py_bind, py_try, proxy_stop, next_call, _fail, _emit, modify_session,
    modify_host, py_modify, on_session, on_host, py_return, py_raise, session_error, py_bind.
  destruct w as [h s]. simpl. destruct (s_proxy s) as [p|] eqn:Hp.
  - simpl. destruct (h_script h) as [|[] rest]; simpl; unfold same_host; split_and!; auto.
  - simpl. split_and!; auto.
Qed.

Lemma cleanup_deleted md reason w : s_state w.2 = DELETED → _cleanup md reason w = (w, Ret tt).
Proof. intros Hs. unfold _cleanup. by rewrite bool_decide_eq_true_2. Qed.

Lemma cleaned_fields md reason s :
  s_proxy (cleaned md reason s) = None ∧ own_tap (cleaned md reason s) = own_tap s
  ∧ is_tap (cleaned md reason s) = is_tap s
  ∧ policy_installed (cleaned md reason s) = policy_installed s
  ∧ s_state (cleaned md reason s)
    = (if md then DELETED else if is_some reason then FAILED_CLOSED else STOPPED_)
  ∧ session_name (cleaned md reason s) = session_name s
  ∧ active_network (cleaned md reason s)
    = (if negb (is_tap s) || negb (policy_installed s) then None else active_network s).
Proof. unfold cleaned. simpl. destruct (_ || _); by split_and!. Qed.

(** A state that satisfies everything but the conditions on [s_state] does so
    after a cleanup. *)
Record sbase (R : nat → Prop) (w : SW) : Prop := {
  b_policy_data : policy_installed w.2 = true → is_tap w.2 = true ∧ active_network w.2 ≠ None;
  b_active : ∀ n, active_network w.2 = Some n → tap_device n = own_tap w.2;
  b_owned : ∀ p, p ∈ h_running w.1 → R p ∨ s_proxy w.2 = Some p;
  b_fresh : ∀ p, s_proxy w.2 = Some p → p < h_next w.1 ∧ ¬ R p;
  b_others : ∀ p, R p → p < h_next w.1;
  b_policy : is_tap w.2 = true → own_tap w.2 ∈ h_policies w.1 → policy_installed w.2 = true;
  b_log : log_ok w.1 }.

Lemma sinv_base R w : sinv R w → sbase R w.
Proof. intros []. by split. Qed.

Lemma base_failed R w : sbase R w → s_state w.2 = FAILED_CLOSED → sinv R w.
Proof. intros [] Hs. split; try done; rewrite Hs; naive_solver. Qed.

(** Setting the state alone. *)
Lemma sbase_state R st w : sbase R w → sbase R (on_session (s_set_state st) w).
Proof. intros []. by split. Qed.
Lemma sbase_same R h h' s : same_host h h' → sbase R (h, s) → sbase R (h', s).
Proof. intros (H1 & H2 & H3 & H4 & H5) []. split; simpl in *; rewrite ?H1, ?H2, ?H3; auto. Qed.

Lemma cleanup_inv R md reason w w' r :
  sbase R w → s_state w.2 ≠ DELETED → _cleanup md reason w = (w', r) → sinv R w'.
Proof.
  intros Hb Hs Hc. pose proof (cleanup_spec md reason w Hs) as Hspec. rewrite Hc in Hspec.
  destruct r as [u|e].
  - destruct Hspec as (Hw & Hrun & Hnext & Hpol & _ & Hlog). destruct w' as [h' s']. cbn [fst snd] in *. subst s'.
    destruct (cleaned_fields md reason w.2) as (F1 & F2 & F3 & F4 & F5 & _ & F6). destruct Hb.
    split; cbn [fst snd]; rewrite ?F1, ?F2, ?F3, ?F4, ?F5, ?F6, ?Hnext, ?Hpol; auto; try done.
    + intros Hpi. destruct (b_policy_data0 Hpi) as [Ht Ha]. rewrite Ht, Hpi. done.
    + intros n Hn. apply b_active0. by destruct (_ || _).
    + destruct md, reason; done.
    + destruct md, reason; done.
    + intros p Hp. left. rewrite Hrun in Hp. unfold drop_proxy in Hp.
      destruct (s_proxy w.2) as [p0|] eqn:E; [|naive_solver].
      apply elem_of_difference in Hp as [Hp Hne]. destruct (b_owned0 p Hp) as [|[= ->]]; set_solver.
    + destruct md, reason; done.
  - destruct Hspec as (Hw & Hsame & _). destruct w as [h s], w' as [h' s']. simpl in *. subst s'.
    apply base_failed; [|done]. apply (sbase_same R h); [done|]. by apply (sbase_state R FAILED_CLOSED (h, s)).
Qed.

Lemma cleanup_keeps R md reason w w' r :
  sinv R w → _cleanup md reason w = (w', r) → sinv R w'.
Proof.
  intros Hi Hc. destruct (decide (s_state w.2 = DELETED)) as [Hd|Hd].
  - rewrite cleanup_deleted in Hc by done. by simplify_eq.
  - eapply cleanup_inv; eauto using sinv_base.
Qed.

(** *** What a method may change *)
Record frame (w w' : SW) : Prop := {
  f_name : session_name w'.2 = session_name w.2;
  f_network : guest_network w'.2 = guest_network w.2;
  f_base : base_network w'.2 = base_network w.2;
  f_taps : h_taps w'.1 = h_taps w.1;
  f_next : h_next w.1 ≤ h_next w'.1;
  f_other_policies : ∀ t, t ≠ own_tap w.2 ∨ is_tap w.2 = false →
    t ∈ h_policies w'.1 ↔ t ∈ h_policies w.1;
  f_removed : ∀ t, t ∈ h_policies w.1 → t ∈ h_policies w'.1 ∨ t ∉ h_taps w.1 }.

#[global] Instance frame_preorder : PreOrder frame.
Proof.
  split.
  - intros w. split; auto.
  - intros w1 w2 w3 H1 H2.
    assert (own_tap w2.2 = own_tap w1.2) as Ho by (unfold own_tap; by rewrite (f_base _ _ H1)).
    assert (is_tap w2.2 = is_tap w1.2) as Hi by (unfold is_tap; by rewrite (f_network _ _ H1)).
    destruct H1, H2. split; try congruence; [lia| |].
    + intros t Ht. rewrite f_other_policies1 by (rewrite Ho, Hi; done). by apply f_other_policies0.
    + intros t Ht. destruct (f_removed0 t Ht) as [Ht'|]; [|by right].
      destruct (f_removed1 t Ht') as [|Hn]; [by left|right]. by rewrite f_taps0 in Hn.
Qed.

(** Changes that leave the policies and the identity of the session alone. *)
Lemma frame_simple w w' :
  session_name w'.2 = session_name w.2 → guest_network w'.2 = guest_network w.2 →
  base_network w'.2 = base_network w.2 → h_taps w'.1 = h_taps w.1 → h_next w.1 ≤ h_next w'.1 →
  h_policies w'.1 = h_policies w.1 → frame w w'.
Proof. intros ????? Hp. split; auto; rewrite Hp; auto. Qed.

Lemma frame_own w w' : frame w w' → own_tap w'.2 = own_tap w.2 ∧ is_tap w'.2 = is_tap w.2.
Proof. intros []. unfold own_tap, is_tap. by rewrite f_base0, f_network0. Qed.

Lemma cleanup_frame md reason w : frame w (_cleanup md reason w).1.
Proof.
  destruct (decide (s_state w.2 = DELETED)) as [Hd|Hd].
  { by rewrite cleanup_deleted by done. }
  pose proof (cleanup_spec md reason w Hd) as H.
  destruct (_cleanup md reason w) as [w' [u|e]]; cbn [fst].
  - destruct H as (Hs & _ & Hn & Hp & Ht & _). apply frame_simple; rewrite ?Hs; try done; [..|lia];
      unfold cleaned; simpl; by destruct (_ || _).
  - destruct H as (Hs & (Hn & _ & Hp & Ht & _) & _). apply frame_simple; rewrite ?Hs; try done. lia.
Qed.

(** The two ways each external call ends; the script moves on. *)
Definition scripted (sc : list bool) (w : SW) : SW := on_host (h_set_script sc) w.

Lemma next_call_cases w : ∃ sc b, next_call w = (scripted sc w, Ret b).
Proof.
  unfold next_call. destruct w as [h s]. simpl. destruct (h_script h) as [|b sc] eqn:E.
  - exists [], true. unfold scripted, on_host, h_set_script. rewrite <- E. by destruct h.
  - by exists sc, b.
Qed.

Ltac call_cases :=
  unfold new_proxy, proxy_start, proxy_stop, remove_policy, py_bind;
  match goal with |- context [next_call ?w] =>
    destruct (next_call_cases w) as (sc & [] & Hcall); rewrite Hcall; exists sc
  end; [left|right]; eauto.

Lemma new_proxy_cases w : ∃ sc,
  new_proxy w = (on_host (h_set_next (S (h_next w.1))) (scripted sc w), Ret (h_next w.1))
  ∨ ∃ e, new_proxy w = (scripted sc w, Raise e).
Proof. call_cases. Qed.
Lemma proxy_start_cases p w : ∃ sc,
  proxy_start p w = (on_host (h_set_running ({[p]} ∪ h_running w.1)) (scripted sc w),
                     Ret (h_endpoint w.1 p))
  ∨ ∃ e, proxy_start p w = (scripted sc w, Raise e).
Proof. call_cases. Qed.
Lemma proxy_stop_cases p w : ∃ sc,
  proxy_stop p w = (on_host (h_set_running (h_running w.1 ∖ {[p]})) (scripted sc w), Ret tt)
  ∨ ∃ e, proxy_stop p w = (scripted sc w, Raise e).
Proof. call_cases. Qed.
Lemma remove_policy_cases t w : ∃ sc,
  remove_policy t w = (on_host (h_set_policies (h_policies w.1 ∖ {[t]})) (scripted sc w), Ret tt)
  ∨ ∃ e, remove_policy t w = (scripted sc w, Raise e).
Proof. call_cases. Qed.
Lemma apply_policy_cases t w : ∃ sc,
  apply_policy t w = (on_host (h_set_policies ({[t]} ∪ h_policies w.1)) (scripted sc w), Ret tt)
  ∨ ∃ e P, (P = h_policies w.1 ∨ P = {[t]} ∪ h_policies w.1)
           ∧ apply_policy t w = (on_host (h_set_policies P) (scripted sc w), Raise e).
Proof.
  unfold apply_policy, py_bind. destruct (next_call_cases w) as (sc & [] & ->).
  { exists sc. by left. }
  destruct (next_call_cases (scripted sc w)) as (sc' & [] & ->); exists sc'; right; simpl.
  - eexists _, _. split; [by right|done].
  - eexists _, (h_policies w.1). split; [by left|]. by destruct w as [[] ?].
Qed.

(** *** Starting the proxy *)
Lemma sbase_drop_active R h s :
  sbase R (h, s) → policy_installed s = false → sbase R (h, s_set_active None s).
Proof. intros [] Hp. split; simpl in *; try done. by rewrite Hp. Qed.

(** The state after a failed start: a proxy that could not be stopped is
    still held. *)
Lemma start_failed_ok R h h' s o :
  sbase R (h, s) → s_proxy s = None →
  h_policies h' = h_policies h → h_next h ≤ h_next h' → log_ok h' →
  (∀ p, p ∈ h_running h' → p ∈ h_running h ∨ o = Some p) →
  (∀ p, o = Some p → p < h_next h' ∧ h_next h ≤ p) →
  sbase R (h', s_set_state FAILED_CLOSED
                (if negb (policy_installed s) then s_set_active None (s_set_proxy o s)
                 else s_set_proxy o s)).
Proof.
  intros [] Hp Hpol Hn Hl Hrun Ho. simpl in *.
  split; simpl; destruct (policy_installed s) eqn:Hpi; simpl; rewrite ?Hpi; try done;
    try (intros p Hin; destruct (Hrun p Hin) as [Hin'|]; [|by right];
         destruct (b_owned0 p Hin'); [by left|congruence]);
    try (intros p Hpo; destruct (Ho p Hpo); split; [done|];
         intros HR; specialize (b_others0 p HR); lia);
    try (intros p HR; specialize (b_others0 p HR); lia).
  all: rewrite ?Hpol; auto.
Qed.

Lemma start_failure_spec {A} w : ∃ h' e,
  @start_failure A w
  = ((h', s_set_state FAILED_CLOSED
            (if negb (policy_installed w.2) then s_set_active None w.2 else w.2)), Raise e)
  ∧ same_host w.1 h'.
Proof.
  destruct w as [h s]. unfold start_failure, py_bind, modify_session, py_modify, on_session. simpl.
  set (s' := if negb _ then _ else _). case_bool_decide as Hs; simpl.
  - assert (s_set_state FAILED_CLOSED s' = s') as -> by (destruct s'; simpl in *; by subst).
    eexists h, _. split; [done|]. unfold same_host. split_and!; auto.
  - eexists _, _. split; [done|]. unfold same_host. simpl. split_and!; auto.
Qed.

(** A failed start of a fresh proxy: [o] is the proxy still held. *)
Lemma start_failure_ok {A} R h s h1 s1 o w' (r : outcome A) :
  sbase R (h, s) → s_proxy s = None → start_failure (h1, s1) = (w', r) →
  s1 = s_set_proxy o s ∨ s1 = s_set_state FAILED_CLOSED (s_set_proxy o s) →
  h_policies h1 = h_policies h → h_taps h1 = h_taps h → h_next h ≤ h_next h1 → log_ok h1 →
  (∀ p, p ∈ h_running h1 → p ∈ h_running h ∨ o = Some p) →
  (∀ p, o = Some p → p < h_next h1 ∧ h_next h ≤ p) →
  ∃ e, r = Raise e ∧ sbase R w' ∧ s_state w'.2 = FAILED_CLOSED ∧ frame (h, s) w'.
Proof.
  intros Hb Hp Hf Hs1 Hpol Htap Hn Hl Hrun Ho.
  destruct (start_failure_spec (A:=A) (h1, s1)) as (h' & e & Hf' & (S1 & S2 & S3 & S4 & S5)).
  rewrite Hf in Hf'. simplify_eq. exists e. split; [done|]. simpl in *.
  assert (s_set_state FAILED_CLOSED (if negb (policy_installed s1) then s_set_active None s1 else s1)
          = s_set_state FAILED_CLOSED
              (if negb (policy_installed s) then s_set_active None (s_set_proxy o s)
               else s_set_proxy o s)) as ->.
  { destruct Hs1 as [-> | ->]; simpl; by destruct (policy_installed s). }
  split; [|split; [done|]].
  - apply (start_failed_ok R h); try done; try congruence; [auto|..].
    + intros p. rewrite S2. auto.
    + intros p Hpo. rewrite S1. auto.
  - apply frame_simple; simpl; try congruence; try lia; by destruct (policy_installed s).
Qed.

Lemma stop_failed_proxy_spec p w : ∃ w',
  stop_failed_proxy p w = (w', Ret tt)
  ∧ h_policies w'.1 = h_policies w.1 ∧ h_taps w'.1 = h_taps w.1 ∧ h_next w'.1 = h_next w.1
  ∧ (log_ok w.1 → log_ok w'.1)
  ∧ (w'.2 = s_set_proxy None w.2 ∧ h_running w'.1 = h_running w.1 ∖ {[p]}
     ∨ w'.2 = s_set_state FAILED_CLOSED w.2 ∧ h_running w'.1 = h_running w.1).
Proof.
  unfold stop_failed_proxy, py_try, py_bind.
  destruct (proxy_stop_cases p w) as (sc & [->|(e & ->)]); destruct w as [h s].
  - eexists. split; [done|]. simpl. split_and!; auto.
  - eexists. split; [done|]. simpl. split_and!; auto.
Qed.

(** After [new_proxy], any failure of the start ends like this. *)
Lemma start_unwind R h s h1 e :
  sbase R (h, s) → s_proxy s = None →
  h_policies h1 = h_policies h → h_taps h1 = h_taps h → h_next h1 = S (h_next h) → log_ok h1 →
  (∀ p, p ∈ h_running h1 → p ∈ h_running h ∨ p = h_next h) →
  ∃ w' wf e',
    (do! stop_failed_proxy (h_next h) in @py_raise SW (string * Z) e)
      (h1, s_set_proxy (Some (h_next h)) s) = (w', Raise e)
    ∧ start_failure (A:=string * Z) w' = (wf, Raise e')
    ∧ sbase R wf ∧ s_state wf.2 = FAILED_CLOSED ∧ frame (h, s) wf.
Proof.
  intros Hb Hp H1 H2 H3 H4 H5. unfold py_bind.
  destruct (stop_failed_proxy_spec (h_next h) (h1, s_set_proxy (Some (h_next h)) s))
    as (w0 & -> & P1 & P2 & P3 & P4 & P5). destruct w0 as [h0 s0]. simpl in *.
  destruct (start_failure (A:=string * Z) (h0, s0)) as [wf r] eqn:Hf.
  assert (∃ o, (s0 = s_set_proxy o s ∨ s0 = s_set_state FAILED_CLOSED (s_set_proxy o s))
               ∧ (∀ p, p ∈ h_running h0 → p ∈ h_running h ∨ o = Some p)
               ∧ (o = None ∨ o = Some (h_next h))) as (o & Q1 & Q2 & Q3).
  { destruct P5 as [[-> Hr]|[-> Hr]].
    - exists None. split_and!; [by left| |by left]. intros p. rewrite Hr. set_solver.
    - exists (Some (h_next h)). split_and!; [by right| |by right]. intros p. rewrite Hr.
      intros Hin. destruct (H5 p Hin); naive_solver. }
  destruct (start_failure_ok (A:=string * Z) R h s h0 s0 o wf r) as (e' & -> & H);
    try done; try congruence; try lia; auto.
  - intros p ->. destruct Q3 as [|[= ->]]; [done|]. lia.
  - by exists (h0, s0), wf, e'.
Qed.

Lemma start_proxy_spec R lh w :
  sbase R w → s_proxy w.2 = None →
  match start_proxy lh w with
  | (w', Ret ep) =>
      w'.2 = s_set_proxy (Some (h_next w.1)) w.2 ∧ h_running w'.1 = {[h_next w.1]} ∪ h_running w.1
      ∧ h_next w'.1 = S (h_next w.1) ∧ h_policies w'.1 = h_policies w.1 ∧ h_taps w'.1 = h_taps w.1
      ∧ h_log w'.1 = h_log w.1 ∧ _validate_endpoint ep lh = Ret tt
  | (w', Raise _) => sbase R w' ∧ s_state w'.2 = FAILED_CLOSED ∧ frame w w'
  end.
Proof.
  destruct w as [h s]. intros Hb Hp. simpl in Hp. unfold start_proxy.
  assert (log_ok h) as Hlog by (by destruct Hb).
  unfold py_try at 1. unfold py_bind at 1.
  destruct (new_proxy_cases (h, s)) as (sc & [->|(e & ->)]).
  2: { destruct (start_failure _) as [w' r] eqn:Hf.
       destruct (start_failure_ok (A:=string * Z) R h s (h_set_script sc h) s None w' r)
         as (e' & -> & H); eauto; [|done]. left. by destruct s; simpl in *; subst. }
  cbn [fst snd]. unfold py_bind at 1, modify_session at 1, py_modify, on_session, on_host, scripted.
  cbn [fst snd]. unfold py_try at 1. unfold py_bind at 1.
  match goal with |- context [proxy_start ?p ?w] =>
    destruct (proxy_start_cases p w) as (sc2 & [->|(e2 & ->)]) end.
  - unfold py_bind at 1, py_lift, py_return. destruct (_validate_endpoint _ _) as [[]|e] eqn:Hv.
    { simpl. split_and!; done. }
    unfold scripted, on_host; cbn [fst snd].
    match goal with |- context [py_bind _ _ (?hh, ?ss)] =>
      destruct (start_unwind R h s hh e) as (w' & wf & e' & -> & -> & H); try done end.
    simpl. set_solver.
  - unfold scripted, on_host; cbn [fst snd].
    match goal with |- context [py_bind _ _ (?hh, ?ss)] =>
      destruct (start_unwind R h s hh e2) as (w' & wf & e' & -> & -> & H); try done end.
    simpl. auto.
Qed.

(** *** [prepare] *)

(** The session is ready with metadata [n] and everything it needs is up. *)
Definition armed (n : NetworkConfig) (w : SW) : Prop :=
  s_state w.2 = READY ∧ active_network w.2 = Some n
  ∧ (∃ p, s_proxy w.2 = Some p ∧ p ∈ h_running w.1)
  ∧ (is_tap w.2 = true → tap_device n ∈ h_policies w.1).

Lemma sbase_host R h h' s :
  h_running h' = h_running h → h_next h' = h_next h → h_policies h' = h_policies h → log_ok h' →
  sbase R (h, s) → sbase R (h', s).
Proof. intros H1 H2 H3 H4 []. split; simpl in *; rewrite ?H1, ?H2, ?H3; auto. Qed.

(** A session whose proxy just started. *)
Lemma sbase_started R h h' s n :
  sbase R (h, s) → h_running h' = {[h_next h]} ∪ h_running h → h_next h' = S (h_next h) →
  h_policies h' = h_policies h → log_ok h' → s_proxy s = None → tap_device n = own_tap s →
  sbase R (h', s_set_active (Some n) (s_set_proxy (Some (h_next h)) s)).
Proof.
  intros [] H1 H2 H3 H4 H5 H6. split; simpl in *; rewrite ?H2, ?H3; auto.
  - intros Hp. destruct (b_policy_data0 Hp). done.
  - by intros n' [= <-].
  - intros p. rewrite H1, elem_of_union, elem_of_singleton. intros [->|Hp]; [by right|].
    destruct (b_owned0 p Hp); [by left|congruence].
  - intros p [= <-]. split; [lia|]. intros HR. specialize (b_others0 _ HR). lia.
  - intros p HR. specialize (b_others0 _ HR). lia.
Qed.

(** Claiming the policy before it is applied, whatever was applied. *)
Lemma sbase_policy R h h' s P n :
  sbase R (h, s) → is_tap s = true → active_network s = Some n →
  h_running h' = h_running h → h_next h' = h_next h → h_policies h' = P → log_ok h' →
  sbase R (h', s_set_policy true s).
Proof.
  intros [] H1 H2 H3 H4 H5 H6. split; simpl in *; rewrite ?H3, ?H4; auto. by rewrite H2.
Qed.

Lemma base_ready R w n :
  sbase R w → s_state w.2 = READY → s_proxy w.2 ≠ None → active_network w.2 = Some n →
  (is_tap w.2 = true → policy_installed w.2 = true ∧ own_tap w.2 ∈ h_policies w.1) → sinv R w.
Proof. intros [] H1 H2 H3 H4. split; auto; rewrite H1; try done; by intros []. Qed.

Lemma frame_policies w w' :
  session_name w'.2 = session_name w.2 → guest_network w'.2 = guest_network w.2 →
  base_network w'.2 = base_network w.2 → h_taps w'.1 = h_taps w.1 → h_next w.1 ≤ h_next w'.1 →
  is_tap w.2 = true →
  (h_policies w'.1 = h_policies w.1 ∨ h_policies w'.1 = {[own_tap w.2]} ∪ h_policies w.1) →
  frame w w'.
Proof.
  intros ????? Ht HP. split; auto.
  - intros t [Hne|Hf]; [|congruence]. destruct HP as [-> | ->]; [done|].
    rewrite elem_of_union, elem_of_singleton. naive_solver.
  - intros t Hin. left. destruct HP as [-> | ->]; set_solver.
Qed.

Lemma install_tap_policy_spec R h s n :
  sbase R (h, s) → s_state s ≠ DELETED → is_tap s = true → active_network s = Some n →
  match install_tap_policy (tap_device n) (h, s) with
  | (w', Ret _) => w'.2 = s_set_policy true s ∧ h_running w'.1 = h_running h
      ∧ own_tap s ∈ h_policies w'.1 ∧ sbase R w' ∧ frame (h, s) w'
  | (w', Raise _) => sinv R w' ∧ frame (h, s) w'
  end.
Proof.
  intros Hb Hd Ht Ha. assert (tap_device n = own_tap s) as -> by (by apply (b_active _ _ Hb)).
  unfold install_tap_policy, py_bind at 1, modify_session, py_modify, on_session. cbn [fst snd].
  unfold py_try at 1.
  destruct (apply_policy_cases (own_tap s) (h, s_set_policy true s))
    as (sc & [->|(e & P & HP & ->)]); unfold scripted, on_host; cbn [fst snd].
  - split_and!; try done.
    + simpl. set_solver.
    + by eapply (sbase_policy R h); eauto; apply Hb.
    + apply frame_policies; simpl; auto.
  - unfold py_bind, py_try. set (w1 := (_, s_set_policy true s)).
    assert (sbase R w1) as Hb1 by (by eapply (sbase_policy R h); eauto; apply Hb).
    assert (frame (h, s) w1) as Hf1 by (apply frame_policies; simpl; auto).
    pose proof (cleanup_frame false (Some policy_install_failed) w1) as Hcf.
    destruct (_cleanup false (Some policy_install_failed) w1) as [w2 r] eqn:Hc. cbn [fst] in Hcf.
    assert (sinv R w2) as Hi by (by eapply cleanup_inv).
    assert (frame (h, s) w2) by (by etrans). by destruct r.
Qed.

(** The last steps: [READY], the diagnostic, the metadata. *)
Lemma ready_spec R w n p w' r :
  (do! modify_session (s_set_state READY) in do! _emit None in py_return n) w = (w', r) →
  sbase R w → active_network w.2 = Some n → s_proxy w.2 = Some p → p ∈ h_running w.1 →
  (is_tap w.2 = true → policy_installed w.2 = true ∧ own_tap w.2 ∈ h_policies w.1) →
  sinv R w' ∧ frame w w' ∧ (∀ n', r = Ret n' → armed n' w').
Proof.
  destruct w as [h s]. intros [= <- <-] Hb Ha Hp Hr Ht. cbn [fst snd] in *. split_and!.
  - eapply base_ready; try done; [|simpl; congruence].
    apply (sbase_host R h); try done; [by apply log_diag; destruct Hb|].
    by apply (sbase_state R READY (h, s)).
  - by apply frame_simple.
  - intros n' [= <-]. unfold armed. simpl. split_and!; eauto.
    intros Hi. rewrite (b_active _ _ Hb n Ha). by apply Ht.
Qed.

Lemma prepare_start_spec R lh w :
  sbase R w → s_proxy w.2 = None →
  let '(w', r) := prepare_start lh w in
  sinv R w' ∧ frame w w' ∧ (∀ n, r = Ret n → armed n w').
Proof.
  destruct w as [h s]. intros Hb Hp. simpl in Hp. unfold prepare_start, py_bind.
  unfold modify_session at 1, _emit at 1, py_modify, on_session, on_host. cbn [fst snd].
  set (h0 := h_add_log _ h). set (s0 := s_set_state STARTING s).
  assert (sbase R (h0, s0)) as Hb0.
  { apply (sbase_host R h); try done; [by apply log_diag; destruct Hb|].
    by apply (sbase_state R STARTING (h, s)). }
  assert (frame (h, s) (h0, s0)) as Hf0 by (by apply frame_simple).
  pose proof (start_proxy_spec R lh (h0, s0) Hb0 Hp) as Hst.
  destruct (start_proxy lh (h0, s0)) as [[h1 s1] [ep|e]].
  2: { destruct Hst as (H1 & H2 & H3). split_and!; [by apply base_failed|by etrans|done]. }
  destruct Hst as (H1 & H2 & H3 & H4 & H5 & H6 & H7). simpl in H1, H2, H3, H4, H5, H6.
  unfold py_get. cbn [fst snd].
  set (n := with_proxy_port ep.2 (base_network s1)).
  assert (sbase R (h1, s_set_active (Some n) s1)) as Hb1.
  { rewrite H1. apply (sbase_started R h0 h1 s0); try done.
    - unfold log_ok. rewrite H6. by destruct Hb0.
    - unfold n. by rewrite H1. }
  assert (frame (h, s) (h1, s_set_active (Some n) s1)) as Hf1
    by (subst s1; apply frame_simple; simpl; congruence || lia).
  unfold modify_session at 1, py_modify, on_session. cbn [fst snd].
  destruct (is_tap s1) eqn:Ht.
  - pose proof (install_tap_policy_spec R h1 (s_set_active (Some n) s1) n Hb1) as Hin.
    destruct (install_tap_policy _ _) as [[h2 s2] [[]|e]]; simpl in Hin.
    + destruct Hin as (I1 & I2 & I3 & I4 & I5); try done; [by rewrite H1|].
      match goal with |- match ?m with _ => _ end => destruct m as [w' r] eqn:Hm end.
      destruct (ready_spec R (h2, s2) n (h_next h) w' r Hm) as (R1 & R2 & R3); [done|by subst s2|by subst s2 s1| |by subst s2|].
      { simpl. rewrite I2, H2. set_solver. }
      split_and!; [done| |done]. etrans; [exact Hf1|]. by etrans.
    + destruct Hin as [I1 I2]; try done; [by rewrite H1|]. split_and!; [done|by etrans|done].
  - match goal with |- match ?m with _ => _ end => destruct m as [w' r] eqn:Hm end.
    destruct (ready_spec R (h1, s_set_active (Some n) s1) n (h_next h) w' r Hm) as (R1 & R2 & R3); [done|done|by subst s1| | |].
    { simpl. rewrite H2. set_solver. }
    { simpl. unfold is_tap in *. simpl in *. congruence. }
    split_and!; [done|by etrans|done].
Qed.

(** *** Every method preserves the invariant *)
Definition sound {A} (m : SE A) : Prop := ∀ R w w' r,
  sinv R w → m w = (w', r) → sinv R w' ∧ frame w w'.

Lemma sinv_failed R w reason :
  sinv R w → sinv R (_fail FAILED_CLOSED reason w).1 ∧ frame w (_fail FAILED_CLOSED reason w).1.
Proof.
  intros Hi. destruct w as [h s]. split; [|by apply frame_simple].
  apply base_failed; [|done]. apply (sbase_host R h); try done; [by apply log_diag; destruct Hi|].
  by apply (sbase_state R FAILED_CLOSED (h, s)), sinv_base.
Qed.

Lemma fail_then_raise {A} reason e :
  ∀ R w w' (r : outcome A), sinv R w →
  (do! _fail FAILED_CLOSED reason in py_raise e) w = (w', r) →
  sinv R w' ∧ frame w w' ∧ r = Raise e.
Proof.
  intros R w w' r Hi. intros [= <- <-].
  destruct (sinv_failed R w reason Hi). done.
Qed.

Lemma require_ready_ok R w w' r :
  sinv R w → require_ready w = (w', r) →
  sinv R w' ∧ frame w w' ∧ (∀ n, r = Ret n → w' = w ∧ armed n w').
Proof.
  intros Hi. unfold require_ready.
  destruct (s_state w.2) eqn:Hs; try (intros [= <- <-]; done).
  destruct (s_proxy w.2) as [p|] eqn:Hp; [|intros [= <- <-]; done].
  destruct (active_network w.2) as [n|] eqn:Ha; [|intros [= <- <-]; done].
  case_bool_decide as Hr.
  - intros [= <- <-]. split_and!; [done|done|]. intros n' [= <-]. split; [done|].
    unfold armed. split_and!; eauto. intros Ht. rewrite (i_active _ _ Hi n Ha).
    by apply (i_ready _ _ Hi Hs n).
  - intros H. destruct (fail_then_raise _ _ R w w' r Hi H) as (? & ? & ->). done.
Qed.

Lemma cleanup_sound md reason : sound (_cleanup md reason).
Proof.
  intros R w w' r Hi Hc. split; [by eapply cleanup_keeps|].
  pose proof (cleanup_frame md reason w) as H. by rewrite Hc in H.
Qed.

(** A successful cleanup of a live session leaves no proxy. *)
Lemma cleanup_idle md reason w w' u :
  s_state w.2 ≠ DELETED → _cleanup md reason w = (w', Ret u) → s_proxy w'.2 = None.
Proof.
  intros Hd Hc. pose proof (cleanup_spec md reason w Hd) as H. rewrite Hc in H.
  destruct H as (-> & _). by apply cleaned_fields.
Qed.

Lemma prepare_idle_ok R w w' r :
  sinv R w → s_proxy w.2 = None → prepare_idle w = (w', r) →
  sinv R w' ∧ frame w w' ∧ (∀ n, r = Ret n → armed n w').
Proof.
  intros Hi Hp. unfold prepare_idle, py_bind at 1, py_get.
  destruct (_listen_host w.2) as [lh|e]; intros H.
  - pose proof (prepare_start_spec R lh w (sinv_base R w Hi) Hp) as Hs. by rewrite H in Hs.
  - destruct (fail_then_raise _ _ R w w' r Hi H) as (? & ? & ->). done.
Qed.

Lemma prepare_ok R w w' r :
  sinv R w → prepare w = (w', r) →
  sinv R w' ∧ frame w w' ∧ (∀ n, r = Ret n → armed n w').
Proof.
  intros Hi. unfold prepare. destruct (s_state w.2) eqn:Hs; try (by intros [= <- <-]).
  - apply prepare_idle_ok; [done|]. apply (i_idle _ _ Hi). by left.
  - intros H. destruct (require_ready_ok R w w' r Hi H) as (? & ? & H2).
    split_and!; [done..|]. intros n Hn. by apply H2.
  - unfold py_bind. destruct (_cleanup false None w) as [w1 [u|e]] eqn:Hc;
      destruct (cleanup_sound _ _ R w w1 _ Hi Hc) as [Hi1 Hf1].
    + intros H. destruct (prepare_idle_ok R w1 w' r Hi1) as (? & ? & ?); [|done|].
      * eapply (cleanup_idle false None w); [congruence|done].
      * split_and!; [done|by etrans|done].
    + by intros [= <- <-].
Qed.

Lemma sinv_add_log R h s e : enforced e → sinv R (h, s) → sinv R (h_add_log e h, s).
Proof. intros He []. split; try done. apply Forall_app_2; [done|]. by constructor. Qed.

Lemma sinv_script R w sc : sinv R w → sinv R (scripted sc w).
Proof. by intros []; split. Qed.
Lemma frame_script w sc : frame w (scripted sc w).
Proof. by apply frame_simple. Qed.

(** A guest launched from an armed session is recorded as enforced. *)
Lemma launch_guest_ok R n w w' r :
  sinv R w → armed n w → launch_guest n w = (w', r) → sinv R w' ∧ frame w w'.
Proof.
  intros Hi (Hs & Ha & (p & Hp & Hr) & Ht). unfold launch_guest. rewrite Hp.
  rewrite bool_decide_eq_true_2 by done.
  set (e := Launch _ _ _). assert (enforced e) as He.
  { split; [done|]. destruct (is_tap w.2) eqn:E; [|done]. simpl. by apply bool_decide_eq_true_2, Ht. }
  unfold py_bind. destruct (next_call_cases (on_host (h_add_log e) w)) as (sc & b & ->).
  assert (sinv R (scripted sc (on_host (h_add_log e) w)) ∧ frame w (scripted sc (on_host (h_add_log e) w))).
  { destruct w as [h s]. split; [by apply sinv_script, sinv_add_log|by apply frame_simple]. }
  destruct b; by intros [= <- <-].
Qed.

Lemma launch_sound : sound launch.
Proof.
  intros R w w' r Hi. unfold launch, py_bind at 1.
  destruct (prepare w) as [w1 [n|e]] eqn:Hp; destruct (prepare_ok R w w1 _ Hi Hp) as (Hi1 & Hf1 & Ha).
  2: { by intros [= <- <-]. }
  unfold py_try. destruct (launch_guest n w1) as [w2 [u|e]] eqn:Hl;
    destruct (launch_guest_ok R n w1 w2 _ Hi1 (Ha n eq_refl) Hl) as [Hi2 Hf2].
  - intros [= <- <-]. split; [done|by etrans].
  - unfold py_bind. destruct (_cleanup false (Some guest_start_failed) w2) as [w3 r3] eqn:Hc.
    destruct (cleanup_sound _ _ R w2 w3 r3 Hi2 Hc) as [Hi3 Hf3].
    assert (frame w w3) by (etrans; [done|]; by etrans). by destruct r3; intros [= <- <-].
Qed.

Lemma restart_sound : sound restart.
Proof.
  intros R w w' r Hi. unfold restart, py_bind.
  destruct (stop w) as [w1 [u|e]] eqn:Hc; destruct (cleanup_sound _ _ R w w1 _ Hi Hc) as [Hi1 Hf1].
  - intros H. destruct (launch_sound R w1 w' r Hi1 H). split; [done|by etrans].
  - by intros [= <- <-].
Qed.

Lemma finalize_sound : sound finalize_guest_teardown.
Proof.
  intros R w w' r Hi. unfold finalize_guest_teardown.
  destruct (negb (is_tap w.2) || negb (policy_installed w.2)) eqn:Hg.
  { intros [= <- <-]. destruct w as [h s]. split; [|by apply frame_simple]. destruct Hi.
    split; simpl in *; try done. intros Hpi. destruct (i_policy_data0 Hpi) as [Ht _].
    rewrite Hpi in Hg. unfold is_tap in *. simpl in *. by rewrite Ht in Hg. }
  bool_hyps. destruct (active_network w.2) as [n|] eqn:Ha.
  2: { intros [= <- <-]. destruct w as [h s]. split; [|by apply frame_simple]. by apply sinv_add_log. }
  case_bool_decide as Htap; [by intros [= <- <-]|].
  assert (tap_device n = own_tap w.2) as Hown by (by apply (i_active _ _ Hi)). rewrite Hown in *.
  unfold py_bind, py_try.
  destruct (remove_policy_cases (own_tap w.2) w) as (sc & [->|(e & ->)]).
  - intros [= <- <-]. destruct w as [h s]. simpl in *. split.
    + destruct Hi. split; simpl in *; try done. set_solver.
    + split; simpl; try done.
      * intros t [Hne|]; [set_solver|simpl in *; congruence].
      * intros t Hin. destruct (decide (t = own_tap s)) as [->|]; [by right|left; set_solver].
  - intros [= <- <-]. destruct w as [h s]. split; [|by apply frame_simple].
    by apply sinv_add_log, (sinv_script R (h, s)).
Qed.
