(* ===== verification/EgressRelay.v ===== *)
(** * host/_public_egress_relay.py: one guest connection to its proxy

    QEMU starts [relay] for each connection of a guest: it copies bytes between
    its standard input and output (the guest) and the proxy's socket.  The loop
    is a state machine driven by what [select], [read], [recv], [send] and
    [write] answer in each round; the answers are the environment's, constrained
    as documented: a descriptor is ready only if asked for, a read returns at
    most what was asked and nothing only at the end of input, a write takes a
    non-empty part.  Any of the calls may raise [OSError] instead, which ends
    the relay with what the calls before it did. *)
From S2P Require Import Prelude.
From stdpp Require Import options.
From Stdlib Require Import Strings.Byte.

Definition _BUFFER_LIMIT : nat := Nat.mul 64 1024.
#[global] Instance byte_eq_decision : EqDecision byte.
Proof. intros x y. destruct (Byte.byte_eq_dec x y); [by left|by right]. Defined.

(** The variables of the loop. *)
Record rstate := {
  to_proxy : list byte;
  to_guest : list byte;
  input_open : bool;
  upstream_open : bool;
  write_open : bool }.
Definition relay_init : rstate :=
  {| to_proxy := []; to_guest := []; input_open := true; upstream_open := true; write_open := true |}.

(** What the calls of one round answer: the chunk read from each readable
    side, how much each writable side took; [a_oserror] is the number of blocks
    of the round that were done when a call (of [select], or of the next block)
    raised [OSError], if one did. *)
Record answer := {
  a_stdin : option (list byte);
  a_recv : option (list byte);
  a_send : option nat;
  a_write : option nat;
  a_oserror : option nat }.

(** What the round did to the outside. *)
Inductive revent :=
| ReadGuest (chunk : list byte)
| ReadProxy (chunk : list byte)
| SentProxy (chunk : list byte)
| WroteGuest (chunk : list byte)
| ShutWrite.

(** The descriptors the round asks [select] about. *)
Definition asks_stdin (s : rstate) : bool := input_open s && (length (to_proxy s) <? _BUFFER_LIMIT).
Definition asks_recv (s : rstate) : bool := upstream_open s && (length (to_guest s) <? _BUFFER_LIMIT).
Definition asks_send (s : rstate) : bool := bool_decide (to_proxy s ≠ []).
Definition asks_write (s : rstate) : bool := bool_decide (to_guest s ≠ []).

(** The four blocks of the body, in order. *)
Definition do_stdin (a : answer) (s : rstate) : rstate * list revent :=
  match a_stdin a with
  | Some chunk =>
      ({| to_proxy := to_proxy s ++ chunk; to_guest := to_guest s; input_open := bool_decide (chunk ≠ []);
          upstream_open := upstream_open s; write_open := write_open s |}, [ReadGuest chunk])
  | None => (s, [])
  end.
Definition do_recv (a : answer) (s : rstate) : rstate * list revent :=
  match a_recv a with
  | Some chunk =>
      ({| to_proxy := to_proxy s; to_guest := to_guest s ++ chunk; input_open := input_open s;
          upstream_open := bool_decide (chunk ≠ []); write_open := write_open s |}, [ReadProxy chunk])
  | None => (s, [])
  end.
Definition do_send (a : answer) (s : rstate) : rstate * list revent :=
  match a_send a with
  | Some n =>
      ({| to_proxy := drop n (to_proxy s); to_guest := to_guest s; input_open := input_open s;
          upstream_open := upstream_open s; write_open := write_open s |}, [SentProxy (take n (to_proxy s))])
  | None => (s, [])
  end.
Definition do_write (a : answer) (s : rstate) : rstate * list revent :=
  match a_write a with
  | Some n =>
      ({| to_proxy := to_proxy s; to_guest := drop n (to_guest s); input_open := input_open s;
          upstream_open := upstream_open s; write_open := write_open s |}, [WroteGuest (take n (to_guest s))])
  | None => (s, [])
  end.
Definition do_shutdown (s : rstate) : rstate * list revent :=
  if negb (input_open s) && bool_decide (to_proxy s = []) && write_open s then
    ({| to_proxy := to_proxy s; to_guest := to_guest s; input_open := input_open s;
        upstream_open := upstream_open s; write_open := false |}, [ShutWrite])
  else (s, []).

Definition then_do (p : rstate * list revent) (f : rstate → rstate * list revent) : rstate * list revent :=
  let '(s', ev) := f p.1 in (s', p.2 ++ ev).
Definition blocks (a : answer) : list (rstate → rstate * list revent) :=
  [do_stdin a; do_recv a; do_send a; do_write a; do_shutdown].
(** The blocks of a round, up to the call that raised. *)
Definition relay_body (a : answer) (s : rstate) : rstate * list revent :=
  fold_left then_do (take (default 5 (a_oserror a)) (blocks a)) (s, []).

(** [not readable and not writable] *)
Definition idle (a : answer) : bool :=
  negb (is_some (a_stdin a) || is_some (a_recv a) || is_some (a_send a) || is_some (a_write a)
        || is_some (a_oserror a)).
Definition looping (s : rstate) : bool := upstream_open s || bool_decide (to_guest s ≠ []).

(** How the loop stands after some rounds: its condition failed, it timed out,
    a call raised, or it waits in [select]. *)
Inductive rend := Finished | TimedOut | Failed | Waiting.
Fixpoint relay_loop (answers : list answer) (s : rstate) : rstate * list revent * rend :=
  if negb (looping s) then (s, [], Finished)
  else match answers with
       | [] => (s, [], Waiting)
       | a :: answers' =>
           if idle a then (s, [], TimedOut)
           else let '(s1, ev) := relay_body a s in
                if is_some (a_oserror a) then (s1, ev, Failed)
                else let '(s', evs, e) := relay_loop answers' s1 in (s', ev ++ evs, e)
       end.
Definition relay (answers : list answer) : rstate * list revent * rend := relay_loop answers relay_init.

(** ** What the calls may answer *)
Record answer_ok (s : rstate) (a : answer) : Prop := {
  ok_stdin chunk : a_stdin a = Some chunk → asks_stdin s = true ∧ length chunk ≤ _BUFFER_LIMIT - length (to_proxy s);
  ok_recv chunk : a_recv a = Some chunk → asks_recv s = true ∧ length chunk ≤ _BUFFER_LIMIT - length (to_guest s);
  ok_send n : a_send a = Some n → asks_send s = true ∧ 0 < n ≤ length (to_proxy (do_stdin a s).1);
  ok_write n : a_write a = Some n → asks_write s = true ∧ 0 < n ≤ length (to_guest (do_recv a s).1) }.
(** The answers of a whole run. *)
Fixpoint answers_ok (answers : list answer) (s : rstate) : Prop :=
  match answers with
  | [] => True
  | a :: answers' => looping s = true → answer_ok s a
      ∧ (idle a = false → a_oserror a = None → answers_ok answers' (relay_body a s).1)
  end.

(** ** What crossed each side *)
Definition from_guest (e : revent) : list byte := match e with ReadGuest c => c | _ => [] end.
Definition from_proxy (e : revent) : list byte := match e with ReadProxy c => c | _ => [] end.
Definition proxy_got (e : revent) : list byte := match e with SentProxy c => c | _ => [] end.
Definition guest_got (e : revent) : list byte := match e with WroteGuest c => c | _ => [] end.

(** ** The invariant of the loop *)
Implicit Types (evs : list revent) (s : rstate) (a : answer).
Definition b2n (b : bool) : nat := if b then 1 else 0.
(** What may still happen once the sending side is shut. *)
Definition downstream (e : revent) : bool := match e with ReadProxy _ | WroteGuest _ => true | _ => false end.
Definition shut_ok evs : Prop :=
  ∀ pre post, evs = pre ++ ShutWrite :: post →
    forallb downstream post = true ∧ pre ≫= proxy_got = pre ≫= from_guest ∧ ReadGuest [] ∈ pre.

Record relay_inv evs s : Prop := {
  ri_up : evs ≫= from_guest = (evs ≫= proxy_got) ++ to_proxy s;
  ri_down : evs ≫= from_proxy = (evs ≫= guest_got) ++ to_guest s;
  ri_up_bound : length (to_proxy s) ≤ _BUFFER_LIMIT;
  ri_down_bound : length (to_guest s) ≤ _BUFFER_LIMIT;
  ri_input : input_open s = false → ReadGuest [] ∈ evs;
  ri_upstream : upstream_open s = false → ReadProxy [] ∈ evs;
  ri_shut : write_open s = false → input_open s = false ∧ to_proxy s = [];
  ri_not_shut : write_open s = true → ShutWrite ∉ evs;
  ri_trace : shut_ok evs;
  ri_count : length evs ≤ length (evs ≫= from_guest) + length (evs ≫= proxy_got)
      + length (evs ≫= from_proxy) + length (evs ≫= guest_got)
      + b2n (negb (input_open s)) + b2n (negb (upstream_open s)) + b2n (negb (write_open s)) }.

Lemma relay_inv_init : relay_inv [] relay_init.
Proof. split; simpl; try done; try lia; [set_solver|]. intros [] post; discriminate. Qed.

Lemma bind_snoc {A} (f : revent → list A) evs e : (evs ++ [e]) ≫= f = (evs ≫= f) ++ f e.
Proof. rewrite bind_app. simpl. by rewrite app_nil_r. Qed.
Lemma shut_ok_snoc evs e :
  shut_ok evs → e ≠ ShutWrite → (ShutWrite ∈ evs → downstream e = true) → shut_ok (evs ++ [e]).
Proof.
  intros Hs He Hd pre post. destruct (decide (post = [])) as [->|Hp].
  { intros [_ [= ->]]%app_inj_tail. done. }
  destruct post as [|x post _] using rev_ind; [done|]. rewrite app_comm_cons, app_assoc. intros [-> <-]%app_inj_tail.
  destruct (Hs pre post eq_refl) as (H1 & H2 & H3). split_and!; [|done..]. rewrite forallb_app, H1. simpl.
  rewrite Hd; [done|]. set_solver.
Qed.
Lemma shut_ok_shut evs :
  ShutWrite ∉ evs → evs ≫= proxy_got = evs ≫= from_guest → ReadGuest [] ∈ evs → shut_ok (evs ++ [ShutWrite]).
Proof.
  intros Hn Hf He pre post. destruct post as [|x post _] using rev_ind.
  { intros [-> _]%app_inj_tail. done. }
  rewrite app_comm_cons, app_assoc. intros [-> _]%app_inj_tail. set_solver.
Qed.

(** ** Every block keeps it *)
Lemma inv_stdin evs s a : relay_inv evs s → answer_ok s a → relay_inv (evs ++ (do_stdin a s).2) (do_stdin a s).1.
Proof.
  intros [] Ha. unfold do_stdin. destruct (a_stdin a) as [chunk|] eqn:Hc; [|by rewrite app_nil_r; split].
  destruct (ok_stdin _ _ Ha _ Hc) as [[Hin Hl]%andb_true_iff Hlen]. apply Nat.ltb_lt in Hl.
  assert (write_open s = true) as Hw by (destruct (write_open s) eqn:E; [done|]; destruct ri_shut0; congruence).
  split; simpl; rewrite ?bind_snoc, ?app_nil_r, ?length_app; simpl; try done.
  - by rewrite ri_up0, app_assoc.
  - lia.
  - case_bool_decide as Hb; [done|]. subst chunk. set_solver.
  - set_solver.
  - congruence.
  - intros _ Hin'. apply elem_of_app in Hin' as [?|?]; [by apply ri_not_shut0|set_solver].
  - apply shut_ok_snoc; [done..|]. intros ?. by destruct ri_not_shut0.
  - rewrite Hin in ri_count0. case_bool_decide as Hb; simpl in *; [destruct chunk; simpl; [done|lia]|lia].
Qed.
Lemma inv_recv evs s a : relay_inv evs s → (∀ chunk, a_recv a = Some chunk →
    asks_recv s = true ∧ length chunk ≤ _BUFFER_LIMIT - length (to_guest s)) →
  relay_inv (evs ++ (do_recv a s).2) (do_recv a s).1.
Proof.
  intros [] Ha. unfold do_recv. destruct (a_recv a) as [chunk|] eqn:Hc; [|by rewrite app_nil_r; split].
  destruct (Ha _ eq_refl) as [[Hin Hl]%andb_true_iff Hlen]. apply Nat.ltb_lt in Hl.
  split; simpl; rewrite ?bind_snoc, ?app_nil_r, ?length_app; simpl; try done.
  - by rewrite ri_down0, app_assoc.
  - lia.
  - set_solver.
  - case_bool_decide as Hb; [done|]. subst chunk. set_solver.
  - intros Hw Hin'. apply elem_of_app in Hin' as [?|?]; [by apply ri_not_shut0|set_solver].
  - by apply shut_ok_snoc.
  - rewrite Hin in ri_count0. case_bool_decide as Hb; simpl in *; [destruct chunk; simpl; [done|lia]|lia].
Qed.
Lemma inv_send evs s a : relay_inv evs s → (∀ n, a_send a = Some n → to_proxy s ≠ [] ∧ 0 < n ≤ length (to_proxy s)) →
  relay_inv (evs ++ (do_send a s).2) (do_send a s).1.
Proof.
  intros [] Ha. unfold do_send. destruct (a_send a) as [n|] eqn:Hc; [|by rewrite app_nil_r; split].
  destruct (Ha _ eq_refl) as [Hne Hn].
  assert (write_open s = true) as Hw by (destruct (write_open s) eqn:E; [done|]; destruct ri_shut0; congruence).
  split; simpl; rewrite ?bind_snoc, ?app_nil_r, ?length_app, ?length_drop, ?length_take; simpl; try done.
  - by rewrite ri_up0, <- app_assoc, take_drop.
  - lia.
  - set_solver.
  - set_solver.
  - congruence.
  - intros _ Hin'. apply elem_of_app in Hin' as [?|?]; [by apply ri_not_shut0|set_solver].
  - apply shut_ok_snoc; [done..|]. intros ?. by destruct ri_not_shut0.
  - rewrite length_take. lia.
Qed.
Lemma inv_write evs s a : relay_inv evs s → (∀ n, a_write a = Some n → 0 < n ≤ length (to_guest s)) →
  relay_inv (evs ++ (do_write a s).2) (do_write a s).1.
Proof.
  intros [] Ha. unfold do_write. destruct (a_write a) as [n|] eqn:Hc; [|by rewrite app_nil_r; split].
  specialize (Ha _ eq_refl).
  split; simpl; rewrite ?bind_snoc, ?app_nil_r, ?length_app, ?length_drop, ?length_take; simpl; try done.
  - by rewrite ri_down0, <- app_assoc, take_drop.
  - lia.
  - set_solver.
  - set_solver.
  - intros Hw Hin'. apply elem_of_app in Hin' as [?|?]; [by apply ri_not_shut0|set_solver].
  - by apply shut_ok_snoc.
  - rewrite length_take. lia.
Qed.
Lemma inv_shutdown evs s : relay_inv evs s → relay_inv (evs ++ (do_shutdown s).2) (do_shutdown s).1.
Proof.
  intros Hi. pose proof Hi as []. unfold do_shutdown.
  destruct (negb (input_open s) && bool_decide (to_proxy s = []) && write_open s) eqn:Hc; [|by rewrite app_nil_r].
  apply andb_true_iff in Hc as [[Hin Hp]%andb_true_iff Hw]. apply negb_true_iff in Hin. apply bool_decide_eq_true in Hp.
  split; simpl; rewrite ?bind_snoc, ?app_nil_r, ?length_app; simpl; try done.
  - set_solver.
  - set_solver.
  - apply shut_ok_shut; [auto|by rewrite ri_up0, Hp, app_nil_r|auto].
  - rewrite Hw in ri_count0. simpl in *. lia.
Qed.

Lemma then_do_eq (q : rstate * list revent) f : then_do q f = ((f q.1).1, q.2 ++ (f q.1).2).
Proof. unfold then_do. by destruct (f q.1). Qed.
Lemma inv_four evs s a :
  relay_inv evs s → answer_ok s a →
  let s1 := do_stdin a s in let s2 := do_recv a s1.1 in
  let s3 := do_send a s2.1 in let s4 := do_write a s3.1 in
  relay_inv (evs ++ s1.2) s1.1 ∧ relay_inv ((evs ++ s1.2) ++ s2.2) s2.1
  ∧ relay_inv (((evs ++ s1.2) ++ s2.2) ++ s3.2) s3.1
  ∧ relay_inv ((((evs ++ s1.2) ++ s2.2) ++ s3.2) ++ s4.2) s4.1.
Proof.
  intros Hi Ha s1 s2 s3 s4.
  assert (relay_inv (evs ++ s1.2) s1.1) as H1 by (by apply inv_stdin).
  assert (relay_inv ((evs ++ s1.2) ++ s2.2) s2.1) as H2.
  { apply inv_recv; [done|]. intros chunk Hc. destruct (ok_recv _ _ Ha _ Hc) as [? ?].
    unfold s1, do_stdin. by destruct (a_stdin a). }
  assert (relay_inv (((evs ++ s1.2) ++ s2.2) ++ s3.2) s3.1) as H3.
  { apply inv_send; [done|]. intros n Hn. destruct (ok_send _ _ Ha _ Hn) as [_ Hl].
    assert (to_proxy s2.1 = to_proxy s1.1) as -> by (unfold s2, do_recv; by destruct (a_recv a)).
    split; [|done]. intros He. unfold s1 in He. rewrite He in Hl. simpl in Hl. lia. }
  split_and!; [done..|]. apply inv_write; [done|]. intros n Hn. destruct (ok_write _ _ Ha _ Hn) as [_ Hl].
  assert (to_guest s3.1 = to_guest (do_recv a s).1) as ->; [|done].
  unfold s3, s2, s1, do_send, do_recv, do_stdin. by destruct (a_send a), (a_recv a), (a_stdin a).
Qed.

(** Each block adds to what was done before; the round may stop after any. *)
Lemma inv_body evs s a : relay_inv evs s → answer_ok s a → relay_inv (evs ++ (relay_body a s).2) (relay_body a s).1.
Proof.
  intros Hi Ha. destruct (inv_four evs s a Hi Ha) as (H1 & H2 & H3 & H4). unfold relay_body, blocks.
  destruct (a_oserror a) as [[|[|[|[|[|k]]]]]|]; simpl; rewrite ?take_nil; simpl; rewrite ?then_do_eq; simpl;
    rewrite ?app_nil_r, ?app_assoc; try done; by apply inv_shutdown.
Qed.

(** ** Runs *)
Lemma relay_loop_inv answers evs s :
  relay_inv evs s → answers_ok answers s →
  let '(s', evs', e) := relay_loop answers s in
  relay_inv (evs ++ evs') s' ∧ (e = Finished → looping s' = false)
  ∧ (e = Waiting → length answers ≤ length evs').
Proof.
  revert evs s. induction answers as [|a answers IH]; intros evs s Hi Ha; simpl.
  { destruct (looping s) eqn:Hl; simpl; rewrite app_nil_r; split_and!; done. }
  destruct (looping s) eqn:Hl; simpl; [|rewrite app_nil_r; done].
  destruct (idle a) eqn:Hid; [rewrite app_nil_r; done|]. destruct (Ha Hl) as [Hok Hrest].
  pose proof (inv_body evs s a Hi Hok) as Hb. destruct (a_oserror a) as [k|] eqn:Hos.
  { destruct (relay_body a s) as [s1 ev]. simpl in *. done. }
  specialize (IH _ _ Hb (Hrest Hid eq_refl)).
  assert (1 ≤ length (relay_body a s).2) as Hlen.
  { unfold relay_body, blocks. rewrite Hos. simpl. rewrite !then_do_eq. simpl. rewrite !length_app. unfold idle in Hid.
    rewrite Hos in Hid. unfold do_stdin, do_recv, do_send, do_write.
    destruct (a_stdin a), (a_recv a), (a_send a), (a_write a); simpl in *; try lia; done. }
  destruct (relay_body a s) as [s1 ev]. simpl in *. destruct (relay_loop answers s1) as [[s' evs'] e].
  rewrite <- app_assoc in IH. destruct IH as (H1 & H2 & H3). split_and!; [done..|]. intros He. rewrite length_app.
  specialize (H3 He). lia.
Qed.

(** C25: the relay loses, reorders and invents nothing.  Whatever the calls
    answer, and whichever of them raises: what the proxy got is what the guest sent up to a rest of at most
    64 KiB that waits in the buffer, and likewise in the other direction; the
    sending side is shut at most once, only after the guest's input has ended
    and all of it was sent, and nothing is sent or read from the guest after
    that; and when the loop finishes, the proxy has closed and the guest got
    every byte of it. *)
Theorem relay_faithful (answers : list answer) :
  answers_ok answers relay_init →
  let '(s, evs, e) := relay answers in
  (∃ rest, evs ≫= from_guest = (evs ≫= proxy_got) ++ rest ∧ length rest ≤ _BUFFER_LIMIT)
  ∧ (∃ rest, evs ≫= from_proxy = (evs ≫= guest_got) ++ rest ∧ length rest ≤ _BUFFER_LIMIT)
  ∧ shut_ok evs
  ∧ (e = Finished → ReadProxy [] ∈ evs ∧ evs ≫= guest_got = evs ≫= from_proxy).
Proof.
  intros Ha. pose proof (relay_loop_inv answers [] relay_init relay_inv_init Ha) as Hr. unfold relay.
  destruct (relay_loop answers relay_init) as [[s evs] e]. destruct Hr as ([] & Hf & _). simpl in *. split_and!; eauto.
  intros He. apply orb_false_iff in Hf as [Hu Hg]; [|done]. apply bool_decide_eq_false, dec_stable in Hg.
  split; [auto|]. by rewrite ri_down0, Hg, app_nil_r.
Qed.

(** The relay ends.  Every round moves bytes or ends a direction: a run
    that is still waiting after [n] answers has moved at least [(n - 3) / 2]
    bytes, so a finite conversation is over after finitely many rounds. *)
Theorem relay_rounds_bounded (answers : list answer) :
  answers_ok answers relay_init →
  let '(s, evs, e) := relay answers in
  e = Waiting → length answers ≤ 2 * (length (evs ≫= from_guest) + length (evs ≫= from_proxy)) + 3.
Proof.
  intros Ha. pose proof (relay_loop_inv answers [] relay_init relay_inv_init Ha) as Hr. unfold relay.
  destruct (relay_loop answers relay_init) as [[s evs] e]. destruct Hr as ([] & _ & Hw). simpl in *. intros He.
  specialize (Hw He). rewrite ri_up0, ri_down0, !length_app in *.
  assert (∀ b, b2n b ≤ 1) as Hb by (intros []; simpl; lia).
  pose proof (Hb (negb (input_open s))). pose proof (Hb (negb (upstream_open s))). pose proof (Hb (negb (write_open s))). lia.
Qed.

(** ** A conversation *)
Definition read_okb (asks : bool) (o : option (list byte)) (room : nat) : bool :=
  match o with Some c => asks && (length c <=? room) | None => true end.
Definition write_okb (asks : bool) (o : option nat) (len : nat) : bool :=
  match o with Some n => asks && (0 <? n) && (n <=? len) | None => true end.
Definition answer_okb s a : bool :=
  read_okb (asks_stdin s) (a_stdin a) (_BUFFER_LIMIT - length (to_proxy s))
  && read_okb (asks_recv s) (a_recv a) (_BUFFER_LIMIT - length (to_guest s))
  && write_okb (asks_send s) (a_send a) (length (to_proxy (do_stdin a s).1))
  && write_okb (asks_write s) (a_write a) (length (to_guest (do_recv a s).1)).
Fixpoint answers_okb (answers : list answer) s : bool :=
  match answers with
  | [] => true
  | a :: answers' => negb (looping s) || (answer_okb s a
      && (idle a || is_some (a_oserror a) || answers_okb answers' (relay_body a s).1))
  end.
Lemma answer_okb_ok s a : answer_okb s a = true → answer_ok s a.
Proof.
  unfold answer_okb, read_okb, write_okb. intros [[[H1 H2]%andb_true_iff H3]%andb_true_iff H4]%andb_true_iff.
  split; intros x Hx; rewrite Hx in *; repeat match goal with H : _ && _ = true |- _ => apply andb_true_iff in H as [? ?] end;
    repeat match goal with H : (_ <=? _) = true |- _ => apply Nat.leb_le in H | H : (_ <? _) = true |- _ => apply Nat.ltb_lt in H end;
    auto.
Qed.
Lemma answers_okb_ok answers s : answers_okb answers s = true → answers_ok answers s.
Proof.
  revert s. induction answers as [|a answers IH]; intros s; [done|]. simpl. intros H Hl. rewrite Hl in H. simpl in H.
  apply andb_true_iff in H as [Ha H]. split; [by apply answer_okb_ok|]. intros Hid Hos. rewrite Hid, Hos in H. by apply IH.
Qed.

Definition says (stdin recv : option (list byte)) (send write : option nat) : answer :=
  {| a_stdin := stdin; a_recv := recv; a_send := send; a_write := write; a_oserror := None |}.
Definition demo_answers : list answer :=
  [says (Some [x47; x45; x54]) None None None; says None None (Some 2) None; says (Some []) None (Some 1) None;
   says None (Some [x4f; x4b]) None None; says None (Some []) None (Some 1); says None None None (Some 1)].

Lemma relay_faithful_witness :
  let '(s, evs, e) := relay demo_answers in
  e = Finished ∧ shut_ok evs ∧ evs ≫= guest_got = evs ≫= from_proxy ∧ evs ≫= guest_got = [x4f; x4b].
Proof.
  pose proof (relay_faithful demo_answers (answers_okb_ok demo_answers relay_init ltac:(vm_compute; reflexivity))) as H.
  destruct (relay demo_answers) as [[s evs] e] eqn:Hr. destruct H as (_ & _ & Hs & Hf).
  assert (e = Finished) as He by (change e with (s, evs, e).2; rewrite <- Hr; vm_compute; reflexivity).
  split; [exact He|]. split; [exact Hs|]. destruct (Hf He) as [_ Hg]. split; [exact Hg|].
  change evs with ((s, evs, e).1.2). rewrite <- Hr. vm_compute. reflexivity.
Defined.
Lemma relay_rounds_bounded_witness :
  let answers := take 5 demo_answers in
  let '(s, evs, e) := relay answers in
  e = Waiting ∧ length answers ≤ 2 * (length (evs ≫= from_guest) + length (evs ≫= from_proxy)) + 3.
Proof.
  cbv zeta.
  pose proof (relay_rounds_bounded (take 5 demo_answers)
    (answers_okb_ok (take 5 demo_answers) relay_init ltac:(vm_compute; reflexivity))) as H.
  destruct (relay (take 5 demo_answers)) as [[s evs] e] eqn:Hr.
  assert (e = Waiting) as He by (change e with (s, evs, e).2; rewrite <- Hr; vm_compute; reflexivity).
  split; [exact He|]. exact (H He).
Defined.
