(* ===== verification/IpNetwork.v ===== *)
(** * The standard library's IPv4Network and collapse_addresses

    Parsing and printing of IPv4 networks, [overlaps], and the routine that
    merges a list of networks into its shortest form, with the proof that it
    keeps exactly the same addresses and that its results are fixed points. *)
From S2P Require Import Prelude PyDict PyStr IpAddress.
From stdpp Require Import options sorting.
From Stdlib Require Import Ascii.

(** A network is its first address and its prefix length. *)
Definition net4 : Type := Z * Z.

Definition net_size (l : Z) : Z := (2 ^ (32 - l))%Z.
Definition aligned (x : net4) : Prop := net_aligned 32 x.1 x.2 = true.
Definition broadcast (x : net4) : Z := (x.1 + net_size x.2 - 1)%Z.

(** The addresses of a network. *)
Definition covers (x : net4) (n : Z) : Prop := (x.1 ≤ n ≤ broadcast x)%Z.
Definition covered (l : list net4) (n : Z) : Prop := ∃ x, x ∈ l ∧ covers x n.

(** ** Parsing and printing *)

(** [_count_righthand_zero_bits(number, bits)] *)
Fixpoint zero_bits (bits : nat) (n : Z) : Z :=
  match bits with
  | O => 0
  | S bits' => if Z.odd n then 0 else 1 + zero_bits bits' (n / 2)
  end%Z.

Definition prefix_from_ip_int (n : Z) : option Z :=
  let t := zero_bits 32 n in
  if (Z.shiftr n t =? 2 ^ (32 - t) - 1)%Z then Some (32 - t)%Z else None.

Definition prefix_from_ip_string (s : string) : option Z :=
  n ← parse_v4 s;
  match prefix_from_ip_int n with
  | Some p => Some p
  | None => prefix_from_ip_int (Z.lxor n (2 ^ 32 - 1))
  end.

Definition prefix_from_string (s : string) : option Z :=
  if negb (String.eqb s "") && str_all is_digit s && (Z.of_nat (String.length s) <=? 4300)%Z then
    match parse_dec s with
    | Some p => if (0 <=? p)%Z && (p <=? 32)%Z then Some p else None
    | None => None
    end
  else None.

Definition make_netmask (s : string) : option Z :=
  match prefix_from_string s with Some p => Some p | None => prefix_from_ip_string s end.

(** [IPv4Network(s, strict=...)]; [None] is its [ValueError]. *)
Definition IPv4Network (strict : bool) (s : string) : option net4 :=
  match str_split "/"%char s with
  | [a] => n ← parse_v4 a; Some (n, 32%Z)
  | [a; m] =>
      n ← parse_v4 a; l ← make_netmask m;
      let base := Z.land n (IpAddress.netmask 32 l) in
      if (base =? n)%Z then Some (n, l) else if strict then None else Some (base, l)
  | _ => None
  end.

(** [str(address)] and [str(network)] *)
Definition addr_text (n : Z) : string :=
  dec (n / 16777216) +:+ "." +:+ dec (n / 65536 mod 256) +:+ "." +:+ dec (n / 256 mod 256)
  +:+ "." +:+ dec (n mod 256).
Definition net_text (x : net4) : string := addr_text x.1 +:+ "/" +:+ dec x.2.

Definition net_has (x : net4) (n : Z) : bool := in_net (V4 n) (N4 x.1 x.2).
Definition overlaps (x y : net4) : bool :=
  net_has y x.1 || net_has y (broadcast x) || net_has x y.1 || net_has x (broadcast y).

(** ** collapse_addresses *)

Definition supernet (x : net4) : net4 :=
  if (x.2 =? 0)%Z then x
  else (Z.land x.1 (Z.shiftl (IpAddress.netmask 32 x.2) 1), x.2 - 1)%Z.

Fixpoint find_ranges (first lst : Z) (l : list Z) : list (Z * Z) :=
  match l with
  | [] => [(first, lst)]
  | n :: l' => if (n =? lst + 1)%Z then find_ranges first n l'
               else (first, lst) :: find_ranges n n l'
  end.
(** [_find_address_range] *)
Definition find_address_range (l : list Z) : list (Z * Z) :=
  match l with [] => [] | n :: l' => find_ranges n n l' end.

(** [summarize_address_range]; each turn advances [first], so the length of
    the range is enough fuel. *)
Fixpoint summarize (fuel : nat) (first lst : Z) : list net4 :=
  match fuel with
  | O => []
  | S fuel' =>
      if (first <=? lst)%Z then
        let nbits := Z.min (zero_bits 32 first) (Z.log2 (lst - first + 1)) in
        (first, 32 - nbits)%Z :: summarize fuel' (first + 2 ^ nbits) lst
      else []
  end.
Definition summarize_address_range (r : Z * Z) : list net4 :=
  summarize (Z.to_nat (r.2 - r.1 + 1)) r.1 r.2.

(** The merging loop; the head of [to_merge] is the end of Python's list. *)
Fixpoint merge_loop (fuel : nat) (to_merge : list net4) (subnets : dict net4 net4)
    : option (dict net4 net4) :=
  match fuel, to_merge with
  | _, [] => Some subnets
  | O, _ => None
  | S fuel', net :: rest =>
      match dget (supernet net) subnets with
      | None => merge_loop fuel' rest (dset (supernet net) net subnets)
      | Some existing =>
          if bool_decide (existing = net) then merge_loop fuel' rest subnets
          else merge_loop fuel' (supernet net :: rest) (ddel (supernet net) subnets)
      end
  end.
Definition merge_fuel (l : list net4) : nat := 2 * length l.

(** [sorted]: by address, then by mask. *)
Definition net_le (x y : net4) : Prop := (x.1 < y.1 ∨ x.1 = y.1 ∧ x.2 ≤ y.2)%Z.
#[global] Instance net_le_dec : RelDecision net_le.
Proof. intros x y. unfold net_le. apply _. Defined.

Fixpoint skip_subsumed (lst : option net4) (l : list net4) : list net4 :=
  match l with
  | [] => []
  | net :: l' =>
      match lst with
      | Some p => if (broadcast net <=? broadcast p)%Z then skip_subsumed lst l'
                  else net :: skip_subsumed (Some net) l'
      | None => net :: skip_subsumed (Some net) l'
      end
  end.

Definition collapse_internal (l : list net4) : list net4 :=
  match merge_loop (merge_fuel l) (rev l) [] with
  | Some subnets => skip_subsumed None (merge_sort net_le (dvalues subnets))
  | None => []
  end.

Definition is_host (x : net4) : bool := (x.2 =? 32)%Z.
Definition collapse_addresses (l : list net4) : list net4 :=
  let ips := merge_sort Z.le (remove_dups (fst <$> filter is_host l)) in
  let nets := filter (λ x, negb (is_host x)) l in
  collapse_internal ((find_address_range ips ≫= summarize_address_range) ++ nets).

(** ** Facts about networks *)
Lemma net_size_pos l : (l ≤ 32)%Z → (0 < net_size l)%Z.
Proof. intros. apply Z.pow_pos_nonneg; lia. Qed.

Lemma net_size_half l : (1 ≤ l ≤ 32)%Z → net_size (l - 1) = (2 * net_size l)%Z.
Proof.
  intros Hl. unfold net_size. replace (32 - (l - 1))%Z with (Z.succ (32 - l)) by lia.
  apply Z.pow_succ_r. lia.
Qed.

Lemma net_size_split l : (0 ≤ l ≤ 32)%Z → (2 ^ 32 = 2 ^ l * net_size l)%Z.
Proof. intros. unfold net_size. rewrite <- Z.pow_add_r by lia. f_equal. lia. Qed.

(** An aligned network is the [q]-th block of its size. *)
Lemma aligned_iff x :
  aligned x ↔ (0 ≤ x.2 ≤ 32 ∧ ∃ q, 0 ≤ q < 2 ^ x.2 ∧ x.1 = q * net_size x.2)%Z.
Proof.
  unfold aligned, net_aligned. destruct x as [b l]. cbn [fst snd].
  rewrite !andb_true_iff, !Z.leb_le, Z.ltb_lt, Z.eqb_eq. fold (net_size l). split.
  - intros ((((H1 & H2) & H3) & H4) & H5). split; [lia|]. exists (b / net_size l)%Z.
    pose proof (net_size_pos l H2) as Hp. apply Z.div_exact in H5; [|lia].
    pose proof (net_size_split l (conj H1 H2)) as Hs.
    split; [|lia]. split; [apply Z.div_pos; lia|]. apply Z.div_lt_upper_bound; lia.
  - intros (H1 & q & H2 & ->). pose proof (net_size_pos l ltac:(lia)) as Hp.
    pose proof (net_size_split l H1) as Hs. rewrite Z.mod_mul by lia. split_and!; nia.
Qed.

Lemma covers_range x n : aligned x → covers x n → (0 ≤ n < 2 ^ 32)%Z.
Proof.
  intros (H1 & q & H2 & Hb)%aligned_iff. unfold covers, broadcast.
  pose proof (net_size_pos x.2 ltac:(lia)). pose proof (net_size_split x.2 H1). nia.
Qed.

Lemma covers_first x : aligned x → covers x x.1 ∧ covers x (broadcast x).
Proof.
  intros (H1 & _)%aligned_iff. unfold covers, broadcast. pose proof (net_size_pos x.2 ltac:(lia)). lia.
Qed.

(** Membership as the code tests it. *)
Lemma net_has_covers x n : aligned x → (0 ≤ n < 2 ^ 32)%Z → net_has x n = true ↔ covers x n.
Proof.
  intros Hx Hn. unfold net_has. cbn [in_net]. rewrite land_netmask_range by done. cbn [ieval].
  rewrite andb_true_iff, Z.leb_le, Z.ltb_lt. unfold covers, broadcast, net_size. lia.
Qed.

(** Two blocks are nested or disjoint. *)
Lemma nested_or_disjoint x y n :
  aligned x → aligned y → covers x n → covers y n → (x.2 ≤ y.2)%Z →
  (x.1 ≤ y.1 ∧ broadcast y ≤ broadcast x)%Z.
Proof.
  intros (H1 & q & H2 & Hx)%aligned_iff (H3 & r & H4 & Hy)%aligned_iff. unfold covers, broadcast.
  intros Hn1 Hn2 Hle. pose proof (net_size_pos y.2 ltac:(lia)) as Hp.
  assert (net_size x.2 = 2 ^ (y.2 - x.2) * net_size y.2)%Z as Hs.
  { unfold net_size. rewrite <- Z.pow_add_r by lia. f_equal. lia. }
  assert (0 < 2 ^ (y.2 - x.2))%Z as Hk by (apply Z.pow_pos_nonneg; lia).
  set (k := (2 ^ (y.2 - x.2))%Z) in *. set (s := net_size y.2) in *.
  rewrite Hx, Hs, Hy in *.
  assert (q * k ≤ r)%Z by (apply Z.lt_succ_r; nia). assert (r < q * k + k)%Z by nia. nia.
Qed.

Lemma overlaps_iff x y :
  aligned x → aligned y → overlaps x y = true ↔ ∃ n, covers x n ∧ covers y n.
Proof.
  intros Hx Hy. destruct (covers_first x Hx) as [X1 X2], (covers_first y Hy) as [Y1 Y2].
  unfold overlaps. rewrite !orb_true_iff.
  rewrite !net_has_covers by (try done; eauto using covers_range). split.
  - intros [[[H|H]|H]|H]; eauto.
  - intros (n & H1 & H2). destruct (Z.le_ge_cases x.2 y.2) as [Hle|Hle].
    + pose proof (nested_or_disjoint x y n Hx Hy H1 H2 Hle). left. right. unfold covers in *. lia.
    + pose proof (nested_or_disjoint y x n Hy Hx H2 H1 Hle). left. left. left. unfold covers in *. lia.
Qed.

(** *** Supernets *)
Lemma supernet_aligned x : aligned x →
  aligned (supernet x) ∧ ((supernet x).2 = if (x.2 =? 0)%Z then 0%Z else (x.2 - 1)%Z)
  ∧ ((x.2 = 0 ∧ supernet x = x) ∨ (1 ≤ x.2 ∧
      (x.1 = (supernet x).1 ∨ x.1 = (supernet x).1 + net_size x.2)))%Z.
Proof.
  intros Hx. pose proof Hx as (H1 & q & H2 & Hb)%aligned_iff.
  unfold supernet. destruct (Z.eqb_spec x.2 0) as [E|E]; [split_and!; auto|].
  cbn [fst snd]. assert (Z.land x.1 (Z.shiftl (IpAddress.netmask 32 x.2) 1)
    = q / 2 * net_size (x.2 - 1))%Z as Hl.
  { replace (Z.shiftl (IpAddress.netmask 32 x.2) 1) with (IpAddress.netmask 33 x.2).
    - pose proof (covers_range x x.1 Hx (proj1 (covers_first x Hx))).
      rewrite land_netmask by lia. rewrite Hb. unfold net_size.
      replace (33 - x.2)%Z with (Z.succ (32 - x.2)) by lia. rewrite Z.pow_succ_r by lia.
      replace (32 - (x.2 - 1))%Z with (Z.succ (32 - x.2)) by lia. rewrite Z.pow_succ_r by lia.
      set (s := (2 ^ (32 - x.2))%Z). assert (0 < s)%Z by (apply Z.pow_pos_nonneg; lia).
      rewrite (Z.mul_comm 2 s), <- Z.div_div, Z.div_mul by lia. done.
    - rewrite Z.shiftl_mul_pow2 by lia. unfold IpAddress.netmask.
      replace (33 - x.2)%Z with (Z.succ (32 - x.2)) by lia. rewrite Z.pow_succ_r by lia. lia. }
  assert (2 ^ x.2 = 2 * 2 ^ (x.2 - 1))%Z as Hp.
  { replace x.2 with (Z.succ (x.2 - 1)) at 1 by lia. apply Z.pow_succ_r. lia. }
  rewrite Hl. pose proof (Z.div_mod q 2 ltac:(lia)) as Hd. pose proof (Z.mod_pos_bound q 2 ltac:(lia)).
  rewrite net_size_half by lia. split_and!; [|done|].
  - apply aligned_iff. cbn [fst snd]. split; [lia|]. exists (q / 2)%Z.
    rewrite net_size_half by lia. lia.
  - right. split; [lia|]. rewrite Hb.
    set (a := (q / 2)%Z) in *. set (r := (q mod 2)%Z) in *. clearbody a r. subst q.
    assert (r = 0 ∨ r = 1)%Z as [-> | ->] by lia; [left|right]; ring.
Qed.

(** Two different networks with one supernet make it up. *)
Lemma supernet_merge x y n :
  aligned x → aligned y → x ≠ y → supernet x = supernet y →
  covers (supernet x) n ↔ covers x n ∨ covers y n.
Proof.
  intros Hx Hy Hne Heq.
  destruct (supernet_aligned x Hx) as (A1 & A2 & A3), (supernet_aligned y Hy) as (B1 & B2 & B3).
  assert (∀ z, aligned z → z.2 = 0%Z → z = (0, 0)%Z) as Hz.
  { intros [b l] (_ & q & H2 & Hb)%aligned_iff Hl. cbn [fst snd] in *. subst l. f_equal.
    change (2 ^ 0)%Z with 1%Z in H2. assert (q = 0%Z) as -> by lia. lia. }
  assert (∀ z m, aligned z → covers z m → covers (0, 0)%Z m) as Htop.
  { intros z m Hz1 Hm. pose proof (covers_range z m Hz1 Hm). unfold covers, broadcast, net_size.
    simpl. lia. }
  destruct A3 as [[A3 A4]|[A3 A4]].
  { rewrite A4, (Hz x Hx A3). split; [by left|]. intros [H|H]; [done|]. by apply (Htop y). }
  destruct B3 as [[B3 B4]|[B3 B4]].
  { rewrite Heq, B4, (Hz y Hy B3). split; [by right|]. intros [H|H]; [|done]. by apply (Htop x). }
  rewrite <- Heq in *. assert (x.2 = y.2) as Hl by (destruct (Z.eqb_spec x.2 0), (Z.eqb_spec y.2 0); lia).
  assert (x.1 ≠ y.1) as Hb by (intros E; apply Hne; destruct x, y; simpl in *; congruence).
  assert (x.2 ≤ 32)%Z by (apply aligned_iff in Hx; lia).
  assert (net_size (supernet x).2 = 2 * net_size x.2)%Z as Hsz.
  { rewrite A2. destruct (Z.eqb_spec x.2 0); [lia|]. apply net_size_half. lia. }
  pose proof (net_size_pos x.2 ltac:(lia)).
  unfold covers, broadcast. rewrite Hsz. rewrite <- Hl in *. lia.
Qed.

(** *** The merging loop *)
Lemma covered_app l1 l2 n : covered (l1 ++ l2) n ↔ covered l1 n ∨ covered l2 n.
Proof. unfold covered. setoid_rewrite elem_of_app. naive_solver. Qed.
Lemma covered_cons x l n : covered (x :: l) n ↔ covers x n ∨ covered l n.
Proof. unfold covered. setoid_rewrite elem_of_cons. naive_solver. Qed.
Lemma covered_perm l1 l2 n : l1 ≡ₚ l2 → covered l1 n ↔ covered l2 n.
Proof. intros H. unfold covered. by setoid_rewrite H. Qed.

Record subnets_ok (d : dict net4 net4) : Prop := {
  so_keys : keys_ok d;
  so_super : ∀ k v, dget k d = Some v → supernet v = k ∧ aligned v }.

Definition in_dict (d : dict net4 net4) (n : Z) : Prop := ∃ k v, dget k d = Some v ∧ covers v n.

Lemma subnets_insert net d :
  aligned net → subnets_ok d → dget (supernet net) d = None →
  subnets_ok (dset (supernet net) net d)
  ∧ length (dset (supernet net) net d) = S (length d)
  ∧ ∀ n, in_dict (dset (supernet net) net d) n ↔ covers net n ∨ in_dict d n.
Proof.
  intros Hn [Hk Hs] Hg. split_and!.
  - split; [by apply keys_ok_dset|]. intros k v. rewrite dget_dset.
    case_decide; [by intros [= <-]|apply Hs].
  - rewrite dset_fresh by done. rewrite length_app. simpl. lia.
  - intros n. unfold in_dict. setoid_rewrite dget_dset. split.
    + intros (k & v & H & Hc). case_decide; [simplify_eq; by left|right; eauto].
    + intros [Hc|(k & v & H & Hc)]; [exists (supernet net), net; by rewrite decide_True|].
      exists k, v. rewrite decide_False; [done|congruence].
Qed.

Lemma subnets_remove k v d :
  subnets_ok d → dget k d = Some v →
  subnets_ok (ddel k d) ∧ length d = S (length (ddel k d))
  ∧ ∀ n, in_dict d n ↔ covers v n ∨ in_dict (ddel k d) n.
Proof.
  intros [Hk Hs] Hg. split_and!.
  - split; [by apply keys_ok_ddel|]. intros k' v'. rewrite dget_ddel by done.
    case_decide; [done|apply Hs].
  - clear Hs Hk. induction d as [|[k' v'] d IH]; simpl in *; [done|].
    case_decide; simpl; [done|]. by rewrite <- IH.
  - intros n. unfold in_dict. setoid_rewrite dget_ddel; [|done]. split.
    + intros (k' & v' & H & Hc). destruct (decide (k = k')) as [<-|Hne]; [left; by simplify_eq|].
      right. exists k', v'. by rewrite decide_False.
    + intros [Hc|(k' & v' & H & Hc)]; [eauto|]. case_decide; [done|eauto].
Qed.

(** The loop ends with the fuel given and keeps the addresses. *)
Lemma merge_loop_spec fuel tm d :
  Forall aligned tm → subnets_ok d → 2 * length tm + length d ≤ fuel →
  ∃ d', merge_loop fuel tm d = Some d' ∧ subnets_ok d'
  ∧ ∀ n, in_dict d' n ↔ covered tm n ∨ in_dict d n.
Proof.
  revert tm d. induction fuel as [|fuel IH]; intros tm d Htm Hd Hf; destruct tm as [|net rest];
    try (simpl in Hf; lia);
    try (exists d; split_and!; [done|done|]; intros n; split; [by right|];
         intros [(x & Hx & _)|]; [by apply elem_of_nil in Hx|done]).
  simpl in Hf. apply Forall_cons in Htm as [Hnet Hrest]. cbn [merge_loop].
  setoid_rewrite covered_cons. destruct (dget (supernet net) d) as [e|] eqn:Hg.
  - destruct (so_super d Hd _ _ Hg) as [He1 He2]. case_bool_decide as Hen.
    + subst e. destruct (IH rest d) as (d' & H1 & H2 & H3); [done..|lia|].
      exists d'. split_and!; [done|done|]. intros n. rewrite H3. unfold in_dict. naive_solver.
    + destruct (subnets_remove _ _ d Hd Hg) as (R1 & R2 & R3).
      destruct (IH (supernet net :: rest) (ddel (supernet net) d)) as (d' & H1 & H2 & H3);
        [constructor; [by apply supernet_aligned|done]|done|simpl; lia|].
      exists d'. split_and!; [done|done|]. intros n. rewrite H3, covered_cons, R3.
      rewrite (supernet_merge net e n) by done. tauto.
  - destruct (subnets_insert net d Hnet Hd Hg) as (R1 & R2 & R3).
    destruct (IH rest (dset (supernet net) net d)) as (d' & H1 & H2 & H3); [done|done|lia|].
    exists d'. split_and!; [done|done|]. intros n. rewrite H3, R3. tauto.
Qed.

(** *** Sorting and dropping subsumed networks *)
#[global] Instance net_le_total : Total net_le.
Proof. intros x y. unfold net_le. lia. Qed.
#[global] Instance net_le_trans : Transitive net_le.
Proof. intros x y z. unfold net_le. lia. Qed.
#[global] Instance net_le_antisymm : AntiSymm (=) net_le.
Proof. intros [b1 l1] [b2 l2]. unfold net_le. simpl. intros. f_equal; lia. Qed.

(** [x] ends before [y] starts. *)
Definition before (x y : net4) : Prop := (broadcast x < y.1)%Z.

Lemma net_le_before x y :
  aligned x → aligned y → net_le x y → (broadcast x < broadcast y)%Z → before x y.
Proof.
  intros Hx Hy Hle Hb. unfold before. destruct (Z.lt_ge_cases (broadcast x) y.1) as [|Hge]; [done|].
  destruct (covers_first y Hy) as [Y1 Y2].
  assert (covers x y.1) as Hc by (unfold covers, net_le in *; lia).
  destruct (Z.le_ge_cases x.2 y.2) as [Hl|Hl].
  - pose proof (nested_or_disjoint x y y.1 Hx Hy Hc Y1 Hl). lia.
  - pose proof (nested_or_disjoint y x y.1 Hy Hx Y1 Hc Hl). unfold net_le in Hle.
    assert (x.1 = y.1) as E by lia. assert (x.2 = y.2) as E2 by lia.
    unfold broadcast in Hb. rewrite E, E2 in Hb. lia.
Qed.

Lemma skip_covered p l n :
  StronglySorted net_le (p :: l) →
  covered (skip_subsumed (Some p) l) n ∨ covers p n ↔ covered l n ∨ covers p n.
Proof.
  revert p. induction l as [|net l IH]; intros p Hs; [done|].
  inversion Hs as [|?? Hs' Hall]; subst. inversion Hall as [|?? Hle Hall']; subst.
  inversion Hs' as [|?? Hsl Hall'']; subst. cbn [skip_subsumed].
  destruct (Z.leb_spec (broadcast net) (broadcast p)) as [Hb|Hb].
  - rewrite IH by (by constructor). rewrite covered_cons.
    assert (covers net n → covers p n) by (unfold covers, net_le in *; lia). tauto.
  - rewrite !covered_cons. specialize (IH net Hs'). tauto.
Qed.

Lemma skip_before p l :
  Forall aligned (p :: l) → StronglySorted net_le (p :: l) →
  StronglySorted before (p :: skip_subsumed (Some p) l).
Proof.
  revert p. induction l as [|net l IH]; intros p Ha Hs; [by repeat constructor|].
  inversion Hs as [|?? Hs' Hall]; subst. inversion Hall as [|?? Hle Hall']; subst.
  inversion Hs' as [|?? Hsl Hall'']; subst. inversion Ha as [|?? Hp Ha']; subst.
  inversion Ha' as [|?? Hn Ha'']; subst. cbn [skip_subsumed].
  destruct (Z.leb_spec (broadcast net) (broadcast p)) as [Hb|Hb].
  - apply IH; by constructor.
  - specialize (IH net Ha' Hs'). pose proof (net_le_before p net Hp Hn Hle Hb) as Hpn.
    constructor; [done|]. constructor; [done|]. inversion IH as [|?? _ Hf]; subst.
    eapply Forall_impl; [exact Hf|]. intros y Hy. unfold before in *.
    destruct (covers_first net Hn) as [H _]. unfold covers in H. lia.
Qed.

Lemma skip_sublist o l : skip_subsumed o l `sublist_of` l.
Proof.
  revert o. induction l as [|net l IH]; intros o; [constructor|]. cbn [skip_subsumed].
  destruct o as [p|]; [|by constructor]. destruct (_ <=? _)%Z; by constructor.
Qed.

(** A list of disjoint networks in address order, no two of which could merge. *)
Record canonical (l : list net4) : Prop := {
  ca_aligned : Forall aligned l;
  ca_sorted : StronglySorted before l;
  ca_unmergeable : NoDup (supernet <$> l) }.

Lemma dvalues_supers d : subnets_ok d → supernet <$> dvalues d = dkeys d.
Proof.
  intros [Hk Hs]. unfold dvalues, dkeys. rewrite <- list_fmap_compose.
  apply list_fmap_ext. intros i [k v] Hi. simpl. apply list_elem_of_lookup_2 in Hi.
  by apply Hs, elem_dget.
Qed.

Lemma in_dict_values d n : keys_ok d → in_dict d n ↔ covered (dvalues d) n.
Proof. intros Hk. unfold in_dict, covered. setoid_rewrite dvalues_elem; [|done]. naive_solver. Qed.

(** The second half of [_collapse_addresses_internal]. *)
Lemma sort_skip_spec d :
  subnets_ok d →
  let out := skip_subsumed None (merge_sort net_le (dvalues d)) in
  canonical out ∧ ∀ n, covered out n ↔ in_dict d n.
Proof.
  intros Hd out. pose proof (merge_sort_Permutation net_le (dvalues d)) as Hp.
  pose proof (StronglySorted_merge_sort net_le (dvalues d)) as Hs.
  assert (Forall aligned (merge_sort net_le (dvalues d))) as Ha.
  { rewrite Hp. apply Forall_forall. intros v (k & Hv)%dvalues_elem; [|apply Hd]. by destruct (so_super d Hd k v Hv). }
  assert (NoDup (supernet <$> merge_sort net_le (dvalues d))) as Hn.
  { rewrite Hp, dvalues_supers by done. apply Hd. }
  setoid_rewrite in_dict_values; [|apply Hd]. setoid_rewrite <- (covered_perm _ _ _ Hp).
  unfold out. clear out Hp. destruct (merge_sort net_le (dvalues d)) as [|x l];
    [split; [split; constructor|done]|].
  cbn [skip_subsumed]. pose proof (skip_sublist (Some x) l) as Hsub. repeat split.
  - apply Forall_forall. intros y Hy. rewrite Forall_forall in Ha. apply Ha.
    eapply elem_of_sublist; [exact Hy|]. by constructor.
  - by apply skip_before.
  - eapply sublist_NoDup; [exact Hn|]. apply (fmap_sublist supernet). by constructor.
  - rewrite !covered_cons. pose proof (skip_covered x l n Hs). tauto.
  - rewrite !covered_cons. pose proof (skip_covered x l n Hs). tauto.
Qed.

Lemma collapse_internal_spec l :
  Forall aligned l →
  canonical (collapse_internal l) ∧ ∀ n, covered (collapse_internal l) n ↔ covered l n.
Proof.
  intros Ha. unfold collapse_internal.
  destruct (merge_loop_spec (merge_fuel l) (rev l) []) as (d & -> & Hd & Hc).
  - rewrite Forall_forall in *. intros x. rewrite list_elem_of_In, <- in_rev, <- list_elem_of_In. auto.
  - split; [apply keys_ok_nil|done].
  - rewrite length_rev. unfold merge_fuel. simpl. lia.
  - destruct (sort_skip_spec d Hd) as [H1 H2]. split; [done|]. intros n. rewrite H2, Hc.
    rewrite (covered_perm (rev l) l) by (by rewrite reverse_Permutation || apply Permutation_sym, Permutation_rev).
    split; [|by left]. intros [|(k & v & H & _)]; done.
Qed.

(** *** Single addresses *)
Lemma find_ranges_spec first lst l n :
  (first ≤ lst)%Z →
  (∃ r, r ∈ find_ranges first lst l ∧ (r.1 ≤ n ≤ r.2)%Z) ↔ (first ≤ n ≤ lst)%Z ∨ n ∈ l.
Proof.
  revert first lst. induction l as [|m l IH]; intros first lst Hle; cbn [find_ranges].
  - setoid_rewrite list_elem_of_singleton. rewrite elem_of_nil. naive_solver.
  - rewrite elem_of_cons. destruct (Z.eqb_spec m (lst + 1)) as [->|Hm].
    + rewrite IH by lia. assert ((first ≤ n ≤ lst + 1) ↔ (first ≤ n ≤ lst) ∨ n = lst + 1)%Z by lia. tauto.
    + setoid_rewrite elem_of_cons.
      assert (n = m ↔ (m ≤ n ≤ m)%Z) as -> by lia. rewrite <- (IH m m) by lia. split.
      * intros (r & [->|Hr] & Hn); [by left|right; eauto].
      * intros [H|(r & Hr & Hn)]; [exists (first, lst); auto|eauto].
Qed.

Lemma find_ranges_bounds first lst l r :
  (first ≤ lst)%Z → r ∈ find_ranges first lst l →
  (r.1 ≤ r.2)%Z ∧ (r.1 = first ∨ r.1 ∈ l) ∧ (r.2 = lst ∨ r.2 ∈ l).
Proof.
  revert first lst. induction l as [|m l IH]; intros first lst Hle; cbn [find_ranges].
  - rewrite list_elem_of_singleton. intros ->. auto.
  - destruct (Z.eqb_spec m (lst + 1)) as [->|Hm].
    + intros Hr. destruct (IH first (lst + 1)%Z ltac:(lia) Hr) as (H1 & H2 & H3). set_solver.
    + rewrite elem_of_cons. intros [->|Hr]; [auto|].
      destruct (IH m m ltac:(lia) Hr) as (H1 & H2 & H3). set_solver.
Qed.

Lemma zero_bits_spec bits n : (0 ≤ zero_bits bits n ≤ Z.of_nat bits)%Z ∧ (2 ^ zero_bits bits n | n)%Z.
Proof.
  revert n. induction bits as [|bits IH]; intros n; [simpl; split; [lia|apply Z.divide_1_l]|].
  cbn [zero_bits]. destruct (Z.odd n) eqn:Ho; [split; [lia|apply Z.divide_1_l]|].
  destruct (IH (n / 2)%Z) as [H1 [q Hq]]. split; [lia|].
  assert (n = 2 * (n / 2))%Z as Hn by (rewrite <- Z.negb_even in Ho;
    apply negb_false_iff, Z.even_spec in Ho as [m ->]; rewrite Z.mul_comm, Z.div_mul; lia).
  exists q. rewrite Z.add_1_l, Z.pow_succ_r by lia. rewrite Hn at 1. rewrite Hq at 1. ring.
Qed.

Lemma summarize_spec fuel first lst :
  (0 ≤ first)%Z → (lst < 2 ^ 32)%Z → (Z.to_nat (lst - first + 1) ≤ fuel)%nat →
  Forall aligned (summarize fuel first lst)
  ∧ ∀ n, covered (summarize fuel first lst) n ↔ (first ≤ n ≤ lst)%Z.
Proof.
  revert first. induction fuel as [|fuel IH]; intros first H0 Hl Hf.
  - cbn [summarize]. split; [done|]. intros n. split; [by intros (x & Hx%elem_of_nil & _)|lia].
  - cbn [summarize]. destruct (Z.leb_spec first lst) as [Hle|Hgt].
    2: { split; [done|]. intros n. split; [by intros (x & Hx%elem_of_nil & _)|lia]. }
    set (nb := Z.min _ _). destruct (zero_bits_spec 32 first) as [Hz Hd].
    assert (0 ≤ nb ≤ 32 ∧ (2 ^ nb | first) ∧ 2 ^ nb ≤ lst - first + 1)%Z as (Hb & Hdiv & Hsz).
    { pose proof (Z.log2_nonneg (lst - first + 1)). pose proof (Z.log2_spec (lst - first + 1) ltac:(lia)).
      split; [lia|]. split.
      - etrans; [|exact Hd]. exists (2 ^ (zero_bits 32 first - nb))%Z.
        rewrite <- Z.pow_add_r by lia. f_equal. lia.
      - etrans; [apply (Z.pow_le_mono_r 2 nb (Z.log2 (lst - first + 1))); lia|lia]. }
    assert (0 < 2 ^ nb)%Z by (apply Z.pow_pos_nonneg; lia).
    assert (net_size (32 - nb) = 2 ^ nb)%Z as Hns by (unfold net_size; f_equal; lia).
    assert (aligned (first, 32 - nb)%Z) as Hal.
    { apply aligned_iff. cbn [fst snd]. split; [lia|]. destruct Hdiv as [q Hq]. exists q.
      rewrite Hns. split; [|done]. pose proof (net_size_split (32 - nb) ltac:(lia)) as Hs. nia. }
    destruct (IH (first + 2 ^ nb)%Z) as [I1 I2]; [lia|lia|lia|].
    split; [by constructor|]. intros n. rewrite covered_cons, I2. unfold covers, broadcast.
    cbn [fst snd]. rewrite Hns. lia.
Qed.

Lemma host_covers x n : aligned x → is_host x = true → covers x n ↔ n = x.1.
Proof.
  unfold is_host. intros _ Hx%Z.eqb_eq. unfold covers, broadcast, net_size. rewrite Hx. simpl. lia.
Qed.

(** *** [collapse_addresses] *)
Definition hosts (l : list net4) : list Z := fst <$> filter is_host l.

Lemma collapse_hosts l n :
  Forall aligned l →
  (∃ r, r ∈ find_address_range (merge_sort Z.le (remove_dups (hosts l))) ∧ (r.1 ≤ n ≤ r.2)%Z)
  ↔ covered (filter is_host l) n.
Proof.
  intros Ha. set (ips := merge_sort Z.le _).
  assert (n ∈ ips ↔ n ∈ hosts l) as Hips.
  { unfold ips. rewrite merge_sort_Permutation. apply elem_of_remove_dups. }
  transitivity (n ∈ ips).
  - destruct ips as [|m ips']; cbn [find_address_range].
    + split; [intros (r & Hr & _); by apply elem_of_nil in Hr|by intros ?%elem_of_nil].
    + rewrite find_ranges_spec by lia. rewrite elem_of_cons.
      assert (n = m ↔ (m ≤ n ≤ m)%Z) as -> by lia. done.
  - rewrite Hips. unfold hosts, covered. rewrite list_elem_of_fmap. rewrite Forall_forall in Ha.
    assert (∀ x, x ∈ filter is_host l → (covers x n ↔ n = x.1)) as Hx.
    { intros x [H1 H2]%list_elem_of_filter. apply host_covers; [by apply Ha|by apply Is_true_true_1]. }
    split; intros (x & H); exists x; destruct H as [H1 H2]; split; try done; by apply Hx.
Qed.

Lemma split_hosts l : filter is_host l ++ filter (λ x, negb (is_host x)) l ≡ₚ l.
Proof.
  induction l as [|x l IH]; [done|]. rewrite !filter_cons. destruct (is_host x); simpl.
  - by rewrite IH.
  - by rewrite <- Permutation_middle, IH.
Qed.

Lemma collapse_addresses_spec l :
  Forall aligned l →
  canonical (collapse_addresses l) ∧ ∀ n, covered (collapse_addresses l) n ↔ covered l n.
Proof.
  intros Ha. unfold collapse_addresses. fold (hosts l). cbv zeta.
  set (rs := find_address_range _).
  assert (∀ r, r ∈ rs → Forall aligned (summarize_address_range r)
    ∧ ∀ n, covered (summarize_address_range r) n ↔ (r.1 ≤ n ≤ r.2)%Z) as Hr.
  { intros r Hin. assert ((0 ≤ r.1)%Z ∧ (r.2 < 2 ^ 32)%Z) as [H1 H2].
    { assert (∀ n, (∃ r, r ∈ rs ∧ (r.1 ≤ n ≤ r.2)%Z) → (0 ≤ n < 2 ^ 32)%Z) as Hb.
      { intros n (x & Hx & Hc)%(collapse_hosts l n Ha). apply (covers_range x n); [|done].
        apply list_elem_of_filter in Hx as [_ Hx]. rewrite Forall_forall in Ha. by apply Ha. }
      assert (r.1 ≤ r.2)%Z.
      { unfold rs in Hin. destruct (merge_sort _ _) as [|m ips]; [by apply elem_of_nil in Hin|].
        by destruct (find_ranges_bounds m m ips r (Z.le_refl m) Hin). }
      split; [apply (Hb r.1)|apply (Hb r.2)]; exists r; split; (done || lia). }
    apply summarize_spec; [done|done|lia]. }
  assert (Forall aligned (filter (λ x, negb (is_host x)) l)) as Hn.
  { rewrite Forall_forall in *. intros x [_ Hx]%list_elem_of_filter. by apply Ha. }
  destruct (collapse_internal_spec ((rs ≫= summarize_address_range) ++ filter (λ x, negb (is_host x)) l))
    as [H1 H2].
  { apply Forall_app_2; [|done]. apply Forall_forall. intros x (r & Hx & Hin)%list_elem_of_bind.
    destruct (Hr r Hin) as [Hal _]. rewrite Forall_forall in Hal. by apply Hal. }
  split; [done|]. intros n. rewrite H2, covered_app, <- (covered_perm _ _ n (split_hosts l)), covered_app.
  rewrite <- (collapse_hosts l n Ha). fold rs. apply or_iff_compat_r. unfold covered. split.
  - intros (x & (r & Hx & Hin)%list_elem_of_bind & Hc). exists r. split; [done|].
    apply (Hr r Hin). by exists x.
  - intros (r & Hin & Hc). apply (Hr r Hin) in Hc as (x & Hx & Hc). exists x. split; [|done].
    apply list_elem_of_bind. eauto.
Qed.

(** *** Fixed points *)
Lemma remove_dups_NoDup (l : list Z) : NoDup l → remove_dups l = l.
Proof.
  induction 1 as [|x l Hx _ IH]; [done|]. simpl. case_decide; [done|]. by rewrite IH.
Qed.

Definition half_distinct (l : list Z) : Prop := NoDup ((λ n, n / 2)%Z <$> l).

(** Addresses no two of which are siblings stay single. *)
Lemma summarize_one n : summarize_address_range (n, n) = [(n, 32)%Z].
Proof.
  unfold summarize_address_range. cbn [fst snd]. replace (n - n + 1)%Z with 1%Z by lia.
  change (Z.to_nat 1) with 1. cbn [summarize]. rewrite (proj2 (Z.leb_le n n)) by lia.
  replace (n - n + 1)%Z with 1%Z by lia. change (Z.log2 1) with 0%Z.
  destruct (zero_bits_spec 32 n) as [Hz _]. rewrite Z.min_r by lia. done.
Qed.

Lemma summarize_two n : Z.odd n = true → summarize_address_range (n, n + 1)%Z = [(n, 32); (n + 1, 32)]%Z.
Proof.
  intros Ho. unfold summarize_address_range. cbn [fst snd].
  replace (n + 1 - n + 1)%Z with 2%Z by lia. change (Z.to_nat 2) with 2. cbn [summarize].
  rewrite (proj2 (Z.leb_le n (n + 1))) by lia.
  assert (zero_bits 32 n = 0%Z) as -> by (cbn [zero_bits]; by rewrite Ho).
  replace (n + 1 - n + 1)%Z with 2%Z by lia. change (Z.min 0 (Z.log2 2)) with 0%Z.
  change (2 ^ 0)%Z with 1%Z. rewrite (proj2 (Z.leb_le (n + 1) (n + 1))) by lia.
  replace (n + 1 - (n + 1) + 1)%Z with 1%Z by lia. change (Z.log2 1) with 0%Z.
  destruct (zero_bits_spec 32 (n + 1)) as [Hz _]. rewrite Z.min_r by lia. done.
Qed.

Lemma odd_of_halves n : (n / 2 ≠ (n + 1) / 2)%Z → Z.odd n = true.
Proof.
  intros H. destruct (Z.odd n) eqn:Ho; [done|]. destruct H. rewrite <- Z.negb_even in Ho.
  apply negb_false_iff, Z.even_spec in Ho as [m ->].
  rewrite Z.mul_comm, Z.div_mul, (Z.add_comm (m * 2)), Z.div_add by lia. done.
Qed.

Definition host_net (n : Z) : net4 := (n, 32%Z).

Lemma ranges_of_singles l lst :
  half_distinct (lst :: l) →
  find_ranges lst lst l ≫= summarize_address_range = host_net <$> (lst :: l)
  ∧ (Z.odd (lst - 1) = true →
     find_ranges (lst - 1) lst l ≫= summarize_address_range = host_net <$> (lst - 1 :: lst :: l)%Z).
Proof.
  revert lst. induction l as [|m l IH]; intros lst Hh.
  - cbn [find_ranges mbind list_bind]. split; [by rewrite summarize_one|]. intros Ho.
    pose proof (summarize_two (lst - 1) Ho) as H. replace (lst - 1 + 1)%Z with lst in H by lia.
    by rewrite H.
  - inversion Hh as [|?? Hni Hh']; subst. destruct (IH m Hh') as [IH1 IH2]. cbn [find_ranges].
    destruct (Z.eqb_spec m (lst + 1)) as [->|Hm].
    + assert (lst / 2 ≠ (lst + 1) / 2)%Z as Hne by (intros E; apply Hni; rewrite E; by left).
      apply odd_of_halves in Hne. replace (lst + 1 - 1)%Z with lst in IH2 by lia. split; [by apply IH2|].
      intros Ho. replace lst with (Z.succ (lst - 1)) in Hne by lia. by rewrite Z.odd_succ, <- Z.negb_odd, Ho in Hne.
    + cbn [mbind list_bind]. rewrite IH1. split; [by rewrite summarize_one|]. intros Ho.
      pose proof (summarize_two (lst - 1) Ho) as H. replace (lst - 1 + 1)%Z with lst in H by lia.
      by rewrite H.
Qed.

Lemma host_supernet x : aligned x → is_host x = true → supernet x = (x.1 / 2 * 2, 31)%Z.
Proof.
  intros Hx Hh%Z.eqb_eq. destruct (supernet_aligned x Hx) as (Ha & Hl & Hc).
  rewrite Hh in Hl, Hc. simpl in Hl. destruct Hc as [[]|[_ Hc]]; [done|].
  apply aligned_iff in Ha as (_ & q & _ & Hq). rewrite Hl in Hq. change (net_size 31) with 2%Z in Hq.
  change (net_size 32) with 1%Z in Hc. destruct (supernet x) as [b l]. cbn [fst snd] in *. subst l b.
  f_equal. destruct Hc as [-> | ->].
  - by rewrite Z.div_mul.
  - by rewrite Z.add_comm, Z.div_add.
Qed.

Lemma NoDup_fmap_coarser {A B C} (f : A → B) (g : A → C) (l : list A) :
  (∀ x y, x ∈ l → y ∈ l → g x = g y → f x = f y) → NoDup (f <$> l) → NoDup (g <$> l).
Proof.
  induction l as [|x l IH]; intros Hfg; [constructor|]. rewrite !fmap_cons. intros [Hx Hl]%NoDup_cons.
  apply NoDup_cons. split.
  - intros (y & Hy & Hin)%list_elem_of_fmap. apply Hx. apply list_elem_of_fmap. exists y.
    split; [|done]. apply Hfg; [by left|by right|done].
  - apply IH; [|done]. intros y z Hy Hz. apply Hfg; by right.
Qed.

Lemma sorted_filter {A} (R : A → A → Prop) (P : A → bool) (l : list A) :
  StronglySorted R l → StronglySorted R (filter P l).
Proof.
  induction 1 as [|x l Hs IH Hf]; [constructor|]. rewrite filter_cons.
  case_decide; [|done]. constructor; [done|]. apply Forall_forall. intros y [_ Hy]%list_elem_of_filter.
  rewrite Forall_forall in Hf. by apply Hf.
Qed.

Lemma canonical_hosts l :
  canonical l →
  find_address_range (merge_sort Z.le (remove_dups (hosts l))) ≫= summarize_address_range
  = filter is_host l.
Proof.
  intros [Ha Hs Hn].
  assert (∀ x, x ∈ filter is_host l → aligned x ∧ is_host x = true) as Hx.
  { intros x [H1 H2]%list_elem_of_filter. rewrite Forall_forall in Ha. split; [by apply Ha|].
    by apply Is_true_true_1. }
  assert (half_distinct (hosts l)) as Hh.
  { unfold half_distinct, hosts. rewrite <- list_fmap_compose.
    apply (NoDup_fmap_coarser supernet).
    - intros x y X Y E. destruct (Hx x X), (Hx y Y). rewrite !host_supernet by done.
      simpl in E. by rewrite E.
    - eapply sublist_NoDup; [exact Hn|]. apply (fmap_sublist supernet), sublist_filter. }
  assert (NoDup (hosts l)) as Hnd by (unfold half_distinct in Hh; by apply NoDup_fmap_1 in Hh).
  assert (StronglySorted Z.le (hosts l)) as Hle.
  { unfold hosts. apply (sorted_filter _ is_host) in Hs. revert Hx Hs. generalize (filter is_host l).
    intros l'. induction l' as [|x l' IH]; intros Hx Hs; [constructor|].
    inversion Hs as [|?? Hs' Hf]; subst. constructor.
    - apply IH; [|done]. intros y Hy. apply Hx. by right.
    - apply Forall_fmap. eapply Forall_impl; [exact Hf|]. intros y Hy. unfold before in Hy. simpl.
      destruct (Hx x ltac:(by left)) as [H _]. destruct (covers_first x H) as [Hc _].
      unfold covers in Hc. lia. }
  rewrite remove_dups_NoDup by done.
  assert (merge_sort Z.le (hosts l) = hosts l) as ->.
  { apply (StronglySorted_unique Z.le); [apply (StronglySorted_merge_sort Z.le)|done|].
    apply merge_sort_Permutation. }
  transitivity (host_net <$> hosts l).
  - destruct (hosts l) as [|n ns]; [done|]. by apply ranges_of_singles.
  - unfold hosts. rewrite <- list_fmap_compose. rewrite <- (list_fmap_id (filter is_host l)) at 2.
    apply list_fmap_ext. intros i x Hi%list_elem_of_lookup_2. destruct (Hx x Hi) as [_ Hy%Z.eqb_eq].
    destruct x. simpl in *. by subst.
Qed.

Lemma merge_loop_distinct fuel tm d :
  length tm ≤ fuel → NoDup (supernet <$> tm) → (∀ x, x ∈ tm → dget (supernet x) d = None) →
  merge_loop fuel tm d = Some (d ++ ((λ x, (supernet x, x)) <$> tm)).
Proof.
  revert tm d. induction fuel as [|fuel IH]; intros [|x tm] d Hf Hn Hd; simpl in Hf;
    try lia; cbn [merge_loop]; [by rewrite app_nil_r..|].
  rewrite Hd by (by left). rewrite fmap_cons in Hn. apply NoDup_cons in Hn as [Hx Hn].
  rewrite IH; [|lia|done|].
  - rewrite dset_fresh by (apply Hd; by left). by rewrite <- app_assoc.
  - intros y Hy. rewrite dget_dset_ne; [apply Hd; by right|]. intros E. apply Hx. rewrite E.
    by apply list_elem_of_fmap_2.
Qed.

Lemma skip_canonical p l :
  Forall aligned l → StronglySorted before (p :: l) → skip_subsumed (Some p) l = l.
Proof.
  revert p. induction l as [|x l IH]; intros p Ha Hs; [done|]. cbn [skip_subsumed].
  inversion Ha as [|?? Hx Ha']; subst. inversion Hs as [|?? Hs' Hf]; subst.
  inversion Hf as [|?? Hb _]; subst. destruct (covers_first x Hx) as [Hc _].
  rewrite (proj2 (Z.leb_gt _ _)) by (unfold before, covers in *; lia). by rewrite IH.
Qed.

Lemma collapse_addresses_fixed l : canonical l → collapse_addresses l = l.
Proof.
  intros Hc. unfold collapse_addresses. fold (hosts l). cbv zeta. rewrite canonical_hosts by done.
  set (l' := filter is_host l ++ _). pose proof (split_hosts l : l' ≡ₚ l) as Hp.
  destruct Hc as [Ha Hs Hn]. unfold collapse_internal.
  assert (rev l' ≡ₚ l) as Hr by (rewrite <- Hp; symmetry; apply Permutation_rev).
  rewrite merge_loop_distinct.
  - simpl. unfold dvalues. rewrite <- list_fmap_compose. unfold compose. simpl. rewrite list_fmap_id.
    assert (merge_sort net_le (rev l') = l) as ->.
    { apply (StronglySorted_unique net_le); [apply (StronglySorted_merge_sort net_le)| |].
      - clear -Ha Hs. induction Hs as [|x l Hs IH Hf]; [constructor|].
        inversion Ha as [|?? Hx Ha']; subst. constructor; [by apply IH|].
        eapply Forall_impl; [exact Hf|]. intros y Hy. destruct (covers_first x Hx) as [Hc _].
        unfold covers, before, net_le in *. lia.
      - by rewrite merge_sort_Permutation. }
    destruct l as [|x l0]; [done|]. cbn [skip_subsumed]. f_equal.
    apply skip_canonical; [by inversion Ha|done].
  - rewrite length_rev. unfold merge_fuel. lia.
  - by rewrite Hr.
  - done.
Qed.

(** ** Printed networks parse back *)
Definition small : list Z := seqZ 0 256.
Definition plain_char (c : ascii) : bool :=
  negb (is_space c) && negb (Ascii.eqb "/"%char c).

Lemma octet_text_table :
  forallb (λ v, bool_decide (parse_octet (dec v) = Some v) && negb (contains_char "."%char (dec v))
                && str_all plain_char (dec v)) small = true.
Proof. vm_compute. reflexivity. Qed.

Lemma octet_text v :
  (0 ≤ v < 256)%Z → parse_octet (dec v) = Some v ∧ contains_char "."%char (dec v) = false
  ∧ str_all plain_char (dec v) = true.
Proof.
  intros Hv. pose proof octet_text_table as Ht. rewrite forallb_forall in Ht.
  specialize (Ht v). rewrite <- list_elem_of_In in Ht. unfold small in Ht. rewrite elem_of_seqZ in Ht.
  specialize (Ht ltac:(lia)). bool_hyps. done.
Qed.

Lemma prefix_text_table :
  forallb (λ l, bool_decide (make_netmask (dec l) = Some l)) (seqZ 0 33) = true.
Proof. vm_compute. reflexivity. Qed.

Lemma prefix_text l : (0 ≤ l ≤ 32)%Z → make_netmask (dec l) = Some l.
Proof.
  intros Hl. pose proof prefix_text_table as Ht. rewrite forallb_forall in Ht.
  specialize (Ht l). rewrite <- list_elem_of_In, elem_of_seqZ in Ht.
  specialize (Ht ltac:(lia)). by bool_hyps.
Qed.

Lemma addr_octets n :
  (0 ≤ n < 2 ^ 32)%Z →
  (0 ≤ n / 16777216 < 256 ∧ 0 ≤ n / 65536 mod 256 < 256 ∧ 0 ≤ n / 256 mod 256 < 256
   ∧ 0 ≤ n mod 256 < 256
   ∧ ((n / 16777216 * 256 + n / 65536 mod 256) * 256 + n / 256 mod 256) * 256 + n mod 256 = n)%Z.
Proof. intros Hn. Z.to_euclidean_division_equations. lia. Qed.

Lemma split_at_dot w s :
  contains_char "."%char w = false → str_split "."%char (w +:+ "." +:+ s) = w :: str_split "."%char s.
Proof. exact (str_split_app "."%char w s). Qed.

Lemma addr_text_parse n : (0 ≤ n < 2 ^ 32)%Z →
  parse_v4 (addr_text n) = Some n ∧ str_all plain_char (addr_text n) = true.
Proof.
  intros Hn. destruct (addr_octets n Hn) as (A & B & C & D & E).
  destruct (octet_text _ A) as (A1 & A2 & A3), (octet_text _ B) as (B1 & B2 & B3),
    (octet_text _ C) as (C1 & C2 & C3), (octet_text _ D) as (D1 & D2 & D3).
  unfold addr_text. split.
  - unfold parse_v4. rewrite !split_at_dot, str_split_single by done.
    rewrite A1, B1, C1, D1. simpl. by rewrite E.
  - rewrite !str_all_app, A3, B3, C3, D3. done.
Qed.

Lemma plain_no_slash s : str_all plain_char s = true → contains_char "/"%char s = false.
Proof.
  unfold contains_char, str_any. intros H. apply negb_false_iff. revert H.
  induction s as [|c s IH]; [done|]. cbn [str_all]. unfold plain_char at 1. intros H. bool_hyps.
  by rewrite IH, andb_true_r, negb_true_iff.
Qed.

(** [IPv4Network(str(x)) == x], also after stripping *)
Lemma net_text_parts x : aligned x →
  parse_v4 (addr_text x.1) = Some x.1 ∧ str_all plain_char (addr_text x.1) = true
  ∧ str_all plain_char (dec x.2) = true ∧ (0 ≤ x.2 ≤ 32)%Z.
Proof.
  intros Hx. pose proof (covers_range x x.1 Hx (proj1 (covers_first x Hx))) as Hr.
  destruct (addr_text_parse x.1 Hr) as [H1 H2]. pose proof Hx as (Hl & _)%aligned_iff.
  by destruct (octet_text x.2 ltac:(lia)) as (_ & _ & H3).
Qed.
Lemma net_text_reads x : aligned x → IPv4Network true (net_text x) = Some x.
Proof.
  intros Hx. destruct (net_text_parts x Hx) as (H1 & H2 & H3 & Hl).
  unfold net_text, IPv4Network. change ("/" +:+ ?s) with (String "/"%char s).
  rewrite str_split_app by (by apply plain_no_slash).
  rewrite str_split_single by (by apply plain_no_slash).
  rewrite H1. cbn [mbind option_bind]. rewrite prefix_text by done. cbn [mbind option_bind].
  pose proof (covers_range x x.1 Hx (proj1 (covers_first x Hx))) as Hr.
  pose proof (net_has_covers x x.1 Hx Hr) as [_ Hh]. specialize (Hh (proj1 (covers_first x Hx))).
  unfold net_has, in_net in Hh. rewrite Hh. by destruct x.
Qed.
Lemma net_text_parse x : aligned x → IPv4Network true (strip (net_text x)) = Some x.
Proof.
  intros Hx. destruct (net_text_parts x Hx) as (_ & H2 & H3 & _). rewrite strip_none; [by apply net_text_reads|].
  unfold net_text. rewrite !str_all_app.
  assert (∀ s, str_all plain_char s = true → str_all (λ c, negb (is_space c)) s = true) as Hsub.
  { induction s as [|c s IH]; [done|]. cbn [str_all]. unfold plain_char at 1. intros H. bool_hyps.
    rewrite IH by done. by rewrite andb_true_r, negb_true_iff. }
  rewrite (Hsub _ H2), (Hsub _ H3). done.
Qed.
(** A single address is a network of one. *)
Lemma addr_text_reads strict n : (0 ≤ n < 2 ^ 32)%Z → IPv4Network strict (addr_text n) = Some (n, 32%Z).
Proof.
  intros Hn. destruct (addr_text_parse n Hn) as [H1 H2]. unfold IPv4Network.
  rewrite str_split_single by (by apply plain_no_slash). by rewrite H1.
Qed.
Lemma IPv4Network_lax s x : IPv4Network true s = Some x → IPv4Network false s = Some x.
Proof.
  unfold IPv4Network. destruct (str_split "/"%char s) as [|a [|m [|]]]; try done.
  destruct (parse_v4 a); [|done]. simpl. destruct (make_netmask m); [|done]. simpl. by destruct (_ =? _)%Z.
Qed.

(** Parsed networks are blocks. *)
Lemma prefix_from_ip_int_bound n p : prefix_from_ip_int n = Some p → (0 ≤ p ≤ 32)%Z.
Proof.
  unfold prefix_from_ip_int. destruct (zero_bits_spec 32 n) as [H _]. cbv zeta.
  change (Z.of_nat 32) with 32%Z in H. revert H. generalize (zero_bits 32 n). intros z Hz.
  destruct (_ =? _)%Z; [|done]. intros [= <-]. lia.
Qed.

Lemma make_netmask_bound s p : make_netmask s = Some p → (0 ≤ p ≤ 32)%Z.
Proof.
  unfold make_netmask, prefix_from_string, prefix_from_ip_string. intros H.
  assert ((n ← parse_v4 s;
           match prefix_from_ip_int n with
           | Some p => Some p | None => prefix_from_ip_int (Z.lxor n (2 ^ 32 - 1))
           end) = Some p → (0 ≤ p ≤ 32)%Z) as Hip.
  { rewrite bind_Some. intros (n & _ & Hn). destruct (prefix_from_ip_int n) eqn:E; simplify_eq;
      by eapply prefix_from_ip_int_bound. }
  repeat case_match; simplify_eq; try (by apply Hip); bool_hyps; lia.
Qed.

Lemma IPv4Network_aligned s x : IPv4Network true s = Some x → aligned x.
Proof.
  unfold IPv4Network. destruct (str_split "/"%char s) as [|a [|m [|]]]; try done.
  - rewrite bind_Some. intros (n & Hn%parse_v4_bound & [= <-]). apply aligned_iff. cbn [fst snd].
    split; [lia|]. exists n. change (net_size 32) with 1%Z. lia.
  - rewrite bind_Some. intros (n & Hn%parse_v4_bound & H). rewrite bind_Some in H.
    destruct H as (l & Hl%make_netmask_bound & H). cbv zeta in H.
    destruct (Z.eqb_spec (Z.land n (IpAddress.netmask 32 l)) n) as [E|]; [|done]. simplify_eq.
    rewrite land_netmask in E by lia. apply aligned_iff. cbn [fst snd]. split; [done|].
    fold (net_size l) in E. exists (n / net_size l)%Z. pose proof (net_size_pos l ltac:(lia)).
    pose proof (net_size_split l Hl). split; [|done].
    split; [apply Z.div_pos; lia|apply Z.div_lt_upper_bound; lia].
Qed.
