(* ===== verification/NetworkSettings.v ===== *)
(** * Network policy settings (types.py, _network_policy.py)

    Validation of [InternetSettings] as Pydantic runs it (each field's
    validator, then the cross-field one) and of the options it is combined
    with.  Field validators report the first error, as [parse_network_policy]
    does. *)
From S2P Require Import Prelude PyDict PyStr PyUrl Types IpAddress IpNetwork.
From stdpp Require Import options sorting.
From Stdlib Require Import Ascii.

(** ** [InternetSettings] *)

Fixpoint parse_cidrs (values : list string) : outcome (list net4) :=
  match values with
  | [] => Ret []
  | v :: values' =>
      match IPv4Network true (strip v) with
      | Some network => rest ← parse_cidrs values'; Ret (network :: rest)
      | None =>
          match IPv4Network false (strip v) with
          | None => Raise (ValueError ("Invalid IPv4 address or range " +:+ repr v))
          | Some corrected =>
              Raise (ValueError ("Range " +:+ repr v +:+ " must start at its first address; use '"
                                 +:+ net_text corrected +:+ "'"))
          end
      end
  end.

(** 172.16.0.0/16 and 169.254.0.0/16 *)
Definition forbidden : list net4 := Eval vm_compute in
  omap (IPv4Network true) ["172.16.0.0/16"; "169.254.0.0/16"].

Definition normalize_cidrs (values : list string) : outcome (list string) :=
  networks ← parse_cidrs values;
  if existsb (λ network, existsb (overlaps network) forbidden) networks
  then Raise (ValueError "Celesto's internal 172.16.0.0/16 network and link-local addresses cannot be allowed; remove those ranges.")
  else Ret (net_text <$> collapse_addresses networks).

(** [urlparse]: [urlsplit] and the parameters of the last path segment. *)
Definition uses_params : list string :=
  [""; "ftp"; "hdl"; "prospero"; "http"; "https"; "shttp"; "rtsp"; "rtspu"; "sip"; "sips"; "mms";
   "sftp"; "tel"].
Definition split_params (path : string) : string * string :=
  match rpartition_char "/"%char path with
  | (Some dir, seg) =>
      match partition_char ";"%char seg with
      | (a, Some ps) => (dir +:+ "/" +:+ a, ps)
      | (_, None) => (path, "")
      end
  | (None, _) =>
      match partition_char ";"%char path with
      | (a, Some ps) => (a, ps)
      | (a, None) => (a, "")
      end
  end.
Definition urlparse (url : string) : outcome (SplitResult * string) :=
  r ← urlsplit url;
  if bool_decide (scheme r ∈ uses_params) && contains_char ";"%char (url_path r) then
    let '(path, params) := split_params (url_path r) in
    Ret ({| scheme := scheme r; netloc := netloc r; url_path := path; query := query r;
            fragment := fragment r |}, params)
  else Ret (r, "").

(** One entry of [allowed_domains], stripped and not empty. *)
Definition normalize_domain (entry : string) : outcome string :=
  if String.eqb entry "*" then Ret entry
  else if contains "://" entry then
    rp ← urlparse entry;
    let '(parsed, params) := rp in
    if truthy_str (url_username parsed) || truthy_str (url_password parsed)
    then Raise (ValueError ("allowed_domains entries must not contain credentials: " +:+ repr entry))
    else if negb (String.eqb (url_path parsed) "") && negb (String.eqb (url_path parsed) "/")
    then Raise (ValueError ("allowed_domains entries must be hostnames, not URLs with paths: "
                            +:+ repr entry))
    else if negb (String.eqb (query parsed) "") || negb (String.eqb (fragment parsed) "")
            || negb (String.eqb params "")
    then Raise (ValueError ("allowed_domains entries must be hostnames, not URLs with query/fragment: "
                            +:+ repr entry))
    else match url_hostname parsed with
         | Some hostname =>
             if String.eqb hostname "" then Raise (ValueError ("Could not extract hostname from: " +:+ repr entry))
             else Ret (lower hostname)
         | None => Raise (ValueError ("Could not extract hostname from: " +:+ repr entry))
         end
  else
    let hostname := default "" (head (str_split ":"%char entry)) in
    if String.eqb hostname ""
    then Raise (ValueError ("Could not extract hostname from: " +:+ repr entry))
    else Ret (lower hostname).

Fixpoint normalize_domain_list (v : list string) : outcome (list string) :=
  match v with
  | [] => Ret []
  | entry :: v' =>
      let entry := strip entry in
      if String.eqb entry "" then normalize_domain_list v'
      else d ← normalize_domain entry;
           rest ← normalize_domain_list v';
           Ret (d :: rest)
  end.
Definition normalize_domains (v : list string) : outcome (list string) :=
  normalized ← normalize_domain_list v;
  match normalized with
  | [] => Raise (ValueError "allowed_domains must contain at least one entry")
  | _ => Ret normalized
  end.

(** [seen] and [normalized] hold the same methods. *)
Fixpoint dedup_methods (seen v : list string) : list string :=
  match v with
  | [] => []
  | m :: v' =>
      let m := upper (strip m) in
      if String.eqb m "" || bool_decide (m ∈ seen) then dedup_methods seen v'
      else m :: dedup_methods (m :: seen) v'
  end.
Definition normalize_methods (v : list string) : outcome (list string) :=
  match dedup_methods [] v with
  | [] => Raise (ValueError "allowed_http_methods must contain at least one entry")
  | normalized => Ret normalized
  end.

Definition has_explicit_restrictions (s : InternetSettings) : bool :=
  match is_mode s with Some off_mode | Some restricted_mode | Some public_mode => true | _ => false end.

Definition is_allow_all_domains (s : InternetSettings) : bool :=
  negb (has_explicit_restrictions s) && bool_decide ("*" ∈ allowed_domains s).

Definition validate_policy (s : InternetSettings) : outcome InternetSettings :=
  if negb (bool_decide (allowed_http_methods s = ["*"]))
  then Raise (ValueError "HTTP method restrictions are unsupported; remove allowed_http_methods.")
  else if is_some (is_mode s) && negb (bool_decide (allowed_domains s = ["*"]))
  then Raise (ValueError "Use either mode or allowed_domains, not both; remove allowed_domains.")
  else if bool_decide (is_mode s = Some restricted_mode) && bool_decide (allowed_cidrs s = [])
  then Raise (ValueError "restricted requires allowed_cidrs; use mode='off' to deny all access.")
  else if negb (bool_decide (is_mode s = Some restricted_mode)) && negb (bool_decide (allowed_cidrs s = []))
  then Raise (ValueError "allowed_cidrs requires mode='restricted'; set that mode or remove the list.")
  else Ret s.

(** [InternetSettings.model_validate] of a dump with every field present. *)
Definition InternetSettings_model_validate (s : InternetSettings) : outcome InternetSettings :=
  cidrs ← normalize_cidrs (allowed_cidrs s);
  domains ← normalize_domains (allowed_domains s);
  methods ← normalize_methods (allowed_http_methods s);
  validate_policy {| is_mode := is_mode s; allowed_cidrs := cidrs; allowed_domains := domains;
                     allowed_http_methods := methods |}.

(** ** _network_policy.py *)

Definition parse_network_policy (s : InternetSettings) : outcome InternetSettings :=
  match InternetSettings_model_validate s with
  | Ret s' => Ret s'
  | Raise _ => Raise (ValidationError "Invalid internet_settings")
  end.

Record policy_options := {
  po_backend : string;
  po_guest_os : string;
  po_comm_channel : option string;
  has_mounts : bool;
  has_forwards : bool;
  network_mode : string;
  po_qemu_network : string }.

Section options.
(** [sys.platform] *)
Context (sys_platform : string).

Local Abbreviation eqs := String.eqb (only parsing).

Definition validate_qemu_restrictions (s : InternetSettings) (o : policy_options) : outcome unit :=
  _ ← guard_raise (bool_decide (is_mode s = Some restricted_mode)
                     && (negb (eqs sys_platform "linux") || negb (eqs (po_qemu_network o) "tap")))
    (ValidationError "QEMU address restrictions require Linux TAP networking");
  _ ← guard_raise ((negb (eqs sys_platform "linux") && negb (eqs sys_platform "darwin"))
                     || (eqs (po_qemu_network o) "tap" && negb (eqs sys_platform "linux")))
    (ValidationError "This QEMU network configuration is unsupported");
  guard_raise (eqs (po_qemu_network o) "tap" && has_forwards o)
    (ValidationError "QEMU TAP does not support port_forwards").

Definition validate_firecracker_restrictions (o : policy_options) : outcome unit :=
  _ ← guard_raise (negb (eqs (po_backend o) "firecracker") || negb (eqs sys_platform "linux"))
    (ValidationError "This network mode requires Linux Firecracker.");
  _ ← guard_raise (has_mounts o || has_forwards o)
    (ValidationError "This network mode cannot use shared folders or exposed ports");
  guard_raise (bool_decide (po_comm_channel o = Some "ssh"))
    (ValidationError "This network mode requires a direct command connection").

Definition validate_network_policy_options (s : InternetSettings) (o : policy_options) : outcome unit :=
  if is_allow_all_domains s then Ret tt
  else
    _ ← guard_raise (eqs (po_guest_os o) "windows" || eqs (po_guest_os o) "macos")
      (ValidationError "This guest does not support network restrictions.");
    _ ← guard_raise (negb (eqs (network_mode o) "nat"))
      (ValidationError "Network restrictions require private networking");
    if bool_decide (is_mode s = Some public_mode) then
      _ ← guard_raise (has_mounts o || has_forwards o)
        (ValidationError "The public network mode cannot use shared folders or exposed ports");
      guard_raise (negb (eqs (po_backend o) "qemu") || negb (eqs (po_qemu_network o) "slirp")
                   || (negb (eqs sys_platform "linux") && negb (eqs sys_platform "darwin")))
        (ValidationError "The public network mode requires QEMU on macOS or Linux")
    else if has_explicit_restrictions s then
      if eqs (po_backend o) "qemu" then validate_qemu_restrictions s o
      else validate_firecracker_restrictions o
    else
      guard_raise (negb (eqs (po_backend o) "firecracker")
                   && negb (eqs (po_backend o) "qemu" && eqs (po_qemu_network o) "tap"))
        (ValidationError "This configuration cannot enforce network restrictions.").
End options.

(** ** Address ranges *)
Lemma parse_cidrs_spec vs :
  (∃ nets, parse_cidrs vs = Ret nets
     ∧ Forall2 (λ v x, IPv4Network true (strip v) = Some x) vs nets)
  ∨ (∃ e v, parse_cidrs vs = Raise e ∧ v ∈ vs ∧ IPv4Network true (strip v) = None).
Proof.
  induction vs as [|v vs IH]; [left; eexists; split; [done|constructor]|]. cbn [parse_cidrs].
  destruct (IPv4Network true (strip v)) as [x|] eqn:E.
  - destruct IH as [(nets & -> & H)|(e & v' & -> & H1 & H2)].
    + left. eexists. split; [done|]. by constructor.
    + right. exists e, v'. split_and!; [done|by right|done].
  - right. destruct (IPv4Network false (strip v)); eexists _, v; split_and!; try done; by left.
Qed.

Lemma parse_cidrs_aligned vs nets :
  Forall2 (λ v x, IPv4Network true (strip v) = Some x) vs nets → Forall aligned nets.
Proof. induction 1; constructor; [by eapply IPv4Network_aligned|done]. Qed.

Lemma parse_cidrs_texts nets :
  Forall aligned nets → parse_cidrs (net_text <$> nets) = Ret nets.
Proof.
  induction 1 as [|x nets Hx _ IH]; [done|]. rewrite fmap_cons. cbn [parse_cidrs].
  rewrite net_text_parse by done. by rewrite IH.
Qed.

(** The two forbidden blocks. *)
Definition forbidden_addr (n : Z) : Prop := covered forbidden n.

Lemma forbidden_aligned : Forall aligned forbidden.
Proof. repeat constructor. Qed.

Lemma forbidden_check nets :
  Forall aligned nets →
  existsb (λ x, existsb (overlaps x) forbidden) nets = true ↔ ∃ n, covered nets n ∧ forbidden_addr n.
Proof.
  intros Ha. pose proof forbidden_aligned as Hf. rewrite Forall_forall in Ha, Hf.
  rewrite existsb_exists. setoid_rewrite existsb_exists. unfold forbidden_addr, covered.
  setoid_rewrite <- list_elem_of_In. split.
  - intros (x & Hx & y & Hy & (n & H1 & H2)%overlaps_iff); [|by apply Ha|by apply Hf]. eauto 10.
  - intros (n & (x & Hx & H1) & (y & Hy & H2)). exists x. split; [done|]. exists y. split; [done|].
    apply overlaps_iff; [by apply Ha|by apply Hf|]. eauto.
Qed.

Lemma normalize_cidrs_ok nets :
  Forall aligned nets → (∀ n, covered nets n → ¬ forbidden_addr n) →
  existsb (λ x, existsb (overlaps x) forbidden) nets = false.
Proof.
  intros Ha Hn. apply not_true_iff_false. intros (n & H1 & H2)%forbidden_check; [|done].
  by apply (Hn n).
Qed.

Lemma normalize_cidrs_spec vs :
  match normalize_cidrs vs with
  | Ret out => ∃ nets outs,
      Forall2 (λ v x, IPv4Network true (strip v) = Some x) vs nets ∧ out = net_text <$> outs
      ∧ canonical outs ∧ (∀ n, covered outs n ↔ covered nets n)
      ∧ (∀ n, covered outs n → ¬ forbidden_addr n)
  | Raise _ =>
      (∃ v, v ∈ vs ∧ IPv4Network true (strip v) = None)
      ∨ (∃ v x n, v ∈ vs ∧ IPv4Network true (strip v) = Some x ∧ covers x n ∧ forbidden_addr n)
  end.
Proof.
  unfold normalize_cidrs. destruct (parse_cidrs_spec vs) as [(nets & -> & H)|(e & v & -> & H1 & H2)].
  2: { cbn [mbind outcome_bind]. eauto. }
  cbn [mbind outcome_bind]. pose proof (parse_cidrs_aligned vs nets H) as Ha.
  pose proof (forbidden_check nets Ha) as Hf. destruct (existsb _ nets).
  - right. destruct (proj1 Hf eq_refl) as (n & (x & Hx & Hc) & Hb).
    apply list_elem_of_lookup in Hx as [i Hi]. destruct (Forall2_lookup_r _ _ _ _ _ H Hi) as (v & Hv & Hp).
    exists v, x, n. split_and!; try done. by eapply list_elem_of_lookup_2.
  - exists nets, (collapse_addresses nets). destruct (collapse_addresses_spec nets Ha) as [C1 C2].
    split_and!; try done. intros n Hn Hb. apply C2 in Hn. assert (false = true); [|done]. apply Hf. eauto.
Qed.

Lemma normalize_cidrs_fixed vs out : normalize_cidrs vs = Ret out → normalize_cidrs out = Ret out.
Proof.
  intros H. pose proof (normalize_cidrs_spec vs) as Hs. rewrite H in Hs.
  destruct Hs as (nets & outs & _ & -> & Hc & _ & Hf). unfold normalize_cidrs.
  rewrite parse_cidrs_texts by apply Hc. cbn [mbind outcome_bind].
  rewrite normalize_cidrs_ok by (try done; apply Hc). by rewrite collapse_addresses_fixed.
Qed.

(** ** Names and methods *)
Lemma lower_lower s : lower (lower s) = lower s.
Proof.
  unfold lower. induction s as [|c s IH]; [done|]. cbn [str_map]. rewrite IH. f_equal.
  destruct c as [[] [] [] [] [] [] [] []]; reflexivity.
Qed.
Lemma lower_empty s : lower s = "" ↔ s = "".
Proof. by destruct s. Qed.

(** A stored name that is neither padded nor an IPv6 literal. *)
Definition plain_name (s : string) : bool :=
  String.eqb (strip s) s && negb (contains_char ":"%char s).

Lemma contains_scheme s : contains_char ":"%char s = false → contains "://" s = false.
Proof.
  unfold contains_char, str_any. rewrite negb_false_iff. induction s as [|c s IH]; [done|].
  cbn [str_all contains]. rewrite andb_true_iff, negb_true_iff. intros [Hc Hs].
  rewrite IH by done. rewrite orb_false_r. apply Ascii.eqb_neq in Hc.
  cbn [String.prefix]. by destruct (ascii_dec ":" c).
Qed.

(** What a successful normalization returns is lower case and not empty. *)
Lemma normalize_domain_lower e d :
  e ≠ "" → normalize_domain e = Ret d → d ≠ "" ∧ lower d = d.
Proof.
  intros He. unfold normalize_domain. destruct (String.eqb_spec e "*") as [->|]; [by intros [= <-]|].
  destruct (contains "://" e).
  - destruct (urlparse e) as [[r ps]|]; [|done]. cbn [mbind outcome_bind]. repeat case_match; try done.
    intros [= <-]. bool_hyps. split; [by rewrite lower_empty|apply lower_lower].
  - destruct (String.eqb_spec (default "" (head (str_split ":"%char e))) ""); [done|].
    intros [= <-]. split; [by rewrite lower_empty|apply lower_lower].
Qed.

Lemma normalize_domain_fixed d :
  d ≠ "" → lower d = d → plain_name d = true → normalize_domain d = Ret d.
Proof.
  unfold plain_name. intros Hd Hl Hp. bool_hyps. unfold normalize_domain.
  destruct (String.eqb_spec d "*"); [done|]. rewrite contains_scheme by done.
  rewrite str_split_single by done. change (default "" (head [d])) with d. cbv zeta.
  destruct (String.eqb_spec d ""); [done|]. by rewrite Hl.
Qed.

Lemma normalize_domain_list_spec v out :
  normalize_domain_list v = Ret out → Forall (λ d, d ≠ "" ∧ lower d = d) out.
Proof.
  revert out. induction v as [|e v IH]; intros out; cbn [normalize_domain_list]; [by intros [= <-]|].
  destruct (String.eqb_spec (strip e) ""); [apply IH|].
  destruct (normalize_domain (strip e)) as [d|] eqn:Ed; [|done]. cbn [mbind outcome_bind].
  destruct (normalize_domain_list v) as [rest|]; [|done]. intros [= <-].
  constructor; [by eapply normalize_domain_lower|by apply IH].
Qed.

Lemma normalize_domain_list_fixed out :
  Forall (λ d, d ≠ "" ∧ lower d = d) out → forallb plain_name out = true →
  normalize_domain_list out = Ret out.
Proof.
  induction 1 as [|d out [Hd Hl] _ IH]; [done|]. cbn [forallb normalize_domain_list].
  rewrite andb_true_iff. intros [Hp Hps]. pose proof Hp as Hp'. unfold plain_name in Hp'. bool_hyps.
  match goal with H : strip d = d |- _ => rewrite H end. destruct (String.eqb_spec d ""); [done|].
  rewrite normalize_domain_fixed by done. cbn [mbind outcome_bind]. by rewrite IH.
Qed.

Lemma normalize_domains_fixed v out :
  normalize_domains v = Ret out → forallb plain_name out = true → normalize_domains out = Ret out.
Proof.
  unfold normalize_domains. destruct (normalize_domain_list v) as [l|] eqn:E; [|done].
  cbn [mbind outcome_bind]. intros Hl Hp. assert (out = l ∧ l ≠ []) as [-> Hne] by (destruct l; naive_solver).
  rewrite normalize_domain_list_fixed; [|by eapply normalize_domain_list_spec|done].
  cbn [mbind outcome_bind]. by destruct l.
Qed.

Lemma InternetSettings_fixed raw s :
  InternetSettings_model_validate raw = Ret s → forallb plain_name (allowed_domains s) = true →
  InternetSettings_model_validate s = Ret s.
Proof.
  unfold InternetSettings_model_validate.
  destruct (normalize_cidrs (allowed_cidrs raw)) as [cs|] eqn:Ec; [|done]. cbn [mbind outcome_bind].
  destruct (normalize_domains (allowed_domains raw)) as [ds|] eqn:Ed; [|done]. cbn [mbind outcome_bind].
  destruct (normalize_methods (allowed_http_methods raw)) as [ms|]; [|done]. cbn [mbind outcome_bind].
  set (s0 := Build_InternetSettings _ _ _ _). intros Hv Hp.
  assert (s = s0 ∧ ms = ["*"]) as [-> Hm].
  { unfold validate_policy in Hv. repeat case_match; simplify_eq. bool_hyps. done. }
  unfold s0 in *. cbn [allowed_cidrs allowed_domains allowed_http_methods is_mode] in *.
  rewrite (normalize_cidrs_fixed _ _ Ec). cbn [mbind outcome_bind].
  rewrite (normalize_domains_fixed _ _ Ed Hp). cbn [mbind outcome_bind]. subst ms.
  change (normalize_methods ["*"]) with (Ret ["*"]). cbn [mbind outcome_bind]. exact Hv.
Qed.

(** ** Claims *)

(** C35: the ranges stored for a restricted computer allow exactly the addresses
    of the ranges given, as disjoint blocks in address order no two of which
    could merge, and never an address of the internal or link-local networks;
    the input is refused exactly when an entry is not a network or reaches
    one of those. *)
Theorem cidrs_allow_exactly vs :
  (∀ out, normalize_cidrs vs = Ret out → ∃ nets outs,
     Forall2 (λ v x, IPv4Network true (strip v) = Some x) vs nets ∧ out = net_text <$> outs
     ∧ canonical outs ∧ (∀ n, covered outs n ↔ covered nets n)
     ∧ (∀ n, covered outs n → ¬ forbidden_addr n))
  ∧ (raised (normalize_cidrs vs) = true ↔
     (∃ v, v ∈ vs ∧ IPv4Network true (strip v) = None)
     ∨ (∃ v x n, v ∈ vs ∧ IPv4Network true (strip v) = Some x ∧ covers x n ∧ forbidden_addr n)).
Proof.
  pose proof (normalize_cidrs_spec vs) as Hs. destruct (normalize_cidrs vs) as [out|e].
  - split; [by intros ? [= <-]|]. split; [done|]. destruct Hs as (nets & outs & H & _ & _ & Hc & Hf).
    assert (∀ v, v ∈ vs → ∃ x, IPv4Network true (strip v) = Some x ∧ x ∈ nets) as Hin.
    { intros v [i Hi]%list_elem_of_lookup. destruct (Forall2_lookup_l _ _ _ _ _ H Hi) as (x & Hx & E).
      exists x. split; [done|]. by eapply list_elem_of_lookup_2. }
    intros [(v & Hv & E)|(v & x & n & Hv & E & Hx & Hb)].
    + destruct (Hin v Hv) as (x & E' & _). congruence.
    + destruct (Hin v Hv) as (x' & E' & Hx'). simplify_eq. exfalso. apply (Hf n); [|done].
      apply Hc. by exists x.
  - split; [done|]. split; [intros _; exact Hs|done].
Qed.

(** Validating stored settings again changes nothing, as long as no stored
    name is padded or an IPv6 literal: what the execution boundary checks is
    what was accepted when the computer was described. *)
Theorem settings_revalidate raw s :
  InternetSettings_model_validate raw = Ret s → forallb plain_name (allowed_domains s) = true →
  parse_network_policy s = Ret s.
Proof.
  intros Hv Hp. unfold parse_network_policy. by rewrite (InternetSettings_fixed raw s).
Qed.

(** The combinations that can enforce a policy, by its kind. *)
Definition supported (sys_platform : string) (s : InternetSettings) (o : policy_options) : Prop :=
  let unix := sys_platform = "linux" ∨ sys_platform = "darwin" in
  let firecracker := po_backend o = "firecracker" ∧ sys_platform = "linux" ∧ has_mounts o = false
                     ∧ has_forwards o = false ∧ po_comm_channel o ≠ Some "ssh" in
  po_guest_os o ≠ "windows" ∧ po_guest_os o ≠ "macos" ∧ network_mode o = "nat"
  ∧ match is_mode s with
    | Some public_mode => po_backend o = "qemu" ∧ po_qemu_network o = "slirp" ∧ unix
                          ∧ has_mounts o = false ∧ has_forwards o = false
    | Some restricted_mode =>
        firecracker ∨ (po_backend o = "qemu" ∧ po_qemu_network o = "tap" ∧ sys_platform = "linux"
                       ∧ has_forwards o = false)
    | Some off_mode =>
        firecracker ∨ (po_backend o = "qemu" ∧ unix
                       ∧ (po_qemu_network o = "tap" → sys_platform = "linux" ∧ has_forwards o = false))
    | Some open_mode | None =>
        po_backend o = "firecracker" ∨ (po_backend o = "qemu" ∧ po_qemu_network o = "tap")
    end.

Lemma guard_done c e : guard_raise c e = Ret tt ↔ c = false.
Proof. unfold guard_raise. destruct c; naive_solver. Qed.
Lemma guard_then c e (k : outcome unit) : guard_raise c e ≫= (λ _, k) = Ret tt ↔ c = false ∧ k = Ret tt.
Proof. unfold guard_raise. destruct c; naive_solver. Qed.
Lemma not_flag2 g : String.eqb g "windows" || String.eqb g "macos" = false ↔ g ≠ "windows" ∧ g ≠ "macos".
Proof. by rewrite orb_false_iff, !String.eqb_neq. Qed.
Lemma negb_eqb (x y : string) : negb (String.eqb x y) = false ↔ x = y.
Proof. by rewrite negb_false_iff, String.eqb_eq. Qed.

Lemma unix_flag p :
  negb (String.eqb p "linux") && negb (String.eqb p "darwin") = false ↔ p = "linux" ∨ p = "darwin".
Proof. by rewrite andb_false_iff, !negb_eqb. Qed.

Lemma public_flag p o :
  negb (String.eqb (po_backend o) "qemu") || negb (String.eqb (po_qemu_network o) "slirp")
  || (negb (String.eqb p "linux") && negb (String.eqb p "darwin")) = false
  ↔ po_backend o = "qemu" ∧ po_qemu_network o = "slirp" ∧ (p = "linux" ∨ p = "darwin").
Proof. rewrite !orb_false_iff, !negb_eqb, unix_flag. tauto. Qed.

Lemma enforceable_domains o :
  negb (String.eqb (po_backend o) "firecracker")
  && negb (String.eqb (po_backend o) "qemu" && String.eqb (po_qemu_network o) "tap") = false
  ↔ po_backend o = "firecracker" ∨ (po_backend o = "qemu" ∧ po_qemu_network o = "tap").
Proof. by rewrite andb_false_iff, negb_eqb, negb_false_iff, andb_true_iff, !String.eqb_eq. Qed.

Lemma qemu_restrictions_exact p s o :
  validate_qemu_restrictions p s o = Ret tt ↔
  (is_mode s = Some restricted_mode → p = "linux" ∧ po_qemu_network o = "tap")
  ∧ (p = "linux" ∨ p = "darwin")
  ∧ (po_qemu_network o = "tap" → p = "linux" ∧ has_forwards o = false).
Proof.
  unfold validate_qemu_restrictions.
  rewrite !guard_then, guard_done, orb_false_iff, unix_flag, !andb_false_iff, orb_false_iff, !negb_eqb.
  rewrite bool_decide_eq_false, String.eqb_neq.
  destruct (decide (is_mode s = Some restricted_mode)), (decide (po_qemu_network o = "tap")); tauto.
Qed.

Lemma firecracker_restrictions_exact p o :
  validate_firecracker_restrictions p o = Ret tt ↔
  po_backend o = "firecracker" ∧ p = "linux" ∧ has_mounts o = false ∧ has_forwards o = false
  ∧ po_comm_channel o ≠ Some "ssh".
Proof.
  unfold validate_firecracker_restrictions.
  rewrite !guard_then, guard_done, !orb_false_iff, !negb_eqb, bool_decide_eq_false. tauto.
Qed.

(** The options check accepts exactly unrestricted settings and the
    combinations of guest, backend, network and platform that can enforce the
    requested policy; everything else is refused before anything starts. *)
Theorem policy_options_exact sys_platform s o :
  validate_network_policy_options sys_platform s o = Ret tt
  ↔ is_allow_all_domains s = true ∨ (is_allow_all_domains s = false ∧ supported sys_platform s o).
Proof.
  unfold validate_network_policy_options. destruct (is_allow_all_domains s); [naive_solver|].
  rewrite !guard_then, not_flag2, negb_eqb. unfold supported, has_explicit_restrictions.
  destruct (is_mode s) as [[]|] eqn:Hm; rewrite ?bool_decide_eq_true_2, ?bool_decide_eq_false_2 by done.
  - rewrite guard_done, enforceable_domains. naive_solver.
  - destruct (String.eqb_spec (po_backend o) "qemu") as [Hb|Hb].
    + rewrite qemu_restrictions_exact, Hm. rewrite Hb. naive_solver.
    + rewrite firecracker_restrictions_exact. naive_solver.
  - destruct (String.eqb_spec (po_backend o) "qemu") as [Hb|Hb].
    + rewrite qemu_restrictions_exact, Hm. rewrite Hb. naive_solver.
    + rewrite firecracker_restrictions_exact. naive_solver.
  - rewrite guard_then, guard_done, orb_false_iff, public_flag. naive_solver.
  - rewrite guard_done, enforceable_domains. naive_solver.
Qed.

(** A stored IPv6 literal does not survive revalidation: the second pass reads
    it as a name with a port. *)
Lemma ipv6_name_changes_on_revalidation :
  normalize_domains ["http://[2001:db8::1]"] = Ret ["2001:db8::1"]
  ∧ normalize_domains ["2001:db8::1"] = Ret ["2001"].
Proof. vm_compute. done. Qed.

(** ** Witnesses *)
Definition demo_raw : InternetSettings :=
  {| is_mode := Some restricted_mode; allowed_cidrs := ["10.0.1.0/24"; " 10.0.0.0/255.255.255.0"];
     allowed_domains := ["*"]; allowed_http_methods := ["*"] |}.
Definition demo_settings : InternetSettings :=
  {| is_mode := Some restricted_mode; allowed_cidrs := ["10.0.0.0/23"];
     allowed_domains := ["*"]; allowed_http_methods := ["*"] |}.

Lemma settings_revalidate_witness :
  InternetSettings_model_validate demo_raw = Ret demo_settings
  ∧ parse_network_policy demo_settings = Ret demo_settings.
Proof.
  assert (InternetSettings_model_validate demo_raw = Ret demo_settings) as H by (vm_compute; reflexivity).
  split; [exact H|]. apply (settings_revalidate demo_raw demo_settings H). vm_compute. reflexivity.
Defined.

Lemma cidrs_allow_exactly_witness :
  normalize_cidrs ["10.0.0.1"; "10.0.0.0"] = Ret ["10.0.0.0/31"]
  ∧ ∃ nets outs, Forall2 (λ v x, IPv4Network true (strip v) = Some x) ["10.0.0.1"; "10.0.0.0"] nets
    ∧ ["10.0.0.0/31"] = net_text <$> outs ∧ (∀ n, covered outs n ↔ covered nets n).
Proof.
  assert (normalize_cidrs ["10.0.0.1"; "10.0.0.0"] = Ret ["10.0.0.0/31"]) as H by (vm_compute; reflexivity).
  split; [exact H|].
  destruct (cidrs_allow_exactly ["10.0.0.1"; "10.0.0.0"]) as [H1 _].
  destruct (H1 _ H) as (nets & outs & A & B & _ & C & _). by exists nets, outs.
Defined.
