(* ===== verification/Env.v ===== *)
(** * env.py: environment variables kept in the guest

    The script written to [/etc/profile.d/celesto_env.sh], the parser that
    reads it back through [shlex], and the operations that merge into it and
    remove from it.  The guest is reached through a channel, of which the code
    relies on two commands: printing the file and replacing it. *)
From S2P Require Import Prelude PyDict PyStr IpAddress PyUrl Types.
From stdpp Require Import options sorting.
From Stdlib Require Import Ascii.

(** ** shlex *)
Definition newline : ascii := Ascii.ascii_of_nat 10.

(** [\w] under [re.ASCII], and the characters [shlex.quote] leaves alone *)
Definition is_word (c : ascii) : bool := is_alpha c || is_digit c || Ascii.eqb c "_"%char.
Definition safe_char (c : ascii) : bool :=
  is_word c || bool_decide (c ∈ ["@"; "%"; "+"; "="; ":"; ","; "."; "/"; "-"]%char).

Fixpoint replace_squotes (s : string) : string :=
  match s with
  | "" => ""
  | String c s' =>
      if Ascii.eqb c squote
      then String squote (String dquote (String squote (String dquote (String squote (replace_squotes s')))))
      else String c (replace_squotes s')
  end.

(** [shlex.quote] *)
Definition shell_quote (s : string) : string :=
  if String.eqb s "" then String squote (String squote "")
  else if str_all safe_char s then s
  else String squote (replace_squotes s +:+ String squote "").

(** [shlex.shlex(s, posix=True)] with [whitespace_split]: the state of the
    lexer, with the state an escape returns to.  [LComment] is the
    [readline()] that skips a comment. *)
Inductive lex_state := LSpace | LWord | LQuote (q : ascii) | LEscape (back : option ascii) | LComment.

Definition lex_space (c : ascii) : bool :=
  bool_decide (c ∈ [" "%char; Ascii.ascii_of_nat 9; Ascii.ascii_of_nat 13; newline]).
Definition lex_quote (c : ascii) : bool := Ascii.eqb c squote || Ascii.eqb c dquote.
Definition add_char (s : string) (c : ascii) : string := s +:+ String c "".
Definition emit (tok : string) (quoted : bool) (rest : option (list string)) : option (list string) :=
  if negb (String.eqb tok "") || quoted then cons tok <$> rest else rest.

(** The tokens of the text; [None] is the [ValueError] of an open quotation or
    a trailing escape. *)
Fixpoint lex (st : lex_state) (tok : string) (quoted : bool) (s : string) : option (list string) :=
  match s with
  | "" =>
      match st with
      | LQuote _ | LEscape _ => None
      | LSpace | LWord | LComment => emit tok quoted (Some [])
      end
  | String c s' =>
      match st with
      | LSpace =>
          if lex_space c then
            if negb (String.eqb tok "") || quoted then cons tok <$> lex LSpace "" false s'
            else lex LSpace tok quoted s'
          else if Ascii.eqb c "#"%char then lex LComment tok quoted s'
          else if Ascii.eqb c backslash then lex (LEscape None) tok quoted s'
          else if lex_quote c then lex (LQuote c) tok quoted s'
          else lex LWord (String c "") quoted s'
      | LQuote q =>
          if Ascii.eqb c q then lex LWord tok true s'
          else if Ascii.eqb c backslash && Ascii.eqb q dquote then lex (LEscape (Some q)) tok true s'
          else lex (LQuote q) (add_char tok c) true s'
      | LEscape back =>
          let tok := match back with
                     | Some q => if negb (Ascii.eqb c backslash) && negb (Ascii.eqb c q)
                                 then add_char tok backslash else tok
                     | None => tok
                     end in
          lex (match back with Some q => LQuote q | None => LWord end) (add_char tok c) quoted s'
      | LWord =>
          if lex_space c then
            if negb (String.eqb tok "") || quoted then cons tok <$> lex LSpace "" false s'
            else lex LSpace tok quoted s'
          else if Ascii.eqb c "#"%char then
            if negb (String.eqb tok "") || quoted then cons tok <$> lex LComment "" false s'
            else lex LComment tok quoted s'
          else if lex_quote c then lex (LQuote c) tok quoted s'
          else if Ascii.eqb c backslash then lex (LEscape None) tok quoted s'
          else lex LWord (add_char tok c) quoted s'
      | LComment =>
          if Ascii.eqb c newline then lex LSpace tok quoted s' else lex LComment tok quoted s'
      end
  end.
Definition shlex_tokens (s : string) : option (list string) := lex LSpace "" false s.

(** ** Keys and the script *)
Definition is_key_start (c : ascii) : bool := is_alpha c || Ascii.eqb c "_"%char.
Definition ident (k : string) : bool :=
  match k with String c k' => is_key_start c && str_all is_word k' | "" => false end.

(** [_VALID_KEY_RE.match(key)]: [$] also matches before a final newline. *)
Fixpoint chop_newline (k : string) : string :=
  match k with
  | "" => ""
  | String c k' => if Ascii.eqb c newline && String.eqb k' "" then "" else String c (chop_newline k')
  end.
Definition valid_key (k : string) : bool := ident k || ident (chop_newline k).

Definition validate_env_key (k : string) : outcome unit :=
  _ ← guard_raise (String.eqb k "") (ValueError "Environment variable key cannot be empty");
  guard_raise (negb (valid_key k)) (ValueError ("Invalid environment variable key: " +:+ repr k)).

(** The order of [sorted] on the items: by key. *)
Definition item_le (x y : string * string) : Prop := String.leb x.1 y.1 = true.
#[global] Instance item_le_dec : RelDecision item_le.
Proof. intros x y. unfold item_le. apply _. Defined.

Definition export_line (kv : string * string) : string :=
  "export " +:+ kv.1 +:+ "=" +:+ shell_quote kv.2.

Fixpoint export_lines (items : list (string * string)) : outcome (list string) :=
  match items with
  | [] => Ret []
  | kv :: items' =>
      _ ← validate_env_key kv.1;
      rest ← export_lines items';
      Ret (export_line kv :: rest)
  end.

Definition build_env_script (env_vars : dict string string) : outcome string :=
  match env_vars with
  | [] => Ret ("# Celesto environment variables (empty)" +:+ String newline "")
  | _ =>
      lines ← export_lines (merge_sort item_le env_vars);
      Ret (str_join (String newline "")
             (["#!/bin/sh"; "# Celesto managed environment variables"; ""] ++ lines ++ [""]))
  end.

(** [str.splitlines()] on ASCII text *)
Definition is_line_break (c : ascii) : bool :=
  ((10 <=? code c)%Z && (code c <=? 13)%Z) || ((28 <=? code c)%Z && (code c <=? 30)%Z).
Fixpoint splitlines_from (cur : string) (after_cr : bool) (s : string) : list string :=
  match s with
  | "" => if String.eqb cur "" then [] else [cur]
  | String c s' =>
      if after_cr && Ascii.eqb c newline && String.eqb cur "" then splitlines_from "" false s'
      else if is_line_break c then cur :: splitlines_from "" (code c =? 13)%Z s'
      else splitlines_from (add_char cur c) false s'
  end.
Definition splitlines (s : string) : list string := splitlines_from "" false s.

(** One line of the file: the binding it sets, if any. *)
Definition parse_line (line : string) : option (string * string) :=
  let line := strip line in
  if negb (startswith "export " line) then None
  else match partition_char "="%char (drop_str 7 line) with
  | (_, None) => None
  | (key, Some raw_value) =>
      match shlex_tokens raw_value with
      | Some tokens => Some (key, default "" (head tokens))
      | None => None
      end
  end.
Definition parse_env (text : string) : dict string string :=
  fold_left (λ d line, match parse_line line with Some kv => dset kv.1 kv.2 d | None => d end)
    (splitlines text) [].

(** ** The operations on a guest *)
Record CommandResult := { exit_code : Z; stdout : string; stderr : string }.
Definition ok (r : CommandResult) : bool := (exit_code r =? 0)%Z.

Definition ENV_FILE : string := "/etc/profile.d/celesto_env.sh".
Definition env_dir : string := "/etc/profile.d".

(** The command line of [read_env_vars]. *)
Definition cat_command : string := "cat " +:+ ENV_FILE +:+ " 2>/dev/null || true".

(** The command line of [_atomic_write], around the encoded text. *)
Definition quoted_tmp : string := String dquote ("$_t" +:+ String dquote "").
Definition write_prefix : string :=
  "set -e; mkdir -p " +:+ env_dir +:+ "; _t=$(mktemp " +:+ env_dir +:+ "/.celesto_env.XXXXXXXXXX); "
  +:+ "trap 'rm -f " +:+ quoted_tmp +:+ "' EXIT; printf '%s' '".
Definition write_suffix : string :=
  "' | base64 -d > " +:+ quoted_tmp +:+ "; chmod 0644 " +:+ quoted_tmp +:+ "; mv " +:+ quoted_tmp
  +:+ " " +:+ ENV_FILE.
Definition write_command (content : string) : string := write_prefix +:+ b64encode content +:+ write_suffix.

(** The guest behind a [CommChannel]: its environment file, and [run]. *)
Class EnvChannel (G : Type) := {
  env_file : G → option string;
  run : string → py G CommandResult }.

(** What the guest's shell does with the two command lines.  Reading changes
    nothing and, when it succeeds, prints the file.  A replacement reaches the
    file with one [rename(2)], so the file is afterwards the old one or holds
    the text; under [set -e] a zero exit means the rename took place.  Nothing
    more is known of a command that fails or of a [run] that raises: a timeout
    or a lost connection may come before or after the rename. *)
Class EnvChannelLaws (G : Type) `{EnvChannel G} := {
  cat_keeps : ∀ g, (run cat_command g).1 = g;
  cat_prints : ∀ g r, (run cat_command g).2 = Ret r → ok r = true → stdout r = default "" (env_file g);
  write_renames : ∀ t g, let '(g', o) := run (write_command t) g in
    (env_file g' = env_file g ∨ env_file g' = Some t)
    ∧ ∀ r, o = Ret r → ok r = true → env_file g' = Some t }.

Section guest.
Context {G : Type} `{EnvChannel G}.

Definition _atomic_write (content : string) : py G CommandResult := run (write_command content).

Definition read_env_vars : py G (dict string string) :=
  let! result := run cat_command in
  if negb (ok result) then py_return [] else py_return (parse_env (stdout result)).

Fixpoint validate_keys (ks : list string) : outcome unit :=
  match ks with [] => Ret tt | k :: ks' => _ ← validate_env_key k; validate_keys ks' end.

(** [d.update(new)] *)
Definition dupdate (d new : dict string string) : dict string string :=
  fold_left (λ d kv, dset kv.1 kv.2 d) new d.

(** The end of both operations: rewrite the file, raise when that failed. *)
Definition rewrite_file {A} (failure : string) (vars : dict string string) (ret : A) : py G A :=
  let! script_content := py_lift (build_env_script vars) in
  let! result := _atomic_write script_content in
  if negb (ok result) then py_raise (CelestoError (failure +:+ strip (stderr result)))
  else py_return ret.

Definition inject_env_vars (env_vars : dict string string) (merge : bool) : py G (list string) :=
  match env_vars with
  | [] => py_return []
  | _ =>
      do! py_lift (validate_keys (dkeys env_vars)) in
      let! final_vars := if merge then let! existing := read_env_vars in
                                       py_return (dupdate existing env_vars)
                         else py_return env_vars in
      rewrite_file "Failed to inject environment variables: " final_vars
        (merge_sort str_le (dkeys final_vars))
  end.

(** The loop of [remove_env_vars]: what is left and what was taken out. *)
Fixpoint pop_keys (ks : list string) (current removed : dict string string)
    : dict string string * dict string string :=
  match ks with
  | [] => (current, removed)
  | k :: ks' =>
      match dget k current with
      | Some v => pop_keys ks' (ddel k current) (dset k v removed)
      | None => pop_keys ks' current removed
      end
  end.

Definition remove_env_vars (keys : list string) : py G (dict string string) :=
  match keys with
  | [] => py_return []
  | _ =>
      let! current := read_env_vars in
      let '(current, removed) := pop_keys keys current [] in
      match removed with
      | [] => py_return []
      | _ => rewrite_file "Failed to update environment file: " current removed
      end
  end.
End guest.

(** ** Quoting *)
Lemma add_char_app a c b : add_char a c +:+ b = a +:+ String c b.
Proof.
  unfold add_char. induction a as [|x a IH]; [done|].
  change (String x a +:+ String c "") with (String x (a +:+ String c "")).
  change (String x (a +:+ String c "") +:+ b) with (String x ((a +:+ String c "") +:+ b)).
  change (String x a +:+ String c b) with (String x (a +:+ String c b)). by rewrite IH.
Qed.
Lemma add_char_nonempty a c : String.eqb (add_char a c) "" = false.
Proof. by destruct a. Qed.

Definition safe_plain (c : ascii) : bool :=
  negb (lex_space c) && negb (Ascii.eqb c "#"%char) && negb (Ascii.eqb c backslash)
  && negb (lex_quote c) && negb (is_space c).
Lemma safe_char_plain c : safe_char c = true → safe_plain c = true.
Proof. destruct c as [[] [] [] [] [] [] [] []]; vm_compute; congruence. Qed.

Lemma lex_safe s tok rest :
  str_all safe_char s = true → lex LWord tok false (s +:+ rest) = lex LWord (tok +:+ s) false rest.
Proof.
  revert tok. induction s as [|c s IH]; intros tok Hs; [by rewrite str_app_nil_r|].
  cbn [str_all] in Hs. apply andb_true_iff in Hs as [Hc%safe_char_plain Hs].
  unfold safe_plain in Hc. bool_hyps. change (String c s +:+ rest) with (String c (s +:+ rest)). cbn [lex].
  repeat match goal with H : _ = false |- _ => rewrite H; clear H end.
  by rewrite IH, add_char_app.
Qed.

Lemma lex_replaced s tok b rest :
  lex (LQuote squote) tok b (replace_squotes s +:+ String squote rest) = lex LWord (tok +:+ s) true rest.
Proof.
  revert tok b. induction s as [|c s IH]; intros tok b; cbn [replace_squotes].
  - change ("" +:+ String squote rest) with (String squote rest). cbn [lex]. by rewrite Ascii.eqb_refl, str_app_nil_r.
  - destruct (Ascii.eqb_spec c squote) as [->|Hc].
    + match goal with |- lex _ _ _ (?a +:+ ?e) = _ =>
        change (a +:+ e) with (String squote (String dquote (String squote (String dquote (String squote
          (replace_squotes s +:+ String squote rest)))))) end.
      cbn [lex]. change (lex_space dquote) with false. change (Ascii.eqb squote squote) with true.
      change (Ascii.eqb dquote "#"%char) with false. change (lex_quote dquote) with true.
      change (Ascii.eqb squote dquote) with false. change (Ascii.eqb squote backslash) with false.
      change (Ascii.eqb dquote dquote) with true. change (lex_space squote) with false.
      change (Ascii.eqb squote "#"%char) with false. change (lex_quote squote) with true.
      cbn [andb]. rewrite IH. by rewrite add_char_app.
    + change (String c (replace_squotes s) +:+ String squote rest)
        with (String c (replace_squotes s +:+ String squote rest)). cbn [lex].
      destruct (Ascii.eqb_spec c squote); [done|]. change (Ascii.eqb squote dquote) with false.
      rewrite andb_false_r. rewrite IH. by rewrite add_char_app.
Qed.

(** The lexer has read a quoted text as the word it was made from. *)
Lemma lex_quoted v rest :
  ∃ b, lex LSpace "" false (shell_quote v +:+ rest) = lex LWord v b rest ∧ negb (String.eqb v "") || b = true.
Proof.
  unfold shell_quote. destruct (String.eqb_spec v "") as [->|Hv]; [by exists true|].
  destruct (str_all safe_char v) eqn:Hs.
  - exists false. destruct v as [|c v]; [done|]. cbn [str_all] in Hs. apply andb_true_iff in Hs as [Hc Hs].
    apply safe_char_plain in Hc. unfold safe_plain in Hc. bool_hyps.
    change (String c v +:+ rest) with (String c (v +:+ rest)). cbn [lex].
    repeat match goal with H : _ = false |- _ => rewrite H; clear H end.
    by rewrite lex_safe.
  - exists true. split; [|by rewrite orb_true_r].
    change (String squote (replace_squotes v +:+ String squote "") +:+ rest)
      with (String squote ((replace_squotes v +:+ String squote "") +:+ rest)).
    rewrite string_app_assoc. change (String squote "" +:+ rest) with (String squote rest). cbn [lex].
    change (lex_space squote) with false. change (Ascii.eqb squote "#"%char) with false.
    change (Ascii.eqb squote backslash) with false. change (lex_quote squote) with true.
    by rewrite lex_replaced.
Qed.

(** Any text comes back from the lexer as the one token it was quoted from,
    alone or before a space. *)
Lemma quote_lex v : shlex_tokens (shell_quote v) = Some [v].
Proof.
  unfold shlex_tokens. destruct (lex_quoted v "") as (b & Hl & Hb). rewrite str_app_nil_r in Hl. rewrite Hl. cbn [lex].
  unfold emit. by rewrite Hb.
Qed.
Lemma quote_lex_cons v rest : shlex_tokens (shell_quote v +:+ String " " rest) = cons v <$> shlex_tokens rest.
Proof. unfold shlex_tokens. destruct (lex_quoted v (String " " rest)) as (b & -> & Hb). cbn [lex]. by rewrite Hb. Qed.

(** ** Lines *)
Definition one_line (s : string) : bool := str_all (λ c, negb (is_line_break c)) s.

Lemma splitlines_line l rest cur :
  one_line l = true →
  splitlines_from cur false (l +:+ String newline rest) = (cur +:+ l) :: splitlines_from "" false rest.
Proof.
  revert cur. induction l as [|c l IH]; intros cur Hl.
  - change ("" +:+ String newline rest) with (String newline rest). cbn [splitlines_from].
    change (is_line_break newline) with true. cbn [andb]. by rewrite str_app_nil_r.
  - unfold one_line in Hl. cbn [str_all] in Hl. apply andb_true_iff in Hl as [Hc Hl].
    apply negb_true_iff in Hc. change (String c l +:+ String newline rest)
      with (String c (l +:+ String newline rest)). cbn [splitlines_from andb]. rewrite Hc.
    rewrite IH by done. by rewrite add_char_app.
Qed.

Lemma splitlines_join ls :
  forallb one_line ls = true → splitlines (str_join (String newline "") (ls ++ [""])) = ls.
Proof.
  unfold splitlines. induction ls as [|l ls IH]; [done|]. cbn [forallb]. rewrite andb_true_iff.
  intros [Hl Hls]. specialize (IH Hls).
  assert (str_join (String newline "") ((l :: ls) ++ [""])
          = l +:+ String newline (str_join (String newline "") (ls ++ [""]))) as ->.
  { by destruct ls. }
  rewrite splitlines_line by done. rewrite IH. done.
Qed.

Lemma quote_one_line v : one_line v = true → one_line (shell_quote v) = true.
Proof.
  unfold shell_quote, one_line. intros Hv. destruct (String.eqb v ""); [done|].
  destruct (str_all safe_char v); [done|]. cbn [str_all]. rewrite str_all_app.
  change (negb (is_line_break squote)) with true. cbn [andb].
  assert (str_all (λ c, negb (is_line_break c)) (replace_squotes v) = true) as ->; [|done].
  induction v as [|c v IH]; [done|]. cbn [str_all replace_squotes] in *.
  apply andb_true_iff in Hv as [Hc Hv]. specialize (IH Hv).
  destruct (Ascii.eqb c squote); cbn [str_all].
  - change (negb (is_line_break squote)) with true. change (negb (is_line_break dquote)) with true.
    exact IH.
  - by rewrite Hc, IH.
Qed.

Lemma rstrip_app p a b : b ≠ "" → rstrip_while p b = b → rstrip_while p (a +:+ b) = a +:+ b.
Proof.
  intros Hb Hr. induction a as [|c a IH]; [done|].
  change (String c a +:+ b) with (String c (a +:+ b)). cbn [rstrip_while]. rewrite IH.
  destruct (a +:+ b) eqn:E; [|done]. destruct a; [|done]. by change ("" +:+ b) with b in E.
Qed.

Lemma quote_nonempty v : shell_quote v ≠ "".
Proof.
  unfold shell_quote. destruct (String.eqb_spec v ""); [done|]. by destruct (str_all safe_char v).
Qed.

Lemma quote_rstrip v : rstrip_while is_space (shell_quote v) = shell_quote v.
Proof.
  unfold shell_quote. destruct (String.eqb v ""); [reflexivity|].
  destruct (str_all safe_char v) eqn:E.
  - apply rstrip_while_none. induction v as [|c v IH]; [done|]. cbn [str_all] in *.
    apply andb_true_iff in E as [Hc Hv]. rewrite IH by done. apply safe_char_plain in Hc.
    unfold safe_plain in Hc. bool_hyps. by rewrite andb_true_r, negb_true_iff.
  - change (String squote (replace_squotes v +:+ String squote ""))
      with (String squote (replace_squotes v) +:+ String squote ""). by apply rstrip_app.
Qed.

Lemma word_plain c : is_word c = true → Ascii.eqb c "="%char = false ∧ is_line_break c = false.
Proof. destruct c as [[] [] [] [] [] [] [] []]; vm_compute; by intros. Qed.
Lemma key_start_word c : is_key_start c = true → is_word c = true.
Proof. unfold is_key_start, is_word. by intros [-> | ->]%orb_true_iff; rewrite ?orb_true_r. Qed.
Lemma ident_word k : ident k = true → str_all is_word k = true ∧ k ≠ "".
Proof.
  destruct k as [|c k]; [done|]. cbn [ident str_all]. rewrite andb_true_iff.
  intros [Hc%key_start_word Hk]. by rewrite Hc, Hk.
Qed.
Lemma partition_word k rest :
  str_all is_word k = true → partition_char "="%char (k +:+ String "="%char rest) = (k, Some rest).
Proof.
  induction k as [|c k IH]; [done|]. cbn [str_all]. rewrite andb_true_iff. intros [Hc Hk].
  change (String c k +:+ String "="%char rest) with (String c (k +:+ String "="%char rest)).
  cbn [partition_char]. destruct (word_plain c Hc) as [-> _]. by rewrite IH.
Qed.
Lemma word_one_line k : str_all is_word k = true → one_line k = true.
Proof.
  unfold one_line. induction k as [|c k IH]; [done|]. cbn [str_all]. rewrite !andb_true_iff.
  intros [Hc Hk]. split; [by destruct (word_plain c Hc) as [_ ->]|by apply IH].
Qed.

(** A written line reads back as its binding. *)
Lemma parse_export_line kv : ident kv.1 = true → parse_line (export_line kv) = Some kv.
Proof.
  destruct kv as [k v]. cbn [fst]. intros [Hk _]%ident_word. unfold parse_line.
  assert (strip (export_line (k, v)) = export_line (k, v)) as ->.
  { unfold export_line, strip. cbn [fst snd].
    change (lstrip_while is_space ("export " +:+ ?x)) with ("export " +:+ x).
    do 3 (apply rstrip_app; [by (done || apply quote_nonempty || destruct k)|]). apply quote_rstrip. }
  assert (startswith "export " (export_line (k, v)) = true) as -> by apply startswith_app. cbn [negb].
  change (drop_str 7 (export_line (k, v))) with (k +:+ String "="%char (shell_quote v)).
  rewrite partition_word by done. by rewrite quote_lex.
Qed.

Lemma export_one_line kv :
  ident kv.1 = true → one_line kv.2 = true → one_line (export_line kv) = true.
Proof.
  intros [Hk%word_one_line _]%ident_word Hv%quote_one_line. unfold export_line, one_line in *.
  by rewrite !str_all_app, Hk, Hv.
Qed.

Lemma ident_valid k : ident k = true → validate_env_key k = Ret tt.
Proof.
  intros Hk. unfold validate_env_key, valid_key. rewrite Hk. destruct k; [done|]. done.
Qed.

(** Variables that survive a round trip. *)
Definition good_vars (d : dict string string) : Prop :=
  keys_ok d ∧ Forall (λ kv, ident kv.1 = true ∧ one_line kv.2 = true) d.

Lemma export_lines_good items :
  Forall (λ kv, ident kv.1 = true ∧ one_line kv.2 = true) items →
  export_lines items = Ret (export_line <$> items)
  ∧ forallb one_line (export_line <$> items) = true.
Proof.
  induction 1 as [|kv items [Hk Hv] _ [IH1 IH2]]; [done|]. cbn [export_lines]. rewrite ident_valid by done.
  rewrite IH1. split; [done|]. rewrite fmap_cons. cbn [forallb]. by rewrite export_one_line.
Qed.

Lemma parse_fold items d :
  Forall (λ kv, ident kv.1 = true) items →
  fold_left (λ d line, match parse_line line with Some kv => dset kv.1 kv.2 d | None => d end)
    (export_line <$> items) d = dupdate d items.
Proof.
  intros H. revert d. induction H as [|kv items Hk _ IH]; intros d; [done|].
  rewrite fmap_cons. cbn [fold_left]. rewrite parse_export_line by done. apply IH.
Qed.

Lemma dupdate_get (d new : dict string string) k :
  keys_ok new → dget k (dupdate d new) = match dget k new with Some v => Some v | None => dget k d end.
Proof.
  unfold dupdate, keys_ok. revert d. induction new as [|[k0 v0] new IH]; intros d Hk; [done|].
  rewrite fmap_cons in Hk. apply NoDup_cons in Hk as [Hk0 Hk]. cbn [fold_left fst snd dget].
  rewrite IH by done. rewrite dget_dset. case_decide as E; [|done]. subst.
  by rewrite dget_notin.
Qed.
Lemma dupdate_keys (d new : dict string string) : keys_ok d → keys_ok (dupdate d new).
Proof.
  unfold dupdate. revert d. induction new as [|kv new IH]; intros d Hd; [done|]. simpl.
  by apply IH, keys_ok_dset.
Qed.

(** The script of good variables exists and reads back to the same bindings. *)
Lemma build_parse d :
  good_vars d → ∃ t, build_env_script d = Ret t ∧ keys_ok (parse_env t)
  ∧ ∀ k, dget k (parse_env t) = dget k d.
Proof.
  intros [Hk Hg]. destruct d as [|kv d0]; [eexists; split; [done|]; split; [apply keys_ok_nil|done]|].
  set (d := kv :: d0) in *. pose proof (merge_sort_Permutation item_le d) as Hp.
  assert (Forall (λ kv, ident kv.1 = true ∧ one_line kv.2 = true) (merge_sort item_le d)) as Hs
    by (by rewrite Hp).
  destruct (export_lines_good _ Hs) as [E1 E2]. unfold build_env_script, d at 1. fold d.
  rewrite E1. cbn [mbind outcome_bind]. eexists. split; [done|].
  set (header := ["#!/bin/sh"; "# Celesto managed environment variables"; ""]).
  assert (parse_env (str_join (String newline "")
            (header ++ (export_line <$> merge_sort item_le d) ++ [""]))
          = dupdate [] (merge_sort item_le d)) as ->.
  { unfold parse_env. rewrite app_assoc, splitlines_join.
    - unfold header. cbn [app fold_left]. change (parse_line "#!/bin/sh") with (@None (string * string)).
      change (parse_line "# Celesto managed environment variables") with (@None (string * string)).
      change (parse_line "") with (@None (string * string)). cbv match. apply parse_fold.
      eapply Forall_impl; [exact Hs|]. by intros ? [].
    - rewrite forallb_app, E2. done. }
  assert (keys_ok (merge_sort item_le d)) as Hk' by (unfold keys_ok in *; by rewrite Hp).
  split; [apply dupdate_keys, keys_ok_nil|]. intros k. rewrite dupdate_get by done.
  destruct (dget k (merge_sort item_le d)) as [v|] eqn:E; symmetry.
  - apply elem_dget; [done|]. rewrite <- Hp. by apply dget_Some_elem.
  - cbn [dget]. destruct (dget k d) as [v|] eqn:E'; [|done]. apply dget_Some_elem in E'.
    rewrite <- Hp in E'. apply elem_dget in E'; [|done]. congruence.
Qed.

Lemma good_vars_get d :
  good_vars d ↔ keys_ok d ∧ ∀ k v, dget k d = Some v → ident k = true ∧ one_line v = true.
Proof.
  unfold good_vars. split; intros [Hk H]; (split; [done|]).
  - intros k v Hd%dget_Some_elem. rewrite Forall_forall in H. by apply (H (k, v)).
  - apply Forall_forall. intros [k v] Hin. by apply H, elem_dget.
Qed.

Lemma parse_env_keys t : keys_ok (parse_env t).
Proof.
  unfold parse_env. assert (∀ ls d, keys_ok d → keys_ok (fold_left (λ d line,
    match parse_line line with Some kv => dset kv.1 kv.2 d | None => d end) ls d)) as H.
  { induction ls as [|l ls IH]; intros d Hd; [done|]. simpl. apply IH.
    destruct (parse_line l); [by apply keys_ok_dset|done]. }
  apply H, keys_ok_nil.
Qed.

Lemma decide_cons {A} (k k0 : string) ks (a b : A) :
  (if decide (k ∈ k0 :: ks) then a else b)
  = if decide (k0 = k) then a else if decide (k ∈ ks) then a else b.
Proof.
  destruct (decide (k0 = k)) as [->|Hne]; [by rewrite decide_True by (by left)|].
  destruct (decide (k ∈ ks)); [by rewrite decide_True by (by right)|].
  rewrite decide_False; [done|]. rewrite elem_of_cons. by intros [|].
Qed.

(** ** Refinement to a map of variables *)
Section refinement.
Context {G : Type} `{EnvChannelLaws G}.

(** The variables the file of [g] sets. *)
Definition vars_of (g : G) : dict string string := parse_env (default "" (env_file g)).
Definition rep (g : G) (m : gmap string string) : Prop := good_vars (vars_of g) ∧ dmap (vars_of g) = m.

(** The next read over the channel succeeds. *)
Definition readable (g : G) : Prop := ∃ r, (run cat_command g).2 = Ret r ∧ ok r = true.

Lemma read_ok g : readable g → read_env_vars g = (g, Ret (vars_of g)).
Proof using Type*.
  intros (r & Hr & Hok). pose proof (cat_keeps g) as Hg. pose proof (cat_prints g r Hr Hok) as Hs.
  unfold read_env_vars, py_bind. destruct (run cat_command g) as [g' o]. simpl in *. subst.
  rewrite Hok. simpl. unfold vars_of. by rewrite <- Hs.
Qed.

Lemma rep_build g d t :
  good_vars d → build_env_script d = Ret t → env_file g = Some t → rep g (dmap d).
Proof using Type*.
  intros Hd Hb Hf. destruct (build_parse d Hd) as (t' & Hb' & _ & Hp). rewrite Hb in Hb'. injection Hb' as <-.
  unfold rep, vars_of. rewrite Hf. change (default "" (Some t)) with t. split.
  - apply good_vars_get. split; [apply parse_env_keys|]. intros k v. rewrite Hp. by apply good_vars_get.
  - apply map_eq. intros k. by rewrite !dget_lookup.
Qed.

(** Writing good variables: they are the file's, or, when it raised, the file
    may also be the old one. *)
Lemma write_good {A} failure d (ret : A) g g' o :
  good_vars d → rewrite_file failure d ret g = (g', o) →
  match o with
  | Ret a => a = ret ∧ rep g' (dmap d)
  | Raise _ => env_file g' = env_file g ∨ rep g' (dmap d)
  end.
Proof using Type*.
  intros Hd. destruct (build_parse d Hd) as (t & Hb & _). unfold rewrite_file, py_bind, py_lift.
  rewrite Hb. pose proof (write_renames t g) as Hw. unfold _atomic_write.
  destruct (run (write_command t) g) as [g1 o1].
  destruct Hw as [Hf Hok].
  assert (env_file g1 = env_file g ∨ rep g1 (dmap d)) as Hf'
    by (destruct Hf; [by left|right; by eapply rep_build]).
  destruct o1 as [r|e]; [|by intros [= <- <-]].
  destruct (ok r) eqn:E; intros [= <- <-]; [|done]. split; [done|].
  eapply rep_build; eauto.
Qed.

Lemma validate_keys_good d : good_vars d → validate_keys (dkeys d) = Ret tt.
Proof using Type*.
  intros [_ Hg]. unfold dkeys. induction Hg as [|kv d [Hk _] _ IH]; [done|].
  rewrite fmap_cons. cbn [validate_keys]. by rewrite ident_valid, IH.
Qed.

Lemma dupdate_good d new : good_vars d → good_vars new → good_vars (dupdate d new).
Proof using Type*.
  rewrite !good_vars_get. intros [Hk Hd] [Hk' Hn]. split; [by apply dupdate_keys|].
  intros k v. rewrite dupdate_get by done. destruct (dget k new) eqn:E; [|apply Hd].
  intros [= <-]. by apply Hn.
Qed.

Lemma dupdate_map (d new : dict string string) : keys_ok new → dmap (dupdate d new) = dmap new ∪ dmap d.
Proof using Type*.
  intros Hk. apply map_eq. intros k. rewrite lookup_union, !dget_lookup, dupdate_get by done.
  destruct (dget k new), (dget k d); done.
Qed.

Lemma inject_spec env m g :
  good_vars env → env ≠ [] → readable g → rep g m →
  let '(g', o) := inject_env_vars env true g in
  match o with
  | Ret ks => rep g' (dmap env ∪ m) ∧ ∀ k, k ∈ ks ↔ is_Some ((dmap env ∪ m) !! k)
  | Raise _ => env_file g' = env_file g ∨ rep g' (dmap env ∪ m)
  end.
Proof using Type*.
  intros He Hne Hr [Hd <-]. set (d := dupdate (vars_of g) env).
  assert (inject_env_vars env true g = rewrite_file "Failed to inject environment variables: " d
            (merge_sort str_le (dkeys d)) g) as ->.
  { unfold inject_env_vars. destruct env as [|kv env0]; [done|]. unfold py_bind at 1, py_lift at 1.
    rewrite validate_keys_good by done. unfold py_bind at 1. unfold py_bind at 1.
    by rewrite read_ok by done. }
  destruct (rewrite_file _ d _ g) as [g' o] eqn:Hw. apply write_good in Hw; [|by apply dupdate_good].
  rewrite <- dupdate_map by apply He. fold d. destruct o as [ks|e]; [|done].
  destruct Hw as [-> Hw]. split; [done|].
  intros k. rewrite merge_sort_Permutation, dkeys_elem, dget_lookup. done.
Qed.

(** *** Removal *)
Lemma pop_keys_spec ks (current removed : dict string string) :
  keys_ok current →
  let '(c', r') := pop_keys ks current removed in
  keys_ok c' ∧ (∀ k, dget k c' = if decide (k ∈ ks) then None else dget k current)
  ∧ ∀ k, dget k r' = match dget k current with
                     | Some v => if decide (k ∈ ks) then Some v else dget k removed
                     | None => dget k removed
                     end.
Proof using Type*.
  revert current removed. induction ks as [|k0 ks IH]; intros current removed Hk; cbn [pop_keys].
  { split_and!; [done|done|]. intros k. by destruct (dget k current). }
  destruct (dget k0 current) as [v0|] eqn:E0.
  - specialize (IH (ddel k0 current) (dset k0 v0 removed) (keys_ok_ddel _ _ Hk)).
    destruct (pop_keys ks _ _) as [c' r']. destruct IH as (I1 & I2 & I3).
    split_and!; [done| |]; intros k; rewrite ?I2, ?I3, dget_ddel by done.
    + rewrite decide_cons. destruct (decide (k0 = k)); [by case_decide|done].
    + rewrite dget_dset. destruct (decide (k0 = k)) as [->|Hne]; [by rewrite E0, decide_True by (by left)|].
      destruct (dget k current); [|done]. by rewrite decide_cons, (decide_False (P := k0 = k)).
  - specialize (IH current removed Hk). destruct (pop_keys ks _ _) as [c' r'].
    destruct IH as (I1 & I2 & I3). split_and!; [done| |]; intros k; rewrite ?I2, ?I3.
    + rewrite decide_cons. destruct (decide (k0 = k)) as [->|]; [|done]. rewrite E0. by case_decide.
    + destruct (dget k current) eqn:E; [|done]. by rewrite decide_cons, (decide_False (P := k0 = k)) by congruence.
Qed.

Lemma remove_spec keys m g :
  readable g → rep g m →
  let '(g', o) := remove_env_vars keys g in
  match o with
  | Ret removed => dmap removed = filter (λ kv, kv.1 ∈ keys) m
                   ∧ rep g' (filter (λ kv, kv.1 ∉ keys) m)
  | Raise _ => env_file g' = env_file g ∨ rep g' (filter (λ kv, kv.1 ∉ keys) m)
  end.
Proof using Type*.
  intros Hr [Hd <-]. unfold remove_env_vars. destruct keys as [|k0 ks0].
  { cbn. split; [symmetry; apply map_empty; intros k; apply map_lookup_filter_None; right;
      intros v _; by intros ?%elem_of_nil|].
    split; [done|]. symmetry. apply map_filter_id. intros k v _. by intros ?%elem_of_nil. }
  set (keys := k0 :: ks0) in *. unfold py_bind at 1. rewrite read_ok by done.
  pose proof (pop_keys_spec keys (vars_of g) [] (proj1 Hd)) as Hp.
  destruct (pop_keys keys (vars_of g) []) as [current removed]. destruct Hp as (Hk & Hc & Hrm).
  assert (dmap removed = filter (λ kv, kv.1 ∈ keys) (dmap (vars_of g))) as Hrem.
  { apply map_eq. intros k. rewrite map_lookup_filter, !dget_lookup, Hrm.
    destruct (dget k (vars_of g)); [|done]. simpl. by case_decide; case_guard. }
  assert (dmap current = filter (λ kv, kv.1 ∉ keys) (dmap (vars_of g))) as Hcur.
  { apply map_eq. intros k. rewrite map_lookup_filter, !dget_lookup, Hc.
    destruct (dget k (vars_of g)); simpl; case_decide; try case_guard; done. }
  assert (good_vars current) as Hg.
  { apply good_vars_get. split; [done|]. intros k v. rewrite Hc. case_decide; [done|].
    by apply good_vars_get. }
  destruct removed as [|x rs].
  - cbn. split; [done|]. split; [done|]. symmetry. apply map_filter_id. intros k v Hkv Hin.
    assert ((dmap [] : gmap string string) !! k = Some v); [|done]. rewrite Hrem.
    by apply map_lookup_filter_Some.
  - rewrite <- Hcur, <- Hrem. cbv beta iota.
    destruct (rewrite_file _ current (x :: rs) g) as [g' o] eqn:Hw.
    apply write_good in Hw; [|done]. destruct o as [a|e]; [|done]. by destruct Hw as [-> Hw].
Qed.
End refinement.

(** ** Claims *)

(** Quoting is exact: whatever a value holds (quotes, spaces, comment
    signs, control characters), the lexer reads the quoted text back as one
    token equal to it. *)
Theorem shell_quote_exact v : shlex_tokens (shell_quote v) = Some [v].
Proof. exact (quote_lex v). Qed.

(** The generated script sets exactly the given variables, when their keys
    are shell identifiers and no value holds a line break: reading it back
    gives the same bindings. *)
Theorem env_script_roundtrip d :
  good_vars d → ∃ t, build_env_script d = Ret t ∧ ∀ k, dget k (parse_env t) = dget k d.
Proof. intros (t & Hb & _ & H)%build_parse. eauto. Qed.

(** C36: on a guest whose file sets the good variables [m] and can be read,
    [inject_env_vars] of a non-empty set of good variables makes the file set
    the union and returns its keys, and [remove_env_vars] makes it set the
    remaining ones and returns the ones it removed.  Good means that keys are
    shell identifiers and values hold no line break ([good_vars]).  When they
    raise, the file is the old one or the complete new one: the call that
    raised may have reached the guest.  The channel is any whose replacement
    command installs the text by a rename. *)
Theorem env_refines_map {G} `{EnvChannelLaws G} (g : G) m env keys :
  rep g m → readable g → good_vars env → env ≠ [] →
  (let '(g', o) := inject_env_vars env true g in
   match o with
   | Ret ks => rep g' (dmap env ∪ m) ∧ ∀ k, k ∈ ks ↔ is_Some ((dmap env ∪ m) !! k)
   | Raise _ => env_file g' = env_file g ∨ rep g' (dmap env ∪ m)
   end)
  ∧ (let '(g', o) := remove_env_vars keys g in
     match o with
     | Ret removed => dmap removed = filter (λ kv, kv.1 ∈ keys) m
                      ∧ rep g' (filter (λ kv, kv.1 ∉ keys) m)
     | Raise _ => env_file g' = env_file g ∨ rep g' (filter (λ kv, kv.1 ∉ keys) m)
     end).
Proof. intros Hr Hg He Hne. split; [by apply inject_spec|by apply remove_spec]. Qed.

(** A bad key is refused before the guest is touched. *)
Theorem env_bad_key_untouched {G} `{EnvChannel G} (g : G) env merge k :
  k ∈ dkeys env → valid_key k = false → ∃ e, inject_env_vars env merge g = (g, Raise e).
Proof.
  intros Hk Hv. destruct env as [|kv env0]; [by apply elem_of_nil in Hk|].
  set (env := kv :: env0) in *. unfold inject_env_vars, env at 1. fold env.
  unfold py_bind at 1, py_lift at 1.
  assert (∃ e, validate_keys (dkeys env) = Raise e) as (e & ->); [|by exists e].
  clearbody env. induction (dkeys env) as [|k1 ks IH]; [by apply elem_of_nil in Hk|].
  cbn [validate_keys]. destruct (validate_env_key k1) as [[]|e] eqn:E1; [|by exists e].
  apply elem_of_cons in Hk as [->|Hk]; [|exact (IH Hk)].
  unfold validate_env_key in E1. rewrite Hv in E1. by destruct (String.eqb k1 "").
Qed.

(** ** Limits of the code *)

(** A value with a line break is written across two lines and lost when the
    file is read back, so merging another variable drops it. *)
Definition two_lines : string := "x" +:+ String newline "y".
Lemma multiline_value_lost : ∃ t,
  build_env_script [("A", two_lines)] = Ret t ∧ parse_env t = [].
Proof. eexists. split; [reflexivity|]. vm_compute. reflexivity. Qed.

(** A key with a final newline passes the check. *)
Lemma newline_key_accepted : validate_env_key ("FOO" +:+ String newline "") = Ret tt.
Proof. vm_compute. reflexivity. Qed.

(** ** A channel to a file *)

(** The text a replacement command line installs. *)
Definition written (cmd : string) : option string :=
  if startswith write_prefix cmd then
    let rest := drop_str (String.length write_prefix) cmd in
    Some (b64decode (take_str (String.length rest - String.length write_suffix) rest))
  else None.

Lemma written_command t : written (write_command t) = Some t.
Proof.
  unfold written, write_command. rewrite startswith_app, drop_str_app, drop_str_all by done. cbv zeta.
  change ("" +:+ ?x) with x.
  rewrite length_str_app, Nat.add_sub, take_str_app, take_str_all by done. by rewrite b64_roundtrip.
Qed.
Lemma write_not_cat t : String.eqb (write_command t) cat_command = false.
Proof. reflexivity. Qed.

Record demo_guest := { dg_file : option string; dg_fails : bool }.
Definition demo_result (code : Z) (out : string) : CommandResult :=
  {| exit_code := code; stdout := out; stderr := "" |}.
#[global] Instance demo_channel : EnvChannel demo_guest := {
  env_file := dg_file;
  run := λ cmd g,
    if dg_fails g then (g, Ret (demo_result 255 ""))
    else if String.eqb cmd cat_command then (g, Ret (demo_result 0 (default "" (dg_file g))))
    else match written cmd with
         | Some t => ({| dg_file := Some t; dg_fails := false |}, Ret (demo_result 0 ""))
         | None => (g, Ret (demo_result 127 ""))
         end }.
#[global] Instance demo_channel_laws : EnvChannelLaws demo_guest.
Proof.
  split.
  - by intros [f []].
  - intros [f []] r; simpl; by intros [= <-].
  - intros t [f []]; cbn [run demo_channel dg_fails].
    + split; [by left|]. by intros r [= <-].
    + rewrite write_not_cat, written_command. split; [by right|done].
Defined.

(** A read that fails counts as an empty file: the merge forgets the rest. *)
Record flaky_guest := { fl_file : option string; fl_read_fails : bool }.
#[global] Instance flaky_channel : EnvChannel flaky_guest := {
  env_file := fl_file;
  run := λ cmd g,
    if String.eqb cmd cat_command
    then (g, Ret (if fl_read_fails g then demo_result 255 "" else demo_result 0 (default "" (fl_file g))))
    else match written cmd with
         | Some t => ({| fl_file := Some t; fl_read_fails := false |}, Ret (demo_result 0 ""))
         | None => (g, Ret (demo_result 127 ""))
         end }.
#[global] Instance flaky_channel_laws : EnvChannelLaws flaky_guest.
Proof.
  split.
  - by intros [f []].
  - intros [f []] r; simpl; by intros [= <-].
  - intros t [f b]; cbn [run flaky_channel]. rewrite write_not_cat, written_command. split; [by right|done].
Defined.
Lemma failed_read_forgets : ∃ t,
  let g := {| fl_file := Some t; fl_read_fails := true |} in
  vars_of g = [("A", "1")] ∧ vars_of (inject_env_vars [("B", "2")] true g).1 = [("B", "2")].
Proof.
  exists ("export A=1" +:+ String newline ""). vm_compute. split; reflexivity.
Qed.

(** ** Witnesses *)
Definition demo_vars : dict string string := [("B", "it's"); ("A", "a b # c")].
Lemma demo_vars_good : good_vars demo_vars.
Proof.
  split; [unfold keys_ok; by apply (bool_decide_unpack _); vm_compute|]. repeat constructor.
Qed.

Lemma env_script_roundtrip_witness : ∃ t,
  build_env_script demo_vars = Ret t ∧ dget "B" (parse_env t) = Some "it's".
Proof.
  destruct (env_script_roundtrip demo_vars demo_vars_good) as (t & Hb & Hp).
  exists t. split; [exact Hb|]. rewrite (Hp "B"). reflexivity.
Defined.

Definition demo_empty_guest : demo_guest := {| dg_file := None; dg_fails := false |}.
Lemma env_refines_map_witness :
  rep (inject_env_vars demo_vars true demo_empty_guest).1 (dmap demo_vars ∪ ∅).
Proof.
  assert (rep demo_empty_guest ∅) as Hr by (split; [split; [apply keys_ok_nil|constructor]|reflexivity]).
  assert (readable demo_empty_guest) as Hg by (by exists (demo_result 0 "")).
  destruct (env_refines_map demo_empty_guest ∅ demo_vars [] Hr Hg demo_vars_good ltac:(done)) as [H _].
  exact (proj1 H).
Defined.

Lemma env_bad_key_untouched_witness : ∃ e,
  inject_env_vars [("A", "1"); ("1B", "2")] true demo_empty_guest = (demo_empty_guest, Raise e).
Proof.
  apply (env_bad_key_untouched demo_empty_guest [("A", "1"); ("1B", "2")] true "1B");
    [apply list_elem_of_In; simpl; auto|vm_compute; reflexivity].
Defined.
