(* ===== verification/ConfigValidation.v ===== *)
(** * Validation of computer configurations (types.py)

    The Pydantic validators of the stored models, in the order Pydantic runs
    them: the fields as declared, then the cross-field checks; the outcome is
    the first error.  The file system is an argument: which paths exist, which
    are files or directories, and what [Path.resolve] gives. *)
From S2P Require Import EgressSession.
From S2P Require Import Prelude PyDict PyStr PyUrl Types IpAddress IpNetwork NetworkSettings Env.
From stdpp Require Import options.
From Stdlib Require Import Ascii.

Record filesystem := {
  fs_exists : path → bool;
  fs_is_file : path → bool;
  fs_is_dir : path → bool;
  fs_resolve : path → path }.

(** [[f(x) for x in l]] where [f] may raise. *)
Fixpoint mapM_outcome {A B} (f : A → outcome B) (l : list A) : outcome (list B) :=
  match l with
  | [] => Ret []
  | x :: l' => y ← f x; ys ← mapM_outcome f l'; Ret (y :: ys)
  end.
Definition opt_outcome {A B} (f : A → outcome B) (o : option A) : outcome (option B) :=
  match o with Some x => y ← f x; Ret (Some y) | None => Ret None end.

Definition in_range (lo hi v : Z) : bool := (lo <=? v)%Z && (v <=? hi)%Z.

Section validators.
Context (fs : filesystem) (validate_paths : bool).

(** ** WorkspaceMount *)
Definition validate_host_path (v : path) : outcome path :=
  let v := fs_resolve fs v in
  if negb validate_paths then Ret v
  else if negb (fs_exists fs v) then Raise (ValueError ("Workspace path does not exist: " +:+ v))
  else if negb (fs_is_dir fs v) then Raise (ValueError ("Workspace path is not a directory: " +:+ v))
  else Ret v.

Definition validate_guest_path (v : string) : outcome string :=
  if negb (startswith "/" v)
  then Raise (ValueError ("guest_path must be an absolute path, got: " +:+ repr v))
  else Ret v.

Definition resolved_tag (m : WorkspaceMount) (index : Z) : string :=
  match mount_tag m with
  | Some t => if String.eqb t "" then "workspace" +:+ dec index else t
  | None => "workspace" +:+ dec index
  end.

Definition WorkspaceMount_validate (m : WorkspaceMount) : outcome WorkspaceMount :=
  hp ← validate_host_path (wm_host_path m);
  gp ← validate_guest_path (wm_guest_path m);
  Ret {| wm_host_path := hp; wm_guest_path := gp; mount_tag := mount_tag m; writable := writable m |}.

(** ** MacOSMachineConfig and DesktopEndpoint *)
Definition validate_nonempty_text (value : string) : outcome string :=
  let normalized := strip value in
  if String.eqb normalized "" then Raise (ValueError "value cannot be empty") else Ret normalized.

Definition MacOSMachineConfig_validate (m : MacOSMachineConfig) : outcome MacOSMachineConfig :=
  bi ← validate_nonempty_text (base_image m);
  gv ← validate_nonempty_text (guest_version m);
  _ ← guard_raise (mac_disk_size_mib m <? 30 * 1024)%Z (ValueError "disk_size_mib");
  _ ← guard_raise (negb (in_range 1024 7680 (display_width m))) (ValueError "display_width");
  _ ← guard_raise (negb (in_range 768 4320 (display_height m))) (ValueError "display_height");
  su ← validate_nonempty_text (ssh_user m);
  Ret {| base_image := bi; manifest_path := manifest_path m; bundle_path := bundle_path m;
         guest_version := gv; guest_build := guest_build m; mac_disk_size_mib := mac_disk_size_mib m;
         display_width := display_width m; display_height := display_height m; ssh_user := su;
         clipboard := clipboard m |}.

Definition validate_loopback_host (value : string) : outcome string :=
  let normalized := lower (strip value) in
  if bool_decide (normalized ∈ ["127.0.0.1"; "localhost"; "::1"]) then Ret normalized
  else Raise (ValueError "desktop endpoint must use a loopback host").

Definition viewer_url (e : DesktopEndpoint) : string :=
  let host := if contains_char ":"%char (de_host e) then "[" +:+ de_host e +:+ "]" else de_host e in
  "vnc://" +:+ host +:+ ":" +:+ dec (de_port e).

(** ** NetworkAttachmentConfig *)
Definition bridge_char (c : ascii) : bool :=
  is_alpha c || is_digit c || bool_decide (c ∈ ["_"; "."; "-"]%char).

Definition validate_bridge_name (v : option string) : outcome (option string) :=
  match v with
  | None => Ret None
  | Some v =>
      let v := strip v in
      if String.eqb v "" then Raise (ValueError "bridge name cannot be empty or whitespace")
      else if (15 <? Z.of_nat (String.length v))%Z
      then Raise (ValueError ("bridge name must be 15 bytes or fewer (got "
                  +:+ dec (Z.of_nat (String.length v)) +:+ " bytes: " +:+ repr v +:+ ")"))
      else if negb (str_all bridge_char v)
      then Raise (ValueError ("bridge name contains characters that are not valid in a Linux interface name: "
                  +:+ repr v))
      else Ret (Some v)
  end.

Definition _check_mode_bridge_consistency (a : NetworkAttachmentConfig)
    : outcome NetworkAttachmentConfig :=
  match na_mode a, na_bridge a with
  | bridge_mode, None => Raise (ValueError "mode='bridge' requires a bridge name")
  | nat_mode, Some _ => Raise (ValueError "mode='nat' does not accept a bridge name")
  | _, _ => Ret a
  end.

Definition NetworkAttachmentConfig_validate (a : NetworkAttachmentConfig)
    : outcome NetworkAttachmentConfig :=
  b ← validate_bridge_name (na_bridge a);
  _check_mode_bridge_consistency {| na_mode := na_mode a; na_bridge := b |}.

(** ** VMConfig *)
Definition _validate_file_path (v : path) : outcome path :=
  if negb (fs_exists fs v) then Raise (ValueError ("Path does not exist: " +:+ v))
  else if negb (fs_is_file fs v) then Raise (ValueError ("Path is not a file: " +:+ v))
  else Ret v.

(** The same body serves [kernel_path], [rootfs_path] and [initrd_path]. *)
Definition validate_path_exists (v : option path) : outcome (option path) :=
  match v with
  | None => Ret None
  | Some v => if negb validate_paths then Ret (Some v) else p ← _validate_file_path v; Ret (Some p)
  end.

Definition validate_extra_drives (v : list path) : outcome (list path) :=
  if negb validate_paths then Ret v
  else _ ← mapM_outcome _validate_file_path v; Ret v.

Fixpoint check_forwards (hosts guests : list Z) (v : list PortForwardConfig) : outcome unit :=
  match v with
  | [] => Ret tt
  | f :: v' =>
      if bool_decide (pf_host_port f ∈ hosts)
      then Raise (ValueError ("Duplicate host port in port_forwards: " +:+ dec (pf_host_port f)))
      else if bool_decide (pf_guest_port f ∈ guests)
      then Raise (ValueError ("Duplicate guest port in port_forwards: " +:+ dec (pf_guest_port f)))
      else check_forwards (pf_host_port f :: hosts) (pf_guest_port f :: guests) v'
  end.
Definition PortForwardConfig_validate (f : PortForwardConfig) : outcome PortForwardConfig :=
  _ ← guard_raise (negb (in_range 1 65535 (pf_host_port f))) (ValueError "host_port");
  _ ← guard_raise (negb (in_range 1 65535 (pf_guest_port f))) (ValueError "guest_port");
  Ret f.
Definition validate_port_forwards (v : list PortForwardConfig) : outcome (list PortForwardConfig) :=
  v ← mapM_outcome PortForwardConfig_validate v;
  _ ← check_forwards [] [] v; Ret v.

Fixpoint check_mounts (index : Z) (tags paths : list string) (v : list WorkspaceMount) : outcome unit :=
  match v with
  | [] => Ret tt
  | m :: v' =>
      let tag := resolved_tag m index in
      if bool_decide (tag ∈ tags)
      then Raise (ValueError ("Duplicate workspace mount tag: " +:+ tag))
      else if bool_decide (wm_guest_path m ∈ paths)
      then Raise (ValueError ("Duplicate workspace guest_path: " +:+ wm_guest_path m))
      else check_mounts (index + 1) (tag :: tags) (wm_guest_path m :: paths) v'
  end.
Definition validate_workspace_mounts (v : list WorkspaceMount) : outcome (list WorkspaceMount) :=
  v ← mapM_outcome WorkspaceMount_validate v;
  _ ← check_mounts 0 [] [] v; Ret v.

Definition VsockConfig_validate (v : VsockConfig) : outcome VsockConfig :=
  _ ← guard_raise (negb (in_range 3 4294967295 (guest_cid v))) (ValueError "guest_cid"); Ret v.

Definition restricted_settings (s : option InternetSettings) : bool :=
  match s with Some s => negb (is_allow_all_domains s) | None => false end.

Definition _check_boot_mode_consistency (c : VMConfig) : outcome unit :=
  if bool_decide (guest_os c = MACOS) then
    _ ← guard_raise (negb (bool_decide (backend c = Some "vz"))) (ValueError "macOS guests require backend='vz'");
    _ ← guard_raise (negb (bool_decide (boot_mode c = platform)))
          (ValueError "macOS guests require boot_mode='platform'");
    _ ← guard_raise (negb (is_some (macos_machine c)))
          (ValueError "macOS guests require macos_machine configuration");
    _ ← guard_raise (is_some (kernel_path c) || is_some (initrd_path c))
          (ValueError "macOS guests do not accept kernel_path or initrd_path");
    _ ← guard_raise (is_some (rootfs_path c) || is_some (rootfs_format c))
          (ValueError "macOS guests use a machine bundle, not rootfs_path");
    _ ← guard_raise (bool_decide (comm_channel c = Some vsock))
          (ValueError "macOS guests do not support vsock in this release; remove comm_channel='vsock'");
    _ ← guard_raise (negb (bool_decide (env_vars c = [])))
          (ValueError "macOS guests do not support managed environment variables in this release");
    _ ← guard_raise (bool_decide (na_mode (network_attachment c) = bridge_mode))
          (ValueError "macOS guests use NAT in this release; remove bridge networking");
    guard_raise (restricted_settings (internet_settings c))
      (ValueError "macOS guests do not support network restrictions in this release")
  else
    _ ← guard_raise (bool_decide (backend c = Some "vz"))
          (ValueError "backend='vz' is only valid for guest_os='macos'");
    _ ← guard_raise (is_some (macos_machine c)) (ValueError "macos_machine is only valid for guest_os='macos'");
    _ ← guard_raise (negb (is_some (rootfs_path c))) (ValueError "non-macOS guests require rootfs_path");
    _ ← guard_raise (bool_decide (boot_mode c = platform))
          (ValueError "boot_mode='platform' is only valid for macOS guests");
    _ ← (if bool_decide (boot_mode c = firmware) then
           _ ← guard_raise (is_some (kernel_path c)) (ValueError "boot_mode='firmware' requires kernel_path=None");
           guard_raise (negb (bool_decide (backend c = Some "qemu")))
             (ValueError "boot_mode='firmware' requires backend='qemu'")
         else guard_raise (negb (is_some (kernel_path c)))
                (ValueError "boot_mode='direct_kernel' requires kernel_path to be set"));
    guard_raise (bool_decide (guest_os c = WINDOWS) && negb (bool_decide (boot_mode c = firmware)))
      (ValueError "guest_os='windows' requires boot_mode='firmware'").

Definition _check_bridge_mode_constraints (c : VMConfig) : outcome unit :=
  if negb (bool_decide (na_mode (network_attachment c) = bridge_mode)) then Ret tt
  else
    _ ← guard_raise (negb (guest_managed_networking c))
          (ValueError "Bridge mode requires an image that supports guest-managed networking");
    _ ← guard_raise (bool_decide (comm_channel c = Some ssh))
          (ValueError "Bridge mode requires vsock for host-guest communication");
    _ ← guard_raise (negb (bool_decide (length (workspace_mounts c) = 0)))
          (ValueError "Workspace mounts are not supported with bridge mode in this release.");
    _ ← guard_raise (negb (bool_decide (length (port_forwards c) = 0)))
          (ValueError "Port forwards are not supported with bridge mode");
    guard_raise (restricted_settings (internet_settings c))
      (ValueError "Network restrictions are not supported with bridge networking").

(** The validated fields put back. *)
Definition vc_with (c : VMConfig) (mac : option MacOSMachineConfig) (ins : option InternetSettings)
    (wm : list WorkspaceMount) (na : NetworkAttachmentConfig) : VMConfig :=
  {| vm_id := vm_id c; preset := preset c; vcpu_count := vcpu_count c; memory := memory c;
     guest_os := guest_os c; boot_mode := boot_mode c; kernel_path := kernel_path c;
     initrd_path := initrd_path c; rootfs_path := rootfs_path c; rootfs_format := rootfs_format c;
     macos_machine := mac; extra_drives := extra_drives c; boot_args := boot_args c;
     ssh_capable := ssh_capable c; backend := backend c; qemu_network := qemu_network c;
     qemu_machine := qemu_machine c; disk_mode := disk_mode c; disk_size_mib := disk_size_mib c;
     grow_filesystem := grow_filesystem c; retain_disk_on_delete := retain_disk_on_delete c;
     env_vars := env_vars c; network_rate_limit_mbps := network_rate_limit_mbps c;
     port_forwards := port_forwards c; vsock_config := vsock_config c; comm_channel := comm_channel c;
     internet_settings := ins; workspace_mounts := wm; ssh_public_key := ssh_public_key c;
     guest_managed_networking := guest_managed_networking c; network_attachment := na |}.

Definition at_least_one (o : option Z) : outcome unit :=
  guard_raise (match o with Some v => (v <? 1)%Z | None => false end) (ValueError "greater_than_equal").

(** [VMConfig.model_validate] of a dump with every field present. *)
Definition VMConfig_model_validate (c : VMConfig) : outcome VMConfig :=
  _ ← guard_raise (negb (identifier_ok (vm_id c))) (ValueError "vm_id");
  _ ← guard_raise (negb (in_range 1 32 (vcpu_count c))) (ValueError "vcpu_count");
  _ ← guard_raise (negb (in_range 128 32768 (memory c))) (ValueError "memory");
  _ ← validate_path_exists (kernel_path c);
  _ ← validate_path_exists (initrd_path c);
  _ ← validate_path_exists (rootfs_path c);
  mac ← opt_outcome MacOSMachineConfig_validate (macos_machine c);
  _ ← validate_extra_drives (extra_drives c);
  _ ← at_least_one (disk_size_mib c);
  _ ← validate_keys (dkeys (env_vars c));
  _ ← at_least_one (network_rate_limit_mbps c);
  _ ← validate_port_forwards (port_forwards c);
  _ ← opt_outcome VsockConfig_validate (vsock_config c);
  ins ← opt_outcome InternetSettings_model_validate (internet_settings c);
  wm ← validate_workspace_mounts (workspace_mounts c);
  na ← NetworkAttachmentConfig_validate (network_attachment c);
  let c' := vc_with c mac ins wm na in
  _ ← _check_boot_mode_consistency c';
  _ ← _check_bridge_mode_constraints c';
  Ret c'.
End validators.

(** ** NetworkConfig *)
Definition _fill_nat_defaults (n : NetworkConfig) : NetworkConfig :=
  match nc_mode n with
  | nat_mode =>
      {| guest_ip := guest_ip n;
         gateway_ip := Some (default "172.16.0.1" (gateway_ip n));
         Types.netmask := Some (default "255.255.255.0" (Types.netmask n));
         tap_device := tap_device n; guest_mac := guest_mac n; ssh_host_port := ssh_host_port n;
         egress_proxy_host_port := egress_proxy_host_port n; nc_mode := nc_mode n;
         nc_bridge := nc_bridge n |}
  | bridge_mode => n
  end.

Definition _check_nat_bridge_consistency (n : NetworkConfig) : outcome unit :=
  match nc_mode n with
  | bridge_mode =>
      _ ← guard_raise (negb (is_some (nc_bridge n))) (ValueError "mode='bridge' requires a bridge name");
      _ ← guard_raise (is_some (guest_ip n)) (ValueError "mode='bridge' must not set guest_ip");
      _ ← guard_raise (is_some (gateway_ip n)) (ValueError "mode='bridge' must not set gateway_ip");
      _ ← guard_raise (is_some (Types.netmask n)) (ValueError "mode='bridge' must not set netmask");
      _ ← guard_raise (is_some (ssh_host_port n)) (ValueError "mode='bridge' must not set ssh_host_port");
      guard_raise (is_some (egress_proxy_host_port n))
        (ValueError "mode='bridge' must not set egress_proxy_host_port")
  | nat_mode =>
      _ ← guard_raise (is_some (nc_bridge n)) (ValueError "mode='nat' must not set bridge");
      _ ← guard_raise (negb (is_some (guest_ip n))) (ValueError "mode='nat' requires guest_ip");
      _ ← guard_raise (negb (is_some (gateway_ip n))) (ValueError "mode='nat' requires gateway_ip");
      guard_raise (negb (is_some (Types.netmask n))) (ValueError "mode='nat' requires netmask")
  end.

Definition NetworkConfig_model_validate (n : NetworkConfig) : outcome NetworkConfig :=
  let n := _fill_nat_defaults n in
  _ ← guard_raise (match egress_proxy_host_port n with
                   | Some p => negb (in_range 1 65535 p) | None => false end)
        (ValueError "egress_proxy_host_port");
  _ ← _check_nat_bridge_consistency n;
  Ret n.

(** ** What the checks guarantee *)
Lemma bind_Ret {A B} (m : outcome A) (k : A → outcome B) y :
  m ≫= k = Ret y ↔ ∃ x, m = Ret x ∧ k x = Ret y.
Proof. destruct m; cbn; naive_solver. Qed.
Lemma guard_Ret c e u : guard_raise c e = Ret u ↔ c = false.
Proof. destruct c, u; cbn; naive_solver. Qed.

Lemma check_then (m : outcome unit) (k : outcome unit) : m ≫= (λ _, k) = Ret tt ↔ m = Ret tt ∧ k = Ret tt.
Proof. destruct m as [[]|]; cbn; naive_solver. Qed.

(** Splits a successful sequence of checks into the success of each. *)
Ltac inv_checks H :=
  repeat match type of H with
  | _ ≫= _ = Ret _ => let x := fresh "x" in let Hx := fresh "Hx" in
      apply bind_Ret in H as (x & Hx & H); try apply guard_Ret in Hx
  end.

Definition boot_shape (c : VMConfig) : Prop :=
  (guest_os c = MACOS ∧ backend c = Some "vz" ∧ boot_mode c = platform ∧ is_some (macos_machine c) = true
   ∧ kernel_path c = None ∧ initrd_path c = None ∧ rootfs_path c = None ∧ rootfs_format c = None
   ∧ comm_channel c ≠ Some vsock ∧ env_vars c = [] ∧ na_mode (network_attachment c) = nat_mode
   ∧ restricted_settings (internet_settings c) = false)
  ∨ (guest_os c ≠ MACOS ∧ backend c ≠ Some "vz" ∧ macos_machine c = None ∧ is_some (rootfs_path c) = true
     ∧ (boot_mode c = firmware ∧ kernel_path c = None ∧ backend c = Some "qemu"
        ∨ boot_mode c = direct_kernel ∧ is_some (kernel_path c) = true ∧ guest_os c ≠ WINDOWS)).

Definition bridge_shape (c : VMConfig) : Prop :=
  na_mode (network_attachment c) = bridge_mode →
  guest_managed_networking c = true ∧ comm_channel c ≠ Some ssh ∧ workspace_mounts c = []
  ∧ port_forwards c = [] ∧ restricted_settings (internet_settings c) = false.

Lemma is_some_false {A} (o : option A) : is_some o = false ↔ o = None.
Proof. by destruct o. Qed.

Lemma boot_mode_exact c : _check_boot_mode_consistency c = Ret tt ↔ boot_shape c.
Proof.
  unfold _check_boot_mode_consistency, boot_shape. destruct (decide (guest_os c = MACOS)) as [Hm|Hm].
  - rewrite bool_decide_eq_true_2 by done.
    rewrite !guard_then, guard_done, !orb_false_iff, !negb_false_iff, !is_some_false.
    rewrite !bool_decide_eq_true, !bool_decide_eq_false.
    assert (na_mode (network_attachment c) ≠ bridge_mode ↔ na_mode (network_attachment c) = nat_mode)
      by (destruct (na_mode _); naive_solver). tauto.
  - rewrite bool_decide_eq_false_2 by done.
    rewrite !guard_then, check_then, guard_done, !negb_false_iff, !is_some_false, !bool_decide_eq_false.
    destruct (boot_mode c) eqn:Hb; rewrite ?bool_decide_eq_true_2, ?bool_decide_eq_false_2 by done.
    + rewrite guard_done, negb_false_iff. cbn [negb]. rewrite andb_true_r, bool_decide_eq_false.
      intuition congruence.
    + rewrite guard_then, guard_done, is_some_false, negb_false_iff, bool_decide_eq_true.
      cbn [negb]. rewrite andb_false_r. intuition congruence.
    + intuition congruence.
Qed.

Lemma bridge_mode_exact c : _check_bridge_mode_constraints c = Ret tt ↔ bridge_shape c.
Proof.
  unfold _check_bridge_mode_constraints, bridge_shape.
  destruct (decide (na_mode (network_attachment c) = bridge_mode)) as [Hm|Hm].
  - rewrite bool_decide_eq_true_2 by done. cbn [negb].
    rewrite !guard_then, guard_done, !negb_false_iff, !bool_decide_eq_true, bool_decide_eq_false,
      !length_zero_iff_nil. tauto.
  - rewrite bool_decide_eq_false_2 by done. cbn. tauto.
Qed.

Lemma mapM_outcome_id {A} (f : A → outcome A) l l' :
  (∀ x y, f x = Ret y → y = x) → mapM_outcome f l = Ret l' → l' = l.
Proof.
  intros Hf. revert l'. induction l as [|x l IH]; intros l'; cbn [mapM_outcome]; [by intros [= <-]|].
  intros H. inv_checks H. injection H as <-. f_equal; eauto.
Qed.
Lemma mapM_outcome_Forall2 {A B} (f : A → outcome B) l l' :
  mapM_outcome f l = Ret l' ↔ Forall2 (λ x y, f x = Ret y) l l'.
Proof.
  revert l'. induction l as [|x l IH]; intros l'; cbn [mapM_outcome].
  - split; [intros [= <-]; constructor|]. intros H. by inversion H.
  - split.
    + intros H. inv_checks H. injection H as <-. constructor; [done|]. by apply IH.
    + inversion 1 as [|???? Hx Hl]; subst. apply IH in Hl. by rewrite Hx, Hl.
Qed.

Lemma check_forwards_exact hosts guests v :
  check_forwards hosts guests v = Ret tt ↔
  NoDup (pf_host_port <$> v) ∧ NoDup (pf_guest_port <$> v)
  ∧ (∀ f, f ∈ v → ¬ (pf_host_port f ∈ hosts) ∧ ¬ (pf_guest_port f ∈ guests)).
Proof.
  revert hosts guests. induction v as [|f v IH]; intros hosts guests; cbn [check_forwards].
  { split; [intros _; split_and!; [constructor|constructor|by intros f ?%elem_of_nil]|done]. }
  rewrite !fmap_cons, !NoDup_cons. case_bool_decide as Hh; [split; [done|]; intros (_ & _ & H);
    by destruct (H f ltac:(by left))|].
  case_bool_decide as Hg; [split; [done|]; intros (_ & _ & H); by destruct (H f ltac:(by left))|].
  rewrite IH, !list_elem_of_fmap. setoid_rewrite elem_of_cons. naive_solver.
Qed.

(** The resolved tags from position [i] on. *)
Fixpoint tags_from (i : Z) (v : list WorkspaceMount) : list string :=
  match v with [] => [] | m :: v' => resolved_tag m i :: tags_from (i + 1) v' end.

Lemma check_mounts_exact i tags paths v :
  check_mounts i tags paths v = Ret tt ↔
  NoDup (tags_from i v) ∧ NoDup (wm_guest_path <$> v)
  ∧ (∀ t, t ∈ tags_from i v → t ∉ tags) ∧ (∀ m, m ∈ v → wm_guest_path m ∉ paths).
Proof.
  revert i tags paths. induction v as [|m v IH]; intros i tags paths; cbn [check_mounts tags_from].
  { split; [intros _; split_and!; [constructor|constructor|by intros ? ?%elem_of_nil..]|done]. }
  rewrite !fmap_cons, !NoDup_cons. case_bool_decide as Ht; [split; [done|]; intros (_ & _ & H & _);
    by destruct (H (resolved_tag m i) ltac:(by left))|].
  case_bool_decide as Hg; [split; [done|]; intros (_ & _ & _ & H); by destruct (H m ltac:(by left))|].
  rewrite IH, !list_elem_of_fmap. setoid_rewrite elem_of_cons. naive_solver.
Qed.

(** ** Validated values validate to themselves *)
Lemma nonempty_text_fixed v v' : validate_nonempty_text v = Ret v' → validate_nonempty_text v' = Ret v'.
Proof.
  unfold validate_nonempty_text. destruct (String.eqb (strip v) "") eqn:E; [done|]. intros [= <-].
  by rewrite strip_twice, E.
Qed.

Lemma macos_fixed m m' : MacOSMachineConfig_validate m = Ret m' → MacOSMachineConfig_validate m' = Ret m'.
Proof.
  unfold MacOSMachineConfig_validate. intros H. inv_checks H. injection H as <-.
  cbn [base_image guest_version mac_disk_size_mib display_width display_height ssh_user].
  repeat match goal with
  | Hx : validate_nonempty_text _ = Ret _ |- _ =>
      apply nonempty_text_fixed in Hx; rewrite Hx; clear Hx; cbn [mbind outcome_bind]
  | Hx : _ = false |- _ => rewrite Hx; clear Hx; cbn [guard_raise mbind outcome_bind]
  end. done.
Qed.

Lemma opt_fixed {A} (f : A → outcome A) o o' :
  (∀ x y, f x = Ret y → f y = Ret y) → opt_outcome f o = Ret o' → opt_outcome f o' = Ret o'.
Proof.
  intros Hf. destruct o as [x|]; cbn [opt_outcome]; [|by intros [= <-]].
  intros H. inv_checks H. injection H as <-. cbn. by erewrite Hf.
Qed.

Lemma attachment_fixed a a' :
  NetworkAttachmentConfig_validate a = Ret a' → NetworkAttachmentConfig_validate a' = Ret a'.
Proof.
  unfold NetworkAttachmentConfig_validate. intros H. inv_checks H.
  assert (a' = {| na_mode := na_mode a; na_bridge := x |}) as ->.
  { unfold _check_mode_bridge_consistency in H. cbn in H. by destruct (na_mode a), x; simplify_eq. }
  cbn [na_mode na_bridge]. assert (validate_bridge_name x = Ret x) as ->; [|done].
  revert Hx. unfold validate_bridge_name. destruct (na_bridge a) as [b|]; [|by intros [= <-]].
  repeat case_match; try done; intros [= <-]; rewrite strip_twice in *; congruence.
Qed.

(** What a second pass does to a mount: its host path is resolved again. *)
Definition resolve_again (fs : filesystem) (m : WorkspaceMount) : WorkspaceMount :=
  {| wm_host_path := fs_resolve fs (wm_host_path m); wm_guest_path := wm_guest_path m; mount_tag := mount_tag m; writable := writable m |}.
Lemma check_mounts_again fs v : ∀ i tags paths, check_mounts i tags paths (resolve_again fs <$> v) = check_mounts i tags paths v.
Proof. induction v as [|m v IH]; intros i tags paths; [done|]. simpl. rewrite IH. done. Qed.
Lemma mounts_again fs vp fs' v v' :
  validate_workspace_mounts fs vp v = Ret v' → validate_workspace_mounts fs' false v' = Ret (resolve_again fs' <$> v').
Proof.
  unfold validate_workspace_mounts. intros H. inv_checks H. injection H as <-.
  assert (mapM_outcome (WorkspaceMount_validate fs' false) x = Ret (resolve_again fs' <$> x)) as ->;
    [|cbn; by rewrite check_mounts_again, Hx0].
  apply mapM_outcome_Forall2 in Hx. apply mapM_outcome_Forall2. clear Hx0.
  induction Hx as [|m m' v x Hm _ IH]; constructor; [|done].
  unfold WorkspaceMount_validate in *. inv_checks Hm. injection Hm as <-. cbn [wm_host_path wm_guest_path].
  assert (x2 = wm_guest_path m) as -> by (revert Hx0; unfold validate_guest_path; case_match; congruence).
  by rewrite Hx0.
Qed.
Lemma resolve_again_same fs (v : list WorkspaceMount) : resolve_again fs <$> v = v ↔ ∀ m, m ∈ v → fs_resolve fs (wm_host_path m) = wm_host_path m.
Proof.
  induction v as [|m v IH]; [split; [by intros _ m ?%elem_of_nil|done]|]. rewrite fmap_cons. split.
  - intros [= Hm Hv] m' [->|Hin]%elem_of_cons; [by apply (f_equal wm_host_path) in Hm|by apply IH].
  - intros Hall. rewrite (proj2 IH) by (intros m' Hin; apply Hall; by right). f_equal.
    unfold resolve_again. rewrite Hall by left. by destruct m.
Qed.

Lemma path_reload fs o : validate_path_exists fs false o = Ret o.
Proof. by destruct o. Qed.

(** A configuration read back: the host paths of its mounts are resolved again. *)
Definition read_back (fs : filesystem) (c : VMConfig) : VMConfig :=
  vc_with c (macos_machine c) (internet_settings c) (resolve_again fs <$> workspace_mounts c) (network_attachment c).
Lemma boot_mode_mounts c mac ins wm wm' na :
  _check_boot_mode_consistency (vc_with c mac ins wm' na) = _check_boot_mode_consistency (vc_with c mac ins wm na).
Proof. done. Qed.
Lemma bridge_mode_mounts c mac ins wm wm' na : length wm' = length wm →
  _check_bridge_mode_constraints (vc_with c mac ins wm' na) = _check_bridge_mode_constraints (vc_with c mac ins wm na).
Proof. unfold _check_bridge_mode_constraints. simpl. by intros ->. Qed.
Lemma vmconfig_again fs vp fs' c c' :
  (∀ s, internet_settings c' = Some s → forallb plain_name (allowed_domains s) = true) →
  VMConfig_model_validate fs vp c = Ret c' → VMConfig_model_validate fs' false c' = Ret (read_back fs' c').
Proof.
  intros Hplain H. unfold VMConfig_model_validate in H. cbv zeta in H. inv_checks H.
  injection H as <-. unfold VMConfig_model_validate.
  cbn [vc_with vm_id vcpu_count memory kernel_path initrd_path rootfs_path macos_machine extra_drives
       disk_size_mib env_vars network_rate_limit_mbps port_forwards vsock_config internet_settings
       workspace_mounts network_attachment] in *.
  rewrite Hx, Hx0, Hx1. cbn [guard_raise mbind outcome_bind]. rewrite !path_reload. cbn [mbind outcome_bind].
  rewrite (opt_fixed _ _ _ macos_fixed Hx5). cbn [mbind outcome_bind validate_extra_drives negb].
  unfold at_least_one. rewrite Hx7, Hx8, Hx9, Hx10, Hx11. cbn [guard_raise mbind outcome_bind].
  assert (opt_outcome InternetSettings_model_validate x12 = Ret x12) as ->.
  { destruct (internet_settings c) as [s|]; cbn [opt_outcome] in Hx12; [|by injection Hx12 as <-].
    inv_checks Hx12. injection Hx12 as <-. cbn.
    by rewrite (InternetSettings_fixed s _ ltac:(done) (Hplain _ eq_refl)). }
  cbn [mbind outcome_bind]. rewrite (mounts_again _ _ fs' _ _ Hx13), (attachment_fixed _ _ Hx14).
  cbn [mbind outcome_bind]. change (vc_with (vc_with c x5 x12 x13 x14) x5 x12 (resolve_again fs' <$> x13) x14)
    with (vc_with c x5 x12 (resolve_again fs' <$> x13) x14).
  rewrite (boot_mode_mounts c x5 x12 x13), Hx15. cbn [mbind outcome_bind].
  rewrite (bridge_mode_mounts c x5 x12 x13) by apply length_fmap. by rewrite Hx16.
Qed.

Lemma forwards_sound v v' :
  validate_port_forwards v = Ret v' → NoDup (pf_host_port <$> v) ∧ NoDup (pf_guest_port <$> v).
Proof.
  unfold validate_port_forwards. intros H. inv_checks H. destruct x0. apply check_forwards_exact in Hx0.
  apply mapM_outcome_id in Hx; [subst x; tauto|]. intros f f' Hf. unfold PortForwardConfig_validate in Hf.
  inv_checks Hf. by injection Hf as <-.
Qed.
Lemma mounts_sound fs vp v v' :
  validate_workspace_mounts fs vp v = Ret v' → NoDup (tags_from 0 v') ∧ NoDup (wm_guest_path <$> v').
Proof.
  unfold validate_workspace_mounts. intros H. inv_checks H. destruct x0. injection H as <-.
  apply check_mounts_exact in Hx0. tauto.
Qed.
Lemma validate_keys_sound ks : validate_keys ks = Ret tt → ∀ k, k ∈ ks → valid_key k = true.
Proof.
  induction ks as [|k ks IH]; intros H k' Hk; [by apply elem_of_nil in Hk|].
  cbn [validate_keys] in H. inv_checks H. apply elem_of_cons in Hk as [->|Hk]; [|by apply IH].
  unfold validate_env_key in Hx. inv_checks Hx. apply guard_Ret in Hx. by apply negb_false_iff in Hx.
Qed.
Lemma path_sound fs p o :
  validate_path_exists fs true (Some p) = Ret o → fs_exists fs p = true ∧ fs_is_file fs p = true.
Proof. unfold validate_path_exists, _validate_file_path. by destruct (fs_exists fs p), (fs_is_file fs p). Qed.

(** ** Claims *)

(** C37: a configuration that validates is bootable as described: it has one of
    the three boot shapes, bridge networking excludes what it cannot carry,
    sizes are in range, no two forwards share a port on either side, no two
    mounts share a tag or a guest path, every environment key is valid, and,
    when paths are checked, the kernel and root file system are files. *)
Theorem vmconfig_invariant fs vp c c' :
  VMConfig_model_validate fs vp c = Ret c' →
  boot_shape c' ∧ bridge_shape c'
  ∧ (1 ≤ vcpu_count c' ≤ 32 ∧ 128 ≤ memory c' ≤ 32768)%Z
  ∧ NoDup (pf_host_port <$> port_forwards c') ∧ NoDup (pf_guest_port <$> port_forwards c')
  ∧ NoDup (tags_from 0 (workspace_mounts c')) ∧ NoDup (wm_guest_path <$> workspace_mounts c')
  ∧ (∀ k, k ∈ dkeys (env_vars c') → valid_key k = true)
  ∧ (vp = true → ∀ p, kernel_path c' = Some p ∨ rootfs_path c' = Some p →
       fs_exists fs p = true ∧ fs_is_file fs p = true).
Proof.
  intros H. unfold VMConfig_model_validate in H. cbv zeta in H. inv_checks H. injection H as <-.
  destruct x15, x16. apply boot_mode_exact in Hx15. apply bridge_mode_exact in Hx16.
  unfold in_range in Hx0, Hx1. bool_hyps.
  destruct (forwards_sound _ _ Hx10), (mounts_sound _ _ _ _ Hx13). destruct x8.
  split_and!; try done; [by apply validate_keys_sound|].
  intros -> p [Hp|Hp]; cbn in Hp; rewrite Hp in *; eauto using path_sound.
Qed.

(** C38: a configuration that was accepted is accepted again when it is read back
    from storage, whether or not the files it names still exist, if its stored
    domain names are neither padded with space nor IPv6 literals.  The second pass changes nothing but the host paths
    of workspace mounts, which are resolved again; so the configuration is
    unchanged exactly when each of them still resolves to itself. *)
Theorem vmconfig_reload fs vp fs' c c' :
  (∀ s, internet_settings c' = Some s → forallb plain_name (allowed_domains s) = true) →
  VMConfig_model_validate fs vp c = Ret c' →
  VMConfig_model_validate fs' false c' = Ret (read_back fs' c')
  ∧ (read_back fs' c' = c' ↔ ∀ m, m ∈ workspace_mounts c' → fs_resolve fs' (wm_host_path m) = wm_host_path m).
Proof.
  intros Hp Hv. split; [by eapply vmconfig_again|]. rewrite <- resolve_again_same. split.
  - intros Hr. exact (f_equal workspace_mounts Hr).
  - intros Hm. unfold read_back. rewrite Hm. by destruct c'.
Qed.

(** A validated network record is either a complete private network or a
    bare bridge attachment, and validates to itself. *)
Theorem network_config_shape n n' :
  NetworkConfig_model_validate n = Ret n' →
  (nc_mode n' = nat_mode ∧ nc_bridge n' = None ∧ is_some (guest_ip n') = true
   ∧ is_some (gateway_ip n') = true ∧ is_some (Types.netmask n') = true
   ∨ nc_mode n' = bridge_mode ∧ is_some (nc_bridge n') = true ∧ guest_ip n' = None ∧ gateway_ip n' = None
     ∧ Types.netmask n' = None ∧ ssh_host_port n' = None ∧ egress_proxy_host_port n' = None)
  ∧ NetworkConfig_model_validate n' = Ret n'.
Proof.
  unfold NetworkConfig_model_validate. cbv zeta. intros H. inv_checks H. injection H as <-. destruct x0.
  assert (_fill_nat_defaults (_fill_nat_defaults n) = _fill_nat_defaults n) as Hf.
  { unfold _fill_nat_defaults. destruct (nc_mode n) eqn:E; cbn; by rewrite ?E. }
  rewrite Hf, Hx, Hx0. split; [|done]. clear Hf Hx.
  set (n' := _fill_nat_defaults n) in *. unfold _check_nat_bridge_consistency in Hx0.
  destruct (nc_mode n'); rewrite !guard_then, guard_done, ?negb_false_iff, !is_some_false in Hx0; tauto.
Qed.

(** ** Witnesses *)
Definition demo_fs : filesystem :=
  {| fs_exists := λ _, true; fs_is_file := λ _, true; fs_is_dir := λ _, true; fs_resolve := id |}.
Definition demo_attachment (b : string) : NetworkAttachmentConfig :=
  {| na_mode := bridge_mode; na_bridge := Some b |}.
Definition demo_direct (b : string) : VMConfig :=
  {| vm_id := "vm-1"; preset := None; vcpu_count := 2; memory := 512; guest_os := ALPINE;
     boot_mode := direct_kernel; kernel_path := Some "/k"; initrd_path := None;
     rootfs_path := Some "/r"; rootfs_format := None; macos_machine := None; extra_drives := [];
     boot_args := ""; ssh_capable := false; backend := None; qemu_network := slirp;
     qemu_machine := machine_auto; disk_mode := isolated; disk_size_mib := None;
     grow_filesystem := false; retain_disk_on_delete := false; env_vars := [("A", "1")];
     network_rate_limit_mbps := None; port_forwards := []; vsock_config := None;
     comm_channel := Some vsock; internet_settings := None; workspace_mounts := [];
     ssh_public_key := None; guest_managed_networking := true; network_attachment := demo_attachment b |}.

Lemma vmconfig_invariant_witness :
  VMConfig_model_validate demo_fs true (demo_direct " br0 ") = Ret (demo_direct "br0")
  ∧ bridge_shape (demo_direct "br0").
Proof.
  assert (VMConfig_model_validate demo_fs true (demo_direct " br0 ") = Ret (demo_direct "br0")) as H
    by (vm_compute; reflexivity).
  split; [exact H|]. exact (proj1 (proj2 (vmconfig_invariant _ _ _ _ H))).
Defined.

Definition demo_mounted : VMConfig :=
  vc_with (demo_direct "br0") None
    (Some {| allowed_domains := ["example.com"]; allowed_cidrs := []; allowed_http_methods := ["*"]; is_mode := None |})
    [{| wm_host_path := "/w"; wm_guest_path := "/workspace"; mount_tag := None; writable := true |}]
    {| na_mode := nat_mode; na_bridge := None |}.
Lemma vmconfig_reload_witness :
  VMConfig_model_validate demo_fs false demo_mounted = Ret (read_back demo_fs demo_mounted)
  ∧ (read_back demo_fs demo_mounted = demo_mounted ↔
     ∀ m, m ∈ workspace_mounts demo_mounted → fs_resolve demo_fs (wm_host_path m) = wm_host_path m).
Proof.
  apply (vmconfig_reload demo_fs true demo_fs demo_mounted).
  - intros s [= <-]. reflexivity.
  - vm_compute. reflexivity.
Defined.

Definition demo_net : NetworkConfig :=
  {| guest_ip := Some "172.16.0.2"; gateway_ip := None; Types.netmask := None; tap_device := "tap0";
     guest_mac := "AA:FC:00:00:00:01"; ssh_host_port := None; egress_proxy_host_port := None;
     nc_mode := nat_mode; nc_bridge := None |}.
Lemma network_config_shape_witness :
  NetworkConfig_model_validate (_fill_nat_defaults demo_net) = Ret (_fill_nat_defaults demo_net).
Proof. apply (network_config_shape demo_net (_fill_nat_defaults demo_net)). vm_compute. reflexivity. Defined.

(** ** The metadata of a public-egress session *)

(** [PublicEgressSession.prepare] revalidates its base network with the
    proxy's port added; on a validated network that returns
    [with_proxy_port], the value the session model stores. *)
Lemma with_proxy_port_valid n port :
  NetworkConfig_model_validate n = Ret n → nc_mode n = nat_mode → in_range 1 65535 port = true →
  NetworkConfig_model_validate (EgressSession.with_proxy_port port n)
  = Ret (EgressSession.with_proxy_port port n).
Proof.
  unfold NetworkConfig_model_validate. cbv zeta. intros H Hm Hp. inv_checks H.
  injection H as Hf. rewrite Hf in *. destruct x0.
  assert (_fill_nat_defaults (EgressSession.with_proxy_port port n)
          = EgressSession.with_proxy_port port n) as ->.
  { pose proof (f_equal gateway_ip Hf) as Hg. pose proof (f_equal Types.netmask Hf) as Hk. clear Hf.
    unfold _fill_nat_defaults, EgressSession.with_proxy_port in *. rewrite Hm in *. cbn in *.
    by rewrite Hg, Hk. }
  unfold _check_nat_bridge_consistency in *. cbn. rewrite Hm in *. by rewrite Hp, Hx0.
Qed.
