(* ===== verification/Channel.v ===== *)
(** * comm/select.py: which channel controls a guest

    The host is an argument: [platform.system()] and whether the vhost-vsock
    device node exists. *)
From S2P Require Import Prelude PyStr Types.
From stdpp Require Import options.

Definition BACKEND_FIRECRACKER : string := "firecracker".
Definition BACKEND_QEMU : string := "qemu".

(** [VsockNotSupportedError(code, ...)] is a [CelestoError] with that code. *)
Definition VsockNotSupportedError (code : string) : exn := CelestoError code.

Section channel.
Context (platform_system : string) (vhost_vsock_exists : bool).

Definition host_supports_vsock : bool := String.eqb platform_system "Linux" && vhost_vsock_exists.

Definition resolve_comm_channel (requested config_channel : option CommChannelKind)
    (backend guest_os : option string) (host_vsock_supported : option bool) : outcome CommChannelKind :=
  let host_vsock := match host_vsock_supported with Some b => b | None => host_supports_vsock end in
  let is_windows := bool_decide (guest_os = Some "windows") in
  let is_qemu := bool_decide (backend = Some BACKEND_QEMU) in
  let is_firecracker := bool_decide (backend = Some BACKEND_FIRECRACKER) in
  let host_is_linux := String.eqb platform_system "Linux" in
  let vsock_possible := negb is_windows && ((is_qemu && host_vsock) || (is_firecracker && host_is_linux)) in
  let effective := match requested with Some r => Some r | None => config_channel end in
  match effective with
  | Some ssh => Ret ssh
  | Some vsock =>
      if is_windows then Raise (VsockNotSupportedError "vsock_not_supported_for_windows")
      else if negb (is_qemu || is_firecracker)
      then Raise (VsockNotSupportedError "vsock_not_supported_for_backend")
      else if is_qemu && negb host_vsock
      then Raise (VsockNotSupportedError "vsock_host_device_missing")
      else if is_firecracker && negb host_is_linux
      then Raise (VsockNotSupportedError "vsock_not_supported_for_firecracker_host")
      else Ret vsock
  | None => if vsock_possible then Ret vsock else Ret ssh
  end.

(** Where vsock can work: a guest that is not Windows, under QEMU on a host
    with the device, or under Firecracker on Linux. *)
Definition vsock_works (backend guest_os : option string) (host_vsock_supported : option bool) : Prop :=
  guest_os ≠ Some "windows"
  ∧ (backend = Some "qemu" ∧ default host_supports_vsock host_vsock_supported = true
     ∨ backend = Some "firecracker" ∧ platform_system = "Linux").

(** The caller's choice wins over the stored one; an explicit vsock is
    honoured where vsock can work and refused elsewhere, never downgraded; with
    no choice, vsock is used exactly where it can work. *)
Theorem channel_choice_exact requested config_channel backend guest_os hv :
  let effective := match requested with Some r => Some r | None => config_channel end in
  let result := resolve_comm_channel requested config_channel backend guest_os hv in
  (result = Ret vsock ↔ effective ≠ Some ssh ∧ vsock_works backend guest_os hv)
  ∧ (result = Ret ssh ↔ effective = Some ssh ∨ effective = None ∧ ¬ vsock_works backend guest_os hv)
  ∧ (raised result = true ↔ effective = Some vsock ∧ ¬ vsock_works backend guest_os hv).
Proof.
  cbv zeta. unfold resolve_comm_channel, vsock_works, BACKEND_QEMU, BACKEND_FIRECRACKER.
  set (e := match requested with Some r => Some r | None => config_channel end).
  change (default host_supports_vsock hv) with (match hv with Some b => b | None => host_supports_vsock end).
  generalize (match hv with Some b => b | None => host_supports_vsock end). intros h.
  destruct (decide (guest_os = Some "windows")) as [->|Hw];
    [rewrite (bool_decide_eq_true_2 (Some "windows" = Some "windows")) by done
    |rewrite (bool_decide_eq_false_2 (guest_os = Some "windows")) by done].
  - destruct e as [[]|]; cbn; naive_solver.
  - destruct (decide (backend = Some "qemu")) as [->|Hq].
    + rewrite bool_decide_eq_true_2 by done. rewrite bool_decide_eq_false_2 by done.
      destruct h, e as [[]|]; cbn; naive_solver.
    + rewrite (bool_decide_eq_false_2 (backend = Some "qemu")) by done.
      destruct (decide (backend = Some "firecracker")) as [->|Hf].
      * rewrite bool_decide_eq_true_2 by done.
        destruct (String.eqb_spec platform_system "Linux"), e as [[]|]; cbn; naive_solver.
      * rewrite bool_decide_eq_false_2 by done. destruct e as [[]|]; cbn; naive_solver.
Qed.
End channel.
