(* ===== verification/Streaming.v ===== *)
(** * _streaming.py: bounded lines of a command stream

    [iter_bounded_lines] cuts transport chunks into lines and refuses a line
    whose content is over the event limit without buffering it.  Its result
    is the lines it yields and whether it then raised. *)
From S2P Require Import Prelude PyStr IpAddress PyUrl.
From stdpp Require Import options.
From Stdlib Require Import Ascii.

Definition _MAX_EVENT_BYTES : Z := 1024 * 1024.

Definition lf : ascii := ascii_of_nat 10.
Definition cr : ascii := ascii_of_nat 13.
Definition lf_text : string := String lf "".
Definition slen (s : string) : Z := Z.of_nat (String.length s).
Definition ends_cr (s : string) : bool := endswith_char cr s.

(** The lines yielded, and the exception that ended the generator. *)
Definition stream : Type := list string * option exn.
Definition too_large : exn := CelestoError "Command stream returned an event that was too large.".
Definition yield_first (l : string) (r : stream) : stream := (l :: r.1, r.2).

(** The [while] loop over one chunk, from the partial line [line]: the lines it
    yields and the new partial line, or [None] when it raises.  Each turn
    consumes part of the chunk, so its length is enough fuel. *)
Fixpoint chunk_loop (fuel : nat) (line chunk : string) : list string * option string :=
  match fuel, chunk with
  | _, "" => ([], Some line)
  | O, _ => ([], None)
  | S fuel', _ =>
      match partition_char lf chunk with
      | (before, Some rest) =>
          let part := before +:+ lf_text in
          let content_size := slen line + slen part - 1
            - (if ends_cr before || (String.eqb part lf_text && ends_cr line) then 1 else 0) in
          if _MAX_EVENT_BYTES <? content_size then ([], None)
          else let '(ys, o) := chunk_loop fuel' "" rest in ((line +:+ part) :: ys, o)
      | (part, None) =>
          let content_size := slen line + slen part - (if ends_cr part then 1 else 0) in
          if _MAX_EVENT_BYTES <? content_size then ([], None)
          else ([], Some (line +:+ part))
      end
  end%Z.

Fixpoint bounded_lines_from (line : string) (chunks : list string) : stream :=
  match chunks with
  | [] =>
      if (_MAX_EVENT_BYTES <? slen line)%Z then ([], Some too_large)
      else if String.eqb line "" then ([], None) else ([line], None)
  | chunk :: chunks' =>
      match chunk_loop (String.length chunk) line chunk with
      | (ys, Some line') => let '(zs, e) := bounded_lines_from line' chunks' in (ys ++ zs, e)
      | (ys, None) => (ys, Some too_large)
      end
  end.
Definition iter_bounded_lines (chunks : list string) : stream := bounded_lines_from "" chunks.

(** ** The specification, on the whole stream *)

(** The size of a line's content: a carriage return before the line feed does
    not count. *)
Definition content (line : string) : Z := (slen line - if ends_cr line then 1 else 0)%Z.

Fixpoint lines_from (cur s : string) : stream :=
  match s with
  | "" => if (_MAX_EVENT_BYTES <? slen cur)%Z then ([], Some too_large)
          else if String.eqb cur "" then ([], None) else ([cur], None)
  | String c s' =>
      if Ascii.eqb c lf then
        if (_MAX_EVENT_BYTES <? content cur)%Z then ([], Some too_large)
        else yield_first (cur +:+ lf_text) (lines_from "" s')
      else lines_from (cur +:+ String c "") s'
  end.

(** ** Lemmas *)
Lemma slen_app a b : slen (a +:+ b) = (slen a + slen b)%Z.
Proof. unfold slen. rewrite length_str_app. lia. Qed.
Lemma slen_nonneg a : (0 ≤ slen a)%Z.
Proof. unfold slen. lia. Qed.
Lemma ends_cr_app a b : ends_cr (a +:+ b) = if String.eqb b "" then ends_cr a else ends_cr b.
Proof.
  unfold ends_cr, endswith_char. destruct (String.eqb_spec b "") as [->|Hb]; [by rewrite str_app_nil_r|].
  by rewrite last_char_app.
Qed.
Lemma content_app_char cur c :
  (_MAX_EVENT_BYTES < content cur)%Z → (_MAX_EVENT_BYTES < content (cur +:+ String c ""))%Z.
Proof.
  unfold content. rewrite ends_cr_app, slen_app. change (slen (String c "")) with 1%Z. cbn [String.eqb].
  destruct (ends_cr cur), (ends_cr (String c "")); lia.
Qed.

(** An over-long partial line ends the stream whatever follows. *)
Lemma lines_too_long cur s :
  (_MAX_EVENT_BYTES < content cur)%Z → lines_from cur s = ([], Some too_large).
Proof.
  revert cur. induction s as [|c s IH]; intros cur Hc; cbn [lines_from].
  - rewrite (proj2 (Z.ltb_lt _ _)); [done|]. unfold content in Hc. destruct (ends_cr cur); lia.
  - destruct (Ascii.eqb c lf); [by rewrite (proj2 (Z.ltb_lt _ _))|]. by apply IH, content_app_char.
Qed.

(** Characters up to the first line feed only extend the partial line. *)
Lemma lines_from_app cur a s :
  contains_char lf a = false → lines_from cur (a +:+ s) = lines_from (cur +:+ a) s.
Proof.
  revert cur. induction a as [|c a IH]; intros cur Ha; [by rewrite str_app_nil_r|].
  unfold contains_char, str_any in Ha. cbn [str_all] in Ha. apply negb_false_iff, andb_true_iff in Ha as [Hc Ha].
  change (String c a +:+ s) with (String c (a +:+ s)). cbn [lines_from]. apply negb_true_iff in Hc.
  rewrite Ascii.eqb_sym in Hc. rewrite Hc, IH; [|by apply negb_false_iff]. by rewrite string_app_assoc.
Qed.

Lemma partition_spec sep s :
  match partition_char sep s with
  | (a, Some b) => s = a +:+ String sep b ∧ contains_char sep a = false
  | (a, None) => s = a ∧ contains_char sep a = false
  end.
Proof.
  induction s as [|c s IH]; [done|]. cbn [partition_char].
  destruct (Ascii.eqb_spec c sep) as [->|Hne]; [done|].
  assert (∀ a, contains_char sep a = false → contains_char sep (String c a) = false) as Hc.
  { intros a. unfold contains_char, str_any. cbn [str_all]. rewrite !negb_false_iff, andb_true_iff, negb_true_iff.
    intros Ha. split; [|done]. by apply Ascii.eqb_neq. }
  destruct (partition_char sep s) as [a [b|]]; destruct IH as [-> Ha]; split; auto.
Qed.

(** One chunk refines the specification. *)
Lemma chunk_loop_spec fuel line chunk rest :
  String.length chunk ≤ fuel →
  match chunk_loop fuel line chunk with
  | (ys, Some line') =>
      lines_from line (chunk +:+ rest) = (ys ++ (lines_from line' rest).1, (lines_from line' rest).2)
  | (ys, None) => lines_from line (chunk +:+ rest) = (ys, Some too_large)
  end.
Proof.
  revert line chunk. induction fuel as [|fuel IH]; intros line chunk Hf;
    (destruct chunk as [|c0 chunk0]; [cbn; change ("" +:+ rest) with rest; by destruct (lines_from line rest)|]);
    [simpl in Hf; lia|].
  set (chunk := String c0 chunk0) in *. cbn [chunk_loop]. unfold chunk at 1. fold chunk.
  pose proof (partition_spec lf chunk) as Hp. destruct (partition_char lf chunk) as [before [after|]].
  - destruct Hp as [Hc Hb]. rewrite Hc.
    assert ((before +:+ String lf after) +:+ rest = before +:+ String lf (after +:+ rest)) as ->
      by apply (string_app_assoc before (String lf after) rest).
    rewrite lines_from_app by done. cbn [lines_from]. rewrite Ascii.eqb_refl.
    assert (slen line + slen (before +:+ lf_text) - 1
            - (if ends_cr before || (String.eqb (before +:+ lf_text) lf_text && ends_cr line) then 1 else 0)
            = content (line +:+ before))%Z as ->.
    { unfold content. rewrite ends_cr_app, !slen_app. change (slen lf_text) with 1%Z.
      destruct before as [|x b].
      { change ("" +:+ lf_text) with lf_text. rewrite String.eqb_refl. change (slen "") with 0%Z.
        change (ends_cr "") with false. cbn [orb andb String.eqb]. destruct (ends_cr line); lia. }
      assert (String.eqb (String x b +:+ lf_text) lf_text = false) as ->.
      { apply String.eqb_neq. intros E. apply (f_equal slen) in E. rewrite slen_app in E.
        change (slen lf_text) with 1%Z in E. unfold slen in E. simpl in E. lia. }
      rewrite andb_false_l, orb_false_r. cbn [String.eqb]. lia. }
    destruct (_MAX_EVENT_BYTES <? content (line +:+ before))%Z; [done|].
    assert (String.length after ≤ fuel) as Hl.
    { apply (f_equal String.length) in Hc. rewrite length_str_app in Hc. simpl in Hc, Hf. lia. }
    specialize (IH "" after Hl). rewrite string_app_assoc.
    destruct (chunk_loop fuel "" after) as [ys [line'|]]; rewrite IH; unfold yield_first; done.
  - destruct Hp as [<- Hb]. rewrite lines_from_app by done.
    assert (slen line + slen chunk - (if ends_cr chunk then 1 else 0) = content (line +:+ chunk))%Z as ->.
    { unfold content. rewrite ends_cr_app, slen_app. change (String.eqb chunk "") with false. done. }
    destruct (Z.ltb_spec _MAX_EVENT_BYTES (content (line +:+ chunk))).
    + by apply lines_too_long.
    + by destruct (lines_from (line +:+ chunk) rest).
Qed.

Fixpoint str_concat (l : list string) : string :=
  match l with [] => "" | s :: l' => s +:+ str_concat l' end.

Lemma bounded_lines_spec line chunks :
  bounded_lines_from line chunks = lines_from line (str_concat chunks).
Proof.
  revert line. induction chunks as [|c chunks IH]; intros line; [done|]. cbn [bounded_lines_from str_concat].
  pose proof (chunk_loop_spec (String.length c) line c (str_concat chunks) (Nat.le_refl _)) as Hc.
  destruct (chunk_loop _ line c) as [ys [line'|]]; rewrite Hc; [|done].
  rewrite IH. by destruct (lines_from line' _).
Qed.

(** C39: what the line splitter yields, and whether it refuses the stream,
    depends only on the bytes received and not on how the transport cut them
    into chunks: each line up to its line feed, refused when its content, less
    a final carriage return, is over the limit. *)
Theorem bounded_lines_chunking chunks : iter_bounded_lines chunks = lines_from "" (str_concat chunks).
Proof. exact (bounded_lines_spec "" chunks). Qed.

(** ** Bounds *)
Definition crlf_text : string := String cr lf_text.
(** A line of the stream: its content and its line ending.  A line feed ends it,
    with the carriage return before it; only a last line may have neither. *)
Definition bounded_line (last : bool) (l : string) : Prop :=
  ∃ body ending, l = body +:+ ending ∧ contains_char lf body = false ∧ (slen body ≤ _MAX_EVENT_BYTES)%Z
    ∧ (ending = crlf_text ∨ (ending = lf_text ∧ ends_cr body = false) ∨ (ending = "" ∧ last = true ∧ body ≠ "")).
Fixpoint bounded_stream (ls : list string) : Prop :=
  match ls with
  | [] => True
  | [l] => bounded_line true l
  | l :: ls => bounded_line false l ∧ bounded_stream ls
  end.
(** The partial line that is kept between two chunks. *)
Fixpoint kept (line : string) (chunks : list string) : option string :=
  match chunks with
  | [] => Some line
  | chunk :: chunks => match (chunk_loop (String.length chunk) line chunk).2 with Some line => kept line chunks | None => None end
  end.

Lemma bounded_line_weaken l : bounded_line false l → bounded_line true l.
Proof. intros (b & e & -> & Hb & Hs & He). exists b, e. naive_solver. Qed.
Lemma bounded_cons l ls : bounded_line false l → bounded_stream ls → bounded_stream (l :: ls).
Proof. destruct ls; [|done]. intros ? _. by apply bounded_line_weaken. Qed.
Lemma ends_cr_split s : ends_cr s = true → ∃ t, s = t +:+ String cr "".
Proof.
  unfold ends_cr, endswith_char. induction s as [|c s IH]; [done|]. cbn [last_char]. destruct s as [|d s].
  - intros ->%Ascii.eqb_eq. by exists "".
  - intros H. destruct (IH H) as [t ->]. by exists (String c t).
Qed.
Lemma contains_char_app c a b : contains_char c (a +:+ b) = contains_char c a || contains_char c b.
Proof. unfold contains_char, str_any. rewrite str_all_app. by destruct (str_all _ a). Qed.
Lemma bounded_line_lf cur :
  contains_char lf cur = false → (content cur ≤ _MAX_EVENT_BYTES)%Z → bounded_line false (cur +:+ lf_text).
Proof.
  unfold content. intros Hlf Hc. destruct (ends_cr cur) eqn:He.
  - destruct (ends_cr_split cur He) as [t ->]. rewrite contains_char_app in Hlf. apply orb_false_iff in Hlf as [Hlf _]. rewrite slen_app in Hc.
    change (slen (String cr "")) with 1%Z in Hc. exists t, crlf_text. rewrite string_app_assoc. split_and!; [done..|lia|by left].
  - exists cur, lf_text. split_and!; [done..|lia|]. right. by left.
Qed.
Lemma lines_from_bound s : ∀ cur, contains_char lf cur = false → bounded_stream (lines_from cur s).1.
Proof.
  induction s as [|c s IH]; intros cur Hcur; cbn [lines_from].
  - destruct (Z.ltb_spec _MAX_EVENT_BYTES (slen cur)); [done|]. destruct (String.eqb_spec cur ""); [done|]. cbn.
    exists cur, "". rewrite str_app_nil_r. split_and!; [done..|]. right. by right.
  - destruct (Ascii.eqb_spec c lf) as [->|Hc].
    + destruct (Z.ltb_spec _MAX_EVENT_BYTES (content cur)); [done|]. apply bounded_cons; [by apply bounded_line_lf|by apply IH].
    + apply IH. rewrite contains_char_app, Hcur. unfold contains_char, str_any. cbn [str_all orb]. rewrite andb_true_r, negb_involutive.
      apply Ascii.eqb_neq. congruence.
Qed.
Lemma chunk_loop_kept fuel : ∀ line chunk ys line', String.length chunk ≤ fuel →
  (slen line ≤ _MAX_EVENT_BYTES + 1)%Z → chunk_loop fuel line chunk = (ys, Some line') → (slen line' ≤ _MAX_EVENT_BYTES + 1)%Z.
Proof.
  induction fuel as [|fuel IH]; intros line chunk ys line' Hf Hl; destruct chunk as [|c chunk]; cbn [chunk_loop];
    [by intros [= _ <-]|done|by intros [= _ <-]|].
  pose proof (partition_spec lf (String c chunk)) as Hp. destruct (partition_char lf (String c chunk)) as [before [rest|]].
  - destruct Hp as [Hc _]. destruct (_ <? _)%Z; [done|]. destruct (chunk_loop fuel "" rest) as [zs o] eqn:Hr. intros [= _ ->].
    apply (IH "" rest zs line'); [|by vm_compute|done].
    apply (f_equal String.length) in Hc. rewrite length_str_app in Hc. simpl in Hc, Hf. lia.
  - destruct (Z.ltb_spec _MAX_EVENT_BYTES (slen line + slen before - (if ends_cr before then 1 else 0))) as [|Hs]; [done|].
    intros [= _ <-]. rewrite slen_app. destruct (ends_cr before); lia.
Qed.
Lemma kept_bound chunks : ∀ line, (slen line ≤ _MAX_EVENT_BYTES + 1)%Z →
  from_option (λ l, (slen l ≤ _MAX_EVENT_BYTES + 1)%Z) True (kept line chunks).
Proof.
  induction chunks as [|c chunks IH]; intros line Hl; [done|]. cbn [kept].
  destruct (chunk_loop _ line c) as [ys [line'|]] eqn:Hc; [|done]. apply IH. by eapply chunk_loop_kept.
Qed.

(** C40: every yielded line is its content, at most the event limit and without
    a line feed, followed by its ending: CRLF, or LF after a content that does not
    end in a carriage return; only the last line may have no ending.  And while
    the stream is read, the partial line that is kept between two chunks never
    grows beyond the limit and one byte, the carriage return whose line feed may
    follow. *)
Theorem bounded_lines_bounded chunks :
  bounded_stream (iter_bounded_lines chunks).1 ∧
  ∀ n, from_option (λ l, (slen l ≤ _MAX_EVENT_BYTES + 1)%Z) True (kept "" (take n chunks)).
Proof.
  split; [|intros n; by apply kept_bound]. unfold iter_bounded_lines. rewrite bounded_lines_spec. by apply lines_from_bound.
Qed.
