(* ===== verification/PyHoare.v ===== *)
(** * A program logic for stateful methods

    [wp m Q E s] says how a call [m] ends when it starts in [s]: with a value
    and a state that satisfy [Q], or with an exception and a state that
    satisfy [E].  The rules follow the monad of Prelude.v; [keeps] is the
    special case of an invariant that holds however the call ends. *)
From S2P Require Import Prelude.
From stdpp Require Import options.

(** [with suppress(Exception): body] *)
Definition py_suppress {S} (body : py S unit) : py S unit := py_try body (λ _, py_return tt).

(** [for x in l: body(x)] *)
Fixpoint py_for {S A} (l : list A) (body : A → py S unit) : py S unit :=
  match l with
  | [] => py_return tt
  | x :: l' => do! body x in py_for l' body
  end.

(** [if c: body] *)
Definition py_when {S} (c : bool) (body : py S unit) : py S unit :=
  if c then body else py_return tt.

Section wp.
Context {S : Type}.
Implicit Types s : S.

Definition wp {A} (m : py S A) (Q : A → S → Prop) (E : exn → S → Prop) s : Prop :=
  match m s with (s', Ret a) => Q a s' | (s', Raise e) => E e s' end.

Lemma wp_eq {A} (m : py S A) Q E s s' r :
  wp m Q E s → m s = (s', r) → match r with Ret a => Q a s' | Raise e => E e s' end.
Proof. unfold wp. intros H Heq. rewrite Heq in H. by destruct r. Qed.

Lemma wp_intro {A} (m : py S A) (Q : A → S → Prop) (E : exn → S → Prop) s :
  (∀ s' a, m s = (s', Ret a) → Q a s') → (∀ s' e, m s = (s', Raise e) → E e s') → wp m Q E s.
Proof. unfold wp. intros HQ HE. destruct (m s) as [s' []]; auto. Qed.

Lemma wp_mono {A} (m : py S A) (Q Q' : A → S → Prop) (E E' : exn → S → Prop) s :
  wp m Q E s → (∀ a s', Q a s' → Q' a s') → (∀ e s', E e s' → E' e s') → wp m Q' E' s.
Proof. unfold wp. intros H HQ HE. destruct (m s) as [s' []]; auto. Qed.

Lemma wp_conj {A} (m : py S A) (Q Q' : A → S → Prop) (E E' : exn → S → Prop) s :
  wp m Q E s → wp m Q' E' s → wp m (λ a s', Q a s' ∧ Q' a s') (λ e s', E e s' ∧ E' e s') s.
Proof. unfold wp. by destruct (m s) as [s' []]. Qed.

Lemma wp_return {A} (a : A) (Q : A → S → Prop) E s : Q a s → wp (py_return a) Q E s.
Proof. done. Qed.
Lemma wp_raise {A} e (Q : A → S → Prop) (E : exn → S → Prop) s : E e s → wp (py_raise e) Q E s.
Proof. done. Qed.
Lemma wp_get (Q : S → S → Prop) E s : Q s s → wp py_get Q E s.
Proof. done. Qed.
Lemma wp_modify f (Q : unit → S → Prop) E s : Q tt (f s) → wp (py_modify f) Q E s.
Proof. done. Qed.
Lemma wp_lift {A} (o : outcome A) (Q : A → S → Prop) (E : exn → S → Prop) s :
  (∀ a, o = Ret a → Q a s) → (∀ e, o = Raise e → E e s) → wp (py_lift o) Q E s.
Proof. unfold wp, py_lift. destruct o; auto. Qed.

Lemma wp_bind {A B} (m : py S A) (f : A → py S B) Q E s :
  wp m (λ a, wp (f a) Q E) E s → wp (py_bind m f) Q E s.
Proof. unfold wp, py_bind. by destruct (m s) as [s' []]. Qed.

Lemma wp_bind_inv {A B} (m : py S A) (f : A → py S B) Q E s :
  wp (py_bind m f) Q E s → wp m (λ a, wp (f a) Q E) E s.
Proof. unfold wp, py_bind. by destruct (m s) as [s' []]. Qed.

Lemma wp_try {A} (m : py S A) h Q E s :
  wp m Q (λ e, wp (h e) Q E) s → wp (py_try m h) Q E s.
Proof. unfold wp, py_try. by destruct (m s) as [s' []]. Qed.

Lemma wp_suppress (m : py S unit) (Q : unit → S → Prop) E s :
  wp m Q (λ _ s', Q tt s') s → wp (py_suppress m) Q E s.
Proof. intros H. apply wp_try. by eapply wp_mono; [exact H|..]. Qed.

Lemma wp_when c (m : py S unit) (Q : unit → S → Prop) E s :
  (c = true → wp m Q E s) → (c = false → Q tt s) → wp (py_when c m) Q E s.
Proof. destruct c; intros H1 H2; [by apply H1|]. by apply wp_return, H2. Qed.

(** A loop keeps what its body keeps. *)
Lemma wp_for {A} (l : list A) (body : A → py S unit) (I : S → Prop) (E : exn → S → Prop) s :
  (∀ x s', x ∈ l → I s' → wp (body x) (λ _, I) E s') → I s → wp (py_for l body) (λ _, I) E s.
Proof.
  revert s. induction l as [|x l IH]; intros s Hb HI; simpl; [done|].
  apply wp_bind. eapply wp_mono; [apply Hb; [by left|done]| |done].
  intros ? s' HI'. apply IH; [|done]. intros y s2 Hy. apply Hb. by right.
Qed.

(** ** Invariants *)
Definition keeps {A} (I : S → Prop) (m : py S A) : Prop := ∀ s, I s → wp m (λ _, I) (λ _, I) s.

Lemma keeps_state {A} I (m : py S A) s s' r : keeps I m → I s → m s = (s', r) → I s'.
Proof. intros H HI Hm. specialize (H s HI). unfold wp in H. rewrite Hm in H. by destruct r. Qed.

Lemma keeps_return {A} I (a : A) : keeps I (py_return a).
Proof. by intros s. Qed.
Lemma keeps_raise {A} I e : keeps I (py_raise e : py S A).
Proof. by intros s. Qed.
Lemma keeps_lift {A} I (o : outcome A) : keeps I (py_lift o).
Proof. intros s HI. by apply wp_lift. Qed.
Lemma keeps_get I : keeps I py_get.
Proof. by intros s. Qed.
Lemma keeps_modify I f : (∀ s, I s → I (f s)) → keeps I (py_modify f).
Proof. intros H s HI. by apply wp_modify, H. Qed.
Lemma keeps_bind {A B} I (m : py S A) (f : A → py S B) :
  keeps I m → (∀ a, keeps I (f a)) → keeps I (py_bind m f).
Proof.
  intros Hm Hf s HI. apply wp_bind. eapply wp_mono; [by apply Hm| |done].
  intros a s' HI'. by apply Hf.
Qed.
Lemma keeps_try {A} I (m : py S A) h :
  keeps I m → (∀ e, keeps I (h e)) → keeps I (py_try m h).
Proof.
  intros Hm Hh s HI. apply wp_try. eapply wp_mono; [by apply Hm|done|].
  intros e s' HI'. by apply Hh.
Qed.
Lemma keeps_suppress I (m : py S unit) : keeps I m → keeps I (py_suppress m).
Proof. intros Hm. apply keeps_try; [done|]. intros. apply keeps_return. Qed.
Lemma keeps_when I c (m : py S unit) : keeps I m → keeps I (py_when c m).
Proof. destruct c; [done|]. intros _. apply keeps_return. Qed.
Lemma keeps_for {A} I (l : list A) (body : A → py S unit) :
  (∀ x, keeps I (body x)) → keeps I (py_for l body).
Proof. intros Hb s HI. apply wp_for; [|done]. intros x s' _. apply Hb. Qed.
End wp.

#[export] Hint Resolve keeps_return keeps_raise keeps_lift keeps_get keeps_bind keeps_try
  keeps_suppress keeps_when keeps_for : celesto.

(** Walks through a call, leaving the primitive calls it makes as goals. *)
Ltac wp_step :=
  lazymatch goal with
  | |- wp (py_bind _ _) _ _ _ => apply wp_bind
  | |- wp (py_try _ _) _ _ _ => apply wp_try
  | |- wp (py_suppress _) _ _ _ => apply wp_suppress
  | |- wp (py_return _) _ _ _ => apply wp_return
  | |- wp (py_raise _) _ _ _ => apply wp_raise
  | |- wp py_get _ _ _ => apply wp_get
  | |- wp (py_modify _) _ _ _ => apply wp_modify
  | |- wp (py_when _ _) _ _ _ => apply wp_when; intros ?
  | |- wp (if ?b then _ else _) _ _ _ => destruct b eqn:?
  | |- wp (match ?o with _ => _ end) _ _ _ => destruct o eqn:?
  end.
Ltac wp_steps := repeat (wp_step; cbv beta).

(** The same, forgetting what the calls it does not know may do. *)
Ltac wp_skip := apply wp_intro; intros ? ? _.
Ltac wp_walk := repeat (cbv beta; first [wp_step | lazymatch goal with |- wp _ _ _ _ => wp_skip end]).
