(* ===== verification/StateProtocol.v ===== *)
(** * storage/_protocol.py: what the manager may assume of an inventory

    [StateManager] lists the operations of [StateManagerProtocol] that the
    computer manager calls.  [StateManagerLaws] states their contract over the
    abstract inventory a state denotes: five finite maps keyed by computer.
    An operation that raises leaves the inventory as it was; one that returns
    changes only the computer it names.  [StateManagerTotal] adds which calls
    cannot fail.  The clients' theorems are proved from these classes; the
    in-memory manager is their instance (StateProtocolMemory.v).  The SQLite
    manager keeps the contract as long as no connection fails after a commit:
    its [update_vm] reads the row back over a second connection
    (SqliteProofs.v). *)
From S2P Require Import Prelude PyHoare PyDict StorageBase Types MemoryState.
From stdpp Require Import options.

Record Inventory := {
  iv_vms : gmap string VMInfo;
  iv_ips : gmap string (string * string);
  iv_ports : gmap string Z;
  iv_cids : gmap string Z;
  iv_taps : gmap string (string * string * option string) }.

Definition iv_set_vms (f : gmap string VMInfo → gmap string VMInfo) (v : Inventory) : Inventory :=
  {| iv_vms := f (iv_vms v); iv_ips := iv_ips v; iv_ports := iv_ports v; iv_cids := iv_cids v;
     iv_taps := iv_taps v |}.
Definition iv_set_ips f (v : Inventory) : Inventory :=
  {| iv_vms := iv_vms v; iv_ips := f (iv_ips v); iv_ports := iv_ports v; iv_cids := iv_cids v;
     iv_taps := iv_taps v |}.
Definition iv_set_ports f (v : Inventory) : Inventory :=
  {| iv_vms := iv_vms v; iv_ips := iv_ips v; iv_ports := f (iv_ports v); iv_cids := iv_cids v;
     iv_taps := iv_taps v |}.
Definition iv_set_cids f (v : Inventory) : Inventory :=
  {| iv_vms := iv_vms v; iv_ips := iv_ips v; iv_ports := iv_ports v; iv_cids := f (iv_cids v);
     iv_taps := iv_taps v |}.
Definition iv_set_taps f (v : Inventory) : Inventory :=
  {| iv_vms := iv_vms v; iv_ips := iv_ips v; iv_ports := iv_ports v; iv_cids := iv_cids v;
     iv_taps := f (iv_taps v) |}.

(** Everything the inventory holds for one computer, forgotten. *)
Definition iv_drop (vm : string) (v : Inventory) : Inventory :=
  {| iv_vms := delete vm (iv_vms v); iv_ips := delete vm (iv_ips v);
     iv_ports := delete vm (iv_ports v); iv_cids := delete vm (iv_cids v);
     iv_taps := delete vm (iv_taps v) |}.

(** [key] is a value no computer holds. *)
Definition unheld {A B} `{Countable A} (f : B → A) (m : gmap string B) (key : A) : Prop :=
  ∀ vm b, m !! vm = Some b → f b ≠ key.

(** ** The operations *)
Class StateManager (St : Type) := {
  sm_create_vm : VMConfig → py St VMInfo;
  sm_get_vm : string → py St VMInfo;
  sm_update_vm : string → vm_update → py St VMInfo;
  sm_delete_vm : string → py St unit;
  sm_list_vms : option VMState → py St (list VMInfo);
  sm_list_browser_sessions : option BrowserSessionState → py St (list BrowserSessionInfo);
  sm_allocate_ip : string → string → option string → py St string;
  sm_release_ip : string → py St unit;
  sm_get_ip_lease : string → py St (option (string * string));
  sm_update_ip_lease_tap : string → string → py St unit;
  sm_reserve_ssh_port : string → option Z → list Z → py St Z;
  sm_get_ssh_port : string → py St (option Z);
  sm_release_ssh_port : string → py St unit;
  sm_reserve_vsock_cid : string → option Z → py St Z;
  sm_get_vsock_cid : string → py St (option Z);
  sm_release_vsock_cid : string → py St unit;
  sm_reserve_tap_name : string → string → option string → option string → py St string;
  sm_get_tap_allocation : string → py St (option (string * string * option string));
  sm_release_tap_name : string → py St unit;
  sm_reconcile : (Z → kill_result) → py St (list string) }.

(** ** The contract *)
Class StateManagerLaws (St : Type) `{!StateManager St} := {
  sm_ok : St → Prop;
  sm_view : St → Inventory;
  sm_sessions : St → list BrowserSessionInfo;
  same_view (s s' : St) : Prop := sm_ok s' ∧ sm_view s' = sm_view s;
  ok_ids s vm i : sm_ok s → iv_vms (sm_view s) !! vm = Some i → vi_vm_id i = vm;
  law_create c s : sm_ok s →
    wp (sm_create_vm c)
      (λ i s', sm_ok s' ∧ iv_vms (sm_view s) !! vm_id c = None ∧ i = vi_new (vm_id c) CREATED c
               ∧ sm_view s' = iv_set_vms <[vm_id c := i]> (sm_view s))
      (λ _, same_view s) s;
  law_get vm s : sm_ok s →
    wp (sm_get_vm vm) (λ i s', same_view s s' ∧ iv_vms (sm_view s) !! vm = Some i)
      (λ e s', same_view s s' ∧ ∀ x, e = VMNotFoundError x → iv_vms (sm_view s) !! vm = None) s;
  law_update vm u s : sm_ok s →
    wp (sm_update_vm vm u)
      (λ i s', sm_ok s' ∧ ∃ i0, iv_vms (sm_view s) !! vm = Some i0 ∧ i = apply_vm_update u i0
               ∧ sm_view s' = iv_set_vms <[vm := i]> (sm_view s))
      (λ _, same_view s) s;
  law_delete vm s : sm_ok s →
    wp (sm_delete_vm vm) (λ _ s', sm_ok s' ∧ sm_view s' = iv_drop vm (sm_view s))
      (λ _, same_view s) s;
  law_list st s : sm_ok s →
    wp (sm_list_vms st)
      (λ l s', same_view s s' ∧ sm_sessions s' = sm_sessions s
               ∧ ∀ i, i ∈ l ↔ iv_vms (sm_view s) !! vi_vm_id i = Some i
                              ∧ from_option (λ x, status i = x) True st)
      (λ _, same_view s) s;
  law_list_sessions st s : sm_ok s →
    wp (sm_list_browser_sessions st)
      (λ l s', same_view s s' ∧ ∀ x, x ∈ l ↔ x ∈ sm_sessions s ∧ from_option (λ b, bs_status x = b) True st)
      (λ _, same_view s) s;
  law_allocate_ip vm tap req s : sm_ok s →
    wp (sm_allocate_ip vm tap req)
      (λ ip s', (∃ t, iv_ips (sm_view s) !! vm = Some (ip, t) ∧ same_view s s')
                ∨ iv_ips (sm_view s) !! vm = None ∧ unheld fst (iv_ips (sm_view s)) ip
                  ∧ sm_ok s' ∧ sm_view s' = iv_set_ips <[vm := (ip, tap)]> (sm_view s))
      (λ _, same_view s) s;
  law_release_ip vm s : sm_ok s →
    wp (sm_release_ip vm) (λ _ s', sm_ok s' ∧ sm_view s' = iv_set_ips (delete vm) (sm_view s))
      (λ _, same_view s) s;
  law_get_ip_lease vm s : sm_ok s →
    wp (sm_get_ip_lease vm) (λ o s', same_view s s' ∧ o = iv_ips (sm_view s) !! vm)
      (λ _, same_view s) s;
  law_update_tap vm tap s : sm_ok s →
    wp (sm_update_ip_lease_tap vm tap)
      (λ _ s', sm_ok s' ∧ sm_view s' = iv_set_ips (alter (λ l, (l.1, tap)) vm) (sm_view s))
      (λ _, same_view s) s;
  law_reserve_ssh_port vm hp ex s : sm_ok s →
    wp (sm_reserve_ssh_port vm hp ex)
      (λ p s', iv_ports (sm_view s) !! vm = Some p ∧ same_view s s'
               ∨ iv_ports (sm_view s) !! vm = None ∧ unheld id (iv_ports (sm_view s)) p ∧ p ∉ ex
                 ∧ match hp with Some q => p = q | None => (SSH_PORT_START ≤ p ≤ SSH_PORT_END)%Z end
                 ∧ sm_ok s' ∧ sm_view s' = iv_set_ports <[vm := p]> (sm_view s))
      (λ _, same_view s) s;
  law_get_ssh_port vm s : sm_ok s →
    wp (sm_get_ssh_port vm) (λ o s', same_view s s' ∧ o = iv_ports (sm_view s) !! vm)
      (λ _, same_view s) s;
  law_release_ssh_port vm s : sm_ok s →
    wp (sm_release_ssh_port vm) (λ _ s', sm_ok s' ∧ sm_view s' = iv_set_ports (delete vm) (sm_view s))
      (λ _, same_view s) s;
  law_reserve_vsock_cid vm rc s : sm_ok s →
    wp (sm_reserve_vsock_cid vm rc)
      (λ c s', iv_cids (sm_view s) !! vm = Some c ∧ same_view s s'
               ∨ iv_cids (sm_view s) !! vm = None ∧ unheld id (iv_cids (sm_view s)) c
                 ∧ match rc with Some q => c = q | None => (VSOCK_CID_START ≤ c ≤ VSOCK_CID_END)%Z end
                 ∧ sm_ok s' ∧ sm_view s' = iv_set_cids <[vm := c]> (sm_view s))
      (λ _, same_view s) s;
  law_get_vsock_cid vm s : sm_ok s →
    wp (sm_get_vsock_cid vm) (λ o s', same_view s s' ∧ o = iv_cids (sm_view s) !! vm)
      (λ _, same_view s) s;
  law_release_vsock_cid vm s : sm_ok s →
    wp (sm_release_vsock_cid vm) (λ _ s', sm_ok s' ∧ sm_view s' = iv_set_cids (delete vm) (sm_view s))
      (λ _, same_view s) s;
  law_reserve_tap_name vm mode br req s : sm_ok s →
    wp (sm_reserve_tap_name vm mode br req)
      (λ name s', iv_taps (sm_view s) !! vm = Some (name, mode, br) ∧ same_view s s'
               ∨ iv_taps (sm_view s) !! vm = None ∧ unheld (λ a, a.1.1) (iv_taps (sm_view s)) name
                 ∧ sm_ok s' ∧ sm_view s' = iv_set_taps <[vm := (name, mode, br)]> (sm_view s))
      (λ _, same_view s) s;
  law_get_tap_allocation vm s : sm_ok s →
    wp (sm_get_tap_allocation vm) (λ o s', same_view s s' ∧ o = iv_taps (sm_view s) !! vm)
      (λ _, same_view s) s;
  law_release_tap_name vm s : sm_ok s →
    wp (sm_release_tap_name vm) (λ _ s', sm_ok s' ∧ sm_view s' = iv_set_taps (delete vm) (sm_view s))
      (λ _, same_view s) s;
  law_reconcile kill s : sm_ok s →
    wp (sm_reconcile kill)
      (λ l s', sm_ok s'
               ∧ sm_view s' = iv_set_vms (fmap (λ i, if is_stale kill i then mark_error i else i)) (sm_view s)
               ∧ ∀ vm, vm ∈ l ↔ ∃ i, iv_vms (sm_view s) !! vm = Some i ∧ is_stale kill i = true)
      (λ _, same_view s) s }.

(** Calls that cannot fail: reading and dropping what is there, and the
    releases. *)
Class StateManagerTotal (St : Type) `{!StateManager St, !StateManagerLaws St} := {
  total_get vm s : sm_ok s → is_Some (iv_vms (sm_view s) !! vm) → raised (sm_get_vm vm s).2 = false;
  total_delete vm s : sm_ok s → is_Some (iv_vms (sm_view s) !! vm) → raised (sm_delete_vm vm s).2 = false;
  total_release_ip vm s : sm_ok s → raised (sm_release_ip vm s).2 = false;
  total_get_ip_lease vm s : sm_ok s → raised (sm_get_ip_lease vm s).2 = false;
  total_get_ssh_port vm s : sm_ok s → raised (sm_get_ssh_port vm s).2 = false;
  total_release_ssh_port vm s : sm_ok s → raised (sm_release_ssh_port vm s).2 = false;
  total_get_tap_allocation vm s : sm_ok s → raised (sm_get_tap_allocation vm s).2 = false;
  total_release_tap_name vm s : sm_ok s → raised (sm_release_tap_name vm s).2 = false }.
