(* ===== verification/StateProtocolMemory.v ===== *)
(** * The in-memory manager keeps the contract

    [MemoryStateManager] as an instance of the protocol.  The answers of the
    machine (interface names, random tokens) are read from a stream, one entry
    per call, so that two calls may see different machines. *)
From S2P Require Import Prelude PyHoare PyDict PyStr StorageBase Types MemoryState MemoryInv.
From S2P Require Import MemoryProofs StateProtocol.
From stdpp Require Import options.

Record mem_mgr := {
  mm_ms : MS;
  mm_env : nat → list string * (nat → string);
  mm_tick : nat }.

Definition mm_upd (f : MS → MS) (s : mem_mgr) : mem_mgr :=
  {| mm_ms := f (mm_ms s); mm_env := mm_env s; mm_tick := mm_tick s |}.

(** A method of [MemoryStateManager], and one that asks the machine. *)
Definition mm_run {A} (m : py MS A) : py mem_mgr A := λ s,
  let (ms', r) := m (mm_ms s) in (mm_upd (λ _, ms') s, r).
Definition mm_ask {A} (m : list string → (nat → string) → py MS A) : py mem_mgr A := λ s,
  let (ifs, tokens) := mm_env s (mm_tick s) in
  let (ms', r) := m ifs tokens (mm_ms s) in
  ({| mm_ms := ms'; mm_env := mm_env s; mm_tick := S (mm_tick s) |}, r).

(** ** What the methods change *)
Definition view_of (m : MemState) : Inventory :=
  {| iv_vms := dmap (m_vms m); iv_ips := dmap (m_ip_leases m); iv_ports := dmap (m_ssh_ports m);
     iv_cids := dmap (m_vsock_cids m); iv_taps := dmap (m_tap_allocations m) |}.

Section frames.
Context (fc : bool) (open_error : string → option exn).

Lemma try_claim_view k vm v s : view_of (_try_claim fc open_error k vm v s).1.1 = view_of s.1.
Proof. unfold _try_claim. by repeat case_match. Qed.

Lemma ip_loop_view vm tap used ifs cands s :
  let '(s', r) := ip_loop fc open_error vm tap used ifs cands s in
  match r with
  | Ret (Some ip) => (ip ∉ used) ∧ view_of s'.1 = iv_set_ips <[vm := (ip, tap)]> (view_of s.1)
  | _ => view_of s'.1 = view_of s.1
  end.
Proof.
  revert s. induction cands as [|ip cands IH]; intros s; simpl; [done|].
  case_bool_decide as Hu; [apply IH|]. destruct (ip_to_pool_index ip); [|apply IH].
  case_bool_decide; [apply IH|]. pose proof (try_claim_view K_ip vm ip s) as Hv.
  destruct (_try_claim fc open_error K_ip vm ip s) as [s1 [[]|]]; simpl in Hv; [|rewrite <-Hv; apply IH|done].
  split; [done|]. rewrite <-Hv. unfold view_of, iv_set_ips, upd. simpl. by rewrite dmap_dset.
Qed.

(** The loop the ports and the CIDs share. *)
Lemma int_loop_view k set f vm used cands s :
  (∀ c m, view_of (set c m) = f c (view_of m)) →
  let '(s', r) := int_loop fc open_error k set vm used cands s in
  match r with
  | Ret (Some c) => (c ∉ used) ∧ c ∈ cands ∧ view_of s'.1 = f c (view_of s.1)
  | _ => view_of s'.1 = view_of s.1
  end.
Proof.
  intros Hset. revert s. induction cands as [|c cands IH]; intros s; cbn [int_loop]; [done|].
  assert (∀ s1, view_of s1.1 = view_of s.1 →
    let '(s', r) := int_loop fc open_error k set vm used cands s1 in
    match r with
    | Ret (Some c0) => (c0 ∉ used) ∧ c0 ∈ c :: cands ∧ view_of s'.1 = f c0 (view_of s.1)
    | _ => view_of s'.1 = view_of s.1
    end) as Hrest.
  { intros s1 Hs1. specialize (IH s1). destruct (int_loop fc open_error k set vm used cands s1) as [s' [[c0|]|]];
      rewrite <-Hs1; try done. destruct IH as (?&?&?). split_and!; [done|by right|done]. }
  case_bool_decide as Hu; [by apply Hrest|]. pose proof (try_claim_view k vm (dec c) s) as Hv.
  destruct (_try_claim fc open_error k vm (dec c) s) as [s1 [[]|]]; simpl in Hv; [|by apply Hrest|done].
  split_and!; [done|by left|]. unfold upd. simpl. by rewrite Hset, Hv.
Qed.

Lemma release_claim_view k vm s : view_of (_release_claim k vm s).1 = view_of s.1.
Proof. unfold _release_claim. by case_match. Qed.

Lemma claim_tap_view vm mode br name s :
  let '(s', r) := claim_tap fc open_error vm mode br name s in
  match r with
  | Ret n => n = name ∧ view_of s'.1 = iv_set_taps <[vm := (name, mode, br)]> (view_of s.1)
  | Raise _ => view_of s'.1 = view_of s.1
  end.
Proof.
  unfold claim_tap. pose proof (try_claim_view K_tap vm name s) as Hv.
  destruct (_try_claim fc open_error K_tap vm name s) as [s1 [[]|]]; simpl in Hv; try done.
  split; [done|]. rewrite <-Hv. unfold view_of, iv_set_taps, upd. simpl. by rewrite dmap_dset.
Qed.
End frames.

Lemma unheld_values {A B} `{Countable A} (f : B → A) (d : dict string B) key :
  keys_ok d → key ∉ f <$> dvalues d → unheld f (dmap d) key.
Proof.
  intros Hd Hk vm b. rewrite dget_lookup. intros Hb <-. destruct Hk.
  apply list_elem_of_fmap. exists b. split; [done|]. apply dvalues_elem; [done|]. by exists vm.
Qed.

(** ** The instance *)
Section instance.
Context (fc : bool) (open_error : string → option exn).

#[local] Instance memory_manager : StateManager mem_mgr := {|
  sm_create_vm c := mm_run (create_vm c);
  sm_get_vm vm := mm_run (get_vm vm);
  sm_update_vm vm u := mm_run (update_vm vm u);
  sm_delete_vm vm := mm_run (delete_vm vm);
  sm_list_vms st := mm_run (list_vms st);
  sm_list_browser_sessions st := mm_run (list_browser_sessions st);
  sm_allocate_ip vm tap req := mm_ask (λ ifs _, allocate_ip fc open_error vm tap req ifs);
  sm_release_ip vm := mm_run (py_modify (release_ip vm));
  sm_get_ip_lease vm := mm_run (λ s, (s, Ret (get_ip_lease vm s)));
  sm_update_ip_lease_tap vm tap := mm_run (py_modify (update_ip_lease_tap vm tap));
  sm_reserve_ssh_port vm hp ex := mm_run (reserve_ssh_port fc open_error vm 22 hp (Some ex));
  sm_get_ssh_port vm := mm_run (λ s, (s, Ret (get_ssh_port vm s)));
  sm_release_ssh_port vm := mm_run (py_modify (release_ssh_port vm));
  sm_reserve_vsock_cid vm rc := mm_run (reserve_vsock_cid fc open_error vm rc);
  sm_get_vsock_cid vm := mm_run (λ s, (s, Ret (get_vsock_cid vm s)));
  sm_release_vsock_cid vm := mm_run (py_modify (release_vsock_cid vm));
  sm_reserve_tap_name vm mode br req :=
    mm_ask (λ ifs tokens, reserve_tap_name fc open_error vm mode br req ifs tokens);
  sm_get_tap_allocation vm := mm_run (λ s, (s, Ret (get_tap_allocation vm s)));
  sm_release_tap_name vm := mm_run (py_modify (release_tap_name vm));
  sm_reconcile kill := mm_run (reconcile kill) |}.

Definition mm_good (s : mem_mgr) : Prop := good fc (mm_ms s).
Definition mm_view (s : mem_mgr) : Inventory := view_of (mm_ms s).1.
Definition mm_sessions (s : mem_mgr) : list BrowserSessionInfo := dvalues (m_browser_sessions (mm_ms s).1).

Lemma mm_run_wp {A} (m : py MS A) (Q : A → mem_mgr → Prop) (E : exn → mem_mgr → Prop) s :
  (∀ ms' r, m (mm_ms s) = (ms', r) →
     match r with Ret a => Q a (mm_upd (λ _, ms') s) | Raise e => E e (mm_upd (λ _, ms') s) end) →
  wp (mm_run m) Q E s.
Proof. unfold wp, mm_run. destruct (m (mm_ms s)) as [ms' r]. intros H. by specialize (H ms' r eq_refl). Qed.

Lemma mm_ask_wp {A} (m : list string → (nat → string) → py MS A) (Q : A → mem_mgr → Prop)
    (E : exn → mem_mgr → Prop) s :
  (∀ ifs tokens ms' r, m ifs tokens (mm_ms s) = (ms', r) →
     let s' := {| mm_ms := ms'; mm_env := mm_env s; mm_tick := S (mm_tick s) |} in
     match r with Ret a => Q a s' | Raise e => E e s' end) →
  wp (mm_ask m) Q E s.
Proof.
  unfold wp, mm_ask. destruct (mm_env s (mm_tick s)) as [ifs tokens].
  destruct (m ifs tokens (mm_ms s)) as [ms' r] eqn:Hm. intros H. by specialize (H _ _ _ _ Hm).
Qed.

Lemma reserve_ssh_port_view vm gp hp ex s :
  good fc s →
  let '(s', r) := reserve_ssh_port fc open_error vm gp hp (Some ex) s in
  match r with
  | Ret p => (iv_ports (view_of s.1) !! vm = Some p ∧ s' = s)
      ∨ (iv_ports (view_of s.1) !! vm = None ∧ unheld id (iv_ports (view_of s.1)) p ∧ (p ∉ ex)
         ∧ match hp with Some q => p = q | None => (SSH_PORT_START ≤ p ≤ SSH_PORT_END)%Z end
         ∧ view_of s'.1 = iv_set_ports <[vm := p]> (view_of s.1))
  | Raise _ => view_of s'.1 = view_of s.1
  end.
Proof.
  intros Hg. unfold reserve_ssh_port.
  destruct (match hp with Some p => _ | None => false end); [done|]. cbn [view_of iv_ports].
  rewrite dget_lookup.
  destruct (dget vm (m_ssh_ports s.1)) as [p|] eqn:Hp.
  { destruct hp; [destruct (negb _); [done|]|]; by left. }
  pose proof (int_loop_view fc open_error K_ssh (set_port vm) (λ c, iv_set_ports <[vm := c]>) vm
    (dvalues (m_ssh_ports s.1) ++ ex)
    (match hp with Some q => [q] | None => zrange SSH_PORT_START SSH_PORT_END end) s) as Hl.
  destruct (int_loop _ _ _ _ _ _ _ _) as [s' [[c|]|]]; try (apply Hl; intros; unfold view_of, set_port,
    iv_set_ports; simpl; by rewrite dmap_dset).
  destruct Hl as (Hu & Hc & Hv).
  { intros. unfold view_of, set_port, iv_set_ports. simpl. by rewrite dmap_dset. }
  rewrite not_elem_of_app in Hu. destruct Hu. right. split_and!; try done.
  - apply unheld_values; [apply (res_ssh_keys fc), Hg|]. by rewrite list_fmap_id.
  - destruct hp; [by apply list_elem_of_singleton in Hc|]. by apply zrange_elem in Hc.
Qed.

Lemma reserve_vsock_cid_view vm rc s :
  good fc s →
  let '(s', r) := reserve_vsock_cid fc open_error vm rc s in
  match r with
  | Ret c => (iv_cids (view_of s.1) !! vm = Some c ∧ s' = s)
      ∨ (iv_cids (view_of s.1) !! vm = None ∧ unheld id (iv_cids (view_of s.1)) c
         ∧ match rc with Some q => c = q | None => (VSOCK_CID_START ≤ c ≤ VSOCK_CID_END)%Z end
         ∧ view_of s'.1 = iv_set_cids <[vm := c]> (view_of s.1))
  | Raise _ => view_of s'.1 = view_of s.1
  end.
Proof.
  intros Hg. unfold reserve_vsock_cid. cbn [view_of iv_cids]. rewrite dget_lookup.
  destruct (dget vm (m_vsock_cids s.1)) as [p|] eqn:Hp.
  { destruct rc; [destruct (negb _); [done|]|]; by left. }
  pose proof (int_loop_view fc open_error K_vsock (set_cid vm) (λ c, iv_set_cids <[vm := c]>) vm
    (dvalues (m_vsock_cids s.1))
    (match rc with Some q => [q] | None => zrange VSOCK_CID_START VSOCK_CID_END end) s) as Hl.
  destruct (int_loop _ _ _ _ _ _ _ _) as [s' [[c|]|]]; try (apply Hl; intros; unfold view_of, set_cid,
    iv_set_cids; simpl; by rewrite dmap_dset).
  destruct Hl as (Hu & Hc & Hv).
  { intros. unfold view_of, set_cid, iv_set_cids. simpl. by rewrite dmap_dset. }
  right. split_and!; try done.
  - apply unheld_values; [apply (res_vsock_keys fc), Hg|]. by rewrite list_fmap_id.
  - destruct rc; [by apply list_elem_of_singleton in Hc|]. by apply zrange_elem in Hc.
Qed.

Lemma allocate_ip_view vm tap req ifs s :
  good fc s →
  let '(s', r) := allocate_ip fc open_error vm tap req ifs s in
  match r with
  | Ret ip => (∃ t, iv_ips (view_of s.1) !! vm = Some (ip, t) ∧ s' = s)
      ∨ (iv_ips (view_of s.1) !! vm = None ∧ unheld fst (iv_ips (view_of s.1)) ip
         ∧ view_of s'.1 = iv_set_ips <[vm := (ip, tap)]> (view_of s.1))
  | Raise _ => view_of s'.1 = view_of s.1
  end.
Proof.
  intros Hg. unfold allocate_ip. cbn [view_of iv_ips]. rewrite dget_lookup.
  destruct (dget vm (m_ip_leases s.1)) as [[ip t]|] eqn:Hp.
  { destruct req; [destruct (negb _); [done|]|]; left; eauto. }
  pose proof (ip_loop_view fc open_error vm tap ((dvalues (m_ip_leases s.1)).*1) ifs (ip_candidates req) s) as Hl.
  destruct (ip_loop _ _ _ _ _ _ _ _) as [s' [[c|]|]]; try done.
  destruct Hl as (Hu & Hv). right. split_and!; try done.
  apply unheld_values; [apply (res_ip_keys fc), Hg|done].
Qed.

Lemma reserve_tap_name_view vm mode br req ifs tokens s :
  good fc s →
  let '(s', r) := reserve_tap_name fc open_error vm mode br req ifs tokens s in
  match r with
  | Ret n => (iv_taps (view_of s.1) !! vm = Some (n, mode, br) ∧ s' = s)
      ∨ (iv_taps (view_of s.1) !! vm = None ∧ unheld (λ a, a.1.1) (iv_taps (view_of s.1)) n
         ∧ view_of s'.1 = iv_set_taps <[vm := (n, mode, br)]> (view_of s.1))
  | Raise _ => view_of s'.1 = view_of s.1
  end.
Proof.
  intros Hg. unfold reserve_tap_name. cbn [view_of iv_taps]. rewrite dget_lookup.
  destruct (dget vm (m_tap_allocations s.1)) as [[[n md] b]|] eqn:Hp.
  { destruct (_ || _) eqn:Hb; [done|]. bool_hyps. subst. by left. }
  assert (∀ n, n ∉ ((λ a : string * string * option string, a.1.1) <$> dvalues (m_tap_allocations s.1)) ++ ifs →
    let '(s', r) := claim_tap fc open_error vm mode br n s in
    match r with
    | Ret n => (None = Some (n, mode, br) ∧ s' = s)
        ∨ (None = @None (string * string * option string)
           ∧ unheld (λ a, a.1.1) (dmap (m_tap_allocations s.1)) n
           ∧ view_of s'.1 = iv_set_taps <[vm := (n, mode, br)]> (view_of s.1))
    | Raise _ => view_of s'.1 = view_of s.1
    end) as Hclaim.
  { intros n Hn. pose proof (claim_tap_view fc open_error vm mode br n s) as Hc.
    destruct (claim_tap fc open_error vm mode br n s) as [s' [n'|]]; [|done]. destruct Hc as [-> Hv].
    right. split_and!; [done| |done]. apply unheld_values; [apply (res_tap_keys fc), Hg|set_solver]. }
  destruct req as [r|].
  - case_bool_decide; [done|]. by apply Hclaim.
  - destruct (tap_search tokens _ 0 100) as [n|] eqn:Hn; [|done].
    apply Hclaim. by eapply tap_search_fresh.
Qed.
Lemma mm_vms_get s vm : iv_vms (mm_view s) !! vm = dget vm (m_vms (mm_ms s).1).
Proof. apply dget_lookup. Qed.

(** A result whose state is good and has the right view. *)
Local Ltac mm_solve Hok := split_and?; [exact (op_good _ _ _ Hok)|..].

Lemma mm_create c s : mm_good s →
  wp (sm_create_vm c)
    (λ i s', mm_good s' ∧ iv_vms (mm_view s) !! vm_id c = None ∧ i = vi_new (vm_id c) CREATED c
             ∧ mm_view s' = iv_set_vms <[vm_id c := i]> (mm_view s))
    (λ _ s', mm_good s' ∧ mm_view s' = mm_view s) s.
Proof.
  intros Hg. apply mm_run_wp. intros ms' r Hm. pose proof (create_vm_ok _ _ _ _ _ Hg Hm) as Hok.
  unfold create_vm, dmem in Hm. rewrite mm_vms_get.
  destruct (dget (vm_id c) (m_vms (mm_ms s).1)) eqn:Hd; cbn in Hm; simplify_eq; mm_solve Hok; try done.
  unfold mm_view, view_of, iv_set_vms, upd. simpl. by rewrite dmap_dset.
Qed.

Lemma mm_get vm s : mm_good s →
  wp (sm_get_vm vm) (λ i s', (mm_good s' ∧ mm_view s' = mm_view s) ∧ iv_vms (mm_view s) !! vm = Some i)
    (λ e s', (mm_good s' ∧ mm_view s' = mm_view s)
             ∧ ∀ x, e = VMNotFoundError x → iv_vms (mm_view s) !! vm = None) s.
Proof.
  intros Hg. apply mm_run_wp. intros ms' r Hm. unfold get_vm in Hm. rewrite mm_vms_get. destruct (dget vm (m_vms (mm_ms s).1)); by simplify_eq.
Qed.

Lemma mm_update vm u s : mm_good s →
  wp (sm_update_vm vm u)
    (λ i s', mm_good s' ∧ ∃ i0, iv_vms (mm_view s) !! vm = Some i0 ∧ i = apply_vm_update u i0
             ∧ mm_view s' = iv_set_vms <[vm := i]> (mm_view s))
    (λ _ s', mm_good s' ∧ mm_view s' = mm_view s) s.
Proof.
  intros Hg. apply mm_run_wp. intros ms' r Hm. pose proof (update_vm_ok _ _ _ _ _ _ Hg Hm) as Hok.
  unfold update_vm, get_vm, py_bind in Hm.
  destruct (dget vm (m_vms (mm_ms s).1)) as [i0|] eqn:Hd; cbn in Hm; simplify_eq; mm_solve Hok; [|done].
  exists i0. rewrite mm_vms_get, Hd. split_and!; [done..|].
  unfold mm_view, view_of, iv_set_vms, upd. simpl. by rewrite dmap_dset.
Qed.

Lemma mm_delete vm s : mm_good s →
  wp (sm_delete_vm vm) (λ _ s', mm_good s' ∧ mm_view s' = iv_drop vm (mm_view s))
    (λ _ s', mm_good s' ∧ mm_view s' = mm_view s) s.
Proof.
  intros Hg. apply mm_run_wp. intros ms' r Hm. pose proof (delete_vm_ok _ _ _ _ _ Hg Hm) as Hok.
  unfold delete_vm in Hm. destruct (negb _); simplify_eq; mm_solve Hok; [done|].
  unfold mm_view. cbn [mm_upd mm_ms fold_left]. rewrite !release_claim_view.
  destruct Hg as [Hr Hd _], Hr, Hd. unfold view_of, iv_drop, upd. simpl. by rewrite !dmap_ddel.
Qed.

Lemma mm_list st s : mm_good s →
  wp (sm_list_vms st)
    (λ l s', (mm_good s' ∧ mm_view s' = mm_view s) ∧ mm_sessions s' = mm_sessions s
             ∧ ∀ i, i ∈ l ↔ iv_vms (mm_view s) !! vi_vm_id i = Some i
                             ∧ from_option (λ x, status i = x) True st)
    (λ _ s', mm_good s' ∧ mm_view s' = mm_view s) s.
Proof.
  intros Hg. apply mm_run_wp. intros ms' r Hm. unfold list_vms in Hm. simplify_eq. do 2 (split; [done|]).
  intros i. rewrite mm_vms_get. destruct Hg as [_ Hd _].
  assert (i ∈ dvalues (m_vms (mm_ms s).1) ↔ dget (vi_vm_id i) (m_vms (mm_ms s).1) = Some i) as Hi.
  { rewrite dvalues_elem by apply Hd. split; [|eauto]. intros [k Hk].
    by rewrite (data_vm_ids _ Hd _ _ Hk). }
  destruct st as [st|]; simpl; [rewrite list_elem_of_filter|]; rewrite Hi; naive_solver.
Qed.

(** The releases: [release k vm] frees the value and its claim. *)
Lemma mm_release k vm f (rel : string → MS → MS) s :
  rel vm (mm_ms s) = release k vm (mm_ms s) → mm_good s →
  view_of (release k vm (mm_ms s)).1 = f (mm_view s) →
  wp (mm_run (py_modify (rel vm))) (λ _ s', mm_good s' ∧ mm_view s' = f (mm_view s))
    (λ _ s', mm_good s' ∧ mm_view s' = mm_view s) s.
Proof.
  intros Hrel Hg Hv. apply mm_run_wp. intros ms' r Hm. unfold py_modify in Hm. simplify_eq.
  unfold mm_good, mm_view. cbn [mm_upd mm_ms]. rewrite Hrel. split; [|done].
  exact (op_good _ _ _ (release_ok fc k vm _ Hg)).
Qed.

Definition iv_release (k : kind) (vm : string) (v : Inventory) : Inventory :=
  match k with
  | K_ip => iv_set_ips (delete vm) v | K_ssh => iv_set_ports (delete vm) v
  | K_vsock => iv_set_cids (delete vm) v | K_tap => iv_set_taps (delete vm) v
  end.

Lemma release_view k vm s : good fc s → view_of (release k vm s).1 = iv_release k vm (view_of s.1).
Proof.
  intros [[] _ _]. unfold release. rewrite release_claim_view. destruct s as [m L].
  destruct k; unfold view_of, iv_release, iv_set_ips, iv_set_ports, iv_set_cids, iv_set_taps, upd; simpl;
    by rewrite dmap_ddel.
Qed.

(** The reads. *)
Lemma mm_read {B} (f : MS → option B) (g : Inventory → option B) s :
  mm_good s → f (mm_ms s) = g (mm_view s) →
  wp (mm_run (λ ms, (ms, Ret (f ms)))) (λ o s', (mm_good s' ∧ mm_view s' = mm_view s) ∧ o = g (mm_view s))
    (λ _ s', mm_good s' ∧ mm_view s' = mm_view s) s.
Proof. intros Hg Hf. apply mm_run_wp. intros ms' r Hm. by simplify_eq. Qed.

Lemma mm_reconcile kill s : mm_good s →
  wp (sm_reconcile kill)
    (λ l s', mm_good s'
             ∧ mm_view s' = iv_set_vms (fmap (λ i, if is_stale kill i then mark_error i else i)) (mm_view s)
             ∧ ∀ vm, vm ∈ l ↔ ∃ i, iv_vms (mm_view s) !! vm = Some i ∧ is_stale kill i = true)
    (λ _ s', mm_good s' ∧ mm_view s' = mm_view s) s.
Proof.
  intros Hg. apply mm_run_wp. intros ms' r Hm. pose proof (reconcile_ok _ _ _ _ _ Hg Hm) as Hok.
  rewrite (reconcile_eq fc) in Hm by done. simplify_eq. mm_solve Hok.
  - unfold mm_view, view_of, iv_set_vms, upd. simpl. f_equal. apply map_eq. intros vm.
    rewrite lookup_fmap, !dget_lookup, dget_fmap. done.
  - intros vm. setoid_rewrite mm_vms_get. apply stale_elem.
    destruct Hg as [_ Hd _]. by destruct Hd.
Qed.

#[local] Instance memory_laws : StateManagerLaws mem_mgr.
Proof.
  refine {| sm_ok := mm_good; sm_view := mm_view; sm_sessions := mm_sessions |}; intros.
  - rewrite mm_vms_get in *. destruct H as [_ Hd _]. by eapply data_vm_ids.
  - by apply mm_create.
  - by apply mm_get.
  - by apply mm_update.
  - by apply mm_delete.
  - by apply mm_list.
  - apply mm_run_wp. intros ms' r Hm. unfold list_browser_sessions in Hm. simplify_eq.
    split; [done|]. intros x. destruct st; simpl; [rewrite list_elem_of_filter|]; unfold mm_sessions; naive_solver.
  - apply mm_ask_wp. intros ifs tokens ms' r Hm. pose proof (allocate_ip_ok _ _ _ _ _ _ _ _ _ H Hm) as Hok.
    pose proof (allocate_ip_view vm tap req ifs _ H) as Hv. rewrite Hm in Hv. cbv zeta.
    destruct r as [ip|]; [|by mm_solve Hok].
    destruct Hv as [(t & Ht & ->)|(? & ? & ?)]; [left; by exists t|right]. split_and!; try done.
    exact (op_good _ _ _ Hok).
  - by apply (mm_release K_ip vm (iv_set_ips (delete vm))); [|done|apply release_view].
  - apply (mm_read _ (λ v, _ v !! vm)); [done|]. symmetry. apply dget_lookup.
  - apply mm_run_wp. intros ms' r Hm. unfold py_modify in Hm. simplify_eq.
    pose proof (update_ip_lease_tap_ok _ vm tap _ H) as Hok. mm_solve Hok.
    unfold mm_view, view_of, iv_set_ips. cbn [mm_upd mm_ms]. unfold update_ip_lease_tap.
    destruct (dget vm (m_ip_leases (mm_ms s).1)) as [[ip t]|] eqn:Hd; simpl; f_equal; [|].
    + rewrite dmap_dset. apply map_eq. intros k. rewrite lookup_alter, lookup_insert.
      case_decide; [subst; by rewrite dget_lookup, Hd|done].
    + apply map_eq. intros k. rewrite lookup_alter. case_decide; [subst|done].
      by rewrite dget_lookup, Hd.
  - apply mm_run_wp. intros ms' r Hm. pose proof (reserve_ssh_port_ok _ _ _ _ _ _ _ _ _ H Hm) as Hok.
    pose proof (reserve_ssh_port_view vm 22 hp ex _ H) as Hv. rewrite Hm in Hv.
    destruct r as [p|]; [|by mm_solve Hok].
    destruct Hv as [(Hp & ->)|(? & ? & ? & ? & ?)]; [by left|right]. split_and!; try done.
    exact (op_good _ _ _ Hok).
  - apply (mm_read _ (λ v, _ v !! vm)); [done|]. symmetry. apply dget_lookup.
  - by apply (mm_release K_ssh vm (iv_set_ports (delete vm))); [|done|apply release_view].
  - apply mm_run_wp. intros ms' r Hm. pose proof (reserve_vsock_cid_ok _ _ _ _ _ _ _ H Hm) as Hok.
    pose proof (reserve_vsock_cid_view vm rc _ H) as Hv. rewrite Hm in Hv.
    destruct r as [p|]; [|by mm_solve Hok].
    destruct Hv as [(Hp & ->)|(? & ? & ? & ?)]; [by left|right]. split_and!; try done.
    exact (op_good _ _ _ Hok).
  - apply (mm_read _ (λ v, _ v !! vm)); [done|]. symmetry. apply dget_lookup.
  - by apply (mm_release K_vsock vm (iv_set_cids (delete vm))); [|done|apply release_view].
  - apply mm_ask_wp. intros ifs tokens ms' r Hm.
    pose proof (reserve_tap_name_ok _ _ _ _ _ _ _ _ _ _ _ H Hm) as Hok.
    pose proof (reserve_tap_name_view vm mode br req ifs tokens _ H) as Hv. rewrite Hm in Hv. cbv zeta.
    destruct r as [n|]; [|by mm_solve Hok].
    destruct Hv as [(Hp & ->)|(? & ? & ?)]; [by left|right]. split_and!; try done.
    exact (op_good _ _ _ Hok).
  - apply (mm_read _ (λ v, _ v !! vm)); [done|]. symmetry. apply dget_lookup.
  - by apply (mm_release K_tap vm (iv_set_taps (delete vm))); [|done|apply release_view].
  - by apply mm_reconcile.
Defined.

#[local] Instance memory_total : StateManagerTotal mem_mgr.
Proof.
  split; intros; try done.
  - unfold sm_get_vm, memory_manager, mm_run, get_vm. change (sm_view s) with (mm_view s) in *.
    rewrite mm_vms_get in *. destruct H0 as [i ->]. done.
  - unfold sm_delete_vm, memory_manager, mm_run, delete_vm, dmem. change (sm_view s) with (mm_view s) in *.
    rewrite mm_vms_get in *. destruct H0 as [i ->]. done.
Qed.
End instance.
