(* ===== verification/Backends.v ===== *)
(** * runtime/backends.py: which hypervisor runs a computer

    The probes of the host are arguments: [platform.system()],
    [platform.machine()], the [PATH] lookup, the access check on [/dev/kvm],
    and the two optional runtimes (libkrun, the macOS runtime). *)
From S2P Require Import Prelude PyStr Types Env.
From stdpp Require Import options.

Definition BACKEND_FIRECRACKER : string := "firecracker".
Definition BACKEND_QEMU : string := "qemu".
Definition BACKEND_LIBKRUN : string := "libkrun".
Definition BACKEND_VZ : string := "vz".
Definition BACKEND_AUTO : string := "auto".
Definition SUPPORTED_BACKENDS : list string :=
  [BACKEND_FIRECRACKER; BACKEND_QEMU; BACKEND_LIBKRUN; BACKEND_VZ].

Record BackendStatus := {
  available : bool;
  primary_present : bool;
  message : option string }.

(** What the code asks of the host. *)
Record probes := {
  platform_system : string;
  platform_machine : string;
  which : string → option string;
  firecracker_binary_present : bool;
  kvm_accessible : bool;
  libkrun_loads : bool;
  is_apple_silicon : bool;
  macos_supported_version : bool;
  pinned_lume_ready : bool;
  env_CELESTO_BACKEND : option string }.

(** ** Messages *)
Definition _create_with_qemu_command (vm_name : option string) : string :=
  if truthy_str vm_name
  then "celesto computer create --name " +:+ shell_quote (default "" vm_name) +:+ " --backend qemu"
  else "celesto computer create --backend qemu".

Definition _firecracker_missing_message (vm_name : option string) : string :=
  "Firecracker isn't installed on this machine. Run 'celesto setup', or create the computer with a different backend, e.g. '"
  +:+ _create_with_qemu_command vm_name +:+ "'.".

Definition _firecracker_kvm_message (vm_name : option string) : string :=
  "Firecracker needs hardware virtualization (/dev/kvm), which isn't available or accessible on this machine. Give your user access with 'sudo usermod -aG kvm $USER' and start a new login session, or create the computer with a different backend, e.g. '"
  +:+ _create_with_qemu_command vm_name +:+ "'.".

Section backends.
Context (h : probes).

Definition _qemu_missing_message (has_system has_img : bool) : string :=
  if has_system && negb has_img then
    "QEMU is installed but its 'qemu-img' disk tool is missing. Install it with 'sudo apt-get install -y qemu-utils' on Debian/Ubuntu, 'sudo dnf install -y qemu-img' on Fedora/RHEL, or your distro's qemu-img package, then run 'celesto doctor --backend qemu' to confirm."
  else
    "QEMU isn't installed on this machine. "
    +:+ (if String.eqb (platform_system h) "Darwin" then "Install it with 'brew install qemu'"
         else if String.eqb (platform_system h) "Linux" then
           "Install it with 'sudo apt-get install -y qemu-system qemu-utils' on Debian/Ubuntu, 'sudo dnf install -y qemu-system-x86 qemu-img' on Fedora/RHEL, or your distro's QEMU package"
         else "Install QEMU for this operating system")
    +:+ ", then run 'celesto doctor --backend qemu' to confirm.".

Definition _libkrun_missing_message : string :=
  "libkrun isn't installed on this machine. Install it with 'brew install libkrun/krun/libkrun' on macOS or 'sudo dnf install libkrun' on Fedora, then run 'celesto doctor --backend libkrun' to confirm.".
Definition _vz_unsupported_host_message : string :=
  "macOS computers need an Apple Silicon Mac. Run 'celesto computer create --os alpine' on this machine instead.".
Definition _vz_missing_message : string :=
  "The macOS desktop runtime isn't installed. Run 'celesto setup --macos', then 'celesto doctor --backend vz' to confirm.".

(** ** Probing one backend *)
Definition _qemu_system_candidates : list string :=
  let arch := lower (platform_machine h) in
  if bool_decide (arch ∈ ["arm64"; "aarch64"]) then ["qemu-system-aarch64"; "qemu-system-x86_64"]
  else if bool_decide (arch ∈ ["x86_64"; "amd64"]) then ["qemu-system-x86_64"; "qemu-system-aarch64"]
  else ["qemu-system-aarch64"; "qemu-system-x86_64"].

Definition _qemu_system_binary : option string :=
  head (filter (λ c, is_some (which h c) = true) _qemu_system_candidates).
Definition _qemu_img_present : bool := is_some (which h "qemu-img").

Definition ready_status : BackendStatus :=
  {| available := true; primary_present := true; message := None |}.
Definition not_ready (primary : bool) (msg : string) : BackendStatus :=
  {| available := false; primary_present := primary; message := Some msg |}.

Definition firecracker_status : BackendStatus :=
  if negb (firecracker_binary_present h) then not_ready false (_firecracker_missing_message None)
  else if negb (kvm_accessible h) then not_ready true (_firecracker_kvm_message None)
  else ready_status.

Definition qemu_status : BackendStatus :=
  let has_system := is_some _qemu_system_binary in
  let has_img := _qemu_img_present in
  if has_system && has_img then ready_status
  else not_ready has_system (_qemu_missing_message has_system has_img).

Definition libkrun_status : BackendStatus :=
  if libkrun_loads h then ready_status else not_ready false _libkrun_missing_message.

Definition vz_status : BackendStatus :=
  if negb (is_apple_silicon h) then not_ready false _vz_unsupported_host_message
  else if negb (macos_supported_version h) then
    not_ready false "macOS desktop computers need macOS 14 or newer. Update this Mac, then run 'celesto doctor --backend vz' again."
  else if negb (pinned_lume_ready h) then not_ready false _vz_missing_message
  else ready_status.

Definition _backend_status (backend : string) : option BackendStatus :=
  if String.eqb backend BACKEND_FIRECRACKER then Some firecracker_status
  else if String.eqb backend BACKEND_QEMU then Some qemu_status
  else if String.eqb backend BACKEND_LIBKRUN then Some libkrun_status
  else if String.eqb backend BACKEND_VZ then Some vz_status
  else None.

(** ** Choosing one *)
Definition _AUTO_PREFERENCE (system : string) : list string :=
  if String.eqb system "darwin" then [BACKEND_QEMU; BACKEND_LIBKRUN]
  else [BACKEND_FIRECRACKER; BACKEND_QEMU; BACKEND_LIBKRUN].

(** The loop of [_auto_backend] after its first round: [partial] is the first
    backend whose main binary is present. *)
Fixpoint auto_loop (preference : list string) (partial : option (string * BackendStatus))
    (fallback : string * option BackendStatus) : string * option BackendStatus :=
  match preference with
  | [] => match partial with Some (b, st) => (b, Some st) | None => fallback end
  | b :: rest =>
      match _backend_status b with
      | None => auto_loop rest partial fallback
      | Some st =>
          if available st then (b, Some st)
          else auto_loop rest
                 (match partial with
                  | None => if primary_present st then Some (b, st) else None
                  | Some _ => partial
                  end) fallback
      end
  end.

Definition _auto_backend : string * option BackendStatus :=
  let preference := _AUTO_PREFERENCE (lower (platform_system h)) in
  let fallback := default "" (head preference) in
  auto_loop preference None (fallback, _backend_status fallback).

(** [(requested or os.environ.get("CELESTO_BACKEND") or "auto").strip().lower()] *)
Definition raw_backend (requested : option string) : string :=
  lower (strip (if truthy_str requested then default "" requested
                else if truthy_str (env_CELESTO_BACKEND h) then default "" (env_CELESTO_BACKEND h)
                else BACKEND_AUTO)).

Definition resolve_backend_status (requested : option string)
    : outcome (string * option BackendStatus) :=
  let raw := raw_backend requested in
  if String.eqb raw BACKEND_AUTO then Ret _auto_backend
  else if bool_decide (raw ∈ SUPPORTED_BACKENDS) then Ret (raw, None)
  else Raise (ValueError ("Unsupported backend '" +:+ raw
                +:+ "'. Supported values: auto, firecracker, libkrun, qemu, vz")).

Definition resolve_backend (requested : option string) : outcome string :=
  fst <$> resolve_backend_status requested.

Definition resolve_backend_for_guest (requested : option string) (guest : GuestOS) : outcome string :=
  if negb (bool_decide (guest = MACOS)) then resolve_backend requested
  else
    let raw := raw_backend requested in
    if bool_decide (raw ∈ [BACKEND_AUTO; BACKEND_VZ]) then Ret BACKEND_VZ
    else Raise (ValueError ("macOS guests require backend 'vz' (got " +:+ repr raw
                  +:+ "); supported values: auto, vz")).

Definition ensure_backend_available (backend : string) (status : option BackendStatus)
    (vm_name : option string) : outcome unit :=
  let status := match status with Some st => Some st | None => _backend_status backend end in
  match status with
  | None => Raise (ValueError ("Unsupported backend '" +:+ backend
                     +:+ "'. Supported values: firecracker, libkrun, qemu, vz"))
  | Some st =>
      if available st then Ret tt
      else
        let message :=
          if truthy_str vm_name && String.eqb backend BACKEND_FIRECRACKER
          then Some (if primary_present st then _firecracker_kvm_message vm_name
                     else _firecracker_missing_message vm_name)
          else message st in
        Raise (CelestoError (if truthy_str message then default "" message
                             else "Backend '" +:+ backend +:+ "' is not available."))
  end.
End backends.

(** ** What the choice guarantees *)
Section spec.
Context (h : probes).

Definition runs (b : string) : Prop := ∃ st, _backend_status h b = Some st ∧ available st = true.
Definition installed (b : string) : Prop :=
  ∃ st, _backend_status h b = Some st ∧ primary_present st = true.
(** [b] is the first of [l] with [P]. *)
Definition first_with (P : string → Prop) (b : string) (l : list string) : Prop :=
  ∃ l1 l2, l = l1 ++ b :: l2 ∧ P b ∧ Forall (λ x, ¬ P x) l1.

Lemma first_with_cons P b x l : ¬ P x → first_with P b l → first_with P b (x :: l).
Proof. intros Hx (l1 & l2 & -> & Hb & Hl). exists (x :: l1), l2. by repeat constructor. Qed.

(** The loop returns a backend it has probed, by the preferences in turn. *)
Lemma auto_loop_spec pref partial fallback b st :
  Forall (λ x, is_Some (_backend_status h x)) pref →
  auto_loop h pref partial fallback = (b, st) →
  (first_with runs b pref ∧ st = _backend_status h b)
  ∨ Forall (λ x, ¬ runs x) pref
    ∧ match partial with
      | Some (pb, pst) => b = pb ∧ st = Some pst
      | None => (first_with installed b pref ∧ st = _backend_status h b)
                ∨ Forall (λ x, ¬ installed x) pref ∧ (b, st) = fallback
      end.
Proof.
  intros Hp. revert partial. induction Hp as [|x pref [sx Hx] Hp IH]; intros partial; simpl.
  { destruct partial as [[pb pst]|]; intros E; right; [by simplify_eq|]. split; [done|]. by right. }
  rewrite Hx. destruct (available sx) eqn:Ha.
  { intros [= <- <-]. left. split; [|done]. exists [], pref. split_and!; [done|by exists sx|done]. }
  assert (¬ runs x) as Hr by (intros (s' & Hs & ?); congruence).
  intros E. destruct (IH _ E) as [[? ?]|[Hn Hrest]]; [left; split; [by apply first_with_cons|done]|].
  right. split; [by constructor|]. destruct partial as [[pb pst]|]; [done|].
  destruct (primary_present sx) eqn:Hi.
  - destruct Hrest as [-> ->]. left. split; [|done]. exists [], pref. split_and!; [done|by exists sx|done].
  - assert (¬ installed x) as Hni by (intros (s' & Hs & ?); congruence).
    destruct Hrest as [[? ?]|[? ?]]; [left; split; [by apply first_with_cons|done]|right].
    split; [by constructor|done].
Qed.

Lemma preference_supported system : Forall (λ x, is_Some (_backend_status h x)) (_AUTO_PREFERENCE system).
Proof. unfold _AUTO_PREFERENCE. case_match; repeat constructor; eexists; reflexivity. Qed.

Lemma status_available b st vm :
  _backend_status h b = Some st → ensure_backend_available h b (Some st) vm = Ret tt ↔ runs b.
Proof.
  intros Hb. unfold ensure_backend_available. destruct (available st) eqn:Ha.
  - split; [|done]. intros _. by exists st.
  - split; [done|]. intros (st' & Hs & ?). congruence.
Qed.

(** Automatic selection takes the first backend of the platform's order
    that runs here, else the first whose main binary is installed, else the
    platform default; the status it returns is that backend's own, and the
    availability check on it passes exactly when some backend of the order
    runs, so nothing is reported missing while an alternative works. *)
Theorem auto_backend_exact vm :
  let pref := _AUTO_PREFERENCE (lower (platform_system h)) in
  let b := (_auto_backend h).1 in
  (first_with runs b pref
   ∨ Forall (λ x, ¬ runs x) pref ∧ first_with installed b pref
   ∨ Forall (λ x, ¬ runs x) pref ∧ Forall (λ x, ¬ installed x) pref ∧ head pref = Some b)
  ∧ (_auto_backend h).2 = _backend_status h b
  ∧ (ensure_backend_available h b (_auto_backend h).2 vm = Ret tt ↔ ∃ x, x ∈ pref ∧ runs x).
Proof.
  cbv zeta. unfold _auto_backend. set (pref := _AUTO_PREFERENCE _).
  pose proof (preference_supported (lower (platform_system h))) as Hs. fold pref in Hs.
  destruct (auto_loop h pref None _) as [b st] eqn:E. simpl.
  apply auto_loop_spec in E; [|done].
  assert (st = _backend_status h b) as -> by (destruct E as [[_ ?]|[_ [[_ ?]|[_ ?]]]]; by simplify_eq).
  assert (head pref = Some (default "" (head pref))) as Hhead.
  { subst pref. unfold _AUTO_PREFERENCE. by case_match. }
  assert (b ∈ pref) as Hb.
  { destruct E as [[(l1 & l2 & -> & _) _]|[_ [[(l1 & l2 & -> & _) _]|[_ ?]]]]; [set_solver..|]. simplify_eq.
    destruct pref; [done|]. left. }
  split_and!; [|done|].
  - destruct E as [[? _]|[Hn [[? _]|[? ?]]]]; [by left|by right; left|]. simplify_eq. right. right. by split_and!.
  - rewrite Forall_forall in Hs. destruct (Hs b Hb) as [st Hst]. rewrite Hst, (status_available _ _ _ Hst).
    split; [by exists b|]. intros (x & Hx & Hr).
    destruct E as [[(l1 & l2 & _ & ? & _) _]|[Hn _]]; [done|]. rewrite Forall_forall in Hn. by destruct (Hn x Hx).
Qed.
End spec.

(** A Linux host with QEMU but no access to [/dev/kvm]. *)
Definition demo_probes : probes :=
  {| platform_system := "Linux"; platform_machine := "x86_64";
     which := λ c, if bool_decide (c ∈ ["qemu-system-x86_64"; "qemu-img"]) then Some c else None;
     firecracker_binary_present := true; kvm_accessible := false; libkrun_loads := false;
     is_apple_silicon := false; macos_supported_version := false; pinned_lume_ready := false;
     env_CELESTO_BACKEND := None |}.
Example demo_probes_backend : resolve_backend demo_probes (Some " AUTO ") = Ret "qemu".
Proof. vm_compute. reflexivity. Qed.
