(* ===== verification/EgressController.v ===== *)
(** * The public-egress controller

    Steps of a controller, its clients and the host, and the invariant that
    ties the registry of sessions to the host: every running proxy and every
    installed policy belongs to a registered session. *)
From S2P Require Import Prelude PyDict PyStr Types EgressSession EgressSessionProofs PyHoare.
From stdpp Require Import options.

(** The proxies held by registered sessions other than [k]. *)
Definition others (k : string) (ss : dict string Session) (p : nat) : Prop :=
  ∃ j s, j ≠ k ∧ dget j ss = Some s ∧ s_proxy s = Some p.

Record cinv (c : controller) : Prop := {
  ci_keys : keys_ok (c_sessions c);
  ci_sinv : ∀ k s, dget k (c_sessions c) = Some s → sinv (others k (c_sessions c)) (c_host c, s);
  ci_running : ∀ p, p ∈ h_running (c_host c) →
    ∃ k s, dget k (c_sessions c) = Some s ∧ s_proxy s = Some p;
  ci_policies : ∀ t, t ∈ h_policies (c_host c) →
    ∃ k s, dget k (c_sessions c) = Some s ∧ is_tap s = true ∧ own_tap s = t;
  ci_taps : ∀ k1 k2 s1 s2, dget k1 (c_sessions c) = Some s1 → dget k2 (c_sessions c) = Some s2 →
    is_tap s1 = true → is_tap s2 = true → own_tap s1 = own_tap s2 → k1 = k2;
  ci_log : log_ok (c_host c) }.

Lemma sinv_ext R R' w : (∀ p, R p ↔ R' p) → sinv R w → sinv R' w.
Proof. intros HR []. split; try done; intros p; rewrite <- ?HR; auto. Qed.

(** ** Calls on one session *)
Section entry.
Context (c : controller) (k : string) (s : Session) (h' : host) (s' : Session).
Context (Hc : cinv c) (Hk : dget k (c_sessions c) = Some s)
  (Hi : sinv (others k (c_sessions c)) (h', s')) (Hf : frame (c_host c, s) (h', s')).

Local Abbreviation ss := (c_sessions c).
Local Abbreviation ss' := (dset k s' (c_sessions c)).

Lemma entry_own : own_tap s' = own_tap s ∧ is_tap s' = is_tap s.
Proof using Hf. exact (frame_own _ _ Hf). Qed.

Lemma entry_other j sj : j ≠ k → dget j ss = Some sj → sinv (others j ss') (h', sj).
Proof using All.
  intros Hj Hsj. pose proof (ci_sinv c Hc j sj Hsj) as Hij. 
  destruct Hij as [J1 J2 J3 J4 J5 J6 J7 J8 J9 J10 J11]. simpl in *.
  assert (is_tap sj = true → own_tap sj ≠ own_tap s ∨ is_tap s = false) as Hdis.
  { intros Ht. destruct (is_tap s) eqn:E; [left|by right]. intros Heq. apply Hj.
    by apply (ci_taps c Hc j k sj s). }
  split; simpl; auto.
  - intros Hr n Ha Ht. destruct (J3 Hr n Ha Ht). split; [done|].
    by apply (f_other_policies _ _ Hf); [apply Hdis|].
  - intros p Hp. destruct (i_owned _ _ Hi p Hp) as [(i & si & Hik & Hsi & Hpi)|Hs'].
    + destruct (decide (i = j)) as [->|Hij]; [right; by simplify_eq|].
      left. exists i, si. by rewrite dget_dset_ne by done.
    + left. exists k, s'. by rewrite dget_dset_eq.
  - intros p Hp. destruct (J6 p Hp) as [Hlt Hno]. split; [pose proof (f_next _ _ Hf); simpl in *; lia|].
    intros (i & si & Hij & Hsi & Hpi). rewrite dget_dset in Hsi. case_decide as Hik; simplify_eq.
    + destruct (i_fresh _ _ Hi p Hpi) as [_ Hn]. apply Hn. by exists j, sj.
    + apply Hno. by exists i, si.
  - intros p (i & si & Hij & Hsi & Hpi). rewrite dget_dset in Hsi. case_decide as Hik; simplify_eq.
    + by apply (i_fresh _ _ Hi).
    + assert (p < h_next (c_host c)) by (apply J7; by exists i, si).
      pose proof (f_next _ _ Hf). simpl in *. lia.
  - intros Ht Hp. apply J8; [done|]. by apply (f_other_policies _ _ Hf); [apply Hdis|].
  - by apply Hi.
Qed.

Lemma entry_inv b : cinv {| c_host := h'; c_sessions := ss'; c_closed := b |}.
Proof using All.
  destruct entry_own as [Ho Ht]. split; simpl.
  - apply keys_ok_dset, Hc.
  - intros j sj. rewrite dget_dset. case_decide as Hjk; [intros [= <-]; subst j|by apply entry_other].
    apply (sinv_ext (others k ss)); [|done]. intros p. unfold others.
    split; intros (i & si & H1 & H2 & H3); exists i, si; by rewrite dget_dset_ne in * by done.
  - intros p Hp. destruct (i_owned _ _ Hi p Hp) as [(i & si & H1 & H2 & H3)|Hs'].
    + exists i, si. by rewrite dget_dset_ne by done.
    + exists k, s'. by rewrite dget_dset_eq.
  - intros t Hin. destruct (decide (is_tap s = true ∧ own_tap s = t)) as [[H1 H2]|Hne].
    { exists k, s'. rewrite dget_dset_eq. by rewrite Ht, Ho. }
    apply (f_other_policies _ _ Hf) in Hin; [|simpl; destruct (is_tap s); naive_solver].
    destruct (ci_policies c Hc t Hin) as (i & si & H1 & H2 & H3).
    exists i, si. rewrite dget_dset_ne; [done|]. naive_solver.
  - intros k1 k2 s1 s2. rewrite !dget_dset. repeat case_decide; subst; intros; simplify_eq; try done.
    + by apply (ci_taps c Hc k1 k2 s s2); congruence.
    + by apply (ci_taps c Hc k1 k2 s1 s); congruence.
    + by apply (ci_taps c Hc k1 k2 s1 s2).
  - by apply Hi.
Qed.
End entry.

Lemma on_entry_inv {A} (m : SE A) k s c c' r :
  sound m → cinv c → dget k (c_sessions c) = Some s → on_entry k s m c = (c', r) →
  cinv c' ∧ ∃ h' s', m (c_host c, s) = ((h', s'), r) ∧ frame (c_host c, s) (h', s')
  ∧ c_host c' = h' ∧ c_sessions c' = dset k s' (c_sessions c) ∧ c_closed c' = c_closed c.
Proof.
  intros Hm Hc Hk. unfold on_entry. destruct (m (c_host c, s)) as [[h' s'] r'] eqn:Hr.
  intros [= <- <-]. destruct (Hm _ _ _ _ (ci_sinv c Hc k s Hk) Hr) as [Hi Hf].
  split; [by apply (entry_inv c k s)|]. by exists h', s'.
Qed.

(** ** Controller operations *)
Lemma controller_call_inv {A} (m : SE A) k c c' r :
  sound m → cinv c → controller_call k m c = (c', r) →
  cinv c' ∧ (∀ u, r = Ret u → ∃ s h' s', dget k (c_sessions c) = Some s
                     ∧ m (c_host c, s) = ((h', s'), Ret u) ∧ dget k (c_sessions c') = Some s').
Proof.
  intros Hm Hc. unfold controller_call, controller_get, py_bind.
  destruct (dget k (c_sessions c)) as [s|] eqn:Hk; [|intros [= <- <-]; done].
  intros H. destruct (on_entry_inv m k s c c' r Hm Hc Hk H) as (Hc' & h' & s' & H1 & _ & _ & H2 & _).
  split; [done|]. intros u ->. exists s, h', s'. by rewrite H2, dget_dset_eq.
Qed.

(** A deleted session without a policy can leave the registry. *)
Lemma remove_inv k s c :
  cinv c → dget k (c_sessions c) = Some s → s_state s = DELETED → policy_installed s = false →
  cinv (c_set_sessions (ddel k (c_sessions c)) c).
Proof.
  intros Hc Hk Hd Hp. pose proof (ci_sinv c Hc k s Hk) as Hi. pose proof (ci_keys c Hc) as Hok.
  assert (s_proxy s = None) as Hpr by (apply (i_idle _ _ Hi); by right).
  split; simpl.
  - by apply keys_ok_ddel.
  - intros j sj. rewrite dget_ddel by done. case_decide as Hj; [done|]. intros Hsj.
    apply (sinv_ext (others j (c_sessions c))); [|by apply Hc]. intros p. unfold others.
    split; intros (i & si & H1 & H2 & H3); exists i, si; rewrite ?dget_ddel in * by done;
      case_decide; simplify_eq; done.
  - intros p Hin. destruct (ci_running c Hc p Hin) as (i & si & H1 & H2). exists i, si.
    rewrite dget_ddel_ne; [done|]. naive_solver.
  - intros t Hin. destruct (ci_policies c Hc t Hin) as (i & si & H1 & H2 & H3). exists i, si.
    rewrite dget_ddel_ne; [done|]. intros ->. simplify_eq.
    pose proof (i_policy _ _ Hi H2 Hin) as Hpi. simpl in Hpi. congruence.
  - intros k1 k2 s1 s2. rewrite !dget_ddel by done. repeat case_decide; try done. apply Hc.
  - apply Hc.
Qed.

Lemma pop_if_inv P k c c' r :
  cinv c →
  (∀ s, dget k (c_sessions c) = Some s → P s = true → s_state s = DELETED ∧ policy_installed s = false) →
  pop_if P k c = (c', r) → cinv c'.
Proof.
  intros Hc HP. unfold pop_if, py_modify. intros [= <- <-].
  destruct (dget k (c_sessions c)) as [s|] eqn:Hk; [|done].
  destruct (P s) eqn:E; [|done]. destruct (HP s eq_refl E). by eapply remove_inv.
Qed.

Lemma delete_state w w' u : delete w = (w', Ret u) → s_state w'.2 = DELETED.
Proof.
  unfold delete. intros Hc. destruct (decide (s_state w.2 = DELETED)) as [Hd|Hd].
  - rewrite cleanup_deleted in Hc by done. by simplify_eq.
  - pose proof (cleanup_spec true None w Hd) as H. rewrite Hc in H. destruct H as (-> & _). done.
Qed.

Lemma controller_delete_inv k c c' r : cinv c → controller_delete k c = (c', r) → cinv c'.
Proof.
  intros Hc. unfold controller_delete. destruct (dget k (c_sessions c)) as [s|] eqn:Hk;
    [|by intros [= <- <-]].
  unfold py_bind. destruct (on_entry k s delete c) as [c1 [u|e]] eqn:He;
    destruct (on_entry_inv delete k s c c1 _ (cleanup_sound _ _) Hc Hk He)
      as (Hc1 & h' & s' & Hd & _ & _ & Hs & _); [|by intros [= <- <-]].
  apply pop_if_inv; [done|]. intros s1. rewrite Hs, dget_dset_eq. intros [= <-] Hcc.
  split; [by apply delete_state in Hd|]. by apply negb_true_iff in Hcc.
Qed.

Lemma controller_finalize_inv k c c' r :
  cinv c → controller_finalize_guest_teardown k c = (c', r) → cinv c'.
Proof.
  intros Hc. unfold controller_finalize_guest_teardown, py_bind.
  destruct (controller_call k finalize_guest_teardown c) as [c1 r1] eqn:He.
  destruct (controller_call_inv _ k c c1 r1 finalize_sound Hc He) as [Hc1 _].
  destruct r1; [|by intros [= <- <-]]. apply pop_if_inv; [done|].
  intros s _ H. unfold cleanup_complete in H. by bool_hyps.
Qed.

Lemma shutdown_loop_inv ks c c' r : cinv c → shutdown_loop ks c = (c', r) → cinv c' ∧ r = Ret tt.
Proof.
  revert c. induction ks as [|k ks IH]; intros c Hc; simpl; [by intros [= <- <-]|].
  unfold py_bind, py_try. destruct (controller_delete k c) as [c1 [[]|e]] eqn:Hd; apply IH;
    by eapply controller_delete_inv.
Qed.

Lemma cinv_closed b c : cinv c → cinv (c_set_closed b c).
Proof. intros []. by split. Qed.

Lemma controller_shutdown_inv c c' r :
  cinv c → controller_shutdown c = (c', r) → cinv c' ∧ r = Ret tt.
Proof.
  intros Hc. unfold controller_shutdown. destruct (_ && _); [by intros [= <- <-]|].
  apply shutdown_loop_inv. by apply cinv_closed.
Qed.

(** The TAP interface of a new session is not one of a registered session. *)
Definition fresh_tap (g : PublicEgressGuestNetwork) (n : NetworkConfig) (c : controller) : Prop :=
  g = guest_tap → ∀ k s, dget k (c_sessions c) = Some s → is_tap s = true → own_tap s ≠ tap_device n.

Lemma controller_create_inv sid g n c c' r :
  fresh_tap g n c → cinv c → controller_create sid g n c = (c', r) → cinv c'.
Proof.
  intros Hfr Hc. unfold controller_create. destruct (c_closed c); [by intros [= <- <-]|].
  unfold dmem. destruct (dget sid (c_sessions c)) as [s|] eqn:Hk; simpl; [by intros [= <- <-]|].
  unfold new_session. destruct (String.eqb sid ""); [by intros [= <- <-]|]. intros [= <- <-].
  set (s := Build_Session _ _ _ _ _ _ _).
  assert (is_tap s = true → own_tap s ∉ h_policies (c_host c)) as Hpol.
  { intros Ht Hin. destruct (ci_policies c Hc _ Hin) as (i & si & H1 & H2 & H3).
    apply (Hfr ltac:(by destruct g) i si H1 H2 H3). }
  split; simpl.
  - apply keys_ok_dset, Hc.
  - intros j sj. rewrite dget_dset. case_decide as Hj.
    + intros [= <-]. subst j. split; simpl; try done.
      * intros p Hp. destruct (ci_running c Hc p Hp) as (i & si & H1 & H2). left.
        exists i, si. assert (i ≠ sid) by naive_solver. by rewrite dget_dset_ne by done.
      * intros p (i & si & H1 & H2 & H3). rewrite dget_dset_ne in H2 by done.
        by apply (i_fresh _ _ (ci_sinv c Hc i si H2)).
      * intros Ht Hin. by destruct (Hpol Ht).
      * apply Hc.
    + intros Hsj. apply (sinv_ext (others j (c_sessions c))); [|by apply Hc].
      intros p. unfold others. split; intros (i & si & H1 & H2 & H3); exists i, si.
      * rewrite dget_dset_ne; [done|]. naive_solver.
      * rewrite dget_dset in H2. case_decide; simplify_eq; done.
  - intros p Hp. destruct (ci_running c Hc p Hp) as (i & si & H1 & H2). exists i, si.
    rewrite dget_dset_ne; naive_solver.
  - intros t Hp. destruct (ci_policies c Hc t Hp) as (i & si & H1 & H2 & H3). exists i, si.
    rewrite dget_dset_ne; naive_solver.
  - intros k1 k2 s1 s2. rewrite !dget_dset.
    repeat case_decide; subst; intros H1 H2 H3 H4 H5; simplify_eq; try done.
    + by destruct (Hfr ltac:(by destruct g) k2 s2).
    + by destruct (Hfr ltac:(by destruct g) k1 s1).
    + by apply (ci_taps c Hc k1 k2 s1 s2).
  - apply Hc.
Qed.

(** ** Runs of a host process *)

(** What a client does with a session it holds. *)
Inductive session_call := CallPrepare | CallLaunch | CallRestart | CallRequireReady.
Definition run_call (m : session_call) : SE unit :=
  match m with
  | CallPrepare => do! prepare in py_return tt
  | CallLaunch => launch
  | CallRestart => restart
  | CallRequireReady => do! require_ready in py_return tt
  end.

Inductive controller_op :=
| OpCreate (sid : string) (g : PublicEgressGuestNetwork) (n : NetworkConfig)
| OpCall (sid : string) (m : session_call)
| OpStop (sid : string) | OpDelete (sid : string) | OpFinalize (sid : string) | OpShutdown.

Definition run_op (op : controller_op) : CE unit :=
  match op with
  | OpCreate sid g n => do! controller_create sid g n in py_return tt
  | OpCall sid m => controller_call sid (run_call m)
  | OpStop sid => controller_stop sid
  | OpDelete sid => controller_delete sid
  | OpFinalize sid => controller_finalize_guest_teardown sid
  | OpShutdown => controller_shutdown
  end.

Definition op_allowed (op : controller_op) (c : controller) : Prop :=
  match op with OpCreate _ g n => fresh_tap g n c | _ => True end.

(** The host changes by itself: proxies die, interfaces come and go, and any
    later external call may fail. *)
Inductive cstep : controller → controller → Prop :=
| step_op op c : op_allowed op c → cstep c (final (run_op op c))
| step_proxies_die X c : cstep c (c_set_host (h_set_running (h_running (c_host c) ∖ X) (c_host c)) c)
| step_taps T c : cstep c (c_set_host (h_set_taps T (c_host c)) c)
| step_script sc c : cstep c (c_set_host (h_set_script sc (c_host c)) c).

(** A fresh controller on a host that runs no proxy and has no policy. *)
Definition fresh_controller (c : controller) : Prop :=
  c_sessions c = [] ∧ h_running (c_host c) = ∅ ∧ h_policies (c_host c) = ∅ ∧ h_log (c_host c) = [].

Definition reachable (c : controller) : Prop := ∃ c0, fresh_controller c0 ∧ rtc cstep c0 c.

Lemma fresh_cinv c : fresh_controller c → cinv c.
Proof.
  intros (H1 & H2 & H3 & H4). split; rewrite ?H1, ?H2, ?H3; try done; [apply keys_ok_nil|].
  unfold log_ok. by rewrite H4.
Qed.

Lemma bind_ret_sound {A} (m : SE A) : sound m → sound (do! m in py_return tt).
Proof.
  intros Hm R w w' r Hi. unfold py_bind. destruct (m w) as [w1 r1] eqn:E.
  destruct (Hm R w w1 r1 Hi E). by destruct r1; intros [= <- <-].
Qed.

Lemma run_call_sound m : sound (run_call m).
Proof.
  destruct m; simpl.
  - apply bind_ret_sound. intros R w w' r Hi H. by destruct (prepare_ok R w w' r Hi H) as (? & ? & _).
  - apply launch_sound.
  - apply restart_sound.
  - apply bind_ret_sound. intros R w w' r Hi H. by destruct (require_ready_ok R w w' r Hi H) as (? & ? & _).
Qed.

Lemma run_op_inv op c : op_allowed op c → cinv c → cinv (final (run_op op c)).
Proof.
  intros Ha Hc. destruct (run_op op c) as [c' r] eqn:E. unfold final. simpl.
  destruct op as [sid g n|sid m|sid|sid|sid|]; simpl in *.
  - unfold py_bind in E. destruct (controller_create sid g n c) as [c1 r1] eqn:E1.
    apply controller_create_inv in E1; [|done..]. by destruct r1; injection E as <- <-.
  - by apply (controller_call_inv _ sid c c' r (run_call_sound m)).
  - by apply (controller_call_inv _ sid c c' r (cleanup_sound false None)).
  - by eapply controller_delete_inv.
  - by eapply controller_finalize_inv.
  - by eapply controller_shutdown_inv.
Qed.

Lemma cinv_host c h' :
  cinv c → h_running h' ⊆ h_running (c_host c) → h_policies h' = h_policies (c_host c) →
  h_next h' = h_next (c_host c) → h_log h' = h_log (c_host c) → cinv (c_set_host h' c).
Proof.
  intros [H1 H2 H3 H4 H5 H6] Hr Hp Hn Hl. split; simpl; try done; rewrite ?Hp; auto.
  - intros k s Hk. destruct (H2 k s Hk) as [J1 J2 J3 J4 J5 J6 J7 J8 J9 J10 J11].
    split; simpl in *; rewrite ?Hp, ?Hn; auto. unfold log_ok. by rewrite Hl.
  - unfold log_ok. by rewrite Hl.
Qed.

Lemma cstep_inv c c' : cstep c c' → cinv c → cinv c'.
Proof. intros [] Hc; [by apply run_op_inv|..]; apply cinv_host; try done; set_solver. Qed.

Lemma reachable_cinv c : reachable c → cinv c.
Proof.
  intros (c0 & Hf & Hs). apply fresh_cinv in Hf. induction Hs as [|x y z H _ IH]; [done|].
  apply IH. by eapply cstep_inv.
Qed.

(** ** Policies go only after their interface *)
Definition keeps_policies (c c' : controller) : Prop :=
  h_taps (c_host c') = h_taps (c_host c)
  ∧ ∀ t, t ∈ h_policies (c_host c) → t ∈ h_policies (c_host c') ∨ t ∉ h_taps (c_host c).

#[global] Instance keeps_policies_preorder : PreOrder keeps_policies.
Proof.
  split; [by intros c; split; auto|]. intros c1 c2 c3 [H1 H2] [H3 H4]. split; [congruence|].
  intros t Ht. destruct (H2 t Ht) as [Ht'|]; [|by right]. rewrite <- H1. by apply H4.
Qed.

Lemma frame_keeps c c' s s' : frame (c_host c, s) (c_host c', s') → keeps_policies c c'.
Proof. intros []. by split. Qed.

Lemma call_keeps {A} (m : SE A) k c c' r :
  sound m → cinv c → controller_call k m c = (c', r) → keeps_policies c c'.
Proof.
  intros Hm Hc. unfold controller_call, controller_get, py_bind.
  destruct (dget k (c_sessions c)) as [s|] eqn:Hk; [|by intros [= <- <-]].
  intros H. destruct (on_entry_inv m k s c c' r Hm Hc Hk H) as (_ & h' & s' & _ & Hf & <- & _).
  by eapply frame_keeps.
Qed.

Lemma pop_if_host P k c : c_host (final (pop_if P k c)) = c_host c.
Proof.
  unfold pop_if, py_modify, final. simpl. destruct (dget k _) as [s|]; [|done]. by destruct (P s).
Qed.

Lemma keeps_same_host c c1 c2 : c_host c2 = c_host c1 → keeps_policies c c1 → keeps_policies c c2.
Proof. unfold keeps_policies. by intros ->. Qed.

Lemma delete_keeps k c c' r : cinv c → controller_delete k c = (c', r) → keeps_policies c c'.
Proof.
  intros Hc. unfold controller_delete. destruct (dget k (c_sessions c)) as [s|] eqn:Hk;
    [|by intros [= <- <-]].
  unfold py_bind. destruct (on_entry k s delete c) as [c1 r1] eqn:He.
  destruct (on_entry_inv delete k s c c1 _ (cleanup_sound _ _) Hc Hk He)
    as (_ & h' & s' & _ & Hf & <- & _). apply frame_keeps in Hf.
  destruct r1; [|by intros [= <- <-]]. intros H. pose proof (pop_if_host cleanup_complete k c1) as Hp.
  rewrite H in Hp. by eapply keeps_same_host.
Qed.

Lemma shutdown_loop_keeps ks c c' r : cinv c → shutdown_loop ks c = (c', r) → keeps_policies c c'.
Proof.
  revert c. induction ks as [|k ks IH]; intros c Hc; simpl; [by intros [= <- <-]|].
  unfold py_bind, py_try. destruct (controller_delete k c) as [c1 r1] eqn:Hd.
  pose proof (delete_keeps k c c1 r1 Hc Hd) as H1. pose proof (controller_delete_inv k c c1 r1 Hc Hd).
  destruct r1 as [[]|e]; intros H2; (etrans; [exact H1|]; by apply IH).
Qed.

Lemma run_op_keeps op c : cinv c → keeps_policies c (final (run_op op c)).
Proof.
  intros Hc. destruct (run_op op c) as [c' r] eqn:E. unfold final. simpl.
  destruct op as [sid g n|sid m|sid|sid|sid|]; simpl in *.
  - unfold py_bind, controller_create in E.
    destruct (c_closed c), (dmem sid (c_sessions c)), (new_session sid g n);
      injection E as <- <-; by apply (keeps_same_host c c).
  - by apply (call_keeps _ sid c c' r (run_call_sound m)).
  - by apply (call_keeps _ sid c c' r (cleanup_sound false None)).
  - by eapply delete_keeps.
  - unfold controller_finalize_guest_teardown, py_bind in E.
    destruct (controller_call sid finalize_guest_teardown c) as [c1 r1] eqn:E1.
    apply call_keeps in E1; [|apply finalize_sound|done]. destruct r1; [|by injection E as <- <-].
    pose proof (pop_if_host (λ s, bool_decide (s_state s = DELETED) && cleanup_complete s) sid c1) as Hp.
    rewrite E in Hp. by eapply keeps_same_host.
  - unfold controller_shutdown in E. destruct (_ && _); [by injection E as <- <-|].
    apply shutdown_loop_keeps in E; [exact E|by apply cinv_closed].
Qed.

(** ** Shutdown with a cooperative host *)
Definition settled (k : string) (c : controller) : Prop :=
  ∀ s, dget k (c_sessions c) = Some s → s_state s = DELETED ∧ policy_installed s = true.

Lemma cleanup_cooperative md reason w :
  h_script w.1 = [] → ∃ w', _cleanup md reason w = (w', Ret tt) ∧ h_script w'.1 = [].
Proof.
  intros Hsc. unfold _cleanup. case_bool_decide; [by exists w|]. destruct w as [h s].
  unfold py_bind, py_try, proxy_stop, py_bind, next_call, _emit, modify_session, modify_host, py_modify,
    on_session, on_host, py_return. simpl in *.
  destruct (s_proxy s); simpl; rewrite ?Hsc; simpl; eauto.
Qed.

Lemma delete_cooperative k c : cinv c → h_script (c_host c) = [] → ∃ c',
  controller_delete k c = (c', Ret tt) ∧ h_script (c_host c') = [] ∧ settled k c'
  ∧ ∀ j, settled j c → settled j c'.
Proof.
  intros Hc Hsc. unfold controller_delete.
  destruct (dget k (c_sessions c)) as [s|] eqn:Hk.
  2: { exists c. split_and!; [done|done| |done]. intros s Hs. congruence. }
  unfold py_bind, on_entry.
  destruct (cleanup_cooperative true None (c_host c, s) Hsc) as ([h' s'] & Hcl & Hsc').
  unfold delete at 1. rewrite Hcl. unfold pop_if, py_modify. simpl. rewrite dget_dset_eq.
  assert (s_state s' = DELETED) as Hd by (by apply (delete_state (c_host c, s) (h', s') tt)).
  assert (keys_ok (dset k s' (c_sessions c))) as Hok by (apply keys_ok_dset, Hc).
  eexists. split; [done|].
  destruct (cleanup_complete s') eqn:Hcc; unfold cleanup_complete in Hcc; bool_hyps; simpl;
    (split; [done|]; split; [intros s1|intros j Hj s1]); simpl.
  - by rewrite dget_ddel_eq.
  - rewrite dget_ddel by done. case_decide; [done|]. rewrite dget_dset_ne by done. apply Hj.
  - rewrite dget_dset_eq. by intros [= <-].
  - rewrite dget_dset. case_decide; [by intros [= <-]|apply Hj].
Qed.

Lemma shutdown_loop_cooperative ks c : cinv c → h_script (c_host c) = [] → ∃ c',
  shutdown_loop ks c = (c', Ret tt) ∧ cinv c' ∧ (∀ k, k ∈ ks → settled k c')
  ∧ ∀ j, settled j c → settled j c'.
Proof.
  revert c. induction ks as [|k ks IH]; intros c Hc Hsc; simpl.
  { exists c. split_and!; try done. by intros k Hk%elem_of_nil. }
  destruct (delete_cooperative k c Hc Hsc) as (c1 & Hd & Hsc1 & Hs1 & Hk1).
  pose proof (controller_delete_inv k c c1 _ Hc Hd) as Hc1.
  destruct (IH c1 Hc1 Hsc1) as (c2 & Hl & Hc2 & Hs2 & Hk2).
  exists c2. unfold py_bind, py_try. rewrite Hd. split_and!; [done|done| |auto].
  intros j [->|Hj]%elem_of_cons; auto.
Qed.

Lemma settled_running c : cinv c → (∀ k, settled k c) → h_running (c_host c) = ∅.
Proof.
  intros Hc Hs. apply set_eq. intros p. split; [|set_solver]. intros Hp.
  destruct (ci_running c Hc p Hp) as (k & s & Hk & Hps). destruct (Hs k s Hk) as [Hd _].
  pose proof (i_idle _ _ (ci_sinv c Hc k s Hk) (or_intror Hd)). simpl in *. congruence.
Qed.

Lemma delete_closed k c : c_closed (final (controller_delete k c)) = c_closed c.
Proof.
  unfold controller_delete. destruct (dget k (c_sessions c)) as [s|]; [|done].
  unfold py_bind, on_entry. destruct (delete (c_host c, s)) as [[h' s'] [u|e]]; [|done].
  unfold pop_if, py_modify, final. simpl. destruct (dget k _) as [s1|]; [|done].
  by destruct (cleanup_complete s1).
Qed.

Lemma shutdown_loop_closed ks c c' r : shutdown_loop ks c = (c', r) → c_closed c' = c_closed c.
Proof.
  revert c. induction ks as [|k ks IH]; intros c; simpl; [by intros [= <- <-]|].
  unfold py_bind, py_try. pose proof (delete_closed k c) as Hd.
  destruct (controller_delete k c) as [c1 [[]|e]]; intros ->%IH; exact Hd.
Qed.

(** ** Claims *)

(** C32: whatever fails on the host, every guest launched through a session had
    its proxy running and, on a TAP network, its policy installed. *)
Theorem guest_launch_enforced c sid running policy :
  reachable c → Launch sid running policy ∈ h_log (c_host c) → running = true ∧ policy = true.
Proof.
  intros Hr Hin. apply reachable_cinv, ci_log in Hr. unfold log_ok in Hr.
  rewrite Forall_forall in Hr. exact (Hr _ Hin).
Qed.

(** Metadata handed out by [prepare] or [require_ready] belongs to a ready
    session whose proxy runs and whose TAP interface, if any, is restricted. *)
Theorem metadata_means_enforced c k s w' n :
  reachable c → dget k (c_sessions c) = Some s →
  prepare (c_host c, s) = (w', Ret n) ∨ require_ready (c_host c, s) = (w', Ret n) →
  s_state w'.2 = READY ∧ active_network w'.2 = Some n
  ∧ (∃ p, s_proxy w'.2 = Some p ∧ p ∈ h_running w'.1)
  ∧ (is_tap w'.2 = true → tap_device n ∈ h_policies w'.1).
Proof.
  intros Hr Hk Hm. pose proof (ci_sinv c (reachable_cinv c Hr) k s Hk) as Hi.
  change (armed n w'). destruct Hm as [Hm|Hm].
  - by apply (prepare_ok _ _ _ _ Hi Hm).
  - by apply (require_ready_ok _ _ _ _ Hi Hm).
Qed.

(** No proxy or policy outlives its owner: each running proxy is held by
    exactly one registered session that is neither stopped nor deleted, each
    restricted interface belongs to a registered session that still records
    the policy, and an empty registry means an unburdened host. *)
Theorem registry_owns_host c :
  reachable c →
  (∀ p, p ∈ h_running (c_host c) → ∃ k s, dget k (c_sessions c) = Some s ∧ s_proxy s = Some p
     ∧ s_state s ≠ STOPPED_ ∧ s_state s ≠ DELETED
     ∧ ∀ k' s', dget k' (c_sessions c) = Some s' → s_proxy s' = Some p → k' = k)
  ∧ (∀ t, t ∈ h_policies (c_host c) → ∃ k s, dget k (c_sessions c) = Some s ∧ own_tap s = t
     ∧ policy_installed s = true ∧ active_network s ≠ None)
  ∧ (c_sessions c = [] → h_running (c_host c) = ∅ ∧ h_policies (c_host c) = ∅).
Proof.
  intros Hc%reachable_cinv. split_and!.
  - intros p Hp. destruct (ci_running c Hc p Hp) as (k & s & Hk & Hs). exists k, s.
    pose proof (ci_sinv c Hc k s Hk) as Hi. split_and!; try done.
    + intros Hst. pose proof (i_idle _ _ Hi (or_introl Hst)). simpl in *. congruence.
    + intros Hst. pose proof (i_idle _ _ Hi (or_intror Hst)). simpl in *. congruence.
    + intros k' s' Hk' Hs'. destruct (decide (k' = k)) as [|Hne]; [done|].
      destruct (i_fresh _ _ Hi p Hs) as [_ []]. by exists k', s'.
  - intros t Ht. destruct (ci_policies c Hc t Ht) as (k & s & Hk & Hi & Ho). exists k, s. subst t.
    pose proof (ci_sinv c Hc k s Hk) as Hs. pose proof (i_policy _ _ Hs Hi Ht) as Hp. simpl in Hp.
    split_and!; try done. by apply (i_policy_data _ _ Hs).
  - intros He. split; apply set_eq; intros x; (split; [|set_solver]); intros Hx; exfalso.
    + destruct (ci_running c Hc x Hx) as (k & s & Hk & _). by rewrite He in Hk.
    + destruct (ci_policies c Hc x Hx) as (k & s & Hk & _). by rewrite He in Hk.
Qed.

(** C33: no operation of the controller or its sessions lifts the policy of an
    interface that still exists. *)
Theorem policy_outlives_interface c op t :
  reachable c → t ∈ h_policies (c_host c) → t ∈ h_taps (c_host c) →
  t ∈ h_policies (c_host (final (run_op op c))).
Proof.
  intros Hc%reachable_cinv Hp Ht. destruct (run_op_keeps op c Hc) as [_ H].
  by destruct (H t Hp).
Qed.

(** C34: [shutdown] never raises and closes the controller; when proxies stop as
    asked it leaves none running and keeps only deleted sessions whose TAP
    policy is still due. *)
Theorem shutdown_releases_proxies c :
  reachable c →
  (controller_shutdown c).2 = Ret tt ∧ c_closed (final (controller_shutdown c)) = true
  ∧ (h_script (c_host c) = [] →
     h_running (c_host (final (controller_shutdown c))) = ∅
     ∧ ∀ k s, dget k (c_sessions (final (controller_shutdown c))) = Some s →
         s_state s = DELETED ∧ policy_installed s = true).
Proof.
  intros Hc%reachable_cinv.
  destruct (controller_shutdown c) as [c' r] eqn:E. unfold final. simpl.
  destruct (controller_shutdown_inv c c' r Hc E) as [Hc' ->]. split; [done|].
  unfold controller_shutdown in E. destruct (_ && _) eqn:Hb.
  - injection E as <-. apply andb_true_iff in Hb as [Hb He%bool_decide_eq_true].
    split; [done|]. intros _. rewrite He. split; [|done].
    apply settled_running; [done|]. intros k s Hs. by rewrite He in Hs.
  - split; [by rewrite (shutdown_loop_closed _ _ _ _ E)|]. intros Hsc.
    destruct (shutdown_loop_cooperative (dkeys (c_sessions c)) (c_set_closed true c))
      as (c2 & E2 & Hc2 & Hin & Hkeep); [by apply cinv_closed|done|].
    rewrite E in E2. injection E2 as <-.
    assert (∀ k, settled k c') as Hall.
    { intros k. destruct (decide (k ∈ dkeys (c_sessions c))) as [|Hk]; [by apply Hin|].
      apply Hkeep. intros s Hs. destruct Hk. apply dkeys_elem. by exists s. }
    split; [by apply settled_running|]. intros k s. apply Hall.
Qed.

(** A deleted session is inert: it hands out no metadata, launches no guest,
    touches nothing on the host, and a new session needs a new object. *)
Theorem deleted_session_inert w :
  s_state w.2 = DELETED →
  stop w = (w, Ret tt) ∧ delete w = (w, Ret tt)
  ∧ (∃ e, prepare w = (w, Raise e)) ∧ (∃ e, launch w = (w, Raise e))
  ∧ (∃ e, restart w = (w, Raise e)) ∧ (∃ e, require_ready w = (w, Raise e)).
Proof.
  intros Hd. unfold restart, launch, prepare, require_ready, stop, delete, py_bind.
  rewrite !cleanup_deleted, Hd by done. split_and!; eauto.
Qed.

(** ** A concrete run *)
Definition demo_network : NetworkConfig :=
  {| guest_ip := Some "172.16.0.2"; gateway_ip := Some "172.16.0.1"; netmask := Some "255.255.255.0";
     tap_device := "tap0"; guest_mac := "AA:FC:00:00:00:01"; ssh_host_port := None;
     egress_proxy_host_port := None; nc_mode := nat_mode; nc_bridge := None |}.
Definition demo_host : host :=
  {| h_next := 0; h_running := ∅; h_policies := ∅; h_taps := ∅; h_script := [];
     h_endpoint := λ _, ("172.16.0.1", 9000%Z); h_log := [] |}.
Definition demo_start : controller := {| c_host := demo_host; c_sessions := []; c_closed := false |}.
Definition demo_created : controller := final (run_op (OpCreate "vm" guest_tap demo_network) demo_start).
Definition demo_tap : controller :=
  c_set_host (h_set_taps {["tap0"]} (c_host demo_created)) demo_created.
Definition demo_launched : controller := final (run_op (OpCall "vm" CallLaunch) demo_tap).
Definition demo_session (c : controller) : Session :=
  match dget "vm" (c_sessions c) with
  | Some s => s
  | None => Build_Session "" qemu_slirp demo_network DELETED None None false
  end.
Definition demo_metadata : NetworkConfig := with_proxy_port 9000 demo_network.

Lemma demo_created_reachable : reachable demo_created.
Proof. exists demo_start. split; [done|]. apply rtc_once, (step_op (OpCreate _ _ _)). by intros _ k s. Qed.
Lemma demo_launched_reachable : reachable demo_launched.
Proof.
  destruct demo_created_reachable as (c0 & H & Hs). exists c0. split; [done|].
  etrans; [exact Hs|]. eapply rtc_l; [apply (step_taps {["tap0"]})|]. by apply rtc_once, (step_op (OpCall _ _)).
Qed.

Lemma guest_launch_enforced_witness :
  Launch "vm" true true ∈ h_log (c_host demo_launched) ∧ true = true ∧ true = true.
Proof.
  assert (Launch "vm" true true ∈ h_log (c_host demo_launched)) as H.
  { change (Launch "vm" true true ∈ [Diag "vm" STARTING None; Diag "vm" READY None; Launch "vm" true true]).
    set_solver. }
  split; [exact H|]. exact (guest_launch_enforced demo_launched "vm" true true demo_launched_reachable H).
Defined.

Lemma metadata_means_enforced_witness :
  dget "vm" (c_sessions demo_launched) = Some (demo_session demo_launched)
  ∧ "tap0" ∈ h_policies (c_host demo_launched).
Proof.
  split; [reflexivity|].
  assert (require_ready (c_host demo_launched, demo_session demo_launched)
          = ((c_host demo_launched, demo_session demo_launched), Ret demo_metadata)) as H
    by (vm_compute; reflexivity).
  destruct (metadata_means_enforced demo_launched "vm" (demo_session demo_launched) _ demo_metadata
    demo_launched_reachable eq_refl (or_intror H)) as (_ & _ & _ & Hp).
  exact (Hp eq_refl).
Defined.

Lemma registry_owns_host_witness :
  ∃ k s, dget k (c_sessions demo_launched) = Some s ∧ s_proxy s = Some 0 ∧ s_state s ≠ DELETED.
Proof.
  destruct (registry_owns_host demo_launched demo_launched_reachable) as [H _].
  destruct (H 0) as (k & s & H1 & H2 & _ & H3 & _); [vm_compute; reflexivity|]. by exists k, s.
Defined.

Lemma policy_outlives_interface_witness :
  "tap0" ∈ h_policies (c_host (final (run_op (OpFinalize "vm") demo_launched))).
Proof.
  apply (policy_outlives_interface demo_launched (OpFinalize "vm") "tap0" demo_launched_reachable);
    vm_compute; reflexivity.
Defined.

Lemma shutdown_releases_proxies_witness :
  h_running (c_host (final (controller_shutdown demo_launched))) = ∅.
Proof.
  destruct (shutdown_releases_proxies demo_launched demo_launched_reachable) as (_ & _ & H).
  apply H. reflexivity.
Defined.

Lemma deleted_session_inert_witness : ∃ e,
  prepare (demo_host, demo_session demo_start) = ((demo_host, demo_session demo_start), Raise e).
Proof. apply (deleted_session_inert (demo_host, demo_session demo_start)). reflexivity. Defined.

(** * A session leaves the proxies of the others alone *)
(** Proxy [q] runs and is not the session's. *)
Definition foreign (q : nat) (w : SW) : Prop :=
  q ∈ h_running w.1 ∧ q < h_next w.1 ∧ s_proxy w.2 ≠ Some q.

Section foreign.
Context (q : nat).
Local Abbreviation I := (foreign q).

Lemma foreign_next_call : keeps I next_call.
Proof. intros w Hw. unfold wp, next_call. destruct (h_script w.1); exact Hw. Qed.
Lemma foreign_emit r : keeps I (_emit r).
Proof. intros w Hw. exact Hw. Qed.
Lemma foreign_modify_session f : (∀ s, s_proxy s ≠ Some q → s_proxy (f s) ≠ Some q) → keeps I (modify_session f).
Proof. intros Hf w (?&?&?). split_and!; try done. by apply Hf. Qed.
Lemma foreign_modify_host f :
  (∀ h, q ∈ h_running h → q ∈ h_running (f h)) → (∀ h, h_next (f h) = h_next h) → keeps I (modify_host f).
Proof. intros Hf Hn w (?&?&?). split_and!; simpl; auto. by rewrite Hn. Qed.
Lemma foreign_error {A} pre post : keeps I (session_error pre post : SE A).
Proof. by intros w Hw. Qed.
Lemma foreign_self {A} (f : SW → SE A) : (∀ w, keeps I (f w)) → keeps I (λ w, f w w).
Proof. intros H w Hw. by apply (H w). Qed.

(** Back to [wp] once a method has looked at its state. *)
Local Ltac fold_wp := lazymatch goal with |- match ?m ?w with _ => _ end => change (wp m (λ _, I) (λ _, I) w) end.
Local Ltac f_step :=
  lazymatch goal with
  | |- keeps _ (py_bind _ _) => apply keeps_bind; [|intros ?]
  | |- keeps _ (py_try _ _) => apply keeps_try; [|intros ?]
  | |- keeps _ (py_return _) => apply keeps_return
  | |- keeps _ (py_raise _) => apply keeps_raise
  | |- keeps _ (py_lift _) => apply keeps_lift
  | |- keeps _ py_get => apply keeps_get
  | |- keeps _ next_call => apply foreign_next_call
  | |- keeps _ (_emit _) => apply foreign_emit
  | |- keeps _ (session_error _ _) => apply foreign_error
  | |- keeps _ (modify_session _) => apply foreign_modify_session; intros ? ?; try done
  | |- keeps _ (match ?x with _ => _ end) => destruct x
  end.
Local Ltac f_steps := repeat (f_step; cbv beta).

Lemma foreign_stop p : p ≠ q → keeps I (proxy_stop p).
Proof. intros Hp. unfold proxy_stop. f_steps. apply foreign_modify_host; [|done]. intros h ?. simpl. set_solver. Qed.
Lemma foreign_start p : keeps I (proxy_start p).
Proof. unfold proxy_start. f_steps. intros w (?&?&?). split_and!; try done. simpl. set_solver. Qed.
Lemma foreign_fail st r : keeps I (_fail st r).
Proof. unfold _fail. f_steps. Qed.
Lemma foreign_apply t : keeps I (apply_policy t).
Proof. unfold apply_policy. f_steps; by apply foreign_modify_host. Qed.

Lemma foreign_cleanup md reason : keeps I (_cleanup md reason).
Proof.
  intros w Hw. unfold wp, _cleanup. case_bool_decide; [exact Hw|]. fold_wp.
  assert (∀ failed : bool, keeps I (if failed then
       do! _fail FAILED_CLOSED cleanup_failed in
       session_error "Public-egress cleanup for '" "' was incomplete; retry stop."
     else
       do! modify_session (s_set_proxy None) in
       do! modify_session (λ s, if negb (is_tap s) || negb (policy_installed s)
                                then s_set_active None s else s) in
       do! modify_session (s_set_state (if md then DELETED
                                        else if is_some reason then FAILED_CLOSED else STOPPED_)) in
       _emit reason)) as Hrest.
  { intros failed. f_steps; try apply foreign_fail. by case_match. }
  destruct (s_proxy w.2) as [p|] eqn:Hp.
  - assert (p ≠ q) as Hne by (destruct Hw as (_&_&Hw); congruence).
    apply wp_bind. eapply wp_mono; [eapply (_ : keeps I _); exact Hw|intros ? ? ?; by apply Hrest|done].
    Unshelve. f_steps. by apply foreign_stop.
  - apply wp_bind, wp_return. exact (Hrest false w Hw).
Qed.

Lemma foreign_require_ready : keeps I require_ready.
Proof.
  intros w Hw. unfold wp, require_ready.
  assert (keeps I (do! _fail FAILED_CLOSED proxy_stopped in
    (session_error "Public-egress proxy for '" "' stopped; stop it and retry." : SE NetworkConfig))) as Hf.
  { f_steps. apply foreign_fail. }
  destruct (s_state w.2), (s_proxy w.2), (active_network w.2); try exact Hw.
  case_bool_decide; [exact Hw|]. fold_wp. by apply Hf.
Qed.

Lemma foreign_start_failure {A} : keeps I (start_failure : SE A).
Proof.
  unfold start_failure. f_steps; [by case_match|].
  intros w Hw. unfold wp. case_bool_decide; [exact Hw|]. fold_wp. by apply foreign_fail.
Qed.

(** A new proxy is never the other's. *)
Lemma foreign_new_proxy {A} (k : nat → SE A) :
  (∀ p, p ≠ q → keeps I (k p)) → keeps I (let! p := new_proxy in k p).
Proof.
  intros Hk w Hw. unfold new_proxy. apply wp_bind, wp_bind.
  eapply wp_mono; [by apply foreign_next_call| |done]. intros ok w1 Hw1. cbv beta in *.
  destruct ok; [|done]. unfold wp. destruct Hw1 as (H1 & H2 & H3).
  assert (foreign q (on_host (h_set_next (S (h_next w1.1))) w1)) as Hw1 by (split_and!; simpl; [done|lia|done]).
  exact (Hk (h_next w1.1) ltac:(lia) _ Hw1).
Qed.

Lemma foreign_start_proxy lh : keeps I (start_proxy lh).
Proof.
  unfold start_proxy. apply keeps_try; [|intros; apply foreign_start_failure]. apply foreign_new_proxy.
  intros p Hp. f_steps; [by intros [= ->]|apply foreign_start|]. unfold stop_failed_proxy.
  f_steps; [by apply foreign_stop|apply foreign_fail].
Qed.

Lemma foreign_prepare_start lh : keeps I (prepare_start lh).
Proof.
  unfold prepare_start. f_steps; [apply foreign_start_proxy|]. unfold install_tap_policy. f_steps;
    [apply foreign_apply|apply foreign_cleanup].
Qed.

Lemma foreign_prepare_idle : keeps I prepare_idle.
Proof. unfold prepare_idle. f_steps; [apply foreign_prepare_start|apply foreign_fail]. Qed.

Lemma foreign_prepare : keeps I prepare.
Proof.
  intros w Hw. unfold wp, prepare. destruct (s_state w.2); try exact Hw; fold_wp.
  - by apply foreign_prepare_idle.
  - by apply foreign_require_ready.
  - apply wp_bind. eapply wp_mono; [by apply foreign_cleanup| |done]. intros ? ? ?. by apply foreign_prepare_idle.
Qed.
End foreign.
