(* ===== verification/ManagerState.v ===== *)
(** * vm.py: the state of a computer manager and the calls it makes

    [CelestoManager] owns an inventory (any [StateManager]), the public-egress
    sessions of its guests, and files in its data directory.  What it asks of
    the rest of the machine (the network tools, the hypervisor processes, the
    disk tools, the file system) is answered by an environment, one entry per
    call, so every pattern of failures is a run of the model.  [g_net] records
    the calls on the host network with their results; [g_procs] the guest
    processes that run: pid, computer, and whether its network is public-only. *)
From S2P Require Import Prelude PyHoare PyDict PyStr StorageBase Types MemoryState StateProtocol.
From S2P Require Import NetworkSettings Channel EgressSession Backends.
From stdpp Require Import options.
From Stdlib Require Import Ascii.

(** ** Calls on the host network *)
Inductive netop :=
| prepare_tap_device (tap : string)
| add_route (ip tap : string)
| apply_network_policy (tap : string) (destinations : option (list string)) (guest_ip : option string)
| setup_nat (tap : string) (allow_outbound : bool)
| apply_egress_allowlist (tap : string) (ips : list string)
| setup_ssh_port_forward (vm ip : string) (port : Z)
| prepare_bridged_tap (tap bridge vm : string)
| cleanup_ssh_port_forward (vm ip : string) (port : Z)
| cleanup_all_local_port_forwards (vm : string)
| remove_egress_rules (tap : string)
| cleanup_nat_rules (tap : string)
| cleanup_tap (tap : string)
| remove_network_policy (tap : string)
| cleanup_bridged_tap (tap vm : string).
#[global] Instance netop_eq_dec : EqDecision netop.
Proof. solve_decision. Defined.

(** [RuntimeLaunch] *)
Record launch_t := {
  l_status : VMState;
  l_pid : Z;
  l_socket : option path;
  l_display : option DesktopEndpoint }.

(** What a disk tool did: wrote the file, or failed and left it as it was or
    half written. *)
Inductive disk_answer := disk_ok (content : nat) | disk_fails (e : exn) (left : option nat).

Record menv := {
  e_probes : probes;
  e_backend : string;
  e_data_dir : path;
  e_disk_dir : path;
  e_socket_dir : path;
  e_sys_platform : string;
  e_vhost_vsock : bool;
  e_resolve : path → path;
  e_header : path → list Z;
  e_dir_ok : path → bool;
  e_firmware_link : string → bool;
  e_is_link : path → bool;
  e_lume_binary : bool;
  e_tcp_free : nat → string → Z → bool;
  e_net : nat → netop → option exn;
  e_interface : nat → string → bool;
  e_dns : nat → list string → list string;
  e_inspect : nat → string → option string;
  e_live_cids : nat → list Z;
  e_random_mac : nat → string;
  e_spawn : nat → VMInfo → outcome positive;
  e_boot : nat → VMInfo → option exn;
  e_alive : nat → Z → bool;
  e_signal : nat → Z → kill_result;
  e_kill : nat → Z → bool;
  e_monitor : nat → string → VMInfo → option exn;
  e_display : nat → option DesktopEndpoint;
  e_disk : nat → string → disk_answer;
  e_bundle : nat → path → bool * option exn;
  e_firmware : nat → string → bool * option exn;
  e_unlink : nat → string → option exn;
  e_replace : nat → string → option exn;
  e_backing_file : gmap string nat → path → option path;
  e_process_args : nat → option string;
  e_file_size : nat → path → option Z;
  e_uuid : nat → string }.

(** ** The manager *)
Record mgr (St : Type) := {
  g_state : St;
  g_calls : nat;
  g_net : list (netop * bool);
  g_procs : gset (Z * string * bool);
  g_host : host;
  g_public : dict string Session;
  g_unrecorded : dict string VMInfo;
  g_disks : gmap string nat;
  g_firmware : gset string;
  g_logs : gset string;
  g_bundles : gset path }.
Arguments g_state {St}. Arguments g_calls {St}. Arguments g_net {St}. Arguments g_procs {St}.
Arguments g_host {St}. Arguments g_public {St}. Arguments g_unrecorded {St}.
Arguments g_disks {St}. Arguments g_firmware {St}. Arguments g_logs {St}. Arguments g_bundles {St}.

Section setters.
Context {St : Type}.
Implicit Types g : mgr St.

Definition g_set_state x g : mgr St :=
  {| g_state := x; g_calls := g_calls g; g_net := g_net g; g_procs := g_procs g; g_host := g_host g;
     g_public := g_public g; g_unrecorded := g_unrecorded g; g_disks := g_disks g;
     g_firmware := g_firmware g; g_logs := g_logs g; g_bundles := g_bundles g |}.
Definition g_set_calls x g : mgr St :=
  {| g_state := g_state g; g_calls := x; g_net := g_net g; g_procs := g_procs g; g_host := g_host g;
     g_public := g_public g; g_unrecorded := g_unrecorded g; g_disks := g_disks g;
     g_firmware := g_firmware g; g_logs := g_logs g; g_bundles := g_bundles g |}.
Definition g_add_net x g : mgr St :=
  {| g_state := g_state g; g_calls := g_calls g; g_net := g_net g ++ [x]; g_procs := g_procs g;
     g_host := g_host g; g_public := g_public g; g_unrecorded := g_unrecorded g; g_disks := g_disks g;
     g_firmware := g_firmware g; g_logs := g_logs g; g_bundles := g_bundles g |}.
Definition g_set_procs x g : mgr St :=
  {| g_state := g_state g; g_calls := g_calls g; g_net := g_net g; g_procs := x; g_host := g_host g;
     g_public := g_public g; g_unrecorded := g_unrecorded g; g_disks := g_disks g;
     g_firmware := g_firmware g; g_logs := g_logs g; g_bundles := g_bundles g |}.
Definition g_set_egress h p g : mgr St :=
  {| g_state := g_state g; g_calls := g_calls g; g_net := g_net g; g_procs := g_procs g; g_host := h;
     g_public := p; g_unrecorded := g_unrecorded g; g_disks := g_disks g;
     g_firmware := g_firmware g; g_logs := g_logs g; g_bundles := g_bundles g |}.
Definition g_set_unrecorded x g : mgr St :=
  {| g_state := g_state g; g_calls := g_calls g; g_net := g_net g; g_procs := g_procs g;
     g_host := g_host g; g_public := g_public g; g_unrecorded := x; g_disks := g_disks g;
     g_firmware := g_firmware g; g_logs := g_logs g; g_bundles := g_bundles g |}.
Definition g_set_disks x g : mgr St :=
  {| g_state := g_state g; g_calls := g_calls g; g_net := g_net g; g_procs := g_procs g;
     g_host := g_host g; g_public := g_public g; g_unrecorded := g_unrecorded g; g_disks := x;
     g_firmware := g_firmware g; g_logs := g_logs g; g_bundles := g_bundles g |}.
Definition g_set_firmware x g : mgr St :=
  {| g_state := g_state g; g_calls := g_calls g; g_net := g_net g; g_procs := g_procs g;
     g_host := g_host g; g_public := g_public g; g_unrecorded := g_unrecorded g; g_disks := g_disks g;
     g_firmware := x; g_logs := g_logs g; g_bundles := g_bundles g |}.
Definition g_set_logs x g : mgr St :=
  {| g_state := g_state g; g_calls := g_calls g; g_net := g_net g; g_procs := g_procs g;
     g_host := g_host g; g_public := g_public g; g_unrecorded := g_unrecorded g; g_disks := g_disks g;
     g_firmware := g_firmware g; g_logs := x; g_bundles := g_bundles g |}.
Definition g_set_bundles x g : mgr St :=
  {| g_state := g_state g; g_calls := g_calls g; g_net := g_net g; g_procs := g_procs g;
     g_host := g_host g; g_public := g_public g; g_unrecorded := g_unrecorded g; g_disks := g_disks g;
     g_firmware := g_firmware g; g_logs := g_logs g; g_bundles := x |}.
End setters.

(** ** [config.model_copy(update=...)] *)
Definition c_set_backend (b : string) (c : VMConfig) : VMConfig :=
  {| vm_id := vm_id c; preset := preset c; vcpu_count := vcpu_count c; memory := memory c;
     guest_os := guest_os c; boot_mode := boot_mode c; kernel_path := kernel_path c;
     initrd_path := initrd_path c; rootfs_path := rootfs_path c; rootfs_format := rootfs_format c;
     macos_machine := macos_machine c; extra_drives := extra_drives c; boot_args := boot_args c;
     ssh_capable := ssh_capable c; backend := Some b; qemu_network := qemu_network c;
     qemu_machine := qemu_machine c; disk_mode := disk_mode c; disk_size_mib := disk_size_mib c;
     grow_filesystem := grow_filesystem c; retain_disk_on_delete := retain_disk_on_delete c;
     env_vars := env_vars c; network_rate_limit_mbps := network_rate_limit_mbps c;
     port_forwards := port_forwards c; vsock_config := vsock_config c; comm_channel := comm_channel c;
     internet_settings := internet_settings c; workspace_mounts := workspace_mounts c;
     ssh_public_key := ssh_public_key c; guest_managed_networking := guest_managed_networking c;
     network_attachment := network_attachment c |}.
Definition c_set_qemu_network (q : qemu_network_t) (c : VMConfig) : VMConfig :=
  {| vm_id := vm_id c; preset := preset c; vcpu_count := vcpu_count c; memory := memory c;
     guest_os := guest_os c; boot_mode := boot_mode c; kernel_path := kernel_path c;
     initrd_path := initrd_path c; rootfs_path := rootfs_path c; rootfs_format := rootfs_format c;
     macos_machine := macos_machine c; extra_drives := extra_drives c; boot_args := boot_args c;
     ssh_capable := ssh_capable c; backend := backend c; qemu_network := q;
     qemu_machine := qemu_machine c; disk_mode := disk_mode c; disk_size_mib := disk_size_mib c;
     grow_filesystem := grow_filesystem c; retain_disk_on_delete := retain_disk_on_delete c;
     env_vars := env_vars c; network_rate_limit_mbps := network_rate_limit_mbps c;
     port_forwards := port_forwards c; vsock_config := vsock_config c; comm_channel := comm_channel c;
     internet_settings := internet_settings c; workspace_mounts := workspace_mounts c;
     ssh_public_key := ssh_public_key c; guest_managed_networking := guest_managed_networking c;
     network_attachment := network_attachment c |}.
Definition c_set_rootfs (p : path) (f : RootfsFormat) (c : VMConfig) : VMConfig :=
  {| vm_id := vm_id c; preset := preset c; vcpu_count := vcpu_count c; memory := memory c;
     guest_os := guest_os c; boot_mode := boot_mode c; kernel_path := kernel_path c;
     initrd_path := initrd_path c; rootfs_path := Some p; rootfs_format := Some f;
     macos_machine := macos_machine c; extra_drives := extra_drives c; boot_args := boot_args c;
     ssh_capable := ssh_capable c; backend := backend c; qemu_network := qemu_network c;
     qemu_machine := qemu_machine c; disk_mode := disk_mode c; disk_size_mib := disk_size_mib c;
     grow_filesystem := grow_filesystem c; retain_disk_on_delete := retain_disk_on_delete c;
     env_vars := env_vars c; network_rate_limit_mbps := network_rate_limit_mbps c;
     port_forwards := port_forwards c; vsock_config := vsock_config c; comm_channel := comm_channel c;
     internet_settings := internet_settings c; workspace_mounts := workspace_mounts c;
     ssh_public_key := ssh_public_key c; guest_managed_networking := guest_managed_networking c;
     network_attachment := network_attachment c |}.
Definition c_set_vsock (v : VsockConfig) (c : VMConfig) : VMConfig :=
  {| vm_id := vm_id c; preset := preset c; vcpu_count := vcpu_count c; memory := memory c;
     guest_os := guest_os c; boot_mode := boot_mode c; kernel_path := kernel_path c;
     initrd_path := initrd_path c; rootfs_path := rootfs_path c; rootfs_format := rootfs_format c;
     macos_machine := macos_machine c; extra_drives := extra_drives c; boot_args := boot_args c;
     ssh_capable := ssh_capable c; backend := backend c; qemu_network := qemu_network c;
     qemu_machine := qemu_machine c; disk_mode := disk_mode c; disk_size_mib := disk_size_mib c;
     grow_filesystem := grow_filesystem c; retain_disk_on_delete := retain_disk_on_delete c;
     env_vars := env_vars c; network_rate_limit_mbps := network_rate_limit_mbps c;
     port_forwards := port_forwards c; vsock_config := Some v; comm_channel := comm_channel c;
     internet_settings := internet_settings c; workspace_mounts := workspace_mounts c;
     ssh_public_key := ssh_public_key c; guest_managed_networking := guest_managed_networking c;
     network_attachment := network_attachment c |}.

(** [update_vm(vm_id, **fields)] with nothing else set *)
Definition u_nothing : vm_update :=
  {| u_status := None; u_config := None; u_network := None; u_pid := None;
     u_control_socket_path := None; u_display := None; u_clear_pid := false;
     u_clear_socket_path := false; u_clear_display := false |}.
Definition u_with_network (n : NetworkConfig) : vm_update :=
  {| u_status := None; u_config := None; u_network := Some n; u_pid := None;
     u_control_socket_path := None; u_display := None; u_clear_pid := false;
     u_clear_socket_path := false; u_clear_display := false |}.
Definition u_with_config (c : VMConfig) : vm_update :=
  {| u_status := None; u_config := Some c; u_network := None; u_pid := None;
     u_control_socket_path := None; u_display := None; u_clear_pid := false;
     u_clear_socket_path := false; u_clear_display := false |}.
Definition u_with_status (st : VMState) : vm_update :=
  {| u_status := Some st; u_config := None; u_network := None; u_pid := None;
     u_control_socket_path := None; u_display := None; u_clear_pid := false;
     u_clear_socket_path := false; u_clear_display := false |}.
Definition u_cleared (st : VMState) (socket display : bool) : vm_update :=
  {| u_status := Some st; u_config := None; u_network := None; u_pid := None;
     u_control_socket_path := None; u_display := None; u_clear_pid := true;
     u_clear_socket_path := socket; u_clear_display := display |}.
Definition u_launched (l : launch_t) : vm_update :=
  {| u_status := Some (l_status l); u_config := None; u_network := None; u_pid := Some (l_pid l);
     u_control_socket_path := l_socket l; u_display := l_display l; u_clear_pid := false;
     u_clear_socket_path := false; u_clear_display := false |}.
