(* ===== verification/ManagerHelpers.v ===== *)
(** * vm.py: the helpers of the lifecycle methods

    Backend and channel resolution, network-policy checks, disk names, MAC
    addresses, the reservation loops, and the calls on the environment. *)
From S2P Require Import Prelude PyHoare PyDict PyStr StorageBase Types MemoryState StateProtocol.
From S2P Require Import NetworkSettings Channel EgressSession Backends ManagerState.
From stdpp Require Import options sorting.
From Stdlib Require Import Ascii.

(** ** Pure helpers *)
Definition GuestOS_value (g : GuestOS) : string :=
  match g with ALPINE => "alpine" | UBUNTU => "ubuntu" | WINDOWS => "windows" | MACOS => "macos" end.
Definition net_mode_value (m : net_mode) : string :=
  match m with nat_mode => "nat" | bridge_mode => "bridge" end.
Definition qemu_network_value (q : qemu_network_t) : string :=
  match q with slirp => "slirp" | tap => "tap" end.
Definition channel_value (c : CommChannelKind) : string :=
  match c with ssh => "ssh" | vsock => "vsock" end.

Definition _validate_cleanup_id (vm : string) : outcome unit :=
  guard_raise (negb (identifier_ok vm))
    (ValueError "Invalid sandbox name; run 'celesto sandbox list' to choose a sandbox.").

(** [path.suffix.lower() == ".qcow2"] on the file name *)
Definition has_qcow2_suffix (p : path) : bool :=
  let n := String.length p in
  (7 <=? n) && String.eqb (lower (String.substring (n - 6) 6 p)) ".qcow2"
  && negb (String.eqb (String.substring (n - 7) 1 p) "/").
Definition infer_rootfs_format_from_path (p : path) : RootfsFormat :=
  if has_qcow2_suffix p then rootfs_qcow2 else raw_ext4.
Definition effective_rootfs_format (c : VMConfig) : outcome RootfsFormat :=
  match rootfs_path c with
  | None => Raise (ValueError "this guest does not have a Linux-style root filesystem")
  | Some p => Ret (default (infer_rootfs_format_from_path p) (rootfs_format c))
  end.

(** Big-endian integers of a header's bytes. *)
Definition be_int (bytes : list Z) : Z := fold_left (λ n b, n * 256 + b)%Z bytes 0%Z.
Definition slice (a b : nat) (l : list Z) : list Z := take (b - a) (drop a l).

(** [path.name] *)
Definition path_name (p : path) : string := default "" (last (str_split "/"%char p)).

(** [path.suffix] *)
Definition path_suffix (p : path) : string :=
  match rev (str_split "."%char (path_name p)) with
  | ext :: stem :: stems =>
      if String.eqb (str_join "." (rev (stem :: stems))) "" || String.eqb ext "" then "" else "." +:+ ext
  | _ => ""
  end.

(** [p.relative_to(root)] succeeds, and its text *)
Definition under (root p : path) : bool := String.eqb p root || startswith (root +:+ "/") p.
Definition relative_to (root p : path) : path :=
  if String.eqb p root then "." else String.substring (S (String.length root)) (String.length p) p.

Definition _reject_external_qcow2_files (p : path) (header : list Z) : outcome unit :=
  let header := take 104 header in
  if bool_decide (length header < 20) || negb (bool_decide (take 4 header = [81; 70; 73; 251]%Z))
  then Ret tt
  else
    let version := be_int (slice 4 8 header) in
    let backing_offset := be_int (slice 8 16 header) in
    let backing_length := be_int (slice 16 20 header) in
    let external_data := (3 <=? version)%Z
                         && negb (Z.land (be_int (slice 72 80 header)) (Z.shiftl 1 2) =? 0)%Z in
    guard_raise (negb (bool_decide (version ∈ [2; 3]%Z)) || negb (backing_offset =? 0)%Z
                 || negb (backing_length =? 0)%Z || external_data)
      (CelestoError ("Image '" +:+ path_name p
         +:+ "' refers to external files or an unsupported format; choose a standalone image and retry the create command.")).

(** [f"{n:02X}"] *)
Definition hex_upper (n : Z) : ascii :=
  ascii_of_N (Z.to_N (if (n <? 10)%Z then n + 48 else n + 55)%Z).
Definition hex2 (n : Z) : string := String (hex_upper (n / 16)) (String (hex_upper (n mod 16)) "").

Definition generate_mac (vm_number : Z) : outcome string :=
  if (vm_number <? 0)%Z || (65534 <? vm_number)%Z
  then Raise (ValueError "vm_number must be between 0 and 65534")
  else Ret ("AA:FC:00:00:" +:+ hex2 (Z.land (Z.shiftr vm_number 8) 255) +:+ ":"
            +:+ hex2 (Z.land vm_number 255)).

Definition QEMU_GUEST_IP : string := "10.0.2.15".
Definition QEMU_GATEWAY_IP : string := "10.0.2.2".
Definition QEMU_NETMASK : string := "255.255.255.0".
Definition LIBKRUN_GUEST_IP : string := "192.168.127.2".
Definition LIBKRUN_GATEWAY_IP : string := "192.168.127.1".
Definition DEFAULT_HOST_IP : string := "172.16.0.1".

Definition _usernet_addresses (b vm : string) : outcome (string * string * string) :=
  if String.eqb b BACKEND_QEMU then Ret (QEMU_GUEST_IP, QEMU_GATEWAY_IP, QEMU_NETMASK)
  else if String.eqb b BACKEND_LIBKRUN then Ret (LIBKRUN_GUEST_IP, LIBKRUN_GATEWAY_IP, QEMU_NETMASK)
  else Raise (NetworkError ("Celesto does not know what network settings the '" +:+ b
         +:+ "' backend gives a computer. Run 'celesto computer create --name " +:+ vm
         +:+ " --backend qemu' instead.")).

Definition _uses_host_tap_networking (c : VMConfig) (b : string) : bool :=
  if String.eqb b BACKEND_FIRECRACKER then true
  else if String.eqb b BACKEND_QEMU
  then bool_decide (qemu_network c = tap) || bool_decide (na_mode (network_attachment c) = bridge_mode)
  else false.
Definition _is_bridge_attachment (c : VMConfig) : bool :=
  bool_decide (na_mode (network_attachment c) = bridge_mode).

Definition _qemu_materialized_rootfs_format (c : VMConfig) : outcome RootfsFormat :=
  f ← effective_rootfs_format c;
  Ret (if bool_decide (f = raw_ext4) && grow_filesystem c then raw_ext4 else rootfs_qcow2).
Definition _materialized_rootfs_format (c : VMConfig) (b : string) : outcome RootfsFormat :=
  if String.eqb b BACKEND_QEMU then _qemu_materialized_rootfs_format c else effective_rootfs_format c.
(** The file name of [_instance_disk_path]. *)
Definition _instance_disk_name (vm b : string) (f : RootfsFormat) : string :=
  vm +:+ (if String.eqb b BACKEND_QEMU && negb (bool_decide (f = raw_ext4)) then ".qcow2" else ".ext4").
Definition _managed_disk_name_for_create (c : VMConfig) (b : string) : outcome (option string) :=
  if bool_decide (guest_os c = MACOS) || match disk_mode c with shared => true | isolated => false end
  then Ret None
  else f ← _materialized_rootfs_format c b; Ret (Some (_instance_disk_name (vm_id c) b f)).
Definition _retained_marker (disk : string) : string := disk +:+ ".retained".

Definition _policy_destinations (c : VMConfig) : option (list string) :=
  match internet_settings c with
  | Some s => if has_explicit_restrictions s then Some (allowed_cidrs s) else None
  | None => None
  end.

Definition is_network_error (e : exn) : bool :=
  match e with NetworkError _ | BridgeTapOwnershipError _ => true | _ => false end.

(** [mode is None and not is_allow_all_domains] *)
Definition uses_domain_allowlist (c : VMConfig) : bool :=
  match internet_settings c with
  | Some s => negb (is_some (is_mode s)) && negb (is_allow_all_domains s)
  | None => false
  end.
Definition explicitly_restricted (c : VMConfig) : bool :=
  match internet_settings c with Some s => has_explicit_restrictions s | None => false end.
Definition is_public (c : VMConfig) : bool :=
  match internet_settings c with Some s => bool_decide (is_mode s = Some public_mode) | None => false end.

Definition _crashed_message (vm : string) : string :=
  "Computer '" +:+ vm +:+ "' is not running — its process has exited; run 'celesto computer delete "
  +:+ vm +:+ "' to clear it.".
Definition _vsock_recovery_command (vm b : string) : string :=
  "celesto computer create --name " +:+ vm +:+ " --backend " +:+ b.
Definition _vsock_not_supported_message (vm code recovery_command : string) : string :=
  let reason :=
    if String.eqb code "vsock_not_supported_for_windows" then "Windows guests use SSH in this release"
    else if String.eqb code "vsock_not_supported_for_backend"
    then "this backend does not support vsock in this release"
    else if String.eqb code "vsock_host_device_missing" then "this host is missing QEMU vsock support"
    else if String.eqb code "vsock_not_supported_for_firecracker_host"
    then "Firecracker vsock is only available on Linux"
    else "vsock is not available for this computer" in
  "Cannot use vsock for computer '" +:+ vm +:+ "': " +:+ reason
  +:+ "; create it with SSH by running: " +:+ recovery_command +:+ ".".

Section env.
Context (E : menv).

Definition _backend_for_config (c : VMConfig) : outcome string :=
  let requested := if truthy_str (backend c) then default "" (backend c) else e_backend E in
  match resolve_backend_for_guest (e_probes E) (Some requested) (guest_os c) with
  | Raise (ValueError m) => Raise (CelestoError m)
  | r => r
  end.

Definition _resolve_control_channel_for_config (c : VMConfig) (b : string) : outcome CommChannelKind :=
  match resolve_comm_channel (platform_system (e_probes E)) (e_vhost_vsock E) None (comm_channel c)
          (Some b) (Some (GuestOS_value (guest_os c))) None with
  | Raise (CelestoError code) =>
      Raise (CelestoError (_vsock_not_supported_message (vm_id c) code (_vsock_recovery_command (vm_id c) b)))
  | r => r
  end.

Definition _should_reserve_ssh_forward (c : VMConfig) (resolution : CommChannelKind) : bool :=
  negb (bool_decide (length (workspace_mounts c) = 0)) || bool_decide (resolution = ssh).

Definition _validate_network_policy (c : VMConfig) (b : string) : outcome unit :=
  match internet_settings c with
  | None => Ret tt
  | Some s =>
      s' ← parse_network_policy s;
      validate_network_policy_options (e_sys_platform E) s'
        {| po_backend := b; po_guest_os := GuestOS_value (guest_os c);
           po_comm_channel := channel_value <$> comm_channel c;
           has_mounts := negb (bool_decide (length (workspace_mounts c) = 0));
           has_forwards := negb (bool_decide (length (port_forwards c) = 0));
           network_mode := net_mode_value (na_mode (network_attachment c));
           po_qemu_network := qemu_network_value (qemu_network c) |}
  end.

Definition disk_path_of (name : string) : path := e_disk_dir E +:+ "/" +:+ name.

(** The managed disk of a stored computer, by its file name. *)
Definition _managed_disk_for_vm (i : VMInfo) : outcome (option string) :=
  let c := config i in
  match rootfs_path c with
  | None => Ret None
  | Some p =>
      if bool_decide (guest_os c = MACOS) then Ret None
      else match disk_mode c with
      | shared => Ret None
      | isolated =>
          b ← _backend_for_config c;
          f ← effective_rootfs_format c;
          let name := _instance_disk_name (vi_vm_id i) b f in
          Ret (if bool_decide (e_resolve E p = e_resolve E (disk_path_of name)) then Some name else None)
      end
  end.

(** ** Files beside a managed disk *)
Definition _is_managed_disk_sidecar (disk candidate_name : string) : bool :=
  startswith (disk +:+ ".backing-") candidate_name
  || startswith (disk +:+ ".restore-") candidate_name && contains ".backing-" candidate_name.

(** Follows backing files from [current] while they are sidecars of [disk] in
    the disk directory. *)
Fixpoint sidecar_loop (fuel : nat) (disks : gmap string nat) (disk : string) (seen : list path)
    (current : path) : list string :=
  match fuel with
  | 0 => []
  | S fuel' =>
      match e_backing_file E disks current with
      | None => []
      | Some backing =>
          let resolved := e_resolve E backing in
          if bool_decide (resolved ∈ seen) then []
          else if negb (under (e_resolve E (e_disk_dir E)) resolved) then []
          else if negb (_is_managed_disk_sidecar disk (path_name resolved)) then []
          else relative_to (e_resolve E (e_disk_dir E)) resolved
                 :: sidecar_loop fuel' disks disk (resolved :: seen) resolved
      end
  end.
Definition _managed_disk_backing_sidecars (disks : gmap string nat) (disk : string) : list string :=
  sidecar_loop (S (S (size disks))) disks disk [] (disk_path_of disk).

(** The files of the directory itself, sorted by name. *)
Definition dir_files (disks : gmap string nat) : list string :=
  merge_sort str_le (filter (λ n, contains_char "/"%char n = false) (elements (dom disks))).

(** Files that only serve [disk]: its backing sidecars, then [disk.*]. *)
Definition _managed_disk_companions (disks : gmap string nat) (disk : string) : list string :=
  let sidecars := _managed_disk_backing_sidecars disks disk in
  sidecars ++ filter (λ n, startswith (disk +:+ ".") n = true ∧ n ∉ sidecars) (dir_files disks).

(** ** Calls *)
Context {St : Type} `{!StateManager St}.
Local Abbreviation M := (py (mgr St)).

Definition on_state {A} (m : py St A) : M A := λ g,
  let (s', r) := m (g_state g) in (g_set_state s' g, r).
Definition tick : M nat := λ g, (g_set_calls (S (g_calls g)) g, Ret (g_calls g)).
Definition raise_if {A} (o : option exn) (a : A) : M A :=
  match o with Some e => py_raise e | None => py_return a end.

Definition net (op : netop) : M unit :=
  let! n := tick in
  do! py_modify (g_add_net (op, negb (is_some (e_net E n op)))) in
  raise_if (e_net E n op) tt.

(** A disk tool that writes [name]. *)
Definition write_disk (name : string) : M unit :=
  let! n := tick in
  match e_disk E n name with
  | disk_ok c => py_modify (λ g, g_set_disks (<[name := c]> (g_disks g)) g)
  | disk_fails e half =>
      do! py_modify (λ g, g_set_disks
             (match half with Some c => <[name := c]> (g_disks g) | None => g_disks g end) g) in
      py_raise e
  end.
Definition unlink (name : string) : M unit :=
  let! n := tick in
  match e_unlink E n name with
  | Some e => py_raise e
  | None => py_modify (λ g, g_set_disks (base.delete name (g_disks g)) g)
  end.
Definition exists_disk (name : string) (g : mgr St) : bool := is_some (g_disks g !! name).

(** A method of the public-egress session stored under [vm]. *)
Definition on_public {A} (vm : string) (s : Session) (m : SE A) : M A := λ g,
  let '((h', s'), r) := m (g_host g, s) in
  (g_set_egress h' (dset vm s' (g_public g)) g, r).

(** ** Reservations *)
Definition SSH_POOL_SIZE : nat := Z.to_nat (SSH_PORT_END - SSH_PORT_START + 1).

Fixpoint ssh_port_loop (fuel : nat) (vm : string) (excluded : list Z) : M Z :=
  match fuel with
  | 0 => py_raise (RuntimeErrorExn "out of fuel")
  | S fuel' =>
      if bool_decide (length excluded < SSH_POOL_SIZE) then
        let! port := on_state (sm_reserve_ssh_port vm None excluded) in
        let! n := tick in
        if e_tcp_free E n "127.0.0.1" port then py_return port
        else
          do! on_state (sm_release_ssh_port vm) in
          ssh_port_loop fuel' vm (if bool_decide (port ∈ excluded) then excluded else port :: excluded)
      else
        py_raise (NetworkError ("No local SSH port is available for computer '" +:+ vm
          +:+ "'. Free a port in " +:+ dec SSH_PORT_START +:+ "-" +:+ dec SSH_PORT_END +:+ ", then retry."))
  end.
Definition _reserve_available_ssh_port (vm : string) : M Z := ssh_port_loop (S SSH_POOL_SIZE) vm [].

Fixpoint cid_loop (vm : string) (live : list Z) (cands : list Z) : M Z :=
  match cands with
  | [] => py_raise (NetworkError "No vsock CIDs available in pool")
  | c :: cands' =>
      if bool_decide (c ∈ live) then cid_loop vm live cands'
      else py_try (on_state (sm_reserve_vsock_cid vm (Some c)))
             (λ e, if is_network_error e then cid_loop vm live cands' else py_raise e)
  end.

Definition _reserve_vsock_cid_for_backend (vm b : string) (requested : option Z) : M Z :=
  if negb (String.eqb b BACKEND_QEMU) then on_state (sm_reserve_vsock_cid vm requested)
  else
    let! n := tick in
    let live := e_live_cids E n in
    if bool_decide (length live = 0) then on_state (sm_reserve_vsock_cid vm requested)
    else match requested with
    | Some _ =>
        let! cid := on_state (sm_reserve_vsock_cid vm requested) in
        if bool_decide (cid ∈ live) then
          do! on_state (sm_release_vsock_cid vm) in
          py_raise (NetworkError ("Vsock CID " +:+ dec cid
            +:+ " is already in use by another running QEMU computer; run 'celesto computer delete "
            +:+ vm +:+ "' to remove this computer, then create it again without that explicit CID."))
        else py_return cid
    | None =>
        let! existing := on_state (sm_get_vsock_cid vm) in
        match existing with
        | Some c => py_return c
        | None => cid_loop vm live (zrange VSOCK_CID_START VSOCK_CID_END)
        end
    end.

Definition _maybe_enable_vsock (c : VMConfig) (b : string) (i : VMInfo) : M VMInfo :=
  let! resolution := py_lift (_resolve_control_channel_for_config c b) in
  let should_reserve_device :=
    bool_decide (b ∈ [BACKEND_QEMU; BACKEND_FIRECRACKER]) && is_some (vsock_config c) in
  if negb (bool_decide (resolution = vsock)) && negb should_reserve_device then py_return i
  else
    let! cid := _reserve_vsock_cid_for_backend (vm_id c) b (guest_cid <$> vsock_config c) in
    let uds := vsock_config c ≫= uds_path in
    let uds := if String.eqb b BACKEND_FIRECRACKER && negb (is_some uds)
               then Some (e_socket_dir E +:+ "/vsock-" +:+ vm_id c +:+ ".sock") else uds in
    on_state (sm_update_vm (vm_id c)
      (u_with_config (c_set_vsock {| guest_cid := cid; uds_path := uds |} c))).

Definition _ensure_vm_id_available (vm : string) : M unit :=
  let! free := py_try (do! on_state (sm_get_vm vm) in py_return false)
                 (λ e, match e with VMNotFoundError _ => py_return true | _ => py_raise e end) in
  if (free : bool) then py_return tt else py_raise (VMAlreadyExistsError vm).
End env.
