(* ===== verification/ManagerRuntime.v ===== *)
(** * runtime/: starting and stopping guest processes

    [start], [stop], [pause] and [resume] of the four runtime adapters.  Each
    step outside the program (spawning a process, bringing the guest up,
    signals, control sockets) is answered by the environment.  A graceful
    shutdown request only asks the guest to exit: what it achieved is what the
    next liveness check reports. *)
From S2P Require Import Prelude PyHoare PyDict PyStr StorageBase Types MemoryState StateProtocol.
From S2P Require Import NetworkSettings Channel EgressSession Backends ManagerState ManagerHelpers.
From stdpp Require Import options.

Section runtime.
Context (E : menv) {St : Type}.
Local Abbreviation M := (py (mgr St)).

(** ** Processes *)
Definition drop_pid (p : Z) (g : mgr St) : mgr St :=
  g_set_procs (filter (λ x, x.1.1 ≠ p) (g_procs g)) g.

Definition _is_process_running (p : Z) : M bool :=
  let! n := tick in
  if e_alive E n p then py_return true else do! py_modify (drop_pid p) in py_return false.

Definition _kill_process (p : Z) : M unit :=
  let! n := tick in py_when (e_kill E n p) (py_modify (drop_pid p)).

Definition _unlink_socket (o : option path) : M unit :=
  match o with
  | Some p => let! n := tick in raise_if (e_unlink E n p) tt
  | None => py_return tt
  end.

(** [vm_info.pid and is_process_running(vm_info.pid)] *)
Definition pid_running (i : VMInfo) : M bool :=
  match pid i with
  | Some p => if (p =? 0)%Z then py_return false else _is_process_running p
  | None => py_return false
  end.
Definition kill_pid (i : VMInfo) : M unit :=
  match pid i with Some p => _kill_process p | None => py_return tt end.

(** ** start *)
Definition spawn (i : VMInfo) : M Z :=
  let! n := tick in
  match e_spawn E n i with
  | Ret p => do! py_modify (λ g, g_set_procs ({[(Z.pos p, vi_vm_id i, is_public (config i))]} ∪ g_procs g) g) in
             py_return (Z.pos p)
  | Raise e => py_raise e
  end.
Definition boot (i : VMInfo) : M unit := let! n := tick in raise_if (e_boot E n i) tt.

(** [if vm_id in self._public_egress: self._unrecorded_public_launches[vm_id] = i] *)
Definition record_unrecorded (vm : string) (i : VMInfo) : M unit :=
  py_modify (λ g, if is_some (dget vm (g_public g))
                  then g_set_unrecorded (dset vm i (g_unrecorded g)) g else g).

(** [vm_info.model_copy(update={...})] of a process that was just spawned *)
Definition spawned_info (p : Z) (socket : path) (i : VMInfo) : VMInfo :=
  {| vi_vm_id := vi_vm_id i; status := RUNNING; config := config i; network := network i;
     pid := Some p; control_socket_path := Some socket; vsock_uds_path := vsock_uds_path i;
     display := display i |}.

(** A public-only guest's process is registered as soon as it exists, before
    anything can fail, so that its proxy is kept while it may still run. *)
Definition _start_qemu (i : VMInfo) (socket : path) : M Z :=
  let! p := spawn i in
  do! record_unrecorded (vi_vm_id i) (spawned_info p socket i) in
  py_return p.

Definition qmp_socket (i : VMInfo) : path := e_socket_dir E +:+ "/qmp-" +:+ vi_vm_id i +:+ ".sock".

Definition qemu_start (i : VMInfo) : M launch_t :=
  let! p := _start_qemu i (qmp_socket i) in
  py_try (do! boot i in
          py_return {| l_status := RUNNING; l_pid := p; l_display := None;
                       l_socket := Some (qmp_socket i) |})
    (λ e, do! _kill_process p in py_raise e).

Definition firecracker_start (i : VMInfo) : M launch_t :=
  do! py_lift (guard_raise (negb (is_some (kernel_path (config i)) && is_some (rootfs_path (config i))))
                 (AssertionErrorExn "")) in
  let! p := spawn i in
  py_try (do! boot i in
          do! py_lift (guard_raise (negb (is_some (network i)))
                         (CelestoError "Computer has no network configuration")) in
          py_return {| l_status := RUNNING; l_pid := p; l_display := None;
                       l_socket := Some (e_socket_dir E +:+ "/fc-" +:+ vi_vm_id i +:+ ".sock") |})
    (λ e, do! _kill_process p in py_raise e).

(** [_wait_for_runtime] of libkrun only raises for a process that has exited. *)
Definition libkrun_start (i : VMInfo) : M launch_t :=
  let! p := spawn i in
  py_try (do! boot i in
          py_return {| l_status := RUNNING; l_pid := p; l_display := None; l_socket := None |})
    (λ e, do! py_modify (drop_pid p) in py_raise e).

Definition vz_machine (i : VMInfo) : outcome unit :=
  guard_raise (negb (bool_decide (guest_os (config i) = MACOS)) || negb (is_some (macos_machine (config i))))
    (CelestoError ("Computer '" +:+ vi_vm_id i +:+ "' does not have a macOS machine bundle; delete it with 'celesto computer delete "
       +:+ vi_vm_id i +:+ "' and create it again with '--os macos'.")).
Definition vz_start (i : VMInfo) : M launch_t :=
  do! py_lift (vz_machine i) in
  let! p := spawn i in
  py_try (do! boot i in
          let! n := tick in
          py_return {| l_status := RUNNING; l_pid := p; l_socket := None; l_display := e_display E n |})
    (λ e, do! _kill_process p in py_raise e).

(** ** stop *)
Definition qemu_stop (i : VMInfo) : M unit :=
  do! pid_running i in
  let! alive := pid_running i in
  do! py_when alive (kill_pid i) in
  let! alive := pid_running i in
  if (alive : bool) then
    py_raise (CelestoError ("QEMU process did not exit for computer '" +:+ vi_vm_id i +:+ "'"))
  else _unlink_socket (control_socket_path i).

Definition firecracker_stop (i : VMInfo) : M unit :=
  let! alive := pid_running i in
  do! py_when alive (kill_pid i) in
  _unlink_socket (control_socket_path i).

Definition libkrun_stop (i : VMInfo) : M unit :=
  let! alive := pid_running i in
  do! py_when alive (kill_pid i) in
  let! alive := pid_running i in
  if (alive : bool) then
    py_raise (CelestoError ("libkrun process did not exit for computer '" +:+ vi_vm_id i +:+ "'"))
  else py_return tt.

(** Lume stops the guest; its answer is the environment's. *)
Definition vz_stop (i : VMInfo) : M unit :=
  do! py_lift (vz_machine i) in
  let! n := tick in
  do! raise_if (e_monitor E n "stop" i) tt in
  kill_pid i.

(** ** pause and resume *)
Definition monitor (command : string) (i : VMInfo) : M unit :=
  let! n := tick in raise_if (e_monitor E n command i) tt.
Definition firecracker_client (i : VMInfo) : outcome unit :=
  guard_raise (negb (is_some (control_socket_path i))) (CelestoError "Computer has no Firecracker socket path").

(** ** _runtime_adapter_for_backend *)
Definition _runtime_adapter_for_backend (b : string) : outcome unit :=
  if bool_decide (b ∈ [BACKEND_FIRECRACKER; BACKEND_QEMU; BACKEND_LIBKRUN]) then Ret tt
  else if String.eqb b BACKEND_VZ then
    guard_raise (negb (e_lume_binary E) || negb (pinned_lume_ready (e_probes E))) (CelestoError _vz_missing_message)
  else Raise (CelestoError "Unsupported backend").

Definition adapter_start (b : string) (i : VMInfo) : M launch_t :=
  if String.eqb b BACKEND_FIRECRACKER then firecracker_start i
  else if String.eqb b BACKEND_QEMU then qemu_start i
  else if String.eqb b BACKEND_LIBKRUN then libkrun_start i
  else vz_start i.
Definition adapter_stop (b : string) (i : VMInfo) : M unit :=
  if String.eqb b BACKEND_FIRECRACKER then firecracker_stop i
  else if String.eqb b BACKEND_QEMU then qemu_stop i
  else if String.eqb b BACKEND_LIBKRUN then libkrun_stop i
  else vz_stop i.

Definition adapter_pause (b : string) (i : VMInfo) : M unit :=
  if String.eqb b BACKEND_FIRECRACKER then do! py_lift (firecracker_client i) in monitor "pause" i
  else if String.eqb b BACKEND_QEMU then monitor "pause" i
  else if String.eqb b BACKEND_LIBKRUN then
    py_raise (CelestoError "libkrun backend does not support pause yet")
  else py_raise (CelestoError ("macOS computer '" +:+ vi_vm_id i
    +:+ "' cannot be paused in this release; run 'celesto computer stop " +:+ vi_vm_id i +:+ "' instead.")).
Definition adapter_resume (b : string) (i : VMInfo) : M unit :=
  if String.eqb b BACKEND_FIRECRACKER then do! py_lift (firecracker_client i) in monitor "resume" i
  else if String.eqb b BACKEND_QEMU then monitor "resume" i
  else if String.eqb b BACKEND_LIBKRUN then
    py_raise (CelestoError "libkrun backend does not support resume yet")
  else py_raise (CelestoError ("macOS computer '" +:+ vi_vm_id i
    +:+ "' cannot be resumed in this release; run 'celesto computer start " +:+ vi_vm_id i +:+ "' instead.")).
End runtime.
