(* ===== verification/ManagerCreate.v ===== *)
(** * vm.py: creating a computer, and releasing what it holds

    [create] runs in two phases, each with its own rollback: the disk and the
    inventory row under the create lock, then the network.  The releases are
    shared with [delete].  Log handles and control sockets, whose removal
    cannot affect the rest, are left out. *)
From S2P Require Import Prelude PyHoare PyDict PyStr StorageBase Types MemoryState StateProtocol.
From S2P Require Import NetworkSettings Channel EgressSession ConfigValidation.
From S2P Require Import Backends ManagerState ManagerHelpers.
From stdpp Require Import options.
From Stdlib Require Import Ascii.

(** [path.parent] *)
Definition path_parent (p : path) : path :=
  str_join "/" (removelast (str_split "/"%char p)).

Section create.
Context (E : menv) {St : Type} `{!StateManager St}.
Local Abbreviation M := (py (mgr St)).

(** ** Disks *)
Definition _mark_disk_retained (disk : string) : M unit := py_suppress (write_disk E (_retained_marker disk)).
Definition _clear_retained_marker (disk : string) : M unit := py_suppress (unlink E (_retained_marker disk)).
Definition _restore_retained_marker (disk : option string) (was_saved : bool) : M unit :=
  let! g := py_get in
  match disk with
  | Some d => py_when (was_saved && exists_disk d g) (_mark_disk_retained d)
  | None => py_return tt
  end.

Definition _remove_managed_disk (disk : string) : M unit :=
  let! g := py_get in
  do! py_suppress (unlink E disk) in
  py_for (_managed_disk_companions E (g_disks g) disk) (λ f, py_suppress (unlink E f)).

Definition _cleanup_unpersisted_managed_disk (disk : option string) (existed_before : bool) : M unit :=
  let! g := py_get in
  match disk with
  | Some d => py_when (negb existed_before && exists_disk d g) (py_suppress (unlink E d))
  | None => py_return tt
  end.

(** A directory or log file of the computer, removed if it is there. *)
Definition remove_firmware (vm : string) : M unit :=
  py_suppress (let! n := tick in
               do! raise_if (e_unlink E n ("firmware/" +:+ vm)) tt in
               py_modify (λ g, g_set_firmware (g_firmware g ∖ {[vm]}) g)).
Definition remove_log (vm : string) : M unit :=
  py_suppress (let! n := tick in
               do! raise_if (e_unlink E n (vm +:+ ".log")) tt in
               py_modify (λ g, g_set_logs (g_logs g ∖ {[vm +:+ ".log"]}) g)).
Definition _cleanup_unpersisted_firmware (vm : string) (existed_before : bool) : M unit :=
  if existed_before then py_return tt else remove_firmware vm.

(** Copies of the disk and its sidecars, each beside its original. *)
Fixpoint backup_loop (names : list string) (backups : list (string * string)) : M (list (string * string)) :=
  match names with
  | [] => py_return backups
  | d :: rest =>
      let! g := py_get in
      if negb (exists_disk d g) then backup_loop rest backups
      else
        let! n := tick in
        let copy := d +:+ ".create-backup-" +:+ e_uuid E n in
        let! n := tick in
        match e_disk E n copy with
        | disk_fails e half =>
            do! py_modify (λ g, g_set_disks
                   (match half with Some c => <[copy := c]> (g_disks g) | None => g_disks g end) g) in
            py_raise e
        | disk_ok _ =>
            do! py_modify (λ g, g_set_disks (partial_alter (λ _, g_disks g !! d) copy (g_disks g)) g) in
            backup_loop rest (backups ++ [(d, copy)])
        end
  end.
Definition _backup_existing_managed_disk (disk : string) : M (list (string * string)) :=
  let! g := py_get in backup_loop (disk :: _managed_disk_backing_sidecars E (g_disks g) disk) [].
(** [os.replace(backup, original)] for each backup that exists *)
Definition _restore_existing_managed_disk_backup (backups : list (string * string)) : M unit :=
  py_for backups (λ '(original, copy),
    let! g := py_get in
    match g_disks g !! copy with
    | Some c =>
        let! n := tick in
        do! raise_if (e_replace E n copy) tt in
        py_modify (λ g, g_set_disks (base.delete copy (<[original := c]> (g_disks g))) g)
    | None => py_return tt
    end).
Definition _discard_existing_managed_disk_backup (backups : list (string * string)) : M unit :=
  py_for backups (λ '(_, copy), py_suppress (unlink E copy)).

Definition _materialize_rootfs (c : VMConfig) : M VMConfig :=
  match rootfs_path c with
  | None => py_raise (AssertionErrorExn "")
  | Some p =>
      let! f := py_lift (effective_rootfs_format c) in
      do! py_lift (if bool_decide (f = rootfs_qcow2)
                   then _reject_external_qcow2_files p (e_header E p) else Ret tt) in
      match disk_mode c with
      | shared => py_return c
      | isolated =>
          let! b := py_lift (_backend_for_config E c) in
          let! mf := py_lift (_materialized_rootfs_format c b) in
          let name := _instance_disk_name (vm_id c) b mf in
          let! g := py_get in
          do! py_when (negb (exists_disk name g)) (write_disk E name) in
          py_return (c_set_rootfs (disk_path_of E name) mf c)
      end
  end.

Definition _resize_recovery (vm : string) : string := "celesto computer delete " +:+ vm.
Definition _ensure_disk_can_be_resized (c : VMConfig) : outcome unit :=
  guard_raise ((is_some (disk_size_mib c) || grow_filesystem c)
               && match disk_mode c with shared => true | isolated => false end)
    (CelestoError ("Disk resizing needs an isolated disk for computer '" +:+ vm_id c
       +:+ "'; set disk_mode='isolated', or run '" +:+ _resize_recovery (vm_id c) +:+ "'.")).
(** The tools that resize the disk file are one call on it. *)
Definition _resize_materialized_rootfs (c : VMConfig) : M VMConfig :=
  do! py_lift (_ensure_disk_can_be_resized c) in
  if negb (is_some (disk_size_mib c)) && negb (grow_filesystem c) then py_return c
  else
    let! f := py_lift (effective_rootfs_format c) in
    let! b := py_lift (_backend_for_config E c) in
    let name := _instance_disk_name (vm_id c) b f in
    if bool_decide (f = rootfs_qcow2) then
      if grow_filesystem c then
        py_raise (CelestoError ("Filesystem growth for qcow2 disks is not supported for computer '"
          +:+ vm_id c +:+ "'; omit grow_filesystem, or run '" +:+ _resize_recovery (vm_id c) +:+ "'."))
      else do! write_disk E name in py_return c
    else do! write_disk E name in py_return c.

(** The per-VM firmware file of a Windows guest; the copy may fail after the
    directory was made. *)
Definition _materialize_firmware (c : VMConfig) : M unit :=
  if negb (bool_decide (guest_os c = WINDOWS)) then py_return tt
  else
    let! n := tick in
    let '(made, failure) := e_firmware E n (vm_id c) in
    do! py_when (made || negb (is_some failure))
          (py_modify (λ g, g_set_firmware ({[vm_id c]} ∪ g_firmware g) g)) in
    raise_if failure tt.

Definition macos_root : path := e_resolve E (e_data_dir E +:+ "/macos-vms").
Definition _materialize_macos_bundle (c : VMConfig) : M unit :=
  match macos_machine c with
  | None => py_return tt
  | Some m =>
      let vm := vm_id c in
      let p := bundle_path m in
      if negb (String.eqb (path_name p) vm) then
        py_raise (CelestoError ("macOS computer bundle must end with '" +:+ vm
          +:+ "'; delete the computer with 'celesto computer delete " +:+ vm +:+ "' and create it again."))
      else if negb (String.eqb (e_resolve E (path_parent p)) macos_root) then
        py_raise (CelestoError ("macOS computer files must stay in '" +:+ macos_root
          +:+ "'; create computer '" +:+ vm +:+ "' again without a custom bundle path."))
      else if e_is_link E p then
        py_raise (CelestoError ("macOS computer path '" +:+ p
          +:+ "' is a link; remove it, then retry 'celesto computer create --os macos --name " +:+ vm +:+ "'."))
      else
        let! g := py_get in
        if bool_decide (p ∈ g_bundles g) then py_return tt
        else if negb (e_lume_binary E) || negb (pinned_lume_ready (e_probes E)) then
          py_raise (CelestoError _vz_missing_message)
        else
          let! n := tick in
          let '(made, failure) := e_bundle E n p in
          match failure with
          | Some e => py_raise e
          | None =>
              if made : bool then py_modify (λ g, g_set_bundles ({[p]} ∪ g_bundles g) g)
              else py_raise (CelestoError ("The macOS desktop runtime did not create '" +:+ p
                     +:+ "'; run 'celesto computer create --name " +:+ vm +:+ " --os macos' again."))
          end
  end.

(** ** Releasing host resources *)
Definition _vm_info_for_cleanup (vm : string) : M (option VMInfo) :=
  py_try (let! i := on_state (sm_get_vm vm) in py_return (Some i)) (λ _, py_return None).

Definition cleanup_bridge (vm : string) (tap_alloc : option (string * string * option string))
    (i : option VMInfo) (require : bool) : M unit :=
  let tap_dev := match tap_alloc with
                 | Some a => Some a.1.1
                 | None => i ≫= (λ i, tap_device <$> network i)
                 end in
  if truthy_str tap_dev then
    let! release :=
      py_try (do! net E (cleanup_bridged_tap (default "" tap_dev) vm) in py_return true)
        (λ e, match e with
              | BridgeTapOwnershipError _ => py_return true
              | _ => if require then py_raise e else py_return false
              end) in
    py_when (release && is_some tap_alloc) (on_state (sm_release_tap_name vm))
  else py_return tt.

Definition cleanup_nat (vm : string) (lease : option (string * string)) (uses_tap : bool)
    (port : option Z) (ip : option string) : M unit :=
  do! (match port with
       | Some p => py_when (uses_tap && truthy_str ip)
                     (py_suppress (net E (cleanup_ssh_port_forward vm (default "" ip) p)))
       | None => py_return tt
       end) in
  do! py_suppress (net E (cleanup_all_local_port_forwards vm)) in
  match lease with
  | None => py_return tt
  | Some l =>
      do! py_when uses_tap
            (do! py_suppress (net E (remove_egress_rules l.2)) in
             do! py_suppress (net E (cleanup_nat_rules l.2)) in
             do! py_suppress (net E (cleanup_tap l.2)) in
             py_suppress (net E (remove_network_policy l.2))) in
      py_suppress (on_state (sm_release_ip vm))
  end.

Definition _cleanup_host_resources (vm : string) (i : option VMInfo) (require_bridge : bool) : M unit :=
  let b := match i with
           | Some i => match _backend_for_config E (config i) with Ret b => b | Raise _ => e_backend E end
           | None => e_backend E
           end in
  let! lease := on_state (sm_get_ip_lease vm) in
  let! tap_alloc := on_state (sm_get_tap_allocation vm) in
  let n := i ≫= network in
  let! port := match n with
               | Some n => py_return (ssh_host_port n)
               | None => on_state (sm_get_ssh_port vm)
               end in
  let ip := match n with Some n => guest_ip n | None => fst <$> lease end in
  let is_bridge :=
    match n with Some n => bool_decide (nc_mode n = bridge_mode) | None => false end
    || match tap_alloc with Some a => String.eqb a.1.2 "bridge" | None => false end in
  let uses_tap := match i with
                  | Some i => _uses_host_tap_networking (config i) b
                  | None => is_some lease || is_some tap_alloc
                  end in
  do! (if is_bridge then cleanup_bridge vm tap_alloc i require_bridge
       else cleanup_nat vm lease uses_tap port ip) in
  py_when (is_some port && negb is_bridge) (py_suppress (on_state (sm_release_ssh_port vm))).

Definition _managed_disks_for_cleanup (vm : string) (i : option VMInfo) : M (list string) :=
  match i with
  | Some i => let! d := py_lift (_managed_disk_for_vm E i) in
              py_return (match d with Some d => [d] | None => [] end)
  | None => let! g := py_get in
            py_return (filter (λ n, exists_disk n g = true) [vm +:+ ".qcow2"; vm +:+ ".ext4"])
  end.

Definition _cleanup_vm_artifacts (vm : string) (i : option VMInfo) (preserve_managed_disk : bool) : M unit :=
  do! py_lift (_validate_cleanup_id vm) in
  let retain := match i with Some i => retain_disk_on_delete (config i) | None => false end in
  let! disks := _managed_disks_for_cleanup vm i in
  do! py_for disks (λ d,
        let! g := py_get in
        if negb (exists_disk d g) then py_return tt
        else if retain then _mark_disk_retained d
        else if preserve_managed_disk || exists_disk (_retained_marker d) g then py_return tt
        else _remove_managed_disk d) in
  if e_firmware_link E vm then
    py_raise (CelestoError ("Saved firmware for '" +:+ vm
      +:+ "' points outside its folder; remove the link at '" +:+ e_data_dir E +:+ "/firmware/" +:+ vm
      +:+ "', then run 'celesto sandbox delete " +:+ vm +:+ "'."))
  else
    let! g := py_get in
    do! py_when (bool_decide (vm ∈ g_firmware g) && negb retain) (remove_firmware vm) in
    let! g := py_get in
    py_when (bool_decide (vm +:+ ".log" ∈ g_logs g)) (remove_log vm).

Definition _cleanup_resources (vm : string) (preserve_managed_disk require_bridge : bool) : M unit :=
  do! py_lift (_validate_cleanup_id vm) in
  let! i := _vm_info_for_cleanup vm in
  do! py_try (_cleanup_host_resources vm i require_bridge)
        (λ e, if require_bridge then py_raise e else py_return tt) in
  _cleanup_vm_artifacts vm i preserve_managed_disk.

(** ** Network set-up *)
Definition _setup_policy_network (c : VMConfig) (tap_dev ip : string) : M unit :=
  let destinations := _policy_destinations c in
  let! b := (if is_some destinations then py_lift (_backend_for_config E c) else py_return "") in
  do! net E (apply_network_policy tap_dev destinations
        (if is_some destinations && String.eqb b BACKEND_QEMU then Some ip else None)) in
  net E (setup_nat tap_dev (negb (is_some destinations))).

Definition apply_domain_allowlist (c : VMConfig) (tap_dev : string) : M unit :=
  if uses_domain_allowlist c then
    let! n := tick in
    let domains := match internet_settings c with Some s => allowed_domains s | None => [] end in
    net E (apply_egress_allowlist tap_dev (e_dns E n domains))
  else py_return tt.

Definition generate_bridge_mac (tap_name : string) : M string :=
  if (String.length tap_name =? 12)%nat && startswith "svmb" tap_name
     && str_all (λ c, is_digit c || bool_decide (to_lower c ∈ ["a"; "b"; "c"; "d"; "e"; "f"]%char))
          (String.substring 4 8 tap_name)
  then
    let pair i := str_map to_upper (String.substring i 2 tap_name) in
    py_return ("02:53:" +:+ str_join ":" [pair 4; pair 6; pair 8; pair 10])
  else let! n := tick in py_return (e_random_mac E n).

Definition _validate_bridge_mode (c : VMConfig) (b : string) (resolution : option CommChannelKind) : M unit :=
  let vm := vm_id c in
  let nat_command := "celesto computer create --name " +:+ vm +:+ " --network nat" in
  let bridge := default "None" (na_bridge (network_attachment c)) in
  let system := platform_system (e_probes E) in
  if negb (String.eqb system "Linux") then
    py_raise (CelestoError ("Bridged networking is unavailable on " +:+ system +:+ "; run '" +:+ nat_command +:+ "'."))
  else if negb (bool_decide (b ∈ [BACKEND_FIRECRACKER; BACKEND_QEMU])) then
    py_raise (CelestoError ("Bridged networking is unavailable with backend '" +:+ b +:+ "'; run '" +:+ nat_command +:+ "'."))
  else if bool_decide (guest_os c = WINDOWS) then
    py_raise (CelestoError ("Bridged networking is unavailable for Windows computer '" +:+ vm +:+ "'; run '" +:+ nat_command +:+ "'."))
  else if negb (guest_managed_networking c) then
    py_raise (CelestoError ("The image for computer '" +:+ vm
      +:+ "' cannot configure bridged networking; run 'celesto computer create --name " +:+ vm
      +:+ " --os alpine --backend " +:+ b +:+ " --network bridge --bridge " +:+ bridge +:+ "'."))
  else
    let! r := match resolution with
              | Some r => py_return r
              | None => py_lift (_resolve_control_channel_for_config E c b)
              end in
    if negb (bool_decide (r = vsock)) then
      py_raise (CelestoError ("Bridged computer '" +:+ vm
        +:+ "' needs fast shell support; run 'celesto computer create --name " +:+ vm
        +:+ " --network bridge --bridge " +:+ bridge +:+ " --comm-channel vsock', or run '" +:+ nat_command +:+ "'."))
    else if negb (bool_decide (length (workspace_mounts c) = 0)) then
      py_raise (CelestoError ("Bridged computer '" +:+ vm +:+ "' cannot share host folders yet; run '" +:+ nat_command +:+ "'."))
    else if negb (bool_decide (length (port_forwards c) = 0)) then
      py_raise (CelestoError ("Bridged computer '" +:+ vm +:+ "' cannot use launch-time port forwarding; run '" +:+ nat_command +:+ "'."))
    else if match internet_settings c with Some s => negb (is_allow_all_domains s) | None => false end then
      py_raise (CelestoError ("Domain controls do not apply to bridged computer '" +:+ vm +:+ "'; run '" +:+ nat_command +:+ "'."))
    else match na_bridge (network_attachment c) with
    | Some br =>
        if String.eqb br "" then
          py_raise (CelestoError ("Bridged computer '" +:+ vm +:+ "' has no bridge; run '" +:+ nat_command +:+ "'."))
        else
          let! n := tick in
          match e_inspect E n br with
          | Some reason => py_raise (CelestoError reason)
          | None => py_return tt
          end
    | None => py_raise (CelestoError ("Bridged computer '" +:+ vm +:+ "' has no bridge; run '" +:+ nat_command +:+ "'."))
    end.

(** ** create *)
(** The configuration [create] works with: the resolved backend, and host
    networking for a bridged QEMU guest. *)
Definition effective_config (c : VMConfig) (b : string) : VMConfig :=
  let c := if bool_decide (backend c = Some b) then c else c_set_backend b c in
  if bool_decide (na_mode (network_attachment c) = bridge_mode) && String.eqb b BACKEND_QEMU
     && negb (bool_decide (qemu_network c = tap))
  then c_set_qemu_network tap c else c.

Definition create_checks (c : VMConfig) (b : string) : M unit :=
  do! py_lift (guard_raise (negb (bool_decide (length (workspace_mounts c) = 0))
                            && negb (bool_decide (b ∈ [BACKEND_QEMU; BACKEND_VZ])))
        (CelestoError "Shared folders are only supported with the QEMU backend or macOS computers; re-run without '--backend' so Celesto can select a compatible runtime.")) in
  do! (if _is_bridge_attachment c then
         let! r := py_lift (_resolve_control_channel_for_config E c b) in
         _validate_bridge_mode c b (Some r)
       else py_return tt) in
  py_lift (_validate_network_policy E c b).

(** What the rollbacks of [create] restore. *)
Record before_create := {
  bc_disk : option string;
  bc_disk_existed : bool;
  bc_disk_was_saved : bool;
  bc_firmware_existed : bool;
  bc_bundle : option path;
  bc_bundle_existed : bool }.

Definition look_before_create (c : VMConfig) (b : string) : M before_create :=
  let! disk := py_lift (_managed_disk_name_for_create c b) in
  let! g := py_get in
  let existed := from_option (λ d, exists_disk d g) false disk in
  let bundle := bundle_path <$> macos_machine c in
  py_return {| bc_disk := disk; bc_disk_existed := existed;
     bc_disk_was_saved := existed && from_option (λ d, exists_disk (_retained_marker d) g) false disk;
     bc_firmware_existed := bool_decide (vm_id c ∈ g_firmware g);
     bc_bundle := bundle;
     bc_bundle_existed := from_option (λ p, bool_decide (p ∈ g_bundles g)) false bundle |}.

(** [shutil.rmtree(bundle, ignore_errors=True)] *)
Definition rmtree_bundle (p : path) : M unit :=
  py_suppress (let! n := tick in
               do! raise_if (e_unlink E n p) tt in
               py_modify (λ g, g_set_bundles (g_bundles g ∖ {[p]}) g)).

Definition create_rollback {A} (vm : string) (w : before_create) (backups : list (string * string))
    (vm_record_created : bool) (e : exn) : M A :=
  do! _restore_existing_managed_disk_backup backups in
  do! py_when vm_record_created (py_suppress (on_state (sm_delete_vm vm))) in
  do! _cleanup_unpersisted_managed_disk (bc_disk w) (bc_disk_existed w) in
  do! _restore_retained_marker (bc_disk w) (bc_disk_was_saved w) in
  do! _cleanup_unpersisted_firmware vm (bc_firmware_existed w) in
  do! (match bc_bundle w with
       | Some p => let! g := py_get in
                   py_when (negb (bc_bundle_existed w) && bool_decide (p ∈ g_bundles g)) (rmtree_bundle p)
       | None => py_return tt
       end) in
  py_raise e.

(** The first phase, under the create lock: the disk, then the row. *)
Definition create_row (c : VMConfig) (b : string) : M (VMConfig * before_create) :=
  let vm := vm_id c in
  do! _ensure_vm_id_available vm in
  let! w := look_before_create c b in
  let! backups := (match bc_disk w with
                   | Some d => if bc_disk_existed w && (is_some (disk_size_mib c) || grow_filesystem c)
                               then _backup_existing_managed_disk d else py_return []
                   | None => py_return []
                   end) in
  let! c := py_try
    (let! c := (if bool_decide (guest_os c = MACOS)
                then do! _materialize_macos_bundle c in py_return c
                else _materialize_rootfs c) in
     do! on_state (sm_create_vm c) in
     py_return c)
    (create_rollback vm w backups false) in
  let! c := py_try
    (do! (match bc_disk w with Some d => _clear_retained_marker d | None => py_return tt end) in
     let! c := (if bool_decide (guest_os c = MACOS) then py_return c
                else let! c := _resize_materialized_rootfs c in
                     do! _materialize_firmware c in py_return c) in
     do! _discard_existing_managed_disk_backup backups in
     py_return c)
    (create_rollback vm w backups true) in
  py_return (c, w).

(** [NetworkConfig(...)] *)
Definition bridge_network (bridge tap_name mac : string) : outcome NetworkConfig :=
  NetworkConfig_model_validate
    {| guest_ip := None; gateway_ip := None; Types.netmask := None; tap_device := tap_name;
       guest_mac := mac; ssh_host_port := None; egress_proxy_host_port := None;
       nc_mode := bridge_mode; nc_bridge := Some bridge |}.
Definition nat_network (ip gateway : string) (mask : option string) (tap_name mac : string)
    (port : option Z) : outcome NetworkConfig :=
  NetworkConfig_model_validate
    {| guest_ip := Some ip; gateway_ip := Some gateway; Types.netmask := mask; tap_device := tap_name;
       guest_mac := mac; ssh_host_port := port; egress_proxy_host_port := None;
       nc_mode := nat_mode; nc_bridge := None |}.

Definition create_bridge_network (c : VMConfig) (b : string) (r : CommChannelKind) : M VMInfo :=
  let vm := vm_id c in
  do! _validate_bridge_mode c b (Some r) in
  match na_bridge (network_attachment c) with
  | None => py_raise (AssertionErrorExn "")
  | Some bridge_name =>
      let! tap_name := on_state (sm_reserve_tap_name vm "bridge" (Some bridge_name) None) in
      let! mac := generate_bridge_mac tap_name in
      let! n := py_lift (bridge_network bridge_name tap_name mac) in
      let! i := on_state (sm_update_vm vm (u_with_network n)) in
      let! i := _maybe_enable_vsock E c b i in
      do! net E (prepare_bridged_tap tap_name bridge_name vm) in
      py_return i
  end.

(** User-mode networking: no host device. *)
Definition create_usernet_network (c : VMConfig) (b : string) (port : option Z) : M VMInfo :=
  let vm := vm_id c in
  let seed := match port with Some p => if (p =? 0)%Z then SSH_PORT_START else p | None => SSH_PORT_START end in
  let! mac := py_lift (generate_mac (seed mod 65534 + 1)) in
  let! a := py_lift (_usernet_addresses b vm) in
  let '(ip, gateway, mask) := a in
  let! n := py_lift (nat_network ip gateway (Some mask) "usernet" mac port) in
  let! i := on_state (sm_update_vm vm (u_with_network n)) in
  _maybe_enable_vsock E c b i.

(** NAT over a TAP named after the guest's address. *)
Definition create_tap_network (c : VMConfig) (b : string) (port : option Z) : M VMInfo :=
  let vm := vm_id c in
  let! ip := on_state (sm_allocate_ip vm "pending" None) in
  let! vm_number := py_lift (ip_to_pool_index ip) in
  let tap_name := "tap" +:+ dec vm_number in
  do! on_state (sm_update_ip_lease_tap vm tap_name) in
  do! net E (prepare_tap_device tap_name) in
  do! net E (add_route ip tap_name) in
  do! _setup_policy_network c tap_name ip in
  do! apply_domain_allowlist c tap_name in
  do! (match port with Some p => net E (setup_ssh_port_forward vm ip p) | None => py_return tt end) in
  let! mac := py_lift (generate_mac vm_number) in
  let! n := py_lift (nat_network ip DEFAULT_HOST_IP None tap_name mac port) in
  let! i := on_state (sm_update_vm vm (u_with_network n)) in
  _maybe_enable_vsock E c b i.

(** The second phase: the network. *)
Definition create_network (c : VMConfig) (b : string) : M VMInfo :=
  let vm := vm_id c in
  if String.eqb b BACKEND_VZ then on_state (sm_get_vm vm)
  else
    let! r := py_lift (_resolve_control_channel_for_config E c b) in
    if _is_bridge_attachment c then create_bridge_network c b r
    else
      let! port := (if _should_reserve_ssh_forward c r
                    then let! p := _reserve_available_ssh_port E vm in py_return (Some p)
                    else py_return None) in
      if negb (_uses_host_tap_networking c b) then create_usernet_network c b port
      else create_tap_network c b port.

Definition network_rollback {A} (vm : string) (w : before_create) (e : exn) : M A :=
  do! _cleanup_resources vm (bc_disk_existed w) false in
  do! _restore_retained_marker (bc_disk w) (bc_disk_was_saved w) in
  do! py_suppress (on_state (sm_delete_vm vm)) in
  py_raise e.

Definition create (config : VMConfig) : M VMInfo :=
  let! b := py_lift (_backend_for_config E config) in
  let c := effective_config config b in
  do! create_checks c b in
  let! x := create_row c b in
  let '(c, w) := x in
  py_try (create_network c b) (network_rollback (vm_id c) w).
End create.
