(* ===== verification/ManagerLifecycle.v ===== *)
(** * vm.py: starting, stopping and deleting a computer

    The bodies of [start], [stop], [pause], [resume], [delete], [refresh_status],
    [reconcile] and of the close of a manager, with their error paths.  The
    claim that [start], [stop] and [delete] hold on their computer (the other
    operations take none) is OpGuard.v. *)
From S2P Require Import Prelude PyDict PyStr StorageBase Types MemoryState MemoryInv EgressSession.
From S2P Require Import NetworkSettings ConfigValidation Channel PyHoare StateProtocol StateProtocolMemory.
From S2P Require Import Backends EgressController ManagerState ManagerHelpers ManagerRuntime ManagerCreate.
From stdpp Require Import options.

(** [sorted(names)[0]] *)
Definition str_min (x : string) (l : list string) : string :=
  fold_left (λ m y, if String.leb m y then m else y) l x.

(** [vm_info.model_copy(update={...})] of a launch *)
Definition launched_info (l : launch_t) (i : VMInfo) : VMInfo :=
  {| vi_vm_id := vi_vm_id i; status := l_status l; config := config i; network := network i;
     pid := Some (l_pid l); control_socket_path := l_socket l; vsock_uds_path := vsock_uds_path i;
     display := l_display l |}.

#[global] Instance kill_result_eq_dec : EqDecision kill_result.
Proof. solve_decision. Defined.

Section lifecycle.
Context (E : menv) {St : Type} `{!StateManager St}.
Local Abbreviation M := (py (mgr St)).

(** ** Checks before a launch *)
Definition _check_workspace_mounts (i : VMInfo) : outcome unit :=
  let bad := filter (λ p, e_dir_ok E p = false) (map wm_host_path (workspace_mounts (config i))) in
  guard_raise (negb (bool_decide (length bad = 0)))
    (CelestoError ("Cannot start computer '" +:+ vi_vm_id i +:+ "': shared folder is missing: "
       +:+ str_join ", " bad +:+ ". Restore it, or run 'celesto computer delete " +:+ vi_vm_id i +:+ "'.")).

Definition _enforce_macos_concurrency_limit (vm : string) : M unit :=
  let! vms := on_state (sm_list_vms None) in
  let running := map vi_vm_id (filter (λ i, vi_vm_id i ≠ vm ∧ guest_os (config i) = MACOS ∧ status i = RUNNING) vms) in
  match running with
  | x :: (_ :: _) as rest =>
      py_raise (CelestoError ("This Mac already has two running macOS computers; run 'celesto computer stop "
        +:+ str_min x rest +:+ "', then retry 'celesto computer start " +:+ vm +:+ "'."))
  | _ => py_return tt
  end.

Definition port_free (host : string) (port : Z) : M bool :=
  let! n := tick in py_return (e_tcp_free E n host port).

Definition _check_qemu_slirp_host_forward_ports (i : VMInfo) : M unit :=
  match network i with
  | None => py_return tt
  | Some nc =>
      if bool_decide (qemu_network (config i) = tap) then py_return tt
      else
        let vm := vi_vm_id i in
        do! (match ssh_host_port nc with
             | None => py_return tt
             | Some p =>
                 let! free := port_free "127.0.0.1" p in
                 if (free : bool) then py_return tt
                 else py_raise (CelestoError ("Local SSH port " +:+ dec p
                        +:+ " is already in use. Free that port, or run 'celesto computer delete "
                        +:+ vm +:+ "' to remove the computer."))
             end) in
        py_for (port_forwards (config i)) (λ f,
          let! free := port_free (pf_host_address f) (pf_host_port f) in
          if (free : bool) then py_return tt
          else py_raise (CelestoError ("Local port " +:+ pf_host_address f +:+ ":" +:+ dec (pf_host_port f)
                 +:+ " is already in use. Free that port, or run 'celesto computer delete "
                 +:+ vm +:+ "' to remove the computer.")))
  end.

Definition _ensure_bridge_ready (vm : string) (nc : NetworkConfig) (c : VMConfig) (b : string) : M unit :=
  let bridge_name := default "" (nc_bridge nc) in
  if negb (bool_decide (na_bridge (network_attachment c) = Some bridge_name)) then
    py_raise (CelestoError ("Computer '" +:+ vm +:+ "' has inconsistent bridge settings; run 'celesto computer delete "
      +:+ vm +:+ "' to remove it."))
  else
    do! _validate_bridge_mode E c b None in
    do! on_state (sm_reserve_tap_name vm "bridge" (Some bridge_name) (Some (tap_device nc))) in
    net E (prepare_bridged_tap (tap_device nc) bridge_name vm).

(** The host's part of a TAP network, set up again. *)
Definition repair_tap_network (i : VMInfo) (nc : NetworkConfig) (b : string) : M unit :=
  do! (if String.eqb b BACKEND_QEMU then
         let! n := tick in
         if e_interface E n (tap_device nc) then py_return tt else net E (prepare_tap_device (tap_device nc))
       else py_return tt) in
  match guest_ip nc with
  | None => py_raise (AssertionErrorExn "")
  | Some ip =>
      do! net E (add_route ip (tap_device nc)) in
      do! _setup_policy_network E (config i) (tap_device nc) ip in
      do! apply_domain_allowlist E (config i) (tap_device nc) in
      match ssh_host_port nc with
      | Some p => net E (setup_ssh_port_forward (vi_vm_id i) ip p)
      | None => py_return tt
      end
  end.

Definition ensure_network_connectivity (i : VMInfo) : M unit :=
  match network i with
  | None => py_return tt
  | Some nc =>
      let vm := vi_vm_id i in
      let! b := py_lift (_backend_for_config E (config i)) in
      do! py_lift (_validate_network_policy E (config i) b) in
      if is_public (config i) then
        if is_live_status (status i) then
          let! g := py_get in
          match dget vm (g_public g) with
          | None => py_raise (CelestoError ("Public browsing for '" +:+ vm
                      +:+ "' belongs to another session; run 'celesto sandbox delete " +:+ vm
                      +:+ "' and create it again."))
          | Some s => do! on_public vm s require_ready in py_return tt
          end
        else py_return tt
      else if negb (_uses_host_tap_networking (config i) b) then py_return tt
      else if bool_decide (nc_mode nc = bridge_mode) then _ensure_bridge_ready vm nc (config i) b
      else repair_tap_network i nc b
  end.

(** ** Public egress *)
Definition _stop_public_egress (vm : string) : M unit :=
  let! g := py_get in
  match dget vm (g_public g) with
  | None => py_return tt
  | Some s => do! on_public vm s EgressSession.delete in
              py_modify (λ g, g_set_egress (g_host g) (ddel vm (g_public g)) g)
  end.

Definition _prepare_public_egress (i : VMInfo) : M VMInfo :=
  if negb (is_public (config i)) then py_return i
  else
    let vm := vi_vm_id i in
    let! g := py_get in
    if is_some (dget vm (g_unrecorded g)) then
      py_raise (CelestoError ("Computer '" +:+ vm +:+ "' is still stopping; close its Celesto session and retry."))
    else
      do! _stop_public_egress vm in
      match network i with
      | None => py_raise (CelestoError ("Computer '" +:+ vm +:+ "' has no network; create it again."))
      | Some nc =>
          let! s := py_lift (new_session vm qemu_slirp nc) in
          do! py_modify (λ g, g_set_egress (g_host g) (dset vm s (g_public g)) g) in
          let! nc' := on_public vm s prepare in
          on_state (sm_update_vm vm (u_with_network nc'))
      end.

(** ** start *)
Definition start_checks (vm : string) (i : VMInfo) : M string :=
  if negb (bool_decide (status i ∈ [CREATED; STOPPED])) then
    py_raise (CelestoError ("Cannot start computer in state '" +:+ VMState_value (status i) +:+ "'"))
  else if negb (is_some (network i)) && negb (bool_decide (guest_os (config i) = MACOS)) then
    py_raise (CelestoError "Computer has no network configuration")
  else
    do! py_lift (_check_workspace_mounts i) in
    let! b := py_lift (_backend_for_config E (config i)) in
    do! py_lift (_validate_network_policy E (config i) b) in
    do! py_when (explicitly_restricted (config i)) (ensure_network_connectivity i) in
    do! py_when (String.eqb b BACKEND_VZ) (_enforce_macos_concurrency_limit vm) in
    do! (match network i with
         | Some nc => py_when (bool_decide (nc_mode nc = bridge_mode)) (_ensure_bridge_ready vm nc (config i) b)
         | None => py_return tt
         end) in
    do! py_when (String.eqb b BACKEND_QEMU) (_check_qemu_slirp_host_forward_ports i) in
    do! py_lift (_runtime_adapter_for_backend E b) in
    py_return b.

Definition forget_unrecorded (vm : string) : M unit :=
  py_modify (λ g, g_set_unrecorded (ddel vm (g_unrecorded g)) g).

Definition start_launch (vm b : string) (i : VMInfo) : M VMInfo :=
  let! i := _prepare_public_egress i in
  let! l := adapter_start E b i in
  do! record_unrecorded vm (launched_info l i) in
  let! i := on_state (sm_update_vm vm (u_launched l)) in
  do! forget_unrecorded vm in
  py_return i.

Definition start_rollback {A} (vm b : string) (e : exn) : M A :=
  let! g := py_get in
  do! (match dget vm (g_unrecorded g) with
       | Some pending => do! adapter_stop E b pending in forget_unrecorded vm
       | None => py_return tt
       end) in
  do! _stop_public_egress vm in
  do! on_state (sm_update_vm vm (u_cleared ERROR true true)) in
  py_raise e.

Definition _start_claimed (vm : string) : M VMInfo :=
  let! i := on_state (sm_get_vm vm) in
  let! b := start_checks vm i in
  py_try (start_launch vm b i) (start_rollback vm b).

(** ** stop *)
Definition current_info (vm : string) : M VMInfo :=
  let! g := py_get in
  match dget vm (g_unrecorded g) with Some i => py_return i | None => on_state (sm_get_vm vm) end.

Definition _stop_claimed (vm : string) : M VMInfo :=
  let! i := current_info vm in
  if negb (is_live_status (status i)) then py_return i
  else
    let! b := py_lift (_backend_for_config E (config i)) in
    do! py_lift (_runtime_adapter_for_backend E b) in
    do! adapter_stop E b i in
    do! forget_unrecorded vm in
    do! _stop_public_egress vm in
    on_state (sm_update_vm vm (u_cleared STOPPED true true)).

(** ** pause, resume, refresh_status *)
Definition refresh_status (i : VMInfo) : M VMInfo :=
  if negb (is_live_status (status i)) then py_return i
  else match pid i with
  | None => py_return i
  | Some p =>
      let! alive := _is_process_running E p in
      if (alive : bool) then py_return i
      else on_state (sm_update_vm (vi_vm_id i) (u_cleared ERROR false false))
  end.

Definition _raise_crashed_or_state_error {A} (i : VMInfo) (action : string) : M A :=
  let vm := vi_vm_id i in
  let! r := refresh_status i in
  if bool_decide (status r = ERROR) && is_live_status (status i) then
    py_raise (CelestoError (_crashed_message vm))
  else
    let recovery :=
      match status i with
      | ERROR => "; run 'celesto computer delete " +:+ vm +:+ "' to clear it"
      | STOPPED | CREATED => "; run 'celesto computer start " +:+ vm +:+ "' to start it"
      | _ => ""
      end in
    py_raise (CelestoError ("Cannot " +:+ action +:+ " computer in state '" +:+ VMState_value (status i)
      +:+ "'" +:+ recovery +:+ ".")).

Definition _raise_if_crashed (i : VMInfo) : M unit :=
  let! r := refresh_status i in
  if bool_decide (status r = ERROR) then py_raise (CelestoError (_crashed_message (vi_vm_id i)))
  else py_return tt.

Definition pause (vm : string) : M VMInfo :=
  do! py_lift (guard_raise (String.eqb vm "") (ValueError "vm_id cannot be empty")) in
  let! i := on_state (sm_get_vm vm) in
  do! (if bool_decide (status i = RUNNING) then py_return tt else _raise_crashed_or_state_error i "pause") in
  do! py_try (let! b := py_lift (_backend_for_config E (config i)) in
              do! py_lift (_runtime_adapter_for_backend E b) in
              adapter_pause E b i)
        (λ e, do! _raise_if_crashed i in py_raise e) in
  on_state (sm_update_vm vm (u_with_status PAUSED)).

Definition resume (vm : string) : M VMInfo :=
  do! py_lift (guard_raise (String.eqb vm "") (ValueError "vm_id cannot be empty")) in
  let! i := on_state (sm_get_vm vm) in
  do! (if bool_decide (status i = PAUSED) then py_return tt else _raise_crashed_or_state_error i "resume") in
  let! b := py_lift (_backend_for_config E (config i)) in
  do! py_lift (_validate_network_policy E (config i) b) in
  do! py_when (explicitly_restricted (config i)) (ensure_network_connectivity i) in
  do! py_try (do! py_lift (_runtime_adapter_for_backend E b) in adapter_resume E b i)
        (λ e, do! _raise_if_crashed i in py_raise e) in
  on_state (sm_update_vm vm (u_with_status RUNNING)).

(** ** reconcile *)
Definition remove_dead_forward (vm : string) : M unit :=
  let! i := on_state (sm_get_vm vm) in
  match network i with
  | Some nc =>
      match ssh_host_port nc, guest_ip nc with
      | Some p, Some ip => net E (cleanup_ssh_port_forward vm ip p)
      | Some _, None => py_raise (AssertionErrorExn "")
      | None, _ => py_return tt
      end
  | None => py_return tt
  end.

Definition manager_reconcile : M (list string) :=
  let! n := tick in
  let! stale := on_state (sm_reconcile (e_signal E n)) in
  do! py_modify (λ g, g_set_procs
         (filter (λ x, e_signal E n x.1.1 ≠ Kill_ProcessLookupError) (g_procs g)) g) in
  do! py_for stale (λ vm, py_suppress (remove_dead_forward vm)) in
  py_return stale.

(** ** delete *)
Definition _delete_macos_bundle (i : VMInfo) : M unit :=
  match macos_machine (config i) with
  | None => py_return tt
  | Some m =>
      let vm := vi_vm_id i in
      let p := bundle_path m in
      let! g := py_get in
      if e_is_link E p then
        py_raise (CelestoError ("macOS computer path '" +:+ p
          +:+ "' is a link; remove the link, then retry 'celesto computer delete " +:+ vm +:+ "'."))
      else if negb (bool_decide (p ∈ g_bundles g)) then py_return tt
      else if negb (under (macos_root E) (e_resolve E p)) then
        py_raise (CelestoError ("Refusing to delete macOS files outside '" +:+ macos_root E
          +:+ "'; remove '" +:+ p +:+ "' manually after deleting computer '" +:+ vm +:+ "'."))
      else
        let! n := tick in
        do! raise_if (e_unlink E n p) tt in
        py_modify (λ g, g_set_bundles (g_bundles g ∖ {[p]}) g)
  end.

Definition requires_bridge_cleanup (vm : string) (i : VMInfo) : M bool :=
  if from_option (λ nc, bool_decide (nc_mode nc = bridge_mode)) false (network i) then py_return true
  else let! a := on_state (sm_get_tap_allocation vm) in
       py_return (from_option (λ a, String.eqb a.1.2 "bridge") false a).

Definition _delete_claimed (vm : string) : M unit :=
  let! g := py_get in
  do! (if is_some (dget vm (g_unrecorded g)) then do! _stop_claimed vm in py_return tt else py_return tt) in
  let! i := py_try (on_state (sm_get_vm vm))
              (λ e, match e with
                    | VMNotFoundError _ => do! _cleanup_resources E vm false false in py_raise e
                    | _ => py_raise e
                    end) in
  do! (if is_live_status (status i) then do! _stop_claimed vm in py_return tt else py_return tt) in
  do! _stop_public_egress vm in
  do! _delete_macos_bundle i in
  let! require_bridge := requires_bridge_cleanup vm i in
  do! _cleanup_resources E vm false require_bridge in
  on_state (sm_delete_vm vm).

(** ** close *)
Fixpoint close_guests (vms : list string) : M (list (string * exn)) :=
  match vms with
  | [] => py_return []
  | vm :: rest =>
      let! failure := py_try (do! _stop_claimed vm in do! _stop_public_egress vm in py_return [])
                        (λ e, py_return [(vm, e)]) in
      let! failures := close_guests rest in
      py_return (failure ++ failures)
  end.

Definition _close_resources : M unit :=
  let! g := py_get in
  let! failures := close_guests (dkeys (g_public g)) in
  match failures with
  | [] => py_return tt
  | [(_, e)] => py_raise e
  | _ => py_raise (ExceptionGroupExn ("Celesto could not finish closing; run "
           +:+ str_join ", then " (map (λ f, "'celesto computer stop " +:+ f.1 +:+ "'") failures) +:+ "."))
  end.

(** ** The public methods *)
Definition start (vm : string) : M VMInfo :=
  do! py_lift (guard_raise (String.eqb vm "") (ValueError "vm_id cannot be empty")) in _start_claimed vm.
Definition stop (vm : string) : M VMInfo :=
  do! py_lift (guard_raise (String.eqb vm "") (ValueError "vm_id cannot be empty")) in _stop_claimed vm.
Definition delete (vm : string) : M unit :=
  do! py_lift (_validate_cleanup_id vm) in _delete_claimed vm.
End lifecycle.

(** * A concrete machine for the manager

    An environment in which only the calls [net_fails] picks fail and guests
    exit after a while, over the
    in-memory inventory, and two configurations: a Firecracker guest behind
    NAT, and a QEMU guest with public-only browsing. *)
Definition demo_kvm_probes : probes :=
  {| platform_system := "Linux"; platform_machine := "x86_64";
     which := λ c, if bool_decide (c ∈ ["qemu-system-x86_64"; "qemu-img"]) then Some c else None;
     firecracker_binary_present := true; kvm_accessible := true; libkrun_loads := false;
     is_apple_silicon := false; macos_supported_version := false; pinned_lume_ready := false;
     env_CELESTO_BACKEND := None |}.

Definition demo_menv (net_fails : netop → bool) : menv :=
  {| e_probes := demo_kvm_probes; e_backend := "auto"; e_data_dir := "/d"; e_disk_dir := "/d/disks";
     e_socket_dir := "/s"; e_sys_platform := "linux"; e_vhost_vsock := false; e_resolve := id;
     e_header := λ _, []; e_dir_ok := λ _, true; e_firmware_link := λ _, false; e_is_link := λ _, false;
     e_lume_binary := false; e_tcp_free := λ n _ p, negb (p =? 2200)%Z;
     e_net := λ _ op, if net_fails op then Some (NetworkError "failed") else None;
     e_interface := λ _ _, true; e_dns := λ _ _, []; e_inspect := λ _ _, None; e_live_cids := λ _, [];
     e_random_mac := λ _, "02:53:00:00:00:01"; e_spawn := λ n _, Ret (Pos.of_nat (1000 + n));
     e_boot := λ _ _, None; e_alive := λ n _, (n <? 9)%nat; e_signal := λ _ _, Kill_ok; e_kill := λ _ _, true;
     e_monitor := λ _ _ _, None; e_display := λ _, None; e_disk := λ _ _, disk_ok 1;
     e_bundle := λ _ _, (true, None); e_firmware := λ _ _, (true, None); e_unlink := λ _ _, None;
     e_replace := λ _ _, None; e_backing_file := λ _ _, None; e_process_args := λ _, Some "";
     e_file_size := λ _ _, Some 1%Z; e_uuid := λ _, "0" |}.

Definition demo_config (vm : string) (b : string) (s : option InternetSettings) : VMConfig :=
  {| vm_id := vm; preset := None; vcpu_count := 2; memory := 512; guest_os := ALPINE;
     boot_mode := direct_kernel; kernel_path := Some "/k"; initrd_path := None;
     rootfs_path := Some "/img/alpine.ext4"; rootfs_format := None; macos_machine := None;
     extra_drives := []; boot_args := ""; ssh_capable := true; backend := Some b;
     qemu_network := slirp; qemu_machine := machine_auto; disk_mode := isolated; disk_size_mib := None;
     grow_filesystem := false; retain_disk_on_delete := false; env_vars := [];
     network_rate_limit_mbps := None; port_forwards := []; vsock_config := None;
     comm_channel := Some ssh; internet_settings := s; workspace_mounts := [];
     ssh_public_key := None; guest_managed_networking := false;
     network_attachment := {| na_mode := nat_mode; na_bridge := None |} |}.

(** The in-memory inventory as the manager's state. *)
Definition demo_sm : StateManager mem_mgr := memory_manager true (λ _, None).
Definition demo_laws : @StateManagerLaws mem_mgr demo_sm := memory_laws true (λ _, None).
Definition demo_total : @StateManagerTotal mem_mgr demo_sm demo_laws := memory_total true (λ _, None).

Definition demo_mgr : mgr mem_mgr :=
  {| g_state := {| mm_ms := (mem_init, ∅); mm_env := λ _, ([], λ _, "0000"); mm_tick := 0 |};
     g_calls := 0; g_net := []; g_procs := ∅; g_host := demo_host; g_public := []; g_unrecorded := [];
     g_disks := ∅; g_firmware := ∅; g_logs := ∅; g_bundles := ∅ |}.

Lemma demo_mgr_ok : @sm_ok mem_mgr demo_sm demo_laws (g_state demo_mgr).
Proof. exact (mem_init_good true ∅). Qed.

(** Public-only browsing: the proxy of a QEMU guest listens on the loopback. *)
Definition demo_public : InternetSettings :=
  {| is_mode := Some public_mode; allowed_cidrs := []; allowed_domains := ["*"]; allowed_http_methods := ["*"] |}.
Definition demo_public_mgr : mgr mem_mgr :=
  g_set_egress {| h_next := 0; h_running := ∅; h_policies := ∅; h_taps := ∅; h_script := [];
                  h_endpoint := λ _, ("127.0.0.1", 9000%Z); h_log := [] |} [] demo_mgr.
