(* ===== verification/ManagerFrames.v ===== *)
(** * What the manager's helpers leave alone

    [only vm g0 g]: from [g0] to [g] nothing changed but what belongs to [vm]
    in the inventory, and files.  Every helper of [create] and of the releases
    keeps it, whatever the environment answers. *)
From S2P Require Import Prelude PyHoare PyDict PyStr StorageBase Types MemoryState StateProtocol.
From S2P Require Import NetworkSettings Channel EgressSession ConfigValidation.
From S2P Require Import Backends ManagerState ManagerHelpers ManagerRuntime ManagerCreate ManagerLifecycle.
From stdpp Require Import options.

(** ** Rules for the calls of the manager *)
Section rules.
Context {St : Type}.
Implicit Types g : mgr St.

Lemma wp_on_state {A} (m : py St A) (Q : A → mgr St → Prop) (X : exn → mgr St → Prop) g :
  wp m (λ a s', Q a (g_set_state s' g)) (λ e s', X e (g_set_state s' g)) (g_state g) → wp (on_state m) Q X g.
Proof. unfold wp, on_state. by destruct (m (g_state g)) as [s' []]. Qed.

Lemma wp_tick (Q : nat → mgr St → Prop) X g :
  Q (g_calls g) (g_set_calls (S (g_calls g)) g) → wp tick Q X g.
Proof. done. Qed.

Lemma keeps_raise_if {A} (I : mgr St → Prop) o (a : A) : keeps I (raise_if o a).
Proof. unfold raise_if. destruct o; auto with celesto. Qed.
(** A body that looks at the state it starts in. *)
Lemma keeps_self {A} (I : mgr St → Prop) (f : mgr St → py (mgr St) A) :
  (∀ g, keeps I (f g)) → keeps I (λ g, f g g).
Proof. intros H g HI. by apply (H g). Qed.

(** A call that returns, whatever happens. *)
Definition returns {A} (m : py (mgr St) A) : Prop := ∀ g, wp m (λ _ _, True) (λ _ _, False) g.

Lemma returns_suppress m : returns (py_suppress m).
Proof. intros g. apply wp_suppress. by apply wp_intro. Qed.
Lemma returns_bind {A B} (m : py (mgr St) A) (f : A → py (mgr St) B) :
  returns m → (∀ a, returns (f a)) → returns (py_bind m f).
Proof. intros Hm Hf g. apply wp_bind. eapply wp_mono; [apply Hm| |done]. intros a g' _. apply Hf. Qed.
Lemma returns_return {A} (a : A) : returns (py_return a).
Proof. by intros g. Qed.
Lemma returns_lift {A} (a : A) : returns (py_lift (Ret a)).
Proof. by intros g. Qed.
Lemma returns_get : returns py_get.
Proof. by intros g. Qed.
Lemma returns_modify f : returns (py_modify f).
Proof. by intros g. Qed.
Lemma returns_tick : returns tick.
Proof. by intros g. Qed.
Lemma returns_when c (m : py (mgr St) unit) : returns m → returns (py_when c m).
Proof. by destruct c. Qed.
Lemma returns_for {A} (l : list A) (body : A → py (mgr St) unit) :
  (∀ x, returns (body x)) → returns (py_for l body).
Proof. intros Hb g. by apply wp_for; [intros x g' _ _; apply Hb|]. Qed.
Lemma returns_self {A} (f : mgr St → py (mgr St) A) : (∀ g, returns (f g)) → returns (λ g, f g g).
Proof. intros H g. by apply (H g). Qed.

(** [keeps] and [returns] together. *)
Lemma keeps_returns {A} (I : mgr St → Prop) (m : py (mgr St) A) X g :
  keeps I m → returns m → I g → wp m (λ _, I) X g.
Proof.
  intros Hk Hr HI. specialize (Hk g HI). specialize (Hr g). unfold wp in *. by destruct (m g) as [? []].
Qed.
End rules.

#[export] Hint Resolve keeps_raise_if returns_suppress returns_bind returns_return returns_lift returns_get
  returns_modify returns_tick returns_when returns_for : celesto.

(** Splits a call into the calls it makes; [celesto] knows those. *)
Ltac keeps_step :=
  lazymatch goal with
  | |- keeps _ (py_bind _ _) => apply keeps_bind; [|intros ?]
  | |- keeps _ (py_try _ _) => apply keeps_try; [|intros ?]
  | |- keeps _ (py_suppress _) => apply keeps_suppress
  | |- keeps _ (py_when _ _) => apply keeps_when
  | |- keeps _ (py_for _ _) => apply keeps_for; intros ?
  | |- keeps _ (match ?x with _ => _ end) => destruct x
  | |- keeps _ _ => solve [eauto with celesto nocore]
  end.
Ltac keeps_steps := repeat (keeps_step; cbv beta).

(** ** Calls that change neither the inventory nor the guests *)
Definition core {St} (g : mgr St) := (g_state g, g_procs g, g_host g, g_public g, g_unrecorded g).
Abbreviation quiet m := (∀ c, keeps (λ g, core g = c) m).

Lemma quiet_keeps {St A} (I : mgr St → Prop) (m : py (mgr St) A) :
  (∀ g g', core g' = core g → I g → I g') → quiet m → keeps I m.
Proof.
  intros HI Hq g Hg. eapply wp_mono; [apply (Hq (core g)); done|..]; intros ? g' ?; by apply (HI g).
Qed.
Lemma quiet_modify {St} f : (∀ g : mgr St, core (f g) = core g) → quiet (py_modify f).
Proof. intros H c. apply keeps_modify. intros g <-. apply H. Qed.
Lemma quiet_tick {St} : quiet (@tick St).
Proof. intros c g <-. done. Qed.
#[export] Hint Resolve quiet_tick : celesto.
#[export] Hint Extern 2 (keeps _ (py_modify _)) => apply quiet_modify; reflexivity : celesto.

Section quiet.
Context (E : menv) {St : Type}.
Implicit Types g : mgr St.
Local Abbreviation M := (py (mgr St)).

Lemma quiet_net op : quiet (net E op : M unit).
Proof. intros c. unfold net. keeps_steps. Qed.
Lemma quiet_unlink f : quiet (unlink E f : M unit).
Proof. intros c. unfold unlink. keeps_steps. Qed.
Lemma quiet_write_disk f : quiet (write_disk E f : M unit).
Proof. intros c. unfold write_disk. keeps_steps. Qed.
Hint Resolve quiet_net quiet_unlink quiet_write_disk : celesto.

Lemma quiet_mark d : quiet (_mark_disk_retained E d : M unit).
Proof. intros c. unfold _mark_disk_retained. keeps_steps. Qed.
Lemma quiet_clear d : quiet (_clear_retained_marker E d : M unit).
Proof. intros c. unfold _clear_retained_marker. keeps_steps. Qed.
Hint Resolve quiet_mark quiet_clear : celesto.
Lemma quiet_restore_marker d b : quiet (_restore_retained_marker E d b : M unit).
Proof. intros c. unfold _restore_retained_marker. keeps_steps. Qed.
Lemma quiet_remove_disk d : quiet (_remove_managed_disk E d : M unit).
Proof. intros c. unfold _remove_managed_disk. keeps_steps. Qed.
Lemma quiet_cleanup_disk d b : quiet (_cleanup_unpersisted_managed_disk E d b : M unit).
Proof. intros c. unfold _cleanup_unpersisted_managed_disk. keeps_steps. Qed.
Lemma quiet_remove_firmware vm : quiet (remove_firmware E vm : M unit).
Proof. intros c. unfold remove_firmware. keeps_steps. Qed.
Lemma quiet_remove_log vm : quiet (remove_log E vm : M unit).
Proof. intros c. unfold remove_log. keeps_steps. Qed.
Hint Resolve quiet_restore_marker quiet_remove_disk quiet_cleanup_disk quiet_remove_firmware
  quiet_remove_log : celesto.
Lemma quiet_cleanup_firmware vm b : quiet (_cleanup_unpersisted_firmware E vm b : M unit).
Proof. intros c. unfold _cleanup_unpersisted_firmware. keeps_steps. Qed.
Lemma quiet_backup_loop ds acc : quiet (backup_loop E ds acc : M _).
Proof. intros c. revert acc. induction ds; intros acc; simpl; keeps_steps. Qed.
Hint Resolve quiet_backup_loop : celesto.
Lemma quiet_backup d : quiet (_backup_existing_managed_disk E d : M _).
Proof. intros c. unfold _backup_existing_managed_disk. keeps_steps. Qed.
Lemma quiet_restore_backup bs : quiet (_restore_existing_managed_disk_backup E bs : M unit).
Proof. intros c. unfold _restore_existing_managed_disk_backup. keeps_steps. Qed.
Lemma quiet_discard_backup bs : quiet (_discard_existing_managed_disk_backup E bs : M unit).
Proof. intros c. unfold _discard_existing_managed_disk_backup. keeps_steps. Qed.
Lemma quiet_materialize_rootfs vc : quiet (_materialize_rootfs E vc : M _).
Proof. intros c. unfold _materialize_rootfs. keeps_steps. Qed.
Lemma quiet_resize vc : quiet (_resize_materialized_rootfs E vc : M _).
Proof. intros c. unfold _resize_materialized_rootfs. keeps_steps. Qed.
Lemma quiet_firmware vc : quiet (_materialize_firmware E vc : M unit).
Proof. intros c. unfold _materialize_firmware. keeps_steps. Qed.
Lemma quiet_macos_bundle vc : quiet (_materialize_macos_bundle E vc : M unit).
Proof. intros c. unfold _materialize_macos_bundle. keeps_steps. Qed.
Lemma quiet_rmtree p : quiet (rmtree_bundle E p : M unit).
Proof. intros c. unfold rmtree_bundle. keeps_steps. Qed.
Lemma quiet_policy_network vc t ip : quiet (_setup_policy_network E vc t ip : M unit).
Proof. intros c. unfold _setup_policy_network. keeps_steps. Qed.
Lemma quiet_allowlist vc t : quiet (apply_domain_allowlist E vc t : M unit).
Proof. intros c. unfold apply_domain_allowlist. keeps_steps. Qed.
Lemma quiet_bridge_mac t : quiet (generate_bridge_mac E t : M _).
Proof. intros c. unfold generate_bridge_mac. keeps_steps. Qed.
Lemma quiet_validate_bridge vc b r : quiet (_validate_bridge_mode E vc b r : M unit).
Proof. intros c. unfold _validate_bridge_mode. cbv zeta. keeps_steps. Qed.
Hint Resolve quiet_validate_bridge : celesto.
Lemma quiet_create_checks vc b : quiet (create_checks E vc b : M unit).
Proof. intros c. unfold create_checks. keeps_steps. Qed.
Lemma quiet_look vc b : quiet (look_before_create vc b : M _).
Proof. intros c. unfold look_before_create. keeps_steps. Qed.
End quiet.

#[export] Hint Resolve quiet_net quiet_unlink quiet_write_disk quiet_mark quiet_clear quiet_restore_marker
  quiet_remove_disk quiet_cleanup_disk quiet_remove_firmware quiet_remove_log quiet_cleanup_firmware
  quiet_backup quiet_restore_backup quiet_discard_backup quiet_materialize_rootfs quiet_resize
  quiet_firmware quiet_macos_bundle quiet_rmtree quiet_policy_network quiet_allowlist quiet_bridge_mac
  quiet_validate_bridge quiet_create_checks quiet_look : celesto.

(** ** The inventory, one computer apart *)
Lemma iv_drop_vms vm f v : (∀ m, base.delete vm (f m) = base.delete vm m) →
  iv_drop vm (iv_set_vms f v) = iv_drop vm v.
Proof. intros H. unfold iv_drop, iv_set_vms. simpl. by rewrite H. Qed.
Lemma iv_drop_ips vm f v : (∀ m, base.delete vm (f m) = base.delete vm m) →
  iv_drop vm (iv_set_ips f v) = iv_drop vm v.
Proof. intros H. unfold iv_drop, iv_set_ips. simpl. by rewrite H. Qed.
Lemma iv_drop_ports vm f v : (∀ m, base.delete vm (f m) = base.delete vm m) →
  iv_drop vm (iv_set_ports f v) = iv_drop vm v.
Proof. intros H. unfold iv_drop, iv_set_ports. simpl. by rewrite H. Qed.
Lemma iv_drop_cids vm f v : (∀ m, base.delete vm (f m) = base.delete vm m) →
  iv_drop vm (iv_set_cids f v) = iv_drop vm v.
Proof. intros H. unfold iv_drop, iv_set_cids. simpl. by rewrite H. Qed.
Lemma iv_drop_taps vm f v : (∀ m, base.delete vm (f m) = base.delete vm m) →
  iv_drop vm (iv_set_taps f v) = iv_drop vm v.
Proof. intros H. unfold iv_drop, iv_set_taps. simpl. by rewrite H. Qed.
Lemma iv_drop_drop vm v : iv_drop vm (iv_drop vm v) = iv_drop vm v.
Proof. unfold iv_drop. simpl. f_equal; apply delete_delete_eq. Qed.

Lemma delete_alter_eq {A} (f : A → A) (k : string) (m : gmap string A) :
  base.delete k (alter f k m) = base.delete k m.
Proof. apply map_eq. intros j. rewrite !lookup_delete. case_decide; [done|]. by rewrite lookup_alter_ne. Qed.

(** Two inventories that agree apart from [vm] agree on every other row. *)
Lemma iv_drop_row vm vm' v v' :
  iv_drop vm v' = iv_drop vm v → vm' ≠ vm → iv_vms v' !! vm' = iv_vms v !! vm'.
Proof.
  intros H Hne. apply (f_equal iv_vms) in H. simpl in H.
  rewrite <- (lookup_delete_ne (iv_vms v') vm vm') by done. by rewrite H, lookup_delete_ne.
Qed.

Section only.
Context (E : menv) {St : Type} `{!StateManager St, !StateManagerLaws St}.
Implicit Types g : mgr St.
Local Abbreviation M := (py (mgr St)).
Local Abbreviation view g := (sm_view (g_state g)).

(** From [g0] to [g] only the entries of [vm] changed, and its row satisfies
    [P]. *)
Record only (vm : string) (P : option VMInfo → Prop) (g0 g : mgr St) : Prop := {
  on_ok : sm_ok (g_state g);
  on_view : iv_drop vm (view g) = iv_drop vm (view g0);
  on_rest : (g_procs g, g_host g, g_public g, g_unrecorded g)
            = (g_procs g0, g_host g0, g_public g0, g_unrecorded g0);
  on_row : P (iv_vms (view g) !! vm) }.

Lemma only_core vm P g0 g g' : core g' = core g → only vm P g0 g → only vm P g0 g'.
Proof.
  unfold core. intros [= H1 H2 H3 H4 H5] [O1 O2 O3 O4].
  split; rewrite ?H1, ?H2, ?H3, ?H4, ?H5; done.
Qed.
Lemma only_quiet {A} vm P g0 (m : M A) : quiet m → keeps (only vm P g0) m.
Proof. apply quiet_keeps. intros g g'. apply only_core. Qed.
Lemma only_refl vm P g :
  sm_ok (g_state g) → P (iv_vms (view g) !! vm) → only vm P g g.
Proof. by split. Qed.

(** A call on the inventory that concerns [vm] and leaves its row alone. *)
Lemma only_state vm P g0 g s' :
  only vm P g0 g → sm_ok s' → iv_drop vm (sm_view s') = iv_drop vm (view g) →
  iv_vms (sm_view s') !! vm = iv_vms (view g) !! vm → only vm P g0 (g_set_state s' g).
Proof. intros [O1 O2 O3 O4] Hok Hv Hr. split; simpl; try done; [by rewrite Hv|by rewrite Hr]. Qed.
Lemma only_same vm P g0 g s' : only vm P g0 g → same_view (g_state g) s' → only vm P g0 (g_set_state s' g).
Proof. intros Ho [Hok Hv]. apply only_state; try done; by rewrite Hv. Qed.

(** Every other call: from its law, what it changes concerns [vm]. *)
Local Ltac only_law L :=
  intros g Ho; apply wp_on_state; eapply wp_mono;
  [apply L, (on_ok _ _ _ _ Ho)
  |intros ? s' Hs; cbv beta in Hs; destruct_and?; try (by apply only_same)
  |intros ? s' Hs; cbv beta in Hs; destruct_and?; by apply only_same].

Lemma only_get vm P g0 x : keeps (only vm P g0) (on_state (sm_get_vm x)).
Proof. only_law law_get. Qed.
Lemma only_list vm P g0 st : keeps (only vm P g0) (on_state (sm_list_vms st)).
Proof. only_law law_list. Qed.
Lemma only_get_lease vm P g0 x : keeps (only vm P g0) (on_state (sm_get_ip_lease x)).
Proof. only_law law_get_ip_lease. Qed.
Lemma only_get_port vm P g0 x : keeps (only vm P g0) (on_state (sm_get_ssh_port x)).
Proof. only_law law_get_ssh_port. Qed.
Lemma only_get_cid vm P g0 x : keeps (only vm P g0) (on_state (sm_get_vsock_cid x)).
Proof. only_law law_get_vsock_cid. Qed.
Lemma only_get_tap vm P g0 x : keeps (only vm P g0) (on_state (sm_get_tap_allocation x)).
Proof. only_law law_get_tap_allocation. Qed.

Lemma only_release_ip vm P g0 : keeps (only vm P g0) (on_state (sm_release_ip vm)).
Proof. only_law law_release_ip. apply only_state; [done..|rewrite H0; apply iv_drop_ips; intros; apply delete_delete_eq|by rewrite H0]. Qed.
Lemma only_release_port vm P g0 : keeps (only vm P g0) (on_state (sm_release_ssh_port vm)).
Proof. only_law law_release_ssh_port. apply only_state; [done..|rewrite H0; apply iv_drop_ports; intros; apply delete_delete_eq|by rewrite H0]. Qed.
Lemma only_release_cid vm P g0 : keeps (only vm P g0) (on_state (sm_release_vsock_cid vm)).
Proof. only_law law_release_vsock_cid. apply only_state; [done..|rewrite H0; apply iv_drop_cids; intros; apply delete_delete_eq|by rewrite H0]. Qed.
Lemma only_release_tap vm P g0 : keeps (only vm P g0) (on_state (sm_release_tap_name vm)).
Proof. only_law law_release_tap_name. apply only_state; [done..|rewrite H0; apply iv_drop_taps; intros; apply delete_delete_eq|by rewrite H0]. Qed.
Lemma only_update_tap vm P g0 t : keeps (only vm P g0) (on_state (sm_update_ip_lease_tap vm t)).
Proof. only_law law_update_tap. apply only_state; [done..|rewrite H0; apply iv_drop_ips; intros; apply delete_alter_eq|by rewrite H0]. Qed.

Lemma only_allocate_ip vm P g0 t req : keeps (only vm P g0) (on_state (sm_allocate_ip vm t req)).
Proof.
  only_law law_allocate_ip. destruct Hs as [(x & _ & Hs)|(_ & _ & Hok & Hv)]; [by apply only_same|].
  apply only_state; [done..|rewrite Hv; apply iv_drop_ips; intros; apply delete_insert_eq|by rewrite Hv].
Qed.
Lemma only_reserve_port vm P g0 hp ex : keeps (only vm P g0) (on_state (sm_reserve_ssh_port vm hp ex)).
Proof.
  only_law law_reserve_ssh_port. destruct Hs as [(_ & Hs)|(_ & _ & _ & _ & Hok & Hv)]; [by apply only_same|].
  apply only_state; [done..|rewrite Hv; apply iv_drop_ports; intros; apply delete_insert_eq|by rewrite Hv].
Qed.
Lemma only_reserve_cid vm P g0 rc : keeps (only vm P g0) (on_state (sm_reserve_vsock_cid vm rc)).
Proof.
  only_law law_reserve_vsock_cid. destruct Hs as [(_ & Hs)|(_ & _ & _ & Hok & Hv)]; [by apply only_same|].
  apply only_state; [done..|rewrite Hv; apply iv_drop_cids; intros; apply delete_insert_eq|by rewrite Hv].
Qed.
Lemma only_reserve_tap vm P g0 m br req : keeps (only vm P g0) (on_state (sm_reserve_tap_name vm m br req)).
Proof.
  only_law law_reserve_tap_name. destruct Hs as [(_ & Hs)|(_ & _ & Hok & Hv)]; [by apply only_same|].
  apply only_state; [done..|rewrite Hv; apply iv_drop_taps; intros; apply delete_insert_eq|by rewrite Hv].
Qed.

Lemma only_update vm (P : option VMInfo → Prop) g0 u :
  (∀ i, P (Some i) → P (Some (apply_vm_update u i))) → keeps (only vm P g0) (on_state (sm_update_vm vm u)).
Proof.
  intros HP. only_law law_update. destruct H0 as (i0 & Hi0 & -> & Hv). destruct Ho as [O1 O2 O3 O4].
  rewrite Hi0 in O4. split; simpl; try done.
  - rewrite Hv, iv_drop_vms; [done|]. intros; apply delete_insert_eq.
  - rewrite Hv. simpl. rewrite lookup_insert_eq. by apply HP.
Qed.
End only.

#[export] Hint Resolve only_get only_list only_get_lease only_get_port only_get_cid only_get_tap
  only_release_ip only_release_port only_release_cid only_release_tap only_update_tap only_allocate_ip
  only_reserve_port only_reserve_cid only_reserve_tap : celesto.
#[export] Hint Extern 3 (keeps (only _ _ _) _) => apply only_quiet; solve [eauto with celesto nocore] : celesto.
