(* ===== verification/ManagerCreateProofs.v ===== *)
(** * A failed create leaves nothing behind

    The second phase of [create] and its rollback only touch the entries of
    the computer being created; the rollback always reaches the deletion of
    its row. *)
From S2P Require Import Prelude PyDict PyStr StorageBase Types MemoryState EgressSession NetworkSettings.
From S2P Require Import ConfigValidation Channel PyHoare StateProtocol StateProtocolMemory Backends.
From S2P Require Import ManagerState ManagerHelpers ManagerRuntime ManagerCreate ManagerLifecycle.
From S2P Require Import ManagerFrames.
From stdpp Require Import options.

(** ** Backends are resolved once *)
Lemma resolve_supported h r guest b :
  resolve_backend_for_guest h r guest = Ret b →
  b ∈ SUPPORTED_BACKENDS ∧ (guest = MACOS → b = BACKEND_VZ).
Proof.
  unfold resolve_backend_for_guest. case_bool_decide as Hg; simpl.
  - case_bool_decide; [|done]. intros [= <-]. split; [unfold SUPPORTED_BACKENDS; set_solver|done].
  - intros H. split; [|done]. unfold resolve_backend, resolve_backend_status in H.
    destruct (String.eqb _ _); [|case_bool_decide; [|done]; simpl in H; by simplify_eq].
    simpl in H. injection H as <-. unfold _auto_backend.
    pose proof (auto_loop_spec h (_AUTO_PREFERENCE (lower (platform_system h))) None
      (default "" (head (_AUTO_PREFERENCE (lower (platform_system h)))),
       _backend_status h (default "" (head (_AUTO_PREFERENCE (lower (platform_system h))))))) as Hl.
    destruct (auto_loop _ _ _ _) as [b st] eqn:He. simpl.
    assert (b ∈ _AUTO_PREFERENCE (lower (platform_system h))) as Hb.
    { destruct (Hl b st (preference_supported h _) eq_refl) as [[(l1 & l2 & -> & _) _]|[_ [[(l1 & l2 & -> & _) _]|[_ ?]]]];
        [set_solver..|]. simplify_eq. unfold _AUTO_PREFERENCE. case_match; by left. }
    revert Hb. unfold _AUTO_PREFERENCE, SUPPORTED_BACKENDS.
    case_match; rewrite ?elem_of_cons, ?elem_of_nil; naive_solver.
Qed.

Lemma resolve_again h r guest b :
  resolve_backend_for_guest h r guest = Ret b → resolve_backend_for_guest h (Some b) guest = Ret b.
Proof.
  intros H. destruct (resolve_supported _ _ _ _ H) as [Hb Hm].
  destruct (decide (guest = MACOS)) as [->|Hg]; [by rewrite Hm|].
  unfold resolve_backend_for_guest, resolve_backend, resolve_backend_status.
  rewrite bool_decide_false by done. simpl. unfold SUPPORTED_BACKENDS in Hb.
  rewrite ?elem_of_cons, ?elem_of_nil in Hb. destruct_or?; subst; done.
Qed.

(** A configuration that names its resolved backend resolves to it. *)
Lemma backend_for_config_again E c b c' :
  _backend_for_config E c = Ret b → backend c' = Some b → guest_os c' = guest_os c →
  _backend_for_config E c' = Ret b.
Proof.
  unfold _backend_for_config. intros H Hb Hg. rewrite Hb, Hg.
  destruct (resolve_backend_for_guest _ _ (guest_os c)) as [b1|e1] eqn:He; [simplify_eq|by destruct e1].
  destruct (resolve_supported _ _ _ _ He) as [Hs _]. apply resolve_again in He.
  assert (truthy_str (Some b) = true) as ->.
  { unfold SUPPORTED_BACKENDS in Hs. rewrite ?elem_of_cons, ?elem_of_nil in Hs. destruct_or?; by subst. }
  simpl. by rewrite He.
Qed.

Section create.
Context (E : menv) {St : Type} `{!StateManager St, !StateManagerLaws St}.
Implicit Types g : mgr St.
Local Abbreviation M := (py (mgr St)).
Local Abbreviation view g := (sm_view (g_state g)).

(** ** The network phase *)
Section network.
Context (vm : string) (P : option VMInfo → Prop) (g0 : mgr St).

Lemma only_ssh_port_loop fuel ex : keeps (only vm P g0) (ssh_port_loop E fuel vm ex).
Proof. revert ex. induction fuel; intros ex; cbn [ssh_port_loop]; keeps_steps. Qed.
Lemma only_reserve_available : keeps (only vm P g0) (_reserve_available_ssh_port E vm).
Proof. apply only_ssh_port_loop. Qed.
Lemma only_cid_loop live cands : keeps (only vm P g0) (cid_loop vm live cands).
Proof. induction cands; cbn [cid_loop]; keeps_steps. Qed.
Hint Resolve only_cid_loop only_reserve_available : celesto.
Lemma only_reserve_cid_for_backend b req : keeps (only vm P g0) (_reserve_vsock_cid_for_backend E vm b req).
Proof. unfold _reserve_vsock_cid_for_backend. cbv zeta. keeps_steps. Qed.
Hint Resolve only_reserve_cid_for_backend : celesto.

Context (c : VMConfig) (Hvm : vm_id c = vm).
Context (HPc : ∀ v i, P (Some i) → P (Some (apply_vm_update (u_with_config (c_set_vsock v c)) i))).
Context (HPn : ∀ n i, P (Some i) → P (Some (apply_vm_update (u_with_network n) i))).

Lemma only_maybe_vsock b i : keeps (only vm P g0) (_maybe_enable_vsock E c b i).
Proof using All.
  unfold _maybe_enable_vsock. rewrite Hvm. cbv zeta. keeps_steps. apply only_update. auto.
Qed.
Lemma only_set_network n : keeps (only vm P g0) (on_state (sm_update_vm vm (u_with_network n))).
Proof using HPn. apply only_update. auto. Qed.
Hint Resolve only_maybe_vsock only_set_network : celesto.

Lemma only_bridge_network b r : keeps (only vm P g0) (create_bridge_network E c b r).
Proof using All. unfold create_bridge_network. rewrite Hvm. cbv zeta. keeps_steps. Qed.
Lemma only_usernet_network b p : keeps (only vm P g0) (create_usernet_network E c b p).
Proof using All. unfold create_usernet_network. rewrite Hvm. cbv zeta. keeps_steps. Qed.
Lemma only_tap_network b p : keeps (only vm P g0) (create_tap_network E c b p).
Proof using All. unfold create_tap_network. rewrite Hvm. cbv zeta. keeps_steps. Qed.
Hint Resolve only_bridge_network only_usernet_network only_tap_network : celesto.
Lemma only_create_network b : keeps (only vm P g0) (create_network E c b).
Proof using All. unfold create_network. rewrite Hvm. cbv zeta. keeps_steps. Qed.
End network.

(** ** The releases *)
Section releases.
Context (vm : string) (P : option VMInfo → Prop) (g0 : mgr St).

Lemma only_cleanup_bridge a i req : keeps (only vm P g0) (cleanup_bridge E vm a i req).
Proof. unfold cleanup_bridge. cbv zeta. keeps_steps. Qed.
Lemma only_cleanup_nat l u p ip : keeps (only vm P g0) (cleanup_nat E vm l u p ip).
Proof. unfold cleanup_nat. cbv zeta. keeps_steps. Qed.
Hint Resolve only_cleanup_bridge only_cleanup_nat : celesto.
Lemma only_cleanup_host i req : keeps (only vm P g0) (_cleanup_host_resources E vm i req).
Proof. unfold _cleanup_host_resources. cbv zeta. keeps_steps. Qed.
Lemma only_disks_for_cleanup i : keeps (only vm P g0) (_managed_disks_for_cleanup E vm i).
Proof. unfold _managed_disks_for_cleanup. keeps_steps. Qed.
Lemma only_info_for_cleanup : keeps (only vm P g0) (_vm_info_for_cleanup vm).
Proof. unfold _vm_info_for_cleanup. keeps_steps. Qed.
Hint Resolve only_cleanup_host only_disks_for_cleanup only_info_for_cleanup : celesto.
Lemma only_cleanup_artifacts i pre : keeps (only vm P g0) (_cleanup_vm_artifacts E vm i pre).
Proof. unfold _cleanup_vm_artifacts. cbv zeta. keeps_steps. Qed.
Hint Resolve only_cleanup_artifacts : celesto.
Lemma only_cleanup_resources pre req : keeps (only vm P g0) (_cleanup_resources E vm pre req).
Proof. unfold _cleanup_resources. keeps_steps. Qed.
End releases.

(** ** The rollback goes through *)
Lemma managed_disk_ret i b :
  _backend_for_config E (config i) = Ret b → ∃ o, _managed_disk_for_vm E i = Ret o.
Proof.
  intros Hb. unfold _managed_disk_for_vm. destruct (rootfs_path (config i)) as [p|] eqn:Hp; [|by eexists].
  case_bool_decide; [by eexists|]. destruct (disk_mode (config i)); [|by eexists].
  rewrite Hb. unfold effective_rootfs_format. simpl. rewrite Hp. simpl. by eexists.
Qed.

Lemma returns_cleanup_artifacts vm i pre o :
  identifier_ok vm = true → e_firmware_link E vm = false →
  (∀ j, i = Some j → _managed_disk_for_vm E j = Ret (o j)) →
  returns (_cleanup_vm_artifacts E vm i pre : M unit).
Proof.
  intros Hid Hlink Hi. unfold _cleanup_vm_artifacts, _validate_cleanup_id. rewrite Hid, Hlink. cbv zeta.
  assert (returns (_managed_disks_for_cleanup E vm i : M (list string))) as Hd.
  { unfold _managed_disks_for_cleanup. destruct i as [j|]; [|auto with celesto].
    rewrite (Hi j eq_refl). auto with celesto. }
  assert (∀ d, returns (_mark_disk_retained E d : M unit)) as H1 by (intros; apply returns_suppress).
  assert (∀ d, returns (_remove_managed_disk E d : M unit)) as H2.
  { intros. unfold _remove_managed_disk. auto with celesto. }
  assert (∀ x, returns (remove_firmware E x : M unit)) as H3 by (intros; apply returns_suppress).
  assert (∀ x, returns (remove_log E x : M unit)) as H4 by (intros; apply returns_suppress).
  simpl. repeat (apply returns_bind; [first [done|auto with celesto]|intros ?]); auto with celesto.
  apply returns_for. intros d. apply returns_bind; [apply returns_get|]. intros g. repeat case_match; auto with celesto.
Qed.

(** The row of the computer being created still names its backend. *)
Definition names_backend (c : VMConfig) (b : string) (i : VMInfo) : Prop :=
  backend (config i) = Some b ∧ guest_os (config i) = guest_os c ∧ status i = CREATED ∧ pid i = None.

Lemma cleanup_resources_returns c b vm g0 pre g :
  _backend_for_config E c = Ret b → identifier_ok vm = true → e_firmware_link E vm = false →
  only vm (from_option (names_backend c b) False) g0 g →
  wp (_cleanup_resources E vm pre false) (λ _, only vm (from_option (names_backend c b) False) g0) (λ _ _, False) g.
Proof.
  intros Hb Hid Hlink Ho. unfold _cleanup_resources, _validate_cleanup_id. rewrite Hid.
  apply wp_bind. simpl. apply wp_bind. unfold _vm_info_for_cleanup.
  apply wp_try, wp_bind, wp_on_state.
  pose proof (on_ok _ _ _ _ Ho) as Hok. pose proof (on_row _ _ _ _ Ho) as Hrow.
  assert (∀ i g1, (∀ j, i = Some j → names_backend c b j) → only vm (from_option (names_backend c b) False) g0 g1 →
    wp (do! py_try (_cleanup_host_resources E vm i false) (λ e, if false then py_raise e else py_return tt) in
        _cleanup_vm_artifacts E vm i pre) (λ _, only vm (from_option (names_backend c b) False) g0) (λ _ _, False) g1) as Hrest.
  { intros i g1 Hi Ho1. apply wp_bind. eapply (wp_mono _ (λ _, only vm (from_option (names_backend c b) False) g0) _ (λ _ _, False)); [| |done].
    - apply wp_try. eapply wp_mono; [by apply only_cleanup_host|done|]. intros e g2 Ho2. by apply wp_return.
    - intros ? g2 Ho2. apply keeps_returns; [apply only_cleanup_artifacts| |done].
      apply (returns_cleanup_artifacts _ _ _ (λ j, default None (match _managed_disk_for_vm E j with Ret o => Some o | _ => None end)));
        [done..|].
      intros j Hj. destruct (Hi j Hj) as (Hbj & Hgj & _).
      destruct (managed_disk_ret j b) as [o Hmd]; [by eapply backend_for_config_again|]. by rewrite Hmd. }
  eapply wp_mono; [by apply law_get|..]; cbv beta.
  - intros i s' [Hs Hi]. apply wp_return, Hrest; [|by apply only_same].
    intros j [= <-]. by rewrite Hi in Hrow.
  - intros e s' [Hs _]. apply wp_return, Hrest; [done|by apply only_same].
Qed.

(** ** The first phase *)
Definition rest g := (g_procs g, g_host g, g_public g, g_unrecorded g).
(** From [g0] to [g] the inventory became [f] of what it was. *)
Record moved (f : Inventory → Inventory) (g0 g : mgr St) : Prop := {
  mv_ok : sm_ok (g_state g);
  mv_view : view g = f (view g0);
  mv_rest : rest g = rest g0 }.

Lemma moved_quiet {A} f g0 (m : M A) : quiet m → keeps (moved f g0) m.
Proof.
  apply quiet_keeps. unfold core. intros g g' [= H1 H2 H3 H4 H5] [O1 O2 O3].
  split; unfold rest in *; rewrite ?H1, ?H2, ?H3, ?H4, ?H5; done.
Qed.
Hint Extern 3 (keeps (moved _ _) _) => apply moved_quiet; solve [eauto with celesto nocore] : celesto.

Lemma moved_same f g0 g s' : moved f g0 g → same_view (g_state g) s' → moved f g0 (g_set_state s' g).
Proof. intros [O1 O2 O3] [Hok Hv]. by split; simpl; rewrite ?Hv. Qed.

(** Nothing of a create that failed: the inventory is as it was, less what an
    unknown name may have held. *)
Definition undone (vm : string) (g g' : mgr St) : Prop :=
  moved id g g' ∨ iv_vms (view g) !! vm = None ∧ moved (iv_drop vm) g g'.

(** What the network phase goes by. *)
Definition net_setup (c : VMConfig) :=
  (network_attachment c, comm_channel c, workspace_mounts c, qemu_network c, vsock_config c).
Definition same_machine (c c' : VMConfig) : Prop :=
  vm_id c' = vm_id c ∧ backend c' = backend c ∧ guest_os c' = guest_os c ∧ net_setup c' = net_setup c.

Lemma materialize_same_machine c g :
  wp (_materialize_rootfs E c : M VMConfig) (λ c' _, same_machine c c') (λ _ _, True) g.
Proof. unfold _materialize_rootfs. by wp_walk. Qed.
Lemma resize_same_machine c g :
  wp (_resize_materialized_rootfs E c : M VMConfig) (λ c' _, same_machine c c') (λ _ _, True) g.
Proof. unfold _resize_materialized_rootfs. by wp_walk. Qed.

Lemma ensure_available_spec vm g :
  sm_ok (g_state g) →
  wp (_ensure_vm_id_available vm : M unit)
    (λ _ g', moved id g g' ∧ iv_vms (view g) !! vm = None) (λ _, moved id g) g.
Proof.
  intros Hok. assert (moved id g g) as Hm by done. unfold _ensure_vm_id_available.
  apply wp_bind, wp_try, wp_bind, wp_on_state. eapply wp_mono; [by apply law_get|..]; cbv beta.
  - intros i s' [Hs _]. wp_steps; try done. by apply moved_same.
  - intros e s' [Hs He]. destruct e; try (by apply wp_raise, moved_same). apply wp_return. wp_steps; try done.
    split; [by apply moved_same|]. by eapply He.
Qed.

Lemma returns_restore_backup bs :
  (∀ n f, e_replace E n f = None) → returns (_restore_existing_managed_disk_backup E bs : M unit).
Proof.
  intros Hr. unfold _restore_existing_managed_disk_backup. apply returns_for. intros [o copy].
  apply returns_bind; [auto with celesto|]. intros g. case_match; [|auto with celesto].
  apply returns_bind; [auto with celesto|]. intros k. rewrite Hr. simpl. auto with celesto.
Qed.

Context `{!StateManagerTotal St}.

Lemma delete_row_spec f vm g0 g X :
  moved f g0 g → is_Some (iv_vms (view g) !! vm) →
  wp (on_state (sm_delete_vm vm)) (λ _, moved (λ v, iv_drop vm (f v)) g0) X g.
Proof using All.
  intros [Hok Hv Hr] Hrow. apply wp_on_state. pose proof (total_delete vm _ Hok Hrow) as Ht.
  pose proof (law_delete vm _ Hok) as Hl. unfold wp in *.
  destruct (sm_delete_vm vm (g_state g)) as [s' []]; [|done]. destruct Hl as [Hok' Hv'].
  split; simpl; [done| |done]. by rewrite Hv', Hv.
Qed.

Lemma rollback_tail {A} f vm w e g0 :
  keeps (moved f g0)
    (do! _cleanup_unpersisted_managed_disk E (bc_disk w) (bc_disk_existed w) in
     do! _restore_retained_marker E (bc_disk w) (bc_disk_was_saved w) in
     do! _cleanup_unpersisted_firmware E vm (bc_firmware_existed w) in
     do! (match bc_bundle w with
          | Some p => let! g := py_get in
                      py_when (negb (bc_bundle_existed w) && bool_decide (p ∈ g_bundles g)) (rmtree_bundle E p)
          | None => py_return tt
          end) in
     (py_raise e : M A)).
Proof. keeps_steps. Qed.

Lemma rollback_before {A} vm w bs e g0 g :
  moved id g0 g → wp (create_rollback E vm w bs false e : M A) (λ _ _, False) (λ _, undone vm g0) g.
Proof.
  intros Hm. apply wp_intro.
  - intros g' a H. exfalso. unfold create_rollback, py_bind in H. repeat (case_match; try done).
  - intros g' e' H. left. eapply (keeps_state (moved id g0)); [|done|exact H].
    unfold create_rollback. apply keeps_bind; [auto with celesto nocore|]. intros _.
    apply keeps_bind; [simpl; auto with celesto|]. intros _. apply rollback_tail.
Qed.

Lemma raise_only {A B} (m : M A) (k : A → M B) :
  (∀ a g, wp (k a) (λ _ _, False) (λ _ _, True) g) → ∀ g, wp (py_bind m k) (λ _ _, False) (λ _ _, True) g.
Proof. intros Hk g. apply wp_bind. apply wp_intro; [|done]. intros g' a _. apply Hk. Qed.

Lemma rollback_after {A} vm i w bs e g0 g :
  (∀ n f, e_replace E n f = None) → iv_vms (view g0) !! vm = None →
  moved (iv_set_vms <[vm := i]>) g0 g →
  wp (create_rollback E vm w bs true e : M A) (λ _ _, False) (λ _, undone vm g0) g.
Proof using All.
  intros Hr Hn Hm. unfold create_rollback. apply wp_bind.
  eapply wp_mono; [apply (keeps_returns (moved (iv_set_vms <[vm := i]>) g0) _ (λ _ _, False)); [auto with celesto nocore|
    by apply returns_restore_backup|done]| |done].
  intros ? g1 Hm1. apply wp_bind. cbn [py_when]. apply wp_suppress.
  eapply wp_mono; [apply (delete_row_spec _ vm g0 g1 (λ _ _, False) Hm1)| |done].
  { rewrite (mv_view _ _ _ Hm1). simpl. rewrite lookup_insert_eq. by eexists. }
  cbv beta. intros ? g2 Hm2.
  assert (moved (iv_drop vm) g0 g2) as Hm2'.
  { destruct Hm2 as [O1 O2 O3]. split; try done. rewrite O2. apply iv_drop_vms. intros. apply delete_insert_eq. }
  eapply wp_mono; [eapply (wp_conj _ _ (λ _ _, False) _ (λ _ _, True));
    [exact (rollback_tail _ vm w e g0 g2 Hm2')|]|..].
  - repeat (apply raise_only; intros ??). by apply wp_raise.
  - by intros a' s [_ []].
  - intros e' s [Hs _]. by right.
Qed.

Definition created (c : VMConfig) (g g' : mgr St) (c' : VMConfig) : Prop :=
  same_machine c c' ∧ iv_vms (view g) !! vm_id c = None
  ∧ ∃ c1, same_machine c c1 ∧ moved (iv_set_vms <[vm_id c := vi_new (vm_id c) CREATED c1]>) g g'.

(** The files of the new computer, before its row. *)
Lemma materialize_spec (J : mgr St → Prop) c g :
  (∀ A (m : M A), quiet m → keeps J m) → J g →
  wp (if bool_decide (guest_os c = MACOS)
      then do! _materialize_macos_bundle E c in (py_return c : M VMConfig)
      else _materialize_rootfs E c)
    (λ c' g', J g' ∧ same_machine c c') (λ _, J) g.
Proof.
  intros HJ Hm. case_bool_decide.
  - apply wp_bind. eapply wp_mono; [eapply HJ; [auto with celesto nocore|done]| |done].
    intros ? g1 Hg1. by apply wp_return.
  - eapply wp_mono; [eapply wp_conj; [eapply (HJ _ (_materialize_rootfs E c)); [auto with celesto nocore|done]|
      apply materialize_same_machine]|naive_solver..].
Qed.

(** The disk and the row. *)
Lemma create_row_before c g0 g :
  moved id g0 g →
  wp (let! c := (if bool_decide (guest_os c = MACOS)
                 then do! _materialize_macos_bundle E c in py_return c
                 else _materialize_rootfs E c) in
      do! on_state (sm_create_vm c) in
      (py_return c : M VMConfig))
    (λ c' g', created c g0 g' c' ∧ same_machine c c') (λ _, moved id g0) g.
Proof.
  intros Hm. apply wp_bind.
  eapply wp_mono; [apply (materialize_spec (moved id g0)); [intros A m; apply moved_quiet|done]| |done].
  - intros c1 g1 [Hm1 Hc1]. apply wp_bind, wp_on_state. pose proof Hc1 as (Hid & _).
    eapply wp_mono; [apply law_create, Hm1|..]; cbv beta.
    + intros i s' (Hok & Hn & -> & Hv). apply wp_return. rewrite (mv_view _ _ _ Hm1), Hid in Hn.
      unfold created. split_and!; try done. exists c1. split; [done|]. split; simpl; [done| |exact (mv_rest _ _ _ Hm1)].
      by rewrite Hv, (mv_view _ _ _ Hm1), Hid.
    + intros e s' Hs. by apply moved_same.
Qed.

(** What follows the row: nothing that [J] sees. *)
Lemma create_row_after (J : mgr St → Prop) c d bs g :
  (∀ A (m : M A), quiet m → keeps J m) → J g →
  wp (do! (match d with Some d => _clear_retained_marker E d | None => py_return tt end) in
      let! c := (if bool_decide (guest_os c = MACOS) then py_return c
                 else let! c := _resize_materialized_rootfs E c in
                      do! _materialize_firmware E c in py_return c) in
      do! _discard_existing_managed_disk_backup E bs in
      (py_return c : M VMConfig))
    (λ c' g', J g' ∧ same_machine c c') (λ _, J) g.
Proof.
  intros HJ Hm. eapply wp_mono; [apply (wp_conj _ (λ _, J) (λ c' _, same_machine c c') (λ _, J) (λ _ _, True))|..].
  - eapply (_ : keeps J _); exact Hm.
  - apply wp_bind. wp_skip; [|done]. apply wp_bind. case_bool_decide.
    + apply wp_return. by wp_walk.
    + apply wp_bind. eapply wp_mono; [apply resize_same_machine| |done]. intros c1 g1 Hc1. by wp_walk.
  - naive_solver.
  - naive_solver.
  Unshelve. apply HJ. intros k. keeps_steps.
Qed.

Lemma same_machine_trans c1 c2 c3 : same_machine c1 c2 → same_machine c2 c3 → same_machine c1 c3.
Proof. unfold same_machine. intros (-> & -> & -> & ->) (-> & -> & -> & ->). done. Qed.

Context (Hreplace : ∀ n f, e_replace E n f = None).

Lemma create_row_spec c b g :
  sm_ok (g_state g) →
  wp (create_row E c b : M _) (λ x g', created c g g' x.1) (λ _, undone (vm_id c) g) g.
Proof using All.
  intros Hok. unfold create_row. cbv zeta. apply wp_bind.
  eapply wp_mono; [by apply ensure_available_spec| |intros e g1 Hm1; by left].
  intros ? g1 [Hm1 Hn]. apply wp_bind.
  eapply wp_mono; [eapply (moved_quiet id g); [auto with celesto nocore|done]| |intros e g2 Hm2; by left].
  intros w g2 Hm2. apply wp_bind.
  eapply wp_mono; [eapply (_ : keeps (moved id g) _); exact Hm2| |intros e g3 Hm3; by left].
  intros bs g3 Hm3. apply wp_bind, wp_try.
  eapply wp_mono; [apply (create_row_before c g); exact Hm3|..]; cbv beta.
  - intros c1 g4 [(_ & _ & c2 & Hc2 & Hm4) Hc1]. apply wp_bind, wp_try.
    eapply wp_mono; [apply (create_row_after (moved (iv_set_vms <[vm_id c := vi_new (vm_id c) CREATED c2]>) g) c1); [intros A m; apply moved_quiet|exact Hm4]|..]; cbv beta.
    + intros c3 g5 [Hm5 Hc3]. apply wp_return. split_and!; [by eapply same_machine_trans|done|by exists c2].
    + intros e g5 Hm5. eapply wp_mono; [eapply (rollback_after _ _ _ _ _ g); [done|done|exact Hm5]|done|done].
  - intros e g4 Hm4. eapply wp_mono; [apply (rollback_before _ _ _ _ g); exact Hm4|done|done].
  Unshelve. keeps_steps.
Qed.

(** The network phase, from the state the first phase left. *)
Lemma network_phase_spec c c' b w g g1 :
  _backend_for_config E c = Ret b → backend c = Some b → identifier_ok (vm_id c) = true →
  e_firmware_link E (vm_id c) = false → created c g g1 c' →
  wp (py_try (create_network E c' b) (network_rollback E (vm_id c') w))
    (λ _, only (vm_id c) (from_option (names_backend c b) False) g1) (λ _, undone (vm_id c) g) g1.
Proof using All.
  intros Hb Hcb Hid Hlink ((Hv & Hb' & Hg' & _) & Hn & c1 & (_ & Hb1 & Hg1 & _) & Hm). rewrite Hv.
  assert (only (vm_id c) (from_option (names_backend c b) False) g1 g1) as Ho.
  { apply only_refl; [apply Hm|]. rewrite (mv_view _ _ _ Hm). simpl. rewrite lookup_insert_eq. simpl.
    split_and!; simpl; congruence. }
  apply wp_try. eapply wp_mono; [apply only_create_network; [done|..|exact Ho]|done|].
  - intros v i (? & ? & ? & ?). split_and!; simpl; congruence.
  - by intros n i (? & ? & ? & ?).
  - intros e g2 Ho2. unfold network_rollback. apply wp_bind.
    eapply wp_mono; [apply (cleanup_resources_returns c b (vm_id c) g1); [done..|exact Ho2]| |done]. intros ? g3 Ho3. apply wp_bind.
    eapply wp_mono; [apply (keeps_returns (only (vm_id c) (from_option (names_backend c b) False) g1) _ (λ _ _, False))| |done].
    + auto with celesto.
    + unfold _restore_retained_marker. apply returns_bind; [auto with celesto|]. intros ?.
      case_match; [|auto with celesto]. apply returns_when, returns_suppress.
    + exact Ho3.
    + intros ? g4 Ho4. apply wp_bind, wp_suppress. pose proof (mv_view _ _ _ Hm) as Hv1.
      eapply wp_mono; [apply (delete_row_spec (λ _, view g4) (vm_id c) g g4 (λ _ _, False))| |done].
      * destruct Ho4 as [O1 O2 O3 O4]. split; [done..|]. unfold rest. rewrite O3. apply Hm.
      * destruct Ho4 as [_ _ _ O4]. by destruct (iv_vms (view g4) !! vm_id c).
      * intros ? g5 [Q1 Q2 Q3]. apply wp_raise. right. split; [done|]. split; [done| |done].
        rewrite Q2, (on_view _ _ _ _ Ho4), Hv1. apply iv_drop_vms. intros. apply delete_insert_eq.
Qed.

(** ** What a create returns is what it stored *)
Definition stored (vm : string) (i : VMInfo) g : Prop :=
  sm_ok (g_state g) ∧ iv_vms (view g) !! vm = Some i.

Lemma stored_only {A} vm i (m : M A) g :
  (∀ g0, keeps (only vm (eq (Some i)) g0) m) → stored vm i g →
  wp m (λ _, stored vm i) (λ _ g', sm_ok (g_state g')) g.
Proof.
  intros Hk [Hok Hi]. eapply wp_mono; [apply (Hk g), only_refl; [done|by rewrite Hi]|..].
  - intros ? g' Ho. split; [apply Ho|]. pose proof (on_row _ _ _ _ Ho) as Hr.
    by rewrite <- Hr.
  - intros ? g' Ho. apply Ho.
Qed.

(** ** The row says what was reserved *)

(** What the inventory holds for [vm] beside its row. *)
Record held (vm : string) (l : option (string * string)) (p : option Z)
    (t : option (string * string * option string)) (k : option Z) g : Prop := {
  h_ok : sm_ok (g_state g);
  h_ip : iv_ips (view g) !! vm = l;
  h_port : iv_ports (view g) !! vm = p;
  h_tap : iv_taps (view g) !! vm = t;
  h_cid : iv_cids (view g) !! vm = k }.

Lemma held_quiet {A} vm l p t k (m : M A) : quiet m → keeps (held vm l p t k) m.
Proof.
  apply quiet_keeps. unfold core. intros g g' [= H1 _ _ _ _] []. split; rewrite H1; done.
Qed.
Lemma held_same vm l p t k g s' :
  held vm l p t k g → same_view (g_state g) s' → held vm l p t k (g_set_state s' g).
Proof. intros [] [Hok Hv]. split; simpl; rewrite ?Hv; done. Qed.
Hint Extern 3 (keeps (held _ _ _ _ _) _) => apply held_quiet; solve [eauto with celesto nocore] : celesto.

Section held.
Context (vm : string) (l : option (string * string)) (p : option Z)
  (t : option (string * string * option string)) (k : option Z).
Local Abbreviation any := (λ (_ : exn) (_ : mgr St), True).

Lemma held_allocate d g :
  held vm l p t k g →
  wp (on_state (sm_allocate_ip vm d None)) (λ ip g', ∃ d', held vm (Some (ip, d')) p t k g') any g.
Proof.
  intros []. apply wp_on_state. eapply wp_mono; [by apply law_allocate_ip| |done]. cbv beta.
  intros ip s' [(d' & Hl & [Hok Hv])|(_ & _ & Hok & Hv)]; [exists d'|exists d]; split; simpl; rewrite ?Hv; try done.
  simpl. apply lookup_insert_eq.
Qed.
Lemma held_update_tap ip d d' g :
  held vm (Some (ip, d)) p t k g →
  wp (on_state (sm_update_ip_lease_tap vm d')) (λ _, held vm (Some (ip, d')) p t k) any g.
Proof.
  intros [Hok0 H1 H2 H3 H4]. apply wp_on_state. eapply wp_mono; [by apply law_update_tap| |done]. cbv beta.
  intros _ s' [Hok Hv]. split; simpl; rewrite ?Hv; try done. simpl. by rewrite lookup_alter_eq, H1.
Qed.
Lemma held_reserve_tap br g :
  held vm l p t k g →
  wp (on_state (sm_reserve_tap_name vm "bridge" br None)) (λ name, held vm l p (Some (name, "bridge", br)) k) any g.
Proof.
  intros []. apply wp_on_state. eapply wp_mono; [by apply law_reserve_tap_name| |done]. cbv beta.
  intros name s' [[Hl [Hok Hv]]|(_ & _ & Hok & Hv)]; split; simpl; rewrite ?Hv; try done.
  simpl. apply lookup_insert_eq.
Qed.
Lemma held_reserve_port ex g :
  held vm l p t k g → wp (on_state (sm_reserve_ssh_port vm None ex)) (λ q, held vm l (Some q) t k) any g.
Proof.
  intros []. apply wp_on_state. eapply wp_mono; [by apply law_reserve_ssh_port| |done]. cbv beta.
  intros q s' [[Hl [Hok Hv]]|(_ & _ & _ & _ & Hok & Hv)]; split; simpl; rewrite ?Hv; try done.
  simpl. apply lookup_insert_eq.
Qed.
Lemma held_release_port g :
  held vm l p t k g → wp (on_state (sm_release_ssh_port vm)) (λ _, held vm l None t k) any g.
Proof.
  intros []. apply wp_on_state. eapply wp_mono; [by apply law_release_ssh_port| |done]. cbv beta.
  intros _ s' [Hok Hv]. split; simpl; rewrite ?Hv; try done. simpl. apply lookup_delete_eq.
Qed.
Lemma held_reserve_cid rc g :
  held vm l p t k g →
  wp (on_state (sm_reserve_vsock_cid vm rc)) (λ c, held vm l p t (Some c)) (λ _, held vm l p t k) g.
Proof.
  intros Hh. pose proof Hh as []. apply wp_on_state. eapply wp_mono; [by apply law_reserve_vsock_cid|..]; cbv beta.
  - intros c s' [[Hl [Hok Hv]]|(_ & _ & _ & Hok & Hv)]; split; simpl; rewrite ?Hv; try done.
    simpl. apply lookup_insert_eq.
  - intros e s' Hs. by apply held_same.
Qed.
Lemma held_update u g :
  held vm l p t k g →
  wp (on_state (sm_update_vm vm u))
    (λ i g', held vm l p t k g' ∧ stored vm i g'
             ∧ ∃ i0, iv_vms (view g) !! vm = Some i0 ∧ i = apply_vm_update u i0) any g.
Proof.
  intros []. apply wp_on_state. eapply wp_mono; [by apply law_update| |done]. cbv beta.
  intros i s' (Hok & i0 & Hi0 & Hi & Hv). split_and!; [|split; [done|]|by exists i0].
  - split; simpl; rewrite ?Hv; done.
  - simpl. rewrite Hv. simpl. apply lookup_insert_eq.
Qed.
End held.

Lemma held_port_loop vm l p t k fuel ex g :
  held vm l p t k g → wp (ssh_port_loop E fuel vm ex) (λ q, held vm l (Some q) t k) (λ _ _, True) g.
Proof.
  revert p ex g. induction fuel as [|fuel IH]; intros p ex g Hg; cbn [ssh_port_loop]; [done|].
  case_bool_decide; [|done]. apply wp_bind. eapply wp_mono; [by apply (held_reserve_port vm l p)| |done].
  intros q g1 H1. apply wp_bind, wp_tick.
  assert (held vm l (Some q) t k (g_set_calls (S (g_calls g1)) g1)) as H2 by (by destruct H1).
  case_match; [by apply wp_return|]. apply wp_bind.
  eapply wp_mono; [by apply (held_release_port vm l (Some q))| |done]. intros ? g3 H3. eapply IH. exact H3.
Qed.

Lemma held_cid_loop vm l p t k live cands g :
  held vm l p t k g → wp (cid_loop vm live cands) (λ c, held vm l p t (Some c)) (λ _ _, True) g.
Proof.
  revert g. induction cands as [|c cands IH]; intros g Hg; cbn [cid_loop]; [done|].
  case_bool_decide; [by apply IH|]. apply wp_try.
  eapply wp_mono; [by apply (held_reserve_cid vm l p t k)|done|]. intros e g1 H1.
  case_match; [by apply IH|by apply wp_raise].
Qed.

Lemma held_cid_for_backend vm l p t k b req g :
  held vm l p t k g →
  wp (_reserve_vsock_cid_for_backend E vm b req) (λ c, held vm l p t (Some c)) (λ _ _, True) g.
Proof.
  intros Hg. unfold _reserve_vsock_cid_for_backend. cbv zeta.
  assert (∀ rc g1, held vm l p t k g1 →
    wp (on_state (sm_reserve_vsock_cid vm rc)) (λ c, held vm l p t (Some c)) (λ _ _, True) g1) as Hres.
  { intros rc g1 H1. eapply wp_mono; [by apply (held_reserve_cid vm l p t k)|done|done]. }
  case_match; [by apply Hres|]. apply wp_bind, wp_tick.
  assert (held vm l p t k (g_set_calls (S (g_calls g)) g)) as H1 by (by destruct Hg).
  case_bool_decide; [by apply Hres|]. destruct req as [rc|].
  - apply wp_bind. eapply wp_mono; [by apply (Hres (Some rc))| |done]. intros c g2 H2.
    case_bool_decide; [|by apply wp_return]. apply wp_bind. by wp_skip.
  - apply wp_bind, wp_on_state. eapply wp_mono; [apply law_get_vsock_cid, H1| |done]. cbv beta.
    intros o s' [Hs Ho]. assert (held vm l p t k (g_set_state s' (g_set_calls (S (g_calls g)) g))) as H2
      by (by apply held_same).
    destruct o as [c|]; [|by eapply held_cid_loop]. apply wp_return. destruct H2 as [? ? ? ? Hk].
    split; try done. simpl in *. destruct Hs as [_ Hv]. by rewrite Hv.
Qed.

(** The CID of the row is the one reserved for it, when it needs one. *)
Definition needs_cid (c : VMConfig) (b : string) (r : CommChannelKind) : bool :=
  bool_decide (r = vsock)
  || bool_decide (b ∈ [BACKEND_QEMU; BACKEND_FIRECRACKER]) && is_some (vsock_config c).
Definition cid_recorded (c : VMConfig) (b : string) (r : CommChannelKind) (v : Inventory) (i : VMInfo) : Prop :=
  needs_cid c b r = true →
  ∃ x, vsock_config (config i) = Some x ∧ iv_cids v !! vm_id c = Some (guest_cid x).

Lemma vsock_records c b i l p t k r g :
  held (vm_id c) l p t k g → stored (vm_id c) i g → _resolve_control_channel_for_config E c b = Ret r →
  wp (_maybe_enable_vsock E c b i)
    (λ i' g', (∃ k', held (vm_id c) l p t k' g') ∧ stored (vm_id c) i' g' ∧ network i' = network i
              ∧ cid_recorded c b r (view g') i') (λ _ _, True) g.
Proof.
  intros Hh Hi Hr. unfold _maybe_enable_vsock. rewrite Hr. apply wp_bind, wp_lift; [|done]. intros ? [= <-].
  cbv zeta. rewrite <- negb_orb. fold (needs_cid c b r). unfold cid_recorded.
  destruct (needs_cid c b r); simpl; [|apply wp_return; split_and!; [by exists k|done|done|done]].
  apply wp_bind. eapply wp_mono;
    [eapply (wp_conj _ _ (λ _, stored (vm_id c) i) _ (λ _ _, True));
       [by apply (held_cid_for_backend (vm_id c) l p t k)|eapply wp_mono; [apply stored_only; [intros; apply only_reserve_cid_for_backend|exact Hi]|done|done]]
    |cbv beta|done].
  intros cid g1 [H1 [_ Hi1]]. eapply wp_mono; [by apply (held_update (vm_id c) l p t (Some cid))| |done]. cbv beta.
  intros i' g2 (H2 & Hs2 & i0 & Hi0 & ->). rewrite Hi1 in Hi0. injection Hi0 as <-.
  split_and!; [by exists (Some cid)|done|done|]. intros _. eexists. split; [done|]. apply H2.
Qed.

(** The network of a row, and what is reserved for it. *)
Definition network_recorded (c : VMConfig) (b : string) (v : Inventory) (i : VMInfo) : Prop :=
  if String.eqb b BACKEND_VZ then network i = None
  else ∃ r nc, _resolve_control_channel_for_config E c b = Ret r ∧ network i = Some nc
       ∧ cid_recorded c b r v i
       ∧ if _is_bridge_attachment c then
           nc_mode nc = bridge_mode ∧ nc_bridge nc = na_bridge (network_attachment c)
           ∧ guest_ip nc = None ∧ ssh_host_port nc = None
           ∧ iv_taps v !! vm_id c = Some (tap_device nc, "bridge", nc_bridge nc)
         else
           nc_mode nc = nat_mode
           ∧ (if _should_reserve_ssh_forward c r
              then ∃ port, ssh_host_port nc = Some port ∧ iv_ports v !! vm_id c = Some port
              else ssh_host_port nc = None)
           ∧ (if _uses_host_tap_networking c b
              then ∃ ip, guest_ip nc = Some ip ∧ iv_ips v !! vm_id c = Some (ip, tap_device nc)
              else tap_device nc = "usernet").

Lemma bridge_network_fields br dev mac nc :
  bridge_network br dev mac = Ret nc →
  nc_mode nc = bridge_mode ∧ nc_bridge nc = Some br ∧ guest_ip nc = None ∧ ssh_host_port nc = None
  ∧ tap_device nc = dev.
Proof.
  unfold bridge_network, NetworkConfig_model_validate. cbv zeta. intros H. inv_checks H. by injection H as <-.
Qed.
Lemma nat_network_fields ip gw mask dev mac port nc :
  nat_network ip gw mask dev mac port = Ret nc →
  nc_mode nc = nat_mode ∧ guest_ip nc = Some ip ∧ ssh_host_port nc = port ∧ tap_device nc = dev.
Proof.
  unfold nat_network, NetworkConfig_model_validate. cbv zeta. intros H. inv_checks H. by injection H as <-.
Qed.

(** The row gets its network, and a CID when it needs one. *)
Lemma network_then_vsock c b n l p t k r g :
  held (vm_id c) l p t k g → _resolve_control_channel_for_config E c b = Ret r →
  wp (let! i := on_state (sm_update_vm (vm_id c) (u_with_network n)) in _maybe_enable_vsock E c b i)
    (λ i g', (∃ k', held (vm_id c) l p t k' g') ∧ stored (vm_id c) i g' ∧ network i = Some n
             ∧ cid_recorded c b r (view g') i) (λ _ _, True) g.
Proof.
  intros Hh Hr. apply wp_bind. eapply wp_mono; [by apply held_update| |done]. cbv beta.
  intros i g1 (H1 & Hs & i0 & _ & ->).
  eapply wp_mono; [by apply (vsock_records c b _ l p t k r)|by intros i' g2 (? & ? & -> & ?)|done].
Qed.

(** A call that no reservation depends on. *)
Lemma reserved_step {A B} vm l p t k (m : M A) (f : A → M B) Q g :
  keeps (held vm l p t k) m → held vm l p t k g →
  (∀ a g', held vm l p t k g' → wp (f a) Q (λ _ _, True) g') → wp (py_bind m f) Q (λ _ _, True) g.
Proof. intros Hm Hg Hf. apply wp_bind. eapply wp_mono; [by apply Hm|exact Hf|done]. Qed.

Definition recorded_row (c : VMConfig) (b : string) (i : VMInfo) g : Prop :=
  stored (vm_id c) i g ∧ network_recorded c b (view g) i.

Lemma bridge_records c b r l p t k g :
  String.eqb b BACKEND_VZ = false → _is_bridge_attachment c = true →
  _resolve_control_channel_for_config E c b = Ret r → held (vm_id c) l p t k g →
  wp (create_bridge_network E c b r) (recorded_row c b) (λ _ _, True) g.
Proof.
  intros Hb Hbr Hr Hh. unfold create_bridge_network. cbv zeta.
  eapply reserved_step; [eauto with celesto nocore|exact Hh|]. intros ? g1 H1.
  destruct (na_bridge (network_attachment c)) as [br|] eqn:Hna; [|by apply wp_raise].
  apply wp_bind. eapply wp_mono; [by apply (held_reserve_tap (vm_id c) l p t k)| |done]. intros dev g2 H2.
  eapply reserved_step; [eauto with celesto nocore|exact H2|]. intros mac g3 H3.
  apply wp_bind, wp_lift; [|done]. intros nc Hnc. apply bridge_network_fields in Hnc as (F1 & F2 & F3 & F4 & F5).
  apply wp_bind. eapply wp_mono; [by apply held_update| |done]. cbv beta.
  intros i g4 (H4 & Hs4 & i0 & _ & Hi). apply wp_bind.
  eapply wp_mono; [by apply (vsock_records c b i l p (Some (dev, "bridge", Some br)) k r)| |done]. cbv beta.
  intros i' g5 ((k' & H5) & Hs5 & Hn5 & Hc5). apply wp_bind.
  eapply wp_mono; [eapply (quiet_keeps (λ g', g_state g' = g_state g5)); [|eauto with celesto nocore|done]| |done].
  { unfold core. by intros ?? [= -> _ _ _ _]. }
  cbv beta. intros ? g6 Hg6. apply wp_return. unfold recorded_row, stored. rewrite Hg6. split; [done|].
  unfold network_recorded. rewrite Hb, Hbr, Hna. exists r, nc. subst i. split_and!; try done.
  rewrite F2, F5. apply H5.
Qed.

Lemma usernet_records c b r port l p t k g :
  String.eqb b BACKEND_VZ = false → _is_bridge_attachment c = false →
  _uses_host_tap_networking c b = false →
  _resolve_control_channel_for_config E c b = Ret r → held (vm_id c) l p t k g →
  (if _should_reserve_ssh_forward c r then ∃ q, port = Some q ∧ p = Some q else port = None) →
  wp (create_usernet_network E c b port) (recorded_row c b) (λ _ _, True) g.
Proof.
  intros Hb Hbr Hu Hr Hh Hp. unfold create_usernet_network. cbv zeta.
  apply wp_bind, wp_lift; [|done]. intros mac _. apply wp_bind, wp_lift; [|done]. intros [[ip gw] mask] _.
  apply wp_bind, wp_lift; [|done]. intros nc Hnc. apply nat_network_fields in Hnc as (F1 & F2 & F3 & F4).
  eapply wp_mono; [by apply (network_then_vsock c b nc l p t k r)| |done]. cbv beta.
  intros i g1 ((k' & H1) & Hs & Hn & Hc). split; [done|]. unfold network_recorded. rewrite Hb, Hbr, Hu.
  exists r, nc. split_and!; try done. rewrite F3. destruct (_should_reserve_ssh_forward c r); [|done].
  destruct Hp as (q & -> & ->). exists q. split; [done|apply H1].
Qed.

Lemma tap_records c b r port l p t k g :
  String.eqb b BACKEND_VZ = false → _is_bridge_attachment c = false →
  _uses_host_tap_networking c b = true →
  _resolve_control_channel_for_config E c b = Ret r → held (vm_id c) l p t k g →
  (if _should_reserve_ssh_forward c r then ∃ q, port = Some q ∧ p = Some q else port = None) →
  wp (create_tap_network E c b port) (recorded_row c b) (λ _ _, True) g.
Proof.
  intros Hb Hbr Hu Hr Hh Hp. unfold create_tap_network. cbv zeta.
  apply wp_bind. eapply wp_mono; [by apply (held_allocate (vm_id c) l p t k)| |done]. intros ip g1 (d & H1).
  apply wp_bind, wp_lift; [|done]. intros n _. set (dev := "tap" +:+ dec n).
  apply wp_bind. eapply wp_mono; [by apply (held_update_tap (vm_id c) p t k ip d)| |done]. intros ? g2 H2.
  do 5 (apply (reserved_step (vm_id c) (Some (ip, dev)) p t k); [keeps_steps|done|]; intros ? ? ?).
  apply wp_bind, wp_lift; [|done]. intros mac _. apply wp_bind, wp_lift; [|done]. intros nc Hnc.
  apply nat_network_fields in Hnc as (F1 & F2 & F3 & F4).
  eapply wp_mono; [by apply (network_then_vsock c b nc (Some (ip, dev)) p t k r)| |done]. cbv beta.
  intros i g8 ((k' & H8) & Hs & Hn & Hc). split; [done|]. unfold network_recorded. rewrite Hb, Hbr, Hu.
  exists r, nc. split_and!; try done.
  - rewrite F3. destruct (_should_reserve_ssh_forward c r); [|done].
    destruct Hp as (q & -> & ->). exists q. split; [done|apply H8].
  - exists ip. split; [done|]. rewrite F4. apply H8.
Qed.

Lemma create_network_records c b i0 g :
  stored (vm_id c) i0 g → network i0 = None →
  wp (create_network E c b) (recorded_row c b) (λ _ _, True) g.
Proof.
  intros [Hok Hi0] Hn0. unfold create_network. cbv zeta. destruct (String.eqb b BACKEND_VZ) eqn:Hb.
  { apply wp_on_state. eapply wp_mono; [by apply law_get| |done]. cbv beta. intros i s' [[? Hv] Hi].
    simplify_eq. split; [split; [done|simpl; by rewrite Hv]|]. unfold network_recorded. by rewrite Hb. }
  apply wp_bind, wp_lift; [|done]. intros r Hr.
  assert (held (vm_id c) (iv_ips (view g) !! vm_id c) (iv_ports (view g) !! vm_id c)
            (iv_taps (view g) !! vm_id c) (iv_cids (view g) !! vm_id c) g) as Hh by done.
  destruct (_is_bridge_attachment c) eqn:Hbr; [by eapply bridge_records|]. apply wp_bind.
  eapply (wp_mono _ (λ port g', ∃ p, held (vm_id c) (iv_ips (view g) !! vm_id c) p
            (iv_taps (view g) !! vm_id c) (iv_cids (view g) !! vm_id c) g'
            ∧ if _should_reserve_ssh_forward c r then ∃ q, port = Some q ∧ p = Some q else port = None)
            _ (λ _ _, True)); [| |done].
  - destruct (_should_reserve_ssh_forward c r); [|apply wp_return; by eexists]. apply wp_bind.
    eapply wp_mono; [eapply held_port_loop; exact Hh| |done]. intros q g1 H1. apply wp_return.
    exists (Some q). split; [done|]. by exists q.
  - intros port g1 (p & H1 & Hp). destruct (_uses_host_tap_networking c b) eqn:Hu; simpl;
      [by eapply tap_records|by eapply usernet_records].
Qed.

(** The network phase only reads [net_setup] of its configuration. *)
Lemma network_recorded_same c c' b v i :
  same_machine c c' → network_recorded c' b v i → network_recorded c b v i.
Proof.
  intros (Hv & _ & Hg & [= H1 H2 H3 H4 H5]). unfold network_recorded, cid_recorded, needs_cid,
    _resolve_control_channel_for_config, _is_bridge_attachment, _should_reserve_ssh_forward, _uses_host_tap_networking.
  by rewrite Hv, Hg, H1, H2, H3, H4, H5.
Qed.

Lemma effective_config_same c b :
  vm_id (effective_config c b) = vm_id c ∧ backend (effective_config c b) = Some b
  ∧ guest_os (effective_config c b) = guest_os c.
Proof.
  unfold effective_config. cbv zeta. destruct (bool_decide (backend c = Some b)) eqn:Hb;
    [apply bool_decide_eq_true in Hb|]; case_match; simpl; by split_and!.
Qed.

Lemma create_spec config g :
  identifier_ok (vm_id config) = true → e_firmware_link E (vm_id config) = false → sm_ok (g_state g) →
  wp (create E config)
    (λ i g', iv_vms (view g) !! vm_id config = None ∧ stored (vm_id config) i g'
             ∧ ∃ b, _backend_for_config E config = Ret b ∧ names_backend config b i
             ∧ network_recorded (effective_config config b) b (view g') i
             ∧ iv_drop (vm_id config) (view g') = iv_drop (vm_id config) (view g) ∧ rest g' = rest g)
    (λ _, undone (vm_id config) g) g.
Proof using All.
  intros Hid Hlink Hok. assert (moved id g g) as Hm0 by done. unfold create.
  apply wp_bind, wp_lift; [|intros; by left]. intros b Hb.
  destruct (effective_config_same config b) as (Hv & Heb & Heg). cbv zeta. set (c := effective_config config b) in *.
  assert (_backend_for_config E c = Ret b) as Hb' by (by eapply backend_for_config_again).
  apply wp_bind. eapply wp_mono; [eapply (moved_quiet id g); [auto with celesto nocore|done]| |intros e g1 Hm1; by left].
  intros ? g1 Hm1. apply wp_bind. pose proof Hm1 as [Hok1 Hv1 Hr1]. rewrite <- Hv in *.
  assert (∀ g', undone (vm_id c) g1 g' → undone (vm_id c) g g') as Hun.
  { unfold undone. rewrite Hv1. intros g' [[? H2 ?]|[? [? H2 ?]]]; [left|right; split; [done|]];
      split; try congruence; rewrite H2; simpl; by rewrite Hv1. }
  eapply wp_mono; [by apply create_row_spec| |by auto]. intros [c' w] g2 Hc. simpl in Hc.
  eapply wp_mono; [eapply (wp_conj _ _ (recorded_row c' b) _ (λ _ _, True)); [by eapply (network_phase_spec c)|]|..].
  - apply wp_try. destruct Hc as ((Hvc & _) & _ & c1 & _ & Hm).
    eapply wp_mono; [apply (create_network_records c' b (vi_new (vm_id c) CREATED c1))|intros i g3 Hi; exact Hi|].
    + split; [apply Hm|]. rewrite (mv_view _ _ _ Hm), Hvc. simpl. apply lookup_insert_eq.
    + done.
    + intros e g3 _. eapply (wp_mono _ (λ _ _, False) _ (λ _ _, True)); [|done|done]. unfold network_rollback.
      repeat (apply raise_only; intros ??). by apply wp_raise.
  - intros i g3 [Ho [[Hok3 Hi] Hrec]]. destruct Hc as (Hsm & Hn & c1 & _ & Hm2). pose proof Hsm as (Hvc & _).
    rewrite Hv1 in Hn. rewrite Hvc in Hi. split_and!; [done|by split|]. exists b. pose proof (on_row _ _ _ _ Ho) as Hrow.
    rewrite Hi in Hrow. simpl in Hrow. split_and!; [done|..].
    + destruct Hrow as (? & ? & ? & ?). split_and!; congruence.
    + by apply (network_recorded_same c c').
    + rewrite (on_view _ _ _ _ Ho), (mv_view _ _ _ Hm2), Hv1. apply iv_drop_vms. intros. apply delete_insert_eq.
    + transitivity (rest g2); [apply Ho|]. transitivity (rest g1); [apply Hm2|done].
  - intros e g3 [Hu _]. by apply Hun.
Qed.
End create.

(** C3: [create] is all or nothing for the inventory.  When it returns, the name
    was free, the row it returns is stored with status CREATED, no process and
    its resolved backend, and every other computer's entries are untouched; the
    network in the row is exactly what was reserved: the leased address and its
    TAP, or the bridge's reserved TAP, or user-mode networking, the reserved
    SSH port exactly when the channel needs one, and the reserved vsock CID
    when it needs one.  When it raises, the inventory is as it was, or (for a
    name without a row) holds nothing under that name: no row, lease, port, CID
    or TAP reservation of the failed computer stays.  No process or egress
    session is touched.  Conditions: [os.replace] of a disk backup works,
    deleting a stored row does not raise, the firmware folder of the name is
    not a link, and the name is a valid identifier. *)
Theorem create_all_or_nothing (E : menv) {St} `{!StateManager St, !StateManagerLaws St, !StateManagerTotal St}
    (config : VMConfig) (g : mgr St) :
  (∀ n f, e_replace E n f = None) →
  identifier_ok (vm_id config) = true → e_firmware_link E (vm_id config) = false → sm_ok (g_state g) →
  let vm := vm_id config in
  let view g := sm_view (g_state g) in
  let g' := (create E config g).1 in
  sm_ok (g_state g')
  ∧ (g_procs g', g_host g', g_public g', g_unrecorded g')
    = (g_procs g, g_host g, g_public g, g_unrecorded g)
  ∧ match (create E config g).2 with
    | Ret i =>
        iv_vms (view g) !! vm = None ∧ iv_vms (view g') !! vm = Some i
        ∧ status i = CREATED ∧ pid i = None
        ∧ (∃ b, _backend_for_config E config = Ret b ∧ backend (Types.config i) = Some b
                ∧ network_recorded E (effective_config config b) b (view g') i)
        ∧ iv_drop vm (view g') = iv_drop vm (view g)
    | Raise _ =>
        view g' = view g ∨ iv_vms (view g) !! vm = None ∧ view g' = iv_drop vm (view g)
    end.
Proof.
  intros Hr Hid Hl Hok. pose proof (create_spec E Hr config g Hid Hl Hok) as H. cbv zeta. unfold wp in H.
  destruct (create E config g) as [g' [i|e]]; simpl.
  - destruct H as (Hn & [Hok' Hi] & b & Hb & (? & ? & ? & ?) & Hrec & Hv & Hrest). split_and!; try done. by exists b.
  - destruct H as [[? Hv ?]|[? [? Hv ?]]]; split_and!; try done; [by left|by right].
Qed.

(** A Firecracker create whose route cannot be added, and one that works. *)
Definition demo_route_fails : menv := demo_menv (λ op, match op with add_route _ _ => true | _ => false end).
Definition demo_create (E : menv) : mgr mem_mgr * outcome VMInfo :=
  @create E mem_mgr demo_sm (demo_config "dev" "auto" None) demo_mgr.
Lemma create_all_or_nothing_witness :
  raised (demo_create demo_route_fails).2 = true
  ∧ (mm_view (g_state (demo_create demo_route_fails).1) = mm_view (g_state demo_mgr)
     ∨ iv_vms (mm_view (g_state demo_mgr)) !! "dev" = None
       ∧ mm_view (g_state (demo_create demo_route_fails).1) = iv_drop "dev" (mm_view (g_state demo_mgr)))
  ∧ ∃ i b, (demo_create (demo_menv (λ _, false))).2 = Ret i
           ∧ network_recorded (demo_menv (λ _, false)) (effective_config (demo_config "dev" "auto" None) b) b
               (mm_view (g_state (demo_create (demo_menv (λ _, false))).1)) i.
Proof.
  pose proof (@create_all_or_nothing demo_route_fails mem_mgr demo_sm demo_laws demo_total
    (demo_config "dev" "auto" None) demo_mgr (λ _ _, eq_refl) eq_refl eq_refl demo_mgr_ok) as H1.
  pose proof (@create_all_or_nothing (demo_menv (λ _, false)) mem_mgr demo_sm demo_laws demo_total
    (demo_config "dev" "auto" None) demo_mgr (λ _ _, eq_refl) eq_refl eq_refl demo_mgr_ok) as H2.
  cbv zeta in H1, H2. fold (demo_create demo_route_fails) in H1. fold (demo_create (demo_menv (λ _, false))) in H2.
  assert (raised (demo_create demo_route_fails).2 = true) as He1 by (vm_compute; reflexivity).
  assert (raised (demo_create (demo_menv (λ _, false))).2 = false) as He2 by (vm_compute; reflexivity).
  destruct H1 as (_ & _ & H1). destruct H2 as (_ & _ & H2).
  destruct (demo_create demo_route_fails).2; [discriminate He1|].
  destruct (demo_create (demo_menv (λ _, false))).2 as [i|]; [|discriminate He2].
  split; [reflexivity|]. split; [exact H1|]. destruct H2 as (_ & _ & _ & _ & (b & _ & _ & Hb) & _).
  exists i, b. split; [reflexivity|exact Hb].
Defined.

(** * vm.py: the search for an SSH port ends

    [_reserve_available_ssh_port] asks the inventory for a port, tries to bind
    it, and excludes it when another program holds it.  The loop has no bound
    of its own; it ends because every round excludes a port it had not
    excluded before. *)
#[local] Opaque SSH_POOL_SIZE.

Section ports.
Context (E : menv) {St : Type} `{!StateManager St, !StateManagerLaws St}.
Implicit Types g : mgr St.
Local Abbreviation ports g := (iv_ports (sm_view (g_state g))).

(** What a round starts from: a computer without a port, or the first round. *)
Definition round_ok (vm : string) (ex : list Z) g : Prop :=
  sm_ok (g_state g) ∧ (ex = [] ∨ ports g !! vm = None).

Lemma reserve_fresh vm ex g :
  round_ok vm ex g →
  wp (on_state (sm_reserve_ssh_port vm None ex)) (λ p g', sm_ok (g_state g') ∧ (p ∉ ex)) (λ _ _, True) g.
Proof.
  intros [Hok Hex]. apply wp_on_state. eapply wp_mono; [by apply law_reserve_ssh_port| |done]. cbv beta.
  intros p s' [[Hp [Hok' _]]|(_ & _ & Hp & _ & Hok' & _)]; [|done].
  destruct Hex as [->|Hn]; [|congruence]. split; [done|apply not_elem_of_nil].
Qed.

Lemma release_opens vm ex g :
  sm_ok (g_state g) → wp (on_state (sm_release_ssh_port vm)) (λ _, round_ok vm ex) (λ _ _, True) g.
Proof.
  intros Hok. apply wp_on_state. eapply wp_mono; [by apply law_release_ssh_port| |done]. cbv beta.
  intros _ s' [Hok' Hv]. split; [done|]. right. simpl. rewrite Hv. apply lookup_delete_eq.
Qed.

(** With more fuel than ports left to exclude, the fuel does not matter. *)
Lemma ssh_port_loop_fuel vm f1 f2 ex g :
  round_ok vm ex g → SSH_POOL_SIZE - length ex < f1 → SSH_POOL_SIZE - length ex < f2 →
  ssh_port_loop E f1 vm ex g = ssh_port_loop E f2 vm ex g.
Proof.
  revert f2 ex g. induction f1 as [|f1 IH]; intros f2 ex g Hr H1 H2; [lia|].
  destruct f2 as [|f2]; [lia|]. cbn [ssh_port_loop]. case_bool_decide as Hlt; [|done].
  pose proof (reserve_fresh vm ex g Hr) as Hp. unfold wp in Hp. unfold py_bind at 1 4.
  destruct (on_state _ g) as [g1 [p|e]]; [|done]. destruct Hp as [Hok1 Hnew].
  unfold py_bind at 1 3. cbn [tick]. set (g2 := g_set_calls _ g1).
  destruct (e_tcp_free E (g_calls g1) "127.0.0.1" p); [done|].
  pose proof (release_opens vm (p :: ex) g2 Hok1) as Hrel. unfold wp in Hrel. unfold py_bind.
  destruct (on_state _ g2) as [g3 [[]|e]]; [|done]. rewrite bool_decide_false by done.
  apply IH; [done|simpl; lia..].
Qed.

(** A port the search returns was free when it was bound, and is the
    computer's in the inventory. *)
Lemma ssh_port_loop_spec vm fuel ex g0 g :
  sm_ok (g_state g) → ports g !! vm = None → (∀ k, k ≠ vm → ports g !! k = ports g0 !! k) →
  wp (ssh_port_loop E fuel vm ex)
    (λ p g', ports g' !! vm = Some p ∧ (SSH_PORT_START ≤ p ≤ SSH_PORT_END)%Z ∧ (p ∉ ex)
             ∧ (∀ k, k ≠ vm → ports g0 !! k ≠ Some p) ∧ ∃ n, e_tcp_free E n "127.0.0.1" p = true)
    (λ _ _, True) g.
Proof.
  revert ex g. induction fuel as [|fuel IH]; intros ex g Hok Hn Hk; [done|]. cbn [ssh_port_loop].
  case_bool_decide; [|done]. apply wp_bind, wp_on_state.
  eapply wp_mono; [by apply law_reserve_ssh_port| |done]. cbv beta. intros p s' [[Hp _]|Hs]; [congruence|].
  destruct Hs as (_ & Hun & Hpex & Hrange & Hok' & Hv). apply wp_bind, wp_tick.
  lazymatch goal with |- context [e_tcp_free E ?n ?h p] => destruct (e_tcp_free E n h p) eqn:Hfree end.
  - apply wp_return. simpl. rewrite Hv. simpl. rewrite lookup_insert_eq.
    do 3 (split; [done|]). split; [|by eexists].
    intros k Hne Hp. rewrite <- Hk in Hp by done. exact (Hun k p Hp eq_refl).
  - apply wp_bind, wp_on_state. eapply wp_mono; [by apply law_release_ssh_port| |done]. cbv beta. simpl.
    intros _ s2 [Hok2 Hv2]. rewrite bool_decide_false by done.
    eapply wp_mono; [apply IH; simpl; [done|rewrite Hv2; apply lookup_delete_eq|]| |done].
    + intros k Hne. rewrite Hv2, Hv. simpl. rewrite lookup_delete_ne, lookup_insert_ne by done. by apply Hk.
    + intros q g' (H1 & H2 & H3 & H4). do 2 (split; [done|]). split; [set_solver|done].
Qed.
End ports.

(** C26: the port search ends: from any well-formed inventory, fuel beyond one
    round per port of the pool changes nothing, so the loop of the source
    returns or raises after at most that many rounds, whatever programs come
    and go on the host's ports.  A port found for a computer that had none is
    in the pool, was free on the host when it was bound, is held by no other
    computer, and is the computer's in the inventory afterwards. *)
Theorem ssh_port_search_ends (E : menv) {St} `{!StateManager St, !StateManagerLaws St}
    (vm : string) (g : mgr St) (extra : nat) :
  sm_ok (g_state g) →
  ssh_port_loop E (S SSH_POOL_SIZE + extra) vm [] g = _reserve_available_ssh_port E vm g
  ∧ (iv_ports (sm_view (g_state g)) !! vm = None →
     ∀ g' p, _reserve_available_ssh_port E vm g = (g', Ret p) →
       iv_ports (sm_view (g_state g')) !! vm = Some p
       ∧ (SSH_PORT_START ≤ p ≤ SSH_PORT_END)%Z
       ∧ (∀ k, k ≠ vm → iv_ports (sm_view (g_state g)) !! k ≠ Some p)
       ∧ ∃ n, e_tcp_free E n "127.0.0.1" p = true).
Proof.
  intros Hok. split.
  - refine (ssh_port_loop_fuel E vm _ _ [] g _ _ _); [by split; [|left]|simpl length; lia..].
  - intros Hn g' p Hr.
    pose proof (ssh_port_loop_spec E vm (S SSH_POOL_SIZE) [] g g Hok Hn (λ _ _, eq_refl)) as H.
    apply wp_eq with (s' := g') (r := Ret p) in H; [|exact Hr]. tauto.
Qed.

(** Port 2200 is taken on the host: the search returns 2201. *)
Lemma ssh_port_search_ends_witness :
  let run := @_reserve_available_ssh_port (demo_menv (λ _, false)) mem_mgr demo_sm "dev" demo_mgr in
  @ssh_port_loop (demo_menv (λ _, false)) mem_mgr demo_sm (S SSH_POOL_SIZE + 0) "dev" [] demo_mgr = run
  ∧ run.2 = Ret 2201%Z
  ∧ (SSH_PORT_START ≤ 2201 ≤ SSH_PORT_END)%Z.
Proof.
  cbv zeta. destruct (@ssh_port_search_ends (demo_menv (λ _, false)) mem_mgr demo_sm demo_laws "dev" demo_mgr 0
    demo_mgr_ok) as [H1 H2].
  split; [exact H1|].
  assert ((@_reserve_available_ssh_port (demo_menv (λ _, false)) mem_mgr demo_sm "dev" demo_mgr).2 = Ret 2201%Z)
    as H by (vm_compute; reflexivity).
  split; [exact H|]. eapply (H2 eq_refl _ 2201%Z). rewrite <- H. apply surjective_pairing.
Defined.
