(* ===== verification/ManagerPublic.v ===== *)
(** * A public guest never outlives its proxy

    The invariant of a manager's runs: every process of a public-only guest is
    known to the manager, by its row or by a launch it could not record, and
    its proxy is registered and running.  [settled vm] is the state in which
    the proxy of [vm] may be released: none of its processes runs. *)
From S2P Require Import Prelude PyHoare PyDict PyStr StorageBase Types MemoryState StateProtocol.
From S2P Require Import NetworkSettings Channel EgressSession EgressSessionProofs EgressController.
From S2P Require Import ConfigValidation.
From S2P Require Import Backends ManagerState ManagerHelpers ManagerRuntime ManagerCreate ManagerLifecycle.
From S2P Require Import ManagerFrames ManagerCreateProofs.
From stdpp Require Import options.

Section public.
Context (E : menv) {St : Type} `{!StateManager St, !StateManagerLaws St}.
Implicit Types g : mgr St.
Local Abbreviation M := (py (mgr St)).
Local Abbreviation view g := (sm_view (g_state g)).
Local Abbreviation row g k := (iv_vms (sm_view (g_state g)) !! k).

(** ** The invariant *)
Definition ctl g : controller := {| c_host := g_host g; c_sessions := g_public g; c_closed := false |}.

(** What the manager goes by for a computer. *)
Definition tracked (k : string) (i : VMInfo) g : Prop :=
  dget k (g_unrecorded g) = Some i ∨ dget k (g_unrecorded g) = None ∧ row g k = Some i.
Definition proxied (k : string) g : Prop :=
  ∃ s q, dget k (g_public g) = Some s ∧ s_proxy s = Some q ∧ q ∈ h_running (g_host g).
Definition known (p : Z) (k : string) g : Prop :=
  ∃ i, tracked k i g ∧ pid i = Some p ∧ (0 < p)%Z ∧ is_live_status (status i) = true
       ∧ _backend_for_config E (config i) = Ret BACKEND_QEMU.

Record kinv (k : string) g : Prop := {
  k_session : ∀ s, dget k (g_public g) = Some s →
    guest_network s = qemu_slirp ∧ ∃ i, row g k = Some i ∧ is_public (config i) = true;
  k_pending : ∀ j, dget k (g_unrecorded g) = Some j →
    is_live_status (status j) = true ∧ _backend_for_config E (config j) = Ret BACKEND_QEMU
    ∧ is_public (config j) = true ∧ ∃ i, row g k = Some i ∧ config i = config j;
  k_procs : ∀ p, (p, k, true) ∈ g_procs g → proxied k g ∧ known p k g }.

Record guarded g : Prop := {
  gd_ok : sm_ok (g_state g);
  gd_cinv : cinv (ctl g);
  gd_keys : keys_ok (g_unrecorded g);
  gd_all : ∀ k, kinv k g }.

Definition idle (vm : string) g : Prop := ∀ p, (p, vm, true) ∉ g_procs g.
Definition settled (vm : string) g : Prop := guarded g ∧ dget vm (g_unrecorded g) = None ∧ idle vm g.

Lemma tracked_unique k i j g : tracked k i g → tracked k j g → i = j.
Proof. unfold tracked. intros [?|[??]] [?|[??]]; congruence. Qed.

(** ** What preserves it *)

(** The part of the invariant about one computer only looks at that computer. *)
Lemma kinv_frame k g g' :
  dget k (g_public g') = dget k (g_public g) → dget k (g_unrecorded g') = dget k (g_unrecorded g) →
  row g' k = row g k → (proxied k g → proxied k g') →
  (∀ p, (p, k, true) ∈ g_procs g' → (p, k, true) ∈ g_procs g) → kinv k g → kinv k g'.
Proof.
  intros Hp Hu Hr Hx Hpr [K1 K2 K3]. split.
  - intros s. rewrite Hp, Hr. apply K1.
  - intros j. rewrite Hu, Hr. apply K2.
  - intros p Hin. destruct (K3 p (Hpr p Hin)) as [H1 (i & Ht & Hi)]. split; [by apply Hx|].
    exists i. split; [|done]. unfold tracked in *. by rewrite Hu, Hr.
Qed.

(** Same rows, same guests. *)
Definition same_rows g g' : Prop :=
  sm_ok (g_state g') ∧ (∀ k, row g' k = row g k) ∧ rest g' = rest g.
Lemma guarded_same g g' : same_rows g g' → guarded g → guarded g'.
Proof.
  intros (Hok & Hr & [= H1 H2 H3 H4]) [G1 G2 G3 G4].
  split; [done|unfold ctl; rewrite H2, H3; exact G2|by rewrite H4|]. intros k.
  apply (kinv_frame k g); unfold proxied; rewrite ?H1, ?H2, ?H3, ?H4; auto.
Qed.
Lemma settled_same vm g g' : same_rows g g' → settled vm g → settled vm g'.
Proof.
  intros Hs (G1 & G2 & G3). pose proof Hs as (_ & _ & [= H1 _ _ H4]).
  split; [by eapply guarded_same|]. unfold idle. by rewrite H1, H4.
Qed.

(** Calls that keep every row keep whatever only depends on rows and guests. *)
Lemma same_rows_only {A} (J : mgr St → Prop) vm (m : M A) :
  (∀ g g', same_rows g g' → J g → J g') → (∀ g, J g → sm_ok (g_state g)) →
  (∀ P g0, keeps (only vm P g0) m) → keeps J m.
Proof.
  intros HJ Hok Hm g Hg.
  eapply wp_mono; [apply (Hm (eq (row g vm)) g), only_refl; [by apply Hok|done]|..];
    intros ? g' [O1 O2 O3 O4]; (eapply HJ; [|exact Hg]); (split_and!; [done| |done]); intros k;
    (destruct (decide (k = vm)) as [->|Hk]; [done|by eapply iv_drop_row]).
Qed.
Lemma guarded_ok g : guarded g → sm_ok (g_state g).
Proof. by intros []. Qed.
Lemma settled_ok vm g : settled vm g → sm_ok (g_state g).
Proof. by intros [[] _]. Qed.

Lemma guarded_only {A} vm (m : M A) : (∀ P g0, keeps (only vm P g0) m) → keeps guarded m.
Proof. apply same_rows_only; [apply guarded_same|apply guarded_ok]. Qed.
Lemma settled_only {A} k vm (m : M A) : (∀ P g0, keeps (only vm P g0) m) → keeps (settled k) m.
Proof. apply same_rows_only; [apply settled_same|apply settled_ok]. Qed.

(** A change to the row of [vm] that keeps its configuration, while no process
    of it runs. *)
Lemma settled_update vm u : u_config u = None → keeps (settled vm) (on_state (sm_update_vm vm u)).
Proof.
  intros Hu g ([G1 G2 G3 G4] & Hn & Hi). apply wp_on_state.
  eapply wp_mono; [by apply law_update|..]; cbv beta.
  - intros i s' (Hok & i0 & Hi0 & -> & Hv). split_and!; [|done|done]. split; try done. intros k.
    destruct (decide (k = vm)) as [->|Hk].
    + split; [|intros j; simpl; by rewrite Hn|intros p; simpl; by intros []%Hi]. intros s Hs. destruct (G4 vm) as [K1 _ _].
      destruct (K1 s Hs) as (? & j & Hj & ?). split; [done|]. simpl. rewrite Hv. simpl.
      rewrite lookup_insert_eq. eexists. split; [done|]. simpl. rewrite Hu. simpl. congruence.
    + apply (kinv_frame k g); try done. simpl. rewrite Hv. simpl. by rewrite lookup_insert_ne.
  - intros e s' [Hok Hv]. apply (settled_same vm g); [|by split_and!]. split_and!; [done| |done].
    intros k. simpl. by rewrite Hv.
Qed.

(** ** Calls on a session *)
Lemma others_spared vm k s sk q g :
  guarded g → k ≠ vm → dget vm (g_public g) = Some s → dget k (g_public g) = Some sk →
  s_proxy sk = Some q → q ∈ h_running (g_host g) → foreign q (g_host g, s).
Proof.
  intros [_ G2 _ _] Hk Hs Hsk Hq Hrun. pose proof (ci_sinv _ G2 k sk Hsk) as Ik.
  pose proof (ci_sinv _ G2 vm s Hs) as Iv. split_and!; simpl; [done|by apply (i_fresh _ _ Ik)|].
  intros Hp. destruct (i_fresh _ _ Iv q Hp) as [_ Hno]. apply Hno. by exists k, sk.
Qed.

(** A method of the session of [vm] concerns no other computer. *)
Lemma on_public_others {A} vm s (m : SE A) g h' s' r :
  sound m → (∀ q, keeps (foreign q) m) → guarded g → dget vm (g_public g) = Some s →
  m (g_host g, s) = ((h', s'), r) →
  let g' := g_set_egress h' (dset vm s' (g_public g)) g in
  cinv (ctl g') ∧ (∀ k, k ≠ vm → kinv k g') ∧ guest_network s' = guest_network s.
Proof.
  intros Hm Hf Hg Hs Hr g'. pose proof (gd_cinv _ Hg) as G2.
  destruct (Hm _ _ _ _ (ci_sinv _ G2 vm s Hs) Hr) as [Hi Hfr]. split_and!.
  - by apply (entry_inv (ctl g) vm s h' s').
  - intros k Hk. apply (kinv_frame k g); try done; [by apply dget_dset_ne| |by apply Hg].
    intros (sk & q & H1 & H2 & H3). exists sk, q. simpl. rewrite dget_dset_ne by done. split_and!; try done.
    pose proof (keeps_state _ _ _ _ _ (Hf q) (others_spared vm k s sk q g Hg Hk Hs H1 H2 H3) Hr) as (? & _). done.
  - apply Hfr.
Qed.

Lemma on_public_settled {A} vm s (m : SE A) g :
  sound m → (∀ q, keeps (foreign q) m) → settled vm g → dget vm (g_public g) = Some s →
  wp (on_public vm s m)
    (λ a g', settled vm g' ∧ (∀ k, row g' k = row g k)
             ∧ ∃ s', m (g_host g, s) = ((g_host g', s'), Ret a) ∧ g_public g' = dset vm s' (g_public g))
    (λ _, settled vm) g.
Proof.
  intros Hm Hf (Hg & Hn & Hi) Hs. unfold wp, on_public. destruct (m (g_host g, s)) as [[h' s'] r] eqn:Hr.
  destruct (on_public_others vm s m g h' s' r Hm Hf Hg Hs Hr) as (Hc & Hk & Hnet).
  assert (settled vm (g_set_egress h' (dset vm s' (g_public g)) g)) as Hset.
  { split_and!; [|done|done]. destruct Hg as [G1 _ G3 G4]. split; try done. intros k.
    destruct (decide (k = vm)) as [->|]; [|by apply Hk].
    split; [|intros j; simpl; by rewrite Hn|intros p; simpl; by intros []%Hi].
    intros s0. simpl. rewrite dget_dset_eq. intros [= <-]. rewrite Hnet. by apply (k_session _ _ (G4 vm)). }
  destruct r as [a|e]; [|done]. split_and!; [done|done|]. by exists s'.
Qed.

Lemma set_public_settled vm g ss :
  settled vm g → cinv (ctl (g_set_egress (g_host g) ss g)) → (∀ k, k ≠ vm → dget k ss = dget k (g_public g)) →
  (∀ s, dget vm ss = Some s → guest_network s = qemu_slirp ∧ ∃ i, row g vm = Some i ∧ is_public (config i) = true) →
  settled vm (g_set_egress (g_host g) ss g).
Proof.
  intros ([G1 G2 G3 G4] & Hn & Hi) Hc Hk Hv. split_and!; [|done|done]. split; try done. intros k.
  destruct (decide (k = vm)) as [->|Hne].
  - split; [exact Hv|intros j; simpl; by rewrite Hn|intros p; simpl; by intros []%Hi].
  - apply (kinv_frame k g); try done; [by apply Hk|]. intros (s & q & H1 & H2). exists s, q. simpl.
    by rewrite Hk.
Qed.

(** Releasing the proxy of a computer none of whose processes runs. *)
Lemma stop_public_settled vm g :
  settled vm g →
  wp (_stop_public_egress vm)
    (λ _ g', settled vm g' ∧ dget vm (g_public g') = None ∧ ∀ k, row g' k = row g k) (λ _, settled vm) g.
Proof.
  intros Hset. unfold _stop_public_egress. apply wp_bind, wp_get.
  destruct (dget vm (g_public g)) as [s|] eqn:Hs; [|by apply wp_return].
  apply wp_bind. eapply wp_mono; [apply on_public_settled; [apply cleanup_sound|intros; apply foreign_cleanup|done..]| |done].
  intros [] g1 (Hset1 & Hrow & s' & Hd & Hp). apply wp_modify. pose proof Hset1 as (Hg1 & _).
  pose proof (gd_keys _ Hg1). pose proof (ci_keys _ (gd_cinv _ Hg1)) as Hkeys. simpl in Hkeys.
  assert (dget vm (g_public g1) = Some s') as Hs' by (rewrite Hp; apply dget_dset_eq).
  split_and!; [|by apply dget_ddel_eq|done]. apply set_public_settled; [done| | |].
  - apply (remove_inv vm s' (ctl g1)); [apply Hg1|done|by apply delete_state in Hd|].
    destruct (policy_installed s') eqn:Hpi; [|done].
    destruct (i_policy_data _ _ (ci_sinv _ (gd_cinv _ Hg1) vm s' Hs') Hpi) as [Ht _]. simpl in Ht.
    destruct (k_session _ _ (gd_all _ Hg1 vm) s' Hs') as [Hn _]. unfold is_tap in Ht. by rewrite Hn in Ht.
  - intros k Hk. by apply dget_ddel_ne.
  - intros s0. by rewrite dget_ddel_eq.
Qed.

(** ** Processes *)
Definition guests g := (g_state g, g_host g, g_public g, g_unrecorded g).
(** From [g0] to [g] processes may have ended, nothing else. *)
Definition fewer g0 g : Prop := guests g = guests g0 ∧ g_procs g ⊆ g_procs g0.

Lemma guarded_procs g g' :
  guests g' = guests g → (∀ p k, (p, k, true) ∈ g_procs g' → (p, k, true) ∈ g_procs g) → guarded g → guarded g'.
Proof.
  intros [= H1 H2 H3 H4] HX [G1 G2 G3 G4].
  split; [by rewrite H1|unfold ctl; rewrite H2, H3; exact G2|by rewrite H4|].
  intros k. apply (kinv_frame k g); rewrite ?H1, ?H3, ?H4; auto. unfold proxied. by rewrite H2, H3.
Qed.
Lemma guarded_fewer g g' : fewer g g' → guarded g → guarded g'.
Proof. intros [H1 H2]. apply guarded_procs; [done|]. intros p k. apply H2. Qed.
Lemma settled_fewer vm g g' : fewer g g' → settled vm g → settled vm g'.
Proof.
  intros Hf (G1 & G2 & G3). split; [by eapply guarded_fewer|]. destruct Hf as [[= H1 H2 H3 H4] H5].
  rewrite H4. split; [done|]. intros p Hp. by apply (G3 p), H5.
Qed.

Lemma fewer_quiet {A} g0 (m : M A) : quiet m → keeps (fewer g0) m.
Proof.
  apply quiet_keeps. unfold core, fewer, guests. intros g g' [= H1 H2 H3 H4 H5]. by rewrite H1, H2, H3, H4, H5.
Qed.
Lemma fewer_refl g : fewer g g.
Proof. by split. Qed.
Lemma fewer_drop_pid g0 p : keeps (fewer g0) (py_modify (drop_pid p)).
Proof. apply keeps_modify. intros g [H1 H2]. split; [done|]. unfold drop_pid. simpl. set_solver. Qed.
Lemma fewer_running g0 p : keeps (fewer g0) (_is_process_running E p).
Proof. unfold _is_process_running. keeps_steps; first [apply fewer_drop_pid|apply fewer_quiet; apply quiet_tick]. Qed.
Lemma fewer_kill g0 p : keeps (fewer g0) (_kill_process E p).
Proof. unfold _kill_process. keeps_steps; first [apply fewer_drop_pid|apply fewer_quiet; apply quiet_tick]. Qed.
Lemma quiet_unlink_socket o : quiet (_unlink_socket E o : M unit).
Proof. intros c. unfold _unlink_socket. keeps_steps. Qed.
Hint Resolve fewer_running fewer_kill quiet_unlink_socket : celesto.
Lemma fewer_pid_running g0 i : keeps (fewer g0) (pid_running E i).
Proof. unfold pid_running. keeps_steps. Qed.
Lemma fewer_kill_pid g0 i : keeps (fewer g0) (kill_pid E i).
Proof. unfold kill_pid. keeps_steps. Qed.
Hint Extern 3 (keeps (fewer _) _) => apply fewer_quiet; solve [eauto with celesto nocore] : celesto.
Hint Resolve fewer_pid_running fewer_kill_pid : celesto.

Lemma fewer_adapter_stop g0 b i : keeps (fewer g0) (adapter_stop E b i).
Proof. unfold adapter_stop, firecracker_stop, qemu_stop, libkrun_stop, vz_stop. keeps_steps. Qed.

(** A liveness check that says no has seen the process end. *)
Lemma pid_running_false i p g :
  pid i = Some p → (0 < p)%Z →
  wp (pid_running E i) (λ alive g', alive = false → ∀ x, x ∈ g_procs g' → x.1.1 ≠ p) (λ _ _, False) g.
Proof.
  intros Hp Hpos. unfold pid_running. rewrite Hp. replace (p =? 0)%Z with false by lia.
  unfold _is_process_running. wp_steps. apply wp_tick. case_match; [by apply wp_return|].
  apply wp_bind, wp_modify, wp_return. intros _ x. unfold drop_pid. simpl. set_solver.
Qed.

Lemma adapter_stop_spec b i g :
  wp (adapter_stop E b i)
    (λ _ g', fewer g g' ∧ (b = BACKEND_QEMU → ∀ p, pid i = Some p → (0 < p)%Z → ∀ x, x ∈ g_procs g' → x.1.1 ≠ p))
    (λ _, fewer g) g.
Proof.
  eapply wp_mono; [apply (wp_conj _ (λ _, fewer g) (λ _ g', b = BACKEND_QEMU → ∀ p, pid i = Some p → (0 < p)%Z →
    ∀ x, x ∈ g_procs g' → x.1.1 ≠ p) (λ _, fewer g) (λ _ _, True))|by naive_solver..].
  { apply fewer_adapter_stop, fewer_refl. }
  destruct (decide (b = BACKEND_QEMU)) as [->|Hb]; [|apply wp_intro; [by intros ??|done]].
  unfold adapter_stop. simpl. unfold qemu_stop. do 3 (apply wp_bind; wp_skip; [|done]). apply wp_bind.
  apply wp_intro; [|done]. intros g1 alive Hal. destruct alive; [done|].
  eapply wp_mono; [eapply (quiet_keeps (λ g, g_procs g = g_procs g1)); [|apply quiet_unlink_socket|done]| |done].
  { unfold core. by intros ?? [= _ -> _ _ _]. }
  intros ? g2 Hg2 _ p Hp Hpos x. cbv beta in Hg2. rewrite Hg2. intros Hx.
  lazymatch type of Hal with _ ?g0 = _ => pose proof (pid_running_false i p g0 Hp Hpos) as Hw end.
  apply wp_eq with (s' := g1) (r := Ret false) in Hw; [|done]. by apply Hw.
Qed.

(** ** stop *)
Lemma not_live_idle vm i g : guarded g → tracked vm i g → is_live_status (status i) = false → idle vm g.
Proof.
  intros Hg Ht Hl p Hp. destruct (k_procs _ _ (gd_all _ Hg vm) p Hp) as [_ (j & Hj & _ & _ & Hlj & _)].
  rewrite (tracked_unique _ _ _ _ Ht Hj) in Hl. congruence.
Qed.
Lemma not_live_settled vm i g :
  guarded g → tracked vm i g → is_live_status (status i) = false → settled vm g.
Proof.
  intros Hg Ht Hl. split_and!; [done| |by eapply not_live_idle].
  destruct Ht as [Hu|[Hu _]]; [|done]. by destruct (k_pending _ _ (gd_all _ Hg vm) i Hu); congruence.
Qed.

(** Once every process [vm] is tracked by has ended, none of it runs. *)
Lemma stopped_idle vm i g g' b :
  guarded g → tracked vm i g → _backend_for_config E (config i) = Ret b → fewer g g' →
  (b = BACKEND_QEMU → ∀ p, pid i = Some p → (0 < p)%Z → ∀ x, x ∈ g_procs g' → x.1.1 ≠ p) → idle vm g'.
Proof.
  intros Hg Ht Hb [_ Hf] Hq p Hp.
  destruct (k_procs _ _ (gd_all _ Hg vm) p (Hf _ Hp)) as [_ (j & Hj & Hpid & Hpos & _ & Hbj)].
  rewrite <- (tracked_unique _ _ _ _ Ht Hj) in *. rewrite Hb in Hbj. injection Hbj as ->.
  by apply (Hq eq_refl p Hpid Hpos (p, vm, true) Hp).
Qed.

Lemma forget_settled vm g : guarded g → idle vm g → wp (forget_unrecorded vm) (λ _, settled vm) (λ _ _, False) g.
Proof.
  intros [G1 G2 G3 G4] Hi. unfold forget_unrecorded. apply wp_modify. split_and!; [|by apply dget_ddel_eq|done].
  split; [done..|by apply keys_ok_ddel|]. intros k. destruct (decide (k = vm)) as [->|Hk].
  - split; [by apply G4|intros j; simpl; by rewrite dget_ddel_eq|intros p; simpl; by intros []%Hi].
  - apply (kinv_frame k g); try done. by apply dget_ddel_ne.
Qed.

Lemma current_info_spec vm g :
  guarded g → wp (current_info vm) (λ i g', guarded g' ∧ tracked vm i g') (λ _, guarded) g.
Proof.
  intros Hg. unfold current_info. apply wp_bind, wp_get.
  destruct (dget vm (g_unrecorded g)) as [i|] eqn:Hu; [apply wp_return; by split; [|left]|].
  apply wp_on_state. eapply wp_mono; [apply law_get, Hg|..]; cbv beta.
  - intros i s' [[Hok Hv] Hi]. assert (same_rows g (g_set_state s' g)) as Hsr.
    { split_and!; [done| |done]. intros k. simpl. by rewrite Hv. }
    split; [by eapply guarded_same|]. right. simpl. by rewrite Hv.
  - intros e s' [[Hok Hv] _]. eapply guarded_same; [|done]. split_and!; [done| |done]. intros k. simpl. by rewrite Hv.
Qed.

Lemma stop_public_then {A} vm (k : M A) Q X g :
  settled vm g →
  (∀ g', settled vm g' → dget vm (g_public g') = None → wp k Q X g') → (∀ e g', settled vm g' → X e g') →
  wp (do! _stop_public_egress vm in k) Q X g.
Proof.
  intros Hs Hk HX. apply wp_bind. eapply wp_mono; [by apply stop_public_settled| |done].
  intros ? g' (H1 & H2 & _). by apply Hk.
Qed.

Lemma stop_claimed_spec vm g :
  guarded g → wp (_stop_claimed E vm) (λ _, settled vm) (λ _, guarded) g.
Proof.
  intros Hg. unfold _stop_claimed. apply wp_bind. eapply wp_mono; [by apply current_info_spec| |done].
  intros i g1 [Hg1 Ht]. destruct (is_live_status (status i)) eqn:Hl; simpl;
    [|apply wp_return; by eapply not_live_settled].
  apply wp_bind, wp_lift; [|done]. intros b Hb. apply wp_bind, wp_lift; [|done]. intros ? _.
  apply wp_bind. eapply wp_mono; [apply adapter_stop_spec| |intros e g2 Hf; exact (guarded_fewer _ _ Hf Hg1)].
  intros ? g2 [Hf Hq]. apply wp_bind.
  eapply wp_mono; [apply forget_settled; [exact (guarded_fewer _ _ Hf Hg1)|exact (stopped_idle vm i g1 g2 b Hg1 Ht Hb Hf Hq)]| |done].
  intros ? g3 Hs. apply stop_public_then; [done| |by intros e g' [? _]]. intros g4 Hs4 _.
  eapply wp_mono; [by apply settled_update|done|by intros e g' [? _]].
Qed.

(** ** The checks before a launch *)
Definition guarded_at g0 g : Prop :=
  guarded g ∧ (∀ k, row g k = row g0 k) ∧ g_unrecorded g = g_unrecorded g0.

Lemma guarded_at_only {A} vm g0 (m : M A) : (∀ P g0, keeps (only vm P g0) m) → keeps (guarded_at g0) m.
Proof.
  apply same_rows_only; [|intros g [? _]; by apply guarded_ok].
  intros g g' Hs (H1 & H2 & H3). split_and!; [by eapply guarded_same| |].
  - intros k. destruct Hs as (_ & -> & _). apply H2.
  - destruct Hs as (_ & _ & [= _ _ _ ->]). done.
Qed.
Lemma guarded_at_quiet {A} g0 (m : M A) : quiet m → keeps (guarded_at g0) m.
Proof. intros Hq. apply (guarded_at_only ""). intros P g1. by apply only_quiet. Qed.
Hint Extern 3 (keeps (guarded_at _) _) => apply guarded_at_quiet; solve [eauto with celesto nocore] : celesto.
Hint Extern 4 (keeps (guarded_at _) (on_state (sm_reserve_tap_name ?vm _ _ _))) =>
  apply (guarded_at_only vm); intros; apply only_reserve_tap : celesto.
Hint Extern 4 (keeps (guarded_at _) (on_state (sm_list_vms _))) =>
  apply (guarded_at_only ""); intros; apply only_list : celesto.

Lemma require_ready_same w :
  s_proxy (require_ready w).1.2 = s_proxy w.2 ∧ h_running (require_ready w).1.1 = h_running w.1.
Proof. unfold require_ready. repeat case_match; by destruct w. Qed.

Lemma guarded_at_require_ready g0 vm s g :
  dget vm (g_public g) = Some s → guarded_at g0 g →
  wp (on_public vm s require_ready) (λ _, guarded_at g0) (λ _, guarded_at g0) g.
Proof.
  intros Hs (Hg & Hr & Hu). unfold wp, on_public. pose proof (require_ready_same (g_host g, s)) as [Hp Hh].
  destruct (require_ready (g_host g, s)) as [[h' s'] r] eqn:Hm. simpl in Hp, Hh.
  assert (sound require_ready) as Hsound.
  { intros R w w' r' Hi Hc. destruct (require_ready_ok R w w' r' Hi Hc) as (? & ? & _). done. }
  destruct (on_public_others vm s _ g h' s' r Hsound foreign_require_ready Hg Hs Hm) as (Hc & Hk & Hnet).
  assert (guarded_at g0 (g_set_egress h' (dset vm s' (g_public g)) g)); [|by destruct r].
  split_and!; [|done|done]. destruct Hg as [G1 _ G3 G4]. split; try done. intros k.
  destruct (decide (k = vm)) as [->|]; [|by apply Hk]. destruct (G4 vm) as [K1 K2 K3]. split.
  - intros s0. simpl. rewrite dget_dset_eq. intros [= <-]. rewrite Hnet. by apply K1.
  - exact K2.
  - intros p Hin. destruct (K3 p Hin) as [(s1 & q & H1 & H2 & H3) H4]. split; [|exact H4].
    exists s', q. simpl. rewrite dget_dset_eq, Hp, Hh. by simplify_eq.
Qed.

Lemma guarded_at_bridge g0 vm nc c b : keeps (guarded_at g0) (_ensure_bridge_ready E vm nc c b).
Proof. unfold _ensure_bridge_ready. cbv zeta. keeps_steps. Qed.
Lemma quiet_repair i nc b : quiet (repair_tap_network E i nc b : M unit).
Proof. intros c. unfold repair_tap_network. keeps_steps. Qed.
Lemma quiet_port_free h p : quiet (port_free E h p : M bool).
Proof. intros c. unfold port_free. keeps_steps. Qed.
Hint Resolve guarded_at_bridge quiet_repair quiet_port_free : celesto.
Lemma quiet_slirp_ports i : quiet (_check_qemu_slirp_host_forward_ports E i : M unit).
Proof. intros c. unfold _check_qemu_slirp_host_forward_ports. cbv zeta. keeps_steps. Qed.
Lemma guarded_at_macos g0 vm : keeps (guarded_at g0) (_enforce_macos_concurrency_limit vm).
Proof. unfold _enforce_macos_concurrency_limit. cbv zeta. keeps_steps. Qed.
Hint Resolve quiet_slirp_ports guarded_at_macos : celesto.

Lemma guarded_at_connectivity g0 i : keeps (guarded_at g0) (ensure_network_connectivity E i).
Proof.
  unfold ensure_network_connectivity. destruct (network i) as [nc|]; [|apply keeps_return]. cbv zeta.
  apply keeps_bind; [auto with celesto|]. intros b. apply keeps_bind; [auto with celesto|]. intros _.
  destruct (is_public (config i)); [|keeps_steps]. destruct (is_live_status (status i)); [|apply keeps_return].
  intros g Hg. apply wp_bind, wp_get. destruct (dget (vi_vm_id i) (g_public g)) as [s|] eqn:Hs; [|done].
  apply wp_bind. eapply wp_mono; [by apply guarded_at_require_ready|intros ? g1 Hg1; by apply wp_return|done].
Qed.
Hint Resolve guarded_at_connectivity : celesto.

Lemma parse_policy_mode st st' : parse_network_policy st = Ret st' → is_mode st' = is_mode st.
Proof.
  unfold parse_network_policy, InternetSettings_model_validate.
  destruct (normalize_cidrs _) as [cidrs|]; [|done]. simpl. destruct (normalize_domains _) as [doms|]; [|done]. simpl.
  destruct (normalize_methods _) as [ms|]; [|done]. simpl. unfold validate_policy.
  repeat (case_match; try done); intros; by simplify_eq.
Qed.

Lemma public_needs_qemu c b :
  is_public c = true → _validate_network_policy E c b = Ret tt → b = BACKEND_QEMU.
Proof.
  unfold is_public, _validate_network_policy. destruct (internet_settings c) as [st|]; [|done].
  case_bool_decide as Hm; [|done]. intros _. destruct (parse_network_policy st) as [st'|] eqn:Hp; [|done].
  apply parse_policy_mode in Hp. rewrite Hm in Hp. cbn [mbind outcome_bind].
  unfold validate_network_policy_options, is_allow_all_domains, has_explicit_restrictions. rewrite Hp.
  cbn [negb andb]. rewrite (bool_decide_eq_true_2 (Some public_mode = Some public_mode)) by done.
  rewrite !guard_then, guard_done.
  intros (_ & _ & _ & H). apply orb_false_iff in H as [[H _]%orb_false_iff _].
  by apply negb_false_iff, String.eqb_eq in H.
Qed.

Lemma start_checks_spec vm i g0 g :
  guarded_at g0 g →
  wp (start_checks E vm i)
    (λ b g', guarded_at g0 g' ∧ is_live_status (status i) = false ∧ _backend_for_config E (config i) = Ret b
             ∧ (is_public (config i) = true → b = BACKEND_QEMU))
    (λ _, guarded_at g0) g.
Proof.
  intros Hg. unfold start_checks. case_bool_decide as Hst; simpl; [|done].
  destruct (_ && _); [done|]. apply wp_bind, wp_lift; [|by intros]. intros _ _.
  apply wp_bind, wp_lift; [|by intros]. intros b Hb. apply wp_bind, wp_lift; [|by intros]. intros [] Hpol.
  eapply wp_mono; [apply (wp_conj _ (λ _, guarded_at g0) (λ b' _, b' = b) (λ _, guarded_at g0) (λ _ _, True))|..].
  - eapply (_ : keeps (guarded_at g0) _); exact Hg.
  - by wp_walk.
  - intros b' g' [Hg' ->]. split_and!; [done| |done|by intros; eapply public_needs_qemu].
    rewrite !elem_of_cons, elem_of_nil in Hst. destruct Hst as [->|[->|[]]]; done.
  - by intros e g' [? _].
  Unshelve. keeps_steps.
Qed.

(** ** start *)
(** The row of [vm] has configuration [c]. *)
Definition has_config (vm : string) (c : VMConfig) g : Prop := ∃ i, row g vm = Some i ∧ config i = c.

Lemma update_network_spec vm n c g :
  settled vm g → has_config vm c g →
  wp (on_state (sm_update_vm vm (u_with_network n)))
    (λ i g', settled vm g' ∧ row g' vm = Some i ∧ config i = c ∧ vi_vm_id i = vm
             ∧ g_public g' = g_public g ∧ g_host g' = g_host g)
    (λ _, settled vm) g.
Proof.
  intros Hs (i0 & Hi0 & Hc).
  eapply wp_mono; [apply (wp_conj _ (λ _, settled vm) (λ i g', row g' vm = Some i ∧ config i = c ∧ vi_vm_id i = vm
     ∧ g_public g' = g_public g ∧ g_host g' = g_host g) (λ _, settled vm) (λ _ _, True))|naive_solver..].
  - by apply settled_update.
  - apply wp_on_state. eapply wp_mono; [apply law_update; by eapply settled_ok| |done]. cbv beta.
    intros i s' (Hok & j & Hj & -> & Hv). simpl. rewrite Hv. simpl. rewrite lookup_insert_eq. simplify_eq.
    split_and!; try done. simpl. by eapply ok_ids; [by eapply settled_ok|].
Qed.

Lemma prepare_public_spec vm i g :
  settled vm g → row g vm = Some i →
  wp (_prepare_public_egress i)
    (λ i' g', settled vm g' ∧ has_config vm (config i) g' ∧ config i' = config i ∧ vi_vm_id i' = vm
              ∧ (is_public (config i) = true → proxied vm g'))
    (λ _, settled vm) g.
Proof.
  intros Hs Hi. assert (vi_vm_id i = vm) as Hid by (by eapply ok_ids; [by eapply settled_ok|]).
  unfold _prepare_public_egress. rewrite Hid. destruct (is_public (config i)) eqn:Hpub; simpl.
  2:{ apply wp_return. split_and!; try done. by exists i. }
  apply wp_bind, wp_get. pose proof Hs as (_ & Hn & _). rewrite Hn. simpl. apply wp_bind.
  eapply wp_mono; [by apply stop_public_settled| |done]. intros ? g1 (Hs1 & Hp1 & Hr1).
  destruct (network i) as [nc|]; [|by apply wp_raise].
  apply wp_bind, wp_lift; [|by intros]. intros s Hnew. apply wp_bind, wp_modify. apply wp_bind.
  set (g2 := g_set_egress (g_host g1) (dset vm s (g_public g1)) g1). pose proof Hs1 as ([_ Hc1 _ _] & _).
  assert (guest_network s = qemu_slirp) as Hsl.
  { unfold new_session in Hnew. destruct (String.eqb vm ""); by simplify_eq. }
  assert (settled vm g2) as Hs2.
  { apply set_public_settled; [done| | |].
    - pose proof (controller_create_inv vm qemu_slirp nc (ctl g1)) as Hcc.
      unfold controller_create, dmem in Hcc. simpl in Hcc. rewrite Hp1 in Hcc. simpl in Hcc. rewrite Hnew in Hcc.
      by eapply Hcc.
    - intros k Hk. by apply dget_dset_ne.
    - intros s0. rewrite dget_dset_eq. intros [= <-]. split; [done|]. rewrite Hr1. by exists i. }
  eapply wp_mono; [apply (on_public_settled vm s prepare)| |done].
  { intros R w w' r Hi' Hc'. destruct (prepare_ok R w w' r Hi' Hc') as (? & ? & _). done. }
  { intros q. apply foreign_prepare. }
  { done. } { apply dget_dset_eq. }
  intros nc' g3 (Hs3 & Hr3 & s' & Hprep & Hpub3).
  pose proof (ci_sinv _ (gd_cinv _ (proj1 Hs2)) vm s ltac:(apply dget_dset_eq)) as Hsi.
  destruct (prepare_ok _ _ _ _ Hsi Hprep) as (_ & _ & Harm). destruct (Harm nc' eq_refl) as (_ & _ & (q & Hq & Hrun) & _).
  eapply wp_mono; [apply (update_network_spec vm nc' (config i)); [done|]| |done].
  { exists i. split; [|done]. rewrite Hr3. simpl. by rewrite Hr1. }
  intros i' g4 (Hs4 & Hi4 & Hc4 & Hid4 & Hp4 & Hh4). split_and!; try done; [by exists i'|]. intros _.
  exists s', q. rewrite Hp4, Hh4, Hpub3, dget_dset_eq. done.
Qed.

(** From [g0] to [g] one process of [i] was spawned. *)
Definition spawned (p : Z) (i : VMInfo) g0 g : Prop :=
  guests g = guests g0 ∧ g_procs g = {[(p, vi_vm_id i, is_public (config i))]} ∪ g_procs g0.

Lemma spawn_spec i g :
  wp (spawn E i) (λ p g', (0 < p)%Z ∧ spawned p i g g') (λ _, fewer g) g.
Proof. unfold spawn. wp_steps. apply wp_tick. case_match; [|done]. apply wp_bind, wp_modify, wp_return. done. Qed.


(** From [g0] to [g] no process of a public-only guest was added. *)
Definition no_new_public g0 g : Prop :=
  guests g = guests g0 ∧ ∀ p k, (p, k, true) ∈ g_procs g → (p, k, true) ∈ g_procs g0.

Lemma settled_no_new vm g g' : no_new_public g g' → settled vm g → settled vm g'.
Proof.
  intros [Hg Hp] (G1 & G2 & G3). pose proof Hg as [= _ _ _ Hu].
  split; [by apply (guarded_procs g)|]. rewrite Hu. split; [done|]. intros p Hin. by apply (G3 p), Hp.
Qed.
Lemma no_new_quiet {A} g0 (m : M A) : quiet m → keeps (no_new_public g0) m.
Proof.
  apply quiet_keeps. unfold core, no_new_public, guests. intros g g' [= H1 H2 H3 H4 H5].
  by rewrite H1, H2, H3, H4, H5.
Qed.
Lemma no_new_drop g0 p : keeps (no_new_public g0) (py_modify (drop_pid p)).
Proof. apply keeps_modify. intros g [H1 H2]. split; [done|]. unfold drop_pid. simpl. set_solver. Qed.
Lemma no_new_kill g0 p : keeps (no_new_public g0) (_kill_process E p).
Proof. unfold _kill_process. keeps_steps; first [apply no_new_drop|apply no_new_quiet; apply quiet_tick]. Qed.
Lemma quiet_boot i : quiet (boot E i : M unit).
Proof. intros c. unfold boot. keeps_steps. Qed.
Lemma no_new_spawn g0 i : is_public (config i) = false → keeps (no_new_public g0) (spawn E i).
Proof.
  intros Hpub g [H1 H2]. unfold spawn. apply wp_bind, wp_tick. case_match; [|by apply wp_raise].
  apply wp_bind, wp_modify, wp_return. split; [done|]. intros p' k. simpl. rewrite Hpub. set_solver.
Qed.
Lemma no_new_record g0 vm j : dget vm (g_public g0) = None → keeps (no_new_public g0) (record_unrecorded vm j).
Proof.
  intros Hn. apply keeps_modify. intros g [H1 H2]. pose proof H1 as [= _ _ Hp _]. rewrite Hp, Hn. done.
Qed.
Hint Resolve quiet_boot no_new_drop no_new_kill : celesto.
Hint Extern 3 (keeps (no_new_public _) _) => apply no_new_quiet; solve [eauto with celesto nocore] : celesto.
Hint Extern 3 (keeps (no_new_public _) (spawn _ _)) => apply no_new_spawn; assumption : celesto.
Hint Extern 3 (keeps (no_new_public _) (record_unrecorded _ _)) => apply no_new_record; assumption : celesto.

(** Launching a guest whose network is not public-only. *)
Lemma plain_start_spec b i g0 :
  is_public (config i) = false → dget (vi_vm_id i) (g_public g0) = None →
  keeps (no_new_public g0) (adapter_start E b i).
Proof.
  intros Hpub Hn. unfold adapter_start, firecracker_start, qemu_start, _start_qemu, libkrun_start, vz_start.
  keeps_steps.
Qed.

(** A launch in progress: the one public process of [vm] is pending. *)
Definition pending (vm : string) (j : VMInfo) (p : Z) g : Prop :=
  guarded g ∧ dget vm (g_unrecorded g) = Some j ∧ ∀ p', (p', vm, true) ∈ g_procs g → p' = p.

Lemma pending_fewer vm j p g g' : fewer g g' → pending vm j p g → pending vm j p g'.
Proof.
  intros Hf (G1 & G2 & G3). pose proof Hf as [[= _ _ _ Hu] Hp]. split; [exact (guarded_fewer _ _ Hf G1)|].
  rewrite Hu. split; [done|]. intros p' Hin. by apply G3, Hp.
Qed.

(** The process is registered the moment it has been spawned. *)
Lemma record_pending vm p j i g g1 :
  settled vm g → has_config vm (config i) g → proxied vm g → is_public (config i) = true → vi_vm_id i = vm →
  _backend_for_config E (config i) = Ret BACKEND_QEMU → (0 < p)%Z → pid j = Some p →
  is_live_status (status j) = true → config j = config i → spawned p i g g1 →
  wp (record_unrecorded vm j) (λ _ g', pending vm j p g' ∧ proxied vm g') (λ _ _, False) g1.
Proof.
  intros ([G1 G2 G3 G4] & Hn & Hi) Hc Hpx Hpub Hid Hb Hpos Hpid Hst Hcj [[= H1 H2 H3 H4] Hpr].
  unfold record_unrecorded. apply wp_modify. pose proof Hpx as (s & q & Hs & _). rewrite H3, Hs. simpl.
  assert (∀ p' k, (p', k, true) ∈ g_procs g1 → (p', k, true) ∈ g_procs g ∨ p' = p ∧ k = vm) as Hin.
  { intros p' k. rewrite Hpr, Hid, Hpub, elem_of_union, elem_of_singleton. intros [[= -> ->]|?]; [by right|by left]. }
  assert (proxied vm (g_set_unrecorded (dset vm j (g_unrecorded g1)) g1)) as Hpx1.
  { unfold proxied. simpl. by rewrite H2, H3. }
  split; [|done].
  split_and!; [|apply dget_dset_eq|intros p' [Hp|[-> _]]%Hin; [by destruct (Hi p')|done]].
  split; simpl; rewrite ?H1, ?H4; try done.
  - unfold ctl in *. simpl. by rewrite H2, H3.
  - by apply keys_ok_dset.
  - intros k. destruct (decide (k = vm)) as [->|Hk].
    + split; simpl; rewrite ?H1, ?H3, ?H4; [by apply (k_session _ _ (G4 vm))| |].
      * intros j'. rewrite dget_dset_eq. intros [= <-]. by rewrite Hcj.
      * intros p' [Hp|[-> _]]%Hin; [by destruct (Hi p')|]. split; [done|]. exists j. rewrite Hcj.
        split_and!; try done. left. apply dget_dset_eq.
    + apply (kinv_frame k g); simpl; rewrite ?H1, ?H3, ?H4; try done; [by apply dget_dset_ne| |].
      * unfold proxied. simpl. by rewrite H2, H3.
      * intros p' [?|[_ ?]]%Hin; done.
Qed.

(** The pending launch is described anew. *)
Lemma record_again vm p j j' g :
  pending vm j p g → proxied vm g → (0 < p)%Z → pid j' = Some p → is_live_status (status j') = true →
  config j' = config j → wp (record_unrecorded vm j') (λ _, pending vm j' p) (λ _ _, False) g.
Proof.
  intros ([G1 G2 G3 G4] & Hu & Hone) (s & q & Hs & Hq) Hpos Hpid Hst Hc.
  unfold record_unrecorded. apply wp_modify. rewrite Hs. simpl.
  split_and!; [|apply dget_dset_eq|exact Hone]. split; simpl; [done|exact G2|by apply keys_ok_dset|].
  intros k. destruct (decide (k = vm)) as [->|Hk].
  - destruct (G4 vm) as [K1 K2 K3]. destruct (K2 j Hu) as (_ & Hb & Hpub & Hrow). split; simpl.
    + exact K1.
    + intros j0. rewrite dget_dset_eq. intros [= <-]. by rewrite Hc.
    + intros p' Hp. destruct (K3 p' Hp) as [Hx _]. rewrite (Hone p' Hp). split; [exact Hx|]. exists j'. rewrite Hc.
      split_and!; try done. left. apply dget_dset_eq.
  - apply (kinv_frame k g); try done. by apply dget_dset_ne.
Qed.

(** What the rollback of a start may find. *)
Definition abort_ok (vm b : string) g : Prop :=
  guarded g ∧ match dget vm (g_unrecorded g) with
              | None => idle vm g
              | Some j => _backend_for_config E (config j) = Ret b
              end.
Lemma settled_abort vm b g : settled vm g → abort_ok vm b g.
Proof. intros (H1 & H2 & H3). split; [done|]. by rewrite H2. Qed.

Lemma start_rollback_spec {A} vm b e g :
  abort_ok vm b g → wp (start_rollback E vm b e : M A) (λ _ _, False) (λ _, guarded) g.
Proof.
  intros [Hg Ha]. unfold start_rollback. apply wp_bind, wp_get. apply wp_bind.
  eapply (wp_mono _ (λ _, settled vm) _ (λ _, guarded)); [| |done].
  - destruct (dget vm (g_unrecorded g)) as [j|] eqn:Hu; [|by apply wp_return].
    apply wp_bind. eapply wp_mono; [apply adapter_stop_spec| |intros ? g1 Hf; exact (guarded_fewer _ _ Hf Hg)].
    intros ? g1 [Hf Hq]. eapply wp_mono; [apply forget_settled| |done].
    + exact (guarded_fewer _ _ Hf Hg).
    + exact (stopped_idle vm j g g1 b Hg (or_introl Hu) Ha Hf Hq).
    + done.
  - intros ? g1 Hs. apply stop_public_then; [done| |by intros ?? [? _]]. intros g2 Hs2 _.
    apply wp_bind. eapply wp_mono; [by apply settled_update|intros ? g3 [? _]; by apply wp_raise|by intros ?? [? _]].
Qed.

(** The launch of a guest whose network is not public-only. *)
Lemma finish_plain vm b l j g :
  settled vm g → (∀ i, row g vm = Some i → is_public (config i) = false) →
  wp (do! record_unrecorded vm j in
      let! i := on_state (sm_update_vm vm (u_launched l)) in
      do! forget_unrecorded vm in (py_return i : M VMInfo))
    (λ _, guarded) (λ _, abort_ok vm b) g.
Proof.
  intros Hs Hpl. apply wp_bind. unfold record_unrecorded. apply wp_modify.
  destruct (dget vm (g_public g)) as [s|] eqn:Hp; simpl.
  { destruct (k_session _ _ (gd_all _ (proj1 Hs) vm) s Hp) as (_ & i & Hi & Hpub). rewrite (Hpl i Hi) in Hpub. done. }
  apply wp_bind. eapply wp_mono; [by apply settled_update| |intros; by apply settled_abort].
  intros i g1 Hs1. apply wp_bind. pose proof Hs1 as (Hg1 & _ & Hi1).
  eapply wp_mono; [by apply forget_settled|intros ? g2 [? _]; by apply wp_return|done].
Qed.

Lemma pending_quiet {A} vm j p (m : M A) : quiet m → keeps (λ g, pending vm j p g ∧ proxied vm g) m.
Proof.
  intros Hm g [Hp Hx]. eapply wp_mono; [eapply (quiet_keeps (λ g', core g' = core g)); [|exact Hm|done]|..].
  1: by intros g1 g2 ->.
  all: cbv beta; intros ? g' [= H1 H2 H3 H4 H5];
    (split; [apply (pending_fewer vm j p g); [|done]; by split; [unfold guests; rewrite H1, H3, H4, H5|rewrite H2]
            |unfold proxied; by rewrite H3, H4]).
Qed.

(** Launching a public-only guest: whatever fails after the process exists,
    the manager still knows it, and its proxy runs. *)
Lemma public_start_spec vm i g :
  settled vm g → has_config vm (config i) g → proxied vm g → is_public (config i) = true → vi_vm_id i = vm →
  _backend_for_config E (config i) = Ret BACKEND_QEMU →
  wp (qemu_start E i)
    (λ l g', (0 < l_pid l)%Z ∧ l_status l = RUNNING
             ∧ ∃ j, pending vm j (l_pid l) g' ∧ proxied vm g' ∧ config j = config i)
    (λ _, abort_ok vm BACKEND_QEMU) g.
Proof.
  intros Hs Hc Hpx Hpub Hid Hb. unfold qemu_start, _start_qemu. apply wp_bind, wp_bind.
  eapply wp_mono; [apply spawn_spec| |intros ? g1 Hf; by apply settled_abort, (settled_fewer vm g)].
  intros p g1 [Hpos Hsp]. apply wp_bind. set (j := spawned_info p _ i). rewrite Hid.
  eapply wp_mono; [by apply (record_pending vm p j i g g1)| |by intros ?? []]. cbv beta.
  intros ? g2 Hp2. apply wp_return, wp_try.
  assert (∀ (e : exn) g', pending vm j p g' → abort_ok vm BACKEND_QEMU g') as Hab.
  { intros e g' (Hg & Hu & _). split; [done|]. by rewrite Hu. }
  eapply (wp_mono _ (λ l g', (0 < l_pid l)%Z ∧ l_status l = RUNNING
             ∧ ∃ j, pending vm j (l_pid l) g' ∧ proxied vm g' ∧ config j = config i)
             _ (λ _ g', pending vm j p g' ∧ proxied vm g')); [|done|].
  - apply wp_bind. eapply wp_mono; [apply (pending_quiet vm j p _ (quiet_boot i) g2 Hp2)| |done].
    intros ? g3 [Hp3 Hx3]. apply wp_return. split_and!; [done|done|]. by exists j.
  - intros e g3 [Hp3 _]. apply wp_bind.
    eapply wp_mono; [apply fewer_kill, fewer_refl|..]; cbv beta.
    + intros ? g4 Hf. apply wp_raise. eapply Hab; [exact e|]. by eapply pending_fewer.
    + intros e' g4 Hf. eapply Hab; [exact e|]. by eapply pending_fewer.
Qed.

Lemma finish_pending vm l i g :
  pending vm (launched_info l i) (l_pid l) g → l_status l = RUNNING → (0 < l_pid l)%Z →
  wp (let! i := on_state (sm_update_vm vm (u_launched l)) in
      do! forget_unrecorded vm in (py_return i : M VMInfo))
    (λ _, guarded) (λ _, abort_ok vm BACKEND_QEMU) g.
Proof.
  intros ([G1 G2 G3 G4] & Hu & Hone) Hst Hpos. apply wp_bind, wp_on_state.
  destruct (k_pending _ _ (G4 vm) _ Hu) as (Hlive & Hb & Hpub & i1 & Hi1 & Hc1). simpl in Hb, Hpub, Hc1.
  eapply wp_mono; [by apply law_update|..]; cbv beta.
  - intros i' s' (Hok & i0 & Hi0 & -> & Hv). simplify_eq. apply wp_bind. unfold forget_unrecorded.
    apply wp_modify, wp_return. split; simpl; [done|exact G2|by apply keys_ok_ddel|]. intros k.
    destruct (decide (k = vm)) as [->|Hk].
    + destruct (G4 vm) as [K1 _ K3].
      split; simpl; rewrite ?Hv; simpl; rewrite ?lookup_insert_eq, ?dget_ddel_eq by done; [|done|].
      * intros s Hs. split; [by apply (K1 s Hs)|]. eexists. split; [done|]. simpl. congruence.
      * intros p Hp. rewrite (Hone p Hp) in *. split; [by apply (K3 _ Hp)|]. eexists. split; [right; simpl|].
        -- rewrite Hv. simpl. rewrite lookup_insert_eq, dget_ddel_eq by done. done.
        -- simpl. rewrite Hst, Hc1. done.
    + apply (kinv_frame k g); simpl; try done; [by apply dget_ddel_ne|]. rewrite Hv. simpl. by rewrite lookup_insert_ne.
  - intros e s' [Hok Hv]. split; [|simpl; by rewrite Hu]. apply (guarded_same g); [|done].
    split_and!; [done| |done]. intros k. simpl. by rewrite Hv.
Qed.
End public.
