(* ===== verification/ManagerRuns.v ===== *)
(** * Runs of a manager

    Every public method keeps the invariant of ManagerPublic.v; a run is any
    sequence of method calls and of guests that end by themselves. *)
From S2P Require Import Prelude PyHoare PyDict PyStr StorageBase Types MemoryState StateProtocol StateProtocolMemory.
From S2P Require Import NetworkSettings Channel EgressSession EgressSessionProofs EgressController.
From S2P Require Import ConfigValidation.
From S2P Require Import Backends ManagerState ManagerHelpers ManagerRuntime ManagerCreate ManagerLifecycle.
From S2P Require Import ManagerFrames ManagerCreateProofs ManagerPublic.
From stdpp Require Import options.

Section runs.
Context (E : menv) {St : Type} `{!StateManager St, !StateManagerLaws St}.
Implicit Types g : mgr St.
Local Abbreviation M := (py (mgr St)).
Local Abbreviation view g := (sm_view (g_state g)).
Local Abbreviation row g k := (iv_vms (sm_view (g_state g)) !! k).
Local Abbreviation guarded := (guarded E).
Local Abbreviation settled := (settled E).

Lemma get_vm_spec J vm g :
  (∀ g g', same_rows g g' → J g → J g') → sm_ok (g_state g) → J g →
  wp (on_state (sm_get_vm vm)) (λ i g', J g' ∧ row g' vm = Some i ∧ same_rows g g') (λ _, J) g.
Proof.
  intros HJ Hok Hg. apply wp_on_state. eapply wp_mono; [by apply law_get|..]; cbv beta.
  - intros i s' [[Hok' Hv] Hi]. assert (same_rows g (g_set_state s' g)) as Hs.
    { split_and!; [done| |done]. intros k. simpl. by rewrite Hv. }
    split_and!; [by eapply HJ| |done]. simpl. by rewrite Hv.
  - intros e s' [[Hok' Hv] _]. eapply HJ; [|done]. split_and!; [done| |done]. intros k. simpl. by rewrite Hv.
Qed.

(** ** pause, resume, refresh_status *)
(** A row may change its status between RUNNING and PAUSED. *)
Lemma live_status_guarded vm st g :
  is_live_status st = true → guarded g →
  wp (on_state (sm_update_vm vm (u_with_status st))) (λ _, guarded) (λ _, guarded) g.
Proof.
  intros Hst Hg. pose proof Hg as [G1 G2 G3 G4]. apply wp_on_state.
  eapply wp_mono; [by apply law_update|..]; cbv beta.
  - intros i s' (Hok & i0 & Hi0 & -> & Hv). split; try done. intros k. destruct (decide (k = vm)) as [->|Hk].
    + destruct (G4 vm) as [K1 K2 K3]. split; simpl; rewrite ?Hv; simpl; rewrite ?lookup_insert_eq.
      * intros s Hs. destruct (K1 s Hs) as (? & i & Hi & ?). split; [done|]. eexists. split; [done|]. simpl. congruence.
      * intros j Hj. destruct (K2 j Hj) as (? & ? & ? & i & Hi & ?). split_and!; try done. eexists. split; [done|].
        simpl. congruence.
      * intros p Hp. destruct (K3 p Hp) as [H1 (i & Ht & Hpid & Hpos & Hl & Hb)]. split; [done|].
        destruct Ht as [Hu|[Hu Hr]]; [exists i; split_and!; try done; by left|].
        simplify_eq. eexists. split; [right; split; [exact Hu|simpl; rewrite Hv; simpl; by rewrite lookup_insert_eq]|].
        done.
    + apply (kinv_frame E k g); try done. simpl. rewrite Hv. simpl. by rewrite lookup_insert_ne.
  - intros e s' [Hok Hv]. eapply guarded_same; [|done]. split_and!; [done| |done]. intros k. simpl. by rewrite Hv.
Qed.

(** Marking a computer whose process has ended. *)
Lemma refresh_guarded i g :
  guarded g → row g (vi_vm_id i) = Some i →
  wp (refresh_status E i) (λ _, guarded) (λ _, guarded) g.
Proof.
  intros Hg Hi. unfold refresh_status. destruct (is_live_status (status i)) eqn:Hl; simpl; [|by apply wp_return].
  destruct (pid i) as [p|] eqn:Hp; [|by apply wp_return]. set (vm := vi_vm_id i) in *.
  apply wp_bind. unfold _is_process_running. apply wp_bind, wp_tick.
  set (g1 := g_set_calls _ g). assert (guarded g1) as Hg1 by (apply (guarded_same E g); [|done]; split_and!; [apply Hg|done|done]).
  case_match; [by apply wp_return, wp_return|]. apply wp_bind, wp_modify, wp_return. apply wp_on_state.
  assert (guarded (drop_pid p g1)) as Hg2.
  { apply (guarded_procs E g1); [done| |done]. intros p' k. unfold drop_pid. simpl. set_solver. }
  pose proof Hg2 as [G1 G2 G3 G4]. eapply wp_mono; [by apply law_update|..]; cbv beta.
  - intros i' s' (Hok & i0 & Hi0 & -> & Hv). change (row g vm = Some i0) in Hi0. simplify_eq.
    split; try done. intros k. destruct (decide (k = vm)) as [->|Hk].
    + destruct (G4 vm) as [K1 K2 K3]. split; simpl; rewrite ?Hv; simpl; rewrite ?lookup_insert_eq.
      * intros s Hs. destruct (K1 s Hs) as (? & j & Hj & ?). change (row g vm = Some j) in Hj. simplify_eq.
        split; [done|]. by eexists.
      * intros j Hj. destruct (K2 j Hj) as (? & ? & ? & j' & Hj' & ?). change (row g vm = Some j') in Hj'.
        simplify_eq. split_and!; try done. by eexists.
      * intros p' Hp'. destruct (K3 p' Hp') as [H1 (j & Ht & Hpid & Hpos & Hlj & Hb)]. split; [done|].
        destruct Ht as [Hu|[Hu Hr]]; [exists j; split_and!; try done; by left|].
        change (row g vm = Some j) in Hr. simplify_eq. set_solver.
    + apply (kinv_frame E k (drop_pid p g1)); try done. simpl. rewrite Hv. simpl. by rewrite lookup_insert_ne.
  - intros e s' [Hok Hv]. eapply guarded_same; [|done]. split_and!; [done| |done]. intros k. simpl. by rewrite Hv.
Qed.

Lemma crashed_guarded {A} i action g :
  guarded g → row g (vi_vm_id i) = Some i →
  wp (_raise_crashed_or_state_error E i action : M A) (λ _ _, False) (λ _, guarded) g.
Proof.
  intros Hg Hi. unfold _raise_crashed_or_state_error. cbv zeta. apply wp_bind.
  eapply wp_mono; [by apply refresh_guarded| |done]. intros r g1 Hg1. case_match; by apply wp_raise.
Qed.
Lemma if_crashed_guarded i g :
  guarded g → row g (vi_vm_id i) = Some i → wp (_raise_if_crashed E i) (λ _, guarded) (λ _, guarded) g.
Proof.
  intros Hg Hi. unfold _raise_if_crashed. apply wp_bind. eapply wp_mono; [by apply refresh_guarded| |done].
  intros r g1 Hg1. case_match; [by apply wp_raise|by apply wp_return].
Qed.

Lemma quiet_monitor c i : quiet (monitor E c i : M unit).
Proof. intros k. unfold monitor. keeps_steps. Qed.
Hint Resolve quiet_monitor : celesto.
Lemma quiet_adapter_pause b i : quiet (adapter_pause E b i : M unit).
Proof. intros c. unfold adapter_pause. keeps_steps. Qed.
Lemma quiet_adapter_resume b i : quiet (adapter_resume E b i : M unit).
Proof. intros c. unfold adapter_resume. keeps_steps. Qed.
Hint Resolve quiet_adapter_pause quiet_adapter_resume : celesto.
Hint Extern 3 (keeps (guarded_at _ _) _) => apply guarded_at_quiet; solve [eauto with celesto nocore] : celesto.
Hint Extern 2 (keeps (guarded_at _ _) (ensure_network_connectivity _ _)) => apply guarded_at_connectivity : celesto.

Lemma guarded_at_refl g : guarded g → guarded_at E g g.
Proof. by intros. Qed.

(** The command to a guest, and the crash check when it fails. *)
Lemma command_guarded i (m : M unit) g0 g :
  (∀ g0, keeps (guarded_at E g0) m) → guarded_at E g0 g → row g0 (vi_vm_id i) = Some i →
  wp (py_try m (λ e, do! _raise_if_crashed E i in py_raise e)) (λ _, guarded) (λ _, guarded) g.
Proof.
  intros Hm Hg Hi. apply wp_try. eapply wp_mono; [by apply (Hm g0)|by intros ?? [? _]|]. cbv beta.
  intros e g1 (Hg1 & Hr & _). apply wp_bind. eapply wp_mono; [apply if_crashed_guarded; [done|by rewrite Hr]| |done].
  intros ? g2 Hg2. by apply wp_raise.
Qed.

Lemma pause_guarded vm : keeps guarded (pause E vm).
Proof.
  intros g Hg. unfold pause. apply wp_bind, wp_lift; [|by intros]. intros _ _. apply wp_bind.
  eapply wp_mono; [apply (get_vm_spec guarded); [apply guarded_same|apply Hg|done]| |done].
  intros i g1 (Hg1 & Hi & _). assert (vi_vm_id i = vm) as Hid by (by eapply ok_ids; [apply Hg1|]).
  apply wp_bind. case_bool_decide as Hst.
  - apply wp_return, wp_bind. eapply wp_mono; [eapply (command_guarded i _ g1 g1)| |done].
    + intros g0. keeps_steps.
    + by apply guarded_at_refl.
    + by rewrite Hid.
    + intros ? g2 Hg2. by apply live_status_guarded.
  - eapply wp_mono; [apply crashed_guarded; [done|by rewrite Hid]|by intros ?? []|done].
Qed.

Lemma resume_guarded vm : keeps guarded (resume E vm).
Proof.
  intros g Hg. unfold resume. apply wp_bind, wp_lift; [|by intros]. intros _ _. apply wp_bind.
  eapply wp_mono; [apply (get_vm_spec guarded); [apply guarded_same|apply Hg|done]| |done].
  intros i g1 (Hg1 & Hi & _). assert (vi_vm_id i = vm) as Hid by (by eapply ok_ids; [apply Hg1|]).
  apply wp_bind. case_bool_decide as Hst.
  2:{ eapply wp_mono; [apply crashed_guarded; [done|by rewrite Hid]|by intros ?? []|done]. }
  apply wp_return, wp_bind, wp_lift; [|by intros]. intros b _. apply wp_bind, wp_lift; [|by intros]. intros _ _.
  apply wp_bind. eapply (wp_mono _ (λ _, guarded_at E g1) _ (λ _, guarded_at E g1)); [| |by intros ?? [? _]].
  { eapply (_ : keeps (guarded_at E g1) _). by apply guarded_at_refl. }
  intros ? g2 Hg2. apply wp_bind. eapply wp_mono; [eapply (command_guarded i _ g1 g2)| |done].
  - intros g0. keeps_steps.
  - exact Hg2.
  - by rewrite Hid.
  - intros ? g3 Hg3. by apply live_status_guarded.
  Unshelve. keeps_steps.
Qed.

(** ** start *)
Lemma start_launch_spec vm b i g :
  settled vm g → row g vm = Some i → _backend_for_config E (config i) = Ret b →
  (is_public (config i) = true → b = BACKEND_QEMU) →
  wp (start_launch E vm b i) (λ _, guarded) (λ _, abort_ok E vm b) g.
Proof.
  intros Hs Hi Hb Hq. unfold start_launch. apply wp_bind.
  eapply wp_mono; [by apply prepare_public_spec| |intros; by apply settled_abort].
  intros i1 g1 (Hs1 & Hc1 & Hci & Hid & Hpx). apply wp_bind. destruct (is_public (config i)) eqn:Hpub.
  - rewrite (Hq eq_refl) in *.
    eapply wp_mono; [apply (public_start_spec E vm i1 g1); rewrite ?Hci; auto| |done]. cbv beta.
    intros l g2 (Hpos & Hst & j & Hp2 & Hx2 & Hcj). apply wp_bind.
    eapply wp_mono; [apply (record_again E vm (l_pid l) j (launched_info l i1)); try done; simpl; by rewrite ?Hst| |by intros ?? []].
    intros ? g3 Hp3. by apply (finish_pending E vm l i1 g3 Hp3).
  - assert (dget (vi_vm_id i1) (g_public g1) = None) as Hnone.
    { rewrite Hid. destruct (dget vm (g_public g1)) as [s|] eqn:Hs1p; [|done]. destruct Hs1 as [Hg1 _].
      destruct (k_session _ _ _ (gd_all _ _ Hg1 vm) s Hs1p) as (_ & i0 & Hi0 & Hp0).
      destruct Hc1 as (i' & Hi' & Hc'). simplify_eq. congruence. }
    eapply wp_mono; [apply (plain_start_spec E b i1 g1); [by rewrite Hci|done|by split]| |].
    2:{ intros ? g2 Hn. by apply settled_abort, (settled_no_new E vm g1). }
    intros l g2 Hn. apply finish_plain; [by apply (settled_no_new E vm g1)|].
    destruct Hn as [[= Hst' _ _ _] _]. destruct Hc1 as (j & Hj & Hcj). intros i0. rewrite Hst', Hj.
    intros [= <-]. by rewrite Hcj.
Qed.

Lemma start_claimed_guarded vm : keeps guarded (_start_claimed E vm).
Proof.
  intros g Hg. unfold _start_claimed. apply wp_bind.
  eapply wp_mono; [apply (get_vm_spec guarded); [apply guarded_same|apply Hg|done]| |done].
  intros i g1 (Hg1 & Hi & _). apply wp_bind.
  eapply wp_mono; [apply (start_checks_spec E vm i g1); by apply guarded_at_refl| |by intros ?? [? _]].
  intros b g2 ((Hg2 & Hr2 & Hu2) & Hl & Hb & Hq). rewrite <- Hr2 in Hi.
  apply wp_try. eapply (wp_mono _ (λ _, guarded) _ (λ _, abort_ok E vm b)); [|done|].
  - destruct (dget vm (g_unrecorded g2)) as [j|] eqn:Hu.
    + destruct (k_pending _ _ _ (gd_all _ _ Hg2 vm) j Hu) as (_ & Hbj & Hpub & i' & Hi' & Hc). simplify_eq.
      assert (vi_vm_id i = vm) as Hid by (by eapply ok_ids; [apply Hg2|]).
      unfold start_launch, _prepare_public_egress. rewrite Hc, Hpub, Hid. simpl.
      apply wp_bind, wp_bind, wp_get. rewrite Hu. simpl. apply wp_raise. split; [done|]. rewrite Hu. congruence.
    + apply start_launch_spec; try done. eapply not_live_settled; [done|by right|done].
  - intros e g3 Ha. eapply wp_mono; [by apply start_rollback_spec|by intros ?? []|done].
Qed.

(** ** create *)
Local Abbreviation any := (λ _ : option VMInfo, True).

Lemma only_create c vm g0 : vm_id c = vm → keeps (only vm any g0) (on_state (sm_create_vm c)).
Proof.
  intros <- g Ho. apply wp_on_state. eapply wp_mono; [apply law_create, (on_ok _ _ _ _ Ho)|..]; cbv beta.
  - intros i s' (Hok & _ & _ & Hv). destruct Ho as [O1 O2 O3 O4]. split; simpl; try done.
    rewrite Hv, iv_drop_vms; [done|]. intros. apply delete_insert_eq.
  - intros e s' Hs. by apply only_same.
Qed.
Lemma only_delete vm g0 : keeps (only vm any g0) (on_state (sm_delete_vm vm)).
Proof.
  intros g Ho. apply wp_on_state. eapply wp_mono; [apply law_delete, (on_ok _ _ _ _ Ho)|..]; cbv beta.
  - intros i s' (Hok & Hv). destruct Ho as [O1 O2 O3 O4]. split; simpl; try done. by rewrite Hv, iv_drop_drop.
  - intros e s' Hs. by apply only_same.
Qed.
Hint Resolve only_delete : celesto.
Lemma create_rollback_only {A} vm w bs created e g0 g :
  only vm any g0 g → wp (create_rollback E vm w bs created e : M A) (λ _ _, False) (λ _, only vm any g0) g.
Proof.
  intros Ho. eapply wp_mono; [apply (wp_conj _ (λ _, only vm any g0) (λ _ _, False) (λ _, only vm any g0) (λ _ _, True))|
    by intros ?? [_ []]|by intros ?? [? _]].
  - eapply (_ : keeps (only vm any g0) _); exact Ho.
  - unfold create_rollback. repeat (apply raise_only; intros ??). by apply wp_raise.
  Unshelve. unfold create_rollback. keeps_steps.
Qed.
Lemma network_rollback_only {A} vm w e g0 : keeps (only vm any g0) (network_rollback E vm w e : M A).
Proof. unfold network_rollback. keeps_steps. apply only_cleanup_resources. Qed.

Lemma create_row_only c b g :
  sm_ok (g_state g) →
  wp (create_row E c b : M _)
    (λ x g', row g (vm_id c) = None ∧ only (vm_id c) any g g' ∧ vm_id x.1 = vm_id c)
    (λ _ g', moved id g g' ∨ row g (vm_id c) = None ∧ only (vm_id c) any g g') g.
Proof.
  intros Hok. unfold create_row. cbv zeta. apply wp_bind.
  eapply wp_mono; [by apply ensure_available_spec| |intros e g1 Hm1; by left].
  intros ? g1 [[Hok1 Hv1 Hr1] Hn]. assert (only (vm_id c) any g g1) as Ho by (split; [done|by rewrite Hv1|done|done]).
  assert (∀ (e : exn) g', only (vm_id c) any g g' → moved id g g' ∨ row g (vm_id c) = None ∧ only (vm_id c) any g g')
    as Hraise by (intros; by right).
  apply wp_bind. eapply wp_mono; [eapply only_quiet; [auto with celesto nocore|exact Ho]| |exact Hraise].
  intros w g2 Ho2. apply wp_bind.
  eapply wp_mono; [eapply (_ : keeps (only (vm_id c) any g) _); exact Ho2| |exact Hraise].
  intros bs g3 Ho3. apply wp_bind, wp_try, wp_bind.
  assert (∀ A (m : M A), quiet m → keeps (only (vm_id c) any g) m) as HJ by (intros A m; apply only_quiet).
  assert (∀ A cr e g', only (vm_id c) any g g' → ∀ Q, wp (create_rollback E (vm_id c) w bs cr e : M A) Q
    (λ _ g', moved id g g' ∨ row g (vm_id c) = None ∧ only (vm_id c) any g g') g') as Hrb.
  { intros A cr e g' Ho' Q. eapply wp_mono; [by apply create_rollback_only|by intros ?? []|exact Hraise]. }
  eapply wp_mono; [apply (materialize_spec E _ c g3 HJ Ho3)| |intros e g4 Ho4; by apply Hrb]. cbv beta.
  intros c1 g4 (Ho4 & Hid & _). apply wp_bind.
  eapply wp_mono; [by apply (only_create c1 (vm_id c) g Hid)| |intros e g5 Ho5; by apply Hrb]. cbv beta.
  intros i g5 Ho5. apply wp_return, wp_bind, wp_try.
  eapply wp_mono; [apply (create_row_after E _ c1 _ _ g5 HJ Ho5)| |intros e g6 Ho6; by apply Hrb]. cbv beta.
  intros c2 g6 (Ho6 & Hid2 & _). apply wp_return. split_and!; [done|done|]. simpl. congruence.
  Unshelve. keeps_steps.
Qed.

Lemma only_guarded vm g g' : row g vm = None → only vm any g g' → guarded g → guarded g'.
Proof.
  intros Hn [O1 O2 [= H1 H2 H3 H4] _] [G1 G2 G3 G4].
  split; [done|unfold ctl; rewrite H2, H3; exact G2|by rewrite H4|].
  intros k. destruct (decide (k = vm)) as [->|Hk].
  - destruct (G4 vm) as [K1 K2 K3]. split; rewrite ?H1, ?H3, ?H4.
    + intros s Hs. destruct (K1 s Hs) as (_ & i & Hi & _). congruence.
    + intros j Hj. destruct (K2 j Hj) as (_ & _ & _ & i & Hi & _). congruence.
    + intros p Hp. destruct (K3 p Hp) as [(s & _ & Hs & _) _]. destruct (K1 s Hs) as (_ & i & Hi & _). congruence.
  - apply (kinv_frame E k g); rewrite ?H1, ?H3, ?H4; auto; [by eapply iv_drop_row|].
    unfold proxied. by rewrite H2, H3.
Qed.

Lemma create_guarded c : keeps guarded (create E c).
Proof.
  intros g Hg. unfold create. apply wp_bind, wp_lift; [|by intros]. intros b _. cbv zeta.
  set (c1 := effective_config c b). apply wp_bind.
  eapply wp_mono; [eapply (guarded_only E ""); [intros P g0; apply only_quiet; auto with celesto nocore|done]| |done].
  intros ? g1 Hg1. apply wp_bind. eapply wp_mono; [apply create_row_only, Hg1|..]; cbv beta.
  - intros [c2 w] g2 (Hn & Ho & Hid). simpl in Hid. apply wp_try. rewrite Hid.
    assert (∀ A (a : A) g', only (vm_id c1) any g1 g' → guarded g') as Hfin
      by (intros A x g' Ho'; exact (only_guarded _ _ _ Hn Ho' Hg1)).
    eapply wp_mono; [apply (only_create_network E (vm_id c1) any g1 c2 Hid); [done|done|exact Ho]|exact (Hfin _)|].
    intros e g3 Ho3. eapply wp_mono; [apply (network_rollback_only (vm_id c1) w e g1); exact Ho3|exact (Hfin _)|exact (Hfin _)].
  - intros e g2 [[Hok Hv Hr]|[Hn Ho]]; [|exact (only_guarded _ _ _ Hn Ho Hg1)]. apply (guarded_same E g1); [|done].
    split_and!; [done| |done]. intros k. by rewrite Hv.
Qed.

(** ** delete *)
(** Nothing of [vm] is left with the manager. *)
Definition cleared (vm : string) g : Prop := settled vm g ∧ dget vm (g_public g) = None.

Lemma cleared_only {A} vm (m : M A) : (∀ P g0, keeps (only vm P g0) m) → keeps (cleared vm) m.
Proof.
  apply same_rows_only; [|intros g [[? _] _]; by apply (guarded_ok E)].
  intros g g' Hs [H1 H2]. split; [by eapply settled_same|]. by destruct Hs as (_ & _ & [= _ _ -> _]).
Qed.
Lemma quiet_delete_bundle i : quiet (_delete_macos_bundle E i : M unit).
Proof. intros c. unfold _delete_macos_bundle. cbv zeta. keeps_steps. Qed.
Lemma only_requires_bridge vm i P g0 : keeps (only vm P g0) (requires_bridge_cleanup vm i).
Proof. unfold requires_bridge_cleanup. keeps_steps. Qed.

Lemma delete_row_guarded vm g :
  cleared vm g → wp (on_state (sm_delete_vm vm)) (λ _, cleared vm) (λ _, guarded) g.
Proof.
  intros [(Hg & Hn & Hi) Hp]. pose proof Hg as [G1 G2 G3 G4]. apply wp_on_state.
  eapply wp_mono; [by apply law_delete|..]; cbv beta.
  - intros [] s' [Hok Hv]. split; [|done]. split_and!; [|done|done]. split; try done. intros k.
    destruct (decide (k = vm)) as [->|Hk].
    + split; [intros s; simpl; by rewrite Hp|intros j; simpl; by rewrite Hn|intros p; simpl; by intros []%Hi].
    + apply (kinv_frame E k g); try done. simpl. rewrite Hv. simpl. by rewrite lookup_delete_ne.
  - intros e s' [Hok Hv]. eapply guarded_same; [|done]. split_and!; [done| |done]. intros k. simpl. by rewrite Hv.
Qed.

Lemma stop_if_guarded (c : bool) vm g :
  guarded g → wp (if c then do! _stop_claimed E vm in py_return tt else py_return tt)
    (λ _ g', guarded g' ∧ (c = true → settled vm g') ∧ (c = false → g' = g)) (λ _, guarded) g.
Proof.
  intros Hg. destruct c; [|by apply wp_return]. apply wp_bind.
  eapply wp_mono; [by apply stop_claimed_spec|intros ? g1 Hs; apply wp_return; split_and!; [apply Hs|done|done]|done].
Qed.

Lemma delete_claimed_spec vm g : guarded g → wp (_delete_claimed E vm) (λ _, cleared vm) (λ _, guarded) g.
Proof.
  intros Hg. unfold _delete_claimed. apply wp_bind, wp_get. apply wp_bind.
  eapply wp_mono; [by apply stop_if_guarded| |done]. intros ? g1 (Hg1 & Hyes & Hno).
  assert (dget vm (g_unrecorded g1) = None) as Hu1.
  { destruct (dget vm (g_unrecorded g)) eqn:Hu; [by apply Hyes|]. by rewrite Hno. }
  apply wp_bind, wp_try.
  eapply wp_mono; [apply (get_vm_spec guarded); [apply guarded_same|apply Hg1|done]|..]; cbv beta.
  2:{ intros e g2 Hg2. destruct e; try (by apply wp_raise). apply wp_bind.
      eapply wp_mono; [eapply (guarded_only E vm); [intros P g0; apply only_cleanup_resources|done]| |done].
      intros ? g3 Hg3. by apply wp_raise. }
  intros i g2 (Hg2 & Hi & Hs12). assert (tracked vm i g2) as Ht.
  { right. split; [|done]. by destruct Hs12 as (_ & _ & [= _ _ _ ->]). }
  apply wp_bind. eapply wp_mono; [by apply stop_if_guarded| |done]. intros ? g3 (Hg3 & Hy & Hn).
  assert (settled vm g3) as Hs3.
  { destruct (is_live_status (status i)) eqn:Hl; [by apply Hy|]. rewrite Hn by done. by eapply not_live_settled. }
  apply (stop_public_then E); [done| |by intros ?? [? _]]. intros g4 Hs4 Hp4.
  assert (cleared vm g4) as Hc by done. assert (∀ A (m : M A), quiet m → keeps (cleared vm) m) as HJ.
  { intros A m Hm. apply cleared_only. intros P g0. by apply only_quiet. }
  assert (∀ (e : exn) g', cleared vm g' → guarded g') as Hr by (intros e g' [[? _] _]; done).
  apply wp_bind. eapply wp_mono; [apply (HJ _ _ (quiet_delete_bundle i) g4 Hc)| |exact Hr]. intros ? g5 Hc5.
  apply wp_bind. eapply wp_mono; [apply (cleared_only vm _ (only_requires_bridge vm i) g5 Hc5)| |exact Hr].
  intros rb g6 Hc6. apply wp_bind.
  eapply wp_mono; [apply (cleared_only vm _ (λ P g0, only_cleanup_resources E vm P g0 false rb) g6 Hc6)| |exact Hr].
  intros ? g7 Hc7. by apply delete_row_guarded.
Qed.

(** ** close and reconcile *)
Lemma close_guests_guarded vms : keeps guarded (close_guests E vms).
Proof.
  induction vms as [|vm vms IH]; cbn [close_guests]; [apply keeps_return|].
  apply keeps_bind; [|intros ?; apply keeps_bind; [done|auto with celesto]].
  intros g Hg. apply wp_try, wp_bind.
  eapply wp_mono; [by apply stop_claimed_spec| |intros; by apply wp_return]. intros ? g1 Hs.
  apply (stop_public_then E); [done|intros g2 [? _] _; by apply wp_return|intros e g2 [? _]; by apply wp_return].
Qed.
Lemma close_guarded : keeps guarded (_close_resources E).
Proof.
  unfold _close_resources. apply keeps_bind; [auto with celesto|]. intros g.
  apply keeps_bind; [apply close_guests_guarded|]. intros fs. repeat case_match; auto with celesto.
Qed.

Lemma reconcile_guarded : keeps guarded (manager_reconcile E).
Proof.
  intros g Hg. unfold manager_reconcile. apply wp_bind, wp_tick.
  set (g1 := g_set_calls _ g). assert (guarded g1) as Hg1.
  { apply (guarded_same E g); [|done]. split_and!; [apply Hg|done|done]. }
  set (kill := e_signal E (g_calls g)). apply wp_bind, wp_on_state.
  eapply wp_mono; [apply law_reconcile, Hg1|..]; cbv beta.
  2:{ intros e s' [Hok Hv]. apply (guarded_same E g1); [|done]. split_and!; [done| |done]. intros k. simpl. by rewrite Hv. }
  intros stale s' (Hok & Hv & _). apply wp_bind, wp_modify. set (g2 := g_set_procs _ _).
  assert (guarded g2) as Hg2.
  { pose proof Hg1 as [G1 G2 G3 G4]. split; try done. intros k. destruct (G4 k) as [K1 K2 K3].
    assert (∀ i, row g1 k = Some i → row g2 k = Some (if is_stale kill i then mark_error i else i)) as Hrow.
    { intros i Hi. simpl. rewrite Hv. simpl. rewrite lookup_fmap. simpl in Hi. by rewrite Hi. }
    assert (∀ i, config (if is_stale kill i then mark_error i else i) = config i) as Hcfg by (intros i; by destruct (is_stale kill i)).
    split.
    - intros s Hs. destruct (K1 s Hs) as (? & i & Hi & ?). split; [done|]. eexists. split; [by apply Hrow|]. by rewrite Hcfg.
    - intros j Hj. destruct (K2 j Hj) as (? & ? & ? & i & Hi & ?). split_and!; try done.
      eexists. split; [by apply Hrow|]. by rewrite Hcfg.
    - intros p Hp. simpl in Hp. apply elem_of_filter in Hp as [Hsig Hp].
      destruct (K3 p Hp) as [H1 (i & Ht & Hpid & Hpos & Hl & Hb)]. split; [done|].
      destruct Ht as [Hu|[Hu Hr]]; [exists i; split_and!; try done; by left|].
      exists i. split; [|done]. right. split; [done|]. rewrite (Hrow i Hr).
      assert (is_stale kill i = false) as ->; [|done]. unfold is_stale. rewrite Hl, Hpid. simpl.
      replace (p <=? 0)%Z with false by lia. unfold kill in *. simpl in Hsig.
      destruct (e_signal E (g_calls g) p); [done|by destruct Hsig|done]. }
  apply wp_bind. eapply wp_mono; [eapply (_ : keeps guarded _); exact Hg2|intros ? g3 Hg3; by apply wp_return|done].
  Unshelve. apply keeps_for. intros vm. apply keeps_suppress. apply (guarded_only E vm). intros P g0.
  unfold remove_dead_forward. keeps_steps.
Qed.

(** ** What a delete does to the inventory *)
Definition loose (vm : string) g0 g : Prop :=
  sm_ok (g_state g) ∧ iv_drop vm (view g) = iv_drop vm (view g0).

Lemma loose_only {A} vm g0 (m : M A) : (∀ P g0, keeps (only vm P g0) m) → keeps (loose vm g0) m.
Proof.
  intros Hm g [Hok Hv]. eapply wp_mono; [apply (Hm any g), only_refl; done|..];
    intros ? g' Ho; (split; [apply Ho|]); by rewrite (on_view _ _ _ _ Ho).
Qed.
Lemma loose_quiet {A} vm g0 (m : M A) : quiet m → keeps (loose vm g0) m.
Proof. intros Hm. apply loose_only. intros P g1. by apply only_quiet. Qed.
Lemma loose_modify vm g0 f : (∀ g, g_state (f g) = g_state g) → keeps (loose vm g0) (py_modify f).
Proof. intros Hf. apply keeps_modify. unfold loose. intros g. by rewrite Hf. Qed.
Lemma loose_on_public {A} vm g0 k s (m : SE A) : keeps (loose vm g0) (on_public k s m).
Proof. intros g Hg. unfold wp, on_public. by destruct (m _) as [[h' s'] []]. Qed.
Lemma loose_update vm g0 u : keeps (loose vm g0) (on_state (sm_update_vm vm u)).
Proof. intros g [Hok Hv]. eapply wp_mono; [apply (only_update vm any g u); [done|by apply only_refl]|..];
    intros ? g' Ho; (split; [apply Ho|]); by rewrite (on_view _ _ _ _ Ho). Qed.
Lemma loose_adapter_stop vm g0 b i : keeps (loose vm g0) (adapter_stop E b i).
Proof.
  intros g [Hok Hv]. eapply wp_mono; [apply fewer_adapter_stop, fewer_refl|..];
    intros ? g' [[= H1 _ _ _] _]; unfold loose; by rewrite H1.
Qed.
Hint Resolve loose_on_public loose_update loose_adapter_stop quiet_delete_bundle : celesto.
Hint Extern 3 (keeps (loose _ _) (py_modify _)) => apply loose_modify; intros; repeat case_match; reflexivity : celesto.
Hint Extern 4 (keeps (loose _ _) _) => apply loose_quiet; solve [eauto with celesto nocore] : celesto.
Lemma loose_stop_public vm g0 : keeps (loose vm g0) (_stop_public_egress vm).
Proof. unfold _stop_public_egress. keeps_steps. Qed.
Lemma loose_get vm g0 k : keeps (loose vm g0) (on_state (sm_get_vm k)).
Proof. apply loose_only. intros. apply only_get. Qed.
Lemma loose_bridge vm g0 i : keeps (loose vm g0) (requires_bridge_cleanup vm i).
Proof. apply loose_only. intros. apply only_requires_bridge. Qed.
Lemma loose_cleanup vm g0 pre req : keeps (loose vm g0) (_cleanup_resources E vm pre req).
Proof. apply loose_only. intros. apply only_cleanup_resources. Qed.
Hint Resolve loose_stop_public loose_get loose_bridge loose_cleanup : celesto.
Lemma loose_stop_claimed vm g0 : keeps (loose vm g0) (_stop_claimed E vm).
Proof. unfold _stop_claimed, current_info, forget_unrecorded. keeps_steps. Qed.
Hint Resolve loose_stop_claimed : celesto.

Lemma delete_drops vm g :
  sm_ok (g_state g) →
  wp (_delete_claimed E vm) (λ _ g', sm_ok (g_state g') ∧ view g' = iv_drop vm (view g)) (λ _, loose vm g) g.
Proof.
  intros Hok. assert (loose vm g g) as Hl by done. unfold _delete_claimed.
  assert (∀ A (m : M A) (k : A → M unit) g1, keeps (loose vm g) m → loose vm g g1 →
    (∀ a g2, loose vm g g2 → wp (k a) (λ _ g', sm_ok (g_state g') ∧ view g' = iv_drop vm (view g)) (λ _, loose vm g) g2) →
    wp (py_bind m k) (λ _ g', sm_ok (g_state g') ∧ view g' = iv_drop vm (view g)) (λ _, loose vm g) g1) as Hstep.
  { intros A m k g1 Hm Hg1 Hk. apply wp_bind. eapply wp_mono; [by apply Hm|exact Hk|done]. }
  do 7 (apply Hstep; [keeps_steps|done|intros ? ? ?]). apply Hstep; [keeps_steps|done|]. intros ? gl [Hok1 Hv1].
  apply wp_on_state. eapply wp_mono; [by apply law_delete|..]; cbv beta.
  - intros ? s' [Hok' Hv']. split; [done|]. simpl. by rewrite Hv', Hv1.
  - intros e s' [Hok' Hv']. split; [done|]. simpl. by rewrite Hv', Hv1.
Qed.

(** ** Runs *)
Inductive manager_op :=
| OpCreate (c : VMConfig) | OpStart (vm : string) | OpStop (vm : string) | OpPause (vm : string)
| OpResume (vm : string) | OpDelete (vm : string) | OpRefresh (vm : string) | OpReconcile | OpClose.

(** [refresh_status] is called on a row that was just read. *)
Definition run_manager (op : manager_op) : M unit :=
  match op with
  | OpCreate c => do! create E c in py_return tt
  | OpStart vm => do! start E vm in py_return tt
  | OpStop vm => do! stop E vm in py_return tt
  | OpPause vm => do! pause E vm in py_return tt
  | OpResume vm => do! resume E vm in py_return tt
  | OpDelete vm => delete E vm
  | OpRefresh vm => let! i := on_state (sm_get_vm vm) in do! refresh_status E i in py_return tt
  | OpReconcile => do! manager_reconcile E in py_return tt
  | OpClose => _close_resources E
  end.

Inductive manager_step : mgr St → mgr St → Prop :=
| manager_call op g : manager_step g (run_manager op g).1
| guest_ends p g : manager_step g (drop_pid p g).

(** A manager that has launched nothing yet, over any inventory. *)
Definition fresh_manager g : Prop :=
  sm_ok (g_state g) ∧ g_procs g = ∅ ∧ g_public g = [] ∧ g_unrecorded g = []
  ∧ h_running (g_host g) = ∅ ∧ h_policies (g_host g) = ∅ ∧ h_log (g_host g) = [].
Definition manager_reachable g : Prop := ∃ g0, fresh_manager g0 ∧ rtc manager_step g0 g.

Lemma fresh_guarded g : fresh_manager g → guarded g.
Proof.
  intros (Hok & Hp & Hpub & Hu & Hrun & Hpol & Hlog). split; [done| | |].
  - apply fresh_cinv. by split_and!.
  - rewrite Hu. constructor.
  - intros k. split; rewrite ?Hp, ?Hpub, ?Hu; done.
Qed.

Lemma run_manager_guarded op : keeps guarded (run_manager op).
Proof.
  destruct op; cbn [run_manager];
    try lazymatch goal with |- keeps _ (py_bind _ (λ _, py_return tt)) => apply keeps_bind; [|auto with celesto] end.
  - apply create_guarded.
  - unfold start. apply keeps_bind; [auto with celesto|intros _; apply start_claimed_guarded].
  - unfold stop. apply keeps_bind; [auto with celesto|]. intros _ g Hg.
    eapply wp_mono; [by apply stop_claimed_spec|by intros ?? [? _]|done].
  - apply pause_guarded.
  - apply resume_guarded.
  - unfold delete. apply keeps_bind; [auto with celesto|]. intros _ g Hg.
    eapply wp_mono; [by apply delete_claimed_spec|by intros ?? [[? _] _]|done].
  - intros g Hg. apply wp_bind.
    eapply wp_mono; [apply (get_vm_spec guarded); [apply guarded_same|apply Hg|done]| |done].
    intros i g1 (Hg1 & Hi & _). assert (vi_vm_id i = vm) as Hid by (by eapply ok_ids; [apply Hg1|]).
    apply wp_bind. eapply wp_mono; [apply refresh_guarded; [done|by rewrite Hid]|done|done].
  - apply reconcile_guarded.
  - apply close_guarded.
Qed.

Lemma reachable_guarded g : manager_reachable g → guarded g.
Proof.
  intros (g0 & H0 & Hr). apply fresh_guarded in H0. induction Hr as [|g1 g2 g3 Hs _ IH]; [done|]. apply IH.
  destruct Hs as [op g|p g].
  - pose proof (run_manager_guarded op g H0) as H. unfold wp in H. by destruct (run_manager op g) as [g' []].
  - apply (guarded_procs E g); [done| |done]. intros p' k. unfold drop_pid. simpl. set_solver.
Qed.
End runs.

(** C4: in every run of a manager, from any inventory and whatever calls fail
    (signals that do not end a process included), a live process of a
    public-only guest has its egress session registered and the session's proxy
    running: no operation (failed starts and their rollbacks, failed stops,
    deletes, reconciliation, closing) releases the proxy, and with it the local
    port the guest talks to, before the guest's process has ended.  The
    operations run one after another, and a liveness check that says a process
    is gone is right. *)
Theorem public_guest_keeps_its_proxy (E : menv) {St} `{!StateManager St, !StateManagerLaws St}
    (g : mgr St) (p : Z) (vm : string) :
  manager_reachable E g → (p, vm, true) ∈ g_procs g →
  ∃ s q, dget vm (g_public g) = Some s ∧ s_proxy s = Some q ∧ q ∈ h_running (g_host g).
Proof.
  intros Hr Hp. apply reachable_guarded in Hr.
  destruct (k_procs _ _ _ (gd_all _ _ Hr vm) p Hp) as [Hx _]. exact Hx.
Qed.

(** C5: when [delete] of a computer returns, the inventory is exactly what it
    was without that computer (no row, address, port, CID or TAP reservation of
    it is left, every other entry is unchanged), none of its public-only
    processes runs, and the manager holds neither an egress session nor a
    pending launch for it; when it raises, the entries of every other computer
    are still unchanged.  The operations before it ran one after another, and a
    liveness check that says a process is gone is right; signals need not end
    a process. *)
Theorem delete_leaves_nothing (E : menv) {St} `{!StateManager St, !StateManagerLaws St}
    (g : mgr St) (vm : string) :
  manager_reachable E g →
  let view g := sm_view (g_state g) in
  let g' := (delete E vm g).1 in
  match (delete E vm g).2 with
  | Ret _ => view g' = iv_drop vm (view g)
             ∧ dget vm (g_public g') = None ∧ dget vm (g_unrecorded g') = None
             ∧ ∀ p, (p, vm, true) ∉ g_procs g'
  | Raise _ => iv_drop vm (view g') = iv_drop vm (view g)
  end.
Proof.
  intros Hr. apply reachable_guarded in Hr. cbv zeta. unfold delete, py_bind.
  destruct (_validate_cleanup_id vm) as [[]|e]; [simpl|done].
  pose proof (delete_claimed_spec E vm g Hr) as H1.
  pose proof (delete_drops E vm g (gd_ok _ _ Hr)) as H2. unfold wp in H1, H2.
  destruct (_delete_claimed E vm g) as [g' [[]|e]]; simpl; [|apply H2].
  destruct H1 as [(_ & Hn & Hi) Hp]. destruct H2 as [_ Hv]. done.
Qed.

(** ** A run: create and start a public-only guest *)
Definition demo_env : menv := demo_menv (λ _, false).
Definition demo_run (op : manager_op) (g : mgr mem_mgr) : mgr mem_mgr :=
  (@run_manager demo_env mem_mgr demo_sm op g).1.
Definition demo_pub_created : mgr mem_mgr :=
  demo_run (OpCreate (demo_config "pub" "qemu" (Some demo_public))) demo_public_mgr.
Definition demo_pub_started : mgr mem_mgr := demo_run (OpStart "pub") demo_pub_created.

Lemma demo_pub_reachable : @manager_reachable demo_env mem_mgr demo_sm demo_laws demo_pub_started.
Proof.
  exists demo_public_mgr. split; [split_and!; try done; exact demo_mgr_ok|].
  eapply rtc_l; [apply (manager_call demo_env (OpCreate (demo_config "pub" "qemu" (Some demo_public))))|].
  apply rtc_once, (manager_call demo_env (OpStart "pub")).
Qed.

Lemma public_guest_keeps_its_proxy_witness :
  (∃ p, (p, "pub", true) ∈ g_procs demo_pub_started)
  ∧ ∃ s q, dget "pub" (g_public demo_pub_started) = Some s ∧ s_proxy s = Some q
           ∧ q ∈ h_running (g_host demo_pub_started).
Proof.
  assert ((1005%Z, "pub", true) ∈ g_procs demo_pub_started) as H
    by (apply (bool_decide_unpack _); vm_compute; reflexivity).
  split; [exists 1005%Z; exact H|].
  exact (@public_guest_keeps_its_proxy demo_env mem_mgr demo_sm demo_laws demo_pub_started 1005%Z "pub"
           demo_pub_reachable H).
Defined.

Lemma delete_leaves_nothing_witness :
  let g' := (@delete demo_env mem_mgr demo_sm "pub" demo_pub_started).1 in
  raised (@delete demo_env mem_mgr demo_sm "pub" demo_pub_started).2 = false
  ∧ mm_view (g_state g') = iv_drop "pub" (mm_view (g_state demo_pub_started))
  ∧ dget "pub" (g_public g') = None.
Proof.
  cbv zeta. pose proof (@delete_leaves_nothing demo_env mem_mgr demo_sm demo_laws demo_pub_started "pub"
    demo_pub_reachable) as H.
  assert (raised (@delete demo_env mem_mgr demo_sm "pub" demo_pub_started).2 = false) as He
    by (vm_compute; reflexivity).
  split; [exact He|]. cbv zeta in H.
  destruct (@delete demo_env mem_mgr demo_sm "pub" demo_pub_started).2; [|discriminate He].
  destruct H as (H1 & H2 & _). exact (conj H1 H2).
Defined.
