(* ===== verification/OpGuard.v ===== *)
(** * vm.py: one guarded operation per computer, and a close that waits for them

    [_vm_operation_guard] and [close] of a manager used by several threads.
    [start], [stop] and [delete] enter the guard, and so do their asynchronous
    forms; [pause], [resume], [create], the snapshot operations and
    [reconcile] do not, so nothing here is about them.
    Each block under [_vm_operation_lock] is one atomic step; everything
    between two of them (an operation's body, the release of the resources)
    interleaves freely with the steps of the other threads. *)
From S2P Require Import Prelude PyStr.
From stdpp Require Import options.

(** Where a thread is in the code. *)
Inductive tstate :=
| Entering (vm action : string)   (** about to enter the guard *)
| Body (vm : string)              (** runs a guarded operation on [vm] *)
| CallsClose                      (** about to call [close] *)
| Closing                         (** runs [_close_resources] *)
| Finally                         (** in the [finally] of [close] *)
| Finished (r : outcome unit).
#[global] Instance tstate_eq_dec : EqDecision tstate.
Proof. solve_decision. Defined.

Record gstate := {
  closed : bool;
  closing : bool;
  close_requested : bool;
  active : gset string;
  threads : gmap nat tstate }.

Definition at_thread (t : nat) (x : tstate) (s : gstate) : gstate :=
  {| closed := closed s; closing := closing s; close_requested := close_requested s;
     active := active s; threads := <[t := x]> (threads s) |}.

(** The operations whose callers enter the guard. *)
Definition guarded_actions : list string := ["start"; "stop"; "delete"].

(** ** The atomic blocks *)
(** The entry of [_vm_operation_guard]. *)
Definition guard_enter (t : nat) (vm action : string) (s : gstate) : gstate :=
  if closed s then
    at_thread t (Finished (Raise (CelestoError ("This session is closed; create a new session, then run 'celesto computer "
      +:+ action +:+ " " +:+ vm +:+ "'.")))) s
  else if close_requested s then
    at_thread t (Finished (Raise (CelestoError ("This session is closing; retry with 'celesto computer "
      +:+ action +:+ " " +:+ vm +:+ "'.")))) s
  else if bool_decide (vm ∈ active s) then
    at_thread t (Finished (Raise (CelestoError ("Computer '" +:+ vm
      +:+ "' is busy; wait for that call to finish before retrying 'celesto computer " +:+ action +:+ " " +:+ vm +:+ "'.")))) s
  else
    {| closed := closed s; closing := closing s; close_requested := close_requested s;
       active := {[vm]} ∪ active s; threads := <[t := Body vm]> (threads s) |}.

(** Its [finally]: the last operation of a requested close goes on to close. *)
Definition guard_exit (t : nat) (vm : string) (r : outcome unit) (s : gstate) : gstate :=
  let act := active s ∖ {[vm]} in
  let finish_close := close_requested s && bool_decide (act = ∅) in
  {| closed := closed s; closing := closing s; close_requested := close_requested s;
     active := act; threads := <[t := if finish_close then CallsClose else Finished r]> (threads s) |}.

(** The entry of [close]. *)
Definition close_enter (t : nat) (s : gstate) : gstate :=
  if closed s || closing s then at_thread t (Finished (Ret tt)) s
  else if negb (bool_decide (active s = ∅)) then
    {| closed := closed s; closing := closing s; close_requested := true;
       active := active s; threads := <[t := Finished (Ret tt)]> (threads s) |}
  else
    {| closed := closed s; closing := true; close_requested := true;
       active := active s; threads := <[t := Closing]> (threads s) |}.

(** [_close_resources] returns, marking the manager closed, or raises. *)
Definition resources_closed (t : nat) (ok : bool) (s : gstate) : gstate :=
  {| closed := closed s || ok; closing := closing s; close_requested := close_requested s;
     active := active s; threads := <[t := Finally]> (threads s) |}.
(** The [finally] of [close]. *)
Definition close_finally (t : nat) (r : outcome unit) (s : gstate) : gstate :=
  {| closed := closed s; closing := false; close_requested := closed s;
     active := active s; threads := <[t := Finished r]> (threads s) |}.

Inductive gstep : gstate → gstate → Prop :=
| step_calls_operation t vm action s : action ∈ guarded_actions → threads s !! t = None → gstep s (at_thread t (Entering vm action) s)
| step_calls_close t s : threads s !! t = None → gstep s (at_thread t CallsClose s)
| step_enter t vm action s : threads s !! t = Some (Entering vm action) → gstep s (guard_enter t vm action s)
| step_exit t vm r s : threads s !! t = Some (Body vm) → gstep s (guard_exit t vm r s)
| step_close t s : threads s !! t = Some CallsClose → gstep s (close_enter t s)
| step_resources t ok s : threads s !! t = Some Closing → gstep s (resources_closed t ok s)
| step_finally t r s : threads s !! t = Some Finally → gstep s (close_finally t r s).

Definition new_guard : gstate :=
  {| closed := false; closing := false; close_requested := false; active := ∅; threads := ∅ |}.
Definition guard_reachable (s : gstate) : Prop := rtc gstep new_guard s.

(** ** The invariant *)
Definition releasing (x : option tstate) : Prop := x = Some Closing ∨ x = Some Finally.

Record ginv (s : gstate) : Prop := {
  gi_one : ∀ t1 t2 vm, threads s !! t1 = Some (Body vm) → threads s !! t2 = Some (Body vm) → t1 = t2;
  gi_active : ∀ vm, vm ∈ active s ↔ ∃ t, threads s !! t = Some (Body vm);
  gi_closing : ∀ t, releasing (threads s !! t) → closing s = true ∧ close_requested s = true ∧ active s = ∅;
  gi_closer : ∀ t1 t2, releasing (threads s !! t1) → releasing (threads s !! t2) → t1 = t2;
  gi_closed : closed s = true → close_requested s = true ∧ active s = ∅;
  gi_pending : close_requested s = true → closed s = false → active s = ∅ →
    ∃ t, threads s !! t = Some CallsClose ∨ releasing (threads s !! t);
  gi_held : closing s = true → ∃ t, releasing (threads s !! t) }.

Lemma releasing_insert t x t' (m : gmap nat tstate) :
  releasing (<[t := x]> m !! t') ↔ (t' = t ∧ (x = Closing ∨ x = Finally)) ∨ (t' ≠ t ∧ releasing (m !! t')).
Proof.
  unfold releasing. destruct (decide (t' = t)) as [->|Hne];
    [rewrite lookup_insert_eq|rewrite lookup_insert_ne by done]; naive_solver.
Qed.
Lemma body_insert t x t' vm (m : gmap nat tstate) :
  <[t := x]> m !! t' = Some (Body vm) ↔ (t' = t ∧ x = Body vm) ∨ (t' ≠ t ∧ m !! t' = Some (Body vm)).
Proof.
  destruct (decide (t' = t)) as [->|Hne];
    [rewrite lookup_insert_eq|rewrite lookup_insert_ne by done]; naive_solver.
Qed.

(** *** A thread moves to [x], which runs no operation *)
Lemma one_insert t x (m : gmap nat tstate) :
  (∀ vm, x ≠ Body vm) → (∀ t1 t2 vm, m !! t1 = Some (Body vm) → m !! t2 = Some (Body vm) → t1 = t2) →
  ∀ t1 t2 vm, <[t := x]> m !! t1 = Some (Body vm) → <[t := x]> m !! t2 = Some (Body vm) → t1 = t2.
Proof.
  intros Hx H t1 t2 vm. rewrite !body_insert. intros [[_ ?]|[_ H1]] [[_ ?]|[_ H2]]; try (by destruct (Hx vm)).
  by eapply H.
Qed.
Lemma bodies_insert t x vm (m : gmap nat tstate) :
  (∀ vm, x ≠ Body vm) → (m !! t ≠ Some (Body vm)) →
  (∃ t', m !! t' = Some (Body vm)) ↔ ∃ t', <[t := x]> m !! t' = Some (Body vm).
Proof.
  intros Hx Ht. setoid_rewrite body_insert. split.
  - intros [t' H]. exists t'. right. split; [congruence|done].
  - intros (t' & [[_ ?]|[_ H]]); [by destruct (Hx vm)|eauto].
Qed.
Lemma releasing_other t x t' (m : gmap nat tstate) :
  x ≠ Closing → x ≠ Finally → releasing (<[t := x]> m !! t') → t' ≠ t ∧ releasing (m !! t').
Proof. intros H1 H2. rewrite releasing_insert. intros [[_ [?|?]]|?]; done. Qed.
Lemma releasing_keep t x t' (m : gmap nat tstate) :
  t' ≠ t → releasing (m !! t') → releasing (<[t := x]> m !! t').
Proof. intros H1 H2. rewrite releasing_insert. by right. Qed.
Lemma releasing_now t x (m : gmap nat tstate) : x = Closing ∨ x = Finally → releasing (<[t := x]> m !! t).
Proof. intros H. rewrite releasing_insert. by left. Qed.

(** What is left to show when no operation begins or ends. *)
Lemma ginv_moves t x s (cl cg cr : bool) :
  ginv s → (∀ vm, threads s !! t ≠ Some (Body vm)) → (∀ vm, x ≠ Body vm) →
  (∀ t', releasing (<[t := x]> (threads s) !! t') → cg = true ∧ cr = true ∧ active s = ∅) →
  (∀ t1 t2, releasing (<[t := x]> (threads s) !! t1) → releasing (<[t := x]> (threads s) !! t2) → t1 = t2) →
  (cl = true → cr = true ∧ active s = ∅) →
  (cr = true → cl = false → active s = ∅ →
     ∃ t', <[t := x]> (threads s) !! t' = Some CallsClose ∨ releasing (<[t := x]> (threads s) !! t')) →
  (cg = true → ∃ t', releasing (<[t := x]> (threads s) !! t')) →
  ginv {| closed := cl; closing := cg; close_requested := cr; active := active s; threads := <[t := x]> (threads s) |}.
Proof.
  intros [I1 I2 _ _ _ _ _] Ht Hx H1 H2 H3 H4 H5. split; simpl; try done; [by apply one_insert|].
  intros vm. rewrite I2. by apply bodies_insert.
Qed.

(** A step of a thread that neither held a computer nor the release. *)
Lemma ginv_plain t x s :
  ginv s → (∀ vm, threads s !! t ≠ Some (Body vm)) → ¬ releasing (threads s !! t) →
  threads s !! t ≠ Some CallsClose →
  (∀ vm, x ≠ Body vm) → x ≠ Closing → x ≠ Finally → ginv (at_thread t x s).
Proof.
  intros Hi Hb Hr Hc Hx1 Hx2 Hx3. pose proof Hi as [_ _ I3 I4 I5 I6 I7].
  assert (∀ t', releasing (<[t := x]> (threads s) !! t') → releasing (threads s !! t')) as Hsub.
  { intros t' [_ H]%releasing_other; done. }
  assert (∀ t', releasing (threads s !! t') → releasing (<[t := x]> (threads s) !! t')) as Hsup.
  { intros t' H. apply releasing_keep; [|done]. by intros ->. }
  apply ginv_moves; eauto.
  - intros H1 H2 H3. destruct (I6 H1 H2 H3) as (t' & [H|H]); exists t'; [left|by right; apply Hsup].
    rewrite lookup_insert_ne; [done|]. congruence.
  - intros H. destruct (I7 H) as (t' & H'). eauto.
Qed.

Lemma ginv_enter t vm action s : threads s !! t = Some (Entering vm action) → ginv s → ginv (guard_enter t vm action s).
Proof.
  intros Ht Hi. unfold guard_enter.
  assert (∀ r, ginv (at_thread t (Finished r) s)) as Hraise.
  { intros r. apply ginv_plain; rewrite ?Ht; try done. by intros [|]. }
  destruct (closed s) eqn:Hc; [done|]. destruct (close_requested s) eqn:Hq; [done|].
  case_bool_decide as Ha; [done|]. destruct Hi as [I1 I2 I3 I4 I5 I6 I7].
  assert (∀ t', ¬ releasing (threads s !! t')) as Hnr by (intros t' H; destruct (I3 t' H) as (_ & ? & _); congruence).
  assert (∀ t', ¬ releasing (<[t := Body vm]> (threads s) !! t')) as Hnr'.
  { intros t' [_ H]%releasing_other; [by apply (Hnr t')|done..]. }
  split; simpl; try congruence.
  - intros t1 t2 vm'. rewrite !body_insert. intros [[-> H1]|[H1 H2]] [[-> H3]|[H3 H4]]; simplify_eq; try done;
      [..|by eapply I1]; exfalso; apply Ha, I2; eauto.
  - intros vm'. rewrite elem_of_union, elem_of_singleton, I2. setoid_rewrite body_insert. split.
    + intros [->|[t' H]]; [by exists t; left|]. exists t'. right. split; [congruence|done].
    + intros (t' & [[-> [= ->]]|[_ H]]); [by left|right; eauto].
  - intros t' H. by destruct (Hnr' t').
  - intros t1 t2 H. by destruct (Hnr' t1).
  - intros H. destruct (I7 H) as (t' & H'). by destruct (Hnr t').
Qed.

Lemma ginv_exit t vm r s : threads s !! t = Some (Body vm) → ginv s → ginv (guard_exit t vm r s).
Proof.
  intros Ht [I1 I2 I3 I4 I5 I6 I7]. unfold guard_exit. cbv zeta.
  set (x := if _ : bool then CallsClose else Finished r).
  assert (∀ vm', x ≠ Body vm') as Hx1 by (intros; subst x; by case_match).
  assert (vm ∈ active s) as Hvm by (apply I2; eauto).
  assert (∀ t', ¬ releasing (threads s !! t')) as Hnr by (intros t' H; destruct (I3 t' H) as (_ & _ & He); set_solver).
  assert (∀ t', ¬ releasing (<[t := x]> (threads s) !! t')) as Hnr'.
  { intros t' [_ H]%releasing_other; [by apply (Hnr t')|subst x; by case_match..]. }
  split; simpl.
  - by apply one_insert.
  - intros vm'. rewrite elem_of_difference, elem_of_singleton, I2. setoid_rewrite body_insert. split.
    + intros [[t' H] Hne]. exists t'. right. split; [congruence|done].
    + intros (t' & [[-> ?]|[Hne H]]); [by destruct (Hx1 vm')|]. split; [eauto|]. intros ->. by apply Hne, (I1 t' t vm).
  - intros t' H. by destruct (Hnr' t').
  - intros t1 t2 H. by destruct (Hnr' t1).
  - intros H. destruct (I5 H) as [? He]. set_solver.
  - intros H1 H2 H3. exists t. left. rewrite lookup_insert_eq. subst x. rewrite H1. simpl. by rewrite bool_decide_true.
  - intros H. destruct (I7 H) as (t' & H'). by destruct (Hnr t').
Qed.

Lemma ginv_close t s : threads s !! t = Some CallsClose → ginv s → ginv (close_enter t s).
Proof.
  intros Ht Hi. pose proof Hi as [_ _ I3 I4 I5 I6 I7]. unfold close_enter.
  assert (∀ t', releasing (threads s !! t') → t' ≠ t) as Hne.
  { intros t' H ->. rewrite Ht in H. by destruct H. }
  assert (∀ t' (r : outcome unit), releasing (<[t := Finished r]> (threads s) !! t') → releasing (threads s !! t')) as Hsub.
  { intros t' r [_ H]%releasing_other; done. }
  destruct (closed s || closing s) eqn:Hc.
  { apply ginv_moves; try done; [by rewrite Ht|eauto|eauto| |].
    - intros H1 H2 H3. rewrite H2 in Hc. destruct (I7 Hc) as (t' & H'). exists t'. right. apply releasing_keep; auto.
    - intros H. destruct (I7 H) as (t' & H'). exists t'. apply releasing_keep; auto. }
  apply orb_false_iff in Hc as [Hc Hg]. rewrite Hc.
  assert (∀ t', ¬ releasing (threads s !! t')) as Hnr by (intros t' H; destruct (I3 t' H) as (? & _ & _); congruence).
  case_bool_decide as Ha; simpl; apply ginv_moves; try done; try (by rewrite Ht).
  - intros t1 t2. rewrite !releasing_insert. intros [[-> _]|[_ H1]] [[-> _]|[_ H2]]; try done; by destruct (Hnr _ H1) || destruct (Hnr _ H2).
  - intros _ _ _. exists t. right. apply releasing_now. by left.
  - intros _. exists t. apply releasing_now. by left.
  - intros t' H%Hsub. by destruct (Hnr t').
  - intros t1 t2 H%Hsub. by destruct (Hnr t1).
  - rewrite Hg. done.
Qed.

Lemma ginv_resources t ok s : threads s !! t = Some Closing → ginv s → ginv (resources_closed t ok s).
Proof.
  intros Ht Hi. pose proof Hi as [_ _ I3 I4 I5 I6 I7]. destruct (I3 t (or_introl Ht)) as (H1 & H2 & H3).
  assert (∀ t', releasing (<[t := Finally]> (threads s) !! t') → t' = t) as Hu.
  { intros t'. rewrite releasing_insert. intros [[-> _]|[_ H]]; [done|]. apply (I4 t' t H). by left. }
  apply ginv_moves; try done; [by rewrite Ht|..].
  - intros t1 t2 ->%Hu ->%Hu. done.
  - intros _ _ _. exists t. right. apply releasing_now. by right.
  - intros _. exists t. apply releasing_now. by right.
Qed.

Lemma ginv_finally t r s : threads s !! t = Some Finally → ginv s → ginv (close_finally t r s).
Proof.
  intros Ht Hi. pose proof Hi as [_ _ I3 I4 I5 I6 I7]. destruct (I3 t (or_intror Ht)) as (H1 & H2 & H3).
  assert (∀ t', ¬ releasing (<[t := Finished r]> (threads s) !! t')) as Hu.
  { intros t' [Hne H]%releasing_other; [|done..]. apply Hne, (I4 t' t H). by right. }
  apply ginv_moves; try done; [by rewrite Ht|..].
  - intros t' H. by destruct (Hu t').
  - intros t1 t2 H. by destruct (Hu t1).
  - intros Hc1 Hc2. congruence.
Qed.

Lemma guard_reachable_inv s : guard_reachable s → ginv s.
Proof.
  intros Hr. assert (ginv new_guard) as H0.
  { split; simpl; try done; try set_solver; intros t; unfold releasing; rewrite lookup_empty; naive_solver. }
  induction Hr as [|s1 s2 s3 Hs _ IH] in H0 |- *; [done|]. apply IH. destruct Hs as [t vm a s _ H|t s H|t vm a s H|t vm r s H|t s H|t ok s H|t r s H].
  - apply ginv_plain; rewrite ?H; try done. by intros [|].
  - apply ginv_plain; rewrite ?H; try done. by intros [|].
  - by apply ginv_enter.
  - by apply ginv_exit.
  - by apply ginv_close.
  - by apply ginv_resources.
  - by apply ginv_finally.
Qed.

(** C6: threads that share a manager never run two guarded operations
    (start, stop, delete) on the same computer at once; the resources are
    released by one thread at a time and only while no guarded operation runs;
    once the manager is closed none runs any more; and a close that was asked
    for while guarded operations ran is not lost: as soon as none is left, some
    thread is about to close or is closing. *)
Theorem operation_guard_safe s :
  guard_reachable s →
  (∀ t1 t2 vm, threads s !! t1 = Some (Body vm) → threads s !! t2 = Some (Body vm) → t1 = t2)
  ∧ (∀ t1 t2 vm, threads s !! t1 = Some Closing → threads s !! t2 ≠ Some (Body vm))
  ∧ (∀ t1 t2, threads s !! t1 = Some Closing → threads s !! t2 = Some Closing → t1 = t2)
  ∧ (closed s = true → ∀ t vm, threads s !! t ≠ Some (Body vm))
  ∧ (close_requested s = true → closed s = false → (∀ t vm, threads s !! t ≠ Some (Body vm)) →
     ∃ t, threads s !! t = Some CallsClose ∨ threads s !! t = Some Closing ∨ threads s !! t = Some Finally).
Proof.
  intros [I1 I2 I3 I4 I5 I6 I7]%guard_reachable_inv.
  assert (active s = ∅ ↔ ∀ t vm, threads s !! t ≠ Some (Body vm)) as Hidle.
  { split; [intros He t vm H; assert (vm ∈ active s) by (apply I2; eauto); set_solver|].
    intros H. apply set_eq. intros vm. rewrite I2. split; [intros [t Ht]; by destruct (H t vm)|set_solver]. }
  split_and!.
  - done.
  - intros t1 t2 vm H1. destruct (I3 t1 (or_introl H1)) as (_ & _ & He). by apply Hidle.
  - intros t1 t2 H1 H2. apply I4; by left.
  - intros Hc. apply Hidle. by apply I5.
  - intros H1 H2 H3%Hidle. exact (I6 H1 H2 H3).
Qed.

(** A close asked for during a start: the start's thread finishes it. *)
Definition demo_guard_state : gstate :=
  guard_exit 0 "dev" (Ret tt) (close_enter 1 (at_thread 1 CallsClose
    (guard_enter 0 "dev" "start" (at_thread 0 (Entering "dev" "start") new_guard)))).
Lemma operation_guard_safe_witness :
  threads demo_guard_state !! 1 = Some (Finished (Ret tt))
  ∧ ∃ t, threads demo_guard_state !! t = Some CallsClose ∨ threads demo_guard_state !! t = Some Closing
         ∨ threads demo_guard_state !! t = Some Finally.
Proof.
  split; [reflexivity|].
  assert (guard_reachable demo_guard_state) as Hr.
  { eapply rtc_l; [apply (step_calls_operation 0 "dev" "start"); [left|reflexivity]|].
    eapply rtc_l; [apply (step_enter 0 "dev" "start"); reflexivity|].
    eapply rtc_l; [apply (step_calls_close 1); reflexivity|].
    eapply rtc_l; [apply (step_close 1); reflexivity|].
    apply rtc_once. apply (step_exit 0 "dev" (Ret tt)). reflexivity. }
  destruct (operation_guard_safe demo_guard_state Hr) as (_ & _ & _ & _ & H).
  apply H; [reflexivity|reflexivity|]. intros t vm. change (threads demo_guard_state)
    with (<[0 := CallsClose]> (<[1 := Finished (Ret tt)]> (<[1 := CallsClose]> (<[0 := Body "dev"]>
           (<[0 := Entering "dev" "start"]> (∅ : gmap nat tstate)))))).
  destruct (decide (t = 0)) as [->|H0]; [discriminate|]. rewrite lookup_insert_ne by congruence.
  destruct (decide (t = 1)) as [->|H1]; [discriminate|]. do 2 rewrite lookup_insert_ne by congruence.
  do 2 rewrite lookup_insert_ne by congruence. discriminate.
Defined.
