(* ===== verification/Leftovers.v ===== *)
(** * vm.py: files that outlived their computer

    [find_leftover_artifacts] walks the disk and data directories for disks
    and logs no computer owns, [prune_leftover_artifacts] removes them.  Names
    are relative to the disk directory. *)
From S2P Require Import Prelude PyHoare PyDict PyStr StorageBase Types MemoryState StateProtocol.
From S2P Require Import NetworkSettings Channel EgressSession Backends.
From S2P Require Import ManagerState ManagerHelpers ManagerRuntime ManagerCreate ManagerLifecycle ManagerFrames.
From S2P Require Import StateProtocolMemory.
From stdpp Require Import options sorting.
From Stdlib Require Import Ascii.

(** Where a leftover lies: in the disk directory or in the data directory. *)
Inductive place := in_disks (name : string) | in_data (name : string).
#[global] Instance place_eq_dec : EqDecision place.
Proof. solve_decision. Defined.

Record LeftoverArtifact := {
  la_vm_id : string;
  la_path : place;
  la_size_bytes : Z;
  la_kind : string;
  la_retained : bool }.

(** [name[:-len(".log")]] *)
Definition log_vm_id (name : string) : string := String.substring 0 (String.length name - 4) name.
Definition is_log_name (name : string) : bool := String.eqb name (log_vm_id name +:+ ".log").

Section leftovers.
Context (E : menv) {St : Type} `{!StateManager St}.
Local Abbreviation M := (py (mgr St)).

Definition path_of (p : place) : path :=
  match p with in_disks n => disk_path_of E n | in_data n => e_data_dir E +:+ "/" +:+ n end.

(** [sorted(..., key=lambda l: (l.vm_id, str(l.path)))] *)
Definition leftover_le (x y : LeftoverArtifact) : Prop :=
  match String.compare (la_vm_id x) (la_vm_id y) with
  | Lt => True
  | Eq => str_le (path_of (la_path x)) (path_of (la_path y))
  | Gt => False
  end.
#[global] Instance leftover_le_dec : RelDecision leftover_le.
Proof. intros x y. unfold leftover_le. destruct String.compare; apply _. Defined.

Definition _file_size (p : place) : M Z :=
  let! n := tick in py_return (default 0%Z (e_file_size E n (path_of p))).

Definition _path_in_use (p : path) (process_args : string) : bool :=
  contains p process_args || contains (e_resolve E p) process_args.

(** A disk's name is an identifier, one dot, and a disk suffix. *)
Definition is_managed_disk (name : string) : bool :=
  match str_split "."%char name with
  | [stem; suffix] => negb (String.eqb stem "") && bool_decide (suffix ∈ ["qcow2"; "ext4"])
  | _ => false
  end.
Definition _all_managed_disks (disks : gmap string nat) : list string :=
  filter (λ n, is_managed_disk n = true) (dir_files disks).

Definition leftover (vm kind : string) (retained : bool) (p : place) : M LeftoverArtifact :=
  let! size := _file_size p in
  py_return {| la_vm_id := vm; la_path := p; la_size_bytes := size; la_kind := kind; la_retained := retained |}.
Fixpoint leftovers_of (vm kind : string) (retained : bool) (ps : list place) : M (list LeftoverArtifact) :=
  match ps with
  | [] => py_return []
  | p :: ps' => let! a := leftover vm kind retained p in
                let! l := leftovers_of vm kind retained ps' in
                py_return (a :: l)
  end.

(** The loop over the disks. *)
Fixpoint disk_leftovers (live_ids : list string) (in_use : string) (ds : list string) : M (list LeftoverArtifact) :=
  match ds with
  | [] => py_return []
  | d :: ds' =>
      let vm := rsplit_head "."%char d in
      let! here :=
        (if bool_decide (vm ∈ live_ids) then py_return []
         else if _path_in_use (disk_path_of E d) in_use then py_return []
         else
           let! g := py_get in
           let retained := exists_disk (_retained_marker d) g in
           let! files := leftovers_of vm "disk" retained
                           (in_disks <$> d :: _managed_disk_companions E (g_disks g) d) in
           let! log := (if bool_decide (vm +:+ ".log" ∈ g_logs g)
                        then leftovers_of vm "log" retained [in_data (vm +:+ ".log")] else py_return []) in
           py_return (files ++ log)) in
      let! rest := disk_leftovers live_ids in_use ds' in
      py_return (here ++ rest)
  end.

(** The loop over the logs. *)
Fixpoint log_leftovers (live_ids : list string) (seen : list place) (logs : list string) : M (list LeftoverArtifact) :=
  match logs with
  | [] => py_return []
  | n :: logs' =>
      let! here := (if bool_decide (in_data n ∈ seen) || bool_decide (log_vm_id n ∈ live_ids) then py_return []
                    else leftovers_of (log_vm_id n) "log" false [in_data n]) in
      let! rest := log_leftovers live_ids seen logs' in
      py_return (here ++ rest)
  end.

Definition session_ids (s : BrowserSessionInfo) : list string :=
  session_id s :: (if String.eqb (bs_vm_id s) "" then [] else [bs_vm_id s]).

(** The computers and sessions the inventory knows. *)
Definition live_ids_of : M (list string) :=
  let! vms := on_state (sm_list_vms None) in
  let! sessions := py_try (on_state (sm_list_browser_sessions None)) (λ _, py_return []) in
  py_return ((vi_vm_id <$> vms) ++ (sessions ≫= session_ids)).

Definition find_leftover_artifacts : M (list LeftoverArtifact) :=
  let! live_ids := live_ids_of in
  let! n := tick in
  match e_process_args E n with
  | None => py_raise (CelestoError "Cannot check which computers are running right now, so nothing was deleted. Retry 'celesto computer prune' in a moment.")
  | Some in_use =>
      let! g := py_get in
      let! disks := disk_leftovers live_ids in_use (_all_managed_disks (g_disks g)) in
      let logs := merge_sort str_le (filter (λ n, is_log_name n = true) (elements (g_logs g))) in
      let! logs := log_leftovers live_ids (la_path <$> disks) logs in
      py_return (merge_sort leftover_le (disks ++ logs))
  end.

Definition leftover_paths_for_vm (vm : string) (g : mgr St) : list place :=
  let paths := filter (λ n, exists_disk n g = true) [vm +:+ ".qcow2"; vm +:+ ".ext4"] in
  (in_disks <$> paths ++ (paths ≫= _managed_disk_companions E (g_disks g)))
  ++ (if bool_decide (vm +:+ ".log" ∈ g_logs g) then [in_data (vm +:+ ".log")] else []).

(** [leftover.path.unlink()] *)
Definition unlink_place (p : place) : M unit :=
  match p with
  | in_disks n => unlink E n
  | in_data n => let! c := tick in
                 do! raise_if (e_unlink E c n) tt in
                 py_modify (λ g, g_set_logs (g_logs g ∖ {[n]}) g)
  end.
Fixpoint remove_leftovers (l : list LeftoverArtifact) : M (list LeftoverArtifact) :=
  match l with
  | [] => py_return []
  | a :: l' =>
      let! here := py_try (do! unlink_place (la_path a) in py_return [a])
                     (λ e, match e with OSErrorExn _ => py_return [] | _ => py_raise e end) in
      let! rest := remove_leftovers l' in
      py_return (here ++ rest)
  end.

Definition prune_leftover_artifacts (include_retained dry_run : bool) : M (list LeftoverArtifact) :=
  let! all := find_leftover_artifacts in
  let removable := filter (λ a, include_retained || negb (la_retained a) = true) all in
  if dry_run then py_return removable else remove_leftovers removable.
End leftovers.

(** ** Names *)
Lemma split_app_sep sep a b : str_split sep (a +:+ String sep b) = str_split sep a ++ str_split sep b.
Proof.
  induction a as [|c a IH].
  - change ("" +:+ String sep b) with (String sep b). simpl. by rewrite Ascii.eqb_refl.
  - change (String c a +:+ String sep b) with (String c (a +:+ String sep b)). simpl. rewrite IH.
    destruct (Ascii.eqb c sep); [done|]. pose proof (str_split_nonempty sep a). by destruct (str_split sep a).
Qed.
Lemma split_clean sep s : Forall (λ w, contains_char sep w = false) (str_split sep s).
Proof.
  induction s as [|c s IH]; simpl; [by constructor|].
  destruct (Ascii.eqb_spec c sep); [by constructor|].
  assert (∀ w, contains_char sep w = false → contains_char sep (String c w) = false) as Hcons.
  { unfold contains_char, str_any. simpl. intros w Hw. destruct (Ascii.eqb_spec sep c); [congruence|done]. }
  destruct (str_split sep s) as [|w ws]; [|apply Forall_cons in IH as [? ?]]; constructor; auto.
Qed.
Lemma rsplit_head_app sep a b : contains_char sep b = false → rsplit_head sep (a +:+ String sep b) = a.
Proof.
  intros Hb. induction a as [|c a IH].
  - change ("" +:+ String sep b) with (String sep b). simpl. by rewrite Ascii.eqb_refl, Hb.
  - change (String c a +:+ String sep b) with (String c (a +:+ String sep b)). cbn [rsplit_head].
    assert (contains_char sep (a +:+ String sep b) = true) as ->; [|by rewrite andb_false_r, IH].
    unfold contains_char, str_any. rewrite str_all_app. simpl. by rewrite Ascii.eqb_refl, andb_false_r.
Qed.

(** The computer a file of the disk directory is named after: the text before
    the first dot of its name. *)
Definition owner_id (f : path) : string := default "" (head (str_split "."%char (path_name f))).

Lemma path_name_flat n : contains_char "/"%char n = false → path_name n = n.
Proof. intros H. unfold path_name. by rewrite str_split_single. Qed.
Lemma path_name_app root n : path_name (root +:+ "/" +:+ n) = path_name n.
Proof.
  unfold path_name. change ("/" +:+ n) with (String "/"%char n). rewrite split_app_sep, last_app. pose proof (str_split_nonempty "/"%char n) as H.
  destruct (last (str_split "/"%char n)) eqn:Hl; [done|]. by apply last_None in Hl.
Qed.
Lemma path_name_relative root p :
  startswith (root +:+ "/") p = true → path_name (relative_to root p) = path_name p.
Proof.
  intros [t ->]%startswith_inv. rewrite string_app_assoc, path_name_app. f_equal. unfold relative_to.
  replace (S (String.length root)) with (String.length (root +:+ "/")) by (rewrite string_length_app; simpl; lia).
  rewrite <- string_app_assoc. destruct (String.eqb_spec ((root +:+ "/") +:+ t) root) as [Heq|_].
  { apply (f_equal String.length) in Heq. rewrite !string_length_app in Heq. simpl in Heq. lia. }
  apply substring_after. rewrite !string_length_app. lia.
Qed.

Lemma managed_disk_parts d :
  is_managed_disk d = true → contains_char "/"%char d = false →
  rsplit_head "."%char d = owner_id d ∧ ∃ suffix, str_split "."%char d = [owner_id d; suffix].
Proof.
  unfold is_managed_disk, owner_id. intros H Hs. rewrite path_name_flat by done.
  pose proof (str_join_split "."%char d) as Hj. pose proof (split_clean "."%char d) as Hc.
  destruct (str_split "."%char d) as [|a [|b []]] eqn:Hd; try done. simpl in *.
  apply Forall_cons in Hc as [_ Hc]. apply Forall_cons in Hc as [Hb _].
  split; [|by exists b]. rewrite <- Hj. by apply rsplit_head_app.
Qed.
(** A file named after a disk is named after its computer. *)
Lemma owner_of_companion d f :
  is_managed_disk d = true → contains_char "/"%char d = false →
  startswith (d +:+ ".") (path_name f) = true → owner_id f = owner_id d.
Proof.
  intros Hd Hs [t Ht]%startswith_inv. destruct (managed_disk_parts d Hd Hs) as [_ [b Hb]].
  unfold owner_id at 1. rewrite Ht, string_app_assoc.
  change ("." +:+ t) with (String "."%char t). by rewrite split_app_sep, Hb.
Qed.

Lemma dir_files_elem disks n :
  n ∈ dir_files disks ↔ is_Some (disks !! n) ∧ contains_char "/"%char n = false.
Proof.
  unfold dir_files. rewrite (merge_sort_Permutation str_le), list_elem_of_filter, elem_of_elements, elem_of_dom. tauto.
Qed.

(** ** What is found *)
Section found.
Context (E : menv) {St : Type} `{!StateManager St}.
Implicit Types g : mgr St.

Lemma sidecar_named fuel disks d seen current f :
  f ∈ sidecar_loop E fuel disks d seen current → f = "." ∨ startswith (d +:+ ".") (path_name f) = true.
Proof.
  revert seen current. induction fuel as [|fuel IH]; intros seen current; [set_solver|].
  cbn [sidecar_loop]. destruct (e_backing_file E disks current) as [b|]; [|set_solver].
  cbv zeta. case_bool_decide; [set_solver|].
  destruct (under _ (e_resolve E b)) eqn:Hu; [|set_solver].
  destruct (_is_managed_disk_sidecar d (path_name (e_resolve E b))) eqn:Hs; [|set_solver].
  cbn [negb]. rewrite elem_of_cons. intros [->|Hf]; [|by eapply IH].
  unfold under in Hu. apply orb_true_iff in Hu as [Hu|Hu]; [left; unfold relative_to; by rewrite Hu|right].
  rewrite path_name_relative by done. unfold _is_managed_disk_sidecar in Hs.
  apply orb_true_iff in Hs as [Hs|[Hs _]%andb_true_iff]; apply startswith_inv in Hs as [t ->];
    rewrite string_app_assoc; [change (".backing-" +:+ t) with ("." +:+ ("backing-" +:+ t))
                              |change (".restore-" +:+ t) with ("." +:+ ("restore-" +:+ t))];
    rewrite <- string_app_assoc; apply startswith_app.
Qed.
(** The fuel of [_managed_disk_backing_sidecars] is enough: only files that
    exist have a backing file, and none is followed twice. *)
Lemma filter_shrinks (r : path) seen files :
  r ∈ files → r ∉ seen → length (filter (.∉ r :: seen) files) < length (filter (.∉ seen) files).
Proof.
  intros Hr Hs.
  assert (∀ l : list path, length (filter (.∉ r :: seen) l) ≤ length (filter (.∉ seen) l)) as Hle.
  { induction l as [|x l IH]; [done|]. rewrite !filter_cons. repeat case_decide; simpl; set_solver by lia. }
  induction files as [|x files IH]; [set_solver|]. rewrite !filter_cons. specialize (Hle files).
  apply elem_of_cons in Hr as [->|Hr].
  - rewrite decide_False, decide_True by set_solver. simpl. lia.
  - specialize (IH Hr). repeat case_decide; simpl; try lia. set_solver.
Qed.
Lemma sidecar_loop_fuel fuel extra disks d seen current files :
  (∀ p b, e_backing_file E disks p = Some b → p ∈ files) → length (filter (.∉ seen) files) < fuel →
  sidecar_loop E (fuel + extra) disks d seen current = sidecar_loop E fuel disks d seen current.
Proof.
  intros Hfiles. revert seen current. induction fuel as [|fuel IH]; intros seen current Hf; [lia|].
  cbn [Nat.add sidecar_loop]. destruct (e_backing_file E disks current) as [b|]; [|done]. cbv zeta.
  case_bool_decide as Hs; [done|]. destruct (under _ _); [|done]. destruct (_is_managed_disk_sidecar _ _); [|done].
  cbn [negb]. f_equal. destruct (decide (e_resolve E b ∈ files)) as [Hr|Hr].
  - apply IH. pose proof (filter_shrinks _ _ _ Hr Hs). lia.
  - destruct (e_backing_file E disks (e_resolve E b)) as [b'|] eqn:Hb; [by apply Hfiles in Hb|].
    destruct fuel, extra; cbn [Nat.add sidecar_loop]; by rewrite ?Hb.
Qed.

Lemma companion_named disks d f :
  f ∈ _managed_disk_companions E disks d → f = "." ∨ startswith (d +:+ ".") (path_name f) = true.
Proof.
  unfold _managed_disk_companions. rewrite elem_of_app, list_elem_of_filter. intros [Hf|[[Hf _] Hd]].
  - by eapply sidecar_named.
  - right. apply dir_files_elem in Hd as [_ Hd]. by rewrite path_name_flat.
Qed.

(** Only the call counter moves. *)
Definition counted g g' : Prop := g' = g_set_calls (g_calls g') g.
Lemma counted_refl g : counted g g.
Proof. by destruct g. Qed.
Lemma counted_trans g1 g2 g3 : counted g1 g2 → counted g2 g3 → counted g1 g3.
Proof. unfold counted. intros H2 H3. rewrite H3, H2. done. Qed.

Lemma leftovers_of_spec vm kind ret ps g :
  wp (leftovers_of E vm kind ret ps)
    (λ l g', counted g g' ∧ ∀ a, a ∈ l → la_vm_id a = vm ∧ la_retained a = ret ∧ la_path a ∈ ps)
    (λ _ _, False) g.
Proof.
  revert g. induction ps as [|p ps IH]; intros g; cbn [leftovers_of].
  { apply wp_return. split; [apply counted_refl|set_solver]. }
  apply wp_bind. unfold leftover, _file_size. apply wp_bind, wp_bind, wp_tick, wp_return, wp_return.
  apply wp_bind. eapply wp_mono; [apply IH| |done]. intros l g' [Hc Hl]. apply wp_return.
  split; [exact (counted_trans _ _ _ eq_refl Hc)|]. intros a [->|Ha]%elem_of_cons; [set_solver|].
  destruct (Hl a Ha) as (? & ? & ?). set_solver.
Qed.

(** Why a file may be reported, given the known computers and the text of the
    running commands. *)
Definition unowned_disk (live : list string) (args : string) g (d : string) : Prop :=
  d ∈ _all_managed_disks (g_disks g) ∧ ¬ (rsplit_head "."%char d ∈ live) ∧ (_path_in_use E (disk_path_of E d) args = false).
Definition reported (live : list string) (args : string) g (a : LeftoverArtifact) : Prop :=
  match la_path a with
  | in_disks f => ∃ d, unowned_disk live args g d ∧ (f = d ∨ f ∈ _managed_disk_companions E (g_disks g) d)
                       ∧ la_retained a = exists_disk (_retained_marker d) g
  | in_data n => n = (la_vm_id a +:+ ".log") ∧ la_vm_id a ∉ live
  end.

Lemma disk_leftovers_spec live args ds g0 g :
  counted g0 g → (∀ d, d ∈ ds → d ∈ _all_managed_disks (g_disks g0)) →
  wp (disk_leftovers E live args ds) (λ l g', counted g0 g' ∧ ∀ a, a ∈ l → reported live args g0 a)
    (λ _ _, False) g.
Proof.
  revert g. induction ds as [|d ds IH]; intros g Hc Hds; cbn [disk_leftovers].
  { apply wp_return. split; [done|set_solver]. }
  apply wp_bind. apply (wp_mono _ (λ l g', counted g0 g' ∧ ∀ a, a ∈ l → reported live args g0 a) _ (λ _ _, False)).
  2: { intros l1 g1 [Hc1 H1]. apply wp_bind. eapply wp_mono; [apply (IH g1 Hc1); set_solver| |done].
       intros l2 g2 [Hc2 H2]. apply wp_return. split; [done|]. intros a [?|?]%elem_of_app; auto. }
  2: done.
  case_bool_decide as Hl; [apply wp_return; split; [done|set_solver]|].
  destruct (_path_in_use E (disk_path_of E d) args) eqn:Hu; [apply wp_return; split; [done|set_solver]|].
  apply wp_bind, wp_get. assert (g_disks g = g_disks g0) as Hdisks by (by rewrite Hc).
  assert (unowned_disk live args g0 d) as Hd by (split_and!; [apply Hds; set_solver|done..]).
  apply wp_bind. eapply wp_mono; [apply leftovers_of_spec| |done]. intros l1 g1 [Hc1 H1].
  apply wp_bind. apply (wp_mono _ (λ l g', counted g1 g' ∧ ∀ a, a ∈ l → reported live args g0 a) _ (λ _ _, False)).
  - case_bool_decide; [|apply wp_return; split; [apply counted_refl|set_solver]].
    eapply wp_mono; [apply leftovers_of_spec| |done]. intros l2 g2 [Hc2 H2]. split; [done|].
    intros a Ha. destruct (H2 a Ha) as (Hv & _ & Hp). unfold reported.
    apply list_elem_of_singleton in Hp. rewrite Hp, Hv. done.
  - intros l2 g2 [Hc2 H2]. apply wp_return.
    split; [by eapply counted_trans; [|eapply counted_trans]|]. intros a [Ha|Ha]%elem_of_app; [|by apply H2].
    destruct (H1 a Ha) as (Hv & Hr & Hp). unfold reported.
    apply list_elem_of_fmap in Hp as (f & -> & Hf). exists d. split; [done|]. rewrite <- Hdisks.
    split; [by apply elem_of_cons|]. unfold exists_disk in *. by rewrite Hr, Hdisks.
  - done.
Qed.

Lemma log_leftovers_spec live args seen logs g0 g :
  counted g0 g → (∀ n, n ∈ logs → is_log_name n = true) →
  wp (log_leftovers E live seen logs) (λ l g', counted g0 g' ∧ ∀ a, a ∈ l → reported live args g0 a)
    (λ _ _, False) g.
Proof.
  revert g. induction logs as [|n logs IH]; intros g Hc Hn; cbn [log_leftovers].
  { apply wp_return. split; [done|set_solver]. }
  apply wp_bind. apply (wp_mono _ (λ l g', counted g0 g' ∧ ∀ a, a ∈ l → reported live args g0 a) _ (λ _ _, False)).
  - case_bool_decide; [apply wp_return; split; [done|set_solver]|].
    case_bool_decide as Hl; [apply wp_return; split; [done|set_solver]|]. cbn [orb].
    eapply wp_mono; [apply leftovers_of_spec| |done]. intros l g' [Hc' H']. split; [by eapply counted_trans|].
    intros a Ha. destruct (H' a Ha) as (Hv & _ & Hp). apply list_elem_of_singleton in Hp.
    unfold reported. rewrite Hp, Hv. split; [|done]. apply String.eqb_eq, Hn. set_solver.
  - intros l1 g1 [Hc1 H1]. apply wp_bind. eapply wp_mono; [apply (IH g1 Hc1); set_solver| |done].
    intros l2 g2 [Hc2 H2]. apply wp_return. split; [done|]. intros a [?|?]%elem_of_app; auto.
  - done.
Qed.

(** Everything but the disk directory, the logs and the call counter. *)
Definition rest_of g := (core g, g_net g, g_firmware g, g_bundles g).

(** The files as they were, but for those of the leftovers [l]. *)
Record files_but (l : list LeftoverArtifact) g g' : Prop := {
  fb_rest : rest_of g' = rest_of g;
  fb_disks : g_disks g' ⊆ g_disks g;
  fb_logs : g_logs g' ⊆ g_logs g;
  fb_gone_disk f : is_Some (g_disks g !! f) → g_disks g' !! f = None → ∃ a, a ∈ l ∧ la_path a = in_disks f;
  fb_gone_log n : n ∈ g_logs g → n ∉ g_logs g' → ∃ a, a ∈ l ∧ la_path a = in_data n }.

Lemma files_but_refl l g : files_but l g g.
Proof. split; try done. by intros f [c ->]. Qed.
Lemma files_but_trans l1 l2 g1 g2 g3 :
  files_but l1 g1 g2 → files_but l2 g2 g3 → files_but (l1 ++ l2) g1 g3.
Proof.
  intros [C1 D1 L1 GD1 GL1] [C2 D2 L2 GD2 GL2]. split; [congruence|by etrans..| |].
  - intros f Hf H3. destruct (g_disks g2 !! f) as [c|] eqn:H2.
    + destruct (GD2 f) as (a & ? & ?); [eauto..|]. set_solver.
    + destruct (GD1 f) as (a & ? & ?); [done..|]. set_solver.
  - intros n Hn H3. destruct (decide (n ∈ g_logs g2)) as [H2|H2].
    + destruct (GL2 n) as (a & ? & ?); [done..|]. set_solver.
    + destruct (GL1 n) as (a & ? & ?); [done..|]. set_solver.
Qed.
Lemma files_but_counted l g k : files_but l g (g_set_calls k g).
Proof. split; try done. simpl. by intros f [c ->]. Qed.

Definition gone (a : LeftoverArtifact) g : Prop :=
  match la_path a with in_disks f => g_disks g !! f = None | in_data n => n ∉ g_logs g end.
Lemma gone_later l a g g' : gone a g → files_but l g g' → gone a g'.
Proof.
  unfold gone. intros Ha [_ Hd Hl _ _]. destruct (la_path a) as [f|n]; [|set_solver].
  destruct (g_disks g' !! f) as [c|] eqn:Hf; [|done]. by rewrite (lookup_weaken _ _ _ _ Hf Hd) in Ha.
Qed.

Lemma unlink_place_spec a g :
  wp (unlink_place E (la_path a)) (λ _ g', files_but [a] g g' ∧ gone a g') (λ _ g', files_but [a] g g') g.
Proof.
  unfold unlink_place, gone. destruct (la_path a) as [f|n] eqn:Hp.
  - unfold unlink. apply wp_bind, wp_tick. destruct (e_unlink E (g_calls g) f).
    { apply wp_raise, files_but_counted. }
    apply wp_modify. split; [split|]; simpl; [done|apply delete_subseteq|done| |done|by rewrite lookup_delete_eq].
    intros f' [c Hf'] Hn. rewrite lookup_delete_None in Hn. destruct Hn as [<-|Hn]; [|congruence].
    exists a. by rewrite list_elem_of_singleton.
  - apply wp_bind, wp_tick, wp_bind. unfold raise_if. destruct (e_unlink E (g_calls g) n).
    { apply wp_raise, files_but_counted. }
    apply wp_return, wp_modify. split; [split|]; simpl; [done|done|set_solver| | |set_solver].
    + by intros f' [c ->].
    + intros n' H1 H2. exists a. rewrite list_elem_of_singleton, Hp. split; [done|].
      destruct (decide (n' = n)) as [->|]; [done|]. set_solver.
Qed.

Lemma remove_leftovers_spec l g :
  wp (remove_leftovers E l) (λ r g', files_but l g g' ∧ ∀ a, a ∈ r → a ∈ l ∧ gone a g')
    (λ _ g', files_but l g g') g.
Proof.
  revert g. induction l as [|a l IH]; intros g; cbn [remove_leftovers].
  { apply wp_return. split; [apply files_but_refl|set_solver]. }
  apply wp_bind. apply (wp_mono _ (λ r g', files_but [a] g g' ∧ ∀ x, x ∈ r → x = a ∧ gone x g') _
                          (λ _ g', files_but [a] g g')).
  - apply wp_try, wp_bind. eapply wp_mono; [apply unlink_place_spec|..].
    + intros [] g' [Hf Hg]. apply wp_return. split; [done|]. intros x ->%list_elem_of_singleton. done.
    + intros e g' Hf. destruct e; try (by apply wp_raise). apply wp_return. split; [done|set_solver].
  - intros r g1 [H1 Hr]. apply wp_bind. eapply wp_mono; [apply (IH g1)|..].
    + intros r' g2 [H2 Hr']. apply wp_return. split; [exact (files_but_trans [a] l _ _ _ H1 H2)|].
      intros x [Hx|Hx]%elem_of_app.
      * destruct (Hr x Hx) as [-> ?]. split; [set_solver|by eapply gone_later].
      * destruct (Hr' x Hx). set_solver.
    + intros e g2 H2. exact (files_but_trans [a] l _ _ _ H1 H2).
  - intros e g1 H1. apply (files_but_trans [a] l g g1 g1 H1), files_but_refl.
Qed.
End found.

Section prune.
Context (E : menv) {St : Type} `{!StateManager St, !StateManagerLaws St}.
Implicit Types g : mgr St.

(** The inventory as it was, and nothing else but the counter moved. *)
Definition looked g g' : Prop := ∃ s', same_view (g_state g) s' ∧ counted (g_set_state s' g) g'.

(** Every computer of the inventory is known; so is every session when the
    sessions can be listed. *)
Definition knows (live : list string) (s : St) : Prop :=
  (∀ vm i, iv_vms (sm_view s) !! vm = Some i → vm ∈ live)
  ∧ ((∀ s, sm_ok s → raised (sm_list_browser_sessions None s).2 = false) →
     ∀ x id, x ∈ sm_sessions s → id ∈ session_ids x → id ∈ live).

Lemma live_ids_spec g : sm_ok (g_state g) →
  wp live_ids_of
    (λ live g', (∃ s', same_view (g_state g) s' ∧ g' = g_set_state s' g) ∧ knows live (g_state g))
    (λ _ g', ∃ s', same_view (g_state g) s' ∧ g' = g_set_state s' g) g.
Proof.
  intros Hok. unfold live_ids_of. apply wp_bind, wp_on_state.
  eapply wp_mono; [by apply law_list| |intros e s' Hs; by exists s'].
  intros vms s1 ([Hok1 Hv1] & Hses & Hvms). apply wp_bind.
  assert (∀ vm i, iv_vms (sm_view (g_state g)) !! vm = Some i → vm ∈ vi_vm_id <$> vms) as Hlive.
  { intros vm i Hi. pose proof (ok_ids _ _ _ Hok Hi) as <-. apply list_elem_of_fmap. exists i. split; [done|].
    by apply Hvms. }
  destruct (sm_list_browser_sessions None s1) as [s2 r] eqn:Hl.
  pose proof (law_list_sessions None s1 Hok1) as Hlaw. apply wp_eq with (1 := Hlaw) in Hl as Hr.
  assert (same_view (g_state g) s2) as Hsame.
  { destruct r; simpl in Hr; [destruct Hr as [[? Hv] _]|destruct Hr as [? Hv]]; split; congruence. }
  unfold wp, py_try, on_state. simpl. rewrite Hl.
  destruct r as [l|e]; simpl; (split; [by exists s2|split]).
  - intros vm i Hi. apply elem_of_app. left. eauto.
  - intros _ x id Hx Hid. destruct Hr as [_ Hr]. apply elem_of_app. right. apply list_elem_of_bind.
    exists x. split; [done|]. apply Hr. by rewrite Hses.
  - intros vm i Hi. apply elem_of_app. left. eauto.
  - intros Hnr. specialize (Hnr s1 Hok1). by rewrite Hl in Hnr.
Qed.

Lemma find_spec g : sm_ok (g_state g) →
  wp (find_leftover_artifacts E)
    (λ l g', looked g g' ∧ ∃ live args, knows live (g_state g) ∧ e_process_args E (g_calls g) = Some args
               ∧ ∀ a, a ∈ l → reported E live args g a)
    (λ _ g', looked g g') g.
Proof.
  intros Hok. unfold find_leftover_artifacts. apply wp_bind.
  eapply wp_mono; [by apply live_ids_spec| |].
  2: { intros e g' (s' & Hs & ->). exists s'. split; [done|]. apply counted_refl. }
  intros live g1 [(s' & Hs & ->) Hk]. apply wp_bind, wp_tick. simpl.
  destruct (e_process_args E (g_calls g)) as [args|] eqn:Ha; [|by apply wp_raise; exists s'].
  set (g1 := g_set_state s' g). apply wp_bind, wp_get, wp_bind.
  eapply wp_mono; [apply (disk_leftovers_spec E live args _ g1); [done|done]| |done].
  intros l1 g2 [Hc2 H1]. apply wp_bind.
  eapply wp_mono; [apply (log_leftovers_spec E live args _ _ g1); [done|]| |done].
  { intros n. rewrite (merge_sort_Permutation str_le), list_elem_of_filter. by intros []. }
  intros l2 g3 [Hc3 H2]. apply wp_return. split; [by exists s'|]. exists live, args. split_and!; [done..|].
  intros a. rewrite (merge_sort_Permutation (leftover_le E)), elem_of_app.
  intros [Hx|Hx]; [apply H1 in Hx|apply H2 in Hx]; exact Hx.
Qed.

(** Why [f] of the disk directory may be removed. *)
Definition abandoned (include_retained : bool) (args : string) g (f : string) : Prop :=
  ∃ d, is_managed_disk d = true ∧ is_Some (g_disks g !! d)
       ∧ (f = d ∨ startswith (d +:+ ".") (path_name f) = true) ∧ owner_id f = owner_id d
       ∧ _path_in_use E (disk_path_of E d) args = false
       ∧ (include_retained = true ∨ g_disks g !! _retained_marker d = None).
(** A computer the inventory knows. *)
Definition known g (id : string) : Prop :=
  is_Some (iv_vms (sm_view (g_state g)) !! id)
  ∨ (∀ s, sm_ok s → raised (sm_list_browser_sessions None s).2 = false)
    ∧ ∃ x, x ∈ sm_sessions (g_state g) ∧ id ∈ session_ids x.

Lemma knows_known live g id : knows live (g_state g) → known g id → id ∈ live.
Proof. intros [H1 H2] [[i Hi]|[Hr (x & Hx & Hid)]]; eauto. Qed.

Lemma reported_disk live args g a f inc :
  knows live (g_state g) → reported E live args g a → la_path a = in_disks f → f ≠ "." →
  inc || negb (la_retained a) = true → abandoned inc args g f ∧ ¬ known g (owner_id f).
Proof.
  intros Hk Hr Hp Hdot Hinc. unfold reported in Hr. rewrite Hp in Hr.
  destruct Hr as (d & (Hd & Hlive & Hu) & Hf & Hret).
  unfold _all_managed_disks in Hd. apply list_elem_of_filter in Hd as [Hm Hd].
  apply dir_files_elem in Hd as [Hd Hs]. destruct (managed_disk_parts d Hm Hs) as [Hown _].
  assert (f = d ∨ startswith (d +:+ ".") (path_name f) = true) as Hf'.
  { destruct Hf as [->|[?|?]%companion_named]; [by left|done|by right]. }
  assert (owner_id f = owner_id d) as Ho.
  { destruct Hf' as [->|Hf']; [done|]. by apply owner_of_companion. }
  split; [|rewrite Ho, <- Hown; intros Hkn; by apply Hlive, (knows_known _ g)].
  exists d. split_and!; try done. apply orb_true_iff in Hinc as [->|Hinc]; [by left|right].
  rewrite Hret in Hinc. unfold exists_disk in Hinc. by destruct (g_disks g !! _retained_marker d).
Qed.

(** What a run of prune did: it looked, and removed some reported files. *)
Definition pruned (inc dry : bool) g g' : Prop :=
  looked g g' ∨ ∃ g1 l live args, looked g g1 ∧ files_but l g1 g' ∧ dry = false
    ∧ knows live (g_state g) ∧ e_process_args E (g_calls g) = Some args
    ∧ ∀ a, a ∈ l → reported E live args g a ∧ inc || negb (la_retained a) = true.

Lemma prune_spec inc dry g : sm_ok (g_state g) →
  wp (prune_leftover_artifacts E inc dry)
    (λ l g', pruned inc dry g g' ∧ (dry = false → ∀ a, a ∈ l → gone a g')) (λ _, pruned inc dry g) g.
Proof.
  intros Hok. apply wp_bind. eapply wp_mono; [by apply find_spec| |intros e g1 ?; by left].
  intros l g1 (Hl & live & args & Hk & Ha & Hrep). cbv zeta. destruct dry.
  { apply wp_return. split; [by left|done]. }
  eapply wp_mono; [apply remove_leftovers_spec|..].
  - intros l' g2 [Hf Hg]. split; [|intros _ a Hx; by apply Hg]. right. eexists g1, _, live, args.
    split; [exact Hl|]. split; [exact Hf|]. do 3 (split; [done|]). intros a [? ?]%list_elem_of_filter. auto.
  - intros e g2 Hf. right. eexists g1, _, live, args.
    split; [exact Hl|]. split; [exact Hf|]. do 3 (split; [done|]). intros a [? ?]%list_elem_of_filter. auto.
Qed.
End prune.

(** C7: pruning only removes disks nobody owns and logs of computers that are
    not known, whatever the machine answers.  The inventory, the processes, the
    egress sessions, the network, the firmware variables and the guest bundles
    are untouched, no file is written.  An entry that disappears from the disk
    directory (the directory itself apart) is a disk or named after one, the
    computer it is named after is in no row and no listed browser session, no
    running command names that disk, and the disk is not marked as kept unless
    kept disks are included.  Of a log that disappears only the first part
    holds: its computer is not known (see [prune_takes_running_log]).  A dry
    run removes nothing, nor does a run that cannot list the running commands;
    every reported file is gone. *)
Theorem prune_removes_only_leftovers (E : menv) {St} `{!StateManager St, !StateManagerLaws St}
    (g : mgr St) (include_retained dry_run : bool) :
  sm_ok (g_state g) →
  let r := prune_leftover_artifacts E include_retained dry_run g in
  let g' := r.1 in
  (sm_ok (g_state g') ∧ sm_view (g_state g') = sm_view (g_state g))
  ∧ (g_procs g', g_host g', g_public g', g_unrecorded g') = (g_procs g, g_host g, g_public g, g_unrecorded g)
  ∧ (g_net g', g_firmware g', g_bundles g') = (g_net g, g_firmware g, g_bundles g)
  ∧ g_disks g' ⊆ g_disks g ∧ g_logs g' ⊆ g_logs g
  ∧ (∀ f, f ≠ "." → is_Some (g_disks g !! f) → g_disks g' !! f = None →
       dry_run = false ∧ ¬ known g (owner_id f)
       ∧ ∃ args, e_process_args E (g_calls g) = Some args ∧ abandoned E include_retained args g f)
  ∧ (∀ n, n ∈ g_logs g → n ∉ g_logs g' →
       dry_run = false ∧ is_Some (e_process_args E (g_calls g)) ∧ ∃ id, n = id +:+ ".log" ∧ ¬ known g id)
  ∧ (∀ l a, r.2 = Ret l → dry_run = false → a ∈ l → gone a g').
Proof.
  intros Hok. cbv zeta. destruct (prune_leftover_artifacts E include_retained dry_run g) as [g' r] eqn:Hr.
  pose proof (prune_spec E include_retained dry_run g Hok) as H. apply wp_eq with (2 := Hr) in H. cbn [fst snd].
  assert (pruned E include_retained dry_run g g') as Hg by (destruct r; [apply H|exact H]).
  rewrite !(assoc (∧)). split; [|intros l a -> Hd Hx; by apply H]. rewrite <- !(assoc (∧)). clear H.
  destruct Hg as [(s' & [Hok' Hv] & Hc)|(g1 & l & live & args & (s' & [Hok' Hv] & Hc) & [Fc Fd Fl Fgd Fgl] & Hdry & Hk & Ha & Hrep)].
  - rewrite Hc. simpl. split_and!; try done. by intros f _ [c ->].
  - rewrite Hc in Fc, Fd, Fl, Fgd, Fgl. unfold rest_of, core in Fc. simpl in *.
    injection Fc as Fs Fp Fh Fpub Fu Fn Ff Fb. rewrite Fs, Fp, Fh, Fpub, Fu, Fn, Ff, Fb. split_and!; try done.
    + intros f Hdot Hf Hn. destruct (Fgd f Hf Hn) as (a & Hx & Hp). destruct (Hrep a Hx) as [Hx1 Hx2].
      destruct (reported_disk E live args g a f include_retained Hk Hx1 Hp Hdot Hx2) as [? ?]. eauto.
    + intros n Hn Hgone. destruct (Fgl n Hn Hgone) as (a & Hx & Hp). destruct (Hrep a Hx) as [Hx1 _].
      unfold reported in Hx1. rewrite Hp in Hx1. destruct Hx1 as [-> Hx1].
      split_and!; [done|eauto|]. exists (la_vm_id a). split; [done|]. intros Hkn. by apply Hx1, (knows_known _ g).
Qed.

(** ** A data directory with every kind of file: a computer [dev], a disk [old]
    nobody owns with a sidecar and a log, a disk marked as kept, and the disk
    of a computer that another program runs. *)
Definition sweep_env : menv :=
  {| e_probes := demo_kvm_probes; e_backend := "auto"; e_data_dir := "/d"; e_disk_dir := "/d/disks";
     e_socket_dir := "/s"; e_sys_platform := "linux"; e_vhost_vsock := false; e_resolve := id;
     e_header := λ _, []; e_dir_ok := λ _, true; e_firmware_link := λ _, false; e_is_link := λ _, false;
     e_lume_binary := false; e_tcp_free := λ _ _ _, true; e_net := λ _ _, None;
     e_interface := λ _ _, true; e_dns := λ _ _, []; e_inspect := λ _ _, None; e_live_cids := λ _, [];
     e_random_mac := λ _, ""; e_spawn := λ _ _, Ret 1%positive;
     e_boot := λ _ _, None; e_alive := λ _ _, true; e_signal := λ _ _, Kill_ok; e_kill := λ _ _, true;
     e_monitor := λ _ _ _, None; e_display := λ _, None; e_disk := λ _ _, disk_ok 1;
     e_bundle := λ _ _, (true, None); e_firmware := λ _ _, (true, None); e_unlink := λ _ _, None;
     e_replace := λ _ _, None;
     e_backing_file := λ _ p, if String.eqb p "/d/disks/old.qcow2" then Some "/d/disks/old.qcow2.backing-1" else None;
     e_process_args := λ _, Some "qemu-system-x86_64 -drive file=/d/disks/busy.qcow2,if=virtio";
     e_file_size := λ _ _, Some 1%Z; e_uuid := λ _, "0" |}.
Definition sweep_state : mem_mgr :=
  (@sm_create_vm mem_mgr demo_sm (demo_config "dev" "firecracker" None) (g_state demo_mgr)).1.
Lemma sweep_state_ok : @sm_ok mem_mgr demo_sm demo_laws sweep_state.
Proof.
  pose proof (@law_create mem_mgr demo_sm demo_laws (demo_config "dev" "firecracker" None) _ demo_mgr_ok) as H.
  unfold wp in H. unfold sweep_state.
  destruct (@sm_create_vm mem_mgr demo_sm (demo_config "dev" "firecracker" None) (g_state demo_mgr)) as [s' []]; apply H.
Qed.
Definition sweep_mgr : mgr mem_mgr :=
  let g := g_set_state sweep_state demo_mgr in
  g_set_logs {["dev.log"; "old.log"; "busy.log"]}
    (g_set_disks (list_to_map ((λ n, (n, 0%nat)) <$> ["old.qcow2"; "old.qcow2.backing-1"; "keep.ext4";
       "keep.ext4.retained"; "busy.qcow2"; "dev.ext4"; "notes"]) ∪ g_disks g) g).
Definition sweep (include_retained dry_run : bool) :=
  @prune_leftover_artifacts sweep_env mem_mgr demo_sm include_retained dry_run sweep_mgr.

Lemma prune_removes_only_leftovers_witness :
  (g_disks (sweep false false).1 !! "old.qcow2" = None ∧ g_disks sweep_mgr !! "old.qcow2" = Some 0%nat)
  ∧ ¬ @known mem_mgr demo_sm demo_laws sweep_mgr "old"
  ∧ elements (dom (g_disks (sweep false false).1))
    = elements (dom (base.delete "old.qcow2" (base.delete "old.qcow2.backing-1" (g_disks sweep_mgr)))).
Proof.
  assert (g_disks (sweep false false).1 !! "old.qcow2" = None) as H1 by (vm_compute; reflexivity).
  assert (g_disks sweep_mgr !! "old.qcow2" = Some 0%nat) as H2 by (vm_compute; reflexivity).
  split; [exact (conj H1 H2)|]. split; [|vm_compute; reflexivity].
  destruct (@prune_removes_only_leftovers sweep_env mem_mgr demo_sm demo_laws sweep_mgr false false sweep_state_ok)
    as (_ & _ & _ & _ & _ & H & _).
  destruct (H "old.qcow2" ltac:(discriminate) ltac:(rewrite H2; eauto) H1) as (_ & Hk & _). exact Hk.
Defined.

(** The log of the computer another program runs is removed, although its disk
    is recognized as in use. *)
Example prune_takes_running_log :
  "busy.log" ∈ g_logs sweep_mgr ∧ ¬ ("busy.log" ∈ g_logs (sweep false false).1)
  ∧ is_Some (g_disks (sweep false false).1 !! "busy.qcow2").
Proof.
  split; [|split]; [apply (bool_decide_unpack _); vm_compute; reflexivity
    |apply (bool_decide_unpack _); vm_compute; reflexivity|vm_compute; eauto].
Qed.
