(* ===== verification/SnapshotStore.v ===== *)
(** * storage/_protocol.py: the snapshot records of an inventory

    [SnapshotStore] lists the snapshot operations of the protocol;
    [SnapshotLaws] their contract: a finite map of records beside the computers,
    which the calls that read or update a computer leave alone.  The in-memory
    manager keeps it. *)
From S2P Require Import Prelude PyHoare PyDict PyStr StorageBase Types MemoryState MemoryInv.
From S2P Require Import MemoryProofs StateProtocol StateProtocolMemory.
From stdpp Require Import options.

Class SnapshotStore (St : Type) := {
  ss_create : SnapshotInfo → py St SnapshotInfo;
  ss_get : string → py St SnapshotInfo;
  ss_list : option string → py St (list SnapshotInfo);
  ss_mark_restored : string → string → py St SnapshotInfo;
  ss_delete : string → py St unit }.

Class SnapshotLaws (St : Type) `{!StateManager St, !StateManagerLaws St, !SnapshotStore St} := {
  ss_view : St → gmap string SnapshotInfo;
  (** Nothing changed: neither the computers nor the snapshots. *)
  same_all (s s' : St) : Prop := sm_ok s' ∧ sm_view s' = sm_view s ∧ ss_view s' = ss_view s;
  ok_snapshot_ids s sid i : sm_ok s → ss_view s !! sid = Some i → snapshot_id i = sid;
  law_ss_create i s : sm_ok s →
    wp (ss_create i)
      (λ j s', j = i ∧ ss_view s !! snapshot_id i = None ∧ sm_ok s' ∧ sm_view s' = sm_view s
               ∧ ss_view s' = <[snapshot_id i := i]> (ss_view s))
      (λ e s', same_all s s' ∧ ∀ x, e = SnapshotAlreadyExistsError x → is_Some (ss_view s !! snapshot_id i)) s;
  law_ss_get sid s : sm_ok s →
    wp (ss_get sid) (λ i s', same_all s s' ∧ ss_view s !! sid = Some i)
      (λ e s', same_all s s' ∧ ∀ x, e = SnapshotNotFoundError x → ss_view s !! sid = None) s;
  law_ss_list vm s : sm_ok s →
    wp (ss_list vm)
      (λ l s', same_all s s' ∧ ∀ i, i ∈ l ↔ ss_view s !! snapshot_id i = Some i ∧ from_option (λ v, si_vm_id i = v) True vm)
      (λ _ s', same_all s s') s;
  law_ss_mark_restored sid vm s : sm_ok s →
    wp (ss_mark_restored sid vm)
      (λ i s', ∃ i0, ss_view s !! sid = Some i0 ∧ i = mark_restored vm i0 ∧ sm_ok s' ∧ sm_view s' = sm_view s
               ∧ ss_view s' = <[sid := i]> (ss_view s))
      (λ _ s', same_all s s') s;
  law_ss_delete sid s : sm_ok s →
    wp (ss_delete sid)
      (λ _ s', sm_ok s' ∧ sm_view s' = sm_view s ∧ ss_view s' = base.delete sid (ss_view s))
      (λ _ s', same_all s s') s;
  frame_get_vm vm s : ss_view (sm_get_vm vm s).1 = ss_view s;
  frame_update_vm vm u s : ss_view (sm_update_vm vm u s).1 = ss_view s;
  (** A request for one address or port yields that one, or raises. *)
  law_requested_ip vm tap ip s : wp (sm_allocate_ip vm tap (Some ip)) (λ r _, r = ip) (λ _ _, True) s;
  law_requested_port vm p ex s : wp (sm_reserve_ssh_port vm (Some p) ex) (λ r _, r = p) (λ _ _, True) s }.

(** Deleting a record that is there does not fail. *)
Class SnapshotTotal (St : Type) `{!StateManager St, !StateManagerLaws St, !SnapshotStore St, !SnapshotLaws St} := {
  total_ss_get sid s : sm_ok s → is_Some (ss_view s !! sid) → raised (ss_get sid s).2 = false;
  total_ss_delete sid s : sm_ok s → is_Some (ss_view s !! sid) → raised (ss_delete sid s).2 = false }.

(** ** The in-memory manager *)
Section instance.
Context (fc : bool) (open_error : string → option exn).
#[local] Instance mem_sm : StateManager mem_mgr := memory_manager fc open_error.
#[local] Instance mem_laws : StateManagerLaws mem_mgr := memory_laws fc open_error.

#[local] Instance memory_snapshots : SnapshotStore mem_mgr := {|
  ss_create i := mm_run (create_snapshot i);
  ss_get sid := mm_run (get_snapshot sid);
  ss_list vm := mm_run (list_snapshots vm);
  ss_mark_restored sid vm := mm_run (mark_snapshot_restored sid vm);
  ss_delete sid := mm_run (delete_snapshot sid) |}.

Definition mm_snaps (s : mem_mgr) : gmap string SnapshotInfo := dmap (m_snapshots (mm_ms s).1).

(** A snapshot record stored, and what it leaves alone. *)
Lemma store_view sid i ms : view_of (upd (λ m, set_snapshots (dset sid i (m_snapshots m)) m) ms).1 = view_of ms.1.
Proof. done. Qed.

#[local] Instance memory_snapshot_laws : SnapshotLaws mem_mgr.
Proof.
  refine {| ss_view := mm_snaps |}; intros.
  - unfold mm_snaps in *. rewrite dget_lookup in *. destruct H as [_ Hd _]. by eapply data_snapshot_ids.
  - apply mm_run_wp. intros ms' r Hm. pose proof (create_snapshot_ok _ _ _ _ _ H Hm) as Hok. unfold create_snapshot, dmem in Hm.
    unfold mm_snaps. rewrite dget_lookup. destruct (dget (snapshot_id i) (m_snapshots (mm_ms s).1)) eqn:Hd; simplify_eq/=.
    + split; [by destruct s|]. eauto.
    + split; [done|]. split; [done|]. split; [exact (op_good _ _ _ Hok)|]. split; [done|]. by rewrite dmap_dset.
  - apply mm_run_wp. intros ms' r Hm. unfold get_snapshot in Hm. unfold mm_snaps. rewrite dget_lookup.
    destruct (dget sid (m_snapshots (mm_ms s).1)) eqn:Hd; simplify_eq/=; (split; [by destruct s|]); naive_solver.
  - apply mm_run_wp. intros ms' r Hm. unfold list_snapshots in Hm. simplify_eq/=. split; [by destruct s|]. intros i.
    unfold mm_snaps. rewrite dget_lookup. destruct H as [_ Hd _].
    assert (i ∈ dvalues (m_snapshots (mm_ms s).1) ↔ dget (snapshot_id i) (m_snapshots (mm_ms s).1) = Some i) as Hi.
    { rewrite dvalues_elem by apply Hd. split; [|eauto]. intros [k Hk]. by rewrite (data_snapshot_ids _ Hd _ _ Hk). }
    destruct vm as [vm|]; simpl; [rewrite list_elem_of_filter|]; rewrite Hi; naive_solver.
  - apply mm_run_wp. intros ms' r Hm. pose proof (mark_snapshot_restored_ok _ _ _ _ _ _ H Hm) as Hok.
    unfold mark_snapshot_restored, py_bind, get_snapshot in Hm. unfold mm_snaps. rewrite dget_lookup.
    destruct (dget sid (m_snapshots (mm_ms s).1)) as [i0|] eqn:Hd; simplify_eq/=; [|by destruct s].
    exists i0. split; [done|]. split; [done|]. split; [exact (op_good _ _ _ Hok)|]. split; [done|]. by rewrite dmap_dset.
  - apply mm_run_wp. intros ms' r Hm. pose proof (delete_snapshot_ok _ _ _ _ _ H Hm) as Hok. unfold delete_snapshot in Hm.
    destruct (dget sid (m_snapshots (mm_ms s).1)) as [i0|] eqn:Hd; simplify_eq/=; [|by destruct s].
    split_and!; [exact (op_good _ _ _ Hok)|done|]. unfold mm_snaps. simpl. rewrite dmap_ddel; [done|]. destruct H as [_ Hw _]. by destruct Hw.
  - unfold mm_snaps, sm_get_vm, mem_sm, memory_manager, mm_run, get_vm. by destruct (dget vm (m_vms (mm_ms s).1)).
  - unfold mm_snaps, sm_update_vm, mem_sm, memory_manager, mm_run, update_vm, py_bind, get_vm. by destruct (dget vm (m_vms (mm_ms s).1)).
  - apply mm_ask_wp. intros ifs tokens ms' r Hm. unfold allocate_ip in Hm.
    destruct (dget vm _) as [[q t]|]; [destruct (String.eqb_spec ip q); by simplify_eq/=|].
    cbn [ip_candidates] in Hm. unfold ip_loop in Hm. py_destruct; done.
  - apply mm_run_wp. intros ms' r Hm. unfold reserve_ssh_port in Hm. destruct (_ || _); [by simplify_eq/=|].
    destruct (dget vm _) as [q|]; [destruct (Z.eqb_spec p q); by simplify_eq/=|].
    unfold int_loop in Hm. py_destruct; done.
Defined.

#[local] Instance memory_snapshot_total : SnapshotTotal mem_mgr.
Proof.
  split; intros sid s _ [i Hi]; change (mm_snaps s !! sid = Some i) in Hi; unfold mm_snaps in Hi; rewrite dget_lookup in Hi.
  - unfold ss_get, memory_snapshots, mm_run, get_snapshot. by rewrite Hi.
  - unfold ss_delete, memory_snapshots, mm_run, delete_snapshot. by rewrite Hi.
Qed.
End instance.
