(* ===== verification/Snapshots.v ===== *)
(** * vm.py: snapshots of a computer

    [create_snapshot], [delete_snapshot], [get_snapshot] and [list_snapshots] of
    the manager, with the capture operations of the runtime adapters.  A snapshot directory is what the code reads of it: its
    [manifest.json] and the [live-backup.json] of an unfinished live backup.
    [sn_paused] are the computers whose guest was last told to pause.  The live backup itself
    and its reconciliation are answers of the environment [senv], like the other
    steps outside the program; [LiveBackup] and [LiveReconcile] model them.  The file locks that serialize snapshots are left
    out. *)
From S2P Require Import Prelude PyHoare PyDict PyStr StorageBase Types MemoryState StateProtocol SnapshotStore.
From S2P Require Import NetworkSettings Channel EgressSession ConfigValidation.
From S2P Require Import Backends ManagerState ManagerHelpers ManagerRuntime ManagerCreate ManagerLifecycle.
From stdpp Require Import sorting options.

(** [existing_vm.config != snapshot.vm_config] *)
#[global] Instance PortForwardConfig_eq_dec : EqDecision PortForwardConfig.
Proof. solve_decision. Defined.
#[global] Instance VsockConfig_eq_dec : EqDecision VsockConfig.
Proof. solve_decision. Defined.
#[global] Instance WorkspaceMount_eq_dec : EqDecision WorkspaceMount.
Proof. solve_decision. Defined.
#[global] Instance MacOSMachineConfig_eq_dec : EqDecision MacOSMachineConfig.
Proof. solve_decision. Defined.
#[global] Instance InternetSettings_eq_dec : EqDecision InternetSettings.
Proof. solve_decision. Defined.
#[global] Instance NetworkAttachmentConfig_eq_dec : EqDecision NetworkAttachmentConfig.
Proof. solve_decision. Defined.
#[global] Instance QemuMachine_eq_dec : EqDecision QemuMachine.
Proof. solve_decision. Defined.
#[global] Instance disk_mode_eq_dec : EqDecision disk_mode_t.
Proof. solve_decision. Defined.
#[global] Instance VMConfig_eq_dec : EqDecision VMConfig.
Proof. solve_decision. Defined.

Inductive SnapshotCapturePolicy := ALLOW_PAUSE | LIVE_ONLY.
#[global] Instance SnapshotCapturePolicy_eq_dec : EqDecision SnapshotCapturePolicy.
Proof. solve_decision. Defined.

(** [SnapshotCreateResult]; [r_operation] says that an operation manifest is
    left to be removed. *)
Record SnapshotCreateResult := {
  r_artifacts : SnapshotArtifacts;
  r_source_status : VMState;
  r_captured_at : datetime;
  r_operation : bool;
  r_artifact_kind : option string;
  r_virtual_size_bytes : option Z;
  r_changed_bytes : option Z;
  r_bitmap_granularity_bytes : option Z;
  r_bitmap_name : option string }.

(** What a live backup reports. *)
Record live_result := {
  lr_disk_path : path;
  lr_captured_at : datetime;
  lr_artifact_kind : option string;
  lr_virtual_size_bytes : option Z;
  lr_changed_bytes : option Z;
  lr_bitmap_granularity_bytes : option Z;
  lr_bitmap_name : option string }.
Definition live_captured (l : live_result) : SnapshotCreateResult :=
  {| r_artifacts := {| state_path := None; memory_path := None; disk_path := lr_disk_path l |};
     r_source_status := RUNNING; r_captured_at := lr_captured_at l; r_operation := true;
     r_artifact_kind := lr_artifact_kind l; r_virtual_size_bytes := lr_virtual_size_bytes l;
     r_changed_bytes := lr_changed_bytes l; r_bitmap_granularity_bytes := lr_bitmap_granularity_bytes l;
     r_bitmap_name := lr_bitmap_name l |}.

(** What [live-backup.json] says. *)
Record live_manifest := {
  lm_vm_id : option string;
  lm_schema_version : option Z;
  lm_snapshot_id : option string;
  lm_phase : option string;
  lm_final_path : option string;
  lm_backup_mode : option string;
  lm_artifact : bool;
  lm_link : bool }.
(** A snapshot directory: [manifest.json] (absent, unreadable or a record) and
    [live-backup.json] (absent, unreadable or a manifest). *)
Record snapdir := {
  sd_manifest : option (option SnapshotInfo);
  sd_live : option (option live_manifest) }.
Definition new_dir : snapdir := {| sd_manifest := None; sd_live := None |}.

Record snapm (St : Type) := {
  sn_mgr : mgr St;
  sn_dirs : gmap string snapdir;
  sn_paused : gset string }.
Arguments sn_mgr {St}. Arguments sn_dirs {St}. Arguments sn_paused {St}.

Section setters.
Context {St : Type}.
Implicit Types x : snapm St.
Definition sn_set_mgr g x : snapm St := {| sn_mgr := g; sn_dirs := sn_dirs x; sn_paused := sn_paused x |}.
Definition sn_set_dirs d x : snapm St := {| sn_mgr := sn_mgr x; sn_dirs := d; sn_paused := sn_paused x |}.
Definition sn_set_paused p x : snapm St := {| sn_mgr := sn_mgr x; sn_dirs := sn_dirs x; sn_paused := p |}.
End setters.

(** ** The environment of a snapshot *)
Record senv := {
  x_snapshot_dir : path;
  x_time : nat → Z;
  x_exists : nat → path → bool;
  x_mkdir : nat → string → option exn;
  x_rmtree : nat → string → option (exn * snapdir);
  x_write : nat → string → option exn;
  x_stat : nat → option exn;
  x_host_key : nat → option exn;
  x_unlink_operation : nat → option exn;
  x_reconcile : nat → gmap string snapdir → gmap string snapdir * option exn;
  x_monitor : nat → string → string → option exn;
  x_copy : nat → string → option exn;
  x_live : nat → string → outcome live_result;
  x_captured_at : nat → datetime;
  x_disk_dir : nat → option exn;
  x_backing : nat → path → outcome (option path) }.

Definition no_such_file : exn := OSErrorExn "No such file or directory".

(** The order of [created_at]: microseconds since the start of the calendar. *)
Definition dt_instant (d : datetime) : Z :=
  (let y := dt_year d - 1 in
   let days := 365 * y + y / 4 - y / 100 + y / 400
     + foldr Z.add 0 (days_in_month (dt_year d) <$> zrange 1 (dt_month d - 1)) + dt_day d in
   let minutes := (days * 24 + dt_hour d) * 60 + dt_minute d - default 0 (dt_offset d) in
   (minutes * 60 + dt_second d) * 1000000 + dt_microsecond d)%Z.
Definition older (i j : SnapshotInfo) : Prop := (dt_instant (created_at i) ≤ dt_instant (created_at j))%Z.
#[global] Instance older_dec : RelDecision older.
Proof. intros i j. unfold older. apply _. Defined.

Section snapshots.
Context (E : menv) (X : senv) {St : Type} `{!StateManager St, !SnapshotStore St}.
Local Abbreviation M := (py (snapm St)).
Implicit Types x : snapm St.

Definition on_mgr {A} (m : py (mgr St) A) : M A := λ x,
  let (g', r) := m (sn_mgr x) in (sn_set_mgr g' x, r).
Definition on_store {A} (m : py St A) : M A := on_mgr (on_state m).
Definition stick : M nat := on_mgr tick.
Definition sraise_if {A} (o : option exn) (a : A) : M A :=
  match o with Some e => py_raise e | None => py_return a end.

(** ** Checks *)
Definition _ensure_snapshot_supported (i : VMInfo) : outcome unit :=
  let c := config i in
  _ ← guard_raise (is_public c)
        (CelestoError ("Computer '" +:+ vi_vm_id i +:+ "' uses a live public browsing connection; "
           +:+ "create a new computer instead of taking a snapshot."));
  _ ← guard_raise (bool_decide (guest_os c = WINDOWS))
        (CelestoError "Snapshot and restore are not supported for Windows guests in this release.");
  _ ← guard_raise (bool_decide (disk_mode c ≠ isolated))
        (CelestoError "Snapshotting currently supports only isolated-disk computers");
  b ← _backend_for_config E c;
  raw ← (if String.eqb b BACKEND_QEMU
         then f ← effective_rootfs_format c; Ret (negb (bool_decide (f = rootfs_qcow2))) else Ret false);
  _ ← guard_raise raw
        (CelestoError ("Snapshots are not supported for raw QEMU disks in computer '" +:+ vi_vm_id i
           +:+ "'; create it without grow_filesystem, or run 'celesto computer delete " +:+ vi_vm_id i +:+ "'."));
  _ ← guard_raise (negb (bool_decide (length (extra_drives c) = 0)))
        (CelestoError "Snapshotting currently supports only computers without extra drives");
  _ ← guard_raise (negb (bool_decide (length (workspace_mounts c) = 0)))
        (CelestoError "Snapshotting is not supported for computers with workspace mounts");
  guard_raise (negb (is_some (network i))) (CelestoError "Computer has no network configuration").

Definition _snapshot_root_for_id (sid : string) : outcome unit :=
  _ ← guard_raise (String.eqb sid "") (ValueError "snapshot_id cannot be empty");
  _ ← guard_raise (negb (identifier_ok sid))
        (ValueError "snapshot_id must contain only lowercase letters, numbers, hyphens, or underscores");
  guard_raise (negb (under (e_resolve E (x_snapshot_dir X)) (e_resolve E (x_snapshot_dir X +:+ "/" +:+ sid))))
    (ValueError "snapshot_id must resolve within the snapshot directory").
Definition snapshot_root (sid : string) : path := x_snapshot_dir X +:+ "/" +:+ sid.

(** ** Directories *)
Definition rmtree (sid : string) : M unit :=
  let! x := py_get in
  match sn_dirs x !! sid with
  | None => py_raise no_such_file
  | Some _ =>
      let! n := stick in
      match x_rmtree X n sid with
      | Some (e, left_over) => do! py_modify (λ x, sn_set_dirs (<[sid := left_over]> (sn_dirs x)) x) in py_raise e
      | None => py_modify (λ x, sn_set_dirs (base.delete sid (sn_dirs x)) x)
      end
  end.
Definition mkdir (sid : string) (exist_ok : bool) : M unit :=
  let! x := py_get in
  let! n := stick in
  match sn_dirs x !! sid with
  | Some _ => if exist_ok then py_return tt else py_raise (OSErrorExn "File exists")
  | None => do! sraise_if (x_mkdir X n sid) tt in
            py_modify (λ x, sn_set_dirs (<[sid := new_dir]> (sn_dirs x)) x)
  end.
Definition _write_snapshot_manifest (s : SnapshotInfo) : M unit :=
  let sid := snapshot_id s in
  do! py_lift (_snapshot_root_for_id sid) in
  do! mkdir sid true in
  let! n := stick in
  do! sraise_if (x_write X n sid) tt in
  py_modify (λ x, sn_set_dirs (alter (λ d, {| sd_manifest := Some (Some s); sd_live := sd_live d |}) sid (sn_dirs x)) x).
Definition _read_snapshot_manifest (sid : string) : M SnapshotInfo :=
  do! py_lift (_snapshot_root_for_id sid) in
  let! x := py_get in
  match sn_dirs x !! sid ≫= sd_manifest with
  | None => py_raise (SnapshotNotFoundError sid)
  | Some None => py_raise (CelestoError ("Snapshot '" +:+ sid +:+ "' metadata is unreadable; delete and recreate it."))
  | Some (Some s) => py_return s
  end.

(** ** Reading *)
Definition is_not_found (e : exn) : bool := match e with SnapshotNotFoundError _ => true | _ => false end.
Definition get_snapshot (sid : string) : M SnapshotInfo :=
  py_try (on_store (ss_get sid))
    (λ e, if is_not_found e then
            let! s := _read_snapshot_manifest sid in
            do! py_try (do! on_store (ss_create s) in py_return tt)
                  (λ e, match e with SnapshotAlreadyExistsError _ => py_return tt | _ => py_raise e end) in
            py_return s
          else py_raise e).

(** The loop over [glob("*/manifest.json")], on the dict keyed by identifier. *)
Fixpoint manifest_loop (vm : option string) (sids : list string) (found : dict string SnapshotInfo)
    : M (dict string SnapshotInfo) :=
  match sids with
  | [] => py_return found
  | sid :: sids' =>
      if dmem sid found then manifest_loop vm sids' found
      else
        let! found' :=
          py_try (let! s := _read_snapshot_manifest sid in
                  py_return (if from_option (λ v, String.eqb (si_vm_id s) v) true vm then dset sid s found else found))
            (λ e, match e with
                  | CelestoError _ | SnapshotNotFoundError _ | ValueError _ => py_return found
                  | _ => py_raise e
                  end) in
        manifest_loop vm sids' found'
  end.
Definition manifest_ids (dirs : gmap string snapdir) : list string :=
  map_to_list dirs ≫= λ '(sid, d), if is_some (sd_manifest d) then [sid] else [].
Definition list_snapshots (vm : option string) : M (list SnapshotInfo) :=
  let! known := on_store (ss_list vm) in
  let! x := py_get in
  let! found := manifest_loop vm (manifest_ids (sn_dirs x))
                  (fold_left (λ d s, dset (snapshot_id s) s d) known []) in
  py_return (merge_sort older (dvalues found)).

(** ** Taking a snapshot: the runtime adapters *)

(** One command on the hypervisor's control socket. *)
Definition command (name vm : string) : M unit := let! n := stick in sraise_if (x_monitor X n name vm) tt.
Definition pause_guest (name vm : string) : M unit :=
  do! command name vm in py_modify (λ x, sn_set_paused ({[vm]} ∪ sn_paused x) x).
Definition resume_guest (name vm : string) : M unit :=
  do! command name vm in py_modify (λ x, sn_set_paused (sn_paused x ∖ {[vm]}) x).
Definition copy_disk (sid : string) : M unit := let! n := stick in sraise_if (x_copy X n sid) tt.
Definition captured (disk : path) (state memory : option path) : M SnapshotCreateResult :=
  let! n := stick in
  py_return {| r_artifacts := {| state_path := state; memory_path := memory; disk_path := disk |};
               r_source_status := PAUSED; r_captured_at := x_captured_at X n; r_operation := false;
               r_artifact_kind := None; r_virtual_size_bytes := None; r_changed_bytes := None;
               r_bitmap_granularity_bytes := None; r_bitmap_name := None |}.

(** [SnapshotCreateRequest] *)
Record request := {
  q_info : VMInfo;
  q_snapshot : string;
  q_original : VMState;
  q_type : SnapshotType;
  q_policy : SnapshotCapturePolicy }.

Definition qemu_save (q : request) : M unit :=
  command (match q_type q with DISK => "blockdev-snapshot-internal-sync" | _ => "snapshot-save" end) (vi_vm_id (q_info q)).
Definition qemu_drop (q : request) : M unit :=
  command (match q_type q with DISK => "blockdev-snapshot-delete-internal-sync" | _ => "snapshot-delete" end) (vi_vm_id (q_info q)).
Definition was_running (q : request) : bool := bool_decide (q_original q = RUNNING).

(** What [QemuRuntimeAdapter.create_snapshot] does before and after the saving
    of the internal snapshot; its [except] knows which by [snapshot_saved]. *)
Definition qemu_give_up {A} (saved : bool) (q : request) (e : exn) : M A :=
  do! py_when saved (py_suppress (qemu_drop q)) in
  do! py_when (was_running q) (py_suppress (resume_guest "cont" (vi_vm_id (q_info q)))) in
  py_raise e.
Definition qemu_create_snapshot (q : request) : M SnapshotCreateResult :=
  let vm := vi_vm_id (q_info q) in
  do! (if is_some (control_socket_path (q_info q)) then command "connect" vm
       else py_raise (CelestoError "Computer has no QMP socket path")) in
  match q_policy q with
  | LIVE_ONLY => let! n := stick in py_lift (live_captured <$> x_live X n (q_snapshot q))
  | ALLOW_PAUSE =>
      do! py_when (was_running q) (pause_guest "stop" vm) in
      do! py_try (qemu_save q) (qemu_give_up false q) in
      py_try (do! copy_disk (q_snapshot q) in
              do! qemu_drop q in
              captured (snapshot_root (q_snapshot q) +:+ "/disk.qcow2") None None)
        (qemu_give_up true q)
  end.

Definition firecracker_create_snapshot (q : request) : M SnapshotCreateResult :=
  let vm := vi_vm_id (q_info q) in
  let root := snapshot_root (q_snapshot q) in
  do! py_lift (firecracker_client (q_info q)) in
  let! n := stick in
  do! py_lift (guard_raise (negb (x_exists X n (default "" (control_socket_path (q_info q)))))
                 (CelestoError "Firecracker socket is not available")) in
  do! py_when (was_running q) (pause_guest "pause" vm) in
  match q_type q with
  | DISK =>
      do! copy_disk (q_snapshot q) in captured (root +:+ "/disk.ext4") None None
  | _ =>
      do! command "snapshot-create" vm in
      do! copy_disk (q_snapshot q) in
      captured (root +:+ "/disk.ext4") (Some (root +:+ "/vmstate.bin")) (Some (root +:+ "/mem.bin"))
  end.

Definition adapter_create_snapshot (b : string) (q : request) : M SnapshotCreateResult :=
  let vm := vi_vm_id (q_info q) in
  if String.eqb b BACKEND_FIRECRACKER then firecracker_create_snapshot q
  else if String.eqb b BACKEND_QEMU then qemu_create_snapshot q
  else if String.eqb b BACKEND_LIBKRUN then py_raise (CelestoError "libkrun backend does not support snapshots yet")
  else py_raise (CelestoError ("macOS computer '" +:+ vm
    +:+ "' does not support snapshots in this release; stop it with 'celesto computer stop " +:+ vm
    +:+ "' and keep the computer instead.")).
(** [adapter.resume] *)
Definition adapter_resume_guest (b : string) (i : VMInfo) : M unit :=
  do! on_mgr (adapter_resume E b i) in py_modify (λ x, sn_set_paused (sn_paused x ∖ {[vi_vm_id i]}) x).

(** ** create_snapshot *)
(** The keyword arguments that the checks and the capture look at. *)
Record create_args := {
  ca_type : SnapshotType;
  ca_resume_source : bool;
  ca_policy : SnapshotCapturePolicy;
  ca_max_bytes_per_second : option Z;
  ca_bitmap : option string }.

Definition disk_command (vm sid : string) : string :=
  "celesto computer snapshot create " +:+ vm +:+ " --snapshot-id " +:+ sid +:+ " --snapshot-type disk --resume-source".
Definition live_command (vm sid : string) : string := disk_command vm sid +:+ " --live-only".

Definition live_only_checks (vm sid : string) (i : VMInfo) (b : string) (a : create_args) : outcome unit :=
  if bool_decide (ca_policy a = LIVE_ONLY) then
    _ ← guard_raise (bool_decide (status i ≠ RUNNING))
          (CelestoError ("Computer '" +:+ vm +:+ "' must be running for a live snapshot; run 'celesto computer start " +:+ vm +:+ "'."));
    _ ← guard_raise (negb (String.eqb b BACKEND_QEMU))
          (CelestoError ("Computer '" +:+ vm +:+ "' cannot stay available during this snapshot; run '"
             +:+ disk_command vm sid +:+ "' to allow a brief pause."));
    _ ← guard_raise (bool_decide (ca_type a ≠ DISK))
          (CelestoError ("Live snapshots of computer '" +:+ vm +:+ "' save disk state only; run '" +:+ live_command vm sid +:+ "'."));
    guard_raise (negb (ca_resume_source a))
      (CelestoError ("A live snapshot keeps computer '" +:+ vm +:+ "' running; run '" +:+ live_command vm sid +:+ "'."))
  else Ret tt.
Definition bitmap_checks (vm sid : string) (i : VMInfo) (b : string) (a : create_args) : outcome unit :=
  match ca_bitmap a with
  | None => Ret tt
  | Some name =>
      _ ← guard_raise (negb (String.eqb b BACKEND_QEMU))
            (CelestoError ("Computer '" +:+ vm +:+ "' does not use QEMU; run '" +:+ disk_command vm sid
               +:+ "' to create a regular disk snapshot."));
      _ ← guard_raise (bool_decide (status i ≠ RUNNING))
            (CelestoError ("Computer '" +:+ vm +:+ "' must be running for this disk capture; run 'celesto computer start "
               +:+ vm +:+ "', then '" +:+ live_command vm sid +:+ "'."));
      _ ← guard_raise (bool_decide (ca_type a ≠ DISK) || bool_decide (ca_policy a ≠ LIVE_ONLY))
            (CelestoError ("This disk capture for computer '" +:+ vm +:+ "' must stay live; run '" +:+ live_command vm sid +:+ "'."));
      _ ← guard_raise (negb (ca_resume_source a))
            (CelestoError ("This disk capture must leave computer '" +:+ vm +:+ "' running; run '" +:+ live_command vm sid +:+ "'."));
      guard_raise (String.eqb name "") (ValueError "bitmap_name cannot be empty")
  end.

(** The checks of [_create_snapshot_locked] up to the managed disk. *)
Definition create_snapshot_checks (vm sid : string) (i : VMInfo) (a : create_args) : outcome string :=
  _ ← _ensure_snapshot_supported i;
  _ ← guard_raise (negb (bool_decide (status i ∈ [RUNNING; PAUSED])))
        (CelestoError ("Cannot snapshot computer in state '" +:+ VMState_value (status i) +:+ "'"));
  b ← _backend_for_config E (config i);
  _ ← live_only_checks vm sid i b a;
  _ ← bitmap_checks vm sid i b a;
  d ← _managed_disk_for_vm E i;
  match d with
  | None => Raise (CelestoError "Snapshotting requires a managed isolated disk")
  | Some d =>
      _ ← guard_raise (is_some (ca_bitmap a) && negb (String.eqb (path_suffix d) ".qcow2"))
            (CelestoError ("Computer '" +:+ vm +:+ "' does not use a compatible disk file; run '" +:+ disk_command vm sid
               +:+ "' to create a regular disk snapshot."));
      Ret b
  end.

(** [adapter.reconcile_live_backups]: it may finish or discard old live
    backups of the computer. *)
Definition reconcile_live_backups (vm : string) : M unit :=
  let! persisted := on_store (ss_list (Some vm)) in
  do! (if bool_decide (length persisted = 0) then do! list_snapshots (Some vm) in py_return tt else py_return tt) in
  let! n := stick in
  let! x := py_get in
  let '(dirs, failure) := x_reconcile X n (sn_dirs x) in
  do! py_modify (sn_set_dirs dirs) in
  sraise_if failure tt.

(** What is in the way of a new snapshot directory. *)
Definition clear_snapshot_root (vm sid : string) : M unit :=
  let! x := py_get in
  match sn_dirs x !! sid with
  | None => py_return tt
  | Some d =>
      match sd_live d with
      | Some m =>
          if bool_decide ((m ≫= lm_vm_id) ∈ [None; Some vm])
          then py_raise (CleanupPendingError ("A previous live snapshot of computer '" +:+ vm
                 +:+ "' is still cleaning up; retry with '" +:+ live_command vm sid +:+ "'."))
          else py_raise (SnapshotAlreadyExistsError sid)
      | None => rmtree sid
      end
  end.

Definition snapshot_record (sid b : string) (i : VMInfo) (n : NetworkConfig) (t : SnapshotType) (r : SnapshotCreateResult)
  : SnapshotInfo :=
  {| snapshot_id := sid; si_vm_id := vi_vm_id i; si_backend := b; artifacts := r_artifacts r; si_vm_config := config i;
     si_network_config := n; created_at := r_captured_at r; snapshot_type := t; artifact_kind := r_artifact_kind r;
     virtual_size_bytes := r_virtual_size_bytes r; changed_bytes := r_changed_bytes r;
     bitmap_granularity_bytes := r_bitmap_granularity_bytes r; bitmap_name := r_bitmap_name r; restored := false;
     restored_vm_id := None |}.

(** The [try] body up to the manifest, and what follows it: the [except] tells
    them apart by [snapshot_persisted]. *)
Definition capture_and_store (vm sid b : string) (i : VMInfo) (a : create_args) : M (SnapshotInfo * SnapshotCreateResult) :=
  do! mkdir sid false in
  let! n := stick in
  do! sraise_if (x_stat X n) tt in
  let! r := adapter_create_snapshot b
      {| q_info := i; q_snapshot := sid; q_original := status i; q_type := ca_type a; q_policy := ca_policy a |} in
  do! (if bool_decide (ca_type a = DISK) then py_return tt else let! n := stick in sraise_if (x_host_key X n) tt) in
  match network i with
  | None => py_raise (AssertionErrorExn "")
  | Some nc =>
      let s := snapshot_record sid b i nc (ca_type a) r in
      do! on_store (ss_create s) in
      do! _write_snapshot_manifest s in
      py_return (s, r)
  end.
Definition finish_snapshot (vm b : string) (i : VMInfo) (a : create_args) (s : SnapshotInfo) (r : SnapshotCreateResult)
  : M SnapshotInfo :=
  do! py_when (r_operation r) (py_suppress (let! n := stick in sraise_if (x_unlink_operation X n) tt)) in
  let! source_status :=
    (if bool_decide (r_source_status r = PAUSED) && bool_decide (status i = RUNNING) && ca_resume_source a
     then py_try (do! adapter_resume_guest b i in py_return RUNNING) (λ _, py_return (r_source_status r))
     else py_return (r_source_status r)) in
  do! on_store (sm_update_vm vm (u_with_status source_status)) in
  py_return s.

(** The directory of a failed snapshot is removed, unless its live backup still
    has to be cleaned up: whether it is gone, and what went wrong. *)
Definition remove_failed_root (sid : string) (e : exn) : M (bool * option exn) :=
  match e with
  | CleanupPendingError _ => py_return (false, None)
  | _ => py_try (do! rmtree sid in py_return (true, None))
           (λ e', if bool_decide (e' = no_such_file) then py_return (true, None) else py_return (false, Some e'))
  end.
Definition snapshot_rollback {A} (persisted : bool) (vm sid b : string) (i : VMInfo) (a : create_args) (e : exn) : M A :=
  let! removed := remove_failed_root sid e in
  do! py_when (persisted && removed.1) (py_suppress (on_store (ss_delete sid))) in
  do! py_when (bool_decide (status i = RUNNING) && bool_decide (ca_policy a = ALLOW_PAUSE))
        (py_suppress (do! adapter_resume_guest b i in
                      do! on_store (sm_update_vm vm (u_with_status RUNNING)) in py_return tt)) in
  py_raise (default e removed.2).

Definition _create_snapshot_locked (vm sid : string) (a : create_args) : M SnapshotInfo :=
  let! i := on_store (sm_get_vm vm) in
  let! b := py_lift (create_snapshot_checks vm sid i a) in
  do! on_mgr (py_lift (_runtime_adapter_for_backend E b)) in
  do! py_when (String.eqb b BACKEND_QEMU) (reconcile_live_backups vm) in
  do! py_try (do! on_store (ss_get sid) in py_raise (SnapshotAlreadyExistsError sid))
        (λ e, if is_not_found e then py_return tt else py_raise e) in
  do! clear_snapshot_root vm sid in
  let! sr := py_try (capture_and_store vm sid b i a) (snapshot_rollback false vm sid b i a) in
  py_try (finish_snapshot vm b i a sr.1 sr.2) (snapshot_rollback true vm sid b i a).

(** [snapshot_id or f"snap-{vm_id}-{int(time.time())}"] *)
Definition chosen_id (vm : string) (sid : option string) (n : nat) : string :=
  if truthy_str sid then default "" sid else "snap-" +:+ vm +:+ "-" +:+ dec (x_time X n).
Definition create_snapshot (vm : string) (sid : option string) (timeout_ok : bool) (a : create_args) : M SnapshotInfo :=
  do! py_lift (guard_raise (String.eqb vm "") (ValueError "vm_id cannot be empty")) in
  do! py_lift (guard_raise (negb timeout_ok) (ValueError "timeout_seconds must be a finite number greater than zero")) in
  do! py_lift (guard_raise (from_option (λ m, (m <=? 0)%Z) false (ca_max_bytes_per_second a))
                 (ValueError "max_bytes_per_second must be greater than zero when set")) in
  let! n := stick in
  let sid := chosen_id vm sid n in
  do! py_lift (_snapshot_root_for_id sid) in
  _create_snapshot_locked vm sid a.

(** ** delete_snapshot *)
(** What makes a directory without metadata a published artifact of a live
    backup. *)
Definition adoptable (sid : string) (m : live_manifest) : bool :=
  let artifact := if bool_decide (lm_backup_mode m = Some "incremental") then "increment.qcow2" else "disk.qcow2" in
  bool_decide (lm_schema_version m = Some 2%Z) && bool_decide (lm_snapshot_id m = Some sid)
  && bool_decide (lm_phase m = Some "artifact-published")
  && bool_decide (lm_final_path m = Some (snapshot_root sid +:+ "/" +:+ artifact)) && lm_artifact m.
Definition adopted (sid : string) (x : snapm St) : bool :=
  match sn_dirs x !! sid ≫= sd_live with
  | Some (Some m) => negb (lm_link m) && adoptable sid m
  | _ => false
  end.
(** The computer that runs from this snapshot, if it is active. *)
Definition refuse_if_active (s : SnapshotInfo) (message : string) : M unit :=
  if restored s && truthy_str (restored_vm_id s) then
    py_try (let! r := on_store (sm_get_vm (default "" (restored_vm_id s))) in
            py_lift (guard_raise (bool_decide (status r ∈ [RUNNING; PAUSED])) (CelestoError message)))
      (λ e, match e with VMNotFoundError _ => py_return tt | _ => py_raise e end)
  else py_return tt.
Definition delete_snapshot (sid : string) : M unit :=
  do! py_lift (_snapshot_root_for_id sid) in
  let! s := py_try (let! s := get_snapshot sid in py_return (Some s))
              (λ e, if is_not_found e then
                      let! x := py_get in
                      if adopted sid x then do! rmtree sid in py_return None else py_raise e
                    else py_raise e) in
  match s with
  | None => py_return tt
  | Some s =>
      do! refuse_if_active s "Cannot delete snapshot while restored computer is active" in
      do! py_try (rmtree sid) (λ e, if bool_decide (e = no_such_file) then py_return tt else py_raise e) in
      on_store (ss_delete sid)
  end.
End snapshots.
