(* ===== verification/SnapshotRestore.v ===== *)
(** * vm.py: restoring a snapshot

    [restore_snapshot] of the manager and of the runtime adapters.  The locals
    that its [except] block reads ([launch], [created_vm_record], the backup of
    the managed disk and its sidecars) are part of the state ([rprog]), so the
    rollback sees them as they were when the exception was raised.  A disk file
    is named as in ManagerState; the disk tools write it ([write_disk]). *)
From S2P Require Import Prelude PyHoare PyDict PyStr StorageBase Types MemoryState StateProtocol SnapshotStore.
From S2P Require Import NetworkSettings Channel EgressSession ConfigValidation.
From S2P Require Import Backends ManagerState ManagerHelpers ManagerRuntime ManagerCreate ManagerLifecycle Snapshots.
From stdpp Require Import options.
From Stdlib Require Import Ascii.

(** [RuntimeLaunch], with the socket of the guest's vsock device *)
Record restored_launch := { rl_launch : launch_t; rl_vsock_uds_path : option path }.

(** The locals of the [try] block. *)
Record rprog := {
  rp_launch : option restored_launch;
  rp_created : bool;
  rp_placeholder : bool;
  rp_backup : option string;
  rp_sidecars : list string }.
Definition rp_start : rprog :=
  {| rp_launch := None; rp_created := false; rp_placeholder := false; rp_backup := None; rp_sidecars := [] |}.
Definition rp_set_launch l p : rprog :=
  {| rp_launch := Some l; rp_created := rp_created p; rp_placeholder := rp_placeholder p; rp_backup := rp_backup p;
     rp_sidecars := rp_sidecars p |}.
Definition rp_set_created p : rprog :=
  {| rp_launch := rp_launch p; rp_created := true; rp_placeholder := rp_placeholder p; rp_backup := rp_backup p;
     rp_sidecars := rp_sidecars p |}.
Definition rp_set_placeholder p : rprog :=
  {| rp_launch := rp_launch p; rp_created := rp_created p; rp_placeholder := true; rp_backup := rp_backup p;
     rp_sidecars := rp_sidecars p |}.
Definition rp_set_backup b l p : rprog :=
  {| rp_launch := rp_launch p; rp_created := rp_created p; rp_placeholder := rp_placeholder p; rp_backup := Some b;
     rp_sidecars := l |}.

Definition si_set_config (c : VMConfig) (s : SnapshotInfo) : SnapshotInfo :=
  {| snapshot_id := snapshot_id s; si_vm_id := si_vm_id s; si_backend := si_backend s; artifacts := artifacts s;
     si_vm_config := c; si_network_config := si_network_config s; created_at := created_at s;
     snapshot_type := snapshot_type s; artifact_kind := artifact_kind s; virtual_size_bytes := virtual_size_bytes s;
     changed_bytes := changed_bytes s; bitmap_granularity_bytes := bitmap_granularity_bytes s;
     bitmap_name := bitmap_name s; restored := restored s; restored_vm_id := restored_vm_id s |}.
Definition c_set_rootfs_path (p : path) (c : VMConfig) : VMConfig :=
  {| vm_id := vm_id c; preset := preset c; vcpu_count := vcpu_count c; memory := memory c;
     guest_os := guest_os c; boot_mode := boot_mode c; kernel_path := kernel_path c;
     initrd_path := initrd_path c; rootfs_path := Some p; rootfs_format := rootfs_format c;
     macos_machine := macos_machine c; extra_drives := extra_drives c; boot_args := boot_args c;
     ssh_capable := ssh_capable c; backend := backend c; qemu_network := qemu_network c;
     qemu_machine := qemu_machine c; disk_mode := disk_mode c; disk_size_mib := disk_size_mib c;
     grow_filesystem := grow_filesystem c; retain_disk_on_delete := retain_disk_on_delete c;
     env_vars := env_vars c; network_rate_limit_mbps := network_rate_limit_mbps c;
     port_forwards := port_forwards c; vsock_config := vsock_config c; comm_channel := comm_channel c;
     internet_settings := internet_settings c; workspace_mounts := workspace_mounts c;
     ssh_public_key := ssh_public_key c; guest_managed_networking := guest_managed_networking c;
     network_attachment := network_attachment c |}.
Definition vi_set_uds (p : option path) (i : VMInfo) : VMInfo :=
  {| vi_vm_id := vi_vm_id i; status := status i; config := config i; network := network i; pid := pid i;
     control_socket_path := control_socket_path i; vsock_uds_path := p; display := display i |}.
(** [VMInfo(vm_id=..., status=CREATED, config=..., network=...)] *)
Definition vi_restored (s : SnapshotInfo) (c : VMConfig) : VMInfo :=
  {| vi_vm_id := si_vm_id s; status := CREATED; config := c; network := Some (si_network_config s); pid := None;
     control_socket_path := None; vsock_uds_path := None; display := None |}.
(** The same with what a launch reported. *)
Definition vi_launched (s : SnapshotInfo) (c : VMConfig) (l : restored_launch) : VMInfo :=
  vi_set_uds (rl_vsock_uds_path l) (launched_info (rl_launch l) (vi_restored s c)).

Section restore.
Context (E : menv) (X : senv) {St : Type} `{!StateManager St, !SnapshotStore St}.
Local Abbreviation M := (py (snapm St)).
Implicit Types x : snapm St.

(** ** Files *)
(** [os.replace(src, dst)] in the disk directory *)
Definition replace (src dst : string) : M unit := on_mgr (
  let! n := tick in
  do! raise_if (e_replace E n src) tt in
  let! g := py_get in
  match g_disks g !! src with
  | Some c => py_modify (λ g, g_set_disks (base.delete src (<[dst := c]> (g_disks g))) g)
  | None => py_raise no_such_file
  end).
Definition disk_exists (name : string) : M bool := let! x := py_get in py_return (exists_disk name (sn_mgr x)).
Definition unlink_if_exists (name : string) : M unit :=
  let! there := disk_exists name in py_when there (py_suppress (on_mgr (unlink E name))).
Definition touch (name : string) : M unit :=
  let! there := disk_exists name in py_when (negb there) (on_mgr (write_disk E name)).
Definition _restore_staging_disk_path (disk : string) : M string :=
  let! n := stick in py_return (disk +:+ ".restore-" +:+ e_uuid E n).
Definition _restore_backup_disk_path (disk : string) : M string :=
  let! n := stick in py_return (disk +:+ ".backup-" +:+ e_uuid E n).
Definition _managed_disk_sidecars_for_root (disks : gmap string nat) (root : string) : list string :=
  filter (λ n, startswith (root +:+ ".backing-") n = true) (dir_files disks).

(** ** The runtime adapters *)
Definition unlink_socket_if_exists (p : path) : M unit :=
  let! n := stick in py_when (x_exists X n p) (on_mgr (_unlink_socket E (Some p))).
Definition _local_backing_copy_path (root : string) (backing : path) (depth : nat) : string :=
  root +:+ ".backing-" +:+ dec (Z.of_nat depth)
  +:+ (if String.eqb (path_suffix backing) "" then ".img" else path_suffix backing).
(** The recursion follows the chain of backing files; past the recursion limit
    it raises, as Python does.  The last step is [qemu-img rebase]. *)
Fixpoint _copy_disk_standalone (fuel : nat) (source : path) (dest : string) (depth : nat) : M unit :=
  match fuel with
  | 0 => py_raise (RuntimeErrorExn "maximum recursion depth exceeded")
  | S fuel' =>
      let! n := stick in
      let! backing := py_lift (x_backing X n source) in
      match backing with
      | None => on_mgr (write_disk E dest)
      | Some b =>
          let! n := stick in
          do! py_lift (guard_raise (negb (x_exists X n b))
                (CelestoError ("Full snapshot needs the disk's base image, but that file is missing: '" +:+ b
                   +:+ "'. Restore it, or take a diff snapshot instead."))) in
          do! on_mgr (write_disk E dest) in
          do! _copy_disk_standalone fuel' b (_local_backing_copy_path dest b depth) (S depth) in
          on_mgr (write_disk E dest)
      end
  end.
Definition recursion_limit : nat := 1000.

(** [SnapshotRestoreRequest]: the snapshot, the disk to write, [resume_vm] *)
Definition qemu_copy (s : SnapshotInfo) (disk : string) : M unit :=
  match snapshot_type s with
  | DIFF =>
      do! on_mgr (write_disk E disk) in
      let! n := stick in
      match x_backing X n (disk_path_of E disk) with
      | Ret (Some b) =>
          let! n := stick in
          py_lift (guard_raise (negb (x_exists X n b))
            (CelestoError ("This space-saving snapshot needs its original base image, which is missing: '" +:+ b
               +:+ "'. Restore that file and run 'celesto computer snapshot restore " +:+ snapshot_id s
               +:+ "' again, or take a full snapshot next time with '--snapshot-type full'.")))
      | _ => py_return tt
      end
  | _ => _copy_disk_standalone recursion_limit (disk_path (artifacts s)) disk 0
  end.
(** A failed launch: the process is killed and its socket removed. *)
Definition launch_failed {A} (p : Z) (socket : path) (e : exn) : M A :=
  do! py_suppress (on_mgr (_kill_process E p)) in
  do! py_suppress (unlink_socket_if_exists socket) in
  py_raise e.
Definition spawn_failed {A} (socket : path) (e : exn) : M A :=
  do! py_suppress (unlink_socket_if_exists socket) in py_raise e.
Definition restored_status (resume_vm : bool) : VMState := if resume_vm then RUNNING else PAUSED.

Definition qemu_restore_snapshot (s : SnapshotInfo) (disk : string) (resume_vm : bool) : M restored_launch :=
  let vm := si_vm_id s in
  let i := vi_restored s (c_set_rootfs_path (disk_path_of E disk) (si_vm_config s)) in
  let socket := e_socket_dir E +:+ "/qmp-" +:+ vm +:+ ".sock" in
  do! qemu_copy s disk in
  do! unlink_socket_if_exists socket in
  let! p := py_try (on_mgr (spawn E i)) (spawn_failed socket) in
  do! py_modify (λ x, sn_set_paused ({[vm]} ∪ sn_paused x) x) in
  py_try (do! on_mgr (boot E i) in
          do! command X "connect" vm in
          do! py_when (negb (bool_decide (snapshot_type s = DISK)))
                (do! command X "snapshot-load" vm in command X "snapshot-delete" vm) in
          do! py_when resume_vm (resume_guest X "cont" vm) in
          py_return {| rl_launch := {| l_status := restored_status resume_vm; l_pid := p; l_socket := Some socket;
                                       l_display := None |};
                       rl_vsock_uds_path := None |})
    (launch_failed p socket).

Definition fc_vsock (vm : string) (c : VMConfig) : option path :=
  (λ v, match uds_path v with
        | Some u => if String.eqb u "" then e_socket_dir E +:+ "/vsock-" +:+ vm +:+ ".sock" else u
        | None => e_socket_dir E +:+ "/vsock-" +:+ vm +:+ ".sock"
        end) <$> vsock_config c.
Definition firecracker_restore_snapshot (s : SnapshotInfo) (disk : string) (resume_vm : bool) : M restored_launch :=
  let vm := si_vm_id s in
  let c := si_vm_config s in
  let i := vi_restored s (c_set_rootfs_path (disk_path_of E disk) c) in
  let uds := fc_vsock vm c in
  let socket := e_socket_dir E +:+ "/fc-" +:+ vm +:+ ".sock" in
  do! on_mgr (write_disk E disk) in
  match snapshot_type s with
  | DISK =>
      let! l := on_mgr (firecracker_start E i) in
      do! py_modify (λ x, sn_set_paused (sn_paused x ∖ {[vm]}) x) in
      if resume_vm then py_return {| rl_launch := l; rl_vsock_uds_path := uds |}
      else
        let running := vi_set_uds uds (launched_info l i) in
        do! py_try (on_mgr (adapter_pause E BACKEND_FIRECRACKER running))
              (λ e, do! py_suppress (on_mgr (firecracker_stop E running)) in py_raise e) in
        do! py_modify (λ x, sn_set_paused ({[vm]} ∪ sn_paused x) x) in
        py_return {| rl_launch := {| l_status := PAUSED; l_pid := l_pid l; l_socket := l_socket l; l_display := None |};
                     rl_vsock_uds_path := uds |}
  | _ =>
      do! py_lift (guard_raise (negb (is_some (state_path (artifacts s)) && is_some (memory_path (artifacts s))))
            (CelestoError "Firecracker snapshot restore requires state and memory artifacts")) in
      do! unlink_socket_if_exists socket in
      do! (match uds with Some u => unlink_socket_if_exists u | None => py_return tt end) in
      let! p := py_try (on_mgr (spawn E i)) (spawn_failed socket) in
      py_try (do! on_mgr (boot E i) in
              do! command X "load-snapshot" vm in
              do! py_modify (λ x, sn_set_paused (if resume_vm then sn_paused x ∖ {[vm]} else {[vm]} ∪ sn_paused x) x) in
              py_return {| rl_launch := {| l_status := restored_status resume_vm; l_pid := p; l_socket := Some socket;
                                           l_display := None |};
                           rl_vsock_uds_path := uds |})
        (launch_failed p socket)
  end.

Definition adapter_restore_snapshot (b : string) (s : SnapshotInfo) (disk : string) (resume_vm : bool) : M restored_launch :=
  if String.eqb b BACKEND_FIRECRACKER then firecracker_restore_snapshot s disk resume_vm
  else if String.eqb b BACKEND_QEMU then qemu_restore_snapshot s disk resume_vm
  else if String.eqb b BACKEND_LIBKRUN then py_raise (CelestoError "libkrun backend does not support snapshot restore yet")
  else py_raise (CelestoError ("macOS snapshot '" +:+ snapshot_id s
         +:+ "' cannot be restored in this release; create a new macOS computer instead.")).

(** ** The checks *)
(** One required artifact; [label] says which. *)
Definition require_artifact (s : SnapshotInfo) (label : string) (p : option path) : M unit :=
  let missing := CelestoError ("Snapshot restore requires " +:+ label +:+ " to exist") in
  if bool_decide (snapshot_type s = DISK) && negb (String.eqb label "disk_path") then py_return tt
  else match p with
  | None => if String.eqb (si_backend s) BACKEND_QEMU && negb (String.eqb label "disk_path") then py_return tt
            else py_raise missing
  | Some p => let! n := stick in py_lift (guard_raise (negb (x_exists X n p)) missing)
  end.
Definition find_vm (vm : string) : M (option VMInfo) :=
  py_try (let! i := on_store (sm_get_vm vm) in py_return (Some i))
    (λ e, match e with VMNotFoundError _ => py_return None | _ => py_raise e end).
Definition restore_checks (sid : string) (s : SnapshotInfo) (force : bool) : M (option VMInfo) :=
  do! py_lift (guard_raise (is_public (si_vm_config s))
        (CelestoError "Public browsing cannot restore an old connection; create a new computer instead.")) in
  do! py_lift (guard_raise (restored s && negb force) (CelestoError "Snapshot already restored")) in
  let! existing := find_vm (si_vm_id s) in
  do! refuse_if_active s "Snapshot is already backing an active restored computer" in
  do! py_lift (guard_raise (from_option (λ i, bool_decide (config i ≠ si_vm_config s)) false existing)
        (CelestoError "Snapshot restore requires the original computer identity and config")) in
  do! (match kernel_path (si_vm_config s) with
       | Some k => let! n := stick in
                   py_lift (guard_raise (negb (x_exists X n k))
                     (CelestoError "Snapshot restore requires the original kernel path to exist"))
       | None => py_return tt
       end) in
  do! require_artifact s "disk_path" (Some (disk_path (artifacts s))) in
  do! require_artifact s "snapshot_path" (state_path (artifacts s)) in
  do! require_artifact s "mem_file_path" (memory_path (artifacts s)) in
  match existing with
  | Some i =>
      if bool_decide (status i ∈ [RUNNING; PAUSED]) then
        do! on_mgr (stop E (si_vm_id s)) in
        let! i := on_store (sm_get_vm (si_vm_id s)) in py_return (Some i)
      else py_return existing
  | None => py_return None
  end.

(** What the [try] block works with: the managed disk, the disk the adapter
    writes, the stored configuration and [effective_snapshot]. *)
Record restore_plan := {
  pl_disk : string;
  pl_staging : string;
  pl_config : VMConfig;
  pl_snapshot : SnapshotInfo }.
Definition plan_restore (s : SnapshotInfo) : M restore_plan :=
  let! f := py_lift (effective_rootfs_format (si_vm_config s)) in
  let disk := _instance_disk_name (si_vm_id s) (si_backend s) f in
  let persisted := c_set_backend (si_backend s) (c_set_rootfs (disk_path_of E disk) f (si_vm_config s)) in
  let! staging := (if String.eqb (si_backend s) BACKEND_QEMU then _restore_staging_disk_path disk else py_return disk) in
  let s := si_set_config (c_set_rootfs_path (disk_path_of E staging) persisted) s in
  py_return {| pl_disk := disk; pl_staging := staging; pl_config := persisted; pl_snapshot := s |}.
Definition is_bridged (s : SnapshotInfo) : bool := bool_decide (nc_mode (si_network_config s) = bridge_mode).
Definition plan_checks (sid : string) (s : SnapshotInfo) : M unit :=
  let c := si_vm_config s in
  do! py_lift (_validate_network_policy E c (si_backend s)) in
  do! py_lift (_runtime_adapter_for_backend E (si_backend s)) in
  if is_bridged s then
    do! py_lift (guard_raise (bool_decide (na_bridge (network_attachment c) ≠ nc_bridge (si_network_config s)))
          (CelestoError ("Snapshot '" +:+ sid +:+ "' has inconsistent bridge settings; delete the snapshot with "
             +:+ "'celesto computer snapshot delete " +:+ sid +:+ "'."))) in
    let! r := py_lift (_resolve_control_channel_for_config E c (si_backend s)) in
    on_mgr (_validate_bridge_mode E c (si_backend s) (Some r))
  else py_return tt.

(** ** The network of the restored computer *)
Definition _ensure_tap_network_for_restore (vm : string) (nc : NetworkConfig) (c : option VMConfig) : M unit := on_mgr (
  if bool_decide (nc_mode nc = bridge_mode) then
    match c with
    | None => py_raise (CelestoError ("Snapshot network settings are incomplete for computer '" +:+ vm
                +:+ "'; run 'celesto computer delete " +:+ vm +:+ "' to remove the restore attempt."))
    | Some c => let! b := py_lift (_backend_for_config E c) in _ensure_bridge_ready E vm nc c b
    end
  else match guest_ip nc with
  | None => py_raise (AssertionErrorExn "")
  | Some ip =>
      do! net E (prepare_tap_device (tap_device nc)) in
      do! net E (add_route ip (tap_device nc)) in
      do! (match c with
           | None => do! net E (apply_network_policy (tap_device nc) None None) in net E (setup_nat (tap_device nc) true)
           | Some c => let! b := py_lift (_backend_for_config E c) in
                       do! py_lift (_validate_network_policy E c b) in
                       do! _setup_policy_network E c (tap_device nc) ip in
                       apply_domain_allowlist E c (tap_device nc)
           end) in
      match ssh_host_port nc with
      | Some p => net E (setup_ssh_port_forward vm ip p)
      | None => py_return tt
      end
  end).

(** ** restore_snapshot *)
Local Abbreviation R := (py (snapm St * rprog)).
Definition on_snap {A} (m : M A) : R A := λ xp, let (x', r) := m xp.1 in ((x', xp.2), r).
Definition note (f : rprog → rprog) : R unit := py_modify (λ xp, (xp.1, f xp.2)).

(** The managed disk is set aside and replaced by an empty file. *)
Definition set_disk_aside (p : restore_plan) : R unit :=
  let d := pl_disk p in
  do! on_snap (let! n := stick in sraise_if (x_disk_dir X n) tt) in
  do! (if String.eqb (pl_staging p) d then py_return tt
       else on_snap (let! there := disk_exists (pl_staging p) in
                     py_when there (on_mgr (unlink E (pl_staging p))))) in
  let! there := on_snap (disk_exists d) in
  do! (if (there : bool) then
         let! xp := py_get in
         let sidecars := _managed_disk_backing_sidecars E (g_disks (sn_mgr xp.1)) d in
         let! backup := on_snap (_restore_backup_disk_path d) in
         do! note (rp_set_backup backup sidecars) in
         on_snap (replace d backup)
       else note rp_set_placeholder) in
  on_snap (touch d).

(** The row, the leases and the network of the restored computer. *)
Definition claim_leases (vm : string) (p : restore_plan) : M unit :=
  let s := pl_snapshot p in
  let nc := si_network_config s in
  do! (if is_bridged s then
         match nc_bridge nc with
         | None => py_raise (AssertionErrorExn "")
         | Some bridge =>
             do! on_store (sm_reserve_tap_name vm "bridge" (Some bridge) (Some (tap_device nc))) in py_return tt
         end
       else if _uses_host_tap_networking (pl_config p) (si_backend s) then
         do! on_store (sm_allocate_ip vm (tap_device nc) (guest_ip nc)) in py_return tt
       else py_return tt) in
  do! (match ssh_host_port nc with
       | Some port => do! on_store (sm_reserve_ssh_port vm (Some port) []) in py_return tt
       | None => py_return tt
       end) in
  match vsock_config (pl_config p) with
  | Some v =>
      if String.eqb (si_backend s) BACKEND_QEMU then
        py_try (do! on_mgr (_reserve_vsock_cid_for_backend E vm (si_backend s) (Some (guest_cid v))) in py_return tt)
          (λ e, if is_network_error e
                then py_raise (NetworkError ("Vsock CID " +:+ dec (guest_cid v)
                       +:+ " is already in use; run 'celesto computer delete " +:+ vm
                       +:+ "' to remove this restore attempt."))
                else py_raise e)
      else py_return tt
  | None => py_return tt
  end.
Definition claim_network (vm : string) (p : restore_plan) : M unit :=
  let s := pl_snapshot p in
  do! claim_leases vm p in
  do! on_store (sm_update_vm vm (u_with_network (si_network_config s))) in
  py_when (_uses_host_tap_networking (pl_config p) (si_backend s))
    (_ensure_tap_network_for_restore vm (si_network_config s) (Some (si_vm_config s))).

(** The guest is launched on the disk the adapter wrote. *)
Definition launch_restored (sid : string) (p : restore_plan) (resume_vm : bool) : R restored_launch :=
  let s := pl_snapshot p in
  let! l := on_snap (
    do! (if bool_decide (snapshot_type s = DISK) then py_return tt
         else do! py_lift (_snapshot_root_for_id E X sid) in
              let! n := stick in sraise_if (x_host_key X n) tt) in
    adapter_restore_snapshot (si_backend s) s (pl_staging p) resume_vm) in
  do! note (rp_set_launch l) in
  do! (if String.eqb (pl_staging p) (pl_disk p) then py_return tt else on_snap (replace (pl_staging p) (pl_disk p))) in
  py_return l.
(** The records, then the files of the replaced disk. *)
Definition record_restored (sid vm : string) (l : restored_launch) : M VMInfo :=
  let! i := on_store (sm_update_vm vm (u_launched (rl_launch l))) in
  let i := match rl_vsock_uds_path l with Some u => vi_set_uds (Some u) i | None => i end in
  let! s := on_store (ss_mark_restored sid vm) in
  do! _write_snapshot_manifest E X s in
  py_return i.
Definition discard_replaced (r : rprog) : M unit :=
  do! (match rp_backup r with Some b => unlink_if_exists b | None => py_return tt end) in
  py_for (rp_sidecars r) (λ f, py_suppress (on_mgr (unlink E f))).

Definition restore_body (sid vm : string) (existing : option VMInfo) (p : restore_plan) (resume_vm : bool) : R VMInfo :=
  do! set_disk_aside p in
  do! (if is_some existing then py_return tt
       else do! on_snap (on_store (sm_create_vm (pl_config p))) in note rp_set_created) in
  do! on_snap (claim_network vm p) in
  let! l := launch_restored sid p resume_vm in
  let! i := on_snap (record_restored sid vm l) in
  let! xp := py_get in
  do! on_snap (discard_replaced xp.2) in
  py_return i.

(** The [except] block. *)
Definition undo_launch (p : restore_plan) (r : rprog) : M unit :=
  match rp_launch r with
  | Some l => py_suppress (on_mgr (adapter_stop E (si_backend (pl_snapshot p)) (vi_launched (pl_snapshot p) (pl_config p) l)))
  | None => py_return tt
  end.
Definition undo_records (vm : string) (existing : option VMInfo) (r : rprog) : M unit :=
  if rp_created r then
    do! py_suppress (on_mgr (_cleanup_resources E vm false false)) in
    py_suppress (on_store (sm_delete_vm vm))
  else if is_some existing then
    py_suppress (do! on_store (sm_update_vm vm (u_cleared ERROR true false)) in py_return tt)
  else py_return tt.
Definition undo_disk (p : restore_plan) (r : rprog) : M unit :=
  let d := pl_disk p in
  do! (if String.eqb (pl_staging p) d then py_return tt else unlink_if_exists (pl_staging p)) in
  let! x := py_get in
  do! py_for (_managed_disk_sidecars_for_root (g_disks (sn_mgr x)) (pl_staging p))
        (λ f, py_suppress (on_mgr (unlink E f))) in
  do! py_when (rp_placeholder r) (unlink_if_exists d) in
  match rp_backup r with
  | Some b =>
      let! there := disk_exists b in
      py_when there (py_suppress (
        let! there := disk_exists d in
        do! py_when there (on_mgr (unlink E d)) in
        replace b d))
  | None => py_return tt
  end.
Definition restore_rollback {A} (vm : string) (existing : option VMInfo) (p : restore_plan) (e : exn) : R A :=
  let! xp := py_get in
  let r := xp.2 in
  on_snap (do! undo_launch p r in do! undo_records vm existing r in do! undo_disk p r in py_raise e).

Definition restore_snapshot (sid : string) (resume_vm force : bool) : M VMInfo :=
  do! py_lift (guard_raise (String.eqb sid "") (ValueError "snapshot_id cannot be empty")) in
  let! s := get_snapshot E X sid in
  let vm := si_vm_id s in
  let! existing := restore_checks sid s force in
  let! p := plan_restore s in
  do! plan_checks sid (pl_snapshot p) in
  λ x, let '((x', _), r) := py_try (restore_body sid vm existing p resume_vm) (restore_rollback vm existing p) (x, rp_start) in
       (x', r).
End restore.
