(* ===== verification/SnapshotFrames.v ===== *)
(** * What the steps of a snapshot leave alone

    [still m]: however [m] ends, the inventory is still well formed and no disk
    file changed.  The runtime adapters, the network set-up and the calls on the
    inventory are all still; what writes disks says which. *)
From S2P Require Import Prelude PyHoare PyDict PyStr StorageBase Types MemoryState StateProtocol SnapshotStore.
From S2P Require Import NetworkSettings Channel EgressSession ConfigValidation.
From S2P Require Import Backends ManagerState ManagerHelpers ManagerRuntime ManagerCreate ManagerLifecycle ManagerFrames.
From S2P Require Import Snapshots SnapshotRestore.
From stdpp Require Import options.

(** ** Rules *)
Section rules.
Context {St : Type}.
Implicit Types x : snapm St.

Lemma wp_on_mgr {A} (m : py (mgr St) A) (Q : A → snapm St → Prop) (P : exn → snapm St → Prop) x :
  wp m (λ a g, Q a (sn_set_mgr g x)) (λ e g, P e (sn_set_mgr g x)) (sn_mgr x) → wp (on_mgr m) Q P x.
Proof. unfold wp, on_mgr. by destruct (m (sn_mgr x)) as [g []]. Qed.
Lemma wp_on_snap {A} (m : py (snapm St) A) (Q : A → snapm St * rprog → Prop) (P : exn → snapm St * rprog → Prop) x r :
  wp m (λ a x', Q a (x', r)) (λ e x', P e (x', r)) x → wp (on_snap m) Q P (x, r).
Proof. unfold wp, on_snap. simpl. by destruct (m x) as [x' []]. Qed.
Lemma keeps_on_mgr {A} (I : mgr St → Prop) (m : py (mgr St) A) :
  keeps I m → keeps (λ x, I (sn_mgr x)) (on_mgr m).
Proof. intros Hm x HI. apply wp_on_mgr. by eapply wp_mono; [apply Hm|..]. Qed.
Lemma keeps_on_snap {A} (I : snapm St → Prop) (P : rprog → Prop) (m : py (snapm St) A) :
  keeps I m → keeps (λ xp, I xp.1 ∧ P xp.2) (on_snap m).
Proof. intros Hm [x r] [HI HP]. apply wp_on_snap. by eapply wp_mono; [apply Hm|..]. Qed.
Lemma keeps_sraise_if {A} (I : snapm St → Prop) o (a : A) : keeps I (sraise_if o a).
Proof. unfold sraise_if. destruct o; auto with celesto. Qed.
(** A call that goes on to raise, whatever comes before. *)
Lemma then_raises {T A B} (m : py T B) (k : py T A) (Q : A → T → Prop) t :
  (∀ t', wp k Q (λ _ _, True) t') → wp (do! m in k) Q (λ _ _, True) t.
Proof. intros Hk. unfold wp, py_bind. destruct (m t) as [t' []]; [apply Hk|done]. Qed.
End rules.
#[export] Hint Resolve keeps_sraise_if : celesto.

(** ** Calls that touch no disk *)
Section calm.
Context (E : menv) {St : Type} `{!StateManager St, !StateManagerLaws St}.
Implicit Types g : mgr St.
Local Abbreviation M := (py (mgr St)).

Definition calm (D : gmap string nat) g : Prop := sm_ok (g_state g) ∧ g_disks g = D.

Lemma calm_modify D f : (∀ g, g_state (f g) = g_state g ∧ g_disks (f g) = g_disks g) → keeps (calm D) (py_modify f : M unit).
Proof. intros Hf. apply keeps_modify. intros g [Hok Hd]. destruct (Hf g) as [Hs Hd']. split; congruence. Qed.
Lemma calm_tick D : keeps (calm D) (tick : M nat).
Proof. by intros g. Qed.
Lemma calm_state {A} D (m : py St A) :
  (∀ s, sm_ok s → wp m (λ _, sm_ok) (λ _, sm_ok) s) → keeps (calm D) (on_state m).
Proof. intros Hm g [Hok Hd]. apply wp_on_state. eapply wp_mono; [by apply Hm|..]; by split. Qed.
Lemma calm_public {A} D vm s (m : SE A) : keeps (calm D) (on_public vm s m : M A).
Proof. intros g Hg. unfold wp, on_public. by destruct (m (g_host g, s)) as [[h s'] []]. Qed.
End calm.
#[export] Hint Resolve calm_tick calm_public : celesto.
#[export] Hint Extern 2 (keeps (calm _) (py_modify _)) => apply calm_modify; intros ?; split; reflexivity : celesto.

(** From the law of a call on the inventory: it keeps it well formed. *)
Ltac law_ok L := intros; apply calm_state; intros ? ?; eapply wp_mono; [by apply L|..];
  cbv beta; unfold same_view, same_all; naive_solver.

Section calm_store.
Context {St : Type} `{!StateManager St, !StateManagerLaws St}.
Implicit Types (D : gmap string nat) (g : mgr St).
Lemma calm_get D vm : keeps (calm D) (on_state (sm_get_vm vm)).
Proof. law_ok law_get. Qed.
Lemma calm_create D c : keeps (calm D) (on_state (sm_create_vm c)).
Proof. law_ok law_create. Qed.
Lemma calm_update D vm u : keeps (calm D) (on_state (sm_update_vm vm u)).
Proof. law_ok law_update. Qed.
Lemma calm_delete D vm : keeps (calm D) (on_state (sm_delete_vm vm)).
Proof. law_ok law_delete. Qed.
Lemma calm_allocate_ip D vm t r : keeps (calm D) (on_state (sm_allocate_ip vm t r)).
Proof. law_ok law_allocate_ip. Qed.
Lemma calm_release_ip D vm : keeps (calm D) (on_state (sm_release_ip vm)).
Proof. law_ok law_release_ip. Qed.
Lemma calm_get_lease D vm : keeps (calm D) (on_state (sm_get_ip_lease vm)).
Proof. law_ok law_get_ip_lease. Qed.
Lemma calm_reserve_port D vm p e : keeps (calm D) (on_state (sm_reserve_ssh_port vm p e)).
Proof. law_ok law_reserve_ssh_port. Qed.
Lemma calm_get_port D vm : keeps (calm D) (on_state (sm_get_ssh_port vm)).
Proof. law_ok law_get_ssh_port. Qed.
Lemma calm_release_port D vm : keeps (calm D) (on_state (sm_release_ssh_port vm)).
Proof. law_ok law_release_ssh_port. Qed.
Lemma calm_reserve_cid D vm r : keeps (calm D) (on_state (sm_reserve_vsock_cid vm r)).
Proof. law_ok law_reserve_vsock_cid. Qed.
Lemma calm_get_cid D vm : keeps (calm D) (on_state (sm_get_vsock_cid vm)).
Proof. law_ok law_get_vsock_cid. Qed.
Lemma calm_release_cid D vm : keeps (calm D) (on_state (sm_release_vsock_cid vm)).
Proof. law_ok law_release_vsock_cid. Qed.
Lemma calm_reserve_tap D vm m b r : keeps (calm D) (on_state (sm_reserve_tap_name vm m b r)).
Proof. law_ok law_reserve_tap_name. Qed.
Lemma calm_get_tap D vm : keeps (calm D) (on_state (sm_get_tap_allocation vm)).
Proof. law_ok law_get_tap_allocation. Qed.
Lemma calm_release_tap D vm : keeps (calm D) (on_state (sm_release_tap_name vm)).
Proof. law_ok law_release_tap_name. Qed.
End calm_store.
#[export] Hint Resolve calm_get calm_create calm_update calm_delete calm_allocate_ip calm_release_ip calm_get_lease
  calm_reserve_port calm_get_port calm_release_port calm_reserve_cid calm_get_cid calm_release_cid calm_reserve_tap
  calm_get_tap calm_release_tap : celesto.

Section calm_calls.
Context (E : menv) {St : Type} `{!StateManager St, !StateManagerLaws St}.
Implicit Types (D : gmap string nat) (g : mgr St).
Local Abbreviation M := (py (mgr St)).

Lemma calm_net D op : keeps (calm D) (net E op : M unit).
Proof. unfold net. keeps_steps. Qed.
Lemma calm_running D p : keeps (calm D) (_is_process_running E p : M bool).
Proof. unfold _is_process_running. keeps_steps. Qed.
Lemma calm_kill D p : keeps (calm D) (_kill_process E p : M unit).
Proof. unfold _kill_process. keeps_steps. Qed.
Lemma calm_socket D o : keeps (calm D) (_unlink_socket E o : M unit).
Proof. unfold _unlink_socket. keeps_steps. Qed.
Lemma calm_spawn D i : keeps (calm D) (spawn E i : M Z).
Proof. unfold spawn. keeps_steps. Qed.
Lemma calm_boot D i : keeps (calm D) (boot E i : M unit).
Proof. unfold boot. keeps_steps. Qed.
Lemma calm_monitor D c i : keeps (calm D) (monitor E c i : M unit).
Proof. unfold monitor. keeps_steps. Qed.
Hint Resolve calm_net calm_running calm_kill calm_socket calm_spawn calm_boot calm_monitor : celesto.
Lemma calm_pid_running D i : keeps (calm D) (pid_running E i : M bool).
Proof. unfold pid_running. keeps_steps. Qed.
Lemma calm_kill_pid D i : keeps (calm D) (kill_pid E i : M unit).
Proof. unfold kill_pid. keeps_steps. Qed.
Hint Resolve calm_pid_running calm_kill_pid : celesto.

Lemma calm_fc_start D i : keeps (calm D) (firecracker_start E i : M _).
Proof. unfold firecracker_start. keeps_steps. Qed.
Lemma calm_fc_stop D i : keeps (calm D) (firecracker_stop E i : M _).
Proof. unfold firecracker_stop. keeps_steps. Qed.
Hint Resolve calm_fc_stop : celesto.
Lemma calm_stop D b i : keeps (calm D) (adapter_stop E b i : M unit).
Proof. unfold adapter_stop, qemu_stop, libkrun_stop, vz_stop. keeps_steps. Qed.
Lemma calm_pause D b i : keeps (calm D) (adapter_pause E b i : M unit).
Proof. unfold adapter_pause. keeps_steps. Qed.
Lemma calm_resume D b i : keeps (calm D) (adapter_resume E b i : M unit).
Proof. unfold adapter_resume. keeps_steps. Qed.

Lemma calm_policy D c t ip : keeps (calm D) (_setup_policy_network E c t ip : M unit).
Proof. unfold _setup_policy_network. keeps_steps. Qed.
Lemma calm_allowlist D c t : keeps (calm D) (apply_domain_allowlist E c t : M unit).
Proof. unfold apply_domain_allowlist. keeps_steps. Qed.
Lemma calm_validate_bridge D c b r : keeps (calm D) (_validate_bridge_mode E c b r : M unit).
Proof. unfold _validate_bridge_mode. cbv zeta. keeps_steps. Qed.
Hint Resolve calm_validate_bridge : celesto.
Lemma calm_bridge_ready D vm nc c b : keeps (calm D) (_ensure_bridge_ready E vm nc c b : M unit).
Proof. unfold _ensure_bridge_ready. keeps_steps. Qed.
Lemma calm_cid_loop D vm live cands : keeps (calm D) (cid_loop vm live cands : M Z).
Proof. induction cands; cbn [cid_loop]; keeps_steps. Qed.
Hint Resolve calm_cid_loop : celesto.
Lemma calm_vsock D vm b r : keeps (calm D) (_reserve_vsock_cid_for_backend E vm b r : M Z).
Proof. unfold _reserve_vsock_cid_for_backend. keeps_steps. Qed.
Hint Resolve calm_stop : celesto.
Lemma calm_manager_stop D vm : keeps (calm D) (stop E vm : M VMInfo).
Proof. unfold stop, _stop_claimed, current_info, _stop_public_egress, forget_unrecorded. keeps_steps. Qed.
Lemma calm_host_resources D vm i b : keeps (calm D) (_cleanup_host_resources E vm i b : M unit).
Proof. unfold _cleanup_host_resources, cleanup_bridge, cleanup_nat. keeps_steps. Qed.
End calm_calls.
#[export] Hint Resolve calm_net calm_running calm_kill calm_socket calm_spawn calm_boot calm_monitor calm_fc_start
  calm_fc_stop calm_stop calm_pause calm_resume calm_policy calm_allowlist calm_validate_bridge calm_bridge_ready
  calm_vsock calm_manager_stop calm_host_resources : celesto.

(** ** The same for the snapshot operations *)
(** The inventory is well formed and the disks satisfy [I]. *)
Definition about {St} `{!StateManager St, !StateManagerLaws St} (I : gmap string nat → Prop) (x : snapm St) : Prop :=
  sm_ok (g_state (sn_mgr x)) ∧ I (g_disks (sn_mgr x)).

Section about.
Context (E : menv) (X : senv) {St : Type} `{!StateManager St, !StateManagerLaws St, !SnapshotStore St, !SnapshotLaws St}.
Context (I : gmap string nat → Prop).
Implicit Types x : snapm St.
Local Abbreviation M := (py (snapm St)).

Lemma about_mgr {A} (m : py (mgr St) A) : (∀ D, keeps (calm D) m) → keeps (about I) (on_mgr m).
Proof.
  intros Hm x [Hok HI]. apply wp_on_mgr. eapply wp_mono; [by apply (Hm (g_disks (sn_mgr x)))|..];
    intros ? g [Hs Hd]; split; simpl; by rewrite ?Hd.
Qed.
Lemma about_modify f : (∀ x, sn_mgr (f x) = sn_mgr x) → keeps (about I) (py_modify f : M unit).
Proof. intros Hf. apply keeps_modify. intros x. unfold about. by rewrite Hf. Qed.
Lemma about_write d : (∀ D c, I D → I (<[d := c]> D)) → keeps (about I) (on_mgr (write_disk E d) : M unit).
Proof.
  intros Hd x [Hok HI]. apply wp_on_mgr. unfold write_disk. apply wp_bind, wp_tick.
  destruct (e_disk E _ d) as [c|e [c|]]; [apply wp_modify|apply wp_bind, wp_modify, wp_raise..]; split; simpl; auto.
Qed.
Lemma about_unlink d : (∀ D, I D → I (base.delete d D)) → keeps (about I) (on_mgr (unlink E d) : M unit).
Proof.
  intros Hd x [Hok HI]. apply wp_on_mgr. unfold unlink. apply wp_bind, wp_tick.
  destruct (e_unlink E _ d); [by apply wp_raise|]. apply wp_modify. split; simpl; auto.
Qed.
Lemma about_stick : keeps (about I) (stick : M nat).
Proof. apply about_mgr. intros. apply calm_tick. Qed.

Lemma ok_ss_create i : ∀ D, keeps (calm D) (on_state (ss_create i) : py (mgr St) _).
Proof using Type*. law_ok law_ss_create. Qed.
Lemma ok_ss_get i : ∀ D, keeps (calm D) (on_state (ss_get i) : py (mgr St) _).
Proof using Type*. law_ok law_ss_get. Qed.
Lemma ok_ss_list i : ∀ D, keeps (calm D) (on_state (ss_list i) : py (mgr St) _).
Proof using Type*. law_ok law_ss_list. Qed.
Lemma ok_ss_mark i vm : ∀ D, keeps (calm D) (on_state (ss_mark_restored i vm) : py (mgr St) _).
Proof using Type*. law_ok law_ss_mark_restored. Qed.
Lemma ok_ss_delete i : ∀ D, keeps (calm D) (on_state (ss_delete i) : py (mgr St) _).
Proof using Type*. law_ok law_ss_delete. Qed.
End about.
#[export] Hint Resolve about_stick ok_ss_create ok_ss_get ok_ss_list ok_ss_mark ok_ss_delete : celesto.
#[export] Hint Extern 2 (keeps (about _) (py_modify _)) => apply about_modify; intros ?; reflexivity : celesto.
#[export] Hint Extern 3 (keeps (about _) (on_mgr _)) => apply about_mgr; intros ?; solve [eauto with celesto nocore] : celesto.
#[export] Hint Extern 3 (keeps (about _) (on_store _)) => apply about_mgr; intros ?; solve [eauto with celesto nocore] : celesto.
