(* ===== verification/RestoreProofs.v ===== *)
(** * Restoring a snapshot: what survives a failure *)
From S2P Require Import Prelude PyHoare PyDict PyStr StorageBase Types MemoryState StateProtocol SnapshotStore.
From S2P Require Import NetworkSettings Channel EgressSession ConfigValidation.
From S2P Require Import Backends ManagerState ManagerHelpers ManagerRuntime ManagerCreate ManagerLifecycle ManagerFrames ManagerCreateProofs.
From S2P Require Import PyUrl Leftovers Snapshots SnapshotRestore SnapshotFrames.
From stdpp Require Import options.
From Stdlib Require Import Ascii.

(** ** Names beside a disk *)
(** The files a restore to [root] writes. *)
Definition written (root f : string) : Prop := f = root ∨ ∃ t, f = root +:+ ".backing-" +:+ t.

Lemma written_copy root f b n : written root f → written root (_local_backing_copy_path f b n).
Proof.
  unfold written, _local_backing_copy_path. intros [->|[t ->]]; right; eexists; [done|].
  by rewrite !string_app_assoc.
Qed.

Section adapters.
Context (E : menv) (X : senv) {St : Type} `{!StateManager St, !StateManagerLaws St, !SnapshotStore St, !SnapshotLaws St}.
Context (root : string) (I : gmap string nat → Prop) (HI : ∀ f D c, written root f → I D → I (<[f := c]> D)).
Implicit Types x : snapm St.
Local Abbreviation M := (py (snapm St)).

Lemma about_copy fuel src dest n :
  written root dest → keeps (about I) (_copy_disk_standalone E X fuel src dest n : M unit).
Proof using HI.
  revert src dest n. induction fuel as [|fuel IH]; intros src dest n Hw; cbn [_copy_disk_standalone]; [auto with celesto|].
  assert (keeps (about I) (on_mgr (write_disk E dest) : M unit)) by (apply about_write; eauto).
  keeps_steps. apply IH. by apply written_copy.
Qed.

Lemma about_command n vm : keeps (about I) (command X n vm : M unit).
Proof. unfold command. keeps_steps. Qed.
Lemma about_resume_guest n vm : keeps (about I) (resume_guest X n vm : M unit).
Proof. unfold resume_guest, command. keeps_steps. Qed.
Lemma about_socket p : keeps (about I) (unlink_socket_if_exists E X p : M unit).
Proof. unfold unlink_socket_if_exists. keeps_steps. Qed.
Hint Resolve about_command about_resume_guest about_socket : celesto.
Lemma about_launch_failed {A} p sock e : keeps (about I) (launch_failed E X p sock e : M A).
Proof. unfold launch_failed. keeps_steps. Qed.
Lemma about_spawn_failed {A} sock e : keeps (about I) (spawn_failed E X sock e : M A).
Proof. unfold spawn_failed. keeps_steps. Qed.
Hint Resolve about_launch_failed about_spawn_failed : celesto.

(** The adapters write the disk they are given and its backing copies. *)
Lemma about_restore b s r : keeps (about I) (adapter_restore_snapshot E X b s root r : M _).
Proof using HI.
  assert (keeps (about I) (on_mgr (write_disk E root) : M unit)) by (apply about_write; intros; apply HI; [by left|done]).
  assert (keeps (about I) (_copy_disk_standalone E X recursion_limit (disk_path (artifacts s)) root 0 : M unit))
    by (apply about_copy; by left).
  unfold adapter_restore_snapshot, firecracker_restore_snapshot, qemu_restore_snapshot, qemu_copy. cbv zeta.
  keeps_steps.
Qed.
End adapters.

(** The disk the adapter writes is the managed disk or a file staged for it. *)
Definition staged (d st : string) : Prop := st = d ∨ ∃ u, st = d +:+ ".restore-" +:+ u.
Definition backup_name (E : menv) (d b : string) : Prop := ∃ n, b = d +:+ ".backup-" +:+ e_uuid E n.

Lemma app_ne_self d c t : d +:+ String c t ≠ d.
Proof. intros H. apply (f_equal String.length) in H. rewrite string_length_app in H. simpl in H. lia. Qed.
Lemma backup_ne E d b : backup_name E d b → b ≠ d.
Proof. intros [u ->]. apply app_ne_self. Qed.
Lemma staged_ne_backup E d st b f : staged d st → backup_name E d b → written st f → f ≠ b.
Proof.
  intros [->|[v ->]] [u ->] [->|[t ->]] Heq; rewrite ?string_app_assoc in Heq.
  - symmetry in Heq. by apply app_ne_self in Heq.
  - by apply (inj (String.append d)) in Heq.
  - by apply (inj (String.append d)) in Heq.
  - by apply (inj (String.append d)) in Heq.
Qed.
Lemma staged_ne_marker d st f : staged d st → written st f → f ≠ _retained_marker d.
Proof.
  unfold _retained_marker. intros [->|[v ->]] [->|[t ->]] Heq; rewrite ?string_app_assoc in Heq.
  - symmetry in Heq. by apply app_ne_self in Heq.
  - by apply (inj (String.append d)) in Heq.
  - by apply (inj (String.append d)) in Heq.
  - by apply (inj (String.append d)) in Heq.
Qed.
Lemma backup_ne_marker E d b : backup_name E d b → b ≠ _retained_marker d.
Proof. intros [u ->] Heq. by apply (inj (String.append d)) in Heq. Qed.

(** ** The body *)
Section body.
Context (E : menv) (X : senv) {St : Type} `{!StateManager St, !StateManagerLaws St, !SnapshotStore St, !SnapshotLaws St}.
Context (p : restore_plan) (D0 : gmap string nat) (Hst : staged (pl_disk p) (pl_staging p)).
Local Abbreviation d := (pl_disk p).
Local Abbreviation old := (D0 !! d).
Local Abbreviation R := (py (snapm St * rprog)).
Implicit Types xp : snapm St * rprog.

(** The disk is set aside: its content is in the backup, or there was none. *)
Definition aside (r : rprog) (D : gmap string nat) : Prop :=
  D !! _retained_marker d = D0 !! _retained_marker d
  ∧ match rp_backup r with
    | Some b => rp_placeholder r = false ∧ backup_name E d b ∧ is_Some old ∧ D !! b = old
    | None => rp_placeholder r = true ∧ old = None
    end.
(** The disk is where it was. *)
Definition in_place (r : rprog) (D : gmap string nat) : Prop :=
  rp_created r = false ∧ rp_placeholder r = false ∧ D !! d = old
  ∧ match rp_backup r with Some b => D !! b = None | None => True end.

Lemma aside_written r f D c : written (pl_staging p) f → aside r D → aside r (<[f := c]> D).
Proof using Hst.
  intros Hw [Hm Ha]. split.
  - rewrite lookup_insert_ne; [done|]. by eapply staged_ne_marker.
  - destruct (rp_backup r) as [b|]; [|done]. destruct Ha as (Hp & Hb & Ho & HD). split_and!; [done..|].
    rewrite lookup_insert_ne; [done|]. by eapply staged_ne_backup.
Qed.
Lemma aside_disk r D c : aside r D → aside r (<[d := c]> D).
Proof.
  intros [Hm Ha]. split.
  - rewrite lookup_insert_ne; [done|]. intros Heq. symmetry in Heq. by apply app_ne_self in Heq.
  - destruct (rp_backup r) as [b|]; [|done]. destruct Ha as (Hp & Hb & Ho & HD). split_and!; [done..|].
    rewrite lookup_insert_ne; [done|]. intros <-. by apply (backup_ne _ _ _ Hb).
Qed.
Lemma aside_created r D : aside (rp_set_created r) D ↔ aside r D.
Proof. done. Qed.

Definition body_ok xp : Prop := about (aside xp.2) xp.1.
Definition rolls_back xp : Prop :=
  sm_ok (g_state (sn_mgr xp.1)) ∧ (aside xp.2 (g_disks (sn_mgr xp.1)) ∨ in_place xp.2 (g_disks (sn_mgr xp.1))).

(** Steps that do not touch the locals. *)
Lemma body_snap {A} (m : py (snapm St) A) :
  (∀ r, keeps (about (aside r)) m) → keeps body_ok (on_snap m : R A).
Proof. intros Hm [x r] Hx. apply wp_on_snap. by eapply wp_mono; [apply (Hm r)|..]. Qed.
Lemma body_note f : (∀ r D, aside r D → aside (f r) D) → keeps body_ok (note f : R unit).
Proof. intros Hf. apply keeps_modify. intros [x r] [Hok Ha]. split; [done|]. by apply Hf. Qed.

(** Before the disk is set aside. *)
Definition untouched (D : gmap string nat) : Prop :=
  D !! d = old ∧ D !! _retained_marker d = D0 !! _retained_marker d
  ∧ ∀ n, D !! (d +:+ ".backup-" +:+ e_uuid E n) = None.
Lemma untouched_staging D : pl_staging p ≠ d → untouched D → untouched (base.delete (pl_staging p) D).
Proof using Hst.
  intros Hne (H1 & H2 & H3). split_and!.
  - by rewrite lookup_delete_ne.
  - rewrite lookup_delete_ne; [done|]. eapply staged_ne_marker; [done|by left].
  - intros n. rewrite lookup_delete_ne; [done|]. eapply staged_ne_backup; [done|by eexists|by left].
Qed.
Lemma untouched_place D : untouched D → in_place rp_start D.
Proof. intros (H1 & _ & _). done. Qed.

Lemma rolls_early x : about untouched x → rolls_back (x, rp_start) ∧ rp_created rp_start = false.
Proof. intros [Hok Hu]. split; [|done]. split; [done|]. right. by apply untouched_place. Qed.

(** The move to the backup. *)
Lemma move_spec x :
  about untouched x → is_Some (g_disks (sn_mgr x) !! d) →
  wp (let! xp := py_get in
      let sidecars := _managed_disk_backing_sidecars E (g_disks (sn_mgr xp.1)) d in
      let! backup := on_snap (_restore_backup_disk_path E d) in
      do! note (rp_set_backup backup sidecars) in
      on_snap (replace E d backup) : R unit)
    (λ _ xp, body_ok xp ∧ rp_created xp.2 = false) (λ _ xp, rolls_back xp ∧ rp_created xp.2 = false) (x, rp_start).
Proof.
  intros [Hok (H1 & H2 & H3)] [c Hc]. apply wp_bind, wp_get. cbv zeta. apply wp_bind, wp_on_snap.
  unfold _restore_backup_disk_path, stick. apply wp_bind, wp_on_mgr, wp_tick, wp_return, wp_bind, wp_modify, wp_on_snap.
  set (n := g_calls (sn_mgr x)). pose proof (H3 n) as Hb. unfold replace. apply wp_on_mgr, wp_bind, wp_tick, wp_bind.
  unfold raise_if. destruct (e_replace E _ d).
  - apply wp_raise. split; [|done]. split; [done|]. right. by repeat split.
  - apply wp_return, wp_bind, wp_get. simpl. rewrite Hc. apply wp_modify. split; [|done]. split; [done|]. split; simpl.
    + rewrite lookup_delete_ne, lookup_insert_ne; [done|..].
      * by eapply backup_ne_marker; eexists.
      * intros Heq. symmetry in Heq. by apply app_ne_self in Heq.
    + split_and!; [done|by eexists|by rewrite <- H1|]. rewrite lookup_delete_ne, lookup_insert_eq; [by rewrite <- H1|].
      intros Heq. symmetry in Heq. by apply app_ne_self in Heq.
Qed.

Lemma body_rolls xp : body_ok xp → rolls_back xp.
Proof. intros [Hok Ha]. by split; [|left]. Qed.
Lemma touch_spec xp :
  body_ok xp ∧ rp_created xp.2 = false →
  wp (on_snap (touch E d)) (λ _ xp, body_ok xp ∧ rp_created xp.2 = false) (λ _ xp, rolls_back xp ∧ rp_created xp.2 = false) xp.
Proof.
  destruct xp as [x r]. intros [Hx Hc]. apply wp_on_snap. eapply wp_mono with (Q := λ _, about (aside r)) (E := λ _, about (aside r)).
  - assert (keeps (about (aside r)) (touch E d : py (snapm St) unit)) as Hk; [|by apply Hk].
    assert (keeps (about (aside r)) (on_mgr (write_disk E d) : py (snapm St) unit)) by (apply about_write; intros; by apply aside_disk).
    unfold touch, disk_exists. keeps_steps.
  - by intros.
  - intros _ x' Hx'. split; [by apply body_rolls|done].
Qed.

Lemma set_aside_spec x :
  about untouched x →
  wp (set_disk_aside E X p) (λ _ xp, body_ok xp ∧ rp_created xp.2 = false) (λ _ xp, rolls_back xp ∧ rp_created xp.2 = false) (x, rp_start).
Proof using Hst.
  intros Hx. unfold set_disk_aside. apply wp_bind, wp_on_snap.
  eapply wp_mono with (Q := λ _, about untouched) (E := λ _, about untouched); [| |intros _; apply rolls_early].
  { by apply (keeps_bind _ _ _ (about_stick _)); [auto with celesto|]. }
  clear x Hx. intros _ x Hx. apply wp_bind.
  eapply wp_mono with (Q := λ _ xp, about untouched xp.1 ∧ xp.2 = rp_start) (E := λ _ xp, about untouched xp.1 ∧ xp.2 = rp_start).
  { destruct (String.eqb_spec (pl_staging p) d) as [_|Hne]; [by apply wp_return|]. apply wp_on_snap.
    eapply wp_mono; [eapply keeps_bind; [| |exact Hx]|by intros..]; [unfold disk_exists; keeps_steps|].
    intros there. apply keeps_when, about_unlink. intros D. by apply untouched_staging. }
  2:{ intros _ [x' r] [Hu Hr]. simpl in Hr. subst r. by apply rolls_early. }
  clear x Hx. intros _ [x r] [Hx Hr]. simpl in Hx, Hr. subst r.
  apply wp_bind, wp_on_snap. unfold disk_exists at 1. apply wp_bind, wp_get, wp_return, wp_bind.
  unfold exists_disk. destruct (g_disks (sn_mgr x) !! d) as [c|] eqn:Hd.
  - eapply wp_mono; [apply move_spec; [done|by eexists]| |by intros]. intros [] xp. apply touch_spec.
  - apply wp_modify, touch_spec. destruct Hx as [Hok (H1 & H2 & H3)]. split; [|done]. split; [done|].
    split; [done|]. split; [done|]. by rewrite <- H1.
Qed.

Lemma about_replace (I : gmap string nat → Prop) src dst :
  (∀ D c, I D → I (base.delete src (<[dst := c]> D))) → keeps (about I) (replace E src dst : py (snapm St) unit).
Proof.
  intros HI x [Hok HD]. unfold replace. apply wp_on_mgr, wp_bind, wp_tick, wp_bind. unfold raise_if.
  destruct (e_replace E _ src); [by apply wp_raise|]. apply wp_return, wp_bind, wp_get. simpl.
  destruct (g_disks (sn_mgr x) !! src); [|by apply wp_raise]. apply wp_modify. split; [done|]. by apply HI.
Qed.
Lemma aside_replace r D c : pl_staging p ≠ d → aside r D → aside r (base.delete (pl_staging p) (<[d := c]> D)).
Proof using Hst.
  intros Hne [Hm Ha]%(aside_disk _ _ c). split.
  - rewrite lookup_delete_ne; [done|]. eapply staged_ne_marker; [done|by left].
  - destruct (rp_backup r) as [b|]; [|done]. destruct Ha as (Hp & Hb & Ho & HD). split_and!; [done..|].
    rewrite lookup_delete_ne; [done|]. eapply staged_ne_backup; [done..|by left].
Qed.

Lemma about_root (I : gmap string nat → Prop) sid : keeps (about I) (py_lift (_snapshot_root_for_id E X sid) : py (snapm St) unit).
Proof. auto with celesto. Qed.
Lemma about_mkdir (I : gmap string nat → Prop) sid b : keeps (about I) (mkdir X sid b : py (snapm St) unit).
Proof. unfold mkdir. keeps_steps. Qed.
Hint Resolve about_mkdir : celesto.
Lemma about_manifest (I : gmap string nat → Prop) s : keeps (about I) (_write_snapshot_manifest E X s : py (snapm St) unit).
Proof. unfold _write_snapshot_manifest. keeps_steps. Qed.
Lemma about_claim (I : gmap string nat → Prop) vm : keeps (about I) (claim_network E vm p : py (snapm St) unit).
Proof.
  unfold claim_network, claim_leases, _ensure_tap_network_for_restore. cbv zeta. keeps_steps.
  all: apply about_mgr; intros ?; keeps_steps.
Qed.
Hint Resolve about_manifest about_claim : celesto.
Lemma about_record (I : gmap string nat → Prop) sid vm l : keeps (about I) (record_restored E X sid vm l : py (snapm St) _).
Proof using Type*. unfold record_restored. keeps_steps. Qed.
Lemma suppressed (m : py (snapm St) unit) (P : exn → snapm St → Prop) x : wp (py_suppress m) (λ _ _, True) P x.
Proof. apply wp_suppress. by apply wp_intro. Qed.
Lemma unlink_if_exists_returns f P (x : snapm St) : wp (unlink_if_exists E f) (λ _ _, True) P x.
Proof. unfold unlink_if_exists, disk_exists. apply wp_bind, wp_bind, wp_get, wp_return, wp_when; [intros _; apply suppressed|done]. Qed.
Lemma discard_returns r P (x : snapm St) : wp (discard_replaced E r) (λ _ _, True) P x.
Proof.
  unfold discard_replaced. apply wp_bind. eapply wp_mono with (Q := λ _ _, True); [| |done].
  - destruct (rp_backup r); [apply unlink_if_exists_returns|by apply wp_return].
  - intros _ x' _. by apply wp_for; [intros f x2 _ _; apply suppressed|].
Qed.

Section steps.
Context (sid vm : string) (existing : option VMInfo).
Definition claimed xp : Prop := body_ok xp ∧ (rp_created xp.2 = true → existing = None).

Lemma claimed_snap {A} (m : py (snapm St) A) : (∀ r, keeps (about (aside r)) m) → keeps claimed (on_snap m : R A).
Proof.
  intros Hm [x r] [Hx Hc]. apply wp_on_snap. eapply wp_mono; [by apply (Hm r)|..]; by intros.
Qed.
Lemma claimed_launch resume : keeps claimed (launch_restored E X sid p resume : R _).
Proof using Hst.
  unfold launch_restored. cbv zeta. apply keeps_bind; [|intros l; apply keeps_bind; [|intros _; apply keeps_bind]].
  - apply claimed_snap. intros r. apply keeps_bind; [keeps_steps|]. intros _. apply about_restore. intros f D c. apply aside_written.
  - apply keeps_modify. by intros [x r].
  - destruct (String.eqb_spec (pl_staging p) d) as [|Hne]; [auto with celesto|]. apply claimed_snap.
    intros r. apply about_replace. intros D c. by apply aside_replace.
  - auto with celesto.
Qed.
Lemma claimed_row : keeps claimed (if is_some existing then py_return tt
   else do! on_snap (on_store (sm_create_vm (pl_config p))) in note rp_set_created : R unit).
Proof.
  destruct existing as [i|] eqn:He; cbn [is_some]; [auto with celesto|]. apply keeps_bind.
  - apply claimed_snap. intros r. auto with celesto.
  - intros _. apply keeps_modify. by intros [x r] [Hx _].
Qed.
Hint Resolve claimed_launch claimed_row : celesto.

Lemma body_spec resume x :
  about untouched x →
  wp (restore_body E X sid vm existing p resume) (λ _ _, True)
    (λ _ xp, rolls_back xp ∧ (rp_created xp.2 = true → existing = None)) (x, rp_start).
Proof using Type*.
  intros Hx. unfold restore_body. apply wp_bind. eapply wp_mono; [by apply set_aside_spec| |].
  2:{ intros e xp [Hr Hc]. split; [done|]. congruence. }
  intros [] xp [Hb Hc]. assert (claimed xp) as Hxp by (split; [done|congruence]). clear Hb Hc Hx x.
  assert (∀ (e : exn) xp, claimed xp → rolls_back xp ∧ (rp_created xp.2 = true → existing = None)) as Hrolls.
  { intros _ xp' [Hb Hc]. split; [by apply body_rolls|done]. }
  apply wp_bind. eapply wp_mono; [by apply claimed_row| |done]. clear xp Hxp. intros [] xp Hxp.
  apply wp_bind. eapply wp_mono; [apply claimed_snap; [|exact Hxp]| |done]; [intros; apply about_claim|].
  clear xp Hxp. intros [] xp Hxp.
  apply wp_bind. eapply wp_mono; [by apply claimed_launch| |done]. clear xp Hxp. intros l xp Hxp.
  apply wp_bind. eapply wp_mono; [apply claimed_snap; [|exact Hxp]| |done]; [intros; apply about_record|].
  clear xp Hxp. intros i [x r] Hxp. apply wp_bind, wp_get, wp_bind, wp_on_snap.
  eapply wp_mono; [apply discard_returns with (P := λ _ _, False)| |done]. intros _ x' _. by apply wp_return.
Qed.
End steps.

(** ** The rollback *)
(** What it needs to put the disk back. *)
Definition ready (r : rprog) (D : gmap string nat) : Prop :=
  match rp_backup r with
  | Some b => rp_placeholder r = false
              ∧ (backup_name E d b ∧ is_Some old ∧ D !! b = old ∨ D !! b = None ∧ D !! d = old)
  | None => rp_placeholder r = true ∧ old = None ∨ rp_placeholder r = false ∧ D !! d = old
  end.
Lemma rolls_ready xp : rolls_back xp → about (ready xp.2) xp.1.
Proof.
  intros [Hok Hr]. split; [done|]. destruct xp as [x r]. simpl in *. unfold ready.
  destruct Hr as [[_ Ha]|(_ & Hp & Hd & Hb)]; destruct (rp_backup r); naive_solver.
Qed.
Lemma ready_delete r f D : written (pl_staging p) f → f ≠ d → ready r D → ready r (base.delete f D).
Proof using Hst.
  unfold ready. intros Hw Hne. destruct (rp_backup r) as [b|].
  - intros [Hp [(Hb & Ho & HD)|[Hb HD]]]; (split; [done|]); [left|right].
    + split_and!; [done..|]. rewrite lookup_delete_ne; [done|]. by eapply staged_ne_backup.
    + split; [|by rewrite lookup_delete_ne]. apply lookup_delete_None. by right.
  - rewrite lookup_delete_ne by done. done.
Qed.
Lemma staging_sidecar D f :
  f ∈ _managed_disk_sidecars_for_root D (pl_staging p) → written (pl_staging p) f ∧ f ≠ d.
Proof using Hst.
  unfold _managed_disk_sidecars_for_root. rewrite list_elem_of_filter. intros [[t ->]%startswith_inv _].
  rewrite string_app_assoc. split; [right; by eexists|]. destruct Hst as [->|[u ->]]; rewrite ?string_app_assoc; apply app_ne_self.
Qed.

Local Abbreviation M := (py (snapm St)).
(** The last step: the placeholder goes, the backup comes back. *)
Local Abbreviation put_back r :=
  (do! py_when (rp_placeholder r) (unlink_if_exists E d) in
   match rp_backup r with
   | Some b =>
       let! there := disk_exists b in
       py_when there (py_suppress (
         let! there := disk_exists d in
         do! py_when there (on_mgr (unlink E d)) in
         replace E b d))
   | None => py_return tt
   end : M unit).

(** The old content is under the disk's name or under a backup name. *)
Definition not_lost (D : gmap string nat) : Prop :=
  old = None ∨ D !! d = old ∨ ∃ b, backup_name E d b ∧ D !! b = old.
Definition calls_work : Prop := (∀ n f, e_unlink E n f = None) ∧ (∀ n f, e_replace E n f = None).
Definition settled x : Prop :=
  sm_ok (g_state (sn_mgr x)) ∧ not_lost (g_disks (sn_mgr x))
  ∧ (calls_work → g_disks (sn_mgr x) !! d = old).

Lemma replace_back b x c :
  backup_name E d b → about (λ D, D !! b = Some c) x →
  wp (replace E b d) (λ _ x', sm_ok (g_state (sn_mgr x')) ∧ g_disks (sn_mgr x') !! d = Some c)
    (λ _ x', about (λ D, D !! b = Some c) x' ∧ ¬ calls_work) x.
Proof.
  intros Hb [Hok HD]. unfold replace. apply wp_on_mgr, wp_bind, wp_tick, wp_bind. unfold raise_if.
  destruct (e_replace E (g_calls (sn_mgr x)) b) eqn:He; [apply wp_raise; split; [done|]; intros [_ H]; by rewrite H in He|].
  apply wp_return, wp_bind, wp_get. simpl. rewrite HD. apply wp_modify. simpl. split; [done|].
  rewrite lookup_delete_ne, lookup_insert_eq; [done|]. by eapply backup_ne.
Qed.
Lemma unlink_beside b x c :
  backup_name E d b → about (λ D, D !! b = Some c) x →
  wp (on_mgr (unlink E d)) (λ _, about (λ D, D !! b = Some c))
    (λ _ x', about (λ D, D !! b = Some c) x' ∧ ¬ calls_work) x.
Proof.
  intros Hb [Hok HD]. apply wp_on_mgr. unfold unlink. apply wp_bind, wp_tick.
  destruct (e_unlink E (g_calls (sn_mgr x)) d) eqn:He; [apply wp_raise; split; [done|]; intros [H _]; by rewrite H in He|].
  apply wp_modify. split; [done|]. simpl. rewrite lookup_delete_ne; [done|].
  intros <-. by apply (backup_ne _ _ _ Hb).
Qed.
Lemma restore_backup_spec b x :
  backup_name E d b → is_Some old → about (λ D, D !! b = old) x →
  wp (py_suppress (let! there := disk_exists d in
                   do! py_when there (on_mgr (unlink E d)) in replace E b d) : M unit)
    (λ _, settled) (λ _ _, False) x.
Proof.
  intros Hb [c Ho] Hx. rewrite Ho in Hx. apply wp_suppress, wp_bind. unfold disk_exists. apply wp_bind, wp_get, wp_return, wp_bind.
  assert (∀ (e : exn) x', about (λ D, D !! b = Some c) x' ∧ ¬ calls_work → settled x') as Hkept.
  { intros _ x' [[Hok HD] Hno]. split; [done|]. split; [|by intros]. right. right. exists b. by rewrite Ho. }
  eapply wp_mono; [apply wp_when; [intros _; by apply unlink_beside|by intros]| |exact Hkept]. clear x Hx.
  intros [] x Hx. eapply wp_mono; [by apply replace_back| |exact Hkept].
  intros [] x' [Hok Hd]. split; [done|]. rewrite <- Ho in Hd. split; [right; by left|done].
Qed.
Lemma drop_placeholder x :
  old = None → sm_ok (g_state (sn_mgr x)) → wp (unlink_if_exists E d) (λ _, settled) (λ _ _, False) x.
Proof.
  intros Ho Hok. unfold unlink_if_exists, disk_exists. apply wp_bind, wp_bind, wp_get, wp_return.
  apply wp_when; unfold exists_disk.
  - intros _. apply wp_suppress, wp_on_mgr. unfold unlink. apply wp_bind, wp_tick.
    destruct (e_unlink E (g_calls (sn_mgr x)) d) eqn:He; [apply wp_raise|apply wp_modify]; (split; [done|]); (split; [by left|]).
    + intros [H _]. by rewrite H in He.
    + simpl. by rewrite lookup_delete_eq, Ho.
  - intros Hd. split; [done|]. split; [by left|]. intros _. rewrite Ho. by destruct (g_disks (sn_mgr x) !! d).
Qed.
Lemma put_back_spec r x : about (ready r) x → wp (put_back r) (λ _, settled) (λ _ _, False) x.
Proof.
  intros [Hok Hr]. unfold ready in Hr. apply wp_bind. destruct (rp_backup r) as [b|].
  - destruct Hr as [-> Hr]. apply wp_return, wp_bind. unfold disk_exists at 1. apply wp_bind, wp_get, wp_return. unfold exists_disk.
    destruct Hr as [(Hb & Ho & HD)|[Hb HD]].
    + destruct Ho as [c Ho]. rewrite HD, Ho. apply restore_backup_spec; [done|by exists c|done].
    + rewrite Hb. apply wp_return. split; [done|]. split; [right; by left|done].
  - eapply wp_mono with (Q := λ _, settled) (E := λ _ _, False); [|by intros [] x'|done].
    destruct Hr as [[-> Ho]|[-> Hd]]; [by apply drop_placeholder|].
    apply wp_return. split; [done|]. split; [right; by left|done].
Qed.

Lemma undo_disk_spec r x :
  about (ready r) x → wp (undo_disk E p r) (λ _, settled) (λ _ _, False) x.
Proof using Hst.
  intros Hx. unfold undo_disk.
  assert (∀ f x, written (pl_staging p) f → f ≠ d → about (ready r) x →
            wp (py_suppress (on_mgr (unlink E f))) (λ _, about (ready r)) (λ _ _, False) x) as Hun.
  { intros f y Hw Hne Hy. apply wp_suppress. eapply wp_mono; [apply about_unlink; [|exact Hy]|by intros []..|by intros].
    intros D. by apply ready_delete. }
  apply wp_bind. eapply wp_mono with (Q := λ _, about (ready r)) (E := λ _ _, False); [| |done].
  - destruct (String.eqb_spec (pl_staging p) d) as [|Hne]; [by apply wp_return|]. unfold unlink_if_exists, disk_exists.
    apply wp_bind, wp_bind, wp_get, wp_return, wp_when; [intros _|done]. apply Hun; [by left|done|done].
  - clear x Hx. intros [] x Hx. apply wp_bind, wp_get, wp_bind.
    eapply wp_mono with (Q := λ _, about (ready r)) (E := λ _ _, False); [|intros []; apply put_back_spec|done].
    apply wp_for; [|done]. intros f x' [Hw Hne]%staging_sidecar Hx'. by apply Hun.
Qed.
End body.

(** ** A retained disk and the release of the new row *)
Definition inst (vm nm : string) : Prop := nm = vm +:+ ".qcow2" ∨ nm = vm +:+ ".ext4".
Lemma inst_name vm b f : inst vm (_instance_disk_name vm b f).
Proof. unfold inst, _instance_disk_name. destruct (_ && _); auto. Qed.

(** The files of one disk are not those of another disk of the computer. *)
Lemma not_beside E D vm nm d t f :
  inst vm nm → inst vm d → nm ≠ d → contains_char "/"%char f = false → f = d +:+ String "."%char t →
  f ≠ nm ∧ f ∉ _managed_disk_companions E D nm.
Proof.
  intros Hn Hd Hne Hflat Hf.
  assert (∀ t', f ≠ nm +:+ t') as Hno.
  { intros t' Heq. rewrite Hf in Heq. destruct Hn as [-> | ->], Hd as [-> | ->]; try done;
      rewrite !string_app_assoc in Heq; by apply (inj (String.append vm)) in Heq. }
  split; [intros ->; apply (Hno ""); by rewrite str_app_nil_r|].
  intros [->|Hs]%companion_named.
  - apply (f_equal String.length) in Hf. rewrite string_length_app in Hf.
    destruct Hd as [-> | ->]; rewrite string_length_app in Hf; simpl in Hf; lia.
  - rewrite path_name_flat in Hs by done. apply startswith_inv in Hs as [t' Ht]. rewrite string_app_assoc in Ht. by eapply Hno.
Qed.

Lemma identifier_flat vm : identifier_ok vm = true → contains_char "/"%char vm = false.
Proof.
  intros H. assert (str_all (λ x, is_alnum_lower x || Ascii.eqb x "_"%char || Ascii.eqb x "-"%char) vm = true) as Ha.
  { unfold identifier_ok in H. destruct vm; [done|]. destruct (last_char _); [|done]. by bool_hyps. }
  clear H. unfold contains_char, str_any. apply negb_false_iff. induction vm as [|c vm IH]; [done|]. cbn [str_all] in *.
  bool_hyps. rewrite IH, andb_true_r by done. apply negb_true_iff. destruct (Ascii.eqb_spec "/"%char c) as [<-|]; done.
Qed.

Section cleanup.
Context (E : menv) {St : Type} `{!StateManager St, !StateManagerLaws St}.
Context (vm d b : string) (c : nat) (Hd : inst vm d) (Hb : backup_name E d b).
Context (flat_uuid : ∀ n, contains_char "/"%char (e_uuid E n) = false).
Implicit Types g : mgr St.

Definition kept (D : gmap string nat) : Prop := D !! b = Some c ∧ is_Some (D !! _retained_marker d).
Definition kept_in g : Prop := sm_ok (g_state g) ∧ kept (g_disks g).

Lemma kept_calm {A} (m : py (mgr St) A) : (∀ D, keeps (calm D) m) → keeps kept_in m.
Proof.
  intros Hm g [Hok Hk]. eapply wp_mono; [by apply (Hm (g_disks g))|..]; intros ? g' [Hs HD]; split; by rewrite ?HD.
Qed.
Lemma kept_unlink f : f ≠ b → f ≠ _retained_marker d → keeps kept_in (unlink E f : py (mgr St) unit).
Proof.
  intros H1 H2 g [Hok [HB HM]]. unfold unlink. apply wp_bind, wp_tick. destruct (e_unlink E _ f); [by apply wp_raise|].
  apply wp_modify. split; [done|]. unfold kept. simpl. by rewrite !lookup_delete_ne.
Qed.
Lemma kept_remove nm : identifier_ok vm = true → inst vm nm → nm ≠ d → keeps kept_in (_remove_managed_disk E nm : py (mgr St) unit).
Proof using Hd Hb flat_uuid.
  intros Hid Hn Hne. destruct Hb as [k Hk]. apply identifier_flat in Hid.
  assert (∀ t, contains_char "/"%char t = false → contains_char "/"%char (d +:+ t) = false) as Hflat.
  { intros t Ht. unfold contains_char, str_any in *. rewrite str_all_app. destruct Hd as [-> | ->]; rewrite str_all_app;
    apply negb_false_iff in Hid as ->; by apply negb_false_iff in Ht as ->. }
  assert (∀ D f, f = nm ∨ f ∈ _managed_disk_companions E D nm → f ≠ b ∧ f ≠ _retained_marker d) as Hsafe.
  { intros D f Hf.
    destruct (not_beside E D vm nm d ("backup-" +:+ e_uuid E k) b Hn Hd Hne) as [? ?]; [|done|].
    - rewrite Hk. apply Hflat. exact (flat_uuid k).
    - destruct (not_beside E D vm nm d "retained" (_retained_marker d) Hn Hd Hne) as [? ?]; [by apply Hflat|done|].
      split; intros ->; naive_solver. }
  intros g Hg. unfold _remove_managed_disk. apply wp_bind, wp_get, wp_bind. set (D := g_disks g).
  eapply wp_mono; [apply keeps_suppress; [|exact Hg]| |by intros].
  { destruct (Hsafe D nm (or_introl eq_refl)). by apply kept_unlink. }
  intros [] g' Hg'. apply wp_for; [|done]. intros f g2 Hf Hg2. destruct (Hsafe D f (or_intror Hf)).
  eapply wp_mono; [apply keeps_suppress; [by apply kept_unlink|done]|by intros..].
Qed.

(** Marking the disk again does no harm. *)
Lemma kept_mark nm : inst vm nm → keeps kept_in (_mark_disk_retained E nm : py (mgr St) unit).
Proof using Hd Hb.
  intros Hn. apply keeps_suppress. intros g [Hok [HB HM]]. unfold write_disk. apply wp_bind, wp_tick.
  assert (∀ k, kept (<[_retained_marker nm := k]> (g_disks g))) as Hk.
  { intros k. split.
    - rewrite lookup_insert_ne; [done|]. intros Heq. destruct Hb as [n ->]. unfold _retained_marker in Heq.
      destruct Hn as [-> | ->], Hd as [-> | ->]; rewrite !string_app_assoc in Heq; by apply (inj (String.append vm)) in Heq.
    - destruct (decide (_retained_marker nm = _retained_marker d)) as [->|];
        [rewrite lookup_insert_eq; eauto|by rewrite lookup_insert_ne]. }
  destruct (e_disk E _ _) as [k|e [k|]]; [apply wp_modify|apply wp_bind, wp_modify, wp_raise..]; split; simpl; auto. by split.
Qed.
Lemma kept_disk_step nm (retain : bool) :
  identifier_ok vm = true → inst vm nm →
  keeps kept_in (let! g := py_get in
    if negb (exists_disk nm g) then py_return tt
    else if retain then _mark_disk_retained E nm
    else if false || exists_disk (_retained_marker nm) g then py_return tt
    else _remove_managed_disk E nm : py (mgr St) unit).
Proof using Hd Hb flat_uuid.
  intros Hid Hn g Hg. apply wp_bind, wp_get. destruct (exists_disk nm g); cbn [negb]; [|by apply wp_return].
  destruct retain; [by apply kept_mark|]. cbn [orb]. destruct (exists_disk (_retained_marker nm) g) eqn:Hm; [by apply wp_return|].
  apply kept_remove; [done..| |done]. intros ->. destruct Hg as [_ [_ [k Hk]]]. unfold exists_disk in Hm. by rewrite Hk in Hm.
Qed.
Lemma disks_inst i g :
  (∀ j, i = Some j → vi_vm_id j = vm) →
  wp (_managed_disks_for_cleanup E vm i) (λ l g', g' = g ∧ Forall (inst vm) l) (λ _ g', g' = g) (g : mgr St).
Proof.
  intros Hi. unfold _managed_disks_for_cleanup. destruct i as [j|].
  - apply wp_bind, wp_lift; [|done]. intros o Ho. apply wp_return. split; [done|].
    unfold _managed_disk_for_vm in Ho. destruct o as [nm|]; [|constructor]. constructor; [|constructor].
    destruct (rootfs_path (config j)); [|done]. case_bool_decide; [done|]. destruct (disk_mode (config j)); [|done].
    destruct (_backend_for_config E (config j)); [|done]. simpl in Ho.
    destruct (effective_rootfs_format (config j)); [|done]. simpl in Ho. case_bool_decide; [|done].
    simplify_eq. rewrite (Hi j eq_refl). apply inst_name.
  - apply wp_bind, wp_get, wp_return. split; [done|]. apply Forall_forall. intros nm.
    rewrite list_elem_of_filter. intros [_ Hn]. rewrite !elem_of_cons in Hn.
    destruct Hn as [-> | [-> |Hn]]; [by left|by right|by apply elem_of_nil in Hn].
Qed.
Lemma kept_resources : keeps kept_in (_cleanup_resources E vm false false : py (mgr St) unit).
Proof using Hd Hb flat_uuid.
  intros g Hg. unfold _cleanup_resources. apply wp_bind, wp_lift; [|done]. intros [] Hid.
  assert (identifier_ok vm = true) as Hvm. { unfold _validate_cleanup_id in Hid. by destruct (identifier_ok vm). }
  apply wp_bind. eapply wp_mono with (Q := λ i g', kept_in g' ∧ ∀ j, i = Some j → vi_vm_id j = vm) (E := λ _ _, False); [| |done].
  { unfold _vm_info_for_cleanup. apply wp_try, wp_bind, wp_on_state. destruct Hg as [Hok Hk].
    eapply wp_mono; [by apply law_get|..]; cbv beta.
    - intros i s' [[Hok' Hv] Hi]. apply wp_return. split; [by split|]. intros j [= <-]. exact (ok_ids _ _ _ Hok Hi).
    - intros e s' [[Hok' Hv] _]. apply wp_return. by split; [split|]. }
  clear g Hg. intros i g [Hg Hi]. apply wp_bind.
  eapply wp_mono; [apply (keeps_try kept_in); [|intros; cbn; apply keeps_return|done]| |by intros].
  { apply kept_calm. intros. apply calm_host_resources. }
  clear g Hg. intros [] g Hg. unfold _cleanup_vm_artifacts. apply wp_bind, wp_lift; [intros [] _|by intros].
  apply wp_bind. eapply wp_mono; [by apply disks_inst|..]; [|by intros ?? ->]. intros l g' [-> Hl].
  apply wp_bind. eapply wp_mono with (Q := λ _, kept_in) (E := λ _, kept_in); [| |done].
  { apply wp_for; [|done]. intros nm g' Hn Hg'. by apply kept_disk_step; [|by eapply Forall_forall in Hl|]. }
  clear g Hg. intros [] g Hg. destruct (e_firmware_link E vm); [by apply wp_raise|].
  apply (keeps_bind kept_in); [auto with celesto| |done]. intros g1. apply keeps_bind.
  - apply keeps_when, kept_calm. intros D. unfold remove_firmware. keeps_steps.
  - intros _. apply keeps_bind; [auto with celesto|]. intros g2. apply keeps_when, kept_calm. intros D. unfold remove_log. keeps_steps.
Qed.
End cleanup.

(** ** A failed restore *)
Section failed.
Context (E : menv) (X : senv) {St : Type} `{!StateManager St, !StateManagerLaws St, !SnapshotStore St, !SnapshotLaws St}.
Context (flat_uuid : ∀ n, contains_char "/"%char (e_uuid E n) = false).
Implicit Types x : snapm St.
Local Abbreviation disks x := (g_disks (sn_mgr x)).

Section rollback.
Context (vm : string) (p : restore_plan) (D0 : gmap string nat) (existing : option VMInfo).
Context (Hst : staged (pl_disk p) (pl_staging p)) (Hinst : inst vm (pl_disk p)).
Context (safe : existing = None → D0 !! pl_disk p = None ∨ is_Some (D0 !! _retained_marker (pl_disk p))).

Lemma about_undo_launch (I : gmap string nat → Prop) r : keeps (about I) (undo_launch E p r : py (snapm St) unit).
Proof. unfold undo_launch. keeps_steps. Qed.

Lemma undo_records_spec r x :
  rolls_back E p D0 (x, r) → (rp_created r = true → existing = None) →
  wp (undo_records E vm existing r) (λ _, about (ready E p D0 r)) (λ _ _, False) x.
Proof using flat_uuid Hinst safe.
  intros Hr Hc. pose proof (rolls_ready _ _ _ _ Hr) as Hready. unfold undo_records. destruct (rp_created r) eqn:Hcr.
  2:{ destruct (is_some existing); [|by apply wp_return].
      apply wp_suppress. eapply wp_mono with (Q := λ _, about (ready E p D0 r)) (E := λ _, about (ready E p D0 r)); [|by intros []..|done].
      apply (keeps_bind (about (ready E p D0 r))); [auto with celesto|intros; apply keeps_return|done]. }
  destruct Hr as [Hok [[Hm Ha]|[Hcf _]]]; [|simpl in Hcf; congruence]. simpl in Ha, Hm.
  assert (∀ x, about (ready E p D0 r) x → wp (py_suppress (on_store (sm_delete_vm vm))) (λ _, about (ready E p D0 r)) (λ _ _, False) x) as Hdel.
  { intros y Hy. apply wp_suppress. eapply wp_mono; [apply (about_mgr (ready E p D0 r)); [|exact Hy]|by intros []..|by intros];
    intros; apply calm_delete. }
  apply wp_bind. eapply wp_mono with (Q := λ _, about (ready E p D0 r)) (E := λ _ _, False); [|intros []; apply Hdel|done].
  apply wp_suppress, wp_on_mgr. unfold ready. destruct (rp_backup r) as [b|] eqn:Hb.
  - destruct Ha as (Hp & Hbn & [c Ho] & HD). destruct (safe (Hc eq_refl)) as [?|Hmark]; [congruence|].
    assert (kept_in (pl_disk p) b c (sn_mgr x)) as Hk by (split; [done|split; [congruence|by rewrite Hm]]).
    eapply wp_mono; [by apply (kept_resources E vm (pl_disk p) b c)|..]; intros ? g [Hok' [HB _]]; (split; [done|]); simpl;
      (split; [done|]); left; rewrite Ho; eauto.
  - eapply wp_mono; [apply (only_cleanup_resources E vm (λ _, True) (sn_mgr x)); by apply only_refl|..];
      intros ? g Hg; (split; [exact (on_ok _ _ _ _ Hg)|]); by left.
Qed.

Lemma rollback_spec {A} e x r :
  rolls_back E p D0 (x, r) → (rp_created r = true → existing = None) →
  wp (restore_rollback E vm existing p e) (λ (_ : A) _, False)
    (λ _ xp, settled E p D0 xp.1) (x, r).
Proof using Type*.
  intros Hr Hc. unfold restore_rollback. apply wp_bind, wp_get, wp_on_snap. simpl.
  apply wp_bind. eapply wp_mono with (Q := λ _ x, rolls_back E p D0 (x, r)) (E := λ _ _, False); [| |done].
  - unfold undo_launch. destruct (rp_launch r); [|by apply wp_return]. apply wp_suppress.
    eapply wp_mono with (Q := λ _ x, rolls_back E p D0 (x, r)) (E := λ _ x, rolls_back E p D0 (x, r)); [|by intros..].
    apply (about_mgr (λ D, aside E p D0 r D ∨ in_place p D0 r D)); [|done]. intros. apply calm_stop.
  - clear x Hr. intros [] x Hr. apply wp_bind. eapply wp_mono; [by apply undo_records_spec| |done].
    clear x Hr. intros [] x Hx. apply wp_bind. eapply wp_mono; [by apply undo_disk_spec| |done].
    clear x Hx. intros [] x Hx. by apply wp_raise.
Qed.
End rollback.

(** Before the body the disks and the rows are as they were. *)
Definition as_before (D0 : gmap string nat) (v : Inventory) x : Prop :=
  about (λ D, D = D0) x ∧ sm_view (g_state (sn_mgr x)) = v.
Lemma before_store {A} D0 v (m : py St A) :
  (∀ s, sm_ok s → wp m (λ _, same_view s) (λ _, same_view s) s) → keeps (as_before D0 v) (on_store m).
Proof.
  intros Hm x [[Hok HD] Hv]. apply wp_on_mgr, wp_on_state. eapply wp_mono; [by apply Hm|..]; intros ? s [? Hs];
    by split; [split|simpl; rewrite Hs].
Qed.
Lemma before_tick D0 v : keeps (as_before D0 v) (stick : py (snapm St) nat).
Proof. by intros x Hx. Qed.
Lemma before_get D0 v sid : keeps (as_before D0 v) (get_snapshot E X sid).
Proof using SnapshotLaws0.
  unfold get_snapshot. apply keeps_try.
  { apply before_store. intros s Hs. eapply wp_mono; [by apply law_ss_get|..]; unfold same_all, same_view; naive_solver. }
  intros e. destruct (is_not_found e); [|auto with celesto]. apply keeps_bind.
  { unfold _read_snapshot_manifest. keeps_steps. }
  intros s. apply keeps_bind; [|auto with celesto]. apply keeps_try; [|intros []; auto with celesto].
  apply keeps_bind; [|auto with celesto]. apply before_store. intros st Hst.
  eapply wp_mono; [by apply law_ss_create|..]; unfold same_all, same_view; naive_solver.
Qed.
Lemma before_get_vm D0 v vm : keeps (as_before D0 v) (on_store (sm_get_vm vm)).
Proof. apply before_store. intros s Hs. eapply wp_mono; [by apply law_get|..]; naive_solver. Qed.
Lemma before_active D0 v s m : keeps (as_before D0 v) (refuse_if_active s m).
Proof.
  unfold refuse_if_active. destruct (_ && _); [|auto with celesto]. apply keeps_try; [|intros []; auto with celesto].
  apply keeps_bind; [apply before_get_vm|auto with celesto].
Qed.
Lemma before_artifact D0 v s l o : keeps (as_before D0 v) (require_artifact X s l o : py (snapm St) unit).
Proof. unfold require_artifact. cbv zeta. pose proof before_tick. keeps_steps. Qed.
Hint Resolve before_get_vm before_active before_artifact before_tick : celesto.

Lemma checks_spec D0 v sid s force x :
  as_before D0 v x →
  wp (restore_checks E X sid s force)
    (λ o x', about (λ D, D = D0) x' ∧ (o = None → iv_vms v !! si_vm_id s = None)) (λ _, about (λ D, D = D0)) x.
Proof.
  intros Hx. unfold restore_checks.
  assert (∀ (e : exn) x, as_before D0 v x → about (λ D, D = D0) x) as Hout by (by intros _ y [Hy _]).
  apply wp_bind, wp_lift; [intros [] _|by intros e _; apply (Hout e)].
  apply wp_bind, wp_lift; [intros [] _|by intros e _; apply (Hout e)].
  apply wp_bind. eapply wp_mono with (Q := λ o x', as_before D0 v x' ∧ (o = None → iv_vms v !! si_vm_id s = None)) (E := λ _, as_before D0 v);
    [| |exact Hout].
  { unfold find_vm. apply wp_try, wp_bind, wp_on_mgr, wp_on_state. destruct Hx as [[Hok HD] Hv].
    eapply wp_mono; [by apply law_get|..]; cbv beta.
    - intros i st [[Hok' Hv'] Hi]. apply wp_return. split; [|done]. by split; [split|simpl; rewrite Hv'].
    - intros e st [[Hok' Hv'] Hn].
      assert (as_before D0 v (sn_set_mgr (g_set_state st (sn_mgr x)) x)) by (by split; [split|simpl; rewrite Hv']).
      destruct e; try (by apply wp_raise). apply wp_return. split; [done|]. intros _. rewrite <- Hv. by eapply Hn. }
  clear x Hx. intros existing x [Hx Hn].
  assert (∀ (m : py (snapm St) unit) (k : unit → py (snapm St) (option VMInfo)) Q y, keeps (as_before D0 v) m → as_before D0 v y →
            (∀ y, as_before D0 v y → wp (k tt) Q (λ _, about (λ D, D = D0)) y) → wp (py_bind m k) Q (λ _, about (λ D, D = D0)) y) as Hstep.
  { intros m k Q y Hm Hy Hk. apply wp_bind. eapply wp_mono; [by apply Hm| |exact Hout]. intros []. apply Hk. }
  apply Hstep; [auto with celesto|done|]. clear x Hx. intros x Hx.
  apply Hstep; [auto with celesto|done|]. clear x Hx. intros x Hx.
  apply Hstep; [destruct (kernel_path _); keeps_steps|done|]. clear x Hx. intros x Hx.
  do 3 (apply Hstep; [auto with celesto|done|]; clear x Hx; intros x Hx).
  destruct existing as [i|]; [|by apply wp_return; destruct Hx; split; auto].
  case_bool_decide; [|by apply wp_return; destruct Hx]. destruct Hx as [Hx _].
  apply wp_bind. eapply wp_mono; [apply (about_mgr (λ D, D = D0)); [|exact Hx]| |done]; [intros; apply calm_manager_stop|].
  clear x Hx. intros j x Hx. apply wp_bind. eapply wp_mono; [apply (about_mgr (λ D, D = D0)); [|exact Hx]| |done]; [intros; apply calm_get|].
  intros j' y Hy. by apply wp_return.
Qed.

(** The plan of a snapshot: its identity, its network and the managed disk. *)
Definition plan_of (s : SnapshotInfo) (p : restore_plan) : Prop :=
  si_vm_id (pl_snapshot p) = si_vm_id s ∧ si_network_config (pl_snapshot p) = si_network_config s
  ∧ si_backend (pl_snapshot p) = si_backend s
  ∧ (∀ b, _uses_host_tap_networking (pl_config p) b = _uses_host_tap_networking (si_vm_config s) b)
  ∧ staged (pl_disk p) (pl_staging p)
  ∧ ∃ f, effective_rootfs_format (si_vm_config s) = Ret f ∧ pl_disk p = _instance_disk_name (si_vm_id s) (si_backend s) f.
Lemma plan_spec D0 s x :
  about (λ D, D = D0) x →
  wp (plan_restore E s) (λ p x', about (λ D, D = D0) x' ∧ plan_of s p) (λ _, about (λ D, D = D0)) x.
Proof.
  intros Hx. unfold plan_restore. apply wp_bind, wp_lift; [|done]. intros f Hf. cbv zeta. apply wp_bind.
  destruct (String.eqb _ _); unfold _restore_staging_disk_path.
  - apply wp_bind, wp_on_mgr, wp_tick, wp_return, wp_return. split; [exact Hx|]. do 4 (split; [done|]). split; [right; by eexists|by exists f].
  - apply wp_return, wp_return. split; [done|]. do 4 (split; [done|]). split; [by left|by exists f].
Qed.
Lemma about_plan_checks (I : gmap string nat → Prop) sid s : keeps (about I) (plan_checks E sid s : py (snapm St) unit).
Proof. unfold plan_checks. cbv zeta. keeps_steps. Qed.

(** A restore either stops before it touches a disk or a row, or reaches its
    [try] block. *)
Lemma restore_enters sid s x resume force (Q : VMInfo → snapm St → Prop) (P : exn → snapm St → Prop) :
  sm_ok (g_state (sn_mgr x)) → (get_snapshot E X sid x).2 = Ret s →
  (∀ e y, about (λ D, D = disks x) y → P e y) →
  (∀ existing p y, about (λ D, D = disks x) y → plan_of s p →
     (existing = None → iv_vms (sm_view (g_state (sn_mgr x))) !! si_vm_id s = None) →
     wp (py_try (restore_body E X sid (si_vm_id s) existing p resume) (restore_rollback E (si_vm_id s) existing p))
       (λ i xp, Q i xp.1) (λ e xp, P e xp.1) (y, rp_start)) →
  wp (restore_snapshot E X sid resume force) Q P x.
Proof using SnapshotLaws0.
  intros Hok Hget Hout Hbody. set (D0 := disks x) in *. set (v := sm_view (g_state (sn_mgr x))) in *.
  assert (as_before D0 v x) as Hx by done.
  unfold restore_snapshot. apply wp_bind, wp_lift; [intros [] _|intros; by apply Hout; destruct Hx].
  apply wp_bind. eapply wp_mono with (Q := λ t y, t = s ∧ as_before D0 v y) (E := λ _ _, False); [| |done].
  { assert (wp (get_snapshot E X sid) (λ t _, t = s) (λ _ _, False) x) as Hs.
    { unfold wp. destruct (get_snapshot E X sid x) as [y [t|e]]; simpl in Hget; congruence. }
    eapply wp_mono; [exact (wp_conj _ _ _ _ _ _ Hs (before_get D0 v sid x Hx))|by intros t y [-> Hy]|by intros ? ? []]. }
  clear Hget. intros t y [-> Hy]. cbv zeta.
  apply wp_bind. eapply wp_mono; [by eapply checks_spec| |exact Hout]. clear y Hy. intros existing y [Hy Hnone].
  apply wp_bind. eapply wp_mono; [by apply plan_spec| |exact Hout]. clear y Hy. intros p y [Hy Hp].
  apply wp_bind. eapply wp_mono; [by apply about_plan_checks| |exact Hout]. clear y Hy. intros [] y Hy.
  specialize (Hbody existing p y Hy Hp Hnone). unfold wp in *. by destruct (py_try _ _ _) as [[z r] []].
Qed.

(** C8: a failed restore loses no disk, whatever failed: when the computer is
    in the inventory, has no disk, or its disk was kept when the computer was
    deleted, the content of its managed disk is afterwards under the disk's
    name or under the backup name the restore gave it; and when no [unlink] and
    no [os.replace] of the run failed, the disk's name holds exactly what it
    held.  (The random suffix of a backup is a plain name that no file of the
    disk directory has.) *)
Theorem failed_restore_keeps_disk sid s f x x' e resume force :
  sm_ok (g_state (sn_mgr x)) →
  (get_snapshot E X sid x).2 = Ret s →
  effective_rootfs_format (si_vm_config s) = Ret f →
  let disk := _instance_disk_name (si_vm_id s) (si_backend s) f in
  (∀ n, disks x !! (disk +:+ ".backup-" +:+ e_uuid E n) = None) →
  is_Some (iv_vms (sm_view (g_state (sn_mgr x))) !! si_vm_id s)
    ∨ disks x !! disk = None ∨ is_Some (disks x !! _retained_marker disk) →
  restore_snapshot E X sid resume force x = (x', Raise e) →
  (∀ c, disks x !! disk = Some c →
     disks x' !! disk = Some c ∨ ∃ n, disks x' !! (disk +:+ ".backup-" +:+ e_uuid E n) = Some c)
  ∧ ((∀ n f, e_unlink E n f = None) → (∀ n f, e_replace E n f = None) → disks x' !! disk = disks x !! disk).
Proof using Type*.
  intros Hok Hget Hf disk Hfresh Hsafe Hrun.
  set (post := λ y : snapm St, (∀ c, disks x !! disk = Some c →
     disks y !! disk = Some c ∨ ∃ n, disks y !! (disk +:+ ".backup-" +:+ e_uuid E n) = Some c)
  ∧ ((∀ n f, e_unlink E n f = None) → (∀ n f, e_replace E n f = None) → disks y !! disk = disks x !! disk)).
  enough (wp (restore_snapshot E X sid resume force) (λ _ _, True) (λ _, post) x) as H by apply (wp_eq _ _ _ _ _ _ H Hrun).
  eapply restore_enters; [done|exact Hget| |].
  { intros ? y [_ HD]. unfold post. rewrite HD. auto. }
  clear Hrun x' e. intros existing p y [Hoky HD] (_ & _ & _ & _ & Hst & f' & Hf' & Hdisk) Hnone.
  assert (f' = f) as -> by congruence. fold disk in Hdisk. apply wp_try.
  eapply wp_mono; [apply (body_spec E X p (disks x) Hst)|done|].
  - split; [done|]. rewrite HD. rewrite <- Hdisk in Hfresh. by split_and!.
  - intros e [z r] [Hr Hc].
    assert (inst (si_vm_id s) (pl_disk p)) as Hinst by (rewrite Hdisk; apply inst_name).
    assert (existing = None → disks x !! pl_disk p = None ∨ is_Some (disks x !! _retained_marker (pl_disk p))) as Hs.
    { intros Hn%Hnone. rewrite Hdisk. destruct Hsafe as [[i Hi]|Hsafe]; [congruence|done]. }
    eapply wp_mono; [by eapply (rollback_spec (si_vm_id s) p (disks x) existing Hst Hinst Hs)|done|].
    intros e' xp (_ & Hlost & Hback). unfold not_lost in Hlost. rewrite Hdisk in Hlost, Hback.
    split; [|intros H1 H2; by apply Hback]. intros c Hd. rewrite Hd in Hlost.
    destruct Hlost as [?|[?|(b & [n ->] & ?)]]; [done|by left|right; eauto].
Qed.
End failed.
