(* ===== verification/RestoreOutcome.v ===== *)
(** * Restoring a snapshot: what a restore that returns has done *)
From S2P Require Import Prelude PyHoare PyDict PyStr StorageBase Types MemoryState StateProtocol SnapshotStore.
From S2P Require Import NetworkSettings Channel EgressSession ConfigValidation.
From S2P Require Import Backends ManagerState ManagerHelpers ManagerRuntime ManagerCreate ManagerLifecycle ManagerFrames.
From S2P Require Import Snapshots SnapshotRestore SnapshotFrames RestoreProofs.
From stdpp Require Import options.

(** ** Calls that leave the inventory alone *)
Definition records {St} (st : St) (g : mgr St) : Prop := g_state g = st.
Lemma records_modify {St} (st : St) f : (∀ g, g_state (f g) = g_state g) → keeps (records st) (py_modify f).
Proof. intros Hf. apply keeps_modify. unfold records. intros g. by rewrite Hf. Qed.
Lemma records_tick {St} (st : St) : keeps (records st) tick.
Proof. by intros g. Qed.
#[export] Hint Resolve records_tick : celesto.
#[export] Hint Extern 2 (keeps (records _) (py_modify _)) => apply records_modify; intros ?; reflexivity : celesto.

(** The inventory and the pauses of a snapshot manager. *)
Definition steady {St} (st : St) (ps : gset string) (x : snapm St) : Prop :=
  records st (sn_mgr x) ∧ sn_paused x = ps.

Section steady.
Context (E : menv) (X : senv) {St : Type}.
Implicit Types (x : snapm St) (st : St).
Local Abbreviation M := (py (snapm St)).

Lemma steady_mgr {A} st ps (m : py (mgr St) A) : keeps (records st) m → keeps (steady st ps) (on_mgr m).
Proof. intros Hm x [Hx Hp]. apply wp_on_mgr. by eapply wp_mono; [apply Hm|..]. Qed.
Lemma steady_stick st ps : keeps (steady st ps) (stick : M nat).
Proof. apply steady_mgr, records_tick. Qed.
Hint Resolve steady_stick : celesto.

Lemma records_write st d : keeps (records st) (write_disk E d).
Proof. unfold write_disk. keeps_steps. Qed.
Lemma records_unlink st d : keeps (records st) (unlink E d).
Proof. unfold unlink. keeps_steps. Qed.
Lemma records_spawn st i : keeps (records st) (spawn E i).
Proof. unfold spawn. keeps_steps. Qed.
Lemma records_boot st i : keeps (records st) (boot E i).
Proof. unfold boot. keeps_steps. Qed.
Lemma records_kill st p : keeps (records st) (_kill_process E p).
Proof. unfold _kill_process. keeps_steps. Qed.
Lemma records_socket st o : keeps (records st) (_unlink_socket E o).
Proof. unfold _unlink_socket. keeps_steps. Qed.
Lemma records_pause st b i : keeps (records st) (adapter_pause E b i).
Proof. unfold adapter_pause, monitor. keeps_steps. Qed.
Hint Resolve records_write records_unlink records_spawn records_boot records_kill records_socket records_pause : celesto.
Hint Extern 3 (keeps (steady _ _) (on_mgr _)) => apply steady_mgr; solve [eauto with celesto nocore] : celesto.

Lemma steady_socket st ps p : keeps (steady st ps) (unlink_socket_if_exists E X p : M unit).
Proof. unfold unlink_socket_if_exists. keeps_steps. Qed.
Lemma steady_command st ps n vm : keeps (steady st ps) (command X n vm : M unit).
Proof. unfold command. keeps_steps. Qed.
Hint Resolve steady_socket steady_command : celesto.
Lemma steady_copy st ps fuel src dest n : keeps (steady st ps) (_copy_disk_standalone E X fuel src dest n : M unit).
Proof. revert src dest n. induction fuel; intros; cbn [_copy_disk_standalone]; keeps_steps. Qed.
Hint Resolve steady_copy : celesto.
Lemma steady_qemu_copy st ps s d : keeps (steady st ps) (qemu_copy E X s d : M unit).
Proof. unfold qemu_copy. keeps_steps. Qed.
Hint Resolve steady_qemu_copy : celesto.

(** A step that only has to be steady when it returns. *)
Lemma steady_step {A B} st ps (m : M A) (k : A → M B) (Q : B → snapm St → Prop) x :
  keeps (steady st ps) m → steady st ps x → (∀ a y, steady st ps y → wp (k a) Q (λ _ _, True) y) →
  wp (py_bind m k) Q (λ _ _, True) x.
Proof. intros Hm Hx Hk. apply wp_bind. eapply wp_mono; [by apply Hm|apply Hk|done]. Qed.
(** A handler that raises. *)
Lemma wp_reraise {A} (m : M A) h (Q : A → snapm St → Prop) x :
  wp m Q (λ _ _, True) x → (∀ e y, wp (h e) (λ _ _, False) (λ _ _, True) y) → wp (py_try m h) Q (λ _ _, True) x.
Proof.
  intros Hm Hh. apply wp_try. eapply wp_mono; [exact Hm|done|]. intros e y _. by eapply wp_mono; [apply Hh|..].
Qed.

(** ** The adapters *)
(** A launched guest: the inventory is as before, and the guest is paused
    unless it was to be resumed. *)
Definition launched_as (vm : string) (resume : bool) st (l : restored_launch) x : Prop :=
  records st (sn_mgr x) ∧ l_status (rl_launch l) = restored_status resume ∧ (vm ∈ sn_paused x ↔ resume = false).

Lemma launch_failed_raises {A} p sock e (Q : A → snapm St → Prop) x : wp (launch_failed E X p sock e) Q (λ _ _, True) x.
Proof. unfold launch_failed. do 2 (apply then_raises; intros ?). by apply wp_raise. Qed.
Lemma spawn_failed_raises {A} sock e (Q : A → snapm St → Prop) x : wp (spawn_failed E X sock e) Q (λ _ _, True) x.
Proof. unfold spawn_failed. apply then_raises. intros ?. by apply wp_raise. Qed.
Lemma spawn_step {B} st ps i sock (k : Z → M B) (Q : B → snapm St → Prop) x :
  steady st ps x → (∀ p y, steady st ps y → wp (k p) Q (λ _ _, True) y) →
  wp (let! p := py_try (on_mgr (spawn E i)) (spawn_failed E X sock) in k p) Q (λ _ _, True) x.
Proof.
  intros Hx Hk. apply wp_bind. apply wp_reraise; [|intros; apply spawn_failed_raises].
  eapply wp_mono; [apply (steady_mgr st ps); [auto with celesto|exact Hx]|apply Hk|done].
Qed.
Lemma resume_guest_spec st ps n vm x :
  steady st ps x → wp (resume_guest X n vm) (λ _, steady st (ps ∖ {[vm]})) (λ _ _, True) x.
Proof.
  intros Hx. unfold resume_guest. eapply steady_step; [auto with celesto|exact Hx|]. intros [] y [Hr Hp].
  apply wp_modify. split; [done|]. simpl. by rewrite Hp.
Qed.

Lemma qemu_launched s d resume st ps x :
  steady st ps x → wp (qemu_restore_snapshot E X s d resume) (launched_as (si_vm_id s) resume st) (λ _ _, True) x.
Proof.
  intros Hx. unfold qemu_restore_snapshot. cbv zeta. eapply steady_step; [auto with celesto|exact Hx|]. intros [] x1 Hx1.
  eapply steady_step; [auto with celesto|exact Hx1|]. intros [] x2 Hx2. eapply spawn_step; [exact Hx2|]. intros p x3 [Hr Hp].
  apply wp_bind, wp_modify. set (vm := si_vm_id s).
  assert (steady st ({[vm]} ∪ ps) (sn_set_paused ({[vm]} ∪ sn_paused x3) x3)) as Hx4 by (split; [done|simpl; by rewrite Hp]).
  apply wp_reraise; [|intros; apply launch_failed_raises].
  eapply steady_step; [auto with celesto|exact Hx4|]. intros [] x5 Hx5.
  eapply steady_step; [auto with celesto|exact Hx5|]. intros [] x6 Hx6.
  eapply steady_step; [keeps_steps|exact Hx6|]. intros [] x7 [Hr7 Hp7].
  apply wp_bind. destruct resume; cbn [py_when].
  - eapply wp_mono; [by apply (resume_guest_spec st ({[vm]} ∪ ps))| |done]. intros [] y [Hy Hyp]. apply wp_return.
    split; [done|]. split; [done|]. rewrite Hyp. set_solver.
  - apply wp_return, wp_return. split; [done|]. split; [done|]. rewrite Hp7. set_solver.
Qed.

Lemma fc_start_spec st i g :
  records st g → wp (firecracker_start E i) (λ l g', records st g' ∧ l_status l = RUNNING) (λ _ _, True) g.
Proof.
  intros Hg. unfold firecracker_start. apply wp_bind, wp_lift; [intros [] _|done].
  apply wp_bind. eapply wp_mono; [by apply (records_spawn st)| |done]. clear g Hg. intros p g Hg. apply wp_try.
  apply wp_bind. eapply wp_mono; [by apply (records_boot st)| |].
  - clear g Hg. intros [] g Hg. apply wp_bind, wp_lift; [intros [] _; by apply wp_return|].
    intros e _. apply then_raises. intros ?. by apply wp_raise.
  - intros e g' _. apply then_raises. intros ?. by apply wp_raise.
Qed.
Lemma fc_launched s d resume st ps x :
  steady st ps x → wp (firecracker_restore_snapshot E X s d resume) (launched_as (si_vm_id s) resume st) (λ _ _, True) x.
Proof.
  intros Hx. unfold firecracker_restore_snapshot. cbv zeta. set (vm := si_vm_id s).
  eapply steady_step; [auto with celesto|exact Hx|]. clear x Hx. intros [] x Hx.
  assert (∀ p sock uds y, steady st ps y →
    wp (do! py_modify (λ x, sn_set_paused (if resume then sn_paused x ∖ {[vm]} else {[vm]} ∪ sn_paused x) x) in
        py_return {| rl_launch := {| l_status := restored_status resume; l_pid := p; l_socket := Some sock; l_display := None |};
                     rl_vsock_uds_path := uds |}) (launched_as vm resume st) (λ _ _, True) y) as Hload.
  { intros p sock uds y [Hr Hp]. apply wp_bind, wp_modify, wp_return. split; [done|]. split; [done|]. simpl. destruct resume; set_solver. }
  assert (∀ m : M restored_launch, (∀ y, steady st ps y → wp m (launched_as vm resume st) (λ _ _, True) y) →
    wp (do! py_lift (guard_raise (negb (is_some (state_path (artifacts s)) && is_some (memory_path (artifacts s))))
            (CelestoError "Firecracker snapshot restore requires state and memory artifacts")) in m)
      (launched_as vm resume st) (λ _ _, True) x) as Hguard.
  { intros m Hm. eapply steady_step; [auto with celesto|exact Hx|]. intros _. apply Hm. }
  destruct (snapshot_type s).
  1,2: apply Hguard; intros x1 Hx1; (eapply steady_step; [auto with celesto|exact Hx1|]); intros [] x2 Hx2;
    (eapply steady_step; [destruct (fc_vsock E vm (si_vm_config s)); auto with celesto|exact Hx2|]); intros [] x3 Hx3;
    (eapply spawn_step; [exact Hx3|]); intros p x4 Hx4; (apply wp_reraise; [|intros; apply launch_failed_raises]);
    (eapply steady_step; [auto with celesto|exact Hx4|]); intros [] x5 Hx5;
    (eapply steady_step; [auto with celesto|exact Hx5|]); intros [] x6 Hx6; by apply Hload.
  apply wp_bind, wp_on_mgr. destruct Hx as [Hr Hp].
  eapply wp_mono; [by apply (fc_start_spec st)| |done]. intros l g [Hg Hl]. apply wp_bind, wp_modify. simpl.
  destruct resume; [apply wp_return; split; [done|]; split; [done|]; simpl; set_solver|].
  apply wp_bind, wp_reraise.
  - eapply wp_mono; [apply (steady_mgr st (ps ∖ {[vm]})); [auto with celesto|]| |done]; [by split; [|simpl; rewrite Hp]|].
    intros [] y [Hy Hyp]. apply wp_bind, wp_modify, wp_return. split; [done|]. split; [done|]. simpl. set_solver.
  - intros e y. apply then_raises. intros ?. by apply wp_raise.
Qed.
Lemma adapter_launched b s d resume st ps x :
  steady st ps x → wp (adapter_restore_snapshot E X b s d resume) (launched_as (si_vm_id s) resume st) (λ _ _, True) x.
Proof.
  intros Hx. unfold adapter_restore_snapshot. destruct (String.eqb b BACKEND_FIRECRACKER); [by eapply fc_launched|].
  destruct (String.eqb b BACKEND_QEMU); [by eapply qemu_launched|]. by destruct (String.eqb b BACKEND_LIBKRUN).
Qed.
End steady.

(** ** The row and the leases *)
Section leases.
Context (E : menv) (X : senv) {St : Type} `{!StateManager St, !StateManagerLaws St, !SnapshotStore St, !SnapshotLaws St}.
Implicit Types (g : mgr St) (x : snapm St) (P : Inventory → Prop).

Definition views P g : Prop := sm_ok (g_state g) ∧ P (sm_view (g_state g)).
Lemma views_quiet {A} P (m : py (mgr St) A) : quiet m → keeps (views P) m.
Proof. apply quiet_keeps. unfold core, views. intros g g' [= -> _ _ _ _]. done. Qed.
Lemma views_law {A} P (m : py St A) :
  (∀ s, sm_ok s → wp m (λ _ s', sm_ok s' ∧ (P (sm_view s) → P (sm_view s'))) (λ _, same_view s) s) →
  keeps (views P) (on_state m).
Proof.
  intros Hm g [Hok HP]. apply wp_on_state. eapply wp_mono; [by apply Hm|..].
  - intros a s' [Hs Hp]. split; [done|]. by apply Hp.
  - intros e s' [Hs Hv]. split; [done|]. simpl. by rewrite Hv.
Qed.

Section closed.
Context (P : Inventory → Prop).
Context (Pcids : ∀ f v, P v → P (iv_set_cids f v)) (Ptaps : ∀ f v, P v → P (iv_set_taps f v)).

Lemma views_reserve_tap vm m br r : keeps (views P) (on_state (sm_reserve_tap_name vm m br r)).
Proof using Ptaps.
  apply views_law. intros s Hs. eapply wp_mono; [by apply law_reserve_tap_name| |done]. cbv beta.
  intros a s' [(_ & Hok & Hv)|(_ & _ & Hok & Hv)]; (split; [done|]); rewrite Hv; auto.
Qed.
Lemma views_reserve_cid vm r : keeps (views P) (on_state (sm_reserve_vsock_cid vm r)).
Proof using Pcids.
  apply views_law. intros s Hs. eapply wp_mono; [by apply law_reserve_vsock_cid| |done]. cbv beta.
  intros a s' [(_ & Hok & Hv)|(_ & _ & _ & Hok & Hv)]; (split; [done|]); rewrite Hv; auto.
Qed.
Lemma views_release_cid vm : keeps (views P) (on_state (sm_release_vsock_cid vm)).
Proof using Pcids.
  apply views_law. intros s Hs. eapply wp_mono; [by apply law_release_vsock_cid| |done].
  intros a s' [Hok Hv]. split; [done|]. rewrite Hv. auto.
Qed.
Lemma views_get_cid vm : keeps (views P) (on_state (sm_get_vsock_cid vm)).
Proof.
  apply views_law. intros s Hs. eapply wp_mono; [by apply law_get_vsock_cid| |done].
  intros a s' [[Hok Hv] _]. split; [done|]. by rewrite Hv.
Qed.
Hint Resolve views_reserve_tap views_reserve_cid views_release_cid views_get_cid : celesto.
Hint Extern 4 (keeps (views _) _) => apply views_quiet; solve [eauto with celesto nocore] : celesto.
Lemma views_cid_loop vm live cands : keeps (views P) (cid_loop vm live cands).
Proof using Pcids. induction cands; cbn [cid_loop]; keeps_steps. Qed.
Hint Resolve views_cid_loop : celesto.
Lemma views_vsock vm b r : keeps (views P) (_reserve_vsock_cid_for_backend E vm b r).
Proof using Pcids. unfold _reserve_vsock_cid_for_backend. keeps_steps. Qed.
Lemma views_bridge vm nc c b : keeps (views P) (_ensure_bridge_ready E vm nc c b).
Proof using Ptaps. unfold _ensure_bridge_ready. keeps_steps. Qed.
Hint Resolve views_vsock views_bridge : celesto.
Lemma views_tap vm nc c : keeps (λ x, views P (sn_mgr x)) (_ensure_tap_network_for_restore E vm nc c).
Proof using Ptaps. unfold _ensure_tap_network_for_restore. apply keeps_on_mgr. keeps_steps. Qed.
End closed.

(** The address and the port of the restored network are the computer's. *)
Definition leased_ip (vm : string) (p : restore_plan) (v : Inventory) : Prop :=
  let s := pl_snapshot p in
  is_bridged s = false → _uses_host_tap_networking (pl_config p) (si_backend s) = true →
  ∀ ip, guest_ip (si_network_config s) = Some ip → ∃ t, iv_ips v !! vm = Some (ip, t).
Definition leased_port (vm : string) (p : restore_plan) (v : Inventory) : Prop :=
  ∀ q, ssh_host_port (si_network_config (pl_snapshot p)) = Some q → iv_ports v !! vm = Some q.
Definition leased vm p v : Prop := leased_ip vm p v ∧ leased_port vm p v.

Lemma claim_ip_spec vm p x :
  sm_ok (g_state (sn_mgr x)) →
  wp (let s := pl_snapshot p in
      let nc := si_network_config s in
      if is_bridged s then
        match nc_bridge nc with
        | None => py_raise (AssertionErrorExn "")
        | Some bridge =>
            do! on_store (sm_reserve_tap_name vm "bridge" (Some bridge) (Some (tap_device nc))) in py_return tt
        end
      else if _uses_host_tap_networking (pl_config p) (si_backend s) then
        do! on_store (sm_allocate_ip vm (tap_device nc) (guest_ip nc)) in py_return tt
      else py_return tt)
    (λ _ x', views (leased_ip vm p) (sn_mgr x')) (λ _ _, True) x.
Proof using SnapshotStore0 SnapshotLaws0.
  intros Hok. cbv zeta. destruct (is_bridged (pl_snapshot p)) eqn:Hb.
  - destruct (nc_bridge _); [|done]. apply wp_bind, wp_on_mgr, wp_on_state.
    eapply wp_mono; [by apply law_reserve_tap_name| |done]. cbv beta. intros name s' Hs. apply wp_return.
    split; [unfold same_view in Hs; naive_solver|]. intros Hf. congruence.
  - destruct (_uses_host_tap_networking _ _) eqn:Hu; [|apply wp_return; split; [done|]; intros _ Hf; congruence].
    apply wp_bind, wp_on_mgr, wp_on_state. set (nc := si_network_config (pl_snapshot p)).
    eapply wp_mono with (Q := λ a s', (sm_ok s' ∧ ∃ t, iv_ips (sm_view s') !! vm = Some (a, t)) ∧ ∀ ip, guest_ip nc = Some ip → a = ip)
      (E := λ _ _, True); [| |done].
    + eapply wp_mono; [eapply wp_conj with (Q' := λ a _, ∀ ip, guest_ip nc = Some ip → a = ip) (E' := λ _ _, True); [by apply law_allocate_ip|]| |done]; cbv beta.
      * destruct (guest_ip nc) as [ip|]; [|by apply wp_intro].
        eapply wp_mono; [apply law_requested_ip| |done]. intros a s' -> ip' [= ->]. done.
      * intros a s' [Ha Hip]. split; [|done]. destruct Ha as [(t & Ht & Hok' & Hv)|(_ & _ & Hok' & Hv)]; (split; [done|]); rewrite Hv.
        -- eauto.
        -- exists (tap_device nc). simpl. by rewrite lookup_insert_eq.
    + intros a s' [[Hok' [t Ht]] Hip]. apply wp_return. split; [done|]. intros _ _ ip Hg. exists t. by rewrite <- (Hip ip Hg).
Qed.
Lemma claim_port_spec vm p x :
  views (leased_ip vm p) (sn_mgr x) →
  wp (match ssh_host_port (si_network_config (pl_snapshot p)) with
      | Some port => do! on_store (sm_reserve_ssh_port vm (Some port) []) in py_return tt
      | None => py_return tt
      end) (λ _ x', views (leased vm p) (sn_mgr x')) (λ _ _, True) x.
Proof using SnapshotStore0 SnapshotLaws0.
  intros [Hok Hip]. destruct (ssh_host_port _) as [q|] eqn:Hq; [|apply wp_return; split; [done|]; split; [done|]; intros q; by rewrite Hq].
  apply wp_bind, wp_on_mgr, wp_on_state.
  eapply wp_mono; [eapply wp_conj; [by apply law_reserve_ssh_port|apply law_requested_port]| |done]. cbv beta.
  intros a s' [Ha ->]. apply wp_return. unfold leased, leased_port, views. simpl. rewrite Hq.
  destruct Ha as [(Hp & Hok' & Hv)|(_ & _ & _ & _ & Hok' & Hv)]; (split; [done|]); rewrite Hv; (split; [done|]); intros q' [= <-]; [done|].
  simpl. by rewrite lookup_insert_eq.
Qed.

(** The row carries the restored network. *)
Definition networked vm p v : Prop :=
  leased vm p v ∧ ∃ i, iv_vms v !! vm = Some i ∧ network i = Some (si_network_config (pl_snapshot p)).
Lemma claim_spec vm p x :
  sm_ok (g_state (sn_mgr x)) →
  wp (claim_network E vm p) (λ _ x', views (networked vm p) (sn_mgr x')) (λ _ _, True) x.
Proof using SnapshotStore0 SnapshotLaws0.
  intros Hok. unfold claim_network. cbv zeta. apply wp_bind. unfold claim_leases. cbv zeta.
  apply wp_bind. eapply wp_mono; [by apply claim_ip_spec| |done]. clear x Hok. intros [] x Hx.
  apply wp_bind. eapply wp_mono; [by apply claim_port_spec| |done]. clear x Hx. intros [] x Hx.
  eapply wp_mono with (Q := λ _ x, views (leased vm p) (sn_mgr x)) (E := λ _ _, True); [| |done].
  { destruct (vsock_config (pl_config p)); [|by apply wp_return]. destruct (String.eqb _ _); [|by apply wp_return].
    apply wp_reraise; [|intros e y; by destruct (is_network_error e)]. apply wp_bind.
    eapply wp_mono; [apply (keeps_on_mgr (views (leased vm p))); [|exact Hx]|by intros; apply wp_return|done].
    apply views_vsock; by intros f v0. }
  clear x Hx. intros [] x [Hok Hl]. apply wp_bind, wp_on_mgr, wp_on_state. eapply wp_mono; [by apply law_update| |done]. cbv beta.
  intros i s' (Hok' & i0 & Hi0 & -> & Hv).
  assert (views (networked vm p) (g_set_state s' (sn_mgr x))) as Hn.
  { split; [done|]. simpl. rewrite Hv. split; [exact Hl|]. simpl. rewrite lookup_insert_eq. eauto. }
  apply wp_when; [intros _|done]. eapply wp_mono; [apply (views_tap (networked vm p)); [by intros f v|exact Hn]|done|done].
Qed.

(** The records at the end. *)
Definition recorded sid vm p resume (i : VMInfo) x : Prop :=
  let v := sm_view (g_state (sn_mgr x)) in
  leased vm p v
  ∧ (∃ row, iv_vms v !! vm = Some row ∧ status row = restored_status resume ∧ network row = Some (si_network_config (pl_snapshot p))
            ∧ is_Some (pid row) ∧ (i = row ∨ ∃ u, i = vi_set_uds (Some u) row))
  ∧ (∃ r, ss_view (g_state (sn_mgr x)) !! sid = Some r ∧ restored r = true ∧ restored_vm_id r = Some vm
          ∧ sn_dirs x !! sid ≫= sd_manifest = Some (Some r))
  ∧ (vm ∈ sn_paused x ↔ resume = false).

Lemma manifest_spec s st x :
  g_state (sn_mgr x) = st →
  wp (_write_snapshot_manifest E X s)
    (λ _ x', g_state (sn_mgr x') = st ∧ sn_paused x' = sn_paused x ∧ sn_dirs x' !! snapshot_id s ≫= sd_manifest = Some (Some s))
    (λ _ _, True) x.
Proof.
  intros Hst. unfold _write_snapshot_manifest. apply wp_bind, wp_lift; [intros [] _|done].
  apply wp_bind. eapply wp_mono with (Q := λ _ x', g_state (sn_mgr x') = st ∧ sn_paused x' = sn_paused x ∧ is_Some (sn_dirs x' !! snapshot_id s))
    (E := λ _ _, True); [| |done].
  - unfold mkdir. apply wp_bind, wp_get, wp_bind. unfold stick. apply wp_on_mgr, wp_tick.
    destruct (sn_dirs x !! snapshot_id s) eqn:Hd; [apply wp_return; simpl; rewrite Hd; eauto|].
    apply wp_bind. unfold sraise_if. destruct (x_mkdir X _ _); [done|]. apply wp_return, wp_modify. simpl. rewrite lookup_insert_eq. eauto.
  - intros [] y (Hy & Hp & [d Hd]). apply wp_bind. unfold stick. apply wp_on_mgr, wp_tick, wp_bind. unfold sraise_if.
    destruct (x_write X _ _); [done|]. apply wp_return, wp_modify. simpl. split; [done|]. split; [done|]. by rewrite lookup_alter_eq, Hd.
Qed.

Lemma record_spec sid vm p resume l x :
  views (networked vm p) (sn_mgr x) → l_status (rl_launch l) = restored_status resume → (vm ∈ sn_paused x ↔ resume = false) →
  wp (record_restored E X sid vm l) (recorded sid vm p resume) (λ _ _, True) x.
Proof using SnapshotLaws0.
  intros [Hok [Hl (i0 & Hi0 & Hn)]] Hs Hp. unfold record_restored. apply wp_bind, wp_on_mgr, wp_on_state.
  eapply wp_mono; [by apply law_update| |done]. cbv beta. intros i s1 (Hok1 & i1 & Hi1 & -> & Hv1).
  assert (i1 = i0) as -> by congruence. cbv zeta.
  apply wp_bind, wp_on_mgr, wp_on_state. eapply wp_mono; [by apply law_ss_mark_restored| |done]. cbv beta.
  intros r s2 (r0 & Hr0 & -> & Hok2 & Hv2 & Hss). simpl in Hok2, Hv2, Hss, Hr0.
  assert (snapshot_id (mark_restored vm r0) = sid) as Hid by exact (ok_snapshot_ids _ _ _ Hok1 Hr0).
  apply wp_bind. eapply wp_mono; [by apply (manifest_spec _ s2)| |done]. intros [] y (Hy & Hyp & Hyd). apply wp_return.
  unfold recorded. rewrite Hy, Hv2, Hv1, Hss, Hyp. rewrite Hid in Hyd. split_and!.
  - exact Hl.
  - eexists. simpl. rewrite lookup_insert_eq. split; [done|]. simpl. split; [done|]. split; [done|]. split; [by eexists|].
    destruct (rl_vsock_uds_path l); eauto.
  - exists (mark_restored vm r0). by rewrite lookup_insert_eq.
  - done.
Qed.

Lemma discard_spec sid vm p resume i r x :
  recorded sid vm p resume i x → wp (discard_replaced E r) (λ _, recorded sid vm p resume i) (λ _ _, True) x.
Proof.
  assert (∀ f, keeps (recorded sid vm p resume i) (on_mgr (unlink E f) : py (snapm St) unit)) as Hu.
  { intros f y Hy. apply wp_on_mgr. unfold unlink. apply wp_bind, wp_tick. by destruct (e_unlink E _ f). }
  intros Hx. assert (keeps (recorded sid vm p resume i) (discard_replaced E r : py (snapm St) unit)) as Hk.
  { unfold discard_replaced, unlink_if_exists, disk_exists. keeps_steps. }
  eapply wp_mono; [by apply Hk|done|done].
Qed.

(** ** The whole call *)
Definition okR (xp : snapm St * rprog) : Prop := sm_ok (g_state (sn_mgr xp.1)).
Lemma okR_snap {A} (m : py (snapm St) A) : keeps (about (λ _, True)) m → keeps okR (on_snap m).
Proof.
  intros Hm [x r] Hx. apply wp_on_snap. eapply wp_mono; [apply Hm; by split|..]; by intros ? y [Hy _].
Qed.
Lemma okR_aside p : keeps okR (set_disk_aside E X p).
Proof.
  assert (∀ f, keeps (about (λ _, True)) (on_mgr (unlink E f) : py (snapm St) unit)) by (intros; by apply about_unlink).
  assert (∀ f, keeps (about (λ _, True)) (on_mgr (write_disk E f) : py (snapm St) unit)) by (intros; by apply about_write).
  assert (∀ f h, keeps (about (λ _, True)) (replace E f h : py (snapm St) unit)) by (intros; by apply about_replace).
  assert (∀ f, keeps okR (note f)) by (intros; by apply keeps_modify).
  unfold set_disk_aside, disk_exists, touch, _restore_backup_disk_path. cbv zeta.
  repeat (keeps_step || (apply okR_snap)).
Qed.

Lemma launch_spec sid vm p resume x r :
  views (networked vm p) (sn_mgr x) → si_vm_id (pl_snapshot p) = vm →
  wp (launch_restored E X sid p resume)
    (λ l xp, views (networked vm p) (sn_mgr xp.1) ∧ l_status (rl_launch l) = restored_status resume ∧ (vm ∈ sn_paused xp.1 ↔ resume = false))
    (λ _ _, True) (x, r).
Proof.
  intros Hn Hvm. set (st := g_state (sn_mgr x)). unfold launch_restored. cbv zeta. apply wp_bind, wp_on_snap.
  assert (steady st (sn_paused x) x) as Hx by done. pose proof (steady_stick (St := St)) as Htick.
  eapply steady_step; [|exact Hx|]; [case_bool_decide; keeps_steps|]. intros [] y Hy.
  eapply wp_mono; [by eapply adapter_launched| |done]. rewrite Hvm. intros l z (Hz & Hl & Hp).
  assert (∀ z', steady st (sn_paused z) z' → views (networked vm p) (sn_mgr z') ∧ l_status (rl_launch l) = restored_status resume
             ∧ (vm ∈ sn_paused z' ↔ resume = false)) as Hdone.
  { intros z' [Hs Hps]. unfold views, records in *. rewrite Hs, Hps. done. }
  apply wp_bind, wp_modify, wp_bind. destruct (String.eqb _ _); [apply wp_return, wp_return; by apply Hdone|].
  apply wp_on_snap. eapply wp_mono with (Q := λ _, steady st (sn_paused z)) (E := λ _ _, True); [| |done].
  - eapply wp_mono; [apply steady_mgr with (st := st) (ps := sn_paused z)|done|done]; [|done]. keeps_steps.
  - intros [] z' Hz'. apply wp_return. by apply Hdone.
Qed.

Lemma body_records sid vm existing p resume x :
  sm_ok (g_state (sn_mgr x)) → si_vm_id (pl_snapshot p) = vm →
  wp (restore_body E X sid vm existing p resume) (λ i xp, recorded sid vm p resume i xp.1) (λ _ _, True) (x, rp_start).
Proof using SnapshotLaws0.
  intros Hok Hvm. unfold restore_body. apply wp_bind. eapply wp_mono; [by apply okR_aside| |done]. intros [] xp Hxp.
  apply wp_bind. eapply wp_mono with (Q := λ _, okR) (E := λ _ _, True); [| |done].
  { destruct (is_some existing); [by apply wp_return|]. apply wp_bind.
    eapply wp_mono; [apply okR_snap; [|exact Hxp]| |done]; [auto with celesto|]. intros i y Hy. by apply wp_modify. }
  clear xp Hxp. intros [] [y r] Hy. apply wp_bind, wp_on_snap. eapply wp_mono; [by apply claim_spec| |done].
  clear y Hy. intros [] y Hy. apply wp_bind. eapply wp_mono; [by apply launch_spec| |done].
  clear y Hy r. intros l [y r] (Hn & Hl & Hp). apply wp_bind, wp_on_snap. eapply wp_mono; [by apply record_spec| |done].
  clear y Hn Hp. intros i y Hy. apply wp_bind, wp_get, wp_bind, wp_on_snap. eapply wp_mono; [by apply discard_spec| |done].
  clear y Hy. intros [] y Hy. by apply wp_return.
Qed.

(** What a restore that returned has left: the row runs or pauses as asked, on
    the network of the snapshot, whose address and port are leased to it; the
    snapshot is marked in the inventory and in its manifest. *)
Definition restored_state sid (s : SnapshotInfo) resume (i : VMInfo) x : Prop :=
  let v := sm_view (g_state (sn_mgr x)) in
  let vm := si_vm_id s in
  let nc := si_network_config s in
  (∃ row, iv_vms v !! vm = Some row ∧ status row = restored_status resume ∧ network row = Some nc ∧ is_Some (pid row)
          ∧ (i = row ∨ ∃ u, i = vi_set_uds (Some u) row))
  ∧ (nc_mode nc ≠ bridge_mode → _uses_host_tap_networking (si_vm_config s) (si_backend s) = true →
     ∀ ip, guest_ip nc = Some ip → ∃ t, iv_ips v !! vm = Some (ip, t))
  ∧ (∀ q, ssh_host_port nc = Some q → iv_ports v !! vm = Some q)
  ∧ (∃ r, ss_view (g_state (sn_mgr x)) !! sid = Some r ∧ restored r = true ∧ restored_vm_id r = Some vm
          ∧ sn_dirs x !! sid ≫= sd_manifest = Some (Some r))
  ∧ (vm ∈ sn_paused x ↔ resume = false).

Lemma recorded_restored sid s p resume i x :
  plan_of s p → recorded sid (si_vm_id s) p resume i x → restored_state sid s resume i x.
Proof.
  intros (_ & Hn & Hb & Ht & _). unfold recorded, restored_state, leased, leased_ip, leased_port, is_bridged. rewrite Hn, Hb, Ht.
  intros ([Hip Hport] & Hrow & Hsnap & Hp). split_and!; try done. intros Hm. apply Hip. by apply bool_decide_eq_false.
Qed.

(** C9: a restore that returns has recorded the computer under its identity,
    running exactly if it was to be resumed, on the network of the snapshot, and
    holds the lease of that network's address and port; the snapshot is marked
    as restored in the inventory and in its manifest. *)
Theorem restore_records sid s x x' i resume force :
  sm_ok (g_state (sn_mgr x)) →
  (get_snapshot E X sid x).2 = Ret s →
  restore_snapshot E X sid resume force x = (x', Ret i) →
  restored_state sid s resume i x'.
Proof using SnapshotLaws0.
  intros Hok Hget Hrun.
  enough (wp (restore_snapshot E X sid resume force) (λ i, restored_state sid s resume i) (λ _ _, True) x) as H.
  { apply (wp_eq _ _ _ _ _ _ H Hrun). }
  refine (restore_enters E X sid s x resume force _ _ Hok Hget _ _); [done|]. clear Hrun x' i. intros existing p y [Hy _] Hp _. apply wp_try.
  eapply wp_mono; [apply body_records; [done|apply Hp]|intros i [z r] Hr; by eapply recorded_restored|].
  intros e [z r] _. unfold restore_rollback. apply wp_bind, wp_get, wp_on_snap. do 3 (apply then_raises; intros ?). by apply wp_raise.
Qed.
End leases.
