(* ===== verification/SnapshotProofs.v ===== *)
(** * Taking and deleting snapshots: theorems *)
From S2P Require Import Prelude PyHoare PyDict PyStr StorageBase Types MemoryState StateProtocol SnapshotStore.
From S2P Require Import NetworkSettings Channel EgressSession ConfigValidation.
From S2P Require Import Backends ManagerState ManagerHelpers ManagerRuntime ManagerCreate ManagerLifecycle ManagerFrames.
From S2P Require Import Snapshots SnapshotRestore SnapshotFrames RestoreOutcome.
From stdpp Require Import options.

(** ** The books: the rows and the snapshot records *)
Section books.
Context (E : menv) (X : senv) {St : Type} `{!StateManager St, !StateManagerLaws St, !SnapshotStore St, !SnapshotLaws St}.
Implicit Types (x : snapm St) (v : Inventory) (w : gmap string SnapshotInfo).
Local Abbreviation M := (py (snapm St)).

Definition booked v w x : Prop :=
  sm_ok (g_state (sn_mgr x)) ∧ sm_view (g_state (sn_mgr x)) = v ∧ ss_view (g_state (sn_mgr x)) = w.

Lemma booked_mgr {A} v w (m : py (mgr St) A) : (∀ st, keeps (records st) m) → keeps (booked v w) (on_mgr m).
Proof.
  intros Hm x Hx. apply wp_on_mgr. eapply wp_mono; [by apply (Hm (g_state (sn_mgr x)))|..];
    intros ? g Hg; unfold booked, records in *; simpl; by rewrite Hg.
Qed.
Lemma booked_modify v w f : (∀ x, sn_mgr (f x) = sn_mgr x) → keeps (booked v w) (py_modify f : M unit).
Proof. intros Hf. apply keeps_modify. intros x. unfold booked. by rewrite Hf. Qed.
Lemma booked_stick v w : keeps (booked v w) (stick : M nat).
Proof. apply booked_mgr. intros. apply records_tick. Qed.
Lemma booked_store {A} v w (m : py St A) :
  (∀ s, sm_ok s → wp m (λ _, same_all s) (λ _, same_all s) s) → keeps (booked v w) (on_store m).
Proof.
  intros Hm x (Hok & <- & <-). apply wp_on_mgr, wp_on_state. eapply wp_mono; [by apply Hm|..]; by intros ? s' Hs.
Qed.
Lemma booked_ss_list v w vm : keeps (booked v w) (on_store (ss_list vm)).
Proof. apply booked_store. intros s Hs. eapply wp_mono; [by apply law_ss_list|..]; naive_solver. Qed.
Lemma booked_ss_get v w sid : keeps (booked v w) (on_store (ss_get sid)).
Proof. apply booked_store. intros s Hs. eapply wp_mono; [by apply law_ss_get|..]; naive_solver. Qed.
Lemma same_all_get vm s : sm_ok s →
  wp (sm_get_vm vm) (λ i s', same_all s s' ∧ iv_vms (sm_view s) !! vm = Some i) (λ _, same_all s) s.
Proof.
  intros Hs. pose proof (law_get vm s Hs) as H. pose proof (frame_get_vm vm s) as Hf. unfold wp, same_all, same_view in *.
  destruct (sm_get_vm vm s) as [s' []]; simpl in Hf; naive_solver.
Qed.
Lemma booked_get v w vm : keeps (booked v w) (on_store (sm_get_vm vm)).
Proof. apply booked_store. intros s Hs. eapply wp_mono; [by apply same_all_get|..]; naive_solver. Qed.
End books.
#[export] Hint Resolve booked_stick booked_ss_list booked_ss_get booked_get : celesto.
#[export] Hint Extern 2 (keeps (booked _ _) (py_modify _)) => apply booked_modify; intros ?; reflexivity : celesto.
#[export] Hint Extern 3 (keeps (booked _ _) (on_mgr _)) => apply booked_mgr; intros ?; solve [eauto with celesto nocore] : celesto.

Section captures.
Context (E : menv) (X : senv) {St : Type} `{!StateManager St, !StateManagerLaws St, !SnapshotStore St, !SnapshotLaws St}.
Implicit Types (x : snapm St) (v : Inventory) (w : gmap string SnapshotInfo).
Local Abbreviation M := (py (snapm St)).

Lemma booked_command v w n vm : keeps (booked v w) (command X n vm : M unit).
Proof. unfold command. keeps_steps. Qed.
Hint Resolve booked_command : celesto.
Lemma booked_pause v w n vm : keeps (booked v w) (pause_guest X n vm : M unit).
Proof. unfold pause_guest. keeps_steps. Qed.
Lemma booked_resume v w n vm : keeps (booked v w) (resume_guest X n vm : M unit).
Proof. unfold resume_guest. keeps_steps. Qed.
Lemma booked_copy v w sid : keeps (booked v w) (copy_disk X sid : M unit).
Proof. unfold copy_disk. keeps_steps. Qed.
Lemma booked_captured v w d s m : keeps (booked v w) (captured X d s m : M _).
Proof. unfold captured. keeps_steps. Qed.
Hint Resolve booked_pause booked_resume booked_copy booked_captured : celesto.
Lemma booked_give_up {A} v w b q e : keeps (booked v w) (qemu_give_up X b q e : M A).
Proof. unfold qemu_give_up, qemu_drop. keeps_steps. Qed.
Hint Resolve booked_give_up : celesto.
Lemma booked_adapter v w b q : keeps (booked v w) (adapter_create_snapshot X b q : M _).
Proof.
  unfold adapter_create_snapshot, firecracker_create_snapshot, qemu_create_snapshot, qemu_save, qemu_drop. cbv zeta. keeps_steps.
Qed.
Lemma booked_rmtree v w sid : keeps (booked v w) (rmtree X sid : M unit).
Proof. unfold rmtree. keeps_steps. Qed.
Lemma booked_mkdir v w sid b : keeps (booked v w) (mkdir X sid b : M unit).
Proof. unfold mkdir. keeps_steps. Qed.
Hint Resolve booked_rmtree booked_mkdir : celesto.
Lemma booked_manifest v w s : keeps (booked v w) (_write_snapshot_manifest E X s : M unit).
Proof. unfold _write_snapshot_manifest. keeps_steps. Qed.
Lemma booked_clear v w vm sid : keeps (booked v w) (clear_snapshot_root X vm sid : M unit).
Proof. unfold clear_snapshot_root. keeps_steps. Qed.
Lemma booked_read v w sid : keeps (booked v w) (_read_snapshot_manifest E X sid : M _).
Proof. unfold _read_snapshot_manifest. keeps_steps. Qed.
Hint Resolve booked_read : celesto.
Lemma booked_loop v w vm sids found : keeps (booked v w) (manifest_loop E X vm sids found : M _).
Proof. revert found. induction sids; intros found; cbn [manifest_loop]; keeps_steps. Qed.
Hint Resolve booked_loop : celesto.
Lemma booked_list v w vm : keeps (booked v w) (list_snapshots E X vm : M _).
Proof. unfold list_snapshots. keeps_steps. Qed.
Hint Resolve booked_list : celesto.
Lemma booked_reconcile v w vm : keeps (booked v w) (reconcile_live_backups E X vm : M unit).
Proof. unfold reconcile_live_backups. keeps_steps. Qed.
Lemma booked_resume_guest v w b i : keeps (booked v w) (adapter_resume_guest E b i : M unit).
Proof.
  unfold adapter_resume_guest. apply keeps_bind; [|auto with celesto]. apply booked_mgr. intros st.
  unfold adapter_resume, monitor. keeps_steps.
Qed.

(** ** create_snapshot *)
(** The record of a snapshot of the row [i]. *)
Definition record_of (i : VMInfo) (sid : string) (t : SnapshotType) (s : SnapshotInfo) : Prop :=
  snapshot_id s = sid ∧ si_vm_id s = vi_vm_id i ∧ si_vm_config s = config i ∧ network i = Some (si_network_config s)
  ∧ snapshot_type s = t ∧ restored s = false.
(** The record is new, stored, and written beside its files. *)
Definition stored v w i sid t s x : Prop :=
  booked v (<[sid := s]> w) x ∧ w !! sid = None ∧ record_of i sid t s ∧ sn_dirs x !! sid ≫= sd_manifest = Some (Some s).
(** What a failure may leave: the books as they were, or the new record. *)
Definition maybe_stored v w i sid t x : Prop :=
  booked v w x ∨ ∃ s, booked v (<[sid := s]> w) x ∧ w !! sid = None ∧ record_of i sid t s.

Lemma capture_spec v w vm sid b i a x :
  booked v w x →
  wp (capture_and_store E X vm sid b i a) (λ sr, stored v w i sid (ca_type a) sr.1) (λ _, maybe_stored v w i sid (ca_type a)) x.
Proof using SnapshotLaws0.
  intros Hx. unfold capture_and_store.
  assert (∀ (e : exn) y, booked v w y → maybe_stored v w i sid (ca_type a) y) as Hearly by (intros; by left).
  apply wp_bind. eapply wp_mono; [by apply (booked_mkdir v w)| |exact Hearly]. clear x Hx. intros [] x Hx.
  apply wp_bind. eapply wp_mono; [by apply (booked_stick v w)| |exact Hearly]. clear x Hx. intros n x Hx.
  apply wp_bind. eapply wp_mono; [by apply (keeps_sraise_if (booked v w))| |exact Hearly]. clear x Hx. intros [] x Hx.
  apply wp_bind. eapply wp_mono; [by apply (booked_adapter v w)| |exact Hearly]. clear x Hx. intros r x Hx.
  apply wp_bind. eapply wp_mono with (Q := λ _, booked v w) (E := λ _, booked v w); [| |exact Hearly].
  { case_bool_decide; [by apply wp_return|]. by apply (keeps_bind (booked v w)); [auto with celesto..|]. }
  clear x Hx. intros [] x (Hok & Hv & Hw). destruct (network i) as [nc|] eqn:Hn; [|apply wp_raise; by left]. cbv zeta.
  set (s := snapshot_record sid b i nc (ca_type a) r).
  apply wp_bind, wp_on_mgr, wp_on_state. eapply wp_mono; [by apply law_ss_create|..]; cbv beta.
  - intros j st (-> & Hnone & Hok' & Hv' & Hw').
    set (y := sn_set_mgr (g_set_state st (sn_mgr x)) x).
    assert (booked v (<[sid := s]> w) y) as Hy by (unfold booked; simpl; rewrite Hv', Hw', Hv, Hw; done).
    assert (record_of i sid (ca_type a) s) as Hrec by (by repeat split).
    assert (w !! sid = None) as Hwn by (rewrite <- Hw; exact Hnone).
    apply wp_bind. eapply wp_mono with (Q := λ _, stored v w i sid (ca_type a) s) (E := λ _, maybe_stored v w i sid (ca_type a));
      [|intros [] z Hz; by apply wp_return|done].
    assert (∀ z, g_state (sn_mgr z) = st → booked v (<[sid := s]> w) z) as Hst by (unfold booked in *; intros z ->; exact Hy).
    eapply wp_mono; [eapply wp_conj; [by apply (manifest_spec E X s st)|by apply (booked_manifest v (<[sid := s]> w))]|..].
    + intros [] z [(Hz & _ & Hd) _]. split; [by apply Hst|]. split; [done|]. split; [done|]. exact Hd.
    + intros e z [_ Hz]. right. eauto.
  - intros e st [(Hok' & Hv' & Hw') _]. left. unfold booked. simpl. rewrite Hv', Hw'. done.
Qed.

(** Setting the status a row has changes nothing. *)
Lemma booked_status v w vm i st :
  iv_vms v !! vm = Some i → status i = st → keeps (booked v w) (on_store (sm_update_vm vm (u_with_status st))).
Proof.
  intros Hi <- x (Hok & Hv & Hw). apply wp_on_mgr, wp_on_state.
  pose proof (law_update vm (u_with_status (status i)) _ Hok) as Hl.
  pose proof (frame_update_vm vm (u_with_status (status i)) (g_state (sn_mgr x))) as Hf.
  unfold wp in *. destruct (sm_update_vm vm _ _) as [s' [j|e]]; simpl in Hf; unfold booked; simpl; rewrite Hf.
  - destruct Hl as (Hok' & i0 & Hi0 & -> & Hv'). split; [done|]. split; [|done]. rewrite Hv in Hi0, Hv'.
    assert (i0 = i) as -> by congruence. rewrite Hv'. destruct v as [vms ips ports cids taps]. unfold iv_set_vms. simpl in *. f_equal.
    apply insert_id. rewrite Hi. by destruct i.
  - destruct Hl as [Hok' Hv']. by rewrite Hv'.
Qed.

Lemma remove_root_keeps (I : snapm St → Prop) sid e x :
  keeps I (rmtree X sid : M unit) → I x → wp (remove_failed_root X sid e) (λ _, I) (λ _ _, False) x.
Proof.
  intros Hk Hx.
  assert (wp (py_try (do! rmtree X sid in py_return (true, None))
              (λ e', if bool_decide (e' = no_such_file) then py_return (true, None) else py_return (false, Some e')) : M _)
            (λ _, I) (λ _ _, False) x) as Hrm.
  { apply wp_try, wp_bind. eapply wp_mono; [by apply Hk|intros [] z Hz; by apply wp_return|].
    intros e' z Hz. case_bool_decide; by apply wp_return. }
  unfold remove_failed_root. destruct e; try exact Hrm. by apply wp_return.
Qed.
Lemma rollback_books {A} v w vm sid b i a persisted e x :
  iv_vms v !! vm = Some i → (persisted = true → w !! sid = None) → maybe_stored v w i sid (ca_type a) x →
  wp (snapshot_rollback E X persisted vm sid b i a e) (λ (_ : A) _, False) (λ _, maybe_stored v w i sid (ca_type a)) x.
Proof using SnapshotLaws0.
  intros Hi Hper Hx. unfold snapshot_rollback. set (I := maybe_stored v w i sid (ca_type a)).
  assert (∀ B (m : M B), (∀ w', keeps (booked v w') m) → keeps I m) as Hbooked.
  { intros B m Hm y [Hy|(s & Hy & Hs)].
    - eapply wp_mono; [apply (Hm _ y Hy)|..]; intros ? z Hz; by left.
    - eapply wp_mono; [apply (Hm _ y Hy)|..]; intros ? z Hz; right; by exists s. }
  apply wp_bind. eapply wp_mono with (Q := λ _, I) (E := λ _ _, False); [| |done].
  { apply remove_root_keeps; [|done]. apply Hbooked. intros. apply booked_rmtree. }
  clear x Hx. intros [removed failure] x Hx. simpl.
  apply wp_bind. eapply wp_mono with (Q := λ _, I) (E := λ _ _, False); [| |done].
  { apply wp_when; [intros [Hp _]%andb_true_iff|done]. specialize (Hper Hp). apply wp_suppress, wp_on_mgr, wp_on_state.
    assert (∀ w', ss_view (g_state (sn_mgr x)) = w' → w' = w ∨ (∃ s, w' = <[sid := s]> w) → base.delete sid w' = w) as Hdel.
    { intros w' _ [->|[s ->]]; [by apply delete_id|by apply delete_insert_id]. }
    destruct Hx as [(Hok & Hv & Hw)|(s & (Hok & Hv & Hw) & Hn & Hr)];
      (eapply wp_mono; [by apply law_ss_delete|..]; cbv beta).
    - intros [] st (Hok' & Hv' & Hw'). left. unfold booked. simpl. rewrite Hv', Hw', Hw, (Hdel _ Hw); eauto.
    - intros e' st (Hok' & Hv' & Hw'). left. unfold booked. simpl. by rewrite Hv', Hw'.
    - intros [] st (Hok' & Hv' & Hw'). left. unfold booked. simpl. rewrite Hv', Hw', Hw, (Hdel _ Hw); eauto.
    - intros e' st (Hok' & Hv' & Hw'). right. exists s. unfold booked. simpl. by rewrite Hv', Hw'. }
  clear x Hx. intros [] x Hx.
  apply wp_bind. eapply wp_mono with (Q := λ _, I) (E := λ _ _, False); [| |done].
  { apply wp_when; [intros [Hst _]%andb_true_iff|done]. bool_hyps. apply wp_suppress.
    eapply wp_mono with (Q := λ _, I) (E := λ _, I); [|by intros []..|by intros].
    apply Hbooked; [|done]. intros w'. apply keeps_bind; [apply booked_resume_guest|]. intros _. apply keeps_bind; [|auto with celesto].
    by eapply booked_status. }
  clear x Hx. intros [] x Hx. by apply wp_raise.
Qed.

(** The whole call: on a return the record is stored and written and the row
    has at most a new status; on an exception the rows are as they were. *)
Definition snapshot_taken v w vm sid t s x : Prop :=
  sm_ok (g_state (sn_mgr x)) ∧ ∃ i st, iv_vms v !! vm = Some i ∧ record_of i sid t s ∧ w !! sid = None
    ∧ sm_view (g_state (sn_mgr x)) = iv_set_vms <[vm := apply_vm_update (u_with_status st) i]> v
    ∧ ss_view (g_state (sn_mgr x)) = <[sid := s]> w
    ∧ sn_dirs x !! sid ≫= sd_manifest = Some (Some s).
Definition snapshot_failed v w vm sid t x : Prop :=
  sm_ok (g_state (sn_mgr x)) ∧ sm_view (g_state (sn_mgr x)) = v
  ∧ (ss_view (g_state (sn_mgr x)) = w
     ∨ ∃ i s, iv_vms v !! vm = Some i ∧ record_of i sid t s ∧ w !! sid = None ∧ ss_view (g_state (sn_mgr x)) = <[sid := s]> w).

Lemma failed_of v w vm i sid t x : iv_vms v !! vm = Some i → maybe_stored v w i sid t x → snapshot_failed v w vm sid t x.
Proof. intros Hi [(? & Hv & Hw)|(s & (? & Hv & Hw) & Hn & Hr)]; (do 2 (split; [done|])); [by left|right; by exists i, s]. Qed.

Lemma finish_spec v w vm sid b i a s r x :
  iv_vms v !! vm = Some i → stored v w i sid (ca_type a) s x →
  wp (finish_snapshot E X vm b i a s r) (λ s', snapshot_taken v w vm sid (ca_type a) s') (λ _, maybe_stored v w i sid (ca_type a)) x.
Proof using SnapshotLaws0.
  intros Hi (Hx & Hn & Hr & Hd). unfold finish_snapshot. set (I := λ y, booked v (<[sid := s]> w) y ∧ sn_dirs y = sn_dirs x).
  assert (I x) as HI by done.
  assert (∀ m : py (mgr St) unit, (∀ st, keeps (records st) m) → keeps I (on_mgr m)) as Hmgr.
  { intros m Hm y [Hy Hyd]. pose proof (booked_mgr v (<[sid := s]> w) m Hm y Hy) as Hb. unfold wp, on_mgr in *.
    destruct (m (sn_mgr y)) as [g []]; by split. }
  apply wp_bind. eapply wp_mono with (Q := λ _, I) (E := λ _ _, False); [| |done].
  { apply wp_when; [intros _|done]. apply wp_suppress. eapply wp_mono with (Q := λ _, I) (E := λ _, I); [|by intros []..|by intros].
    apply (keeps_bind I); [|auto with celesto|done]. intros y Hy. unfold stick. apply wp_on_mgr, wp_tick. done. }
  intros [] y Hy. apply wp_bind. eapply wp_mono with (Q := λ _, I) (E := λ _ _, False); [| |done].
  { destruct (_ && _); [|by apply wp_return]. apply wp_try.
    eapply wp_mono with (Q := λ _, I) (E := λ _, I); [|by intros|intros e z Hz; by apply wp_return].
    apply (keeps_bind I); [|auto with celesto|done]. unfold adapter_resume_guest. apply keeps_bind; [|intros _; by apply keeps_modify].
    apply Hmgr. intros st. unfold adapter_resume, monitor. keeps_steps. }
  clear y Hy. intros st y [(Hok & Hv & Hw) Hyd]. apply wp_bind, wp_on_mgr, wp_on_state.
  pose proof (law_update vm (u_with_status st) _ Hok) as Hl.
  pose proof (frame_update_vm vm (u_with_status st) (g_state (sn_mgr y))) as Hf.
  unfold wp at 1 in Hl. unfold wp at 1. destruct (sm_update_vm vm _ _) as [s' [j|e]]; simpl in Hf.
  - destruct Hl as (Hok' & i0 & Hi0 & -> & Hv'). apply wp_return. rewrite Hv in Hi0. assert (i0 = i) as -> by congruence.
    split; [done|]. exists i, st. simpl. rewrite Hf, Hw, Hv', Hv, Hyd. done.
  - destruct Hl as [Hok' Hv']. right. exists s. unfold booked. simpl. rewrite Hf, Hv'. done.
Qed.

Lemma locked_spec v w vm sid a x :
  booked v w x →
  wp (_create_snapshot_locked E X vm sid a) (λ s, snapshot_taken v w vm sid (ca_type a) s) (λ _, snapshot_failed v w vm sid (ca_type a)) x.
Proof using SnapshotLaws0.
  intros Hx. unfold _create_snapshot_locked.
  assert (∀ (e : exn) y, booked v w y → snapshot_failed v w vm sid (ca_type a) y) as Hearly by (intros e y (? & ? & ?); split; auto).
  apply wp_bind. eapply wp_mono with (Q := λ i y, booked v w y ∧ iv_vms v !! vm = Some i) (E := λ _, booked v w); [| |exact Hearly].
  { apply wp_on_mgr, wp_on_state. destruct Hx as (Hok & Hv & Hw). eapply wp_mono; [by apply same_all_get|..]; cbv beta;
      [intros i s' [(? & Hv' & Hw') Hi]|intros e s' (? & Hv' & Hw')]; unfold booked; simpl; rewrite Hv', Hw', ?Hv, ?Hw; [|done].
    by rewrite Hv in Hi. }
  clear x Hx. intros i x [Hx Hi].
  apply wp_bind, wp_lift; [intros b _|intros e _; by apply (Hearly e)].
  apply wp_bind, wp_on_mgr, wp_lift; [intros [] _|intros e _; apply (Hearly e); by destruct x].
  replace (sn_set_mgr (sn_mgr x) x) with x by (by destruct x).
  apply wp_bind. eapply wp_mono with (Q := λ _, booked v w) (E := λ _, booked v w); [| |exact Hearly].
  { apply (keeps_when (booked v w)); [apply booked_reconcile|done]. }
  clear x Hx. intros [] x Hx. apply wp_bind. eapply wp_mono with (Q := λ _, booked v w) (E := λ _, booked v w); [| |exact Hearly].
  { apply (keeps_try (booked v w)); [|intros e; destruct (is_not_found e); auto with celesto|done]. apply keeps_bind; auto with celesto. }
  clear x Hx. intros [] x Hx. apply wp_bind. eapply wp_mono; [by apply (booked_clear v w)| |exact Hearly].
  clear x Hx. intros [] x Hx. apply wp_bind, wp_try. eapply wp_mono; [by apply (capture_spec v w)|..].
  - clear x Hx. intros [s r] x Hs. simpl in Hs. apply wp_try. eapply wp_mono; [by apply (finish_spec v w)|done|].
    intros e y Hy. eapply wp_mono; [apply (rollback_books v w); [exact Hi|intros _; apply Hs|exact Hy]|done|].
    intros ? z. by apply failed_of.
  - intros e y Hy. eapply wp_mono; [apply (rollback_books v w); [exact Hi|done|exact Hy]|done|].
    intros ? z. by apply failed_of.
Qed.

Lemma create_snapshot_spec vm sid timeout_ok a x :
  sm_ok (g_state (sn_mgr x)) →
  let v := sm_view (g_state (sn_mgr x)) in
  let w := ss_view (g_state (sn_mgr x)) in
  let id := chosen_id X vm sid (g_calls (sn_mgr x)) in
  wp (create_snapshot E X vm sid timeout_ok a) (λ s, snapshot_taken v w vm id (ca_type a) s)
    (λ _, snapshot_failed v w vm id (ca_type a)) x.
Proof using SnapshotLaws0.
  intros Hok v w id. assert (booked v w x) as Hx by done. clearbody v w. unfold create_snapshot.
  assert (∀ (e : exn) y, booked v w y → snapshot_failed v w vm id (ca_type a) y) as Hearly by (intros e y (? & ? & ?); split; auto).
  do 3 (apply wp_bind, wp_lift; [intros [] _|intros e _; by apply (Hearly e)]).
  apply wp_bind. unfold stick. apply wp_on_mgr, wp_tick. cbv zeta. fold id.
  apply wp_bind, wp_lift; [intros [] _|intros e _; by apply (Hearly e)]. by apply locked_spec.
Qed.
(** C11: a snapshot that is taken is a new record of the computer's
    configuration and network, in the inventory and in its manifest, and the
    computer's row has at most a new status; when taking it fails, whatever
    failed, every row is as it was and at most the new record remains. *)
Theorem create_snapshot_exact vm sid timeout_ok a x x' r :
  sm_ok (g_state (sn_mgr x)) →
  create_snapshot E X vm sid timeout_ok a x = (x', r) →
  let v := sm_view (g_state (sn_mgr x)) in
  let w := ss_view (g_state (sn_mgr x)) in
  let id := chosen_id X vm sid (g_calls (sn_mgr x)) in
  match r with
  | Ret s => snapshot_taken v w vm id (ca_type a) s x'
  | Raise _ => snapshot_failed v w vm id (ca_type a) x'
  end.
Proof using SnapshotLaws0. intros Hok Hrun. exact (wp_eq _ _ _ _ _ _ (create_snapshot_spec vm sid timeout_ok a x Hok) Hrun). Qed.
(** The inventory stays well formed. *)
Lemma create_ok vm sid timeout_ok a x :
  sm_ok (g_state (sn_mgr x)) → sm_ok (g_state (sn_mgr (create_snapshot E X vm sid timeout_ok a x).1)).
Proof using SnapshotLaws0.
  intros Hok. pose proof (create_snapshot_spec vm sid timeout_ok a x Hok) as H. unfold wp in H.
  destruct (create_snapshot E X vm sid timeout_ok a x) as [y []]; apply H.
Qed.
End captures.

(** ** delete_snapshot *)
Section deletes.
Context (E : menv) (X : senv) {St : Type} `{!StateManager St, !StateManagerLaws St, !SnapshotStore St, !SnapshotLaws St}.
Context (sid : string) (present : ∀ n d, x_rmtree X n sid ≠ Some (no_such_file, d)).
Implicit Types (x : snapm St) (v : Inventory) (w : gmap string SnapshotInfo).
Local Abbreviation M := (py (snapm St)).

(** A manifest names its directory. *)
Definition well_named x : Prop :=
  ∀ id d s, sn_dirs x !! id = Some d → sd_manifest d = Some (Some s) → snapshot_id s = id.

(** The books and the directories. *)
Definition shelves v w ds x : Prop := booked v w x ∧ sn_dirs x = ds.
(** The same but for [sid]. *)
Definition spared v w ds x : Prop :=
  sm_ok (g_state (sn_mgr x)) ∧ sm_view (g_state (sn_mgr x)) = v
  ∧ base.delete sid (ss_view (g_state (sn_mgr x))) = base.delete sid w ∧ base.delete sid (sn_dirs x) = base.delete sid ds.

Lemma shelves_spared v w ds x : shelves v w ds x → spared v w ds x.
Proof. intros [(Hok & Hv & Hw) Hd]. unfold spared. by rewrite Hv, Hw, Hd. Qed.
Lemma get_exact v w ds x :
  well_named x → shelves v w ds x →
  wp (get_snapshot E X sid)
    (λ s x', shelves v (<[sid := s]> w) ds x' ∧ (w !! sid = Some s ∨ w !! sid = None)) (λ e x', shelves v w ds x' ∧ (is_not_found e = true → w !! sid = None)) x.
Proof using SnapshotLaws0.
  intros Hnamed [(Hok & Hv & Hw) Hd]. unfold get_snapshot. apply wp_try, wp_on_mgr, wp_on_state.
  eapply wp_mono; [by apply law_ss_get|..]; cbv beta.
  - intros s st [(Hok' & Hv' & Hw') Hs]. rewrite Hw in Hs. split; [|by left]. split; [|done].
    unfold booked. simpl. by rewrite Hv', Hw', Hv, Hw, insert_id.
  - intros e st [(Hok' & Hv' & Hw') Hn]. destruct (is_not_found e) eqn:He.
    2:{ apply wp_raise. split; [|congruence]. split; [|done]. unfold booked. simpl. by rewrite Hv', Hw'. }
    assert (w !! sid = None) as Hnone by (destruct e; try done; rewrite <- Hw; by eapply Hn).
    set (y := sn_set_mgr (g_set_state st (sn_mgr x)) x).
    assert (shelves v w ds y) as Hy by (split; [unfold booked; simpl; by rewrite Hv', Hw'|done]).
    assert (∀ e, shelves v w ds y ∧ (is_not_found e = true → w !! sid = None)) as Hout by done.
    apply wp_bind. unfold _read_snapshot_manifest. apply wp_bind, wp_lift; [intros [] _|intros e2 _; apply Hout].
    apply wp_bind, wp_get. simpl. destruct (sn_dirs x !! sid) as [d|] eqn:Hdir; [|apply wp_raise, Hout].
    simpl. destruct (sd_manifest d) as [[s|]|] eqn:Hm; [|apply wp_raise, Hout..]. apply wp_return.
    pose proof (Hnamed _ _ _ Hdir Hm) as Hid. apply wp_bind, wp_try, wp_bind, wp_on_mgr, wp_on_state.
    eapply wp_mono; [by apply law_ss_create|..]; cbv beta; simpl.
    + intros j st2 (-> & _ & Hok2 & Hv2 & Hw2). apply wp_return, wp_return. split; [|by right]. split; [|done]. unfold booked. simpl.
      rewrite Hv2, Hv', Hw2, Hw', Hid, Hw. done.
    + intros e2 st2 [(Hok2 & Hv2 & Hw2) Hex]. destruct e2; try (apply wp_raise; split; [|done]; split; [|done]; unfold booked; simpl; by rewrite Hv2, Hv', Hw2, Hw').
      destruct (Hex _ eq_refl) as [i Hi]. rewrite Hid, Hw', Hw in Hi. congruence.
Qed.

(** No computer that runs from the snapshot is active. *)
Definition idle v (s : SnapshotInfo) : Prop :=
  ∀ vm i, restored s = true → restored_vm_id s = Some vm → vm ≠ "" → iv_vms v !! vm = Some i → status i ∉ [RUNNING; PAUSED].
Lemma refuse_spec v w ds s m x :
  shelves v w ds x → wp (refuse_if_active s m) (λ _ x', shelves v w ds x' ∧ idle v s) (λ _, shelves v w ds) x.
Proof using SnapshotLaws0.
  intros [(Hok & Hv & Hw) Hd]. unfold refuse_if_active.
  destruct (restored s && truthy_str (restored_vm_id s)) eqn:Hr.
  2:{ apply wp_return. split; [done|]. intros vm i Hrs Hvm Hne _. rewrite Hrs, Hvm in Hr. simpl in Hr. bool_hyps. done. }
  bool_hyps. apply wp_try, wp_bind, wp_on_mgr, wp_on_state. eapply wp_mono with (E := λ e s', same_all (g_state (sn_mgr x)) s'
      ∧ ∀ k, e = VMNotFoundError k → iv_vms v !! default "" (restored_vm_id s) = None).
  { eapply wp_conj; [by apply same_all_get|]. eapply wp_mono; [by apply law_get|..]; cbv beta.
    - intros. exact I.
    - intros e s' [_ Hn]. rewrite <- Hv. exact Hn. }
  - intros r st [[(Hok' & Hv' & Hw') Hi] _].
    assert (shelves v w ds (sn_set_mgr (g_set_state st (sn_mgr x)) x)) as Hy by (split; [unfold booked; simpl; by rewrite Hv', Hw'|done]).
    apply wp_lift; unfold guard_raise; case_bool_decide as Hs; [done| |intros e [= <-]; by apply wp_raise|done]. intros [] _. split; [done|].
    intros vm i _ Hvm _ Hrow. rewrite Hvm in Hi. simpl in Hi. rewrite Hv in Hi. by simplify_eq.
  - intros e st [(Hok' & Hv' & Hw') Hn].
    assert (shelves v w ds (sn_set_mgr (g_set_state st (sn_mgr x)) x)) as Hy by (split; [unfold booked; simpl; by rewrite Hv', Hw'|done]).
    destruct e; try (by apply wp_raise). apply wp_return. split; [done|]. intros vm i _ Hvm _ Hrow.
    specialize (Hn _ eq_refl). rewrite Hvm in Hn. simpl in Hn. congruence.
Qed.
Lemma rmtree_spec v w ds x :
  shelves v w ds x →
  wp (rmtree X sid) (λ _, shelves v w (base.delete sid ds))
    (λ e x', booked v w x' ∧ base.delete sid (sn_dirs x') = base.delete sid ds ∧ (e = no_such_file → sn_dirs x' !! sid = None)) x.
Proof using present.
  intros [Hb Hd]. unfold rmtree. apply wp_bind, wp_get. destruct (sn_dirs x !! sid) as [d|] eqn:Hdir.
  2:{ apply wp_raise. split; [done|]. split; [by rewrite Hd|done]. }
  apply wp_bind. unfold stick. apply wp_on_mgr, wp_tick. destruct (x_rmtree X _ sid) as [[e left_over]|] eqn:Hrm.
  - apply wp_bind, wp_modify, wp_raise. split; [done|]. simpl. rewrite delete_insert_eq, Hd. split; [done|].
    intros ->. by apply present in Hrm.
  - apply wp_modify. split; [done|]. simpl. by rewrite Hd.
Qed.

(** What is left of the snapshot: nothing on a return, its record on an
    exception; the rest is as it was. *)
Definition delete_done v w ds x : Prop :=
  spared v w ds x ∧ ss_view (g_state (sn_mgr x)) !! sid = None ∧ sn_dirs x !! sid = None.
Definition delete_failed v w ds x : Prop :=
  spared v w ds x ∧ ∀ s, w !! sid = Some s → ss_view (g_state (sn_mgr x)) !! sid = Some s.

Lemma failed_shelves v w ds s x : (w !! sid = Some s ∨ w !! sid = None) → booked v (<[sid := s]> w) x →
  base.delete sid (sn_dirs x) = base.delete sid ds → delete_failed v w ds x.
Proof.
  intros Hs (Hok & Hv & Hw) Hd. split.
  - unfold spared. rewrite Hv, Hw, delete_insert_eq. done.
  - rewrite Hw. intros t Ht. rewrite lookup_insert_eq. destruct Hs; congruence.
Qed.
Lemma remove_snapshot_spec v w ds s x :
  (w !! sid = Some s ∨ w !! sid = None) → shelves v (<[sid := s]> w) ds x →
  wp (do! refuse_if_active s "Cannot delete snapshot while restored computer is active" in
      do! py_try (rmtree X sid) (λ e, if bool_decide (e = no_such_file) then py_return tt else py_raise e) in
      on_store (ss_delete sid))
    (λ _ x', delete_done v w ds x' ∧ idle v s) (λ _, delete_failed v w ds) x.
Proof using present SnapshotLaws0.
  intros Hs Hx. apply wp_bind. eapply wp_mono; [by apply refuse_spec| |].
  2:{ intros e y [Hy Hd]. eapply failed_shelves; [done..|]. by rewrite Hd. }
  clear x Hx. intros [] x [Hx Hidle]. apply wp_bind.
  eapply wp_mono with (Q := λ _ y, booked v (<[sid := s]> w) y ∧ base.delete sid (sn_dirs y) = base.delete sid ds ∧ sn_dirs y !! sid = None)
    (E := λ _ y, booked v (<[sid := s]> w) y ∧ base.delete sid (sn_dirs y) = base.delete sid ds).
  { apply wp_try. eapply wp_mono; [by apply rmtree_spec|..].
    - intros [] y [Hy Hd]. rewrite Hd. split; [done|]. by rewrite delete_delete_eq, lookup_delete_eq.
    - intros e y (Hy & Hd & Hn). case_bool_decide; [apply wp_return|by apply wp_raise]. auto. }
  2:{ intros e y [Hy Hd]. by eapply failed_shelves. }
  clear x Hx. intros [] x ((Hok & Hv & Hw) & Hd & Hn). apply wp_on_mgr, wp_on_state.
  eapply wp_mono; [by apply law_ss_delete|..]; cbv beta.
  - intros [] st (Hok' & Hv' & Hw'). split; [|done]. unfold delete_done, spared. simpl.
    rewrite Hv', Hw', Hv, Hw, Hd, delete_delete_eq, delete_insert_eq, lookup_delete_eq. done.
  - intros e st (Hok' & Hv' & Hw'). eapply failed_shelves; [done| |exact Hd]. unfold booked. simpl. rewrite Hv', Hw'. done.
Qed.

(** C12: a snapshot that is deleted is gone from the inventory and from the
    disk, and no computer that runs from it was active; when deleting fails its
    record is still there; either way every computer and every other snapshot
    is as it was. *)
Theorem delete_snapshot_exact x x' r :
  sm_ok (g_state (sn_mgr x)) → well_named x →
  delete_snapshot E X sid x = (x', r) →
  let v := sm_view (g_state (sn_mgr x)) in
  let w := ss_view (g_state (sn_mgr x)) in
  match r with
  | Ret _ => delete_done v w (sn_dirs x) x' ∧ ∀ s, w !! sid = Some s → idle v s
  | Raise _ => delete_failed v w (sn_dirs x) x'
  end.
Proof using present SnapshotLaws0.
  intros Hok Hnamed Hrun v w. assert (shelves v w (sn_dirs x) x) as Hx by done.
  refine (wp_eq _ (λ _ y, delete_done v w (sn_dirs x) y ∧ ∀ s, w !! sid = Some s → idle v s) (λ _, delete_failed v w (sn_dirs x)) _ _ _ _ Hrun).
  clear Hrun. unfold delete_snapshot.
  assert (∀ y, shelves v w (sn_dirs x) y → delete_failed v w (sn_dirs x) y) as Hsame.
  { intros y Hy. split; [by apply shelves_spared|]. destruct Hy as [(_ & _ & ->) _]. done. }
  apply wp_bind, wp_lift; [intros [] _|intros; by apply Hsame]. apply wp_bind, wp_try, wp_bind.
  eapply wp_mono; [by apply (get_exact v w)|..]; cbv beta.
  - intros s y [Hy Hs]. apply wp_return. eapply wp_mono; [by apply (remove_snapshot_spec v w)| |done].
    intros [] z [Hz Hi]. split; [done|]. intros t Ht. destruct Hs as [Hs|Hs]; [|congruence]. by simplify_eq.
  - intros e y [Hy Hn]. destruct (is_not_found e); [|apply wp_raise; by apply Hsame]. specialize (Hn eq_refl).
    apply wp_bind, wp_get. destruct (adopted X sid y); [|apply wp_raise; by apply Hsame]. apply wp_bind.
    eapply wp_mono; [by apply (rmtree_spec v w)|..]; cbv beta.
    + intros [] z [(Hokz & Hvz & Hwz) Hd]. apply wp_return, wp_return. split; [|by intros s Hs; congruence].
      unfold delete_done, spared. rewrite Hvz, Hwz, Hd, delete_delete_eq, lookup_delete_eq. done.
    + intros e' z ((Hokz & Hvz & Hwz) & Hd & _). unfold delete_failed, spared. by rewrite Hvz, Hwz, Hd.
Qed.
End deletes.
