(* ===== verification/SnapshotStatus.v ===== *)
(** * Taking a snapshot: the guest and the recorded status agree *)
From S2P Require Import Prelude PyHoare PyDict PyStr StorageBase Types MemoryState StateProtocol SnapshotStore.
From S2P Require Import NetworkSettings Channel EgressSession ConfigValidation.
From S2P Require Import Backends ManagerState ManagerHelpers ManagerRuntime ManagerCreate ManagerLifecycle ManagerFrames.
From S2P Require Import Snapshots SnapshotRestore SnapshotFrames RestoreOutcome SnapshotProofs.
From stdpp Require Import options.

Section status.
Context (E : menv) (X : senv) {St : Type} `{!StateManager St, !StateManagerLaws St, !SnapshotStore St, !SnapshotLaws St}.
Implicit Types (x y : snapm St) (ps : gset string).
Local Abbreviation M := (py (snapm St)).

(** ** The rows *)
Definition rows (v : Inventory) x : Prop := sm_ok (g_state (sn_mgr x)) ∧ sm_view (g_state (sn_mgr x)) = v.
Lemma rows_booked {A} v (m : M A) : (∀ w, keeps (booked v w) m) → keeps (rows v) m.
Proof.
  intros Hm x [Hok Hv]. eapply wp_mono; [by apply (Hm (ss_view (g_state (sn_mgr x))))|..]; by intros ? y (? & ? & _).
Qed.
Lemma rows_create v s : keeps (rows v) (on_store (ss_create s)).
Proof using SnapshotLaws0.
  intros x [Hok Hv]. apply wp_on_mgr, wp_on_state. eapply wp_mono; [by apply law_ss_create|..]; cbv beta; unfold rows; simpl.
  - intros j st (_ & _ & ? & Hv' & _). by rewrite Hv'.
  - intros e st [(? & Hv' & _) _]. by rewrite Hv'.
Qed.
Lemma rows_delete v sid : keeps (rows v) (on_store (ss_delete sid)).
Proof using SnapshotLaws0.
  intros x [Hok Hv]. apply wp_on_mgr, wp_on_state. eapply wp_mono; [by apply law_ss_delete|..]; cbv beta; unfold rows; simpl.
  - intros j st (? & Hv' & _). by rewrite Hv'.
  - intros e st (? & Hv' & _). by rewrite Hv'.
Qed.
Hint Resolve rows_create rows_delete : celesto.
Hint Resolve booked_mkdir booked_adapter booked_manifest booked_rmtree booked_resume_guest : celesto.
Hint Extern 5 (keeps (rows _) _) => apply rows_booked; intros ?; solve [eauto with celesto nocore] : celesto.

Lemma rows_capture v vm sid b i a : keeps (rows v) (capture_and_store E X vm sid b i a).
Proof using SnapshotLaws0. unfold capture_and_store. cbv zeta. keeps_steps. Qed.
Lemma rows_rollback {A} v vm sid b i a p e :
  iv_vms v !! vm = Some i → keeps (rows v) (snapshot_rollback E X p vm sid b i a e : M A).
Proof using SnapshotLaws0.
  intros Hi. unfold snapshot_rollback. apply keeps_bind; [unfold remove_failed_root; destruct e; keeps_steps|]. intros rm.
  apply keeps_bind; [keeps_steps|intros _]. apply keeps_bind; [|intros _; keeps_steps]. destruct (bool_decide (status i = RUNNING)) eqn:Hs; [|apply keeps_return]. bool_hyps.
  apply keeps_when. keeps_steps. apply rows_booked. intros w. by eapply booked_status.
Qed.

(** ** The pauses *)
Definition paused ps x : Prop := sn_paused x = ps.
Lemma paused_mgr {A} ps (m : py (mgr St) A) : keeps (paused ps) (on_mgr m).
Proof. intros x Hx. apply wp_on_mgr. by apply wp_intro. Qed.
Lemma paused_store {A} ps (m : py St A) : keeps (paused ps) (on_store m).
Proof. apply paused_mgr. Qed.
Lemma paused_modify ps f : (∀ x, sn_paused (f x) = sn_paused x) → keeps (paused ps) (py_modify f : M unit).
Proof. intros Hf. apply keeps_modify. unfold paused. intros x. by rewrite Hf. Qed.
Hint Resolve paused_mgr paused_store : celesto.
Hint Extern 2 (keeps (paused _) (py_modify _)) => apply paused_modify; intros ?; reflexivity : celesto.
Lemma paused_stick ps : keeps (paused ps) (stick : M nat).
Proof. apply paused_mgr. Qed.
Hint Resolve paused_stick : celesto.
Lemma paused_command ps n vm : keeps (paused ps) (command X n vm : M unit).
Proof. unfold command. keeps_steps. Qed.
Lemma paused_copy ps sid : keeps (paused ps) (copy_disk X sid : M unit).
Proof. unfold copy_disk. keeps_steps. Qed.
Lemma paused_mkdir ps sid b : keeps (paused ps) (mkdir X sid b : M unit).
Proof. unfold mkdir. keeps_steps. Qed.
Hint Resolve paused_command paused_copy paused_mkdir : celesto.
Lemma paused_manifest ps s : keeps (paused ps) (_write_snapshot_manifest E X s : M unit).
Proof. unfold _write_snapshot_manifest. keeps_steps. Qed.
Lemma paused_rmtree ps sid : keeps (paused ps) (rmtree X sid : M unit).
Proof. unfold rmtree. keeps_steps. Qed.
Hint Resolve paused_manifest paused_rmtree : celesto.
Lemma paused_clear ps vm sid : keeps (paused ps) (clear_snapshot_root X vm sid : M unit).
Proof. unfold clear_snapshot_root. keeps_steps. Qed.
Lemma paused_loop ps vm sids found : keeps (paused ps) (manifest_loop E X vm sids found : M _).
Proof. revert found. induction sids; intros found; cbn [manifest_loop]; unfold _read_snapshot_manifest; keeps_steps. Qed.
Hint Resolve paused_loop : celesto.
Lemma paused_reconcile ps vm : keeps (paused ps) (reconcile_live_backups E X vm : M unit).
Proof. unfold reconcile_live_backups, list_snapshots. keeps_steps. Qed.

(** ** The adapters *)
Section one.
Context (i : VMInfo) (sid b : string) (a : create_args).
Local Abbreviation vm := (vi_vm_id i).
Local Abbreviation q := {| q_info := i; q_snapshot := sid; q_original := status i; q_type := ca_type a; q_policy := ca_policy a |}.

(** The guest can be resumed through its control socket. *)
Definition resumable : bool :=
  String.eqb b BACKEND_QEMU || String.eqb b BACKEND_FIRECRACKER && is_some (control_socket_path i).
(** What is known of the guest when a step returns: it is paused exactly if the
    capture says so. *)
Definition agrees (st : VMState) y : Prop := vm ∈ sn_paused y ↔ st = PAUSED.
(** What the rollback relies on. *)
Definition recoverable y : Prop :=
  agrees (status i) y ∨ status i = RUNNING ∧ ca_policy a = ALLOW_PAUSE ∧ resumable = true.
(** What a capture that returned has established. *)
Definition capture_agrees (r : SnapshotCreateResult) y : Prop :=
  agrees (r_source_status r) y
  ∧ (status i = PAUSED ∧ r_source_status r = PAUSED
     ∨ status i = RUNNING ∧ ca_policy a = LIVE_ONLY ∧ r_source_status r = RUNNING
     ∨ status i = RUNNING ∧ ca_policy a = ALLOW_PAUSE ∧ r_source_status r = PAUSED ∧ resumable = true).

Lemma captured_status d s m ps x :
  paused ps x → wp (captured X d s m) (λ r y, r_source_status r = PAUSED ∧ paused ps y) (λ _ _, True) x.
Proof. intros Hx. unfold captured. apply wp_bind. eapply wp_mono; [by apply (paused_stick ps)| |done]. intros n y Hy. by apply wp_return. Qed.
Lemma pause_guest_spec n ps x :
  paused ps x → wp (pause_guest X n vm) (λ _, paused ({[vm]} ∪ ps)) (λ _ _, True) x.
Proof.
  intros Hx. unfold pause_guest. apply wp_bind. eapply wp_mono; [by apply (paused_command ps)| |done].
  intros [] y Hy. apply wp_modify. unfold paused in *. simpl. by rewrite Hy.
Qed.
(** After the pause, nothing that returns changes it. *)
Lemma fc_capture_paused ps x :
  paused ps x → ca_policy a = ALLOW_PAUSE →
  wp (firecracker_create_snapshot X q)
    (λ r y, r_source_status r = PAUSED ∧ is_some (control_socket_path i) = true
            ∧ paused (if bool_decide (status i = RUNNING) then {[vm]} ∪ ps else ps) y) (λ _ _, True) x.
Proof.
  intros Hx Hpol. unfold firecracker_create_snapshot. cbv zeta. simpl.
  apply wp_bind, wp_lift; [intros [] Hc|done].
  assert (is_some (control_socket_path i) = true) as Hsock by (unfold firecracker_client in Hc; by destruct (is_some _)).
  apply wp_bind. eapply wp_mono; [by apply (paused_stick ps)| |done]. clear x Hx. intros n x Hx.
  apply wp_bind, wp_lift; [intros [] _|done]. unfold was_running. simpl.
  set (ps' := if bool_decide (status i = RUNNING) then {[vm]} ∪ ps else ps).
  apply wp_bind. eapply wp_mono with (Q := λ _, paused ps') (E := λ _ _, True); [| |done].
  { unfold ps'. case_bool_decide; cbn [py_when]; [by apply pause_guest_spec|by apply wp_return]. }
  clear x Hx. intros [] x Hx.
  assert (∀ d s m y, paused ps' y → wp (do! copy_disk X sid in captured X d s m)
    (λ r y, r_source_status r = PAUSED ∧ is_some (control_socket_path i) = true ∧ paused ps' y) (λ _ _, True) y) as Hcopy.
  { intros d s m y Hy. apply wp_bind. eapply wp_mono; [by apply (paused_copy ps')| |done]. intros [] z Hz.
    eapply wp_mono; [by apply captured_status| |done]. by intros r z' [? ?]. }
  destruct (ca_type a); [| |by apply Hcopy]; (apply wp_bind; eapply wp_mono; [by apply (paused_command ps')| |done]); intros [] y Hy; by apply Hcopy.
Qed.

Lemma give_up_raises {A} saved e (Q : A → snapm St → Prop) x : wp (qemu_give_up X saved q e) Q (λ _ _, True) x.
Proof. unfold qemu_give_up. do 2 (apply then_raises; intros ?). by apply wp_raise. Qed.
Lemma qemu_capture_paused ps x :
  paused ps x → ca_policy a = ALLOW_PAUSE →
  wp (qemu_create_snapshot X q)
    (λ r y, r_source_status r = PAUSED ∧ paused (if bool_decide (status i = RUNNING) then {[vm]} ∪ ps else ps) y) (λ _ _, True) x.
Proof.
  intros Hx Hpol. unfold qemu_create_snapshot. cbv zeta. simpl. rewrite Hpol. unfold was_running. simpl.
  apply wp_bind. eapply wp_mono with (Q := λ _, paused ps) (E := λ _ _, True); [| |done].
  { destruct (is_some _); [|done]. by eapply wp_mono; [apply (paused_command ps)|..]. }
  clear x Hx. intros [] x Hx. set (ps' := if bool_decide (status i = RUNNING) then {[vm]} ∪ ps else ps).
  apply wp_bind. eapply wp_mono with (Q := λ _, paused ps') (E := λ _ _, True); [| |done].
  { unfold ps'. case_bool_decide; cbn [py_when]; [by apply pause_guest_spec|by apply wp_return]. }
  clear x Hx. intros [] x Hx. apply wp_bind.
  eapply wp_reraise; [|intros; eapply wp_mono; [apply (give_up_raises _ _ (λ _ _, False))|done..]].
  unfold qemu_save. eapply wp_mono; [by apply (paused_command ps')| |done]. clear x Hx. intros [] x Hx.
  eapply wp_reraise; [|intros; eapply wp_mono; [apply (give_up_raises _ _ (λ _ _, False))|done..]].
  apply wp_bind. eapply wp_mono; [by apply (paused_copy ps')| |done]. clear x Hx. intros [] x Hx.
  apply wp_bind. unfold qemu_drop. eapply wp_mono; [by apply (paused_command ps')| |done]. clear x Hx. intros [] x Hx.
  by apply captured_status.
Qed.
Lemma adapter_source ps x :
  paused ps x → ca_policy a = ALLOW_PAUSE →
  wp (adapter_create_snapshot X b q) (λ r _, r_source_status r = PAUSED) (λ _ _, True) x.
Proof.
  intros Hx Hpol. unfold adapter_create_snapshot. cbv zeta.
  destruct (String.eqb b BACKEND_FIRECRACKER); [eapply wp_mono; [by apply (fc_capture_paused ps)| |done]; by intros r y (? & _)|].
  destruct (String.eqb b BACKEND_QEMU); [eapply wp_mono; [by apply (qemu_capture_paused ps)| |done]; by intros r y (? & _)|].
  by destruct (String.eqb b BACKEND_LIBKRUN).
Qed.
(** A guest that was not running is left alone. *)
Lemma adapter_idle ps :
  status i ≠ RUNNING ∨ ca_policy a = LIVE_ONLY ∧ b = BACKEND_QEMU → keeps (paused ps) (adapter_create_snapshot X b q : M _).
Proof.
  intros Hidle. unfold adapter_create_snapshot. cbv zeta. destruct Hidle as [Hs|[Hl ->]].
  - assert (was_running q = false) as Hw by (unfold was_running; by apply bool_decide_eq_false).
    unfold firecracker_create_snapshot, qemu_create_snapshot, qemu_give_up, qemu_save, qemu_drop, captured. cbv zeta. rewrite !Hw. cbn [py_when].
    keeps_steps.
  - simpl. unfold qemu_create_snapshot. cbv zeta. simpl. rewrite Hl. keeps_steps.
Qed.
Lemma live_running ps x :
  ca_policy a = LIVE_ONLY → b = BACKEND_QEMU → paused ps x →
  wp (adapter_create_snapshot X b q) (λ r y, r_source_status r = RUNNING ∧ paused ps y) (λ _, paused ps) x.
Proof.
  intros Hl -> Hx. unfold adapter_create_snapshot. simpl. unfold qemu_create_snapshot. cbv zeta. simpl. rewrite Hl.
  apply wp_bind. eapply wp_mono with (Q := λ _, paused ps) (E := λ _, paused ps); [| |done].
  { destruct (is_some _); [|by apply wp_raise]. by apply (paused_command ps). }
  clear x Hx. intros [] x Hx. apply wp_bind. eapply wp_mono; [by apply (paused_stick ps)| |done].
  clear x Hx. intros n x Hx. apply wp_lift; [|done]. intros r Hr. destruct (x_live X n sid); by simplify_eq/=.
Qed.

Context (Hstatus : status i = RUNNING ∨ status i = PAUSED).
Context (Hlive : ca_policy a = LIVE_ONLY → status i = RUNNING ∧ b = BACKEND_QEMU).

Lemma adapter_agrees x :
  agrees (status i) x → wp (adapter_create_snapshot X b q) capture_agrees (λ _, recoverable) x.
Proof using Hstatus Hlive.
  intros Hx. assert (paused (sn_paused x) x) as Hp by done.
  assert (∀ st y, paused (sn_paused x) y → agrees st x → agrees st y) as Hsame by (unfold paused, agrees; intros st y ->; done).
  assert (ca_policy a = ALLOW_PAUSE ∨ ca_policy a = LIVE_ONLY) as [Hpol|Hpol] by (destruct (ca_policy a); auto).
  2:{ destruct (Hlive Hpol) as [Hs Hb]. eapply wp_mono; [by apply live_running|..].
      - intros r y [Hr Hy]. unfold capture_agrees. rewrite Hr, <- Hs at 1. split; [by apply Hsame|]. right. left. auto.
      - intros e y Hy. left. by apply Hsame. }
  destruct Hstatus as [Hs|Hs].
  2:{ eapply wp_mono; [eapply wp_conj; [apply (adapter_idle (sn_paused x)); [left; congruence|done]
                                       |apply (adapter_source (sn_paused x)); [done..]]|..].
      - intros r y [Hy Hr]. unfold capture_agrees. rewrite Hr, <- Hs at 1. split; [by apply Hsame|]. by left.
      - intros e y [Hy _]. left. by apply Hsame. }
  unfold adapter_create_snapshot. cbv zeta. simpl.
  assert (∀ r y, r_source_status r = PAUSED → paused ({[vm]} ∪ sn_paused x) y → resumable = true → capture_agrees r y) as Hdone.
  { intros r y Hr Hy Hres. unfold capture_agrees, agrees. rewrite Hr, Hy. split; [set_solver|]. right. right. auto. }
  destruct (String.eqb b BACKEND_FIRECRACKER) eqn:Hfc.
  - destruct (is_some (control_socket_path i)) eqn:Hsock.
    + assert (resumable = true) as Hres by (unfold resumable; by rewrite Hfc, Hsock, orb_true_r).
      eapply wp_mono; [by apply (fc_capture_paused (sn_paused x))|..].
      * intros r y (Hr & _ & Hy). rewrite bool_decide_eq_true_2 in Hy by done. by apply Hdone.
      * intros e y _. by right.
    + unfold firecracker_create_snapshot. cbv zeta. simpl. apply wp_bind. unfold firecracker_client. rewrite Hsock. by left.
  - destruct (String.eqb b BACKEND_QEMU) eqn:Hq.
    + assert (resumable = true) as Hres by (unfold resumable; by rewrite Hq).
      eapply wp_mono; [by apply (qemu_capture_paused (sn_paused x))|..].
      * intros r y (Hr & Hy). rewrite bool_decide_eq_true_2 in Hy by done. by apply Hdone.
      * intros e y _. by right.
    + destruct (String.eqb b BACKEND_LIBKRUN); apply wp_raise; by left.
Qed.

(** What depends on the pauses only. *)
Definition by_pauses (J : snapm St → Prop) : Prop := ∀ y y', sn_paused y' = sn_paused y → J y → J y'.
Lemma keeps_pauses {A} J (m : M A) : by_pauses J → (∀ ps, keeps (paused ps) m) → keeps J m.
Proof. intros HJ Hm y Hy. eapply wp_mono; [by apply (Hm (sn_paused y))|..]; intros ? z Hz; exact (HJ y z Hz Hy). Qed.
Lemma pauses_capture r : by_pauses (capture_agrees r).
Proof. unfold by_pauses, capture_agrees, agrees. intros y y' ->. done. Qed.
Lemma pauses_agrees st : by_pauses (agrees st).
Proof. unfold by_pauses, agrees. intros y y' ->. done. Qed.
Lemma capture_recoverable r y : capture_agrees r y → recoverable y.
Proof.
  intros [Ha [[Hs Hr]|[(Hs & Hl & Hr)|(Hs & Hp & Hr & Hres)]]]; [left|left|by right]; by rewrite Hs, <- Hr.
Qed.

Lemma capture_pauses vm' x :
  agrees (status i) x →
  wp (capture_and_store E X vm' sid b i a) (λ sr, capture_agrees sr.2) (λ _, recoverable) x.
Proof using Hstatus Hlive.
  intros Hx. unfold capture_and_store.
  assert (∀ (e : exn) y, agrees (status i) y → recoverable y) as Hearly by (intros; by left).
  assert (∀ r (e : exn) y, capture_agrees r y → recoverable y) as Hlate by (intros r _ y; apply capture_recoverable).
  apply wp_bind. eapply wp_mono; [apply (keeps_pauses _ (mkdir X sid false) (pauses_agrees (status i))); [auto with celesto|exact Hx]| |exact Hearly].
  clear x Hx. intros [] x Hx.
  apply wp_bind. eapply wp_mono; [apply (keeps_pauses _ stick (pauses_agrees (status i))); [auto with celesto|exact Hx]| |exact Hearly].
  clear x Hx. intros n x Hx. apply wp_bind. eapply wp_mono; [apply (keeps_sraise_if (agrees (status i))); exact Hx| |exact Hearly].
  clear x Hx. intros [] x Hx. apply wp_bind. eapply wp_mono; [by apply adapter_agrees| |done].
  clear x Hx. intros r x Hx.
  assert (∀ A (m : M A), (∀ ps, keeps (paused ps) m) → keeps (capture_agrees r) m) as Hk.
  { intros A m Hm. by apply keeps_pauses; [apply pauses_capture|]. }
  apply wp_bind. eapply wp_mono with (Q := λ _, capture_agrees r) (E := λ _, capture_agrees r); [| |exact (Hlate r)].
  { apply Hk; [|done]. intros ps. keeps_steps. }
  clear x Hx. intros [] x Hx. destruct (network i); [|by eapply wp_raise, capture_recoverable]. cbv zeta.
  apply wp_bind. eapply wp_mono; [apply (Hk _ _ (λ ps, paused_store ps _)); exact Hx| |exact (Hlate r)].
  clear x Hx. intros j x Hx. apply wp_bind. eapply wp_mono; [apply (Hk _ _ (λ ps, paused_manifest ps _)); exact Hx| |exact (Hlate r)].
  clear x Hx. intros [] x Hx. by apply wp_return.
Qed.

Lemma resume_pauses y ps :
  paused ps y → wp (adapter_resume_guest E b i) (λ _, paused (ps ∖ {[vm]})) (λ _, paused ps) y.
Proof.
  intros Hy. unfold adapter_resume_guest. apply wp_bind. eapply wp_mono; [by apply (paused_mgr ps)| |done].
  intros [] z Hz. apply wp_modify. unfold paused in *. simpl. by rewrite Hz.
Qed.

Context (v : Inventory) (Hrow : iv_vms v !! vm = Some i).
(** The recorded status is the guest's. *)
Definition accurate (vm : string) y : Prop :=
  ∃ row, iv_vms (sm_view (g_state (sn_mgr y))) !! vm = Some row ∧ (vm ∈ sn_paused y ↔ status row = PAUSED).

Lemma finish_pauses s r x :
  rows v x → capture_agrees r x →
  wp (finish_snapshot E X vm b i a s r) (λ _, accurate vm) (λ _ y, rows v y ∧ recoverable y) x.
Proof using Hrow Hstatus Hlive SnapshotLaws0.
  intros Hv Hx. unfold finish_snapshot. set (J := λ y, rows v y ∧ capture_agrees r y).
  apply wp_bind. eapply wp_mono with (Q := λ _, J) (E := λ _ _, False); [| |done].
  { apply wp_when; [intros _|done]. apply wp_suppress. eapply wp_mono with (Q := λ _, J) (E := λ _, J); [|by intros []..|by intros].
    apply wp_bind. unfold stick. apply wp_on_mgr, wp_tick. unfold sraise_if. destruct (x_unlink_operation X _); [by apply wp_raise|by apply wp_return]. }
  clear x Hv Hx. intros [] x [Hv Hx].
  apply wp_bind. eapply wp_mono with (Q := λ st y, rows v y ∧ agrees st y ∧ recoverable y) (E := λ _ _, False); [| |done].
  { destruct (_ && _) eqn:Hc; [|apply wp_return; split; [done|]; split; [apply Hx|by eapply capture_recoverable]].
    bool_hyps. assert (∀ y, recoverable y) as Hrec.
    { intros y. right. destruct Hx as [_ [[Hs Hr]|[(Hs & Hl & Hr)|(Hs & Hp & Hr & Hres)]]]; [congruence|congruence|done]. }
    apply wp_try, wp_bind.
    assert (keeps (rows v) (adapter_resume_guest E b i)) as Hrows by (apply rows_booked; intros; apply booked_resume_guest).
    eapply wp_mono; [eapply wp_conj; [by apply Hrows|by apply (resume_pauses x (sn_paused x))]|..].
    - intros [] y [Hy Hp]. apply wp_return. split; [done|]. split; [|done]. unfold agrees. rewrite Hp. set_solver.
    - intros e y [Hy Hp]. apply wp_return. split; [done|]. split; [|done]. unfold agrees. rewrite Hp. apply Hx. }
  clear x Hv Hx. intros st x ([Hok Hv] & Hst & Hrec). apply wp_bind, wp_on_mgr, wp_on_state.
  eapply wp_mono; [by apply law_update|..]; cbv beta.
  - intros j s' (Hok' & i0 & Hi0 & -> & Hv'). apply wp_return. rewrite Hv in Hi0, Hv'. assert (i0 = i) as -> by congruence.
    eexists. simpl. rewrite Hv'. simpl. rewrite lookup_insert_eq. split; [done|]. exact Hst.
  - intros e s' [Hok' Hv']. split; [split; [done|]; simpl; by rewrite Hv'|]. exact Hrec.
Qed.

Context (resumes : ∀ n j, e_monitor E n "resume" j = None).
Lemma resume_works x : resumable = true → raised (adapter_resume_guest E b i x).2 = false.
Proof using resumes Hlive a.
  unfold resumable. intros Hr. unfold adapter_resume_guest, py_bind, on_mgr, adapter_resume, monitor, tick, raise_if, py_bind.
  destruct (String.eqb_spec b BACKEND_FIRECRACKER) as [->|]; simpl.
  - simpl in Hr. unfold firecracker_client. rewrite Hr. simpl. by rewrite resumes.
  - destruct (String.eqb b BACKEND_QEMU); [|done]. by rewrite resumes.
Qed.
Lemma rollback_pauses {A} p e x :
  rows v x → recoverable x →
  wp (snapshot_rollback E X p vm sid b i a e) (λ (_ : A) _, False) (λ _ y, accurate vm y) x.
Proof using Type*.
  intros Hv Hx.
  enough (wp (snapshot_rollback E X p vm sid b i a e) (λ (_ : A) _, False) (λ _ y, agrees (status i) y) x) as H.
  { eapply wp_mono; [eapply wp_conj; [exact H|by apply (rows_rollback v)]|by intros ? ? []|].
    intros e' y [Ha [_ Hy]]. exists i. by rewrite Hy. }
  unfold snapshot_rollback.
  assert (by_pauses recoverable) as Hrp by (unfold by_pauses, recoverable, agrees; intros y y' ->; done).
  assert (∀ B (m : M B), (∀ ps, keeps (paused ps) m) → keeps recoverable m) as Hk by (intros; by apply keeps_pauses).
  apply wp_bind. eapply wp_mono with (Q := λ _, recoverable) (E := λ _ _, False); [| |done].
  { apply remove_root_keeps; [|done]. apply Hk. auto with celesto. }
  clear x Hv Hx. intros [removed failure] x Hx. simpl.
  apply wp_bind. eapply wp_mono with (Q := λ _, recoverable) (E := λ _ _, False); [| |done].
  { apply wp_when; [intros _|done]. apply wp_suppress. eapply wp_mono with (Q := λ _, recoverable) (E := λ _, recoverable); [|by intros []..|by intros].
    apply Hk; [|done]. auto with celesto. }
  clear x Hx. intros [] x Hx. apply wp_bind. eapply wp_mono with (Q := λ _, agrees (status i)) (E := λ _ _, False); [| |done].
  2:{ intros [] y Hy. by apply wp_raise. }
  apply wp_when.
  - intros [Hs Hp]%andb_true_iff. bool_hyps. apply wp_suppress, wp_bind.
    eapply wp_mono with (Q := λ _, agrees (status i)) (E := λ _, agrees (status i)); [| |done].
    + pose proof (resume_pauses x (sn_paused x) eq_refl) as Hr. pose proof (resume_works x) as Hw. unfold wp in *.
      destruct (adapter_resume_guest E b i x) as [y [[]|e']]; unfold agrees; rewrite Hr, Hs.
      * set_solver.
      * destruct Hx as [Hx|(_ & _ & Hres)]; [by rewrite <- Hs|by specialize (Hw Hres)].
    + intros [] y Hy. apply wp_bind.
      eapply wp_mono; [apply (keeps_pauses _ _ (pauses_agrees (status i)) (λ ps, paused_store ps _)); exact Hy| |done].
      intros j z Hz. by apply wp_return.
  - intros Hc. destruct Hx as [Hx|(Hs & Hp & _)]; [done|]. rewrite Hs, Hp in Hc. done.
Qed.
End one.

(** What the checks before a capture establish. *)
Lemma checks_facts vm sid i a b :
  create_snapshot_checks E vm sid i a = Ret b →
  (status i = RUNNING ∨ status i = PAUSED) ∧ (ca_policy a = LIVE_ONLY → status i = RUNNING ∧ b = BACKEND_QEMU).
Proof.
  unfold create_snapshot_checks. intros H.
  destruct (_ensure_snapshot_supported E i); [|done]. simpl in H. unfold guard_raise at 1 in H.
  case_bool_decide as Hs; [|done]. simpl in H. split; [set_solver|].
  destruct (_backend_for_config E (config i)) as [b0|]; [|done]. simpl in H. intros Hp. unfold live_only_checks, guard_raise in H.
  rewrite (bool_decide_eq_true_2 _ Hp) in H. destruct (bool_decide (status i ≠ RUNNING)) eqn:Hr; [done|]. simpl in H.
  destruct (String.eqb_spec b0 BACKEND_QEMU) as [->|]; [|done]. simpl in H. apply bool_decide_eq_false in Hr.
  assert (status i = RUNNING) by (destruct (decide (status i = RUNNING)); [done|exfalso; by apply Hr]).
  split; [done|]. destruct (bool_decide (ca_type a ≠ DISK)); [done|]. simpl in H. destruct (ca_resume_source a); [|done]. simpl in H.
  destruct (bitmap_checks vm sid i BACKEND_QEMU a); [|done]. simpl in H.
  destruct (_managed_disk_for_vm E i) as [[d|]|]; [|done..]. simpl in H. destruct (_ && _); [done|]. by simplify_eq/=.
Qed.

Context (resumes : ∀ n j, e_monitor E n "resume" j = None).
Lemma locked_accurate vm sid a x :
  sm_ok (g_state (sn_mgr x)) → accurate vm x →
  wp (_create_snapshot_locked E X vm sid a) (λ _, accurate vm) (λ _, accurate vm) x.
Proof using SnapshotLaws0 resumes.
  intros Hok Hacc. unfold _create_snapshot_locked. set (v := sm_view (g_state (sn_mgr x))).
  set (ps := sn_paused x). assert (rows v x ∧ paused ps x) as Hx by done.
  assert (∀ (e : exn) y, rows v y ∧ paused ps y → accurate vm y) as Hearly.
  { intros _ y [[_ Hv] Hp]. destruct Hacc as (row & Hrow & Ha). exists row. unfold paused, ps in Hp. rewrite Hv, Hp. done. }
  assert (∀ A (m : M A), keeps (rows v) m → (∀ ps, keeps (paused ps) m) → keeps (λ y, rows v y ∧ paused ps y) m) as Hboth.
  { intros A m Hr Hp y [Hy1 Hy2]. eapply wp_mono; [eapply wp_conj; [by apply Hr|by apply (Hp ps)]|by intros..]. }
  apply wp_bind. eapply wp_mono with (Q := λ i y, (rows v y ∧ paused ps y) ∧ iv_vms v !! vm = Some i ∧ vi_vm_id i = vm) (E := λ _ y, rows v y ∧ paused ps y);
    [| |exact Hearly].
  { apply wp_on_mgr, wp_on_state. eapply wp_mono; [by apply law_get|..]; cbv beta.
    - intros i s' [[Hok' Hv'] Hi]. split; [split; [by split|done]|]. split; [done|]. exact (ok_ids _ _ _ Hok Hi).
    - intros e s' [[Hok' Hv'] _]. by split. }
  clear Hx. intros i y [Hy [Hi Hid]].
  apply wp_bind, wp_lift; [intros b Hb|intros e _; by apply (Hearly e)]. destruct (checks_facts _ _ _ _ _ Hb) as [Hst Hlive].
  assert (∀ (m : M unit) (k : unit → M SnapshotInfo) z, keeps (rows v) m → (∀ ps, keeps (paused ps) m) → rows v z ∧ paused ps z →
            (∀ z, rows v z ∧ paused ps z → wp (k tt) (λ _, accurate vm) (λ _, accurate vm) z) →
            wp (py_bind m k) (λ _, accurate vm) (λ _, accurate vm) z) as Hstep.
  { intros m k z Hr Hp Hz Hk. apply wp_bind. eapply wp_mono; [apply (Hboth _ m Hr Hp z Hz)|intros []; apply Hk|exact Hearly]. }
  apply Hstep; [auto with celesto..|exact Hy|]. clear y Hy. intros y Hy.
  apply Hstep; [apply keeps_when, rows_booked; intros; apply booked_reconcile|intros; apply keeps_when, paused_reconcile|exact Hy|].
  clear y Hy. intros y Hy.
  apply Hstep; [keeps_steps|intros; keeps_steps|exact Hy|]. clear y Hy. intros y Hy.
  apply Hstep; [apply rows_booked; intros; apply booked_clear|intros; apply paused_clear|exact Hy|]. clear y Hy. intros y [Hy Hp].
  assert (agrees i (status i) y) as Hag.
  { destruct Hacc as (row & Hrow & Ha). unfold agrees. rewrite Hid, Hp. unfold ps. assert (row = i) as <- by (unfold v in Hi; congruence). done. }
  assert (∀ A p e z, rows v z → recoverable i b a z →
            wp (snapshot_rollback E X p vm sid b i a e) (λ (_ : A) _, False) (λ _, accurate vm) z) as Hroll.
  { intros A p e z Hz Hr. rewrite <- Hid in *. by apply (rollback_pauses i sid b a Hst Hlive v Hi resumes). }
  apply wp_bind, wp_try.
  eapply wp_mono; [eapply wp_conj; [by apply (rows_capture v vm sid b i a)|by apply (capture_pauses i sid b a Hst Hlive vm)]|..].
  - clear y Hy Hp Hag. intros [s r] y [Hy Hc]. simpl in Hc. apply wp_try. rewrite <- Hid in *.
    eapply wp_mono; [by apply (finish_pauses i b a Hst Hlive v Hi)|done|]. intros e z [Hz Hr].
    eapply wp_mono; [by apply Hroll|done|done].
  - intros e z [Hz Hr]. eapply wp_mono; [by apply Hroll|done|done].
Qed.

(** C10: after every attempt to take a snapshot, whatever failed, the status the
    inventory records for the computer is the state of its guest: paused exactly
    if the guest is paused, provided that resuming a guest works. *)
Theorem snapshot_status_accurate vm sid timeout_ok a x x' r :
  sm_ok (g_state (sn_mgr x)) → accurate vm x →
  create_snapshot E X vm sid timeout_ok a x = (x', r) → accurate vm x'.
Proof using SnapshotLaws0 resumes.
  intros Hok Hx Hrun.
  assert (wp (create_snapshot E X vm sid timeout_ok a) (λ _, accurate vm) (λ _, accurate vm) x) as H;
    [|pose proof (wp_eq _ _ _ _ _ _ H Hrun); by destruct r].
  clear Hrun. unfold create_snapshot. do 3 (apply wp_bind, wp_lift; [intros [] _|by intros]).
  apply wp_bind. unfold stick. apply wp_on_mgr, wp_tick. cbv zeta. apply wp_bind, wp_lift; [intros [] _|by intros].
  by apply locked_accurate.
Qed.
End status.
