(* ===== verification/SnapshotDemo.v ===== *)
(** * Snapshots on a concrete machine

    A Firecracker guest on the demonstration machine of ManagerLifecycle, with the in-memory
    inventory: witnesses of the snapshot theorems, and two runs that show where
    the code leaves something behind. *)
From S2P Require Import Prelude PyHoare PyDict PyStr StorageBase Types MemoryState StateProtocol SnapshotStore.
From S2P Require Import MemoryInv StateProtocolMemory.
From S2P Require Import NetworkSettings Channel EgressSession ConfigValidation.
From S2P Require Import Backends ManagerState ManagerHelpers ManagerRuntime ManagerCreate ManagerLifecycle ManagerFrames.
From S2P Require Import ManagerRuns Snapshots SnapshotRestore SnapshotFrames RestoreProofs RestoreOutcome.
From S2P Require Import SnapshotProofs SnapshotStatus.
From stdpp Require Import options.
From Stdlib Require Import Ascii.

(** ** The machine *)
Definition demo_instant : datetime :=
  {| dt_year := 2026; dt_month := 1; dt_day := 2; dt_hour := 3; dt_minute := 4; dt_second := 5;
     dt_microsecond := 0; dt_offset := Some 0%Z |}.
(** Only writing a manifest may fail. *)
Definition demo_senv (write_fails : bool) : senv :=
  {| x_snapshot_dir := "/snap"; x_time := λ _, 7%Z; x_exists := λ _ _, true; x_mkdir := λ _ _, None; x_rmtree := λ _ _, None;
     x_write := λ _ _, if write_fails then Some (OSErrorExn "No space left on device") else None;
     x_stat := λ _, None; x_host_key := λ _, None; x_unlink_operation := λ _, None; x_reconcile := λ _ d, (d, None);
     x_monitor := λ _ _ _, None; x_copy := λ _ _, None; x_live := λ _ _, Raise (CelestoError "");
     x_captured_at := λ _, demo_instant; x_disk_dir := λ _, None; x_backing := λ _ _, Ret None |}.

#[local] Existing Instance demo_sm.
#[local] Existing Instance demo_laws.
#[local] Instance demo_snapshots : SnapshotStore mem_mgr := memory_snapshots.
#[local] Instance demo_snapshot_laws : SnapshotLaws mem_mgr := memory_snapshot_laws true (λ _, None).

Definition demo_dev_created : mgr mem_mgr := demo_run (OpCreate (demo_config "dev" "firecracker" None)) demo_mgr.
Definition demo_dev_started : mgr mem_mgr := demo_run (OpStart "dev") demo_dev_created.
Definition demo_x : snapm mem_mgr := {| sn_mgr := demo_dev_started; sn_dirs := ∅; sn_paused := ∅ |}.

Lemma demo_dev_ok : sm_ok (g_state demo_dev_started).
Proof.
  assert (@manager_reachable demo_env mem_mgr demo_sm demo_laws demo_dev_started) as H.
  { exists demo_mgr. split; [split_and!; try done; exact demo_mgr_ok|].
    eapply rtc_l; [apply (manager_call demo_env (OpCreate (demo_config "dev" "firecracker" None)))|].
    apply rtc_once, (manager_call demo_env (OpStart "dev")). }
  apply (reachable_guarded demo_env) in H. by destruct H.
Qed.

Definition demo_args (t : SnapshotType) (resume : bool) : create_args :=
  {| ca_type := t; ca_resume_source := resume; ca_policy := ALLOW_PAUSE; ca_max_bytes_per_second := None; ca_bitmap := None |}.
Definition demo_create (write_fails : bool) : snapm mem_mgr * outcome SnapshotInfo :=
  create_snapshot demo_env (demo_senv write_fails) "dev" (Some "s1") true (demo_args FULL true) demo_x.

Definition demo_x1 : snapm mem_mgr := (demo_create false).1.
Lemma demo_x1_ok : sm_ok (g_state (sn_mgr demo_x1)).
Proof. exact (create_ok demo_env (demo_senv false) "dev" (Some "s1") true (demo_args FULL true) demo_x demo_dev_ok). Qed.
Definition demo_missing : SnapshotInfo :=
  snapshot_record "" "" (vi_new "" CREATED (demo_config "" "" None))
    {| guest_ip := None; gateway_ip := None; netmask := None; tap_device := ""; guest_mac := ""; ssh_host_port := None;
       egress_proxy_host_port := None; nc_mode := nat_mode; nc_bridge := None |} FULL
    (live_captured {| lr_disk_path := ""; lr_captured_at := demo_instant; lr_artifact_kind := None; lr_virtual_size_bytes := None;
       lr_changed_bytes := None; lr_bitmap_granularity_bytes := None; lr_bitmap_name := None |}).
Definition demo_s1 : SnapshotInfo := match (demo_create false).2 with Ret s => s | Raise _ => demo_missing end.

(** ** Witnesses *)
Lemma create_snapshot_exact_witness :
  (demo_create false).2 = Ret demo_s1
  ∧ snapshot_taken (sm_view (g_state (sn_mgr demo_x))) (ss_view (g_state (sn_mgr demo_x))) "dev" "s1" FULL demo_s1 demo_x1.
Proof.
  assert ((demo_create false).2 = Ret demo_s1) as Hr by (vm_compute; reflexivity). split; [exact Hr|].
  exact (create_snapshot_exact demo_env (demo_senv false) "dev" (Some "s1") true (demo_args FULL true) demo_x demo_x1 (Ret demo_s1)
           demo_dev_ok (eq_trans (surjective_pairing _) (f_equal (pair _) Hr))).
Defined.

Lemma snapshot_status_accurate_witness : accurate "dev" demo_x1.
Proof.
  apply (snapshot_status_accurate demo_env (demo_senv false) (λ _ _, eq_refl) "dev" (Some "s1") true (demo_args FULL true) demo_x demo_x1
           (demo_create false).2 demo_dev_ok).
  - eexists. split; [vm_compute; reflexivity|]. vm_compute. split; discriminate.
  - apply surjective_pairing.
Defined.

Lemma demo_x1_named : well_named demo_x1.
Proof.
  assert (map_Forall (λ id d, match sd_manifest d with Some (Some s) => String.eqb (snapshot_id s) id | _ => true end = true)
            (sn_dirs demo_x1)) as H.
  { apply (bool_decide_unpack _). vm_compute. exact I. }
  intros id d s Hd Hm. specialize (H id d Hd). cbv beta in H. rewrite Hm in H. by apply String.eqb_eq.
Qed.
Lemma delete_snapshot_exact_witness :
  let r := delete_snapshot demo_env (demo_senv false) "s1" demo_x1 in
  r.2 = Ret tt
  ∧ delete_done "s1" (sm_view (g_state (sn_mgr demo_x1))) (ss_view (g_state (sn_mgr demo_x1))) (sn_dirs demo_x1) r.1.
Proof.
  cbv zeta. assert ((delete_snapshot demo_env (demo_senv false) "s1" demo_x1).2 = Ret tt) as Hr by (vm_compute; reflexivity).
  split; [exact Hr|].
  apply (delete_snapshot_exact demo_env (demo_senv false) "s1" ltac:(discriminate) demo_x1 _ (Ret tt) demo_x1_ok demo_x1_named
           (eq_trans (surjective_pairing _) (f_equal (pair _) Hr))).
Defined.

(** A restore that fails when it sets up the route. *)
Definition demo_no_route : menv := demo_menv (λ op, match op with add_route _ _ => true | _ => false end).
Lemma failed_restore_keeps_disk_witness :
  let r := restore_snapshot demo_no_route (demo_senv false) "s1" true false demo_x1 in
  r.2 = Raise (NetworkError "failed") ∧ g_disks (sn_mgr r.1) !! "dev.ext4" = g_disks (sn_mgr demo_x1) !! "dev.ext4".
Proof.
  cbv zeta. assert ((restore_snapshot demo_no_route (demo_senv false) "s1" true false demo_x1).2 = Raise (NetworkError "failed")) as Hr
    by (vm_compute; reflexivity).
  split; [exact Hr|].
  refine (proj2 (failed_restore_keeps_disk demo_no_route (demo_senv false) (λ _, eq_refl)
           "s1" demo_s1 raw_ext4 demo_x1 _ (NetworkError "failed") true false demo_x1_ok _ _ _ _ _) (λ _ _, eq_refl) (λ _ _, eq_refl)).
  - vm_compute. reflexivity.
  - vm_compute. reflexivity.
  - intros n. vm_compute. reflexivity.
  - left. vm_compute. eexists. reflexivity.
  - exact (eq_trans (surjective_pairing _) (f_equal (pair _) Hr)).
Defined.
Definition demo_restored : snapm mem_mgr * outcome VMInfo := restore_snapshot demo_env (demo_senv false) "s1" true false demo_x1.
Lemma restore_records_witness :
  ∃ i, demo_restored.2 = Ret i ∧ restored_state "s1" demo_s1 true i demo_restored.1.
Proof.
  assert (raised demo_restored.2 = false) as Hr by (vm_compute; reflexivity).
  destruct demo_restored.2 as [i|e] eqn:He; [|discriminate Hr]. exists i. split; [reflexivity|].
  apply (restore_records demo_env (demo_senv false) "s1" demo_s1 demo_x1 _ i true false demo_x1_ok).
  - vm_compute. reflexivity.
  - exact (eq_trans (surjective_pairing _) (f_equal (pair _) He)).
Defined.

(** ** What failures leave behind *)

(** When the manifest of a new snapshot cannot be written, the directory of the
    snapshot is removed but its record stays in the inventory: the flag that
    would remove it is only set after the manifest is written. *)
Example failed_manifest_leaves_record :
  raised (demo_create true).2 = true
  ∧ is_some (ss_view (g_state (sn_mgr (demo_create true).1)) !! "s1") = true
  ∧ sn_dirs (demo_create true).1 !! "s1" = None.
Proof. vm_compute. auto. Qed.

(** A manager with an empty inventory, a snapshot on disk, and the disk of its
    computer: a restore that fails removes that disk with the backup it had made
    of it, because both are files of the row it takes back. *)
Definition demo_restart : snapm mem_mgr :=
  {| sn_mgr := g_set_disks {["dev.ext4" := 5]} demo_mgr; sn_dirs := sn_dirs demo_x1; sn_paused := ∅ |}.
Example failed_restore_loses_unmarked_disk :
  let r := restore_snapshot demo_no_route (demo_senv false) "s1" true false demo_restart in
  r.2 = Raise (NetworkError "failed") ∧ g_disks (sn_mgr r.1) = ∅.
Proof. vm_compute. auto. Qed.

(** A disk kept by an earlier computer of that name stays marked as kept after a
    restore gave it a row again, so deleting the restored computer leaves its
    disk. *)
Definition demo_kept : snapm mem_mgr :=
  {| sn_mgr := g_set_disks {["dev.ext4" := 5; "dev.ext4.retained" := 0]} demo_mgr; sn_dirs := sn_dirs demo_x1; sn_paused := ∅ |}.
Example restored_disk_stays_marked :
  let r := restore_snapshot demo_env (demo_senv false) "s1" true false demo_kept in
  let deleted := delete demo_env "dev" (sn_mgr r.1) in
  raised r.2 = false ∧ raised deleted.2 = false ∧ is_some (g_disks deleted.1 !! "dev.ext4") = true.
Proof. vm_compute. auto. Qed.
