(* ===== verification/CrashProg.v ===== *)
(** * Programs that can be killed between two effects

    A program is a tree of effects ([action]) whose continuations receive an
    answer or an error.  [exec n] performs at most [n] effects and then the
    process is dead: what is left is the state at that point, with no handler
    run.  [wpc] is the weakest precondition of a program with an invariant for
    the states in between.  [schedule] lets several such programs take turns on
    one world; [rg] is their precondition when the others may run in between. *)
From S2P Require Import Prelude.
From stdpp Require Import options.

Inductive res (E A : Type) := Ok (x : A) | Err (e : E).
Arguments Ok {E A}. Arguments Err {E A}.

Section prog.
Context {action : Type} {reply : action → Type} {E : Type}.

Inductive prog (A : Type) :=
| Done (r : res E A)
| Act (a : action) (k : res E (reply a) → prog A).
Arguments Done {A}. Arguments Act {A}.

Definition pret {A} (x : A) : prog A := Done (Ok x).
Definition praise {A} (e : E) : prog A := Done (Err e).
Definition act (a : action) : prog (reply a) := Act a Done.
Fixpoint pbind {A B} (m : prog A) (f : A → prog B) : prog B :=
  match m with
  | Done (Ok x) => f x
  | Done (Err e) => Done (Err e)
  | Act a k => Act a (λ r, pbind (k r) f)
  end.
(** [try: m except ... as e: h e] *)
Fixpoint ptry {A} (m : prog A) (h : E → prog A) : prog A :=
  match m with
  | Done (Ok x) => Done (Ok x)
  | Done (Err e) => h e
  | Act a k => Act a (λ r, ptry (k r) h)
  end.
(** [try: m except ...: ... else: f x] *)
Fixpoint pelse {A B} (m : prog A) (h : E → prog B) (f : A → prog B) : prog B :=
  match m with
  | Done (Ok x) => f x
  | Done (Err e) => h e
  | Act a k => Act a (λ r, pelse (k r) h f)
  end.
(** [try: m finally: f] *)
Definition pfinally {A} (m : prog A) (f : prog unit) : prog A :=
  pelse m (λ e, pbind f (λ _, praise e)) (λ x, pbind f (λ _, pret x)).
Definition pwhen (b : bool) (m : prog unit) : prog unit := if b then m else pret tt.
(** [with suppress(...): m], for the exceptions [c] *)
Definition psuppress (c : E → bool) (m : prog unit) : prog unit :=
  ptry m (λ e, if c e then pret tt else praise e).
Fixpoint pfor {A} (l : list A) (f : A → prog unit) : prog unit :=
  match l with
  | [] => pret tt
  | x :: l => pbind (f x) (λ _, pfor l f)
  end.

(** ** Running *)
Section run.
Context {W : Type} (perform : ∀ a, W → W * res E (reply a)).

Fixpoint exec {A} (n : nat) (p : prog A) (w : W) {struct p} : W * option (res E A) :=
  match p with
  | Done r => (w, Some r)
  | Act a k =>
      match n with
      | O => (w, None)
      | S n => let '(w', r) := perform a w in exec n (k r) w'
      end
  end.
Fixpoint run {A} (p : prog A) (w : W) : W * res E A :=
  match p with
  | Done r => (w, r)
  | Act a k => let '(w', r) := perform a w in run (k r) w'
  end.

(** A program that is not killed ends, with the result of [run]. *)
Lemma exec_run {A} (p : prog A) w : ∃ n, exec n p w = ((run p w).1, Some (run p w).2).
Proof.
  revert w. induction p as [r|a k IH]; intros w; simpl; [by exists 0|].
  destruct (perform a w) as [w' r]. destruct (IH r w') as [n Hn]. by exists (S n).
Qed.
Lemma exec_done {A} n (p : prog A) w w' r : exec n p w = (w', Some r) → run p w = (w', r).
Proof.
  revert n w. induction p as [r'|a k IH]; intros n w; simpl; [naive_solver|].
  destruct n; [done|]. destruct (perform a w) as [w1 r1]. apply IH.
Qed.

(** ** The invariant of the states in between *)
Fixpoint wpc (I : W → Prop) {A} (p : prog A) (Q : A → W → Prop) (R : E → W → Prop) (w : W) : Prop :=
  match p with
  | Done (Ok x) => Q x w
  | Done (Err e) => R e w
  | Act a k => ∀ w' r, perform a w = (w', r) → I w' ∧ wpc I (k r) Q R w'
  end.

Lemma wpc_exec (I : W → Prop) {A} (p : prog A) Q R n w w' o :
  wpc I p Q R w → I w → exec n p w = (w', o) →
  I w' ∧ match o with Some (Ok x) => Q x w' | Some (Err e) => R e w' | None => True end.
Proof.
  revert n w. induction p as [[]|a k IH]; intros n w; simpl; [naive_solver..|]. intros Hw Hi.
  destruct n; [naive_solver|]. destruct (perform a w) as [w1 r]. destruct (Hw w1 r eq_refl) as [H1 H2]. by apply IH.
Qed.
Lemma wpc_run (I : W → Prop) {A} (p : prog A) Q R w w' r :
  wpc I p Q R w → I w → run p w = (w', r) → I w' ∧ match r with Ok x => Q x w' | Err e => R e w' end.
Proof.
  intros Hw Hi Hr. destruct (exec_run p w) as [n Hn]. rewrite Hr in Hn. exact (wpc_exec I p Q R n w _ _ Hw Hi Hn).
Qed.

Lemma wpc_mono (I J : W → Prop) {A} (p : prog A) (Q Q' : A → W → Prop) (R R' : E → W → Prop) w :
  wpc I p Q R w → (∀ w, I w → J w) → (∀ x w, Q x w → Q' x w) → (∀ e w, R e w → R' e w) → wpc J p Q' R' w.
Proof.
  intros H HI HQ HR. revert w H. induction p as [[]|a k IH]; intros w H; simpl in *; [by apply HQ|by apply HR|].
  intros w' r Hp. destruct (H w' r Hp). split; [by apply HI|]. by apply IH.
Qed.
Lemma wpc_strong (I : W → Prop) {A} (p : prog A) (Q Q' : A → W → Prop) (R R' : E → W → Prop) w :
  wpc I p Q R w → I w → (∀ x w, I w → Q x w → Q' x w) → (∀ e w, I w → R e w → R' e w) → wpc I p Q' R' w.
Proof.
  intros H Hi HQ HR. revert w Hi H. induction p as [[]|a k IH]; intros w Hi H; simpl in *; [by apply HQ|by apply HR|].
  intros w' r Hp. destruct (H w' r Hp). split; [done|]. by apply IH.
Qed.
Lemma wpc_ret I {A} (x : A) (Q : A → W → Prop) R w : Q x w → wpc I (pret x) Q R w.
Proof. done. Qed.
Lemma wpc_raise I {A} e (Q : A → W → Prop) R w : R e w → wpc I (praise e) Q R w.
Proof. done. Qed.
Lemma wpc_act I a Q R w :
  (∀ w' r, perform a w = (w', r) → I w' ∧ match r with Ok x => Q x w' | Err e => R e w' end) → wpc I (act a) Q R w.
Proof. simpl. intros H w' r Hp. destruct (H w' r Hp). split; [done|]. by destruct r. Qed.
Lemma wpc_bind I {A B} (m : prog A) (f : A → prog B) Q R w :
  wpc I m (λ x, wpc I (f x) Q R) R w → wpc I (pbind m f) Q R w.
Proof.
  revert w. induction m as [[]|a k IH]; intros w; simpl; [done..|]. intros H w' r Hp. destruct (H w' r Hp). auto.
Qed.
Lemma wpc_try I {A} (m : prog A) h Q R w : wpc I m Q (λ e, wpc I (h e) Q R) w → wpc I (ptry m h) Q R w.
Proof.
  revert w. induction m as [[]|a k IH]; intros w; simpl; [done..|]. intros H w' r Hp. destruct (H w' r Hp). auto.
Qed.
Lemma wpc_else I {A B} (m : prog A) (h : E → prog B) f Q R w :
  wpc I m (λ x, wpc I (f x) Q R) (λ e, wpc I (h e) Q R) w → wpc I (pelse m h f) Q R w.
Proof.
  revert w. induction m as [[]|a k IH]; intros w; simpl; [done..|]. intros H w' r Hp. destruct (H w' r Hp). auto.
Qed.
Lemma wpc_when I b (m : prog unit) (Q : unit → W → Prop) R w :
  (b = true → wpc I m Q R w) → (b = false → Q tt w) → wpc I (pwhen b m) Q R w.
Proof. intros Ht Hf. destruct b; [by apply Ht|by apply Hf]. Qed.
Lemma wpc_suppress I (c : E → bool) (m : prog unit) (Q : unit → W → Prop) (R : E → W → Prop) w :
  wpc I m Q (λ e w, if c e then Q tt w else R e w) w → wpc I (psuppress c m) Q R w.
Proof. intros H. apply wpc_try. eapply wpc_mono; [exact H|done..|]. simpl. intros e w1. by destruct (c e). Qed.
(** A loop whose every turn keeps [Q]. *)
Lemma wpc_for I {A} (l : list A) (f : A → prog unit) (Q : W → Prop) R w :
  Q w → (∀ x w, x ∈ l → Q w → wpc I (f x) (λ _, Q) R w) → wpc I (pfor l f) (λ _, Q) R w.
Proof.
  revert w. induction l as [|x l IH]; intros w Hw Hf; [done|]. simpl. apply wpc_bind.
  eapply wpc_mono; [apply Hf; [left|done]|done| |done]. intros [] w' Hw'. apply IH; [done|].
  intros y w1 Hy. apply Hf. by right.
Qed.
End run.

(** ** Processes that share a world *)
(** One process performs its next effect; a process that is killed is one that
    is not chosen again. *)
Section threads.
Context {W A : Type} (perform : nat → ∀ a, W → W * res E (reply a)).

Definition threads : Type := W * list (prog A).
Definition turn (p : nat) (c : threads) : threads :=
  match c.2 !! p with
  | Some (Act a k) => let '(w, r) := perform p a c.1 in (w, <[p := k r]> c.2)
  | _ => c
  end.
(** The processes take turns in any order. *)
Definition schedule (ps : list nat) (c : threads) : threads := foldl (flip turn) c ps.
End threads.

(** A process keeps what it knows while the others run: [shared] relates the
    worlds before and after any step, [private p] those before and after a step
    of another process than [p]. *)
Section rely.
Context {W : Type} (perform : nat → ∀ a, W → W * res E (reply a)).
Context (inv : W → Prop) (shared : W → W → Prop) (private : nat → W → W → Prop).
Context `{!PreOrder shared} `{!∀ p, PreOrder (private p)}.
#[local] Set Default Proof Using "Type*".

Definition others (p : nat) (w w' : W) : Prop := shared w w' ∧ private p w w'.
Definition allowed (p : nat) (w w' : W) : Prop := inv w' ∧ shared w w' ∧ ∀ p', p' ≠ p → private p' w w'.

(** [rgr] speaks of every result, [rg] only of the process that goes on. *)
Fixpoint rgr (p : nat) {A} (m : prog A) (Q : res E A → W → Prop) (w : W) : Prop :=
  match m with
  | Done r => Q r w
  | Act a k => ∀ w1, inv w1 → others p w w1 →
      ∀ w2 r, perform p a w1 = (w2, r) → allowed p w1 w2 ∧ rgr p (k r) Q w2
  end.
Definition rg (p : nat) {A} (m : prog A) (Q : A → W → Prop) : W → Prop :=
  rgr p m (λ r w, match r with Ok x => Q x w | Err _ => True end).

Lemma rgr_mono p {A} (m : prog A) (Q Q' : res E A → W → Prop) w :
  rgr p m Q w → (∀ r w', Q r w' → Q' r w') → rgr p m Q' w.
Proof using Type.
  intros Hm HQ. revert w Hm. induction m as [r|a k IH]; intros w Hm; simpl in *; [by apply HQ|].
  intros w1 Hi Ho w2 r Hr. destruct (Hm w1 Hi Ho w2 r Hr). auto.
Qed.
Lemma rgr_bind p {A B} (m : prog A) (f : A → prog B) Q w :
  rgr p m (λ r w, match r with Ok x => rgr p (f x) Q w | Err e => Q (Err e) w end) w → rgr p (pbind m f) Q w.
Proof using Type.
  revert w. induction m as [[]|a k IH]; intros w; simpl; [done..|].
  intros Hm w1 Hi Ho w2 r Hr. destruct (Hm w1 Hi Ho w2 r Hr). auto.
Qed.
Lemma rgr_try p {A} (m : prog A) (h : E → prog A) Q w :
  rgr p m (λ r w, match r with Ok x => Q (Ok x) w | Err e => rgr p (h e) Q w end) w → rgr p (ptry m h) Q w.
Proof using Type.
  revert w. induction m as [[]|a k IH]; intros w; simpl; [done..|].
  intros Hm w1 Hi Ho w2 r Hr. destruct (Hm w1 Hi Ho w2 r Hr). auto.
Qed.
Lemma rgr_act p a (Q : res E (reply a) → W → Prop) w :
  (∀ w1, inv w1 → others p w w1 → ∀ w2 r, perform p a w1 = (w2, r) → allowed p w1 w2 ∧ Q r w2) → rgr p (act a) Q w.
Proof using Type. done. Qed.
Lemma rg_mono p {A} (m : prog A) (Q Q' : A → W → Prop) w :
  rg p m Q w → (∀ x w', shared w w' → Q x w' → Q' x w') → rg p m Q' w.
Proof. unfold rg.
  revert w. induction m as [[]|a k IH]; intros w Hm HQ; simpl in *; [by apply HQ|done|].
  intros w1 Hi [Hs Hp] w2 r Hr. destruct (Hm w1 Hi (conj Hs Hp) w2 r Hr) as [Ha Hk]. split; [done|].
  apply (IH r w2 Hk). intros x w' Hw'. apply HQ. destruct Ha as (_ & Ha & _). by do 2 (etrans; [eassumption|]).
Qed.
Lemma rg_ret p {A} (x : A) (Q : A → W → Prop) w : Q x w → rg p (pret x) Q w.
Proof using Type. unfold rg. done. Qed.
Lemma rg_raise p {A} e (Q : A → W → Prop) w : rg p (praise e) Q w.
Proof using Type. unfold rg. done. Qed.
Lemma rg_bind p {A B} (m : prog A) (f : A → prog B) Q w :
  rg p m (λ x, rg p (f x) Q) w → rg p (pbind m f) Q w.
Proof using Type. unfold rg.
  revert w. induction m as [[]|a k IH]; intros w; simpl; [done..|].
  intros Hm w1 Hi Ho w2 r Hr. destruct (Hm w1 Hi Ho w2 r Hr). auto.
Qed.
Lemma rg_else p {A B} (m : prog A) (h : E → prog B) (f : A → prog B) Q w :
  rg p m (λ x, rg p (f x) Q) w → (∀ e w', rg p (h e) Q w') → rg p (pelse m h f) Q w.
Proof using Type. unfold rg.
  intros Hm Hh. revert w Hm. induction m as [[]|a k IH]; intros w Hm; simpl; [done|apply Hh|].
  intros w1 Hi Ho w2 r Hr. destruct (Hm w1 Hi Ho w2 r Hr). auto.
Qed.
Lemma rg_try p {A} (m : prog A) (h : E → prog A) Q w :
  rg p m Q w → (∀ e w', rg p (h e) Q w') → rg p (ptry m h) Q w.
Proof using Type. unfold rg.
  intros Hm Hh. revert w Hm. induction m as [[]|a k IH]; intros w Hm; simpl; [done|apply Hh|].
  intros w1 Hi Ho w2 r Hr. destruct (Hm w1 Hi Ho w2 r Hr). auto.
Qed.
Lemma rg_when p b (m : prog unit) (Q : unit → W → Prop) w :
  (b = true → rg p m Q w) → (b = false → Q tt w) → rg p (pwhen b m) Q w.
Proof using Type. unfold rg. intros Ht Hf. destruct b; [by apply Ht|by apply Hf]. Qed.
Lemma rg_finally p {A} (m : prog A) f (Q : A → W → Prop) w :
  rg p m Q w → (∀ x w', Q x w' → rg p f (λ _, Q x) w') → (∀ w', rg p f (λ _ _, True) w') → rg p (pfinally m f) Q w.
Proof. unfold rg.
  intros Hm HQ Hf. apply rg_else.
  - eapply rg_mono; [exact Hm|]. intros x w' _ Hx. apply rg_bind. eapply rg_mono; [by apply HQ|]. by intros [] w2 _ Hw2.
  - intros e w'. apply rg_bind. by eapply rg_mono; [apply Hf|].
Qed.
Lemma rg_act p a (Q : reply a → W → Prop) w :
  (∀ w1, inv w1 → others p w w1 → ∀ w2 r, perform p a w1 = (w2, r) →
    allowed p w1 w2 ∧ match r with Ok x => Q x w2 | Err _ => True end) →
  rg p (act a) Q w.
Proof using Type. unfold rg. intros Ha w1 Hi Ho w2 r Hr. destruct (Ha w1 Hi Ho w2 r Hr). split; [done|]. by destruct r. Qed.

Lemma rg_others p {A} (m : prog A) Q w w' :
  (∀ x w1 w2, others p w1 w2 → Q x w1 → Q x w2) → rg p m Q w → others p w w' → rg p m Q w'.
Proof. unfold rg.
  intros HQ. destruct m as [[]|a k]; simpl; [naive_solver|done|]. intros Hm [Hs Hp] w1 Hi [Hs1 Hp1].
  apply Hm; [done|]. split; by etrans.
Qed.

(** A process that runs alone. *)
Lemma rg_run p {A} (m : prog A) (Q : A → W → Prop) w w' x :
  rg p m Q w → inv w → run (perform p) m w = (w', Ok x) → inv w' ∧ Q x w'.
Proof.
  unfold rg. revert w. induction m as [r|a k IH]; intros w Hm Hi; simpl.
  - intros [= <- ->]. done.
  - destruct (perform p a w) as [w1 r] eqn:Hr. destruct (Hm w Hi (conj (reflexivity w) (reflexivity w)) w1 r Hr) as [(Hi1 & _) Hk].
    by apply IH.
Qed.

(** Whatever the order of the turns, the invariant holds and every process that
    has returned has its postcondition. *)
Lemma rg_sound {A} (post : nat → A → W → Prop) ps (w : W) (ms : list (prog A)) :
  (∀ p x w1 w2, others p w1 w2 → post p x w1 → post p x w2) →
  inv w → (∀ p m, ms !! p = Some m → rg p m (post p) w) →
  let c := schedule perform ps (w, ms) in
  inv c.1 ∧ ∀ p m, c.2 !! p = Some m → rg p m (post p) c.1.
Proof.
  intros Hpost. revert w ms. induction ps as [|p ps IH]; intros w ms Hi Hms; [done|].
  change (schedule perform (p :: ps) (w, ms)) with (schedule perform ps (turn perform p (w, ms))).
  destruct (turn perform p (w, ms)) as [w2 ms2] eqn:Ht. unfold turn in Ht. simpl in Ht.
  destruct (ms !! p) as [[r|a k]|] eqn:Hp; [injection Ht as <- <-; by apply IH| |injection Ht as <- <-; by apply IH].
  destruct (perform p a w) as [w1 r] eqn:Hr. injection Ht as <- <-.
  destruct (Hms p _ Hp w Hi (conj (reflexivity w) (reflexivity w)) w1 r Hr) as [(Hi2 & Hs & Hpr) Hk].
  apply IH; [done|]. intros p' m. destruct (decide (p' = p)) as [->|Hne].
  - rewrite list_lookup_insert_eq by (by eapply lookup_lt_Some). by intros [= <-].
  - rewrite list_lookup_insert_ne by done. intros Hm. apply (rg_others p' _ _ w); [apply Hpost|by apply Hms|].
    split; [done|]. by apply Hpr.
Qed.
End rely.
End prog.
Arguments prog {action} reply E A. Arguments Done {action reply E A}. Arguments Act {action reply E A}.


#[global] Arguments pbind : simpl never. #[global] Arguments ptry : simpl never. #[global] Arguments pelse : simpl never.
#[global] Arguments wpc : simpl never. #[global] Arguments rgr : simpl never. #[global] Arguments pfinally : simpl never. #[global] Arguments act : simpl never. #[global] Arguments pwhen : simpl never.

Declare Scope prog_scope.
Notation "'let*' x := m 'in' k" := (pbind m (λ x, k)) (at level 100, x binder, m at level 99, k at level 200, right associativity) : prog_scope.
Notation "'do*' m 'in' k" := (pbind m (λ _, k)) (at level 100, m at level 99, k at level 200, right associativity) : prog_scope.
