(* ===== verification/LiveWorld.v ===== *)
(** * The world of a live backup

    What runtime/qemu.py and qmp.py touch while they copy the disk of a running
    computer: QEMU, behind its monitor; the snapshot folders with their images
    and journals; the tools and clocks of the host.  QEMU is a parameter, the
    class [Qemu]; [QemuLaws] states what its documentation promises of nodes,
    jobs and the images they write.  The answers of the host are functions of
    the number of the call. *)
From S2P Require Import Prelude PyStr PyDatetime Types CrashProg.
From stdpp Require Import options.

(** ** Values *)
(** A JSON value inside a journal; a float says which integer it equals. *)
Inductive json :=
| JNull
| JBool (b : bool)
| JInt (z : Z)
| JFloat (z : option Z)
| JString (s : string)
| JComposite.
#[global] Instance json_eq_dec : EqDecision json.
Proof. solve_decision. Defined.
Abbreviation payload := (gmap string json).
(** A text file: no JSON, a JSON value that is no object, an object. *)
Inductive text := Garbage | Value | Object (p : payload).
(** An image is known by its inode, which renaming keeps. *)
Inductive entry := Image (i : nat) | Text (t : text) | Link.
(** A directory under the snapshot directory; an alias resolves elsewhere. *)
Record folder := { fo_alias : bool; fo_files : gmap string entry }.

(** ** The monitor of QEMU *)
(** A row of query-jobs, as far as it is read. *)
Record QMPJob := { job_id : string; job_status : string; job_error : option string }.
(** A row of dirty-bitmaps, before it is checked. *)
Record bitmap_row := {
  br_name : option string;
  br_recording : json; br_busy : json; br_persistent : json; br_inconsistent : option json;
  br_granularity : json; br_count : json }.
(** A row of query-named-block-nodes; its dirty-bitmaps are absent, no list or a
    list. *)
Record node_row := { nr_name : option string; nr_bitmaps : option (option (list bitmap_row)) }.

Record backup_args := {
  ba_job : string; ba_source : string; ba_target : string; ba_incremental : bool;
  ba_bitmap : option string; ba_speed : option Z }.
Inductive qmp_command :=
| QConnect
| QueryCommands
| QueryJobs
| QueryNodes
| BlockdevAdd (node : string) (sid file : string)
| BlockdevDel (node : string)
| BlockdevBackup (b : backup_args)
| BitmapAndBackup (node bitmap : string) (b : backup_args)
| BitmapRemove (node bitmap : string)
| JobCancel (id : string)
| BlockJobCancel (id : string)
| JobDismiss (id : string).
Definition qmp_reply (c : qmp_command) : Type :=
  match c with
  | QueryCommands => option (list string)
  | QueryJobs => list QMPJob
  | QueryNodes => option (list node_row)
  | _ => unit
  end.

(** [qmp c i] sends one command; [i] is the inode of the file it names, if it
    names one that exists.  An error carries QEMU's description. *)
Class Qemu (Q : Type) := qmp : ∀ c : qmp_command, option nat → Q → Q * res string (qmp_reply c).

(** ** What QEMU promises *)
Inductive job_state := Running | Succeeded | Failed.
#[global] Instance job_state_eq_dec : EqDecision job_state.
Proof. solve_decision. Defined.
(** What a finished backup leaves in its target: with [sync=full] a copy of the
    whole source node, with [sync=incremental] the clusters of the source that
    its bitmap had marked as changed. *)
Inductive content := Whole (source : string) | Changes (source bitmap : string).
#[global] Instance content_eq_dec : EqDecision content.
Proof. solve_decision. Defined.
#[global] Instance content_countable : Countable content.
Proof.
  refine (inj_countable' (λ k, match k with Whole s => (s, None) | Changes s b => (s, Some b) end)
    (λ p, match p.2 with None => Whole p.1 | Some b => Changes p.1 b end) _). by intros [].
Defined.
(** QEMU refuses an incremental backup without a bitmap. *)
Definition backup_content (b : backup_args) : option content :=
  if ba_incremental b then Changes (ba_source b) <$> ba_bitmap b else Some (Whole (ba_source b)).
(** A job; a backup job has a target node, open on an image it accounts for, and
    a content it writes there. *)
Record job := { jb_backup : option (string * (nat * content)); jb_state : job_state }.
(** [qv_nodes]: the named nodes and the images they are open on; [qv_holds]: the
    images and what finished backups have written in them. *)
Record qview := { qv_nodes : gmap string nat; qv_jobs : gmap string job; qv_holds : gset (nat * content) }.

(** Between two commands jobs go on; what has ended stays as it ended. *)
Record goes_on (v v' : qview) : Prop := {
  go_nodes : qv_nodes v' = qv_nodes v;
  go_jobs : ∀ j, match qv_jobs v !! j, qv_jobs v' !! j with
                 | Some b, Some b' => jb_backup b' = jb_backup b ∧ (jb_state b ≠ Running → jb_state b' = jb_state b)
                 | None, None => True
                 | _, _ => False
                 end;
  go_holds : qv_holds v ⊆ qv_holds v' }.

(** A backup that ended well has written its content; one that is not finished
    holds its target node, on that image. *)
Definition qview_ok (v : qview) : Prop :=
  ∀ j b n x, qv_jobs v !! j = Some b → jb_backup b = Some (n, x) →
    (jb_state b = Succeeded → x ∈ qv_holds v) ∧ (jb_state b = Running → qv_nodes v !! n = Some x.1).

Definition concluded_well (r : QMPJob) : bool := String.eqb (job_status r) "concluded" && bool_decide (job_error r = None).
Definition set_nodes m v := {| qv_nodes := m; qv_jobs := qv_jobs v; qv_holds := qv_holds v |}.
Definition set_jobs m v := {| qv_nodes := qv_nodes v; qv_jobs := m; qv_holds := qv_holds v |}.
(** A job that has ended no longer accounts for an image that is written again. *)
Definition overwritten (i : nat) (b : job) : job :=
  match jb_backup b with
  | Some (_, (i', _)) =>
      if bool_decide (i' = i ∧ jb_state b ≠ Running) then {| jb_backup := None; jb_state := jb_state b |} else b
  | None => b
  end.
(** A new backup makes its image incomplete until it ends, and writes what its
    source, its mode and its bitmap say. *)
Definition started (b : backup_args) (v v' : qview) : Prop :=
  ∃ i k, qv_nodes v !! ba_target b = Some i ∧ backup_content b = Some k ∧ qv_jobs v !! ba_job b = None
    ∧ v' = {| qv_nodes := qv_nodes v;
              qv_jobs := <[ba_job b := {| jb_backup := Some (ba_target b, (i, k)); jb_state := Running |}]> (overwritten i <$> qv_jobs v);
              qv_holds := filter (λ x, x.1 ≠ i) (qv_holds v) |}.
(** A job that is cancelled fails at once or a little later. *)
Definition cancelled (j : string) (v v' : qview) : Prop :=
  v' = v ∨ ∃ b, qv_jobs v !! j = Some b ∧ v' = set_jobs (<[j := {| jb_backup := jb_backup b; jb_state := Failed |}]> (qv_jobs v)) v.

(** What a command does when it is carried out, and what it answers. *)
Definition effect (c : qmp_command) (file : option nat) (v v' : qview) : qmp_reply c → Prop :=
  match c with
  | QueryJobs => λ rows, v' = v ∧ (∀ j, is_Some (qv_jobs v !! j) ↔ ∃ r, r ∈ rows ∧ job_id r = j)
      ∧ ∀ r b, r ∈ rows → qv_jobs v !! job_id r = Some b → concluded_well r = true → jb_state b = Succeeded
  | QueryNodes => λ rows, v' = v ∧ ∀ l n, rows = Some l → is_Some (qv_nodes v !! n) → ∃ r, r ∈ l ∧ nr_name r = Some n
  | BlockdevAdd n _ _ => λ _, ∃ i, file = Some i ∧ qv_nodes v !! n = None ∧ v' = set_nodes (<[n := i]> (qv_nodes v)) v
  | BlockdevDel n => λ _, (∀ j b x, qv_jobs v !! j = Some b → jb_backup b = Some (n, x) → jb_state b ≠ Running)
      ∧ v' = set_nodes (delete n (qv_nodes v)) v
  | BlockdevBackup b => λ _, started b v v'
  | BitmapAndBackup _ _ b => λ _, started b v v'
  | JobCancel j | BlockJobCancel j => λ _, cancelled j v v'
  | JobDismiss j => λ _, (∃ b, qv_jobs v !! j = Some b ∧ jb_state b ≠ Running) ∧ v' = set_jobs (delete j (qv_jobs v)) v
  | QConnect | QueryCommands | BitmapRemove _ _ => λ _, v' = v
  end.

(** Jobs go on, then the command is carried out; after an error it may or may
    not have been: its answer can be lost. *)
Class QemuLaws (Q : Type) `{!Qemu Q} := {
  q_ok : Q → Prop;
  q_view : Q → qview;
  law_view_ok q : q_ok q → qview_ok (q_view q);
  law_qmp c i q q' r : q_ok q → qmp c i q = (q', r) →
    q_ok q' ∧ ∃ v, goes_on (q_view q) v ∧ qview_ok v ∧
      match r with
      | Ok x => effect c i v (q_view q') x
      | Err _ => q_view q' = v ∨ ∃ x, effect c i v (q_view q') x
      end }.

(** ** Effects *)
Inductive img_command :=
| ImgInfoDisk (disk : string)
| ImgMeasure (disk : string)
| ImgCreate (sid file : string) (size : Z)
| ImgCheck (sid file : string)
| ImgInfo (sid file : string).
(** A finished qemu-img: its status, its messages, and what its JSON output says
    when it can be read: a size, and a backing file. *)
Record img_done := { im_code : Z; im_stderr : string; im_size : option Z; im_backing : option (option string) }.
Inductive img_run := ImgDone (d : img_done) | ImgTimeout | ImgError (msg : string).

Inductive action :=
| Qmp (c : qmp_command)
| Glob
| Resolves (sid : string)
| Find (sid file : string)
| Write (sid file : string) (p : payload)
| Replace (sid a b : string)
| Unlink (sid file : string)
| Rmdir (sid : string)
| Which
| Img (c : img_command)
| Free (sid : string)
| TimeLeft
| Uuid
| Now
| Polls.
Definition reply (a : action) : Type :=
  match a with
  | Qmp c => qmp_reply c
  | Glob => list string
  | Resolves _ => bool
  | Find _ _ => option entry
  | Which => bool
  | Img _ => img_run
  | Free _ => Z
  | TimeLeft => bool
  | Uuid => string
  | Now => datetime
  | Polls => nat
  | _ => unit
  end.

(** What the details of an error say beyond its message; [d_desc] is QEMU's
    description. *)
Record details := { d_desc : string; d_command : option string; d_cleanup_pending : bool; d_capture_pending : bool; d_ambiguous : bool }.
Definition no_details : details := {| d_desc := ""; d_command := None; d_cleanup_pending := false; d_capture_pending := false; d_ambiguous := false |}.
Definition qmp_details (desc : string) : details :=
  {| d_desc := desc; d_command := None; d_cleanup_pending := false; d_capture_pending := false; d_ambiguous := false |}.
Inductive error :=
| Celesto (msg : string) (d : details)
| JobFailed (id : string)
| JobTimeout (id : string)
| OperationTimeout (operation : string) (d : details)
| BitmapStateError (bitmap reason : string) (d : details)
| OSErr (msg : string)
| FileNotFound
| TypeErr
| ValueErr (msg : string).
Definition details_of (e : error) : details :=
  match e with Celesto _ d | OperationTimeout _ d | BitmapStateError _ _ d => d | _ => no_details end.
Definition is_oserror (e : error) : bool := match e with OSErr _ | FileNotFound => true | _ => false end.
Definition is_missing (e : error) : bool := match e with FileNotFound => true | _ => false end.
Definition any_error (e : error) : bool := true.

Abbreviation prog A := (CrashProg.prog reply error A).
Abbreviation act := (@CrashProg.act action reply error).

(** The answers of the host: [l_os] is the error of a file operation, [l_makes]
    whether a failed qemu-img create left its file. *)
Record lenv := {
  l_dir : string;
  l_os : nat → option string;
  l_order : nat → list string → list string;
  l_which : nat → bool;
  l_img : nat → img_run;
  l_makes : nat → bool;
  l_free : nat → option Z;
  l_left : nat → bool;
  l_uuid : nat → string;
  l_now : nat → datetime;
  l_polls : nat → nat }.

Record world (Q : Type) := { w_qemu : Q; w_dirs : gmap string folder; w_tick : nat; w_inode : nat }.
Arguments w_qemu {Q}. Arguments w_dirs {Q}. Arguments w_tick {Q}. Arguments w_inode {Q}.

Definition journal : string := "live-backup.json".

Section perform.
Context (L : lenv) {Q : Type} `{!Qemu Q}.
Implicit Types w : world Q.
Definition set_qemu q w : world Q := {| w_qemu := q; w_dirs := w_dirs w; w_tick := w_tick w; w_inode := w_inode w |}.
Definition set_dirs d w : world Q := {| w_qemu := w_qemu w; w_dirs := d; w_tick := w_tick w; w_inode := w_inode w |}.
Definition new_inode w : world Q := {| w_qemu := w_qemu w; w_dirs := w_dirs w; w_tick := w_tick w; w_inode := S (w_inode w) |}.
Definition ticked w : world Q := {| w_qemu := w_qemu w; w_dirs := w_dirs w; w_tick := S (w_tick w); w_inode := w_inode w |}.

Definition file_at w (sid file : string) : option entry := fo ← w_dirs w !! sid; fo_files fo !! file.
Definition with_files (f : gmap string entry → gmap string entry) (fo : folder) : folder :=
  {| fo_alias := fo_alias fo; fo_files := f (fo_files fo) |}.
Definition put_file (sid file : string) (e : entry) w : world Q :=
  set_dirs (alter (with_files (insert file e)) sid (w_dirs w)) w.
Definition drop_file (sid file : string) w : world Q :=
  set_dirs (alter (with_files (delete file)) sid (w_dirs w)) w.
Definition image_at w (sid file : string) : option nat :=
  match file_at w sid file with Some (Image i) => Some i | _ => None end.
(** The image a command names. *)
Definition named_image w (c : qmp_command) : option nat :=
  match c with BlockdevAdd _ sid file => image_at w sid file | _ => None end.

(** A file operation that the system may refuse. *)
Definition host_op {A} w (m : world Q * res error A) : world Q * res error A :=
  match l_os L (w_tick w) with Some e => (ticked w, Err (OSErr e)) | None => m end.
Definition has_journal (fo : folder) : bool := bool_decide (is_Some (fo_files fo !! journal)).
Definition journals w : list string := (filter (λ p, has_journal p.2 = true) (map_to_list (w_dirs w))).*1.

Definition perform (a : action) (w : world Q) : world Q * res error (reply a) :=
  let n := w_tick w in
  let w1 := ticked w in
  match a with
  | Qmp c =>
      let '(q, r) := qmp c (named_image w c) (w_qemu w) in
      (set_qemu q w1, match r with Ok x => Ok x | Err e => Err (Celesto e (qmp_details e)) end)
  | Glob => (w1, Ok (l_order L n (journals w)))
  | Resolves sid => (w1, Ok (match w_dirs w !! sid with Some fo => negb (fo_alias fo) | None => false end))
  | Find sid file => (w1, Ok (file_at w sid file))
  | Write sid file p =>
      match w_dirs w !! sid, l_os L n with
      | None, _ => (w1, Err FileNotFound)
      | Some _, Some e => (if l_makes L n then put_file sid file (Text Garbage) w1 else w1, Err (OSErr e))
      | Some _, None => (put_file sid file (Text (Object p)) w1, Ok tt)
      end
  | Replace sid a b =>
      match file_at w sid a with
      | None => (w1, Err FileNotFound)
      | Some e => host_op w (put_file sid b e (drop_file sid a w1), Ok tt)
      end
  | Unlink sid file =>
      match file_at w sid file with
      | None => (w1, Err FileNotFound)
      | Some _ => host_op w (drop_file sid file w1, Ok tt)
      end
  | Rmdir sid =>
      match w_dirs w !! sid with
      | None => (w1, Err FileNotFound)
      | Some fo =>
          if bool_decide (fo_files fo = ∅) && negb (fo_alias fo)
          then host_op w (set_dirs (delete sid (w_dirs w)) w1, Ok tt)
          else (w1, Err (OSErr "Directory not empty"))
      end
  | Which => (w1, Ok (l_which L n))
  | Img c =>
      (match c with
       | ImgCreate sid file _ =>
           let made := match l_img L n with ImgDone d => (im_code d =? 0)%Z | _ => false end in
           if made || l_makes L n then new_inode (put_file sid file (Image (w_inode w)) w1) else w1
       | _ => w1
       end, Ok (l_img L n))
  | Free _ => (w1, match l_free L n with Some b => Ok b | None => Err (OSErr "disk usage") end)
  | TimeLeft => (w1, Ok (l_left L n))
  | Uuid => (w1, Ok (l_uuid L n))
  | Now => (w1, Ok (l_now L n))
  | Polls => (w1, Ok (l_polls L n))
  end.
End perform.
