(* ===== verification/QmpClient.v ===== *)
(** * qmp.py: the client of QEMU's monitor

    The calls a live backup makes, with the checks qmp.py makes on the answers.
    [wait_for_job] is the loop of celesto-core/src/qmp.rs; how many polls fit in
    before its deadline is an answer of the host. *)
From S2P Require Import Prelude PyStr Types CrashProg LiveWorld.
From stdpp Require Import options.
Open Scope prog_scope.

Record QMPDirtyBitmap := {
  bm_name : string; bm_recording : bool; bm_busy : bool; bm_persistent : bool; bm_inconsistent : bool;
  bm_granularity : Z; bm_dirty_bytes : Z }.

Definition celesto (msg : string) : error := Celesto msg no_details.

Definition connect : prog unit := act (Qmp QConnect).
(** [QemuRuntimeAdapter._client] *)
Definition _client (control_socket_path : option path) : prog unit :=
  match control_socket_path with
  | None => praise (celesto "Computer has no QMP socket path")
  | Some _ => connect
  end.
Definition query_commands : prog (list string) :=
  let* rows := act (Qmp QueryCommands) in
  match rows with
  | Some l => pret l
  | None => praise (celesto "QEMU returned an invalid command list.")
  end.
Definition query_named_block_nodes : prog (list node_row) :=
  let* rows := act (Qmp QueryNodes) in
  match rows with
  | Some l => pret l
  | None => praise (celesto "QEMU returned an invalid block-node list.")
  end.

Definition as_bool (j : json) : option bool := match j with JBool b => Some b | _ => None end.
(** An integer that is no bool and not negative. *)
Definition as_count (j : json) : option Z := match j with JInt z => if (z <? 0)%Z then None else Some z | _ => None end.
(** [None]: the row is left out; [Some None]: the whole answer is refused. *)
Definition check_bitmap (r : bitmap_row) : option (option QMPDirtyBitmap) :=
  name ← br_name r;
  Some (
    recording ← as_bool (br_recording r);
    busy ← as_bool (br_busy r);
    persistent ← as_bool (br_persistent r);
    inconsistent ← as_bool (default (JBool false) (br_inconsistent r));
    granularity ← as_count (br_granularity r);
    count ← as_count (br_count r);
    Some {| bm_name := name; bm_recording := recording; bm_busy := busy; bm_persistent := persistent;
            bm_inconsistent := inconsistent; bm_granularity := granularity; bm_dirty_bytes := count |}).
Fixpoint check_bitmaps (l : list bitmap_row) : option (list QMPDirtyBitmap) :=
  match l with
  | [] => Some []
  | r :: l =>
      match check_bitmap r with
      | None => check_bitmaps l
      | Some None => None
      | Some (Some b) => cons b <$> check_bitmaps l
      end
  end.
Definition query_dirty_bitmaps (source_node : string) : prog (list QMPDirtyBitmap) :=
  let* nodes := query_named_block_nodes in
  match list_find (λ r, nr_name r = Some source_node) nodes with
  | None => praise (celesto "QEMU did not report the source disk block node.")
  | Some (_, node) =>
      match nr_bitmaps node with
      | None => pret []
      | Some None => praise (celesto "QEMU returned invalid dirty bitmap status.")
      | Some (Some rows) =>
          match check_bitmaps rows with
          | Some l => pret l
          | None => praise (celesto "QEMU returned invalid dirty bitmap status.")
          end
      end
  end.

Definition blockdev_add (node sid file : string) : prog unit := act (Qmp (BlockdevAdd node sid file)).
Definition blockdev_del (node : string) : prog unit := act (Qmp (BlockdevDel node)).
Definition _backup_arguments (job source target : string) (incremental : bool) (bitmap : option string) (speed : option Z)
  : backup_args :=
  {| ba_job := job; ba_source := source; ba_target := target; ba_incremental := incremental;
     ba_bitmap := bitmap; ba_speed := speed |}.
Definition blockdev_backup (job source target : string) (speed : option Z) : prog unit :=
  act (Qmp (BlockdevBackup (_backup_arguments job source target false None speed))).
Definition start_full_backup_with_dirty_bitmap (job source target bitmap : string) (speed : option Z) : prog unit :=
  act (Qmp (BitmapAndBackup source bitmap (_backup_arguments job source target false None speed))).
Definition blockdev_backup_incremental (job source target bitmap : string) (speed : option Z) : prog unit :=
  act (Qmp (BlockdevBackup (_backup_arguments job source target true (Some bitmap) speed))).
Definition cancel_job (id : string) (force : bool) : prog unit :=
  if force then act (Qmp (BlockJobCancel id)) else act (Qmp (JobCancel id)).
Definition remove_dirty_bitmap (node bitmap : string) : prog unit := act (Qmp (BitmapRemove node bitmap)).
Definition query_jobs : prog (list QMPJob) := act (Qmp QueryJobs).
Definition dismiss_job (id : string) : prog unit := act (Qmp (JobDismiss id)).

Fixpoint poll_job (id : string) (polls : nat) : prog unit :=
  match polls with
  | O => praise (JobTimeout id)
  | S polls =>
      let* rows := query_jobs in
      match list_find (λ r, job_id r = id) rows with
      | Some (_, r) =>
          if String.eqb (job_status r) "concluded" then
            match job_error r with
            | Some _ => praise (JobFailed id)
            | None => psuppress any_error (dismiss_job id)
            end
          else poll_job id polls
      | None => poll_job id polls
      end
  end.
Definition wait_for_job (id : string) : prog unit :=
  let* polls := act Polls in poll_job id polls.
