(* ===== verification/LiveBackup.v ===== *)
(** * runtime/qemu.py: the live backup of a running disk

    [_cleanup_live_backup] and [_create_live_disk_snapshot] with what they call.
    The handler of the second reads the journal entry as it was when the
    exception came, so every step of its body is given that entry
    ([guarded]). *)
From S2P Require Import Prelude PyStr PyDatetime Types Snapshots CrashProg LiveWorld QmpClient.
From stdpp Require Import sorting options.
Open Scope prog_scope.

Definition QEMU_ROOT_NODE_NAME : string := "rootdisk0".
Definition _LIVE_BACKUP_JOB_PREFIX : string := "svmbj-".
Definition _LIVE_BACKUP_NODE_PREFIX : string := "svmbn-".
Definition _LIVE_BACKUP_OPERATION_ID_LENGTH : nat := 16.
Definition _QEMU_BLOCK_NODE_NAME_MAX : nat := 31.
Definition _LIVE_BACKUP_PHASES : list string :=
  ["target-created"; "node-attached"; "job-running"; "job-concluded"; "node-detached"; "artifact-published"].
Definition _LIVE_BACKUP_REQUIRED_COMMANDS : list string :=
  ["blockdev-add"; "blockdev-backup"; "blockdev-del"; "job-cancel"; "job-dismiss"; "query-jobs"; "query-named-block-nodes"].
Definition _DIRTY_BITMAP_BACKUP_REQUIRED_COMMANDS : list string :=
  ["block-dirty-bitmap-add"; "block-dirty-bitmap-remove"; "block-job-cancel"; "transaction"].

(** ** Names *)
Definition _live_backup_identifiers (operation_id : string) : res error (string * string) :=
  let node := _LIVE_BACKUP_NODE_PREFIX +:+ operation_id in
  if (_QEMU_BLOCK_NODE_NAME_MAX <? String.length node)%nat
  then Err (ValueErr "QEMU block node name exceeds 31 characters")
  else Ok (_LIVE_BACKUP_JOB_PREFIX +:+ operation_id, node).
Definition lower_hex (c : Ascii.ascii) : bool := contains_char c "0123456789abcdef".
(** [s.removeprefix(prefix)] *)
Definition removeprefix (prefix s : string) : string :=
  if startswith prefix s then String.substring (String.length prefix) (String.length s - String.length prefix) s else s.
Definition _live_backup_operation_id (job_id target_node : string) : option string :=
  if negb (startswith _LIVE_BACKUP_JOB_PREFIX job_id) then None
  else
    let operation_id := removeprefix _LIVE_BACKUP_JOB_PREFIX job_id in
    if negb (String.length operation_id =? _LIVE_BACKUP_OPERATION_ID_LENGTH)%nat
       || negb (str_all lower_hex operation_id)
       || negb (String.eqb target_node (_LIVE_BACKUP_NODE_PREFIX +:+ operation_id))
    then None else Some operation_id.

Definition _qemu_img_install_hint : string :=
  "Install it with 'sudo apt-get install -y qemu-utils' on Debian/Ubuntu, " +:+
  "'sudo dnf install -y qemu-img' or 'sudo yum install -y qemu-img' " +:+
  "on Fedora/RHEL, or 'sudo pacman -S --needed qemu-base' on Arch; " +:+
  "then verify 'qemu-img' is on PATH.".

(** ** Errors *)
Inductive bitmap_mode := NewBase | Incremental.
#[global] Instance bitmap_mode_eq_dec : EqDecision bitmap_mode.
Proof. solve_decision. Defined.
Definition mode_name (m : bitmap_mode) : string := match m with NewBase => "new-base" | Incremental => "incremental" end.
(** The fields of [SnapshotCreateRequest] that a live backup reads. *)
Record live_request := {
  rq_vm : string;
  rq_snapshot : string;
  rq_disk : path;
  rq_status : VMState;
  rq_type : SnapshotType;
  rq_speed : option Z;
  rq_bitmap : option (bitmap_mode * string) }.

Definition computer (vm : string) : string := "computer '" +:+ vm +:+ "'".
Definition _live_backup_fallback_command (q : live_request) : string :=
  "celesto computer snapshot create " +:+ rq_vm q +:+ " --snapshot-id " +:+ rq_snapshot q
  +:+ " --snapshot-type disk --resume-source".
Definition _bitmap_snapshot_command (vm sid : string) : string :=
  "celesto computer snapshot create " +:+ vm +:+ " --snapshot-id " +:+ sid
  +:+ " --snapshot-type disk --resume-source --live-only".
Definition _bitmap_recovery_clear_command (sid : string) : string := "celesto computer snapshot delete " +:+ sid.
Definition _bitmap_recovery_error (fact recovery : string) (command : option string) (ambiguous : bool) : error :=
  Celesto (fact +:+ " " +:+ recovery)
    {| d_desc := ""; d_command := command; d_cleanup_pending := false; d_capture_pending := true; d_ambiguous := ambiguous |}.
Definition _live_backup_error (q : live_request) (fact : string) (pending : bool) : error :=
  Celesto (fact +:+ "; retry with '" +:+ _live_backup_fallback_command q +:+ "' to allow a brief pause.")
    {| d_desc := ""; d_command := Some (_live_backup_fallback_command q); d_cleanup_pending := pending; d_capture_pending := false;
       d_ambiguous := false |}.
Definition live_error (q : live_request) (fact : string) : error := _live_backup_error q fact false.
Definition _live_backup_timeout_error (q : live_request) : error :=
  OperationTimeout ("Live snapshot for " +:+ computer (rq_vm q))
    {| d_desc := ""; d_command := Some (_live_backup_fallback_command q); d_cleanup_pending := false; d_capture_pending := false;
       d_ambiguous := false |}.
Definition bitmap_state_error (q : live_request) (name reason : string) : error :=
  BitmapStateError name reason
    {| d_desc := ""; d_command := Some (_live_backup_fallback_command q); d_cleanup_pending := false; d_capture_pending := false;
       d_ambiguous := false |}.

(** ** Tools *)
Definition _write_live_backup_manifest (sid : string) (p : payload) : prog unit :=
  do* act (Write sid "live-backup.tmp" p) in act (Replace sid "live-backup.tmp" journal).
Definition _remaining_live_backup_timeout (q : live_request) : prog unit :=
  let* time_left := act TimeLeft in if time_left then pret tt else praise (_live_backup_timeout_error q).
Definition _run_live_backup_subprocess (q : live_request) (c : img_command) : prog img_done :=
  do* _remaining_live_backup_timeout q in
  let* r := act (Img c) in
  match r with
  | ImgDone d => pret d
  | ImgTimeout => praise (_live_backup_timeout_error q)
  | ImgError _ => praise (live_error q ("qemu-img could not run for " +:+ computer (rq_vm q)))
  end.
Definition _qemu_img_virtual_size (q : live_request) : prog Z :=
  let* found := act Which in
  if negb found then praise (live_error q ("Install qemu-img to snapshot " +:+ computer (rq_vm q)))
  else
    let* d := _run_live_backup_subprocess q (ImgInfoDisk (rq_disk q)) in
    if negb (im_code d =? 0)%Z
    then praise (live_error q ("The disk for " +:+ computer (rq_vm q) +:+ " could not be inspected"))
    else match im_size d with
         | Some size => pret size
         | None => praise (live_error q ("The disk size for " +:+ computer (rq_vm q) +:+ " could not be read"))
         end.
Definition _validate_live_backup_artifact (q : live_request) (sid file : string) : prog unit :=
  let* check := _run_live_backup_subprocess q (ImgCheck sid file) in
  if negb (im_code check =? 0)%Z
  then praise (live_error q ("The live snapshot for " +:+ computer (rq_vm q) +:+ " was invalid"))
  else
    let* d := _run_live_backup_subprocess q (ImgInfo sid file) in
    if negb (im_code d =? 0)%Z
    then praise (live_error q ("The live snapshot for " +:+ computer (rq_vm q) +:+ " could not be verified"))
    else match im_backing d with
         | None => praise (live_error q ("The live snapshot details for " +:+ computer (rq_vm q) +:+ " were invalid"))
         | Some backing =>
             if truthy_str backing
             then praise (live_error q ("The live snapshot for " +:+ computer (rq_vm q) +:+ " was not self-contained"))
             else pret tt
         end.
Definition _require_live_backup_space (q : live_request) (required_bytes : option Z) : prog unit :=
  let* required :=
    match required_bytes with
    | Some b => pret b
    | None =>
        let* d := _run_live_backup_subprocess q (ImgMeasure (rq_disk q)) in
        if negb (im_code d =? 0)%Z
        then praise (live_error q ("The live snapshot size for " +:+ computer (rq_vm q) +:+ " could not be estimated"))
        else match im_size d with
             | Some size => pret size
             | None => praise (live_error q ("The live snapshot size for " +:+ computer (rq_vm q) +:+ " was invalid"))
             end
    end in
  let headroom := Z.max (256 * 1024 * 1024) (required / 10) in
  let* free := ptry (act (Free (rq_snapshot q)))
                 (λ e, if is_oserror e
                       then praise (live_error q ("Free space for " +:+ computer (rq_vm q) +:+ " could not be checked"))
                       else praise e) in
  if (free <? required + headroom)%Z
  then praise (live_error q ("Free local space before snapshotting " +:+ computer (rq_vm q)))
  else pret tt.

Definition _job_ids : prog (list string) := let* rows := query_jobs in pret (remove_dups (map job_id rows)).
Definition _node_names : prog (list string) := let* rows := query_named_block_nodes in pret (remove_dups (omap nr_name rows)).

(** ** _cleanup_live_backup *)
Definition plift {A} (r : res error A) : prog A := Done r.
Lemma bind_lift {A B} (x : A) (f : A → prog B) : pbind (plift (Ok x)) f = f x.
Proof. done. Qed.
(** The job is asked to stop and waited for, its node is detached; any error
    leaves the cleanup pending. *)
Definition detach (job node : string) : prog unit :=
  let* ids := _job_ids in
  do* pwhen (bool_decide (job ∈ ids)) (
    do* psuppress any_error (cancel_job job false) in
    do* ptry (wait_for_job job) (λ _,
          do* psuppress any_error (cancel_job job true) in
          psuppress any_error (wait_for_job job)) in
    psuppress any_error (dismiss_job job)) in
  let* names := _node_names in
  pwhen (bool_decide (node ∈ names)) (blockdev_del node).
Definition partial_name (artifact : string) : string := artifact +:+ ".partial".
Definition _cleanup_live_backup (job_id target_node : string) (artifact_root : option string) (artifact_filename : string)
  : prog bool :=
  match _live_backup_operation_id job_id target_node with
  | None => pret false
  | Some operation_id =>
      let* ids := plift (_live_backup_identifiers operation_id) in
      let* artifacts :=
        match artifact_root with
        | None => pret (Some [])
        | Some sid =>
            let* inside := act (Resolves sid) in
            if negb inside then pret None
            else if bool_decide (artifact_filename ∈ ["disk.qcow2"; "increment.qcow2"])
            then pret (Some [(sid, partial_name artifact_filename); (sid, artifact_filename)])
            else pret None
        end in
      match artifacts with
      | None => pret false
      | Some files =>
          pelse (detach ids.1 ids.2) (λ _, pret false)
            (λ _, do* pfor files (λ f, psuppress is_missing (act (Unlink f.1 f.2))) in pret true)
      end
  end.

(** ** _create_live_disk_snapshot *)
Definition phase_of (p : payload) : option string := match p !! "phase" with Some (JString s) => Some s | _ => None end.
Definition with_phase (s : string) (p : payload) : payload := <["phase" := JString s]> p.
(** [{job.job_id: job for job in rows}.get(id)] *)
Definition job_row (id : string) (rows : list QMPJob) : option QMPJob :=
  snd <$> list_find (λ r, job_id r = id) (reverse rows).
Definition settled (phase : option string) : bool :=
  bool_decide (phase ∈ [Some "job-concluded"; Some "node-detached"; Some "artifact-published"]).
Definition known_job_failure (e : error) : bool := match e with OperationTimeout _ _ | JobFailed _ => true | _ => false end.
Definition recorded_path (dir sid file : string) : string := dir +:+ "/" +:+ sid +:+ "/" +:+ file.
Definition artifact_of (m : option bitmap_mode) : string :=
  match m with Some Incremental => "increment.qcow2" | _ => "disk.qcow2" end.

Section create.
Context (dir : string) (q : live_request).
Let vm := rq_vm q.
Let sid := rq_snapshot q.

Definition retry_command : string := _bitmap_snapshot_command vm sid.
Definition unpublished_error : error :=
  _bitmap_recovery_error ("The completed disk capture for " +:+ computer vm +:+ " still needs to be published.")
    ("Retry with '" +:+ retry_command +:+ "'.") (Some retry_command) false.
Definition ambiguous_error : error :=
  _bitmap_recovery_error ("The last disk capture for " +:+ computer vm +:+ " may be incomplete.")
    ("Run '" +:+ retry_command +:+ "' to create a fresh disk capture.") (Some retry_command) true.

(** What is left to do when the failed capture is to be discarded. *)
Definition discard {A} (job node : string) (e : error) : prog A :=
  let artifact := artifact_of (fst <$> rq_bitmap q) in
  let* safe := _cleanup_live_backup job node (Some sid) artifact in
  do* match rq_bitmap q with
      | Some (NewBase, name) => pwhen safe (psuppress any_error (remove_dirty_bitmap QEMU_ROOT_NODE_NAME name))
      | _ => pret tt
      end in
  if safe then
    do* psuppress is_oserror (act (Unlink sid journal)) in
    praise (if truthy_str (d_command (details_of e)) then e
            else live_error q ("This machine could not complete a live snapshot of " +:+ computer vm))
  else praise (_live_backup_error q ("Live snapshot cleanup for " +:+ computer vm +:+ " is still in progress") true).

(** [except Exception as original_error], with the journal entry and whether a
    bitmap job was submitted. *)
Definition on_failure {A} (job node : string) (m : payload) (submitted : bool) (e : error) : prog A :=
  match rq_bitmap q with
  | None => discard job node e
  | Some _ =>
      if settled (phase_of m) then praise unpublished_error
      else
        pelse query_jobs
          (λ _, if submitted then praise ambiguous_error else discard job node e)
          (λ rows,
             match job_row job rows with
             | Some r =>
                 if concluded_well r then
                   do* psuppress any_error (dismiss_job job) in
                   do* _write_live_backup_manifest sid (with_phase "job-concluded" m) in
                   praise unpublished_error
                 else discard job node e
             | None =>
                 if submitted && negb (known_job_failure e) then
                   do* psuppress is_oserror (_write_live_backup_manifest sid (with_phase "job-running" m)) in
                   praise ambiguous_error
                 else discard job node e
             end)
  end.
(** One step of the body. *)
Definition guarded {A B} (job node : string) (m : payload) (submitted : bool) (p : prog A) (k : A → prog B) : prog B :=
  pelse p (on_failure job node m submitted) k.

(** The bitmaps before the capture: the kind of artifact, and of an increment
    its size and granularity. *)
Definition invalid_reason (b : QMPDirtyBitmap) : option string :=
  if bm_inconsistent b then Some "inconsistent"
  else if bm_busy b then Some "busy"
  else if negb (bm_persistent b) then Some "non-persistent"
  else if negb (bm_recording b) then Some "disabled"
  else None.
Definition find_bitmap (name : string) : prog (option QMPDirtyBitmap) :=
  let* l := query_dirty_bitmaps QEMU_ROOT_NODE_NAME in pret (snd <$> list_find (λ b, bm_name b = name) l).
Definition check_bitmap_state : prog (option Z * option Z) :=
  match rq_bitmap q with
  | None => pret (None, None)
  | Some (mode, name) =>
      let* existing := find_bitmap name in
      match mode, existing with
      | NewBase, Some _ => praise (bitmap_state_error q name "exists")
      | NewBase, None => pret (None, None)
      | Incremental, None => praise (bitmap_state_error q name "missing")
      | Incremental, Some b =>
          match invalid_reason b with
          | Some reason => praise (bitmap_state_error q name reason)
          | None => pret (Some (bm_dirty_bytes b), Some (bm_granularity b))
          end
      end
  end.
Definition artifact_kind : option string :=
  match rq_bitmap q with
  | None => None
  | Some (NewBase, _) => Some "full"
  | Some (Incremental, _) => Some "incremental"
  end.
Definition json_opt (o : option Z) : json := match o with Some z => JInt z | None => JNull end.
Definition first_entry (job node : string) (size : Z) (changed granularity : option Z) : payload :=
  let artifact := artifact_of (fst <$> rq_bitmap q) in
  let common : list (string * json) :=
    [("schema_version", JInt (if is_some (rq_bitmap q) then 2 else 1)%Z);
     ("vm_id", JString vm); ("snapshot_id", JString sid);
     ("job_id", JString job); ("target_node", JString node);
     ("partial_path", JString (recorded_path dir sid (partial_name artifact)));
     ("final_path", JString (recorded_path dir sid artifact));
     ("phase", JString "target-created")] in
  list_to_map (common ++
    match rq_bitmap q with
    | None => []
    | Some (mode, name) =>
        [("backup_mode", JString (mode_name mode)); ("bitmap_name", JString name);
         ("artifact_kind", JString (default "" artifact_kind));
         ("virtual_size_bytes", JInt size); ("changed_bytes", json_opt changed);
         ("bitmap_granularity_bytes", json_opt granularity)]
    end).
Definition start_backup (job node : string) : prog unit :=
  match rq_bitmap q with
  | None => blockdev_backup job QEMU_ROOT_NODE_NAME node (rq_speed q)
  | Some (NewBase, name) => start_full_backup_with_dirty_bitmap job QEMU_ROOT_NODE_NAME node name (rq_speed q)
  | Some (Incremental, name) => blockdev_backup_incremental job QEMU_ROOT_NODE_NAME node name (rq_speed q)
  end.
Definition wait_for_backup (job : string) : prog unit :=
  do* _remaining_live_backup_timeout q in
  ptry (wait_for_job job) (λ e, match e with JobTimeout _ => praise (_live_backup_timeout_error q) | _ => praise e end).
(** The granularity of the bitmap a base was taken with, recorded. *)
Definition record_granularity (m : payload) (granularity : option Z) : prog (payload * option Z) :=
  match rq_bitmap q with
  | Some (NewBase, name) =>
      let* created := find_bitmap name in
      match created with
      | None => praise (live_error q ("The new dirty bitmap for " +:+ computer vm +:+ " is missing"))
      | Some b =>
          let m := <["bitmap_granularity_bytes" := JInt (bm_granularity b)]> m in
          do* _write_live_backup_manifest sid m in pret (m, Some (bm_granularity b))
      end
  | _ => pret (m, granularity)
  end.

Definition capture (job node : string) (m : payload) (size : Z) (changed granularity : option Z) : prog live_result :=
  let artifact := artifact_of (fst <$> rq_bitmap q) in
  let partial := partial_name artifact in
  guarded job node m false (blockdev_add node sid partial) (λ _,
  let m := with_phase "node-attached" m in
  guarded job node m false (_write_live_backup_manifest sid m) (λ _,
  guarded job node m false (start_backup job node) (λ _,
  let submitted := is_some (rq_bitmap q) in
  guarded job node m submitted (act Now) (λ captured_at,
  let m := <["captured_at" := JString (isoformat captured_at)]> (with_phase "job-running" m) in
  guarded job node m submitted (_write_live_backup_manifest sid m) (λ _,
  guarded job node m submitted (wait_for_backup job) (λ _,
  let m := with_phase "job-concluded" m in
  guarded job node m submitted (_write_live_backup_manifest sid m) (λ _,
  guarded job node m submitted (record_granularity m granularity) (λ mg,
  let m := mg.1 in
  guarded job node m submitted (blockdev_del node) (λ _,
  let m := with_phase "node-detached" m in
  guarded job node m submitted (_write_live_backup_manifest sid m) (λ _,
  guarded job node m submitted (_validate_live_backup_artifact q sid partial) (λ _,
  guarded job node m submitted (act (Replace sid partial artifact)) (λ _,
  let m := with_phase "artifact-published" m in
  guarded job node m submitted (_write_live_backup_manifest sid m) (λ _,
  guarded job node m submitted
    (let* f := act (Find sid artifact) in match f with Some _ => pret tt | None => praise FileNotFound end) (λ _,
  pret {| lr_disk_path := recorded_path dir sid artifact; lr_captured_at := captured_at;
          lr_artifact_kind := artifact_kind;
          lr_virtual_size_bytes := if is_some (rq_bitmap q) then Some size else None;
          lr_changed_bytes := changed; lr_bitmap_granularity_bytes := mg.2;
          lr_bitmap_name := snd <$> rq_bitmap q |})))))))))))))).

Definition _create_live_disk_snapshot : prog live_result :=
  if negb (bool_decide (rq_type q = DISK) && bool_decide (rq_status q = RUNNING))
  then praise (live_error q ("Computer '" +:+ vm +:+ "' is not ready for a live disk snapshot"))
  else
    let* commands := ptry query_commands (λ _,
      praise (live_error q ("This machine could not prepare a live snapshot of " +:+ computer vm))) in
    let needed := _LIVE_BACKUP_REQUIRED_COMMANDS
                  ++ (if is_some (rq_bitmap q) then _DIRTY_BITMAP_BACKUP_REQUIRED_COMMANDS else []) in
    if negb (forallb (λ c, bool_decide (c ∈ commands)) needed)
    then praise (live_error q ("This machine cannot keep " +:+ computer vm +:+ " available during the snapshot"))
    else
      let* size := _qemu_img_virtual_size q in
      let* bitmap := check_bitmap_state in
      do* _require_live_backup_space q bitmap.1 in
      let partial := partial_name (artifact_of (fst <$> rq_bitmap q)) in
      let* create := _run_live_backup_subprocess q (ImgCreate sid partial size) in
      if negb (im_code create =? 0)%Z
      then praise (live_error q ("The live snapshot file for " +:+ computer vm +:+ " could not be prepared"))
      else
        let* operation_id := act Uuid in
        let* ids := plift (_live_backup_identifiers operation_id) in
        let m := first_entry ids.1 ids.2 size bitmap.1 bitmap.2 in
        do* ptry (_write_live_backup_manifest sid m) (λ e,
              if is_oserror e then
                do* psuppress is_oserror (act (Unlink sid partial)) in
                praise (live_error q ("Recovery state for " +:+ computer vm +:+ " could not be saved"))
              else praise e) in
        capture ids.1 ids.2 m size bitmap.1 bitmap.2.
End create.

(** ** The bitmap calls of the adapter *)
Definition get_dirty_bitmap (control_socket_path : option path) (name : string) : prog (option QMPDirtyBitmap) :=
  do* _client control_socket_path in find_bitmap name.
Definition is_celesto (e : error) : bool :=
  match e with Celesto _ _ | JobFailed _ | JobTimeout _ | OperationTimeout _ _ | BitmapStateError _ _ _ => true | _ => false end.
Definition adapter_remove_dirty_bitmap (control_socket_path : option path) (name : string) : prog bool :=
  let* bitmap := get_dirty_bitmap control_socket_path name in
  match bitmap with
  | None => pret false
  | Some b =>
      if bm_busy b then praise (BitmapStateError name "busy" no_details)
      else
        do* _client control_socket_path in
        ptry (do* remove_dirty_bitmap QEMU_ROOT_NODE_NAME name in pret true) (λ e,
          let description := lower (d_desc (details_of e)) in
          if is_celesto e && contains "dirty bitmap" description && contains "not found" description
          then pret false else praise e)
  end.
