(* ===== verification/LiveReconcile.v ===== *)
(** * runtime/qemu.py: recovering interrupted live backups

    [reconcile_live_backups] reads the journal of every snapshot folder, finishes
    or discards the backups of one computer, and then sweeps the jobs and nodes
    whose names the program made.  A journal is text from the disk: nothing is
    assumed of it. *)
From S2P Require Import Prelude PyStr Types CrashProg LiveWorld QmpClient LiveBackup.
From stdpp Require Import options.
Open Scope prog_scope.

(** [payload.get(key)] *)
Definition jget (p : payload) (key : string) : json := default JNull (p !! key).
Definition is_text (j : json) (s : string) : bool := bool_decide (j = JString s).
(** [j == z] *)
Definition equals_int (j : json) (z : Z) : bool :=
  match j with
  | JInt z' | JFloat (Some z') => (z' =? z)%Z
  | JBool b => ((if b then 1 else 0) =? z)%Z
  | _ => false
  end.
(** [j in {...}]: a list or an object cannot be hashed. *)
Definition in_set (j : json) (member : json → bool) : res error bool :=
  match j with JComposite => Err TypeErr | _ => Ok (member j) end.
Definition is_one_of (l : list string) (j : json) : bool := match j with JString s => bool_decide (s ∈ l) | _ => false end.
(** [isinstance(j, int) and j > 0] *)
Definition positive_int (j : json) : bool :=
  match j with JInt z => (0 <? z)%Z | JBool b => b | _ => false end.
Definition text_of (j : json) : option string := match j with JString s => Some s | _ => None end.

Definition rand (a : bool) (b : res error bool) : res error bool := if a then b else Ok false.
Definition rthen {A B} (a : res error A) (k : A → res error B) : res error B :=
  match a with Ok x => k x | Err e => Err e end.

(** What is read of a journal: whether it is a bitmap capture, its artifact, its
    operation. *)
Record read_entry := { re_bitmap : bool; re_artifact : string; re_operation : option string; re_valid : bool }.
Definition read_journal (dir sid : string) (p : payload) : res error read_entry :=
  let schema := jget p "schema_version" in
  let mode := jget p "backup_mode" in
  rthen (rand (equals_int schema 2) (in_set mode (is_one_of ["new-base"; "incremental"]))) (λ bitmap,
  let artifact := if is_text mode "incremental" then "increment.qcow2" else "disk.qcow2" in
  let operation :=
    match text_of (jget p "job_id"), text_of (jget p "target_node") with
    | Some job, Some node => _live_backup_operation_id job node
    | _, _ => None
    end in
  rthen (rthen (in_set schema (λ j, equals_int j 1 || equals_int j 2)) (λ known,
         rand (known && (equals_int schema 1 || bitmap) && is_text (jget p "snapshot_id") sid)
           (rthen (in_set (jget p "phase") (is_one_of _LIVE_BACKUP_PHASES)) (λ phased,
            Ok (phased
                && is_text (jget p "partial_path") (recorded_path dir sid (partial_name artifact))
                && is_text (jget p "final_path") (recorded_path dir sid artifact)
                && is_some operation
                && (negb bitmap
                    || (negb (String.eqb (default "" (text_of (jget p "bitmap_name"))) "")
                        && positive_int (jget p "virtual_size_bytes")))))))) (λ valid,
  Ok {| re_bitmap := bitmap; re_artifact := artifact; re_operation := operation; re_valid := valid |})).

Section reconcile.
Context (dir vm locked : string) (persisted : list string) (control_socket_path : option path).

Definition retry_locked : string := _bitmap_snapshot_command vm locked.
Definition fresh_capture (fact : string) (ambiguous : bool) : error :=
  _bitmap_recovery_error fact ("Run '" +:+ retry_locked +:+ "' to create a fresh disk capture.") (Some retry_locked) ambiguous.

Definition run_qemu_img (c : img_command) : prog img_done :=
  let timed_out := _bitmap_recovery_error
    ("Checking the recovered disk capture for " +:+ computer vm +:+ " timed out.")
    ("Retry with '" +:+ retry_locked +:+ "'.") (Some retry_locked) false in
  let* time_left := act TimeLeft in
  if negb time_left then praise timed_out
  else
    let* r := act (Img c) in
    match r with
    | ImgDone d => pret d
    | ImgTimeout => praise timed_out
    | ImgError _ => praise (_bitmap_recovery_error
        ("The recovered disk capture for " +:+ computer vm +:+ " could not be checked.") _qemu_img_install_hint None false)
    end.
Definition _publish_recovered_bitmap_artifact (sid : string) (p : payload) (partial final : string) : prog unit :=
  let* f := act (Find sid final) in
  if is_some f then _write_live_backup_manifest sid (with_phase "artifact-published" p)
  else
    let* f := act (Find sid partial) in
    if negb (is_some f)
    then praise (fresh_capture ("The completed disk capture for " +:+ computer vm +:+ " has no local file.") false)
    else
      let* found := act Which in
      if negb found then praise (_bitmap_recovery_error
        ("The recovered disk capture for " +:+ computer vm +:+ " cannot be checked.") _qemu_img_install_hint None false)
      else
        let* check := run_qemu_img (ImgCheck sid partial) in
        let* info := run_qemu_img (ImgInfo sid partial) in
        if negb (im_code check =? 0)%Z || negb (im_code info =? 0)%Z
           || match im_backing info with None => true | Some b => truthy_str b end
        then praise (fresh_capture ("The recovered disk capture for " +:+ computer vm +:+ " is invalid.") false)
        else
          do* act (Replace sid partial final) in
          _write_live_backup_manifest sid (with_phase "artifact-published" p).

(** A journal that cannot be used is removed only under its own lock. *)
Definition quarantine (sid : string) : prog unit :=
  pwhen (String.eqb sid locked) (psuppress is_oserror (act (Unlink sid journal))).
(** The backup is discarded, as far as that can be done now. *)
Definition discard_entry (sid : string) (e : read_entry) (p : payload) (job node : string) (keep : bool) : prog unit :=
  let* cleaned := _cleanup_live_backup job node (if keep then None else Some sid) (re_artifact e) in
  pwhen cleaned (
    do* pwhen (re_bitmap e && is_text (jget p "backup_mode") "new-base")
          (psuppress any_error (remove_dirty_bitmap QEMU_ROOT_NODE_NAME (default "" (text_of (jget p "bitmap_name"))))) in
    do* psuppress is_oserror (act (Unlink sid journal)) in
    pwhen (negb keep) (psuppress is_oserror (act (Rmdir sid)))).
(** The node is detached and the artifact published; the caller is told. *)
Definition recover_entry (sid : string) (e : read_entry) (p : payload) (node : string) : prog unit :=
  let final := re_artifact e in
  let* names := _node_names in
  do* pwhen (bool_decide (node ∈ names)) (blockdev_del node) in
  let p := with_phase "node-detached" p in
  do* _write_live_backup_manifest sid p in
  do* _publish_recovered_bitmap_artifact sid p (partial_name final) final in
  praise (_bitmap_recovery_error
    ("Recovered disk data for " +:+ computer vm +:+ " is ready at '" +:+ recorded_path dir sid final +:+ "'.")
    ("After adopting that file, run '" +:+ _bitmap_recovery_clear_command sid +:+ "' to clear the recovery record.")
    (Some (_bitmap_recovery_clear_command sid)) false).

(** A bitmap capture that no record of the inventory knows. *)
Definition recover_bitmap_entry (sid : string) (e : read_entry) (p : payload) (job node : string) : prog unit :=
  let phase := phase_of p in
  let* rows := query_jobs in
  let row := job_row job rows in
  if bool_decide (phase ∈ [Some "node-attached"; Some "job-running"]) then
    match row with
    | None =>
        if bool_decide (phase = Some "job-running")
        then praise (fresh_capture ("The last disk capture for " +:+ computer vm +:+ " may be incomplete.") true)
        else discard_entry sid e p job node false
    | Some r =>
        if concluded_well r then
          do* psuppress any_error (dismiss_job job) in
          let p := with_phase "job-concluded" p in
          do* _write_live_backup_manifest sid p in
          recover_entry sid e p node
        else discard_entry sid e p job node false
    end
  else if settled phase then recover_entry sid e p node
  else discard_entry sid e p job node false.

Definition reconcile_payload (sid : string) (p : payload) : prog unit :=
  if negb (is_text (jget p "vm_id") vm) then pret tt
  else
    let* e := plift (read_journal dir sid p) in
    match re_valid e, re_operation e with
    | true, Some operation_id =>
        let* ids := plift (_live_backup_identifiers operation_id) in
        let keep := bool_decide (sid ∈ persisted) in
        if re_bitmap e && negb keep then recover_bitmap_entry sid e p ids.1 ids.2
        else discard_entry sid e p ids.1 ids.2 keep
    | _, _ => quarantine sid
    end.
Definition reconcile_folder (sid : string) : prog unit :=
  let* inside := act (Resolves sid) in
  if negb inside then pret tt
  else
    let* f := act (Find sid journal) in
    match f with
    | Some Link => quarantine sid
    | Some (Text (Object p)) => reconcile_payload sid p
    | _ => quarantine sid
    end.

Definition sweep_job (job : string) : prog unit :=
  let node := _LIVE_BACKUP_NODE_PREFIX +:+ removeprefix _LIVE_BACKUP_JOB_PREFIX job in
  match _live_backup_operation_id job node with
  | None => pret tt
  | Some _ => let* _ := _cleanup_live_backup job node None "disk.qcow2" in pret tt
  end.
Definition sweep_node (name : string) : prog unit :=
  let job := _LIVE_BACKUP_JOB_PREFIX +:+ removeprefix _LIVE_BACKUP_NODE_PREFIX name in
  match _live_backup_operation_id job name with
  | None => pret tt
  | Some operation_id =>
      let* ids := plift (_live_backup_identifiers operation_id) in
      let* names := _node_names in
      pwhen (bool_decide (ids.2 ∈ names)) (blockdev_del ids.2)
  end.
Definition _reconcile_live_backups : prog unit :=
  let* sids := act Glob in
  do* pfor sids reconcile_folder in
  let* jobs := _job_ids in
  do* pfor jobs sweep_job in
  let* names := _node_names in
  pfor names sweep_node.
Definition reconcile_live_backups : prog unit :=
  let* sids := act Glob in
  match sids with
  | [] => pret tt
  | _ => do* _client control_socket_path in _reconcile_live_backups
  end.
End reconcile.
