(* ===== verification/LiveFrames.v ===== *)
(** * What the effects of a live backup change

    [stays I p]: [p] keeps [I] at every point where it can be killed, and when it
    returns or raises.  The rest says of each effect which files and which part
    of QEMU it changes. *)
From S2P Require Import Prelude PyStr Types CrashProg LiveWorld QmpClient LiveBackup LiveReconcile.
From stdpp Require Import options.

Section stays.
Context (L : lenv) {Q : Type} `{!Qemu Q}.
Abbreviation W := (world Q).
Implicit Types (I : W → Prop) (w : W).

Definition stays I {A} (p : prog A) : Prop := ∀ w, I w → wpc (perform L) I p (λ _, I) (λ _, I) w.

Lemma stays_ret I {A} (x : A) : stays I (pret x).
Proof. intros w Hw. exact Hw. Qed.
Lemma stays_raise I {A} e : stays I (praise e : prog A).
Proof. intros w Hw. exact Hw. Qed.
Lemma stays_lift I {A} (r : res error A) : stays I (plift r).
Proof. intros w Hw. by destruct r. Qed.
Lemma stays_act I a : (∀ w w' r, I w → perform L a w = (w', r) → I w') → stays I (act a).
Proof. intros H w Hw. apply wpc_act. intros w' r Hp. pose proof (H w w' r Hw Hp). by destruct r. Qed.
Lemma stays_bind I {A B} (m : prog A) (f : A → prog B) : stays I m → (∀ x, stays I (f x)) → stays I (pbind m f).
Proof. intros Hm Hf w Hw. apply wpc_bind. eapply wpc_mono; [by apply Hm|done|intros; by apply Hf|done]. Qed.
Lemma stays_try I {A} (m : prog A) h : stays I m → (∀ e, stays I (h e)) → stays I (ptry m h).
Proof. intros Hm Hh w Hw. apply wpc_try. eapply wpc_mono; [by apply Hm|done|done|intros; by apply Hh]. Qed.
Lemma stays_else I {A B} (m : prog A) (h : error → prog B) f :
  stays I m → (∀ e, stays I (h e)) → (∀ x, stays I (f x)) → stays I (pelse m h f).
Proof. intros Hm Hh Hf w Hw. apply wpc_else. eapply wpc_mono; [by apply Hm|done|intros; by apply Hf|intros; by apply Hh]. Qed.
Lemma stays_when I b (m : prog unit) : (b = true → stays I m) → stays I (pwhen b m).
Proof. intros Hm. destruct b; [by apply Hm|apply stays_ret]. Qed.
Lemma stays_suppress I c (m : prog unit) : stays I m → stays I (psuppress c m).
Proof. intros Hm. apply stays_try; [done|]. intros e. destruct (c e); [apply stays_ret|apply stays_raise]. Qed.
Lemma stays_for I {A} (l : list A) f : (∀ x, x ∈ l → stays I (f x)) → stays I (pfor l f).
Proof.
  intros Hf. induction l as [|x l IH]; [apply stays_ret|]. simpl. apply stays_bind; [apply Hf; left|].
  intros _. apply IH. intros y Hy. apply Hf. by right.
Qed.
(** Inside a specification with a stronger postcondition. *)
Lemma stays_wpc I {A} (p : prog A) (J : W → Prop) (P : A → W → Prop) (R : error → W → Prop) w :
  stays I p → I w → (∀ w, I w → J w) → (∀ x w, I w → P x w) → (∀ e w, I w → R e w) → wpc (perform L) J p P R w.
Proof. intros Hp Hw HJ HP HR. eapply wpc_mono; [by apply Hp|done..]. Qed.
End stays.

(** Goes through a program, leaving its effects and loops. *)
Ltac stay :=
  repeat first
    [ assumption
    | match goal with H : ∀ _, stays _ _ _ |- _ => apply H end
    | apply stays_ret | apply stays_raise | apply stays_lift
    | apply stays_bind; [|intros ?]
    | apply stays_try; [|intros ?]
    | apply stays_else; [|intros ?|intros ?]
    | apply stays_suppress
    | apply stays_when; intros ?
    | case_match ].

(** ** Files *)
Section files.
Context {Q : Type}.
Implicit Types w : world Q.
Definition alias_at w sid : option bool := fo_alias <$> w_dirs w !! sid.

Lemma file_at_put s f e w s' f' :
  file_at (put_file s f e w) s' f' = if decide (s' = s ∧ f' = f ∧ is_Some (w_dirs w !! s)) then Some e else file_at w s' f'.
Proof.
  unfold file_at, put_file. simpl. destruct (decide (s' = s)) as [->|Hs].
  - rewrite lookup_alter_eq. destruct (w_dirs w !! s) as [fo|]; simpl; [|by case_decide as H; [destruct H as (_ & _ & [])|]].
    destruct (decide (f' = f)) as [->|Hf]; [rewrite lookup_insert_eq, decide_True by eauto; done|].
    rewrite lookup_insert_ne, decide_False by naive_solver. done.
  - rewrite lookup_alter_ne, decide_False by naive_solver. done.
Qed.
Lemma file_at_drop s f w s' f' :
  file_at (drop_file s f w) s' f' = if decide (s' = s ∧ f' = f) then None else file_at w s' f'.
Proof.
  unfold file_at, drop_file. simpl. destruct (decide (s' = s)) as [->|Hs].
  - rewrite lookup_alter_eq. destruct (w_dirs w !! s) as [fo|]; simpl; [|by case_decide].
    destruct (decide (f' = f)) as [->|Hf]; [by rewrite lookup_delete_eq, decide_True|].
    rewrite lookup_delete_ne, decide_False by naive_solver. done.
  - rewrite lookup_alter_ne, decide_False by naive_solver. done.
Qed.
Lemma file_at_folder w s f e : file_at w s f = Some e → is_Some (w_dirs w !! s).
Proof. unfold file_at. destruct (w_dirs w !! s); [by eauto|done]. Qed.
Lemma alias_at_put s f e w s' : alias_at (put_file s f e w) s' = alias_at w s'.
Proof.
  unfold alias_at, put_file. simpl. destruct (decide (s' = s)) as [->|]; [rewrite lookup_alter_eq|by rewrite lookup_alter_ne].
  by destruct (w_dirs w !! s).
Qed.
Lemma alias_at_drop s f w s' : alias_at (drop_file s f w) s' = alias_at w s'.
Proof.
  unfold alias_at, drop_file. simpl. destruct (decide (s' = s)) as [->|]; [rewrite lookup_alter_eq|by rewrite lookup_alter_ne].
  by destruct (w_dirs w !! s).
Qed.

(** [touches a s f]: the effect may change that file. *)
Definition touches (a : action) (s f : string) : Prop :=
  match a with
  | Write sid file _ | Unlink sid file => s = sid ∧ f = file
  | Replace sid a b => s = sid ∧ (f = a ∨ f = b)
  | Img (ImgCreate sid file _) => s = sid ∧ f = file
  | _ => False
  end.
#[global] Instance touches_dec a s f : Decision (touches a s f).
Proof. destruct a; simpl; try apply _. destruct c; apply _. Defined.
(** Effects that only look. *)
Definition looks (a : action) : bool :=
  match a with
  | Glob | Resolves _ | Find _ _ | Which | Free _ | TimeLeft | Uuid | Now | Polls => true
  | Img (ImgCreate _ _ _) => false
  | Img _ => true
  | _ => false
  end.
End files.

Section effects.
Context (L : lenv) {Q : Type} `{!Qemu Q, !QemuLaws Q}.
Implicit Types w : world Q.
Definition view w : qview := q_view (w_qemu w).

Lemma perform_qmp c w w' r :
  q_ok (w_qemu w) → perform L (Qmp c) w = (w', r) →
  w_dirs w' = w_dirs w ∧ w_inode w' = w_inode w ∧ q_ok (w_qemu w') ∧
  ∃ v, goes_on (view w) v ∧ qview_ok v ∧
    match r with
    | Ok x => effect c (named_image w c) v (view w') x
    | Err e => (∃ m, e = Celesto m (qmp_details m)) ∧ (view w' = v ∨ ∃ x, effect c (named_image w c) v (view w') x)
    end.
Proof.
  intros Hok. simpl. destruct (qmp c (named_image w c) (w_qemu w)) as [q o] eqn:Hq. intros [= <- <-].
  destruct (law_qmp _ _ _ _ _ Hok Hq) as (Hok' & v & Hg & Hv & He). split_and!; try done. exists v. split_and!; try done.
  destruct o; [done|]. by eauto.
Qed.
(** Only QMP commands reach QEMU. *)
Lemma perform_host a w w' r : (∀ c, a ≠ Qmp c) → perform L a w = (w', r) → w_qemu w' = w_qemu w.
Proof.
  intros Ha. destruct a; [by destruct (Ha c)|..]; simpl; unfold host_op; intros H;
    repeat match type of H with context [match ?x with _ => _ end] => destruct x end; simplify_eq; done.
Qed.
Lemma perform_files a w w' r s f : perform L a w = (w', r) → ¬ touches a s f → file_at w' s f = file_at w s f.
Proof.
  intros H Ht. destruct a; simpl in H, Ht; try (by simplify_eq); unfold host_op in H.
  - destruct (qmp _ _ _). by simplify_eq.
  - repeat case_match; simplify_eq; try done; rewrite file_at_put, decide_False by naive_solver; done.
  - repeat case_match; simplify_eq; try done. rewrite file_at_put, decide_False, file_at_drop, decide_False by naive_solver. done.
  - repeat case_match; simplify_eq; try done. rewrite file_at_drop, decide_False by naive_solver. done.
  - destruct (w_dirs w !! sid) as [fo|] eqn:Hfo; [|by simplify_eq].
    case_bool_decide as He; simpl in H; [|by simplify_eq]. destruct (fo_alias fo); simpl in H; [by simplify_eq|].
    destruct (l_os L _); simplify_eq; [done|]. unfold file_at. simpl. destruct (decide (s = sid)) as [->|Hs].
    + rewrite lookup_delete_eq, Hfo. simpl. by rewrite He, lookup_empty.
    + by rewrite lookup_delete_ne.
  - simplify_eq. destruct c; try done. destruct (_ || _); [|done]. change (file_at (new_inode ?x) s f) with (file_at x s f).
    rewrite file_at_put, decide_False by naive_solver. done.
Qed.
End effects.

(** * The names of a live backup

    A job and a node belong to the program exactly if both carry the same
    sixteen lower-case hexadecimal digits. *)
Definition valid_op (op : string) : bool := (String.length op =? 16)%nat && str_all lower_hex op.
Definition job_of (op : string) : string := _LIVE_BACKUP_JOB_PREFIX +:+ op.
Definition node_of (op : string) : string := _LIVE_BACKUP_NODE_PREFIX +:+ op.
Definition own_job (j : string) : Prop := ∃ op, valid_op op = true ∧ j = job_of op.
Definition own_node (n : string) : Prop := ∃ op, valid_op op = true ∧ n = node_of op.

Lemma removeprefix_app prefix s : removeprefix prefix (prefix +:+ s) = s.
Proof. unfold removeprefix. rewrite startswith_app. apply substring_after. rewrite string_length_app. lia. Qed.
Lemma removeprefix_job op : removeprefix _LIVE_BACKUP_JOB_PREFIX (job_of op) = op.
Proof. apply removeprefix_app. Qed.
Lemma removeprefix_node op : removeprefix _LIVE_BACKUP_NODE_PREFIX (node_of op) = op.
Proof. apply removeprefix_app. Qed.
Lemma operation_id_spec job node op :
  _live_backup_operation_id job node = Some op ↔ valid_op op = true ∧ job = job_of op ∧ node = node_of op.
Proof.
  unfold _live_backup_operation_id, valid_op, _LIVE_BACKUP_OPERATION_ID_LENGTH. split.
  - destruct (startswith _ job) eqn:Hs; simpl; [|done]. apply startswith_inv in Hs as [rest ->].
    change (_LIVE_BACKUP_JOB_PREFIX +:+ rest) with (job_of rest). rewrite removeprefix_job.
    destruct (String.length rest =? 16)%nat eqn:H1, (str_all lower_hex rest) eqn:H2, (String.eqb node _) eqn:H3; simpl; intros Hop; simplify_eq.
    apply String.eqb_eq in H3. rewrite H1, H2. done.
  - intros (Hv & -> & ->). apply andb_true_iff in Hv as [H1 H2]. unfold job_of at 1. rewrite startswith_app. simpl negb. cbv iota zeta.
    rewrite removeprefix_job, H1, H2. unfold node_of. by rewrite String.eqb_refl.
Qed.
Lemma identifiers_valid op : valid_op op = true → _live_backup_identifiers op = Ok (job_of op, node_of op).
Proof.
  intros [H1%Nat.eqb_eq _]%andb_true_iff. unfold _live_backup_identifiers.
  replace (String.length _) with 22; [done|]. rewrite string_length_app, H1. done.
Qed.
Lemma node_of_inj op op' : node_of op = node_of op' → op = op'.
Proof. intros H. rewrite <- (removeprefix_node op), H. apply removeprefix_node. Qed.

(** The commands of a recovery. *)
Definition recovery_command (c : qmp_command) : Prop :=
  match c with
  | BlockdevDel n => own_node n
  | JobCancel j | BlockJobCancel j | JobDismiss j => own_job j
  | BlockdevAdd _ _ _ | BlockdevBackup _ | BitmapAndBackup _ _ _ => False
  | _ => True
  end.

(** ** Invariants that such commands keep *)
Section steady.
Context (L : lenv) {Q : Type} `{!Qemu Q} (I : world Q → Prop).
Definition steady : Prop :=
  (∀ a, looks a = true → stays L I (act a)) ∧ (∀ c, recovery_command c → stays L I (act (Qmp c))).
Context (HI : steady).
Hint Extern 1 (stays _ _ (act _)) => first [apply (proj1 HI); reflexivity | apply (proj2 HI); simpl; auto; fail] : core.

Lemma steady_jobs : stays L I _job_ids.
Proof using HI. unfold _job_ids, query_jobs. stay. auto. Qed.
Lemma steady_names : stays L I _node_names.
Proof using HI. unfold _node_names, query_named_block_nodes. stay. auto. Qed.
Lemma steady_wait j : own_job j → stays L I (wait_for_job j).
Proof using HI.
  intros Hj. unfold wait_for_job. apply stays_bind; [by auto|]. intros k. induction k as [|k IH]; cbn [poll_job]; [stay|].
  unfold query_jobs, dismiss_job. stay; by auto.
Qed.
(** Everything of [detach] but its last step. *)
Definition stop_job (job : string) : prog unit :=
  pbind (psuppress any_error (cancel_job job false)) (λ _,
  pbind (ptry (wait_for_job job) (λ _, pbind (psuppress any_error (cancel_job job true)) (λ _, psuppress any_error (wait_for_job job))))
    (λ _, psuppress any_error (dismiss_job job))).
Lemma steady_stop j : own_job j → stays L I (stop_job j).
Proof using HI. intros Hj. pose proof (steady_wait j Hj). unfold stop_job, cancel_job, dismiss_job. stay; auto. Qed.
Lemma steady_detach j n : own_job j → own_node n → stays L I (detach j n).
Proof using HI.
  intros Hj Hn. pose proof steady_jobs. pose proof steady_names. pose proof (steady_stop j Hj).
  unfold detach. fold (stop_job j). unfold blockdev_del. stay; auto.
Qed.
Lemma steady_cleanup job node root artifact :
  (∀ sid f, root = Some sid → f ∈ ["disk.qcow2"; "disk.qcow2.partial"; "increment.qcow2"; "increment.qcow2.partial"] →
     stays L I (act (Unlink sid f))) →
  stays L I (_cleanup_live_backup job node root artifact).
Proof using HI.
  intros Hroot. unfold _cleanup_live_backup. destruct (_live_backup_operation_id job node) as [op|] eqn:Hop; [|stay].
  apply operation_id_spec in Hop as (Hv & _ & _). rewrite (identifiers_valid op Hv), bind_lift.
  assert (∀ files, (∀ f, f ∈ files → stays L I (act (Unlink f.1 f.2))) → stays L I
    (pelse (detach (job_of op) (node_of op)) (λ _, pret false)
       (λ _, pbind (pfor files (λ f, psuppress is_missing (act (Unlink f.1 f.2)))) (λ _, pret true)))) as Hd.
  { intros files Hf. apply stays_else; [apply steady_detach; exists op; done|intros; stay|]. intros [].
    apply stays_bind; [|intros; stay]. apply stays_for. intros f Hin. apply stays_suppress. by apply Hf. }
  destruct root as [sid|]; [|by apply (Hd []); intros f Hf%elem_of_nil].
  intros w Hw. apply wpc_bind, wpc_bind. eapply stays_wpc; [by apply (proj1 HI (Resolves sid))|done..|intros inside|done].
  clear w Hw. intros w Hw. destruct inside; [|exact Hw]. simpl. case_bool_decide as Ha; [|exact Hw].
  apply wpc_ret, Hd; [|done]. intros f Hf. apply elem_of_cons in Hf as [->|[->|Hf%elem_of_nil]%elem_of_cons]; [..|done];
    simpl; apply Hroot; try done; unfold partial_name; set_solver.
Qed.
End steady.

(** ** Detaching a node *)
Section detaches.
Context (L : lenv) {Q : Type} `{!Qemu Q, !QemuLaws Q} (I : world Q → Prop) (HI : steady L I) (Hok : ∀ w, I w → q_ok (w_qemu w)).
Implicit Types w : world Q.
Definition attached w (n : string) : Prop := is_Some (qv_nodes (view w) !! n).
(** Every node is listed. *)
Lemma names_listed_by w :
  I w →
  wpc (perform L) I _node_names (λ names w', I w' ∧ (∀ n, attached w' n → attached w n ∧ n ∈ names)) (λ _, I) w.
Proof using HI Hok.
  intros Hw. unfold _node_names, query_named_block_nodes. apply wpc_bind, wpc_bind, wpc_act. intros w' r Hp.
  pose proof (proj2 HI QueryNodes Logic.I w Hw _ _ Hp) as [Hw' _]. split; [done|]. destruct r as [rows|e]; [|exact Hw'].
  destruct (perform_qmp L _ _ _ _ (Hok _ Hw) Hp) as (_ & _ & _ & v & Hg & _ & Hv & Hl).
  destruct rows as [rows|]; [|exact Hw']. apply wpc_ret, wpc_ret. split; [done|]. intros n Hn. unfold attached in *.
  rewrite Hv in Hn. split; [by rewrite <- (go_nodes _ _ Hg)|]. destruct (Hl rows n eq_refl Hn) as (r & Hr & Hname).
  apply elem_of_remove_dups, list_elem_of_omap. by exists r.
Qed.
Lemma del_detaches_by n w :
  own_node n → I w →
  wpc (perform L) I (blockdev_del n) (λ _ w', I w' ∧ ¬ attached w' n ∧ (∀ m, attached w' m → attached w m)) (λ _, I) w.
Proof using HI Hok.
  intros Hn Hw. apply (wpc_act (perform L) _ (Qmp (BlockdevDel n))). intros w' r Hp.
  pose proof (proj2 HI (BlockdevDel n) Hn w Hw _ _ Hp) as [Hw' _]. split; [done|]. destruct r as [[]|e]; [|exact Hw'].
  destruct (perform_qmp L _ _ _ _ (Hok _ Hw) Hp) as (_ & _ & _ & v & Hg & _ & _ & Hv). split; [done|].
  unfold attached. rewrite Hv. simpl. rewrite lookup_delete_eq. split; [by intros []|].
  intros m [i [_ Hi]%lookup_delete_Some]. rewrite (go_nodes _ _ Hg) in Hi. by eauto.
Qed.
(** A cleanup that goes through leaves the node detached. *)
Lemma detach_detaches j n w :
  own_job j → own_node n → I w → wpc (perform L) I (detach j n) (λ _ w', I w' ∧ ¬ attached w' n) (λ _, I) w.
Proof using HI Hok.
  intros Hj Hn Hw. unfold detach. fold (stop_job j). apply wpc_bind.
  eapply stays_wpc; [by apply steady_jobs|done..| |done]. clear w Hw. intros ids w Hw. apply wpc_bind.
  eapply stays_wpc; [apply stays_when; intros _; by apply steady_stop|done..| |done]. clear w Hw. intros _ w Hw. apply wpc_bind.
  eapply wpc_mono; [by apply names_listed_by|done| |done]. intros names w1 [Hw1 Hl]. apply wpc_when.
  - intros _. eapply wpc_mono; [by apply del_detaches_by|done| |done]. by intros [] w2 (? & ? & _).
  - intros Hin%bool_decide_eq_false. split; [done|]. intros Ha. apply Hin. by apply Hl.
Qed.
End detaches.
