(* ===== verification/LiveConfined.v ===== *)
(** * Recovery touches only what it may

    Journals are read from the disk and can say anything.  Whatever they say,
    and wherever the process is killed, [reconcile_live_backups] leaves alone the
    jobs and nodes of others, the files of snapshots the inventory knows, and
    the folders without a valid journal of this computer. *)
From S2P Require Import Prelude PyStr Types CrashProg LiveWorld QmpClient LiveBackup LiveReconcile LiveFrames.
From stdpp Require Import options.

(** What happens to a job that is left alone: it goes on. *)
Definition job_kept (o o' : option job) : Prop :=
  match o, o' with
  | Some b, Some b' => jb_backup b' = jb_backup b ∧ (jb_state b ≠ Running → jb_state b' = jb_state b)
  | None, None => True
  | _, _ => False
  end.
Lemma job_kept_refl o : job_kept o o.
Proof. by destruct o. Qed.
Lemma job_kept_trans o1 o2 o3 : job_kept o1 o2 → job_kept o2 o3 → job_kept o1 o3.
Proof.
  destruct o1, o2, o3; simpl; try done. intros [H1 H2] [H3 H4]. split; [congruence|].
  intros Hs. specialize (H2 Hs). rewrite <- H2. apply H4. congruence.
Qed.
Lemma goes_on_kept v v' j : goes_on v v' → job_kept (qv_jobs v !! j) (qv_jobs v' !! j).
Proof. intros []. apply go_jobs. Qed.

Lemma recovery_effect c file v v' x :
  recovery_command c → effect c file v v' x →
  (∀ n, ¬ own_node n → qv_nodes v' !! n = qv_nodes v !! n) ∧ (∀ n, qv_nodes v !! n = None → qv_nodes v' !! n = None)
  ∧ (∀ j, ¬ own_job j → qv_jobs v' !! j = qv_jobs v !! j) ∧ qv_holds v' = qv_holds v
  ∧ (∀ j b', qv_jobs v' !! j = Some b' → ∃ b, qv_jobs v !! j = Some b ∧ jb_backup b' = jb_backup b).
Proof.
  intros Hc He. destruct c; simpl in *; try done; try (subst; by eauto 10).
  - destruct He as [-> _]. by eauto 10.
  - destruct He as [-> _]. by eauto 10.
  - destruct He as [_ ->]. split_and!; simpl; try by eauto.
    + intros n Hn. rewrite lookup_delete_ne; [done|]. by intros ->.
    + intros n Hn. by rewrite lookup_delete_None; right.
  - destruct He as [->|(b & Hb & ->)]; [by eauto 10|]. split_and!; simpl; try by eauto.
    + intros j Hj. rewrite lookup_insert_ne; [done|]. by intros ->.
    + intros j b'. destruct (decide (j = id)) as [->|]; [rewrite lookup_insert_eq; intros [= <-]; by eauto|].
      rewrite lookup_insert_ne by done. by eauto.
  - destruct He as [->|(b & Hb & ->)]; [by eauto 10|]. split_and!; simpl; try by eauto.
    + intros j Hj. rewrite lookup_insert_ne; [done|]. by intros ->.
    + intros j b'. destruct (decide (j = id)) as [->|]; [rewrite lookup_insert_eq; intros [= <-]; by eauto|].
      rewrite lookup_insert_ne by done. by eauto.
  - destruct He as [_ ->]. split_and!; simpl; try by eauto.
    + intros j Hj. rewrite lookup_delete_ne; [done|]. by intros ->.
    + intros j b' [_ Hb]%lookup_delete_Some. by eauto.
Qed.

(** What reading a journal decides. *)
Lemma read_inv dir sid p e :
  read_journal dir sid p = Ok e →
  re_artifact e ∈ ["disk.qcow2"; "increment.qcow2"] ∧
  ∀ op, re_operation e = Some op →
    valid_op op = true ∧ jget p "job_id" = JString (job_of op) ∧ jget p "target_node" = JString (node_of op).
Proof.
  unfold read_journal, rthen at 1. destruct (rand _ _) as [bm|]; [|done]. cbv zeta. unfold rthen at 1.
  destruct (rthen _ _) as [valid|]; [|done]. intros [= <-]. simpl. split; [destruct (is_text _ _); set_solver|].
  intros op. destruct (jget p "job_id") eqn:Hj, (jget p "target_node") eqn:Hn; simpl; try done.
  by intros (? & -> & ->)%operation_id_spec.
Qed.

Section confined.
Context (L : lenv) {Q : Type} `{!Qemu Q, !QemuLaws Q}.
Context (vm locked : string) (persisted : list string) (socket : option path).
Implicit Types w : world Q.
Let dir := l_dir L.

(** The folder has a valid journal of the computer. *)
Definition mine w (sid : string) : Prop :=
  ∃ p e, file_at w sid journal = Some (Text (Object p)) ∧ is_text (jget p "vm_id") vm = true
         ∧ read_journal dir sid p = Ok e ∧ re_valid e = true.
Definition working_files : list string :=
  ["live-backup.tmp"; "disk.qcow2"; "disk.qcow2.partial"; "increment.qcow2"; "increment.qcow2.partial"].
(** The files a recovery may change. *)
Definition may_touch w (sid file : string) : Prop :=
  alias_at w sid = Some false ∧
  ((file = journal ∧ (sid = locked ∨ mine w sid)) ∨ (file ∈ working_files ∧ (sid ∉ persisted) ∧ mine w sid)).

Record confined w0 w : Prop := {
  cf_ok : q_ok (w_qemu w);
  cf_nodes : ∀ n, ¬ own_node n → qv_nodes (view w) !! n = qv_nodes (view w0) !! n;
  cf_no_node : ∀ n, qv_nodes (view w0) !! n = None → qv_nodes (view w) !! n = None;
  cf_jobs : ∀ j, ¬ own_job j → job_kept (qv_jobs (view w0) !! j) (qv_jobs (view w) !! j);
  cf_files : ∀ s f, ¬ may_touch w0 s f → file_at w s f = file_at w0 s f;
  cf_mine : ∀ s, mine w s → mine w0 s;
  cf_alias : ∀ s, alias_at w s = Some false → alias_at w0 s = Some false }.

Lemma mine_same w w' s : file_at w' s journal = file_at w s journal → mine w' s → mine w s.
Proof. unfold mine. intros ->. done. Qed.

Lemma confined_qmp w0 c : recovery_command c → stays L (confined w0) (act (Qmp c)).
Proof.
  intros Hc. apply stays_act. intros w w' r [Hok Hn Hnn Hj Hf Hm Ha] Hp.
  destruct (perform_qmp L c w w' r Hok Hp) as (Hd & _ & Hok' & v & Hg & _ & He).
  assert (view w' = v ∨ ∃ x, effect c (named_image w c) v (view w') x) as He' by (destruct r; [right; eauto|apply He]).
  assert (∀ s f, file_at w' s f = file_at w s f) as Hsame by (intros s f; unfold file_at; by rewrite Hd).
  assert ((∀ n, ¬ own_node n → qv_nodes (view w') !! n = qv_nodes v !! n) ∧ (∀ n, qv_nodes v !! n = None → qv_nodes (view w') !! n = None)
          ∧ (∀ j, ¬ own_job j → qv_jobs (view w') !! j = qv_jobs v !! j)) as (H1 & H2 & H3).
  { destruct He' as [->|[x Hx]]; [done|]. apply recovery_effect in Hx as (? & ? & ? & _); done. }
  split; try done.
  - intros n Hno. rewrite H1, (go_nodes _ _ Hg) by done. by apply Hn.
  - intros n Hno. apply H2. rewrite (go_nodes _ _ Hg). by apply Hnn.
  - intros j Hno. rewrite H3 by done. eapply job_kept_trans; [by apply Hj|]. by apply goes_on_kept.
  - intros s f Hno. rewrite Hsame. by apply Hf.
  - intros s Hs. apply Hm. eapply mine_same; [apply Hsame|done].
  - intros s. unfold alias_at. rewrite Hd. apply Ha.
Qed.

Lemma perform_alias a w w' r s : perform L a w = (w', r) → alias_at w' s = Some false → alias_at w s = Some false.
Proof.
  intros H. destruct a; simpl in H; unfold host_op in H; try (by simplify_eq).
  - destruct (qmp _ _ _). by simplify_eq.
  - repeat case_match; simplify_eq; try done; by rewrite alias_at_put.
  - repeat case_match; simplify_eq; try done. by rewrite alias_at_put, alias_at_drop.
  - repeat case_match; simplify_eq; try done. by rewrite alias_at_drop.
  - repeat case_match; simplify_eq; try done. unfold alias_at. simpl. destruct (decide (s = sid)) as [->|].
    + by rewrite lookup_delete_eq.
    + by rewrite lookup_delete_ne.
  - simplify_eq. destruct c; try done. destruct (_ || _); [|done].
    change (alias_at (new_inode ?x) s) with (alias_at x s). by rewrite alias_at_put.
Qed.
(** An effect on the host that touches only what it may, and makes no journal of
    this computer. *)
Lemma confined_host w0 a :
  (∀ c, a ≠ Qmp c) → (∀ s f, touches a s f → may_touch w0 s f) →
  (∀ w w' r s, confined w0 w → perform L a w = (w', r) → touches a s journal → mine w' s → mine w0 s) →
  stays L (confined w0) (act a).
Proof.
  intros Hq Ht Hj. apply stays_act. intros w w' r Hw Hp. pose proof (perform_host L a w w' r Hq Hp) as He.
  destruct Hw as [Hok Hn Hnn Hjs Hf Hm Ha] eqn:HW. split; unfold view; rewrite ?He; try done.
  - intros s f Hno. rewrite (perform_files L a w w' r s f Hp); [by apply Hf|]. by intros ?%Ht.
  - intros s Hs. destruct (decide (touches a s journal)) as [Htj|Htj].
    + by apply (Hj w w' r).
    + apply Hm. eapply mine_same; [|done]. by apply (perform_files L a w w' r).
  - intros s Hs. apply Ha. by eapply perform_alias.
Qed.
Lemma confined_look w0 a : looks a = true → stays L (confined w0) (act a).
Proof. intros H. apply confined_host; destruct a; try done; destruct c; done. Qed.
Lemma confined_rmdir w0 sid : stays L (confined w0) (act (Rmdir sid)).
Proof. by apply confined_host. Qed.
Hint Extern 1 (stays _ _ (act _)) =>
  first [apply confined_look; reflexivity | apply confined_rmdir | apply confined_qmp; simpl; auto; fail] : core.

Lemma confined_steady w0 : steady L (confined w0).
Proof. split; [apply confined_look|apply confined_qmp]. Qed.
Definition confined_names w0 := steady_names L _ (confined_steady w0).
Definition confined_jobs w0 := steady_jobs L _ (confined_steady w0).
(** Removing a file. *)
Lemma confined_unlink w0 sid f : may_touch w0 sid f → stays L (confined w0) (act (Unlink sid f)).
Proof.
  intros Hm. apply confined_host; [done|by intros s g [-> ->]|]. intros w w' r s Hw Hp [-> <-] Hmine.
  simpl in Hp. unfold host_op in Hp.
  destruct (file_at w sid journal) eqn:Hj; [destruct (l_os L _)|]; simplify_eq; [by eapply cf_mine| |by eapply cf_mine].
  destruct Hmine as (p & re & Hf & _). by rewrite file_at_drop, decide_True in Hf.
Qed.
Lemma confined_cleanup w0 job node root artifact :
  (∀ sid f, root = Some sid → f ∈ working_files → may_touch w0 sid f) →
  stays L (confined w0) (_cleanup_live_backup job node root artifact).
Proof.
  intros Hroot. apply steady_cleanup; [apply confined_steady|]. intros sid f Hs Hf. apply confined_unlink, Hroot; [done|].
  unfold working_files. set_solver.
Qed.
Lemma confined_write w0 sid p : (∀ f, f = journal ∨ f ∈ working_files → may_touch w0 sid f) → mine w0 sid →
  stays L (confined w0) (_write_live_backup_manifest sid p).
Proof.
  intros Hm Hmine. unfold _write_live_backup_manifest. apply stays_bind; [|intros _]; apply confined_host; try done.
  - intros s f [-> ->]. apply Hm. right. left.
  - by intros w w' r s Hw Hp [-> Hf].
  - intros s f [-> [->| ->]]; apply Hm; [right; left|by left].
  - by intros w w' r s Hw Hp [-> _] _.
Qed.
Lemma confined_quarantine w0 sid : alias_at w0 sid = Some false → stays L (confined w0) (quarantine locked sid).
Proof.
  intros Ha. unfold quarantine. apply stays_when. intros ->%String.eqb_eq. apply stays_suppress, confined_unlink.
  split; [done|]. left. auto.
Qed.

(** A folder with a valid journal of the computer. *)
Section folder.
Context (w0 : world Q) (sid : string) (Ha : alias_at w0 sid = Some false) (Hm : mine w0 sid).

Lemma confined_discard e p job node keep :
  keep = bool_decide (sid ∈ persisted) → stays L (confined w0) (discard_entry sid e p job node keep).
Proof using Ha Hm.
  intros Hk. unfold discard_entry. apply stays_bind.
  - apply confined_cleanup. intros s f Hs Hf. destruct keep; [done|]. simplify_eq.
    symmetry in Hk. apply bool_decide_eq_false in Hk. split; [done|]. right. done.
  - intros cleaned. unfold remove_dirty_bitmap. stay; auto; apply confined_unlink; (split; [done|]); left; auto.
Qed.
Context (Hnew : sid ∉ persisted).
Lemma confined_working f : f = journal ∨ f ∈ working_files → may_touch w0 sid f.
Proof using Ha Hm Hnew. intros Hf. split; [done|]. destruct Hf; [left|right]; auto. Qed.
Lemma confined_replace f : f ∈ ["disk.qcow2"; "increment.qcow2"] → stays L (confined w0) (act (Replace sid (partial_name f) f)).
Proof using Ha Hm Hnew.
  intros Hf. apply confined_host; [done|..].
  - intros s g [-> Hg]. apply confined_working. right. unfold partial_name in Hg.
    apply elem_of_cons in Hf as [->|[->|Hf%elem_of_nil]%elem_of_cons]; [..|done]; destruct Hg as [->| ->]; set_solver.
  - by intros w w' r s _ _ [-> _] _.
Qed.
Lemma confined_recover e p node :
  own_node node → re_artifact e ∈ ["disk.qcow2"; "increment.qcow2"] → stays L (confined w0) (recover_entry dir vm locked sid e p node).
Proof using Ha Hm Hnew.
  intros Hn Hart. pose proof (confined_names w0). pose proof (confined_replace _ Hart).
  assert (∀ p, stays L (confined w0) (_write_live_backup_manifest sid p)) as Hwr by (intros; apply confined_write; [apply confined_working|done]).
  unfold recover_entry, _publish_recovered_bitmap_artifact, run_qemu_img, blockdev_del. stay; auto.
Qed.
Lemma confined_recover_bitmap e p op :
  valid_op op = true → re_artifact e ∈ ["disk.qcow2"; "increment.qcow2"] →
  stays L (confined w0) (recover_bitmap_entry dir vm locked sid e p (job_of op) (node_of op)).
Proof using Ha Hm Hnew.
  intros Hop Hart.
  assert (own_job (job_of op) ∧ own_node (node_of op)) as [Hj Hn] by (split; by exists op).
  assert (∀ p, stays L (confined w0) (_write_live_backup_manifest sid p)) as Hwr by (intros; apply confined_write; [apply confined_working|done]).
  assert (∀ p, stays L (confined w0) (discard_entry sid e p (job_of op) (node_of op) false)) as Hdi
    by (intros; apply confined_discard; symmetry; by apply bool_decide_eq_false).
  assert (∀ p, stays L (confined w0) (recover_entry dir vm locked sid e p (node_of op))) as Hre by (intros; by apply confined_recover).
  unfold recover_bitmap_entry, query_jobs, dismiss_job. stay; auto.
Qed.
End folder.

Lemma confined_payload w0 sid p :
  alias_at w0 sid = Some false →
  ∀ w, confined w0 w → file_at w sid journal = Some (Text (Object p)) →
  wpc (perform L) (confined w0) (reconcile_payload dir vm locked persisted sid p) (λ _, confined w0) (λ _, confined w0) w.
Proof.
  intros Ha w Hw Hp. unfold reconcile_payload. destruct (is_text (jget p "vm_id") vm) eqn:Hvm; [|exact Hw]. simpl.
  destruct (read_journal dir sid p) as [e|err] eqn:He; [|exact Hw]. rewrite bind_lift.
  destruct (re_valid e) eqn:Hv; [|by apply confined_quarantine].
  destruct (re_operation e) as [op|] eqn:Hop; [|by apply confined_quarantine].
  assert (mine w0 sid) as Hm by (eapply cf_mine; [done|]; by exists p, e).
  destruct (read_inv dir sid p e He) as (Hart & Hid). apply Hid in Hop as (Hop & _). rewrite (identifiers_valid op Hop), bind_lift. simpl.
  destruct (re_bitmap e); simpl; [case_bool_decide as Hin; simpl|];
     [| |by apply confined_discard].
  - apply confined_discard; try done. symmetry. by apply bool_decide_eq_true.
  - by apply confined_recover_bitmap.
Qed.
Lemma confined_folder w0 sid : stays L (confined w0) (reconcile_folder dir vm locked persisted sid).
Proof.
  intros w Hw. unfold reconcile_folder. apply wpc_bind, wpc_act. intros w1 r Hp.
  pose proof (confined_look w0 (Resolves sid) eq_refl w Hw _ _ Hp) as [Hw1 _]. split; [done|]. simpl in Hp. simplify_eq.
  destruct (w_dirs w !! sid) as [fo|] eqn:Hfo; [|exact Hw1]. destruct (fo_alias fo) eqn:Hal; [exact Hw1|]. simpl.
  assert (alias_at w0 sid = Some false) as Ha by (apply (cf_alias _ _ Hw); unfold alias_at; rewrite Hfo; simpl; by rewrite Hal).
  apply wpc_bind, (wpc_act (perform L) _ (Find sid journal)). intros w2 r Hp. pose proof (confined_look w0 (Find sid journal) eq_refl _ Hw1 _ _ Hp) as [Hw2 _].
  split; [done|]. simpl in Hp. simplify_eq. destruct (file_at (ticked w) sid journal) as [[| [| |p]|]|] eqn:Hj; try by apply confined_quarantine.
  by apply confined_payload.
Qed.
Lemma confined_sweep_job w0 j : stays L (confined w0) (sweep_job j).
Proof. unfold sweep_job. stay. by apply confined_cleanup. Qed.
Lemma confined_sweep_node w0 n : stays L (confined w0) (sweep_node n).
Proof.
  unfold sweep_node. destruct (_live_backup_operation_id _ n) as [op|] eqn:Hop; [|stay].
  apply operation_id_spec in Hop as (Hv & _ & _). rewrite (identifiers_valid op Hv), bind_lift. pose proof (confined_names w0).
  unfold blockdev_del. stay. apply confined_qmp. by exists op.
Qed.
Lemma confined_reconcile w0 : stays L (confined w0) (reconcile_live_backups dir vm locked persisted socket).
Proof.
  pose proof (confined_jobs w0). pose proof (confined_names w0). unfold reconcile_live_backups, _reconcile_live_backups, _client, connect.
  stay; auto; apply stays_for; intros; [apply confined_folder|apply confined_sweep_job|apply confined_sweep_node].
Qed.

(** ** After a recovery that returns *)
Definition names_listed w0 := names_listed_by L (confined w0) (confined_steady w0) (cf_ok w0).
Definition del_detaches w0 := del_detaches_by L (confined w0) (confined_steady w0) (cf_ok w0).
Lemma sweep_detaches w0 n w :
  confined w0 w →
  wpc (perform L) (confined w0) (sweep_node n)
    (λ _ w', confined w0 w' ∧ (own_node n → ¬ attached w' n) ∧ (∀ m, attached w' m → attached w m)) (λ _, confined w0) w.
Proof.
  intros Hw. unfold sweep_node. destruct (_live_backup_operation_id _ n) as [op|] eqn:Hop.
  - apply operation_id_spec in Hop as (Hv & _ & ->). rewrite (identifiers_valid op Hv), bind_lift. simpl.
    apply wpc_bind. eapply wpc_mono; [by apply names_listed|done| |done]. intros names w1 [Hw1 Hl].
    apply wpc_when; [intros _|].
    + eapply wpc_mono; [apply del_detaches; [by exists op|done]|done| |done]. intros [] w2 (Hw2 & Hn & Hm).
      split; [done|]. split; [done|]. intros m Hm2. by apply Hl, Hm.
    + intros Hin%bool_decide_eq_false. split; [done|]. split; [|intros m Hm; by apply Hl]. intros _ Hn. apply Hin. by apply Hl.
  - apply wpc_ret. split; [done|]. split; [|done]. intros (op & Hv & ->). rewrite removeprefix_node in Hop.
    change (_LIVE_BACKUP_JOB_PREFIX +:+ op) with (job_of op) in Hop. destruct (operation_id_spec (job_of op) (node_of op) op) as [_ H].
    rewrite H in Hop; done.
Qed.
Lemma sweep_all w0 l w :
  confined w0 w → (∀ n, own_node n → attached w n → n ∈ l) →
  wpc (perform L) (confined w0) (pfor l sweep_node) (λ _ w', ∀ n, own_node n → ¬ attached w' n) (λ _ _, True) w.
Proof.
  revert w. induction l as [|n l IH]; intros w Hw Hl; simpl.
  - apply wpc_ret. intros n Hn Ha. by apply Hl, elem_of_nil in Ha.
  - apply wpc_bind. eapply wpc_mono; [by apply sweep_detaches|done| |done]. intros [] w1 (Hw1 & Hn & Hm). apply IH; [done|].
    intros m Hom Ha. specialize (Hl m Hom (Hm m Ha)). apply elem_of_cons in Hl as [->|]; [by destruct (Hn Hom)|done].
Qed.
Lemma reconcile_sweeps w : q_ok (w_qemu w) → journals w ≠ [] → (∀ n l, l_order L n l = [] → l = []) →
  wpc (perform L) (confined w) (reconcile_live_backups dir vm locked persisted socket)
    (λ _ w', ∀ n, own_node n → ¬ attached w' n) (λ _ _, True) w.
Proof.
  intros Hok Hj Ho. assert (confined w w) as Hw by (split; auto using job_kept_refl).
  unfold reconcile_live_backups. apply wpc_bind, wpc_act. intros w1 r Hp.
  pose proof (confined_look w Glob eq_refl w Hw _ _ Hp) as [Hw1 _]. split; [done|]. simpl in Hp. simplify_eq.
  destruct (l_order L (w_tick w) (journals w)) as [|s l] eqn:Hs; [by apply Ho in Hs|]. unfold _client, connect, _reconcile_live_backups.
  assert (∀ A (p : prog A) (f : A → prog unit) w1, stays L (confined w) p → confined w w1 →
    (∀ x w2, confined w w2 → wpc (perform L) (confined w) (f x) (λ _ w', ∀ n, own_node n → ¬ attached w' n) (λ _ _, True) w2) →
    wpc (perform L) (confined w) (pbind p f) (λ _ w', ∀ n, own_node n → ¬ attached w' n) (λ _ _, True) w1) as Hseq.
  { intros A p f w2 Hp Hw2 Hf. apply wpc_bind. by eapply stays_wpc. }
  apply Hseq; [stay; auto|done|intros _ w2 Hw2]. apply Hseq; [auto|done|intros sids w3 Hw3].
  apply Hseq; [apply stays_for; intros; apply confined_folder|done|intros _ w4 Hw4].
  apply Hseq; [apply confined_jobs|done|intros jobs w5 Hw5].
  apply Hseq; [apply stays_for; intros; apply confined_sweep_job|done|intros _ w6 Hw6].
  apply wpc_bind. eapply wpc_mono; [by apply names_listed|done| |done]. intros names w7 [Hw7 Hl].
  apply sweep_all; [done|]. intros n _ Ha. by apply Hl.
Qed.
End confined.

(** C15: whatever the journals on the disk say and wherever the process is killed,
    recovering interrupted live backups leaves alone the nodes and jobs of QEMU
    that do not carry the program's names, every file of a snapshot the inventory
    knows except its journal, and every file of a folder that is an alias or has
    no valid journal of this computer, except the journal of the snapshot whose
    lock is held. *)
Theorem recovery_confined (L : lenv) {Q : Type} `{!Qemu Q, !QemuLaws Q} vm locked persisted socket n (w w' : world Q) o :
  q_ok (w_qemu w) →
  exec (perform L) n (reconcile_live_backups (l_dir L) vm locked persisted socket) w = (w', o) →
  (∀ m, ¬ own_node m → qv_nodes (view w') !! m = qv_nodes (view w) !! m)
  ∧ (∀ j, ¬ own_job j → job_kept (qv_jobs (view w) !! j) (qv_jobs (view w') !! j))
  ∧ (∀ s f, ¬ may_touch L vm locked persisted w s f → file_at w' s f = file_at w s f).
Proof.
  intros Hok He. assert (confined L vm locked persisted w w) as Hw by (split; auto using job_kept_refl).
  destruct (wpc_exec _ _ _ _ _ _ _ _ _ (confined_reconcile L vm locked persisted socket w w Hw) Hw He) as [[] _]. done.
Qed.

(** C16: when there is a journal and recovery returns, no node with a name of the
    program is attached to QEMU any more, however the jobs and the connection
    behaved. *)
Theorem recovery_detaches (L : lenv) {Q : Type} `{!Qemu Q, !QemuLaws Q} vm locked persisted socket (w w' : world Q) :
  q_ok (w_qemu w) → journals w ≠ [] → (∀ n l, l_order L n l = [] → l = []) →
  run (perform L) (reconcile_live_backups (l_dir L) vm locked persisted socket) w = (w', Ok tt) →
  ∀ n, own_node n → qv_nodes (view w') !! n = None.
Proof.
  intros Hok Hj Ho Hr n Hn. assert (confined L vm locked persisted w w) as Hw by (split; auto using job_kept_refl).
  destruct (wpc_run _ _ _ _ _ _ _ _ (reconcile_sweeps L vm locked persisted socket w Hok Hj Ho) Hw Hr) as [_ H].
  apply eq_None_not_Some. by apply H.
Qed.
