(* ===== verification/LiveInv.v ===== *)
(** * A published backup is complete

    The invariant of the snapshot folders of one computer: an image under its
    final name holds what that name says, [disk.qcow2] a copy of the whole disk
    and [increment.qcow2] the changes a bitmap recorded; a journal of a finished
    bitmap capture names such an image; a journal of a running one names the job
    that writes it.  Recovering keeps it wherever it is killed. *)
From S2P Require Import Prelude PyStr Types CrashProg LiveWorld QmpClient LiveBackup LiveReconcile LiveFrames.
From S2P Require Import LiveConfined.
From stdpp Require Import options.

Definition artifacts : list string := ["disk.qcow2"; "increment.qcow2"].
Definition partials : list string := ["disk.qcow2.partial"; "increment.qcow2.partial"].
Lemma partial_in f : f ∈ artifacts → partial_name f ∈ partials.
Proof. intros [->|[->|Hf%elem_of_nil]%elem_of_cons]%elem_of_cons; [..|done]; unfold partial_name, partials; set_solver. Qed.
Lemma artifact_not_partial f g : f ∈ artifacts → g ∈ partials → f ≠ g.
Proof.
  intros [->|[->|Hf%elem_of_nil]%elem_of_cons]%elem_of_cons [->|[->|Hg%elem_of_nil]%elem_of_cons]%elem_of_cons; done.
Qed.
Lemma not_bookkeeping f : f ∈ artifacts ∨ f ∈ partials → f ≠ journal ∧ f ≠ "live-backup.tmp".
Proof.
  intros [[->|[->|Hf%elem_of_nil]%elem_of_cons]%elem_of_cons|[->|[->|Hf%elem_of_nil]%elem_of_cons]%elem_of_cons]; done.
Qed.

(** What an image of that name is to hold. *)
Definition proper (f : string) (k : content) : Prop :=
  if String.eqb f "increment.qcow2" then ∃ b, k = Changes QEMU_ROOT_NODE_NAME b else k = Whole QEMU_ROOT_NODE_NAME.
(** Image [i] holds it. *)
Definition good (v : qview) (f : string) (i : nat) : Prop := ∃ k, (i, k) ∈ qv_holds v ∧ proper f k.
Lemma good_mono v v' f i : qv_holds v ⊆ qv_holds v' → good v f i → good v' f i.
Proof. intros H (k & Hk & ?). exists k. split; [by apply H|done]. Qed.

Section inv.
Context (dir vm : string) {Q : Type} `{!Qemu Q, !QemuLaws Q}.
Implicit Types (w : world Q) (p : payload) (e : read_entry).

(** A journal that recovery would publish from. *)
Definition active w (sid : string) p e : Prop :=
  file_at w sid journal = Some (Text (Object p)) ∧ is_text (jget p "vm_id") vm = true
  ∧ read_journal dir sid p = Ok e ∧ re_valid e = true ∧ re_bitmap e = true.
Definition in_progress p : Prop := phase_of p ∈ [Some "node-attached"; Some "job-running"].
Definition entry_ok w (sid : string) p e : Prop :=
  (settled (phase_of p) = true → ∀ i, image_at w sid (partial_name (re_artifact e)) = Some i → good (view w) (re_artifact e) i)
  ∧ (in_progress p → ∀ op b i, re_operation e = Some op → qv_jobs (view w) !! job_of op = Some b →
       image_at w sid (partial_name (re_artifact e)) = Some i →
       ∃ k, jb_backup b = Some (node_of op, (i, k)) ∧ proper (re_artifact e) k).
Record live_inv w : Prop := {
  li_ok : q_ok (w_qemu w);
  li_final : ∀ s f i, f ∈ artifacts → image_at w s f = Some i → good (view w) f i;
  li_entry : ∀ s p e, active w s p e → entry_ok w s p e;
  li_inode : ∀ s f i, image_at w s f = Some i → i < w_inode w }.

Lemma image_at_eq w w' s f : file_at w' s f = file_at w s f → image_at w' s f = image_at w s f.
Proof. unfold image_at. by intros ->. Qed.

(** QEMU moves on: no image loses its content, no job is new. *)
Lemma inv_qemu w w' :
  live_inv w → w_dirs w' = w_dirs w → w_inode w' = w_inode w → q_ok (w_qemu w') →
  qv_holds (view w) ⊆ qv_holds (view w') →
  (∀ j b', qv_jobs (view w') !! j = Some b' → ∃ b, qv_jobs (view w) !! j = Some b ∧ jb_backup b' = jb_backup b) →
  live_inv w'.
Proof.
  intros [_ Hf He Hi] Hd Hn Hok Hw Hj.
  assert (∀ s f, file_at w' s f = file_at w s f) as Hs by (intros; unfold file_at; by rewrite Hd).
  assert (∀ s f, image_at w' s f = image_at w s f) as Hm by (intros; by apply image_at_eq).
  split; [done|..].
  - intros s f i Ha. rewrite Hm. intros H. eapply good_mono; [exact Hw|]. by eapply Hf.
  - intros s p e Ha. assert (active w s p e) as Ha' by (unfold active in *; by rewrite <- Hs). destruct (He s p e Ha') as [H1 H2].
    split; [intros H i|intros H op b' i Hop Hb']; rewrite Hm; [intros Hi'; eapply good_mono; [exact Hw|by apply (H1 H)]|].
    destruct (Hj _ _ Hb') as (b & Hb & ->). by apply H2.
  - intros s f i. rewrite Hm, Hn. apply Hi.
Qed.
(** Files disappear. *)
Lemma inv_less w w' :
  live_inv w → w_qemu w' = w_qemu w → w_inode w' = w_inode w →
  (∀ s f x, f ≠ "live-backup.tmp" → file_at w' s f = Some x → file_at w s f = Some x) →
  (∀ s i, image_at w' s "live-backup.tmp" = Some i → i < w_inode w) →
  live_inv w'.
Proof.
  intros [Hok Hf He Hi] Hq Hn Hs Ht.
  assert (∀ s f i, f ≠ "live-backup.tmp" → image_at w' s f = Some i → image_at w s f = Some i) as Hm.
  { intros s f i Hne. unfold image_at. destruct (file_at w' s f) as [x|] eqn:Hx; [|done]. by rewrite (Hs s f x Hne Hx). }
  assert (∀ e s p, read_journal dir s p = Ok e → partial_name (re_artifact e) ≠ "live-backup.tmp") as Hp.
  { intros e s p Hr. apply not_bookkeeping. right. apply partial_in. by eapply read_inv. }
  split; unfold view; rewrite ?Hq; try done.
  - intros s f i Ha H. eapply Hf; [done|]. apply Hm; [|done]. apply not_bookkeeping. by left.
  - intros s p e (Hj & Hv & Hr & Ha). specialize (Hp e s p Hr). assert (active w s p e) as Ha' by (split_and!; try apply Ha; auto).
    destruct (He s p e Ha') as [H1 H2]. unfold entry_ok, view. rewrite Hq. split; [intros H i Hi'; apply (H1 H); auto|].
    intros H op b i Hop Hb Hi'. eapply H2; eauto.
  - intros s f i H. rewrite Hn. destruct (decide (f = "live-backup.tmp")) as [->|Hne]; [by eapply Ht|]. eapply Hi. by apply Hm.
Qed.

(** [w'] differs from [w] in the bookkeeping files of one folder. *)
Record near (sid : string) w w' : Prop := {
  nr_qemu : w_qemu w' = w_qemu w;
  nr_inode : w_inode w' = w_inode w;
  nr_files : ∀ s f, s ≠ sid ∨ (f ≠ journal ∧ f ≠ "live-backup.tmp") → file_at w' s f = file_at w s f }.
Lemma near_refl sid w : near sid w w.
Proof. by split. Qed.
Lemma near_trans sid w1 w2 w3 : near sid w1 w2 → near sid w2 w3 → near sid w1 w3.
Proof. intros [A1 B1 C1] [A2 B2 C2]. split; [congruence..|]. intros s f H. rewrite C2, C1; done. Qed.

(** What must hold of a journal before it is written. *)
Definition fits w (sid : string) p : Prop :=
  ∀ e, read_journal dir sid p = Ok e → re_valid e = true → re_bitmap e = true → entry_ok w sid p e.
Lemma fits_near sid w w' p : near sid w w' → fits w sid p → fits w' sid p.
Proof.
  intros Hn Hf e Hr Hv Hb. destruct (Hf e Hr Hv Hb) as [H1 H2].
  assert (image_at w' sid (partial_name (re_artifact e)) = image_at w sid (partial_name (re_artifact e))) as Hi.
  { apply image_at_eq, (nr_files _ _ _ Hn). right. apply not_bookkeeping. right. apply partial_in. by eapply read_inv. }
  unfold entry_ok, view. rewrite Hi, (nr_qemu _ _ _ Hn). done.
Qed.
(** A new journal, and perhaps no temporary file any more. *)
Lemma inv_near sid w w' p :
  live_inv w → near sid w w' → fits w sid p → file_at w' sid journal = Some (Text (Object p)) →
  (∀ i, image_at w' sid "live-backup.tmp" ≠ Some i) → live_inv w'.
Proof.
  intros Hw Hn Hfit Hj Ht. pose proof Hn as [Hq Hno Hs]. destruct Hw as [Hok Hf He Hi].
  assert (∀ s f, f ∈ artifacts ∨ f ∈ partials → image_at w' s f = image_at w s f) as Hm.
  { intros s f Hin. apply image_at_eq, Hs. right. by apply not_bookkeeping. }
  split; unfold view; rewrite ?Hq; try done.
  - intros s f i Ha. rewrite Hm by by left. by apply Hf.
  - intros s q e (Hjq & Hvm & Hr & Hv & Hb). destruct (decide (s = sid)) as [->|Hne].
    + rewrite Hj in Hjq. simplify_eq. eapply fits_near; try done.
    + assert (active w s q e) as Ha by (rewrite Hs in Hjq by auto; done). destruct (He s q e Ha) as [H1 H2].
      assert (partial_name (re_artifact e) ∈ partials) as Hpa by (apply partial_in; by eapply read_inv).
      unfold entry_ok, view. rewrite Hq, Hm by by right. done.
  - intros s f i. rewrite Hno. destruct (decide (s = sid ∧ (f = journal ∨ f = "live-backup.tmp"))) as [[-> [->| ->]]|Hne].
    + unfold image_at. by rewrite Hj.
    + intros H. by destruct (Ht i).
    + rewrite (image_at_eq w w'); [apply Hi|]. apply Hs. destruct (decide (s = sid)); [right|left]; naive_solver.
Qed.
End inv.

(** ** Effects *)
Section keeps.
Context (L : lenv) (vm : string) {Q : Type} `{!Qemu Q, !QemuLaws Q}.
Implicit Types (w : world Q) (p : payload) (e : read_entry).
Abbreviation inv := (live_inv (l_dir L) vm).

Lemma perform_look a w w' r : looks a = true → perform L a w = (w', r) → w' = ticked w.
Proof. intros Ha. destruct a; simpl in *; intros H; simplify_eq; try done. by destruct c. Qed.
Lemma inv_ticked w : inv w → inv (ticked w).
Proof. intros Hw. apply (inv_less _ _ w); try done. intros s i. apply (li_inode _ _ _ Hw). Qed.
Lemma inv_look a : looks a = true → stays L inv (act a).
Proof. intros Ha. apply stays_act. intros w w' r Hw ->%perform_look; [|done]. by apply inv_ticked. Qed.

(** A command of a recovery: jobs keep their images, images their content. *)
Lemma perform_recovery c w w' r :
  q_ok (w_qemu w) → recovery_command c → perform L (Qmp c) w = (w', r) →
  q_ok (w_qemu w') ∧ w_dirs w' = w_dirs w ∧ w_inode w' = w_inode w ∧ qv_holds (view w) ⊆ qv_holds (view w')
  ∧ (∀ n, qv_nodes (view w) !! n = None → qv_nodes (view w') !! n = None)
  ∧ (∀ n i, qv_nodes (view w') !! n = Some i → qv_nodes (view w) !! n = Some i)
  ∧ (∀ j b', qv_jobs (view w') !! j = Some b' → ∃ b, qv_jobs (view w) !! j = Some b ∧ jb_backup b' = jb_backup b).
Proof.
  intros Hok Hc Hp. destruct (perform_qmp L c w w' r Hok Hp) as (Hd & Hi & Hok' & v & Hg & _ & He).
  assert (view w' = v ∨ ∃ x, effect c (named_image w c) v (view w') x) as He' by (destruct r; [right; eauto|apply He]).
  assert (∀ j b, qv_jobs v !! j = Some b → ∃ b0, qv_jobs (view w) !! j = Some b0 ∧ jb_backup b = jb_backup b0) as Hj.
  { intros j b Hb. pose proof (goes_on_kept _ _ j Hg) as Hk. rewrite Hb in Hk. destruct (qv_jobs (view w) !! j); [|done].
    destruct Hk. by eauto. }
  pose proof (go_nodes _ _ Hg) as Hno. pose proof (go_holds _ _ Hg) as Hwh.
  split_and!; try done; destruct He' as [Hv|[x Hx]]; try (rewrite Hv, ?Hno in *; done);
    destruct (recovery_effect _ _ _ _ _ Hc Hx) as (H1 & H2 & _ & H4 & H5).
  - by rewrite H4.
  - intros n Hn. apply H2. by rewrite Hno.
  - intros n i Hni. destruct c; simpl in Hx; try done; try (by rewrite Hx, Hno in Hni);
      try (destruct Hx as [Hx _]; by rewrite Hx, Hno in Hni).
    + destruct Hx as [_ Hx]. rewrite Hx in Hni. simpl in Hni. apply lookup_delete_Some in Hni as [_ ?]. by rewrite <- Hno.
    + destruct Hx as [Hx|(b & _ & Hx)]; by rewrite Hx in Hni; simpl in Hni; rewrite ?Hno in Hni.
    + destruct Hx as [Hx|(b & _ & Hx)]; by rewrite Hx in Hni; simpl in Hni; rewrite ?Hno in Hni.
    + destruct Hx as [_ Hx]. rewrite Hx in Hni. simpl in Hni. by rewrite Hno in Hni.
  - intros j b' Hb'. destruct (H5 j b' Hb') as (b & Hb & ->). by apply Hj.
Qed.
Lemma inv_command c : recovery_command c → stays L inv (act (Qmp c)).
Proof.
  intros Hc. apply stays_act. intros w w' r Hw Hp.
  destruct (perform_recovery c w w' r (li_ok _ _ _ Hw) Hc Hp) as (? & ? & ? & ? & _ & _ & ?). by eapply inv_qemu.
Qed.
Lemma perform_unlink sid f w w' r :
  perform L (Unlink sid f) w = (w', r) →
  w_qemu w' = w_qemu w ∧ w_inode w' = w_inode w ∧ (∀ s g x, file_at w' s g = Some x → file_at w s g = Some x)
  ∧ (∀ s g, ¬ (s = sid ∧ g = f) → file_at w' s g = file_at w s g) ∧ match r with Err e => is_oserror e = true | Ok _ => True end.
Proof.
  intros H. assert (∀ s g, ¬ (s = sid ∧ g = f) → file_at w' s g = file_at w s g) as Hs by (intros s g Hn; by eapply perform_files).
  simpl in H. unfold host_op in H. repeat case_match; simplify_eq; split_and!; try done.
  intros s g x. rewrite file_at_drop. by case_decide.
Qed.
Lemma inv_unlink sid f : stays L inv (act (Unlink sid f)).
Proof.
  apply stays_act. intros w w' r Hw Hp. destruct (perform_unlink _ _ _ _ _ Hp) as (Hq & Hi & Hs & _).
  apply (inv_less _ _ w); try done; [intros; by apply Hs|]. intros s i. unfold image_at.
  destruct (file_at w' s _) as [[]|] eqn:Hf; try done. intros [= <-]. apply Hs in Hf. eapply (li_inode _ _ _ Hw s). unfold image_at. by rewrite Hf.
Qed.
Lemma inv_rmdir sid : stays L inv (act (Rmdir sid)).
Proof.
  apply stays_act. intros w w' r Hw Hp.
  assert (∀ s f, file_at w' s f = file_at w s f) as Hs by (intros; eapply perform_files; [exact Hp|by intros []]).
  apply (inv_less _ _ w); try done.
  - by eapply (perform_host L (Rmdir sid)).
  - simpl in Hp. unfold host_op in Hp. by repeat case_match; simplify_eq.
  - intros s f x _. by rewrite Hs.
  - intros s i. rewrite (image_at_eq w) by done. apply (li_inode _ _ _ Hw).
Qed.

(** A journal is written beside the old one and then takes its place. *)
Abbreviation tmp := "live-backup.tmp".
Lemma write_spec sid p w (I : world Q → Prop) :
  (∀ w', near sid w w' → file_at w' sid journal = file_at w sid journal →
         (∀ i, image_at w' sid tmp = Some i → image_at w sid tmp = Some i) → I w') →
  (∀ w', near sid w w' → file_at w' sid journal = Some (Text (Object p)) → file_at w' sid tmp = None → I w') →
  wpc (perform L) I (_write_live_backup_manifest sid p)
    (λ _ w', near sid w w' ∧ file_at w' sid journal = Some (Text (Object p)) ∧ file_at w' sid tmp = None)
    (λ (er : error) w', is_oserror er = true ∧ near sid w w' ∧ file_at w' sid journal = file_at w sid journal
             ∧ ∀ i, image_at w' sid tmp = Some i → image_at w sid tmp = Some i) w.
Proof.
  intros H1 H2. unfold _write_live_backup_manifest. apply wpc_bind, (wpc_act (perform L) _ (Write sid tmp p)). intros w1 r Hp.
  assert (near sid w w1 ∧ (∀ i, image_at w1 sid tmp = Some i → image_at w sid tmp = Some i)
          ∧ match r with Ok _ => file_at w1 sid tmp = Some (Text (Object p)) ∧ is_Some (w_dirs w1 !! sid) | Err e => is_oserror e = true end) as (Hn1 & Ht1 & Hr1).
  { assert (∀ s f, ¬ (s = sid ∧ f = tmp) → file_at w1 s f = file_at w s f) as Hs by (intros; by eapply perform_files).
    pose proof (perform_host L (Write sid tmp p) w w1 r ltac:(done) Hp) as Hq. split; [split; [done| |]|split].
    - simpl in Hp. by repeat case_match; simplify_eq.
    - intros s f Hne. apply Hs. naive_solver.
    - intros i. simpl in Hp. repeat case_match; simplify_eq; try done; unfold image_at; rewrite file_at_put, decide_True; try done; simpl; eauto.
    - simpl in Hp. repeat case_match; simplify_eq; try done; simpl. rewrite file_at_put, decide_True by (simpl; eauto).
      split; [done|]. unfold put_file. simpl. rewrite lookup_alter_eq. by rewrite H. }
  assert (file_at w1 sid journal = file_at w sid journal) as Hj1 by (eapply perform_files; [exact Hp|]; by intros [_ ?]).
  split; [by apply H1|]. destruct r as [[]|e]; [|done]. destruct Hr1 as [Hr1 [fo Hfo]].
  apply (wpc_act (perform L) _ (Replace sid tmp journal)). intros w2 r Hp2.
  simpl in Hp2. rewrite Hr1 in Hp2. unfold host_op in Hp2. destruct (l_os L (w_tick w1)) as [m|]; simplify_eq.
  - assert (near sid w (ticked w1)) as Hn1' by (destruct Hn1; by split).
    split; [by apply H1; [exact Hn1'|exact Hj1|exact Ht1]|done].
  - assert (∀ s f, file_at (put_file sid journal (Text (Object p)) (drop_file sid tmp (ticked w1))) s f =
      if decide (s = sid ∧ f = journal) then Some (Text (Object p)) else if decide (s = sid ∧ f = tmp) then None else file_at w1 s f) as Hs.
    { intros s f. rewrite file_at_put, file_at_drop. destruct (decide (s = sid ∧ f = journal)) as [[-> ->]|Hne].
      - rewrite decide_True; [done|]. split_and!; try done. unfold drop_file. simpl. rewrite lookup_alter_eq, Hfo. by eexists.
      - rewrite decide_False by naive_solver. done. }
    set (w2 := put_file _ _ _ _) in *.
    assert (near sid w w2) as Hn2.
    { eapply near_trans; [done|]. split; try done. intros s f Hne. rewrite Hs, !decide_False by naive_solver. done. }
    rewrite (Hs sid journal), decide_True in * by done.
    assert (file_at w2 sid tmp = None) as Ht2 by (rewrite Hs, decide_False, decide_True by naive_solver; done).
    assert (file_at w2 sid journal = Some (Text (Object p))) as Hj2 by (by rewrite Hs, decide_True).
    split; [by apply H2|]. done.
Qed.
Lemma inv_same_journal sid w w' :
  inv w → near sid w w' → file_at w' sid journal = file_at w sid journal →
  (∀ i, image_at w' sid tmp = Some i → image_at w sid tmp = Some i) → inv w'.
Proof.
  intros Hw [Hq Hi Hs] Hj Ht. apply (inv_less _ _ w); try done.
  - intros s f x Hne. destruct (decide (s = sid ∧ f = journal)) as [[-> ->]|Hnot]; [by rewrite Hj|].
    rewrite Hs; [done|]. destruct (decide (s = sid)); [right|left]; naive_solver.
  - intros s i H. destruct (decide (s = sid)) as [->|Hne]; [by eapply (li_inode _ _ _ Hw), Ht|].
    rewrite (image_at_eq w) in H by (apply Hs; by left). by eapply (li_inode _ _ _ Hw).
Qed.
Lemma inv_written sid p w :
  inv w → fits (l_dir L) w sid p →
  wpc (perform L) inv (_write_live_backup_manifest sid p)
    (λ _ w', inv w' ∧ near sid w w' ∧ file_at w' sid journal = Some (Text (Object p)))
    (λ er w', inv w' ∧ is_oserror er = true ∧ near sid w w' ∧ file_at w' sid journal = file_at w sid journal) w.
Proof.
  intros Hw Hf.
  assert (∀ w', near sid w w' → file_at w' sid journal = Some (Text (Object p)) → file_at w' sid tmp = None → inv w') as Hnew.
  { intros w' Hn Hj Ht. eapply inv_near; try done. intros i. unfold image_at. by rewrite Ht. }
  eapply wpc_mono; [apply (write_spec sid p w inv); [intros w'; by apply inv_same_journal|exact Hnew]|done| |].
  - intros [] w' (Hn & Hj & Ht). auto.
  - intros er w' (He & Hn & Hj & Ht). split_and!; try done. by eapply inv_same_journal.
Qed.
Lemma perform_replace sid a b w w' r :
  a ≠ b → perform L (Replace sid a b) w = (w', r) →
  w_qemu w' = w_qemu w ∧ w_inode w' = w_inode w ∧
  match r with
  | Ok _ => is_Some (file_at w sid a) ∧ ∀ s f, file_at w' s f = if decide (s = sid ∧ f = b) then file_at w sid a
                     else if decide (s = sid ∧ f = a) then None else file_at w s f
  | Err er => is_oserror er = true ∧ ∀ s f, file_at w' s f = file_at w s f
  end.
Proof.
  intros Hab Hp. pose proof (perform_host L (Replace sid a b) w w' r ltac:(done) Hp) as Hq. split; [done|].
  simpl in Hp. unfold host_op in Hp. destruct (file_at w sid a) as [x|] eqn:Hx; [|by simplify_eq].
  destruct (l_os L (w_tick w)); simplify_eq; [done|]. split; [done|]. split; [by eauto|]. intros s f. rewrite file_at_put, file_at_drop.
  destruct (decide (s = sid ∧ f = b)) as [[-> ->]|Hne]; [|rewrite decide_False by naive_solver; done].
  rewrite decide_True; [done|]. split_and!; try done. apply file_at_folder in Hx as [fo Hfo].
  unfold drop_file. simpl. rewrite lookup_alter_eq, Hfo. by eexists.
Qed.
(** Publishing an image that holds what it is to hold. *)
Lemma inv_publish sid f w w' r :
  inv w → f ∈ artifacts → (∀ i, image_at w sid (partial_name f) = Some i → good (view w) f i) →
  perform L (Replace sid (partial_name f) f) w = (w', r) → inv w'.
Proof.
  intros Hw Hf Hi Hp. pose proof (partial_in f Hf) as Hpa.
  destruct (perform_replace sid (partial_name f) f w w' r) as (Hq & Hn & Hr); [by apply not_eq_sym, artifact_not_partial|done|].
  assert (f ≠ journal ∧ f ≠ tmp ∧ partial_name f ≠ journal) as (H1 & H2 & H3)
    by (split_and!; apply not_bookkeeping; auto).
  destruct r as [[]|er]; destruct Hr as [Hr Hs].
  2:{ apply (inv_less _ _ w); try done; [intros s g x _; by rewrite Hs|]. intros s i. rewrite (image_at_eq w) by done. apply (li_inode _ _ _ Hw). }
  assert (∀ s g, image_at w' s g = if decide (s = sid ∧ g = f) then image_at w sid (partial_name f)
                  else if decide (s = sid ∧ g = partial_name f) then None else image_at w s g) as Hm.
  { intros s g. unfold image_at. rewrite Hs. by repeat case_decide. }
  destruct Hw as [Hok Hfi He Hin]. split; unfold view; rewrite ?Hq; try done.
  - intros s g i Hg. rewrite Hm. case_decide as Hd; [destruct Hd as [_ ->]; by apply Hi|]. case_decide; [done|]. by apply Hfi.
  - intros s p e (Hj & Ha). rewrite Hs, !decide_False in Hj by naive_solver. destruct (He s p e (conj Hj Ha)) as [E1 E2].
    assert (partial_name (re_artifact e) ∈ partials) as Hpe by (apply partial_in; by eapply read_inv, Ha).
    unfold entry_ok, view. rewrite Hq, Hm.
    rewrite (decide_False (P := s = sid ∧ partial_name (re_artifact e) = f)) by (intros [_ Heq]; by eapply artifact_not_partial).
    case_decide; [|done]. split; [done|]. by intros ? ? ? ? ? ?.
  - intros s g i. rewrite Hn, Hm. repeat case_decide; [by apply Hin|done|by apply Hin].
Qed.
End keeps.

(** * Recovery publishes only complete images

    [reconcile_live_backups] keeps the invariant of [LiveInv] at every point
    where it can be killed. *)
(** The artifact of a journal does not depend on its phase. *)
Lemma read_artifact dir sid p e :
  read_journal dir sid p = Ok e →
  re_artifact e = if is_text (jget p "backup_mode") "incremental" then "increment.qcow2" else "disk.qcow2".
Proof.
  unfold read_journal, rthen at 1. destruct (rand _ _) as [bm|]; [|done]. cbv zeta. unfold rthen at 1.
  destruct (rthen _ _) as [valid|]; [|done]. by intros [= <-].
Qed.
Lemma jget_phase s p k : k ≠ "phase" → jget (with_phase s p) k = jget p k.
Proof. intros Hk. unfold jget, with_phase. by rewrite lookup_insert_ne. Qed.
Lemma phase_with_phase s p : phase_of (with_phase s p) = Some s.
Proof. unfold phase_of, with_phase. by rewrite lookup_insert_eq. Qed.
Lemma read_artifact_phase dir sid s p e e' :
  read_journal dir sid p = Ok e → read_journal dir sid (with_phase s p) = Ok e' → re_artifact e' = re_artifact e.
Proof. intros ->%read_artifact ->%read_artifact. by rewrite jget_phase. Qed.
Lemma settled_not_in_progress ph : ph ∈ [Some "node-attached"; Some "job-running"] → settled ph = false.
Proof. intros [->|[->|H%elem_of_nil]%elem_of_cons]%elem_of_cons; done. Qed.
(** The last job of a name, if there is one. *)
Lemma job_row_spec id rows :
  match job_row id rows with
  | Some r => r ∈ rows ∧ job_id r = id
  | None => ∀ r, r ∈ rows → job_id r ≠ id
  end.
Proof.
  unfold job_row. destruct (list_find _ (reverse rows)) as [[k r]|] eqn:Hf; simpl.
  - apply list_find_Some in Hf as (Hr & Hid & _). split; [|done]. apply elem_of_reverse. by eapply list_elem_of_lookup_2.
  - intros r Hr. rewrite list_find_None, Forall_forall in Hf. apply Hf. by apply elem_of_reverse.
Qed.

Section recovery.
Context (L : lenv) (vm locked : string) (persisted : list string) (socket : option path) {Q : Type} `{!Qemu Q, !QemuLaws Q}.
Implicit Types (w : world Q) (p : payload) (e : read_entry).
Abbreviation inv := (live_inv (l_dir L) vm).

Hint Extern 1 (stays _ _ (act _)) =>
  first [apply inv_look; reflexivity | apply inv_rmdir | apply inv_unlink | apply inv_command; simpl; auto; fail] : core.

Lemma keeps_steady : steady L inv.
Proof. split; [apply inv_look|apply inv_command]. Qed.
Lemma keeps_cleanup job node root artifact : stays L inv (_cleanup_live_backup job node root artifact).
Proof. apply steady_cleanup; [apply keeps_steady|]. intros. apply inv_unlink. Qed.
Lemma keeps_quarantine sid : stays L inv (quarantine locked sid).
Proof. unfold quarantine. stay. auto. Qed.
Lemma keeps_discard sid e p job node keep : stays L inv (discard_entry sid e p job node keep).
Proof. pose proof (keeps_cleanup job node). unfold discard_entry, remove_dirty_bitmap. stay; auto. Qed.

(** The image a journal would publish is complete. *)
Definition whole_partial (sid f : string) w : Prop :=
  inv w ∧ ∀ i, image_at w sid (partial_name f) = Some i → good (view w) f i.

Section publish.
Context (sid : string) (p : payload) (e : read_entry) (Hread : read_journal (l_dir L) sid p = Ok e).
Abbreviation f := (re_artifact e).
Abbreviation H := (whole_partial sid (re_artifact e)).

Lemma whole_look a : looks a = true → stays L H (act a).
Proof. intros Ha. apply stays_act. intros w w' r [Hw Hi] ->%perform_look; [|done]. split; [by apply inv_ticked|done]. Qed.
Lemma whole_command c : recovery_command c → stays L H (act (Qmp c)).
Proof.
  intros Hc. apply stays_act. intros w w' r [Hw Hi] Hp.
  destruct (perform_recovery L c w w' r (li_ok _ _ _ Hw) Hc Hp) as (? & Hd & ? & Hwh & _ & _ & ?).
  split; [by eapply inv_qemu|]. intros i. rewrite (image_at_eq w); [intros ?%Hi; by eapply good_mono|]. unfold file_at. by rewrite Hd.
Qed.
Lemma whole_near w w' : near sid w w' → inv w' → H w → H w'.
Proof using Hread.
  intros [Hq _ Hs] Hw' [_ Hi]. split; [done|]. intros i. unfold view. rewrite Hq, (image_at_eq w); [apply Hi|].
  apply Hs. right. apply not_bookkeeping. right. apply partial_in. by eapply read_inv.
Qed.
Lemma whole_write s q :
  settled (Some s) = true → (∀ e', read_journal (l_dir L) sid (with_phase s q) = Ok e' → re_artifact e' = f) →
  stays L H (_write_live_backup_manifest sid (with_phase s q)).
Proof using Hread.
  intros Hs Hq w Hw. pose proof Hw as [Hinv Hi].
  assert (fits (l_dir L) w sid (with_phase s q)) as Hfit.
  { intros e' Hr _ _. specialize (Hq e' Hr). split; rewrite Hq; [by intros _|].
    unfold in_progress. rewrite phase_with_phase. intros Hin%settled_not_in_progress. congruence. }
  assert (∀ w', near sid w w' → file_at w' sid journal = file_at w sid journal →
            (∀ i, image_at w' sid "live-backup.tmp" = Some i → image_at w sid "live-backup.tmp" = Some i) → H w') as Hold.
  { intros w' Hn Hj Ht. apply (whole_near w); [done|by eapply inv_same_journal|done]. }
  assert (∀ w', near sid w w' → file_at w' sid journal = Some (Text (Object (with_phase s q))) →
            file_at w' sid "live-backup.tmp" = None → H w') as Hnew.
  { intros w' Hn Hj Ht. apply (whole_near w); [done| |done]. eapply inv_near; try done. intros i. unfold image_at. by rewrite Ht. }
  eapply wpc_mono; [by apply (write_spec L sid (with_phase s q) w H)|done| |].
  - intros [] w' (Hn & Hj & Ht). by apply Hnew.
  - intros er w' (_ & Hn & Hj & Ht). by apply Hold.
Qed.
Lemma whole_replace : stays L H (act (Replace sid (partial_name f) f)).
Proof using Hread.
  apply stays_act. intros w w' r [Hw Hi] Hp. assert (f ∈ artifacts) as Hf by (by eapply read_inv).
  pose proof (inv_publish L vm sid f w w' r Hw Hf Hi Hp) as Hw'. split; [done|]. intros i.
  destruct (perform_replace L sid (partial_name f) f w w' r) as (Hq & _ & Hr);
    [by apply not_eq_sym, artifact_not_partial, partial_in|done|]. unfold view. rewrite Hq.
  destruct r as [[]|er]; destruct Hr as [_ Hs].
  - unfold image_at. rewrite Hs, decide_False, decide_True; [done|done|]. intros [_ Heq].
    by eapply artifact_not_partial; [exact Hf|by apply partial_in|].
  - rewrite (image_at_eq w) by done. apply Hi.
Qed.
Hint Extern 1 (stays _ _ (act _)) =>
  first [apply whole_look; reflexivity | apply whole_replace | apply whole_command; simpl; auto; fail] : core.

(** From here on the node is detached and the image published. *)
Lemma whole_recover node s :
  own_node node → stays L H (recover_entry (l_dir L) vm locked sid e (with_phase s p) node)
                 ∧ stays L H (recover_entry (l_dir L) vm locked sid e p node).
Proof using Hread.
  intros Hn. assert (stays L H _node_names) as Hna by (apply steady_names; split; [apply whole_look|apply whole_command]).
  assert (∀ q, (∀ k, k ≠ "phase" → jget q k = jget p k) → stays L H (recover_entry (l_dir L) vm locked sid e q node)) as Hq.
  { intros q Hq. assert (∀ t, settled (Some t) = true → ∀ t', stays L H (_write_live_backup_manifest sid (with_phase t (with_phase t' q)))
                                      ∧ stays L H (_write_live_backup_manifest sid (with_phase t q))) as Hwr.
    { intros t Ht t'. split; apply whole_write; try done; intros e' ->%read_artifact;
        by rewrite (read_artifact _ _ _ _ Hread), !jget_phase, Hq. }
    unfold recover_entry, _publish_recovered_bitmap_artifact, run_qemu_img, blockdev_del.
    destruct (Hwr "node-detached" eq_refl "") as [_ W1]. destruct (Hwr "artifact-published" eq_refl "node-detached") as [W2 _].
    stay; auto. }
  split; apply Hq; intros k Hk; [by apply jget_phase|done].
Qed.
End publish.

Lemma whole_inv sid f w : whole_partial sid f w → inv w.
Proof. by intros []. Qed.
(** A program that keeps an image complete, started where it is. *)
Lemma from_whole sid f {A} (m : prog A) w :
  stays L (whole_partial sid f) m → whole_partial sid f w → wpc (perform L) inv m (λ _, inv) (λ _, inv) w.
Proof. intros Hm Hw. eapply stays_wpc; [done|done|intros ?; apply whole_inv|intros ? ?; apply whole_inv..]. Qed.

Lemma keeps_bitmap_entry sid e p op w :
  inv w → active (l_dir L) vm w sid p e → re_operation e = Some op →
  wpc (perform L) inv (recover_bitmap_entry (l_dir L) vm locked sid e p (job_of op) (node_of op)) (λ _, inv) (λ _, inv) w.
Proof.
  intros Hw Hac Hop. pose proof Hac as (_ & _ & Hread & _ & _). destruct (read_inv _ _ _ _ Hread) as (_ & Hid).
  destruct (Hid op Hop) as (Hv & _ & _). assert (own_job (job_of op) ∧ own_node (node_of op)) as [Hj Hn] by (split; by exists op).
  unfold recover_bitmap_entry. apply wpc_bind, (wpc_act (perform L) _ (Qmp QueryJobs)). intros w1 r Hp.
  pose proof (inv_command L vm QueryJobs I w Hw _ _ Hp) as [Hw1 _]. split; [done|]. destruct r as [rows|er]; [|exact Hw1].
  destruct (perform_qmp L _ _ _ _ (li_ok _ _ _ Hw) Hp) as (Hd & _ & _ & v & _ & _ & Hvw & Hex & Hwell).
  assert (∀ s f, file_at w1 s f = file_at w s f) as Hs by (intros; unfold file_at; by rewrite Hd).
  assert (active (l_dir L) vm w1 sid p e) as Hac1 by (destruct Hac; split; [by rewrite Hs|done]).
  destruct (li_entry _ _ _ Hw1 sid p e Hac1) as [Hset Hprog].
  assert (∀ x, settled (phase_of p) = x → bool_decide (phase_of p ∈ [Some "node-attached"; Some "job-running"]) = false →
    wpc (perform L) inv (if settled (phase_of p) then recover_entry (l_dir L) vm locked sid e p (node_of op)
                         else discard_entry sid e p (job_of op) (node_of op) false) (λ _, inv) (λ _, inv) w1) as Hrest.
  { intros [] Hx _; rewrite Hx; [|by apply keeps_discard]. eapply from_whole; [by apply (whole_recover sid p e Hread _ "")|]. split; auto. }
  destruct (bool_decide _) eqn:Hph; [clear Hrest|by eapply Hrest]. apply bool_decide_eq_true in Hph.
  pose proof (job_row_spec (job_of op) rows) as Hrow. destruct (job_row (job_of op) rows) as [r|].
  - destruct (concluded_well r) eqn:Hc; [|by apply keeps_discard]. destruct Hrow as [Hin Hidr].
    assert (is_Some (qv_jobs v !! job_of op)) as [b Hb] by (apply Hex; by exists r).
    assert (jb_state b = Succeeded) as Hsu by (eapply Hwell; [done|by rewrite Hidr|done]).
    assert (whole_partial sid (re_artifact e) w1) as Hwh.
    { split; [done|]. intros i Hi. rewrite <- Hvw in Hb. destruct (Hprog Hph op b i Hop Hb Hi) as (k & Hk & Hpk).
      exists k. split; [|done]. by eapply (law_view_ok (w_qemu w1)); [apply (li_ok _ _ _ Hw1)|exact Hb|exact Hk|]. }
    eapply (from_whole sid (re_artifact e)); [|done]. destruct (whole_recover sid p e Hread (node_of op) "job-concluded" Hn) as [Hre _].
    assert (stays L (whole_partial sid (re_artifact e)) (_write_live_backup_manifest sid (with_phase "job-concluded" p))) as Hwr.
    { eapply whole_write; [done|done|]. intros e' He'. by eapply read_artifact_phase. }
    unfold dismiss_job. stay. apply whole_command. done.
  - case_bool_decide; [exact Hw1|by apply keeps_discard].
Qed.
Lemma keeps_payload sid p w :
  inv w → file_at w sid journal = Some (Text (Object p)) →
  wpc (perform L) inv (reconcile_payload (l_dir L) vm locked persisted sid p) (λ _, inv) (λ _, inv) w.
Proof.
  intros Hw Hp. unfold reconcile_payload. destruct (is_text (jget p "vm_id") vm) eqn:Hvm; [|exact Hw]. simpl.
  destruct (read_journal (l_dir L) sid p) as [e|err] eqn:He; [|exact Hw]. rewrite bind_lift.
  destruct (re_valid e) eqn:Hv; [|by apply keeps_quarantine].
  destruct (re_operation e) as [op|] eqn:Hop; [|by apply keeps_quarantine].
  destruct (read_inv _ sid p e He) as (_ & Hid). destruct (Hid op Hop) as (Hvo & _). rewrite (identifiers_valid op Hvo), bind_lift. simpl.
  destruct (re_bitmap e) eqn:Hb; simpl; [|by apply keeps_discard]. case_bool_decide; [by apply keeps_discard|].
  by apply keeps_bitmap_entry.
Qed.
Lemma keeps_folder sid : stays L inv (reconcile_folder (l_dir L) vm locked persisted sid).
Proof.
  intros w Hw. unfold reconcile_folder. apply wpc_bind. eapply stays_wpc; [by apply (inv_look L vm (Resolves sid))|done|done| |done].
  clear w Hw. intros inside w Hw. destruct inside; [|exact Hw]. simpl.
  apply wpc_bind, (wpc_act (perform L) _ (Find sid journal)). intros w2 r Hp.
  pose proof (inv_look L vm (Find sid journal) eq_refl _ Hw _ _ Hp) as [Hw2 _].
  split; [done|]. simpl in Hp. simplify_eq. destruct (file_at w sid journal) as [[| [| |p]|]|] eqn:Hj; try by apply keeps_quarantine.
  by apply keeps_payload.
Qed.
Lemma keeps_reconcile : stays L inv (reconcile_live_backups (l_dir L) vm locked persisted socket).
Proof.
  pose proof (steady_jobs L _ keeps_steady). pose proof (steady_names L _ keeps_steady).
  assert (∀ j, stays L inv (sweep_job j)) as Hj by (intros j; unfold sweep_job; stay; apply keeps_cleanup).
  assert (∀ n, stays L inv (sweep_node n)) as Hn.
  { intros n. unfold sweep_node. destruct (_live_backup_operation_id _ n) as [op|] eqn:Hop; [|stay].
    apply operation_id_spec in Hop as (Hv & _ & _). rewrite (identifiers_valid op Hv), bind_lift.
    unfold blockdev_del. stay. apply inv_command. by exists op. }
  unfold reconcile_live_backups, _reconcile_live_backups, _client, connect.
  stay; auto; apply stays_for; intros; [apply keeps_folder|apply Hj|apply Hn].
Qed.
End recovery.
