(* ===== verification/LiveCapture.v ===== *)
(** * A live capture accounts for what it attaches

    At every point where [_create_live_disk_snapshot] can be killed, a node it
    attached to QEMU is named by the journal in its folder and the image under
    it is still there; and the invariant of [LiveInv] holds. *)
From S2P Require Import Prelude PyStr Types Snapshots CrashProg LiveWorld QmpClient LiveBackup LiveReconcile.
From S2P Require Import LiveFrames LiveConfined LiveInv.
From stdpp Require Import options.

Definition pending (er : error) : bool := d_cleanup_pending (details_of er) || d_capture_pending (details_of er).

Section capture.
Context (L : lenv) (q : live_request) {Q : Type} `{!Qemu Q, !QemuLaws Q} (w0 : world Q).
Implicit Types (w : world Q) (p : payload).
Abbreviation inv := (live_inv (l_dir L) (rq_vm q)).
Abbreviation sid := (rq_snapshot q).
Definition artifact : string := artifact_of (fst <$> rq_bitmap q).
Abbreviation partial := (partial_name artifact).

Lemma artifact_in : artifact ∈ artifacts.
Proof. unfold artifact, artifact_of, artifacts. repeat case_match; set_solver. Qed.

(** What the capture is to put in its image, and its mode as the journal has it. *)
Definition wanted : content :=
  match rq_bitmap q with
  | Some (Incremental, name) => Changes QEMU_ROOT_NODE_NAME name
  | _ => Whole QEMU_ROOT_NODE_NAME
  end.
Lemma wanted_proper : proper artifact wanted.
Proof. unfold proper, artifact, artifact_of, wanted. destruct (rq_bitmap q) as [[[] name]|]; simpl; eauto. Qed.
Definition mode_json : json := match rq_bitmap q with Some (mode, _) => JString (mode_name mode) | None => JNull end.
Lemma mode_artifact dir s p e : read_journal dir s p = Ok e → jget p "backup_mode" = mode_json → re_artifact e = artifact.
Proof.
  intros ->%read_artifact ->. unfold artifact, artifact_of, mode_json. by destruct (rq_bitmap q) as [[[] name]|].
Qed.

(** No node is attached that was not before. *)
Definition nonew w : Prop := ∀ m, qv_nodes (view w0) !! m = None → qv_nodes (view w) !! m = None.
Definition accounted w : Prop := ∀ m j, qv_nodes (view w0) !! m = None → qv_nodes (view w) !! m = Some j →
  image_at w sid partial = Some j ∧
  ∃ p, file_at w sid journal = Some (Text (Object p)) ∧ p !! "target_node" = Some (JString m).
Definition at_any_time w : Prop := inv w ∧ accounted w.
Definition clean w : Prop := inv w ∧ nonew w.
Definition refused (er : error) w : Prop :=
  at_any_time w ∧ (pending er = false → is_oserror er = false → nonew w).

Lemma clean_any w : clean w → at_any_time w.
Proof. intros [Hw Hn]. split; [done|]. intros m j Hm Hj. rewrite Hn in Hj; done. Qed.
Lemma clean_refused er w : clean w → refused er w.
Proof. intros Hw. split; [by apply clean_any|]. by destruct Hw. Qed.

(** ** Nothing attached *)
Lemma clean_look a : looks a = true → stays L clean (act a).
Proof. intros Ha. apply stays_act. intros w w' r [Hw Hn] ->%perform_look; [|done]. split; [by apply inv_ticked|done]. Qed.
Lemma clean_command c : recovery_command c → stays L clean (act (Qmp c)).
Proof.
  intros Hc. apply stays_act. intros w w' r [Hw Hn] Hp.
  destruct (perform_recovery L c w w' r (li_ok _ _ _ Hw) Hc Hp) as (? & ? & ? & ? & Hno & _ & ?).
  split; [by eapply inv_qemu|]. intros m Hm. apply Hno. by apply Hn.
Qed.
Lemma clean_unlink s f : stays L clean (act (Unlink s f)).
Proof.
  apply stays_act. intros w w' r [Hw Hn] Hp. destruct (perform_unlink L _ _ _ _ _ Hp) as (Hq & _).
  split; [|unfold nonew, view; by rewrite Hq]. by apply (inv_unlink L (rq_vm q) s f w Hw _ _ Hp).
Qed.
Hint Extern 1 (stays _ _ (act _)) =>
  first [apply clean_look; reflexivity | apply clean_unlink | apply clean_command; simpl; auto; fail] : core.
Lemma clean_cleanup job node root f : stays L clean (_cleanup_live_backup job node root f).
Proof. apply steady_cleanup; [split; [apply clean_look|apply clean_command]|]. intros. apply clean_unlink. Qed.
(** Discarding a capture never returns; it leaves nothing attached or says that
    the cleanup is pending. *)
Lemma discard_refused {A} w job node er :
  wpc (perform L) at_any_time (_cleanup_live_backup job node (Some sid) artifact)
    (λ safe w', if safe then clean w' else at_any_time w') (λ er, refused er) w →
  wpc (perform L) at_any_time (discard q job node er : prog A) (λ _ _, False) (λ er, refused er) w.
Proof.
  intros Hcl. unfold discard. fold artifact. apply wpc_bind. eapply wpc_mono; [exact Hcl|done| |done].
  intros safe w1 Hw1. apply wpc_bind. destruct safe.
  - eapply (stays_wpc L clean); [|done|apply clean_any| |apply clean_refused].
    { unfold remove_dirty_bitmap. stay. by apply clean_command. }
    intros _ w2 Hw2. apply wpc_bind.
    eapply (stays_wpc L clean); [apply stays_suppress, clean_unlink|done|apply clean_any| |apply clean_refused].
    intros _ w3 Hw3. apply wpc_raise. by apply clean_refused.
  - assert (∀ m, m = pret tt → wpc (perform L) at_any_time m
      (λ _, wpc (perform L) at_any_time (praise (_live_backup_error q ("Live snapshot cleanup for " +:+ computer (rq_vm q) +:+ " is still in progress") true) : prog A)
              (λ _ _, False) refused) refused w1) as Hend.
    { intros m ->. apply wpc_ret, wpc_raise. by split. }
    apply Hend. destruct (rq_bitmap q) as [[[] ?]|]; done.
Qed.
Lemma clean_discard {A} w job node er :
  clean w → wpc (perform L) at_any_time (discard q job node er : prog A) (λ _ _, False) (λ er, refused er) w.
Proof.
  intros Hw. apply discard_refused.
  eapply (stays_wpc L clean); [apply clean_cleanup|done|apply clean_any| |intros; by apply clean_refused].
  intros [] w' Hw'; [done|by apply clean_any].
Qed.
Lemma clean_write p w :
  clean w → fits (l_dir L) w sid p →
  wpc (perform L) at_any_time (_write_live_backup_manifest sid p)
    (λ _ w', clean w' ∧ near sid w w' ∧ file_at w' sid journal = Some (Text (Object p)))
    (λ er w', clean w' ∧ is_oserror er = true ∧ near sid w w') w.
Proof.
  intros [Hw Hn] Hf.
  assert (∀ w', near sid w w' → inv w' → clean w') as Hc.
  { intros w' Hne Hi. split; [done|]. unfold nonew, view. by rewrite (nr_qemu _ _ _ Hne). }
  assert (∀ w', near sid w w' → file_at w' sid journal = Some (Text (Object p)) → file_at w' sid "live-backup.tmp" = None → clean w') as Hnew.
  { intros w' Hne Hj Ht. apply Hc; [done|]. eapply inv_near; try done. intros i. unfold image_at. by rewrite Ht. }
  eapply wpc_mono; [apply (write_spec L sid p w clean); [|exact Hnew]|intros; by apply clean_any| |].
  - intros w' Hne Hj Ht. apply Hc; [done|]. by eapply inv_same_journal.
  - intros [] w' (Hne & Hj & Ht). auto.
  - intros er w' (He & Hne & Hj & Ht). split_and!; try done. apply Hc; [done|]. by eapply inv_same_journal.
Qed.

(** ** While the capture runs *)
Section running.
Context (job node : string) (i : nat) (Hjob : own_job job) (Hnode : own_node node).
Definition named p : Prop :=
  (p !! "job_id" = Some (JString job) ∧ p !! "target_node" = Some (JString node)) ∧ jget p "backup_mode" = mode_json.
(** Image [i] is the partial file of the folder and nothing else; the job, if
    there is one, writes it; a new node is this capture's. *)
Record held w : Prop := {
  h_inv : inv w;
  h_file : image_at w sid partial = Some i;
  h_solo : ∀ s f, image_at w s f = Some i → s = sid ∧ f = partial;
  h_part : ∀ f j, f ∈ partials → image_at w sid f = Some j → j = i;
  h_job : ∀ b, qv_jobs (view w) !! job = Some b → jb_backup b = Some (node, (i, wanted));
  h_node : ∀ m j, qv_nodes (view w0) !! m = None → qv_nodes (view w) !! m = Some j →
    m = node ∧ j = i ∧ ∃ p, file_at w sid journal = Some (Text (Object p)) ∧ p !! "target_node" = Some (JString node);
  h_only : ∀ s p e op, active (l_dir L) (rq_vm q) w s p e → re_operation e = Some op → job_of op = job → s = sid }.

Lemma held_any w : held w → at_any_time w.
Proof.
  intros []. split; [done|]. intros m j Hm Hj. destruct (h_node0 m j Hm Hj) as (-> & -> & p & Hp & Ht). split; [done|]. by exists p.
Qed.
(** The same files, and a QEMU in which nothing of this is new. *)
Lemma held_qemu w w' :
  held w → inv w' → w_dirs w' = w_dirs w →
  (∀ n j, qv_nodes (view w') !! n = Some j → qv_nodes (view w) !! n = Some j ∨ (n = node ∧ j = i ∧ ∃ p, file_at w sid journal = Some (Text (Object p)) ∧ p !! "target_node" = Some (JString node))) →
  (∀ b', qv_jobs (view w') !! job = Some b' → jb_backup b' = Some (node, (i, wanted))) → held w'.
Proof.
  intros [Hw Hf Hso Hpa Hj Hn Ho] Hw' Hd Hno Hjo.
  assert (∀ s f, file_at w' s f = file_at w s f) as Hs by (intros; unfold file_at; by rewrite Hd).
  split; try done; try (intros; rewrite (image_at_eq w) in *; by eauto).
  - intros m j Hm Hmj. rewrite Hs. destruct (Hno m j Hmj) as [H|H]; [by apply Hn|done].
  - intros s p e op (Ha & Hb). rewrite Hs in Ha. by apply (Ho s p e op).
Qed.
Lemma held_look a : looks a = true → stays L held (act a).
Proof.
  intros Ha. apply stays_act. intros w w' r Hw ->%perform_look; [|done]. apply (held_qemu w); try done; [apply inv_ticked, Hw|by left|apply Hw].
Qed.
Lemma held_command c : recovery_command c → stays L held (act (Qmp c)).
Proof.
  intros Hc. apply stays_act. intros w w' r Hw Hp.
  destruct (perform_recovery L c w w' r (li_ok _ _ _ (h_inv _ Hw)) Hc Hp) as (? & ? & ? & ? & _ & Hno & Hjo).
  apply (held_qemu w); try done; [by eapply inv_qemu; [apply Hw|..]|intros; left; by apply Hno|].
  intros b' (b & Hb & ->)%Hjo. by eapply h_job.
Qed.
Lemma held_steady : steady L held.
Proof. split; [apply held_look|apply held_command]. Qed.

(** Journals of this capture. *)
Lemma held_fits w p :
  held w → named p → (settled (phase_of p) = true → (i, wanted) ∈ qv_holds (view w)) → fits (l_dir L) w sid p.
Proof.
  intros Hw [[Hpj Hpn] Hmode] Hs e Hr _ _. destruct (read_inv _ _ _ _ Hr) as (Ha & Hid).
  pose proof wanted_proper as Hpr. rewrite <- (mode_artifact _ _ _ _ Hr Hmode) in Hpr.
  assert (∀ j, image_at w sid (partial_name (re_artifact e)) = Some j → j = i) as Hj by (intros j; apply (h_part _ Hw); by apply partial_in).
  split; [intros Hse j ->%Hj; exists wanted; by split; [apply Hs|]|]. intros _ op b j Hop Hb ->%Hj. exists wanted. split; [|done]. destruct (Hid op Hop) as (_ & H1 & H2).
  unfold jget in H1, H2. rewrite Hpj in H1. rewrite Hpn in H2. simpl in H1, H2.
  injection H1 as H1. injection H2 as H2. rewrite <- H1 in Hb. rewrite <- H2. by eapply h_job.
Qed.
Lemma held_near w w' :
  held w → near sid w w' → inv w' →
  file_at w' sid journal = file_at w sid journal ∨ (∃ p, named p ∧ file_at w' sid journal = Some (Text (Object p))) →
  (∀ j, image_at w' sid "live-backup.tmp" = Some j → image_at w sid "live-backup.tmp" = Some j) →
  held w'.
Proof.
  intros [Hw Hf Hso Hpa Hj Hn Ho] [Hq Hi Hs] Hw' Hjn Htmp.
  assert (∀ f, f ∈ partials → image_at w' sid f = image_at w sid f) as Hm by (intros f Hin; apply image_at_eq, Hs; right; apply not_bookkeeping; auto).
  split; unfold view; rewrite ?Hq; try done.
  - rewrite Hm; [done|]. apply partial_in, artifact_in.
  - intros s f Hi'. destruct (decide (s = sid)) as [->|Hne]; [|rewrite (image_at_eq w) in Hi' by (apply Hs; by left); by apply Hso].
    destruct (decide (f = journal)) as [->|Hnj].
    { destruct Hjn as [Hjn|(p & _ & Hjn)]; [|unfold image_at in Hi'; by rewrite Hjn in Hi']. rewrite (image_at_eq w) in Hi' by done. by apply Hso. }
    destruct (decide (f = "live-backup.tmp")) as [->|Hnt]; [by apply Hso, Htmp|].
    rewrite (image_at_eq w) in Hi' by (apply Hs; by right). by apply Hso.
  - intros f j Hin. rewrite Hm by done. by apply Hpa.
  - intros m j Hm' Hmj. destruct (Hn m j Hm' Hmj) as (-> & -> & p & Hp & Ht). split_and!; try done.
    destruct Hjn as [->|(p' & [[_ ?] _] & ?)]; eauto.
  - intros s p e op (Ha & Hb) Hop Hjo. destruct (decide (s = sid)) as [->|Hne]; [done|]. rewrite Hs in Ha by by left. by apply (Ho s p e op).
Qed.
Lemma held_write w p :
  held w → named p → (settled (phase_of p) = true → (i, wanted) ∈ qv_holds (view w)) →
  wpc (perform L) held (_write_live_backup_manifest sid p)
    (λ _ w', held w' ∧ w_qemu w' = w_qemu w ∧ file_at w' sid journal = Some (Text (Object p)))
    (λ er w', held w' ∧ w_qemu w' = w_qemu w ∧ is_oserror er = true) w.
Proof.
  intros Hw Hp Hs. pose proof (held_fits w p Hw Hp Hs) as Hfit.
  assert (∀ w', near sid w w' → file_at w' sid journal = file_at w sid journal →
            (∀ j, image_at w' sid "live-backup.tmp" = Some j → image_at w sid "live-backup.tmp" = Some j) → held w') as Hold.
  { intros w' Hn Hj Ht. eapply held_near; eauto. eapply inv_same_journal; [apply Hw|done..]. }
  assert (∀ w', near sid w w' → file_at w' sid journal = Some (Text (Object p)) → file_at w' sid "live-backup.tmp" = None → held w') as Hnew.
  { intros w' Hn Hj Ht. assert (∀ j, image_at w' sid "live-backup.tmp" ≠ Some j) as Ht' by (intros j; unfold image_at; by rewrite Ht).
    eapply held_near; eauto; [|by intros j ?%Ht']. eapply inv_near; try done. apply Hw. }
  eapply wpc_mono; [by apply (write_spec L sid p w held)|done| |].
  - intros [] w' (Hn & Hj & Ht). split; [by apply Hnew|]. split; [apply Hn|done].
  - intros er w' (He & Hn & Hj & Ht). split; [by apply Hold|]. split; [apply Hn|done].
Qed.

(** ** When a step fails *)
Lemma held_detached w : held w → ¬ attached w node → clean w.
Proof.
  intros Hw Hn. split; [apply Hw|]. intros m Hm. destruct (qv_nodes (view w) !! m) as [j|] eqn:Hj; [|done].
  destruct (h_node _ Hw m j Hm Hj) as (-> & _). destruct Hn. by exists j.
Qed.
Lemma held_cleanup w :
  held w →
  wpc (perform L) at_any_time (_cleanup_live_backup job node (Some sid) artifact)
    (λ safe w', if safe then clean w' else at_any_time w') (λ er w', is_oserror er = true ∧ clean w') w.
Proof using Hjob Hnode.
  intros Hw. unfold _cleanup_live_backup.
  destruct (_live_backup_operation_id job node) as [op|] eqn:Hop; [|apply wpc_ret; by apply held_any].
  apply operation_id_spec in Hop as (Hv & Ej & En). rewrite (identifiers_valid op Hv), bind_lift. simpl. rewrite <- Ej, <- En.
  apply wpc_bind, wpc_bind, (wpc_act (perform L) _ (Resolves sid)). intros w1 r Hp.
  pose proof (held_look (Resolves sid) eq_refl w Hw _ _ Hp) as [Hw1 _]. clear Hw. split; [by apply held_any|]. simpl in Hp. simplify_eq.
  destruct (match w_dirs w !! sid with Some _ => _ | None => _ end); [simpl|by apply held_any].
  rewrite bool_decide_eq_true_2 by apply artifact_in. apply wpc_ret, wpc_else.
  eapply wpc_mono; [by apply (detach_detaches L held held_steady (λ w H, li_ok _ _ _ (h_inv _ H)) job node)|apply held_any| |].
  2:{ intros er w2 Hw2. by apply wpc_ret, held_any. }
  intros [] w2 [Hw2 Hn]. pose proof (held_detached w2 Hw2 Hn) as Hc. apply wpc_bind.
  eapply wpc_strong; [apply (wpc_for _ _ _ _ clean (λ er w', is_oserror er = true ∧ clean w') w2 Hc)| |by intros [] w3 _ Hw3|done].
  - intros [s f] w3 _ Hw3. apply wpc_suppress, (wpc_act (perform L) _ (Unlink s f)). intros w4 r Hp.
    pose proof (clean_unlink s f w3 Hw3 _ _ Hp) as [Hw4 _]. split; [by apply clean_any|]. destruct r as [[]|er]; [done|].
    destruct (perform_unlink L _ _ _ _ _ Hp) as (_ & _ & _ & _ & He). by destruct (is_missing er).
  - by apply clean_any.
Qed.
Lemma held_discard {A} w er :
  held w → wpc (perform L) at_any_time (discard q job node er : prog A) (λ _ _, False) (λ er, refused er) w.
Proof using Hjob Hnode.
  intros Hw. apply discard_refused. eapply wpc_mono; [by apply held_cleanup|done|done|]. intros e w' [_ H]. by apply clean_refused.
Qed.

(** ** The job *)
Definition finished w : Prop := held w ∧ (i, wanted) ∈ qv_holds (view w).
Lemma finished_steady : steady L finished.
Proof.
  split.
  - intros a Ha. apply stays_act. intros w w' r [Hw Hi] Hp. pose proof (held_look a Ha w Hw _ _ Hp) as [Hw' _]. split; [done|].
    apply perform_look in Hp as ->; done.
  - intros c Hc. apply stays_act. intros w w' r [Hw Hi] Hp. pose proof (held_command c Hc w Hw _ _ Hp) as [Hw' _]. split; [done|].
    destruct (perform_recovery L c w w' r (li_ok _ _ _ (h_inv _ Hw)) Hc Hp) as (_ & _ & _ & Hwh & _). by apply Hwh.
Qed.
Lemma finished_held w : finished w → held w.
Proof. by intros []. Qed.
Lemma finished_any w : finished w → at_any_time w.
Proof. intros []. by apply held_any. Qed.
(** A job seen to have ended well has written the image. *)
Lemma held_query w :
  held w →
  wpc (perform L) held query_jobs
    (λ rows w', held w' ∧ ∀ r, r ∈ rows → job_id r = job → concluded_well r = true → finished w') (λ _, held) w.
Proof.
  intros Hw. apply (wpc_act (perform L) _ (Qmp QueryJobs)). intros w' r Hp.
  pose proof (held_command QueryJobs Logic.I w Hw _ _ Hp) as [Hw' _]. split; [done|]. destruct r as [rows|er]; [|done]. split; [done|].
  intros r Hin Hid Hc. split; [done|]. destruct (perform_qmp L _ _ _ _ (li_ok _ _ _ (h_inv _ Hw)) Hp) as (_ & _ & Hok & v & _ & _ & Hv & Hex & Hwell).
  assert (is_Some (qv_jobs v !! job)) as [b Hb] by (apply Hex; by exists r).
  assert (jb_state b = Succeeded) as Hsu by (eapply Hwell; [done|by rewrite Hid|done]). rewrite <- Hv in Hb.
  eapply (law_view_ok (w_qemu w') Hok); [exact Hb| |done]. by eapply h_job.
Qed.
Lemma on_failure_refused {A} w m submitted er :
  held w → named m →
  wpc (perform L) at_any_time (on_failure q job node m submitted er : prog A) (λ _ _, False) (λ er, refused er) w.
Proof using Hjob Hnode.
  intros Hw Hm. unfold on_failure. destruct (rq_bitmap q) as [bm|] eqn:Hbm; [|by apply held_discard].
  assert (∀ er' w', held w' → pending er' = true → refused er' w') as Hpend.
  { intros er' w' Hw' Hp. split; [by apply held_any|]. by rewrite Hp. }
  assert (∀ s, named (with_phase s m)) as Hms.
  { intros s. destruct Hm as [[? ?] ?]. unfold named. rewrite jget_phase by done. unfold with_phase. by rewrite !lookup_insert_ne. }
  destruct (settled (phase_of m)) eqn:Hse; [apply wpc_raise; by apply Hpend|].
  apply wpc_else. eapply wpc_mono; [by apply held_query|apply held_any| |].
  2:{ intros e w1 Hw1. destruct submitted; [apply wpc_raise; by apply Hpend|by apply held_discard]. }
  intros rows w1 [Hw1 Hrow]. pose proof (job_row_spec job rows) as Hjr. destruct (job_row job rows) as [r|].
  - destruct Hjr as [Hin Hid]. destruct (concluded_well r) eqn:Hc; [|by apply held_discard]. specialize (Hrow r Hin Hid Hc).
    apply wpc_bind, wpc_suppress.
    assert (∀ w2, finished w2 → wpc (perform L) at_any_time
      (pbind (_write_live_backup_manifest sid (with_phase "job-concluded" m)) (λ _, praise (unpublished_error q)) : prog A)
      (λ _ _, False) (λ er, refused er) w2) as Hcont.
    { intros w2 [Hw2 Hi2]. apply wpc_bind.
      eapply wpc_mono; [apply (held_write w2 (with_phase "job-concluded" m)); auto|apply held_any| |].
      - intros [] w3 (Hw3 & _). apply wpc_raise. by apply Hpend.
      - intros e w3 (Hw3 & _ & He). split; [by apply held_any|]. by rewrite He. }
    eapply (stays_wpc L finished); [apply (proj2 finished_steady (JobDismiss job) Hjob)|done|apply finished_any| |]; intros; by apply Hcont.
  - destruct (submitted && negb (known_job_failure er)); [|by apply held_discard]. apply wpc_bind, wpc_suppress.
    eapply wpc_mono; [apply (held_write w1 (with_phase "job-running" m)); auto; by rewrite phase_with_phase|apply held_any| |].
    + intros [] w3 (Hw3 & _). apply wpc_raise. by apply Hpend.
    + intros e w3 (Hw3 & _ & He). rewrite He. apply wpc_raise. by apply Hpend.
Qed.
Lemma guarded_spec {A B} w m submitted (P : A → world Q → Prop) (R : B → world Q → Prop) (p : prog A) (k : A → prog B) :
  named m → wpc (perform L) at_any_time p P (λ _, held) w →
  (∀ x w', P x w' → wpc (perform L) at_any_time (k x) R (λ er, refused er) w') →
  wpc (perform L) at_any_time (guarded q job node m submitted p k) R (λ er, refused er) w.
Proof using Hjob Hnode.
  intros Hm Hp Hk. unfold guarded. apply wpc_else. eapply wpc_mono; [exact Hp|done|exact Hk|].
  intros er w' Hw'. eapply wpc_mono; [by apply on_failure_refused|done|done|done].
Qed.

(** ** The steps *)
Lemma held_add w :
  held w → (∃ p, named p ∧ file_at w sid journal = Some (Text (Object p))) →
  wpc (perform L) at_any_time (blockdev_add node sid partial)
    (λ _ w', held w' ∧ qv_nodes (view w') !! node = Some i ∧ file_at w' sid journal = file_at w sid journal) (λ _, held) w.
Proof.
  intros Hw (p & [[_ Hpn] _] & Hj). apply (wpc_act (perform L) _ (Qmp (BlockdevAdd node sid partial))). intros w' r Hp.
  destruct (perform_qmp L _ _ _ _ (li_ok _ _ _ (h_inv _ Hw)) Hp) as (Hd & Hi & Hok & v & Hg & _ & He).
  assert (view w' = v ∨ view w' = set_nodes (<[node := i]> (qv_nodes v)) v) as Hv.
  { destruct r as [[]|er]; [|destruct He as [_ [->|[[] He]]]; [by left|]]; simpl in He; rewrite (h_file _ Hw) in He;
      destruct He as (i' & [= <-] & _ & ->); by right. }
  assert (qv_jobs (view w') = qv_jobs v ∧ qv_holds (view w') = qv_holds v) as [Hjo Hwh] by (destruct Hv as [->| ->]; done).
  assert (∀ j b, qv_jobs (view w') !! j = Some b → ∃ b0, qv_jobs (view w) !! j = Some b0 ∧ jb_backup b = jb_backup b0) as Hjb.
  { intros j b. rewrite Hjo. intros Hb. pose proof (goes_on_kept _ _ j Hg) as Hk. rewrite Hb in Hk.
    destruct (qv_jobs (view w) !! j); [|done]. destruct Hk. by eauto. }
  assert (held w') as Hw'.
  { apply (held_qemu w); try done.
    - eapply inv_qemu; [apply Hw|done..| |exact Hjb]. rewrite Hwh. apply Hg.
    - intros n j. destruct Hv as [->| ->]; simpl; [rewrite (go_nodes _ _ Hg); auto|]. rewrite (go_nodes _ _ Hg).
      destruct (decide (n = node)) as [->|Hne]; [rewrite lookup_insert_eq; intros [= <-]; right; by eauto|].
      rewrite lookup_insert_ne by done. auto.
    - intros b' (b & Hb & ->)%Hjb. by eapply h_job. }
  split; [by apply held_any|]. destruct r as [[]|er]; [|done]. split; [done|]. split.
  - simpl in He. rewrite (h_file _ Hw) in He. destruct He as (i' & [= <-] & _ & ->). simpl. by rewrite lookup_insert_eq.
  - unfold file_at. by rewrite Hd.
Qed.

Lemma inv_started w w' v m b :
  held w → named m → file_at w sid journal = Some (Text (Object m)) → settled (phase_of m) = false →
  qv_nodes (view w) !! node = Some i → ba_job b = job → ba_target b = node → backup_content b = Some wanted →
  w_dirs w' = w_dirs w → w_inode w' = w_inode w → q_ok (w_qemu w') → goes_on (view w) v → started b v (view w') → inv w'.
Proof. clear Hjob Hnode.
  intros Hw [[Hmj Hmn] Hmode] Hj Hse Hn Hbj Hbt Hbc Hd Hi Hok Hg (i' & k & Hi' & Hk & Hnone & Hv).
  rewrite Hbt, (go_nodes _ _ Hg), Hn in Hi'. injection Hi' as <-. rewrite Hbc in Hk. injection Hk as <-.
  rewrite Hbj, Hbt in *. clear b Hbj Hbt Hbc.
  assert (∀ s f, file_at w' s f = file_at w s f) as Hs by (intros; unfold file_at; by rewrite Hd).
  assert (∀ s f, image_at w' s f = image_at w s f) as Hm by (intros; by apply image_at_eq).
  assert (∀ f j, good (view w) f j → j ≠ i → good (view w') f j) as Hwh.
  { intros f j (k & Hjw & Hpk) Hne. exists k. split; [|done]. rewrite Hv. simpl. apply (go_holds _ _ Hg) in Hjw.
    by apply elem_of_filter. }
  destruct Hw as [[_ Hf He Hin] _ Hso Hpa Hjo _ Ho]. split; [done|..].
  - intros s f j Ha. rewrite Hm. intros Him. apply Hwh; [by eapply Hf|]. intros ->. destruct (Hso _ _ Him) as [_ ->].
    by eapply artifact_not_partial; [exact Ha|apply partial_in, artifact_in|].
  - intros s p e Ha. assert (active (l_dir L) (rq_vm q) w s p e) as Ha' by (unfold active in *; by rewrite <- Hs).
    destruct (He s p e Ha') as [H1 H2]. pose proof Ha' as (Hjp & _ & Hr & _). destruct (read_inv _ _ _ _ Hr) as (_ & Hid).
    assert (s = sid → p = m) as Hpm by (intros ->; congruence).
    assert (∀ op, s = sid → re_operation e = Some op → job = job_of op ∧ node = node_of op) as Hopm.
    { intros op Hsid Hop. destruct (Hid op Hop) as (_ & E1 & E2). rewrite (Hpm Hsid) in E1, E2. unfold jget in E1, E2.
      rewrite Hmj in E1. rewrite Hmn in E2. simpl in E1, E2. split; congruence. }
    split; [intros Hst j|intros Hpr op b' j Hop Hb']; rewrite Hm; intros Him.
    + apply Hwh; [by apply (H1 Hst)|]. intros ->. destruct (Hso _ _ Him) as [Hsid _]. rewrite (Hpm Hsid) in Hst. congruence.
    + rewrite Hv in Hb'. simpl in Hb'. destruct (decide (job_of op = job)) as [Ej|Ej].
      * rewrite Ej, lookup_insert_eq in Hb'. injection Hb' as <-. simpl. assert (s = sid) as -> by (by eapply Ho).
        destruct (Hopm op eq_refl Hop) as [_ <-]. assert (j = i) as -> by (eapply Hpa; [|exact Him]; apply partial_in; by eapply read_inv).
        exists wanted. split; [done|]. rewrite (mode_artifact _ _ _ _ Hr) by (by rewrite (Hpm eq_refl)). apply wanted_proper.
      * rewrite lookup_insert_ne, lookup_fmap in Hb' by done. apply fmap_Some in Hb' as (b0 & Hb0 & ->).
        pose proof (goes_on_kept _ _ (job_of op) Hg) as Hk. rewrite Hb0 in Hk.
        destruct (qv_jobs (view w) !! job_of op) as [b1|] eqn:Hb1; [|done]. destruct Hk as [Hk _].
        destruct (H2 Hpr op b1 j Hop Hb1 Him) as (k & Hk1 & Hpk). rewrite Hk1 in Hk. unfold overwritten. rewrite Hk.
        case_bool_decide as Ho'; [|by exists k].
        destruct Ho' as [-> _]. destruct (Hso _ _ Him) as [Hsid _]. destruct (Hopm op Hsid Hop). congruence.
  - intros s f j. rewrite Hm, Hi. apply Hin.
Qed.
Lemma held_start w m :
  held w → named m → file_at w sid journal = Some (Text (Object m)) → settled (phase_of m) = false →
  qv_nodes (view w) !! node = Some i →
  wpc (perform L) at_any_time (start_backup q job node) (λ _, held) (λ _, held) w.
Proof.
  intros Hw Hm Hj Hse Hn.
  assert (∀ c b, (∀ v v' x, effect c (named_image w c) v v' x → started b v v') → ba_job b = job → ba_target b = node →
    backup_content b = Some wanted → wpc (perform L) at_any_time (act (Qmp c)) (λ _, held) (λ _, held) w) as Hstart.
  { intros c b Hc Hbj Hbt Hbc. apply wpc_act. intros w' r Hp.
    destruct (perform_qmp L _ _ _ _ (li_ok _ _ _ (h_inv _ Hw)) Hp) as (Hd & Hi & Hok & v & Hg & _ & He).
    assert (view w' = v ∨ started b v (view w')) as Hv.
    { destruct r as [x|er]; [right; by eapply Hc|]. destruct He as [_ [?|[x ?]]]; [by left|right; by eapply Hc]. }
    assert (held w') as Hw'; [|split; [by apply held_any|by destruct r]].
    assert (∀ b0, qv_jobs v !! job = Some b0 → jb_backup b0 = Some (node, (i, wanted))) as Hjo.
    { intros b0 Hb0. pose proof (goes_on_kept _ _ job Hg) as Hk. rewrite Hb0 in Hk.
      destruct (qv_jobs (view w) !! job) as [b1|] eqn:Hb1; [|done]. destruct Hk as [-> _]. by eapply h_job. }
    destruct Hv as [Hv|Hv].
    - apply (held_qemu w); try done; rewrite ?Hv, ?(go_nodes _ _ Hg); auto.
      eapply inv_qemu; [apply Hw|done..| |]; rewrite Hv; [apply Hg|]. intros j b0 Hb0. pose proof (goes_on_kept _ _ j Hg) as Hk.
      rewrite Hb0 in Hk. destruct (qv_jobs (view w) !! j); [|done]. destruct Hk. by eauto.
    - apply (held_qemu w); try done; [by eapply inv_started|..]; destruct Hv as (i' & k & Hi' & Hk & _ & ->); simpl; rewrite (go_nodes _ _ Hg) in *; [auto|].
      rewrite Hbj, Hbt in *. intros b'. rewrite lookup_insert_eq. intros [= <-]. simpl. congruence. }
  unfold start_backup. unfold wanted in Hstart. destruct (rq_bitmap q) as [[[] name]|].
  - by apply (Hstart (BitmapAndBackup QEMU_ROOT_NODE_NAME name _) (_backup_arguments job QEMU_ROOT_NODE_NAME node false None (rq_speed q))).
  - by apply (Hstart (BlockdevBackup _) (_backup_arguments job QEMU_ROOT_NODE_NAME node true (Some name) (rq_speed q))).
  - by apply (Hstart (BlockdevBackup _) (_backup_arguments job QEMU_ROOT_NODE_NAME node false None (rq_speed q))).
Qed.
Lemma held_wait w :
  held w → wpc (perform L) held (wait_for_job job) (λ _, finished) (λ _, held) w.
Proof using Hjob.
  intros Hw. unfold wait_for_job. apply wpc_bind. eapply (stays_wpc L held); [by apply (held_look Polls)|done..| |done].
  clear w Hw. intros k. induction k as [|k IH]; intros w Hw; cbn [poll_job]; [exact Hw|].
  apply wpc_bind. eapply wpc_mono; [by apply held_query|done| |done]. clear w Hw. intros rows w [Hw Hrow].
  destruct (list_find _ rows) as [[x r]|] eqn:Hr; [|by apply IH]. destruct (String.eqb _ _) eqn:Hc; [|by apply IH].
  destruct (job_error r) as [|] eqn:He; [exact Hw|]. apply list_find_Some in Hr as (Hr & Hid & _).
  assert (finished w) as Hf.
  { eapply Hrow; [by eapply list_elem_of_lookup_2|done|]. unfold concluded_well. by rewrite Hc, bool_decide_eq_true_2. }
  apply wpc_suppress. eapply (stays_wpc L finished); [apply (proj2 finished_steady (JobDismiss job) Hjob)|done|apply finished_held|done|done].
Qed.

(** ** After the node is detached *)
Definition detached w : Prop := finished w ∧ ¬ attached w node.
Lemma detached_any w : detached w → at_any_time w.
Proof. intros []. by apply finished_any. Qed.
Lemma detached_held w : detached w → held w.
Proof. by intros [[]]. Qed.
Lemma detached_look a : looks a = true → stays L detached (act a).
Proof.
  intros Ha. apply stays_act. intros w w' r [Hw Hn] Hp. pose proof (proj1 finished_steady a Ha w Hw _ _ Hp) as [Hw' _].
  split; [done|]. by apply perform_look in Hp as ->.
Qed.
Definition published w : Prop :=
  clean w ∧ image_at w sid artifact = Some i ∧ (i, wanted) ∈ qv_holds (view w) ∧ (∀ f j, f ∈ partials → image_at w sid f = Some j → j = i).
Lemma detached_replace w :
  detached w → wpc (perform L) at_any_time (act (Replace sid partial artifact)) (λ _, published) (λ _, held) w.
Proof.
  intros [[Hw Hwh] Hn]. pose proof artifact_in as Ha. pose proof (partial_in _ Ha) as Hpa. apply wpc_act. intros w' r Hp.
  assert (inv w') as Hw'.
  { eapply inv_publish; [apply Hw|exact Ha| |exact Hp]. intros j. rewrite (h_file _ Hw). intros [= <-].
    exists wanted. split; [done|apply wanted_proper]. }
  destruct (perform_replace L sid partial artifact w w' r) as (Hq & Hno & Hr); [by apply not_eq_sym, artifact_not_partial|done|].
  pose proof (held_detached w Hw Hn) as [_ Hnew]. assert (clean w') as Hc by (split; [done|]; unfold nonew, view; by rewrite Hq).
  split; [by apply clean_any|]. destruct r as [[]|er]; destruct Hr as [_ Hs].
  - split; [done|]. unfold view. rewrite Hq. split; [|split; [done|]].
    + rewrite <- (h_file _ Hw). unfold image_at. by rewrite Hs, decide_True.
    + intros f j Hf. unfold image_at. rewrite Hs, decide_False by (intros [_ ->]; by eapply artifact_not_partial).
      case_decide; [done|]. by apply (h_part _ Hw).
  - assert (∀ s f, image_at w' s f = image_at w s f) as Hm by (intros; by apply image_at_eq). destruct Hw.
    split; unfold view; rewrite ?Hq; try done; try (intros; rewrite Hm in *; by eauto).
    + intros m j Hm0 Hj. rewrite Hs. by apply h_node0.
    + intros s p e op (Hx & Hy). rewrite Hs in Hx. by apply (h_only0 s p e op).
Qed.
Lemma guarded_clean {A B} w m submitted (P : A → world Q → Prop) (R : B → world Q → Prop) (p : prog A) (k : A → prog B) :
  settled (phase_of m) = true → wpc (perform L) at_any_time p P (λ _, clean) w →
  (∀ x w', P x w' → wpc (perform L) at_any_time (k x) R (λ er, refused er) w') →
  wpc (perform L) at_any_time (guarded q job node m submitted p k) R (λ er, refused er) w.
Proof.
  intros Hm Hp Hk. unfold guarded. apply wpc_else. eapply wpc_mono; [exact Hp|done|exact Hk|].
  intros er w' Hw'. unfold on_failure. destruct (rq_bitmap q); [rewrite Hm; apply wpc_raise; by apply clean_refused|].
  eapply wpc_mono; [by apply clean_discard|done..].
Qed.
Definition taken (r : live_result) w : Prop :=
  clean w ∧ lr_disk_path r = recorded_path (l_dir L) sid artifact
  ∧ (∃ j, image_at w sid artifact = Some j ∧ (j, wanted) ∈ qv_holds (view w))
  ∧ ∃ p, file_at w sid journal = Some (Text (Object p)) ∧ phase_of p = Some "artifact-published".

Lemma named_insert k x m : named m → k ≠ "job_id" → k ≠ "target_node" → k ≠ "backup_mode" → named (<[k := x]> m).
Proof. intros [[H1 H2] H3] Hj Hn Hb. unfold named, jget. by rewrite !lookup_insert_ne. Qed.
Lemma named_phase ph m : named m → named (with_phase ph m).
Proof. intros Hm. by apply named_insert. Qed.
(** A journal written while the image is held, finished or detached. *)
Lemma step_write I w m :
  (∀ w, I w → held w) → (∀ w w', I w → held w' → w_qemu w' = w_qemu w → I w') →
  I w → named m → (settled (phase_of m) = true → (i, wanted) ∈ qv_holds (view w)) →
  wpc (perform L) at_any_time (_write_live_backup_manifest sid m)
    (λ _ w', I w' ∧ w_qemu w' = w_qemu w ∧ file_at w' sid journal = Some (Text (Object m))) (λ _, held) w.
Proof.
  intros HI Hq Hw Hm Hs. eapply wpc_mono; [apply (held_write w m); auto|apply held_any| |by intros er w' (? & _)].
  intros [] w' (Hw' & Eq & Hj). split; [by eapply Hq|done].
Qed.
Lemma held_moves w w' : held w → held w' → w_qemu w' = w_qemu w → held w'.
Proof. done. Qed.
Lemma finished_moves w w' : finished w → held w' → w_qemu w' = w_qemu w → finished w'.
Proof. intros [_ Hi] Hw' Hq. split; [done|]. unfold view. by rewrite Hq. Qed.
Lemma detached_moves w w' : detached w → held w' → w_qemu w' = w_qemu w → detached w'.
Proof. intros [Hf Hn] Hw' Hq. split; [by eapply finished_moves|]. unfold attached, view. by rewrite Hq. Qed.
Lemma held_step w m :
  held w → named m → settled (phase_of m) = false →
  wpc (perform L) at_any_time (_write_live_backup_manifest sid m)
    (λ _ w', held w' ∧ w_qemu w' = w_qemu w ∧ file_at w' sid journal = Some (Text (Object m))) (λ _, held) w.
Proof. intros Hw Hm Hs. apply (step_write held); auto. by rewrite Hs. Qed.
Lemma finished_step w m :
  finished w → named m →
  wpc (perform L) at_any_time (_write_live_backup_manifest sid m) (λ _, finished) (λ _, held) w.
Proof.
  intros Hw Hm. eapply wpc_mono; [apply (step_write finished w m)|done|by intros [] w' []|done]; eauto using finished_held, finished_moves.
  intros _. apply Hw.
Qed.
Lemma detached_step w m :
  detached w → named m →
  wpc (perform L) at_any_time (_write_live_backup_manifest sid m) (λ _, detached) (λ _, held) w.
Proof.
  intros Hw Hm. eapply wpc_mono; [apply (step_write detached w m)|done|by intros [] w' []|done]; eauto using detached_held, detached_moves.
  intros _. apply Hw.
Qed.
Lemma published_write w m :
  published w → named m → settled (phase_of m) = true →
  wpc (perform L) at_any_time (_write_live_backup_manifest sid m)
    (λ _ w', published w' ∧ file_at w' sid journal = Some (Text (Object m))) (λ _, clean) w.
Proof.
  intros (Hc & Ha & Hi & Hp) [_ Hmode] Hm. pose proof artifact_in as Hin.
  assert (fits (l_dir L) w sid m) as Hf.
  { intros e Hr _ _. split; [intros _ j Hj|unfold in_progress; intros Hpr; apply settled_not_in_progress in Hpr; congruence].
    apply Hp in Hj as ->; [|apply partial_in; by eapply read_inv]. exists wanted. split; [done|].
    rewrite (mode_artifact _ _ _ _ Hr Hmode). apply wanted_proper. }
  eapply wpc_mono; [by apply clean_write|done| |by intros er w' [? _]]. intros [] w' (Hc' & Hn & Hj). split; [|done].
  assert (∀ f, f ∈ artifacts ∨ f ∈ partials → image_at w' sid f = image_at w sid f) as Hs.
  { intros f Hin'. apply image_at_eq, (nr_files _ _ _ Hn). right. by apply not_bookkeeping. }
  split; [done|]. unfold view. rewrite (nr_qemu _ _ _ Hn), Hs by auto. split; [done|]. split; [done|].
  intros f j Hf'. rewrite Hs by auto. by apply Hp.
Qed.
Lemma granularity_spec w m g :
  finished w → named m → settled (phase_of m) = true →
  wpc (perform L) at_any_time (record_granularity q m g)
    (λ mg w', finished w' ∧ named mg.1 ∧ phase_of mg.1 = phase_of m) (λ _, held) w.
Proof using Hnode.
  intros Hw Hm Hs. unfold record_granularity. destruct (rq_bitmap q) as [[[] name]|]; try (by apply wpc_ret).
  apply wpc_bind. eapply (stays_wpc L finished); [|done|apply finished_any| |intros; by apply finished_held].
  { unfold find_bitmap, query_dirty_bitmaps, query_named_block_nodes. stay. by apply (proj2 finished_steady). }
  clear w Hw. intros [b|] w Hw; [|apply wpc_raise; by apply finished_held]. cbv zeta. apply wpc_bind.
  assert (named (<["bitmap_granularity_bytes":=JInt (bm_granularity b)]> m)) as Hm' by (by apply named_insert).
  eapply wpc_mono; [apply (step_write finished); [apply finished_held|apply finished_moves|done|done|intros _; apply Hw]|done| |done].
  intros [] w' (Hw' & _). apply wpc_ret. split_and!; try done. unfold phase_of. simpl. by rewrite lookup_insert_ne.
Qed.
Lemma look_run I {A} (p : prog A) : stays L I p → (∀ w, I w → held w) → ∀ w, I w → wpc (perform L) at_any_time p (λ _, I) (λ _, held) w.
Proof. intros Hp HI w Hw. eapply stays_wpc; [done|done|intros; by apply held_any, HI|done|auto]. Qed.

Lemma backup_awaited w : held w → wpc (perform L) at_any_time (wait_for_backup q job) (λ _, finished) (λ _, held) w.
Proof using Hjob.
  intros Hw. unfold wait_for_backup, _remaining_live_backup_timeout. apply wpc_bind.
  eapply (stays_wpc L held); [|done|apply held_any| |done]; [stay; by apply held_look|]. clear w Hw. intros _ w Hw. apply wpc_try.
  eapply wpc_mono; [by apply held_wait|apply held_any|done|]. intros er w' Hw'. destruct er; exact Hw'.
Qed.
Lemma finished_del w : finished w → wpc (perform L) at_any_time (blockdev_del node) (λ _, detached) (λ _, held) w.
Proof using Hnode.
  intros Hw. eapply wpc_mono; [apply (del_detaches_by L finished finished_steady); [|exact Hnode|exact Hw]|apply finished_any| |].
  - intros w' [Hw' _]. apply (li_ok _ _ _ (h_inv _ Hw')).
  - by intros [] w' (Hw' & Hn & _).
  - intros er. apply finished_held.
Qed.
Lemma detached_validate : stays L detached (_validate_live_backup_artifact q sid partial).
Proof. unfold _validate_live_backup_artifact, _run_live_backup_subprocess, _remaining_live_backup_timeout. stay; by apply detached_look. Qed.
Lemma published_found w m :
  published w → file_at w sid journal = Some (Text (Object m)) →
  wpc (perform L) at_any_time (pbind (act (Find sid artifact)) (λ f, match f with Some _ => pret tt | None => praise FileNotFound end))
    (λ _ w', published w' ∧ file_at w' sid journal = Some (Text (Object m))) (λ _, clean) w.
Proof.
  intros ((Hw & Hn) & Ha & Hrest) Hj. assert (clean (ticked w)) as Hc by (split; [by apply inv_ticked|exact Hn]).
  apply wpc_bind, (wpc_act (perform L) _ (Find sid artifact)). intros w' r Hp. simpl in Hp. simplify_eq.
  split; [by apply clean_any|]. destruct (file_at w sid artifact) eqn:Hf; [|exact Hc]. apply wpc_ret. done.
Qed.

Lemma live_capture_spec w m size changed g :
  held w → named m → file_at w sid journal = Some (Text (Object m)) →
  wpc (perform L) at_any_time (capture (l_dir L) q job node m size changed g) taken (λ er, refused er) w.
Proof using Hjob Hnode.
  intros Hw Hm Hj. unfold capture. cbv zeta. fold artifact.
  eapply guarded_spec; [done|by apply held_add; eauto|]. clear Hj. intros [] w1 (Hw1 & Hn1 & _).
  set (m1 := with_phase "node-attached" m). assert (named m1) as Hm1 by (by apply named_phase).
  assert (settled (phase_of m1) = false) as Hs1 by (unfold m1; by rewrite phase_with_phase).
  eapply guarded_spec; [done|by apply held_step|]. intros [] w2 (Hw2 & Hq2 & Hj2).
  eapply guarded_spec; [done|apply (held_start w2 m1); try done; unfold view; by rewrite Hq2|]. clear dependent w w1. intros [] w3 Hw3.
  eapply guarded_spec; [done|apply (look_run held (act Now)); [by apply held_look|auto|done]|]. intros captured w4 Hw4.
  set (m4 := <["captured_at":=_]> _).
  assert (named m4) as Hm4 by (apply named_insert; [by apply named_phase|done..]).
  assert (settled (phase_of m4) = false) as Hs4 by (unfold m4, with_phase, phase_of; rewrite lookup_insert_ne by done; by rewrite lookup_insert_eq).
  eapply guarded_spec; [done|by apply held_step|]. intros [] w5 (Hw5 & _).
  eapply guarded_spec; [done|by apply backup_awaited|]. clear dependent w2 w3 w4 w5. intros [] w6 Hw6.
  set (m6 := with_phase "job-concluded" m4). assert (named m6) as Hm6 by (by apply named_phase).
  assert (settled (phase_of m6) = true) as Hs6 by (unfold m6; by rewrite phase_with_phase).
  eapply guarded_spec; [done|by apply finished_step|]. intros [] w7 Hw7.
  eapply guarded_spec; [done|by apply granularity_spec|]. intros [m8 g'] w8 (Hw8 & Hm8 & Hph8). simpl in *.
  eapply guarded_spec; [done|by apply finished_del|]. clear dependent w6 w7 w8. intros [] w9 Hw9.
  set (m9 := with_phase "node-detached" m8). assert (named m9) as Hm9 by (by apply named_phase).
  eapply guarded_spec; [done|by apply detached_step|]. intros [] w10 Hw10.
  eapply guarded_spec; [done|apply (look_run detached); [|apply detached_held|exact Hw10]; apply detached_validate|]. intros [] w11 Hw11.
  eapply guarded_spec; [done|by apply detached_replace|]. clear dependent w9 w10 w11. intros [] w12 Hw12.
  set (m12 := with_phase "artifact-published" m9).
  assert (phase_of m12 = Some "artifact-published") as Hs12 by (unfold m12; by rewrite phase_with_phase).
  eapply guarded_clean; [by rewrite Hs12|apply published_write; [done|by apply named_phase|by rewrite Hs12]|]. intros [] w13 [Hw13 Hj13].
  eapply guarded_clean; [by rewrite Hs12|by apply (published_found w13 m12)|]. intros [] w14 [Hw14 Hj14]. apply wpc_ret.
  destruct Hw14 as (Hc & Ha & Hi & _). split_and!; try done; eauto.
Qed.
End running.

(** ** From the beginning *)
(** The folder was just made. *)
Definition new_folder w : Prop := is_Some (w_dirs w !! sid) ∧ ∀ f, file_at w sid f = None.
(** The random operation ids are well formed and used by no job and no journal. *)
Definition new_names w : Prop := ∀ n,
  valid_op (l_uuid L n) = true ∧ qv_jobs (view w) !! job_of (l_uuid L n) = None
  ∧ ∀ s p e op, active (l_dir L) (rq_vm q) w s p e → re_operation e = Some op → job_of op ≠ job_of (l_uuid L n).
Definition begun w : Prop := clean w ∧ new_folder w ∧ new_names w.
Lemma begun_any w : begun w → at_any_time w.
Proof. intros [H _]. by apply clean_any. Qed.
Lemma begun_refused er w : begun w → refused er w.
Proof. intros [H _]. by apply clean_refused. Qed.
Lemma begun_same w w' :
  begun w → clean w' → w_dirs w' = w_dirs w → (∀ j, qv_jobs (view w) !! j = None → qv_jobs (view w') !! j = None) → begun w'.
Proof.
  intros (_ & Hf & Hn) Hc Hd Hj. split; [done|]. unfold new_folder, file_at. rewrite Hd. split; [done|].
  intros n. destruct (Hn n) as (Hv & Hjo & Ho). split; [done|]. split; [by apply Hj|].
  intros s p e op (Ha & Hb). apply (Ho s p e op). split; [|done]. unfold file_at in *. by rewrite <- Hd.
Qed.
Lemma begun_steady : steady L begun.
Proof.
  split.
  - intros a Ha. apply stays_act. intros w w' r Hw Hp. pose proof (clean_look a Ha w (proj1 Hw) _ _ Hp) as [Hc _].
    apply perform_look in Hp as ->; [|done]. by apply (begun_same w).
  - intros c Hc. apply stays_act. intros w w' r Hw Hp. pose proof (clean_command c Hc w (proj1 Hw) _ _ Hp) as [Hcl _].
    destruct (perform_recovery L c w w' r (li_ok _ _ _ (proj1 (proj1 Hw))) Hc Hp) as (_ & Hd & _ & _ & _ & _ & Hj).
    apply (begun_same w); try done. intros j Hn. destruct (qv_jobs (view w') !! j) as [b|] eqn:Hb; [|done].
    destruct (Hj j b Hb) as (b0 & ? & _). congruence.
Qed.
Hint Extern 1 (stays _ begun (act _)) =>
  first [apply (proj1 begun_steady); reflexivity | apply (proj2 begun_steady); simpl; auto; fail] : core.

Definition ready (i : nat) w : Prop :=
  clean w ∧ ∀ n, held (job_of (l_uuid L n)) (node_of (l_uuid L n)) i w.
Lemma begun_create size w w' r :
  begun w → perform L (Img (ImgCreate sid partial size)) w = (w', r) →
  clean w' ∧ (∀ d, r = Ok (ImgDone d) → (im_code d =? 0)%Z = true → ready (w_inode w) w').
Proof.
  intros ((Hw & Hnew) & [[fo Hfo] Hno] & Hnm) Hp. pose proof artifact_in as Hart. pose proof (partial_in _ Hart) as Hpa.
  simpl in Hp. destruct (_ || l_makes L _) eqn:Hmade.
  2:{ simplify_eq. split; [split; [by apply inv_ticked|done]|]. intros d [= Hd] Hc. rewrite Hd, Hc in Hmade. done. }
  set (i := w_inode w) in *. set (w1 := new_inode _) in Hp.
  assert (∀ s f, file_at w1 s f = if decide (s = sid ∧ f = partial) then Some (Image i) else file_at w s f) as Hs.
  { intros s f. change (file_at w1 s f) with (file_at (put_file sid partial (Image i) (ticked w)) s f). rewrite file_at_put.
    destruct (decide (s = sid ∧ f = partial)) as [[-> ->]|Hne]; [rewrite decide_True; [done|simpl; eauto]|].
    rewrite decide_False by naive_solver. done. }
  assert (∀ s f, image_at w1 s f = if decide (s = sid ∧ f = partial) then Some i else image_at w s f) as Hm.
  { intros s f. unfold image_at. rewrite Hs. by case_decide. }
  assert (∀ s p e, active (l_dir L) (rq_vm q) w1 s p e → active (l_dir L) (rq_vm q) w s p e ∧ s ≠ sid) as Hac.
  { intros s p e (Hj & Hrest). rewrite Hs, decide_False in Hj by (intros [_ Heq]; by destruct (not_bookkeeping _ (or_intror Hpa))).
    split; [done|]. intros ->. by rewrite Hno in Hj. }
  assert (inv w1) as Hw1.
  { destruct Hw as [Hok Hf He Hin]. split; [done|..].
    - intros s f j Ha. rewrite Hm, decide_False by (intros [_ ->]; by eapply artifact_not_partial). by apply Hf.
    - intros s p e [Ha Hne]%Hac. destruct (He s p e Ha) as [H1 H2]. unfold entry_ok. rewrite Hm, decide_False by naive_solver. done.
    - intros s f j. rewrite Hm. change (w_inode w1) with (S i). case_decide; [intros [= <-]; lia|]. intros ?%Hin. unfold i. lia. }
  assert (clean w1) as Hc by (split; done). injection Hp as <- <-. split; [done|]. intros _ _ _. split; [done|]. intros n.
  destruct (Hnm n) as (_ & Hjn & Hon). split; try done.
  - by rewrite Hm, decide_True.
  - intros s f. rewrite Hm. case_decide as Hd; [done|]. intros ?%(li_inode _ _ _ Hw). unfold i in *. lia.
  - intros f j Hf. rewrite Hm. case_decide; [by intros [= <-]|]. unfold image_at. by rewrite Hno.
  - intros b Hb. change (view w1) with (view w) in Hb. congruence.
  - intros m j Hm' Hj. destruct Hc as [_ Hc]. rewrite Hc in Hj; done.
  - intros s p e op [Ha _]%Hac Hop Hjo. by destruct (Hon s p e op Ha Hop).
Qed.
Lemma first_entry_named dir job node size changed g : named job node (first_entry dir q job node size changed g).
Proof.
  unfold named, first_entry, jget, mode_json. simpl.
  split; [split; repeat (rewrite lookup_insert_ne by done); by rewrite lookup_insert_eq|].
  repeat (rewrite lookup_insert_ne by done). by destruct (rq_bitmap q) as [[mode name]|]; simpl; rewrite ?lookup_insert_eq, ?lookup_empty.
Qed.
Lemma first_entry_phase dir job node size changed g : settled (phase_of (first_entry dir q job node size changed g)) = false.
Proof. unfold phase_of, first_entry. simpl. repeat (rewrite lookup_insert_ne by done). by rewrite lookup_insert_eq. Qed.

Lemma ready_capture_spec i size bitmap w :
  (∀ n, valid_op (l_uuid L n) = true) → ready i w →
  wpc (perform L) at_any_time
    (pbind (act Uuid) (λ operation_id,
     pbind (plift (_live_backup_identifiers operation_id)) (λ ids,
     let m := first_entry (l_dir L) q ids.1 ids.2 size bitmap.1 bitmap.2 in
     pbind (ptry (_write_live_backup_manifest sid m) (λ e,
       if is_oserror e then
         pbind (psuppress is_oserror (act (Unlink sid partial))) (λ _,
         praise (live_error q ("Recovery state for " +:+ computer (rq_vm q) +:+ " could not be saved")))
       else praise e)) (λ _,
     capture (l_dir L) q ids.1 ids.2 m size bitmap.1 bitmap.2)))) taken (λ er, refused er) w.
Proof.
  intros Hvalid [Hc Hr]. apply wpc_bind, (wpc_act (perform L) _ Uuid). intros w1 r Hp. simpl in Hp. simplify_eq.
  pose proof (clean_look Uuid eq_refl w Hc (ticked w) (Ok _) eq_refl) as [Hc1 _].
  pose proof (held_look _ _ _ Uuid eq_refl w (Hr (w_tick w)) (ticked w) (Ok _) eq_refl) as [Hw1 _].
  split; [by apply clean_any|]. set (op := l_uuid L (w_tick w)) in *. pose proof (Hvalid (w_tick w)) as Hv. fold op in Hv.
  rewrite (identifiers_valid op Hv), bind_lift. cbv zeta. simpl fst. simpl snd. set (m := first_entry _ _ _ _ _ _ _).
  assert (own_job (job_of op) ∧ own_node (node_of op)) as [Hj Hn] by (split; by exists op).
  pose proof (first_entry_named (l_dir L) (job_of op) (node_of op) size bitmap.1 bitmap.2) as Hm.
  pose proof (first_entry_phase (l_dir L) (job_of op) (node_of op) size bitmap.1 bitmap.2) as Hph. fold m in Hm, Hph.
  apply wpc_bind, wpc_try.
  eapply wpc_mono; [apply (held_write _ _ _ (ticked w) m Hw1 Hm); by rewrite Hph|apply held_any| |].
  - intros [] w2 (Hw2 & _ & Hj2). by eapply live_capture_spec.
  - intros er w2 (Hw2 & Hq & He). rewrite He.
    assert (clean w2) as Hc2 by (split; [apply Hw2|]; unfold nonew, view; rewrite Hq; apply Hc1).
    apply wpc_bind. eapply (stays_wpc L clean); [apply stays_suppress, clean_unlink|done|apply clean_any| |apply clean_refused].
    intros _ w3 Hw3. apply wpc_raise. by apply clean_refused.
Qed.
Lemma create_live_spec w :
  begun w → wpc (perform L) at_any_time (_create_live_disk_snapshot (l_dir L) q) taken (λ er, refused er) w.
Proof.
  intros Hw. unfold _create_live_disk_snapshot. cbv zeta. fold artifact.
  destruct (negb _); [apply wpc_raise; by apply begun_refused|].
  assert (∀ A B (p : prog A) (f : A → prog B) R w, stays L begun p → begun w →
    (∀ x w', begun w' → wpc (perform L) at_any_time (f x) R (λ er, refused er) w') →
    wpc (perform L) at_any_time (pbind p f) R (λ er, refused er) w) as Hseq.
  { intros A B p f R w1 Hp Hw1 Hf. apply wpc_bind. eapply (stays_wpc L begun); [done|done|apply begun_any|auto|apply begun_refused]. }
  apply Hseq; [|done|]. { unfold query_commands. stay. auto. }
  clear w Hw. intros commands w Hw. destruct (negb _); [apply wpc_raise; by apply begun_refused|].
  apply Hseq; [|done|]. { unfold _qemu_img_virtual_size, _run_live_backup_subprocess, _remaining_live_backup_timeout. stay; auto. }
  clear w Hw. intros size w Hw.
  apply Hseq; [|done|]. { unfold check_bitmap_state, find_bitmap, query_dirty_bitmaps, query_named_block_nodes. stay; auto. }
  clear w Hw. intros bitmap w Hw.
  apply Hseq; [|done|]. { unfold _require_live_backup_space, _run_live_backup_subprocess, _remaining_live_backup_timeout. stay; auto. }
  clear w Hw. intros _ w Hw. unfold _run_live_backup_subprocess at 1. apply wpc_bind.
  apply Hseq; [|done|]. { unfold _remaining_live_backup_timeout. stay; auto. }
  clear w Hw. intros _ w Hw. apply wpc_bind, (wpc_act (perform L) _ (Img (ImgCreate sid partial size))). intros w1 r Hp.
  destruct (begun_create size w w1 r Hw Hp) as [Hc Hready]. split; [by apply clean_any|].
  destruct r as [[d| |msg]|er]; try (by apply clean_refused). apply wpc_ret.
  destruct (im_code d =? 0)%Z eqn:Hcode; simpl; [|apply wpc_raise; by apply clean_refused].
  eapply ready_capture_spec; [|by eapply Hready]. intros n. destruct Hw as (_ & _ & Hn). by destruct (Hn n).
Qed.
End capture.

(** C14: wherever a live capture is killed, a node it has attached to QEMU is named
    by the journal of its folder, and the image QEMU has open is still the
    partial file of that folder.  A capture that returns has detached its node
    and published, at the path it reports, an image with the content it was asked
    for: a copy of the whole root disk, or for an increment the changes of the
    root disk that the requested bitmap recorded.  One that raises something else
    than an [OSError] leaves no node attached unless the error says that the
    cleanup or the capture is pending; after an [OSError] a node may be attached,
    still named by the journal (see [journal_error_leaves_node]).  The folder is
    new and the random operation id unused. *)
Theorem live_capture_accounted (L : lenv) (q : live_request) {Q : Type} `{!Qemu Q, !QemuLaws Q} n (w w' : world Q) o :
  live_inv (l_dir L) (rq_vm q) w → new_folder q w → new_names L q w →
  exec (perform L) n (_create_live_disk_snapshot (l_dir L) q) w = (w', o) →
  accounted q w w' ∧
  match o with
  | Some (Ok r) =>
      nonew w w' ∧ lr_disk_path r = recorded_path (l_dir L) (rq_snapshot q) (artifact q)
      ∧ ∃ i, image_at w' (rq_snapshot q) (artifact q) = Some i ∧ (i, wanted q) ∈ qv_holds (view w')
  | Some (Err er) => pending er = false → is_oserror er = false → nonew w w'
  | None => True
  end.
Proof.
  intros Hw Hf Hn He. assert (begun L q w w) as Hb by (split; [split; [done|by intros m]|done]).
  destruct (wpc_exec _ _ _ _ _ _ _ _ _ (create_live_spec L q w w Hb) (begun_any L q w w Hb) He) as [[_ Ha] Ho].
  split; [done|]. destruct o as [[r|er]|]; [|by destruct Ho|done]. destruct Ho as ([_ ?] & ? & ? & _). done.
Qed.

(** * Histories of live backups

    Captures and recoveries of one computer, each of which may be killed at any
    point, removed folders and restarts of QEMU, in any order. *)
Section history.
Context (dir vm : string) {Q : Type} `{!Qemu Q, !QemuLaws Q}.
Implicit Types w : world Q.

(** [snapshot_root.mkdir(exist_ok=False)], before the capture. *)
Definition make_folder (sid : string) w : world Q := set_dirs (<[sid := {| fo_alias := false; fo_files := ∅ |}]> (w_dirs w)) w.

Inductive happens : world Q → world Q → Prop :=
| a_capture L q n w :
    l_dir L = dir → rq_vm q = vm → w_dirs w !! rq_snapshot q = None → new_names L q w →
    happens w (exec (perform L) n (_create_live_disk_snapshot dir q) (make_folder (rq_snapshot q) w)).1
| a_recovery L locked persisted socket n w :
    l_dir L = dir → happens w (exec (perform L) n (reconcile_live_backups dir vm locked persisted socket) w).1
| a_removal sid w : happens w (set_dirs (delete sid (w_dirs w)) w)
| a_restart q w : q_ok q → qv_jobs (q_view q) = ∅ → qv_holds (view w) ⊆ qv_holds (q_view q) → happens w (set_qemu q w).

Lemma file_at_make sid w s f : w_dirs w !! sid = None → file_at (make_folder sid w) s f = file_at w s f.
Proof.
  intros Hn. unfold file_at, make_folder. simpl. destruct (decide (s = sid)) as [->|]; [|by rewrite lookup_insert_ne].
  by rewrite lookup_insert_eq, Hn.
Qed.
Lemma happens_inv w w' : live_inv dir vm w → happens w w' → live_inv dir vm w'.
Proof.
  intros Hw. destruct 1 as [L q n w Hd Hv Hno Hnm|L locked persisted socket n w Hd|sid w|q w Hok Hj Hwh].
  - subst dir vm. set (w1 := make_folder (rq_snapshot q) w).
    assert (∀ s f, file_at w1 s f = file_at w s f) as Hs by (intros; by apply file_at_make).
    assert (live_inv (l_dir L) (rq_vm q) w1) as Hw1.
    { apply (inv_less _ _ w); try done; [intros s f x _; by rewrite Hs|]. intros s i. rewrite (image_at_eq w) by done. apply (li_inode _ _ _ Hw). }
    assert (begun L q w1 w1) as Hb.
    { split; [split; [done|by intros m]|]. split.
      - split; [unfold w1, make_folder; simpl; rewrite lookup_insert_eq; by eauto|]. intros f. rewrite Hs. unfold file_at. by rewrite Hno.
      - intros n'. destruct (Hnm n') as (? & ? & Ho). split_and!; try done. intros s p e op (Ha & Ha'). rewrite Hs in Ha. by apply (Ho s p e op). }
    destruct (exec _ n _ w1) as [w2 o] eqn:He.
    by destruct (wpc_exec _ _ _ _ _ _ _ _ _ (create_live_spec L q w1 w1 Hb) (begun_any L q w1 w1 Hb) He) as [[? _] _].
  - subst dir. destruct (exec _ n _ w) as [w2 o] eqn:He.
    by destruct (wpc_exec _ _ _ _ _ _ _ _ _ (keeps_reconcile L vm locked persisted socket w Hw) Hw He) as [? _].
  - assert (∀ s f x, file_at (set_dirs (delete sid (w_dirs w)) w) s f = Some x → file_at w s f = Some x) as Hs.
    { intros s f x. unfold file_at. simpl. destruct (decide (s = sid)) as [->|]; [by rewrite lookup_delete_eq|by rewrite lookup_delete_ne]. }
    apply (inv_less _ _ w); try done; [auto|]. intros s i. unfold image_at.
    destruct (file_at _ s _) as [[]|] eqn:Hf; try done. intros [= <-]. apply Hs in Hf. eapply (li_inode _ _ _ Hw s). unfold image_at. by rewrite Hf.
  - apply (inv_qemu _ _ w); try done. intros j b. unfold view. simpl. rewrite Hj. by rewrite lookup_empty.
Qed.

(** At first no journal is of this computer and every published image holds what
    its name says. *)
Record initial w : Prop := {
  in_ok : q_ok (w_qemu w);
  in_journals : ∀ s p, file_at w s journal = Some (Text (Object p)) → is_text (jget p "vm_id") vm = false;
  in_final : ∀ s f i, f ∈ artifacts → image_at w s f = Some i → good (view w) f i;
  in_inodes : ∀ s f i, image_at w s f = Some i → i < w_inode w }.
Lemma initial_inv w : initial w → live_inv dir vm w.
Proof. intros []. split; try done. intros s p e (Hj & Hv & _). apply in_journals0 in Hj. congruence. Qed.
End history.

(** C13: in every history of live captures and recoveries of a computer, killed at
    any point and repeated in any order, between removals of snapshot folders and
    restarts of QEMU, and whatever the monitor, the disk and qemu-img answer, a
    published image holds what its name says: a [disk.qcow2] a finished copy of
    the whole root disk, an [increment.qcow2] the finished changes of the root
    disk since some bitmap.  A backup that was not finished, of another node or
    of the wrong kind is never published, neither by the capture nor by a
    recovery.  (At first no folder has a journal of the computer and what is
    published is as it should be; operation ids are not reused.) *)
Theorem published_images_whole (dir vm : string) {Q : Type} `{!Qemu Q, !QemuLaws Q} (w0 w : world Q) sid i :
  initial vm w0 → rtc (happens dir vm) w0 w →
  (image_at w sid "disk.qcow2" = Some i → (i, Whole QEMU_ROOT_NODE_NAME) ∈ qv_holds (view w))
  ∧ (image_at w sid "increment.qcow2" = Some i → ∃ bitmap, (i, Changes QEMU_ROOT_NODE_NAME bitmap) ∈ qv_holds (view w)).
Proof.
  intros H0 Hr. assert (live_inv dir vm w) as Hw.
  { apply (initial_inv dir) in H0. induction Hr as [|w1 w2 w3 H12 _ IH]; [done|]. apply IH. by eapply happens_inv. }
  split; intros Hi.
  - destruct (li_final _ _ _ Hw sid "disk.qcow2" i ltac:(by left) Hi) as (k & Hk & ->). done.
  - destruct (li_final _ _ _ Hw sid "increment.qcow2" i ltac:(right; by left) Hi) as (k & Hk & b & ->). eauto.
Qed.
