(* ===== verification/LiveDemo.v ===== *)
(** * Runs of live backups

    A host and a QEMU in which the theorems' hypotheses hold, and the runs that
    show what they say and where the code does not do what it means to. *)
From S2P Require Import Prelude PyStr PyDatetime Types Snapshots CrashProg LiveWorld QmpClient LiveBackup.
From S2P Require Import LiveReconcile LiveFrames LiveConfined LiveInv LiveCapture.
From stdpp Require Import options.

(** * A QEMU that follows a script

    An executable monitor that keeps the promises of [QemuLaws]: for each command
    a script says whether the running jobs end before it, and whether it is
    carried out, refused, or carried out with its answer lost. *)
Inductive fate := Fine | Refused | Lost.
Record sim := {
  si_view : qview;
  si_bitmaps : list bitmap_row;
  si_commands : list string;
  si_script : list (option bool * fate) }.

(** Running jobs end, well or not. *)
Definition ended (ok : bool) (b : job) : job :=
  match jb_state b with Running => {| jb_backup := jb_backup b; jb_state := if ok then Succeeded else Failed |} | _ => b end.
Definition images (m : gmap string job) : gset (nat * content) :=
  list_to_set (omap (λ p, snd <$> jb_backup p.2) (map_to_list m)).
Definition advance (o : option bool) (v : qview) : qview :=
  match o with
  | None => v
  | Some ok => {| qv_nodes := qv_nodes v; qv_jobs := ended ok <$> qv_jobs v;
                  qv_holds := if ok then qv_holds v ∪ images (filter (λ p, jb_state p.2 = Running) (qv_jobs v)) else qv_holds v |}
  end.

Definition row_of (p : string * job) : QMPJob :=
  {| job_id := p.1; job_status := match jb_state p.2 with Running => "running" | _ => "concluded" end;
     job_error := match jb_state p.2 with Failed => Some "failed" | _ => None end |}.
Definition plain_node (n : string) : node_row := {| nr_name := Some n; nr_bitmaps := None |}.
Definition new_bitmap (name : string) : bitmap_row :=
  {| br_name := Some name; br_recording := JBool true; br_busy := JBool false; br_persistent := JBool true;
     br_inconsistent := None; br_granularity := JInt 65536; br_count := JInt 0 |}.
Definition start_job (b : backup_args) (v : qview) : option qview :=
  i ← qv_nodes v !! ba_target b;
  k ← backup_content b;
  match qv_jobs v !! ba_job b with
  | Some _ => None
  | None => Some {| qv_nodes := qv_nodes v;
                    qv_jobs := <[ba_job b := {| jb_backup := Some (ba_target b, (i, k)); jb_state := Running |}]>
                                 (overwritten i <$> qv_jobs v);
                    qv_holds := filter (λ x, x.1 ≠ i) (qv_holds v) |}
  end.
Definition cancel (j : string) (v : qview) : option qview :=
  b ← qv_jobs v !! j;
  Some (set_jobs (<[j := {| jb_backup := jb_backup b; jb_state := match jb_state b with Running => Failed | s => s end |}]> (qv_jobs v)) v).
Definition uses (n : string) (b : job) : bool :=
  match jb_backup b, jb_state b with Some (n', _), Running => String.eqb n' n | _, _ => false end.

(** The command carried out: the new view and bitmaps, and the answer. *)
Definition carry (c : qmp_command) (file : option nat) (v : qview) (maps : list bitmap_row) (cmds : list string)
  : option (qview * list bitmap_row * qmp_reply c) :=
  match c with
  | QConnect => Some (v, maps, tt)
  | QueryCommands => Some (v, maps, Some cmds)
  | QueryJobs => Some (v, maps, map row_of (map_to_list (qv_jobs v)))
  | QueryNodes => Some (v, maps, Some ({| nr_name := Some QEMU_ROOT_NODE_NAME; nr_bitmaps := Some (Some maps) |}
                                        :: map plain_node (map_to_list (qv_nodes v)).*1))
  | BlockdevAdd n _ _ =>
      i ← file;
      match qv_nodes v !! n with Some _ => None | None => Some (set_nodes (<[n := i]> (qv_nodes v)) v, maps, tt) end
  | BlockdevDel n =>
      if existsb (λ p, uses n p.2) (map_to_list (qv_jobs v)) then None
      else Some (set_nodes (delete n (qv_nodes v)) v, maps, tt)
  | BlockdevBackup b => v' ← start_job b v; Some (v', maps, tt)
  | BitmapAndBackup _ name b => v' ← start_job b v; Some (v', new_bitmap name :: maps, tt)
  | BitmapRemove _ name => Some (v, filter (λ r, br_name r ≠ Some name) maps, tt)
  | JobCancel j | BlockJobCancel j => v' ← cancel j v; Some (v', maps, tt)
  | JobDismiss j =>
      b ← qv_jobs v !! j;
      match jb_state b with Running => None | _ => Some (set_jobs (delete j (qv_jobs v)) v, maps, tt) end
  end.

#[global] Instance sim_qemu : Qemu sim := λ c file s,
  let '(o, f, rest) := match si_script s with [] => (None, Fine, []) | (o, f) :: rest => (o, f, rest) end in
  let v := advance o (si_view s) in
  let keep v maps := {| si_view := v; si_bitmaps := maps; si_commands := si_commands s; si_script := rest |} in
  match f, carry c file v (si_bitmaps s) (si_commands s) with
  | Refused, _ | _, None => (keep v (si_bitmaps s), Err "refused")
  | Lost, Some (v', maps, _) => (keep v' maps, Err "connection lost")
  | Fine, Some (v', maps, x) => (keep v' maps, Ok x)
  end.

(** ** It keeps the promises *)
Lemma advance_goes_on o v : goes_on v (advance o v).
Proof.
  destruct o as [ok|]; split; simpl; try done.
  - intros j. rewrite lookup_fmap. destruct (qv_jobs v !! j) as [b|]; simpl; [|done].
    unfold ended. destruct (jb_state b) eqn:Hs; rewrite ?Hs; done.
  - destruct ok; set_solver.
  - intros j. destruct (qv_jobs v !! j); done.
Qed.
Lemma advance_ok o v : qview_ok v → qview_ok (advance o v).
Proof.
  intros Hv. destruct o as [ok|]; [|done]. intros j b n i. simpl. rewrite lookup_fmap. intros (b0 & Hb & ->)%fmap_Some.
  unfold ended. destruct (jb_state b0) eqn:Hs; simpl; intros Hi.
  - destruct (Hv j b0 n i Hb Hi) as [_ Hn]. split; [|by destruct ok]. destruct ok; [intros _|done].
    apply elem_of_union. right. unfold images. apply elem_of_list_to_set, list_elem_of_omap.
    exists (j, b0). simpl. rewrite Hi. split; [|done]. apply elem_of_map_to_list, map_lookup_filter_Some. done.
  - destruct (Hv j b0 n i Hb Hi) as [Hw _]. rewrite Hs. split; [intros _|done]. destruct ok; [apply elem_of_union_l|]; auto.
  - rewrite Hs. done.
Qed.
Lemma start_job_ok b v v' : qview_ok v → start_job b v = Some v' → started b v v' ∧ qview_ok v'.
Proof.
  unfold start_job, started. intros Hv (i & Hi & (k & Hk & H)%bind_Some)%bind_Some. destruct (qv_jobs v !! ba_job b) as [|] eqn:Hj; [done|].
  simplify_eq. split; [by eauto 10|]. intros j c n x. simpl. destruct (decide (j = ba_job b)) as [->|Hne].
  - rewrite lookup_insert_eq. intros [= <-] [= <- <-]. simpl. done.
  - rewrite lookup_insert_ne, lookup_fmap by done. intros (c0 & Hc & ->)%fmap_Some. unfold overwritten.
    destruct (jb_backup c0) as [[n0 [i0 k0]]|] eqn:Hb; [|by rewrite Hb]. case_bool_decide as Hd; [done|]. rewrite Hb. intros [= <- <-].
    destruct (Hv j c0 n0 (i0, k0) Hc Hb) as [H1 H2]. split; [|done]. intros Hs. specialize (H1 Hs).
    apply elem_of_filter. split; [|done]. simpl. intros ->. apply Hd. split; [done|congruence].
Qed.
Lemma cancel_ok j v v' : qview_ok v → cancel j v = Some v' → cancelled j v v' ∧ qview_ok v'.
Proof.
  unfold cancel, cancelled. intros Hv (b & Hb & [= <-])%bind_Some. split.
  - destruct (jb_state b) eqn:Hs; [by eauto|left; destruct v; unfold set_jobs; simpl in *; f_equal..];
      apply insert_id; rewrite Hb; by destruct b; simplify_eq/=.
  - intros k c n i. simpl. destruct (decide (k = j)) as [->|Hne]; [rewrite lookup_insert_eq|rewrite lookup_insert_ne by done; apply Hv].
    intros [= <-] Hi. destruct (Hv j b n i Hb Hi) as [H1 H2]. simpl. by destruct (jb_state b).
Qed.
Lemma uses_none n v : existsb (λ p, uses n p.2) (map_to_list (qv_jobs v)) = false →
  ∀ j b x, qv_jobs v !! j = Some b → jb_backup b = Some (n, x) → jb_state b ≠ Running.
Proof.
  intros H j b i Hj Hb Hs. cut (true = false); [done|]. rewrite <- H. symmetry. apply existsb_exists.
  exists (j, b). split; [by apply list_elem_of_In, elem_of_map_to_list|]. unfold uses. simpl. rewrite Hb, Hs. apply String.eqb_refl.
Qed.
Lemma carry_ok c file v maps cmds v' maps' x :
  qview_ok v → carry c file v maps cmds = Some (v', maps', x) → effect c file v v' x ∧ qview_ok v'.
Proof.
  intros Hv. destruct c; simpl.
  1,2: by intros [= <- <- <-].
  - intros [= <- <- <-]. split; [|done]. split; [done|]. split.
    + intros j. split.
      * intros [b Hb]. exists (row_of (j, b)). split; [|done]. apply list_elem_of_fmap. exists (j, b). split; [done|by apply elem_of_map_to_list].
      * intros (r & ([k b] & -> & Hk%elem_of_map_to_list)%list_elem_of_fmap & <-). simpl. by eauto.
    + intros r b ([k b'] & -> & Hk%elem_of_map_to_list)%list_elem_of_fmap. simpl. rewrite Hk. intros [= <-].
      unfold concluded_well, row_of. simpl. by destruct (jb_state b').
  - intros [= <- <- <-]. split; [|done]. split; [done|]. intros l n [= <-] [i Hi]. exists (plain_node n). split; [|done].
    right. apply list_elem_of_fmap. exists n. split; [done|]. apply list_elem_of_fmap. exists (n, i). split; [done|by apply elem_of_map_to_list].
  - intros (i & -> & H)%bind_Some. destruct (qv_nodes v !! node) eqn:Hn; [done|]. simplify_eq. split; [by eauto|].
    intros j b n k Hj Hb. destruct (Hv j b n k Hj Hb) as [H1 H2]. split; [done|]. simpl. intros Hs%H2.
    rewrite lookup_insert_ne; [done|]. congruence.
  - destruct (existsb _ _) eqn:Hu; [done|]. intros [= <- <- <-]. pose proof (uses_none _ _ Hu) as Hn. split; [done|].
    intros j b n k Hj Hb. destruct (Hv j b n k Hj Hb) as [H1 H2]. split; [done|]. simpl. intros Hs.
    rewrite lookup_delete_ne; [auto|]. intros ->. by eapply Hn.
  - intros (v1 & H & [= <- <- <-])%bind_Some. by apply start_job_ok.
  - intros (v1 & H & [= <- <- <-])%bind_Some. by apply start_job_ok.
  - by intros [= <- <- <-].
  - intros (v1 & H & [= <- <- <-])%bind_Some. by apply cancel_ok.
  - intros (v1 & H & [= <- <- <-])%bind_Some. by apply cancel_ok.
  - intros (b & Hb & H)%bind_Some. destruct (jb_state b) eqn:Hs; [done|..]; simplify_eq; (split; [split; [exists b; by rewrite Hs|done]|]);
      intros j c n k; simpl; intros [_ Hj]%lookup_delete_Some; by apply (Hv j).
Qed.

#[global] Program Instance sim_laws : QemuLaws sim := {| q_ok s := qview_ok (si_view s); q_view := si_view |}.
Next Obligation. done. Qed.
Next Obligation.
  intros c file s s' r Hok. unfold qmp, sim_qemu.
  destruct (match si_script s with [] => _ | _ => _ end) as [[o f] rest]. pose proof (advance_ok o _ Hok) as Hv.
  destruct f, (carry c file (advance o (si_view s)) (si_bitmaps s) (si_commands s)) as [[[v' maps] x]|] eqn:Hc;
    intros [= <- <-]; simpl; try (apply (carry_ok _ _ _ _ _ _ _ _ Hv) in Hc as [He Hok']); try done; (split; [done|]);
    exists (advance o (si_view s)); (split; [apply advance_goes_on|]); (split; [done|]); eauto.
Qed.

(** * Runs *)
Definition demo_now : datetime :=
  {| dt_year := 2026; dt_month := 1; dt_day := 2; dt_hour := 3; dt_minute := 4; dt_second := 5; dt_microsecond := 0;
     dt_offset := Some 0%Z |}.
Definition demo_env : lenv :=
  {| l_dir := "/data/snapshots";
     l_os := λ _, None;
     l_order := λ _ l, l;
     l_which := λ _, true;
     l_img := λ _, ImgDone {| im_code := 0; im_stderr := ""; im_size := Some 4096%Z; im_backing := Some None |};
     l_makes := λ _, false;
     l_free := λ _, Some 1000000000%Z;
     l_left := λ _, true;
     l_uuid := λ _, "00112233445566aa";
     l_now := λ _, demo_now;
     l_polls := λ _, 3 |}.
Definition demo_commands : list string := _LIVE_BACKUP_REQUIRED_COMMANDS ++ _DIRTY_BITMAP_BACKUP_REQUIRED_COMMANDS.
Definition idle_view : qview := {| qv_nodes := ∅; qv_jobs := ∅; qv_holds := ∅ |}.
Definition demo_sim (script : list (option bool * fate)) (maps : list bitmap_row) : sim :=
  {| si_view := idle_view; si_bitmaps := maps; si_commands := demo_commands; si_script := script |}.
Definition empty_folder : folder := {| fo_alias := false; fo_files := ∅ |}.
Definition demo_world (s : sim) : world sim :=
  {| w_qemu := s; w_dirs := {["snap-1" := empty_folder]}; w_tick := 0; w_inode := 7 |}.
Definition demo_request (b : option (bitmap_mode * string)) : live_request :=
  {| rq_vm := "web"; rq_snapshot := "snap-1"; rq_disk := "/data/disks/web.qcow2"; rq_status := RUNNING; rq_type := DISK;
     rq_speed := None; rq_bitmap := b |}.
Definition calm (n : nat) : list (option bool * fate) := replicate n (None, Fine).
Abbreviation live b := (_create_live_disk_snapshot "/data/snapshots" (demo_request b)).
Abbreviation again persisted := (reconcile_live_backups "/data/snapshots" "web" "snap-2" persisted (Some "/run/web.sock")).
Abbreviation step_on n p w := (exec (perform demo_env) n p w).

(** What is left of a run: the nodes, the bitmaps, the names in the folder. *)
Definition left_files (w : world sim) (sid : string) : list string :=
  from_option (λ fo, (map_to_list (fo_files fo)).*1) [] (w_dirs w !! sid).
Definition bitmap_names (w : world sim) : list string := omap br_name (si_bitmaps (w_qemu w)).

(** ** An increment that is lost
    The capture gives up waiting while its job runs; the job ends well before it
    is cancelled, and QEMU starts the bitmap anew.  The cleanup does not look at
    how the job ended and removes the finished increment. *)
Definition short_env : lenv :=
  {| l_dir := l_dir demo_env; l_os := l_os demo_env; l_order := l_order demo_env; l_which := l_which demo_env;
     l_img := l_img demo_env; l_makes := l_makes demo_env; l_free := l_free demo_env; l_left := l_left demo_env;
     l_uuid := l_uuid demo_env; l_now := l_now demo_env; l_polls := λ _, 1 |}.
Definition late_job : sim := demo_sim (calm 6 ++ [(Some true, Fine)]) [new_bitmap "base"].
Definition lost_run := run (perform short_env) (live (Some (Incremental, "base"))) (demo_world late_job).
Example finished_increment_is_discarded :
  pending (match lost_run.2 with Err e => e | Ok _ => FileNotFound end) = false
  ∧ (7, Changes QEMU_ROOT_NODE_NAME "base") ∈ qv_holds (view lost_run.1) ∧ left_files lost_run.1 "snap-1" = [].
Proof. split_and!; vm_compute; reflexivity. Qed.

(** ** A base whose bitmap is lost
    The base was taken and its record stored, but its journal was not removed;
    the next recovery removes the bitmap that the increments need. *)
Definition taken_run := run (perform demo_env) (live (Some (NewBase, "base"))) (demo_world (demo_sim (calm 6 ++ [(Some true, Fine)]) [])).
Definition after_record := run (perform demo_env) (again ["snap-1"]) taken_run.1.
Example recorded_base_loses_its_bitmap :
  bitmap_names taken_run.1 = ["base"] ∧ after_record.2 = Ok tt ∧ bitmap_names after_record.1 = []
  ∧ left_files after_record.1 "snap-1" = ["disk.qcow2"].
Proof. split_and!; vm_compute; reflexivity. Qed.

(** ** A recovery that never ends
    Killed after the job was dismissed, the capture cannot be recovered, and the
    command the error recommends starts with the same recovery. *)
Definition ambiguous_world : world sim :=
  (step_on 26 (live (Some (NewBase, "base"))) (demo_world (demo_sim (calm 6 ++ [(Some true, Fine)]) []))).1.
Definition next_attempt (w : world sim) := run (perform demo_env) (again []) w.
Definition ambiguous {A} (r : res error A) : bool := match r with Err e => d_ambiguous (details_of e) | Ok _ => false end.
Example recommended_command_fails_again :
  ambiguous (next_attempt ambiguous_world).2 = true
  ∧ ambiguous (next_attempt (next_attempt ambiguous_world).1).2 = true
  ∧ left_files (next_attempt ambiguous_world).1 "snap-1" = left_files ambiguous_world "snap-1".
Proof. split_and!; vm_compute; reflexivity. Qed.

(** ** A journal that stops every snapshot
    A phase that is a list is not hashable, so it is not treated as invalid. *)
Definition odd_journal : payload :=
  <["phase" := JComposite]> (first_entry "/data/snapshots" (demo_request None) (job_of "00112233445566aa") (node_of "00112233445566aa") 4096 None None).
Definition odd_world : world sim :=
  {| w_qemu := demo_sim [] []; w_dirs := {["snap-1" := {| fo_alias := false; fo_files := {[journal := Text (Object odd_journal)]} |}]};
     w_tick := 0; w_inode := 7 |}.
Example list_phase_raises : (next_attempt odd_world).2 = Err TypeErr.
Proof. vm_compute. reflexivity. Qed.

(** ** A node that no error speaks of
    The disk is full when the running job is to be recorded.  The handler finds
    the job ended well, cannot record that either, and the bare error of the
    file system leaves the capture, its node attached. *)
Definition full_env (n : nat) : lenv :=
  {| l_dir := l_dir demo_env; l_os := λ k, if n <=? k then Some "No space left on device" else None; l_order := l_order demo_env;
     l_which := l_which demo_env; l_img := l_img demo_env; l_makes := l_makes demo_env; l_free := l_free demo_env;
     l_left := l_left demo_env; l_uuid := l_uuid demo_env; l_now := l_now demo_env; l_polls := l_polls demo_env |}.
Definition full_run (n : nat) := run (perform (full_env n)) (live (Some (NewBase, "base"))) (demo_world (demo_sim (calm 4 ++ [(Some true, Fine)]) [])).
Example journal_error_leaves_node :
  (full_run 18).2 = Err (OSErr "No space left on device")
  ∧ qv_nodes (view (full_run 18).1) !! "svmbn-00112233445566aa" = Some 7.
Proof. split; vm_compute; reflexivity. Qed.

(** ** Witnesses *)
Definition empty_world (s : sim) : world sim := {| w_qemu := s; w_dirs := ∅; w_tick := 0; w_inode := 7 |}.
Definition finishing : sim := demo_sim (calm 5 ++ [(Some true, Fine)]) [].
Lemma idle_ok s m : qview_ok (si_view (demo_sim s m)).
Proof. intros j b n i Hj. simpl in Hj. by rewrite lookup_empty in Hj. Qed.
Lemma no_file (w : world sim) s f : (∀ s fo, w_dirs w !! s = Some fo → fo_files fo = ∅) → file_at w s f = None.
Proof. intros H. unfold file_at. destruct (w_dirs w !! s) as [fo|] eqn:Hd; [|done]. simpl. by rewrite (H s fo Hd), lookup_empty. Qed.
Lemma demo_files s sid f : file_at (demo_world s) sid f = None.
Proof. apply no_file. intros t fo Ht. simpl in Ht. by apply lookup_singleton_Some in Ht as [_ <-]. Qed.
Lemma empty_files s sid f : file_at (empty_world s) sid f = None.
Proof. apply no_file. intros t fo Ht. simpl in Ht. by rewrite lookup_empty in Ht. Qed.
Lemma demo_names s m b (w : world sim) : w_qemu w = demo_sim s m → (∀ sid f, file_at w sid f = None) → new_names demo_env (demo_request b) w.
Proof.
  intros Hq Hf n. split; [done|]. split; [unfold view; by rewrite Hq|]. intros sid p e op (Hj & _). by rewrite Hf in Hj.
Qed.
Lemma demo_inv s m (w : world sim) : w_qemu w = demo_sim s m → (∀ sid f, file_at w sid f = None) → live_inv "/data/snapshots" "web" w.
Proof.
  intros Hq Hf. assert (∀ s f, image_at w s f = None) as Hm by (intros; unfold image_at; by rewrite Hf).
  split; [rewrite Hq; apply idle_ok|..].
  - intros t f i _. by rewrite Hm.
  - intros t p e (Hj & _). by rewrite Hf in Hj.
  - intros t f i. by rewrite Hm.
Qed.

(** A capture killed while its job runs, and the recovery that publishes it. *)
Definition killed : world sim := (step_on 20 (live (Some (NewBase, "base"))) (make_folder "snap-1" (empty_world finishing))).1.
Definition recovered : world sim := (step_on 100 (again []) killed).1.
Lemma published_images_whole_witness :
  image_at recovered "snap-1" "disk.qcow2" = Some 7 ∧ (7, Whole QEMU_ROOT_NODE_NAME) ∈ qv_holds (view recovered).
Proof.
  split; [vm_compute; reflexivity|].
  apply (published_images_whole "/data/snapshots" "web" (empty_world finishing) recovered "snap-1" 7).
  - split; [apply idle_ok|..]; [intros s p|intros s f i _|intros s f i]; unfold image_at; by rewrite empty_files.
  - apply (rtc_l _ _ killed).
    { apply (a_capture "/data/snapshots" "web" demo_env (demo_request (Some (NewBase, "base"))) 20 (empty_world finishing)); try done.
      apply (demo_names (calm 5 ++ [(Some true, Fine)]) []); [done|apply empty_files]. }
    apply rtc_once. exact (a_recovery "/data/snapshots" "web" demo_env "snap-2" [] (Some "/run/web.sock") 100 killed eq_refl).
  - vm_compute. reflexivity.
Defined.
Lemma live_capture_accounted_witness :
  let w := demo_world finishing in
  let w' := (step_on 20 (live (Some (NewBase, "base"))) w).1 in
  qv_nodes (view w') !! "svmbn-00112233445566aa" = Some 7 ∧ accounted (demo_request (Some (NewBase, "base"))) w w'.
Proof.
  cbv zeta. split; [vm_compute; reflexivity|].
  refine (proj1 (live_capture_accounted demo_env (demo_request (Some (NewBase, "base"))) 20 (demo_world finishing) _
    (step_on 20 (live (Some (NewBase, "base"))) (demo_world finishing)).2 _ _ _ _)).
  - eapply (demo_inv (calm 5 ++ [(Some true, Fine)]) []); [done|apply demo_files].
  - split; [by eexists|apply demo_files].
  - apply (demo_names (calm 5 ++ [(Some true, Fine)]) []); [done|apply demo_files].
  - apply surjective_pairing.
Defined.
(** The artifact of a recorded snapshot. *)
Lemma recovery_confined_witness :
  let w := taken_run.1 in
  let w' := (exec (perform demo_env) 100 (reconcile_live_backups (l_dir demo_env) "web" "snap-2" ["snap-1"] (Some "/run/web.sock")) w).1 in
  file_at w "snap-1" "disk.qcow2" = Some (Image 7) ∧ file_at w' "snap-1" "disk.qcow2" = file_at w "snap-1" "disk.qcow2".
Proof.
  cbv zeta. split; [vm_compute; reflexivity|].
  apply (recovery_confined demo_env "web" "snap-2" ["snap-1"] (Some "/run/web.sock") 100 taken_run.1 _
    (exec (perform demo_env) 100 (reconcile_live_backups (l_dir demo_env) "web" "snap-2" ["snap-1"] (Some "/run/web.sock")) taken_run.1).2).
  - intros j b n i Hj. vm_compute in Hj. destruct j; done.
  - apply surjective_pairing.
  - intros [_ [[Hj _]|(_ & Hp & _)]]; [done|]. apply Hp. by left.
Defined.
(** Killed between attaching the node and recording it. *)
Definition just_attached : world sim := (step_on 15 (live None) (demo_world (demo_sim [] []))).1.
Lemma recovery_detaches_witness :
  let w' := (run (perform demo_env) (reconcile_live_backups (l_dir demo_env) "web" "snap-2" [] (Some "/run/web.sock")) just_attached).1 in
  qv_nodes (view just_attached) !! "svmbn-00112233445566aa" = Some 7 ∧ qv_nodes (view w') !! "svmbn-00112233445566aa" = None.
Proof.
  cbv zeta. split; [vm_compute; reflexivity|].
  apply (recovery_detaches demo_env "web" "snap-2" [] (Some "/run/web.sock") just_attached).
  - intros j b n i Hj. vm_compute in Hj. destruct j; done.
  - vm_compute. done.
  - done.
  - vm_compute. reflexivity.
  - exists "00112233445566aa". done.
Defined.
