(* ===== verification/Nft.v ===== *)
(** * The part of nftables that host/network.py programs

    Commands as the program writes them, with their text; the rule set they
    act on, as documented for nft -f (a script is applied whole or not at all,
    adding what exists is no error, deleting what does not exist is); and what
    a rule set does to a packet: every base chain of the hook is asked, the
    first matching verdict of a chain ends that chain, a chain without one
    accepts, and one drop is final. *)
From S2P Require Import Prelude PyDict PyStr IpAddress IpNetwork.
From stdpp Require Import options.
From Stdlib Require Import Ascii.

(** ** Syntax *)
Inductive nft_family := fam_ip | fam_inet.
#[global] Instance nft_family_eq_dec : EqDecision nft_family.
Proof. solve_decision. Defined.
#[global] Instance nft_family_countable : Countable nft_family.
Proof.
  refine (inj_countable' (λ f, match f with fam_ip => true | fam_inet => false end)
            (λ b : bool, if b then fam_ip else fam_inet) _). by intros [].
Defined.

Inductive hook := prerouting | input | forward | output | postrouting.
#[global] Instance hook_eq_dec : EqDecision hook.
Proof. solve_decision. Defined.

Inductive ct_state := ct_new | ct_established | ct_related | ct_invalid.
#[global] Instance ct_state_eq_dec : EqDecision ct_state.
Proof. solve_decision. Defined.

(** Addresses are texts: an address, or a network with its prefix length. *)
Inductive nft_match :=
| iifname (pattern : string)
| oifname (pattern : string)
| iifname_in (set : string)
| ip_saddr (a : string)
| ip_daddr (a : string)
| ip_daddr_set (a : list string)
| ip_daddr_not_set (a : list string)
| nfproto_ipv6
| l4proto_tcp
| tcp_dport (port : Z)
| daddr_dport_in (set : string)
| ct_direction_reply
| ct_states (l : list ct_state).
Inductive nft_verdict :=
| v_accept | v_drop | masquerade
| snat_to (ip : string)
| dnat_to (target : string)
| dnat_to_map (map : string).
#[global] Instance nft_match_eq_dec : EqDecision nft_match.
Proof. solve_decision. Defined.
#[global] Instance nft_verdict_eq_dec : EqDecision nft_verdict.
Proof. solve_decision. Defined.

Record nft_rule := {
  r_matches : list nft_match;
  r_counter : bool;
  r_verdict : nft_verdict;
  r_comment : option string }.
#[global] Instance nft_rule_eq_dec : EqDecision nft_rule.
Proof. solve_decision. Defined.

Inductive nft_cmd :=
| add_table (f : nft_family) (t : string)
| flush_table (f : nft_family) (t : string)
| delete_table (f : nft_family) (t : string)
| add_chain (f : nft_family) (t c : string) (type : string) (h : hook) (priority : string)
| add_set (f : nft_family) (t s type : string)
| add_map (f : nft_family) (t s type : string)
| add_rule (f : nft_family) (t c : string) (r : nft_rule)
| delete_rule (f : nft_family) (t c : string) (handle : nat)
| add_element (f : nft_family) (t s e : string)
| add_map_element (f : nft_family) (t s k v : string)
| delete_element (f : nft_family) (t s e : string).

(** ** Text *)
Definition family_text (f : nft_family) : string := match f with fam_ip => "ip" | fam_inet => "inet" end.
Definition hook_text (h : hook) : string :=
  match h with
  | prerouting => "prerouting" | input => "input" | forward => "forward" | output => "output"
  | postrouting => "postrouting"
  end.
Definition ct_text (s : ct_state) : string :=
  match s with
  | ct_new => "new" | ct_established => "established" | ct_related => "related" | ct_invalid => "invalid"
  end.

(** [_quote] *)
Fixpoint escape (s : string) : string :=
  match s with
  | "" => ""
  | String c s' => if Ascii.eqb c backslash || Ascii.eqb c dquote then String backslash (String c (escape s'))
                   else String c (escape s')
  end.
Definition _quote (s : string) : string := String dquote (escape s +:+ String dquote "").

Definition match_text (m : nft_match) : string :=
  match m with
  | iifname p => "iifname " +:+ _quote p
  | oifname p => "oifname " +:+ _quote p
  | iifname_in s => "iifname @" +:+ s
  | ip_saddr a => "ip saddr " +:+ a
  | ip_daddr a => "ip daddr " +:+ a
  | ip_daddr_set l => "ip daddr { " +:+ str_join ", " l +:+ " }"
  | ip_daddr_not_set l => "ip daddr != { " +:+ str_join ", " l +:+ " }"
  | nfproto_ipv6 => "meta nfproto ipv6"
  | l4proto_tcp => "meta l4proto tcp"
  | tcp_dport p => "tcp dport " +:+ dec p
  | daddr_dport_in s => "ip daddr . tcp dport @" +:+ s
  | ct_direction_reply => "ct direction reply"
  | ct_states l => "ct state " +:+ str_join "," (map ct_text l)
  end.
Definition verdict_text (v : nft_verdict) : string :=
  match v with
  | v_accept => "accept" | v_drop => "drop" | masquerade => "masquerade"
  | snat_to ip => "snat to " +:+ ip
  | dnat_to t => "dnat to " +:+ t
  | dnat_to_map m => "dnat to tcp dport map @" +:+ m
  end.
Definition rule_text (r : nft_rule) : string :=
  str_join " " (map match_text (r_matches r) ++ (if r_counter r then ["counter"] else [])
                ++ [verdict_text (r_verdict r)]
                ++ match r_comment r with Some c => ["comment " +:+ _quote c] | None => [] end).
Definition cmd_text (c : nft_cmd) : string :=
  match c with
  | add_table f t => "add table " +:+ family_text f +:+ " " +:+ t
  | flush_table f t => "flush table " +:+ family_text f +:+ " " +:+ t
  | delete_table f t => "delete table " +:+ family_text f +:+ " " +:+ t
  | add_chain f t c type h p =>
      "add chain " +:+ family_text f +:+ " " +:+ t +:+ " " +:+ c +:+ " { type " +:+ type +:+ " hook "
      +:+ hook_text h +:+ " priority " +:+ p +:+ "; policy accept; }"
  | add_set f t s ty => "add set " +:+ family_text f +:+ " " +:+ t +:+ " " +:+ s +:+ " { type " +:+ ty +:+ " ; }"
  | add_map f t s ty => "add map " +:+ family_text f +:+ " " +:+ t +:+ " " +:+ s +:+ " { type " +:+ ty +:+ " ; }"
  | add_rule f t c r => "add rule " +:+ family_text f +:+ " " +:+ t +:+ " " +:+ c +:+ " " +:+ rule_text r
  | delete_rule f t c h =>
      "delete rule " +:+ family_text f +:+ " " +:+ t +:+ " " +:+ c +:+ " handle " +:+ dec (Z.of_nat h)
  | add_element f t s e => "add element " +:+ family_text f +:+ " " +:+ t +:+ " " +:+ s +:+ " { " +:+ e +:+ " }"
  | add_map_element f t s k v =>
      "add element " +:+ family_text f +:+ " " +:+ t +:+ " " +:+ s +:+ " { " +:+ k +:+ " : " +:+ v +:+ " }"
  | delete_element f t s e =>
      "delete element " +:+ family_text f +:+ " " +:+ t +:+ " " +:+ s +:+ " { " +:+ e +:+ " }"
  end.

(** ** Rule sets *)
Record nft_chain := { c_hook : hook; c_rules : list (nat * nft_rule) }.
Record nft_table := {
  t_chains : gmap string nft_chain;
  t_sets : gmap string (gset string);
  t_maps : gmap string (gmap string string) }.
Record ruleset := {
  rs_tables : gmap (nft_family * string) nft_table;
  rs_handle : nat }.

Definition empty_table : nft_table := {| t_chains := ∅; t_sets := ∅; t_maps := ∅ |}.
Definition t_set_chains f (t : nft_table) : nft_table :=
  {| t_chains := f (t_chains t); t_sets := t_sets t; t_maps := t_maps t |}.
Definition t_set_sets f (t : nft_table) : nft_table :=
  {| t_chains := t_chains t; t_sets := f (t_sets t); t_maps := t_maps t |}.
Definition t_set_maps f (t : nft_table) : nft_table :=
  {| t_chains := t_chains t; t_sets := t_sets t; t_maps := f (t_maps t) |}.
Definition rs_set k (t : nft_table) (R : ruleset) : ruleset :=
  {| rs_tables := <[k := t]> (rs_tables R); rs_handle := rs_handle R |}.

(** The addresses a text denotes. *)
Definition addr_net (a : string) : option net4 := IPv4Network false a.

Definition match_valid (t : nft_table) (m : nft_match) : bool :=
  match m with
  | ip_saddr a | ip_daddr a => is_some (addr_net a)
  | ip_daddr_set l | ip_daddr_not_set l => forallb (λ a, is_some (addr_net a)) l
  | iifname_in s | daddr_dport_in s => is_some (t_sets t !! s)
  | _ => true
  end.
Definition rule_valid (t : nft_table) (r : nft_rule) : bool :=
  forallb (match_valid t) (r_matches r)
  && match r_verdict r with dnat_to_map m => is_some (t_maps t !! m) | _ => true end.

Definition run_cmd (c : nft_cmd) (R : ruleset) : option ruleset :=
  match c with
  | add_table f t =>
      Some (match rs_tables R !! (f, t) with Some _ => R | None => rs_set (f, t) empty_table R end)
  | flush_table f t =>
      tbl ← rs_tables R !! (f, t);
      Some (rs_set (f, t) (t_set_chains (fmap (λ c, {| c_hook := c_hook c; c_rules := [] |})) tbl) R)
  | delete_table f t =>
      tbl ← rs_tables R !! (f, t);
      Some {| rs_tables := base.delete (f, t) (rs_tables R); rs_handle := rs_handle R |}
  | add_chain f t c _ h _ =>
      tbl ← rs_tables R !! (f, t);
      Some (match t_chains tbl !! c with
            | Some _ => R
            | None => rs_set (f, t) (t_set_chains <[c := {| c_hook := h; c_rules := [] |}]> tbl) R
            end)
  | add_set f t s _ =>
      tbl ← rs_tables R !! (f, t);
      Some (match t_sets tbl !! s with
            | Some _ => R
            | None => rs_set (f, t) (t_set_sets <[s := ∅]> tbl) R
            end)
  | add_map f t s _ =>
      tbl ← rs_tables R !! (f, t);
      Some (match t_maps tbl !! s with
            | Some _ => R
            | None => rs_set (f, t) (t_set_maps <[s := ∅]> tbl) R
            end)
  | add_rule f t c r =>
      tbl ← rs_tables R !! (f, t); ch ← t_chains tbl !! c;
      if rule_valid tbl r
      then Some {| rs_tables := <[(f, t) := t_set_chains <[c := {| c_hook := c_hook ch;
                     c_rules := c_rules ch ++ [(rs_handle R, r)] |}]> tbl]> (rs_tables R);
                   rs_handle := S (rs_handle R) |}
      else None
  | delete_rule f t c h =>
      tbl ← rs_tables R !! (f, t); ch ← t_chains tbl !! c;
      if bool_decide (h ∈ (c_rules ch).*1)
      then Some (rs_set (f, t) (t_set_chains <[c := {| c_hook := c_hook ch;
                   c_rules := filter (λ x, x.1 ≠ h) (c_rules ch) |}]> tbl) R)
      else None
  | add_element f t s e =>
      tbl ← rs_tables R !! (f, t); set ← t_sets tbl !! s;
      Some (rs_set (f, t) (t_set_sets <[s := {[e]} ∪ set]> tbl) R)
  | add_map_element f t s k v =>
      tbl ← rs_tables R !! (f, t); m ← t_maps tbl !! s;
      match m !! k with
      | Some v' => if String.eqb v v' then Some R else None
      | None => Some (rs_set (f, t) (t_set_maps <[s := <[k := v]> m]> tbl) R)
      end
  | delete_element f t s e =>
      tbl ← rs_tables R !! (f, t);
      match t_sets tbl !! s, t_maps tbl !! s with
      | Some set, _ =>
          if bool_decide (e ∈ set) then Some (rs_set (f, t) (t_set_sets <[s := set ∖ {[e]}]> tbl) R) else None
      | None, Some m =>
          if bool_decide (is_Some (m !! e))
          then Some (rs_set (f, t) (t_set_maps <[s := base.delete e m]> tbl) R) else None
      | None, None => None
      end
  end.

(** A script is one transaction. *)
Fixpoint run_script (l : list nft_cmd) (R : ruleset) : option ruleset :=
  match l with [] => Some R | c :: l' => R' ← run_cmd c R; run_script l' R' end.
Definition script_text (l : list nft_cmd) : string :=
  str_join (String (ascii_of_nat 10) "") (map cmd_text l) +:+ String (ascii_of_nat 10) "".

(** ** Packets *)
Record packet := {
  p_iif : string;
  p_oif : string;
  p_saddr : ip_addr;
  p_daddr : ip_addr;
  p_tcp : bool;
  p_dport : Z;
  p_ct : ct_state;
  p_reply : bool }.

(** An interface pattern may end in a star. *)
Definition ifname_matches (pattern name : string) : bool :=
  match last_char pattern with
  | Some c => if Ascii.eqb c "*"%char then startswith (String.substring 0 (String.length pattern - 1) pattern) name
              else String.eqb pattern name
  | None => String.eqb pattern name
  end.
Definition addr_in (a : string) (x : ip_addr) : bool :=
  match x, addr_net a with V4 n, Some net => net_has net n | _, _ => false end.
Definition is_v4 (x : ip_addr) : bool := match x with V4 _ => true | V6 _ _ => false end.
Definition in_set (t : nft_table) (s e : string) : bool :=
  match t_sets t !! s with Some set => bool_decide (e ∈ set) | None => false end.

Definition match_ok (t : nft_table) (p : packet) (m : nft_match) : bool :=
  match m with
  | iifname pat => ifname_matches pat (p_iif p)
  | oifname pat => ifname_matches pat (p_oif p)
  | iifname_in s => in_set t s (_quote (p_iif p))
  | ip_saddr a => addr_in a (p_saddr p)
  | ip_daddr a => addr_in a (p_daddr p)
  | ip_daddr_set l => existsb (λ a, addr_in a (p_daddr p)) l
  | ip_daddr_not_set l => is_v4 (p_daddr p) && negb (existsb (λ a, addr_in a (p_daddr p)) l)
  | nfproto_ipv6 => negb (is_v4 (p_daddr p))
  | l4proto_tcp => p_tcp p
  | tcp_dport port => p_tcp p && (p_dport p =? port)%Z
  | daddr_dport_in s =>
      p_tcp p && match p_daddr p with
                 | V4 n => in_set t s (addr_text n +:+ " . " +:+ dec (p_dport p))
                 | V6 _ _ => false
                 end
  | ct_direction_reply => p_reply p
  | ct_states l => bool_decide (p_ct p ∈ l)
  end.
Definition rule_ok (t : nft_table) (p : packet) (r : nft_rule) : bool :=
  forallb (match_ok t p) (r_matches r).

Fixpoint rules_accept (t : nft_table) (p : packet) (l : list nft_rule) : bool :=
  match l with
  | [] => true
  | r :: l' =>
      if rule_ok t p r then
        match r_verdict r with v_accept => true | v_drop => false | _ => rules_accept t p l' end
      else rules_accept t p l'
  end.
Definition chain_accepts (t : nft_table) (c : nft_chain) (p : packet) : bool :=
  rules_accept t p ((c_rules c).*2).

(** A table of family ip sees IPv4 packets only. *)
Definition family_sees (f : nft_family) (p : packet) : bool :=
  match f with fam_ip => is_v4 (p_daddr p) | fam_inet => true end.
Definition table_passes (h : hook) (p : packet) (f : nft_family) (t : nft_table) : bool :=
  negb (family_sees f p)
  || forallb (λ c, negb (bool_decide (c_hook c.2 = h)) || chain_accepts t c.2 p) (map_to_list (t_chains t)).
Definition passes (h : hook) (p : packet) (R : ruleset) : bool :=
  forallb (λ kt, table_passes h p kt.1.1 kt.2) (map_to_list (rs_tables R)).
