(* ===== verification/NftListing.v ===== *)
(** * Reading nft's listings: the parsers of host/network.py

    [_extract_table_comments], [_extract_table_rule_handles] and
    [_check_local_port_ownership] work on the text that nft prints.  Their
    regular expressions are written out as matchers; each is deterministic,
    since what may follow a repeated class is never a member of it. *)
From S2P Require Import Prelude PyDict PyStr Env.
From stdpp Require Import options.
From Stdlib Require Import Ascii.

(** ** Matchers *)
(** The longest prefix of characters in a class, and the rest. *)
Fixpoint run_of (p : ascii → bool) (s : string) : string * string :=
  match s with
  | String c s' => if p c then let '(a, r) := run_of p s' in (String c a, r) else ("", s)
  | "" => ("", "")
  end.
Definition drop_prefix (pre s : string) : option string :=
  if startswith pre s then Some (String.substring (String.length pre) (String.length s) s) else None.
(** The first place where [m] matches. *)
Fixpoint search {A} (m : string → option A) (s : string) : option A :=
  match m s with
  | Some a => Some a
  | None => match s with String _ s' => search m s' | "" => None end
  end.
(** The last one. *)
Fixpoint search_last {A} (m : string → option A) (s : string) : option A :=
  match s with
  | String _ s' => match search_last m s' with Some a => Some a | None => m s end
  | "" => m s
  end.
(** The first place after a word boundary; [prev] tells whether the character
    before is a word character. *)
Fixpoint search_word {A} (m : string → option A) (prev : bool) (s : string) : option A :=
  match (if prev then None else m s) with
  | Some a => Some a
  | None => match s with String c s' => search_word m (is_word c) s' | "" => None end
  end.
Definition starts_word (s : string) : bool := match s with String c _ => is_word c | "" => false end.

(** [^chain\s+(?P<chain>[^\s{]+)\s*\{] *)
Definition _NFT_CHAIN_RE (s : string) : option string :=
  rest ← drop_prefix "chain" s;
  let '(spaces, r1) := run_of is_space rest in
  let '(name, r2) := run_of (λ c, negb (is_space c) && negb (Ascii.eqb c "{"%char)) r1 in
  let '(_, r3) := run_of is_space r2 in
  if negb (String.eqb spaces "") && negb (String.eqb name "") && startswith "{" r3 then Some name else None.
(** The word comment and a quoted text that is not empty, with what follows. *)
Definition comment_open : string := "comment " +:+ String dquote "".
Definition comment_at (s : string) : option (string * string) :=
  rest ← drop_prefix comment_open s;
  match run_of (λ c, negb (Ascii.eqb c dquote)) rest with
  | (c, String _ r) => if String.eqb c "" then None else Some (c, r)
  | (_, "") => None
  end.
Definition _NFT_RULE_COMMENT_RE (s : string) : option string := fst <$> search comment_at s.
(** The same, followed somewhere by [# handle (?P<handle>\d+)]; the last such
    place counts. *)
Definition handle_at (s : string) : option string :=
  rest ← drop_prefix "# handle " s;
  let digits := (run_of is_digit rest).1 in if String.eqb digits "" then None else Some digits.
Definition _NFT_RULE_HANDLE_RE : string → option (string * string) :=
  search (λ s, '(c, r) ← comment_at s; h ← search_last handle_at r; Some (c, h)).

(** ** The loops over the lines of a table *)
Fixpoint table_loop {A} (rule : string → option A) (current_chain : option string) (lines : list string)
    : list (string * A) :=
  match lines with
  | [] => []
  | line :: lines' =>
      let stripped := strip line in
      match _NFT_CHAIN_RE stripped with
      | Some chain => table_loop rule (Some chain) lines'
      | None =>
          if String.eqb stripped "}" then table_loop rule None lines'
          else match current_chain with
               | None => table_loop rule None lines'
               | Some chain =>
                   match rule stripped with
                   | Some a => (chain, a) :: table_loop rule current_chain lines'
                   | None => table_loop rule current_chain lines'
                   end
               end
      end
  end.
Definition _extract_table_comments (output : string) : list (string * string) :=
  table_loop _NFT_RULE_COMMENT_RE None (splitlines output).
Definition _extract_table_rule_handles (output : string) : list (string * (string * string)) :=
  table_loop _NFT_RULE_HANDLE_RE None (splitlines output).

(** ** Who forwards a local port *)
(** [\btcp dport {port}\b] *)
Definition dport_at (port : Z) (s : string) : option unit :=
  rest ← drop_prefix ("tcp dport " +:+ dec port) s; if starts_word rest then None else Some tt.
(** [\bdnat to ([0-9.:]+)] *)
Definition dnat_at (s : string) : option string :=
  rest ← drop_prefix "dnat to " s;
  let target := (run_of (λ c, is_digit c || Ascii.eqb c "."%char || Ascii.eqb c ":"%char) rest).1 in
  if String.eqb target "" then None else Some target.
(** [(.*?)\n\s*\}]: up to the first line that closes *)
Definition closes_at (s : string) : bool :=
  match s with
  | String c s' => Ascii.eqb c newline && startswith "}" (run_of is_space s').2
  | "" => false
  end.
Fixpoint map_body (s : string) : option string :=
  if closes_at s then Some ""
  else match s with String c s' => String c <$> map_body s' | "" => None end.
(** [\bmap dnat_local\s*\{(.*?)\n\s*\}] *)
Definition ssh_map_at (s : string) : option string :=
  rest ← drop_prefix "map dnat_local" s;
  match (run_of is_space rest).2 with
  | String c body => if Ascii.eqb c "{"%char then map_body body else None
  | "" => None
  end.
(** [\b{port}\s*:] *)
Definition port_key_at (port : Z) (s : string) : option unit :=
  rest ← drop_prefix (dec port) s;
  if startswith ":" (run_of is_space rest).2 then Some tt else None.

Section ownership.
Context (vm_id : string) (host_port : Z) (guest_ip : string) (guest_port : Z).

Definition local_comment : string := "celesto:" +:+ vm_id +:+ ":local:" +:+ dec host_port +:+ ":" +:+ dec guest_port.
Definition local_target : string := guest_ip +:+ ":" +:+ dec guest_port.

(** Whether a line of the output chain forwards the port to somebody else. *)
Definition foreign_forward (line : string) : bool :=
  match search_word (dport_at host_port) false line with
  | None => false
  | Some _ =>
      match search_word dnat_at false line with
      | None => false
      | Some destination =>
          negb (bool_decide (_NFT_RULE_COMMENT_RE line = Some local_comment) && String.eqb destination local_target)
      end
  end.
Fixpoint ownership_loop (in_output : bool) (lines : list string) : outcome unit :=
  match lines with
  | [] => Ret tt
  | line :: lines' =>
      let stripped := strip line in
      let in_output := match _NFT_CHAIN_RE stripped with
                       | Some chain => String.eqb chain "output"
                       | None => if String.eqb stripped "}" then false else in_output
                       end in
      if in_output && foreign_forward line then
        Raise (NetworkError ("Localhost port " +:+ dec host_port
          +:+ " already forwards to another application; choose a different host port with 'celesto computer port expose "
          +:+ vm_id +:+ " " +:+ dec guest_port +:+ "'."))
      else ownership_loop in_output lines'
  end.
Definition _check_local_port_ownership (output : string) : outcome unit :=
  _ ← ownership_loop false (splitlines output);
  match search_word ssh_map_at false output with
  | Some body =>
      guard_raise (is_some (search_word (port_key_at host_port) false body))
        (NetworkError ("Localhost port " +:+ dec host_port
           +:+ " is reserved for a computer connection; choose a different host port with 'celesto computer port expose "
           +:+ vm_id +:+ " " +:+ dec guest_port +:+ "'."))
  | None => Ret tt
  end.
End ownership.
