(* ===== verification/HostNetwork.v ===== *)
(** * host/network.py: the firewall of a host

    [NetworkManager] as a program over the rule set of Nft.v.  Every command
    it runs may fail ([n_fails]); a failed script leaves the rule set as it
    was.  How nft prints a table is the environment's ([n_listing]); the program
    reads comments, handles and port owners back from that text with the
    parsers of NftListing.v. *)
From S2P Require Import Prelude PyHoare PyDict PyStr IpAddress IpNetwork Nft NftListing.
From stdpp Require Import options.
From Stdlib Require Import Ascii.

Definition _NFT_NAT_FAMILY : nft_family := fam_ip.
Definition _NFT_NAT_TABLE : string := "celesto_nat".
Definition _NFT_FILTER_FAMILY : nft_family := fam_inet.
Definition _NFT_FILTER_TABLE : string := "celesto_filter".
Definition _NFT_MAP_DNAT_EXT : string := "dnat_ext".
Definition _NFT_MAP_DNAT_LOCAL : string := "dnat_local".
Definition _NFT_SET_SNAT_RETURN : string := "snat_return".
Definition _NFT_SET_FWD_ALLOW : string := "fwd_allow".
Definition _NFT_SET_ALLOWED_TAPS : string := "allowed_taps".

(** The flags of nft list: none, [-a] or [-nn]. *)
Inductive list_mode := list_plain | list_handles | list_numeric.

(** What the host answers: whether the n-th command fails, the text of a table
    that nft lists, the outbound interface, and whether a sysctl could be
    written. *)
Record netenv := {
  n_fails : nat → bool;
  n_listing : list_mode → nft_family → string → nft_table → string;
  n_detect : outcome string;
  n_sysctl : nat → bool;
  n_host_ip : string }.

Record nm := {
  nm_rules : ruleset;
  nm_calls : nat;
  nm_outbound : option string;
  nm_base_ready : bool;
  nm_map_rules_ready : bool;
  nm_forwarding : bool }.

Definition nm_set_rules x (s : nm) : nm :=
  {| nm_rules := x; nm_calls := nm_calls s; nm_outbound := nm_outbound s; nm_base_ready := nm_base_ready s;
     nm_map_rules_ready := nm_map_rules_ready s; nm_forwarding := nm_forwarding s |}.
Definition nm_set_calls x (s : nm) : nm :=
  {| nm_rules := nm_rules s; nm_calls := x; nm_outbound := nm_outbound s; nm_base_ready := nm_base_ready s;
     nm_map_rules_ready := nm_map_rules_ready s; nm_forwarding := nm_forwarding s |}.
Definition nm_set_outbound x (s : nm) : nm :=
  {| nm_rules := nm_rules s; nm_calls := nm_calls s; nm_outbound := x; nm_base_ready := nm_base_ready s;
     nm_map_rules_ready := nm_map_rules_ready s; nm_forwarding := nm_forwarding s |}.
Definition nm_set_base x (s : nm) : nm :=
  {| nm_rules := nm_rules s; nm_calls := nm_calls s; nm_outbound := nm_outbound s; nm_base_ready := x;
     nm_map_rules_ready := nm_map_rules_ready s; nm_forwarding := nm_forwarding s |}.
Definition nm_set_map_rules x (s : nm) : nm :=
  {| nm_rules := nm_rules s; nm_calls := nm_calls s; nm_outbound := nm_outbound s; nm_base_ready := nm_base_ready s;
     nm_map_rules_ready := x; nm_forwarding := nm_forwarding s |}.
Definition nm_set_forwarding x (s : nm) : nm :=
  {| nm_rules := nm_rules s; nm_calls := nm_calls s; nm_outbound := nm_outbound s; nm_base_ready := nm_base_ready s;
     nm_map_rules_ready := nm_map_rules_ready s; nm_forwarding := x |}.

(** ** Pieces of scripts *)
Definition rule (ms : list nft_match) (v : nft_verdict) : nft_rule :=
  {| r_matches := ms; r_counter := true; r_verdict := v; r_comment := None |}.
Definition commented (c : string) (r : nft_rule) : nft_rule :=
  {| r_matches := r_matches r; r_counter := r_counter r; r_verdict := r_verdict r; r_comment := Some c |}.
Definition uncounted (r : nft_rule) : nft_rule :=
  {| r_matches := r_matches r; r_counter := false; r_verdict := r_verdict r; r_comment := r_comment r |}.

(** [re.fullmatch(r"tap[0-9]+", tap_device)]; a name that ends in a newline
    does not match. *)
Definition is_policy_tap (tap_device : string) : bool :=
  startswith "tap" tap_device
  && let digits := String.substring 3 (String.length tap_device) tap_device in
     negb (String.eqb digits "") && str_all is_digit digits.
Definition _policy_table (tap_device : string) : outcome string :=
  if is_policy_tap tap_device then Ret ("celesto_policy_" +:+ tap_device)
  else Raise (ValueError "Network policy requires a managed NAT interface.").

(** [str(IPv4Address(s))] *)
Definition ipv4_text (s : string) : outcome string :=
  match parse_v4 s with Some n => Ret (addr_text n) | None => Raise (ValueError "not an IPv4 address") end.
(** [IPv4Network(ip) for ip in allowed_ips] *)
Fixpoint parse_networks (l : list string) : outcome (list net4) :=
  match l with
  | [] => Ret []
  | a :: l' => match IPv4Network true a with
               | Some x => xs ← parse_networks l'; Ret (x :: xs)
               | None => Raise (ValueError "not an IPv4 network")
               end
  end.

Definition policy_chains (table : string) : list nft_cmd :=
  [add_table fam_inet table; flush_table fam_inet table;
   add_chain fam_inet table "forward" "filter" forward "-10";
   add_chain fam_inet table "input" "filter" input "-10"].
(** Adding first makes the removal succeed when the element is absent. *)
Definition forget_allowed_tap (tap : string) : list nft_cmd :=
  [add_element fam_inet _NFT_FILTER_TABLE _NFT_SET_ALLOWED_TAPS (_quote tap);
   delete_element fam_inet _NFT_FILTER_TABLE _NFT_SET_ALLOWED_TAPS (_quote tap)].
Definition reply_rule (tap guest : string) : nft_rule :=
  rule [iifname tap; ip_saddr guest; l4proto_tcp; ct_direction_reply; ct_states [ct_established]] v_accept.

Definition open_rules (table tap : string) : list nft_cmd :=
  [add_rule fam_inet table "forward" (rule [iifname tap; oifname "tap*"] v_drop);
   add_rule fam_inet table "forward" (rule [iifname tap; ip_daddr "169.254.0.0/16"] v_drop);
   add_rule fam_inet table "input" (rule [iifname tap; ip_daddr "169.254.0.0/16"] v_drop)].
Definition restricted_rules (table tap : string) (reply_address : option string) (destinations : list string)
    : list nft_cmd :=
  (match reply_address with Some g => [add_rule fam_inet table "input" (reply_rule tap g)] | None => [] end)
  ++ [add_rule fam_inet table "input" (rule [iifname tap] v_drop);
      add_rule fam_inet table "forward" (rule [iifname tap; nfproto_ipv6] v_drop)]
  ++ (match destinations with
      | [] => []
      | _ => [add_rule fam_inet table "forward" (rule [iifname tap; ip_daddr_set destinations] v_accept)]
      end)
  ++ [add_rule fam_inet table "forward" (rule [iifname tap] v_drop)].

Definition _network_policy_script (tap_device : string) (allowed_ips : option (list string))
    (guest_ip : option string) : outcome (list nft_cmd) :=
  table ← _policy_table tap_device;
  reply_address ← match guest_ip with Some g => t ← ipv4_text g; Ret (Some t) | None => Ret None end;
  destinations ← match allowed_ips with
                 | None => Ret None
                 | Some l => nets ← parse_networks l; Ret (Some (net_text <$> collapse_addresses nets))
                 end;
  Ret (policy_chains table ++ open_rules table tap_device
       ++ match destinations with
          | Some ds => restricted_rules table tap_device reply_address ds ++ forget_allowed_tap tap_device
          | None => []
          end).

Definition _public_proxy_policy_script (tap_device guest_ip proxy_host_ip : string) (proxy_port : Z)
    : outcome (list nft_cmd) :=
  table ← _policy_table tap_device;
  guest ← ipv4_text guest_ip;
  proxy ← ipv4_text proxy_host_ip;
  _ ← guard_raise (negb ((1 <=? proxy_port)%Z && (proxy_port <=? 65535)%Z))
        (ValueError "proxy_port must be between 1 and 65535");
  Ret (policy_chains table
       ++ [add_rule fam_inet table "input" (reply_rule tap_device guest);
           add_rule fam_inet table "input"
             (rule [iifname tap_device; ip_saddr guest; ip_daddr proxy; tcp_dport proxy_port;
                    ct_states [ct_new; ct_established]] v_accept);
           add_rule fam_inet table "input" (rule [iifname tap_device] v_drop);
           add_rule fam_inet table "forward" (rule [iifname tap_device] v_drop)]
       ++ forget_allowed_tap tap_device).

Definition _egress_rule_lines (tap_device : string) (allowed_ips : list string) : list nft_cmd :=
  let add part r := add_rule _NFT_FILTER_FAMILY _NFT_FILTER_TABLE "forward"
                      (commented ("celesto:egress:" +:+ tap_device +:+ ":" +:+ part) r) in
  [add "drop6" (rule [iifname tap_device; nfproto_ipv6] v_drop);
   add "established" (rule [iifname tap_device; ct_states [ct_established; ct_related]] v_accept)]
  ++ match allowed_ips with
     | [] => [add "drop" (rule [iifname tap_device] v_drop)]
     | _ => [add "allow" (rule [iifname tap_device; ip_daddr_set allowed_ips] v_accept);
             add "drop" (rule [iifname tap_device; ip_daddr_not_set allowed_ips] v_drop)]
     end.

Section network.
Context (E : netenv).
Local Abbreviation M := (py nm).

(** ** Commands *)
Definition nm_tick : M nat := λ s, (nm_set_calls (S (nm_calls s)) s, Ret (nm_calls s)).
Definition command_failed {A} : M A := py_raise (CelestoError "Command failed").

Definition _run_nft_script (l : list nft_cmd) : M unit :=
  let! n := nm_tick in
  let! s := py_get in
  match (if n_fails E n then None else run_script l (nm_rules s)) with
  | Some R => py_modify (nm_set_rules R)
  | None => command_failed
  end.
Definition _nft_table_exists (f : nft_family) (t : string) : M bool :=
  let! n := nm_tick in
  let! s := py_get in
  py_return (negb (n_fails E n) && is_some (rs_tables (nm_rules s) !! (f, t))).
Definition _nft_chain_exists (f : nft_family) (t c : string) : M bool :=
  let! n := nm_tick in
  let! s := py_get in
  py_return (negb (n_fails E n) && is_some (rs_tables (nm_rules s) !! (f, t) ≫= λ tbl, t_chains tbl !! c)).
(** [nft list table]: fails when the table is not there. *)
Definition nft_list (mode : list_mode) (f : nft_family) (t : string) : M string :=
  let! n := nm_tick in
  let! s := py_get in
  match (if n_fails E n then None else rs_tables (nm_rules s) !! (f, t)) with
  | Some tbl => py_return (n_listing E mode f t tbl)
  | None => command_failed
  end.
Definition _nft_list_table (f : nft_family) (t : string) (handles : bool) : M string :=
  py_try (nft_list (if handles then list_handles else list_plain) f t)
    (λ e, match e with CelestoError _ => py_return "" | _ => py_raise e end).

(** ** Base tables *)
Definition nat_chain (c : string) (h : hook) (priority : string) : nft_cmd :=
  add_chain _NFT_NAT_FAMILY _NFT_NAT_TABLE c "nat" h priority.
Definition filter_chain : nft_cmd :=
  add_chain _NFT_FILTER_FAMILY _NFT_FILTER_TABLE "forward" "filter" forward "filter".
Definition missing_chain (f : nft_family) (t c : string) (add : nft_cmd) : M (list nft_cmd) :=
  let! there := _nft_chain_exists f t c in
  py_return (if (there : bool) then [] else [add]).

Definition _ensure_nftables_base : M unit :=
  let! s := py_get in
  if nm_base_ready s then py_return tt
  else
    let! nat_exists := _nft_table_exists _NFT_NAT_FAMILY _NFT_NAT_TABLE in
    let! nat_lines :=
      (if negb nat_exists then
         py_return [add_table _NFT_NAT_FAMILY _NFT_NAT_TABLE; nat_chain "prerouting" prerouting "dstnat";
                    nat_chain "output" output "-100"; nat_chain "postrouting" postrouting "srcnat"]
       else
         let! a := missing_chain _NFT_NAT_FAMILY _NFT_NAT_TABLE "prerouting" (nat_chain "prerouting" prerouting "dstnat") in
         let! b := missing_chain _NFT_NAT_FAMILY _NFT_NAT_TABLE "output" (nat_chain "output" output "-100") in
         let! c := missing_chain _NFT_NAT_FAMILY _NFT_NAT_TABLE "postrouting" (nat_chain "postrouting" postrouting "srcnat") in
         py_return (a ++ b ++ c)) in
    let! filter_exists := _nft_table_exists _NFT_FILTER_FAMILY _NFT_FILTER_TABLE in
    let! filter_lines :=
      (if negb filter_exists then py_return [add_table _NFT_FILTER_FAMILY _NFT_FILTER_TABLE; filter_chain]
       else missing_chain _NFT_FILTER_FAMILY _NFT_FILTER_TABLE "forward" filter_chain) in
    do! _run_nft_script
      (nat_lines ++ filter_lines
       ++ [add_map _NFT_NAT_FAMILY _NFT_NAT_TABLE _NFT_MAP_DNAT_EXT "inet_service : ipv4_addr . inet_service";
           add_map _NFT_NAT_FAMILY _NFT_NAT_TABLE _NFT_MAP_DNAT_LOCAL "inet_service : ipv4_addr . inet_service";
           add_set _NFT_NAT_FAMILY _NFT_NAT_TABLE _NFT_SET_SNAT_RETURN "ipv4_addr . inet_service";
           add_set _NFT_FILTER_FAMILY _NFT_FILTER_TABLE _NFT_SET_FWD_ALLOW "ipv4_addr . inet_service";
           add_set _NFT_FILTER_FAMILY _NFT_FILTER_TABLE _NFT_SET_ALLOWED_TAPS "ifname"]) in
    py_modify (nm_set_base true).

(** ** Adding and deleting rules *)
Definition rule_spec : Type := nft_family * string * string * nft_rule * string.

Fixpoint missing_rules (rules : list rule_spec) (cache : dict (nft_family * string) (list (string * string)))
    : M (list nft_cmd) :=
  match rules with
  | [] => py_return []
  | (f, t, c, r, comment) :: rules' =>
      let! known := match dget (f, t) cache with
                    | Some l => py_return l
                    | None => let! table_output := _nft_list_table f t false in
                              py_return (_extract_table_comments table_output)
                    end in
      if bool_decide ((c, comment) ∈ known) then missing_rules rules' (dset (f, t) known cache)
      else let! more := missing_rules rules' (dset (f, t) ((c, comment) :: known) cache) in
           py_return (add_rule f t c (commented comment r) :: more)
  end.
Definition _add_nft_rules_if_missing (rules : list rule_spec) : M unit :=
  let! lines := missing_rules rules [] in
  match lines with [] => py_return tt | _ => _run_nft_script lines end.

Definition comment_selected (comment comment_prefix : option string) (rule_comment : string) : bool :=
  match comment with Some c => String.eqb rule_comment c | None => true end
  && match comment_prefix with Some p => startswith p rule_comment | None => true end.
(** A handle is a text of digits. *)
Definition handle_number (h : string) : nat := Z.to_nat (default 0%Z (parse_dec h)).
Definition _find_nft_delete_rule_lines (f : nft_family) (t : string) (comment comment_prefix : option string)
    : M (list nft_cmd) :=
  if negb (is_some comment) && negb (is_some comment_prefix) then
    py_raise (ValueError "comment or comment_prefix must be provided")
  else
    let! table_output := _nft_list_table f t true in
    if String.eqb table_output "" then py_return []
    else py_return (omap (λ '(c, (k, h)), if comment_selected comment comment_prefix k
                                           then Some (delete_rule f t c (handle_number h)) else None)
                      (_extract_table_rule_handles table_output)).
Definition _delete_nft_rules (f : nft_family) (t : string) (comment comment_prefix : option string) : M unit :=
  let! lines := _find_nft_delete_rule_lines f t comment comment_prefix in
  match lines with [] => py_return tt | _ => _run_nft_script lines end.
Definition _delete_nft_elements_best_effort (lines : list nft_cmd) : M unit :=
  py_for lines (λ c, py_try (_run_nft_script [c])
                       (λ e, match e with CelestoError _ => py_return tt | _ => py_raise e end)).

(** ** Interfaces and forwarding *)
Definition outbound_interface : M string :=
  let! s := py_get in
  match nm_outbound s with
  | Some i => py_return i
  | None => let! i := py_lift (n_detect E) in
            do! py_modify (nm_set_outbound (Some i)) in
            py_return i
  end.
Definition enable_ip_forwarding : M unit :=
  let! s := py_get in
  if nm_forwarding s then py_return tt
  else let! n := nm_tick in
       py_when (n_sysctl E n) (py_modify (nm_set_forwarding true)).

Definition _ensure_map_rules (iface : string) : M unit :=
  let! s := py_get in
  if nm_map_rules_ready s then py_return tt
  else
    do! _add_nft_rules_if_missing
      [(_NFT_NAT_FAMILY, _NFT_NAT_TABLE, "prerouting",
        uncounted (rule [iifname iface] (dnat_to_map _NFT_MAP_DNAT_EXT)), "celesto:map:prerouting:dnat_ext");
       (_NFT_NAT_FAMILY, _NFT_NAT_TABLE, "output",
        uncounted (rule [ip_daddr "127.0.0.1/32"] (dnat_to_map _NFT_MAP_DNAT_LOCAL)), "celesto:map:output:dnat_local");
       (_NFT_NAT_FAMILY, _NFT_NAT_TABLE, "postrouting",
        rule [ip_saddr "127.0.0.0/8"; daddr_dport_in _NFT_SET_SNAT_RETURN] (snat_to (n_host_ip E)),
        "celesto:map:postrouting:snat_return");
       (_NFT_FILTER_FAMILY, _NFT_FILTER_TABLE, "forward",
        rule [daddr_dport_in _NFT_SET_FWD_ALLOW; ct_states [ct_new; ct_related; ct_established]] v_accept,
        "celesto:map:forward:fwd_allow");
       (_NFT_FILTER_FAMILY, _NFT_FILTER_TABLE, "forward",
        rule [iifname_in _NFT_SET_ALLOWED_TAPS; oifname iface] v_accept, "celesto:map:forward:allowed_taps")] in
    py_modify (nm_set_map_rules true).

(** ** NAT and port forwards *)
Definition nonempty (s msg : string) : M unit := py_lift (guard_raise (String.eqb s "") (ValueError msg)).
Definition check_port (port : Z) (msg : string) : M unit :=
  py_lift (guard_raise ((port <? 1)%Z || (65535 <? port)%Z) (ValueError msg)).
Definition check_forward (vm_id guest_ip : string) (host_port guest_port : Z) : M unit :=
  do! nonempty vm_id "vm_id cannot be empty" in
  do! nonempty guest_ip "guest_ip cannot be empty" in
  do! check_port host_port "host_port must be 1-65535" in
  check_port guest_port "guest_port must be 1-65535".

Definition setup_nat (tap_name : string) (allow_outbound : bool) : M unit :=
  do! nonempty tap_name "tap_name cannot be empty" in
  do! enable_ip_forwarding in
  do! _ensure_nftables_base in
  let! iface := outbound_interface in
  do! _ensure_map_rules iface in
  do! _add_nft_rules_if_missing
    [(_NFT_NAT_FAMILY, _NFT_NAT_TABLE, "postrouting", rule [oifname iface] masquerade,
      "celesto:global:nat:masquerade:" +:+ iface);
     (_NFT_FILTER_FAMILY, _NFT_FILTER_TABLE, "forward", rule [ct_states [ct_related; ct_established]] v_accept,
      "celesto:global:forward:established");
     (_NFT_FILTER_FAMILY, _NFT_FILTER_TABLE, "forward", rule [iifname "tap*"; oifname "tap*"] v_drop,
      "celesto:global:forward:tap-isolation")] in
  py_when allow_outbound
    (_run_nft_script [add_element _NFT_FILTER_FAMILY _NFT_FILTER_TABLE _NFT_SET_ALLOWED_TAPS (_quote tap_name)]).

Definition forward_target (guest_ip : string) (guest_port : Z) : string := guest_ip +:+ " . " +:+ dec guest_port.

Definition setup_ssh_port_forward (vm_id guest_ip : string) (host_port guest_port : Z) : M unit :=
  do! check_forward vm_id guest_ip host_port guest_port in
  do! enable_ip_forwarding in
  do! _ensure_nftables_base in
  let! iface := outbound_interface in
  do! _ensure_map_rules iface in
  let target := forward_target guest_ip guest_port in
  _run_nft_script
    [add_map_element _NFT_NAT_FAMILY _NFT_NAT_TABLE _NFT_MAP_DNAT_EXT (dec host_port) target;
     add_map_element _NFT_NAT_FAMILY _NFT_NAT_TABLE _NFT_MAP_DNAT_LOCAL (dec host_port) target;
     add_element _NFT_NAT_FAMILY _NFT_NAT_TABLE _NFT_SET_SNAT_RETURN target;
     add_element _NFT_FILTER_FAMILY _NFT_FILTER_TABLE _NFT_SET_FWD_ALLOW target].

Definition cleanup_ssh_port_forward (vm_id guest_ip : string) (host_port guest_port : Z) : M unit :=
  do! check_forward vm_id guest_ip host_port guest_port in
  let target := forward_target guest_ip guest_port in
  do! _delete_nft_elements_best_effort
    [delete_element _NFT_NAT_FAMILY _NFT_NAT_TABLE _NFT_MAP_DNAT_EXT (dec host_port);
     delete_element _NFT_NAT_FAMILY _NFT_NAT_TABLE _NFT_MAP_DNAT_LOCAL (dec host_port);
     delete_element _NFT_NAT_FAMILY _NFT_NAT_TABLE _NFT_SET_SNAT_RETURN target;
     delete_element _NFT_FILTER_FAMILY _NFT_FILTER_TABLE _NFT_SET_FWD_ALLOW target] in
  let comment := "celesto:" +:+ vm_id +:+ ":ssh" in
  do! _delete_nft_rules _NFT_NAT_FAMILY _NFT_NAT_TABLE (Some comment) None in
  _delete_nft_rules _NFT_FILTER_FAMILY _NFT_FILTER_TABLE (Some comment) None.

Definition cleanup_nat_rules (tap_name : string) : M unit :=
  do! nonempty tap_name "tap_name cannot be empty" in
  do! _delete_nft_elements_best_effort
    [delete_element _NFT_FILTER_FAMILY _NFT_FILTER_TABLE _NFT_SET_ALLOWED_TAPS (_quote tap_name)] in
  let! iface := outbound_interface in
  _delete_nft_rules _NFT_FILTER_FAMILY _NFT_FILTER_TABLE
    (Some ("celesto:nat:tap:" +:+ tap_name +:+ ":to:" +:+ iface)) None.

(** ** Policies *)
Definition apply_network_policy (tap_device : string) (allowed_ips : option (list string)) (guest_ip : option string)
    : M unit :=
  let! script := py_lift (_network_policy_script tap_device allowed_ips guest_ip) in
  do! _ensure_nftables_base in
  _run_nft_script script.

Definition apply_public_proxy_policy (tap_device guest_ip proxy_host_ip : string) (proxy_port : Z) : M unit :=
  let! script := py_lift (_public_proxy_policy_script tap_device guest_ip proxy_host_ip proxy_port) in
  do! _ensure_nftables_base in
  _run_nft_script script.

Definition remove_network_policy (tap_device : string) : M unit :=
  let! table := py_lift (_policy_table tap_device) in
  _run_nft_script [add_table fam_inet table; delete_table fam_inet table].

(** ** Egress allowlists *)
Definition apply_egress_allowlist (tap_device : string) (allowed_ips : list string) : M unit :=
  do! nonempty tap_device "tap_device cannot be empty" in
  do! _ensure_nftables_base in
  let! iface := outbound_interface in
  let! old_egress := _find_nft_delete_rule_lines _NFT_FILTER_FAMILY _NFT_FILTER_TABLE None
                       (Some ("celesto:egress:" +:+ tap_device +:+ ":")) in
  let! old_nat_accept := _find_nft_delete_rule_lines _NFT_FILTER_FAMILY _NFT_FILTER_TABLE
                           (Some ("celesto:nat:tap:" +:+ tap_device +:+ ":to:" +:+ iface)) None in
  do! _run_nft_script (_egress_rule_lines tap_device allowed_ips ++ old_egress ++ old_nat_accept) in
  _delete_nft_elements_best_effort
    [delete_element _NFT_FILTER_FAMILY _NFT_FILTER_TABLE _NFT_SET_ALLOWED_TAPS (_quote tap_device)].

Definition remove_egress_rules (tap_device : string) : M unit :=
  do! nonempty tap_device "tap_device cannot be empty" in
  _delete_nft_rules _NFT_FILTER_FAMILY _NFT_FILTER_TABLE None (Some ("celesto:egress:" +:+ tap_device +:+ ":")).

(** ** Local port forwards *)
Definition setup_local_port_forward (vm_id guest_ip : string) (host_port guest_port : Z) : M unit :=
  do! check_forward vm_id guest_ip host_port guest_port in
  do! enable_ip_forwarding in
  do! _ensure_nftables_base in
  let comment := local_comment vm_id host_port guest_port in
  let target := local_target guest_ip guest_port in
  let! listing := py_try (nft_list list_numeric _NFT_NAT_FAMILY _NFT_NAT_TABLE)
    (λ e, match e with
          | CelestoError _ =>
              py_raise (NetworkError ("Cannot check existing port forwards; retry with 'celesto computer port expose "
                +:+ vm_id +:+ " " +:+ dec host_port +:+ ":" +:+ dec guest_port +:+ "'."))
          | _ => py_raise e
          end) in
  do! py_lift (_check_local_port_ownership vm_id host_port guest_ip guest_port listing) in
  _add_nft_rules_if_missing
    [(_NFT_NAT_FAMILY, _NFT_NAT_TABLE, "output",
      rule [ip_daddr "127.0.0.1/32"; tcp_dport host_port] (dnat_to target), comment);
     (_NFT_NAT_FAMILY, _NFT_NAT_TABLE, "postrouting",
      rule [ip_saddr "127.0.0.0/8"; ip_daddr (guest_ip +:+ "/32"); tcp_dport guest_port] (snat_to (n_host_ip E)),
      comment);
     (_NFT_FILTER_FAMILY, _NFT_FILTER_TABLE, "forward",
      rule [ip_daddr (guest_ip +:+ "/32"); tcp_dport guest_port; ct_states [ct_new; ct_related; ct_established]]
        v_accept, comment)].

Definition cleanup_local_port_forward (vm_id guest_ip : string) (host_port guest_port : Z) : M unit :=
  do! check_forward vm_id guest_ip host_port guest_port in
  let comment := local_comment vm_id host_port guest_port in
  do! _delete_nft_rules _NFT_NAT_FAMILY _NFT_NAT_TABLE (Some comment) None in
  _delete_nft_rules _NFT_FILTER_FAMILY _NFT_FILTER_TABLE (Some comment) None.

Definition cleanup_all_local_port_forwards (vm_id : string) : M unit :=
  do! nonempty vm_id "vm_id cannot be empty" in
  let prefix := "celesto:" +:+ vm_id +:+ ":local:" in
  do! _delete_nft_rules _NFT_NAT_FAMILY _NFT_NAT_TABLE None (Some prefix) in
  _delete_nft_rules _NFT_FILTER_FAMILY _NFT_FILTER_TABLE None (Some prefix).
End network.
