(* ===== verification/NftTables.v ===== *)
(** * Tables as nft prints them, read back by the program

    [list_table] prints a table the way [nft list table] does.  The parsers of
    NftListing.v recover from it exactly the comments and handles of the rules,
    chain by chain. *)
From S2P Require Import Prelude PyHoare PyDict PyStr IpAddress PyUrl IpNetwork Env Nft NftListing HostNetwork.
From stdpp Require Import options.
From Stdlib Require Import Ascii.

(** ** Printing *)
Definition tab : ascii := ascii_of_nat 9.
Definition indent (n : nat) (s : string) : string := Nat.iter n (String tab) s.
Definition handle_text (mode : list_mode) (h : nat) : string :=
  match mode with list_handles => " # handle " +:+ dec (Z.of_nat h) | _ => "" end.
Definition rule_line (mode : list_mode) (hr : nat * nft_rule) : string :=
  indent 2 (rule_text hr.2 +:+ handle_text mode hr.1).
Definition chain_lines (mode : list_mode) (nc : string * nft_chain) : list string :=
  [indent 1 ("chain " +:+ nc.1 +:+ " {");
   indent 2 ("type filter hook " +:+ hook_text (c_hook nc.2) +:+ " priority filter; policy accept;")]
  ++ map (rule_line mode) (c_rules nc.2) ++ [indent 1 "}"; ""].
Definition set_lines (kind : string) (ns : string * list string) : list string :=
  [indent 1 (kind +:+ " " +:+ ns.1 +:+ " {"); indent 2 "type ifname"]
  ++ (match ns.2 with [] => [] | l => [indent 2 ("elements = { " +:+ str_join ", " l +:+ " }")] end)
  ++ [indent 1 "}"; ""].
Definition map_element (kv : string * string) : string := kv.1 +:+ " : " +:+ kv.2.
Definition table_lines (mode : list_mode) (f : nft_family) (t : string) (tbl : nft_table) : list string :=
  ["table " +:+ family_text f +:+ " " +:+ t +:+ " {"]
  ++ (map_to_list (t_maps tbl) ≫= λ ns, set_lines "map" (ns.1, map map_element (map_to_list ns.2)))
  ++ (map_to_list (t_sets tbl) ≫= λ ns, set_lines "set" (ns.1, elements ns.2))
  ++ (map_to_list (t_chains tbl) ≫= chain_lines mode)
  ++ ["}"].
Definition list_table (mode : list_mode) (f : nft_family) (t : string) (tbl : nft_table) : string :=
  str_join (String newline "") (table_lines mode f t tbl ++ [""]).

(** ** Matching printed lines *)
Definition stops (p : ascii → bool) (s : string) : bool := match s with String c _ => negb (p c) | "" => true end.
Lemma run_of_app p a b : str_all p a = true → stops p b = true → run_of p (a +:+ b) = (a, b).
Proof.
  intros Ha Hb. induction a as [|c a IH].
  - change ("" +:+ b) with b. destruct b as [|c b]; [done|]. simpl in *. by destruct (p c).
  - change (String c a +:+ b) with (String c (a +:+ b)). cbn [str_all] in Ha. apply andb_true_iff in Ha as [Hc Ha].
    cbn [run_of]. by rewrite Hc, (IH Ha).
Qed.
Lemma drop_prefix_app pre s : drop_prefix pre (pre +:+ s) = Some s.
Proof.
  unfold drop_prefix. rewrite startswith_app, substring_after; [done|]. rewrite string_length_app. lia.
Qed.

(** A text that starts and ends with something visible survives [strip]. *)
Definition visible_end (s : string) : Prop := rstrip_while is_space s = s.
Lemma strip_indent n s : stops is_space s = true → s ≠ "" → visible_end s → strip (indent n s) = s.
Proof.
  intros Hs Hne He. unfold strip. assert (lstrip_while is_space (indent n s) = s) as ->; [|exact He].
  unfold indent. induction n as [|n IH]; simpl; [|exact IH]. destruct s as [|c s]; [done|]. simpl in *. by destruct (is_space c).
Qed.
Lemma visible_app a b : b ≠ "" → visible_end b → visible_end (a +:+ b).
Proof. apply rstrip_app. Qed.
Lemma visible_all s : str_all (λ c, negb (is_space c)) s = true → visible_end s.
Proof. apply rstrip_while_none. Qed.

(** Chains *)
Definition name_ok (n : string) : Prop :=
  n ≠ "" ∧ str_all (λ c, negb (is_space c) && negb (Ascii.eqb c "{"%char)) n = true.
Lemma chain_read n : name_ok n → _NFT_CHAIN_RE (strip (indent 1 ("chain " +:+ n +:+ " {"))) = Some n.
Proof.
  intros [Hne Hn]. rewrite strip_indent; [|done|done|apply visible_app; [by destruct n|by apply visible_app]].
  unfold _NFT_CHAIN_RE. change ("chain " +:+ ?x) with ("chain" +:+ (" " +:+ x)). rewrite drop_prefix_app. cbn [mbind option_bind].
  rewrite (run_of_app is_space " "); [|done|].
  2: { destruct n as [|c n]; [done|]. cbn [str_all] in Hn. simpl. by apply andb_true_iff in Hn as [[-> _]%andb_true_iff _]. }
  rewrite run_of_app by done. change (" {") with (" " +:+ "{"). rewrite run_of_app by done.
  by destruct (String.eqb_spec n "").
Qed.
Lemma not_chain a b s : (a, b) ≠ ("c", "h")%char → _NFT_CHAIN_RE (String a (String b s)) = None.
Proof.
  intros Hab. unfold _NFT_CHAIN_RE, drop_prefix, startswith. cbn [String.prefix].
  destruct (ascii_dec "c" a) as [<-|]; [|done]. destruct (ascii_dec "h" b) as [<-|]; [|done]. done.
Qed.

(** Comments *)
Definition comment_ok (k : string) : bool :=
  negb (String.eqb k "") && str_all (λ c, negb (Ascii.eqb c dquote) && negb (Ascii.eqb c backslash)) k.
Lemma escape_plain k : comment_ok k = true → escape k = k.
Proof.
  intros [_ Hk]%andb_true_iff. induction k as [|c k IH]; [done|]. cbn [str_all] in Hk.
  apply andb_true_iff in Hk as [[Hq Hb]%andb_true_iff Hk]. apply negb_true_iff in Hq, Hb. simpl. rewrite Hq, Hb. simpl.
  by rewrite IH.
Qed.
Lemma comment_here k rest :
  comment_ok k = true → comment_at (comment_open +:+ k +:+ String dquote rest) = Some (k, rest).
Proof.
  intros [Hne Hk]%andb_true_iff. unfold comment_at. rewrite drop_prefix_app. cbn [mbind option_bind].
  rewrite run_of_app; [|..|done].
  - by destruct (String.eqb k "").
  - clear Hne. induction k as [|c k IH]; [done|]. cbn [str_all] in *.
    apply andb_true_iff in Hk as [[Hq _]%andb_true_iff Hk]. by rewrite Hq, IH.
Qed.
(** No comment opens inside a body that has none, nor across its end. *)
Lemma opens_later body rest :
  startswith comment_open body = false → body ≠ "" → startswith comment_open (body +:+ " " +:+ comment_open +:+ rest) = false.
Proof.
  unfold startswith. let x := eval vm_compute in comment_open in change comment_open with x. intros Hs Hne.
  do 9 (destruct body as [|? body]; [by (done || (simpl; repeat case_match))|];
        simpl in *; case_match; [subst|done]; clear Hne; assert (Hne := I)).
  by destruct body.
Qed.
Lemma search_here {A} (m : string → option A) s a : m s = Some a → search m s = Some a.
Proof. destruct s; simpl; by intros ->. Qed.
Lemma search_skip {A} (m : string → option A) body rest :
  (∀ s, startswith comment_open s = false → m s = None) → contains comment_open body = false →
  search m (body +:+ " " +:+ comment_open +:+ rest) = search m (comment_open +:+ rest).
Proof.
  intros Hm. induction body as [|c body IH]; intros Hb.
  - change ("" +:+ " " +:+ ?x) with (String " " x). cbn [search]. by rewrite Hm.
  - cbn [contains] in Hb. apply orb_false_iff in Hb as [Hh Hb].
    change (String c body +:+ ?x) with (String c (body +:+ x)). cbn [search].
    change (String c (body +:+ ?x)) with (String c body +:+ x). rewrite Hm by (by apply opens_later). by apply IH.
Qed.

(** Handles *)
Lemma no_handle_in_digits d : str_all is_digit d = true → search_last handle_at d = None.
Proof.
  assert (∀ c s, is_digit c = true → handle_at (String c s) = None) as Hc.
  { intros c s Hc. unfold handle_at, drop_prefix, startswith. cbn [String.prefix].
    destruct (ascii_dec "#" c) as [<-|]; [discriminate Hc|done]. }
  induction d as [|c d IH]; [done|]. cbn [str_all search_last]. intros [H1 H2]%andb_true_iff. rewrite IH by done. by apply Hc.
Qed.
Lemma handle_read h : search_last handle_at (" # handle " +:+ dec (Z.of_nat h)) = Some (dec (Z.of_nat h)).
Proof.
  destruct (dec_nat (Z.of_nat h)) as (Hd & _ & Hne); [lia|]. set (d := dec (Z.of_nat h)) in *.
  assert (handle_at ("# handle " +:+ d) = Some d) as Hh.
  { unfold handle_at. rewrite drop_prefix_app. cbn [mbind option_bind].
    pose proof (run_of_app is_digit d "" Hd eq_refl) as Hr. rewrite str_app_nil_r in Hr. rewrite Hr. simpl.
    by destruct (String.eqb_spec d ""). }
  assert (∀ c s, c ≠ "#"%char → search_last handle_at (String c s) = search_last handle_at s) as Hs.
  { intros c s Hc. cbn [search_last]. destruct (search_last handle_at s); [done|].
    unfold handle_at, drop_prefix, startswith. cbn [String.prefix]. by destruct (ascii_dec "#" c) as [<-|]. }
  assert (search_last handle_at (" handle " +:+ d) = None) as Hn.
  { change (" handle " +:+ d)
      with (String " " (String "h" (String "a" (String "n" (String "d" (String "l" (String "e" (String " " d)))))))).
    rewrite !Hs by discriminate. by apply no_handle_in_digits. }
  change (" # handle " +:+ d) with (String " " ("# handle " +:+ d)). rewrite Hs by discriminate.
  change ("# handle " +:+ d) with (String "#" (" handle " +:+ d)) at 1. cbn [search_last]. rewrite Hn.
  exact Hh.
Qed.

(** ** Rules *)
(** A rule up to its comment. *)
Definition body_text (r : nft_rule) : string :=
  str_join " " (map match_text (r_matches r) ++ (if r_counter r then ["counter"] else []) ++ [verdict_text (r_verdict r)]).
(** A rule the program can recognise by its comment. *)
Definition tagged (k : string) (r : nft_rule) : Prop :=
  r_comment r = Some k ∧ comment_ok k = true ∧ contains comment_open (body_text r) = false.

Lemma str_join_snoc sep l x : l ≠ [] → str_join sep (l ++ [x]) = str_join sep l +:+ sep +:+ x.
Proof.
  induction l as [|a [|b l] IH]; intros Hl; [done|done|].
  change (str_join sep ((a :: b :: l) ++ [x])) with (a +:+ sep +:+ str_join sep ((b :: l) ++ [x])).
  rewrite IH by done. change (str_join sep (a :: b :: l)) with (a +:+ sep +:+ str_join sep (b :: l)).
  by rewrite !string_app_assoc.
Qed.
Lemma tagged_text k r :
  tagged k r → rule_text r = body_text r +:+ " " +:+ comment_open +:+ k +:+ String dquote "".
Proof.
  intros (Hk & Hok & _). unfold rule_text. rewrite Hk, !app_assoc. rewrite str_join_snoc by (by intros [_ ?]%app_nil).
  unfold body_text. rewrite <- !app_assoc. unfold _quote. rewrite escape_plain by done. done.
Qed.
Lemma rule_read k r rest :
  tagged k r →
  _NFT_RULE_COMMENT_RE (rule_text r) = Some k
  ∧ _NFT_RULE_HANDLE_RE (rule_text r +:+ " # handle " +:+ dec (Z.of_nat rest)) = Some (k, dec (Z.of_nat rest)).
Proof.
  intros Hr. rewrite (tagged_text _ _ Hr). destruct Hr as (_ & Hok & Hb).
  assert (∀ s, startswith comment_open s = false → comment_at s = None) as Hnone.
  { intros s Hs. unfold comment_at, drop_prefix. by rewrite Hs. }
  unfold _NFT_RULE_COMMENT_RE, _NFT_RULE_HANDLE_RE. split.
  - rewrite search_skip by done. by rewrite (search_here _ _ _ (comment_here k "" Hok)).
  - rewrite !string_app_assoc. change (String dquote "" +:+ ?x) with (String dquote x). rewrite search_skip; [|intros; by rewrite Hnone|done].
    apply search_here. rewrite comment_here by done. cbn [mbind option_bind]. by rewrite handle_read.
Qed.

(** What a rule starts with is never a chain, nor a closing brace. *)
Definition rule_head (s : string) : Prop :=
  ∃ a b s', s = String a (String b s') ∧ is_space a = false ∧ (a, b) ≠ ("c", "h")%char ∧ a ≠ "}"%char.
Lemma body_head r rest : rule_head (body_text r +:+ rest).
Proof.
  assert (∀ x l, rule_head x → rule_head (str_join " " (x :: l) +:+ rest)) as Hj.
  { intros x l (a & b & s & -> & H). exists a, b. destruct l as [|y l]; eexists; (split; [|exact H]); reflexivity. }
  unfold body_text. destruct (r_matches r) as [|m ms].
  - destruct (r_counter r); [|destruct (r_verdict r)]; apply Hj; by do 3 eexists.
  - destruct m; apply Hj; by do 3 eexists.
Qed.

(** ** Lines of a table *)
Section loop.
Context {A : Type} (rule : string → option A).

(** Lines outside the chains. *)
Definition quiet (line : string) : Prop :=
  line = "" ∨ (∃ n, line = indent n "}")
  ∨ ∃ n a b s, line = indent n (String a (String b s)) ∧ is_space a = false ∧ is_space b = false ∧ (a, b) ≠ ("c", "h")%char.

Lemma strip_head n a b s :
  is_space a = false → is_space b = false →
  ∃ s', strip (indent n (String a (String b s))) = String a (String b s').
Proof.
  intros Ha Hb. exists (rstrip_while is_space s). unfold strip.
  assert (lstrip_while is_space (indent n (String a (String b s))) = String a (String b s)) as ->.
  { unfold indent. induction n as [|n IH]; simpl; [by rewrite Ha|exact IH]. }
  cbn [rstrip_while]. rewrite Hb. by destruct (rstrip_while is_space s).
Qed.
Lemma loop_quiet l rest : Forall quiet l → table_loop rule None (l ++ rest) = table_loop rule None rest.
Proof.
  induction l as [|x l IH]; intros Hl; [done|]. apply Forall_cons in Hl as [Hx Hl]. rewrite <- (IH Hl).
  cbn [app table_loop]. destruct Hx as [-> | [[n ->] | (n & a & b & s & -> & Ha & Hb & Hab)]].
  - reflexivity.
  - by rewrite strip_indent.
  - destruct (strip_head n a b s Ha Hb) as [s' ->]. rewrite not_chain by done. by destruct (String.eqb _ _).
Qed.

Definition line_text (mode : list_mode) (hr : nat * nft_rule) : string := rule_text hr.2 +:+ handle_text mode hr.1.
Lemma line_strip mode k h r : tagged k r → strip (rule_line mode (h, r)) = line_text mode (h, r) ∧ rule_head (line_text mode (h, r)).
Proof.
  intros Hr. unfold rule_line, line_text. simpl. rewrite (tagged_text _ _ Hr), !string_app_assoc.
  set (t := String dquote "" +:+ handle_text mode h). destruct (body_head r (" " +:+ comment_open +:+ k +:+ t)) as (a & b & s & He & Ha & Hab).
  split; [|exists a, b, s; auto]. apply (strip_indent 2); [by rewrite He; simpl; rewrite Ha|by rewrite He|].
  assert (t ≠ "" ∧ visible_end t) as [Ht Hv].
  { split; [done|]. destruct mode; [by apply visible_all| |by apply visible_all]. unfold t, handle_text.
    destruct (dec_nat (Z.of_nat h)) as (Hd & _ & Hne); [lia|]. do 2 (apply visible_app; [done|]). 
    apply visible_all. clear -Hd. induction (dec (Z.of_nat h)) as [|c d IH]; [done|]. cbn [str_all] in *.
    apply andb_true_iff in Hd as [Hc Hd]. rewrite IH by done. rewrite andb_true_r. apply negb_true_iff.
    unfold is_digit in Hc. unfold is_space. lia. }
  assert (∀ x, x +:+ t ≠ "") as Hx by (by intros []).
  apply visible_app; [done|]. apply visible_app; [done|]. apply visible_app; [by apply Hx|]. by apply visible_app.
Qed.

(** The rules of a chain. *)
Definition listable (nc : string * nft_chain) : Prop :=
  name_ok nc.1 ∧ Forall (λ hr, ∃ k, tagged k hr.2) (c_rules nc.2).

Lemma loop_rules mode n l rest (f : nat → nft_rule → A) :
  Forall (λ hr, ∃ k, tagged k hr.2) l →
  (∀ h r, (h, r) ∈ l → rule (line_text mode (h, r)) = Some (f h r)) →
  table_loop rule (Some n) (map (rule_line mode) l ++ rest)
  = map (λ hr, (n, f hr.1 hr.2)) l ++ table_loop rule (Some n) rest.
Proof.
  intros Hl Hr. induction l as [|[h r] l IH]; [done|]. apply Forall_cons in Hl as [[k Hk] Hl].
  cbn [map app table_loop]. destruct (line_strip mode k h r Hk) as [-> (a & b & s & He & Ha & Hab & Hc)].
  rewrite Hr by set_solver. rewrite He, not_chain by done.
  assert (String.eqb (String a (String b s)) "}" = false) as -> by (simpl; by case_match).
  simpl. f_equal. apply IH; [done|]. set_solver.
Qed.

Lemma loop_chain mode nc rest (f : nat → nft_rule → A) :
  listable nc →
  (∀ h, rule ("type filter hook " +:+ hook_text h +:+ " priority filter; policy accept;") = None) →
  (∀ h r, (h, r) ∈ c_rules nc.2 → rule (line_text mode (h, r)) = Some (f h r)) →
  table_loop rule None (chain_lines mode nc ++ rest)
  = map (λ hr, (nc.1, f hr.1 hr.2)) (c_rules nc.2) ++ table_loop rule None rest.
Proof.
  intros [Hn Hl] Ht Hr. unfold chain_lines. cbn [app table_loop]. rewrite chain_read by done.
  rewrite strip_indent; [|done|done|by destruct (c_hook nc.2)].
  match goal with |- context [_NFT_CHAIN_RE ?x] => assert (_NFT_CHAIN_RE x = None) as -> by (by apply (not_chain "t" "y")) end.
  rewrite Ht. rewrite <- app_assoc.
  change (String.eqb ("type filter hook " +:+ ?x) "}") with false. cbn iota.
  by rewrite (loop_rules _ _ _ _ f).
Qed.
Lemma loop_chains mode l rest (f : nat → nft_rule → A) :
  Forall listable l →
  (∀ h, rule ("type filter hook " +:+ hook_text h +:+ " priority filter; policy accept;") = None) →
  (∀ nc h r, nc ∈ l → (h, r) ∈ c_rules nc.2 → rule (line_text mode (h, r)) = Some (f h r)) →
  table_loop rule None ((l ≫= chain_lines mode) ++ rest)
  = (l ≫= λ nc, map (λ hr, (nc.1, f hr.1 hr.2)) (c_rules nc.2)) ++ table_loop rule None rest.
Proof.
  intros Hl Ht Hr. induction l as [|nc l IH]; [done|]. apply Forall_cons in Hl as [Hn Hl].
  cbn [mbind list_bind app]. rewrite <- !app_assoc. rewrite (loop_chain _ _ _ f); [|done..|].
  - f_equal. apply IH; [done|]. intros nc' h r Hin. apply Hr. set_solver.
  - intros h r. apply Hr. set_solver.
Qed.
End loop.

(** ** Reading a table back *)
Lemma set_lines_quiet kind ns : kind = "map" ∨ kind = "set" → Forall quiet (set_lines kind ns).
Proof.
  assert (∀ n a b s, is_space a = false → is_space b = false → (a, b) ≠ ("c", "h")%char → quiet (indent n (String a (String b s))))
    as Hq by (right; right; eauto 10).
  intros Hk. unfold set_lines. apply Forall_app. split.
  - constructor; [destruct Hk as [-> | ->]; by apply (Hq 1)|]. constructor; [by apply (Hq 2)|done].
  - apply Forall_app. split; [destruct ns.2; [done|]; constructor; [by apply (Hq 2)|done]|].
    constructor; [right; left; by exists 1|]. constructor; [by left|done].
Qed.
Lemma binds_quiet {B} (f : B → list string) l : (∀ x, Forall quiet (f x)) → Forall quiet (l ≫= f).
Proof. intros Hf. induction l as [|x l IH]; [constructor|]. apply Forall_app. auto. Qed.

Lemma read_table {A} (rule : string → option A) mode f t tbl (g : nat → nft_rule → A) :
  Forall listable (map_to_list (t_chains tbl)) →
  (∀ h, rule ("type filter hook " +:+ hook_text h +:+ " priority filter; policy accept;") = None) →
  (∀ nc h r, nc ∈ map_to_list (t_chains tbl) → (h, r) ∈ c_rules nc.2 → rule (line_text mode (h, r)) = Some (g h r)) →
  table_loop rule None (table_lines mode f t tbl)
  = map_to_list (t_chains tbl) ≫= λ nc, map (λ hr, (nc.1, g hr.1 hr.2)) (c_rules nc.2).
Proof.
  intros Hl Ht Hr. unfold table_lines. rewrite (loop_quiet rule [_]).
  2: { constructor; [|done]. right. right. by exists 0, "t"%char, "a"%char; eexists. }
  do 2 (rewrite loop_quiet by (apply binds_quiet; intros; apply set_lines_quiet; auto)).
  rewrite (loop_chains rule mode _ _ g) by done. rewrite <- (app_nil_r ["}"]), loop_quiet, app_nil_r; [done|].
  constructor; [right; left; by exists 0|done].
Qed.

(** The rules of a table, chain by chain. *)
Definition table_rules (tbl : nft_table) : list (string * (nat * nft_rule)) :=
  map_to_list (t_chains tbl) ≫= λ nc, map (λ hr, (nc.1, hr)) (c_rules nc.2).
(** Rules with plain comments, no line breaks. *)
Definition readable (f : nft_family) (t : string) (tbl : nft_table) : Prop :=
  Forall listable (map_to_list (t_chains tbl)) ∧ ∀ mode, forallb one_line (table_lines mode f t tbl) = true.

Lemma table_rules_map {B} (g : string * (nat * nft_rule) → B) (tbl : nft_table) :
  (map_to_list (t_chains tbl) ≫= λ nc, map (λ hr, g (nc.1, hr)) (c_rules nc.2)) = map g (table_rules tbl).
Proof.
  unfold table_rules. induction (map_to_list (t_chains tbl)) as [|nc l IH]; [done|]. cbn [mbind list_bind].
  rewrite map_app, map_map. by f_equal.
Qed.
Lemma readable_tagged f t tbl nc h r :
  readable f t tbl → nc ∈ map_to_list (t_chains tbl) → (h, r) ∈ c_rules nc.2 → tagged (default "" (r_comment r)) r.
Proof.
  intros [Hl _] Hnc Hr. rewrite Forall_forall in Hl. destruct (Hl nc Hnc) as [_ Hf]. rewrite Forall_forall in Hf.
  destruct (Hf _ Hr) as [k Hk]. pose proof Hk as [Hc _]. simpl in Hc. by rewrite Hc.
Qed.
Lemma handles_read f t tbl :
  readable f t tbl →
  _extract_table_rule_handles (list_table list_handles f t tbl)
  = map (λ x, (x.1, (default "" (r_comment x.2.2), dec (Z.of_nat x.2.1)))) (table_rules tbl).
Proof.
  intros Hok. pose proof Hok as [Hl Hone]. unfold _extract_table_rule_handles, list_table. rewrite splitlines_join by done.
  rewrite (read_table _ _ _ _ _ (λ h r, (default "" (r_comment r), dec (Z.of_nat h)))); [|done|by intros []|].
  - apply (table_rules_map (λ x, (x.1, (default "" (r_comment x.2.2), dec (Z.of_nat x.2.1))))).
  - intros nc h r Hnc Hr. by apply rule_read, (readable_tagged f t tbl nc h r).
Qed.
Lemma comments_read f t tbl :
  readable f t tbl →
  _extract_table_comments (list_table list_plain f t tbl)
  = map (λ x, (x.1, default "" (r_comment x.2.2))) (table_rules tbl).
Proof.
  intros Hok. pose proof Hok as [Hl Hone]. unfold _extract_table_comments, list_table. rewrite splitlines_join by done.
  rewrite (read_table _ _ _ _ _ (λ h r, default "" (r_comment r))); [|done|by intros []|].
  - apply (table_rules_map (λ x, (x.1, default "" (r_comment x.2.2)))).
  - intros nc h r Hnc Hr. unfold line_text. simpl. rewrite str_app_nil_r.
    by apply (rule_read _ _ 0), (readable_tagged f t tbl nc h r).
Qed.
Lemma handle_number_text h : handle_number (dec (Z.of_nat h)) = h.
Proof. unfold handle_number. destruct (dec_nat (Z.of_nat h)) as (_ & -> & _); [lia|]. simpl. lia. Qed.

(** ** The format of a listing

    What nft's manual says of [nft list table], and no more.  A chain is a
    block that opens with its name, declares its hook and has one line per
    rule, in order: the statements, which nft may print in a form of its own,
    then the comment in quotes, then with [-a] the handle.  Whatever else a
    table holds is printed in blocks around the chains, and the chains come in
    any order. *)
Inductive blocks (mode : list_mode) : list (string * nft_chain) → list string → Prop :=
| blocks_other lines : Forall quiet lines → blocks mode [] lines
| blocks_chain n c decl rules :
    Forall (λ l, ∃ t, l = indent 2 ("type " +:+ t) ∧ t ≠ "" ∧ visible_end t ∧ contains comment_open ("type " +:+ t) = false) decl →
    Forall2 (λ l hr, ∃ stmts, l = indent 2 (stmts +:+ " " +:+ comment_open +:+ default "" (r_comment hr.2)
                                              +:+ String dquote "" +:+ handle_text mode hr.1)
                              ∧ (∀ rest, rule_head (stmts +:+ rest)) ∧ contains comment_open stmts = false)
      rules (c_rules c) →
    blocks mode [(n, c)] ([indent 1 ("chain " +:+ n +:+ " {")] ++ decl ++ rules ++ [indent 1 "}"])
| blocks_app cs1 l1 cs2 l2 : blocks mode cs1 l1 → blocks mode cs2 l2 → blocks mode (cs1 ++ cs2) (l1 ++ l2).
Definition laid_out (mode : list_mode) (tbl : nft_table) (text : string) : Prop :=
  ∃ chains lines, chains ≡ₚ map_to_list (t_chains tbl) ∧ blocks mode chains lines
    ∧ forallb one_line lines = true ∧ text = str_join (String newline "") (lines ++ [""]).

(** *** Reading any such listing *)
Lemma no_comment_here s : startswith comment_open s = false → comment_at s = None.
Proof. intros Hs. unfold comment_at, drop_prefix. by rewrite Hs. Qed.
Lemma no_comment {A} (m : string → option A) s :
  (∀ s, startswith comment_open s = false → m s = None) → contains comment_open s = false → search m s = None.
Proof.
  intros Hm. induction s as [|c s IH]; intros Hs; [by cbn; rewrite Hm|]. cbn [contains] in Hs.
  apply orb_false_iff in Hs as [H1 H2]. cbn [search]. by rewrite Hm, IH.
Qed.
Lemma visible_line a k mode h : visible_end (a +:+ k +:+ String dquote "" +:+ handle_text mode h).
Proof.
  set (t := String dquote "" +:+ handle_text mode h).
  assert (t ≠ "" ∧ visible_end t) as [Ht Hv].
  { split; [done|]. destruct mode; [by apply visible_all| |by apply visible_all]. unfold t, handle_text.
    destruct (dec_nat (Z.of_nat h)) as (Hd & _ & Hne); [lia|]. do 2 (apply visible_app; [done|]).
    apply visible_all. clear -Hd. induction (dec (Z.of_nat h)) as [|c d IH]; [done|]. cbn [str_all] in *.
    apply andb_true_iff in Hd as [Hc Hd]. rewrite IH by done. rewrite andb_true_r. apply negb_true_iff.
    unfold is_digit in Hc. unfold is_space. lia. }
  apply visible_app; [by destruct k|]. by apply visible_app.
Qed.
Definition handle_entry (x : string * (nat * nft_rule)) : string * (string * string) :=
  (x.1, (default "" (r_comment x.2.2), dec (Z.of_nat x.2.1))).
Definition rules_of_chains (cs : list (string * nft_chain)) : list (string * (nat * nft_rule)) :=
  cs ≫= λ nc, map (λ hr, (nc.1, hr)) (c_rules nc.2).

Lemma decl_read n t rest :
  t ≠ "" → visible_end t → contains comment_open ("type " +:+ t) = false →
  table_loop _NFT_RULE_HANDLE_RE (Some n) (indent 2 ("type " +:+ t) :: rest) = table_loop _NFT_RULE_HANDLE_RE (Some n) rest.
Proof.
  intros Hne Hv Hc. cbn [table_loop]. rewrite (strip_indent 2); [|done|done|by apply visible_app].
  change ("type " +:+ t) with (String "t" (String "y" ("pe " +:+ t))) at 1. rewrite not_chain by done.
  change (String.eqb ("type " +:+ t) "}") with false. cbv iota. unfold _NFT_RULE_HANDLE_RE. rewrite no_comment; [done| |done].
  intros s Hs. by rewrite no_comment_here.
Qed.
Lemma rule_line_read n stmts k h rest :
  comment_ok k = true → (∀ rest, rule_head (stmts +:+ rest)) → contains comment_open stmts = false →
  table_loop _NFT_RULE_HANDLE_RE (Some n)
    (indent 2 (stmts +:+ " " +:+ comment_open +:+ k +:+ String dquote "" +:+ handle_text list_handles h) :: rest)
  = (n, (k, dec (Z.of_nat h))) :: table_loop _NFT_RULE_HANDLE_RE (Some n) rest.
Proof.
  intros Hk Hh Hc. cbn [table_loop].
  destruct (Hh (" " +:+ comment_open +:+ k +:+ String dquote "" +:+ handle_text list_handles h)) as (a & b & s & He & Ha & Hab & Hcl).
  rewrite strip_indent; [|by rewrite He; simpl; rewrite Ha|by rewrite He|].
  2: { rewrite <- !(string_app_assoc stmts), <- (string_app_assoc _ comment_open). apply visible_line. }
  rewrite He, not_chain by done.
  assert (String.eqb (String a (String b s)) "}" = false) as -> by (simpl; by case_match).
  rewrite <- He. cbv iota. unfold _NFT_RULE_HANDLE_RE at 1.
  change (String dquote "" +:+ handle_text list_handles h) with (String dquote (handle_text list_handles h)).
  rewrite search_skip; [|intros x Hx; by rewrite no_comment_here|done].
  erewrite search_here; [done|]. rewrite comment_here by done. cbn [mbind option_bind handle_text]. by rewrite handle_read.
Qed.
Lemma chain_block_read n c decl rules rest :
  listable (n, c) →
  Forall (λ l, ∃ t, l = indent 2 ("type " +:+ t) ∧ t ≠ "" ∧ visible_end t ∧ contains comment_open ("type " +:+ t) = false) decl →
  Forall2 (λ l hr, ∃ stmts, l = indent 2 (stmts +:+ " " +:+ comment_open +:+ default "" (r_comment hr.2)
                                            +:+ String dquote "" +:+ handle_text list_handles hr.1)
                            ∧ (∀ rest, rule_head (stmts +:+ rest)) ∧ contains comment_open stmts = false)
    rules (c_rules c) →
  table_loop _NFT_RULE_HANDLE_RE None (([indent 1 ("chain " +:+ n +:+ " {")] ++ decl ++ rules ++ [indent 1 "}"]) ++ rest)
  = map handle_entry (map (λ hr, (n, hr)) (c_rules c)) ++ table_loop _NFT_RULE_HANDLE_RE None rest.
Proof.
  intros [Hn Hl] Hd Hr. cbn [app table_loop fst snd] in *. rewrite chain_read by done. rewrite <- !app_assoc.
  induction Hd as [|l decl (t & -> & ? & ? & ?) Hd IH]; [|cbn [app]; by rewrite decl_read].
  cbn [app]. induction Hr as [|l hr rules hrs (stmts & -> & Hh & Hc) Hr IH].
  - by cbn [app map table_loop].
  - apply Forall_cons in Hl as [[k (Hk & Hok & _)] Hl]. cbn [app map]. rewrite Hk. cbn [default].
    rewrite rule_line_read by done. rewrite IH by done. unfold handle_entry at 2. cbn [fst snd app]. by rewrite Hk.
Qed.
Lemma blocks_read cs lines rest :
  blocks list_handles cs lines → Forall listable cs →
  table_loop _NFT_RULE_HANDLE_RE None (lines ++ rest)
  = map handle_entry (rules_of_chains cs) ++ table_loop _NFT_RULE_HANDLE_RE None rest.
Proof.
  intros Hb. revert rest. induction Hb as [lines Hq|n c decl rules Hd Hr|cs1 l1 cs2 l2 H1 IH1 H2 IH2]; intros rest Hl.
  - by rewrite loop_quiet.
  - apply Forall_cons in Hl as [Hl _]. unfold rules_of_chains. cbn [mbind list_bind fst snd]. rewrite app_nil_r.
    by apply chain_block_read.
  - apply Forall_app in Hl as [Hl1 Hl2]. rewrite <- app_assoc, IH1, IH2 by done.
    unfold rules_of_chains. by rewrite bind_app, map_app, <- app_assoc.
Qed.
(** The handles the program reads are those of the table's rules, chain by
    chain in the order nft printed the chains. *)
Lemma laid_out_read f t tbl text :
  readable f t tbl → laid_out list_handles tbl text →
  ∃ cs, cs ≡ₚ map_to_list (t_chains tbl) ∧ _extract_table_rule_handles text = map handle_entry (rules_of_chains cs).
Proof.
  intros [Hl _] (cs & lines & Hp & Hb & Hone & ->). exists cs. split; [done|]. unfold _extract_table_rule_handles.
  rewrite splitlines_join by done. rewrite <- (app_nil_r lines), (blocks_read cs) by (done || by rewrite Hp).
  cbn [table_loop]. apply app_nil_r.
Qed.

(** *** The printer of this file keeps the format *)
Lemma chain_lines_blocks mode nc : listable nc → blocks mode [nc] (chain_lines mode nc).
Proof.
  destruct nc as [n c]. intros [_ Hl]. unfold chain_lines. cbn [fst snd] in *.
  change ([indent 1 ("chain " +:+ n +:+ " {");
    indent 2 ("type filter hook " +:+ hook_text (c_hook c) +:+ " priority filter; policy accept;")]
    ++ map (rule_line mode) (c_rules c) ++ [indent 1 "}"; ""])
    with ([indent 1 ("chain " +:+ n +:+ " {")] ++ [indent 2 ("type " +:+ ("filter hook " +:+ hook_text (c_hook c) +:+ " priority filter; policy accept;"))]
    ++ map (rule_line mode) (c_rules c) ++ [indent 1 "}"] ++ [""]).
  rewrite !app_assoc. rewrite <- (app_nil_r [(n, c)]). apply blocks_app; [|constructor; constructor; [by left|done]].
  rewrite <- !app_assoc. constructor.
  - constructor; [|done]. eexists. split; [reflexivity|]. by destruct (c_hook c).
  - induction Hl as [|[h r] rules [k Hk] Hl IH]; constructor; [|exact IH]. exists (body_text r). cbn [fst snd] in *.
    split_and!; [|apply body_head|apply Hk]. unfold rule_line. cbn [fst snd]. rewrite (tagged_text _ _ Hk).
    destruct Hk as [-> _]. cbn [default]. by rewrite !string_app_assoc.
Qed.
Lemma list_table_laid_out mode f t tbl : readable f t tbl → laid_out mode tbl (list_table mode f t tbl).
Proof.
  intros [Hl Hone]. exists (map_to_list (t_chains tbl)), (table_lines mode f t tbl). split_and!; [done| |done|done].
  unfold table_lines.
  assert (∀ l, Forall quiet l → ∀ cs rest, blocks mode cs rest → blocks mode cs (l ++ rest)) as Hq.
  { intros l Hq cs rest Hr. change cs with ([] ++ cs). constructor; [by constructor|done]. }
  apply Hq. { constructor; [|done]. right. right. by exists 0, "t"%char, "a"%char; eexists. }
  do 2 (apply Hq; [apply binds_quiet; intros; apply set_lines_quiet; auto|]).
  rewrite <- (app_nil_r (map_to_list _)). constructor; [|constructor; constructor; [right; left; by exists 0|done]].
  induction Hl as [|nc l Hnc Hl IH]; [constructor; constructor|]. cbn [mbind list_bind].
  change (nc :: l) with ([nc] ++ l). constructor; [by apply chain_lines_blocks|exact IH].
Qed.

(** What nft lists, the program finds again.  For a table whose rules carry
    plain comments and whose texts have no line breaks, the parser of
    [nft -a list table] returns every rule's chain, comment and handle, in
    order and nothing else, and the parser of the plain listing the chains and
    comments; the handle texts denote the handles of the rules. *)
Theorem listing_read_back (f : nft_family) (t : string) (tbl : nft_table) :
  readable f t tbl →
  _extract_table_rule_handles (list_table list_handles f t tbl)
  = map (λ x, (x.1, (default "" (r_comment x.2.2), dec (Z.of_nat x.2.1)))) (table_rules tbl)
  ∧ _extract_table_comments (list_table list_plain f t tbl)
    = map (λ x, (x.1, default "" (r_comment x.2.2))) (table_rules tbl)
  ∧ ∀ h, handle_number (dec (Z.of_nat h)) = h.
Proof. auto using handles_read, comments_read, handle_number_text. Qed.

Lemma listing_read_back_witness :
  let r := commented "celesto:global:forward:established" (rule [ct_states [ct_related; ct_established]] v_accept) in
  let tbl := {| t_chains := {["forward" := {| c_hook := forward; c_rules := [(7, r)] |}]}; t_sets := ∅; t_maps := ∅ |} in
  _extract_table_rule_handles (list_table list_handles fam_inet "celesto_filter" tbl)
  = [("forward", ("celesto:global:forward:established", "7"))].
Proof.
  cbv zeta. match goal with |- _ (list_table _ ?f ?t ?tbl) = _ => destruct (listing_read_back f t tbl) as [H _] end.
  - split; [|intros mode; destruct mode; vm_compute; reflexivity].
    simpl. rewrite map_to_list_singleton. constructor; [|constructor]. split; [by split|]. constructor; [|constructor].
    by exists "celesto:global:forward:established".
  - etransitivity; [exact H|]. vm_compute. reflexivity.
Defined.
