(* ===== verification/HostNetworkProofs.v ===== *)
(** * What the firewall scripts of host/network.py enforce

    A policy script replaces the table of one interface whole; what it lets
    through is computed from the rules it adds, and no other interface's
    packets are judged differently. *)
From S2P Require Import Prelude PyHoare PyDict PyStr IpAddress IpNetwork Nft HostNetwork.
From stdpp Require Import options.
From Stdlib Require Import Ascii.

Implicit Types (R : ruleset) (p : packet) (h : hook).

(** ** Packets and tables *)
Definition packet_ok p : Prop := addr_ok (p_saddr p) ∧ addr_ok (p_daddr p).

Lemma passes_iff h p R :
  passes h p R = true ↔ ∀ k t, rs_tables R !! k = Some t → table_passes h p k.1 t = true.
Proof.
  unfold passes. rewrite forallb_forall. split.
  - intros H [f t] tbl Hk. apply (H ((f, t), tbl)), list_elem_of_In, elem_of_map_to_list. exact Hk.
  - intros H [k t] Hk%list_elem_of_In%elem_of_map_to_list. by apply (H k).
Qed.
Lemma table_passes_iff h p f t :
  table_passes h p f t = true ↔
  (family_sees f p = true → ∀ n c, t_chains t !! n = Some c → c_hook c = h → chain_accepts t c p = true).
Proof.
  unfold table_passes. rewrite orb_true_iff, negb_true_iff, forallb_forall. split.
  - intros [H|H] Hs n c Hc Hh; [congruence|].
    specialize (H (n, c) (proj1 (list_elem_of_In _ _) (proj2 (elem_of_map_to_list _ _ _) Hc))).
    apply orb_true_iff in H as [H|H]; [|done]. simpl in H. by rewrite bool_decide_eq_true_2 in H.
  - intros H. destruct (family_sees f p); [right|by left].
    intros [n c] Hc%list_elem_of_In%elem_of_map_to_list. simpl.
    case_bool_decide; [|done]. simpl. by eapply H.
Qed.

(** Two tables judge [p] alike when they have the same chains up to rules that
    judge [p] alike. *)
Lemma passes_ext h p R R' :
  (∀ k, match rs_tables R !! k, rs_tables R' !! k with
        | Some t, Some t' => table_passes h p k.1 t = table_passes h p k.1 t'
        | Some t, None | None, Some t => table_passes h p k.1 t = true
        | None, None => True
        end) → passes h p R = passes h p R'.
Proof.
  intros H. apply eq_true_iff_eq. rewrite !passes_iff. split; intros Hp k t Hk; specialize (H k);
    [specialize (Hp k)|specialize (Hp k)]; rewrite Hk in H.
  - destruct (rs_tables R !! k) as [t0|] eqn:E; [|done]. by rewrite <- H; apply Hp.
  - destruct (rs_tables R' !! k) as [t0|] eqn:E; [|done]. by rewrite H; apply Hp.
Qed.

(** ** Commands that declare tables, chains, sets and maps *)
Definition declares (c : nft_cmd) : bool :=
  match c with add_table _ _ | add_chain _ _ _ _ _ _ | add_set _ _ _ _ | add_map _ _ _ _ => true | _ => false end.

Lemma match_ok_sets t t' p m :
  (∀ s e, in_set t s e = in_set t' s e) → match_ok t p m = match_ok t' p m.
Proof. intros H. destruct m; simpl; rewrite ?H; try done. by destruct (p_daddr p); rewrite ?H. Qed.
Lemma rules_accept_ext t t' p l :
  (∀ r m, r ∈ l → m ∈ r_matches r → match_ok t p m = match_ok t' p m) → rules_accept t p l = rules_accept t' p l.
Proof.
  induction l as [|r l IH]; intros H; [done|]. simpl.
  assert (rule_ok t p r = rule_ok t' p r) as ->.
  { unfold rule_ok. specialize (H r). induction (r_matches r) as [|m ms IHm]; [done|]. simpl.
    rewrite (H m) by set_solver. f_equal. apply IHm. set_solver. }
  rewrite IH by set_solver. done.
Qed.

Lemma chain_accepts_sets t t' c p :
  (∀ s e, in_set t s e = in_set t' s e) → chain_accepts t c p = chain_accepts t' c p.
Proof. intros H. apply rules_accept_ext. intros r m _ _. by apply match_ok_sets. Qed.

(** One table replaced. *)
Lemma passes_set h p k t' H R :
  match rs_tables R !! k with
  | Some t => table_passes h p k.1 t' = table_passes h p k.1 t
  | None => table_passes h p k.1 t' = true
  end → passes h p {| rs_tables := <[k := t']> (rs_tables R); rs_handle := H |} = passes h p R.
Proof.
  intros Hk. apply passes_ext. simpl. intros k'. rewrite lookup_insert. case_decide as Hd; subst.
  - by destruct (rs_tables R !! k').
  - by destruct (rs_tables R !! k').
Qed.

Lemma same_chains_pass h p f t t' :
  t_chains t' = t_chains t → (∀ s e, in_set t' s e = in_set t s e) → table_passes h p f t' = table_passes h p f t.
Proof.
  intros Hc Hs. apply eq_true_iff_eq. rewrite !table_passes_iff, Hc.
  setoid_rewrite (chain_accepts_sets t' t); done.
Qed.

Lemma declares_passes h p c R R' : declares c = true → run_cmd c R = Some R' → passes h p R' = passes h p R.
Proof.
  intros Hd Hr. destruct c; try done; simpl in Hr; [|apply bind_Some in Hr as (tbl & E & Hr)..]; simplify_eq.
  - destruct (rs_tables R !! (f, t)) eqn:E; [done|]. apply passes_set. rewrite E.
    apply table_passes_iff. intros _ n c Hc. simpl in Hc. by rewrite lookup_empty in Hc.
  - destruct (t_chains tbl !! c) eqn:Ec; [done|]. apply passes_set. rewrite E.
    apply eq_true_iff_eq. rewrite !table_passes_iff. simpl. split; intros H Hs n x Hx Hh.
    + rewrite <- (H Hs n x); [apply chain_accepts_sets; done| |done]. rewrite lookup_insert_ne; [done|]. intros ->. congruence.
    + rewrite lookup_insert in Hx. case_decide; [by simplify_eq|].
      rewrite <- (H Hs n x) by done. by apply chain_accepts_sets.
  - destruct (t_sets tbl !! s) eqn:Es; [done|]. apply passes_set. rewrite E.
    apply same_chains_pass; [done|].
    intros s' e. unfold in_set. simpl. rewrite lookup_insert.
    case_decide; [subst; by rewrite Es, bool_decide_eq_false_2 by set_solver|done].
  - destruct (t_maps tbl !! s) eqn:Es; [done|]. apply passes_set. rewrite E. by apply same_chains_pass.
Qed.
Lemma declares_script h p l R R' :
  forallb declares l = true → run_script l R = Some R' → passes h p R' = passes h p R.
Proof.
  revert R. induction l as [|c l IH]; intros R Hd Hr; simpl in *; [by simplify_eq|].
  apply andb_true_iff in Hd as [Hc Hd]. apply bind_Some in Hr as (R1 & H1 & Hr).
  rewrite (IH R1) by done. by eapply declares_passes.
Qed.

(** ** Where a command acts *)
Definition cmd_key (c : nft_cmd) : nft_family * string :=
  match c with
  | add_table f t | flush_table f t | delete_table f t => (f, t)
  | add_chain f t _ _ _ _ => (f, t)
  | add_set f t _ _ | add_map f t _ _ => (f, t)
  | add_rule f t _ _ | delete_rule f t _ _ => (f, t)
  | add_element f t _ _ | add_map_element f t _ _ _ | delete_element f t _ _ => (f, t)
  end.
Lemma run_cmd_elsewhere c R R' k :
  run_cmd c R = Some R' → k ≠ cmd_key c → rs_tables R' !! k = rs_tables R !! k.
Proof.
  intros Hr Hk. destruct c; simpl in *; repeat (apply bind_Some in Hr as (? & ? & Hr)); repeat case_match;
    simplify_eq; simpl; rewrite ?lookup_insert_ne, ?lookup_delete_ne by done; done.
Qed.
Lemma run_script_elsewhere l R R' k :
  run_script l R = Some R' → Forall (λ c, k ≠ cmd_key c) l → rs_tables R' !! k = rs_tables R !! k.
Proof.
  revert R. induction l as [|c l IH]; intros R Hr Hk; simpl in *; [by simplify_eq|].
  apply Forall_cons in Hk as [? ?]. apply bind_Some in Hr as (R1 & H1 & Hr).
  rewrite (IH R1) by done. by eapply run_cmd_elsewhere.
Qed.
Lemma run_script_app l1 l2 R R' :
  run_script (l1 ++ l2) R = Some R' ↔ ∃ R1, run_script l1 R = Some R1 ∧ run_script l2 R1 = Some R'.
Proof.
  revert R. induction l1 as [|c l1 IH]; intros R; simpl.
  - split; [eauto|]. by intros (R1 & [= ->] & H).
  - rewrite bind_Some. setoid_rewrite IH. setoid_rewrite bind_Some. naive_solver.
Qed.

(** ** Policy tables *)
(** The table of a policy: two chains, any others without rules. *)
Definition hooks_ok (t : nft_table) : Prop :=
  (∀ c, t_chains t !! "forward" = Some c → c_hook c = forward)
  ∧ (∀ c, t_chains t !! "input" = Some c → c_hook c = input).
Definition chain_rules (lf li : list nft_rule) (n : string) : list nft_rule :=
  if String.eqb n "forward" then lf else if String.eqb n "input" then li else [].
Record policy_table (lf li : list nft_rule) (t : nft_table) : Prop := {
  pt_rules n c : t_chains t !! n = Some c → (c_rules c).*2 = chain_rules lf li n;
  pt_forward : is_Some (t_chains t !! "forward");
  pt_input : is_Some (t_chains t !! "input");
  pt_hooks : hooks_ok t }.
Definition has_policy (T : string) (lf li : list nft_rule) R : Prop :=
  ∃ t, rs_tables R !! (fam_inet, T) = Some t ∧ policy_table lf li t.

(** Every rule of an interface's policy table names that interface. *)
Definition policies_ok R : Prop :=
  ∀ tap t, is_policy_tap tap = true → rs_tables R !! (fam_inet, "celesto_policy_" +:+ tap) = Some t →
    hooks_ok t ∧ ∀ n c r, t_chains t !! n = Some c → r ∈ (c_rules c).*2 → iifname tap ∈ r_matches r.

Lemma add_chain_table T n h pr R R' t :
  rs_tables R !! (fam_inet, T) = Some t → run_cmd (add_chain fam_inet T n "filter" h pr) R = Some R' →
  ∃ t', rs_tables R' !! (fam_inet, T) = Some t'
    ∧ t_chains t' = <[n := default {| c_hook := h; c_rules := [] |} (t_chains t !! n)]> (t_chains t).
Proof.
  intros Ht Hr. simpl in Hr. rewrite Ht in Hr. simpl in Hr. simplify_eq.
  destruct (t_chains t !! n) eqn:Hn.
  - exists t. split; [done|]. simpl. by rewrite insert_id.
  - eexists. simpl. rewrite lookup_insert_eq. done.
Qed.

Lemma policy_start T R R' :
  (∀ t, rs_tables R !! (fam_inet, T) = Some t → hooks_ok t) →
  run_script (policy_chains T) R = Some R' → has_policy T [] [] R'.
Proof.
  intros Hk Hr. unfold policy_chains in Hr. cbn [run_script] in Hr.
  apply bind_Some in Hr as (R1 & H1 & Hr). apply bind_Some in Hr as (R2 & H2 & Hr).
  apply bind_Some in Hr as (R3 & H3 & Hr). apply bind_Some in Hr as (R4 & H4 & [= ->]).
  assert (∃ t1, rs_tables R1 !! (fam_inet, T) = Some t1 ∧ hooks_ok t1) as (t1 & Ht1 & Hh1).
  { simpl in H1. simplify_eq. destruct (rs_tables R !! (fam_inet, T)) as [t|] eqn:E; [eauto|].
    exists empty_table. simpl. by rewrite lookup_insert_eq. }
  simpl in H2. rewrite Ht1 in H2. simpl in H2. simplify_eq.
  eapply add_chain_table in H3 as (t3 & Ht3 & Hc3); [|apply lookup_insert_eq].
  eapply add_chain_table in H4 as (t4 & Ht4 & Hc4); [|exact Ht3]. exists t4. split; [done|].
  rewrite Hc3 in Hc4. simpl in Hc4. rewrite lookup_insert_ne, lookup_fmap in Hc4 by done.
  rewrite lookup_fmap in Hc4. destruct Hh1 as [Hf Hi].
  assert (∀ n c, t_chains t4 !! n = Some c → c_rules c = []) as Hempty.
  { intros n c. rewrite Hc4, !lookup_insert, lookup_fmap. repeat case_decide; intros Hx; simplify_eq.
    - by destruct (t_chains t1 !! "input").
    - by destruct (t_chains t1 !! "forward").
    - destruct (t_chains t1 !! n); simpl in Hx; by simplify_eq. }
  split.
  - intros n c Hn. rewrite (Hempty n c Hn). unfold chain_rules. by repeat case_match.
  - rewrite Hc4, lookup_insert_ne, lookup_insert_eq by done. eauto.
  - rewrite Hc4, lookup_insert_eq. eauto.
  - split; intros c; rewrite Hc4; [rewrite lookup_insert_ne by done|]; rewrite lookup_insert_eq; intros [= <-].
    + destruct (t_chains t1 !! "forward") as [c1|]; [simpl; by apply Hf|done].
    + destruct (t_chains t1 !! "input") as [c1|]; [simpl; by apply Hi|done].
Qed.

Lemma policy_add T lf li n r R R' :
  n = "forward" ∨ n = "input" → has_policy T lf li R → run_cmd (add_rule fam_inet T n r) R = Some R' →
  has_policy T (if String.eqb n "forward" then lf ++ [r] else lf)
    (if String.eqb n "forward" then li else li ++ [r]) R'.
Proof.
  intros Hn (t & Ht & Hp) Hr. simpl in Hr. rewrite Ht in Hr. simpl in Hr.
  apply bind_Some in Hr as (ch & Hch & Hr). destruct (rule_valid t r); [|done]. simplify_eq.
  eexists. simpl. rewrite lookup_insert_eq. split; [done|]. destruct Hp as [Hr Hf Hi [Hhf Hhi]].
  pose proof (Hr n ch Hch) as Hrules.
  split; simpl.
  - intros m c. rewrite lookup_insert. case_decide as Hm; [|].
    + subst m. intros [= <-]. simpl. rewrite fmap_app, Hrules. unfold chain_rules. destruct Hn as [-> | ->]; done.
    + intros Hc. rewrite (Hr m c Hc). unfold chain_rules. destruct Hn as [-> | ->]; simpl.
      * destruct (String.eqb_spec m "forward"); [congruence|done].
      * destruct (String.eqb_spec m "forward"), (String.eqb_spec m "input"); congruence.
  - rewrite lookup_insert. case_decide; eauto.
  - rewrite lookup_insert. case_decide; eauto.
  - split; simpl; intros c; rewrite lookup_insert; case_decide as Hm; eauto; intros [= <-]; subst; simpl; eauto.
Qed.

(** A script that adds rules to the two chains. *)
Fixpoint rules_of (n : string) (l : list nft_cmd) : list nft_rule :=
  match l with
  | [] => []
  | add_rule _ _ m r :: l' => if String.eqb m n then r :: rules_of n l' else rules_of n l'
  | _ :: l' => rules_of n l'
  end.
Lemma rules_of_app n l1 l2 : rules_of n (l1 ++ l2) = rules_of n l1 ++ rules_of n l2.
Proof.
  induction l1 as [|c l1 IH]; [done|]. simpl. rewrite IH. destruct c; try done. by destruct (String.eqb _ _).
Qed.
Definition adds_to (T : string) (c : nft_cmd) : Prop :=
  ∃ n r, c = add_rule fam_inet T n r ∧ (n = "forward" ∨ n = "input").
Lemma policy_adds T lf li l R R' :
  Forall (adds_to T) l → has_policy T lf li R → run_script l R = Some R' →
  has_policy T (lf ++ rules_of "forward" l) (li ++ rules_of "input" l) R'.
Proof.
  revert lf li R. induction l as [|c l IH]; intros lf li R Hl Hp Hr; simpl in *.
  { simplify_eq. by rewrite !app_nil_r. }
  apply Forall_cons in Hl as [(n & r & -> & Hn) Hl]. apply bind_Some in Hr as (R1 & H1 & Hr).
  pose proof (policy_add _ _ _ _ _ _ _ Hn Hp H1) as Hp1. specialize (IH _ _ _ Hl Hp1 Hr).
  destruct Hn as [-> | ->]; simpl in *; by rewrite <- app_assoc in IH.
Qed.

(** ** What the rules of a policy let through *)
Lemma policy_table_passes lf li t p :
  policy_table lf li t →
  table_passes forward p fam_inet t = rules_accept t p lf ∧ table_passes input p fam_inet t = rules_accept t p li.
Proof.
  intros [Hr [cf Hf] [ci Hi] [Hhf Hhi]].
  assert (∀ h n c l, t_chains t !! n = Some c → c_hook c = h → chain_rules lf li n = l →
            (∀ m x, t_chains t !! m = Some x → c_hook x = h → m ≠ n → chain_rules lf li m = []) →
            table_passes h p fam_inet t = rules_accept t p l) as H.
  { intros h n c l Hc Hh Hl Hother. apply eq_true_iff_eq. rewrite table_passes_iff. split.
    - intros Ht. specialize (Ht eq_refl n c Hc Hh). unfold chain_accepts in Ht. by rewrite (Hr n c Hc), Hl in Ht.
    - intros Ha _ m x Hm Hx. unfold chain_accepts. rewrite (Hr m x Hm). destruct (decide (m = n)) as [->|Hne].
      + by rewrite Hl.
      + by rewrite (Hother m x). }
  assert (∀ m, m ≠ "forward" → m ≠ "input" → chain_rules lf li m = []) as Hno.
  { intros m ??. unfold chain_rules. destruct (String.eqb_spec m "forward"), (String.eqb_spec m "input"); done. }
  split; [apply (H forward "forward" cf lf)|apply (H input "input" ci li)]; try done; auto; intros m x Hm Hx Hne.
  - apply Hno; [done|]. intros ->. specialize (Hhi x Hm). congruence.
  - apply Hno; [|done]. intros ->. specialize (Hhf x Hm). congruence.
Qed.

(** The interface names a policy is for. *)
Lemma policy_tap_last tap : is_policy_tap tap = true → ∃ c, last_char tap = Some c ∧ is_digit c = true.
Proof.
  unfold is_policy_tap. rewrite !andb_true_iff. intros [[d ->]%startswith_inv [Hd Ha]].
  assert (String.substring 3 (String.length ("tap" +:+ d)) ("tap" +:+ d) = d) as E.
  { apply (substring_after "tap"). rewrite string_length_app. lia. }
  rewrite E in Hd, Ha. clear E. destruct d as [|c d]; [done|]. clear Hd.
  assert (∃ x, last_char (String c d) = Some x ∧ is_digit x = true) as (x & Hx & Hxd).
  { revert c Ha. induction d as [|c' d IH]; intros c Ha; simpl in Ha; bool_hyps.
    - exists c. split; [done|]. by destruct (is_digit c).
    - destruct (IH c') as (x & Hx & ?); [simpl; by apply andb_true_iff|]. exists x. split; [|done]. exact Hx. }
  exists x. split; [|done]. exact Hx.
Qed.
Lemma policy_tap_matches tap x : is_policy_tap tap = true → ifname_matches tap x = String.eqb tap x.
Proof.
  intros (c & Hc & Hd)%policy_tap_last. unfold ifname_matches. rewrite Hc.
  destruct (Ascii.eqb_spec c "*"%char); [by subst|done].
Qed.

Lemma addr_in_net x n : aligned x → (0 ≤ n < 2 ^ 32)%Z → addr_in (net_text x) (V4 n) = true ↔ covers x n.
Proof.
  intros Hx Hn. unfold addr_in, addr_net. rewrite (IPv4Network_lax _ _ (net_text_reads x Hx)).
  by apply net_has_covers.
Qed.
Lemma addr_in_host a x : (0 ≤ a < 2 ^ 32)%Z → addr_ok x → addr_in (addr_text a) x = true ↔ x = V4 a.
Proof.
  intros Ha Hx. unfold addr_in, addr_net. rewrite addr_text_reads by done. destruct x as [n|]; [|done]. simpl in Hx.
  assert (aligned (a, 32%Z)) as Hal by (apply aligned_iff; split; [done|]; exists a; simpl; change (net_size 32) with 1%Z; lia).
  rewrite net_has_covers by done. rewrite host_covers by done. simpl. naive_solver.
Qed.
Lemma addr_in_set nets x : Forall aligned nets → addr_ok x →
  existsb (λ a, addr_in a x) (net_text <$> nets) = true ↔ ∃ n, x = V4 n ∧ covered nets n.
Proof.
  intros Ha Hx. rewrite existsb_exists. split.
  - intros (a & Hin%list_elem_of_In & Hax). apply list_elem_of_fmap in Hin as (net & -> & Hnet).
    destruct x as [n|]; [|done]. exists n. split; [done|]. exists net. split; [done|].
    rewrite Forall_forall in Ha. by apply addr_in_net; [apply Ha| |].
  - intros (n & -> & net & Hnet & Hc). exists (net_text net). rewrite Forall_forall in Ha.
    split; [apply list_elem_of_In, list_elem_of_fmap; eauto|]. by apply addr_in_net; [apply Ha| |].
Qed.

(** Link-local addresses. *)
Definition link_local (x : ip_addr) : Prop := ∃ n, x = V4 n ∧ covers (2851995648, 16)%Z n.
Lemma link_local_in x : addr_ok x → addr_in "169.254.0.0/16" x = true ↔ link_local x.
Proof.
  intros Hx. change "169.254.0.0/16" with (net_text (2851995648, 16)%Z). unfold link_local. destruct x as [n|].
  - rewrite addr_in_net by done. naive_solver.
  - split; [done|]. by intros (m & ? & _).
Qed.

(** What a policy allows: the destinations it was given ([None]: any), never
    another guest nor a link-local address; and towards the host, when
    restricted, only replies of the guest. *)
Definition allowed_networks (allowed : option (list string)) : option (list net4) :=
  match allowed with
  | None => None
  | Some l => match parse_networks l with Ret nets => Some nets | Raise _ => Some [] end
  end.
Definition may_forward (nets : option (list net4)) p : Prop :=
  ifname_matches "tap*" (p_oif p) = false ∧ ¬ link_local (p_daddr p)
  ∧ match nets with None => True | Some l => ∃ n, p_daddr p = V4 n ∧ covered l n end.
Definition is_reply (guest : string) p : Prop :=
  (∃ g, parse_v4 guest = Some g ∧ p_saddr p = V4 g)
  ∧ p_tcp p = true ∧ p_reply p = true ∧ p_ct p = ct_established.
Definition may_input (nets : option (list net4)) (guest : option string) p : Prop :=
  ¬ link_local (p_daddr p)
  ∧ match nets with None => True | Some _ => ∃ g, guest = Some g ∧ is_reply g p end.

Section rules.
Context (tap : string) (t : nft_table) (p : packet).
Context (Htap : is_policy_tap tap = true) (Hiif : p_iif p = tap) (Hp : packet_ok p).

Lemma iif_matches : ifname_matches tap (p_iif p) = true.
Proof using All. rewrite policy_tap_matches by done. rewrite Hiif. apply String.eqb_refl. Qed.

Lemma reply_matches guest g :
  parse_v4 guest = Some g → rule_ok t p (reply_rule tap (addr_text g)) = true ↔ is_reply guest p.
Proof using All.
  intros Hg. pose proof (parse_v4_bound _ _ Hg) as Hb. unfold rule_ok. simpl. rewrite iif_matches.
  rewrite !andb_true_iff, addr_in_host by (done || apply Hp). unfold is_reply.
  rewrite bool_decide_eq_true, list_elem_of_singleton. split.
  - intros (_ & ? & ? & ? & ? & _). split_and!; eauto.
  - intros ((g' & Hg' & ?) & ? & ? & ?). simplify_eq. done.
Qed.

Lemma rules_accept_drop l r :
  r_verdict r = v_drop → rules_accept t p (r :: l) = negb (rule_ok t p r) && rules_accept t p l.
Proof. intros Hr. simpl. rewrite Hr. by destruct (rule_ok t p r). Qed.
Lemma rules_accept_accept l r :
  r_verdict r = v_accept → rules_accept t p (r :: l) = rule_ok t p r || rules_accept t p l.
Proof. intros Hr. simpl. rewrite Hr. by destruct (rule_ok t p r). Qed.

Lemma open_forward l :
  rules_accept t p (rules_of "forward" (open_rules "" tap) ++ l) = true ↔
  ifname_matches "tap*" (p_oif p) = false ∧ ¬ link_local (p_daddr p) ∧ rules_accept t p l = true.
Proof using All.
  cbn [open_rules rules_of String.eqb Ascii.eqb Bool.eqb app].
  rewrite !rules_accept_drop by done. unfold rule_ok. simpl. rewrite iif_matches. simpl.
  rewrite !andb_true_r, !andb_true_iff, !negb_true_iff, <- link_local_in, not_true_iff_false by apply Hp. tauto.
Qed.
Lemma open_input l :
  rules_accept t p (rules_of "input" (open_rules "" tap) ++ l) = true ↔
  ¬ link_local (p_daddr p) ∧ rules_accept t p l = true.
Proof using All.
  cbn [open_rules rules_of String.eqb Ascii.eqb Bool.eqb app].
  rewrite !rules_accept_drop by done. unfold rule_ok. simpl. rewrite iif_matches. simpl.
  rewrite !andb_true_r, !andb_true_iff, !negb_true_iff, <- link_local_in, not_true_iff_false by apply Hp. tauto.
Qed.

Lemma last_drop l : rules_accept t p (rule [iifname tap] v_drop :: l) = false.
Proof using All. rewrite rules_accept_drop by done. unfold rule_ok. simpl. by rewrite iif_matches. Qed.

Lemma restricted_forward T g nets outs :
  Forall aligned outs → (∀ n, covered outs n ↔ covered nets n) →
  rules_accept t p (rules_of "forward" (restricted_rules T tap g (net_text <$> outs))) = true
  ↔ ∃ n, p_daddr p = V4 n ∧ covered nets n.
Proof using All.
  intros Ha Hc. unfold restricted_rules.
  assert (rules_of "forward" (match g with Some g => [add_rule fam_inet T "input" (reply_rule tap g)] | None => [] end) = [])
    as Hg by (by destruct g).
  setoid_rewrite <- Hc. rewrite <- addr_in_set by (done || apply Hp).
  rewrite rules_of_app, Hg. cbn [app rules_of String.eqb Ascii.eqb Bool.eqb].
  rewrite rules_accept_drop by done. unfold rule_ok at 1. simpl r_matches. simpl forallb. rewrite iif_matches.
  rewrite andb_true_l, andb_true_r, negb_involutive.
  destruct (net_text <$> outs) as [|a ds] eqn:Hds.
  { cbn [app rules_of String.eqb Ascii.eqb Bool.eqb existsb]. rewrite last_drop, andb_false_r. done. }
  cbn [app rules_of String.eqb Ascii.eqb Bool.eqb]. rewrite rules_accept_accept, last_drop, orb_false_r by done.
  unfold rule_ok. simpl r_matches. cbn [forallb match_ok]. rewrite iif_matches, andb_true_l, andb_true_r.
  rewrite andb_true_iff. split; [by intros []|]. intros He. split; [|done].
  destruct (p_daddr p); [done|]. apply existsb_exists in He as (? & _ & He). done.
Qed.

Lemma restricted_input T guest ds :
  (∀ g, guest = Some g → is_Some (parse_v4 g)) →
  rules_accept t p (rules_of "input"
    (restricted_rules T tap (g ← guest; addr_text <$> parse_v4 g) ds)) = true
  ↔ ∃ g, guest = Some g ∧ is_reply g p.
Proof using All.
  intros Hg. unfold restricted_rules.
  assert (∀ l, rules_accept t p (rule [iifname tap] v_drop :: l) = true ↔ False) as Hlast by (intros; by rewrite last_drop).
  destruct guest as [guest|].
  - destruct (Hg guest eq_refl) as [g Hpg]. simpl. rewrite Hpg. simpl option_map.
    cbn [app rules_of String.eqb Ascii.eqb Bool.eqb fmap option_fmap option_map].
    rewrite rules_accept_accept, orb_true_iff, Hlast, (reply_matches guest) by done. naive_solver.
  - cbn [app rules_of String.eqb Ascii.eqb Bool.eqb mbind option_bind]. rewrite Hlast. naive_solver.
Qed.
End rules.

(** ** Other interfaces *)
Lemma escape_inj a b : escape a = escape b → a = b.
Proof.
  revert b. induction a as [|x a IH]; intros [|y b]; simpl; try done.
  - by destruct (_ || _).
  - by destruct (_ || _).
  - destruct (Ascii.eqb x backslash || Ascii.eqb x dquote) eqn:Hx, (Ascii.eqb y backslash || Ascii.eqb y dquote) eqn:Hy;
      intros H; simplify_eq; f_equal; by apply IH.
Qed.
Lemma quote_inj a b : _quote a = _quote b → a = b.
Proof.
  unfold _quote. intros H. simplify_eq. apply escape_inj.
  assert (∀ x y z w : string, x +:+ String dquote "" = y +:+ String dquote "" → x = y) as Hend.
  { clear. induction x as [|c x IH]; intros [|d y] z w H.
    - done.
    - change (String dquote "" = String d (y +:+ String dquote "")) in H. injection H as _ H. by destruct y.
    - change (String c (x +:+ String dquote "") = String dquote "") in H. injection H as _ H. by destruct x.
    - change (String c (x +:+ String dquote "") = String d (y +:+ String dquote "")) in H.
      injection H as -> H. f_equal. by eapply IH. }
  by eapply Hend.
Qed.
Lemma quote_not_addr tap n s : (0 ≤ n < 2 ^ 32)%Z → _quote tap ≠ addr_text n +:+ s.
Proof.
  intros Hn H. destruct (addr_text_parse n Hn) as [H1 _]. destruct (addr_text n) as [|c a]; [done|].
  unfold _quote in H. change (String c a +:+ s) with (String c (a +:+ s)) in H. injection H as <- _.
  unfold parse_v4 in H1. cbn [str_split] in H1. change (Ascii.eqb dquote "."%char) with false in H1.
  by destruct (str_split "."%char a) as [|w [|w2 [|w3 [|w4 []]]]].
Qed.

(** A table whose rules all name [tap] ignores the packets of other interfaces. *)
Lemma foreign_table tap h p f t :
  is_policy_tap tap = true → p_iif p ≠ tap →
  (∀ n c r, t_chains t !! n = Some c → r ∈ (c_rules c).*2 → iifname tap ∈ r_matches r) →
  table_passes h p f t = true.
Proof.
  intros Ht Hp Hr. apply table_passes_iff. intros _ n c Hc _. unfold chain_accepts. specialize (Hr n c).
  assert (∀ r, r ∈ (c_rules c).*2 → iifname tap ∈ r_matches r) as Hr' by auto. clear Hr. revert Hr'.
  induction ((c_rules c).*2) as [|r l IH]; intros Hr; [done|]. simpl.
  assert (rule_ok t p r = false) as ->; [|apply IH; set_solver].
  apply not_true_iff_false. unfold rule_ok. rewrite forallb_forall. intros Hall.
  specialize (Hall (iifname tap) (proj1 (list_elem_of_In _ _) (Hr r ltac:(set_solver)))). simpl in Hall.
  rewrite policy_tap_matches in Hall by done. by apply String.eqb_eq in Hall.
Qed.

(** Forgetting an allowed interface concerns its own packets only. *)
Lemma forget_tables tap R R' :
  run_script (forget_allowed_tap tap) R = Some R' →
  ∃ t S, rs_tables R !! (fam_inet, _NFT_FILTER_TABLE) = Some t ∧ t_sets t !! _NFT_SET_ALLOWED_TAPS = Some S
    ∧ ∀ k, rs_tables R' !! k = if decide (k = (fam_inet, _NFT_FILTER_TABLE))
        then Some (t_set_sets <[_NFT_SET_ALLOWED_TAPS := S ∖ {[_quote tap]}]> t) else rs_tables R !! k.
Proof.
  unfold forget_allowed_tap. cbn [run_script]. intros H. apply bind_Some in H as (R1 & H1 & H).
  apply bind_Some in H as (R2 & H2 & [= ->]). simpl in H1.
  apply bind_Some in H1 as (t & Ht & H1). apply bind_Some in H1 as (S & HS & [= <-]).
  simpl in H2. rewrite lookup_insert_eq in H2. simpl in H2. rewrite lookup_insert_eq in H2.
  rewrite bool_decide_eq_true_2 in H2 by set_solver. simplify_eq. exists t, S. split_and!; [done..|].
  intros k. simpl. rewrite insert_insert_eq, lookup_insert.
  destruct (decide (k = (fam_inet, _NFT_FILTER_TABLE))) as [->|Hk].
  - rewrite decide_True by done. f_equal. unfold t_set_sets. simpl. f_equal. rewrite insert_insert_eq. f_equal. set_solver.
  - by rewrite decide_False.
Qed.
Lemma forget_passes tap h p R R' :
  p_iif p ≠ tap → packet_ok p → run_script (forget_allowed_tap tap) R = Some R' → passes h p R' = passes h p R.
Proof.
  intros Hp [_ Hok] (t & S & Ht & HS & Hk)%forget_tables. apply passes_ext. intros k. rewrite Hk.
  case_decide as Hd; [subst k; rewrite Ht|by destruct (rs_tables R !! k)].
  apply eq_true_iff_eq. rewrite !table_passes_iff. simpl.
  assert (∀ c, chain_accepts (t_set_sets <[_NFT_SET_ALLOWED_TAPS:=S ∖ {[_quote tap]}]> t) c p = chain_accepts t c p) as Hc.
  { intros c. apply rules_accept_ext. intros r m _ _.
    assert (∀ s e, e ≠ _quote tap → in_set (t_set_sets <[_NFT_SET_ALLOWED_TAPS:=S ∖ {[_quote tap]}]> t) s e = in_set t s e) as Hs.
    { intros s e He. unfold in_set. simpl. rewrite lookup_insert. case_decide; [subst|done]. rewrite HS.
      apply bool_decide_ext. set_solver. }
    destruct m; simpl; try done.
    - apply Hs. by intros ?%quote_inj.
    - destruct (p_daddr p) as [n|]; [|done]. f_equal. apply Hs. intros He. by eapply quote_not_addr. }
  by setoid_rewrite Hc.
Qed.

(** ** A policy script as a whole *)
Abbreviation policy_key tap := (fam_inet, "celesto_policy_" +:+ tap).
Abbreviation filter_key := (_NFT_FILTER_FAMILY, _NFT_FILTER_TABLE).
Abbreviation nat_key := (_NFT_NAT_FAMILY, _NFT_NAT_TABLE).

Lemma policy_key_filter tap : policy_key tap ≠ filter_key.
Proof. intros H. injection H as H. discriminate H. Qed.
Lemma policy_key_inj tap tap' : policy_key tap = policy_key tap' → tap = tap'.
Proof. intros [= H]. exact H. Qed.

Lemma policy_table_names tap lf li t :
  policy_table lf li t → Forall (λ r, iifname tap ∈ r_matches r) (lf ++ li) →
  ∀ n c r, t_chains t !! n = Some c → r ∈ (c_rules c).*2 → iifname tap ∈ r_matches r.
Proof.
  intros [Hr _ _ _] Hn n c r Hc Hin. rewrite (Hr n c Hc) in Hin. rewrite Forall_forall in Hn. apply Hn.
  unfold chain_rules in Hin. repeat case_match; set_solver.
Qed.

Lemma policy_script_effect tap A F R R' :
  is_policy_tap tap = true → policies_ok R →
  Forall (adds_to ("celesto_policy_" +:+ tap)) A →
  Forall (λ r, iifname tap ∈ r_matches r) (rules_of "forward" A ++ rules_of "input" A) →
  F = [] ∨ F = forget_allowed_tap tap →
  run_script (policy_chains ("celesto_policy_" +:+ tap) ++ A ++ F) R = Some R' →
  has_policy ("celesto_policy_" +:+ tap) (rules_of "forward" A) (rules_of "input" A) R' ∧ policies_ok R'
  ∧ (∀ k, k ≠ policy_key tap → k ≠ filter_key → rs_tables R' !! k = rs_tables R !! k)
  ∧ ∀ h p, p_iif p ≠ tap → packet_ok p → passes h p R' = passes h p R.
Proof.
  intros Htap Hok HA Hnames HF (R1 & H1 & (R2 & H2 & H3)%run_script_app)%run_script_app.
  set (T := "celesto_policy_" +:+ tap) in *.
  assert (has_policy T (rules_of "forward" A) (rules_of "input" A) R2) as Hp2.
  { apply (policy_adds T [] [] A R1); [done| |done]. eapply policy_start; [|done]. intros t Ht. by eapply Hok. }
  assert (∀ k, k ≠ policy_key tap → rs_tables R2 !! k = rs_tables R !! k) as Hk2.
  { intros k Hk. rewrite (run_script_elsewhere A R1); [apply (run_script_elsewhere _ _ _ _ H1)|done|].
    - unfold policy_chains. repeat constructor; exact Hk.
    - eapply Forall_impl; [exact HA|]. intros c (n & r & -> & _). exact Hk. }
  assert (∀ k, k ≠ filter_key → rs_tables R' !! k = rs_tables R2 !! k) as Hk3.
  { intros k Hk. destruct HF as [-> | ->]; [by injection H3 as ->|].
    eapply run_script_elsewhere; [exact H3|]. unfold forget_allowed_tap. repeat constructor; exact Hk. }
  assert (has_policy T (rules_of "forward" A) (rules_of "input" A) R') as Hp'.
  { destruct Hp2 as (t & Ht & Hpt). exists t. rewrite Hk3 by apply policy_key_filter. done. }
  split_and!; [done| |intros; by rewrite Hk3, Hk2|].
  - intros tap' t Ht' Ht. destruct (decide (tap' = tap)) as [->|Hne].
    + destruct Hp' as (t' & Hl & Hpt). fold T in Ht. rewrite Ht in Hl. simplify_eq.
      split; [apply Hpt|]. by apply (policy_table_names tap _ _ _ Hpt).
    + apply Hok; [done|]. rewrite <- Hk2, <- Hk3; [done|apply policy_key_filter|]. by intros ?%policy_key_inj.
  - intros h p Hp Hpk. transitivity (passes h p R2).
    { destruct HF as [-> | ->]; [by injection H3 as ->|by eapply forget_passes]. }
    apply passes_ext. intros k. destruct (decide (k = policy_key tap)) as [->|Hk].
    + destruct Hp2 as (t & Ht & Hpt). fold T. rewrite Ht.
      pose proof (foreign_table tap h p fam_inet t Htap Hp (policy_table_names _ _ _ _ Hpt Hnames)) as Hf.
      destruct (rs_tables R !! (fam_inet, T)) as [t0|] eqn:E0; simpl; rewrite Hf; [|done].
      symmetry. apply (foreign_table tap); [done..|]. by eapply Hok.
    + rewrite Hk2 by done. by destruct (rs_tables R !! k).
Qed.

(** ** Preparing the base tables changes no verdict *)
Definition base_only R R' : Prop :=
  (∀ h p, passes h p R' = passes h p R) ∧ ∀ k, k ≠ nat_key → k ≠ filter_key → rs_tables R' !! k = rs_tables R !! k.

Section calls.
Context (E : netenv).
Implicit Types s : nm.

Lemma wp_nm_tick (Q : nat → nm → Prop) X s :
  Q (nm_calls s) (nm_set_calls (S (nm_calls s)) s) → wp nm_tick Q X s.
Proof. done. Qed.
Lemma keeps_script (I : ruleset → Prop) l :
  (∀ R R', I R → run_script l R = Some R' → I R') → keeps (λ s, I (nm_rules s)) (_run_nft_script E l).
Proof.
  intros H s HI. unfold _run_nft_script. apply wp_bind, wp_nm_tick, wp_bind, wp_get.
  destruct (n_fails E (nm_calls s)); [by apply wp_raise|]. simpl.
  destruct (run_script l (nm_rules s)) as [R|] eqn:Hr; [apply wp_modify; by eapply H|by apply wp_raise].
Qed.
Lemma keeps_nm_tick (I : ruleset → Prop) : keeps (λ s, I (nm_rules s)) nm_tick.
Proof. by intros s Hs. Qed.
Lemma keeps_nm_set (I : ruleset → Prop) f :
  (∀ s, nm_rules (f s) = nm_rules s) → keeps (λ s, I (nm_rules s)) (py_modify f).
Proof. intros Hf. apply keeps_modify. intros s. by rewrite Hf. Qed.
Hint Resolve keeps_nm_tick : celesto.

Lemma keeps_table_exists (I : ruleset → Prop) f t : keeps (λ s, I (nm_rules s)) (_nft_table_exists E f t).
Proof. unfold _nft_table_exists. auto with celesto. Qed.
Lemma keeps_missing_chain (I : ruleset → Prop) f t c a : keeps (λ s, I (nm_rules s)) (missing_chain E f t c a).
Proof. unfold missing_chain, _nft_chain_exists. auto 6 with celesto. Qed.
Hint Resolve keeps_table_exists keeps_missing_chain : celesto.

Definition base_line (c : nft_cmd) : bool :=
  declares c && (bool_decide (cmd_key c = nat_key) || bool_decide (cmd_key c = filter_key)).
Lemma base_lines l R R1 R2 :
  forallb base_line l = true → base_only R R1 → run_script l R1 = Some R2 → base_only R R2.
Proof.
  intros Hl [Hp Hk] Hr. assert (forallb declares l = true) as Hd.
  { clear -Hl. induction l as [|c l IH]; [done|]. simpl in *. unfold base_line in Hl. bool_hyps. by apply andb_true_iff; auto. }
  split.
  - intros h p. rewrite <- (Hp h p). by eapply declares_script.
  - intros k H1 H2. rewrite <- (Hk k) by done. eapply run_script_elsewhere; [done|].
    clear -Hl H1 H2. induction l as [|c l IH]; [constructor|]. simpl in Hl.
    apply andb_true_iff in Hl as [Hc Hl]. constructor; [|by apply IH]. intros ->. unfold base_line in Hc.
    apply andb_true_iff in Hc as [_ [Hc|Hc]%orb_true_iff]; by apply bool_decide_eq_true in Hc.
Qed.

Lemma ensure_base_only R : keeps (λ s, base_only R (nm_rules s)) (_ensure_nftables_base E).
Proof.
  unfold _ensure_nftables_base. apply keeps_bind; [auto with celesto|]. intros s0.
  destruct (nm_base_ready s0); [auto with celesto|].
  set (P := λ l, forallb base_line l = true).
  assert (∀ f t c a, base_line a = true → ∀ s, base_only R (nm_rules s) →
            wp (missing_chain E f t c a) (λ l s', base_only R (nm_rules s') ∧ P l) (λ _ s', base_only R (nm_rules s')) s)
    as Hm.
  { intros f t c a Ha s Hs. unfold missing_chain. apply wp_bind. unfold _nft_chain_exists.
    apply wp_bind, wp_nm_tick, wp_bind, wp_get, wp_return, wp_return. split; [done|]. unfold P.
    destruct (_ && _); simpl; [done|]. by rewrite Ha. }
  assert (∀ l1 l2, P l1 → P l2 → P (l1 ++ l2)) as Happ.
  { unfold P. intros l1 l2 H1 H2. by rewrite forallb_app, H1, H2. }
  intros s Hs. apply wp_bind. eapply wp_mono; [by apply (keeps_table_exists (base_only R))| |done]. intros e1 s1 Hs1.
  apply wp_bind. apply (wp_mono _ (λ l s', base_only R (nm_rules s') ∧ P l) _ (λ _ s', base_only R (nm_rules s'))); [| |done].
  { destruct e1; simpl.
    - apply wp_bind. eapply wp_mono; [by apply Hm| |done]. intros l1 s2 [Hs2 P1].
      apply wp_bind. eapply wp_mono; [by apply Hm| |done]. intros l2 s3 [Hs3 P2].
      apply wp_bind. eapply wp_mono; [by apply Hm| |done]. intros l3 s4 [Hs4 P3].
      apply wp_return. split; [done|]. by apply Happ, Happ.
    - by apply wp_return. }
  intros l1 s2 [Hs2 P1]. apply wp_bind.
  eapply wp_mono; [by apply (keeps_table_exists (base_only R))| |done]. intros e2 s3 Hs3.
  apply wp_bind. apply (wp_mono _ (λ l s', base_only R (nm_rules s') ∧ P l) _ (λ _ s', base_only R (nm_rules s'))); [| |done].
  { destruct e2; simpl; [by apply Hm|by apply wp_return]. }
  intros l2 s4 [Hs4 P2]. apply wp_bind. eapply wp_mono; [apply (keeps_script (base_only R))| |done]; [|done|].
  - intros R1 R2 HR Hr. eapply base_lines; [|exact HR|exact Hr]. by apply Happ, Happ.
  - intros [] s5 Hs5. by apply wp_modify.
Qed.
End calls.

Lemma base_only_policies R R' : base_only R R' → policies_ok R → policies_ok R'.
Proof.
  intros [_ Hk] Hok tap t Htap Ht. apply Hok; [done|]. rewrite <- Hk; [done| |apply policy_key_filter].
  intros H. injection H as H. discriminate H.
Qed.
