(* ===== verification/NetworkPolicy.v ===== *)
(** * Network policies of an interface: what they enforce, and that they apply

    [apply_network_policy] and [apply_public_proxy_policy] as whole calls:
    the base tables are prepared, the script runs as one transaction, and the
    table it leaves decides exactly which packets of the interface pass. *)
From S2P Require Import Prelude PyHoare PyDict PyStr IpAddress IpNetwork Nft NftListing NftTables HostNetwork HostNetworkProofs.
From stdpp Require Import options.
From Stdlib Require Import Ascii.

Implicit Types (R : ruleset) (p : packet) (h : hook).

(** ** The scripts run *)
(** Declarations succeed when their tables are there or declared before. *)
Definition is_add_table (c : nft_cmd) : bool := match c with add_table _ _ => true | _ => false end.
Fixpoint declared (known : list (nft_family * string)) (l : list nft_cmd) : bool :=
  match l with
  | [] => true
  | c :: l' => declares c && (is_add_table c || bool_decide (cmd_key c ∈ known)) && declared (cmd_key c :: known) l'
  end.
Definition has_table R k : Prop := is_Some (rs_tables R !! k).
Definition has_set R k (x : string) : Prop := ∃ t, rs_tables R !! k = Some t ∧ is_Some (t_sets t !! x).

(** Tables and sets only grow. *)
Definition grows R R' : Prop := (∀ k, has_table R k → has_table R' k) ∧ (∀ k x, has_set R k x → has_set R' k x).
#[local] Instance grows_preorder : PreOrder grows.
Proof. split; [by split|]. intros R1 R2 R3 [] []. split; eauto. Qed.

Lemma grows_set R k t' :
  (∀ t x, rs_tables R !! k = Some t → is_Some (t_sets t !! x) → is_Some (t_sets t' !! x)) → grows R (rs_set k t' R).
Proof.
  intros Hs. split; [intros k'|intros k' x]; unfold has_table, has_set; simpl; rewrite lookup_insert;
    case_decide as Hd; subst; eauto. intros (t & Ht & Hx). eauto.
Qed.
Lemma grows_keep_sets R k t t' : rs_tables R !! k = Some t → t_sets t' = t_sets t → grows R (rs_set k t' R).
Proof. intros Ht Hs. apply grows_set. intros. simplify_eq. by rewrite Hs. Qed.
Lemma has_table_set R k t : has_table (rs_set k t R) k.
Proof. unfold has_table. simpl. rewrite lookup_insert_eq. eauto. Qed.

Lemma declares_runs c R :
  declares c = true → is_add_table c = true ∨ has_table R (cmd_key c) →
  ∃ R', run_cmd c R = Some R' ∧ grows R R' ∧ has_table R' (cmd_key c)
    ∧ ∀ f t x ty, c = add_set f t x ty → has_set R' (f, t) x.
Proof.
  intros Hd Hk. destruct c; try done; simpl in *;
    [destruct (rs_tables R !! (f, t)) as [tbl|] eqn:Et|destruct Hk as [|[tbl Et]]; [done|]; rewrite Et; simpl;
     match goal with |- context [match ?x with Some _ => R | None => _ end] => destruct x eqn:Ex end..];
    (eexists; split; [reflexivity|split_and!]); try done; try (by apply has_table_set); try (by eexists);
    try (by eapply grows_keep_sets).
  all: try (apply grows_set; by rewrite Et).
  - intros ???? [= <- <- <- <-]. by exists tbl.
  - apply grows_set. intros t0 x Ht Hx. simplify_eq. simpl. rewrite lookup_insert. case_decide; eauto.
  - intros ???? [= <- <- <- <-]. eexists. simpl. rewrite lookup_insert_eq. split; [done|]. simpl. rewrite lookup_insert_eq. eauto.
Qed.
Lemma declared_runs known l R :
  declared known l = true → Forall (has_table R) known →
  ∃ R', run_script l R = Some R' ∧ grows R R' ∧ Forall (λ c, has_table R' (cmd_key c)) l
    ∧ ∀ f t x ty, add_set f t x ty ∈ l → has_set R' (f, t) x.
Proof.
  revert known R. induction l as [|c l IH]; intros known R Hd Hk; cbn [declared run_script] in *.
  { exists R. split_and!; [done..|set_solver]. }
  apply andb_true_iff in Hd as [[Hc Ht]%andb_true_iff Hd].
  destruct (declares_runs c R Hc) as (R1 & H1 & Hg & Hkey & Hset).
  { apply orb_true_iff in Ht as [?|Ht]; [by left|right]. apply bool_decide_eq_true in Ht.
    rewrite Forall_forall in Hk. auto. }
  destruct (IH (cmd_key c :: known) R1 Hd) as (R' & H' & Hg' & Ht' & Hs').
  { constructor; [done|]. eapply Forall_impl; [exact Hk|]. apply Hg. }
  exists R'. rewrite H1. split_and!; [exact H'|by etransitivity|constructor; [by apply Hg'|done]|].
  intros f t x ty [Hin|Hin]%elem_of_cons; [apply Hg'; by eapply Hset|by eapply Hs'].
Qed.

(** Calls succeed when no command fails. *)
Section no_failure.
Context (E : netenv) (HE : ∀ n, n_fails E n = false).
Local Abbreviation runs m Q s := (wp m (λ a s', Q a s') (λ _ _, False) s).

Lemma script_runs l (s : nm) R' :
  run_script l (nm_rules s) = Some R' → runs (_run_nft_script E l) (λ _ s', nm_rules s' = R') s.
Proof using HE.
  intros Hr. unfold _run_nft_script. apply wp_bind, wp_nm_tick, wp_bind, wp_get. rewrite HE. simpl. rewrite Hr.
  by apply wp_modify.
Qed.
(** A call that only looks at the rules. *)
Lemma runs_look {A B} (m : py nm A) (k : A → py nm B) P Q s :
  runs m (λ a s', nm_rules s' = nm_rules s ∧ P a) s →
  (∀ a s', nm_rules s' = nm_rules s → P a → runs (k a) Q s') → runs (py_bind m k) Q s.
Proof. intros Hm Hk. apply wp_bind. eapply wp_mono; [exact Hm| |done]. intros a s' []. by apply Hk. Qed.

(** A part of the base script: it declares things of the table [k], which is
    there before or is declared first. *)
Definition prepares R k (l : list nft_cmd) : Prop :=
  ∃ known, declared known l = true ∧ Forall (has_table R) known ∧ (k ∈ known ∨ ∃ c, c ∈ l ∧ cmd_key c = k).
Lemma prepares_runs R R0 k l :
  prepares R k l → grows R R0 → ∃ R1, run_script l R0 = Some R1 ∧ grows R0 R1 ∧ has_table R1 k.
Proof.
  intros (known & Hl & Hk & Hin) Hg. destruct (declared_runs known l R0) as (R1 & H1 & Hg1 & Ht1 & _); [done| |].
  { eapply Forall_impl; [exact Hk|]. apply Hg. }
  exists R1. split_and!; [done..|]. rewrite Forall_forall in Hk. rewrite Forall_forall in Ht1.
  destruct Hin as [Hin|(c & Hin & <-)]; [by apply Hg1, Hg, Hk|by apply Ht1].
Qed.

Lemma ensure_base_runs (s : nm) :
  nm_base_ready s = false →
  runs (_ensure_nftables_base E) (λ _ s', has_set (nm_rules s') filter_key _NFT_SET_ALLOWED_TAPS) s.
Proof using HE.
  intros Hb. unfold _ensure_nftables_base. apply wp_bind, wp_get. rewrite Hb. set (R := nm_rules s).
  assert (∀ f t s, runs (_nft_table_exists E f t)
            (λ b s', nm_rules s' = nm_rules s ∧ (b = true → has_table (nm_rules s) (f, t))) s) as Hex.
  { intros f t s0. unfold wp. simpl. rewrite HE. simpl. split; [done|]. unfold has_table. by destruct (_ !! _). }
  eapply runs_look; [apply Hex|]. intros nat s1 H1 Hnat. fold R in H1, Hnat.
  eapply (runs_look _ _ (prepares R nat_key)).
  { destruct nat; unfold wp; simpl; (split; [done|]).
    - exists [nat_key]. split; [by repeat case_match|]. split; [by repeat constructor; apply Hnat|set_solver].
    - exists []. split; [done|]. split; [done|]. right. eexists. split; [by left|done]. }
  intros l1 s2 H2 Hl1. eapply runs_look; [apply Hex|]. intros filter s3 H3 Hfilter. rewrite H2, H1 in *.
  eapply (runs_look _ _ (prepares R filter_key)).
  { destruct filter; unfold wp; simpl; (split; [done|]).
    - exists [filter_key]. split; [by repeat case_match|]. split; [by repeat constructor; apply Hfilter|set_solver].
    - exists []. split; [done|]. split; [done|]. right. eexists. split; [by left|done]. }
  intros l2 s4 H4 Hl2. rewrite H3 in *. apply wp_bind.
  destruct (prepares_runs R R nat_key l1) as (R1 & Hr1 & Hg1 & Ht1); [done..|].
  destruct (prepares_runs R R1 filter_key l2) as (R2 & Hr2 & Hg2 & Ht2); [done..|].
  match goal with |- context [_run_nft_script E (l1 ++ l2 ++ ?l)] =>
    destruct (declared_runs [nat_key; filter_key] l R2) as (R3 & Hr3 & _ & _ & Hset) end; [done| |].
  { repeat constructor; [by apply Hg2|done]. }
  eapply wp_mono; [apply (script_runs _ _ R3)| |done].
  - rewrite H4. apply run_script_app. exists R1. split; [done|]. apply run_script_app. eauto.
  - intros [] s5 H5. apply wp_modify. simpl. rewrite H5. eapply Hset. repeat (apply elem_of_cons; (by left) || right).
Qed.
End no_failure.

(** The script of a policy runs: its rules name addresses only. *)
Definition rule_closed (c : nft_cmd) : Prop := ∀ f T n r, c = add_rule f T n r → ∀ t, rule_valid t r = true.
Lemma policy_chains_run T R : ∃ R', run_script (policy_chains T) R = Some R' ∧ grows R R'.
Proof.
  unfold policy_chains. cbn [run_script].
  destruct (declares_runs (add_table fam_inet T) R) as (R1 & -> & Hg1 & [t Ht] & _); [done|by left|].
  set (R2 := rs_set (fam_inet, T) (t_set_chains (fmap (λ c, {| c_hook := c_hook c; c_rules := [] |})) t) R1).
  assert (run_cmd (flush_table fam_inet T) R1 = Some R2) as Hf by (simpl in *; by rewrite Ht).
  assert (grows R1 R2) as Hg2 by (by eapply grows_keep_sets).
  destruct (declares_runs (add_chain fam_inet T "forward" "filter" forward "-10") R2)
    as (R3 & Hr3 & Hg3 & Ht3 & _); [done|right; apply has_table_set|].
  destruct (declares_runs (add_chain fam_inet T "input" "filter" input "-10") R3)
    as (R4 & Hr4 & Hg4 & _); [done|right; exact Ht3|].
  exists R4. cbn [mbind option_bind]. rewrite Hf. cbn [mbind option_bind]. rewrite Hr3. cbn [mbind option_bind].
  rewrite Hr4. split; [done|]. do 3 (etransitivity; [eassumption|]). done.
Qed.
Lemma policy_adds_run T lf li l R :
  Forall (adds_to T) l → Forall rule_closed l → has_policy T lf li R → ∃ R', run_script l R = Some R' ∧ grows R R'.
Proof.
  revert lf li R. induction l as [|c l IH]; intros lf li R Ha Hc Hp; [by exists R|].
  apply Forall_cons in Ha as [(n & r & -> & Hn) Ha]. apply Forall_cons in Hc as [Hr Hc].
  pose proof Hp as (t & Ht & Hpt). assert (is_Some (t_chains t !! n)) as [ch Hch] by (destruct Hn as [-> | ->]; apply Hpt).
  set (R1 := {| rs_tables := <[(fam_inet, T) := t_set_chains <[n := {| c_hook := c_hook ch;
                     c_rules := c_rules ch ++ [(rs_handle R, r)] |}]> t]> (rs_tables R); rs_handle := S (rs_handle R) |}).
  assert (run_cmd (add_rule fam_inet T n r) R = Some R1) as H1
    by (simpl; rewrite Ht; simpl; rewrite Hch; simpl; by rewrite (Hr _ _ _ _ eq_refl)).
  destruct (IH _ _ R1 Ha Hc (policy_add _ _ _ _ _ _ _ Hn Hp H1)) as (R' & Hr' & Hg').
  exists R'. cbn [run_script]. rewrite H1. split; [exact Hr'|]. etransitivity; [|exact Hg'].
  destruct (grows_keep_sets R (fam_inet, T) t (t_set_chains <[n := {| c_hook := c_hook ch;
                     c_rules := c_rules ch ++ [(rs_handle R, r)] |}]> t)) as [G1 G2]; [done..|]. split; [apply G1|apply G2].
Qed.
Lemma forget_runs tap R :
  has_set R filter_key _NFT_SET_ALLOWED_TAPS → ∃ R', run_script (forget_allowed_tap tap) R = Some R'.
Proof.
  intros (t & Ht & S & HS). unfold forget_allowed_tap. cbn [run_script run_cmd].
  change (fam_inet, _NFT_FILTER_TABLE) with filter_key. rewrite Ht. cbn [mbind option_bind]. rewrite HS. simpl.
  rewrite lookup_insert_eq. simpl. rewrite lookup_insert_eq, bool_decide_eq_true_2 by set_solver. simpl. eauto.
Qed.

Lemma policy_call_runs (E : netenv) tap A F (s : nm) :
  (∀ n, n_fails E n = false) → is_policy_tap tap = true → policies_ok (nm_rules s) → nm_base_ready s = false →
  Forall (adds_to ("celesto_policy_" +:+ tap)) A → Forall rule_closed A → F = [] ∨ F = forget_allowed_tap tap →
  wp (let! script := py_lift (Ret (policy_chains ("celesto_policy_" +:+ tap) ++ A ++ F)) in
      do! _ensure_nftables_base E in _run_nft_script E script) (λ _ _, True) (λ _ _, False) s.
Proof.
  intros HE Htap Hok Hb HA Hc HF. apply wp_bind, wp_lift; [|done]. intros l [= <-]. apply wp_bind, wp_intro.
  2: { intros s1 e H1. pose proof (ensure_base_runs E HE s Hb) as Hw. by apply (wp_eq _ _ _ _ _ _ Hw) in H1. }
  intros s1 [] H1. pose proof (wp_eq _ _ _ _ _ _ (ensure_base_runs E HE s Hb) H1) as Hset. cbv beta in Hset.
  pose proof (wp_eq _ _ _ _ _ _ (ensure_base_only E (nm_rules s) s (conj (λ _ _, eq_refl) (λ _ _ _, eq_refl))) H1) as Hbase.
  apply (base_only_policies _ _ Hbase) in Hok. cbv beta in Hok.
  destruct (policy_chains_run ("celesto_policy_" +:+ tap) (nm_rules s1)) as (R1 & Hr1 & Hg1).
  assert (has_policy ("celesto_policy_" +:+ tap) [] [] R1) as Hp by (eapply policy_start; [|done]; intros t Ht; by eapply Hok).
  destruct (policy_adds_run _ _ _ A R1 HA Hc Hp) as (R2 & Hr2 & Hg2).
  assert (∃ R3, run_script F R2 = Some R3) as [R3 Hr3].
  { destruct HF as [-> | ->]; [by eexists|]. apply forget_runs. by apply Hg2, Hg1. }
  eapply wp_mono; [apply (script_runs E HE _ s1 R3)|done..].
  apply (proj2 (run_script_app (policy_chains _) (A ++ F) _ _)). exists R1. split; [done|]. apply run_script_app. eauto.
Qed.
Lemma runs_ret {A} (m : py nm A) (s : nm) : wp m (λ _ _, True) (λ _ _, False) s → ∃ a, (m s).2 = Ret a.
Proof. unfold wp. destruct (m s) as [s' [a|e]]; [eauto|done]. Qed.

(** [apply_network_policy] and [apply_public_proxy_policy]: prepare the base
    tables, run the script. *)
Lemma policy_call (E : netenv) tap A F (o : outcome (list nft_cmd)) (s : nm) :
  is_policy_tap tap = true → policies_ok (nm_rules s) →
  o = Ret (policy_chains ("celesto_policy_" +:+ tap) ++ A ++ F) →
  Forall (adds_to ("celesto_policy_" +:+ tap)) A →
  Forall (λ r, iifname tap ∈ r_matches r) (rules_of "forward" A ++ rules_of "input" A) →
  F = [] ∨ F = forget_allowed_tap tap →
  wp (let! script := py_lift o in do! _ensure_nftables_base E in _run_nft_script E script)
    (λ _ s', has_policy ("celesto_policy_" +:+ tap) (rules_of "forward" A) (rules_of "input" A) (nm_rules s')
             ∧ policies_ok (nm_rules s')
             ∧ ∀ h p, p_iif p ≠ tap → packet_ok p → passes h p (nm_rules s') = passes h p (nm_rules s))
    (λ _ s', base_only (nm_rules s) (nm_rules s')) s.
Proof.
  intros Htap Hok -> HA Hn HF. apply wp_bind, wp_lift; [|done]. intros l [= <-]. apply wp_bind.
  eapply wp_mono; [apply ensure_base_only; by split| |done]. intros [] s1 Hs1.
  unfold _run_nft_script. apply wp_bind, wp_nm_tick, wp_bind, wp_get.
  destruct (n_fails E (nm_calls s1)); [by apply wp_raise|]. simpl nm_rules.
  destruct (run_script _ (nm_rules s1)) as [R|] eqn:Hr; [|by apply wp_raise]. apply wp_modify. simpl.
  apply policy_script_effect in Hr as (H1 & H2 & _ & H4); [|done|by eapply base_only_policies|done..].
  split_and!; [done..|]. intros h p Hp Hpk. rewrite H4 by done. apply Hs1.
Qed.

Lemma policy_table_ret tap T : _policy_table tap = Ret T → is_policy_tap tap = true ∧ T = "celesto_policy_" +:+ tap.
Proof. unfold _policy_table. destruct (is_policy_tap tap); [by intros [= <-]|done]. Qed.
Lemma ipv4_text_ret g T : ipv4_text g = Ret T → ∃ n, parse_v4 g = Some n ∧ T = addr_text n.
Proof. unfold ipv4_text. destruct (parse_v4 g); [intros [= <-]; eauto|done]. Qed.
Lemma parse_networks_aligned l nets : parse_networks l = Ret nets → Forall aligned nets.
Proof.
  revert nets. induction l as [|a l IH]; intros nets; simpl; [intros [= <-]; constructor|].
  destruct (IPv4Network true a) as [x|] eqn:Ha; [|done]. destruct (parse_networks l) as [xs|]; [|done].
  intros [= <-]. constructor; [by eapply IPv4Network_aligned|by apply IH].
Qed.

(** The rules of the script of a policy. *)
Definition policy_rules (T tap : string) (guest : option string) (nets : option (list net4)) : list nft_cmd :=
  open_rules T tap
  ++ match nets with
     | Some nets => restricted_rules T tap (g ← guest; addr_text <$> parse_v4 g) (net_text <$> collapse_addresses nets)
     | None => []
     end.

Lemma policy_script_ret tap allowed guest l :
  _network_policy_script tap allowed guest = Ret l →
  is_policy_tap tap = true ∧ (∀ g, guest = Some g → is_Some (parse_v4 g))
  ∧ (∀ l, allowed = Some l → ∃ nets, parse_networks l = Ret nets)
  ∧ l = policy_chains ("celesto_policy_" +:+ tap)
        ++ policy_rules ("celesto_policy_" +:+ tap) tap guest (allowed_networks allowed)
        ++ (if is_some allowed then forget_allowed_tap tap else []).
Proof.
  unfold _network_policy_script. destruct (_policy_table tap) as [T|] eqn:HT; [|done].
  apply policy_table_ret in HT as [Htap ->]. cbn [mbind outcome_bind].
  assert (∀ g, match guest with Some g => t ← ipv4_text g; Ret (Some t) | None => Ret None end = Ret g →
            (∀ x, guest = Some x → is_Some (parse_v4 x)) ∧ g = (x ← guest; addr_text <$> parse_v4 x)) as Hg.
  { intros g. destruct guest as [x|]; [|by intros [= <-]]. simpl.
    destruct (ipv4_text x) as [t|] eqn:Hx; [|done]. intros [= <-]. apply ipv4_text_ret in Hx as (n & Hn & ->).
    rewrite Hn. split; [|done]. intros ? [= <-]. eauto. }
  destruct (match guest with Some g => t ← ipv4_text g; Ret (Some t) | None => Ret None end) as [g|] eqn:Eg; [|done].
  destruct (Hg g eq_refl) as [Hsome ->]. cbn [mbind outcome_bind].
  unfold policy_rules, allowed_networks. destruct allowed as [ips|].
  - destruct (parse_networks ips) as [nets|] eqn:Hn; [|done]. cbn [mbind outcome_bind is_some]. intros [= <-].
    split_and!; [done..| |by rewrite <- !app_assoc]. intros ? [= <-]. eauto.
  - cbn [is_some]. intros [= <-]. split_and!; [done..|by rewrite <- !app_assoc].
Qed.

Lemma policy_rules_add T tap guest nets : Forall (adds_to T) (policy_rules T tap guest nets).
Proof.
  assert (∀ r, adds_to T (add_rule fam_inet T "forward" r)) as Hf by (intros r; unfold adds_to; eauto).
  assert (∀ r, adds_to T (add_rule fam_inet T "input" r)) as Hi by (intros r; unfold adds_to; eauto).
  unfold policy_rules, open_rules, restricted_rules. apply Forall_app. split; [auto|]. destruct nets as [nets|]; [|auto].
  repeat (apply Forall_app; split); try case_match; auto.
Qed.
Lemma policy_rules_name T tap guest nets :
  Forall (λ r, iifname tap ∈ r_matches r)
    (rules_of "forward" (policy_rules T tap guest nets) ++ rules_of "input" (policy_rules T tap guest nets)).
Proof.
  assert (∀ l n, Forall (λ c, ∀ m r, c = add_rule fam_inet T m r → iifname tap ∈ r_matches r) l → Forall (adds_to T) l →
            Forall (λ r, iifname tap ∈ r_matches r) (rules_of n l)) as H.
  { intros l n. induction l as [|c l IH]; intros H1 H2; [constructor|].
    apply Forall_cons in H1 as [H1 ?]. apply Forall_cons in H2 as [(m & r & -> & _) ?]. simpl.
    destruct (String.eqb m n); [constructor; [by eapply H1|]|]; auto. }
  apply Forall_app. split; apply H; try apply policy_rules_add;
    unfold policy_rules, open_rules, restricted_rules; apply Forall_app; (split; [|destruct nets; [|constructor]]);
    repeat (apply Forall_app; split); try case_match; repeat constructor; intros; simplify_eq; simpl; set_solver.
Qed.

Lemma allowed_aligned allowed :
  (∀ l, allowed = Some l → ∃ nets, parse_networks l = Ret nets) →
  ∀ l, allowed_networks allowed = Some l → Forall aligned l.
Proof.
  intros Ha l. unfold allowed_networks. destruct allowed as [ips|]; [|done].
  destruct (Ha ips eq_refl) as [ns Hns]. rewrite Hns. intros [= <-]. by eapply parse_networks_aligned.
Qed.
Lemma policy_rules_closed T tap guest nets :
  (∀ l, nets = Some l → Forall aligned l) → Forall rule_closed (policy_rules T tap guest nets).
Proof.
  intros Hal. assert (∀ f c r, (∀ t, rule_valid t r = true) → rule_closed (add_rule f T c r)) as Hr.
  { intros f c r Hr f' T' c' r' [= <- <- <- <-]. done. }
  unfold policy_rules, open_rules, restricted_rules. apply Forall_app. split; [by repeat constructor; apply Hr|].
  destruct nets as [nets|]; [|done]. apply Forall_app. split.
  { destruct guest as [g|]; simpl; [|done]. destruct (parse_v4 g) as [n|] eqn:Hg; simpl; [|done].
    repeat constructor. apply Hr. intros t. unfold rule_valid, addr_net. simpl. unfold addr_net.
    by rewrite addr_text_reads by (by eapply parse_v4_bound). }
  apply Forall_app. split; [by repeat constructor; apply Hr|]. apply Forall_app. split; [|by repeat constructor; apply Hr].
  destruct (net_text <$> collapse_addresses nets) as [|d ds] eqn:Hds; [done|]. repeat constructor. apply Hr. intros t.
  unfold rule_valid. simpl r_matches. cbn [forallb match_valid]. rewrite !andb_true_l, !andb_true_r.
  change (forallb (λ a, is_some (addr_net a)) (d :: ds) = true). rewrite <- Hds. apply forallb_forall. intros a (x & -> & Hx)%list_elem_of_In%list_elem_of_fmap.
  destruct (collapse_addresses_spec nets (Hal _ eq_refl)) as [Hcan _]. unfold addr_net.
  rewrite (IPv4Network_lax _ x); [done|]. apply net_text_reads. pose proof (ca_aligned _ Hcan) as Ho.
  rewrite Forall_forall in Ho. by apply Ho.
Qed.

(** What a table with the rules of a policy lets through. *)
Lemma network_policy_decides tap allowed guest t p :
  is_policy_tap tap = true → (∀ g, guest = Some g → is_Some (parse_v4 g)) →
  (∀ l, allowed = Some l → ∃ nets, parse_networks l = Ret nets) →
  let A := policy_rules ("celesto_policy_" +:+ tap) tap guest (allowed_networks allowed) in
  policy_table (rules_of "forward" A) (rules_of "input" A) t → p_iif p = tap → packet_ok p →
  (table_passes forward p fam_inet t = true ↔ may_forward (allowed_networks allowed) p)
  ∧ (table_passes input p fam_inet t = true ↔ may_input (allowed_networks allowed) guest p).
Proof.
  intros Htap Hg Ha A Hpt Hiif Hp. destruct (policy_table_passes _ _ _ p Hpt) as [Hf Hi]. rewrite Hf, Hi.
  set (T := "celesto_policy_" +:+ tap) in *. unfold A, policy_rules. rewrite !rules_of_app.
  change (rules_of "forward" (open_rules T tap)) with (rules_of "forward" (open_rules "" tap)).
  change (rules_of "input" (open_rules T tap)) with (rules_of "input" (open_rules "" tap)).
  rewrite open_forward, open_input by done. unfold may_forward, may_input, allowed_networks.
  destruct allowed as [ips|]; [|simpl; tauto]. destruct (Ha ips eq_refl) as [ns Hns]. rewrite Hns.
  destruct (collapse_addresses_spec ns (parse_networks_aligned _ _ Hns)) as [Hcan Hcov].
  rewrite (restricted_forward tap t p Htap Hiif Hp T _ ns) by (done || apply Hcan). by rewrite restricted_input.
Qed.

(** C20: a network policy is enforced exactly, and only on its own interface.
    When [apply_network_policy] returns, whatever rules the host had: the
    policy's table forwards a packet of the interface iff it does not go to
    another guest or a link-local address and, when destinations were given,
    it is IPv4 and lies in one of them; towards the host it lets through,
    when destinations were given, only replies of the guest to TCP connections
    of the host; since a drop is final, no other rule can admit more.  Packets
    of every other interface are judged exactly as before.  When it raises, no
    packet is judged differently than before; on a manager that has prepared
    nothing yet it raises only for a bad interface name, an address that does
    not parse, or a failing command. *)
Theorem network_policy_enforced (E : netenv) (tap : string) (allowed : option (list string)) (guest : option string)
    (s : nm) :
  policies_ok (nm_rules s) →
  let r := apply_network_policy E tap allowed guest s in
  let R' := nm_rules r.1 in
  policies_ok R'
  ∧ match r.2 with
    | Ret _ =>
        (∃ t, rs_tables R' !! (fam_inet, "celesto_policy_" +:+ tap) = Some t
         ∧ ∀ p, p_iif p = tap → packet_ok p →
             (table_passes forward p fam_inet t = true ↔ may_forward (allowed_networks allowed) p)
             ∧ (table_passes input p fam_inet t = true ↔ may_input (allowed_networks allowed) guest p)
             ∧ (passes forward p R' = true → may_forward (allowed_networks allowed) p)
             ∧ (passes input p R' = true → may_input (allowed_networks allowed) guest p))
        ∧ ∀ h p, p_iif p ≠ tap → packet_ok p → passes h p R' = passes h p (nm_rules s)
    | Raise _ =>
        (∀ h p, passes h p R' = passes h p (nm_rules s))
        ∧ ((∀ n, n_fails E n = false) → nm_base_ready s = false → ∀ l, _network_policy_script tap allowed guest ≠ Ret l)
    end.
Proof.
  intros Hok. cbv zeta. unfold apply_network_policy.
  destruct (_network_policy_script tap allowed guest) as [l|e] eqn:Hs; [|split; [done|split; [done|]]; intros; discriminate].
  apply policy_script_ret in Hs as (Htap & Hg & Ha & ->).
  set (nets := allowed_networks allowed). set (T := "celesto_policy_" +:+ tap).
  pose proof (policy_call E tap (policy_rules T tap guest nets) (if is_some allowed then forget_allowed_tap tap else [])
    _ s Htap Hok eq_refl (policy_rules_add _ _ _ _) (policy_rules_name _ _ _ _)) as Hw.
  specialize (Hw ltac:(destruct allowed; auto)). fold T in Hw.
  pose proof (λ HE Hb, policy_call_runs E tap (policy_rules T tap guest nets) (if is_some allowed then forget_allowed_tap tap else [])
    s HE Htap Hok Hb (policy_rules_add _ _ _ _) (policy_rules_closed _ _ _ _ (allowed_aligned _ Ha))) as Hret.
  fold T in Hret. unfold wp in Hw, Hret.
  match type of Hw with match ?m with _ => _ end => destruct m as [s' [[]|e]] end;
    simpl; [|split; [by eapply base_only_policies|split; [apply Hw|]]].
  2: { intros HE Hb. exfalso. apply (Hret HE Hb). destruct allowed; auto. }
  clear Hret.
  destruct Hw as ((t & Ht & Hpt) & Hok' & Hother). split; [done|]. split; [|done].
  exists t. split; [done|]. intros p Hiif Hp.
  destruct (network_policy_decides tap allowed guest t p) as [Hfw Hin]; [done..|].
  split_and!; [done..| |]; intros Hpass; [apply Hfw|apply Hin]; by apply (proj1 (passes_iff _ _ _) Hpass (fam_inet, T)).
Qed.

(** The rules of the script of the proxy policy. *)
Definition proxy_rules (T tap guest proxy : string) (port : Z) : list nft_cmd :=
  [add_rule fam_inet T "input" (reply_rule tap guest);
   add_rule fam_inet T "input"
     (rule [iifname tap; ip_saddr guest; ip_daddr proxy; tcp_dport port; ct_states [ct_new; ct_established]] v_accept);
   add_rule fam_inet T "input" (rule [iifname tap] v_drop);
   add_rule fam_inet T "forward" (rule [iifname tap] v_drop)].
(** A packet of the guest to the proxy. *)
Definition to_proxy (guest proxy : string) (port : Z) p : Prop :=
  (∃ g, parse_v4 guest = Some g ∧ p_saddr p = V4 g) ∧ (∃ x, parse_v4 proxy = Some x ∧ p_daddr p = V4 x)
  ∧ p_tcp p = true ∧ p_dport p = port ∧ (p_ct p = ct_new ∨ p_ct p = ct_established).

Lemma proxy_script_ret tap guest proxy port l :
  _public_proxy_policy_script tap guest proxy port = Ret l →
  is_policy_tap tap = true ∧ ∃ g x, parse_v4 guest = Some g ∧ parse_v4 proxy = Some x
  ∧ l = policy_chains ("celesto_policy_" +:+ tap)
        ++ proxy_rules ("celesto_policy_" +:+ tap) tap (addr_text g) (addr_text x) port ++ forget_allowed_tap tap.
Proof.
  unfold _public_proxy_policy_script. destruct (_policy_table tap) as [T|] eqn:HT; [|done].
  apply policy_table_ret in HT as [Htap ->]. cbn [mbind outcome_bind].
  destruct (ipv4_text guest) as [tg|] eqn:Hg; [|done]. apply ipv4_text_ret in Hg as (g & Hg & ->).
  cbn [mbind outcome_bind]. destruct (ipv4_text proxy) as [tx|] eqn:Hx; [|done].
  apply ipv4_text_ret in Hx as (x & Hx & ->). cbn [mbind outcome_bind]. unfold guard_raise.
  destruct (negb _); [done|]. cbn [mbind outcome_bind]. intros [= <-]. eauto 10.
Qed.
Lemma proxy_rules_add T tap g x port : Forall (adds_to T) (proxy_rules T tap g x port).
Proof. unfold proxy_rules. repeat constructor; unfold adds_to; eauto. Qed.
Lemma proxy_rules_name T tap g x port :
  Forall (λ r, iifname tap ∈ r_matches r)
    (rules_of "forward" (proxy_rules T tap g x port) ++ rules_of "input" (proxy_rules T tap g x port)).
Proof. simpl. repeat constructor; simpl; set_solver. Qed.
Lemma proxy_rules_closed T tap guest proxy g x port :
  parse_v4 guest = Some g → parse_v4 proxy = Some x →
  Forall rule_closed (proxy_rules T tap (addr_text g) (addr_text x) port).
Proof.
  intros Hg%parse_v4_bound Hx%parse_v4_bound. unfold proxy_rules. repeat constructor; intros ???? [= <- <- <- <-] t;
    unfold rule_valid; simpl; unfold addr_net; by rewrite ?addr_text_reads.
Qed.

Lemma proxy_input T tap guest proxy port g x t p :
  is_policy_tap tap = true → p_iif p = tap → packet_ok p → parse_v4 guest = Some g → parse_v4 proxy = Some x →
  rules_accept t p (rules_of "input" (proxy_rules T tap (addr_text g) (addr_text x) port)) = true
  ↔ is_reply guest p ∨ to_proxy guest proxy port p.
Proof.
  intros Htap Hiif Hp Hg Hx. cbn [proxy_rules rules_of String.eqb Ascii.eqb Bool.eqb].
  rewrite !rules_accept_accept, last_drop, orb_false_r, orb_true_iff, (reply_matches tap t p Htap Hiif Hp guest) by done.
  apply or_iff_compat_l. unfold rule_ok. simpl. rewrite iif_matches by done. rewrite !andb_true_iff.
  rewrite !addr_in_host by (apply Hp || by eapply parse_v4_bound). unfold to_proxy.
  rewrite bool_decide_eq_true, Z.eqb_eq. split.
  - intros (_ & ? & ? & [? ?] & Hc & _). split_and!; eauto. set_solver.
  - intros ((g' & ? & ?) & (x' & ? & ?) & ? & ? & Hc). simplify_eq. split_and!; try done. set_solver.
Qed.

Lemma proxy_policy_decides tap guest proxy port g x t p :
  is_policy_tap tap = true → parse_v4 guest = Some g → parse_v4 proxy = Some x →
  let A := proxy_rules ("celesto_policy_" +:+ tap) tap (addr_text g) (addr_text x) port in
  policy_table (rules_of "forward" A) (rules_of "input" A) t → p_iif p = tap → packet_ok p →
  table_passes forward p fam_inet t = false
  ∧ (table_passes input p fam_inet t = true ↔ is_reply guest p ∨ to_proxy guest proxy port p).
Proof.
  intros Htap Hg Hx A Hpt Hiif Hp. destruct (policy_table_passes _ _ _ p Hpt) as [Hf Hi].
  split; [|by rewrite Hi; apply proxy_input]. rewrite Hf. apply last_drop; done.
Qed.

(** Under the proxy policy a guest reaches nothing but the proxy.  When
    [apply_public_proxy_policy] returns, no packet of the interface is
    forwarded, whatever other rules the host has, and towards the host the
    table lets through exactly the guest's replies to TCP connections of the
    host and its TCP packets to the proxy's address and port.  Packets of every
    other interface are judged as before; when it raises, all packets are, and
    on a manager that has prepared nothing yet it raises only for a bad
    interface name, address or port, or a failing command. *)
Theorem public_proxy_policy_enforced (E : netenv) (tap guest proxy : string) (port : Z) (s : nm) :
  policies_ok (nm_rules s) →
  let r := apply_public_proxy_policy E tap guest proxy port s in
  let R' := nm_rules r.1 in
  policies_ok R'
  ∧ match r.2 with
    | Ret _ =>
        (∃ t, rs_tables R' !! (fam_inet, "celesto_policy_" +:+ tap) = Some t
         ∧ ∀ p, p_iif p = tap → packet_ok p →
             passes forward p R' = false
             ∧ (table_passes input p fam_inet t = true ↔ is_reply guest p ∨ to_proxy guest proxy port p)
             ∧ (passes input p R' = true → is_reply guest p ∨ to_proxy guest proxy port p))
        ∧ ∀ h p, p_iif p ≠ tap → packet_ok p → passes h p R' = passes h p (nm_rules s)
    | Raise _ =>
        (∀ h p, passes h p R' = passes h p (nm_rules s))
        ∧ ((∀ n, n_fails E n = false) → nm_base_ready s = false →
           ∀ l, _public_proxy_policy_script tap guest proxy port ≠ Ret l)
    end.
Proof.
  intros Hok. cbv zeta. unfold apply_public_proxy_policy.
  destruct (_public_proxy_policy_script tap guest proxy port) as [l|e] eqn:Hs; [|split; [done|split; [done|]]; intros; discriminate].
  apply proxy_script_ret in Hs as (Htap & g & x & Hg & Hx & ->). set (T := "celesto_policy_" +:+ tap).
  pose proof (policy_call E tap (proxy_rules T tap (addr_text g) (addr_text x) port) (forget_allowed_tap tap)
    _ s Htap Hok eq_refl (proxy_rules_add _ _ _ _ _) (proxy_rules_name _ _ _ _ _) (or_intror eq_refl)) as Hw.
  pose proof (λ HE Hb, policy_call_runs E tap (proxy_rules T tap (addr_text g) (addr_text x) port) (forget_allowed_tap tap)
    s HE Htap Hok Hb (proxy_rules_add _ _ _ _ _) (proxy_rules_closed _ _ _ _ _ _ _ Hg Hx) (or_intror eq_refl)) as Hret.
  fold T in Hw, Hret. unfold wp in Hw, Hret.
  match type of Hw with match ?m with _ => _ end => destruct m as [s' [[]|e]] end;
    simpl; [|split; [by eapply base_only_policies|split; [apply Hw|]]].
  2: { intros HE Hb. by destruct (Hret HE Hb). }
  clear Hret.
  destruct Hw as ((t & Ht & Hpt) & Hok' & Hother). split; [done|]. split; [|done].
  exists t. split; [done|]. intros p Hiif Hp.
  destruct (proxy_policy_decides tap guest proxy port g x t p) as [Hf Hi]; [done..|].
  assert (∀ h, passes h p (nm_rules s') = true → table_passes h p fam_inet t = true) as Hpass
    by (intros h H; by apply (proj1 (passes_iff _ _ _) H (fam_inet, T))).
  split_and!; [|done|].
  - apply not_true_iff_false. intros H%Hpass. congruence.
  - intros H%Hpass. by apply Hi.
Qed.

(** ** The text nft reads *)
Definition lines_of (s : string) : list string := str_split (ascii_of_nat 10) s.
Definition quoted (s : string) : string := String dquote (s +:+ String dquote "").
Example policy_script_text :
  (l ← _network_policy_script "tap7" (Some ["10.0.0.0/25"; "10.0.0.128/25"; "1.1.1.1"]) (Some "172.16.0.5");
   Ret (lines_of (script_text l)))
  = Ret ["add table inet celesto_policy_tap7"; "flush table inet celesto_policy_tap7";
         "add chain inet celesto_policy_tap7 forward { type filter hook forward priority -10; policy accept; }";
         "add chain inet celesto_policy_tap7 input { type filter hook input priority -10; policy accept; }";
         "add rule inet celesto_policy_tap7 forward iifname " +:+ quoted "tap7" +:+ " oifname " +:+ quoted "tap*" +:+ " counter drop";
         "add rule inet celesto_policy_tap7 forward iifname " +:+ quoted "tap7" +:+ " ip daddr 169.254.0.0/16 counter drop";
         "add rule inet celesto_policy_tap7 input iifname " +:+ quoted "tap7" +:+ " ip daddr 169.254.0.0/16 counter drop";
         "add rule inet celesto_policy_tap7 input iifname " +:+ quoted "tap7"
           +:+ " ip saddr 172.16.0.5 meta l4proto tcp ct direction reply ct state established counter accept";
         "add rule inet celesto_policy_tap7 input iifname " +:+ quoted "tap7" +:+ " counter drop";
         "add rule inet celesto_policy_tap7 forward iifname " +:+ quoted "tap7" +:+ " meta nfproto ipv6 counter drop";
         "add rule inet celesto_policy_tap7 forward iifname " +:+ quoted "tap7"
           +:+ " ip daddr { 1.1.1.1/32, 10.0.0.0/24 } counter accept";
         "add rule inet celesto_policy_tap7 forward iifname " +:+ quoted "tap7" +:+ " counter drop";
         "add element inet celesto_filter allowed_taps { " +:+ quoted "tap7" +:+ " }";
         "delete element inet celesto_filter allowed_taps { " +:+ quoted "tap7" +:+ " }"; ""].
Proof. vm_compute. reflexivity. Qed.

(** ** Instances *)
Definition quiet_host : netenv :=
  {| n_fails := λ _, false; n_listing := list_table; n_detect := Ret "eth0"; n_sysctl := λ _, true; n_host_ip := "172.16.0.1" |}.
Definition new_nm : nm :=
  {| nm_rules := {| rs_tables := ∅; rs_handle := 0 |}; nm_calls := 0; nm_outbound := None; nm_base_ready := false;
     nm_map_rules_ready := false; nm_forwarding := false |}.
Lemma new_policies_ok : policies_ok (nm_rules new_nm).
Proof. intros tap t _ Ht. simpl in Ht. by rewrite lookup_empty in Ht. Qed.

(** A packet from [tap3] to 10.1.2.3, allowed, and to 11.0.0.1, not. *)
Definition packet_to (daddr : Z) : packet :=
  {| p_iif := "tap3"; p_oif := "eth0"; p_saddr := V4 2886729733; p_daddr := V4 daddr; p_tcp := true; p_dport := 443;
     p_ct := ct_new; p_reply := false |}.
Lemma network_policy_enforced_witness :
  let r := apply_network_policy quiet_host "tap3" (Some ["10.0.0.0/8"]) (Some "172.16.0.5") new_nm in
  r.2 = Ret tt ∧ policies_ok (nm_rules r.1)
  ∧ passes forward (packet_to 167838211) (nm_rules r.1) = true
  ∧ passes forward (packet_to 184549377) (nm_rules r.1) = false.
Proof.
  cbv zeta.
  destruct (network_policy_enforced quiet_host "tap3" (Some ["10.0.0.0/8"]) (Some "172.16.0.5") new_nm new_policies_ok)
    as [Hok _].
  split; [vm_compute; reflexivity|]. split; [exact Hok|]. split; vm_compute; reflexivity.
Defined.
Lemma public_proxy_policy_enforced_witness :
  let r := apply_public_proxy_policy quiet_host "tap3" "172.16.0.5" "172.16.0.1" 3128 new_nm in
  r.2 = Ret tt ∧ policies_ok (nm_rules r.1) ∧ passes forward (packet_to 167838211) (nm_rules r.1) = false.
Proof.
  cbv zeta.
  destruct (public_proxy_policy_enforced quiet_host "tap3" "172.16.0.5" "172.16.0.1" 3128 new_nm new_policies_ok)
    as [Hok _].
  split; [vm_compute; reflexivity|]. split; [exact Hok|]. vm_compute; reflexivity.
Defined.
