(* ===== verification/NetworkOps.v ===== *)
(** * Sequences of operations of the network manager

    Every operation of [NetworkManager] that runs nft, as a step; what a policy
    enforces stays enforced through any of them until the policy itself is
    replaced or removed. *)
From S2P Require Import Prelude PyHoare PyDict PyStr IpAddress IpNetwork Nft NftListing NftTables HostNetwork HostNetworkProofs NetworkPolicy.
From stdpp Require Import options.
From Stdlib Require Import Ascii.

Implicit Types (R : ruleset) (p : packet) (h : hook).

(** ** Operations other than policies leave every policy table alone *)
Section frame.
Set Default Proof Using "All".
Context (E : netenv) (k : nft_family * string) (v : option nft_table).
Context (Hnat : k ≠ nat_key) (Hfilter : k ≠ filter_key).
Local Abbreviation I := (λ s, rs_tables (nm_rules s) !! k = v).
Local Abbreviation elsewhere l := (Forall (λ c, k ≠ cmd_key c) l).

Lemma frame_nft_script l : elsewhere l → keeps I (_run_nft_script E l).
Proof.
  intros Hl. apply (keeps_script E (λ R, rs_tables R !! k = v)). intros R R' <- Hr. by eapply run_script_elsewhere.
Qed.
Lemma frame_set f : (∀ s, nm_rules (f s) = nm_rules s) → keeps I (py_modify f).
Proof. apply (keeps_nm_set (λ R, rs_tables R !! k = v)). Qed.
Lemma frame_tick : keeps I nm_tick.
Proof. apply (keeps_nm_tick (λ R, rs_tables R !! k = v)). Qed.
Lemma frame_base : keeps I (_ensure_nftables_base E).
Proof.
  intros s Hs. assert (base_only (nm_rules s) (nm_rules s)) as Hb by done.
  eapply wp_mono; [by apply (ensure_base_only E (nm_rules s))|intros ? s'|intros ? s']; intros [_ H]; by rewrite H.
Qed.
(** A call that keeps the rules and returns commands that act elsewhere. *)
Lemma frame_lines (m : py nm (list nft_cmd)) (f : list nft_cmd → py nm unit) :
  (∀ s, I s → wp m (λ l s', I s' ∧ elsewhere l) (λ _, I) s) → (∀ l, elsewhere l → keeps I (f l)) → keeps I (py_bind m f).
Proof.
  intros Hm Hf s Hs. apply wp_bind. eapply wp_mono; [by apply Hm| |done]. intros l s' []. by apply Hf.
Qed.

Lemma frame_nft_list m f t : keeps I (nft_list E m f t).
Proof.
  unfold nft_list. apply keeps_bind; [apply frame_tick|]. intros n. apply keeps_bind; [auto with celesto|]. intros s.
  destruct (if n_fails E n then None else _); [|unfold command_failed]; auto with celesto.
Qed.
Lemma frame_list f t b : keeps I (_nft_list_table E f t b).
Proof. apply keeps_try; [apply frame_nft_list|]. intros []; auto with celesto. Qed.
Lemma frame_find f t c cp s :
  k ≠ (f, t) → I s → wp (_find_nft_delete_rule_lines E f t c cp) (λ l s', I s' ∧ elsewhere l) (λ _, I) s.
Proof.
  intros Hk Hs. unfold _find_nft_delete_rule_lines. destruct (_ && _); [by apply wp_raise|].
  apply wp_bind. eapply wp_mono; [by apply frame_list| |done]. intros l s' Hs'. destruct (String.eqb l ""); [by apply wp_return|]. apply wp_return. split; [done|].
  induction (_extract_table_rule_handles l) as [|[c' [k' h]] l' IH]; simpl; [done|]. destruct (comment_selected _ _ _); auto.
Qed.
Lemma frame_delete f t c cp : k ≠ (f, t) → keeps I (_delete_nft_rules E f t c cp).
Proof.
  intros Hk. apply frame_lines; [intros; by apply frame_find|]. intros [|x l] Hl; [auto with celesto|by apply frame_nft_script].
Qed.
Lemma frame_elements l : elsewhere l → keeps I (_delete_nft_elements_best_effort E l).
Proof.
  intros Hl s Hs. apply wp_for; [|done]. intros c s' Hc Hs'. rewrite Forall_forall in Hl.
  apply keeps_try; [apply frame_nft_script; auto|intros []; auto with celesto|done].
Qed.
Definition specs_elsewhere (l : list rule_spec) : Prop := Forall (λ '(f, t, _, _, _), k ≠ (f, t)) l.
Lemma frame_missing l cache s :
  specs_elsewhere l → I s → wp (missing_rules E l cache) (λ l s', I s' ∧ elsewhere l) (λ _, I) s.
Proof.
  revert cache s. induction l as [|[[[[f t] c] r] com] l IH]; intros cache s Hl Hs; simpl; [by apply wp_return|].
  apply Forall_cons in Hl as [Hk Hl]. apply wp_bind.
  apply (wp_mono _ (λ _ s', I s') _ (λ _ s', I s')); [|intros known s1 Hs1|done].
  { destruct (dget _ _); [by apply wp_return|]. by apply keeps_bind; [apply frame_list|auto with celesto|]. }
  case_bool_decide; [by apply IH|]. apply wp_bind. eapply wp_mono; [by apply IH| |done].
  intros more s2 []. apply wp_return. split; [done|]. by constructor.
Qed.
Lemma frame_add l : specs_elsewhere l → keeps I (_add_nft_rules_if_missing E l).
Proof.
  intros Hl. apply frame_lines; [intros; by apply frame_missing|].
  intros [|x lines] Hls; [auto with celesto|by apply frame_nft_script].
Qed.
Lemma frame_outbound : keeps I (outbound_interface E).
Proof.
  unfold outbound_interface. apply keeps_bind; [auto with celesto|]. intros s. destruct (nm_outbound s); [auto with celesto|].
  eauto using frame_set with celesto.
Qed.
Lemma frame_forwarding : keeps I (enable_ip_forwarding E).
Proof.
  unfold enable_ip_forwarding. apply keeps_bind; [auto with celesto|]. intros s. destruct (nm_forwarding s); [auto with celesto|].
  eauto using frame_set, frame_tick with celesto.
Qed.
Lemma frame_check vm_id ip hp gp : keeps I (check_forward vm_id ip hp gp).
Proof. unfold check_forward, nonempty, check_port. auto with celesto. Qed.
Lemma frame_nonempty x m : keeps I (nonempty x m).
Proof. unfold nonempty. auto with celesto. Qed.
Lemma frame_map_rules iface : keeps I (_ensure_map_rules E iface).
Proof.
  unfold _ensure_map_rules. apply keeps_bind; [auto with celesto|]. intros s.
  destruct (nm_map_rules_ready s); [auto with celesto|].
  apply keeps_bind; [|intros; by apply frame_set]. apply frame_add. unfold specs_elsewhere. by repeat constructor.
Qed.
End frame.

(** ** Steps *)
Inductive net_op :=
| Setup_nat (tap : string) (allow_outbound : bool)
| Cleanup_nat_rules (tap : string)
| Setup_ssh_port_forward (vm_id guest_ip : string) (host_port guest_port : Z)
| Cleanup_ssh_port_forward (vm_id guest_ip : string) (host_port guest_port : Z)
| Setup_local_port_forward (vm_id guest_ip : string) (host_port guest_port : Z)
| Cleanup_local_port_forward (vm_id guest_ip : string) (host_port guest_port : Z)
| Cleanup_all_local_port_forwards (vm_id : string)
| Apply_egress_allowlist (tap : string) (allowed_ips : list string)
| Remove_egress_rules (tap : string)
| Apply_network_policy (tap : string) (allowed_ips : option (list string)) (guest_ip : option string)
| Apply_public_proxy_policy (tap guest_ip proxy_host_ip : string) (proxy_port : Z)
| Remove_network_policy (tap : string).

Section steps.
Context (E : netenv).

Definition run_net_op (o : net_op) : py nm unit :=
  match o with
  | Setup_nat tap a => setup_nat E tap a
  | Cleanup_nat_rules tap => cleanup_nat_rules E tap
  | Setup_ssh_port_forward v ip hp gp => setup_ssh_port_forward E v ip hp gp
  | Cleanup_ssh_port_forward v ip hp gp => cleanup_ssh_port_forward E v ip hp gp
  | Setup_local_port_forward v ip hp gp => setup_local_port_forward E v ip hp gp
  | Cleanup_local_port_forward v ip hp gp => cleanup_local_port_forward E v ip hp gp
  | Cleanup_all_local_port_forwards v => cleanup_all_local_port_forwards E v
  | Apply_egress_allowlist tap ips => apply_egress_allowlist E tap ips
  | Remove_egress_rules tap => remove_egress_rules E tap
  | Apply_network_policy tap ips g => apply_network_policy E tap ips g
  | Apply_public_proxy_policy tap g x port => apply_public_proxy_policy E tap g x port
  | Remove_network_policy tap => remove_network_policy E tap
  end.
(** Operations one after the other; each may raise, and what it did stays. *)
Definition run_net_ops (l : list net_op) (s : nm) : nm := foldl (λ s o, (run_net_op o s).1) s l.
End steps.

(** The interface whose policy an operation replaces or removes. *)
Definition policy_of (o : net_op) : option string :=
  match o with
  | Apply_network_policy tap _ _ | Apply_public_proxy_policy tap _ _ _ | Remove_network_policy tap => Some tap
  | _ => None
  end.

Lemma keeps_first {S A} (I : S → Prop) (m : py S A) s : keeps I m → I s → I (m s).1.
Proof. intros H HI. specialize (H s HI). unfold wp in H. by destruct (m s) as [s' []]. Qed.

Section others.
Context (E : netenv) (k : nft_family * string) (v : option nft_table).
Context (Hnat : k ≠ nat_key) (Hfilter : k ≠ filter_key).
Set Default Proof Using "All".
Local Abbreviation I := (λ s, rs_tables (nm_rules s) !! k = v).

Create HintDb nftframe.
#[local] Hint Resolve keeps_return keeps_raise keeps_lift keeps_get keeps_bind keeps_when frame_nft_script frame_tick frame_nft_list
  frame_base frame_list frame_delete frame_elements frame_add frame_outbound frame_forwarding frame_check frame_nonempty
  frame_map_rules : nftframe.
#[local] Hint Extern 1 (specs_elsewhere _ _) => unfold specs_elsewhere; repeat constructor; exact Hnat || exact Hfilter : nftframe.
#[local] Hint Extern 1 (Forall _ _) => repeat constructor; exact Hnat || exact Hfilter : nftframe.

Lemma frame_plain o : policy_of o = None → keeps I (run_net_op E o).
Proof.
  intros Ho. destruct o; try done; simpl;
    unfold setup_nat, cleanup_nat_rules, setup_ssh_port_forward, cleanup_ssh_port_forward, cleanup_local_port_forward,
      cleanup_all_local_port_forwards, remove_egress_rules; auto 30 with nftframe.
  - unfold setup_local_port_forward. do 3 (apply keeps_bind; [auto with nftframe|intros]).
    apply keeps_bind; [|auto with nftframe]. apply keeps_try; [auto with nftframe|]. intros []; auto with nftframe.
  - unfold apply_egress_allowlist. do 3 (apply keeps_bind; [auto with nftframe|intros]).
    apply (frame_lines E k v Hnat Hfilter); [intros; by apply frame_find|]. intros l1 H1.
    apply (frame_lines E k v Hnat Hfilter); [intros; by apply frame_find|]. intros l2 H2.
    apply keeps_bind; [|auto with nftframe]. apply frame_nft_script; [done..|].
    apply Forall_app. split; [|by apply Forall_app]. destruct allowed_ips; repeat constructor; exact Hfilter.
Qed.
End others.

Lemma policy_key_nat tap : policy_key tap ≠ nat_key.
Proof. intros H. injection H as H. discriminate H. Qed.

(** A policy operation on another interface acts on that interface's table and
    on the filter table. *)
Definition acts_for (tap : string) (c : nft_cmd) : Prop := cmd_key c = policy_key tap ∨ cmd_key c = filter_key.
Lemma acts_elsewhere tap tap' l :
  tap' ≠ tap → Forall (acts_for tap') l → Forall (λ c, policy_key tap ≠ cmd_key c) l.
Proof.
  intros Hne Hl. eapply Forall_impl; [exact Hl|]. intros c [-> | ->]; [|apply policy_key_filter]. intros H%policy_key_inj. by subst.
Qed.
Lemma adds_act tap l : Forall (adds_to ("celesto_policy_" +:+ tap)) l → Forall (acts_for tap) l.
Proof. intros Hl. eapply Forall_impl; [exact Hl|]. intros c (n & r & -> & _). by left. Qed.
Lemma chains_act tap A F :
  Forall (adds_to ("celesto_policy_" +:+ tap)) A → F = [] ∨ F = forget_allowed_tap tap →
  Forall (acts_for tap) (policy_chains ("celesto_policy_" +:+ tap) ++ A ++ F).
Proof.
  intros HA HF. apply Forall_app. split; [repeat constructor|apply Forall_app; split; [by apply adds_act|]].
  destruct HF as [-> | ->]; [constructor|]. by do 2 (apply Forall_cons; split; [by right|]).
Qed.

Section policies.
Context (E : netenv).

Lemma frame_policy o tap v :
  policy_of o ≠ Some tap → keeps (λ s, rs_tables (nm_rules s) !! policy_key tap = v) (run_net_op E o).
Proof.
  intros Ho. pose proof (policy_key_nat tap) as Hn. pose proof (policy_key_filter tap) as Hf.
  destruct (policy_of o) as [tap'|] eqn:Hp; [|by apply frame_plain].
  assert (∀ l, Forall (acts_for tap') l →
            keeps (λ s, rs_tables (nm_rules s) !! policy_key tap = v) (_run_nft_script E l)) as Hrun.
  { intros l Hl. apply frame_nft_script; [done..|]. apply (acts_elsewhere _ tap'); [congruence|done]. }
  destruct o; simplify_eq/=.
  - unfold apply_network_policy. intros s Hs. apply wp_bind, wp_lift; [|done].
    intros l (_ & _ & _ & ->)%policy_script_ret. apply wp_bind. eapply wp_mono; [by apply frame_base| |done].
    intros [] s1 Hs1. apply Hrun; [|done]. apply chains_act; [apply policy_rules_add|]. destruct allowed_ips; auto.
  - unfold apply_public_proxy_policy. intros s Hs. apply wp_bind, wp_lift; [|done].
    intros l (_ & g & x & _ & _ & ->)%proxy_script_ret. apply wp_bind. eapply wp_mono; [by apply frame_base| |done].
    intros [] s1 Hs1. apply Hrun; [|done]. apply chains_act; [apply proxy_rules_add|auto].
  - unfold remove_network_policy. intros s Hs. apply wp_bind, wp_lift; [|done].
    intros T [_ ->]%policy_table_ret. apply Hrun; [|done]. repeat constructor.
Qed.

(** What a policy operation that returned lets its interface's packets do. *)
Definition op_allows (o : net_op) h p : Prop :=
  match o, h with
  | Apply_network_policy _ allowed _, forward => may_forward (allowed_networks allowed) p
  | Apply_network_policy _ allowed guest, input => may_input (allowed_networks allowed) guest p
  | Apply_public_proxy_policy _ _ _ _, forward => False
  | Apply_public_proxy_policy _ guest proxy port, input => is_reply guest p ∨ to_proxy guest proxy port p
  | _, _ => True
  end.
(** The table of [tap] decides as [o] says. *)
Definition enforces (o : net_op) (tap : string) R : Prop :=
  ∃ t, rs_tables R !! policy_key tap = Some t
    ∧ ∀ h p, p_iif p = tap → packet_ok p → table_passes h p fam_inet t = true → op_allows o h p.

Lemma plain_policies o s :
  policy_of o = None → policies_ok (nm_rules s) →
  wp (run_net_op E o) (λ _ s', policies_ok (nm_rules s')) (λ _ s', policies_ok (nm_rules s')) s.
Proof.
  intros Ho Hok. assert (∀ tap, rs_tables (nm_rules (run_net_op E o s).1) !! policy_key tap = rs_tables (nm_rules s) !! policy_key tap) as Hk.
  { intros tap. apply (keeps_first _ _ _ (frame_policy o tap (rs_tables (nm_rules s) !! policy_key tap) ltac:(by rewrite Ho))). done. }
  unfold wp. destruct (run_net_op E o s) as [s' []]; intros tap t; simpl in Hk; rewrite Hk; apply Hok.
Qed.
Lemma network_policies tap allowed_ips guest_ip s :
  policies_ok (nm_rules s) →
  wp (apply_network_policy E tap allowed_ips guest_ip)
    (λ _ s', policies_ok (nm_rules s') ∧ enforces (Apply_network_policy tap allowed_ips guest_ip) tap (nm_rules s'))
    (λ _ s', policies_ok (nm_rules s')) s.
Proof.
  intros Hok.
  unfold apply_network_policy. destruct (_network_policy_script tap allowed_ips guest_ip) as [l|e] eqn:Hs; [|done].
  apply policy_script_ret in Hs as (Htap & Hg & Ha & ->).
  eapply wp_mono; [apply (policy_call E tap (policy_rules ("celesto_policy_" +:+ tap) tap guest_ip (allowed_networks allowed_ips))
      (if is_some allowed_ips then forget_allowed_tap tap else []));
      [done..|apply policy_rules_add|apply policy_rules_name|destruct allowed_ips; auto]| |intros e s' Hb; exact (base_only_policies _ _ Hb Hok)].
  intros [] s' ((t & Ht & Hpt) & Hok' & _). split; [done|]. exists t. split; [done|].
  intros h p Hiif Hpk. destruct (network_policy_decides tap allowed_ips guest_ip t p) as [Hf Hi]; [done..|].
  destruct h; simpl; [done|apply Hi|apply Hf|done..].
Qed.
Lemma proxy_policies tap guest_ip proxy_host_ip proxy_port s :
  policies_ok (nm_rules s) →
  wp (apply_public_proxy_policy E tap guest_ip proxy_host_ip proxy_port)
    (λ _ s', policies_ok (nm_rules s') ∧ enforces (Apply_public_proxy_policy tap guest_ip proxy_host_ip proxy_port) tap (nm_rules s'))
    (λ _ s', policies_ok (nm_rules s')) s.
Proof.
  intros Hok.
  unfold apply_public_proxy_policy.
  destruct (_public_proxy_policy_script tap guest_ip proxy_host_ip proxy_port) as [l|e] eqn:Hs; [|done].
  apply proxy_script_ret in Hs as (Htap & g & x & Hg & Hx & ->).
  eapply wp_mono; [apply (policy_call E tap (proxy_rules ("celesto_policy_" +:+ tap) tap (addr_text g) (addr_text x) proxy_port)
      (forget_allowed_tap tap)); [done..|apply proxy_rules_add|apply proxy_rules_name|by right]| |intros e s' Hb; exact (base_only_policies _ _ Hb Hok)].
  intros [] s' ((t & Ht & Hpt) & Hok' & _). split; [done|]. exists t. split; [done|].
  intros h p Hiif Hpk. destruct (proxy_policy_decides tap guest_ip proxy_host_ip proxy_port g x t p) as [Hf Hi]; [done..|].
  destruct h; simpl; [done|apply Hi|by rewrite Hf|done..].
Qed.
Lemma removed_table_gone k R R' : run_script [add_table k.1 k.2; delete_table k.1 k.2] R = Some R' → rs_tables R' !! k = None.
Proof.
  intros (R1 & _ & Hr)%(run_script_app [_] [_]). destruct k as [f t]. cbn in Hr.
  apply bind_Some in Hr as (? & (t1 & _ & [= <-])%bind_Some & [= <-]). cbn. by rewrite lookup_delete_eq.
Qed.
Lemma remove_policies tap s :
  policies_ok (nm_rules s) →
  wp (remove_network_policy E tap) (λ _ s', policies_ok (nm_rules s')) (λ _ s', policies_ok (nm_rules s')) s.
Proof.
  intros Hok. unfold remove_network_policy. apply wp_bind, wp_lift; [|done]. intros T [Htap ->]%policy_table_ret.
  apply (keeps_script E policies_ok); [|done]. intros R R' HR Hr tap' t Ht' Hl.
  destruct (decide (tap' = tap)) as [->|Hne].
  - by rewrite (removed_table_gone (policy_key tap) _ _ Hr) in Hl.
  - apply HR; [done|]. rewrite <- (run_script_elsewhere _ _ _ (policy_key tap') Hr); [done|].
    repeat constructor; intros H%policy_key_inj; by subst.
Qed.
Lemma op_policies o s :
  policies_ok (nm_rules s) →
  wp (run_net_op E o)
    (λ _ s', policies_ok (nm_rules s')
       ∧ ∀ tap, policy_of o = Some tap → (∀ t, o ≠ Remove_network_policy t) → enforces o tap (nm_rules s'))
    (λ _ s', policies_ok (nm_rules s')) s.
Proof.
  intros Hok. destruct (policy_of o) as [tap|] eqn:Hp.
  2: { eapply wp_mono; [by apply plain_policies|done..]. }
  destruct o; simplify_eq/=.
  - eapply wp_mono; [by apply network_policies| |done]. intros [] s' []. split; [done|]. by intros ? [= <-].
  - eapply wp_mono; [by apply proxy_policies| |done]. intros [] s' []. split; [done|]. by intros ? [= <-].
  - eapply wp_mono; [by apply remove_policies| |done]. intros [] s' Hs'. split; [done|]. intros ? _ Hrem. by destruct (Hrem tap).
Qed.

Lemma ops_policies_ok l s : policies_ok (nm_rules s) → policies_ok (nm_rules (run_net_ops E l s)).
Proof.
  revert s. induction l as [|o l IH]; intros s Hs; [done|]. apply IH. pose proof (op_policies o s Hs) as Hw.
  unfold wp in Hw. destruct (run_net_op E o s) as [s' []]; [apply Hw|exact Hw].
Qed.
Lemma ops_keep_table l tap s :
  Forall (λ o, policy_of o ≠ Some tap) l →
  rs_tables (nm_rules (run_net_ops E l s)) !! policy_key tap = rs_tables (nm_rules s) !! policy_key tap.
Proof.
  revert s. induction l as [|o l IH]; intros s Hl; [done|]. apply Forall_cons in Hl as [Ho Hl].
  change (run_net_ops E (o :: l) s) with (run_net_ops E l (run_net_op E o s).1). rewrite IH by done.
  by apply (keeps_first _ _ _ (frame_policy o tap _ Ho)).
Qed.
End policies.

(** C19: a policy stays in force.  Take a host without policies of its own,
    any sequence of operations of the manager (NAT, port forwards, egress
    allowlists, policies, their removal; any of which may fail), then a policy
    that was applied to an interface, then again any sequence of operations
    that does not replace or remove that interface's policy: every packet of
    the interface that the resulting rule set lets through is one that the
    policy allows. *)
Theorem policy_stays_in_force (E : netenv) (before after : list net_op) (o : net_op) (tap : string) (s0 s1 : nm) :
  (∀ t, is_policy_tap t = true → rs_tables (nm_rules s0) !! (fam_inet, "celesto_policy_" +:+ t) = None) →
  policy_of o = Some tap → (∀ t, o ≠ Remove_network_policy t) →
  run_net_op E o (run_net_ops E before s0) = (s1, Ret tt) →
  Forall (λ o', policy_of o' ≠ Some tap) after →
  ∀ h p, p_iif p = tap → packet_ok p → passes h p (nm_rules (run_net_ops E after s1)) = true → op_allows o h p.
Proof.
  intros H0 Ho Hrem Hrun Hafter h p Hiif Hp Hpass.
  assert (policies_ok (nm_rules (run_net_ops E before s0))) as Hok.
  { apply ops_policies_ok. intros t tbl Ht. by rewrite H0. }
  pose proof (wp_eq _ _ _ _ _ _ (op_policies E o _ Hok) Hrun) as [_ Hen]. simpl in Hen.
  destruct (Hen tap Ho Hrem) as (t & Ht & Hdec). apply (Hdec h p); [done..|].
  apply (proj1 (passes_iff _ _ _) Hpass (policy_key tap)). by rewrite ops_keep_table.
Qed.

(** ** A host *)
(** A new TCP connection of a guest to an address and port. *)
Definition connection (tap oif : string) (saddr daddr port : Z) : packet :=
  {| p_iif := tap; p_oif := oif; p_saddr := V4 saddr; p_daddr := V4 daddr; p_tcp := true; p_dport := port;
     p_ct := ct_new; p_reply := false |}.

Lemma returned {A} (x : A * outcome unit) : x.2 = Ret tt → x = (x.1, Ret tt).
Proof. destruct x. simpl. by intros ->. Qed.
Lemma policy_stays_in_force_witness :
  let o := Apply_public_proxy_policy "tap3" "172.16.0.5" "172.16.0.1" 3128 in
  let s1 := (run_net_op quiet_host o (run_net_ops quiet_host [Setup_nat "tap3" true] new_nm)).1 in
  let after := [Setup_nat "tap3" true; Setup_ssh_port_forward "vm1" "172.16.0.5" 2222 22;
                Remove_network_policy "tap4"] in
  passes forward (connection "tap3" "eth0" 2886729733 134744072 443) (nm_rules (run_net_ops quiet_host after s1)) = false.
Proof.
  cbv zeta. apply not_true_iff_false. intros H.
  apply (policy_stays_in_force quiet_host [Setup_nat "tap3" true] 
    [Setup_nat "tap3" true; Setup_ssh_port_forward "vm1" "172.16.0.5" 2222 22; Remove_network_policy "tap4"]
    (Apply_public_proxy_policy "tap3" "172.16.0.5" "172.16.0.1" 3128) "tap3" new_nm
    (run_net_op quiet_host (Apply_public_proxy_policy "tap3" "172.16.0.5" "172.16.0.1" 3128)
       (run_net_ops quiet_host [Setup_nat "tap3" true] new_nm)).1) in H.
  - exact H.
  - intros t _. reflexivity.
  - reflexivity.
  - discriminate.
  - apply returned. vm_compute. reflexivity.
  - repeat constructor; discriminate.
  - reflexivity.
  - unfold packet_ok. simpl. lia.
Defined.
(** Without the policy the same connection passes. *)
Example nat_lets_through :
  passes forward (connection "tap3" "eth0" 2886729733 134744072 443)
    (nm_rules (run_net_ops quiet_host [Setup_nat "tap3" true] new_nm)) = true.
Proof. vm_compute. reflexivity. Qed.

(** [apply_egress_allowlist] takes the interface out of the allowed set last
    and ignores a failure to do so.  Then it returns, yet the rule that accepts
    allowed interfaces comes first and a guest that should reach nothing still
    reaches everything. *)
Definition last_call_fails (s : nm) (o : net_op) : netenv :=
  let n := (nm_calls (run_net_op quiet_host o s).1 - 1)%nat in
  {| n_fails := Nat.eqb n; n_listing := list_table; n_detect := Ret "eth0"; n_sysctl := λ _, true; n_host_ip := "172.16.0.1" |}.
Example egress_allowlist_without_effect :
  let s := run_net_ops quiet_host [Setup_nat "tap3" true] new_nm in
  let E := last_call_fails s (Apply_egress_allowlist "tap3" []) in
  let r := run_net_op E (Apply_egress_allowlist "tap3" []) s in
  let p := connection "tap3" "eth0" 2886729733 134744072 443 in
  r.2 = Ret tt ∧ passes forward p (nm_rules r.1) = true
  ∧ passes forward p (nm_rules (run_net_op quiet_host (Apply_egress_allowlist "tap3" []) s).1) = false.
Proof. vm_compute. auto. Qed.
