(* ===== verification/NftCleanup.v ===== *)
(** * Removing rules by their comment

    The manager finds its rules in nft's listing and deletes them by handle.
    Against any nft that prints its tables in the documented format, the
    cleanups remove exactly the rules of the computer they are for. *)
From S2P Require Import Prelude PyHoare PyDict PyStr IpAddress IpNetwork Env Nft NftListing HostNetwork NftTables.
From S2P Require Import HostNetworkProofs NetworkPolicy.
From stdpp Require Import options.
From Stdlib Require Import Ascii.

(** What the program relies on of nft's listings: the layout of NftTables.v. *)
Class FaithfulListing (E : netenv) : Prop :=
  listing_format f t tbl : readable f t tbl → laid_out list_handles tbl (n_listing E list_handles f t tbl).
#[global] Instance quiet_host_faithful : FaithfulListing quiet_host.
Proof. intros f t tbl. apply list_table_laid_out. Qed.

(** ** Deleting a list of rules *)
Lemma filter_ext_in {A} (P Q : A → Prop) `{∀ x, Decision (P x), ∀ x, Decision (Q x)} (l : list A) :
  (∀ x, x ∈ l → P x ↔ Q x) → filter P l = filter Q l.
Proof.
  intros HPQ. induction l as [|x l IH]; [done|]. rewrite !filter_cons, IH by set_solver.
  destruct (HPQ x); [by left|]. repeat case_decide; tauto || done.
Qed.
Lemma list_filter_everything {A} (P : A → Prop) `{∀ x, Decision (P x)} (l : list A) : Forall P l → filter P l = l.
Proof. induction 1 as [|x l Hx Hl IH]; [done|]. by rewrite filter_cons_True, IH. Qed.

Definition chain_without (D : list (string * nat)) (n : string) (c : nft_chain) : nft_chain :=
  {| c_hook := c_hook c; c_rules := filter (λ hr, (n, hr.1) ∉ D) (c_rules c) |}.
Definition table_without (D : list (string * nat)) (tbl : nft_table) : nft_table :=
  t_set_chains (map_imap (λ n c, Some (chain_without D n c))) tbl.
Definition has_rule (tbl : nft_table) (nh : string * nat) : Prop :=
  ∃ c, t_chains tbl !! nh.1 = Some c ∧ nh.2 ∈ (c_rules c).*1.

Lemma table_without_nil tbl : table_without [] tbl = tbl.
Proof.
  destruct tbl as [ch se ma]. unfold table_without, t_set_chains. simpl. f_equal. apply map_eq. intros n.
  rewrite map_lookup_imap. destruct (ch !! n) as [c|]; [|done]. simpl. f_equal. destruct c as [h l]. unfold chain_without.
  simpl. f_equal. apply list_filter_everything, Forall_forall. set_solver.
Qed.
Lemma table_without_cons n h c D tbl :
  t_chains tbl !! n = Some c →
  table_without D (t_set_chains <[n := {| c_hook := c_hook c; c_rules := filter (λ x, x.1 ≠ h) (c_rules c) |}]> tbl)
  = table_without ((n, h) :: D) tbl.
Proof.
  intros Hc. unfold table_without, t_set_chains. simpl. f_equal. apply map_eq. intros m. rewrite !map_lookup_imap, lookup_insert.
  case_decide as Hm; [subst m; rewrite Hc|destruct (t_chains tbl !! m) as [c'|]; [|done]]; simpl; f_equal;
    unfold chain_without; simpl; f_equal.
  - rewrite list_filter_filter. apply list_filter_iff. intros x. set_solver.
  - apply list_filter_iff. set_solver.
Qed.
Lemma delete_rules_run f t D R tbl :
  NoDup D → Forall (has_rule tbl) D → rs_tables R !! (f, t) = Some tbl →
  ∃ R', run_script (map (λ nh, delete_rule f t nh.1 nh.2) D) R = Some R'
    ∧ rs_tables R' = <[(f, t) := table_without D tbl]> (rs_tables R).
Proof.
  revert R tbl. induction D as [|[n h] D IH]; intros R tbl HD Hh Ht.
  { exists R. split; [done|]. by rewrite table_without_nil, insert_id. }
  apply NoDup_cons in HD as [Hn HD]. apply Forall_cons in Hh as [(c & Hc & Hin) Hh]. simpl in Hc, Hin.
  set (tbl1 := t_set_chains <[n := {| c_hook := c_hook c; c_rules := filter (λ x, x.1 ≠ h) (c_rules c) |}]> tbl).
  assert (run_cmd (delete_rule f t n h) R = Some (rs_set (f, t) tbl1 R)) as H1.
  { simpl. rewrite Ht. simpl. rewrite Hc. simpl. by rewrite bool_decide_eq_true_2. }
  destruct (IH (rs_set (f, t) tbl1 R) tbl1 HD) as (R' & Hr & HR').
  - rewrite Forall_forall in Hh |- *. intros [m k] Hmk. destruct (Hh _ Hmk) as (c' & Hc' & Hk). unfold has_rule, tbl1. simpl in *.
    rewrite lookup_insert. case_decide as Hm; [subst m|by exists c']. simplify_eq. eexists. split; [done|]. simpl.
    apply list_elem_of_fmap in Hk as ([k' r] & -> & Hr). apply list_elem_of_fmap. exists (k', r). split; [done|].
    apply list_elem_of_filter. split; [|done]. simpl. intros ->. done.
  - simpl. by rewrite lookup_insert_eq.
  - exists R'. cbn [map run_script fst snd]. rewrite H1. split; [exact Hr|]. rewrite HR'. simpl. rewrite insert_insert_eq.
    f_equal. by apply table_without_cons.
Qed.

(** ** The manager's deletion *)
(** Handles are unique in a chain. *)
Definition handles_ok (tbl : nft_table) : Prop := ∀ n c, t_chains tbl !! n = Some c → NoDup (c_rules c).*1.
(** A table without the rules whose comment is selected. *)
Definition drop_commented (sel : string → bool) (tbl : nft_table) : nft_table :=
  t_set_chains (fmap (λ c, {| c_hook := c_hook c;
    c_rules := filter (λ hr, sel (default "" (r_comment hr.2)) = false) (c_rules c) |})) tbl.

Definition selected_in (sel : string → bool) (l : list (string * (nat * nft_rule))) : list (string * nat) :=
  omap (λ x, if sel (default "" (r_comment x.2.2)) then Some (x.1, x.2.1) else None) l.
Definition selected_rules (sel : string → bool) (tbl : nft_table) : list (string * nat) := selected_in sel (table_rules tbl).

Lemma table_rules_elem tbl n hr :
  (n, hr) ∈ table_rules tbl ↔ ∃ c, t_chains tbl !! n = Some c ∧ hr ∈ c_rules c.
Proof.
  unfold table_rules. rewrite list_elem_of_bind. split.
  - intros ([m c] & Hin & Hm). apply list_elem_of_In, in_map_iff in Hin as (hr' & [= <- <-] & Hin%list_elem_of_In).
    apply elem_of_map_to_list in Hm. eauto.
  - intros (c & Hc & Hin). exists (n, c). split; [|by apply elem_of_map_to_list].
    apply list_elem_of_In, in_map_iff. exists hr. split; [done|]. by apply list_elem_of_In.
Qed.
Lemma selected_elem sel tbl n h :
  (n, h) ∈ selected_rules sel tbl ↔
  ∃ c r, t_chains tbl !! n = Some c ∧ (h, r) ∈ c_rules c ∧ sel (default "" (r_comment r)) = true.
Proof.
  unfold selected_rules, selected_in. rewrite list_elem_of_omap. split.
  - intros ([m [k r]] & Hin & Hs). simpl in Hs. destruct (sel _) eqn:Hsel; [|done]. simplify_eq.
    apply table_rules_elem in Hin as (c & ? & ?). eauto 10.
  - intros (c & r & Hc & Hr & Hs). exists (n, (h, r)). simpl. rewrite Hs. split; [|done]. apply table_rules_elem. eauto.
Qed.
Lemma omap_nodup {A B} (f : A → B) (p : A → bool) (l : list A) :
  NoDup (map f l) → NoDup (omap (λ x, if p x then Some (f x) else None) l).
Proof.
  induction l as [|x l IH]; intros Hl; [constructor|]. apply NoDup_cons in Hl as [Hx Hl]. cbn. destruct (p x); [|auto].
  constructor; [|auto]. rewrite list_elem_of_omap. intros (y & Hy & Hp). destruct (p y); [|done]. simplify_eq. apply Hx.
  apply list_elem_of_In, in_map_iff. exists y. split; [done|]. by apply list_elem_of_In.
Qed.
Lemma selected_nodup sel tbl : handles_ok tbl → NoDup (selected_rules sel tbl).
Proof.
  intros Hok. apply (omap_nodup (λ x, (x.1, x.2.1)) (λ x, sel (default "" (r_comment x.2.2)))). unfold table_rules.
  assert (∀ n c, (n, c) ∈ map_to_list (t_chains tbl) → NoDup (c_rules c).*1) as Hc.
  { intros n c Hin. apply (Hok n). by apply elem_of_map_to_list. }
  pose proof (NoDup_fst_map_to_list (t_chains tbl)) as Hnd. revert Hnd Hc.
  induction (map_to_list (t_chains tbl)) as [|[n c] l IH]; intros Hnd Hc; [constructor|]. cbn [mbind list_bind fst snd].
  apply NoDup_cons in Hnd as [Hn Hnd]. rewrite map_app, map_map. simpl. apply NoDup_app. split_and!.
  - specialize (Hc n c ltac:(by left)). clear -Hc. induction (c_rules c) as [|hr r IH]; [constructor|].
    apply NoDup_cons in Hc as [H1 H2]. cbn. constructor; [|by apply IH]. intros Hin. apply H1.
    apply list_elem_of_In, in_map_iff in Hin as (x & [= He] & Hx%list_elem_of_In). rewrite <- He. by apply list_elem_of_fmap_2.
  - intros [m h] H1 H2. apply list_elem_of_In, in_map_iff in H1 as (x & [= <- <-] & _).
    apply list_elem_of_In, in_map_iff in H2 as ([m' y] & [= Hm _] & Hin%list_elem_of_In).
    apply list_elem_of_bind in Hin as ([m2 c2] & Hy & Hl). apply list_elem_of_In, in_map_iff in Hy as (? & [= <- _] & _).
    apply Hn. simpl in *. subst. by apply (list_elem_of_fmap_2 fst l (_, c2)).
  - apply IH; [done|]. intros m c' Hin. apply (Hc m). by right.
Qed.

Lemma drop_selected sel tbl : handles_ok tbl → table_without (selected_rules sel tbl) tbl = drop_commented sel tbl.
Proof.
  intros Hok. unfold table_without, drop_commented, t_set_chains. f_equal. apply map_eq. intros n.
  rewrite map_lookup_imap, lookup_fmap. destruct (t_chains tbl !! n) as [c|] eqn:Hc; [|done]. simpl. f_equal.
  unfold chain_without. f_equal. apply filter_ext_in. intros [h r] Hr. simpl. rewrite selected_elem. split.
  - intros Hno. apply not_true_iff_false. intros Hs. apply Hno. eauto 10.
  - intros Hs (c' & r' & Hc' & Hr' & Hs'). assert (c' = c) as -> by congruence. specialize (Hok n c Hc).
    assert (r' = r) as ->; [|congruence]. clear -Hok Hr Hr'. induction (c_rules c) as [|x l IH]; [set_solver|].
    apply NoDup_cons in Hok as [H1 H2]. apply elem_of_cons in Hr as [<-|Hr], Hr' as [Hr'|Hr'].
    + by injection Hr'.
    + destruct H1. by apply (list_elem_of_fmap_2 fst _ (h, r')).
    + destruct H1. subst x. by apply (list_elem_of_fmap_2 fst _ (h, r)).
    + auto.
Qed.

(** Which rules go does not depend on the order they are deleted in. *)
Lemma table_without_perm D D' tbl : D ≡ₚ D' → table_without D tbl = table_without D' tbl.
Proof.
  intros HD. unfold table_without, t_set_chains. f_equal. apply map_eq. intros n. rewrite !map_lookup_imap.
  destruct (t_chains tbl !! n) as [c|]; [|done]. simpl. f_equal. unfold chain_without. f_equal.
  apply list_filter_iff. intros x. by rewrite HD.
Qed.
Lemma selected_perm sel cs tbl :
  cs ≡ₚ map_to_list (t_chains tbl) → selected_in sel (rules_of_chains cs) ≡ₚ selected_rules sel tbl.
Proof.
  intros Hp. unfold selected_rules, table_rules, selected_in. apply omap_Permutation. unfold rules_of_chains. by rewrite Hp.
Qed.

Section deletion.
Context (E : netenv) (HE : ∀ n, n_fails E n = false) `{!FaithfulListing E}.

Lemma lines_selected f t comment prefix l :
  omap (λ '(c, (k, h)), if comment_selected comment prefix k then Some (delete_rule f t c (handle_number h)) else None)
    (map handle_entry l)
  = map (λ nh, delete_rule f t nh.1 nh.2) (selected_in (comment_selected comment prefix) l).
Proof.
  unfold selected_in. induction l as [|[n [h r]] l IH]; [done|]. cbn. rewrite IH.
  destruct (comment_selected _ _ _); [|done]. cbn. by rewrite handle_number_text.
Qed.
Lemma delete_rules_exact f t comment prefix s tbl :
  is_some comment || is_some prefix = true → rs_tables (nm_rules s) !! (f, t) = Some tbl → readable f t tbl → handles_ok tbl →
  wp (_delete_nft_rules E f t comment prefix)
    (λ _ s', rs_tables (nm_rules s')
             = <[(f, t) := drop_commented (comment_selected comment prefix) tbl]> (rs_tables (nm_rules s)))
    (λ _ _, False) s.
Proof using All.
  intros Hsel Ht Hread Hok. unfold _delete_nft_rules, _find_nft_delete_rule_lines.
  assert (negb (is_some comment) && negb (is_some prefix) = false) as -> by (by destruct comment, prefix).
  apply wp_bind, wp_bind. unfold _nft_list_table. apply wp_try. unfold nft_list.
  apply wp_bind, wp_nm_tick, wp_bind, wp_get. rewrite HE. cbn [nm_rules nm_set_calls]. rewrite Ht. apply wp_return.
  destruct (laid_out_read f t tbl _ Hread (listing_format f t tbl Hread)) as (cs & Hcs & Hl).
  set (D := selected_in (comment_selected comment prefix) (rules_of_chains cs)).
  pose proof (selected_perm (comment_selected comment prefix) cs tbl Hcs : D ≡ₚ _) as HD.
  destruct (delete_rules_run f t D (nm_rules s) tbl) as (R' & Hr & HR').
  { rewrite HD. by apply selected_nodup. }
  { apply Forall_forall. intros [n h]. rewrite HD. intros (c & r & Hc & Hin & _)%selected_elem. exists c. split; [done|].
    by apply (list_elem_of_fmap_2 fst _ (h, r)). }
  { done. }
  rewrite <- drop_selected, <- (table_without_perm D) by done. destruct (String.eqb_spec (n_listing E list_handles f t tbl) "") as [He|_];
    apply wp_return.
  - rewrite He in Hl. apply wp_return. assert (D = []) as ->; [|simpl; by rewrite table_without_nil, insert_id].
    unfold D. destruct (rules_of_chains cs); [done|discriminate Hl].
  - rewrite Hl, lines_selected. fold D. destruct D as [|d D'] eqn:HDe.
    + simpl. apply wp_return. simpl. by rewrite table_without_nil, insert_id.
    + cbn [map]. eapply wp_mono; [eapply (script_runs E HE)|intros [] s' Hs'|done]; [exact Hr|]. by rewrite Hs'.
Qed.
End deletion.

(** Comments of different computers differ before the first colon. *)
Lemma prefix_separates a b x y :
  contains_char ":"%char a = false → contains_char ":"%char b = false →
  startswith (a +:+ String ":" x) (b +:+ String ":" y) = true → a = b.
Proof.
  assert (∀ c s, contains_char ":"%char (String c s) = false → c ≠ ":"%char ∧ contains_char ":"%char s = false) as Hc.
  { intros c s Hs. unfold contains_char, str_any in *. cbn [str_all] in Hs. rewrite negb_andb, negb_involutive in Hs.
    apply orb_false_iff in Hs as [H1 H2]. split; [|done]. intros ->. discriminate H1. }
  revert b. induction a as [|c a IH]; intros [|d b] Ha Hb; try done.
  - intros Hs. change ("" +:+ ?x) with x in Hs. change (String d b +:+ ?x) with (String d (b +:+ x)) in Hs.
    apply Hc in Hb as [Hd _]. unfold startswith in Hs. cbn [String.prefix] in Hs. by destruct (ascii_dec ":" d) as [<-|].
  - intros Hs. change ("" +:+ ?x) with x in Hs. change (String c a +:+ ?x) with (String c (a +:+ x)) in Hs.
    apply Hc in Ha as [Hd _]. unfold startswith in Hs. cbn [String.prefix] in Hs. by destruct (ascii_dec c ":") as [->|].
  - change (String c a +:+ ?x) with (String c (a +:+ x)). change (String d b +:+ ?x) with (String d (b +:+ x)).
    apply Hc in Ha as [_ Ha], Hb as [_ Hb]. unfold startswith. cbn [String.prefix].
    destruct (ascii_dec c d) as [<-|]; [|done]. intros Hs. f_equal. by apply IH.
Qed.
Lemma startswith_drop p x y : startswith (p +:+ x) (p +:+ y) = startswith x y.
Proof.
  induction p as [|c p IH]; [done|]. change (String c p +:+ ?x) with (String c (p +:+ x)). unfold startswith in *.
  cbn [String.prefix]. by destruct (ascii_dec c c).
Qed.

(** C21: taking down a computer's local port forwards removes exactly them.
    When no command fails (a listing that fails reads as an empty one, and the
    rules stay), nft prints its tables in the documented format, the NAT and
    filter tables exist with plain comments and unique handles, and the
    computer's identifier holds no colon, the call returns; afterwards the two
    tables hold precisely the rules whose comment does not belong to that
    computer, in their order, and nothing else of the rule set has changed; the
    rules of the computer itself are all gone, those of any other computer
    whose identifier holds no colon all kept. *)
Theorem local_forwards_removed_exactly (E : netenv) `{!FaithfulListing E} (vm_id : string) (s : nm) (nat_t filter_t : nft_table) :
  (∀ n, n_fails E n = false) → vm_id ≠ "" → contains_char ":"%char vm_id = false →
  rs_tables (nm_rules s) !! (fam_ip, _NFT_NAT_TABLE) = Some nat_t →
  rs_tables (nm_rules s) !! (fam_inet, _NFT_FILTER_TABLE) = Some filter_t →
  readable fam_ip _NFT_NAT_TABLE nat_t → readable fam_inet _NFT_FILTER_TABLE filter_t →
  handles_ok nat_t → handles_ok filter_t →
  let r := cleanup_all_local_port_forwards E vm_id s in
  let mine := startswith ("celesto:" +:+ vm_id +:+ ":local:") in
  r.2 = Ret tt
  ∧ rs_tables (nm_rules r.1)
    = <[(fam_inet, _NFT_FILTER_TABLE) := drop_commented mine filter_t]>
        (<[(fam_ip, _NFT_NAT_TABLE) := drop_commented mine nat_t]> (rs_tables (nm_rules s)))
  ∧ ∀ vm hp gp, contains_char ":"%char vm = false → mine (local_comment vm hp gp) = true ↔ vm = vm_id.
Proof.
  intros HE Hne Hc Hn Hf Hrn Hrf Hkn Hkf. cbv zeta.
  assert (∀ vm hp gp, contains_char ":"%char vm = false →
            startswith ("celesto:" +:+ vm_id +:+ ":local:") (local_comment vm hp gp) = true ↔ vm = vm_id) as Hmine.
  { intros vm hp gp Hvm. unfold local_comment. rewrite startswith_drop. split; [intros Hs|intros ->].
    - symmetry. by eapply prefix_separates.
    - rewrite startswith_drop. apply (startswith_app ":local:"). }
  assert (wp (cleanup_all_local_port_forwards E vm_id) (λ _ s', rs_tables (nm_rules s')
    = <[(fam_inet, _NFT_FILTER_TABLE) := drop_commented (startswith ("celesto:" +:+ vm_id +:+ ":local:")) filter_t]>
        (<[(fam_ip, _NFT_NAT_TABLE) := drop_commented (startswith ("celesto:" +:+ vm_id +:+ ":local:")) nat_t]>
           (rs_tables (nm_rules s)))) (λ _ _, False) s) as Hw.
  { unfold cleanup_all_local_port_forwards, nonempty, guard_raise. destruct (String.eqb_spec vm_id ""); [done|].
    apply wp_bind, wp_lift; [intros _ _|done]. apply wp_bind.
    eapply wp_mono; [by apply (delete_rules_exact E HE _ _ None _ s nat_t)|intros [] s1 H1|done].
    eapply wp_mono; [apply (delete_rules_exact E HE _ _ None _ s1 filter_t); try done|intros [] s2 H2|done].
    - by rewrite H1, lookup_insert_ne.
    - by rewrite H2, H1. }
  unfold wp in Hw. destruct (cleanup_all_local_port_forwards E vm_id s) as [s' [[]|]]; done.
Qed.

(** Two computers with a forward each. *)
Definition forward_rule (vm : string) (port : Z) (target : string) : nft_rule :=
  commented (local_comment vm port 80) (rule [ip_daddr "127.0.0.1/32"; tcp_dport port] (dnat_to target)).
Definition demo_nat (rules : list (nat * nft_rule)) : nft_table :=
  {| t_chains := {["output" := {| c_hook := output; c_rules := rules |}]}; t_sets := ∅; t_maps := ∅ |}.
Definition demo_rules : list (nat * nft_rule) :=
  [(3, forward_rule "vm1" 8080 "172.16.0.5:80"); (4, forward_rule "vm10" 8081 "172.16.0.6:80")].
Definition demo_nm : nm :=
  nm_set_rules {| rs_tables := {[ (fam_ip, _NFT_NAT_TABLE) := demo_nat demo_rules;
                                  (fam_inet, _NFT_FILTER_TABLE) := empty_table ]}; rs_handle := 5 |} new_nm.

Lemma local_forwards_removed_exactly_witness :
  let r := cleanup_all_local_port_forwards quiet_host "vm1" demo_nm in
  r.2 = Ret tt
  ∧ t_chains <$> (rs_tables (nm_rules r.1) !! (fam_ip, _NFT_NAT_TABLE))
    = Some {["output" := {| c_hook := output; c_rules := [(4, forward_rule "vm10" 8081 "172.16.0.6:80")] |}]}.
Proof.
  cbv zeta. destruct (local_forwards_removed_exactly quiet_host "vm1" demo_nm (demo_nat demo_rules) empty_table)
    as (H1 & H2 & _).
  - intros n. reflexivity.
  - discriminate.
  - reflexivity.
  - reflexivity.
  - reflexivity.
  - split; [|intros mode; destruct mode; vm_compute; reflexivity].
    simpl. rewrite map_to_list_singleton. constructor; [|constructor]. split; [by split|].
    constructor; [by exists (local_comment "vm1" 8080 80)|]. constructor; [by exists (local_comment "vm10" 8081 80)|constructor].
  - split; [|intros mode; destruct mode; vm_compute; reflexivity]. simpl. rewrite map_to_list_empty. constructor.
  - intros n c Hc. simpl in Hc. apply lookup_singleton_Some in Hc as [_ <-]. simpl. by repeat constructor; set_solver.
  - intros n c Hc. simpl in Hc. by rewrite lookup_empty in Hc.
  - split; [exact H1|]. rewrite H2. vm_compute. reflexivity.
Defined.
