(* ===== verification/BootArgs.v ===== *)
(** * vm.py: the kernel command line of a computer

    [_resolve_boot_args] adds to the configured kernel parameters what the guest
    needs: a root device, the SSH key, the network. *)
From S2P Require Import Prelude PyStr PyUrl Types Backends ManagerState ManagerHelpers ManagerLifecycle.
From Stdlib Require Import Ascii.
From stdpp Require Import options.

(** [s.split()] *)
Fixpoint words_from (cur s : string) : list string :=
  match s with
  | "" => if String.eqb cur "" then [] else [cur]
  | String c s' =>
      if is_space c then (if String.eqb cur "" then words_from "" s' else cur :: words_from "" s')
      else words_from (cur +:+ String c "") s'
  end.
Definition str_words (s : string) : list string := words_from "" s.

Definition any_starts (prefix : string) (parts : list string) : bool := existsb (startswith prefix) parts.
(** [f"{value}"] of an optional text *)
Definition opt_text (o : option string) : string := default "None" o.

Definition key_params : list string := ["celesto.authorized_key_b64"; "smolvm.authorized_key_b64"].
Definition network_params : list string := ["celesto.network=guest"; "smolvm.network=guest"].
Definition ip_arg (n : NetworkConfig) : string :=
  "ip=" +:+ opt_text (guest_ip n) +:+ "::" +:+ opt_text (gateway_ip n) +:+ ":" +:+ opt_text (netmask n) +:+ "::eth0:off".
Definition desktop_backend (b : string) : bool := bool_decide (b ∈ [BACKEND_QEMU; BACKEND_LIBKRUN]).

Section resolve.
Context (E : menv).

(** The three steps of the function: the root device, the key, the network;
    [parts] is [args.split()] throughout. *)
Definition root_step (b args : string) : string :=
  if desktop_backend b then
    let parts := filter (λ p, p ≠ "pci=off") (str_words args) in
    strip (str_join " " (if any_starts "root=" parts then parts else parts ++ ["root=/dev/vda"; "rw"]))
  else args.
Definition key_step (key : option string) (args : string) : string :=
  if truthy_str key then
    let encoded := b64encode (strip (default "" key)) in
    let missing := filter (λ p, any_starts (p +:+ "=") (str_words args) = false) key_params in
    if bool_decide (missing = []) then args
    else strip (str_join " " (args :: ((λ p, p +:+ "=" +:+ encoded) <$> missing)))
  else args.
Definition network_step (net : option NetworkConfig) (args : string) : string :=
  match net with
  | None => args
  | Some n =>
      if bool_decide (nc_mode n = bridge_mode) then
        if any_starts "ip=" (str_words args) then args
        else
          let missing := filter (λ p, p ∉ str_words args) network_params in
          if bool_decide (missing = []) then args else strip (str_join " " (args :: missing))
      else if any_starts "ip=" (str_words args) then args
      else strip (args +:+ " " +:+ ip_arg n)
  end.
Definition _resolve_boot_args (i : VMInfo) : outcome string :=
  let args := strip (boot_args (config i)) in
  b ← _backend_for_config E (config i);
  Ret (network_step (network i) (key_step (ssh_public_key (config i)) (root_step b args))).
End resolve.

(** ** Words *)
Definition word (w : string) : bool := negb (String.eqb w "") && str_all (λ c, negb (is_space c)) w.

Lemma words_from_space cur a b : words_from cur (a +:+ String " " b) = words_from cur a ++ str_words b.
Proof.
  revert cur. induction a as [|c a IH]; intros cur.
  - change ("" +:+ String " " b) with (String " " b). cbn [words_from]. change (is_space " ") with true. cbv match.
    by destruct (String.eqb cur "").
  - change (String c a +:+ String " " b) with (String c (a +:+ String " " b)). cbn [words_from].
    destruct (is_space c); [|apply IH]. destruct (String.eqb cur ""); rewrite IH; done.
Qed.
Lemma words_space a b : str_words (a +:+ " " +:+ b) = str_words a ++ str_words b.
Proof. apply words_from_space. Qed.
Lemma words_lstrip s : str_words (lstrip_while is_space s) = str_words s.
Proof.
  unfold str_words. induction s as [|c s IH]; [done|]. cbn [lstrip_while words_from]. by destruct (is_space c) eqn:Hc; [|cbn [words_from]; rewrite Hc].
Qed.
Lemma words_rstrip s cur : words_from cur (rstrip_while is_space s) = words_from cur s.
Proof.
  revert cur. induction s as [|c s IH]; intros cur; [done|]. cbn [rstrip_while].
  destruct (rstrip_while is_space s) as [|d t] eqn:Hr.
  - destruct (is_space c) eqn:Hc; cbn [words_from]; rewrite Hc; [|by rewrite <- IH].
    rewrite <- IH. cbn [words_from]. by destruct (String.eqb cur "").
  - cbn [words_from]. destruct (is_space c); [|apply IH]. destruct (String.eqb cur ""); by rewrite <- IH.
Qed.
Lemma words_strip s : str_words (strip s) = str_words s.
Proof. unfold strip. rewrite <- (words_lstrip s). apply words_rstrip. Qed.

Lemma words_from_word w cur : word (cur +:+ w) = true → words_from cur w = [cur +:+ w].
Proof.
  revert cur. induction w as [|c w IH]; intros cur Hw.
  - rewrite str_app_nil_r in *. cbn [words_from]. unfold word in Hw. by destruct (String.eqb cur "").
  - assert (is_space c = false) as Hc.
    { unfold word in Hw. rewrite str_all_app in Hw. cbn [str_all] in Hw. destruct (is_space c); [|done].
      by rewrite !andb_false_r in Hw. }
    cbn [words_from]. rewrite Hc. change (String c w) with (String c "" +:+ w) in *. rewrite <- string_app_assoc in *. by apply IH.
Qed.
Lemma words_word w : word w = true → str_words w = [w].
Proof. apply (words_from_word w ""). Qed.
Lemma words_join ws : forallb word ws = true → str_words (str_join " " ws) = ws.
Proof.
  induction ws as [|w [|w' ws] IH]; [done|..].
  - intros [Hw _]%andb_true_iff. by apply words_word.
  - cbn [forallb]. intros [Hw Hws]%andb_true_iff. change (str_join " " (w :: w' :: ws)) with (w +:+ " " +:+ str_join " " (w' :: ws)).
    by rewrite words_space, words_word, IH.
Qed.
(** The same with any text in front. *)
Lemma words_join_cons args ws : forallb word ws = true → str_words (str_join " " (args :: ws)) = str_words args ++ ws.
Proof.
  destruct ws as [|w ws]; intros Hw; [by rewrite app_nil_r|].
  change (str_join " " (args :: w :: ws)) with (args +:+ " " +:+ str_join " " (w :: ws)). by rewrite words_space, words_join.
Qed.
Lemma words_are_words s cur : str_all (λ c, negb (is_space c)) cur = true → forallb word (words_from cur s) = true.
Proof.
  revert cur. induction s as [|c s IH]; intros cur Hc; cbn [words_from].
  - unfold word. destruct (String.eqb cur "") eqn:Hn; [done|]. simpl. unfold word. by rewrite Hn, Hc.
  - destruct (is_space c) eqn:Hs.
    + destruct (String.eqb cur "") eqn:Hn; [by apply IH|]. cbn [forallb]. unfold word at 1. by rewrite Hn, Hc, IH.
    + apply IH. rewrite str_all_app, Hc. simpl. by rewrite Hs.
Qed.

(** ** What each step adds *)
Lemma b64_char_plain n : (0 ≤ n < 64)%Z → is_space (b64_char n) = false.
Proof.
  intros Hn. assert (forallb (λ n, negb (is_space (b64_char n))) (seqZ 0 64) = true) as Ht by (vm_compute; reflexivity).
  rewrite forallb_forall in Ht. specialize (Ht n). rewrite <- list_elem_of_In, elem_of_seqZ in Ht.
  specialize (Ht ltac:(lia)). by apply negb_true_iff in Ht.
Qed.
Lemma b64_plain s : str_all (λ c, negb (is_space c)) (b64encode s) = true.
Proof.
  assert (∀ n s, String.length s ≤ n → str_all (λ c, negb (is_space c)) (b64encode s) = true) as Hn; [|by eapply Hn].
  induction n as [|n IH]; intros [|a [|b [|c t]]] Hs; simpl in Hs; try lia; try done; cbn [b64encode str_all];
    pose proof (code_bound a); try pose proof (code_bound b); try pose proof (code_bound c);
    repeat rewrite b64_char_plain by (Z.to_euclidean_division_equations; lia); try done.
  apply IH. lia.
Qed.
Definition key_word (key param : string) : string := param +:+ "=" +:+ b64encode (strip key).
Lemma key_word_word key param : param ∈ key_params → word (key_word key param) = true.
Proof.
  intros Hp. unfold word, key_word. rewrite !str_all_app, b64_plain. unfold key_params in Hp. set_unfold in Hp.
  by destruct Hp as [->|[->|[]]].
Qed.

Definition kept (b : string) (given : list string) : list string :=
  if desktop_backend b then filter (λ p, p ≠ "pci=off") given else given.
Definition root_words (b : string) (given : list string) : list string :=
  if desktop_backend b then (if any_starts "root=" (kept b given) then [] else ["root=/dev/vda"; "rw"]) else [].
Lemma root_step_words b args : str_words (root_step b args) = kept b (str_words args) ++ root_words b (str_words args).
Proof.
  unfold root_step, root_words, kept. destruct (desktop_backend b); [|by rewrite app_nil_r]. cbv zeta. rewrite words_strip.
  assert (forallb word (filter (λ p, p ≠ "pci=off") (str_words args)) = true) as Hw.
  { rewrite forallb_forall. intros w [_ Hw]%list_elem_of_In%list_elem_of_filter. apply list_elem_of_In in Hw. revert w Hw.
    rewrite <- forallb_forall. by apply words_are_words. }
  destruct (any_starts _ _); rewrite words_join; [by rewrite app_nil_r|done|done|]. rewrite forallb_app, Hw. reflexivity.
Qed.
Definition key_words (key : option string) (parts : list string) : list string :=
  if truthy_str key then key_word (default "" key) <$> filter (λ p, any_starts (p +:+ "=") parts = false) key_params else [].
Lemma key_step_words key args : str_words (key_step key args) = str_words args ++ key_words key (str_words args).
Proof.
  unfold key_step, key_words. destruct (truthy_str key); [|by rewrite app_nil_r]. cbv zeta.
  case_bool_decide as Hm; [rewrite Hm; by rewrite app_nil_r|]. rewrite words_strip. apply words_join_cons.
  rewrite forallb_forall. intros w (p & -> & [_ Hp]%list_elem_of_filter)%list_elem_of_In%list_elem_of_fmap. by apply key_word_word.
Qed.
(** The addresses of a NAT network hold no white space. *)
Definition net_plain (n : NetworkConfig) : bool :=
  bool_decide (nc_mode n = bridge_mode) || str_all (λ c, negb (is_space c)) (ip_arg n).
Definition net_words (net : option NetworkConfig) (parts : list string) : list string :=
  match net with
  | None => []
  | Some n =>
      if any_starts "ip=" parts then []
      else if bool_decide (nc_mode n = bridge_mode) then filter (λ p, p ∉ parts) network_params
      else [ip_arg n]
  end.
Lemma network_step_words net args :
  (∀ n, net = Some n → net_plain n = true) →
  str_words (network_step net args) = str_words args ++ net_words net (str_words args).
Proof.
  intros Hp. unfold network_step, net_words. destruct net as [n|]; [|by rewrite app_nil_r].
  destruct (any_starts "ip=" (str_words args)); [by destruct (bool_decide _); rewrite app_nil_r|].
  case_bool_decide as Hb.
  - cbv zeta. case_bool_decide as Hm; [rewrite Hm; by rewrite app_nil_r|]. rewrite words_strip. apply words_join_cons.
    rewrite forallb_forall. intros w [_ Hw]%list_elem_of_In%list_elem_of_filter. unfold network_params in Hw. set_unfold in Hw.
    by destruct Hw as [->|[->|[]]].
  - rewrite words_strip, words_space. f_equal. apply words_word. unfold word. rewrite andb_true_iff. split; [done|].
    specialize (Hp n eq_refl). unfold net_plain in Hp. by rewrite bool_decide_eq_false_2 in Hp.
Qed.

(** ** The command line is complete *)
Lemma resolve_words E i b r :
  _resolve_boot_args E i = Ret r → _backend_for_config E (config i) = Ret b →
  (∀ n, network i = Some n → net_plain n = true) →
  let given := str_words (boot_args (config i)) in
  let base := kept b given ++ root_words b given in
  let keyed := base ++ key_words (ssh_public_key (config i)) base in
  str_words r = keyed ++ net_words (network i) keyed.
Proof.
  unfold _resolve_boot_args. intros Hr Hb Hn. rewrite Hb in Hr. cbn [mbind outcome_bind] in Hr.
  match type of Hr with Ret ?x = Ret ?y => assert (x = y) as <- by congruence end. cbv zeta.
  by rewrite network_step_words, key_step_words, root_step_words, words_strip.
Qed.

Lemma any_starts_app p a b : any_starts p (a ++ b) = any_starts p a || any_starts p b.
Proof. apply existsb_app. Qed.
Lemma any_starts_elem p w ws : w ∈ ws → startswith p w = true → any_starts p ws = true.
Proof. intros Hw Hp. apply existsb_exists. exists w. split; [by apply list_elem_of_In|done]. Qed.
Lemma key_words_no_ip key parts : filter (λ w, startswith "ip=" w = true) (key_words key parts) = [].
Proof.
  unfold key_words. destruct (truthy_str key); [|done]. apply elem_of_nil_inv.
  intros w [Hw (p & -> & [_ Hp]%list_elem_of_filter)%list_elem_of_fmap]%list_elem_of_filter.
  unfold key_params in Hp. set_unfold in Hp. by destruct Hp as [->|[->|[]]].
Qed.
Abbreviation starting p ws := (filter (λ w, startswith p w = true) ws).
Lemma any_starts_starting p ws : any_starts p ws = negb (bool_decide (starting p ws = [])).
Proof.
  unfold any_starts. induction ws as [|w ws IH]; [done|]. cbn [existsb]. rewrite filter_cons, IH.
  destruct (startswith p w); [rewrite decide_True by done|rewrite decide_False by done]; done.
Qed.
Lemma starting_kept p b given : startswith p "pci=off" = false → starting p (kept b given) = starting p given.
Proof.
  intros Hp. unfold kept. destruct (desktop_backend b); [|done]. induction given as [|w ws IH]; [done|].
  rewrite (filter_cons _ w ws). destruct (decide (w ≠ "pci=off")) as [Hw|Hw]; rewrite !filter_cons, IH; [done|].
  apply dec_stable in Hw as ->. by rewrite decide_False by congruence.
Qed.
Lemma root_words_none p b given : startswith p "root=/dev/vda" = false → startswith p "rw" = false → starting p (root_words b given) = [].
Proof.
  intros H1 H2. unfold root_words. destruct (desktop_backend b); [|done].
  destruct (any_starts "root=" (kept b given)); [done|]. rewrite !filter_cons, decide_False by congruence. by rewrite decide_False by congruence.
Qed.
Lemma any_starts_base p b given :
  startswith p "pci=off" = false → startswith p "root=/dev/vda" = false → startswith p "rw" = false →
  any_starts p (kept b given ++ root_words b given) = any_starts p given.
Proof. intros H1 H2 H3. by rewrite !any_starts_starting, filter_app, starting_kept, root_words_none, app_nil_r. Qed.

Lemma key_words_no_pci key parts : "pci=off" ∉ key_words key parts.
Proof.
  unfold key_words. destruct (truthy_str key); [|apply not_elem_of_nil].
  intros (p & E & [_ Hp]%list_elem_of_filter)%list_elem_of_fmap. unfold key_params in Hp. set_unfold in Hp.
  by destruct Hp as [->|[->|[]]].
Qed.
Lemma net_words_no_pci net parts : "pci=off" ∉ net_words net parts.
Proof.
  unfold net_words. destruct net as [n|]; [|apply not_elem_of_nil]. destruct (any_starts "ip=" parts); [apply not_elem_of_nil|].
  case_bool_decide; [intros [_ Hp]%list_elem_of_filter; unfold network_params in Hp; set_solver|].
  intros E%list_elem_of_singleton. done.
Qed.
Lemma key_found key parts p :
  truthy_str (Some key) = true → p ∈ key_params →
  any_starts (p +:+ "=") (parts ++ key_words (Some key) parts) = true
  ∧ (any_starts (p +:+ "=") parts = false → key_word key p ∈ key_words (Some key) parts).
Proof.
  intros Hk Hp. unfold key_words. rewrite Hk. assert (any_starts (p +:+ "=") parts = false →
    key_word key p ∈ key_word (default "" (Some key)) <$> filter (λ p, any_starts (p +:+ "=") parts = false) key_params) as Hin.
  { intros Ha. apply list_elem_of_fmap. exists p. split; [done|]. by apply list_elem_of_filter. }
  split; [|done]. rewrite any_starts_app. destruct (any_starts (p +:+ "=") parts) eqn:Ha; [done|]. simpl.
  eapply any_starts_elem; [by apply Hin|]. unfold key_word. rewrite <- string_app_assoc. apply startswith_app.
Qed.

(** Neither the root device nor a key is a marker. *)
Lemma base_marker b given key m :
  m ∈ network_params →
  let base := kept b given ++ root_words b given in m ∈ base ++ key_words key base ↔ m ∈ given.
Proof.
  intros Hm base. rewrite elem_of_app. unfold base at 1. rewrite elem_of_app.
  assert (m ∉ key_words key base) as Hk.
  { unfold key_words. destruct (truthy_str key); [|apply not_elem_of_nil].
    intros (p & -> & [_ Hp]%list_elem_of_filter)%list_elem_of_fmap. unfold key_params, network_params in *. set_unfold in Hp. set_unfold in Hm.
    destruct Hp as [->|[->|[]]], Hm as [E|[E|[]]]; done. }
  assert (m ∉ root_words b given) as Hr.
  { unfold root_words. unfold network_params in Hm. destruct (desktop_backend b); [|set_solver].
    destruct (any_starts "root=" (kept b given)); set_solver. }
  assert (m ∈ kept b given ↔ m ∈ given) as ->; [|tauto]. unfold kept. destruct (desktop_backend b); [|done].
  rewrite list_elem_of_filter. unfold network_params in Hm. set_solver.
Qed.

(** C24: the kernel command line keeps the caller's parameters and adds what the
    guest needs.  The configured parameters come first and in order (less
    [pci=off] on the desktop back ends, QEMU and libkrun, which then always have
    a root device); with an SSH key both key parameters are there, and one the
    caller did not give decodes to the stripped key.  The network is set in
    exactly one way: when the caller gave an [ip=] parameter nothing is added
    for it; otherwise a NAT guest gets the one address parameter of its network
    and no marker, a bridged guest gets both markers that leave the network to
    it and no address parameter, and a guest without a network gets neither.
    (The addresses of a NAT network hold no white space.) *)
Theorem boot_args_complete E i b r :
  _resolve_boot_args E i = Ret r → _backend_for_config E (config i) = Ret b →
  (∀ n, network i = Some n → net_plain n = true) →
  let given := str_words (boot_args (config i)) in
  let out := str_words r in
  let needs m := any_starts "ip=" given = false ∧ ∃ n, network i = Some n ∧ nc_mode n = m in
  kept b given `prefix_of` out
  ∧ (desktop_backend b = true → ¬ ("pci=off" ∈ out) ∧ any_starts "root=" out = true)
  ∧ (∀ key p, ssh_public_key (config i) = Some key → key ≠ "" → p ∈ key_params →
       any_starts (p +:+ "=") out = true
       ∧ (any_starts (p +:+ "=") given = false → ∃ text, p +:+ "=" +:+ text ∈ out ∧ b64decode text = strip key))
  ∧ (∀ n, network i = Some n → needs nat_mode → starting "ip=" out = [ip_arg n])
  ∧ (¬ needs nat_mode → starting "ip=" out = starting "ip=" given)
  ∧ (∀ m, m ∈ network_params → m ∈ out ↔ m ∈ given ∨ needs bridge_mode).
Proof.
  intros Hr Hb Hn given out needs. pose proof (resolve_words E i b r Hr Hb Hn) as Hw. cbv zeta in Hw. fold given in Hw. fold out in Hw.
  set (base := kept b given ++ root_words b given) in *.
  assert (∀ p, p ∈ key_params → any_starts (p +:+ "=") base = any_starts (p +:+ "=") given) as Hkb.
  { intros p Hp. unfold key_params in Hp. set_unfold in Hp. destruct Hp as [->|[->|[]]]; by apply any_starts_base. }
  assert (starting "ip=" (base ++ key_words (ssh_public_key (config i)) base) = starting "ip=" given) as Hip.
  { unfold base. by rewrite filter_app, key_words_no_ip, filter_app, starting_kept, root_words_none, !app_nil_r. }
  assert (any_starts "ip=" (base ++ key_words (ssh_public_key (config i)) base) = any_starts "ip=" given) as Hia
    by (by rewrite !any_starts_starting, Hip).
  split_and!.
  - rewrite Hw. unfold base. rewrite <- !app_assoc. apply prefix_app_r. done.
  - intros Hd. rewrite Hw. split.
    + rewrite !not_elem_of_app. split; [split|apply net_words_no_pci]; [|apply key_words_no_pci]. unfold base, kept, root_words. rewrite Hd.
      intros [[? _]%list_elem_of_filter|Hr']%elem_of_app; [done|]. destruct (any_starts "root=" _); set_solver.
    + rewrite !any_starts_app. assert (any_starts "root=" base = true) as ->; [|done]. unfold base, root_words. rewrite Hd, any_starts_app.
      by destruct (any_starts "root=" (kept b given)).
  - intros key p Hk Hne Hp. rewrite Hk in Hw. destruct (key_found key base p) as [H1 H2]; [by destruct key|done|]. rewrite Hw. split.
    + by rewrite any_starts_app, H1.
    + intros Hg. rewrite <- Hkb in Hg by done. exists (b64encode (strip key)). split; [|apply b64_roundtrip].
      apply elem_of_app. left. apply elem_of_app. right. by apply H2.
  - intros n Hnet (Ha & n' & Hnet' & Hm). assert (n' = n) as -> by congruence.
    rewrite Hw, filter_app, Hip. unfold net_words. rewrite Hnet, Hia, Ha, bool_decide_eq_false_2 by congruence.
    rewrite any_starts_starting in Ha. apply negb_false_iff, bool_decide_eq_true in Ha.
    rewrite Ha, filter_cons, decide_True by apply startswith_app. done.
  - intros Hno. rewrite Hw, filter_app, Hip. rewrite <- (app_nil_r (starting "ip=" given)) at 2. f_equal.
    unfold net_words. destruct (network i) as [n|] eqn:Hnet; [|done]. rewrite Hia.
    destruct (any_starts "ip=" given) eqn:Ha; [done|]. case_bool_decide as Hm.
    + apply elem_of_nil_inv. intros w [Hs [_ Hw']%list_elem_of_filter]%list_elem_of_filter. unfold network_params in Hw'. set_unfold in Hw'.
      by destruct Hw' as [->|[->|[]]].
    + destruct Hno. split; [done|]. exists n. by destruct (nc_mode n).
  - intros m Hm. rewrite Hw, elem_of_app. unfold base. rewrite (base_marker b given _ m Hm). unfold net_words, needs.
    destruct (network i) as [n|] eqn:Hnet; [|set_solver]. fold base. rewrite Hia.
    destruct (any_starts "ip=" given) eqn:Ha; [set_solver|]. case_bool_decide as Hmode.
    + rewrite list_elem_of_filter. unfold base. rewrite (base_marker b given _ m Hm). destruct (decide (m ∈ given)); naive_solver.
    + rewrite list_elem_of_singleton. split; [intros [?|Em]; [by left|]|intros [?|(_ & n' & En & ?)]; [by left|congruence]].
      rewrite Em in Hm. unfold network_params in Hm. set_unfold in Hm. by destruct Hm as [?|[?|[]]].
Qed.

(** A QEMU guest behind NAT with a key. *)
Definition demo_boot : VMInfo :=
  {| vi_vm_id := "vm1"; status := CREATED;
     config := {| vm_id := "vm1"; preset := None; vcpu_count := 2; memory := 512; guest_os := UBUNTU; boot_mode := direct_kernel;
       kernel_path := Some "/k"; initrd_path := None; rootfs_path := Some "/r.qcow2"; rootfs_format := None;
       macos_machine := None; extra_drives := []; boot_args := " console=ttyS0  pci=off quiet "; ssh_capable := true;
       backend := Some "qemu"; qemu_network := slirp; qemu_machine := machine_auto; disk_mode := isolated;
       disk_size_mib := None; grow_filesystem := false; retain_disk_on_delete := false; env_vars := [];
       network_rate_limit_mbps := None; port_forwards := []; vsock_config := None; comm_channel := None;
       internet_settings := None; workspace_mounts := []; ssh_public_key := Some "ssh-ed25519 AAAA me";
       guest_managed_networking := false; network_attachment := {| na_mode := nat_mode; na_bridge := None |} |};
     network := Some {| guest_ip := Some "10.0.2.15"; gateway_ip := Some "10.0.2.2"; netmask := Some "255.255.255.0";
       tap_device := "tap0"; guest_mac := "aa"; ssh_host_port := None; egress_proxy_host_port := None; nc_mode := nat_mode;
       nc_bridge := None |};
     pid := None; control_socket_path := None; vsock_uds_path := None; display := None |}.
Lemma boot_args_complete_witness :
  ∃ r, _resolve_boot_args (demo_menv (λ _, false)) demo_boot = Ret r
    ∧ ["console=ttyS0"; "quiet"] `prefix_of` str_words r ∧ any_starts "root=" (str_words r) = true
    ∧ starting "ip=" (str_words r) = ["ip=10.0.2.15::10.0.2.2:255.255.255.0::eth0:off"].
Proof.
  eexists. split; [vm_compute; reflexivity|].
  match goal with |- _ `prefix_of` str_words ?r ∧ _ =>
    pose proof (boot_args_complete (demo_menv (λ _, false)) demo_boot "qemu" r ltac:(vm_compute; reflexivity)
      ltac:(vm_compute; reflexivity) ltac:(intros n [= <-]; vm_compute; reflexivity)) as (H1 & H2 & _ & H4 & _) end.
  split; [exact H1|]. split; [exact (proj2 (H2 eq_refl))|]. refine (H4 _ eq_refl (conj _ (ex_intro _ _ (conj eq_refl eq_refl)))). vm_compute. reflexivity.
Defined.
