(* ===== verification/GuestPlatforms.v ===== *)
(** * runtime/guest_platforms.py: what a guest operating system needs of QEMU

    [GuestPlatformSpec] is the data the command builder reads; the Linux
    spec is all defaults, the Windows spec is built for the host, whose files
    are the oracle [is_file]. *)
From S2P Require Import Prelude PyStr Types ManagerHelpers.
From stdpp Require Import options.

Record FirmwareSpec := {
  code_path : path;
  vars_template_path : path;
  secure_boot : bool }.

Record GuestPlatformSpec := {
  ps_guest_os : GuestOS;
  ps_name : string;
  forced_boot_mode : option boot_mode_t;
  skip_kernel_cmdline_injection : bool;
  skip_workspace_mounts : bool;
  machine_extra_opts : list string;
  cpu_extra_flags : list string;
  extra_globals : list string;
  extra_objects : list string;
  extra_devices : list string;
  root_disk_controller : option string;
  root_disk_device : string;
  cdrom_bus : option string;
  ps_firmware : option FirmwareSpec;
  requires_swtpm : bool;
  swtpm_device_model : string }.

Definition _LINUX_SPEC : GuestPlatformSpec :=
  {| ps_guest_os := ALPINE; ps_name := "linux"; forced_boot_mode := None; skip_kernel_cmdline_injection := false;
     skip_workspace_mounts := false; machine_extra_opts := []; cpu_extra_flags := []; extra_globals := [];
     extra_objects := []; extra_devices := []; root_disk_controller := None; root_disk_device := "virtio-blk";
     cdrom_bus := None; ps_firmware := None; requires_swtpm := false; swtpm_device_model := "tpm-crb" |}.

Definition _X86_64_OVMF_CANDIDATE_PAIRS : list (path * path) :=
  [("/usr/share/OVMF/OVMF_CODE_4M.secboot.fd", "/usr/share/OVMF/OVMF_VARS_4M.ms.fd");
   ("/usr/share/OVMF/OVMF_CODE.secboot.fd", "/usr/share/OVMF/OVMF_VARS.ms.fd");
   ("/usr/share/edk2/ovmf/OVMF_CODE.secboot.fd", "/usr/share/edk2/ovmf/OVMF_VARS.secboot.fd");
   ("/usr/share/edk2-ovmf/OVMF_CODE.secboot.fd", "/usr/share/edk2-ovmf/OVMF_VARS.secboot.fd");
   ("/usr/share/edk2/x64/OVMF_CODE.secboot.4m.fd", "/usr/share/edk2/x64/OVMF_VARS.4m.fd");
   ("/opt/homebrew/share/qemu/edk2-x86_64-code.fd", "/opt/homebrew/share/qemu/edk2-i386-vars.fd");
   ("/usr/local/share/qemu/edk2-x86_64-code.fd", "/usr/local/share/qemu/edk2-i386-vars.fd")].

(** The loop of [_find_x86_64_ovmf] over the candidates. *)
Fixpoint find_pair (is_file : path → bool) (pairs : list (path * path)) : option FirmwareSpec :=
  match pairs with
  | [] => None
  | (code, vars) :: pairs' =>
      if is_file code && is_file vars
      then Some {| code_path := code; vars_template_path := vars; secure_boot := true |}
      else find_pair is_file pairs'
  end.
Definition _find_x86_64_ovmf (is_file : path → bool) : option FirmwareSpec :=
  find_pair is_file _X86_64_OVMF_CANDIDATE_PAIRS.

Definition _x86_64_ovmf_install_hint : string :=
  "Install OVMF Secure Boot firmware to boot Windows guests "
  +:+ "(Debian/Ubuntu: `sudo apt-get install -y ovmf`; Fedora/RHEL: "
  +:+ "`sudo dnf install -y edk2-ovmf`; Arch: `sudo pacman -S --needed "
  +:+ "edk2-ovmf`; macOS: `brew reinstall qemu`).".

Definition _WINDOWS_HV_FLAGS : list string :=
  ["hv_relaxed"; "hv_vapic"; "hv_spinlocks=0x1fff"; "hv_vpindex"; "hv_runtime"; "hv_time"; "hv_synic"; "hv_stimer";
   "hv_frequencies"; "hv_tlbflush"; "hv_ipi"; "hv_reset"; "+kvm_pv_eoi"; "+kvm_pv_unhalt"].
Definition _WINDOWS_MACHINE_OPTS : list string := ["smm=on"; "vmport=off"; "kernel-irqchip=on"].
Definition _WINDOWS_SMM_GLOBALS : list string :=
  ["driver=cfi.pflash01,property=secure,value=on"; "ICH9-LPC.disable_s3=1"].

(** The [GuestPlatformSpec(...)] that [_build_windows_spec] returns. *)
Definition windows_spec (fw : FirmwareSpec) : GuestPlatformSpec :=
  {| ps_guest_os := WINDOWS; ps_name := "windows"; forced_boot_mode := Some firmware;
     skip_kernel_cmdline_injection := true; skip_workspace_mounts := true;
     machine_extra_opts := _WINDOWS_MACHINE_OPTS; cpu_extra_flags := _WINDOWS_HV_FLAGS;
     extra_globals := _WINDOWS_SMM_GLOBALS; extra_objects := [];
     extra_devices := ["qemu-xhci,id=xhci"; "usb-tablet,bus=xhci.0"];
     root_disk_controller := Some "virtio-scsi-pci"; root_disk_device := "scsi-hd"; cdrom_bus := Some "ide";
     ps_firmware := Some fw; requires_swtpm := true; swtpm_device_model := "tpm-crb" |}.

Definition _build_windows_spec (is_file : path → bool) (host_system arch : string) : outcome GuestPlatformSpec :=
  _ ← guard_raise (negb (String.eqb host_system "Linux"))
        (NotImplementedErrorExn ("Windows guests are only supported on Linux hosts in this release. "
           +:+ "macOS host + Windows guest needs HVF for x86_64 (doesn't exist), "
           +:+ "or Windows-on-ARM under HVF (out of scope). See docs/guides/windows.md."));
  _ ← guard_raise (negb (bool_decide (lower arch ∈ ["x86_64"; "amd64"])))
        (NotImplementedErrorExn ("Windows guests on " +:+ arch
           +:+ " are not supported. Phase 1 targets x86_64 hosts only."));
  match _find_x86_64_ovmf is_file with
  | None => Raise (ValueError _x86_64_ovmf_install_hint)
  | Some fw => Ret (windows_spec fw)
  end.

Definition get_guest_platform (is_file : path → bool) (g : GuestOS) (host_system arch : string)
  : outcome GuestPlatformSpec :=
  if bool_decide (g = WINDOWS) then _build_windows_spec is_file host_system arch else Ret _LINUX_SPEC.

(** ** The first complete pair *)
Lemma find_pair_spec is_file pairs fw :
  find_pair is_file pairs = Some fw →
  is_file (code_path fw) = true ∧ is_file (vars_template_path fw) = true
  ∧ (code_path fw, vars_template_path fw) ∈ pairs.
Proof.
  induction pairs as [|[code vars] pairs IH]; [done|]. simpl. destruct (is_file code && is_file vars) eqn:H.
  - intros [= <-]. simpl. apply andb_true_iff in H as [? ?]. split_and!; [done..|by left].
  - intros (? & ? & ?)%IH. split_and!; [done..|by right].
Qed.

(** The spec of a guest is the Linux one, or the Windows one with a firmware
    pair of one distribution that exists on the host. *)
Lemma get_guest_platform_cases is_file g host_system arch spec :
  get_guest_platform is_file g host_system arch = Ret spec →
  (g ≠ WINDOWS ∧ spec = _LINUX_SPEC)
  ∨ (g = WINDOWS ∧ ∃ fw, spec = windows_spec fw ∧ is_file (code_path fw) = true
       ∧ is_file (vars_template_path fw) = true
       ∧ (code_path fw, vars_template_path fw) ∈ _X86_64_OVMF_CANDIDATE_PAIRS).
Proof.
  unfold get_guest_platform, _build_windows_spec. case_bool_decide as Hg; [|intros [= <-]; by left]. intros H. right.
  split; [done|]. destruct (_find_x86_64_ovmf is_file) as [fw|] eqn:Hf;
    unfold guard_raise in H; destruct (String.eqb host_system "Linux"), (bool_decide _); try done.
  injection H as <-. exists fw. split; [done|]. by apply find_pair_spec.
Qed.
