(* ===== verification/QemuArgs.v ===== *)
(** * runtime/qemu_args.py: the QEMU command line

    [build_qemu_argv] in the blocks of the source, each a part of the argument
    list, composed in its order; [_resolve_boot_args] (vm.py) makes the kernel
    command line passed to it.  What the code asks its host is [qemu_host]. *)
From S2P Require Import Prelude PyStr PyUrl Types PublicEgress Env ConfigValidation ManagerState ManagerHelpers.
From S2P Require Import GuestPlatforms BootArgs.
From Stdlib Require Import Ascii.
From stdpp Require Import options.

(** ** Texts *)

(** [str(value).replace(",", ",,")] *)
Definition comma : ascii := ","%char.
Fixpoint _qemu_value (s : string) : string :=
  match s with
  | "" => ""
  | String c s' => if Ascii.eqb c comma then String comma (String comma (_qemu_value s')) else String c (_qemu_value s')
  end.
(** [str(path)] of an optional path *)
Definition str_path (p : option path) : string := default "None" p.
(** [shlex.join(words)] *)
Definition shlex_join (ws : list string) : string := str_join " " (shell_quote <$> ws).

Definition QEMU_SLIRP_DNS : string := "10.0.2.3".
Definition _Q35_AHCI_PORTS : nat := 6.
Definition _QEMU_MICROVM_MACHINE : string := "microvm,accel=kvm,acpi=on,pcie=off,pic=off,pit=off,rtc=on".
Definition QEMU_ROOT_NODE_NAME : string := "rootdisk0".
Definition _AARCH64_EDK2_FIRMWARE_CANDIDATES : list path :=
  ["/opt/homebrew/share/qemu/edk2-aarch64-code.fd"; "/usr/local/share/qemu/edk2-aarch64-code.fd";
   "/usr/share/qemu-efi-aarch64/QEMU_EFI.fd"; "/usr/share/AAVMF/AAVMF_CODE.fd";
   "/usr/share/edk2/aarch64/QEMU_EFI.fd"; "/usr/share/edk2-armvirt/aarch64/QEMU_EFI.fd"].

(** ** The host: the machine variable of the environment, the operating system,
    its files, the interpreter and the directory of the package. *)
Record qemu_host := {
  h_env_machine : option string;
  h_system : string;
  h_is_file : path → bool;
  h_executable : path;
  h_package : path }.

(** The arguments of [build_qemu_argv] besides the computer. *)
Record qemu_call := {
  qemu_bin : path;
  q_boot_args : string;
  platform_spec : GuestPlatformSpec;
  q_control_socket : option path;
  firmware_vars_path : option path;
  swtpm_socket : option path;
  start_paused : bool;
  root_node_name : string;
  host_system : option string }.

Section argv.
Context (H : qemu_host).

Definition _find_aarch64_uefi_firmware : option path :=
  list_find (λ p, h_is_file H p = true) _AARCH64_EDK2_FIRMWARE_CANDIDATES ≫= λ ip, Some ip.2.

(** ** The machine *)
Definition QemuMachine_of_value (v : string) : option QemuMachine :=
  if String.eqb v "auto" then Some machine_auto
  else if String.eqb v "q35" then Some machine_q35
  else if String.eqb v "microvm" then Some machine_microvm
  else None.
Definition _requested_qemu_machine (i : VMInfo) : QemuMachine :=
  default (qemu_machine (config i)) (QemuMachine_of_value (lower (strip (default "" (h_env_machine H))))).
Definition _supports_qemu_microvm (i : VMInfo) (qemu_name system : string) (spec : GuestPlatformSpec) : bool :=
  String.eqb system "Linux" && String.eqb qemu_name "qemu-system-x86_64"
  && bool_decide (boot_mode (config i) = direct_kernel) && bool_decide (ps_guest_os spec ∈ [ALPINE; UBUNTU]).
Definition _use_qemu_microvm (i : VMInfo) (qemu_name system : string) (spec : GuestPlatformSpec) : bool :=
  match _requested_qemu_machine i with
  | machine_q35 => false
  | _ => _supports_qemu_microvm i qemu_name system spec
  end.

(** ** The blocks of [build_qemu_argv] *)
Implicit Types (i : VMInfo) (n : NetworkConfig) (q : qemu_call).

Definition tap_mode i : bool :=
  bool_decide (qemu_network (config i) = tap)
  || match network i with Some n => bool_decide (nc_mode n = bridge_mode) | None => false end.

Definition system_of q : string := default (h_system H) (host_system q).
Definition qemu_name q : string := path_name (qemu_bin q).
Definition use_microvm i q : bool := _use_qemu_microvm i (qemu_name q) (system_of q) (platform_spec q).
Definition is_aarch64 q : bool := contains "aarch64" (qemu_name q).

Definition qemu_rootfs_format (c : VMConfig) : outcome string :=
  f ← effective_rootfs_format c; Ret (match f with rootfs_qcow2 => "qcow2" | raw_ext4 => "raw" end).
Definition root_drive_id q : string := root_node_name q +:+ "-drive".
Definition drive_arg i q (disk_format : string) : string :=
  "file=" +:+ _qemu_value (str_path (rootfs_path (config i))) +:+ ",if=none,format=" +:+ disk_format +:+ ","
  +:+ "id=" +:+ root_drive_id q +:+ ",node-name=" +:+ root_node_name q.

(** The [hostfwd=] rules. *)
Definition hostfwd_rule (address : string) (host_port guest_port : Z) : string :=
  "hostfwd=tcp:" +:+ address +:+ ":" +:+ dec host_port +:+ "-:" +:+ dec guest_port.
Definition hostfwd_rules i n : list string :=
  (match ssh_host_port n with Some p => [hostfwd_rule "127.0.0.1" p 22] | None => [] end)
  ++ ((λ f, hostfwd_rule (pf_host_address f) (pf_host_port f) (pf_guest_port f)) <$> port_forwards (config i)).
(** [settings is not None and settings.mode == mode] *)
Definition mode_is (c : VMConfig) (m : internet_mode) : bool :=
  match internet_settings c with Some s => bool_decide (is_mode s = Some m) | None => false end.
Definition relay_path : path := h_package H +:+ "/host/_public_egress_relay.py".
Definition relay_command (port : Z) : string := shlex_join [h_executable H; "-I"; relay_path; dec port].
Definition guestfwd_rule (port : Z) : string :=
  "guestfwd=tcp:" +:+ QEMU_PUBLIC_PROXY_GUEST_IP +:+ ":" +:+ dec QEMU_PUBLIC_PROXY_GUEST_PORT
  +:+ "-cmd:" +:+ _qemu_value (relay_command port).
Definition netdev_arg i n : outcome string :=
  if tap_mode i then Ret ("tap,id=net0,ifname=" +:+ tap_device n +:+ ",script=no,downscript=no")
  else
    let netdev_options := ("user,id=net0,dns=" +:+ QEMU_SLIRP_DNS) :: hostfwd_rules i n in
    let proxy_host_port := egress_proxy_host_port n in
    _ ← guard_raise (mode_is (config i) public_mode && negb (is_some proxy_host_port))
          (CelestoError ("Public browsing is unavailable for '" +:+ vi_vm_id i +:+ "'; run 'celesto sandbox delete "
             +:+ vi_vm_id i +:+ "' and create it again."));
    Ret (str_join "," (netdev_options ++
      match proxy_host_port with
      | Some port => ["restrict=on"; "ipv6=off"; guestfwd_rule port]
      | None => if mode_is (config i) off_mode then ["restrict=on"; "ipv6=off"] else []
      end)).

(** [if c: cmd.extend(args)] *)
Definition args_if (c : bool) (args : list string) : list string := if c then args else [].
Definition direct i : bool := bool_decide (boot_mode (config i) = direct_kernel).

(** The command up to [-initrd]. *)
Definition head_args i q (drive netdev : string) : list string :=
  [qemu_bin q; "-smp"; dec (vcpu_count (config i)); "-m"; dec (memory (config i))]
  ++ args_if (use_microvm i q) ["-nodefaults"; "-serial"; "stdio"]
  ++ args_if (direct i) ["-kernel"; str_path (kernel_path (config i)); "-append"; q_boot_args q]
  ++ ["-drive"; drive; "-netdev"; netdev; "-nographic"; "-no-reboot"]
  ++ args_if (use_microvm i q) ["-monitor"; "none"]
  ++ args_if (negb (bool_decide (ps_guest_os (platform_spec q) = WINDOWS))) ["-rtc"; "base=utc,clock=host"]
  ++ (if direct i then match initrd_path (config i) with Some p => ["-initrd"; p] | None => [] end else []).

(** The extra drives, with the index of [enumerate]. *)
Definition drive_id (index : nat) : string := "extra" +:+ dec (Z.of_nat index) +:+ "-drive".
Definition node_name (index : nat) : string := "extra" +:+ dec (Z.of_nat index).
Definition is_iso (p : path) : bool := String.eqb (lower (path_suffix p)) ".iso".
Definition extra_drive_arg (index : nat) (p : path) : string :=
  str_join "," (["file=" +:+ _qemu_value p; "if=none";
     "format=" +:+ (if String.eqb (lower (path_suffix p)) ".qcow2" then "qcow2" else "raw")]
    ++ args_if (is_iso p) ["readonly=on"] ++ ["id=" +:+ drive_id index; "node-name=" +:+ node_name index]).
Definition extra_drive_args i : list string :=
  concat (imap (λ index p, ["-drive"; extra_drive_arg index p]) (extra_drives (config i))).
Definition extra_drive_ids i : list string := imap (λ index _, drive_id index) (extra_drives (config i)).

(** The workspace mounts. *)
Definition fsdev_opts (tag : string) (ws : WorkspaceMount) : string :=
  "local,id=fsdev-" +:+ tag +:+ ",path=" +:+ _qemu_value (wm_host_path ws) +:+ ",security_model=mapped-xattr"
  +:+ (if writable ws then "" else ",readonly=on").
Definition mounts i q : list WorkspaceMount :=
  if skip_workspace_mounts (platform_spec q) then [] else workspace_mounts (config i).
Definition fsdev_args i q : list string :=
  concat (imap (λ index ws, ["-fsdev"; fsdev_opts (resolved_tag ws (Z.of_nat index)) ws]) (mounts i q)).
Definition workspace_fsdev_ids i q : list (string * string) :=
  imap (λ index ws, let tag := resolved_tag ws (Z.of_nat index) in ("fsdev-" +:+ tag, tag)) (mounts i q).

Definition control_args q : list string :=
  (match q_control_socket q with Some p => ["-qmp"; "unix:" +:+ _qemu_value p +:+ ",server=on,wait=off"] | None => [] end)
  ++ args_if (start_paused q) ["-S"].

(** The devices of the virtio-mmio machines: the root disk comes last. *)
Definition device (arg : string) : list string := ["-device"; arg].
Definition ninep_devices (driver : string) i q : list string :=
  concat ((λ ft, device (driver +:+ ",fsdev=" +:+ ft.1 +:+ ",mount_tag=" +:+ ft.2)) <$> workspace_fsdev_ids i q).
Definition mmio_devices i n q : list string :=
  concat ((λ d, device ("virtio-blk-device,drive=" +:+ d)) <$> extra_drive_ids i)
  ++ ninep_devices "virtio-9p-device" i q
  ++ device ("virtio-net-device,netdev=net0,mac=" +:+ lower (guest_mac n))
  ++ device ("virtio-blk-device,drive=" +:+ root_drive_id q).

Definition aarch64_args i n q : outcome (list string) :=
  firmware_args ← (if bool_decide (boot_mode (config i) = firmware)
     then match _find_aarch64_uefi_firmware with
          | None => Raise (CelestoError ("aarch64 firmware-boot requires UEFI firmware (edk2/AAVMF) "
              +:+ "but none was found. Searched: " +:+ str_join ", " _AARCH64_EDK2_FIRMWARE_CANDIDATES
              +:+ ". On macOS run 'brew reinstall qemu'; on Debian/Ubuntu install 'qemu-efi-aarch64'."))
          | Some p => Ret ["-bios"; p]
          end
     else Ret []);
  Ret (["-machine"; if String.eqb (system_of q) "Darwin" then "virt,accel=hvf" else "virt,accel=kvm"; "-cpu"; "host"]
       ++ firmware_args ++ mmio_devices i n q).
Definition microvm_args i n q : list string :=
  ["-machine"; _QEMU_MICROVM_MACHINE; "-cpu"; "host"] ++ mmio_devices i n q.

(** The drives of the q35 machine: ISO images on the AHCI ports while there
    are any, the others on virtio. *)
Fixpoint q35_extra_devices (bus : option string) (ide_port_index : nat) (drives : list (string * path)) : list string :=
  match drives with
  | [] => []
  | (d, p) :: drives' =>
      if is_iso p && bool_decide (bus = Some "ide") && (ide_port_index <? _Q35_AHCI_PORTS)
      then device ("ide-cd,bus=ide." +:+ dec (Z.of_nat ide_port_index) +:+ ",drive=" +:+ d)
           ++ q35_extra_devices bus (S ide_port_index) drives'
      else device ("virtio-blk-pci,drive=" +:+ d) ++ q35_extra_devices bus ide_port_index drives'
  end.

Definition q35_args i n q : outcome (list string) :=
  let spec := platform_spec q in
  pflash ← (match ps_firmware spec with
     | None => Ret []
     | Some fw =>
         match firmware_vars_path q with
         | None => Raise (CelestoError ("Guest platform requires firmware split-pflash but no "
                            +:+ "per-VM OVMF_VARS path was provided."))
         | Some vars => Ret ["-drive"; "if=pflash,format=raw,unit=0,readonly=on,file=" +:+ _qemu_value (code_path fw);
                             "-drive"; "if=pflash,format=raw,unit=1,file=" +:+ _qemu_value vars]
         end
     end);
  tpm ← (if requires_swtpm spec then
       match swtpm_socket q with
       | None => Raise (CelestoError "Guest platform requires swtpm but no socket path was provided.")
       | Some p => Ret (["-chardev"; "socket,id=chrtpm,path=" +:+ _qemu_value p; "-tpmdev"; "emulator,id=tpm0,chardev=chrtpm"]
                        ++ device (swtpm_device_model spec +:+ ",tpmdev=tpm0"))
       end
     else Ret []);
  Ret (["-machine"; str_join "," ((if String.eqb (system_of q) "Darwin" then "q35,accel=hvf" else "q35,accel=kvm")
          :: machine_extra_opts spec);
        "-cpu"; str_join "," ("host" :: cpu_extra_flags spec)]
    ++ concat ((λ g, ["-global"; g]) <$> extra_globals spec)
    ++ concat ((λ o, ["-object"; o]) <$> extra_objects spec)
    ++ pflash ++ tpm
    ++ (match root_disk_controller spec with
        | None => device ("virtio-blk-pci,drive=" +:+ root_drive_id q)
        | Some controller => device (controller +:+ ",id=scsi0")
            ++ device (root_disk_device spec +:+ ",bus=scsi0.0,drive=" +:+ root_drive_id q)
        end)
    ++ device ("virtio-net-pci,netdev=net0,mac=" +:+ lower (guest_mac n))
    ++ q35_extra_devices (cdrom_bus spec) 0 (zip (extra_drive_ids i) (extra_drives (config i)))
    ++ ninep_devices "virtio-9p-pci" i q
    ++ concat (device <$> extra_devices spec)).

Definition machine_args i n q : outcome (list string) :=
  if is_aarch64 q then aarch64_args i n q
  else if use_microvm i q then Ret (microvm_args i n q)
  else q35_args i n q.

Definition vsock_args i q : list string :=
  match vsock_config (config i) with
  | Some v =>
      args_if (String.eqb (system_of q) "Linux")
        (device ((if is_aarch64 q || use_microvm i q then "vhost-vsock-device" else "vhost-vsock-pci")
           +:+ ",guest-cid=" +:+ dec (guest_cid v)))
  | None => []
  end.

Definition missing_ssh_message i : string :=
  "Computer '" +:+ vi_vm_id i +:+ "' is missing the port needed for SSH; recreate it with "
  +:+ "'celesto computer create --name " +:+ vi_vm_id i +:+ " --comm-channel ssh'.".

Definition build_qemu_argv i q : outcome (list string) :=
  match network i with
  | None => Raise (CelestoError "QEMU backend requires a computer network config")
  | Some n =>
      _ ← guard_raise (negb (tap_mode i) && bool_decide (comm_channel (config i) = Some ssh)
                       && negb (is_some (ssh_host_port n))) (CelestoError (missing_ssh_message i));
      _ ← guard_raise (match forced_boot_mode (platform_spec q) with
                       | Some m => negb (bool_decide (boot_mode (config i) = m))
                       | None => false
                       end) (CelestoError "Computer boot_mode does not match platform spec");
      disk_format ← qemu_rootfs_format (config i);
      netdev ← netdev_arg i n;
      machine ← machine_args i n q;
      Ret (head_args i q (drive_arg i q disk_format) netdev ++ extra_drive_args i ++ fsdev_args i q
           ++ control_args q ++ machine ++ vsock_args i q)
  end.
End argv.

(** ** [_start_qemu] (vm.py) up to the process: the binary, the kernel command
    line, the platform of the guest, the arguments. *)
Section start.
Context (E : menv) (H : qemu_host).
Definition start_qemu_argv (binary : option path) (install_hint arch : string) (i : VMInfo)
    (control vars swtpm : option path) (paused : bool) (root_node : string) : outcome (list string) :=
  match binary with
  | None => Raise (CelestoError ("qemu-system binary is missing; " +:+ install_hint))
  | Some bin =>
      args ← _resolve_boot_args E i;
      spec ← get_guest_platform (h_is_file H) (guest_os (config i)) (h_system H) arch;
      build_qemu_argv H i
        {| qemu_bin := bin; q_boot_args := args; platform_spec := spec; q_control_socket := control;
           firmware_vars_path := vars; swtpm_socket := swtpm; start_paused := paused; root_node_name := root_node;
           host_system := None |}
  end.
End start.
