(* ===== verification/QemuCommand.v ===== *)
(** * What QEMU reads from the command line

    A reader of QEMU's command-line syntax (flags with and without a value,
    comma-separated options with [,,] for a comma) and what it finds in the
    arguments [build_qemu_argv] makes: the files opened, the devices attached,
    the network the guest sees. *)
From S2P Require Import Prelude PyStr PyUrl Types PublicEgress Env ConfigValidation ManagerHelpers GuestPlatforms QemuArgs.
From Stdlib Require Import Ascii.
From stdpp Require Import options.

(** ** The reader *)

(** [get_opt_value] of QEMU: an option ends at a comma that is not doubled. *)
Fixpoint opt_split (cur : string) (s : string) : list string :=
  match s with
  | "" => [cur]
  | String c s' =>
      if Ascii.eqb c comma then
        match s' with
        | "" => [cur]
        | String d s'' => if Ascii.eqb d comma then opt_split (add_char cur comma) s'' else cur :: opt_split "" s'
        end
      else opt_split (add_char cur c) s'
  end.
Definition options_of (s : string) : list string := opt_split "" s.

Definition flags_alone : list string := ["-nodefaults"; "-nographic"; "-no-reboot"; "-S"].
Definition flags_valued : list string :=
  ["-smp"; "-m"; "-serial"; "-kernel"; "-append"; "-initrd"; "-drive"; "-netdev"; "-monitor"; "-rtc"; "-fsdev"; "-qmp";
   "-machine"; "-cpu"; "-bios"; "-device"; "-global"; "-object"; "-chardev"; "-tpmdev"].
Fixpoint read_cmdline (args : list string) : option (list (string * string)) :=
  match args with
  | [] => Some []
  | f :: args' =>
      if bool_decide (f ∈ flags_alone) then cons (f, "") <$> read_cmdline args'
      else if bool_decide (f ∈ flags_valued) then
        match args' with
        | v :: args'' => cons (f, v) <$> read_cmdline args''
        | [] => None
        end
      else None
  end.

(** ** Options read back *)
Definition plain (s : string) : bool := negb (contains_char comma s).
Definition starts_plain (s : string) : bool :=
  match s with "" => false | String c _ => negb (Ascii.eqb c comma) end.

Lemma qemu_value_app a b : _qemu_value (a +:+ b) = _qemu_value a +:+ _qemu_value b.
Proof.
  induction a as [|c a IH]; [done|]. change (String c a +:+ b) with (String c (a +:+ b)). cbn [_qemu_value].
  rewrite IH. by destruct (Ascii.eqb c comma).
Qed.
Lemma plain_cons c s : plain (String c s) = negb (Ascii.eqb c comma) && plain s.
Proof.
  unfold plain, contains_char, str_any. cbn [str_all]. rewrite !negb_involutive. done.
Qed.
Lemma qemu_value_plain s : plain s = true → _qemu_value s = s.
Proof.
  induction s as [|c s IH]; [done|]. rewrite plain_cons. cbn [_qemu_value]. destruct (Ascii.eqb c comma); [done|].
  intros H. by rewrite IH.
Qed.
Lemma plain_app a b : plain (a +:+ b) = plain a && plain b.
Proof. unfold plain, contains_char, str_any. by rewrite !negb_involutive, str_all_app. Qed.
Lemma plain_all p s : str_all p s = true → p comma = false → plain s = true.
Proof.
  intros Hs Hp. induction s as [|c s IH]; [done|]. cbn [str_all] in Hs. apply andb_true_iff in Hs as [Hc Hs].
  rewrite plain_cons, IH by done. destruct (Ascii.eqb_spec c comma); [congruence|done].
Qed.
Lemma plain_dec n : plain (dec n) = true.
Proof.
  destruct (decide (0 ≤ n)%Z) as [Hn|Hn].
  - destruct (dec_nat n Hn) as [Hd _]. by apply (plain_all is_digit).
  - destruct n as [|p|p]; try lia. change (dec (Zneg p)) with ("-" +:+ dec (Zpos p)). rewrite plain_app.
    destruct (dec_nat (Zpos p)) as [Hd _]; [lia|]. simpl. by apply (plain_all is_digit).
Qed.

Lemma opt_split_value w cur rest : opt_split cur (_qemu_value w +:+ rest) = opt_split (cur +:+ w) rest.
Proof.
  revert cur. induction w as [|c w IH]; intros cur; [by rewrite str_app_nil_r|]. cbn [_qemu_value].
  destruct (Ascii.eqb_spec c comma) as [->|Hc].
  - change (String comma (String comma (_qemu_value w)) +:+ rest) with (String comma (String comma (_qemu_value w +:+ rest))).
    cbn [opt_split]. rewrite Ascii.eqb_refl, IH. by rewrite add_char_app.
  - change (String c (_qemu_value w) +:+ rest) with (String c (_qemu_value w +:+ rest)). cbn [opt_split].
    destruct (Ascii.eqb_spec c comma); [done|]. by rewrite IH, add_char_app.
Qed.
Lemma opt_split_comma cur s : starts_plain s = true → opt_split cur (String comma s) = cur :: opt_split "" s.
Proof. destruct s as [|c s]; [done|]. cbn [opt_split starts_plain]. rewrite Ascii.eqb_refl. by destruct (Ascii.eqb c comma). Qed.

Lemma options_of_join w ws :
  forallb starts_plain ws = true → options_of (str_join "," (_qemu_value <$> w :: ws)) = w :: ws.
Proof.
  unfold options_of. revert w. induction ws as [|w' ws IH]; intros w.
  { intros _. rewrite <- (str_app_nil_r (str_join _ _)). simpl. by rewrite opt_split_value. }
  cbn [forallb]. intros [Hw' Hws]%andb_true_iff.
  change (str_join "," (_qemu_value <$> w :: w' :: ws))
    with (_qemu_value w +:+ String comma (str_join "," (_qemu_value <$> w' :: ws))).
  rewrite opt_split_value, opt_split_comma; [by rewrite IH|].
  destruct w' as [|c w']; [done|]. simpl in Hw'. cbn [fmap list_fmap _qemu_value]. destruct (Ascii.eqb c comma) eqn:E; [done|].
  destruct ws; simpl; by rewrite E.
Qed.

(** ** Argument lists read back *)
Definition reads (args : list string) (cl : list (string * string)) : Prop :=
  ∀ rest, read_cmdline (args ++ rest) = app cl <$> read_cmdline rest.

Lemma reads_nil : reads [] [].
Proof. intros rest. simpl. by destruct (read_cmdline rest). Qed.
Lemma reads_app a b x y : reads a x → reads b y → reads (a ++ b) (x ++ y).
Proof.
  intros Ha Hb rest. rewrite <- app_assoc, Ha, Hb. destruct (read_cmdline rest); simpl; [|done]. by rewrite app_assoc.
Qed.
Lemma reads_value f v args cl :
  bool_decide (f ∈ flags_alone) = false → bool_decide (f ∈ flags_valued) = true →
  reads args cl → reads (f :: v :: args) ((f, v) :: cl).
Proof. intros H1 H2 Ha rest. cbn [read_cmdline app]. rewrite H1, H2, Ha. by destruct (read_cmdline rest). Qed.
Lemma reads_alone f args cl :
  bool_decide (f ∈ flags_alone) = true → reads args cl → reads (f :: args) ((f, "") :: cl).
Proof. intros H1 Ha rest. cbn [read_cmdline app]. rewrite H1, Ha. by destruct (read_cmdline rest). Qed.

(** ** What QEMU sees: the drives, the disks attached, the AHCI
    ports with the disk each holds, the
    network back ends and cards, the shared directories and their devices. *)
Record view := {
  v_drives : list (list string);
  v_attached : list string;
  v_ports : list (string * string);
  v_netdevs : list (list string);
  v_nics : list string;
  v_fsdevs : list (list string);
  v_shares : list (list string) }.
Definition view_nil : view :=
  {| v_drives := []; v_attached := []; v_ports := []; v_netdevs := []; v_nics := []; v_fsdevs := []; v_shares := [] |}.
Definition view_app (v w : view) : view :=
  {| v_drives := v_drives v ++ v_drives w; v_attached := v_attached v ++ v_attached w; v_ports := v_ports v ++ v_ports w;
     v_netdevs := v_netdevs v ++ v_netdevs w; v_nics := v_nics v ++ v_nics w; v_fsdevs := v_fsdevs v ++ v_fsdevs w;
     v_shares := v_shares v ++ v_shares w |}.

(** The value of the option [key], if the option gives one. *)
Definition value_for (key opt : string) : option string :=
  if startswith key opt then Some (String.substring (String.length key) (String.length opt) opt) else None.
Definition disk_drivers : list string :=
  ["virtio-blk-device"; "virtio-blk-pci"; "virtio-blk"; "scsi-hd"; "ide-cd"].
Definition net_drivers : list string := ["virtio-net-device"; "virtio-net-pci"].
Definition share_drivers : list string := ["virtio-9p-device"; "virtio-9p-pci"].
Definition device_view (opts : list string) : view :=
  match opts with
  | d :: props =>
      {| v_drives := []; v_attached := if bool_decide (d ∈ disk_drivers) then omap (value_for "drive=") props else [];
         v_ports := if String.eqb d "ide-cd" then zip (omap (value_for "bus=") props) (omap (value_for "drive=") props) else [];
         v_netdevs := []; v_nics := if bool_decide (d ∈ net_drivers) then omap (value_for "netdev=") props else [];
         v_fsdevs := []; v_shares := if bool_decide (d ∈ share_drivers) then [props] else [] |}
  | [] => view_nil
  end.
Definition flag_view (fv : string * string) : view :=
  if String.eqb fv.1 "-device" then device_view (options_of fv.2)
  else {| v_drives := if String.eqb fv.1 "-drive" then [options_of fv.2] else []; v_attached := []; v_ports := [];
          v_netdevs := if String.eqb fv.1 "-netdev" then [options_of fv.2] else []; v_nics := [];
          v_fsdevs := if String.eqb fv.1 "-fsdev" then [options_of fv.2] else []; v_shares := [] |}.
Definition view_of (cl : list (string * string)) : view := foldr (λ fv, view_app (flag_view fv)) view_nil cl.
(** The reading of a command line, without its program. *)
Definition qemu_sees (args : list string) : option view := view_of <$> read_cmdline args.

Lemma view_nil_l v : view_app view_nil v = v.
Proof. by destruct v. Qed.
Lemma view_nil_r v : view_app v view_nil = v.
Proof. destruct v. unfold view_app. simpl. by rewrite !app_nil_r. Qed.
Lemma view_app_assoc u v w : view_app (view_app u v) w = view_app u (view_app v w).
Proof. unfold view_app. simpl. by rewrite <- !app_assoc. Qed.
Lemma view_of_app x y : view_of (x ++ y) = view_app (view_of x) (view_of y).
Proof. induction x as [|fv x IH]; simpl; [by rewrite view_nil_l|]. by rewrite IH, view_app_assoc. Qed.

(** [shows args v]: a part of a command line that QEMU sees as [v]. *)
Definition shows (args : list string) (v : view) : Prop := ∃ cl, reads args cl ∧ view_of cl = v.

Lemma shows_nil : shows [] view_nil.
Proof. exists []. split; [apply reads_nil|done]. Qed.
Lemma shows_app a b x y : shows a x → shows b y → shows (a ++ b) (view_app x y).
Proof. intros (c & ? & <-) (d & ? & <-). exists (c ++ d). split; [by apply reads_app|apply view_of_app]. Qed.
Lemma shows_value f v args w :
  bool_decide (f ∈ flags_alone) = false → bool_decide (f ∈ flags_valued) = true →
  shows args w → shows (f :: v :: args) (view_app (flag_view (f, v)) w).
Proof. intros H1 H2 (c & ? & <-). exists ((f, v) :: c). split; [by apply reads_value|done]. Qed.
Lemma shows_alone f args w :
  bool_decide (f ∈ flags_alone) = true → flag_view (f, "") = view_nil → shows args w → shows (f :: args) w.
Proof.
  intros H1 H2 (c & ? & <-). exists ((f, "") :: c). split; [by apply reads_alone|]. simpl. by rewrite H2, view_nil_l.
Qed.
(** A flag whose value is not looked at. *)
Lemma shows_other f v args w :
  bool_decide (f ∈ flags_alone) = false → bool_decide (f ∈ flags_valued) = true →
  bool_decide (f ∈ ["-device"; "-drive"; "-netdev"; "-fsdev"]) = false →
  shows args w → shows (f :: v :: args) w.
Proof.
  intros H1 H2 H3 Hs. rewrite <- (view_nil_l w). assert (flag_view (f, v) = view_nil) as <-.
  { apply bool_decide_eq_false in H3. rewrite !not_elem_of_cons in H3. destruct H3 as (?&?&?&?&_). unfold flag_view. simpl.
    repeat match goal with |- context [String.eqb f ?x] => destruct (String.eqb_spec f x); [done|] end. done. }
  by apply shows_value.
Qed.
Lemma shows_if (c : bool) a x : shows a x → shows (args_if c a) (if c then x else view_nil).
Proof. destruct c; [done|]. intros _. apply shows_nil. Qed.
Lemma shows_sees args v : shows args v → qemu_sees args = Some v.
Proof.
  intros (cl & H & <-). unfold qemu_sees. specialize (H []). rewrite app_nil_r in H. rewrite H. simpl. by rewrite app_nil_r.
Qed.

(** Views of many arguments of one form. *)
Definition view_concat (vs : list view) : view := foldr view_app view_nil vs.
Lemma shows_concat_imap {A} (f : nat → A → list string) g (l : list A) :
  (∀ k x, l !! k = Some x → shows (f k x) (g k x)) → shows (concat (imap f l)) (view_concat (imap g l)).
Proof.
  revert f g. induction l as [|x l IH]; intros f g Hf; [apply shows_nil|]. simpl.
  apply shows_app; [by apply Hf|]. apply (IH (f ∘ S) (g ∘ S)). intros k y Hk. by apply Hf.
Qed.
Lemma shows_concat {A} (f : A → list string) g (l : list A) :
  (∀ x, x ∈ l → shows (f x) (g x)) → shows (concat (f <$> l)) (view_concat (g <$> l)).
Proof.
  induction l as [|x l IH]; intros Hf; [apply shows_nil|]. simpl. apply shows_app; [apply Hf; by left|].
  apply IH. intros y Hy. apply Hf. by right.
Qed.
Create HintDb qemu.
#[export] Hint Resolve shows_nil shows_app shows_if : qemu.
#[export] Hint Extern 1 (shows (_ :: _) _) => (apply shows_alone; [reflexivity|reflexivity|]) : qemu.
#[export] Hint Extern 2 (shows (_ :: _ :: _) _) => (apply shows_other; [reflexivity|reflexivity|reflexivity|]) : qemu.
