(* ===== verification/QemuLaunch.v ===== *)
(** * The machine QEMU is asked for

    What the reader of [QemuCommand] finds in the arguments of
    [build_qemu_argv], block by block, and the properties of the whole. *)
From S2P Require Import Prelude PyStr PyUrl Types PublicEgress Env ConfigValidation ManagerHelpers GuestPlatforms.
From S2P Require Import QemuArgs QemuCommand.
From Stdlib Require Import Ascii.
From stdpp Require Import options.

(** ** What is meant to be seen *)
Definition see_drives (l : list (list string)) : view :=
  {| v_drives := l; v_attached := []; v_ports := []; v_netdevs := []; v_nics := []; v_fsdevs := []; v_shares := [] |}.
Definition see_fsdevs (l : list (list string)) : view :=
  {| v_drives := []; v_attached := []; v_ports := []; v_netdevs := []; v_nics := []; v_fsdevs := l; v_shares := [] |}.
Definition see_devices (attached : list string) (ports : list (string * string)) (nics : list string) (shares : list (list string)) : view :=
  {| v_drives := []; v_attached := attached; v_ports := ports; v_netdevs := []; v_nics := nics; v_fsdevs := [];
     v_shares := shares |}.

Definition root_drive (i : VMInfo) (q : qemu_call) (fmt : string) : list string :=
  ["file=" +:+ str_path (rootfs_path (config i)); "if=none"; "format=" +:+ fmt; "id=" +:+ root_drive_id q;
   "node-name=" +:+ root_node_name q].
Definition extra_drive (index : nat) (p : path) : list string :=
  ["file=" +:+ p; "if=none"; "format=" +:+ (if String.eqb (lower (path_suffix p)) ".qcow2" then "qcow2" else "raw")]
  ++ args_if (is_iso p) ["readonly=on"] ++ ["id=" +:+ drive_id index; "node-name=" +:+ node_name index].
Definition shared_dir (index : nat) (ws : WorkspaceMount) : list string :=
  ["local"; "id=fsdev-" +:+ resolved_tag ws (Z.of_nat index); "path=" +:+ wm_host_path ws; "security_model=mapped-xattr"]
  ++ args_if (negb (writable ws)) ["readonly=on"].
Definition share_device (index : nat) (ws : WorkspaceMount) : list string :=
  let tag := resolved_tag ws (Z.of_nat index) in ["fsdev=fsdev-" +:+ tag; "mount_tag=" +:+ tag].

(** No comma in the values that go unescaped into the options. *)
Definition plain_tags (i : VMInfo) (q : qemu_call) : bool :=
  forallb (λ ft, plain ft.2) (workspace_fsdev_ids i q).
Definition plain_names (n : NetworkConfig) (q : qemu_call) : bool :=
  plain (root_node_name q) && plain (guest_mac n) && plain (tap_device n).
Definition plain_addresses (i : VMInfo) : bool := forallb (λ f, plain (pf_host_address f)) (port_forwards (config i)).

Lemma guard_ret {A} c e (k : outcome A) x : (_ ← guard_raise c e; k) = Ret x → c = false ∧ k = Ret x.
Proof. unfold guard_raise. by destruct c. Qed.

(** ** Reading one value *)
Lemma shows_eq args v w : shows args v → v = w → shows args w.
Proof. by intros ? <-. Qed.

(** An argument equal to the joined escapes of its options is read as them. *)
Lemma options_are arg w ws :
  arg = str_join "," (_qemu_value <$> w :: ws) → forallb starts_plain ws = true → options_of arg = w :: ws.
Proof. intros -> ?. by apply options_of_join. Qed.
(** Escapes of what needs none, and concatenations to the right. *)
Ltac plain_values :=
  cbn [str_join fmap list_fmap app args_if negb];
  rewrite ?qemu_value_app, ?(qemu_value_plain (dec _)) by apply plain_dec;
  repeat match goal with H : plain ?s = true |- context [_qemu_value ?s] => rewrite (qemu_value_plain s H) end;
  repeat match goal with |- context [_qemu_value ?s] => rewrite (qemu_value_plain s) by reflexivity end;
  rewrite ?string_app_assoc; vm_compute; reflexivity.

Lemma plain_drive_id k : plain (drive_id k) = true.
Proof. unfold drive_id. by rewrite !plain_app, plain_dec. Qed.
Lemma plain_node_name k : plain (node_name k) = true.
Proof. unfold node_name. by rewrite !plain_app, plain_dec. Qed.
Lemma plain_root_id q : plain (root_node_name q) = true → plain (root_drive_id q) = true.
Proof. unfold root_drive_id. rewrite plain_app. by intros ->. Qed.

Lemma read_root_drive i q fmt :
  plain (root_node_name q) = true → plain fmt = true → options_of (drive_arg i q fmt) = root_drive i q fmt.
Proof.
  intros Hn Hf. pose proof (plain_root_id q Hn) as Hr. apply options_are; [|reflexivity]. unfold drive_arg. plain_values.
Qed.
Lemma read_extra_drive k p : options_of (extra_drive_arg k p) = extra_drive k p.
Proof.
  pose proof (plain_drive_id k). pose proof (plain_node_name k).
  apply options_are; [|unfold args_if; by destruct (is_iso p)].
  unfold extra_drive_arg, args_if. destruct (is_iso p), (String.eqb _ ".qcow2"); plain_values.
Qed.
Lemma read_shared tag p (w : bool) :
  plain tag = true →
  options_of ("local,id=fsdev-" +:+ tag +:+ ",path=" +:+ _qemu_value p +:+ ",security_model=mapped-xattr"
              +:+ (if w then "" else ",readonly=on"))
    = ["local"; "id=fsdev-" +:+ tag; "path=" +:+ p; "security_model=mapped-xattr"] ++ args_if (negb w) ["readonly=on"].
Proof. intros Ht. destruct w; cbn [args_if negb app]; (apply options_are; [|reflexivity]); plain_values. Qed.
Lemma read_fsdev k ws :
  plain (resolved_tag ws (Z.of_nat k)) = true → options_of (fsdev_opts (resolved_tag ws (Z.of_nat k)) ws) = shared_dir k ws.
Proof. apply read_shared. Qed.
Lemma read_disk d driver : plain driver = true → plain d = true → options_of (driver +:+ ",drive=" +:+ d) = [driver; "drive=" +:+ d].
Proof. intros Hd H. apply options_are; [|reflexivity]. plain_values. Qed.
Lemma read_bus_disk driver bus d :
  plain driver = true → plain bus = true → plain d = true →
  options_of (driver +:+ ",bus=" +:+ bus +:+ ",drive=" +:+ d) = [driver; "bus=" +:+ bus; "drive=" +:+ d].
Proof. intros Hd Hb H. apply options_are; [|reflexivity]. plain_values. Qed.
Lemma read_nic driver mac :
  plain driver = true → plain mac = true →
  options_of (driver +:+ ",netdev=net0,mac=" +:+ mac) = [driver; "netdev=net0"; "mac=" +:+ mac].
Proof. intros Hd Hm. apply options_are; [|reflexivity]. plain_values. Qed.
Lemma read_share driver tag :
  plain driver = true → plain tag = true →
  options_of (driver +:+ ",fsdev=" +:+ ("fsdev-" +:+ tag) +:+ ",mount_tag=" +:+ tag)
    = [driver; "fsdev=fsdev-" +:+ tag; "mount_tag=" +:+ tag].
Proof. intros Hd Ht. apply options_are; [|reflexivity]. plain_values. Qed.

Lemma plain_lower s : plain s = true → plain (lower s) = true.
Proof.
  induction s as [|c s IH]; [done|]. change (lower (String c s)) with (String (to_lower c) (lower s)). rewrite !plain_cons.
  intros [Hc Hs]%andb_true_iff. rewrite IH by done. rewrite andb_true_r. revert Hc.
  by destruct c as [[] [] [] [] [] [] [] []].
Qed.

(** ** Views of devices *)
Lemma value_for_app key v : value_for key (key +:+ v) = Some v.
Proof. unfold value_for. rewrite startswith_app, substring_after; [done|]. rewrite string_length_app. lia. Qed.

Lemma shows_device opts arg :
  options_of arg = opts → shows (device arg) (device_view opts).
Proof.
  intros <-. unfold device. eapply shows_eq; [apply shows_value; [reflexivity..|apply shows_nil]|]. by rewrite view_nil_r.
Qed.
Lemma shows_disk driver d :
  driver ∈ ["virtio-blk-device"; "virtio-blk-pci"] → plain d = true →
  shows (device (driver +:+ ",drive=" +:+ d)) (see_devices [d] [] [] []).
Proof.
  intros Hd H. eapply shows_eq; [apply shows_device, read_disk; [|done]|].
  - set_unfold in Hd. by destruct Hd as [->|[->|[]]].
  - set_unfold in Hd. destruct Hd as [->|[->|[]]]; unfold device_view; cbn [omap list_omap];
      rewrite value_for_app; reflexivity.
Qed.
Lemma shows_nic driver mac :
  driver ∈ net_drivers → plain mac = true →
  shows (device (driver +:+ ",netdev=net0,mac=" +:+ lower mac)) (see_devices [] [] ["net0"] []).
Proof.
  intros Hd H%plain_lower. unfold net_drivers in Hd. set_unfold in Hd.
  eapply shows_eq; [apply shows_device, read_nic; [|done]|]; destruct Hd as [->|[->|[]]]; reflexivity.
Qed.
Lemma shows_share driver k ws :
  driver ∈ share_drivers → plain (resolved_tag ws (Z.of_nat k)) = true →
  let tag := resolved_tag ws (Z.of_nat k) in
  shows (device (driver +:+ ",fsdev=" +:+ ("fsdev-" +:+ tag) +:+ ",mount_tag=" +:+ tag)) (see_devices [] [] [] [share_device k ws]).
Proof.
  intros Hd H tag. unfold share_drivers in Hd. set_unfold in Hd.
  eapply shows_eq; [apply shows_device, read_share; [|done]|]; destruct Hd as [->|[->|[]]]; reflexivity.
Qed.

(** ** Views of the blocks *)
Lemma view_concat_proj {A} (proj : view → list A) vs :
  proj view_nil = [] → (∀ v w, proj (view_app v w) = proj v ++ proj w) → proj (view_concat vs) = vs ≫= proj.
Proof. intros Hn Ha. induction vs as [|v vs IH]; simpl; [done|]. by rewrite Ha, IH. Qed.
Lemma view_eq v w :
  v_drives v = v_drives w → v_attached v = v_attached w → v_ports v = v_ports w → v_netdevs v = v_netdevs w →
  v_nics v = v_nics w → v_fsdevs v = v_fsdevs w → v_shares v = v_shares w → v = w.
Proof. destruct v, w. simpl. by intros -> -> -> -> -> -> ->. Qed.
(** Views of lists of one kind. *)
Lemma concat_see_drives {A} (f : nat → A → list string) l :
  view_concat (imap (λ k x, see_drives [f k x]) l) = see_drives (imap f l).
Proof. revert f. induction l as [|x l IH]; intros f; [done|]. simpl. unfold compose. by rewrite (IH (λ k, f (S k))). Qed.
Lemma concat_see_fsdevs {A} (f : nat → A → list string) l :
  view_concat (imap (λ k x, see_fsdevs [f k x]) l) = see_fsdevs (imap f l).
Proof. revert f. induction l as [|x l IH]; intros f; [done|]. simpl. unfold compose. by rewrite (IH (λ k, f (S k))). Qed.
Lemma concat_see_attached (l : list string) :
  view_concat ((λ d, see_devices [d] [] [] []) <$> l) = see_devices l [] [] [].
Proof. induction l as [|x l IH]; [done|]. rewrite fmap_cons. cbn [view_concat foldr]. unfold view_concat in IH. by rewrite IH. Qed.
Lemma concat_see_shares {A} (f : nat → A → list string) l :
  view_concat (imap (λ k x, see_devices [] [] [] [f k x]) l) = see_devices [] [] [] (imap f l).
Proof. revert f. induction l as [|x l IH]; intros f; [done|]. simpl. unfold compose. by rewrite (IH (λ k, f (S k))). Qed.

Section blocks.
Context (H : qemu_host).
Implicit Types (i : VMInfo) (n : NetworkConfig) (q : qemu_call).

Lemma shows_drive arg opts : options_of arg = opts → shows ["-drive"; arg] (see_drives [opts]).
Proof. intros <-. eapply shows_eq; [apply shows_value; [reflexivity..|apply shows_nil]|]. by rewrite view_nil_r. Qed.

Lemma extra_shows i : shows (extra_drive_args i) (see_drives (imap extra_drive (extra_drives (config i)))).
Proof.
  rewrite <- concat_see_drives. apply shows_concat_imap. intros k p _. apply shows_drive, read_extra_drive.
Qed.

Lemma plain_tag_lookup i q k ws :
  plain_tags i q = true → mounts i q !! k = Some ws → plain (resolved_tag ws (Z.of_nat k)) = true.
Proof.
  unfold plain_tags. intros Hp Hk. rewrite forallb_forall in Hp. 
  apply (Hp ("fsdev-" +:+ resolved_tag ws (Z.of_nat k), resolved_tag ws (Z.of_nat k))). apply list_elem_of_In.
  apply list_elem_of_lookup. exists k. unfold workspace_fsdev_ids. by rewrite list_lookup_imap, Hk.
Qed.
Lemma fsdev_shows i q : plain_tags i q = true → shows (fsdev_args i q) (see_fsdevs (imap shared_dir (mounts i q))).
Proof.
  intros Hp. rewrite <- concat_see_fsdevs. apply shows_concat_imap. intros k ws Hk.
  rewrite <- (read_fsdev k ws) by (by eapply plain_tag_lookup).
  eapply shows_eq; [apply shows_value; [reflexivity..|apply shows_nil]|]. by rewrite view_nil_r.
Qed.
Lemma ninep_shows driver i q :
  driver ∈ share_drivers → plain_tags i q = true →
  shows (ninep_devices driver i q) (see_devices [] [] [] (imap share_device (mounts i q))).
Proof.
  intros Hd Hp. rewrite <- concat_see_shares. unfold ninep_devices, workspace_fsdev_ids. rewrite fmap_imap.
  apply shows_concat_imap. intros k ws Hk. apply shows_share; [done|]. by eapply plain_tag_lookup.
Qed.
Lemma plain_extra_ids i d : d ∈ extra_drive_ids i → plain d = true.
Proof. unfold extra_drive_ids. intros (k & p & -> & _)%elem_of_lookup_imap. apply plain_drive_id. Qed.

Lemma control_shows q : shows (control_args q) view_nil.
Proof.
  unfold control_args, args_if. rewrite <- (view_nil_l view_nil). apply shows_app; [|destruct (start_paused q)];
    [destruct (q_control_socket q)|..]; auto with qemu.
Qed.
Lemma head_shows i q drive netdev :
  ∃ rest, head_args H i q drive netdev = qemu_bin q :: rest ∧
    shows rest {| v_drives := [options_of drive]; v_attached := []; v_ports := []; v_netdevs := [options_of netdev];
                  v_nics := []; v_fsdevs := []; v_shares := [] |}.
Proof.
  eexists. split; [reflexivity|]. cbn [app]. do 2 (apply shows_other; [reflexivity..|]).
  unfold args_if. destruct (use_microvm H i q), (direct i), (bool_decide _), (initrd_path (config i)); cbn [app negb];
    repeat first [apply shows_alone; [reflexivity..|] | apply shows_other; [reflexivity..|]];
    (eapply shows_eq; [apply shows_value; [reflexivity..|]; apply shows_value; [reflexivity..|];
      repeat first [apply shows_alone; [reflexivity..|] | apply shows_other; [reflexivity..|] | apply shows_nil]|reflexivity]).
Qed.
Lemma vsock_shows i q : shows (vsock_args H i q) view_nil.
Proof.
  unfold vsock_args, args_if. destruct (vsock_config (config i)) as [v|]; [|apply shows_nil].
  destruct (String.eqb _ _); [|apply shows_nil]. pose proof (plain_dec (guest_cid v)) as Hd.
  destruct (_ || _).
  - apply (shows_device ["vhost-vsock-device"; "guest-cid=" +:+ dec (guest_cid v)]).
    generalize dependent (dec (guest_cid v)). intros d Hd. apply options_are; [|reflexivity]. plain_values.
  - apply (shows_device ["vhost-vsock-pci"; "guest-cid=" +:+ dec (guest_cid v)]).
    generalize dependent (dec (guest_cid v)). intros d Hd. apply options_are; [|reflexivity]. plain_values.
Qed.

Lemma mmio_shows i n q :
  plain_tags i q = true → plain (root_node_name q) = true → plain (guest_mac n) = true →
  shows (mmio_devices i n q)
    (see_devices (extra_drive_ids i ++ [root_drive_id q]) [] ["net0"] (imap share_device (mounts i q))).
Proof.
  intros Ht Hr%plain_root_id Hm. unfold mmio_devices. eapply shows_eq; [apply shows_app; [|apply shows_app; [|apply shows_app]]|].
  - apply (shows_concat _ (λ d, see_devices [d] [] [] [])). intros d Hd.
    apply (shows_disk "virtio-blk-device"); [set_solver|by eapply plain_extra_ids].
  - by apply ninep_shows; [set_solver|].
  - apply (shows_nic "virtio-net-device"); [set_solver|done].
  - apply (shows_disk "virtio-blk-device"); [set_solver|done].
  - rewrite concat_see_attached. unfold view_app, see_devices. simpl. by rewrite app_nil_r.
Qed.

(** The AHCI ports and the ISO images they hold: where the platform's cdrom bus
    is IDE, the first images in order take the ports still free. *)
Definition iso_ids (drives : list (string * path)) : list string := (filter (λ dp, is_iso dp.2 = true) drives).*1.
Definition ahci_port (j : nat) : string := "ide." +:+ dec (Z.of_nat j).
Definition cd_ports (bus : option string) (k : nat) (drives : list (string * path)) : list (string * string) :=
  if bool_decide (bus = Some "ide") then zip (ahci_port <$> seq k (_Q35_AHCI_PORTS - k)) (iso_ids drives) else [].
Lemma shows_ide k d :
  plain d = true →
  shows (device ("ide-cd,bus=ide." +:+ dec (Z.of_nat k) +:+ ",drive=" +:+ d)) (see_devices [d] [(ahci_port k, d)] [] []).
Proof.
  intros Hd. unfold ahci_port. pose proof (plain_dec (Z.of_nat k)) as Hk. generalize dependent (dec (Z.of_nat k)). intros t Ht.
  eapply shows_eq.
  - apply (shows_device ["ide-cd"; "bus=" +:+ ("ide." +:+ t); "drive=" +:+ d]). apply options_are; [|reflexivity].
    plain_values.
  - unfold device_view, see_devices. cbn [omap list_omap]. rewrite !value_for_app. f_equal.
Qed.
Lemma q35_extra_shows bus drives k :
  k ≤ _Q35_AHCI_PORTS → Forall (λ d, plain d = true) drives.*1 →
  shows (q35_extra_devices bus k drives) (see_devices drives.*1 (cd_ports bus k drives) [] []).
Proof.
  unfold cd_ports, iso_ids. revert k. induction drives as [|[d p] drives IH]; intros k Hk Hp.
  { unfold see_devices. cbn [filter list_filter fmap list_fmap]. rewrite zip_with_nil_r. destruct (bool_decide _); apply shows_nil. }
  inversion_clear Hp as [|? ? Hd Hds]. cbn [q35_extra_devices fst snd] in *. rewrite filter_cons. cbn [snd].
  destruct (is_iso p) eqn:Hi; [rewrite decide_True by done|rewrite decide_False by done]; cbn [andb].
  - destruct (bool_decide (bus = Some "ide")) eqn:Hb; cbn [andb]; [destruct (k <? _Q35_AHCI_PORTS) eqn:Hlt|].
    + apply Nat.ltb_lt in Hlt. eapply shows_eq; [apply shows_app; [by apply shows_ide|apply (IH (S k)); [lia|done]]|].
      replace (_Q35_AHCI_PORTS - k) with (S (_Q35_AHCI_PORTS - S k)) by lia. reflexivity.
    + apply Nat.ltb_ge in Hlt. eapply shows_eq; [apply shows_app; [by apply (shows_disk "virtio-blk-pci"); [set_solver|]|by apply (IH k)]|].
      replace (_Q35_AHCI_PORTS - k) with 0 by lia. reflexivity.
    + eapply shows_eq; [apply shows_app; [by apply (shows_disk "virtio-blk-pci"); [set_solver|]|by apply (IH k)]|reflexivity].
  - eapply shows_eq; [apply shows_app; [by apply (shows_disk "virtio-blk-pci"); [set_solver|]|by apply (IH k)]|reflexivity].
Qed.

(** The firmware drives of the platform. *)
Definition pflash_drives q : list (list string) :=
  match ps_firmware (platform_spec q), firmware_vars_path q with
  | Some fw, Some vars =>
      [["if=pflash"; "format=raw"; "unit=0"; "readonly=on"; "file=" +:+ code_path fw];
       ["if=pflash"; "format=raw"; "unit=1"; "file=" +:+ vars]]
  | _, _ => []
  end.
Definition on_q35 i q : bool := negb (is_aarch64 q) && negb (use_microvm H i q).
(** A platform of [get_guest_platform]. *)
Definition known_platform q : Prop :=
  platform_spec q = _LINUX_SPEC ∨ ∃ fw, platform_spec q = windows_spec fw.
Definition q35_view i q : view :=
  view_app (see_drives (pflash_drives q))
    (see_devices (root_drive_id q :: extra_drive_ids i)
       (cd_ports (cdrom_bus (platform_spec q)) 0 (zip (extra_drive_ids i) (extra_drives (config i))))
       ["net0"] (imap share_device (mounts i q))).

Lemma shows_tpm p :
  shows ["-chardev"; "socket,id=chrtpm,path=" +:+ _qemu_value p; "-tpmdev"; "emulator,id=tpm0,chardev=chrtpm"] view_nil.
Proof. auto with qemu. Qed.
Lemma shows_pflash code vars :
  shows ["-drive"; "if=pflash,format=raw,unit=0,readonly=on,file=" +:+ _qemu_value code;
         "-drive"; "if=pflash,format=raw,unit=1,file=" +:+ _qemu_value vars]
    (see_drives [["if=pflash"; "format=raw"; "unit=0"; "readonly=on"; "file=" +:+ code];
                 ["if=pflash"; "format=raw"; "unit=1"; "file=" +:+ vars]]).
Proof.
  apply (shows_app [_; _] [_; _] (see_drives [_]) (see_drives [_])); apply shows_drive, options_are; try reflexivity; plain_values.
Qed.
Lemma shows_literal arg : device_view (options_of arg) = view_nil → shows (device arg) view_nil.
Proof. intros <-. by apply shows_device. Qed.
Lemma shows_scsi d : plain d = true → shows (device ("scsi-hd,bus=scsi0.0,drive=" +:+ d)) (see_devices [d] [] [] []).
Proof.
  intros Hd. eapply shows_eq; [by apply shows_device, (read_bus_disk "scsi-hd" "scsi0.0")|].
  unfold device_view. cbn [omap list_omap]. rewrite (value_for_app "drive="). reflexivity.
Qed.
Lemma extra_ids_zip i : (zip (extra_drive_ids i) (extra_drives (config i))).*1 = extra_drive_ids i
  ∧ (zip (extra_drive_ids i) (extra_drives (config i))).*2 = extra_drives (config i).
Proof. split; [apply fst_zip|apply snd_zip]; unfold extra_drive_ids; by rewrite length_imap. Qed.
Lemma q35_extras i q :
  shows (q35_extra_devices (cdrom_bus (platform_spec q)) 0 (zip (extra_drive_ids i) (extra_drives (config i))))
    (see_devices (extra_drive_ids i)
       (cd_ports (cdrom_bus (platform_spec q)) 0 (zip (extra_drive_ids i) (extra_drives (config i)))) [] []).
Proof.
  destruct (extra_ids_zip i) as [H1 H2]. eapply shows_eq; [apply q35_extra_shows; [unfold _Q35_AHCI_PORTS; lia|]|by rewrite H1].
  rewrite H1. apply Forall_forall. intros d. apply plain_extra_ids.
Qed.

Lemma q35_shows i n q m :
  known_platform q → plain_tags i q = true → plain (root_node_name q) = true → plain (guest_mac n) = true →
  q35_args H i n q = Ret m → shows m (q35_view i q).
Proof.
  intros Hk Ht Hr%plain_root_id Hm. pose proof (q35_extras i q) as He.
  assert (shows (device ("virtio-net-pci,netdev=net0,mac=" +:+ lower (guest_mac n))) (see_devices [] [] ["net0"] [])) as Hn
    by (apply (shows_nic "virtio-net-pci"); [set_solver|done]).
  pose proof (ninep_shows "virtio-9p-pci" i q ltac:(set_solver) Ht) as Hs.
  unfold q35_args, q35_view, pflash_drives. destruct Hk as [Hk|[fw Hk]]; rewrite Hk in He |- *; cbn in He |- *.
  - intros [= <-]. do 2 (apply shows_other; [reflexivity..|]).
    eapply shows_eq; [apply (shows_app (device _)); [by apply (shows_disk "virtio-blk-pci"); [set_solver|]|]; apply (shows_app (device _)); [exact Hn|];
      apply shows_app; [exact He|]; apply shows_app; [exact Hs|apply shows_nil]|].
    by apply view_eq; simpl; rewrite ?app_nil_r.
  - destruct (firmware_vars_path q) as [vars|]; [|done]. simpl. destruct (swtpm_socket q) as [p|]; [|done]. simpl. intros [= <-].
    do 4 (apply shows_other; [reflexivity..|]).
    eapply shows_eq; [apply (shows_app [_; _; _; _]); [apply shows_pflash|]; apply (shows_app [_; _; _; _]); [apply shows_tpm|];
      apply (shows_app (device _)); [by apply shows_literal|]; apply (shows_app (device _)); [by apply shows_literal|];
      apply (shows_app (device _)); [by apply shows_scsi|]; apply (shows_app (device _)); [exact Hn|];
      apply shows_app; [exact He|]; apply shows_app; [exact Hs|]; apply (shows_app (device _)); [by apply shows_literal|];
      apply (shows_app (device _)); [by apply shows_literal|apply shows_nil]|].
    rewrite !view_nil_l. by apply view_eq; simpl; rewrite ?app_nil_r.
Qed.

(** ** The whole *)
Definition launch_view i q (fmt : string) (netdev : list string) : view :=
  {| v_drives := root_drive i q fmt :: imap extra_drive (extra_drives (config i))
                 ++ (if on_q35 i q then pflash_drives q else []);
     v_attached := if on_q35 i q then root_drive_id q :: extra_drive_ids i else extra_drive_ids i ++ [root_drive_id q];
     v_ports := if on_q35 i q
                then cd_ports (cdrom_bus (platform_spec q)) 0 (zip (extra_drive_ids i) (extra_drives (config i)))
                else [];
     v_netdevs := [netdev]; v_nics := ["net0"];
     v_fsdevs := imap shared_dir (mounts i q); v_shares := imap share_device (mounts i q) |}.

Lemma machine_shows i n q m :
  known_platform q → plain_tags i q = true → plain (root_node_name q) = true → plain (guest_mac n) = true →
  machine_args H i n q = Ret m →
  shows m (if on_q35 i q then q35_view i q
           else see_devices (extra_drive_ids i ++ [root_drive_id q]) [] ["net0"] (imap share_device (mounts i q))).
Proof.
  intros Hk Ht Hr Hm. pose proof (mmio_shows i n q Ht Hr Hm) as Hmm. unfold machine_args, on_q35.
  destruct (is_aarch64 q); simpl; [|destruct (use_microvm H i q); simpl; [|by eapply q35_shows]].
  - unfold aarch64_args. destruct (bool_decide _); [destruct _find_aarch64_uefi_firmware as [p|]; [|done]|]; simpl;
      intros [= <-]; repeat (apply shows_other; [reflexivity..|]); exact Hmm.
  - intros [= <-]. unfold microvm_args. simpl. repeat (apply shows_other; [reflexivity..|]). exact Hmm.
Qed.

Lemma format_plain c fmt : qemu_rootfs_format c = Ret fmt → plain fmt = true.
Proof. unfold qemu_rootfs_format. destruct (effective_rootfs_format c) as [[]|]; intros [= <-]; done. Qed.

Lemma build_sees i n q cmd :
  build_qemu_argv H i q = Ret cmd → network i = Some n →
  known_platform q → plain_tags i q = true → plain_names n q = true →
  ∃ args fmt netdev, cmd = qemu_bin q :: args ∧ qemu_rootfs_format (config i) = Ret fmt ∧ netdev_arg H i n = Ret netdev
    ∧ qemu_sees args = Some (launch_view i q fmt (options_of netdev)).
Proof.
  intros Hb Hn Hk Ht [[Hr Hm]%andb_true_iff _]%andb_true_iff. unfold build_qemu_argv in Hb. rewrite Hn in Hb.
  apply guard_ret in Hb as [_ Hb]. apply guard_ret in Hb as [_ Hb].
  destruct (qemu_rootfs_format (config i)) as [fmt|] eqn:Hf; [|done]. destruct (netdev_arg H i n) as [netdev|] eqn:Hnd; [|done].
  destruct (machine_args H i n q) as [m|] eqn:Hma; [|done]. cbn [mbind outcome_bind] in Hb.
  match type of Hb with Ret ?x = Ret ?y => assert (x = y) as <- by congruence end.
  destruct (head_shows i q (drive_arg i q fmt) netdev) as (rest & -> & Hh). eexists _, fmt, netdev.
  split_and!; [reflexivity|done|done|]. apply shows_sees.
  rewrite read_root_drive in Hh by (done || by eapply format_plain).
  eapply shows_eq.
  - apply shows_app; [exact Hh|]. apply shows_app; [apply extra_shows|]. apply shows_app; [by apply fsdev_shows|].
    apply shows_app; [apply control_shows|]. apply shows_app; [by eapply machine_shows|apply vsock_shows].
  - unfold launch_view. destruct (on_q35 i q); apply view_eq; simpl; by rewrite ?app_nil_r, ?app_nil_l.
Qed.
End blocks.

Lemma platform_known is_file g system arch q :
  get_guest_platform is_file g system arch = Ret (platform_spec q) → known_platform q.
Proof. intros [[_ H]|(_ & fw & H & _)]%get_guest_platform_cases; [by left|by right; exists fw]. Qed.

(** ** Disks *)

(** The identifiers of the drives left to a device. *)
Definition disk_ids (opts : list string) : list string :=
  if bool_decide ("if=none" ∈ opts) then omap (value_for "id=") opts else [].
Definition declared (v : view) : list string := v_drives v ≫= disk_ids.

Lemma declared_root i q fmt : disk_ids (root_drive i q fmt) = [root_drive_id q].
Proof.
  unfold disk_ids. rewrite bool_decide_eq_true_2 by (unfold root_drive; set_solver). unfold root_drive. cbn [omap list_omap].
  by rewrite (value_for_app "id=").
Qed.
Lemma declared_extra k p : disk_ids (extra_drive k p) = [drive_id k].
Proof.
  unfold disk_ids. rewrite bool_decide_eq_true_2 by (unfold extra_drive; set_solver). unfold extra_drive, args_if.
  destruct (is_iso p), (String.eqb _ _); cbn [omap list_omap app]; by rewrite (value_for_app "id=").
Qed.
Lemma declared_extras drives (f : nat → nat) :
  imap (λ k p, extra_drive (f k) p) drives ≫= disk_ids = imap (λ k _, drive_id (f k)) drives.
Proof.
  revert f. induction drives as [|p drives IH]; intros f; [done|]. rewrite !imap_cons, bind_cons, declared_extra.
  cbn [app]. f_equal. apply (IH (λ k, f (S k))).
Qed.
Lemma dec_inj (m n : nat) : dec (Z.of_nat m) = dec (Z.of_nat n) → m = n.
Proof.
  intros E. apply Nat2Z.inj.
  destruct (dec_nat _ (Nat2Z.is_nonneg m)) as (_ & Hm & _), (dec_nat _ (Nat2Z.is_nonneg n)) as (_ & Hn & _). congruence.
Qed.
Lemma drive_id_inj j k : drive_id j = drive_id k → j = k.
Proof. intros [= E]. by apply (str_app_inv_r (dec _) (dec _) "-drive"), dec_inj in E. Qed.
Lemma extra_ids_nodup i : NoDup (extra_drive_ids i).
Proof.
  apply NoDup_alt. intros a b x Ha Hb. unfold extra_drive_ids in *. rewrite list_lookup_imap in Ha, Hb.
  destruct (extra_drives (config i) !! a), (extra_drives (config i) !! b); simpl in *; try done.
  apply drive_id_inj. congruence.
Qed.
Lemma ids_nodup i q : startswith "extra" (root_node_name q) = false → NoDup (root_drive_id q :: extra_drive_ids i).
Proof.
  intros Hs. constructor; [|apply extra_ids_nodup]. unfold extra_drive_ids.
  intros (k & p & E & _)%elem_of_lookup_imap. unfold root_drive_id, drive_id in E.
  change ("extra" +:+ dec (Z.of_nat k) +:+ "-drive") with (("extra" +:+ dec (Z.of_nat k)) +:+ "-drive") in E.
  apply str_app_inv_r in E. rewrite E, startswith_app in Hs. done.
Qed.
