(* ===== verification/QemuProofs.v ===== *)
(** * Properties of the QEMU command line

    The disks, the network and the shared directories that QEMU is given are
    those of the configuration, whatever text its paths contain; a computer in
    public or closed mode gets a user network without a way out of its own. *)
From S2P Require Import Prelude PyStr PyUrl Types PublicEgress Env ConfigValidation ManagerHelpers GuestPlatforms.
From S2P Require Import ManagerState BootArgs QemuArgs QemuCommand QemuLaunch.
From Stdlib Require Import Ascii.
From stdpp Require Import options.

(** ** The network back end *)

(** The options of the user network, as they are meant. *)
Definition closed_options (H : qemu_host) (i : VMInfo) (n : NetworkConfig) : list string :=
  match egress_proxy_host_port n with
  | Some port => ["restrict=on"; "ipv6=off"; "guestfwd=tcp:10.0.2.100:3128-cmd:" +:+ relay_command H port]
  | None => if mode_is (config i) off_mode then ["restrict=on"; "ipv6=off"] else []
  end.
Definition user_options (H : qemu_host) (i : VMInfo) (n : NetworkConfig) : list string :=
  ["user"; "id=net0"; "dns=" +:+ QEMU_SLIRP_DNS] ++ hostfwd_rules i n ++ closed_options H i n.

Lemma str_join_first a b ws : str_join "," ((a +:+ "," +:+ b) :: ws) = str_join "," (a :: b :: ws).
Proof. destruct ws; [done|]. cbn [str_join]. by rewrite !string_app_assoc. Qed.

Lemma plain_hostfwd a hp gp : plain a = true → plain (hostfwd_rule a hp gp) = true.
Proof. intros Ha. unfold hostfwd_rule. by rewrite !plain_app, !plain_dec, Ha. Qed.
Lemma hostfwd_values i n :
  plain_addresses i = true → _qemu_value <$> hostfwd_rules i n = hostfwd_rules i n.
Proof.
  intros Hp. unfold plain_addresses in Hp. rewrite forallb_forall in Hp. rewrite <- (list_fmap_id (hostfwd_rules i n)) at 2.
  apply list_fmap_ext. intros k r Hr%list_elem_of_lookup_2. apply qemu_value_plain. unfold hostfwd_rules in Hr.
  apply elem_of_app in Hr as [Hr|Hr].
  - destruct (ssh_host_port n); [|by apply elem_of_nil in Hr]. apply list_elem_of_singleton in Hr as ->. by apply plain_hostfwd.
  - apply list_elem_of_fmap in Hr as (f & -> & Hf). apply plain_hostfwd, Hp. by apply list_elem_of_In.
Qed.
Lemma hostfwd_starts i n : forallb starts_plain (hostfwd_rules i n) = true.
Proof.
  unfold hostfwd_rules. rewrite forallb_app. apply andb_true_iff. split; [by destruct (ssh_host_port n)|].
  induction (port_forwards (config i)); [done|]. done.
Qed.
Lemma closed_starts H i n : forallb starts_plain (closed_options H i n) = true.
Proof. unfold closed_options. destruct (egress_proxy_host_port n); [done|]. by destruct (mode_is _ _). Qed.

Lemma read_user_netdev H i n s :
  tap_mode i = false → plain_addresses i = true → netdev_arg H i n = Ret s → options_of s = user_options H i n.
Proof.
  intros Ht Hp. unfold netdev_arg. rewrite Ht. intros [_ Hs]%guard_ret.
  match type of Hs with Ret ?x = Ret ?y => assert (x = y) as <- by congruence end.
  unfold user_options. cbn [app].
  apply options_are; [|cbn [forallb]; rewrite forallb_app, hostfwd_starts, closed_starts; reflexivity].
  rewrite !fmap_cons, fmap_app, hostfwd_values by done.
  change ("user,id=net0,dns=" +:+ QEMU_SLIRP_DNS) with ("user" +:+ "," +:+ ("id=net0" +:+ "," +:+ ("dns=" +:+ QEMU_SLIRP_DNS))).
  rewrite str_join_first.
  match goal with |- str_join _ (_ :: ?l) = _ => change (str_join "," ("user" :: l)) with ("user" +:+ "," +:+ str_join "," l) end.
  rewrite str_join_first. enough (match egress_proxy_host_port n with
    | Some port => ["restrict=on"; "ipv6=off"; guestfwd_rule H port]
    | None => if mode_is (config i) off_mode then ["restrict=on"; "ipv6=off"] else []
    end = _qemu_value <$> closed_options H i n) as -> by reflexivity.
  unfold closed_options. destruct (egress_proxy_host_port n) as [port|]; [|by destruct (mode_is _ _)]. cbn [fmap list_fmap].
  rewrite qemu_value_app. reflexivity.
Qed.

(** The command of the relay reads back as its words. *)
Lemma relay_command_words H port :
  shlex_tokens (relay_command H port) = Some [h_executable H; "-I"; relay_path H; dec port].
Proof.
  unfold relay_command, shlex_join. cbn [fmap list_fmap str_join].
  repeat match goal with |- context [" " +:+ ?x] => change (" " +:+ x) with (String " " x) end. rewrite !quote_lex_cons, quote_lex. reflexivity.
Qed.

(** ** Launches *)

(** A command that was built for a computer with a network, for the platform
    of some guest, with no comma in the names that go unescaped into options. *)
Record launched (H : qemu_host) (i : VMInfo) (n : NetworkConfig) (q : qemu_call) (cmd : list string) : Prop := {
  l_built : build_qemu_argv H i q = Ret cmd;
  l_network : network i = Some n;
  l_platform : ∃ g system arch, get_guest_platform (h_is_file H) g system arch = Ret (platform_spec q);
  l_tags : plain_tags i q = true;
  l_names : plain_names n q = true }.

Lemma launched_sees H i n q cmd :
  launched H i n q cmd →
  ∃ args fmt netdev, cmd = qemu_bin q :: args ∧ qemu_rootfs_format (config i) = Ret fmt ∧ netdev_arg H i n = Ret netdev
    ∧ qemu_sees args = Some (launch_view H i q fmt (options_of netdev)).
Proof. intros [Hb Hn (g & system & arch & Hp%platform_known) Ht Hm]. by apply build_sees. Qed.

(** The command of [_start_qemu] is such a launch. *)
Lemma start_launched E H binary hint arch i n control vars swtpm paused root_node cmd :
  start_qemu_argv E H binary hint arch i control vars swtpm paused root_node = Ret cmd → network i = Some n →
  (∀ q, root_node_name q = root_node → plain_tags i q = true ∧ plain_names n q = true) →
  ∃ q, launched H i n q cmd ∧ _resolve_boot_args E i = Ret (q_boot_args q) ∧ root_node_name q = root_node.
Proof.
  unfold start_qemu_argv. intros Hs Hn Hp. destruct binary as [bin|]; [|done].
  destruct (_resolve_boot_args E i) as [args|] eqn:Ha; [|done].
  destruct (get_guest_platform _ _ _ _) as [spec|] eqn:Hg; [|done]. cbn [mbind outcome_bind] in Hs.
  match type of Hs with build_qemu_argv _ _ ?q = _ => exists q; destruct (Hp q eq_refl) end.
  split; [|done]. split; eauto.
Qed.

Lemma pflash_no_ids q : pflash_drives q ≫= disk_ids = [].
Proof.
  unfold pflash_drives. by destruct (ps_firmware _), (firmware_vars_path q).
Qed.
Lemma launch_declared H i q fmt o : declared (launch_view H i q fmt o) = root_drive_id q :: extra_drive_ids i.
Proof.
  unfold declared, launch_view. cbn [v_drives]. rewrite bind_cons, bind_app, declared_root.
  rewrite (declared_extras (extra_drives (config i)) (λ k, k)
    : imap extra_drive (extra_drives (config i)) ≫= disk_ids = extra_drive_ids i).
  destruct (on_q35 H i q); [rewrite pflash_no_ids|]; simpl; by rewrite app_nil_r.
Qed.

(** C23: the disks QEMU opens are those of the configuration.  Read back by
    QEMU's own syntax, the command of a computer opens its root disk, its
    extra drives in order (ISO images read-only) and, for Windows, the firmware
    pair, each with its exact path, whatever commas the paths contain; every
    disk is attached by exactly one device, the root disk last on the machines
    that enumerate in reverse.  On the q35 machine of a platform whose cdrom
    bus is IDE (Windows), the first six ISO images in order are on the AHCI
    ports ide.0 to ide.5, one each; no other drive is on an AHCI port, on no
    other machine or platform is any.  (The root disk's node name does not
    start like an extra drive's, and the mount tags, the root node's name, the
    MAC address and the interface hold no comma.) *)
Theorem qemu_disks_exact H i n q cmd :
  launched H i n q cmd → startswith "extra" (root_node_name q) = false →
  ∃ args v fmt, cmd = qemu_bin q :: args ∧ qemu_sees args = Some v ∧ qemu_rootfs_format (config i) = Ret fmt
    ∧ v_drives v = root_drive i q fmt :: imap extra_drive (extra_drives (config i))
                   ++ (if on_q35 H i q then pflash_drives q else [])
    ∧ v_attached v ≡ₚ declared v ∧ NoDup (v_attached v)
    ∧ (on_q35 H i q = false → last (v_attached v) = Some (root_drive_id q))
    ∧ v_ports v = (if on_q35 H i q && bool_decide (cdrom_bus (platform_spec q) = Some "ide")
                   then zip ["ide.0"; "ide.1"; "ide.2"; "ide.3"; "ide.4"; "ide.5"]
                          (iso_ids (zip (extra_drive_ids i) (extra_drives (config i))))
                   else []).
Proof.
  intros (args & fmt & netdev & Hc & Hf & _ & Hs)%launched_sees Hr. eexists args, _, fmt. split_and!; [done..| | | |].
  - rewrite launch_declared. unfold launch_view. cbn [v_attached]. destruct (on_q35 H i q); [done|].
    by rewrite (comm app).
  - pose proof (ids_nodup i q Hr) as Hd. unfold launch_view. cbn [v_attached]. destruct (on_q35 H i q); [done|].
    by rewrite (comm app).
  - intros Hq. unfold launch_view. cbn [v_attached]. rewrite Hq. apply last_snoc.
  - unfold launch_view, cd_ports. cbn [v_ports]. by destruct (on_q35 H i q).
Qed.

(** The values the options give to a key, in order. *)
Definition given (key : string) (opts : list string) : list string := omap (value_for key) opts.

Definition forward (address : string) (host_port guest_port : Z) : string :=
  "tcp:" +:+ address +:+ ":" +:+ dec host_port +:+ "-:" +:+ dec guest_port.
(** The forwards a computer is meant to have: SSH, and those it asks for. *)
Definition forwards (i : VMInfo) (n : NetworkConfig) : list string :=
  (match ssh_host_port n with Some p => [forward "127.0.0.1" p 22] | None => [] end)
  ++ ((λ f, forward (pf_host_address f) (pf_host_port f) (pf_guest_port f)) <$> port_forwards (config i)).

Lemma hostfwd_forwards i n : hostfwd_rules i n = String.append "hostfwd=" <$> forwards i n.
Proof. unfold hostfwd_rules, forwards. rewrite fmap_app, <- list_fmap_compose. by destruct (ssh_host_port n). Qed.
Lemma given_hostfwd ts :
  given "hostfwd=" (String.append "hostfwd=" <$> ts) = ts ∧ given "guestfwd=" (String.append "hostfwd=" <$> ts) = []
  ∧ ¬ ("restrict=on" ∈ String.append "hostfwd=" <$> ts) ∧ ¬ ("ipv6=off" ∈ String.append "hostfwd=" <$> ts).
Proof.
  split_and!.
  - induction ts as [|t ts IH]; [done|]. unfold given in *. rewrite fmap_cons. cbn [omap list_omap].
    by rewrite (value_for_app "hostfwd="), IH.
  - induction ts as [|t ts IH]; [done|]. exact IH.
  - intros (t & E & _)%list_elem_of_fmap. done.
  - intros (t & E & _)%list_elem_of_fmap. done.
Qed.

(** The one address a proxied guest reaches. *)
Definition proxy_rules (H : qemu_host) (n : NetworkConfig) : list string :=
  match egress_proxy_host_port n with
  | Some port => ["tcp:10.0.2.100:3128-cmd:" +:+ relay_command H port]
  | None => []
  end.
Definition closed (i : VMInfo) (n : NetworkConfig) : bool :=
  is_some (egress_proxy_host_port n) || mode_is (config i) off_mode.
Lemma given_closed H i n :
  let o := closed_options H i n in
  given "hostfwd=" o = [] ∧ given "guestfwd=" o = proxy_rules H n
  ∧ ("restrict=on" ∈ o ↔ closed i n = true) ∧ ("ipv6=off" ∈ o ↔ closed i n = true).
Proof.
  unfold closed_options, given, proxy_rules, closed. cbv zeta.
  destruct (egress_proxy_host_port n) as [port|]; [|destruct (mode_is (config i) off_mode); split_and!; set_solver].
  split_and!; [reflexivity| |set_solver..].
  change ("guestfwd=tcp:10.0.2.100:3128-cmd:" +:+ relay_command H port)
    with ("guestfwd=" +:+ ("tcp:10.0.2.100:3128-cmd:" +:+ relay_command H port)).
  cbn [omap list_omap]. by rewrite (value_for_app "guestfwd=").
Qed.
Lemma user_options_given H i n :
  let o := user_options H i n in
  given "hostfwd=" o = forwards i n ∧ given "guestfwd=" o = proxy_rules H n
  ∧ ("restrict=on" ∈ o ↔ closed i n = true) ∧ ("ipv6=off" ∈ o ↔ closed i n = true).
Proof.
  destruct (given_closed H i n) as (C1 & C2 & C3 & C4). destruct (given_hostfwd (forwards i n)) as (H1 & H2 & H3 & H4).
  unfold user_options, given in *. cbv zeta. rewrite hostfwd_forwards, !omap_app, H1, H2, C1, C2.
  split_and!; [apply app_nil_r|done|..]; rewrite !elem_of_app; set_solver.
Qed.

Definition tap_options (n : NetworkConfig) : list string :=
  ["tap"; "id=net0"; "ifname=" +:+ tap_device n; "script=no"; "downscript=no"].
Lemma read_tap_netdev H i n s :
  tap_mode i = true → plain (tap_device n) = true → netdev_arg H i n = Ret s → options_of s = tap_options n.
Proof.
  intros Ht Hp. unfold netdev_arg, tap_options. rewrite Ht. generalize dependent (tap_device n). intros t Hp [= <-].
  apply options_are; [|reflexivity]. plain_values.
Qed.

(** C22: the guest's network is the one configured.  QEMU gets one network with
    one card.  On a host interface it is that interface, with no script.  On the
    user network the host ports forwarded are exactly SSH and those asked for,
    and the network is closed (no way out, no IPv6) exactly when the computer
    has a proxy or its mode is off; a computer in public mode always has the
    proxy, and the only address a proxied guest can reach is served by the relay
    program, started with the proxy's port as its only argument of value.  All
    this for host addresses, mount tags, a root node name, a MAC address and an
    interface without a comma: they go unescaped into the options (see
    [host_address_injects_options]). *)
Theorem qemu_network_exact H i n q cmd :
  launched H i n q cmd → plain_addresses i = true →
  ∃ args v o, cmd = qemu_bin q :: args ∧ qemu_sees args = Some v ∧ v_nics v = ["net0"] ∧ v_netdevs v = [o]
    ∧ if tap_mode i then o = tap_options n
      else given "hostfwd=" o = forwards i n
        ∧ (mode_is (config i) public_mode = true → is_some (egress_proxy_host_port n) = true)
        ∧ ("restrict=on" ∈ o ↔ closed i n = true)
        ∧ ("ipv6=off" ∈ o ↔ closed i n = true)
        ∧ match egress_proxy_host_port n with
          | None => given "guestfwd=" o = []
          | Some port => ∃ command, given "guestfwd=" o = ["tcp:10.0.2.100:3128-cmd:" +:+ command]
              ∧ shlex_tokens command = Some [h_executable H; "-I"; relay_path H; dec port]
          end.
Proof.
  intros Hl Hp. pose proof (l_names _ _ _ _ _ Hl) as [_ Ht]%andb_true_iff.
  apply launched_sees in Hl as (args & fmt & netdev & Hc & _ & Hn & Hs). eexists args, _, _. split_and!; [done..|].
  destruct (tap_mode i) eqn:Hm; [by eapply read_tap_netdev|]. rewrite (read_user_netdev H i n netdev) by done.
  destruct (user_options_given H i n) as (H1 & H2 & H3 & H4). split_and!; [done| |done|done|].
  - intros Hpub. unfold netdev_arg in Hn. rewrite Hm, Hpub in Hn. apply guard_ret in Hn as [Hn _].
    by destruct (is_some (egress_proxy_host_port n)).
  - unfold proxy_rules in H2. destruct (egress_proxy_host_port n) as [port|]; [|done]. exists (relay_command H port). split; [done|apply relay_command_words].
Qed.

(** The directories shared with the guest are the mounts of the
    configuration.  For every mount of a guest that can mount, in order, QEMU
    exports its exact host path, read-only unless the mount is writable, and one
    device offers that export under the mount's tag; nothing else is shared. *)
Theorem qemu_shares_exact H i n q cmd :
  launched H i n q cmd →
  ∃ args v, cmd = qemu_bin q :: args ∧ qemu_sees args = Some v
    ∧ length (v_fsdevs v) = length (mounts i q) ∧ length (v_shares v) = length (mounts i q)
    ∧ ∀ k ws, mounts i q !! k = Some ws → ∃ export share,
        v_fsdevs v !! k = Some export ∧ v_shares v !! k = Some share
        ∧ given "path=" export = [wm_host_path ws] ∧ ("readonly=on" ∈ export ↔ writable ws = false)
        ∧ given "id=" export = given "fsdev=" share ∧ given "mount_tag=" share = [resolved_tag ws (Z.of_nat k)].
Proof.
  intros (args & fmt & netdev & Hc & _ & _ & Hs)%launched_sees. eexists args, _. split_and!; [done..| | |].
  1,2: unfold launch_view; simpl; apply length_imap.
  intros k ws Hk. exists (shared_dir k ws), (share_device k ws). unfold launch_view. cbn [v_fsdevs v_shares].
  rewrite !list_lookup_imap, Hk. split; [done|]. split; [done|].
  unfold shared_dir, share_device, given. generalize (resolved_tag ws (Z.of_nat k)) as tag. intros tag. split_and!.
  - destruct (writable ws); cbn [args_if negb app omap list_omap]; by rewrite (value_for_app "path=").
  - rewrite list_elem_of_In. destruct (writable ws); cbn [args_if negb app In]; (split; [|intros E; (discriminate E || auto 10)]); [|done].
    intros [E|[E|[E|[E|[]]]]]; discriminate E.
  - change ("fsdev=fsdev-" +:+ tag) with ("fsdev=" +:+ ("fsdev-" +:+ tag)).
    change ("id=fsdev-" +:+ tag) with ("id=" +:+ ("fsdev-" +:+ tag)).
    destruct (writable ws); cbn [args_if negb app omap list_omap]; by rewrite (value_for_app "fsdev="), (value_for_app "id=").
  - cbn [omap list_omap]. by rewrite (value_for_app "mount_tag=").
Qed.

(** ** Examples *)
Definition demo_qemu_config (g : GuestOS) (boot : boot_mode_t) (root : path) (drives : list path)
    (forwards : list PortForwardConfig) (mode : internet_mode) (mnts : list WorkspaceMount) : VMConfig :=
  {| vm_id := "vm1"; preset := None; vcpu_count := 2; memory := 512; guest_os := g; boot_mode := boot;
     kernel_path := Some "/k/vmlinux"; initrd_path := None; rootfs_path := Some root; rootfs_format := None;
     macos_machine := None; extra_drives := drives; boot_args := "console=ttyS0"; ssh_capable := true; backend := None;
     qemu_network := slirp; qemu_machine := machine_auto; disk_mode := isolated; disk_size_mib := None;
     grow_filesystem := false; retain_disk_on_delete := false; env_vars := []; network_rate_limit_mbps := None;
     port_forwards := forwards; vsock_config := None; comm_channel := None;
     internet_settings := Some {| is_mode := Some mode; allowed_cidrs := []; allowed_domains := []; allowed_http_methods := [] |};
     workspace_mounts := mnts; ssh_public_key := None; guest_managed_networking := false;
     network_attachment := {| na_mode := nat_mode; na_bridge := None |} |}.
Definition demo_net (proxy : option Z) : NetworkConfig :=
  {| guest_ip := Some "10.0.2.15"; gateway_ip := Some "10.0.2.2"; netmask := Some "255.255.255.0"; tap_device := "tap0";
     guest_mac := "AA:FC:00:00:00:01"; ssh_host_port := Some 2200%Z; egress_proxy_host_port := proxy; nc_mode := nat_mode;
     nc_bridge := None |}.
Definition demo_info (c : VMConfig) (n : NetworkConfig) : VMInfo :=
  {| vi_vm_id := "vm1"; status := CREATED; config := c; network := Some n; pid := None; control_socket_path := None;
     vsock_uds_path := None; display := None |}.
Definition demo_host : qemu_host :=
  {| h_env_machine := None; h_system := "Linux"; h_is_file := λ p, startswith "/usr/share/OVMF/" p;
     h_executable := "/usr/bin/python 3"; h_package := "/opt/celesto" |}.
Definition demo_call (bin : path) (spec : GuestPlatformSpec) : qemu_call :=
  {| qemu_bin := bin; q_boot_args := "console=ttyS0"; platform_spec := spec; q_control_socket := Some "/run/a,b.sock";
     firmware_vars_path := Some "/vars,1.fd"; swtpm_socket := Some "/tpm.sock"; start_paused := false;
     root_node_name := QEMU_ROOT_NODE_NAME; host_system := None |}.
Definition windows_fw : FirmwareSpec :=
  {| code_path := "/usr/share/OVMF/OVMF_CODE_4M.secboot.fd"; vars_template_path := "/usr/share/OVMF/OVMF_VARS_4M.ms.fd";
     secure_boot := true |}.

(** A Windows computer with a comma in its disk's path and eight ISO images. *)
Definition demo_windows : VMInfo :=
  demo_info (demo_qemu_config WINDOWS firmware "/disks/a,readonly=off.qcow2"
    ((λ k : nat, "/iso/" +:+ dec (Z.of_nat k) +:+ ".ISO") <$> seq 0 8) [] open_mode []) (demo_net None).
(** A Linux computer in public mode with a read-only and a writable mount. *)
Definition demo_public : VMInfo :=
  demo_info (demo_qemu_config UBUNTU direct_kernel "/disks/u.qcow2" ["/seed.iso"; "/data.qcow2"]
    [{| pf_host_port := 8080; pf_guest_port := 80; pf_host_address := "127.0.0.1" |}] public_mode
    [{| wm_host_path := "/src,x"; wm_guest_path := "/workspace"; mount_tag := None; writable := false |};
     {| wm_host_path := "/out"; wm_guest_path := "/out"; mount_tag := Some "out"; writable := true |}]) (demo_net (Some 4000%Z)).
Definition windows_call : qemu_call := demo_call "/usr/bin/qemu-system-x86_64" (windows_spec windows_fw).
Definition linux_call : qemu_call := demo_call "/usr/bin/qemu-system-x86_64" _LINUX_SPEC.
Definition argv_of (i : VMInfo) (q : qemu_call) : list string :=
  match build_qemu_argv demo_host i q with Ret cmd => cmd | Raise _ => [] end.

Lemma windows_launched : launched demo_host demo_windows (demo_net None) windows_call (argv_of demo_windows windows_call).
Proof. split; [reflexivity|reflexivity| |reflexivity|reflexivity]. exists WINDOWS, "Linux", "AMD64". reflexivity. Qed.
Lemma public_launched : launched demo_host demo_public (demo_net (Some 4000%Z)) linux_call (argv_of demo_public linux_call).
Proof. split; [reflexivity|reflexivity| |reflexivity|reflexivity]. exists UBUNTU, "Linux", "x86_64". reflexivity. Qed.

Lemma qemu_disks_exact_witness :
  ∃ v, qemu_sees (tail (argv_of demo_windows windows_call)) = Some v
    ∧ head (v_drives v) = Some ["file=/disks/a,readonly=off.qcow2"; "if=none"; "format=qcow2"; "id=rootdisk0-drive"; "node-name=rootdisk0"]
    ∧ v_attached v ≡ₚ declared v ∧ length (v_attached v) = 9
    ∧ v_ports v = zip ["ide.0"; "ide.1"; "ide.2"; "ide.3"; "ide.4"; "ide.5"]
        ((λ k : nat, "extra" +:+ dec (Z.of_nat k) +:+ "-drive") <$> seq 0 6).
Proof.
  destruct (qemu_disks_exact _ _ _ _ _ windows_launched ltac:(reflexivity)) as (args & v & fmt & Hc & Hs & _ & _ & Ha & _ & _ & Hp).
  rewrite Hc. simpl tail. exists v. assert (Some v = qemu_sees (tail (argv_of demo_windows windows_call))) as Hv by (by rewrite Hc).
  split; [exact Hs|].
  assert (v = default view_nil (qemu_sees (tail (argv_of demo_windows windows_call)))) as -> by (by rewrite <- Hv).
  split; [vm_compute; reflexivity|]. split; [exact Ha|]. split; [vm_compute; reflexivity|]. rewrite Hp. vm_compute. reflexivity.
Defined.
Lemma qemu_network_exact_witness :
  ∃ v o, qemu_sees (tail (argv_of demo_public linux_call)) = Some v ∧ v_netdevs v = [o]
    ∧ given "hostfwd=" o = ["tcp:127.0.0.1:2200-:22"; "tcp:127.0.0.1:8080-:80"] ∧ "restrict=on" ∈ o
    ∧ ∃ command, given "guestfwd=" o = ["tcp:10.0.2.100:3128-cmd:" +:+ command]
        ∧ shlex_tokens command = Some ["/usr/bin/python 3"; "-I"; "/opt/celesto/host/_public_egress_relay.py"; "4000"].
Proof.
  destruct (qemu_network_exact _ _ _ _ _ public_launched ltac:(reflexivity))
    as (args & v & o & Hc & Hs & _ & Hn & Hf & _ & Hr & _ & command & Hg & Hw).
  exists v, o. rewrite Hc. split; [exact Hs|]. split; [exact Hn|]. split; [exact Hf|]. split; [apply Hr; reflexivity|].
  exists command. split; [exact Hg|exact Hw].
Defined.
Lemma qemu_shares_exact_witness :
  ∃ v export share, qemu_sees (tail (argv_of demo_public linux_call)) = Some v ∧ length (v_shares v) = 2
    ∧ v_fsdevs v !! 0 = Some export ∧ v_shares v !! 0 = Some share
    ∧ given "path=" export = ["/src,x"] ∧ "readonly=on" ∈ export ∧ given "mount_tag=" share = ["workspace0"].
Proof.
  destruct (qemu_shares_exact _ _ _ _ _ public_launched) as (args & v & Hc & Hs & _ & Hl & Hk).
  destruct (Hk 0 _ eq_refl) as (export & share & He & Hsh & Hp & Hr & _ & Ht).
  exists v, export, share. rewrite Hc. split; [exact Hs|]. split; [exact Hl|]. split; [exact He|]. split; [exact Hsh|].
  split; [exact Hp|]. split; [apply Hr; reflexivity|exact Ht].
Defined.

(** ** Values that are not escaped *)

(** The address of a port forward goes into the options as it is: a comma in it
    adds options, here a host command the guest can start. *)
Definition demo_injection : VMInfo :=
  demo_info (demo_qemu_config UBUNTU direct_kernel "/disks/u.qcow2" []
    [{| pf_host_port := 8080; pf_guest_port := 80;
        pf_host_address := "127.0.0.1:1-:1,guestfwd=tcp:10.0.2.200:1-cmd:/bin/sh,hostfwd=tcp:127.0.0.1" |}] open_mode [])
    (demo_net None).
Example host_address_injects_options :
  ∃ v o, qemu_sees (tail (argv_of demo_injection linux_call)) = Some v ∧ v_netdevs v = [o]
    ∧ given "guestfwd=" o = ["tcp:10.0.2.200:1-cmd:/bin/sh"].
Proof. eexists _, _. split; [vm_compute; reflexivity|]. split; vm_compute; reflexivity. Qed.

(** [skip_kernel_cmdline_injection] is not read: a spec that sets it still gets
    [-kernel] for a computer that boots a kernel directly. *)
Definition skipping_spec : GuestPlatformSpec :=
  {| ps_guest_os := WINDOWS; ps_name := "windows"; forced_boot_mode := None; skip_kernel_cmdline_injection := true;
     skip_workspace_mounts := true; machine_extra_opts := []; cpu_extra_flags := []; extra_globals := [];
     extra_objects := []; extra_devices := []; root_disk_controller := None; root_disk_device := "virtio-blk";
     cdrom_bus := None; ps_firmware := None; requires_swtpm := false; swtpm_device_model := "tpm-crb" |}.
Example skip_kernel_has_no_effect :
  skip_kernel_cmdline_injection skipping_spec = true
  ∧ bool_decide ("-kernel" ∈ argv_of demo_public (demo_call "/usr/bin/qemu-system-x86_64" skipping_spec)) = true.
Proof. split; vm_compute; reflexivity. Qed.
