(* ===== verification/ImageCache.v ===== *)
(** * images/manager.py and images/published.py: the image cache

    Downloading, checking and unpacking the kernels and root disks of computers.
    Nothing locks the cache: several processes may run these functions on it at
    the same time, and each may be killed between two effects.  The cache is
    names and inodes: renaming moves a name, an open file stays with its inode.
    A name with a random part (tempfile, uuid4) is kept apart from fixed names and
    carries a token that no other call gets.  Directories exist once they are
    made; there are no symbolic links in the cache.  The images of an S3 bucket
    and the choice of the cache directory are left out. *)
From S2P Require Import Prelude PyStr PyUrl CrashProg.
From stdpp Require Import sorting options.
From Stdlib Require Import Ascii.
#[local] Open Scope prog_scope.

(** ** Names, inodes and effects *)
Abbreviation bytes := (list ascii).
Definition nul : ascii := Ascii.zero.

(** The process and the moment a random name was made. *)
Definition token : Type := nat * nat.
(** [tmp*.tmp], [.{dst}.{uuid}.partial], the same with [.tmp], [.celesto-disk-*] *)
Inductive temp_kind := TmpFile | Partial (dst : string) | PartialTmp (dst : string) | DiskDir.
Inductive fname := Named (s : string) | Random (k : temp_kind) (t : token).
(** [Inside d t] is the file [data] in the private directory [t] of [d]. *)
Inductive path := At (dir : string) (name : fname) | Inside (dir : string) (t : token).
#[global] Instance temp_kind_eq_dec : EqDecision temp_kind.
Proof. solve_decision. Defined.
#[global] Instance fname_eq_dec : EqDecision fname.
Proof. solve_decision. Defined.
#[global] Instance path_eq_dec : EqDecision path.
Proof. solve_decision. Defined.
Definition kind_code (k : temp_kind) : nat * string :=
  match k with TmpFile => (0, "") | Partial s => (1, s) | PartialTmp s => (2, s) | DiskDir => (3, "") end.
Definition kind_decode (c : nat * string) : temp_kind :=
  match c with (0, _) => TmpFile | (1, s) => Partial s | (2, s) => PartialTmp s | _ => DiskDir end.
Definition path_code (q : path) : (string * (string + (nat * string) * token)) + (string * token) :=
  match q with
  | At d (Named s) => inl (d, inl s)
  | At d (Random k t) => inl (d, inr (kind_code k, t))
  | Inside d t => inr (d, t)
  end.
Definition path_decode (c : (string * (string + (nat * string) * token)) + (string * token)) : path :=
  match c with
  | inl (d, inl s) => At d (Named s)
  | inl (d, inr (k, t)) => At d (Random (kind_decode k) t)
  | inr (d, t) => Inside d t
  end.
#[global] Instance path_countable : Countable path.
Proof. apply (inj_countable' path_code path_decode). by intros [d [s|[] t]|d t]. Defined.

Inductive entry := File (i : nat) | Directory.
#[global] Instance entry_eq_dec : EqDecision entry.
Proof. solve_decision. Defined.
Record world := { w_names : gmap path entry; w_data : gmap nat bytes; w_clock : nat }.

(** A finished request: refused, or a status, a Content-Length and the chunks of
    the body, cut short or not. *)
Record response := { rs_status : option string; rs_length : option string; rs_chunks : list bytes; rs_cut : option string }.
Inductive answer := Refused (msg : string) | Answered (r : response).

Inductive action :=
| Mkdir (d : string)
| Mkstemp (d : string)
| Mkdtemp (d : string)
| Uuid
| OpenExcl (q : path)
| OpenW (q : path)
| Write (fd : nat) (offset : nat) (b : bytes)
| Truncate (fd : nat) (size : nat)
| Read (q : path)
| IsFile (q : path)
| IsDir (q : path)
| Rename (a b : path)
| Unlink (q : path)
| Rmtree (q : path)
| Get (url : string)
| Zstd (b : bytes)
| Native
| Progress (label : string) (chunk : nat) (total : option Z).
Definition reply (a : action) : Type :=
  match a with
  | Mkstemp _ => token * nat
  | Mkdtemp _ | Uuid => token
  | OpenExcl _ | OpenW _ => nat
  | Read _ => bytes
  | IsFile _ | IsDir _ | Native => bool
  | Get _ => answer
  | Zstd _ => list bytes * option string
  | _ => unit
  end.

Inductive error :=
| ImageError (msg : string)
| ValueError (msg : string)
| RequestException (msg : string)
| OSErr (msg : string)
| FileNotFound
| ZstdError (msg : string)
| Interrupt.
(** [requests.RequestException] is an [IOError]. *)
Definition is_oserror (e : error) : bool :=
  match e with RequestException _ | OSErr _ | FileNotFound => true | _ => false end.
Definition error_text (e : error) : string :=
  match e with
  | ImageError m | ValueError m | RequestException m | OSErr m | ZstdError m => m
  | FileNotFound => "[Errno 2] No such file or directory"
  | Interrupt => ""
  end.
Abbreviation prog A := (CrashProg.prog reply error A).
Abbreviation act := (@CrashProg.act action reply error).

(** hashlib and zstandard.  How a decoder cuts its output is its own choice. *)
Class Libs := {
  sha256 : bytes → string;
  sha512 : bytes → string;
  unzstd : bytes → option bytes;
  zstd_chunks : nat → bytes → list bytes * option string }.
(** A decoder that ends without an error has given the whole output. *)
Class ZstdLaw `{!Libs} := zstd_whole n b l : zstd_chunks n b = (l, None) → unzstd b = Some (concat l).

(** What the surroundings answer at a moment.  [e_fault]: the effect raises, after
    it was done or without it; [OSErr] and [Interrupt] (Ctrl-C) are meant. *)
Record ienv := {
  e_fault : nat → option (bool * error);
  e_http : nat → string → answer;
  e_native : nat → bool }.

(** ** Files *)
Definition write_at (offset : nat) (b c : bytes) : bytes :=
  take offset (c ++ replicate (offset - length c) nul) ++ b ++ drop (offset + length b) c.
Definition truncate (size : nat) (c : bytes) : bytes := take size (c ++ replicate (size - length c) nul).

Definition tick (w : world) : world := {| w_names := w_names w; w_data := w_data w; w_clock := S (w_clock w) |}.
Definition set_names n w := {| w_names := n; w_data := w_data w; w_clock := w_clock w |}.
Definition set_data d w := {| w_names := w_names w; w_data := d; w_clock := w_clock w |}.
Definition new_inode (w : world) : nat := fresh (dom (w_data w)).
Definition new_file (q : path) (w : world) : world :=
  set_data (<[new_inode w := []]> (w_data w)) (set_names (<[q := File (new_inode w)]> (w_names w)) w).
(** What [rmtree] takes with a directory. *)
Definition below (q x : path) : Prop :=
  match q, x with At d (Random DiskDir t), Inside d' t' => d' = d ∧ t' = t | _, _ => False end.
#[global] Instance below_dec q x : Decision (below q x).
Proof. destruct q as [d [s|[] t]|d t], x; simpl; apply _. Defined.

Section effects.
Context `{!Libs} (V : ienv).

Definition effect (p : nat) (a : action) (w : world) : world * res error (reply a) :=
  match a return world * res error (reply a) with
  | Mkdir _ | Progress _ _ _ => (w, Ok tt)
  | Mkstemp d =>
      let q := At d (Random TmpFile (p, w_clock w)) in
      match w_names w !! q with
      | Some _ => (w, Err (OSErr "No usable temporary file name found"))
      | None => (new_file q w, Ok ((p, w_clock w), new_inode w))
      end
  | Mkdtemp d =>
      let q := At d (Random DiskDir (p, w_clock w)) in
      match w_names w !! q with
      | Some _ => (w, Err (OSErr "No usable temporary directory name found"))
      | None => (set_names (<[q := Directory]> (w_names w)) w, Ok (p, w_clock w))
      end
  | Uuid => (w, Ok (p, w_clock w))
  | OpenExcl q =>
      match w_names w !! q with
      | Some _ => (w, Err (OSErr "File exists"))
      | None => (new_file q w, Ok (new_inode w))
      end
  | OpenW q =>
      match w_names w !! q with
      | Some (File i) => (set_data (<[i := []]> (w_data w)) w, Ok i)
      | Some Directory => (w, Err (OSErr "Is a directory"))
      | None => (new_file q w, Ok (new_inode w))
      end
  | Write i o b => (set_data (alter (write_at o b) i (w_data w)) w, Ok tt)
  | Truncate i n => (set_data (alter (truncate n) i (w_data w)) w, Ok tt)
  | Read q =>
      match w_names w !! q with
      | Some (File i) => (w, Ok (default [] (w_data w !! i)))
      | Some Directory => (w, Err (OSErr "Is a directory"))
      | None => (w, Err FileNotFound)
      end
  | IsFile q => (w, Ok (match w_names w !! q with Some (File _) => true | _ => false end))
  | IsDir q => (w, Ok (match w_names w !! q with Some Directory => true | _ => false end))
  | Rename a b =>
      match w_names w !! a, w_names w !! b with
      | None, _ => (w, Err FileNotFound)
      | Some (File _), Some Directory => (w, Err (OSErr "Is a directory"))
      | Some Directory, _ => (w, Err (OSErr "Not a file"))
      | Some (File i), _ => (set_names (<[b := File i]> (delete a (w_names w))) w, Ok tt)
      end
  | Unlink q =>
      match w_names w !! q with
      | Some (File _) => (set_names (delete q (w_names w)) w, Ok tt)
      | Some Directory => (w, Err (OSErr "Is a directory"))
      | None => (w, Err FileNotFound)
      end
  | Rmtree q =>
      match w_names w !! q with
      | Some Directory => (set_names (filter (λ x, x.1 ≠ q ∧ ¬ below q x.1) (w_names w)) w, Ok tt)
      | Some (File _) => (w, Err (OSErr "Not a directory"))
      | None => (w, Err FileNotFound)
      end
  | Get url => (w, Ok (e_http V (w_clock w) url))
  | Zstd b => (w, Ok (zstd_chunks (w_clock w) b))
  | Native => (w, Ok (e_native V (w_clock w)))
  end.
Definition perform (p : nat) (a : action) (w : world) : world * res error (reply a) :=
  match e_fault V (w_clock w) with
  | None => let '(w', r) := effect p a w in (tick w', r)
  | Some (false, e) => (tick w, Err e)
  | Some (true, e) => (tick (effect p a w).1, Err e)
  end.
End effects.

(** [path.unlink(missing_ok=True)] *)
Definition unlink_missing_ok (q : path) : prog unit :=
  ptry (act (Unlink q)) (λ e, match e with FileNotFound => pret tt | _ => praise e end).
(** [with suppress(OSError)], and [rmtree(ignore_errors=True)] *)
Definition suppress_oserror (m : prog unit) : prog unit := psuppress is_oserror m.

(** [cache_dir / name] *)
Definition join (d name : string) : string := if startswith "/" name then name else d +:+ "/" +:+ name.
(** [Path(s).parts] of a relative path, and [Path(s).name] *)
Definition path_parts (s : string) : list string :=
  filter (λ x, x ≠ "" ∧ x ≠ ".") (str_split "/"%char s).
Definition path_name (s : string) : string := default "" (last (path_parts s)).

(** ** images/manager.py *)
Module Manager.
Section manager.
Context `{!Libs}.

Definition _normalize_digest (expected : option string) : option string := (λ s, lower (strip s)) <$> expected.
Definition _reject_blank_digest (expected : option string) (algorithm source : string) : prog unit :=
  match expected with
  | Some "" => praise (ImageError ("The " +:+ algorithm +:+ " checksum given for " +:+ source
      +:+ " is empty, so the download cannot be verified. Supply the full checksum, or remove it to skip verification deliberately."))
  | _ => pret tt
  end.
Definition _parse_content_length (raw_length : option string) : option Z :=
  match raw_length with
  | None => None
  | Some raw => match py_int (strip raw) with
                | Some total => if (0 <=? total)%Z then Some total else None
                | None => None
                end
  end.

Record ImageSource := {
  name : string;
  kernel_url : string; kernel_sha256 : option string; kernel_filename : string;
  initrd_url : option string; initrd_sha256 : option string; initrd_filename : string;
  rootfs_url : string; rootfs_sha256 : option string; rootfs_filename : string }.
Record LocalImage := {
  l_name : string; kernel_path : path; initrd_path : option path; rootfs_path : path; downloaded : bool }.

(** The validator of the three filenames. *)
Definition normalize_cache_filename (value : string) : res error string :=
  if startswith "/" value then Err (ValueError "image cache filenames must be relative paths")
  else let normalized := path_name value in
  if bool_decide (normalized ∈ [""; "."; ".."]) then Err (ValueError "image cache filenames must resolve to a basename")
  else Ok normalized.
(** [ImageSource(...)] *)
Definition make_image_source (s : ImageSource) : res error ImageSource :=
  match normalize_cache_filename (kernel_filename s), normalize_cache_filename (initrd_filename s),
        normalize_cache_filename (rootfs_filename s) with
  | Ok k, Ok i, Ok r =>
      Ok {| name := name s; kernel_url := kernel_url s; kernel_sha256 := kernel_sha256 s; kernel_filename := k;
            initrd_url := initrd_url s; initrd_sha256 := initrd_sha256 s; initrd_filename := i;
            rootfs_url := rootfs_url s; rootfs_sha256 := rootfs_sha256 s; rootfs_filename := r |}
  | Err e, _, _ | _, Err e, _ | _, _, Err e => Err e
  end.
Definition raised {A} (r : res error A) : prog A := Done r.

(** A progress callback threads the state its closure keeps. *)
Definition callback (S : Type) : Type := S → nat → option Z → prog S.
Definition report {S} (cb : option (callback S)) (s : S) (chunk : nat) (total : option Z) : prog S :=
  match cb with Some f => f s chunk total | None => pret s end.

(** [for chunk in response.iter_content(...)]: the chunks land one after the
    other in the temporary file. *)
Fixpoint write_chunks {S} (fd offset : nat) (cb : option (callback S)) (total : option Z) (l : list bytes) (s : S) : prog S :=
  match l with
  | [] => pret s
  | chunk :: l =>
      do* act (Write fd offset chunk) in
      let* s := report cb s (length chunk) total in
      write_chunks fd (offset + length chunk) cb total l s
  end.

(** [requests.get], [raise_for_status] and the loop over the body, whose bytes are
    what was hashed. *)
Definition fetch {S} (url : string) (fd : nat) (cb : option (callback S)) (s : S) : prog (bytes * S) :=
  let* a := act (Get url) in
  match a with
  | Refused m => praise (RequestException m)
  | Answered r =>
      match rs_status r with
      | Some m => praise (RequestException m)
      | None =>
          let total := _parse_content_length (rs_length r) in
          let* s := write_chunks fd 0 cb total (rs_chunks r) s in
          match rs_cut r with
          | Some m => praise (RequestException m)
          | None => pret (concat (rs_chunks r), s)
          end
      end
  end.
Definition check_download (url : string) (expected : option string) (content : bytes) : prog unit :=
  match expected with
  | None => pret tt
  | Some d =>
      if bool_decide (sha256 content = d) then pret tt
      else praise (ImageError ("SHA-256 mismatch for " +:+ url +:+ "  expected: " +:+ d +:+ "  actual:   " +:+ sha256 content))
  end.

Definition _download_file {S} (url dir file : string) (expected_sha256 : option string)
    (progress_callback : option (callback S)) (s : S) : prog S :=
  let expected := _normalize_digest expected_sha256 in
  do* _reject_blank_digest expected "SHA-256" url in
  do* act (Mkdir dir) in
  let* t := act (Mkstemp dir) in
  let tmp_path := At dir (Random TmpFile t.1) in
  pfinally
    (ptry
      (let* r := fetch url t.2 progress_callback s in
       do* check_download url expected r.1 in
       do* act (Rename tmp_path (At dir (Named file))) in
       pret r.2)
      (λ e, match e with
            | RequestException m => praise (ImageError ("Download failed for " +:+ url +:+ ": " +:+ m))
            | _ => praise e
            end))
    (unlink_missing_ok tmp_path).

Definition verify_digest (hash : bytes → string) (q : path) (expected : option string) : prog bool :=
  match _normalize_digest expected with
  | None => pret true
  | Some d => let* content := act (Read q) in pret (bool_decide (hash content = d))
  end.
Definition _verify_sha256 : path → option string → prog bool := verify_digest sha256.
Definition _compute_sha512 (q : path) : prog string := let* content := act (Read q) in pret (sha512 content).
Definition _verify_sha512 (q : path) (expected : option string) : prog bool :=
  match _normalize_digest expected with
  | None => pret true
  | Some d => let* actual := _compute_sha512 q in pret (bool_decide (actual = d))
  end.

(** Whether a label of the dictionary has an earlier one with its filename. *)
Fixpoint first_collision (seen : list (string * string)) (l : list (string * string)) : option (string * string * string) :=
  match l with
  | [] => None
  | (label, file) :: l =>
      match list_find (λ x, x.2 = file) seen with
      | Some (_, x) => Some (x.1, label, file)
      | None => first_collision (seen ++ [(label, file)]) l
      end
  end.
(** [destination.name == filename and destination.parent == image_dir] *)
Definition stays_inside (file : string) : bool := bool_decide (path_parts file = [file]).
Definition _resolve_asset_paths (image_dir : string) (source : ImageSource) : res error (string * option string * string) :=
  let filenames := [("kernel", kernel_filename source); ("rootfs", rootfs_filename source)]
    ++ match initrd_url source with Some _ => [("initrd", initrd_filename source)] | None => [] end in
  match first_collision [] filenames with
  | Some (existing_label, label, file) =>
      Err (ImageError ("Image asset filenames collide within the cache directory: " +:+ existing_label
        +:+ " and " +:+ label +:+ " both map to '" +:+ file +:+ "'"))
  | None =>
      match list_find (λ x, stays_inside x.2 = false) filenames with
      | Some (_, (label, file)) =>
          Err (ImageError ("Image asset '" +:+ label +:+ "' must stay within the cache directory: " +:+ repr file))
      | None =>
          Ok (kernel_filename source, (λ _, initrd_filename source) <$> initrd_url source, rootfs_filename source)
      end
  end.

Definition list_available (registry : gmap string ImageSource) : list string :=
  merge_sort str_le (map_to_list registry).*1.
Definition unknown_image (registry : gmap string ImageSource) (n : string) : error :=
  let available := str_join ", " (list_available registry) in
  ImageError ("Unknown image: '" +:+ n +:+ "'. Available images: "
    +:+ (if String.eqb available "" then "(none)" else available)).
(** [initrd_path is None or initrd_path.is_file()] *)
Definition initrd_ready (q : option path) : prog bool :=
  match q with None => pret true | Some q => act (IsFile q) end.
(** [a and b], where [b] is not evaluated after a false [a] *)
Definition pand (a b : prog bool) : prog bool := let* x := a in if x then b else pret false.

Definition is_cached (registry : gmap string ImageSource) (cache_dir n : string) : prog bool :=
  if String.eqb n "" then praise (ValueError "image name cannot be empty")
  else let image_dir := join cache_dir n in
  match registry !! n with
  | None => pret false
  | Some source =>
      let* ps := raised (_resolve_asset_paths image_dir source) in
      let '(kernel, initrd, rootfs) := ps in
      let at' f := At image_dir (Named f) in
      pand (act (IsFile (at' kernel))) (pand (act (IsFile (at' rootfs))) (initrd_ready (at' <$> initrd)))
  end.

(** The check of an image that is in the cache. *)
Definition cache_ok (source : ImageSource) (kernel : path) (initrd : option path) (rootfs : path) : prog bool :=
  let* ready := initrd_ready initrd in
  let* present := pand (act (IsFile kernel)) (pand (act (IsFile rootfs)) (pret ready)) in
  if present then
    let* kernel_ok := _verify_sha256 kernel (kernel_sha256 source) in
    let* initrd_ok := match initrd with None => pret true | Some q => _verify_sha256 q (initrd_sha256 source) end in
    let* rootfs_ok := _verify_sha256 rootfs (rootfs_sha256 source) in
    pret (kernel_ok && initrd_ok && rootfs_ok)
  else pret false.

Definition ensure_image {S} (registry : gmap string ImageSource) (cache_dir n : string)
    (on_download : option (string → callback S)) (s : S) : prog LocalImage :=
  if String.eqb n "" then praise (ValueError "image name cannot be empty")
  else match registry !! n with
  | None => praise (unknown_image registry n)
  | Some source =>
      let image_dir := join cache_dir n in
      let* ps := raised (_resolve_asset_paths image_dir source) in
      let '(kernel, initrd, rootfs) := ps in
      let at' f := At image_dir (Named f) in
      let local d := {| l_name := n; kernel_path := at' kernel; initrd_path := at' <$> initrd;
                        rootfs_path := at' rootfs; downloaded := d |} in
      let _make_cb label := (λ f, f label) <$> on_download in
      let* hit := cache_ok source (at' kernel) (at' <$> initrd) (at' rootfs) in
      if hit then pret (local false)
      else
        do* act (Mkdir image_dir) in
        let* s := _download_file (kernel_url source) image_dir kernel (kernel_sha256 source) (_make_cb "kernel") s in
        let* s := match initrd, initrd_url source with
                  | Some f, Some url => _download_file url image_dir f (initrd_sha256 source) (_make_cb "initrd") s
                  | _, _ => pret s
                  end in
        do* _download_file (rootfs_url source) image_dir rootfs (rootfs_sha256 source) (_make_cb "rootfs") s in
        pret (local true)
  end.

(** [ensure_rootfs_only]; [on_download] says whether a callback was given. *)
Definition user_callback (label : string) : callback unit := λ s chunk total, act (Progress label chunk total).
Definition ensure_rootfs_only (cache_dir n url filename : string) (sha256 sha512 : option string) (on_download : bool) : prog path :=
  if String.eqb n "" then praise (ValueError "image name cannot be empty")
  else
  do* _reject_blank_digest (_normalize_digest sha256) "SHA-256" url in
  do* _reject_blank_digest (_normalize_digest sha512) "SHA-512" url in
  let* safe_filename := raised (normalize_cache_filename filename) in
  let image_dir := join cache_dir n in
  let rootfs := At image_dir (Named safe_filename) in
  let* hit := pand (act (IsFile rootfs)) (pand (_verify_sha256 rootfs sha256) (_verify_sha512 rootfs sha512)) in
  if hit then pret rootfs
  else
    do* act (Mkdir image_dir) in
    do* _download_file url image_dir safe_filename sha256 (if on_download then Some (user_callback "rootfs") else None) tt in
    match sha512 with
    | None => pret rootfs
    | Some d =>
        let* ok := _verify_sha512 rootfs sha512 in
        if ok then pret rootfs
        else
          let* actual := _compute_sha512 rootfs in
          do* unlink_missing_ok rootfs in
          praise (ImageError ("SHA-512 mismatch for " +:+ url +:+ "  expected: " +:+ d +:+ "  actual:   " +:+ actual))
    end.
End manager.
End Manager.

(** ** host/disk.py: unpacking with holes *)
Module Disk.
Section disk.
Context `{!Libs}.
(** [chunk.strip(b"\0")] is empty *)
Definition is_zero_chunk (chunk : bytes) : bool := forallb (λ c, bool_decide (c = nul)) chunk.
(** [_write_sparse_chunk]: a chunk of zeros only moves the offset. *)
Definition _write_sparse_chunk (fd offset : nat) (chunk : bytes) : prog unit :=
  if is_zero_chunk chunk then pret tt else act (Write fd offset chunk).
(** The loop over the decoder; the offset at its end is the size. *)
Fixpoint write_sparse (fd offset : nat) (l : list bytes) : prog nat :=
  match l with
  | [] => pret offset
  | chunk :: l =>
      do* _write_sparse_chunk fd offset chunk in
      write_sparse fd (offset + length chunk) l
  end.
(** Decoding [source] into the open file; the two decoders differ in the error
    they raise. *)
Definition decode_into (fd : nat) (content : bytes) (decode_error : string → error) : prog unit :=
  let* r := act (Zstd content) in
  let* size := write_sparse fd 0 r.1 in
  match r.2 with
  | Some m => praise (decode_error m)
  | None => act (Truncate fd size)
  end.
Definition _python_decompress_zstd_sparse (source : path) (dir : string) (target : path) : prog unit :=
  let* stage := act (Mkdtemp dir) in
  pfinally
    (let* fd := act (OpenExcl (Inside dir stage)) in
     let* content := act (Read source) in
     do* decode_into fd content ZstdError in
     act (Rename (Inside dir stage) target))
    (act (Rmtree (At dir (Random DiskDir stage)))).
(** [core_disk.decompress_zstd_sparse], the same in Rust: the stage is dropped
    whatever happens, its errors ignored. *)
Definition _native_decompress_zstd_sparse (source : path) (dir : string) (target : path) : prog unit :=
  let* content := act (Read source) in
  let* stage := act (Mkdtemp dir) in
  pfinally
    (let* fd := act (OpenExcl (Inside dir stage)) in
     do* decode_into fd content OSErr in
     act (Rename (Inside dir stage) target))
    (do* suppress_oserror (act (Unlink (Inside dir stage))) in
     suppress_oserror (act (Rmtree (At dir (Random DiskDir stage))))).
Definition decompress_zstd_sparse (source : path) (dir : string) (target : path) : prog unit :=
  do* act (Mkdir dir) in
  let* native := act Native in
  if native then _native_decompress_zstd_sparse source dir target else _python_decompress_zstd_sparse source dir target.
End disk.
End Disk.

(** ** images/published.py *)
Module Published.
Import Manager.
Section published.
Context `{!Libs}.

Inductive Arch := amd64 | arm64.
Inductive Preset := ubuntu | linux_desktop.
Inductive Vmm := firecracker | qemu | libkrun.
Inductive Os := os_ubuntu | os_alpine.
Inductive KernelFormat := elf | image.
Inductive KernelProfile := sandbox | github_ci.
#[global] Instance Arch_eq_dec : EqDecision Arch.
Proof. solve_decision. Defined.
#[global] Instance Preset_eq_dec : EqDecision Preset.
Proof. solve_decision. Defined.
#[global] Instance Vmm_eq_dec : EqDecision Vmm.
Proof. solve_decision. Defined.
#[global] Instance Os_eq_dec : EqDecision Os.
Proof. solve_decision. Defined.
#[global] Instance KernelFormat_eq_dec : EqDecision KernelFormat.
Proof. solve_decision. Defined.
#[global] Instance KernelProfile_eq_dec : EqDecision KernelProfile.
Proof. solve_decision. Defined.
Definition arch_text (a : Arch) : string := match a with amd64 => "amd64" | arm64 => "arm64" end.
Definition preset_text (p : Preset) : string := match p with ubuntu => "ubuntu" | linux_desktop => "linux-desktop" end.
Definition vmm_text (v : Vmm) : string := match v with firecracker => "firecracker" | qemu => "qemu" | libkrun => "libkrun" end.
Definition os_text (o : Os) : string := match o with os_ubuntu => "ubuntu" | os_alpine => "alpine" end.
Definition format_text (f : KernelFormat) : string := match f with elf => "elf" | image => "image" end.
Definition profile_text (p : KernelProfile) : string := match p with sandbox => "sandbox" | github_ci => "github-ci" end.

Definition ManifestKey : Type := Preset * Arch * Vmm * Os.
Record PublishedImage := {
  preset : Preset; arch : Arch; vmm : Vmm; p_os : Os;
  p_kernel_url : string; p_kernel_sha256 : string; p_rootfs_url : string; p_rootfs_sha256 : string }.
Record BaseKernel := { b_arch : Arch; elf_url : string; elf_sha256 : string; image_url : string; image_sha256 : string }.
Definition url_for (b : BaseKernel) (fmt : KernelFormat) : string :=
  if bool_decide (fmt = elf) then elf_url b else image_url b.
Definition sha256_for (b : BaseKernel) (fmt : KernelFormat) : string :=
  if bool_decide (fmt = elf) then elf_sha256 b else image_sha256 b.

(** [os.environ.get(name) or fallback] *)
Definition env_or (environ : string → option string) (n fallback : string) : string :=
  match environ n with Some "" | None => fallback | Some s => s end.
Definition IMAGES_RELEASE_TAG : string := "images-2026.10.25.0".
Definition KERNELS_RELEASE_TAG : string := "kernels-2026.10.28.0".
Definition ARM_KERNELS_RELEASE_TAG : string := "kernels-arm64-2026.10.29.0".
Definition _images_release_tag (environ : string → option string) : string :=
  env_or environ "CELESTO_IMAGES_RELEASE_TAG" IMAGES_RELEASE_TAG.

Definition cache_name (p : Preset) (a : Arch) (v : Vmm) (version : string) (o : Os) : string :=
  let base := preset_text p +:+ "-v" +:+ version +:+ "-" +:+ arch_text a +:+ "-" +:+ vmm_text v in
  if bool_decide (o = os_ubuntu) then base else base +:+ "-" +:+ os_text o.
Definition _release_asset_url (environ : string → option string) (p : Preset) (a : Arch) (suffix : string) (o : Os) : string :=
  let slug := if bool_decide (o = os_ubuntu) then preset_text p +:+ "-" +:+ arch_text a +:+ "-" +:+ suffix
              else preset_text p +:+ "-" +:+ arch_text a +:+ "-" +:+ os_text o +:+ "-" +:+ suffix in
  "https://github.com/CelestoAI/Celesto/releases/download/" +:+ _images_release_tag environ +:+ "/" +:+ slug.
Definition _release_kernel_url (environ : string → option string) (a : Arch) (fmt : KernelFormat) (profile : KernelProfile) : string :=
  let tag := if bool_decide (a = arm64) then ARM_KERNELS_RELEASE_TAG
             else env_or environ "CELESTO_KERNELS_RELEASE_TAG" KERNELS_RELEASE_TAG in
  "https://github.com/CelestoAI/Celesto/releases/download/" +:+ tag +:+ "/" +:+ "vmlinux-"
    +:+ (if bool_decide (profile = github_ci) then "github-ci-" else "") +:+ arch_text a +:+ "." +:+ format_text fmt.

Definition BASE_KERNELS (environ : string → option string) (a : Arch) : option BaseKernel :=
  Some match a with
  | amd64 => {| b_arch := amd64;
      elf_url := _release_kernel_url environ amd64 elf sandbox;
      elf_sha256 := "c84de1079890e77aa9b44ca1f3e6220cfe643e97e66d1aca2bc344ce75c49a0e";
      image_url := _release_kernel_url environ amd64 image sandbox;
      image_sha256 := "a39bf2d165743be84b6e9607983bd2fb24ba63ace721269d746a87cfab1bf016" |}
  | arm64 => {| b_arch := arm64;
      elf_url := _release_kernel_url environ arm64 elf sandbox;
      elf_sha256 := "ca73ff604c483f0206b469c37bf7d9622bde9625f4c5ab9a917045c21c61bdea";
      image_url := _release_kernel_url environ arm64 image sandbox;
      image_sha256 := "c6c9005b4c340c8c2b46922c33f56f064a580a650a31a7305ab9bbdcb117aa28" |}
  end.
Definition CI_KERNELS (environ : string → option string) (a : Arch) : option BaseKernel :=
  match a with
  | amd64 => Some {| b_arch := amd64;
      elf_url := _release_kernel_url environ amd64 elf github_ci;
      elf_sha256 := "24f9bbd3813c7c9c899764c1d7a1caea1677010b62320babb5438afc7396c789";
      image_url := _release_kernel_url environ amd64 image github_ci;
      image_sha256 := "52fc02f5fd3140f46e00dd7d8498eba0a15e3ba212d0ba13dcf379cd0932d829" |}
  | arm64 => None
  end.
(** [darwin] is [platform.system() == "Darwin"]. *)
Definition _kernel_format_for_vmm (darwin : bool) (v : Vmm) : KernelFormat :=
  if bool_decide (v = libkrun) && darwin then image
  else if bool_decide (v ∈ [firecracker; libkrun]) then elf else image.
Definition _manifest_row (environ : string → option string) (darwin : bool) (p : Preset) (a : Arch) (v : Vmm) (o : Os)
    (rootfs_sha256 : string) : option PublishedImage :=
  match BASE_KERNELS environ a with
  | None => None
  | Some base =>
      let fmt := _kernel_format_for_vmm darwin v in
      Some {| preset := p; arch := a; vmm := v; p_os := o;
              p_kernel_url := url_for base fmt; p_kernel_sha256 := sha256_for base fmt;
              p_rootfs_url := _release_asset_url environ p a "rootfs.ext4.zst" o; p_rootfs_sha256 := rootfs_sha256 |}
  end.
Definition _LINUX_DESKTOP_AMD64_ROOTFS_SHA : string := "32748a905844e4f6f4169ed7387e1a784f1ccef5cd3f6d4785363a8b7afb3a17".
Definition _LINUX_DESKTOP_ARM64_ROOTFS_SHA : string := "0bae6680a2e1eb311a80a73fea3c4dbcb90f54b7025cd2096d48ac4171bd792e".
Definition _UBUNTU_AMD64_ROOTFS_SHA : string := "bc94d71d7bf822dd4a2a60e14bbf077fa3964850ebafb4bfa032716c541fd38d".
Definition _UBUNTU_ARM64_ROOTFS_SHA : string := "7a31c1e88d0ad2d3b1fb457f56edbb9dc90c11c0a232934206949b0f73157185".
(** The rows of one preset: every architecture and monitor, one OS flavour. *)
Definition _preset_rows (environ : string → option string) (darwin : bool) (p : Preset) (amd64_sha arm64_sha : string) (o : Os)
    (k : ManifestKey) : option PublishedImage :=
  let '(p', a, v, o') := k in
  if bool_decide (p' = p ∧ o' = o) then
    _manifest_row environ darwin p a v o (match a with amd64 => amd64_sha | arm64 => arm64_sha end)
  else None.
Definition MANIFEST (environ : string → option string) (darwin : bool) (k : ManifestKey) : option PublishedImage :=
  match _preset_rows environ darwin ubuntu _UBUNTU_AMD64_ROOTFS_SHA _UBUNTU_ARM64_ROOTFS_SHA os_ubuntu k with
  | Some row => Some row
  | None => _preset_rows environ darwin linux_desktop _LINUX_DESKTOP_AMD64_ROOTFS_SHA _LINUX_DESKTOP_ARM64_ROOTFS_SHA os_ubuntu k
  end.

(** The keys of a catalog, which is the function its dictionary stands for. *)
Definition all_keys : list ManifestKey :=
  p ← [ubuntu; linux_desktop]; a ← [amd64; arm64]; v ← [firecracker; qemu; libkrun]; o ← [os_ubuntu; os_alpine]; [(p, a, v, o)].
Definition keys (manifest : ManifestKey → option PublishedImage) : list ManifestKey :=
  filter (λ k, is_Some (manifest k)) all_keys.
Definition key_text (k : ManifestKey) : string :=
  let '(p, a, v, o) := k in preset_text p +:+ "/" +:+ arch_text a +:+ "/" +:+ vmm_text v +:+ "/" +:+ os_text o.
Definition or_none (l : list string) : string := match l with [] => "(none)" | _ => str_join ", " l end.
Definition lookup (manifest : ManifestKey → option PublishedImage) (k : ManifestKey) : res error PublishedImage :=
  match manifest k with
  | Some entry => Ok entry
  | None =>
      let '(p, a, v, o) := k in
      Err (ImageError ("No published image for preset '" +:+ preset_text p +:+ "' on arch '" +:+ arch_text a
        +:+ "' under vmm '" +:+ vmm_text v +:+ "' with os '" +:+ os_text o
        +:+ "' (available: " +:+ or_none (merge_sort str_le (key_text <$> keys manifest)) +:+ ")."))
  end.
Definition is_preset_published (manifest : ManifestKey → option PublishedImage) (p : string) (a : Arch) (v : Vmm) (o : Os) : bool :=
  existsb (λ k, let '(p', a', v', o') := k in String.eqb (preset_text p') p && bool_decide ((a', v', o') = (a, v, o))) (keys manifest).

(** [s.endswith(".zst")] *)
Fixpoint endswith (suffix s : string) : bool :=
  String.eqb s suffix || match s with "" => false | String _ s => endswith suffix s end.
Definition to_image_source (entry : PublishedImage) (version : string) : res error ImageSource :=
  make_image_source {|
    name := cache_name (preset entry) (arch entry) (vmm entry) version (p_os entry);
    kernel_url := p_kernel_url entry;
    kernel_sha256 := Some (p_kernel_sha256 entry);
    kernel_filename := "vmlinux-" +:+ p_kernel_sha256 entry +:+ ".bin";
    initrd_url := None; initrd_sha256 := None; initrd_filename := "initrd.img";
    rootfs_url := p_rootfs_url entry;
    rootfs_sha256 := Some (p_rootfs_sha256 entry);
    rootfs_filename := if endswith ".zst" (p_rootfs_url entry) then "rootfs.ext4.zst" else "rootfs.ext4" |}.

Definition DECOMPRESSED_ROOTFS_SIDECAR_SUFFIX : string := ".from-sha256".
Definition _DECOMPRESSED_ROOTFS_CACHE_VERSION : string := "sparse-v1".
Definition decompressed_rootfs_sidecar_path (decompressed : string) : string :=
  decompressed +:+ DECOMPRESSED_ROOTFS_SIDECAR_SUFFIX.
Definition _decompressed_rootfs_sidecar_value (rootfs_sha256 : string) : string :=
  _DECOMPRESSED_ROOTFS_CACHE_VERSION +:+ ":" +:+ rootfs_sha256.
(** The text of a sidecar.  A stamp is ASCII; anything else counts as unreadable. *)
Definition stamp_text (content : bytes) : option string :=
  let s := String.string_of_list_ascii content in if is_ascii s then Some (strip s) else None.
Definition read_rootfs_sidecar (q : path) : prog (option string) :=
  ptry (let* content := act (Read q) in pret (stamp_text content))
       (λ e, if is_oserror e then pret None else praise e).
Definition _remove_cache_entry_file (q : path) : prog unit :=
  let* d := act (IsDir q) in
  if d then suppress_oserror (act (Rmtree q)) else unlink_missing_ok q.
Definition _looks_like_zstd_decode_error (e : error) : bool :=
  let message := lower (error_text e) in
  existsb (λ marker, contains marker message) ["zstd"; "frame"; "checksum"; "corrupt"].
Definition _decompress_zstd (src : path) (dir dst : string) : prog unit :=
  let* t := act Uuid in
  let staging := At dir (Random (Partial dst) t) in
  ptry
    (ptry (do* Disk.decompress_zstd_sparse src dir staging in act (Rename staging (At dir (Named dst))))
          (λ e, if is_oserror e then
                  if _looks_like_zstd_decode_error e then praise (ZstdError (error_text e)) else praise e
                else praise e))
    (λ e, do* unlink_missing_ok (At dir (Random (PartialTmp dst) t)) in
          do* unlink_missing_ok staging in
          praise e).
(** [sidecar_path.write_text(text)] *)
Definition write_text (q : path) (text : string) : prog unit :=
  let* fd := act (OpenW q) in
  act (Write fd 0 (String.list_ascii_of_string text)).

(** [_forget_decompressed]: the state is [sidecar_forgotten]. *)
Definition _forget_decompressed (compressed : bool) (sidecar : path) (on_download : bool) (label : string) : callback bool :=
  λ forgotten chunk total,
    let* forgotten :=
      (if compressed && negb forgotten
       then do* suppress_oserror (_remove_cache_entry_file sidecar) in pret true
       else pret forgotten) in
    do* pwhen on_download (act (Progress label chunk total)) in
    pret forgotten.

(** [decompressed_path.is_file()] and the sidecar say whether the unpacked disk
    is used as it is. *)
Definition must_unpack (fresh : bool) (decompressed sidecar : path) (expected : string) : prog bool :=
  let* stamped := act (IsFile sidecar) in
  let* sidecar_sha := (if stamped then read_rootfs_sidecar sidecar else pret None) in
  if fresh then pret true
  else let* there := act (IsFile decompressed) in
       pret (negb there || negb (bool_decide (sidecar_sha = Some expected))).

Definition ensure_published_image (manifest : ManifestKey → option PublishedImage) (cache_dir version : string)
    (k : ManifestKey) (on_download : bool) : prog LocalImage :=
  let* entry := raised (lookup manifest k) in
  let* source := raised (to_image_source entry version) in
  let compressed := endswith ".zst" (rootfs_filename source) in
  let dir := join cache_dir (name source) in
  let decompressed := rsplit_head "."%char (rootfs_filename source) in
  let sidecar := At dir (Named (decompressed_rootfs_sidecar_path decompressed)) in
  let* local := ensure_image {[name source := source]} cache_dir (name source)
                  (Some (_forget_decompressed compressed sidecar on_download)) false in
  if negb compressed then pret local
  else
    let expected_sha := _decompressed_rootfs_sidecar_value (p_rootfs_sha256 entry) in
    let* unpack := must_unpack (downloaded local) (At dir (Named decompressed)) sidecar expected_sha in
    do* pwhen unpack (
      do* _remove_cache_entry_file sidecar in
      let* d := act (IsDir (At dir (Named decompressed))) in
      do* pwhen d (_remove_cache_entry_file (At dir (Named decompressed))) in
      do* _decompress_zstd (rootfs_path local) dir decompressed in
      write_text sidecar expected_sha) in
    pret {| l_name := l_name local; kernel_path := kernel_path local; initrd_path := initrd_path local;
            rootfs_path := At dir (Named decompressed); downloaded := downloaded local |}.

Definition base_kernel_name (version : string) (a : Arch) : string := "base-kernel-v" +:+ version +:+ "-" +:+ arch_text a.
Definition base_kernel_file (profile : KernelProfile) (sha : string) (fmt : KernelFormat) : string :=
  "vmlinux-" +:+ profile_text profile +:+ "-" +:+ sha +:+ "." +:+ format_text fmt.
Definition ensure_base_kernel (catalog : KernelProfile → Arch → option BaseKernel) (cache_dir version : string)
    (a : Arch) (fmt : KernelFormat) (profile : KernelProfile) : prog path :=
  match catalog profile a with
  | None =>
      let available := arch_text <$> filter (λ a, is_Some (catalog profile a)) [amd64; arm64] in
      praise (ImageError ("No base kernel registered for arch '" +:+ arch_text a +:+ "' (available: " +:+ or_none available +:+ ")."))
  | Some entry =>
      ensure_rootfs_only cache_dir (base_kernel_name version a) (url_for entry fmt)
        (base_kernel_file profile (sha256_for entry fmt) fmt) (Some (sha256_for entry fmt)) None false
  end.
End published.
End Published.
