(* ===== verification/ImageProofs.v ===== *)
(** * The image cache under concurrent processes

    What a process may rely on while the others run: its own temporary files, and
    the files at the pinned paths once they are good; then the parts of
    images/manager.py and images/published.py under this rely. *)
From S2P Require Import Prelude PyStr PyUrl CrashProg ImageCache.
From stdpp Require Import options.
From Stdlib Require Import Ascii.
#[local] Open Scope prog_scope.

(** ** Files of the cache *)
Definition content (q : path) (w : world) : option bytes :=
  match w_names w !! q with Some (File i) => w_data w !! i | _ => None end.

Lemma new_inode_free w : w_data w !! new_inode w = None.
Proof. apply not_elem_of_dom. unfold new_inode. apply is_fresh. Qed.

Section facts.
Context `{!Libs}.
(** The file has the pinned SHA-256. *)
Definition matches (c : bytes) (pin : string) : Prop := sha256 c = lower (strip pin).
Definition good (q : path) (pin : string) (w : world) : Prop := ∃ c, content q w = Some c ∧ matches c pin.
(** The file is what bytes with the pinned SHA-256 unpack to. *)
Definition unpacked (c : bytes) (pin : string) : Prop := ∃ z, matches z pin ∧ unzstd z = Some c.
Definition rooted (q : path) (pin : string) (w : world) : Prop := ∃ c, content q w = Some c ∧ unpacked c pin.
End facts.

(** The names a process made up. *)
Definition mine (p : nat) (q : path) : Prop :=
  match q with At _ (Random _ t) | Inside _ t => t.1 = p | At _ (Named _) => False end.
Lemma mine_inj p p' q : mine p q → mine p' q → p = p'.
Proof. destruct q as [d [s|k t]|d t]; simpl; naive_solver. Qed.

(** ** The paths that are kept *)
(** [k_pin q d]: the file at [q] is to have the digest [d]; [k_root q s d]: [q] is
    unpacked from bytes with the digest [d], and [s] is its sidecar. *)
Record keep := { k_pin : path → string → Prop; k_root : path → path → string → Prop }.
Class KeepOk (K : keep) : Prop := {
  k_named q d : k_pin K q d → ∀ p, ¬ mine p q;
  k_root_named q s d : k_root K q s d → ∀ p, ¬ mine p q ∧ ¬ mine p s;
  k_pin_fun q d d' : k_pin K q d → k_pin K q d' → d = d';
  k_root_fun q s d s' d' : k_root K q s d → k_root K q s' d' → s = s' ∧ d = d';
  k_side_fun q s d q' d' : k_root K q s d → k_root K q' s d' → q = q' ∧ d = d';
  k_apart q d q' s' d' : k_pin K q d → k_root K q' s' d' → q ≠ q' ∧ q ≠ s';
  k_sides q s d q' s' d' : k_root K q s d → k_root K q' s' d' → q ≠ s' }.

Section rely.
Context `{!Libs} (K : keep) `{!KeepOk K} (V : ienv).
#[local] Set Default Proof Using "Type*".

(** A sidecar that names the digest vouches for the unpacked file. *)
Record cache_inv (w : world) : Prop := {
  ci_link q1 q2 i : w_names w !! q1 = Some (File i) → w_names w !! q2 = Some (File i) → q1 = q2;
  ci_data q i : w_names w !! q = Some (File i) → is_Some (w_data w !! i);
  ci_dir q s d : k_root K q s d → w_names w !! q ≠ Some Directory;
  ci_honest q s d c x : k_root K q s d → content s w = Some c →
    Published.stamp_text c = Some (Published._decompressed_rootfs_sidecar_value d) → content q w = Some x → unpacked x d }.

(** What no step undoes. *)
Record shared (w w' : world) : Prop := {
  sh_pin q d : k_pin K q d → good q d w → good q d w';
  sh_root q s d : k_root K q s d → rooted q d w → rooted q d w';
  sh_new q s d x : k_root K q s d → content q w' = Some x → content q w = Some x ∨ unpacked x d;
  sh_data i : is_Some (w_data w !! i) → is_Some (w_data w' !! i) }.
(** Only the sidecar may have the inode. *)
Definition only_at (s : path) (i : nat) (w : world) : Prop := ∀ q, w_names w !! q = Some (File i) → q = s.
(** What the others leave to a process. *)
Record private (p : nat) (w w' : world) : Prop := {
  pr_names q : mine p q → w_names w' !! q = w_names w !! q;
  pr_data q i : mine p q → w_names w !! q = Some (File i) → w_data w' !! i = w_data w !! i;
  pr_side q s d i : k_root K q s d → is_Some (w_data w !! i) → only_at s i w → only_at s i w';
  pr_grow i : is_Some (w_data w !! i) → is_Some (w_data w' !! i) }.
#[global] Instance shared_preorder : PreOrder shared.
Proof.
  split; [split; naive_solver|]. intros w1 w2 w3 [A1 A2 A3 A4] [B1 B2 B3 B4].
  split; [naive_solver..| |naive_solver]. intros q s d x Hq Hx. destruct (B3 _ _ _ _ Hq Hx) as [Hx'|]; [by apply (A3 q s)|by right].
Qed.
#[global] Instance private_preorder p : PreOrder (private p).
Proof.
  split; [by split|]. intros w1 w2 w3 [A1 A2 A3 A4] [B1 B2 B3 B4]. split.
  - intros q Hq. rewrite B1 by done. auto.
  - intros q i Hq Hi. rewrite (B2 q) by (done || by rewrite A1). by eapply A2.
  - naive_solver.
  - naive_solver.
Qed.

Abbreviation allowed := (CrashProg.allowed cache_inv shared private).

Lemma content_names w w' q : w_names w' !! q = w_names w !! q → w_data w' = w_data w → content q w' = content q w.
Proof. unfold content. by intros -> ->. Qed.

(** *** The changes a step can make *)
(** Nothing. *)
Lemma step_none p w w' : cache_inv w → w_names w' = w_names w → w_data w' = w_data w → allowed p w w'.
Proof.
  intros [I1 I2 I3 I4] Hn Hd. assert (Hc : ∀ q, content q w' = content q w) by (intros q; unfold content; by rewrite Hn, Hd).
  split; [|split]; [split| |].
  - intros q1 q2 i. rewrite Hn. apply I1.
  - intros q i. rewrite Hn, Hd. apply I2.
  - intros q s d. rewrite Hn. apply I3.
  - intros q s d c x. rewrite !Hc. apply I4.
  - split; [intros q d _|intros q s d _|intros q s d x _|by rewrite Hd]; unfold good, rooted; rewrite ?Hc; auto.
  - intros p' _. split; [by rewrite Hn|by rewrite Hd|unfold only_at; by rewrite Hn|by rewrite Hd].
Qed.

Definition is_side (s : path) : Prop := ∃ q d, k_root K q s d.
(** A path that [p] may make and remove names at. *)
Definition loose (p : nat) (q : path) : Prop := mine p q ∨ is_side q.
Lemma loose_pin p q d : k_pin K q d → ¬ loose p q.
Proof. intros Hq [Hm|(q' & d' & Hr)]; [by eapply k_named|]. by destruct (k_apart _ _ _ _ _ Hq Hr). Qed.
Lemma loose_root p q s d : k_root K q s d → ¬ loose p q.
Proof. intros Hq [Hm|(q' & d' & Hr)]; [by destruct (k_root_named _ _ _ Hq p)|]. by destruct (k_sides _ _ _ _ _ _ Hq Hr). Qed.
Lemma loose_other p p' q : p' ≠ p → mine p' q → ¬ loose p q.
Proof.
  intros Hp Hm [Hm'|(q' & d & Hr)]; [by destruct Hp; eapply mine_inj|]. by destruct (k_root_named _ _ _ Hr p').
Qed.

(** Names are removed. *)
Lemma step_remove p w w' :
  cache_inv w → w_data w' = w_data w →
  (∀ q e, w_names w' !! q = Some e → w_names w !! q = Some e) →
  (∀ q, ¬ loose p q → w_names w' !! q = w_names w !! q) → allowed p w w'.
Proof.
  intros [I1 I2 I3 I4] Hd Hsub Hkeep.
  assert (Hc : ∀ q c, content q w' = Some c → content q w = Some c).
  { intros q c. unfold content. rewrite Hd. destruct (w_names w' !! q) as [[]|] eqn:Hq; [|done..]. by rewrite (Hsub _ _ Hq). }
  split; [|split]; [split| |].
  - intros q1 q2 i H1 H2. eapply I1; by apply Hsub.
  - intros q i Hq. rewrite Hd. by eapply I2, Hsub.
  - intros q s d Hq Hx. by eapply I3, Hsub.
  - intros q s d c x Hq Hs Hst Hx. exact (I4 q s d c x Hq (Hc _ _ Hs) Hst (Hc _ _ Hx)).
  - split; [intros q d Hq|intros q s d Hq|intros q s d x _ Hx; left; by apply Hc|by rewrite Hd]; unfold good, rooted.
    + rewrite (content_names w w') by (done || by apply Hkeep, (loose_pin _ _ _ Hq)). done.
    + rewrite (content_names w w') by (done || by apply Hkeep, (loose_root _ _ _ _ Hq)). done.
  - intros p' Hp. split; [|by rewrite Hd| |by rewrite Hd].
    + intros q Hq. by eapply Hkeep, loose_other.
    + intros q s d i Hq _ Ho x Hx. by apply Ho, Hsub.
Qed.

(** A name is made, for a new empty file or a directory. *)
Lemma step_dir p q w w' :
  cache_inv w → mine p q → w_names w !! q = None → w_data w' = w_data w →
  w_names w' = <[q := Directory]> (w_names w) → allowed p w w'.
Proof.
  intros [I1 I2 I3 I4] Hm Hq Hd Hn.
  assert (Hne : ∀ x i, w_names w' !! x = Some (File i) → w_names w !! x = Some (File i)).
  { intros x i. rewrite Hn. destruct (decide (x = q)) as [->|Hx]; [by rewrite lookup_insert_eq|by rewrite lookup_insert_ne]. }
  assert (Hc : ∀ x, content x w' = content x w).
  { intros x. unfold content. rewrite Hn, Hd. destruct (decide (x = q)) as [->|Hx];
      [by rewrite lookup_insert_eq, Hq|by rewrite lookup_insert_ne]. }
  split; [|split]; [split| |].
  - intros q1 q2 i H1 H2. eapply I1; by apply Hne.
  - intros x i Hx. rewrite Hd. by eapply I2, Hne.
  - intros x s d Hx. rewrite Hn, lookup_insert_ne; [by eapply I3|]. intros ->. by destruct (k_root_named _ _ _ Hx p).
  - intros x s d c y. rewrite !Hc. apply I4.
  - split; [intros x d _|intros x s d _|intros x s d y _|by rewrite Hd]; unfold good, rooted; rewrite ?Hc; auto.
  - intros p' Hp. split; [|by rewrite Hd| |by rewrite Hd].
    + intros x Hx. rewrite Hn, lookup_insert_ne; [done|]. intros ->. by destruct Hp; eapply mine_inj.
    + intros x s d i Hx _ Ho y Hy. by apply Ho, Hne.
Qed.
Lemma step_new p q w w' :
  cache_inv w → loose p q → w_names w !! q = None → w_names w' = <[q := File (new_inode w)]> (w_names w) →
  w_data w' = <[new_inode w := []]> (w_data w) → allowed p w w'.
Proof.
  intros [I1 I2 I3 I4] Hl Hq Hn Hd. set (i := new_inode w) in *.
  assert (Hi : w_data w !! i = None) by apply new_inode_free.
  assert (Hfree : ∀ x, w_names w !! x ≠ Some (File i)).
  { intros x Hx. destruct (I2 _ _ Hx) as [c Hc]. congruence. }
  assert (Hdata : ∀ j, is_Some (w_data w !! j) → w_data w' !! j = w_data w !! j).
  { intros j [c Hj]. rewrite Hd, lookup_insert_ne; [done|]. intros <-. congruence. }
  assert (Hkeep : ∀ x, x ≠ q → w_names w' !! x = w_names w !! x).
  { intros x Hx. by rewrite Hn, lookup_insert_ne. }
  assert (Hc : ∀ x, x ≠ q → content x w' = content x w).
  { intros x Hx. unfold content. rewrite Hkeep by done. destruct (w_names w !! x) as [[j|]|] eqn:Hj; [|done..]. by eapply Hdata, I2. }
  assert (Hq' : content q w' = Some []).
  { unfold content. by rewrite Hn, lookup_insert_eq, Hd, lookup_insert_eq. }
  split; [|split]; [split| |].
  - intros q1 q2 j. rewrite Hn, !lookup_insert_Some. intros [[<- [= <-]]|[_ H1]] [[<- H2]|[_ H2]]; [done|by destruct (Hfree q2)| |by eapply I1].
    injection H2 as <-. by destruct (Hfree q1).
  - intros x j. rewrite Hn, lookup_insert_Some. intros [[<- [= <-]]|[_ Hj]]; [by rewrite Hd, lookup_insert_eq|].
    rewrite Hdata; by eapply I2.
  - intros x s d Hx. rewrite Hkeep; [by eapply I3|]. intros ->. by eapply loose_root.
  - intros x s d c y Hx. rewrite (Hc x) by (intros ->; by eapply loose_root).
    destruct (decide (s = q)) as [->|Hs]; [rewrite Hq'; by intros [= <-]|]. rewrite (Hc s) by done. by apply I4.
  - split.
    + intros x d Hx. unfold good. by rewrite Hc by (intros ->; by eapply loose_pin).
    + intros x s d Hx. unfold rooted. by rewrite Hc by (intros ->; by eapply loose_root).
    + intros x s d y Hx. rewrite Hc by (intros ->; by eapply loose_root). by left.
    + intros j Hj. by rewrite Hdata.
  - intros p' Hp. split.
    + intros x Hx. apply Hkeep. intros ->. by eapply loose_other.
    + intros x j _ Hx. eapply Hdata, I2, Hx.
    + intros x s d j Hx Hj Ho y. rewrite Hn, lookup_insert_Some. intros [[<- [= <-]]|[_ Hy]]; [|by apply Ho].
      destruct Hj. congruence.
    + intros j Hj. by rewrite Hdata.
Qed.

(** A file is written to: one that [p] made and has not moved away, or a sidecar. *)
Lemma step_written p i f w w' :
  cache_inv w → w_names w' = w_names w → w_data w' = alter f i (w_data w) →
  ((∃ q, mine p q ∧ w_names w !! q = Some (File i)) ∨
   (∃ q s d, k_root K q s d ∧ only_at s i w ∧ (rooted q d w ∨ ∀ c, f c = []))) → allowed p w w'.
Proof.
  intros [I1 I2 I3 I4] Hn Hd Hi.
  assert (Hgrow : ∀ j, is_Some (w_data w !! j) → is_Some (w_data w' !! j)).
  { intros j. rewrite Hd. destruct (decide (j = i)) as [->|Hj]; [rewrite lookup_alter_eq|by rewrite lookup_alter_ne].
    intros [c ->]. by eexists. }
  assert (Hat : ∀ x, ¬ loose p x → w_names w !! x ≠ Some (File i)).
  { intros x Hx Hxi. destruct Hi as [(q & Hm & Hq)|(q & s & d & Hr & Ho & _)].
    - apply Hx. rewrite (I1 x q i) by done. by left.
    - apply Hx. rewrite (Ho x) by done. right. by exists q, d. }
  assert (Hc : ∀ x, w_names w !! x ≠ Some (File i) → content x w' = content x w).
  { intros x Hx. unfold content. rewrite Hn, Hd. destruct (w_names w !! x) as [[j|]|]; [|done..].
    rewrite lookup_alter_ne; [done|]. intros ->. done. }
  split; [|split]; [split| |].
  - intros q1 q2 j. rewrite Hn. apply I1.
  - intros q j. rewrite Hn. intros Hq. by eapply Hgrow, I2.
  - intros q s d. rewrite Hn. apply I3.
  - intros q s d c x Hr. rewrite (Hc q) by (by eapply Hat, loose_root).
    destruct (decide (w_names w !! s = Some (File i))) as [Hs|Hs]; [|rewrite (Hc s) by done; by apply I4].
    intros Hcs Hst Hx. destruct Hi as [(q' & Hm & Hq')|(q' & s' & d' & Hr' & Ho & Hok)].
    { destruct (k_root_named _ _ _ Hr p) as [_ []]. by rewrite (I1 s q' i). }
    assert (s = s') as -> by (by apply Ho). destruct (k_side_fun _ _ _ _ _ Hr Hr') as [<- <-].
    destruct Hok as [(y & Hy & Hun)|Hf]; [by simplify_eq|]. exfalso.
    unfold content in Hcs. rewrite Hn, Hs, Hd, lookup_alter_eq in Hcs. destruct (w_data w !! i); [|done].
    simpl in Hcs. rewrite Hf in Hcs. by injection Hcs as <-.
  - split; [| | |done].
    + intros q d Hq. unfold good. by rewrite Hc by (by eapply Hat, loose_pin).
    + intros q s d Hq. unfold rooted. by rewrite Hc by (by eapply Hat, loose_root).
    + intros q s d x Hq. rewrite Hc by (by eapply Hat, loose_root). by left.
  - intros p' Hp. split; [by rewrite Hn| |unfold only_at; by rewrite Hn|done].
    intros q j Hq Hj. rewrite Hd, lookup_alter_ne; [done|]. intros ->. by eapply Hat, Hj; eapply loose_other.
Qed.

(** A file that [p] made is renamed: to another name of its own, to a pinned path
    it is good for, or to a disk it was unpacked for. *)
Definition may_become (p : nat) (q : path) (c : bytes) : Prop :=
  mine p q ∨ (∃ d, k_pin K q d ∧ matches c d) ∨ (∃ s d, k_root K q s d ∧ unpacked c d).
Lemma may_become_side p q c : may_become p q c → ¬ is_side q.
Proof.
  intros Hq (x & d & Hr). destruct Hq as [Hq|[(d' & Hq & _)|(s' & d' & Hq & _)]];
    [by destruct (k_root_named _ _ _ Hr p)|by destruct (k_apart _ _ _ _ _ Hq Hr)|by destruct (k_sides _ _ _ _ _ _ Hq Hr)].
Qed.
Lemma may_become_pin p q c d : may_become p q c → k_pin K q d → matches c d.
Proof.
  intros Hq Hx. destruct Hq as [Hq|[(d' & Hq & ?)|(s' & d' & Hq & _)]];
    [by destruct (k_named _ _ Hx p)|by rewrite (k_pin_fun _ _ _ Hx Hq)|by destruct (k_apart _ _ _ _ _ Hx Hq)].
Qed.
Lemma may_become_root p q s c d : may_become p q c → k_root K q s d → unpacked c d.
Proof.
  intros Hq Hx. destruct Hq as [Hq|[(d' & Hq & _)|(s' & d' & Hq & ?)]];
    [by destruct (k_root_named _ _ _ Hx p)|by destruct (k_apart _ _ _ _ _ Hq Hx)|by destruct (k_root_fun _ _ _ _ _ Hx Hq) as [_ ->]].
Qed.
Lemma step_rename p a b i c w w' :
  cache_inv w → mine p a → w_names w !! a = Some (File i) → w_data w !! i = Some c → may_become p b c →
  w_names w' = <[b := File i]> (delete a (w_names w)) → w_data w' = w_data w → allowed p w w'.
Proof.
  intros [I1 I2 I3 I4] Ha Hai Hic Hb Hn Hd.
  assert (Hb' : content b w' = Some c) by (unfold content; by rewrite Hn, lookup_insert_eq, Hd).
  assert (Hkeep : ∀ x, x ≠ a → x ≠ b → w_names w' !! x = w_names w !! x).
  { intros x Hxa Hxb. by rewrite Hn, lookup_insert_ne, lookup_delete_ne. }
  assert (Hc : ∀ x, x ≠ a → x ≠ b → content x w' = content x w) by (intros x Hxa Hxb; apply content_names; auto).
  assert (Hin : ∀ x j, w_names w' !! x = Some (File j) → (x = b ∧ j = i) ∨ (x ≠ b ∧ x ≠ a ∧ w_names w !! x = Some (File j))).
  { intros x j. rewrite Hn, lookup_insert_Some, lookup_delete_Some. intros [[<- [= <-]]|(Hx & Hxa & Hj)]; [by left|by right]. }
  assert (Hpa : ∀ x d, k_pin K x d → x ≠ a) by (intros x d Hx ->; by eapply k_named).
  assert (Hra : ∀ x s d, k_root K x s d → x ≠ a ∧ s ≠ a).
  { intros x s d Hx. destruct (k_root_named _ _ _ Hx p). split; by intros ->. }
  split; [|split]; [split| |].
  - intros q1 q2 j H1 H2. destruct (Hin _ _ H1) as [[-> ->]|(N1 & A1 & H1')], (Hin _ _ H2) as [[-> E]|(N2 & A2 & H2')]; [done|..].
    + by destruct A2; eapply I1. + subst. by destruct A1; eapply I1. + by eapply I1.
  - intros x j Hx. rewrite Hd. destruct (Hin _ _ Hx) as [[-> ->]|(_ & _ & Hj)]; [by rewrite Hic|by eapply I2].
  - intros x s d Hx. destruct (decide (x = b)) as [->|Hxb]; [by rewrite Hn, lookup_insert_eq|].
    rewrite Hkeep by (by destruct (Hra _ _ _ Hx)). by eapply I3.
  - intros x s d c' y Hx. destruct (Hra _ _ _ Hx) as [Hxa Hsa].
    assert (s ≠ b) by (intros ->; eapply may_become_side; [exact Hb|by exists x, d]). rewrite (Hc s) by done. intros Hs Hst Hy.
    destruct (decide (x = b)) as [->|Hxb]; [|rewrite Hc in Hy by done; by eapply I4].
    rewrite Hb' in Hy. injection Hy as <-. by eapply may_become_root.
  - split; [| | |by rewrite Hd].
    + intros x d Hx. destruct (decide (x = b)) as [->|Hxb]; [intros _; exists c; split; [done|by eapply may_become_pin]|].
      unfold good. by rewrite Hc by eauto.
    + intros x s d Hx. destruct (decide (x = b)) as [->|Hxb]; [intros _; exists c; split; [done|by eapply may_become_root]|].
      unfold rooted. rewrite Hc; [done| |done]. by destruct (Hra _ _ _ Hx).
    + intros x s d y Hx. destruct (decide (x = b)) as [->|Hxb].
      * rewrite Hb'. intros [= <-]. right. by eapply may_become_root.
      * rewrite Hc; [by left| |done]. by destruct (Hra _ _ _ Hx).
  - intros p' Hp. split; [|by rewrite Hd| |by rewrite Hd].
    + intros x Hx. apply Hkeep; intros ->; [by destruct Hp; eapply mine_inj|].
      destruct Hb as [Hb|[(d & Hb & _)|(s & d & Hb & _)]];
        [by destruct Hp; eapply mine_inj|by eapply k_named|by destruct (k_root_named _ _ _ Hb p')].
    + intros x s d j Hx _ Ho y Hy. destruct (Hin _ _ Hy) as [[-> ->]|(_ & _ & Hj)]; [|by apply Ho].
      destruct (k_root_named _ _ _ Hx p) as [_ []]. by rewrite <- (Ho a Hai).
Qed.

(** *** Rules for the effects *)
Abbreviation rgi := (rg (perform V) cache_inv shared private).

Lemma rgi_mono p {A} (m : prog A) (Q Q' : A → world → Prop) w :
  rgi p m Q w → (∀ x w', shared w w' → Q x w' → Q' x w') → rgi p m Q' w.
Proof. apply rg_mono; apply _. Qed.
Lemma rgi_finally p {A} (m : prog A) f (Q : A → world → Prop) w :
  rgi p m Q w → (∀ x w', Q x w' → rgi p f (λ _, Q x) w') → (∀ w', rgi p f (λ _ _, True) w') → rgi p (pfinally m f) Q w.
Proof. apply rg_finally; apply _. Qed.
Lemma allowed_trans p w1 w2 w3 : allowed p w1 w2 → allowed p w2 w3 → allowed p w1 w3.
Proof.
  intros (_ & S1 & P1) (I2 & S2 & P2). split; [done|]. split; [by etrans|]. intros p' Hp. etrans; [by apply P1|by apply P2].
Qed.
Lemma allowed_tick p w w' : allowed p w w' → allowed p w (tick w').
Proof. intros Ha. eapply allowed_trans; [exact Ha|]. apply step_none; [by destruct Ha|done..]. Qed.
Lemma private_same p w w' : w_names w' = w_names w → w_data w' = w_data w → private p w w'.
Proof. intros Hn Hd. split; unfold only_at; rewrite ?Hn, ?Hd; auto. Qed.

Lemma rg_effect p a (Q : reply a → world → Prop) w :
  (∀ w1, cache_inv w1 → shared w w1 → private p w w1 → ∀ w2 r, effect V p a w1 = (w2, r) →
    allowed p w1 w2 ∧ match r with Ok x => Q x (tick w2) | Err _ => True end) → rgi p (act a) Q w.
Proof.
  intros Ha. apply rg_act. intros w1 Hi [Hs Hp] w2 r. unfold perform.
  destruct (effect V p a w1) as [w3 r3] eqn:He. destruct (Ha w1 Hi Hs Hp w3 r3 He) as [Hal Hr].
  destruct (e_fault V (w_clock w1)) as [[[] e]|]; simpl; intros [= <- <-]; (split; [apply allowed_tick|by destruct r3 || done]); [done|by apply step_none|done].
Qed.
(** An effect that changes nothing. *)
Definition quiet (a : action) : bool :=
  match a with Mkdir _ | Uuid | Read _ | IsFile _ | IsDir _ | Get _ | Zstd _ | Native | Progress _ _ _ => true | _ => false end.
Lemma rg_quiet p a (Q : reply a → world → Prop) w :
  quiet a = true →
  (∀ w1 x, cache_inv w1 → shared w w1 → private p w w1 → effect V p a w1 = (w1, Ok x) → Q x (tick w1)) → rgi p (act a) Q w.
Proof.
  intros Hq HQ. apply rg_effect. intros w1 Hi Hs Hp w2 r He.
  assert (w2 = w1) as ->.
  { destruct a; simpl in *; try done; repeat case_match; by simplify_eq. }
  split; [by apply step_none|]. destruct r as [x|]; [|done]. by eapply HQ.
Qed.
Lemma rg_any p a w : quiet a = true → rgi p (act a) (λ _ _, True) w.
Proof. intros Hq. by apply rg_quiet. Qed.

(** A file of its own: its name, its inode and its bytes. *)
Definition holds (p : nat) (q : path) (i : nat) (c : bytes) (w : world) : Prop :=
  mine p q ∧ w_names w !! q = Some (File i) ∧ w_data w !! i = Some c.
Lemma holds_private p q i c w w' : holds p q i c w → private p w w' → holds p q i c w'.
Proof.
  intros (Hm & Hn & Hd) Hp. split; [done|]. split; [by rewrite (pr_names _ _ _ Hp)|]. by rewrite (pr_data _ _ _ Hp q i).
Qed.
Lemma holds_tick p q i c w : holds p q i c w → holds p q i c (tick w).
Proof. done. Qed.
Lemma rg_quiet_holds p a q i c w : quiet a = true → holds p q i c w → rgi p (act a) (λ _, holds p q i c) w.
Proof. intros Ha Hh. apply rg_quiet; [done|]. intros w1 x _ _ Hp _. apply holds_tick. by eapply holds_private. Qed.

Lemma rg_write p q i c o b w : holds p q i c w → rgi p (act (Write i o b)) (λ _, holds p q i (write_at o b c)) w.
Proof.
  intros Hh. apply rg_effect. intros w1 Hi _ Hp w2 r [= <- <-].
  destruct (holds_private _ _ _ _ _ _ Hh Hp) as (Hm & Hn & Hd). split.
  - eapply step_written; [done..|]. left. by exists q.
  - apply holds_tick. split; [done|]. split; [done|]. simpl. by rewrite lookup_alter_eq, Hd.
Qed.
Lemma rg_truncate p q i c n w : holds p q i c w → rgi p (act (Truncate i n)) (λ _, holds p q i (truncate n c)) w.
Proof.
  intros Hh. apply rg_effect. intros w1 Hi _ Hp w2 r [= <- <-].
  destruct (holds_private _ _ _ _ _ _ Hh Hp) as (Hm & Hn & Hd). split.
  - eapply step_written; [done..|]. left. by exists q.
  - apply holds_tick. split; [done|]. split; [done|]. simpl. by rewrite lookup_alter_eq, Hd.
Qed.
Lemma rg_rename p a b i c w :
  holds p a i c w → may_become p b c →
  rgi p (act (Rename a b)) (λ _ w', content b w' = Some c ∧ (mine p b → holds p b i c w')) w.
Proof.
  intros Hh Hb. apply rg_effect. intros w1 Hi _ Hp w2 r. simpl.
  destruct (holds_private _ _ _ _ _ _ Hh Hp) as (Hm & Hn & Hd). rewrite Hn.
  assert (Hal : allowed p w1 (set_names (<[b := File i]> (delete a (w_names w1))) w1)) by (by eapply step_rename).
  assert (Hno : allowed p w1 w1) by (by apply step_none).
  destruct (w_names w1 !! b) as [[]|]; intros [= <- <-]; (split; [done|]); simpl; try done;
    unfold content, holds; simpl; rewrite lookup_insert_eq; auto.
Qed.
Lemma holds_new p q w : mine p q → holds p q (new_inode w) [] (tick (new_file q w)).
Proof. intros Hm. split; [done|]. simpl. by rewrite !lookup_insert_eq. Qed.
Lemma rg_mkstemp p d w :
  rgi p (act (Mkstemp d)) (λ r, holds p (At d (Random TmpFile r.1)) r.2 []) w.
Proof.
  apply rg_effect. intros w1 Hi _ _ w2 r. simpl. destruct (_ !! _) eqn:Hq; intros [= <- <-].
  - split; [by apply step_none|done].
  - split; [|by apply holds_new]. eapply step_new; [done| |exact Hq|done..]. by left.
Qed.
Lemma rg_mkdtemp p d w : rgi p (act (Mkdtemp d)) (λ t _, t.1 = p) w.
Proof.
  apply rg_effect. intros w1 Hi _ _ w2 r. simpl. destruct (_ !! _) eqn:Hq; intros [= <- <-].
  - split; [by apply step_none|done].
  - split; [|done]. by eapply step_dir; [done| |exact Hq|..].
Qed.
Lemma rg_open_excl p q w : mine p q → rgi p (act (OpenExcl q)) (λ fd, holds p q fd []) w.
Proof.
  intros Hm. apply rg_effect. intros w1 Hi _ _ w2 r. simpl. destruct (_ !! _) eqn:Hq; intros [= <- <-].
  - split; [by apply step_none|done].
  - split; [|by apply holds_new]. eapply step_new; [done| |exact Hq|done..]. by left.
Qed.
Lemma rg_read p q w : rgi p (act (Read q)) (λ c w', content q w' = Some c ∧ shared w w' ∧ private p w w') w.
Proof.
  apply rg_quiet; [done|]. intros w1 x Hi Hs Hp. simpl. destruct (w_names w1 !! q) as [[i|]|] eqn:Hq; intros [= <-].
  destruct (ci_data _ Hi _ _ Hq) as [c Hc]. rewrite Hc. simpl. split; [unfold content; simpl; by rewrite Hq|].
  split; (etrans; [eassumption|]); [by apply (step_none p)|by apply private_same].
Qed.

(** Removing a name of its own or a sidecar; what it holds elsewhere stays. *)
Definition removal (a : action) (q : path) : Prop := a = Unlink q ∨ a = Rmtree q.
Lemma removal_effect p a q w w' r :
  removal a q → effect V p a w = (w', r) →
  w_data w' = w_data w ∧ (∀ x e, w_names w' !! x = Some e → w_names w !! x = Some e)
  ∧ ∀ x, x ≠ q → ¬ below q x → w_names w' !! x = w_names w !! x.
Proof.
  intros [-> | ->] He; simpl in He; destruct (w_names w !! q) as [[]|]; simplify_eq; simpl; try done; split_and!; try done.
  - intros x e Hx. apply lookup_delete_Some in Hx. naive_solver.
  - intros x Hx _. by rewrite lookup_delete_ne.
  - intros x e Hx. apply map_lookup_filter_Some in Hx. naive_solver.
  - intros x Hx Hb. destruct (w_names w !! x) eqn:E; [by apply map_lookup_filter_Some_2|].
    apply map_lookup_filter_None_2. by left.
Qed.
Lemma below_loose p q x : loose p q → below q x → mine p x.
Proof.
  intros [Hm|(y & d & Hr)]; destruct q as [e [s|[] t]|e t], x as [|e' t']; simpl; try done.
  - by intros [_ ->]. - intros [_ ->]. by destruct (k_root_named _ _ _ Hr t.1) as [_ []].
Qed.
Lemma perform_remove p a q w w' r :
  removal a q → loose p q → cache_inv w → perform V p a w = (w', r) →
  allowed p w w' ∧ ∀ b i c, b ≠ q → ¬ below q b → holds p b i c w → holds p b i c w'.
Proof.
  intros Ha Hl Hi. unfold perform. destruct (effect V p a w) as [w2 r2] eqn:He.
  assert (Hno : allowed p w (tick w)) by (by apply step_none).
  assert (Hyes : allowed p w (tick w2) ∧ ∀ b i c, b ≠ q → ¬ below q b → holds p b i c w → holds p b i c (tick w2)).
  { destruct (removal_effect p a q w w2 r2 Ha He) as (Hd & Hsub & Hkeep). split.
    - apply allowed_tick, step_remove; [done..|]. intros x Hx. apply Hkeep; [by intros ->|].
      intros Hb. apply Hx. left. by eapply below_loose.
    - intros b i c Hb Hbb (Hm & Hn & Hc). split; [done|]. simpl. rewrite Hkeep by done. by rewrite Hd. }
  destruct (e_fault V (w_clock w)) as [[[] e]|]; simpl; intros [= <- <-]; [done|by split|done].
Qed.
Lemma rg_remove p a q w :
  removal a q → loose p q → rgi p (act a) (λ _ w', ∀ b i c, b ≠ q → ¬ below q b → holds p b i c w → holds p b i c w') w.
Proof.
  intros Ha Hl. apply rg_act. intros w1 Hi [_ Hp] w2 r He. destruct (perform_remove p a q w1 w2 r) as [Hal Hw]; [done..|].
  split; [done|]. destruct r; [|done]. intros b i c Hb Hbb Hh. apply Hw; [done..|]. by eapply holds_private.
Qed.
Lemma perform_side p a q s d w w' r :
  removal a s → k_root K q s d → cache_inv w → perform V p a w = (w', r) → allowed p w w' ∧ private p w w'.
Proof.
  intros Ha Hr Hi. assert (Hl : loose p s) by (right; by exists q, d).
  assert (Hns : ∀ x, mine p x → x ≠ s ∧ ¬ below s x).
  { intros x Hx. split; [intros ->; by destruct (k_root_named _ _ _ Hr p)|]. intros Hb.
    destruct s as [e [s|[] t]|e t], x as [|e' t']; simpl in *; try done.
    by destruct (k_root_named _ _ _ Hr t.1) as [_ []]. }
  intros Hp. destruct (perform_remove p a s w w' r Ha Hl Hi Hp) as [Hal _]. split; [done|]. unfold perform in Hp.
  destruct (effect V p a w) as [w2 r2] eqn:He. destruct (removal_effect p a s w w2 r2 Ha He) as (Hd & Hsub & Hkeep).
  assert (Hyes : private p w (tick w2)).
  { split; simpl; rewrite ?Hd; try done.
    - intros x Hx. by apply Hkeep; apply Hns.
    - intros x s' d' i _ _ Ho y Hy. by apply Ho, Hsub. }
  destruct (e_fault V (w_clock w)) as [[[] e]|]; simpl in Hp; injection Hp as <- _; [done|by apply private_same|done].
Qed.
Abbreviation rgir := (rgr (perform V) cache_inv shared private).
Lemma rgr_side p a q s d w : removal a s → k_root K q s d → rgir p (act a) (λ _, private p w) w.
Proof.
  intros Ha Hr. apply rgr_act. intros w1 Hi [_ Hp] w2 r He. destruct (perform_side p a q s d w1 w2 r) as [Hal Hw]; [done..|].
  split; [done|]. by etrans.
Qed.
Lemma rgr_quiet p a w : quiet a = true → rgir p (act a) (λ _, private p w) w.
Proof.
  intros Hq. apply rgr_act. intros w1 Hi [_ Hp] w2 r He.
  assert (Hw : w_names w2 = w_names w1 ∧ w_data w2 = w_data w1).
  { unfold perform in He. assert ((effect V p a w1).1 = w1) as Ha.
    { clear He r. destruct a; simpl in *; try done; by destruct (w_names w1 !! q) as [[]|]. }
    destruct (effect V p a w1) as [w3 r3]; simpl in *; subst. destruct (e_fault _ _) as [[[] ?]|]; by injection He as <- _. }
  destruct Hw. split; [by apply step_none|]. etrans; [exact Hp|by apply private_same].
Qed.

(** *** Downloads *)
Import Manager.
(** A callback leaves the files of its process alone. *)
Definition gentle (p : nat) {S} (cb : option (callback S)) : Prop :=
  ∀ f s n t w, cb = Some f → rgi p (f s n t) (λ _, private p w) w.
Lemma rg_report p {S} (cb : option (callback S)) s n t q i c w :
  gentle p cb → holds p q i c w → rgi p (report cb s n t) (λ _, holds p q i c) w.
Proof.
  intros Hcb Hh. destruct cb as [f|]; simpl; [|done]. eapply rgi_mono; [by apply (Hcb f)|].
  intros s' w' _ Hp. by eapply holds_private.
Qed.
Lemma write_at_end b c : write_at (length c) b c = c ++ b.
Proof.
  unfold write_at. rewrite Nat.sub_diag. simpl. rewrite app_nil_r, take_ge by done. rewrite drop_ge by lia. by rewrite app_nil_r.
Qed.
Lemma rg_write_chunks p {S} (cb : option (callback S)) q fd total l : gentle p cb →
  ∀ s c w, holds p q fd c w → rgi p (write_chunks fd (length c) cb total l s) (λ _, holds p q fd (c ++ concat l)) w.
Proof.
  intros Hcb. induction l as [|b l IH]; intros s c w Hh; simpl; [by rewrite app_nil_r|].
  apply rg_bind. eapply rgi_mono; [by apply rg_write|]. intros [] w1 _ H1. rewrite write_at_end in H1.
  apply rg_bind. eapply rgi_mono; [by apply (rg_report p cb s _ _ q fd (c ++ b))|]. intros s2 w2 _ H2.
  rewrite <- length_app. rewrite app_assoc. by apply IH.
Qed.
Lemma rg_fetch p {S} (cb : option (callback S)) url q fd s w :
  gentle p cb → holds p q fd [] w → rgi p (fetch url fd cb s) (λ r, holds p q fd r.1) w.
Proof.
  intros Hcb Hh. unfold fetch. apply rg_bind. eapply rgi_mono; [by apply (rg_quiet_holds p _ q fd [])|]. intros [m|r] w1 _ H1; [done|].
  destruct (rs_status r); [done|]. apply rg_bind. eapply rgi_mono; [by apply (rg_write_chunks p cb q fd _ _ Hcb s [])|].
  intros s2 w2 _ H2. by destruct (rs_cut r).
Qed.
Lemma rg_unlink p q w : loose p q → rgi p (unlink_missing_ok q) (λ _ _, True) w.
Proof.
  intros Hl. apply rg_try; [|by intros []]. eapply rgi_mono; [eapply rg_remove; [by left|done]|done].
Qed.
(** A download that returns leaves a good file. *)
Lemma rg_download p {S} (cb : option (callback S)) url dir file pin s w :
  gentle p cb → k_pin K (At dir (Named file)) pin →
  rgi p (_download_file url dir file (Some pin) cb s) (λ _, good (At dir (Named file)) pin) w.
Proof.
  intros Hcb Hpin. unfold _download_file. apply rg_bind. unfold _reject_blank_digest. simpl.
  assert (Hgo : rgi p (do* act (Mkdir dir) in let* t := act (Mkstemp dir) in
    pfinally (ptry (let* r := fetch url t.2 cb s in do* check_download url (Some (lower (strip pin))) r.1 in
                    do* act (Rename (At dir (Random TmpFile t.1)) (At dir (Named file))) in pret r.2)
       (λ e, match e with RequestException m => praise (ImageError ("Download failed for " +:+ url +:+ ": " +:+ m)) | _ => praise e end))
      (unlink_missing_ok (At dir (Random TmpFile t.1)))) (λ _, good (At dir (Named file)) pin) w).
  2: { destruct (lower (strip pin)); [done|exact Hgo]. }
  apply rg_bind. eapply rgi_mono; [by apply rg_any|]. intros [] w1 _ _.
  apply rg_bind. eapply rgi_mono; [apply rg_mkstemp|]. intros [t fd] w2 _ H2. simpl in *. apply rgi_finally.
  - apply rg_try; [|by intros []]. apply rg_bind. eapply rgi_mono; [by eapply rg_fetch|]. intros [c s'] w3 _ H3. simpl in *.
    apply rg_bind. case_bool_decide as Hc; [|done]. apply rg_ret. apply rg_bind.
    eapply rgi_mono; [eapply rg_rename; [exact H3|]|].
    + right. left. by exists pin.
    + intros [] w4 _ [H4 _]. by exists c.
  - intros s' w' Hg. eapply rgi_mono; [apply rg_unlink; left; by destruct H2|]. intros [] w3 Hs _. by eapply sh_pin.
  - intros w'. apply rg_unlink. left. by destruct H2.
Qed.
Lemma rg_verify p q pin w : rgi p (_verify_sha256 q (Some pin)) (λ b w', b = true → good q pin w') w.
Proof.
  unfold _verify_sha256, verify_digest. simpl. apply rg_bind. eapply rgi_mono; [apply rg_read|].
  intros c w' _ (Hc & _). apply rg_ret. rewrite bool_decide_eq_true. intros Hm. by exists c.
Qed.
Lemma good_shared q pin w w' : k_pin K q pin → shared w w' → good q pin w → good q pin w'.
Proof. intros Hq Hs. by apply Hs. Qed.

Lemma rg_cache_ok p source kernel rootfs kpin rpin w :
  kernel_sha256 source = Some kpin → rootfs_sha256 source = Some rpin → k_pin K kernel kpin →
  rgi p (cache_ok source kernel None rootfs) (λ b w', b = true → good kernel kpin w' ∧ good rootfs rpin w') w.
Proof.
  intros Hk Hr Hp. unfold cache_ok. apply rg_bind, rg_ret, rg_bind. eapply rgi_mono with (Q := λ _ _, True).
  { unfold pand. apply rg_bind. eapply rgi_mono; [by apply rg_any|]. intros [] w1 _ _; [|done].
    apply rg_bind. eapply rgi_mono; [by apply rg_any|]. by intros [] w2 _ _. }
  intros [] w1 _ _; [|done]. rewrite Hk, Hr.
  apply rg_bind. eapply rgi_mono; [apply rg_verify|]. intros kok w2 _ H2. apply rg_bind, rg_ret.
  apply rg_bind. eapply rgi_mono; [apply rg_verify|]. intros rok w3 Hs3 H3. apply rg_ret.
  destruct kok, rok; simpl; try done. intros _. split; [|by apply H3]. eapply good_shared; [done|exact Hs3|by apply H2].
Qed.
(** An image without an initrd whose two files are pinned. *)
Lemma rg_ensure_image p {S} (cb : option (string → callback S)) registry cache_dir n source kpin rpin s w :
  registry !! n = Some source → initrd_url source = None →
  kernel_sha256 source = Some kpin → rootfs_sha256 source = Some rpin →
  let at' f := At (join cache_dir n) (Named f) in
  k_pin K (at' (kernel_filename source)) kpin → k_pin K (at' (rootfs_filename source)) rpin →
  (∀ f label, cb = Some f → gentle p (Some (f label))) →
  rgi p (ensure_image registry cache_dir n cb s)
    (λ l w', l_name l = n ∧ kernel_path l = at' (kernel_filename source) ∧ initrd_path l = None
      ∧ rootfs_path l = at' (rootfs_filename source)
      ∧ good (kernel_path l) kpin w' ∧ good (rootfs_path l) rpin w') w.
Proof.
  intros Hreg Hini Hk Hr at' Hpk Hpr Hcb. unfold ensure_image. destruct (String.eqb n ""); [done|]. rewrite Hreg.
  assert (Hcb' : ∀ label, gentle p ((λ f, f label) <$> cb)).
  { intros label f. destruct cb as [g|]; [|done]. intros s' k t w'. by apply (Hcb g label eq_refl). }
  apply rg_bind. unfold _resolve_asset_paths. rewrite Hini. destruct (first_collision _ _) as [[[]]|]; [done|].
  destruct (list_find _ _) as [[? []]|]; [done|]. apply rg_ret. cbn [fmap option_fmap option_map].
  apply rg_bind. eapply rgi_mono; [by apply (rg_cache_ok p source _ _ kpin rpin)|]. intros [] w1 _ H1.
  - apply rg_ret. simpl. by destruct H1.
  - apply rg_bind. eapply rgi_mono; [by apply rg_any|]. intros [] w2 _ _. rewrite Hk, Hr.
    apply rg_bind. eapply rgi_mono; [by apply rg_download|]. intros s2 w3 _ H3. apply rg_bind, rg_ret.
    apply rg_bind. eapply rgi_mono; [by apply rg_download|]. intros s3 w4 Hs4 H4. apply rg_ret. simpl.
    split_and!; try done. by eapply good_shared.
Qed.

(** *** Unpacking *)
Lemma zeros_chunk b : Disk.is_zero_chunk b = true → b = replicate (length b) nul.
Proof.
  unfold Disk.is_zero_chunk. rewrite forallb_forall. intros Hb. symmetry. apply replicate_as_elem_of. split; [done|].
  intros x Hx. specialize (Hb x). rewrite <- list_elem_of_In, bool_decide_eq_true in Hb. auto.
Qed.
(** The file holds the text but for the zeros at its end. *)
Definition sparse (size : nat) (text c : bytes) : Prop :=
  length text = size ∧ length c ≤ size ∧ text = c ++ replicate (size - length c) nul.
Lemma sparse_zero size text c b : Disk.is_zero_chunk b = true → sparse size text c → sparse (size + length b) (text ++ b) c.
Proof.
  intros Hb (Hl & Hle & ->). split; [rewrite length_app; lia|]. split; [lia|].
  rewrite (zeros_chunk b Hb) at 1. rewrite <- app_assoc, <- replicate_add. do 2 f_equal. lia.
Qed.
Lemma sparse_write size text c b : sparse size text c → sparse (size + length b) (text ++ b) (write_at size b c).
Proof.
  intros (Hl & Hle & Ht). unfold write_at. rewrite <- Ht. rewrite take_ge by lia. rewrite drop_ge by lia. rewrite app_nil_r.
  split; [rewrite length_app; lia|]. split; [rewrite length_app; lia|].
  rewrite length_app, Hl, Nat.sub_diag. simpl. by rewrite app_nil_r.
Qed.
Lemma rg_write_sparse p q fd l : ∀ size text c w, holds p q fd c w → sparse size text c →
  rgi p (Disk.write_sparse fd size l) (λ size' w', ∃ c', holds p q fd c' w' ∧ sparse size' (text ++ concat l) c') w.
Proof.
  induction l as [|b l IH]; intros size text c w Hh Hs; simpl.
  { apply rg_ret. exists c. by rewrite app_nil_r. }
  apply rg_bind. unfold Disk._write_sparse_chunk. rewrite app_assoc. destruct (Disk.is_zero_chunk b) eqn:Hb.
  - apply rg_ret. eapply IH; [done|]. by apply sparse_zero.
  - eapply rgi_mono; [by apply rg_write|]. intros [] w1 _ H1. eapply IH; [exact H1|]. by apply sparse_write.
Qed.
Lemma rg_decode `{!ZstdLaw} p q fd z e pin w :
  holds p q fd [] w → matches z pin → rgi p (Disk.decode_into fd z e) (λ _ w', ∃ c, holds p q fd c w' ∧ unpacked c pin) w.
Proof.
  intros Hh Hz. unfold Disk.decode_into. apply rg_bind. apply rg_quiet; [done|]. intros w1 [l err] _ _ Hp He. simpl in He.
  apply rg_bind. eapply rgi_mono; [eapply (rg_write_sparse p q fd l 0 [] []); [by eapply holds_tick, holds_private|done]|].
  intros size w2 _ (c & Hc & Hl & Hle & Ht). simpl in Ht. destruct err; [done|]. simpl.
  eapply rgi_mono; [by apply rg_truncate|]. intros [] w3 _ H3. eexists. split; [exact H3|].
  unfold truncate. rewrite <- Ht. rewrite take_ge by (by rewrite <- Hl). exists z. split; [done|].
  injection He as He. by eapply zstd_whole.
Qed.
(** The staged file of an unpacking process. *)
Definition staged (p : nat) (q : path) (pin : string) (w : world) : Prop := ∃ i c, holds p q i c w ∧ unpacked c pin.
Lemma rg_drop_staged p dir t q dst u pin w a h : t.1 = p → q = At dir (Random DiskDir t) ∨ q = Inside dir t →
  removal a q → staged p (At dir (Random (Partial dst) u)) pin w →
  (∀ e w', staged p (At dir (Random (Partial dst) u)) pin w' → rgi p (h e) (λ _, staged p (At dir (Random (Partial dst) u)) pin) w') →
  rgi p (ptry (act a) h) (λ _, staged p (At dir (Random (Partial dst) u)) pin) w.
Proof.
  intros Ht Hq Ha (i & c & Hh & Hc) He. apply rgr_try, rgr_act. intros w1 Hi [_ Hp] w2 r Hr.
  destruct (perform_remove p a q w1 w2 r) as [Hal Hw]; [done| |done..|].
  { left. by destruct Hq as [-> | ->]. }
  assert (staged p (At dir (Random (Partial dst) u)) pin w2); [|split; [done|]; destruct r; [done|by apply He]].
  exists i, c. split; [|done]. apply Hw; [..|by eapply holds_private]; destruct Hq as [-> | ->]; simpl; naive_solver.
Qed.
Lemma rg_suppress_remove p a q w h : removal a q → loose p q → (∀ e w', rgi p (h e) (λ _ _, True) w') →
  rgi p (ptry (act a) h) (λ _ _, True) w.
Proof. intros Ha Hl Hh. apply rg_try; [|done]. eapply rgi_mono; [by eapply rg_remove|done]. Qed.
Lemma rg_stage_body `{!ZstdLaw} p z err pin dir t dst u w :
  t.1 = p → u.1 = p → matches z pin →
  rgi p (let* fd := act (OpenExcl (Inside dir t)) in do* Disk.decode_into fd z err in
         act (Rename (Inside dir t) (At dir (Random (Partial dst) u))))
    (λ _, staged p (At dir (Random (Partial dst) u)) pin) w.
Proof.
  intros Ht Hu Hz. apply rg_bind. eapply rgi_mono; [by apply rg_open_excl|]. intros fd w1 _ H1.
  apply rg_bind. eapply rgi_mono; [by eapply (rg_decode p (Inside dir t) fd z _ pin)|]. intros [] w2 _ (c & Hc & Hun).
  eapply rgi_mono; [eapply rg_rename; [exact Hc|by left]|]. intros [] w3 _ [_ H3]. exists fd, c. split; [by apply H3|done].
Qed.
Lemma rg_read_good p q pin w : k_pin K q pin → good q pin w → rgi p (act (Read q)) (λ z _, matches z pin) w.
Proof.
  intros Hq Hg. eapply rgi_mono; [apply rg_read|]. intros z w' _ (Hz & Hs & _).
  destruct (good_shared _ _ _ _ Hq Hs Hg) as (c & Hc & Hm). by simplify_eq.
Qed.
Lemma rg_python `{!ZstdLaw} p src pin dir dst u w :
  k_pin K src pin → good src pin w → u.1 = p →
  rgi p (Disk._python_decompress_zstd_sparse src dir (At dir (Random (Partial dst) u)))
    (λ _, staged p (At dir (Random (Partial dst) u)) pin) w.
Proof.
  intros Hsrc Hg Hu. unfold Disk._python_decompress_zstd_sparse. apply rg_bind.
  eapply rgi_mono; [apply rg_mkdtemp|]. intros t w1 Hs1 Ht. apply rgi_finally.
  - apply rg_bind. eapply rgi_mono; [by apply rg_open_excl|]. intros fd w2 Hs2 H2. apply rg_bind.
    eapply rgi_mono with (Q := λ z w', matches z pin ∧ holds p (Inside dir t) fd [] w').
    { eapply rgi_mono; [apply rg_read|]. intros z w' _ (Hz & Hs & Hp). split; [|exact (holds_private _ _ _ _ _ _ H2 Hp)].
      destruct (good_shared src pin w w') as (c & Hc & Hm); [done|by do 2 (etrans; [eassumption|])|done|]. by simplify_eq. }
    intros z w3 _ [Hz H3]. apply rg_bind. eapply rgi_mono; [by eapply (rg_decode p (Inside dir t) fd z _ pin)|]. intros [] w4 _ (c & Hc & Hun).
    eapply rgi_mono; [eapply rg_rename; [exact Hc|by left]|]. intros [] w5 _ [_ H5]. exists fd, c. split; [by apply H5|done].
  - intros [] w' (i & c & Hh & Hc). eapply rgi_mono; [eapply rg_remove; [by right|by left]|].
    intros [] w2 _ Hw. exists i, c. split; [|done]. apply Hw; [by intros [=]|by simpl; intros []|done].
  - intros w'. eapply rgi_mono; [eapply rg_remove; [by right|by left]|done].
Qed.
Lemma rg_native `{!ZstdLaw} p src pin dir dst u w :
  k_pin K src pin → good src pin w → u.1 = p →
  rgi p (Disk._native_decompress_zstd_sparse src dir (At dir (Random (Partial dst) u)))
    (λ _, staged p (At dir (Random (Partial dst) u)) pin) w.
Proof.
  intros Hsrc Hg Hu. unfold Disk._native_decompress_zstd_sparse. apply rg_bind.
  eapply rgi_mono; [by apply (rg_read_good p src pin)|]. intros z w0 _ Hz. apply rg_bind.
  eapply rgi_mono; [apply rg_mkdtemp|]. intros t w1 Hs1 Ht. apply rgi_finally.
  - by apply rg_stage_body.
  - intros [] w' Hw. apply rg_bind. eapply rgi_mono.
    + eapply rg_drop_staged; [exact Ht|by right|by left|exact Hw|]. intros e w2 Hw2. by destruct (is_oserror e).
    + intros [] w2 _ Hw2. eapply rg_drop_staged; [exact Ht|by left|by right|exact Hw2|]. intros e w3 Hw3. by destruct (is_oserror e).
  - intros w'. apply rg_bind. eapply rgi_mono.
    + eapply rg_suppress_remove; [by left|by left|]. intros e w2. by destruct (is_oserror e).
    + intros [] w2 _ _. eapply rg_suppress_remove; [by right|by left|]. intros e w3. by destruct (is_oserror e).
Qed.
Lemma rg_decompress_zstd `{!ZstdLaw} p src pin dir dst s w :
  k_pin K src pin → k_root K (At dir (Named dst)) s pin → good src pin w →
  rgi p (Published._decompress_zstd src dir dst) (λ _, rooted (At dir (Named dst)) pin) w.
Proof.
  intros Hsrc Hroot Hg. unfold Published._decompress_zstd. apply rg_bind.
  apply rg_quiet; [done|]. intros w1 u _ Hs1 _ [= <-]. apply rg_try.
  - apply rg_try; [|intros e w'; by repeat case_match]. apply rg_bind.
    unfold Disk.decompress_zstd_sparse.
    eapply rgi_mono with (Q := λ _, staged p (At dir (Random (Partial dst) (p, w_clock w1))) pin).
    + apply rg_bind. eapply rgi_mono; [by apply rg_any|]. intros [] w2 Hs2 _. apply rg_bind.
      eapply rgi_mono; [by apply rg_any|]. intros n w3 Hs3 _.
      assert (good src pin w3).
      { eapply good_shared; [done|exact Hs3|]. eapply good_shared; [done|exact Hs2|]. exact (good_shared _ _ _ _ Hsrc Hs1 Hg). }
      destruct n; [by apply rg_native|by apply rg_python].
    + intros [] w2 _ (i & c & Hh & Hc). eapply rgi_mono; [eapply rg_rename; [exact Hh|]|].
      * right. right. by exists s, pin.
      * intros [] w3 _ [H3 _]. by exists c.
  - intros e w2. apply rg_bind. eapply rgi_mono; [by apply rg_unlink; left|]. intros [] w3 _ _.
    apply rg_bind. by eapply rgi_mono; [apply rg_unlink; left|].
Qed.

(** *** The sidecar *)
Import Published.
Lemma rg_open_side p q s d w : k_root K q s d → rgi p (act (OpenW s)) (λ fd w', only_at s fd w' ∧ is_Some (w_data w' !! fd)) w.
Proof.
  intros Hr. apply rg_effect. intros w1 Hi _ _ w2 r. simpl. destruct (w_names w1 !! s) as [[i|]|] eqn:Hs; intros [= <- <-].
  - assert (Hd : <[i := []]> (w_data w1) = alter (λ _, []) i (w_data w1)).
    { apply map_eq. intros j. destruct (decide (j = i)) as [->|Hj].
      - rewrite lookup_insert_eq, lookup_alter_eq. by destruct (ci_data _ Hi _ _ Hs) as [c ->].
      - by rewrite lookup_insert_ne, lookup_alter_ne. }
    assert (Ho : only_at s i w1) by (intros x Hx; by eapply ci_link). split.
    + eapply (step_written p i (λ _, [])); [done|done|exact Hd|]. right. exists q, s, d. split; [done|]. split; [done|]. by right.
    + split; [exact Ho|]. simpl. by rewrite lookup_insert_eq.
  - split; [by apply step_none|done].
  - split; [eapply step_new; [done| |exact Hs|done..]; right; by exists q, d|]. split; [|simpl; by rewrite lookup_insert_eq].
    intros x. simpl. rewrite lookup_insert_Some. intros [[<- _]|[_ Hx]]; [done|].
    destruct (ci_data _ Hi _ _ Hx) as [c Hc]. by rewrite new_inode_free in Hc.
Qed.
Lemma rg_write_text p q s d text w : k_root K q s d → rooted q d w → rgi p (write_text s text) (λ _, rooted q d) w.
Proof.
  intros Hr Hq. apply rg_bind. eapply rgi_mono; [by eapply rg_open_side|]. intros fd w1 Hs1 [Ho Hd].
  apply rg_effect. intros w2 Hi Hs2 Hp w3 r [= <- <-].
  assert (Hq2 : rooted q d w2) by (eapply sh_root; [exact Hs2|done|]; by eapply sh_root).
  assert (Hal : allowed p w2 (set_data (alter (write_at 0 (String.list_ascii_of_string text)) fd (w_data w2)) w2)).
  { eapply step_written; [done..|]. right. exists q, s, d. split; [done|]. split; [by eapply pr_side|by left]. }
  split; [done|]. destruct Hal as (_ & Hs3 & _). exact (sh_root _ _ Hs3 q s d Hr Hq2).
Qed.
Lemma rgr_remove_side p q s d w : k_root K q s d → rgir p (_remove_cache_entry_file s) (λ _, private p w) w.
Proof.
  intros Hr. unfold _remove_cache_entry_file. apply rgr_bind. eapply rgr_mono; [by apply (rgr_quiet p (IsDir s) w)|].
  intros [[]|e] w1 Hp; [..|done]; apply rgr_try; (eapply rgr_mono; [eapply (rgr_side p _ q s d w1); [|done]|]);
    [by right| |by left|]; intros [[]|[]] w2 H2; (assert (private p w w2) by (by etrans)); done.
Qed.
Lemma gentle_forget p compressed q s d on_download label :
  (compressed = true → k_root K q s d) → gentle p (Some (_forget_decompressed compressed s on_download label)).
Proof.
  intros Hr f b n t w [= <-]. unfold _forget_decompressed. apply rg_bind. eapply rgi_mono with (Q := λ _, private p w).
  - destruct compressed, b; simpl; try (by apply rg_ret). apply rg_bind. apply rgr_try.
    eapply rgr_mono; [by eapply rgr_remove_side, Hr|]. intros [[]|e] w' Hw; [done|]. by destruct (is_oserror e).
  - intros b' w1 _ Hp. apply rg_bind. apply rg_when.
    + intros _. apply rg_quiet; [done|]. intros w2 [] _ _ Hp2 _. apply rg_ret. do 2 (etrans; [eassumption|]). by apply private_same.
    + by intros _.
Qed.

(** An unpacked disk that is used as it is was unpacked from the pinned bytes. *)
Lemma rg_must_unpack p fresh q s d w : k_root K q s d →
  rgi p (must_unpack fresh q s (_decompressed_rootfs_sidecar_value d)) (λ b w', b = false → rooted q d w') w.
Proof.
  intros Hr. unfold must_unpack. apply rg_bind. eapply rgi_mono; [by apply rg_any|]. intros stamped w1 _ _. apply rg_bind.
  eapply rgi_mono with (Q := λ text w', text = Some (_decompressed_rootfs_sidecar_value d) → ∀ x, content q w' = Some x → unpacked x d).
  - destruct stamped; [|by apply rg_ret]. apply rg_try; [|intros e w'; by destruct (is_oserror e)].
    apply rg_bind. apply rg_quiet; [done|]. intros w2 c Hi _ _ He. apply rg_ret. intros Hst x Hx. simpl in He.
    destruct (w_names w2 !! s) as [[i|]|] eqn:Hs; simplify_eq. destruct (ci_data _ Hi _ _ Hs) as [c Hc]. rewrite Hc in Hst.
    eapply (ci_honest _ Hi q s d c); [done| |done..]. unfold content. by rewrite Hs.
  - intros text w2 _ Ht. destruct fresh; [by apply rg_ret|]. apply rg_bind. apply rg_quiet; [done|].
    intros w3 there Hi Hs _ He. apply rg_ret. simpl in He. destruct (w_names w3 !! q) as [[i|]|] eqn:Hq; simplify_eq; simpl; [|done..].
    case_bool_decide as Htext; [|done]. intros _. destruct (ci_data _ Hi _ _ Hq) as [x Hx].
    assert (content q w3 = Some x) as Hc by (unfold content; by rewrite Hq). exists x. split; [exact Hc|].
    destruct (sh_new _ _ Hs _ _ _ _ Hr Hc); [by apply Ht|done].
Qed.
End rely.
