(* ===== verification/ImageCatalog.v ===== *)
(** * The catalogs of images/published.py, and processes that fetch from them

    The whole functions under the rely of ImageProofs, the theorem on any number
    of processes at once, and what a second call finds. *)
From S2P Require Import Prelude PyStr PyUrl CrashProg ImageCache ImageProofs.
From stdpp Require Import options.
From Stdlib Require Import Ascii.
#[local] Open Scope prog_scope.

(** ** The catalogs *)
Definition is_hex (c : ascii) : bool :=
  is_digit c || ((97 <=? code c)%Z && (code c <=? 102)%Z) || ((65 <=? code c)%Z && (code c <=? 70)%Z).
Definition hex (s : string) : bool := str_all is_hex s.

Section catalogs.
Import Manager Published.
Context `{!Libs} (manifest : ManifestKey → option PublishedImage) (kernels : KernelProfile → Arch → option BaseKernel).
Context (cache_dir version : string).

Definition key (e : PublishedImage) : ManifestKey := (preset e, arch e, vmm e, p_os e).
(** A row stands under its own key; the pins are hexadecimal. *)
Record catalogs_ok : Prop := {
  co_key k e : manifest k = Some e → key e = k;
  co_pin k e : manifest k = Some e → hex (p_kernel_sha256 e) = true;
  co_base pr a b fmt : kernels pr a = Some b → hex (sha256_for b fmt) = true }.

Definition compressed (e : PublishedImage) : bool := endswith ".zst" (p_rootfs_url e).
Definition image_dir (e : PublishedImage) : string := join cache_dir (cache_name (preset e) (arch e) (vmm e) version (p_os e)).
Definition kernel_at (e : PublishedImage) : path := At (image_dir e) (Named ("vmlinux-" +:+ p_kernel_sha256 e +:+ ".bin")).
Definition rootfs_at (e : PublishedImage) : path :=
  At (image_dir e) (Named (if compressed e then "rootfs.ext4.zst" else "rootfs.ext4")).
Definition unpacked_at (e : PublishedImage) : path := At (image_dir e) (Named "rootfs.ext4").
Definition sidecar_at (e : PublishedImage) : path := At (image_dir e) (Named "rootfs.ext4.from-sha256").
Definition base_at (pr : KernelProfile) (a : Arch) (b : BaseKernel) (fmt : KernelFormat) : path :=
  At (join cache_dir (base_kernel_name version a)) (Named (base_kernel_file pr (sha256_for b fmt) fmt)).

Inductive pinned : path → string → Prop :=
| pinned_kernel k e : manifest k = Some e → pinned (kernel_at e) (p_kernel_sha256 e)
| pinned_rootfs k e : manifest k = Some e → pinned (rootfs_at e) (p_rootfs_sha256 e)
| pinned_base pr a b fmt : kernels pr a = Some b → pinned (base_at pr a b fmt) (sha256_for b fmt).
Inductive unpacks : path → path → string → Prop :=
| unpacks_row k e : manifest k = Some e → compressed e = true → unpacks (unpacked_at e) (sidecar_at e) (p_rootfs_sha256 e).
Definition cached : keep := {| k_pin := pinned; k_root := unpacks |}.

(** *** Distinct files *)
Definition platform (a : Arch) (v : Vmm) (o : Os) : string :=
  "-" +:+ arch_text a +:+ "-" +:+ vmm_text v +:+ (if bool_decide (o = os_ubuntu) then "" else "-" +:+ os_text o).
Lemma cache_name_parts p a v o : cache_name p a v version o = preset_text p +:+ "-v" +:+ version +:+ platform a v o.
Proof. unfold cache_name, platform. destruct o; simpl; rewrite ?string_app_assoc, ?str_app_nil_r; done. Qed.
Lemma cache_name_inj p a v o p' a' v' o' :
  cache_name p a v version o = cache_name p' a' v' version o' → (p, a, v, o) = (p', a', v', o').
Proof.
  rewrite !cache_name_parts. intros Heq. assert (p = p') as <- by (by destruct p, p').
  do 3 apply str_app_inv_l in Heq. revert Heq. destruct a, a', v, v', o, o'; (done || by intros [=]).
Qed.
Lemma join_inj a b : startswith "/" a = false → startswith "/" b = false → join cache_dir a = join cache_dir b → a = b.
Proof. unfold join. intros -> -> Heq. by do 2 apply str_app_inv_l in Heq. Qed.
Lemma image_dir_inj (Hok : catalogs_ok) k e k' e' :
  manifest k = Some e → manifest k' = Some e' → image_dir e = image_dir e' → e = e'.
Proof.
  intros He He' Hd. apply join_inj in Hd; [|rewrite cache_name_parts; by destruct (preset _)..].
  apply cache_name_inj in Hd. assert (k = k') as <-; [|by simplify_eq].
  by rewrite <- (co_key Hok _ _ He), <- (co_key Hok _ _ He').
Qed.
Lemma image_dir_base e a : image_dir e ≠ join cache_dir (base_kernel_name version a).
Proof.
  intros Hd. apply join_inj in Hd; [|rewrite cache_name_parts; by destruct (preset _)|done].
  rewrite cache_name_parts in Hd. by destruct (preset e).
Qed.
Lemma base_at_inj pr a b fmt pr' a' b' fmt' :
  base_at pr a b fmt = base_at pr' a' b' fmt' → sha256_for b fmt = sha256_for b' fmt'.
Proof.
  intros [= _ Hf]. unfold base_kernel_file in Hf. assert (pr = pr') as <- by (by destruct pr, pr').
  apply str_app_inv_l in Hf. simpl in Hf. do 2 apply str_app_inv_l in Hf.
  assert (fmt = fmt') as <-; [|by apply str_app_inv_r in Hf].
  destruct fmt, fmt'; try done; apply (f_equal last_char) in Hf; by rewrite !last_char_app in Hf.
Qed.
(** The file of a row, by its directory. *)
Lemma same_row (Hok : catalogs_ok) k e k' e' f f' :
  manifest k = Some e → manifest k' = Some e' → At (image_dir e) f = At (image_dir e') f' → e = e' ∧ f = f'.
Proof. intros He He' [= Hd ->]. split; [|done]. by eapply image_dir_inj. Qed.
Lemma not_base e f pr a b fmt : At (image_dir e) f ≠ base_at pr a b fmt.
Proof. intros [= Hd _]. by eapply image_dir_base. Qed.
Lemma rootfs_file_apart e (s : string) :
  Named (if compressed e then "rootfs.ext4.zst" else "rootfs.ext4") ≠ Named ("vmlinux-" +:+ s).
Proof. by destruct (compressed e). Qed.
Lemma pinned_inv q d : pinned q d →
  (∃ k e, manifest k = Some e ∧ q = kernel_at e ∧ d = p_kernel_sha256 e) ∨
  (∃ k e, manifest k = Some e ∧ q = rootfs_at e ∧ d = p_rootfs_sha256 e) ∨
  (∃ pr a b fmt, kernels pr a = Some b ∧ q = base_at pr a b fmt ∧ d = sha256_for b fmt).
Proof. intros [k e He|k e He|pr a b fmt Hb]; [left|right; left|right; right]; repeat eexists; done. Qed.
Lemma unpacks_inv q s d : unpacks q s d →
  ∃ k e, manifest k = Some e ∧ compressed e = true ∧ q = unpacked_at e ∧ s = sidecar_at e ∧ d = p_rootfs_sha256 e.
Proof. intros [k e He Hc]. by exists k, e. Qed.
Lemma pinned_fun (Hok : catalogs_ok) q d d' : pinned q d → pinned q d' → d = d'.
Proof.
  intros [(k & e & He & Hq & ->)|[(k & e & He & Hq & ->)|(pr & a & b & fmt & Hb & Hq & ->)]]%pinned_inv
    [(k' & e' & He' & Hq' & ->)|[(k' & e' & He' & Hq' & ->)|(pr' & a' & b' & fmt' & Hb' & Hq' & ->)]]%pinned_inv;
    rewrite Hq in Hq'; first [by destruct (not_base _ _ _ _ _ _ Hq')|by destruct (not_base _ _ _ _ _ _ (eq_sym Hq'))|idtac].
  - by destruct (same_row Hok _ _ _ _ _ _ He He' Hq') as [-> _].
  - destruct (same_row Hok _ _ _ _ _ _ He He' Hq') as [-> Hf]. symmetry in Hf. by apply rootfs_file_apart in Hf.
  - destruct (same_row Hok _ _ _ _ _ _ He He' Hq') as [-> Hf]. by apply rootfs_file_apart in Hf.
  - by destruct (same_row Hok _ _ _ _ _ _ He He' Hq') as [-> _].
  - by apply base_at_inj in Hq'.
Qed.
Lemma pinned_apart (Hok : catalogs_ok) q d q' s' d' : pinned q d → unpacks q' s' d' → q ≠ q' ∧ q ≠ s'.
Proof.
  intros [(k & e & He & -> & _)|[(k & e & He & -> & _)|(pr & a & b & fmt & Hb & -> & _)]]%pinned_inv
    (k' & e' & He' & Hc & -> & -> & _)%unpacks_inv; split; intros Hq;
    first [by destruct (not_base _ _ _ _ _ _ (eq_sym Hq))|destruct (same_row Hok _ _ _ _ _ _ He He' Hq) as [-> Hf]; by rewrite ?Hc in Hf].
Qed.
Lemma cached_ok (Hok : catalogs_ok) : KeepOk cached.
Proof.
  split; simpl.
  - intros q d [] p; exact id.
  - intros q s d [] p; split; exact id.
  - by apply pinned_fun.
  - intros q s d s' d' (k & e & He & _ & -> & -> & ->)%unpacks_inv (k' & e' & He' & _ & Hq & -> & ->)%unpacks_inv.
    by destruct (same_row Hok _ _ _ _ _ _ He He' Hq) as [-> _].
  - intros q s d q' d' (k & e & He & _ & -> & -> & ->)%unpacks_inv (k' & e' & He' & _ & -> & Hs & ->)%unpacks_inv.
    by destruct (same_row Hok _ _ _ _ _ _ He He' Hs) as [-> _].
  - by apply pinned_apart.
  - intros q s d q' s' d' (k & e & He & _ & -> & _)%unpacks_inv (k' & e' & He' & _ & _ & -> & _)%unpacks_inv Hq.
    by destruct (same_row Hok _ _ _ _ _ _ He He' Hq) as [_ Hf].
Qed.

(** *** The functions of the catalog *)
Definition slashless (s : string) : bool := str_all (λ c, negb (Ascii.eqb "/"%char c)) s.
Lemma hex_slashless s : hex s = true → slashless s = true.
Proof.
  unfold hex, slashless. induction s as [|c s IH]; [done|]. cbn [str_all]. rewrite !andb_true_iff. intros [Hc Hs]. split; [|by apply IH].
  apply negb_true_iff, Ascii.eqb_neq. intros <-. by vm_compute in Hc.
Qed.
Lemma path_parts_plain s : slashless s = true → s ≠ "" → s ≠ "." → path_parts s = [s].
Proof.
  intros Hs H1 H2. unfold path_parts.
  rewrite str_split_single by (unfold contains_char, str_any; unfold slashless in Hs; by rewrite Hs).
  by rewrite filter_cons, decide_True.
Qed.
Lemma normalize_plain s : slashless s = true → s ∉ [""; "."; ".."] → normalize_cache_filename s = Ok s.
Proof.
  intros Hs Hne. unfold normalize_cache_filename, path_name.
  assert (startswith "/" s = false) as ->.
  { destruct s as [|c s]; [done|]. unfold slashless in Hs. cbn [str_all] in Hs. apply andb_true_iff in Hs as [Hc _].
    unfold startswith. cbn [String.prefix]. destruct (ascii_dec "/" c) as [<-|]; [by vm_compute in Hc|done]. }
  rewrite path_parts_plain by (done || set_solver). simpl. by rewrite bool_decide_false.
Qed.
Lemma kernel_name_slashless (Hok : catalogs_ok) k e : manifest k = Some e → slashless ("vmlinux-" +:+ p_kernel_sha256 e +:+ ".bin") = true.
Proof. intros He. pose proof (hex_slashless _ (co_pin Hok _ _ He)) as Hs. unfold slashless in *. rewrite !str_all_app. by rewrite Hs. Qed.
Lemma to_image_source_row (Hok : catalogs_ok) k e : manifest k = Some e →
  to_image_source e version = Ok {|
    name := cache_name (preset e) (arch e) (vmm e) version (p_os e);
    kernel_url := p_kernel_url e; kernel_sha256 := Some (p_kernel_sha256 e);
    kernel_filename := "vmlinux-" +:+ p_kernel_sha256 e +:+ ".bin";
    initrd_url := None; initrd_sha256 := None; initrd_filename := "initrd.img";
    rootfs_url := p_rootfs_url e; rootfs_sha256 := Some (p_rootfs_sha256 e);
    rootfs_filename := if compressed e then "rootfs.ext4.zst" else "rootfs.ext4" |}.
Proof.
  intros He. unfold to_image_source, make_image_source. cbn [kernel_filename initrd_filename rootfs_filename].
  rewrite (normalize_plain ("vmlinux-" +:+ _)).
  - unfold compressed. by destruct (endswith ".zst" (p_rootfs_url e)).
  - by eapply kernel_name_slashless.
  - rewrite !not_elem_of_cons. split_and!; try done. apply not_elem_of_nil.
Qed.

Abbreviation rgc V := (rg (perform V) (cache_inv cached) (shared cached) (private cached)).
(** What a published image is when it is returned, and stays. *)
Definition image_verified (e : PublishedImage) (l : LocalImage) (w : world) : Prop :=
  l_name l = cache_name (preset e) (arch e) (vmm e) version (p_os e) ∧ initrd_path l = None ∧
  kernel_path l = kernel_at e ∧ rootfs_path l = unpacked_at e ∧
  good (kernel_path l) (p_kernel_sha256 e) w ∧ good (rootfs_at e) (p_rootfs_sha256 e) w ∧
  (if compressed e then rooted (rootfs_path l) (p_rootfs_sha256 e) w else good (rootfs_path l) (p_rootfs_sha256 e) w).
Lemma rg_unpack_rest `{!ZstdLaw} V (Hok : catalogs_ok) p k e l w :
  manifest k = Some e → compressed e = true →
  l_name l = cache_name (preset e) (arch e) (vmm e) version (p_os e) → initrd_path l = None →
  kernel_path l = kernel_at e → rootfs_path l = rootfs_at e →
  good (kernel_at e) (p_kernel_sha256 e) w → good (rootfs_at e) (p_rootfs_sha256 e) w →
  rgc V p
    (let* unpack := must_unpack (downloaded l) (unpacked_at e) (sidecar_at e) (_decompressed_rootfs_sidecar_value (p_rootfs_sha256 e)) in
     do* pwhen unpack (
       do* _remove_cache_entry_file (sidecar_at e) in
       let* d := act (IsDir (unpacked_at e)) in
       do* pwhen d (_remove_cache_entry_file (unpacked_at e)) in
       do* _decompress_zstd (rootfs_path l) (image_dir e) "rootfs.ext4" in
       write_text (sidecar_at e) (_decompressed_rootfs_sidecar_value (p_rootfs_sha256 e))) in
     pret {| l_name := l_name l; kernel_path := kernel_path l; initrd_path := initrd_path l;
             rootfs_path := unpacked_at e; downloaded := downloaded l |})
    (λ l w', image_verified e l w') w.
Proof.
  intros He Hc Hn Hin Hk Hr Hgk Hgr. pose proof (cached_ok Hok) as HK. pose proof (unpacks_row k e He Hc) as Hroot.
  pose proof (pinned_rootfs k e He) as Hpr. pose proof (pinned_kernel k e He) as Hpk. rewrite Hk, Hr.
  apply rg_bind. eapply (rgi_mono cached V); [by apply (rg_must_unpack cached V p _ _ _ _ _ Hroot)|]. intros b w1 Hs1 Hb.
  apply rg_bind. eapply (rgi_mono cached V) with (Q := λ _, rooted (unpacked_at e) (p_rootfs_sha256 e)).
  - apply rg_when; [|done]. intros _. apply rg_bind. eapply (rgi_mono cached V) with (Q := λ _ _, True).
    { eapply rgr_mono; [by eapply (rgr_remove_side cached V)|]. by intros [] w' _. }
    intros [] w2 Hs2 _. apply rg_bind. apply (rg_quiet cached V); [done|]. intros w3 d Hi Hs3 _ Hd. apply rg_bind.
    assert (d = false) as ->.
    { simpl in Hd. pose proof (ci_dir _ _ Hi _ _ _ Hroot). by destruct (w_names w3 !! unpacked_at e) as [[]|]; simplify_eq. }
    apply rg_ret. apply rg_bind. eapply (rgi_mono cached V).
    + eapply (rg_decompress_zstd cached V p _ _ _ _ _ _ Hpr Hroot).
      refine (good_shared cached _ _ _ _ Hpr Hs3 _). by do 2 (eapply (good_shared cached); [exact Hpr|eassumption|]).
    + intros [] w4 _ H4. by eapply (rg_write_text cached V).
  - intros [] w2 Hs2 H2. apply rg_ret. unfold image_verified. rewrite Hc. split_and!; try done.
    + simpl. by do 2 (eapply (good_shared cached); [exact Hpk|eassumption|]).
    + by do 2 (eapply (good_shared cached); [exact Hpr|eassumption|]).
Qed.
Lemma unpacked_name : rsplit_head "."%char "rootfs.ext4.zst" = "rootfs.ext4".
Proof. done. Qed.
Lemma sidecar_name : decompressed_rootfs_sidecar_path (rsplit_head "."%char "rootfs.ext4.zst") = "rootfs.ext4.from-sha256".
Proof. done. Qed.
Lemma rg_published `{!ZstdLaw} V (Hok : catalogs_ok) p k on_download w :
  rgc V p (ensure_published_image manifest cache_dir version k on_download)
    (λ l w', ∃ e, manifest k = Some e ∧ image_verified e l w') w.
Proof.
  pose proof (cached_ok Hok) as HK. unfold ensure_published_image. apply rg_bind. unfold lookup, raised.
  destruct (manifest k) as [e|] eqn:He; [|by destruct k as [[[]]]]. apply rg_ret. rewrite (to_image_source_row Hok k e He).
  apply rg_bind. apply rg_ret. cbn [rootfs_filename name].
  set (source := {| name := _ |}). set (n := cache_name _ _ _ _ _). fold (image_dir e).
  assert (Hz : endswith ".zst" (if compressed e then "rootfs.ext4.zst" else "rootfs.ext4") = compressed e) by (by destruct (compressed e)).
  rewrite Hz. apply rg_bind. eapply (rgi_mono cached V).
  - eapply (rg_ensure_image cached V p _ _ cache_dir n source (p_kernel_sha256 e) (p_rootfs_sha256 e)); try done.
    + by rewrite lookup_singleton_eq.
    + by eapply pinned_kernel.
    + by eapply pinned_rootfs.
    + intros f label [= <-]. eapply (gentle_forget cached V _ _ (unpacked_at e) _ (p_rootfs_sha256 e)).
      intros Hc. rewrite Hc, sidecar_name. by apply (unpacks_row k).
  - intros l w1 Hs1 (Hn & Hk & Hi & Hr & Hgk & Hgr). destruct (compressed e) eqn:Hc; cbn [negb].
    + pose proof (unpacks_row k e He Hc) as Hroot. rewrite sidecar_name, unpacked_name.
      rewrite Hk in Hgk. rewrite Hr in Hgr.
      assert (rootfs_path l = rootfs_at e) as Hr' by (rewrite Hr; unfold rootfs_at; by rewrite Hc).
      assert (good (rootfs_at e) (p_rootfs_sha256 e) w1) as Hgr' by (rewrite <- Hr'; by rewrite Hr).
      eapply (rgi_mono cached V); [exact (rg_unpack_rest V Hok p k e l w1 He Hc Hn Hi Hk Hr' Hgk Hgr')|]. intros l' w2 _ Hl. by exists e.
    + apply rg_ret. exists e. split; [done|]. assert (rootfs_at e = rootfs_path l) as Hz' by (rewrite Hr; unfold rootfs_at; by rewrite Hc).
      unfold image_verified. rewrite Hc, Hz'. by split_and!.
Qed.
Lemma rg_base_kernel V (Hok : catalogs_ok) p a fmt pr w :
  rgc V p (ensure_base_kernel kernels cache_dir version a fmt pr)
    (λ q w', ∃ b, kernels pr a = Some b ∧ q = base_at pr a b fmt ∧ good q (sha256_for b fmt) w') w.
Proof.
  pose proof (cached_ok Hok) as HK. unfold ensure_base_kernel. destruct (kernels pr a) as [b|] eqn:Hb; [|done].
  assert (Hpin : pinned (base_at pr a b fmt) (sha256_for b fmt)) by (by apply pinned_base).
  unfold ensure_rootfs_only. destruct (String.eqb _ ""); [done|]. apply rg_bind.
  eapply (rgi_mono cached V) with (Q := λ _ _, True).
  { unfold _reject_blank_digest. simpl. by destruct (lower (strip (sha256_for b fmt))). }
  intros [] w1 _ _. apply rg_bind, rg_ret. apply rg_bind. rewrite normalize_plain.
  2: { pose proof (hex_slashless _ (co_base Hok _ _ _ fmt Hb)) as Hs. unfold slashless, base_kernel_file in *. rewrite !str_all_app, Hs.
       by destruct pr, fmt. }
  2: { unfold base_kernel_file. rewrite !not_elem_of_cons. split_and!; try done. apply not_elem_of_nil. }
  apply rg_ret. fold (base_at pr a b fmt). apply rg_bind. eapply (rgi_mono cached V) with
    (Q := λ hit w', hit = true → good (base_at pr a b fmt) (sha256_for b fmt) w').
  { unfold pand. apply rg_bind. eapply (rgi_mono cached V); [by apply (rg_any cached V)|]. intros [] w2 _ _; [|done].
    apply rg_bind. eapply (rgi_mono cached V); [apply (rg_verify cached V)|]. intros [] w3 _ H3; [|done]. apply rg_ret. by intros _; apply H3. }
  intros [] w2 _ H2; [apply rg_ret; exists b; by auto|].
  apply rg_bind. eapply (rgi_mono cached V); [by apply (rg_any cached V)|]. intros [] w3 _ _.
  apply rg_bind. eapply (rgi_mono cached V); [by apply (rg_download cached V)|]. intros s w4 _ H4. apply rg_ret. by exists b.
Qed.

(** *** Any number of processes *)
Inductive job := GetImage (k : ManifestKey) (on_download : bool) | GetKernel (a : Arch) (fmt : KernelFormat) (pr : KernelProfile).
Inductive outcome := GotImage (l : LocalImage) | GotKernel (q : path).
Definition job_prog (j : job) : prog outcome :=
  match j with
  | GetImage k cb => let* l := ensure_published_image manifest cache_dir version k cb in pret (GotImage l)
  | GetKernel a fmt pr => let* q := ensure_base_kernel kernels cache_dir version a fmt pr in pret (GotKernel q)
  end.
Definition verified (j : job) (o : outcome) (w : world) : Prop :=
  match j, o with
  | GetImage k _, GotImage l => ∃ e, manifest k = Some e ∧ image_verified e l w
  | GetKernel a fmt pr, GotKernel q => ∃ b, kernels pr a = Some b ∧ q = base_at pr a b fmt ∧ good q (sha256_for b fmt) w
  | _, _ => False
  end.
Lemma image_verified_shared k e l w w' : manifest k = Some e → shared cached w w' → image_verified e l w → image_verified e l w'.
Proof.
  intros He Hs (Hn & Hin & Hk & Hr & Hgk & Hgz & Hgr). unfold image_verified. rewrite Hk, Hr in *. split_and!; try done.
  - eapply (sh_pin _ _ _ Hs); [by eapply pinned_kernel|done].
  - eapply (sh_pin _ _ _ Hs); [by eapply pinned_rootfs|done].
  - destruct (compressed e) eqn:Hc.
    + eapply (sh_root _ _ _ Hs); [by eapply unpacks_row|done].
    + eapply (sh_pin _ _ _ Hs); [|done]. pose proof (pinned_rootfs k e He) as Hp. unfold rootfs_at in Hp. by rewrite Hc in Hp.
Qed.
Lemma verified_shared j o w w' : shared cached w w' → verified j o w → verified j o w'.
Proof.
  intros Hs. destruct j as [k cb|a fmt pr], o as [l|q]; simpl; try done.
  - intros (e & He & Hv). exists e. split; [done|]. by eapply image_verified_shared.
  - intros (b & Hb & -> & Hg). exists b. split_and!; try done. eapply (sh_pin _ _ _ Hs); [by apply pinned_base|done].
Qed.
Lemma rg_job `{!ZstdLaw} V (Hok : catalogs_ok) p j w : rgc V p (job_prog j) (verified j) w.
Proof.
  pose proof (cached_ok Hok) as HK. destruct j as [k cb|a fmt pr]; apply rg_bind.
  - eapply (rgi_mono cached V); [by apply rg_published|]. intros l w' _ Hl. by apply rg_ret.
  - eapply (rgi_mono cached V); [by apply rg_base_kernel|]. intros q w' _ Hq. by apply rg_ret.
Qed.

(** C17: any number of processes fetch published images and base kernels into one
    cache at the same time, without a lock, in any interleaving of their effects;
    any of them may be killed or interrupted between two effects, any effect may
    fail, and the servers may answer anything.  The cache may begin with damaged
    or foreign files, as long as no sidecar vouches for a disk that was not
    unpacked from its pin, no file has two names and no unpacked disk is a
    directory.  Then every image or kernel a process has been given is
    at every later moment what its pin says: the kernel has the pinned SHA-256 and
    the root disk is what bytes with the pinned SHA-256 unpack to, holes and all. *)
Theorem published_images_verified `{!ZstdLaw} V jobs turns w0 :
  catalogs_ok → cache_inv cached w0 →
  let c := schedule (perform V) turns (w0, job_prog <$> jobs) in
  cache_inv cached c.1 ∧
  ∀ p j o, jobs !! p = Some j → c.2 !! p = Some (Done (Ok o)) → verified j o c.1.
Proof.
  intros Hok Hw0 c. pose proof (cached_ok Hok) as HK.
  destruct (rg_sound (perform V) (cache_inv cached) (shared cached) (private cached)
    (λ p o w, ∀ j, jobs !! p = Some j → verified j o w) turns w0 (job_prog <$> jobs)) as [Hi Hps].
  - intros p o w1 w2 [Hs _] Hv j Hj. eapply verified_shared; [exact Hs|by apply Hv].
  - done.
  - intros p m Hm. rewrite list_lookup_fmap in Hm. destruct (jobs !! p) as [j|] eqn:Hj; simplify_eq/=.
    eapply (rgi_mono cached V); [by apply rg_job|]. intros o w _ Hv j' [= <-]. done.
  - split; [exact Hi|]. intros p j o Hj Ho. exact (Hps p _ Ho j Hj).
Qed.

(** ** A second call *)
(** The sidecar names the pin. *)
Definition stamped (e : PublishedImage) (w : world) : Prop := ∃ i, w_names w !! sidecar_at e = Some (File i) ∧
  stamp_text (default [] (w_data w !! i)) = Some (_decompressed_rootfs_sidecar_value (p_rootfs_sha256 e)).
Lemma hex_char_plain c : is_hex c = true → is_space c = false ∧ (code c <? 128)%Z = true.
Proof.
  unfold is_hex, is_digit, is_space. rewrite !orb_true_iff, !andb_true_iff, !Z.leb_le. intros Hc.
  split; [|apply Z.ltb_lt; lia]. apply orb_false_iff. rewrite !andb_false_iff, !Z.leb_gt. lia.
Qed.
Lemma hex_all (f : ascii → bool) s : (∀ c, is_hex c = true → f c = true) → hex s = true → str_all f s = true.
Proof.
  intros Hf. unfold hex. induction s as [|c s IH]; [done|]. cbn [str_all]. rewrite !andb_true_iff. intros [Hc Hs]. auto.
Qed.
Lemma stamp_reads_back d : hex d = true →
  stamp_text (String.list_ascii_of_string (_decompressed_rootfs_sidecar_value d)) = Some (_decompressed_rootfs_sidecar_value d).
Proof.
  intros Hd. unfold stamp_text. rewrite String.string_of_list_ascii_of_string. unfold is_ascii, _decompressed_rootfs_sidecar_value.
  rewrite !str_all_app, (hex_all _ d) by (done || intros c Hc; by destruct (hex_char_plain c Hc)). simpl. f_equal. apply strip_none.
  rewrite !str_all_app, (hex_all _ d) by (done || intros c Hc; apply negb_true_iff; by destruct (hex_char_plain c Hc)). done.
Qed.

Abbreviation wp V p := (wpc (perform V p) (λ _, True)).
Lemma wp_any V p {A} (m : prog A) w : wp V p m (λ _ _, True) (λ _ _, True) w.
Proof. revert w. induction m as [[]|a k IH]; intros w; [done..|]. intros w' r _. split; [done|]. apply IH. Qed.
(** After a sidecar is written it reads as the text. *)
Lemma wp_write_text V p s text w :
  wp V p (write_text s text) (λ _ w', ∃ i, w_names w' !! s = Some (File i) ∧ w_data w' !! i = Some (String.list_ascii_of_string text))
    (λ _ _, True) w.
Proof.
  unfold write_text. apply wpc_bind, wpc_act. intros w1 r Hr. split; [done|]. unfold perform in Hr.
  destruct r as [fd|]; [|done]. assert (Hfd : w_names w1 !! s = Some (File fd) ∧ w_data w1 !! fd = Some []).
  { destruct (e_fault V (w_clock w)) as [[[] e]|]; simpl in Hr; [by destruct (effect V p (OpenW s) w)|done|].
    destruct (w_names w !! s) as [[i|]|] eqn:Hs; simplify_eq; simpl; rewrite ?Hs, ?lookup_insert_eq; done. }
  apply (wpc_act (perform V p) (λ _, True) (Write fd 0 _)). intros w2 r Hw2. split; [done|]. destruct r as [[]|]; [|done]. destruct Hfd as [Hs Hd]. exists fd. unfold perform in Hw2.
  destruct (e_fault V (w_clock w1)) as [[[] e]|]; simplify_eq/=. split; [done|]. rewrite lookup_alter_eq, Hd. simpl.
  f_equal. unfold write_at. simpl. rewrite drop_nil. by rewrite app_nil_r.
Qed.
Lemma wp_quiet V p a Q w :
  quiet a = true → (∀ x, effect V p a w = (w, Ok x) → Q x (tick w)) → wp V p (act a) Q (λ _ _, True) w.
Proof.
  intros Ha HQ. apply wpc_act. intros w1 r Hr. split; [done|]. unfold perform in Hr. destruct r as [x|]; [|done].
  assert ((effect V p a w).1 = w) as Hw.
  { clear HQ Hr x. destruct a; simpl in *; try done; by destruct (w_names w !! q) as [[]|]. }
  destruct (effect V p a w) as [w2 r2] eqn:He. simpl in Hw. subst.
  destruct (e_fault V (w_clock w)) as [[[] e]|]; [done..|]. injection Hr as <- ->. by apply HQ.
Qed.
(** An unpacked disk that is used as it is has its stamp. *)
Lemma wp_must_unpack V p fresh e w :
  wp V p (must_unpack fresh (unpacked_at e) (sidecar_at e) (_decompressed_rootfs_sidecar_value (p_rootfs_sha256 e)))
    (λ b w', b = false → stamped e w') (λ _ _, True) w.
Proof.
  unfold must_unpack. apply wpc_bind, wp_quiet; [done|]. intros st _. apply wpc_bind.
  eapply wpc_mono with (I := λ _, True)
    (Q := λ text w', text = Some (_decompressed_rootfs_sidecar_value (p_rootfs_sha256 e)) → stamped e w') (R := λ _ _, True); [|done| |done].
  - destruct st; [|by apply wpc_ret]. unfold read_rootfs_sidecar. apply wpc_try, wpc_bind.
    eapply wpc_mono with (I := λ _, True)
      (Q := λ c w', ∃ i, w_names w' !! sidecar_at e = Some (File i) ∧ c = default [] (w_data w' !! i)) (R := λ _ _, True); [|done|..].
    + apply wp_quiet; [done|]. intros c. simpl. destruct (w_names w !! sidecar_at e) as [[i|]|] eqn:Hi; intros [= <-]. by exists i.
    + intros c w' (i & Hi & ->). apply wpc_ret. intros Ht. by exists i.
    + intros err w' _. by destruct (is_oserror err).
  - intros text w' Ht. destruct fresh; [by apply wpc_ret|]. apply wpc_bind, wp_quiet; [done|]. intros b _. apply wpc_ret.
    rewrite orb_false_iff, !negb_false_iff, bool_decide_eq_true. intros [_ Htext]. by apply Ht.
Qed.
Lemma wp_published_stamped V p (Hok : catalogs_ok) k e cb w :
  manifest k = Some e → compressed e = true → hex (p_rootfs_sha256 e) = true →
  wp V p (ensure_published_image manifest cache_dir version k cb) (λ _, stamped e) (λ _ _, True) w.
Proof.
  intros He Hc Hhex. unfold ensure_published_image. apply wpc_bind. unfold lookup, raised. rewrite He. apply wpc_ret.
  rewrite (to_image_source_row Hok k e He). apply wpc_bind, wpc_ret. cbn [rootfs_filename name]. rewrite Hc.
  apply wpc_bind. eapply wpc_mono; [apply wp_any|done| |done]. intros l w1 _.
  change (endswith ".zst" "rootfs.ext4.zst") with true. cbn [negb]. rewrite sidecar_name, unpacked_name.
  fold (image_dir e). fold (unpacked_at e) (sidecar_at e).
  apply wpc_bind. eapply wpc_mono; [apply wp_must_unpack|done| |done]. intros b w2 Hb. apply wpc_bind.
  eapply wpc_mono with (I := λ _, True) (Q := λ _, stamped e) (R := λ _ _, True); [|done| |done].
  - destruct b; [|by apply wpc_ret, Hb]. apply wpc_bind. eapply wpc_mono; [apply wp_any|done| |done]. intros [] w3 _.
    apply wpc_bind. eapply wpc_mono; [apply wp_any|done| |done]. intros d w4 _.
    apply wpc_bind. eapply wpc_mono; [apply wp_any|done| |done]. intros [] w5 _.
    apply wpc_bind. eapply wpc_mono; [apply wp_any|done| |done]. intros [] w6 _.
    eapply wpc_mono; [apply wp_write_text|done| |done]. intros [] w7 (i & Hi & Hd). exists i. split; [done|].
    rewrite Hd. by apply stamp_reads_back.
  - intros [] w3 Hs. by apply wpc_ret.
Qed.

(** *** A complete cache *)
Lemma sure_quiet V p a x Q R w :
  (∀ n, e_fault V n = None) → effect V p a w = (w, Ok x) → Q x (tick w) → wp V p (act a) Q R w.
Proof. intros HV He HQ. apply wpc_act. intros w1 r. unfold perform. rewrite HV, He. by intros [= <- <-]. Qed.
Lemma sure_file V p q c Q R w :
  (∀ n, e_fault V n = None) → content q w = Some c → Q true (tick w) → wp V p (act (IsFile q)) Q R w.
Proof.
  intros HV Hc HQ. apply (sure_quiet _ _ (IsFile q) true); [done| |done]. simpl. unfold content in Hc. by destruct (w_names w !! q) as [[]|].
Qed.
Lemma sure_read V p q c Q R w :
  (∀ n, e_fault V n = None) → content q w = Some c → Q c (tick w) → wp V p (act (Read q)) Q R w.
Proof.
  intros HV Hc HQ. apply (sure_quiet _ _ (Read q) c); [done| |done]. simpl. unfold content in Hc.
  destruct (w_names w !! q) as [[]|]; [|done..]. by rewrite Hc.
Qed.
Lemma sure_verify V p q pin (Q : bool → world → Prop) R w :
  (∀ n, e_fault V n = None) → good q pin w → Q true (tick w) → wp V p (_verify_sha256 q (Some pin)) Q R w.
Proof.
  intros HV (c & Hc & Hm) HQ. unfold _verify_sha256, verify_digest. simpl. apply wpc_bind, (sure_read _ _ _ c); [done..|].
  apply wpc_ret. by rewrite bool_decide_true.
Qed.
Lemma resolve_row (Hok : catalogs_ok) k e dir source : manifest k = Some e → to_image_source e version = Ok source →
  _resolve_asset_paths dir source = Ok (kernel_filename source, None, rootfs_filename source).
Proof.
  intros He Hs. rewrite (to_image_source_row Hok k e He) in Hs. injection Hs as <-. unfold _resolve_asset_paths. simpl.
  assert (stays_inside ("vmlinux-" +:+ p_kernel_sha256 e +:+ ".bin") = true) as Hin.
  { unfold stays_inside. rewrite path_parts_plain by (done || by eapply kernel_name_slashless). by apply bool_decide_true. }
  rewrite decide_False by (by destruct (compressed e)). rewrite decide_False by (by rewrite Hin).
  rewrite decide_False by (by destruct (compressed e)). done.
Qed.
(** All that a call checks is there. *)
Definition complete (e : PublishedImage) (w : world) : Prop :=
  good (kernel_at e) (p_kernel_sha256 e) w ∧ good (rootfs_at e) (p_rootfs_sha256 e) w ∧
  (compressed e = true → is_Some (content (unpacked_at e) w) ∧ stamped e w).
Definition row_image (e : PublishedImage) (d : bool) : LocalImage :=
  {| l_name := cache_name (preset e) (arch e) (vmm e) version (p_os e); kernel_path := kernel_at e; initrd_path := None;
     rootfs_path := unpacked_at e; downloaded := d |}.
Lemma wp_complete V p (Hok : catalogs_ok) k e cb w :
  (∀ n, e_fault V n = None) → manifest k = Some e → complete e w →
  wp V p (ensure_published_image manifest cache_dir version k cb)
    (λ l w', l = row_image e false ∧ w_names w' = w_names w ∧ w_data w' = w_data w) (λ _ _, False) w.
Proof.
  intros HV He (Hgk & Hgr & Hun). destruct Hgk as (ck & Hck & Hmk), Hgr as (cr & Hcr & Hmr).
  unfold ensure_published_image. apply wpc_bind. unfold lookup, raised. rewrite He. apply wpc_ret.
  destruct (to_image_source e version) as [source|] eqn:Hsrc; [|by rewrite (to_image_source_row Hok k e He) in Hsrc].
  apply wpc_bind, wpc_ret, wpc_bind. unfold ensure_image.
  assert (String.eqb (name source) "" = false) as ->.
  { rewrite (to_image_source_row Hok k e He) in Hsrc. injection Hsrc as <-. cbn [name]. rewrite cache_name_parts. by destruct (preset e). }
  rewrite lookup_singleton_eq. apply wpc_bind. rewrite (resolve_row Hok k e _ source He Hsrc). apply wpc_ret.
  rewrite (to_image_source_row Hok k e He) in Hsrc. injection Hsrc as <-. cbn [name kernel_filename rootfs_filename].
  fold (image_dir e). fold (kernel_at e) (rootfs_at e). cbn [fmap option_fmap option_map].
  apply wpc_bind. unfold cache_ok. apply wpc_bind, wpc_ret, wpc_bind. unfold pand.
  apply wpc_bind, (sure_file _ _ _ ck); [done..|]. apply wpc_bind, (sure_file _ _ _ cr); [done..|]. apply wpc_ret. cbn [kernel_sha256 rootfs_sha256].
  apply wpc_bind, sure_verify; [done|by exists ck|]. apply wpc_bind, wpc_ret, wpc_bind, sure_verify; [done|by exists cr|].
  apply wpc_ret, wpc_ret. cbn [andb].
  destruct (compressed e) eqn:Hc.
  - change (endswith ".zst" "rootfs.ext4.zst") with true. cbn [negb downloaded]. rewrite sidecar_name, unpacked_name.
    fold (unpacked_at e) (sidecar_at e). destruct (Hun eq_refl) as [[x Hx] (i & Hi & Hst)].
    apply wpc_bind. unfold must_unpack.
    apply wpc_bind, (sure_quiet _ _ (IsFile _) true); [done|simpl; by rewrite Hi|]. apply wpc_bind. unfold read_rootfs_sidecar.
    apply wpc_try, wpc_bind, (sure_quiet _ _ (Read _) (default [] (w_data w !! i))); [done|simpl; by rewrite Hi|].
    apply wpc_ret, wpc_bind, (sure_file _ _ _ x); [done..|]. apply wpc_ret. rewrite Hst, bool_decide_true by done. cbn [negb orb].
    apply wpc_bind, wpc_ret, wpc_ret. done.
  - apply wpc_ret. unfold row_image, unpacked_at, rootfs_at. by rewrite Hc.
Qed.

(** C18: a published image that has been fetched is reused.  After a call that
    returned, whatever it had to do and whatever failed on the way, the next call
    finds everything in place: when its own reads do not fail it returns the same
    image as not downloaded, asks no server (which may refuse everything) and
    changes nothing in the cache, so pins in upper case converge like others. *)
Theorem fetched_image_is_reused `{!ZstdLaw} V V' p p' k e on_download on_download' w0 w l :
  catalogs_ok → manifest k = Some e → hex (p_rootfs_sha256 e) = true → cache_inv cached w0 →
  run (perform V p) (ensure_published_image manifest cache_dir version k on_download) w0 = (w, Ok l) →
  (∀ n, e_fault V' n = None) →
  ∃ w', run (perform V' p') (ensure_published_image manifest cache_dir version k on_download') w = (w', Ok (row_image e false))
    ∧ l = row_image e (downloaded l) ∧ w_names w' = w_names w ∧ w_data w' = w_data w.
Proof.
  intros Hok He Hhex Hi Hrun HV. pose proof (cached_ok Hok) as HK.
  destruct (rg_run (perform V) (cache_inv cached) (shared cached) (private cached) p _ _ _ _ _ (rg_published V Hok p k on_download w0) Hi Hrun)
    as [_ (e' & He' & Hn & Hin & Hk & Hr & Hgk & Hgz & Hroot)]. rewrite He in He'. injection He' as <-.
  assert (Hcomp : complete e w).
  { split; [by rewrite Hk in Hgk|]. split; [done|]. intros Hc. rewrite Hc, Hr in Hroot. destruct Hroot as (x & Hx & _).
    split; [by rewrite Hx|]. exact (proj2 (wpc_run _ _ _ _ _ _ _ _ (wp_published_stamped V p Hok k e on_download w0 He Hc Hhex) I Hrun)). }
  destruct (run (perform V' p') _ w) as [w' r] eqn:Hrun'.
  pose proof (proj2 (wpc_run _ _ _ _ _ _ _ _ (wp_complete V' p' Hok k e on_download' w HV He Hcomp) I Hrun')) as Hr'.
  destruct r as [l'|]; [|done]. destruct Hr' as (-> & Hw & Hd). exists w'. split_and!; try done.
  destruct l; unfold row_image; simpl in *; by subst.
Qed.
End catalogs.

(** ** The bundled catalogs, and runs on them *)
Module ImageDemo.
Import Manager Published.

Definition bundled_kernels (environ : string → option string) (pr : KernelProfile) : Arch → option BaseKernel :=
  match pr with sandbox => BASE_KERNELS environ | github_ci => CI_KERNELS environ end.
Definition row_checks (environ : string → option string) (darwin : bool) (k : ManifestKey) : bool :=
  match MANIFEST environ darwin k with Some e => bool_decide (key e = k) && hex (p_kernel_sha256 e) | None => true end.
Definition kernel_checks (environ : string → option string) (pr : KernelProfile) (a : Arch) (fmt : KernelFormat) : bool :=
  match bundled_kernels environ pr a with Some b => hex (sha256_for b fmt) | None => true end.
Lemma bundled_ok environ darwin : catalogs_ok (MANIFEST environ darwin) (bundled_kernels environ).
Proof.
  assert (Hrow : ∀ k, row_checks environ darwin k = true).
  { intros [[[[] []] []] []]; destruct darwin; vm_compute; reflexivity. }
  assert (Hker : ∀ pr a fmt, kernel_checks environ pr a fmt = true) by (intros [] [] []; vm_compute; reflexivity).
  split.
  - intros k e He. specialize (Hrow k). unfold row_checks in Hrow. rewrite He in Hrow.
    apply andb_true_iff in Hrow as [Hk _]. by apply bool_decide_eq_true in Hk.
  - intros k e He. specialize (Hrow k). unfold row_checks in Hrow. rewrite He in Hrow. by apply andb_true_iff in Hrow as [_ Hk].
  - intros pr a b fmt Hb. specialize (Hker pr a fmt). unfold kernel_checks in Hker. by rewrite Hb in Hker.
Qed.

(** A hash that is the text itself, and an archive that ends in a hole. *)
#[local] Instance demo_libs : Libs := {|
  sha256 c := String.string_of_list_ascii c;
  sha512 c := String.string_of_list_ascii c;
  unzstd c := Some (c ++ replicate 3 nul);
  zstd_chunks n c := ([take 4 c; drop 4 c; replicate 3 nul], None) |}.
#[local] Instance demo_law : ZstdLaw.
Proof. intros n b l [= <-]. simpl. by rewrite app_assoc, firstn_skipn. Qed.

Definition text : string → bytes := String.list_ascii_of_string.
Definition none (s : string) : option string := None.
Definition manifest := MANIFEST none false.
Definition kernels := bundled_kernels none.
Definition row : ManifestKey := (ubuntu, amd64, qemu, os_ubuntu).
Definition entry : PublishedImage := Eval vm_compute in default {| preset := ubuntu; arch := amd64; vmm := qemu; p_os := os_ubuntu;
  p_kernel_url := ""; p_kernel_sha256 := ""; p_rootfs_url := ""; p_rootfs_sha256 := "" |} (manifest row).
Definition sends (s : string) : answer :=
  Answered {| rs_status := None; rs_length := Some " 64 "; rs_chunks := [take 10 (text s); drop 10 (text s)]; rs_cut := None |}.
(** The server sends the pinned bytes, but for a damaged root disk at first; a
    write is interrupted at the moment 70. *)
Definition server : ienv := {|
  e_fault n := if Nat.eqb n 70 then Some (true, Interrupt) else None;
  e_http n url :=
    if String.eqb url (p_kernel_url entry) then sends (p_kernel_sha256 entry)
    else if String.eqb url (p_rootfs_url entry) then sends (if n <? 30 then "damaged" else p_rootfs_sha256 entry)
    else sends (sha256_for (default {| b_arch := amd64; elf_url := ""; elf_sha256 := ""; image_url := ""; image_sha256 := "" |}
      (kernels sandbox amd64)) elf);
  e_native n := Nat.even n |}.
(** A cache with a damaged kernel and a disk nobody vouches for. *)
Definition cache : world := {|
  w_names := {[kernel_at "c" "1" entry := File 0; unpacked_at "c" "1" entry := File 1]};
  w_data := {[0 := text "damaged"; 1 := text "damaged"]}; w_clock := 0 |}.
Definition jobs : list job := [GetImage row true; GetImage row false; GetKernel amd64 elf sandbox; GetImage row true].
Definition turns : list nat := concat (replicate 6 [0; 1; 2; 3]) ++ concat (replicate 80 [1; 2; 0]).
Abbreviation after := (schedule (perform server) turns (cache, job_prog manifest kernels "c" "1" <$> jobs)).
Lemma cache_starts : cache_inv (cached manifest kernels "c" "1") cache.
Proof.
  assert (Hn : ∀ q i, w_names cache !! q = Some (File i) →
    (q = kernel_at "c" "1" entry ∧ i = 0) ∨ (q = unpacked_at "c" "1" entry ∧ i = 1)).
  { intros q i. simpl. rewrite lookup_insert_Some, lookup_singleton_Some. naive_solver. }
  split.
  - intros q1 q2 i [[-> ->]|[-> ->]]%Hn [[-> E]|[-> E]]%Hn; [reflexivity|discriminate E|discriminate E|reflexivity].
  - intros q i [[-> ->]|[-> ->]]%Hn; vm_compute; by eexists.
  - intros q s d _. simpl. rewrite lookup_insert_Some, lookup_singleton_Some. naive_solver.
  - intros q s d c x [k e He Hc]. intros Hs. unfold content in Hs.
    destruct (w_names cache !! sidecar_at "c" "1" e) as [[i|]|] eqn:Hi; [|done..]. exfalso.
    by destruct (Hn _ _ Hi) as [[Hq _]|[Hq _]].
Qed.
Lemma published_images_verified_witness :
  after.2 !! 1 = Some (Done (Ok (GotImage (row_image "c" "1" entry true)))) ∧
  verified manifest kernels "c" "1" (GetImage row false) (GotImage (row_image "c" "1" entry true)) after.1.
Proof.
  assert (Hdone : after.2 !! 1 = Some (Done (Ok (GotImage (row_image "c" "1" entry true))))) by (vm_compute; reflexivity).
  split; [exact Hdone|].
  destruct (published_images_verified manifest kernels "c" "1" server jobs turns cache (bundled_ok none false) cache_starts) as [_ Hv].
  exact (Hv 1 (GetImage row false) _ eq_refl Hdone).
Defined.

(** One call that has to fetch everything, then one that no server answers. *)
Definition online : ienv := {| e_fault n := None; e_http n := e_http server 30; e_native n := true |}.
Definition offline : ienv := {| e_fault n := None; e_http n url := Refused "offline"; e_native n := false |}.
Abbreviation fetch_row cb := (ensure_published_image manifest "c" "1" row cb).
Abbreviation first := (run (perform online 0) (fetch_row true) cache).
Lemma fetched_image_is_reused_witness :
  first.2 = Ok (row_image "c" "1" entry true) ∧
  ∃ w', run (perform offline 1) (fetch_row false) first.1 = (w', Ok (row_image "c" "1" entry false)) ∧
    row_image "c" "1" entry true = row_image "c" "1" entry true ∧ w_names w' = w_names first.1 ∧ w_data w' = w_data first.1.
Proof.
  assert (Hl : first.2 = Ok (row_image "c" "1" entry true)) by (vm_compute; reflexivity). split; [exact Hl|].
  refine (fetched_image_is_reused manifest kernels "c" "1" online offline 0 1 row entry true false cache first.1
    (row_image "c" "1" entry true) (bundled_ok none false) _ _ cache_starts _ _).
  - vm_compute; reflexivity.
  - vm_compute; reflexivity.
  - rewrite <- Hl. apply surjective_pairing.
  - reflexivity.
Defined.

(** A file pinned by its SHA-512 is put in place before it is checked: while one
    process has been given the path, the damaged download of another stands
    there, and then nothing does. *)
Definition debian : prog path := ensure_rootfs_only "c" "debian" "https://cloud" "rootfs.qcow2" None (Some "abcd") false.
Definition flaky : ienv := {| e_fault n := None; e_http n url := sends (if n <? 12 then "abcd" else "dcba"); e_native n := true |}.
Definition empty_cache : world := {| w_names := ∅; w_data := ∅; w_clock := 0 |}.
Abbreviation race ts := (schedule (perform flaky) ts (empty_cache, [debian; debian])).
Theorem sha512_pin_is_checked_late :
  let q := At "c/debian" (Named "rootfs.qcow2") in
  let early := [1; 1; 1] ++ replicate 10 0 in
  let later := early ++ replicate 5 1 in
  let end_ := later ++ replicate 5 1 in
  (race early).2 !! 0 = Some (Done (Ok q)) ∧ content q (race early).1 = Some (text "abcd") ∧
  (race later).2 !! 0 = Some (Done (Ok q)) ∧ content q (race later).1 = Some (text "dcba") ∧
  (race end_).2 !! 0 = Some (Done (Ok q)) ∧ content q (race end_).1 = None.
Proof. vm_compute. repeat split. Qed.
End ImageDemo.
